(* ===== verification/_CoqProject ===== *)
-Q . S2P
Prelude.v
Mst.v
Runlist.v
RlMerge.v
MappingPairs.v
Device.v
RlIo.v
AttrIo.v
Bitmap.v
Lcnalloc.v
LcnSpec.v
Boot.v
Logfile.v
LogSpec.v
Unicode.v
Names.v
Compress.v
CompressRt.v
CompSet.v
Cache.v
CacheLru.v
CacheSpec.v
Sid.v
Acl.v
AclBuild.v
AclRead.v
AclSpec.v
AclSafe.v
Collate.v
AttrMst.v
Index.v
IndexSpec.v
IndexNode.v
IndexBlock.v
IndexMake.v
IndexBitmap.v
IndexTree.v
IndexLookup.v
IndexRoot.v
IndexSplit.v
IndexAdd.v
IndexApi.v
IndexSample.v
IndexNext.v
IndexRm.v
IndexTake.v
IndexLeaf.v
IndexRmLeaf.v
IndexRmNode.v
IndexRmPlace.v
IndexRmApi.v
Attr.v
AttrSpec.v
AttrRec.v
AttrAdd.v
AttrApi.v
Vdfuse.v
