(* ===== verification/Prelude.v ===== *)
(** * Verification of VHD-Boot

    VHD-Boot keeps two C programs that let a system start from an image file:
    a fork of ntfs-3g (src/kloop/ntfs-3g_ntfsprogs-2017.3.23-fixed/, below
    "ntfs-3g") and a FUSE program that shows the partitions of a VirtualBox
    image as files (src/vdfuseloop/vdfuse/src/vdfuse.c).  The rest of the
    repository is shell scripts and documentation.

    ** What is modelled, and where

    Every definition is a shallow embedding: C integers are [Z] with the
    wrap-around of their width written out ([u8] .. [s64]), a memory object is a
    list read and written through [zget], [zset], [zread] and [zwrite], and
    [option] is the out-of-bounds monad: [None] is an access outside the object
    (or a loop out of fuel), which is what the safety theorems exclude.  A
    function that fails with errno returns [Err].

    - Prelude: integers, arrays, little-endian words (include/ntfs-3g/types.h,
      endians.h), errno, and the tactics and lemmas the other files share.
    - Mst: the fixups that protect multi-sector records
      (libntfs-3g/mst.c).
    - Runlist: runlist elements, lookup, truncation, size accounting and the
      primitives and driver of the merge (libntfs-3g/runlist.c).  RlMerge proves
      the merge, on Runlist's definitions.
    - MappingPairs: the on-disk form of a runlist, encoder and decoder
      (libntfs-3g/runlist.c).
    - Device: positioned and protected I/O on a device (libntfs-3g/device.c),
      over the interface [DeviceOps] of a driver.  RlIo: I/O through a runlist
      (runlist.c: ntfs_rl_pread, ntfs_rl_pwrite), which calls Device.
    - AttrIo: the interface of attribute I/O, on which Bitmap (libntfs-3g/
      bitmap.c) sets and clears runs of bits.
    - Lcnalloc: clusters are taken from and given back to the bitmap of the volume
      (libntfs-3g/lcnalloc.c, and attrib.c: ntfs_attr_find_vcn).  LcnSpec: what
      allocating and freeing do to the set of used clusters.
    - Boot: the boot sector (libntfs-3g/bootsect.c) and the zones of a new volume
      (volume.c: ntfs_volume_startup), where Lcnalloc begins.
    - Logfile: the checks of the journal and its emptying (libntfs-3g/logfile.c,
      and volume.c: ntfs_volume_check_logfile), over AttrIo and Mst.  LogSpec: what
      the checks guarantee.
    - Unicode: UTF-16 and UTF-8 file names (libntfs-3g/unistr.c).  Names:
      comparison, collation and forbidden names (unistr.c).
    - Compress: the compression of a block and the decompression of a
      compression unit (libntfs-3g/compress.c).  CompressRt: the compressed
      format, and that the two are inverse.  CompSet: a unit is compressed and
      stored in its clusters (compress.c: ntfs_comp_set), over Device.
    - Cache: the LRU caches (libntfs-3g/cache.c) on a store of entries and hash
      links, with their pointers.  CacheLru: the doubly linked list, the free list
      and the hash index as an invariant, kept by each change.  CacheSpec: the
      operations against lists of items.
    - Sid: security identifiers and their mapping to Linux ids (libntfs-3g/acls.c).
    - Acl: security descriptors, checked, built for a mode and read as a mode
      (acls.c).  AclBuild: the bytes that are built.  AclRead: the loops over ACEs
      as folds over a list.  AclSpec and AclSafe: the theorems.
    - Collate: the orders of index keys (libntfs-3g/collate.c).  AttrMst: protected
      I/O on an attribute (attrib.c: ntfs_attr_mst_pread, ntfs_attr_mst_pwrite),
      over AttrIo and Mst.
    - Index: the B-trees of directories and views (libntfs-3g/index.c), over the
      interface [RootOps] of the records that hold an inode's attributes.
      IndexSpec: the bytes of a node as a list of slots, and the search of a node.
      IndexNode, IndexBlock, IndexMake: what each change does to the slots of a
      node, a block and the file of blocks.  IndexBitmap: the bitmap of the blocks.
      IndexTree: the tree of the blocks, and the sequence of entries in it.
      IndexLookup, IndexRoot, IndexSplit, IndexAdd: the descent, the root, the split
      of full blocks, and insertion, on that sequence.  IndexApi: the theorems.
      IndexSample: two small indexes.  IndexNext: iteration from an entry to the next.
    - IndexRm: the removal of entries (index.c), over Index.  IndexTake: an entry
      taken out of a node and added again.  IndexLeaf, IndexRmLeaf: blocks given back
      up the path.  IndexRmNode: an entry replaced by its successor, from the first
      leaf after it.  IndexRmPlace: the room for the successor, with a larger root or
      a split block.  IndexRmApi: the rounds and the theorem.
    - Attr: the attribute records of an MFT record, searched, added, resized and
      removed, and the checks against $AttrDef (libntfs-3g/attrib.c); the layout and
      the check of an MFT record (mft.c).  AttrSpec: the bytes of a record as a list
      of attributes.  AttrRec: room in a record, and resizing.  AttrAdd: the bytes of
      a new attribute, and the order of attributes.  AttrApi: the theorems.
    - Vdfuse: partition tables, the FUSE callbacks and the command line of the
      image mounter (vdfuse.c), over the interface [VDOps] of the VirtualBox
      library.

    Interfaces to code outside the modelled files are type classes: the
    operations ([DeviceOps], [AttrOps], [AttrResize], [RootOps], [VDOps]), the
    documented laws ([DeviceLaws], [AttrLaws], [AttrGrowLaws], [RootLaws], [VDLaws]) and, where a theorem needs it, that
    operations succeed ([ReliableDevice], [AttrReliable], [VDReliable]).  Each
    has an instance held in memory, on which the witnesses run.

    ** What the theorems show

    - Mst: protecting and reading back restores a record; a torn write is
      detected; arbitrary bytes cannot make the fixup leave its buffer.
    - Runlist, RlMerge: lookup agrees with the abstract map from virtual to
      logical clusters; truncation keeps what lies below the cut; merging an
      extent into an unmapped gap overrides exactly its clusters.
    - MappingPairs: the encoder stores the longest prefix that fits, the size it
      computes is the size it needs, decoding gives the runs back, and decoding
      arbitrary bytes is memory-safe but for one byte behind the record.
    - Device, RlIo: reads return the bytes of the device or file, writes change
      exactly what they count; one theorem shows where a short transfer inside a
      run makes ntfs_rl_pread return wrong data.
    - Bitmap: a run of bits is set or cleared exactly, at any alignment.
    - LcnSpec: allocation ends, takes exactly the clusters it returns and nothing
      when it fails; freeing undoes it; freeing a range of a file frees what it is
      mapped to; a fragmented volume can make a small request fail.
    - Boot: an accepted boot sector gives a well-formed geometry; the zones are set
      up as allocation wants them, unless the MFT begins at the end of the volume.
    - LogSpec: a volume is mounted only if its journal is empty or the restart page
      with the greatest LSN says that it was closed; the checks of a restart page stay in the page, but for two kinds of
      pages that are shown; an emptied journal is found clean.
    - Unicode, Names: conversion is memory-safe, exact and reversible, but that the
      UTF-8 forms of surrogates are accepted; collation is a total order; the hashed test for reserved names is exact.
    - Compress, CompressRt, CompSet: what is compressed, and stored, decompresses
      to the same bytes; decompressing arbitrary bytes stays in its buffers but
      for one byte, and a stream that writes that byte exists; a run of 4 GiB is
      skipped when compressed data is stored.
    - CacheSpec: a cache under any operations is a bounded list of items, most
      recent first; after a shortage of memory it may be a list that never ends.
    - Sid: an id mapped to a SID is found back from it, but for three user ids.
    - AclSpec, AclSafe: a mode built into a descriptor is read back from it;
      built descriptors are accepted; accepted descriptors are read without leaving
      them, but for reads that are shown.
    - IndexApi: an index is a sorted sequence of entries.  A lookup finds the
      entry of a key, or its place; adding an entry puts it in its place, whatever
      blocks are split, and the other entries stay.  The theorems hold for every
      collation rule that is an order (the class [KeyOrder] of Collate).  IndexNext:
      iteration from an entry that was found gives the rest of the sequence, if no leaf
      is empty; from one in the root of an index with blocks it stops at once.
      IndexRmApi: a removal that succeeds takes the entry out of the sequence, also when
      the root has to grow or a block to be split for its successor.  It does succeed
      from a root without blocks, and when there is memory, the successor is not longer
      and no leaf becomes empty; examples show what fails otherwise, and that a failure
      after the root has grown is reported as a success ([Unreported]).
    - AttrApi: an MFT record is a list of attributes in order.  The search is the
      search of that list, an added attribute is put in its place and found again
      unless it is there (and there is none of its type and name with another value,
      which is not refused), a resized value keeps its bytes, a removed attribute leaves the others, and
      what fails changes nothing; an empty record is well formed.
    - Vdfuse: parsing is memory-safe and exact for primary partitions; I/O is
      confined to its partition; whole disk and partitions exclude each other
      when callbacks do not interleave, and do not when they do.

    ** Fuel

    Loops that are not structural carry fuel, and the fuel passed by the callers
    is always enough: the theorems that a function returns [Some] are proved
    with it.  Loops that retry a device operation (EINTR, short counts) take it
    as an argument; the theorems bound it by the size of the request.  The search
    for free clusters takes the number of buffers it may look at; 20 for each bit of
    the bitmap are enough, since each buffer takes a cluster, moves on or ends a
    pass over one of three zones.  The loops over the entries of a node have one
    round for each byte of the node, and the descent one for each of the 32 levels
    the code allows.  ntfs_ie_add takes the number of its rounds: each makes room
    and searches again, and one more than that which makes room inserts.  The loop
    that moves a root to another record needs two rounds.  The removal of an entry adds
    another one at most, with the rounds of ntfs_ie_add; its walk up is bounded by the
    depth of the context, its walk down by the 32 levels.  ntfs_index_remove takes the
    number of its searches; one is enough where the theorem says that it succeeds, and
    each of the others follows a split block or a root that was moved.  What runs out of
    rounds ends with a result of its own.

    ** What is not modelled

    The FUSE drivers (src/ntfs-3g.c, src/lowntfs-3g.c), libfuse-lite and the
    programs of ntfsprogs/; in libntfs-3g: attribute lists, non-resident attribute
    records, opening, reading, writing and truncating attributes (attrib.c, attrlist.c), directories and inodes
    (dir.c, inode.c, and mft.c but for the layout and the check of records), the caches and the
    $Secure file of security.c, inherited and POSIX ACLs, EFS, reparse
    points, object ids, the rest of mounting a volume, options, and the operating system
    interfaces (unix_io.c, win32_io.c, plugin.c, realpath.c).  Big-endian
    hosts, Mac OS name normalisation and non-UTF-8 locales are not either.

    In what is modelled, some details are not: malloc and realloc succeed in Runlist,
    Compress and Unicode; the positions of a run of bits are not cut to 32 bits
    (bitmap.c; only runs of 2^34 bits and more are, which the theorem excludes); the
    errno of a failing call of the attribute interfaces is EIO; inodes and contexts that
    are NULL are not passed. *)

From Stdlib Require Export ZArith Lia.
From stdpp Require Export base numbers option list.

#[export] Set Default Proof Using "Type".
Declare Scope c_scope.
Delimit Scope c_scope with c.
Local Open Scope Z_scope.

(** ** C integer types (include/ntfs-3g/types.h) *)

Definition wrap_u (w x : Z) : Z := x mod 2 ^ w.
Definition wrap_s (w x : Z) : Z := (x + 2 ^ (w - 1)) mod 2 ^ w - 2 ^ (w - 1).

Definition u8 (x : Z) : Z := wrap_u 8 x.
Definition u16 (x : Z) : Z := wrap_u 16 x.
Definition u32 (x : Z) : Z := wrap_u 32 x.
Definition u64 (x : Z) : Z := wrap_u 64 x.
Definition s8 (x : Z) : Z := wrap_s 8 x.
Definition s16 (x : Z) : Z := wrap_s 16 x.
Definition s32 (x : Z) : Z := wrap_s 32 x.
Definition s64 (x : Z) : Z := wrap_s 64 x.

Definition in_s64 (x : Z) : Prop := - 2 ^ 63 <= x < 2 ^ 63.

Lemma wrap_u_range w x : 0 <= w -> 0 <= wrap_u w x < 2 ^ w.
Proof. intros. apply Z.mod_pos_bound. lia. Qed.

Lemma wrap_u_small w x : 0 <= x < 2 ^ w -> wrap_u w x = x.
Proof. apply Z.mod_small. Qed.

Lemma wrap_s_range w x : 0 < w -> - 2 ^ (w - 1) <= wrap_s w x < 2 ^ (w - 1).
Proof.
  intros Hw. unfold wrap_s.
  assert (2 ^ w = 2 * 2 ^ (w - 1)) as Hp.
  { rewrite <- Z.pow_succ_r by lia. f_equal. lia. }
  pose proof (Z.mod_pos_bound (x + 2 ^ (w - 1)) (2 ^ w)).
  assert (0 < 2 ^ (w - 1)) by lia. lia.
Qed.

Lemma wrap_s_small w x : 0 < w -> - 2 ^ (w - 1) <= x < 2 ^ (w - 1) -> wrap_s w x = x.
Proof.
  intros Hw Hx. unfold wrap_s.
  assert (2 ^ w = 2 * 2 ^ (w - 1)) as Hp.
  { rewrite <- Z.pow_succ_r by lia. f_equal. lia. }
  rewrite Z.mod_small by lia. lia.
Qed.

Lemma s64_small x : in_s64 x -> s64 x = x.
Proof. intros. apply wrap_s_small; [lia | exact H]. Qed.

Lemma s32_small x : - 2 ^ 31 <= x < 2 ^ 31 -> s32 x = x.
Proof. intros. apply wrap_s_small; lia. Qed.

(** ** Errors *)

(** The [errno] values the modelled functions set. *)
Inductive errno :=
  | EINVAL | EIO | ENOSPC | ENOMEM | ERANGE | ENOENT | EOVERFLOW | EILSEQ
  | ENAMETOOLONG | EROFS | EOPNOTSUPP | EINTR | ESPIPE | EBUSY | EPERM | EACCES
  | EEXIST | ENODEV | EISDIR | ENOTDIR | EFAULT | EAGAIN.

#[export] Instance errno_eq_dec : EqDecision errno.
Proof. solve_decision. Defined.

(** A C function that returns a value or fails with [errno] set. *)
Inductive result (A : Type) : Type :=
  | Ok (a : A)
  | Err (e : errno).
Arguments Ok {A} a.
Arguments Err {A} e.

Definition is_ok {A} (r : result A) : bool := if r is Ok _ then true else false.

(** ** Arrays indexed by C integers

    [option] is the out-of-bounds monad: [None] is an access outside the
    object, which C leaves undefined. *)

Section arrays.
Context {A : Type}.
Implicit Types (l : list A) (i a n : Z).

Definition zlen l : Z := Z.of_nat (length l).

Definition zget l i : option A := if i <? 0 then None else l !! Z.to_nat i.

Definition zset l i (x : A) : option (list A) :=
  if (0 <=? i) && (i <? zlen l) then Some (<[Z.to_nat i := x]> l) else None.

(** [n] elements from index [a]: the source of a [memcpy]. *)
Definition zread l a n : option (list A) :=
  if (0 <=? a) && (0 <=? n) && (a + n <=? zlen l)
  then Some (take (Z.to_nat n) (drop (Z.to_nat a) l)) else None.

(** Overwrite from index [a]: the destination of a [memcpy]. *)
Definition zwrite l a (xs : list A) : option (list A) :=
  if (0 <=? a) && (a + zlen xs <=? zlen l)
  then Some (take (Z.to_nat a) l ++ xs ++ drop (Z.to_nat a + length xs) l) else None.

Lemma zlen_nonneg l : 0 <= zlen l.
Proof. unfold zlen. lia. Qed.

Lemma zlen_nil : zlen [] = 0.
Proof. done. Qed.

Lemma zlen_cons x l : zlen (x :: l) = zlen l + 1.
Proof. unfold zlen. cbn. lia. Qed.

Lemma zlen_app l1 l2 : zlen (l1 ++ l2) = zlen l1 + zlen l2.
Proof. unfold zlen. rewrite length_app. lia. Qed.

Lemma zlen_replicate k (x : A) : zlen (replicate k x) = Z.of_nat k.
Proof. unfold zlen. by rewrite length_replicate. Qed.

Lemma zget_bounds l i x : zget l i = Some x -> 0 <= i < zlen l.
Proof.
  unfold zget, zlen. destruct (Z.ltb_spec i 0); [done|].
  intros H2%lookup_lt_Some. lia.
Qed.

Lemma zget_inside l i : 0 <= i < zlen l -> exists x, zget l i = Some x.
Proof.
  unfold zget, zlen. intros. destruct (Z.ltb_spec i 0); [lia|].
  destruct (lookup_lt_is_Some_2 l (Z.to_nat i)) as [x Hx]; [lia | eauto].
Qed.

Lemma zget_outside l i : i < 0 \/ zlen l <= i -> zget l i = None.
Proof.
  unfold zget, zlen. intros. destruct (Z.ltb_spec i 0); [done|].
  apply lookup_ge_None. lia.
Qed.

Lemma zget_nat l (k : nat) : zget l (Z.of_nat k) = l !! k.
Proof. unfold zget. destruct (Z.ltb_spec (Z.of_nat k) 0); [lia|]. by rewrite Nat2Z.id. Qed.

Lemma zget_ext l1 l2 : (forall i, 0 <= i -> zget l1 i = zget l2 i) -> l1 = l2.
Proof.
  intros H. apply list_eq. intros k. rewrite <-!zget_nat. apply H. lia.
Qed.

Lemma zget_app l1 l2 i :
  zget (l1 ++ l2) i = if i <? zlen l1 then zget l1 i else zget l2 (i - zlen l1).
Proof.
  unfold zget, zlen. destruct (Z.ltb_spec i 0).
  - destruct (Z.ltb_spec i (Z.of_nat (length l1))); [done|].
    destruct (Z.ltb_spec (i - Z.of_nat (length l1)) 0); [done | lia].
  - destruct (Z.ltb_spec i (Z.of_nat (length l1))).
    + apply lookup_app_l. lia.
    + destruct (Z.ltb_spec (i - Z.of_nat (length l1)) 0); [lia|].
      rewrite lookup_app_r by lia. f_equal. lia.
Qed.

Lemma zget_app_l l1 l2 i : i < zlen l1 -> zget (l1 ++ l2) i = zget l1 i.
Proof. intros. rewrite zget_app. destruct (Z.ltb_spec i (zlen l1)); [done | lia]. Qed.

Lemma zget_app_r l1 l2 i : zlen l1 <= i -> zget (l1 ++ l2) i = zget l2 (i - zlen l1).
Proof. intros. rewrite zget_app. destruct (Z.ltb_spec i (zlen l1)); [lia | done]. Qed.

Lemma zget_cons_0 x l : zget (x :: l) 0 = Some x.
Proof. done. Qed.

Lemma zget_cons_S x l i : 0 < i -> zget (x :: l) i = zget l (i - 1).
Proof.
  intros. change (x :: l) with ([x] ++ l).
  rewrite zget_app_r by (rewrite ?zlen_cons, ?zlen_nil; lia). f_equal.
Qed.

Lemma zset_inside l i x : 0 <= i < zlen l -> zset l i x = Some (<[Z.to_nat i := x]> l).
Proof.
  intros. unfold zset. destruct (Z.leb_spec 0 i), (Z.ltb_spec i (zlen l)); cbn; lia || done.
Qed.

Lemma zset_Some l i x l' : zset l i x = Some l' ->
  0 <= i < zlen l /\ zlen l' = zlen l /\
  (forall j, zget l' j = if j =? i then Some x else zget l j).
Proof.
  unfold zset. destruct (Z.leb_spec 0 i), (Z.ltb_spec i (zlen l)); cbn; intros [= <-].
  split_and!; [lia | lia | unfold zlen; by rewrite length_insert |].
  intros j. unfold zget, zlen in *. destruct (Z.ltb_spec j 0), (Z.eqb_spec j i); subst; try done; try lia.
  - apply list_lookup_insert_eq. lia.
  - apply list_lookup_insert_ne. lia.
Qed.

Lemma zread_inside l a n : 0 <= a -> 0 <= n -> a + n <= zlen l ->
  zread l a n = Some (take (Z.to_nat n) (drop (Z.to_nat a) l)).
Proof.
  intros. unfold zread.
  destruct (Z.leb_spec 0 a), (Z.leb_spec 0 n), (Z.leb_spec (a + n) (zlen l)); cbn; lia || done.
Qed.

Lemma zread_Some l a n xs : zread l a n = Some xs ->
  0 <= a /\ 0 <= n /\ a + n <= zlen l /\ zlen xs = n /\
  (forall j, 0 <= j < n -> zget xs j = zget l (a + j)).
Proof.
  unfold zread.
  destruct (Z.leb_spec 0 a), (Z.leb_spec 0 n), (Z.leb_spec (a + n) (zlen l)); cbn;
    intros [= <-]; unfold zlen in *.
  rewrite length_take, length_drop.
  split_and!; try lia. intros j Hj. unfold zget.
  destruct (Z.ltb_spec j 0), (Z.ltb_spec (a + j) 0); try lia.
  rewrite lookup_take_lt by lia. rewrite lookup_drop. f_equal. lia.
Qed.

Lemma zwrite_inside l a xs : 0 <= a -> a + zlen xs <= zlen l ->
  zwrite l a xs = Some (take (Z.to_nat a) l ++ xs ++ drop (Z.to_nat a + length xs) l).
Proof.
  intros. unfold zwrite.
  destruct (Z.leb_spec 0 a), (Z.leb_spec (a + zlen xs) (zlen l)); cbn; lia || done.
Qed.

Lemma zwrite_Some l a xs l' : zwrite l a xs = Some l' ->
  0 <= a /\ a + zlen xs <= zlen l /\ zlen l' = zlen l /\
  (forall j, zget l' j =
     if (a <=? j) && (j <? a + zlen xs) then zget xs (j - a) else zget l j).
Proof.
  unfold zwrite.
  destruct (Z.leb_spec 0 a), (Z.leb_spec (a + zlen xs) (zlen l)); cbn;
    intros [= <-]; unfold zlen in *.
  rewrite !length_app, length_take, length_drop. split_and!; try lia.
  intros j. unfold zget.
  destruct (Z.leb_spec a j), (Z.ltb_spec j (a + Z.of_nat (length xs))); cbn;
    destruct (Z.ltb_spec j 0); try lia; try done.
  - destruct (Z.ltb_spec (j - a) 0); [lia|].
    rewrite lookup_app_r by (rewrite length_take; lia).
    rewrite lookup_app_l by (rewrite length_take; lia).
    f_equal. rewrite length_take. lia.
  - rewrite lookup_app_r by (rewrite length_take; lia).
    rewrite lookup_app_r by (rewrite length_take; lia).
    rewrite lookup_drop. f_equal. rewrite length_take. lia.
  - rewrite lookup_app_l by (rewrite length_take; lia).
    rewrite lookup_take_lt by lia. done.
Qed.

Lemma zget_mid l1 x l2 i : i = zlen l1 -> zget (l1 ++ x :: l2) i = Some x.
Proof. intros ->. rewrite zget_app_r by lia. by rewrite Z.sub_diag. Qed.

Lemma zset_mid l1 x l2 i y : i = zlen l1 -> zset (l1 ++ x :: l2) i y = Some (l1 ++ y :: l2).
Proof.
  intros ->. rewrite zset_inside by (rewrite zlen_app, zlen_cons; pose proof (zlen_nonneg l1);
    pose proof (zlen_nonneg l2); lia).
  f_equal. unfold zlen. rewrite Nat2Z.id. by rewrite <-(Nat.add_0_r (length l1)), insert_app_r.
Qed.

Lemma zread_mid l1 l2 l3 a n : a = zlen l1 -> n = zlen l2 -> zread (l1 ++ l2 ++ l3) a n = Some l2.
Proof.
  intros -> ->. pose proof (zlen_nonneg l1). pose proof (zlen_nonneg l2). pose proof (zlen_nonneg l3).
  rewrite zread_inside by (rewrite ?zlen_app; lia). unfold zlen. rewrite !Nat2Z.id.
  by rewrite drop_app_length, take_app_length.
Qed.

Lemma zwrite_mid l1 l2 l3 a xs : a = zlen l1 -> zlen xs = zlen l2 ->
  zwrite (l1 ++ l2 ++ l3) a xs = Some (l1 ++ xs ++ l3).
Proof.
  intros -> Hx. pose proof (zlen_nonneg l1). pose proof (zlen_nonneg l2). pose proof (zlen_nonneg l3).
  rewrite zwrite_inside by (rewrite ?zlen_app; lia). unfold zlen in *. rewrite Nat2Z.id.
  rewrite take_app_length. do 3 f_equal.
  rewrite app_assoc. apply drop_app_length'. rewrite length_app. lia.
Qed.

Lemma zwrite_nil l a : 0 <= a <= zlen l -> zwrite l a [] = Some l.
Proof.
  intros. rewrite zwrite_inside by (rewrite ?zlen_nil; lia). cbn. by rewrite Nat.add_0_r, take_drop.
Qed.

(** Two writes that follow each other are one. *)
Lemma zwrite_app l a xs ys l1 l2 :
  zwrite l a xs = Some l1 -> zwrite l1 (a + zlen xs) ys = Some l2 -> zwrite l a (xs ++ ys) = Some l2.
Proof.
  intros (Ha & Hb & Hl & Hg)%zwrite_Some (Ha2 & Hb2 & Hl2 & Hg2)%zwrite_Some.
  pose proof (zlen_nonneg xs). pose proof (zlen_nonneg ys).
  destruct (zwrite l a (xs ++ ys)) as [l'|] eqn:E.
  - apply zwrite_Some in E as (_ & _ & Hl' & Hg'). f_equal. apply zget_ext. intros j Hj.
    rewrite Hg', Hg2, Hg, zget_app, zlen_app.
    destruct (Z.leb_spec a j), (Z.ltb_spec j (a + (zlen xs + zlen ys))), (Z.leb_spec (a + zlen xs) j),
      (Z.ltb_spec j (a + zlen xs + zlen ys)), (Z.ltb_spec j (a + zlen xs)), (Z.ltb_spec (j - a) (zlen xs));
      cbn; try lia; try done. f_equal. lia.
  - rewrite zwrite_inside in E by (rewrite ?zlen_app; lia). done.
Qed.

Lemma zset_zwrite l i x : zset l i x = zwrite l i [x].
Proof.
  unfold zset, zwrite. rewrite zlen_cons, zlen_nil. change (0 + 1) with 1.
  destruct (Z.leb_spec 0 i), (Z.ltb_spec i (zlen l)), (Z.leb_spec (i + 1) (zlen l)); cbn; try done; try lia.
  f_equal. unfold zlen in *. rewrite insert_take_drop by lia. cbn. do 3 f_equal. lia.
Qed.

Lemma zwrite_cons l a x xs l1 l2 :
  zset l a x = Some l1 -> zwrite l1 (a + 1) xs = Some l2 -> zwrite l a (x :: xs) = Some l2.
Proof. rewrite zset_zwrite. intros H1 H2. by apply (zwrite_app l a [x] xs l1). Qed.

Lemma zwrite_cons_last l a x xs l1 l2 :
  zwrite l (a + 1) xs = Some l1 -> zset l1 a x = Some l2 -> zwrite l a (x :: xs) = Some l2.
Proof.
  intros (Ha & Hb & Hl & Hg)%zwrite_Some (Ha2 & Hl2 & Hg2)%zset_Some. pose proof (zlen_nonneg xs).
  destruct (zwrite l a (x :: xs)) as [l'|] eqn:E; [|rewrite zwrite_inside in E by (rewrite ?zlen_cons; lia); done].
  apply zwrite_Some in E as (_ & _ & Hl' & Hg'). f_equal. apply zget_ext. intros j Hj.
  rewrite Hg', Hg2, Hg, zlen_cons.
  destruct (Z.eqb_spec j a) as [->|].
  - rewrite Z.sub_diag, zget_cons_0. destruct (Z.leb_spec a a), (Z.ltb_spec a (a + (zlen xs + 1))); cbn; done || lia.
  - destruct (Z.leb_spec a j), (Z.ltb_spec j (a + (zlen xs + 1))), (Z.leb_spec (a + 1) j),
      (Z.ltb_spec j (a + 1 + zlen xs)); cbn; try done; try lia.
    rewrite zget_cons_S by lia. f_equal. lia.
Qed.

(** [m'] differs from [m] at most in [lo, hi). *)
Definition frame (m m' : list A) (lo hi : Z) : Prop :=
  zlen m' = zlen m /\ forall j, j < lo \/ hi <= j -> zget m' j = zget m j.

Lemma frame_refl m lo hi : frame m m lo hi.
Proof. done. Qed.

Lemma frame_trans m1 m2 m3 lo1 hi1 lo2 hi2 lo hi :
  frame m1 m2 lo1 hi1 -> frame m2 m3 lo2 hi2 -> lo <= lo1 -> lo <= lo2 -> hi1 <= hi -> hi2 <= hi ->
  frame m1 m3 lo hi.
Proof.
  intros [L1 G1] [L2 G2] ????. split; [congruence|]. intros j Hj. rewrite G2, G1 by lia. done.
Qed.

Lemma zwrite_frame m a xs m' : zwrite m a xs = Some m' -> frame m m' a (a + zlen xs).
Proof.
  intros (_ & _ & Hl & Hg)%zwrite_Some. split; [done|]. intros j Hj. rewrite Hg.
  destruct (Z.leb_spec a j), (Z.ltb_spec j (a + zlen xs)); done || lia.
Qed.

Lemma zset_frame m a x m' : zset m a x = Some m' -> frame m m' a (a + 1).
Proof. rewrite zset_zwrite. apply zwrite_frame. Qed.

Lemma zwrite_get m a xs m' j : zwrite m a xs = Some m' -> 0 <= j < zlen xs -> zget m' (a + j) = zget xs j.
Proof.
  intros (_ & _ & _ & Hg)%zwrite_Some Hj. rewrite Hg.
  destruct (Z.leb_spec a (a + j)), (Z.ltb_spec (a + j) (a + zlen xs)); cbn; try lia. f_equal. lia.
Qed.

(** [m] holds [xs] at index [a]. *)
Definition holds (m : list A) (a : Z) (xs : list A) : Prop :=
  forall j, 0 <= j < zlen xs -> zget m (a + j) = zget xs j.

Lemma holds_nil m a : holds m a [].
Proof. intros j Hj. rewrite zlen_nil in Hj. lia. Qed.

Lemma holds_zwrite m a xs m' : zwrite m a xs = Some m' -> holds m' a xs.
Proof. intros H j Hj. by apply (zwrite_get m). Qed.

Lemma holds_zset m a x m' : zset m a x = Some m' -> holds m' a [x].
Proof. rewrite zset_zwrite. apply holds_zwrite. Qed.

Lemma holds_frame m m' a xs lo hi :
  holds m a xs -> frame m m' lo hi -> a + zlen xs <= lo \/ hi <= a -> holds m' a xs.
Proof. intros H [_ Hf] Hd j Hj. rewrite Hf by lia. by apply H. Qed.

Lemma holds_app m a xs ys : holds m a (xs ++ ys) <-> holds m a xs /\ holds m (a + zlen xs) ys.
Proof.
  pose proof (zlen_nonneg xs). pose proof (zlen_nonneg ys). split.
  - intros H1. split; intros j Hj.
    + rewrite H1 by (rewrite zlen_app; lia). by rewrite zget_app_l by lia.
    + rewrite <-Z.add_assoc, H1 by (rewrite zlen_app; lia). rewrite zget_app_r by lia. f_equal. lia.
  - intros [H1 H2] j Hj. rewrite zlen_app in Hj. rewrite zget_app. destruct (Z.ltb_spec j (zlen xs)).
    + apply H1. lia.
    + rewrite <-H2 by lia. f_equal. lia.
Qed.

Lemma holds_cons m a x xs : holds m a (x :: xs) <-> zget m a = Some x /\ holds m (a + 1) xs.
Proof.
  change (x :: xs) with ([x] ++ xs). rewrite holds_app. change (zlen [x]) with 1.
  split; intros [H1 H2]; (split; [|done]).
  - specialize (H1 0). rewrite Z.add_0_r in H1. apply H1. by cbn.
  - intros j Hj. change (zlen [x]) with 1 in Hj. replace j with 0 by lia. by rewrite Z.add_0_r.
Qed.

Lemma holds_zread m a xs : holds m a xs -> 0 <= a -> a + zlen xs <= zlen m -> zread m a (zlen xs) = Some xs.
Proof.
  intros H Ha Hb. pose proof (zlen_nonneg xs).
  destruct (zread m a (zlen xs)) as [ys|] eqn:E; [|rewrite zread_inside in E by lia; done].
  apply zread_Some in E as (_ & _ & _ & Hl & Hg). f_equal. apply zget_ext. intros j Hj.
  destruct (Z.lt_ge_cases j (zlen xs)); [rewrite Hg by lia; apply H; lia |].
  by rewrite !zget_outside by lia.
Qed.

(** A read inside what another read returned. *)
Lemma zread_sub m a n xs b k : zread m a n = Some xs -> 0 <= b -> 0 <= k -> b + k <= n ->
  zread xs b k = zread m (a + b) k.
Proof.
  intros (Ha & Hn & Hb & Hl & Hg)%zread_Some Hb' Hk Hbk.
  destruct (zread xs b k) as [ys|] eqn:E1; [|rewrite zread_inside in E1 by lia; done].
  destruct (zread m (a + b) k) as [zs|] eqn:E2; [|rewrite zread_inside in E2 by lia; done].
  apply zread_Some in E1 as (_ & _ & _ & L1 & G1), E2 as (_ & _ & _ & L2 & G2).
  f_equal. apply zget_ext. intros j Hj. destruct (Z.lt_ge_cases j k).
  - rewrite G1, G2, Hg by lia. f_equal. lia.
  - by rewrite !zget_outside by lia.
Qed.

Lemma zread_get m a n xs b : zread m a n = Some xs -> 0 <= b < n -> zget xs b = zget m (a + b).
Proof. intros (_ & _ & _ & _ & Hg)%zread_Some Hb. by apply Hg. Qed.

Lemma zget_Forall (P : A -> Prop) l i x : Forall P l -> zget l i = Some x -> P x.
Proof.
  unfold zget. destruct (i <? 0); [done|]. intros H1 H2. by eapply Forall_lookup_1 in H1.
Qed.

Lemma zget_Forall_2 (P : A -> Prop) l :
  (forall i x, zget l i = Some x -> P x) -> Forall P l.
Proof.
  intros H. apply Forall_lookup_2. intros k x Hx. apply (H (Z.of_nat k)). by rewrite zget_nat.
Qed.

End arrays.

#[global] Arguments zlen : simpl never.
#[global] Arguments zget : simpl never.
#[global] Arguments zset : simpl never.
#[global] Arguments zread : simpl never.
#[global] Arguments zwrite : simpl never.


Notation "m .[ i ]" := (zget m i) (at level 1, i at level 200, left associativity, format "m .[ i ]") : c_scope.

(** ** Bytes and little-endian words (include/ntfs-3g/endians.h)

    A memory object is a list of byte values; [ld n m a] and [st n m a v] are
    the [n]-byte little-endian load and store that [le16_to_cpup],
    [le32_to_cpup], [sle64_to_cpu] and their [cpu_to_*] inverses perform. *)

Definition is_byte (x : Z) : Prop := 0 <= x < 256.
Definition wf_bytes (m : list Z) : Prop := Forall is_byte m.

#[export] Instance is_byte_dec x : Decision (is_byte x).
Proof. unfold is_byte. apply _. Defined.

Fixpoint le_decode (bs : list Z) : Z :=
  match bs with
  | [] => 0
  | b :: t => b + 256 * le_decode t
  end.

Fixpoint le_encode (n : nat) (v : Z) : list Z :=
  match n with
  | O => []
  | S n' => v mod 256 :: le_encode n' (v / 256)
  end.

Definition ld (n : nat) (m : list Z) (a : Z) : option Z :=
  bs ← zread m a (Z.of_nat n); Some (le_decode bs).
Definition st (n : nat) (m : list Z) (a v : Z) : option (list Z) :=
  zwrite m a (le_encode n v).

(** Unsigned loads and stores of the three widths, and the signed load. *)
Definition le16_to_cpup (m : list Z) (a : Z) : option Z := ld 2 m a.
Definition le32_to_cpup (m : list Z) (a : Z) : option Z := ld 4 m a.
Definition le64_to_cpup (m : list Z) (a : Z) : option Z := ld 8 m a.
Definition sle64_to_cpup (m : list Z) (a : Z) : option Z := v ← ld 8 m a; Some (s64 v).
Definition put_le16 (m : list Z) (a v : Z) : option (list Z) := st 2 m a v.
Definition put_le32 (m : list Z) (a v : Z) : option (list Z) := st 4 m a v.
Definition put_le64 (m : list Z) (a v : Z) : option (list Z) := st 8 m a v.

Lemma zlen_le_encode n v : zlen (le_encode n v) = Z.of_nat n.
Proof.
  revert v; induction n as [|n IH]; intros v; cbn [le_encode]; [done|].
  rewrite zlen_cons, IH. lia.
Qed.

Lemma pow256_S n : 256 ^ Z.of_nat (S n) = 256 * 256 ^ Z.of_nat n.
Proof. rewrite Nat2Z.inj_succ, Z.pow_succ_r by lia. done. Qed.

Lemma le_decode_encode n v : le_decode (le_encode n v) = v mod 256 ^ Z.of_nat n.
Proof.
  revert v; induction n as [|n IH]; intros v; cbn [le_encode le_decode].
  - by rewrite Z.mod_1_r.
  - rewrite IH, pow256_S, Z.rem_mul_r by lia. lia.
Qed.

Lemma le_encode_decode bs : wf_bytes bs -> le_encode (length bs) (le_decode bs) = bs.
Proof.
  induction 1 as [|b bs Hb _ IH]; cbn [length le_encode le_decode]; [done|].
  unfold is_byte in Hb. f_equal.
  - rewrite Z.mul_comm, Z.mod_add by lia. by apply Z.mod_small.
  - rewrite Z.mul_comm, Z.div_add, Z.div_small, Z.add_0_l by lia. done.
Qed.

Lemma wf_le_encode n v : wf_bytes (le_encode n v).
Proof.
  revert v; induction n as [|n IH]; intros v; cbn [le_encode]; constructor.
  - apply Z.mod_pos_bound. lia.
  - apply IH.
Qed.

Lemma zget_le_encode n v j : 0 <= j < Z.of_nat n -> zget (le_encode n v) j = Some ((v / 256 ^ j) mod 256).
Proof.
  revert v j; induction n as [|n IH]; intros v j Hj; [lia|]. cbn [le_encode].
  destruct (decide (j = 0)) as [->|].
  - rewrite zget_cons_0. by rewrite Z.pow_0_r, Z.div_1_r.
  - rewrite zget_cons_S, IH by lia. rewrite Z.div_div by lia. do 4 f_equal.
    replace (256 ^ j) with (256 ^ (1 + (j - 1))) by (f_equal; lia). rewrite Z.pow_add_r by lia. lia.
Qed.

Lemma le_decode_range bs : wf_bytes bs -> 0 <= le_decode bs < 256 ^ zlen bs.
Proof.
  induction 1 as [|b bs Hb _ IH]; cbn [le_decode].
  - rewrite (@zlen_nil Z). lia.
  - unfold is_byte in Hb. rewrite zlen_cons, Z.pow_add_r by (pose proof (zlen_nonneg bs); lia). lia.
Qed.

Lemma wf_zread m a n xs : wf_bytes m -> zread m a n = Some xs -> wf_bytes xs.
Proof.
  intros Hm (Ha & Hn & Hb & Hl & Hg)%zread_Some. apply zget_Forall_2. intros i x Hx.
  pose proof (zget_bounds _ _ _ Hx). rewrite Hg in Hx by lia.
  by eapply zget_Forall in Hx.
Qed.

Lemma wf_zwrite m a xs m' : wf_bytes m -> wf_bytes xs -> zwrite m a xs = Some m' -> wf_bytes m'.
Proof.
  intros Hm Hx (_ & _ & _ & Hg)%zwrite_Some. apply zget_Forall_2. intros i x.
  rewrite Hg. destruct (_ && _); intros H; by eapply zget_Forall in H.
Qed.

Lemma ld_inside n m a : 0 <= a -> a + Z.of_nat n <= zlen m -> exists v, ld n m a = Some v.
Proof. intros. unfold ld. rewrite zread_inside by lia. cbn. eauto. Qed.

Lemma ld_bounds n m a v : ld n m a = Some v -> 0 <= a /\ a + Z.of_nat n <= zlen m.
Proof.
  unfold ld. destruct (zread m a (Z.of_nat n)) eqn:E; cbn; [|done].
  apply zread_Some in E. intuition lia.
Qed.

Lemma ld_sub k m a n xs b : zread m a n = Some xs -> 0 <= b -> b + Z.of_nat k <= n -> ld k xs b = ld k m (a + b).
Proof. intros H ??. unfold ld. by rewrite (zread_sub _ _ _ _ _ _ H) by lia. Qed.

Lemma ld_range n m a v : wf_bytes m -> ld n m a = Some v -> 0 <= v < 256 ^ Z.of_nat n.
Proof.
  unfold ld. destruct (zread m a (Z.of_nat n)) as [bs|] eqn:E; cbn; [|done].
  intros Hm [= <-]. pose proof (wf_zread _ _ _ _ Hm E) as Hw.
  apply zread_Some in E as (_ & _ & _ & <- & _). by apply le_decode_range.
Qed.

Lemma st_inside n m a v : 0 <= a -> a + Z.of_nat n <= zlen m -> exists m', st n m a v = Some m'.
Proof. intros. unfold st. rewrite zwrite_inside by (rewrite ?zlen_le_encode; lia). eauto. Qed.

Lemma st_Some n m a v m' : st n m a v = Some m' ->
  0 <= a /\ a + Z.of_nat n <= zlen m /\ zlen m' = zlen m /\
  (forall j, zget m' j =
     if (a <=? j) && (j <? a + Z.of_nat n) then zget (le_encode n v) (j - a) else zget m j).
Proof. unfold st. intros H%zwrite_Some. by rewrite zlen_le_encode in H. Qed.

Lemma st_zlen n m a v m' : st n m a v = Some m' -> zlen m' = zlen m.
Proof. intros H%st_Some. tauto. Qed.

Lemma st_wf n m a v m' : wf_bytes m -> st n m a v = Some m' -> wf_bytes m'.
Proof. intros Hm. apply wf_zwrite; [done | apply wf_le_encode]. Qed.

Lemma zread_ext {A} (m m' : list A) a n :
  zlen m = zlen m' -> (forall j, a <= j < a + n -> zget m j = zget m' j) ->
  zread m a n = zread m' a n.
Proof.
  intros Hl H.
  destruct (zread m a n) as [xs|] eqn:E; destruct (zread m' a n) as [ys|] eqn:E'; [| | |done].
  - apply zread_Some in E as (Ha & Hn & Hb & Hx & Hxg), E' as (_ & _ & _ & Hy & Hyg).
    f_equal. apply zget_ext. intros i Hi. destruct (Z.ltb_spec i n).
    + rewrite Hxg, Hyg, H by lia. done.
    + rewrite !zget_outside by lia. done.
  - apply zread_Some in E as (Ha & Hn & Hb & _). rewrite zread_inside in E' by lia. done.
  - apply zread_Some in E' as (Ha & Hn & Hb & _). rewrite zread_inside in E by lia. done.
Qed.

Lemma ld_ext n m m' a :
  zlen m = zlen m' -> (forall j, a <= j < a + Z.of_nat n -> zget m j = zget m' j) ->
  ld n m a = ld n m' a.
Proof. intros. unfold ld. by rewrite (zread_ext m m'). Qed.

Lemma ld_st_same n m a v m' : st n m a v = Some m' -> ld n m' a = Some (v mod 256 ^ Z.of_nat n).
Proof.
  intros (Ha & Hb & Hl & Hg)%st_Some. unfold ld.
  rewrite zread_inside by lia. cbn. f_equal. rewrite <-le_decode_encode. f_equal.
  assert (zread m' a (Z.of_nat n) = Some (le_encode n v)) as E.
  { rewrite zread_inside by lia. f_equal.
    assert (zread m' a (Z.of_nat n) = Some (take (Z.to_nat (Z.of_nat n)) (drop (Z.to_nat a) m'))) as E
      by (apply zread_inside; lia).
    apply zread_Some in E as (_ & _ & _ & Hz & Hj). apply zget_ext. intros i Hi.
    destruct (Z.ltb_spec i (Z.of_nat n)).
    - rewrite Hj, Hg by lia. rewrite (proj2 (Z.leb_le _ _)), (proj2 (Z.ltb_lt _ _)) by lia.
      cbn. f_equal. lia.
    - rewrite !zget_outside by (rewrite ?zlen_le_encode; lia). done. }
  rewrite zread_inside in E by lia. congruence.
Qed.

Lemma ld_st_other n m a v m' k a' :
  st n m a v = Some m' -> a' + Z.of_nat k <= a \/ a + Z.of_nat n <= a' ->
  ld k m' a' = ld k m a'.
Proof.
  intros (Ha & Hb & Hl & Hg)%st_Some Hd. apply ld_ext; [done|]. intros j Hj. rewrite Hg.
  destruct (Z.leb_spec a j), (Z.ltb_spec j (a + Z.of_nat n)); cbn; lia || done.
Qed.

Lemma st_other n m a v m' j :
  st n m a v = Some m' -> j < a \/ a + Z.of_nat n <= j -> zget m' j = zget m j.
Proof.
  intros (Ha & Hb & Hl & Hg)%st_Some Hd. rewrite Hg.
  destruct (Z.leb_spec a j), (Z.ltb_spec j (a + Z.of_nat n)); cbn; lia || done.
Qed.

(** The bytes a store of a loaded word writes. *)
Lemma st_loaded n m a v m1 a1 m2 j :
  wf_bytes m -> ld n m a = Some v -> st n m1 a1 v = Some m2 ->
  0 <= j < Z.of_nat n -> zget m2 (a1 + j) = zget m (a + j).
Proof.
  unfold ld. destruct (zread m a (Z.of_nat n)) as [bs|] eqn:E; cbn; [|done].
  intros Hm [= <-] (_ & _ & _ & Hg)%st_Some Hj. rewrite Hg.
  rewrite (proj2 (Z.leb_le _ _)), (proj2 (Z.ltb_lt _ _)) by lia. cbn.
  pose proof (wf_zread _ _ _ _ Hm E) as Hw.
  apply zread_Some in E as (_ & _ & _ & Hz & Hr).
  assert (length bs = n) as <- by (unfold zlen in Hz; lia).
  rewrite le_encode_decode by done. replace (a1 + j - a1) with j by lia. apply Hr. lia.
Qed.

(** ** Memory made of parts *)

Lemma zread_all {A} (l : list A) : zread l 0 (zlen l) = Some l.
Proof. rewrite <-(app_nil_r l) at 1. apply (zread_mid [] l []); done. Qed.

Lemma le_encode_mod n v : le_encode n (v mod 256 ^ Z.of_nat n) = le_encode n v.
Proof.
  rewrite <-(le_encode_decode (le_encode n v)) by apply wf_le_encode.
  rewrite le_decode_encode. f_equal. pose proof (zlen_le_encode n v). unfold zlen in *. lia.
Qed.

Lemma le_encode_inj n a b :
  le_encode n a = le_encode n b <-> a mod 256 ^ Z.of_nat n = b mod 256 ^ Z.of_nat n.
Proof.
  split; intros H.
  - by rewrite <-!le_decode_encode, H.
  - by rewrite <-(le_encode_mod n a), H, le_encode_mod.
Qed.

Lemma ld_mid n l1 v l3 a : a = zlen l1 -> ld n (l1 ++ le_encode n v ++ l3) a = Some (v mod 256 ^ Z.of_nat n).
Proof.
  intros Ha. unfold ld. rewrite (zread_mid l1 _ l3) by (rewrite ?zlen_le_encode; done). cbn. by rewrite le_decode_encode.
Qed.

Lemma st_mid n l1 v l3 a w : a = zlen l1 -> st n (l1 ++ le_encode n v ++ l3) a w = Some (l1 ++ le_encode n w ++ l3).
Proof. intros Ha. unfold st. apply zwrite_mid; [done | by rewrite !zlen_le_encode]. Qed.

Lemma holds_ld m n v a : holds m a (le_encode n v) -> 0 <= a -> a + Z.of_nat n <= zlen m -> ld n m a = Some (v mod 256 ^ Z.of_nat n).
Proof.
  intros H Ha Hb. unfold ld. rewrite <-(zlen_le_encode n v) at 1. rewrite holds_zread by (rewrite ?zlen_le_encode; done).
  cbn. by rewrite le_decode_encode.
Qed.

(** Loads from buffers of any lengths that agree where they look. *)
Lemma zread_eq {A} (m m' : list A) a n : 0 <= a -> a + n <= zlen m -> a + n <= zlen m' ->
  (forall j, a <= j < a + n -> zget m j = zget m' j) -> zread m a n = zread m' a n.
Proof.
  intros Ha H1 H2 Hj. destruct (Z.leb_spec 0 n); [|unfold zread; by rewrite (proj2 (Z.leb_gt 0 n)), andb_false_r by lia].
  destruct (zread m a n) as [x|] eqn:E; [|rewrite zread_inside in E by lia; done].
  destruct (zread m' a n) as [y|] eqn:E'; [|rewrite zread_inside in E' by lia; done].
  apply zread_Some in E as (_ & _ & _ & Hx & Hgx), E' as (_ & _ & _ & Hy & Hgy). f_equal. apply zget_ext. intros i Hi.
  destruct (Z.ltb_spec i n); [rewrite Hgx, Hgy by lia; apply Hj; lia | rewrite !zget_outside by lia; done].
Qed.

Lemma ld_eq n m m' a : 0 <= a -> a + Z.of_nat n <= zlen m -> a + Z.of_nat n <= zlen m' ->
  (forall j, a <= j < a + Z.of_nat n -> zget m j = zget m' j) -> ld n m a = ld n m' a.
Proof. intros. unfold ld. by rewrite (zread_eq m m'). Qed.

Lemma ld_prefix n pre rest a : 0 <= a -> a + Z.of_nat n <= zlen pre -> ld n (pre ++ rest) a = ld n pre a.
Proof.
  intros Ha Hn. pose proof (zlen_nonneg rest). apply ld_eq; rewrite ?zlen_app; try lia. intros j Hj. apply zget_app_l. lia.
Qed.

Lemma ld_in n pre e post a k : a = zlen pre + k -> 0 <= k -> k + Z.of_nat n <= zlen e -> ld n (pre ++ e ++ post) a = ld n e k.
Proof.
  intros -> Hk Hn. unfold ld, zread. pose proof (zlen_nonneg pre). pose proof (zlen_nonneg post). rewrite !zlen_app.
  rewrite (proj2 (Z.leb_le 0 (zlen pre + k))), (proj2 (Z.leb_le 0 k)), (proj2 (Z.leb_le 0 (Z.of_nat n))),
    (proj2 (Z.leb_le (zlen pre + k + Z.of_nat n) _)), (proj2 (Z.leb_le (k + Z.of_nat n) _)) by lia.
  cbn. do 2 f_equal. replace (Z.to_nat (zlen pre + k)) with (length pre + Z.to_nat k)%nat by (unfold zlen; lia).
  rewrite drop_app_add. unfold zlen in *. rewrite drop_app_le by lia. rewrite take_app_le by (rewrite length_drop; lia). done.
Qed.

(** ** Bits

    Disjoint or is addition, and a mask of ones is a remainder. *)

Lemma lor_add a b n : 0 <= n -> 0 <= b < 2 ^ n -> a mod 2 ^ n = 0 -> Z.lor a b = a + b.
Proof.
  intros Hn Hb Ha. rewrite <-Z.add_lor_land. assert (Z.land a b = 0) as ->; [|lia].
  apply Z.bits_inj'. intros i Hi. rewrite Z.land_spec, Z.bits_0.
  destruct (Z.lt_ge_cases i n) as [Hl|Hg].
  - rewrite <-(Z.mod_pow2_bits_low a n i) by lia. by rewrite Ha, Z.bits_0.
  - rewrite <-(Z.mod_small b (2 ^ n)) by lia. rewrite Z.mod_pow2_bits_high by lia. by rewrite andb_false_r.
Qed.

Lemma land_ones' x m n : m = 2 ^ n - 1 -> 0 <= n -> Z.land x m = x mod 2 ^ n.
Proof. intros -> Hn. rewrite <-Z.land_ones by done. by rewrite Z.ones_equiv. Qed.

(** Linear arithmetic with division and remainder by constants. *)
Ltac divlia := change (2 ^ 4) with 16; change (2 ^ 6) with 64; Z.to_euclidean_division_equations; lia.

(** ** Option binds *)

Lemma obind_ext {A B} (o : option A) (f g : A -> option B) :
  (forall x, f x = g x) -> o ≫= f = o ≫= g.
Proof. intros H. destruct o; cbn; auto. Qed.

Lemma obind_ret {A} (o : option A) : o ≫= Some = o.
Proof. by destruct o. Qed.

(** ** Automation *)

(** Hints that carry array facts through a sequence of stores. *)
Create HintDb cmem discriminated.
#[export] Hint Resolve st_wf wf_le_encode wf_zwrite zlen_nonneg : cmem.
Create Rewrite HintDb zlen.
#[export] Hint Rewrite @zlen_cons @zlen_app @zlen_replicate zlen_le_encode : zlen.

(** Invert every successful [option] bind in the context. *)
Ltac opt_inv :=
  repeat match goal with
  | H : Some _ = Some _ |- _ => injection H as H; try subst
  | H : (?o ≫= _) = Some _ |- _ =>
      let E := fresh "E" in destruct o eqn:E; cbn in H; [| discriminate H]
  | H : None = Some _ |- _ => discriminate H
  end.

(** Case analysis on the boolean guards of the code. *)
Ltac guard_case :=
  match goal with
  | |- context [if ?b then _ else _] =>
      let E := fresh "G" in destruct b eqn:E
  | H : context [if ?b then _ else _] |- _ =>
      let E := fresh "G" in destruct b eqn:E
  end.

Ltac bool_lia :=
  repeat match goal with
  | H : _ && _ = true |- _ => apply andb_true_iff in H as [? ?]
  | H : _ || _ = false |- _ => apply orb_false_iff in H as [? ?]
  | H : negb _ = true |- _ => apply negb_true_iff in H
  | H : negb _ = false |- _ => apply negb_false_iff in H
  end; lia.

(** Decidable facts about a concrete value. *)
Ltac wf_concrete := apply (bool_decide_unpack _); vm_compute; exact I.

(** ** Sequences of stores *)

(** A write, with what it changes and what it keeps. *)
Lemma write_ok {A} (m : list A) a xs : 0 <= a -> a + zlen xs <= zlen m ->
  exists m', zwrite m a xs = Some m' /\ zlen m' = zlen m /\ frame m m' a (a + zlen xs) /\ holds m' a xs.
Proof.
  intros Ha Hb. destruct (zwrite m a xs) as [m'|] eqn:E; [|by rewrite zwrite_inside in E].
  exists m'. split; [done|]. pose proof (zwrite_frame _ _ _ _ E) as F. split; [apply F|]. split; [done|].
  by apply (holds_zwrite m).
Qed.

(** A store, with what it changes and what it keeps. *)
Lemma st_ok n m a v : 0 <= a -> a + Z.of_nat n <= zlen m ->
  exists m', st n m a v = Some m' /\ zlen m' = zlen m /\ frame m m' a (a + Z.of_nat n) /\ holds m' a (le_encode n v).
Proof. intros Ha Hb. rewrite <-(zlen_le_encode n v). apply write_ok; [done|]. by rewrite zlen_le_encode. Qed.

Lemma zset_ok (m : list Z) a v : 0 <= a < zlen m ->
  exists m', zset m a v = Some m' /\ zlen m' = zlen m /\ frame m m' a (a + 1) /\ holds m' a [v].
Proof. intros Ha. rewrite zset_zwrite. apply (write_ok m a [v]); [lia|]. rewrite zlen_cons, zlen_nil. lia. Qed.

(** Carry a fact on the contents back through disjoint changes. *)
Ltac carry :=
  first [ eassumption
        | match goal with
          | F : frame ?m1 ?m2 _ _ |- holds ?m2 _ _ =>
              eapply holds_frame; [|exact F|autorewrite with zlen; change (zlen (@nil Z)) with 0; lia]; carry
          end ].

Lemma frame_weaken {A} (m m' : list A) lo hi lo' hi' : frame m m' lo hi -> lo' <= lo -> hi <= hi' -> frame m m' lo' hi'.
Proof. intros F ??. apply (frame_trans m m m' lo hi lo hi); [apply frame_refl|done|lia..]. Qed.

Lemma frame_compose {A} (m1 m2 m3 : list A) lo hi : frame m1 m2 lo hi -> frame m2 m3 lo hi -> frame m1 m3 lo hi.
Proof. intros F1 F2. by apply (frame_trans _ _ _ _ _ _ _ _ _ F1 F2). Qed.

(** The bounds of a sequence of changes. *)
Ltac frame_chain :=
  match goal with
  | |- frame ?m ?m _ _ => apply frame_refl
  | F : frame ?m ?m1 _ _ |- frame ?m _ _ _ =>
      apply (frame_compose m m1); [apply (frame_weaken _ _ _ _ _ _ F); lia|]; frame_chain
  end.

(** The first of a chain of binds that succeeds. *)
Ltac peel H :=
  match type of H with
  | (mbind _ ?o) = Some _ => destruct o; cbn [mbind option_bind] in H |- *; [|discriminate H]
  end.
