(* ===== verification/Mst.v ===== *)
(** Multi-sector transfer protection (libntfs-3g/mst.c): the update sequence
    array that detects a torn write of an MFT or index record. *)

From S2P Require Import Prelude.
Local Open Scope Z_scope.

Definition NTFS_BLOCK_SIZE : Z := 512.
Definition magic_HOLE : Z := 0x454c4f48.
Definition magic_BAAD : Z := 0x44414142.

(** NTFS_RECORD: magic at byte 0, usa_ofs at 4, usa_count at 6. *)
Definition rec_magic (b : list Z) : option Z := le32_to_cpup b 0.
Definition rec_usa_ofs (b : list Z) : option Z := le16_to_cpup b 4.
Definition rec_usa_count (b : list Z) : option Z := le16_to_cpup b 6.

Definition is_valid_record (size usa_ofs usa_count : Z) : bool :=
  (size mod NTFS_BLOCK_SIZE =? 0) && (usa_ofs mod 2 =? 0) &&
  (usa_count =? 1 + size / NTFS_BLOCK_SIZE) &&
  (usa_ofs + usa_count * 2 <=? NTFS_BLOCK_SIZE - 2).

(** Iterations of [while (--usa_count)] on a u16 counter. *)
Definition usa_iterations (usa_count : Z) : nat := Z.to_nat (u16 (usa_count - 1)).

(** First loop of the post-read fixup: does every sector end in [usn]? *)
Fixpoint usn_match (n : nat) (b : list Z) (usn data_pos : Z) : option bool :=
  match n with
  | O => Some true
  | S n' =>
      d ← le16_to_cpup b data_pos;
      if negb (d =? usn) then Some false
      else usn_match n' b usn (data_pos + NTFS_BLOCK_SIZE)
  end.

(** Second loop: restore the saved words into the sector ends. *)
Fixpoint usa_restore (n : nat) (b : list Z) (usa_pos data_pos : Z) : option (list Z) :=
  match n with
  | O => Some b
  | S n' =>
      v ← le16_to_cpup b (usa_pos + 2);
      b' ← put_le16 b data_pos v;
      usa_restore n' b' (usa_pos + 2) (data_pos + NTFS_BLOCK_SIZE)
  end.

(** Loop of the pre-write fixup: save each sector end, stamp it with [usn]. *)
Fixpoint usa_protect (n : nat) (b : list Z) (usn usa_pos data_pos : Z) : option (list Z) :=
  match n with
  | O => Some b
  | S n' =>
      d ← le16_to_cpup b data_pos;
      b1 ← put_le16 b (usa_pos + 2) d;
      b2 ← put_le16 b1 data_pos usn;
      usa_protect n' b2 usn (usa_pos + 2) (data_pos + NTFS_BLOCK_SIZE)
  end.

(** [warn] only selects whether an error is logged. *)
Definition ntfs_mst_post_read_fixup_warn (b : list Z) (size : Z) (warn : bool)
    : option (list Z * result unit) :=
  usa_ofs ← rec_usa_ofs b;
  usa_count ← rec_usa_count b;
  if negb (is_valid_record size usa_ofs usa_count) then Some (b, Err EINVAL)
  else
    usn ← le16_to_cpup b usa_ofs;
    ok ← usn_match (usa_iterations usa_count) b usn (NTFS_BLOCK_SIZE - 2);
    if negb ok then b' ← put_le32 b 0 magic_BAAD; Some (b', Err EIO)
    else
      b' ← usa_restore (usa_iterations usa_count) b usa_ofs (NTFS_BLOCK_SIZE - 2);
      Some (b', Ok tt).

Definition ntfs_mst_post_read_fixup (b : list Z) (size : Z) : option (list Z * result unit) :=
  ntfs_mst_post_read_fixup_warn b size true.

(** The cyclic increment that skips 0 and 0xffff. *)
Definition next_usn (usn : Z) : Z :=
  let usn := u16 (usn + 1) in
  if (usn =? 0xffff) || (usn =? 0) then 1 else usn.

(** [None] as the record is the NULL pointer. *)
Definition ntfs_mst_pre_write_fixup (ob : option (list Z)) (size : Z)
    : option (list Z * result unit) :=
  match ob with
  | None => Some ([], Err EINVAL)
  | Some b =>
      magic ← rec_magic b;
      if (magic =? magic_BAAD) || (magic =? magic_HOLE) then Some (b, Err EINVAL)
      else
        usa_ofs ← rec_usa_ofs b;
        usa_count ← rec_usa_count b;
        if negb (is_valid_record size usa_ofs usa_count) then Some (b, Err EINVAL)
        else
          usn0 ← le16_to_cpup b usa_ofs;
          let usn := next_usn usn0 in
          b1 ← put_le16 b usa_ofs usn;
          b2 ← usa_protect (usa_iterations usa_count) b1 usn usa_ofs (NTFS_BLOCK_SIZE - 2);
          Some (b2, Ok tt)
  end.

(** No validation here: the record is assumed to have just been protected. *)
Definition ntfs_mst_post_write_fixup (b : list Z) : option (list Z) :=
  usa_ofs ← rec_usa_ofs b;
  usa_count ← rec_usa_count b;
  usa_restore (usa_iterations usa_count) b (usa_ofs / 2 * 2) (NTFS_BLOCK_SIZE - 2).

(** ** Positions

    [tail_byte data n j]: byte [j] is in one of the [n] sector-end words that
    start at [data]. *)

Definition tail_byte (data : Z) (n : nat) (j : Z) : Prop :=
  exists k, 0 <= k < Z.of_nat n /\ data + 512 * k <= j < data + 512 * k + 2.

Definition usa_byte (usa_ofs usa_count j : Z) : Prop := usa_ofs <= j < usa_ofs + 2 * usa_count.

Lemma tail_byte_S data n j :
  tail_byte data (S n) j <-> data <= j < data + 2 \/ tail_byte (data + 512) n j.
Proof.
  unfold tail_byte. split.
  - intros (k & Hk & Hj). destruct (decide (k = 0)) as [->|]; [left; lia|].
    right. exists (k - 1). lia.
  - intros [H|(k & Hk & Hj)]; [exists 0 | exists (k + 1)]; lia.
Qed.

Lemma valid_record_facts size ofs cnt :
  is_valid_record size ofs cnt = true ->
  size = 512 * (cnt - 1) /\ ofs mod 2 = 0 /\ ofs + 2 * cnt <= 510.
Proof.
  unfold is_valid_record, NTFS_BLOCK_SIZE.
  intros [[[H1 H2]%andb_true_iff H3]%andb_true_iff H4]%andb_true_iff.
  apply Z.eqb_eq in H1, H2, H3. apply Z.leb_le in H4.
  pose proof (Z.div_mod size 512). lia.
Qed.

Lemma usa_iterations_valid cnt : 1 <= cnt < 65536 -> Z.of_nat (usa_iterations cnt) = cnt - 1.
Proof.
  intros. unfold usa_iterations, u16. rewrite wrap_u_small by (cbn; lia). lia.
Qed.

(** ** The loops *)

Lemma usn_match_total n b usn data :
  0 <= data -> data + 512 * Z.of_nat n <= zlen b + 510 ->
  exists ok, usn_match n b usn data = Some ok.
Proof.
  revert data; induction n as [|n IH]; intros data Hd Hl; cbn [usn_match]; [eauto|].
  destruct (ld_inside 2 b data) as [v Hv]; [lia.. |]. unfold le16_to_cpup. rewrite Hv. cbn.
  destruct (negb _); [eauto|]. apply IH; unfold NTFS_BLOCK_SIZE; lia.
Qed.

Lemma usn_match_spec n b usn data ok :
  usn_match n b usn data = Some ok ->
  if ok then forall k, 0 <= k < Z.of_nat n -> le16_to_cpup b (data + 512 * k) = Some usn
  else exists k, 0 <= k < Z.of_nat n /\ le16_to_cpup b (data + 512 * k) <> Some usn.
Proof.
  revert data; induction n as [|n IH]; intros data; cbn [usn_match].
  - intros [= <-]. lia.
  - destruct (le16_to_cpup b data) as [d|] eqn:Ed; cbn; [|done].
    destruct (Z.eqb_spec d usn) as [->|Hne]; cbn.
    + intros H. specialize (IH _ H). unfold NTFS_BLOCK_SIZE in IH. destruct ok.
      * intros k Hk. destruct (decide (k = 0)) as [->|]; [by rewrite Z.mul_0_r, Z.add_0_r|].
        replace (data + 512 * k) with (data + 512 + 512 * (k - 1)) by lia. apply IH. lia.
      * destruct IH as (k & Hk & Hne). exists (k + 1). split; [lia|].
        by replace (data + 512 * (k + 1)) with (data + 512 + 512 * k) by lia.
    + intros [= <-]. exists 0. rewrite Z.mul_0_r, Z.add_0_r, Ed. split; [lia | congruence].
Qed.

(** The restore loop copies word [k+1] of the array to sector end [k]. *)
Lemma usa_restore_spec n b usa data :
  wf_bytes b -> 0 <= usa -> usa + 2 * Z.of_nat n + 2 <= data ->
  data + 512 * Z.of_nat n <= zlen b + 510 ->
  exists b', usa_restore n b usa data = Some b' /\ zlen b' = zlen b /\ wf_bytes b' /\
    (forall j, ~ tail_byte data n j -> zget b' j = zget b j) /\
    (forall k c, 0 <= k < Z.of_nat n -> 0 <= c < 2 ->
       zget b' (data + 512 * k + c) = zget b (usa + 2 + 2 * k + c)).
Proof.
  revert b usa data; induction n as [|n IH]; intros b usa data Hw Hu Hd Hl; cbn [usa_restore].
  { exists b. split_and!; auto. lia. }
  unfold le16_to_cpup, put_le16.
  destruct (ld_inside 2 b (usa + 2)) as [v Hv]; [lia.. |]. rewrite Hv. cbn [mbind option_bind].
  destruct (st_inside 2 b data v) as [b1 Hb1]; [lia.. |]. rewrite Hb1. cbn [mbind option_bind].
  pose proof (st_zlen _ _ _ _ _ Hb1) as Hz.
  destruct (IH b1 (usa + 2) (data + 512)) as (b' & E & Hz' & Hw' & Ho & Ht);
    [eauto with cmem | lia.. |].
  exists b'. unfold NTFS_BLOCK_SIZE. split_and!; [done | congruence | done | |].
  - intros j Hj. rewrite tail_byte_S in Hj. rewrite Ho by tauto.
    rewrite (st_other _ _ _ _ _ _ Hb1); [done | lia].
  - intros k c Hk Hc. destruct (decide (k = 0)) as [->|].
    + replace (data + 512 * 0 + c) with (data + c) by lia.
      rewrite Ho by (unfold tail_byte; intros (k & ? & ?); lia).
      rewrite (st_loaded _ _ _ _ _ _ _ _ Hw Hv Hb1) by lia. f_equal. lia.
    + replace (data + 512 * k + c) with (data + 512 + 512 * (k - 1) + c) by lia.
      rewrite Ht by lia. rewrite (st_other _ _ _ _ _ _ Hb1) by lia. f_equal. lia.
Qed.

(** The protect loop saves each sector end and stamps it. *)
Lemma usa_protect_spec n b usn usa data :
  wf_bytes b -> 0 <= usa -> usa + 2 * Z.of_nat n + 2 <= data ->
  data + 512 * Z.of_nat n <= zlen b + 510 ->
  exists b', usa_protect n b usn usa data = Some b' /\ zlen b' = zlen b /\ wf_bytes b' /\
    (forall j, ~ tail_byte data n j -> ~ usa + 2 <= j < usa + 2 + 2 * Z.of_nat n ->
       zget b' j = zget b j) /\
    (forall k, 0 <= k < Z.of_nat n -> le16_to_cpup b' (data + 512 * k) = Some (usn mod 65536)) /\
    (forall k c, 0 <= k < Z.of_nat n -> 0 <= c < 2 ->
       zget b' (usa + 2 + 2 * k + c) = zget b (data + 512 * k + c)).
Proof.
  revert b usa data; induction n as [|n IH]; intros b usa data Hw Hu Hd Hl; cbn [usa_protect].
  { exists b. split_and!; auto; lia. }
  unfold le16_to_cpup, put_le16 in *.
  destruct (ld_inside 2 b data) as [v Hv]; [lia.. |]. rewrite Hv. cbn [mbind option_bind].
  destruct (st_inside 2 b (usa + 2) v) as [b1 Hb1]; [lia.. |]. rewrite Hb1. cbn [mbind option_bind].
  pose proof (st_zlen _ _ _ _ _ Hb1) as Hz1.
  destruct (st_inside 2 b1 data usn) as [b2 Hb2]; [lia.. |]. rewrite Hb2. cbn [mbind option_bind].
  pose proof (st_zlen _ _ _ _ _ Hb2) as Hz2.
  destruct (IH b2 (usa + 2) (data + 512)) as (b' & E & Hz' & Hw' & Ho & Ht & Hs);
    [eauto with cmem | lia.. |].
  exists b'. unfold NTFS_BLOCK_SIZE. split_and!; [done | congruence | done | ..].
  - intros j Hj Hju. rewrite tail_byte_S in Hj. rewrite Ho by (tauto || lia).
    rewrite (st_other _ _ _ _ _ _ Hb2) by lia. rewrite (st_other _ _ _ _ _ _ Hb1) by lia. done.
  - intros k Hk. destruct (decide (k = 0)) as [->|].
    + rewrite Z.mul_0_r, Z.add_0_r. change 65536 with (256 ^ Z.of_nat 2).
      rewrite <-(ld_st_same _ _ _ _ _ Hb2).
      apply ld_ext; [done|]. intros j Hj. apply Ho; [|lia]. unfold tail_byte. intros (k & ? & ?); lia.
    + replace (data + 512 * k) with (data + 512 + 512 * (k - 1)) by lia. apply Ht. lia.
  - intros k c Hk Hc. destruct (decide (k = 0)) as [->|].
    + replace (usa + 2 + 2 * 0 + c) with (usa + 2 + c) by lia.
      rewrite Ho by (lia || (unfold tail_byte; intros (k & ? & ?); lia)).
      rewrite (st_other _ _ _ _ _ _ Hb2) by lia.
      rewrite (st_loaded _ _ _ _ _ _ _ _ Hw Hv Hb1) by lia. f_equal. lia.
    + replace (usa + 2 + 2 * k + c) with (usa + 2 + 2 + 2 * (k - 1) + c) by lia.
      rewrite Hs by lia. rewrite (st_other _ _ _ _ _ _ Hb2) by lia.
      rewrite (st_other _ _ _ _ _ _ Hb1) by lia. f_equal. lia.
Qed.

(** ** The operations *)

Lemma next_usn_range usn : 1 <= next_usn usn <= 0xfffe.
Proof.
  unfold next_usn, u16. pose proof (wrap_u_range 16 (usn + 1)) as Hr. cbn in Hr.
  destruct (Z.eqb_spec (wrap_u 16 (usn + 1)) 0xffff), (Z.eqb_spec (wrap_u 16 (usn + 1)) 0);
    cbn [orb]; lia.
Qed.

(** What a successful pre-write fixup leaves in the record. *)
Record protected (b b1 : list Z) (ofs cnt usn : Z) : Prop := {
  pr_zlen : zlen b1 = zlen b;
  pr_wf : wf_bytes b1;
  pr_usn : le16_to_cpup b1 ofs = Some usn;
  pr_tail k : 0 <= k < cnt - 1 -> le16_to_cpup b1 (510 + 512 * k) = Some usn;
  pr_saved k c : 0 <= k < cnt - 1 -> 0 <= c < 2 ->
    zget b1 (ofs + 2 + 2 * k + c) = zget b (510 + 512 * k + c);
  pr_other j : ~ tail_byte 510 (usa_iterations cnt) j -> ~ usa_byte ofs cnt j ->
    zget b1 j = zget b j }.

Section record.
Context (b : list Z) (size ofs cnt : Z).
Hypothesis Hwf : wf_bytes b.
Hypothesis Hlen : zlen b = size.
Hypothesis Hofs : rec_usa_ofs b = Some ofs.
Hypothesis Hcnt : rec_usa_count b = Some cnt.

Lemma rec_ofs_range : 0 <= ofs < 65536.
Proof using Hwf Hofs. exact (ld_range _ _ _ _ Hwf Hofs). Qed.

Lemma rec_cnt_range : 0 <= cnt < 65536.
Proof using Hwf Hcnt. exact (ld_range _ _ _ _ Hwf Hcnt). Qed.

Lemma rec_min_size : 8 <= size.
Proof using Hlen Hcnt. pose proof (ld_bounds _ _ _ _ Hcnt). lia. Qed.

Hypothesis Hvalid : is_valid_record size ofs cnt = true.

Lemma valid_bounds :
  size = 512 * (cnt - 1) /\ 2 <= cnt < 65536 /\ 0 <= ofs /\ ofs + 2 * cnt <= 510 /\
  Z.of_nat (usa_iterations cnt) = cnt - 1.
Proof using All.
  pose proof (valid_record_facts _ _ _ Hvalid) as (H1 & _ & H2).
  pose proof rec_ofs_range. pose proof rec_cnt_range. pose proof rec_min_size.
  assert (2 <= cnt) by lia. rewrite usa_iterations_valid by lia. lia.
Qed.

Lemma post_read_valid warn :
  exists usn (ok : bool), le16_to_cpup b ofs = Some usn /\
    (if ok then forall k, 0 <= k < cnt - 1 -> le16_to_cpup b (510 + 512 * k) = Some usn
     else exists k, 0 <= k < cnt - 1 /\ le16_to_cpup b (510 + 512 * k) <> Some usn) /\
    ntfs_mst_post_read_fixup_warn b size warn =
      if ok then b' ← usa_restore (usa_iterations cnt) b ofs 510; Some (b', Ok tt)
      else b' ← put_le32 b 0 magic_BAAD; Some (b', Err EIO).
Proof using All.
  pose proof valid_bounds as (Hs & Hc & Ho & Hu & Hn).
  destruct (ld_inside 2 b ofs) as [usn Hus]; [lia.. |].
  destruct (usn_match_total (usa_iterations cnt) b usn 510) as [ok Hok]; [lia.. |].
  exists usn, ok. split_and!; [done | |].
  - rewrite <-Hn. exact (usn_match_spec _ _ _ _ _ Hok).
  - unfold ntfs_mst_post_read_fixup_warn. rewrite Hofs, Hcnt. cbn [mbind option_bind].
    rewrite Hvalid. cbn [negb]. change (NTFS_BLOCK_SIZE - 2) with 510.
    unfold le16_to_cpup. rewrite Hus. cbn [mbind option_bind]. rewrite Hok. by destruct ok.
Qed.

Lemma restore_valid :
  exists b', usa_restore (usa_iterations cnt) b ofs 510 = Some b' /\ zlen b' = zlen b /\
    wf_bytes b' /\
    (forall j, ~ tail_byte 510 (usa_iterations cnt) j -> zget b' j = zget b j) /\
    (forall k c, 0 <= k < cnt - 1 -> 0 <= c < 2 ->
       zget b' (510 + 512 * k + c) = zget b (ofs + 2 + 2 * k + c)).
Proof using All.
  pose proof valid_bounds as (Hs & Hc & Ho & Hu & Hn).
  destruct (usa_restore_spec (usa_iterations cnt) b ofs 510) as (b' & H); [done | lia.. |].
  exists b'. by rewrite Hn in H.
Qed.

Lemma pre_write_valid usn0 :
  le16_to_cpup b ofs = Some usn0 ->
  exists b1 b2, put_le16 b ofs (next_usn usn0) = Some b1 /\
    usa_protect (usa_iterations cnt) b1 (next_usn usn0) ofs 510 = Some b2 /\
    protected b b2 ofs cnt (next_usn usn0).
Proof using All.
  intros Hus. pose proof valid_bounds as (Hs & Hc & Ho & Hu & Hn).
  pose proof (next_usn_range usn0) as Hr.
  destruct (st_inside 2 b ofs (next_usn usn0)) as [b1 Hb1]; [lia.. |].
  pose proof (st_zlen _ _ _ _ _ Hb1) as Hz1.
  destruct (usa_protect_spec (usa_iterations cnt) b1 (next_usn usn0) ofs 510)
    as (b2 & E & Hz2 & Hw2 & Hoth & Ht & Hsv); [eauto with cmem | lia.. |].
  exists b1, b2. split_and!; [done | done |]. rewrite Hn in *.
  assert (next_usn usn0 `mod` 65536 = next_usn usn0) as Hm by (apply Z.mod_small; lia).
  split.
  - congruence.
  - done.
  - rewrite <-Hm at 1. change 65536 with (256 ^ Z.of_nat 2). rewrite <-(ld_st_same _ _ _ _ _ Hb1).
    apply ld_ext; [done|]. intros j Hj. apply Hoth; [|lia]. intros (k & ? & ?). lia.
  - intros k Hk. rewrite Ht, Hm by lia. done.
  - intros k c Hk Hcc. rewrite Hsv by lia. apply (st_other _ _ _ _ _ _ Hb1). lia.
  - intros j Hj Hj2. unfold usa_byte in Hj2. rewrite Hoth by (done || lia).
    apply (st_other _ _ _ _ _ _ Hb1). lia.
Qed.

End record.

Lemma pre_write_inv b size b1 :
  ntfs_mst_pre_write_fixup (Some b) size = Some (b1, Ok tt) -> wf_bytes b -> zlen b = size ->
  exists ofs cnt usn, rec_usa_ofs b = Some ofs /\ rec_usa_count b = Some cnt /\
    is_valid_record size ofs cnt = true /\ 1 <= usn <= 0xfffe /\ protected b b1 ofs cnt usn.
Proof.
  unfold ntfs_mst_pre_write_fixup. intros H Hwf Hlen.
  destruct (rec_magic b) as [m|]; cbn [mbind option_bind] in H; [|done].
  destruct (_ || _); [congruence|].
  destruct (rec_usa_ofs b) as [ofs|] eqn:Hofs; cbn [mbind option_bind] in H; [|done].
  destruct (rec_usa_count b) as [cnt|] eqn:Hcnt; cbn [mbind option_bind] in H; [|done].
  destruct (is_valid_record size ofs cnt) eqn:Hv; cbn [negb] in H; [|congruence].
  destruct (le16_to_cpup b ofs) as [usn0|] eqn:Hu; cbn [mbind option_bind] in H; [|done].
  destruct (pre_write_valid b size ofs cnt Hwf Hlen Hofs Hcnt Hv usn0 Hu) as (x & y & E1 & E2 & P).
  change (NTFS_BLOCK_SIZE - 2) with 510 in H. rewrite E1 in H. cbn [mbind option_bind] in H.
  rewrite E2 in H. cbn [mbind option_bind] in H. injection H as <-.
  exists ofs, cnt, (next_usn usn0). pose proof (next_usn_range usn0). done.
Qed.

(** The header of a record whose array starts after it survives protection. *)
Lemma protected_header b b1 ofs cnt usn n a :
  protected b b1 ofs cnt usn -> a + Z.of_nat n <= ofs -> a + Z.of_nat n <= 510 -> 
  ld n b1 a = ld n b a.
Proof.
  intros P Ho Hd. apply ld_ext; [apply P|]. intros j Hj. apply (pr_other _ _ _ _ _ P).
  - intros (k & ? & ?). lia.
  - unfold usa_byte. lia.
Qed.

Lemma tail_byte_dec data n j : tail_byte data n j \/ ~ tail_byte data n j.
Proof.
  revert data; induction n as [|n IH]; intros data.
  - right. intros (k & ? & _). lia.
  - rewrite tail_byte_S. destruct (IH (data + 512)); [tauto|].
    destruct (decide (data <= j < data + 2)); tauto.
Qed.

Lemma mst_block_roundtrip b size b1 ofs cnt :
  wf_bytes b -> zlen b = size ->
  rec_usa_ofs b = Some ofs -> rec_usa_count b = Some cnt -> 8 <= ofs ->
  ntfs_mst_pre_write_fixup (Some b) size = Some (b1, Ok tt) ->
  exists b2, ntfs_mst_post_read_fixup b1 size = Some (b2, Ok tt) /\
    ntfs_mst_post_write_fixup b1 = Some b2 /\ zlen b2 = zlen b /\
    forall j, ~ usa_byte ofs cnt j -> zget b2 j = zget b j.
Proof.
  intros Hwf Hlen Hofs Hcnt H8 Hpre.
  destruct (pre_write_inv _ _ _ Hpre Hwf Hlen) as (ofs' & cnt' & usn & E1 & E2 & Hv & _ & P).
  rewrite Hofs in E1; injection E1 as <-. rewrite Hcnt in E2; injection E2 as <-.
  pose proof (valid_bounds b size ofs cnt Hwf Hlen Hofs Hcnt Hv) as (Hs & Hc & Ho & Hu & Hn).
  assert (rec_usa_ofs b1 = Some ofs) as Hofs1
    by (rewrite <-Hofs; apply (protected_header _ _ _ _ _ 2 4 P); lia).
  assert (rec_usa_count b1 = Some cnt) as Hcnt1
    by (rewrite <-Hcnt; apply (protected_header _ _ _ _ _ 2 6 P); lia).
  pose proof (pr_wf _ _ _ _ _ P) as Hw1. pose proof (pr_zlen _ _ _ _ _ P) as Hz1.
  assert (zlen b1 = size) as Hl1 by congruence.
  destruct (post_read_valid b1 size ofs cnt Hw1 Hl1 Hofs1 Hcnt1 Hv true) as (usn' & ok & Eu & Hok & Er).
  rewrite (pr_usn _ _ _ _ _ P) in Eu. injection Eu as <-.
  destruct ok; [|destruct Hok as (k & Hk & []); by apply (pr_tail _ _ _ _ _ P)].
  destruct (restore_valid b1 size ofs cnt Hw1 Hl1 Hofs1 Hcnt1 Hv) as (b2 & Eb & Hz2 & _ & Hoth & Ht).
  rewrite Eb in Er. exists b2. split_and!; [exact Er | | congruence |].
  - unfold ntfs_mst_post_write_fixup. rewrite Hofs1, Hcnt1. cbn [mbind option_bind].
    pose proof (valid_record_facts _ _ _ Hv) as (_ & Hev & _).
    replace (ofs / 2 * 2) with ofs by (pose proof (Z.div_mod ofs 2); lia). exact Eb.
  - intros j Hj. destruct (tail_byte_dec 510 (usa_iterations cnt) j) as [(k & Hk & Hj')|Hn'].
    + rewrite Hn in Hk. pose proof (Ht k (j - 510 - 512 * k)) as E.
      replace (510 + 512 * k + (j - 510 - 512 * k)) with j in E by lia. rewrite E by lia.
      rewrite (pr_saved _ _ _ _ _ P) by lia. f_equal. lia.
    + rewrite Hoth by done. by apply (pr_other _ _ _ _ _ P).
Qed.

(** ** Properties *)

(** C1: protecting a record and reading it back succeeds and restores every
    byte outside the update sequence array; the post-write fixup gives the
    same buffer as the post-read one. *)
Theorem mst_protect_roundtrip b size b1 ofs cnt :
  wf_bytes b -> zlen b = size ->
  rec_usa_ofs b = Some ofs -> rec_usa_count b = Some cnt -> 8 <= ofs ->
  ntfs_mst_pre_write_fixup (Some b) size = Some (b1, Ok tt) ->
  exists b2, ntfs_mst_post_read_fixup b1 size = Some (b2, Ok tt) /\
    ntfs_mst_post_write_fixup b1 = Some b2 /\ zlen b2 = zlen b /\
    forall j, ~ usa_byte ofs cnt j -> zget b2 j = zget b j.
Proof. apply mst_block_roundtrip. Qed.

(** C2: a torn write is detected.  If only part of a protected record reached
    the disk, so that some sector does not end in the new sequence number, the
    read fails with EIO and the record in memory carries the magic BAAD and is
    otherwise what was read. *)
Theorem mst_torn_write_detected b size b1 b' ofs cnt k :
  wf_bytes b -> zlen b = size ->
  rec_usa_ofs b = Some ofs -> rec_usa_count b = Some cnt -> 8 <= ofs ->
  ntfs_mst_pre_write_fixup (Some b) size = Some (b1, Ok tt) ->
  wf_bytes b' -> zlen b' = zlen b1 ->
  (forall j, 0 <= j < 510 -> zget b' j = zget b1 j) ->
  0 <= k < cnt - 1 ->
  le16_to_cpup b' (510 + 512 * k) <> le16_to_cpup b1 (510 + 512 * k) ->
  exists b'', ntfs_mst_post_read_fixup b' size = Some (b'', Err EIO) /\
    rec_magic b'' = Some magic_BAAD /\ forall j, 4 <= j -> zget b'' j = zget b' j.
Proof.
  intros Hwf Hlen Hofs Hcnt H8 Hpre Hw' Hl' Hsame Hk Hdiff.
  destruct (pre_write_inv _ _ _ Hpre Hwf Hlen) as (ofs' & cnt' & usn & E1 & E2 & Hv & _ & P).
  rewrite Hofs in E1; injection E1 as <-. rewrite Hcnt in E2; injection E2 as <-.
  pose proof (valid_bounds b size ofs cnt Hwf Hlen Hofs Hcnt Hv) as (Hs & Hc & Ho & Hu & Hn).
  pose proof (pr_zlen _ _ _ _ _ P) as Hz1.
  assert (forall n a, 0 <= a -> a + Z.of_nat n <= 510 -> ld n b' a = ld n b1 a) as Hld.
  { intros n a Ha Hb. apply ld_ext; [done|]. intros j Hj. apply Hsame. lia. }
  assert (rec_usa_ofs b' = Some ofs) as Hofs1.
  { unfold rec_usa_ofs, le16_to_cpup. rewrite Hld by lia.
    rewrite <-Hofs. apply (protected_header _ _ _ _ _ 2 4 P); lia. }
  assert (rec_usa_count b' = Some cnt) as Hcnt1.
  { unfold rec_usa_count, le16_to_cpup. rewrite Hld by lia.
    rewrite <-Hcnt. apply (protected_header _ _ _ _ _ 2 6 P); lia. }
  assert (zlen b' = size) as Hl1 by congruence.
  destruct (post_read_valid b' size ofs cnt Hw' Hl1 Hofs1 Hcnt1 Hv true) as (usn' & ok & Eu & Hok & Er).
  unfold le16_to_cpup in Eu. rewrite Hld in Eu by lia.
  change (ld 2 b1 ofs) with (le16_to_cpup b1 ofs) in Eu. rewrite (pr_usn _ _ _ _ _ P) in Eu.
  injection Eu as <-. destruct ok.
  { destruct Hdiff. rewrite (Hok k Hk). symmetry. by apply (pr_tail _ _ _ _ _ P). }
  destruct (st_inside 4 b' 0 magic_BAAD) as [b'' Eb]; [lia.. |].
  unfold put_le32 in Er. rewrite Eb in Er. exists b''. split_and!; [exact Er | |].
  - exact (ld_st_same _ _ _ _ _ Eb).
  - intros j Hj. apply (st_other _ _ _ _ _ _ Eb). lia.
Qed.

(** reading back is memory safe and classifies its input: on any contents
    of a [size]-byte buffer, however corrupt, no access leaves the buffer; an
    invalid header gives EINVAL with the buffer untouched, a mismatching sector
    end EIO, and success means every sector end held the sequence number. *)
Theorem mst_post_read_safe b size :
  wf_bytes b -> zlen b = size -> 8 <= size ->
  exists ofs cnt b' r, rec_usa_ofs b = Some ofs /\ rec_usa_count b = Some cnt /\
    ntfs_mst_post_read_fixup b size = Some (b', r) /\ zlen b' = zlen b /\
    match r with
    | Ok _ => is_valid_record size ofs cnt = true /\
        (forall k, 0 <= k < cnt - 1 -> le16_to_cpup b (510 + 512 * k) = le16_to_cpup b ofs)
    | Err e => (e = EINVAL /\ is_valid_record size ofs cnt = false /\ b' = b) \/
        (e = EIO /\ is_valid_record size ofs cnt = true /\ rec_magic b' = Some magic_BAAD /\
         exists k, 0 <= k < cnt - 1 /\ le16_to_cpup b (510 + 512 * k) <> le16_to_cpup b ofs)
    end.
Proof.
  intros Hwf Hlen H8.
  destruct (ld_inside 2 b 4) as [ofs Hofs]; [lia.. |].
  destruct (ld_inside 2 b 6) as [cnt Hcnt]; [lia.. |].
  exists ofs, cnt. destruct (is_valid_record size ofs cnt) eqn:Hv.
  - destruct (post_read_valid b size ofs cnt Hwf Hlen Hofs Hcnt Hv true) as (usn & ok & Eu & Hok & Er).
    unfold ntfs_mst_post_read_fixup. rewrite Er, Eu. destruct ok.
    + destruct (restore_valid b size ofs cnt Hwf Hlen Hofs Hcnt Hv) as (b2 & Eb & Hz2 & _).
      rewrite Eb. exists b2, (Ok tt). by split_and!.
    + destruct (st_inside 4 b 0 magic_BAAD) as [b'' Eb]; [lia.. |].
      unfold put_le32. rewrite Eb. exists b'', (Err EIO). split_and!; try done.
      { by eapply st_zlen. }
      right. split_and!; [done | done | exact (ld_st_same _ _ _ _ _ Eb) | exact Hok].
  - exists b, (Err EINVAL). split_and!; try done; [|by left].
    unfold ntfs_mst_post_read_fixup, ntfs_mst_post_read_fixup_warn, rec_usa_ofs, rec_usa_count, le16_to_cpup.
    rewrite Hofs, Hcnt. cbn [mbind option_bind]. by rewrite Hv.
Qed.

(** a protected record has a sequence number that is neither 0 nor 0xffff
    in its array and at the end of every sector, whatever the counter was. *)
Theorem mst_pre_write_stamps b size b1 :
  wf_bytes b -> zlen b = size -> ntfs_mst_pre_write_fixup (Some b) size = Some (b1, Ok tt) ->
  exists ofs cnt usn, rec_usa_ofs b = Some ofs /\ rec_usa_count b = Some cnt /\
    1 <= usn <= 0xfffe /\ le16_to_cpup b1 ofs = Some usn /\
    cnt = 1 + size / NTFS_BLOCK_SIZE /\
    forall k, 0 <= k < size / NTFS_BLOCK_SIZE ->
      le16_to_cpup b1 (NTFS_BLOCK_SIZE * (k + 1) - 2) = Some usn.
Proof.
  intros Hwf Hlen Hpre.
  destruct (pre_write_inv _ _ _ Hpre Hwf Hlen) as (ofs & cnt & usn & E1 & E2 & Hv & Hr & P).
  destruct (valid_record_facts _ _ _ Hv) as (Hs & _ & _).
  unfold NTFS_BLOCK_SIZE. rewrite Hs, (Z.mul_comm 512 (cnt - 1)), Z.div_mul by lia.
  exists ofs, cnt, usn. split_and!; try (done || lia); [apply P |].
  intros k Hk. replace (512 * (k + 1) - 2) with (510 + 512 * k) by lia. by apply (pr_tail _ _ _ _ _ P).
Qed.

(** ** Witnesses: a two-sector record with its array at byte 48 *)

Definition sample_record : list Z :=
  [70; 73; 76; 69; 48; 0; 3; 0] ++ replicate 40 0 ++ [0xfe; 0xff; 1; 2; 3; 4] ++
  replicate 456 7 ++ [0xaa; 0xbb] ++ replicate 510 9 ++ [0xcc; 0xdd].

Definition sample_protected : list Z :=
  if ntfs_mst_pre_write_fixup (Some sample_record) 1024 is Some (b, _) then b else [].

(** Only the first sector of [sample_protected] reached the disk. *)
Definition sample_torn : list Z := take 512 sample_protected ++ drop 512 sample_record.

Lemma mst_protect_roundtrip_witness :
  exists b2, ntfs_mst_post_read_fixup sample_protected 1024 = Some (b2, Ok tt) /\
    ntfs_mst_post_write_fixup sample_protected = Some b2 /\ zlen b2 = zlen sample_record /\
    forall j, ~ usa_byte 48 3 j -> zget b2 j = zget sample_record j.
Proof.
  apply (mst_protect_roundtrip sample_record 1024 sample_protected 48 3);
    [wf_concrete | vm_compute; reflexivity.. | lia | vm_compute; reflexivity].
Defined.

Lemma mst_torn_write_detected_witness :
  exists b'', ntfs_mst_post_read_fixup sample_torn 1024 = Some (b'', Err EIO) /\
    rec_magic b'' = Some magic_BAAD /\ forall j, 4 <= j -> zget b'' j = zget sample_torn j.
Proof.
  apply (mst_torn_write_detected sample_record 1024 sample_protected sample_torn 48 3 1);
    [wf_concrete | vm_compute; reflexivity.. | lia | vm_compute; reflexivity | wf_concrete
    | vm_compute; reflexivity | | lia | vm_compute; discriminate].
  intros j Hj. unfold sample_torn. rewrite zget_app_l.
  - unfold zget. destruct (j <? 0) eqn:E; [done|]. apply lookup_take_lt. lia.
  - vm_compute (zlen _). lia.
Defined.

Lemma mst_post_read_safe_witness :
  exists ofs cnt b' r, rec_usa_ofs sample_torn = Some ofs /\ rec_usa_count sample_torn = Some cnt /\
    ntfs_mst_post_read_fixup sample_torn 1024 = Some (b', r) /\ zlen b' = zlen sample_torn /\
    match r with
    | Ok _ => is_valid_record 1024 ofs cnt = true /\
        (forall k, 0 <= k < cnt - 1 ->
           le16_to_cpup sample_torn (510 + 512 * k) = le16_to_cpup sample_torn ofs)
    | Err e => (e = EINVAL /\ is_valid_record 1024 ofs cnt = false /\ b' = sample_torn) \/
        (e = EIO /\ is_valid_record 1024 ofs cnt = true /\ rec_magic b' = Some magic_BAAD /\
         exists k, 0 <= k < cnt - 1 /\
           le16_to_cpup sample_torn (510 + 512 * k) <> le16_to_cpup sample_torn ofs)
    end.
Proof.
  apply (mst_post_read_safe sample_torn 1024); [wf_concrete | vm_compute; reflexivity | lia].
Defined.

Lemma mst_pre_write_stamps_witness :
  exists ofs cnt usn, rec_usa_ofs sample_record = Some ofs /\ rec_usa_count sample_record = Some cnt /\
    1 <= usn <= 0xfffe /\ le16_to_cpup sample_protected ofs = Some usn /\
    cnt = 1 + 1024 / NTFS_BLOCK_SIZE /\
    forall k, 0 <= k < 1024 / NTFS_BLOCK_SIZE ->
      le16_to_cpup sample_protected (NTFS_BLOCK_SIZE * (k + 1) - 2) = Some usn.
Proof.
  apply (mst_pre_write_stamps sample_record 1024 sample_protected);
    [wf_concrete | vm_compute; reflexivity..].
Defined.
