(* ===== verification/Runlist.v ===== *)
(** Runlists (libntfs-3g/runlist.c): the array that maps virtual cluster
    numbers of an attribute to logical cluster numbers of the volume, with
    lookup, truncation, sparse accounting and merging. *)

From S2P Require Import Prelude.
Local Open Scope Z_scope.
Local Open Scope c_scope.

(** include/ntfs-3g/attrib.h, enum ntfs_lcn_special_values *)
Definition LCN_HOLE : Z := -1.
Definition LCN_RL_NOT_MAPPED : Z := -2.
Definition LCN_ENOENT : Z := -3.
Definition LCN_EINVAL : Z := -4.

(** struct _runlist_element; the field [length] of the source is [len]. *)
Record runlist_element := RL { vcn : Z; lcn : Z; len : Z }.

#[export] Instance runlist_element_eq_dec : EqDecision runlist_element.
Proof. solve_decision. Defined.

Definition set_vcn (e : runlist_element) (v : Z) := RL v (lcn e) (len e).
Definition set_lcn (e : runlist_element) (l : Z) := RL (vcn e) l (len e).
Definition set_len (e : runlist_element) (n : Z) := RL (vcn e) (lcn e) n.

Abbreviation runlist := (list runlist_element).

(** ** Lookup *)

(** The loop of [ntfs_rl_vcn_to_lcn]: [rl] is the array from element [i] on. *)
Fixpoint vcn_to_lcn_loop (rl : runlist) (v : Z) : option Z :=
  match rl with
  | [] => None
  | e :: t =>
      if len e =? 0 then
        Some (if lcn e <? 0 then lcn e else LCN_ENOENT)
      else
        e1 ← t.[0];
        if v <? vcn e1 then
          Some (if 0 <=? lcn e then lcn e + (v - vcn e) else lcn e)
        else vcn_to_lcn_loop t v
  end.

(** [None] for [rl] is the NULL pointer; the outer [option] is memory safety. *)
Definition ntfs_rl_vcn_to_lcn (rl : option runlist) (v : Z) : option Z :=
  if v <? 0 then Some LCN_EINVAL
  else match rl with
  | None => Some LCN_RL_NOT_MAPPED
  | Some rl =>
      e0 ← rl.[0];
      if v <? vcn e0 then Some LCN_ENOENT else vcn_to_lcn_loop rl v
  end.

(** ** Truncation and sparse accounting *)

(** The loop of [ntfs_rl_truncate] with the element update that follows it. *)
Fixpoint truncate_loop (rl : runlist) (start_vcn : Z) : option (runlist * result unit) :=
  match rl with
  | [] => None
  | e :: t =>
      if len e =? 0 then Some (rl, Err EIO)
      else
        e1 ← t.[0];
        if start_vcn <? vcn e1 then
          let n := start_vcn - vcn e in
          if n =? 0 then Some (RL (vcn e) LCN_ENOENT 0 :: t, Ok tt)
          else
            t' ← zset t 0 (RL start_vcn LCN_ENOENT 0);
            Some (set_len e n :: t', Ok tt)
        else
          r ← truncate_loop t start_vcn;
          Some (e :: fst r, snd r)
  end.

Definition ntfs_rl_truncate (arl : option runlist) (start_vcn : Z)
    : option (option runlist * result unit) :=
  match arl with
  | None => Some (None, Err EINVAL)
  | Some rl =>
      e0 ← rl.[0];
      if start_vcn <? vcn e0 then Some (Some rl, Err EINVAL)
      else r ← truncate_loop rl start_vcn; Some (Some (fst r), snd r)
  end.

Fixpoint rl_sparse_loop (rl : runlist) : option (result bool) :=
  match rl with
  | [] => None
  | e :: t =>
      if len e =? 0 then Some (Ok false)
      else if lcn e <? 0 then
        if negb (lcn e =? LCN_HOLE) then Some (Err EINVAL) else Some (Ok true)
      else rl_sparse_loop t
  end.

Definition ntfs_rl_sparse (rl : option runlist) : option (result bool) :=
  match rl with
  | None => Some (Err EINVAL)
  | Some rl => rl_sparse_loop rl
  end.

Fixpoint compressed_size_loop (rl : runlist) (ret : Z) : option (result Z) :=
  match rl with
  | [] => None
  | e :: t =>
      if len e =? 0 then Some (Ok ret)
      else if lcn e <? 0 then
        if negb (lcn e =? LCN_HOLE) then Some (Err EINVAL) else compressed_size_loop t ret
      else compressed_size_loop t (s64 (ret + len e))
  end.

Definition ntfs_rl_get_compressed_size (cluster_size_bits : Z) (rl : option runlist)
    : option (result Z) :=
  match rl with
  | None => Some (Err EINVAL)
  | Some rl =>
      r ← compressed_size_loop rl 0;
      Some (match r with Ok n => Ok (s64 (Z.shiftl n cluster_size_bits)) | Err e => Err e end)
  end.

(** ** Merging *)

(** [ntfs_rl_mm] and [ntfs_rl_mc]: memmove inside, memcpy between runlists. *)
Definition ntfs_rl_mm (base : runlist) (dst src size : Z) : option runlist :=
  if negb (dst =? src) && (0 <? size)
  then xs ← zread base src size; zwrite base dst xs else Some base.

Definition ntfs_rl_mc (dstbase : runlist) (dst : Z) (srcbase : runlist) (src size : Z)
    : option runlist :=
  if 0 <? size then xs ← zread srcbase src size; zwrite dstbase dst xs else Some dstbase.

Definition upd (rl : runlist) (i : Z) (f : runlist_element -> runlist_element) : option runlist :=
  e ← rl.[i]; zset rl i (f e).

(** The end of an element: the vcn after it. *)
Definition rl_end (e : runlist_element) : Z := vcn e + len e.

Definition ntfs_rl_are_mergeable (dst src : option runlist_element) : bool :=
  match dst, src with
  | Some d, Some s =>
      if (lcn d =? LCN_RL_NOT_MAPPED) && (lcn s =? LCN_RL_NOT_MAPPED) then true
      else if negb (rl_end d =? vcn s) then false
      else if (0 <=? lcn d) && (0 <=? lcn s) && (lcn d + len d =? lcn s) then true
      else if (lcn d =? LCN_HOLE) && (lcn s =? LCN_HOLE) then true
      else false
  | _, _ => false
  end.

Definition ntfs_rl_merge_ (dst src : runlist_element) : runlist_element :=
  set_len dst (len dst + len src).

Section merge.
(** What [realloc] leaves in the elements it adds. *)
Context (junk : runlist_element).

(** Memory comes in 4 KiB blocks, so a shrinking or unneeded reallocation
    keeps the array; a growing one appends uninitialised elements. *)
Definition ntfs_rl_realloc (rl : runlist) (new_size : Z) : runlist :=
  rl ++ replicate (Z.to_nat (new_size - zlen rl)) junk.

Definition ntfs_rl_append (dst : runlist) (dsize : Z) (src : runlist) (ssize loc : Z)
    : option runlist :=
  slast ← src.[ssize - 1];
  right ← (if loc + 1 <? dsize
           then d ← dst.[loc + 1]; Some (ntfs_rl_are_mergeable (Some slast) (Some d))
           else Some false);
  let r := Z.b2z right in
  let dst := ntfs_rl_realloc dst (dsize + ssize - r) in
  src ← (if right : bool then d ← dst.[loc + 1]; zset src (ssize - 1) (ntfs_rl_merge_ slast d)
         else Some src);
  let marker := loc + ssize + 1 in
  dst ← ntfs_rl_mm dst marker (loc + 1 + r) (dsize - loc - 1 - r);
  dst ← ntfs_rl_mc dst (loc + 1) src 0 ssize;
  e1 ← dst.[loc + 1];
  dst ← upd dst loc (fun e => set_len e (vcn e1 - vcn e));
  em ← dst.[marker];
  if lcn em =? LCN_ENOENT then
    ep ← dst.[marker - 1]; upd dst marker (fun e => set_vcn e (rl_end ep))
  else Some dst.

Definition ntfs_rl_insert (dst : runlist) (dsize : Z) (src : runlist) (ssize loc : Z)
    : option runlist :=
  s0 ← src.[0];
  ld ← (if loc =? 0 then Some (false, 0 <? vcn s0)
        else
          p ← dst.[loc - 1];
          let left := ntfs_rl_are_mergeable (Some p) (Some s0) in
          let merged_length := len p + (if left then len s0 else 0) in
          Some (left, vcn p + merged_length <? vcn s0));
  let left : bool := fst ld in
  let disc : bool := snd ld in
  let dst := ntfs_rl_realloc dst (dsize + ssize - Z.b2z left + Z.b2z disc) in
  dst ← (if left then upd dst (loc - 1) (fun p => ntfs_rl_merge_ p s0) else Some dst);
  let marker := loc + ssize - Z.b2z left + Z.b2z disc in
  dst ← ntfs_rl_mm dst marker loc (dsize - loc);
  dst ← ntfs_rl_mc dst (loc + Z.b2z disc) src (Z.b2z left) (ssize - Z.b2z left);
  ep ← dst.[marker - 1];
  dst ← upd dst marker (fun e => set_vcn e (rl_end ep));
  em ← dst.[marker];
  dst ← (if (lcn em =? LCN_HOLE) || (lcn em =? LCN_RL_NOT_MAPPED) then
           en ← dst.[marker + 1]; upd dst marker (fun e => set_len e (vcn en - vcn e))
         else Some dst);
  if disc then
    n ← dst.[loc + 1];
    if 0 <? loc then
      p ← dst.[loc - 1];
      zset dst loc (RL (rl_end p) LCN_RL_NOT_MAPPED (vcn n - rl_end p))
    else zset dst loc (RL 0 LCN_RL_NOT_MAPPED (vcn n))
  else Some dst.

Definition ntfs_rl_replace (dst : runlist) (dsize : Z) (src : runlist) (ssize loc : Z)
    : option runlist :=
  slast ← src.[ssize - 1];
  s0 ← src.[0];
  right ← (if loc + 1 <? dsize
           then d ← dst.[loc + 1]; Some (ntfs_rl_are_mergeable (Some slast) (Some d))
           else Some false);
  left ← (if 0 <? loc
          then p ← dst.[loc - 1]; Some (ntfs_rl_are_mergeable (Some p) (Some s0))
          else Some false);
  let r := Z.b2z right in
  let l := Z.b2z left in
  let delta := ssize - 1 - l - r in
  let dst := if 0 <? delta then ntfs_rl_realloc dst (dsize + delta) else dst in
  src ← (if right : bool then d ← dst.[loc + 1]; zset src (ssize - 1) (ntfs_rl_merge_ slast d)
         else Some src);
  s0 ← src.[0];
  dst ← (if left : bool then upd dst (loc - 1) (fun p => ntfs_rl_merge_ p s0) else Some dst);
  let tail := loc + r + 1 in
  let marker := loc + ssize - l in
  dst ← ntfs_rl_mm dst marker tail (dsize - tail);
  dst ← ntfs_rl_mc dst loc src l (ssize - l);
  if 0 <? dsize - tail then
    em ← dst.[marker];
    if lcn em =? LCN_ENOENT then
      ep ← dst.[marker - 1]; upd dst marker (fun e => set_vcn e (rl_end ep))
    else Some dst
  else Some dst.

Definition ntfs_rl_split (dst : runlist) (dsize : Z) (src : runlist) (ssize loc : Z)
    : option runlist :=
  let dst := ntfs_rl_realloc dst (dsize + ssize + 1) in
  dst ← ntfs_rl_mm dst (loc + 1 + ssize) loc (dsize - loc);
  dst ← ntfs_rl_mc dst (loc + 1) src 0 ssize;
  e1 ← dst.[loc + 1];
  dst ← upd dst loc (fun e => set_len e (vcn e1 - vcn e));
  es ← dst.[loc + ssize];
  dst ← upd dst (loc + ssize + 1) (fun e => set_vcn e (rl_end es));
  en ← dst.[loc + ssize + 2];
  upd dst (loc + ssize + 1) (fun e => set_len e (vcn en - vcn e)).

(** [for (i = from; rl[i].length; i++);] *)
Fixpoint scan_end (fuel : nat) (rl : runlist) (i : Z) : option Z :=
  match fuel with
  | O => None
  | S f => e ← rl.[i]; if len e =? 0 then Some i else scan_end f rl (i + 1)
  end.
Definition rl_scan_end (rl : runlist) (i : Z) : option Z := scan_end (S (length rl)) rl i.

(** Skip the unmapped start elements of the source. *)
Fixpoint skip_unmapped (fuel : nat) (rl : runlist) (i : Z) : option Z :=
  match fuel with
  | O => None
  | S f =>
      e ← rl.[i];
      if negb (len e =? 0) && (lcn e <? LCN_HOLE) then skip_unmapped f rl (i + 1) else Some i
  end.

(** First element whose end is after [v], or the terminator. *)
Fixpoint find_insert (fuel : nat) (rl : runlist) (i v : Z) : option Z :=
  match fuel with
  | O => None
  | S f =>
      e ← rl.[i];
      if (len e =? 0) || (v <? rl_end e) then Some i else find_insert f rl (i + 1) v
  end.

(** Last index at or below [i] with lcn >= LCN_HOLE; [-1] when none. *)
Fixpoint scan_final (fuel : nat) (rl : runlist) (i : Z) : option Z :=
  match fuel with
  | O => None
  | S f =>
      if i <? 0 then Some i
      else e ← rl.[i]; if lcn e <? LCN_HOLE then scan_final f rl (i - 1) else Some i
  end.

(** The code after the insertion when the source had an ENOENT terminator:
    make the result end at [marker_vcn]. *)
Definition merge_marker (drl : runlist) (dend marker_vcn : Z) : option runlist :=
  ds ← rl_scan_end drl dend;
  e ← drl.[ds];
  if vcn e <=? marker_vcn then
    if vcn e =? marker_vcn then upd drl ds (fun e => set_lcn e LCN_ENOENT)
    else
      let slots := if lcn e =? LCN_ENOENT then 1 else 0 in
      let ds := if lcn e =? LCN_ENOENT then ds - 1 else ds in
      e ← drl.[ds];
      st ← (if negb (lcn e =? LCN_RL_NOT_MAPPED) then
              let drl := if slots =? 0 then ntfs_rl_realloc drl (ds + 2) else drl in
              let slots := if slots =? 0 then 2 else slots in
              p ← drl.[ds];
              let ds := ds + 1 in
              drl ← (if negb (slots =? 1) then upd drl ds (fun e => set_vcn e (rl_end p))
                     else Some drl);
              drl ← upd drl ds (fun e => set_lcn e LCN_RL_NOT_MAPPED);
              Some (drl, ds, slots - 1)
            else Some (drl, ds, slots));
      let '(drl, ds, slots) := st in
      drl ← upd drl ds (fun e => set_len e (marker_vcn - vcn e));
      let ds := ds + 1 in
      let drl := if slots =? 0 then ntfs_rl_realloc drl (ds + 1) else drl in
      zset drl ds (RL marker_vcn LCN_ENOENT 0)
  else Some drl.

Definition ntfs_runlists_merge_i (odrl osrl : option runlist)
    : option (result (option runlist)) :=
  match osrl with
  | None => Some (Ok odrl)
  | Some srl =>
    match odrl with
    | None =>
        e0 ← srl.[0];
        if vcn e0 =? 0 then Some (Ok (Some srl))
        else
          dend ← rl_scan_end srl 0;
          let dend := dend + 1 in
          let drl := ntfs_rl_realloc srl (dend + 1) in
          drl ← ntfs_rl_mm drl 1 0 dend;
          e1 ← drl.[1];
          drl ← zset drl 0 (RL 0 LCN_RL_NOT_MAPPED (vcn e1));
          Some (Ok (Some drl))
    | Some drl =>
        sstart ← skip_unmapped (S (length srl)) srl 0;
        ss0 ← srl.[sstart];
        if len ss0 =? 0 then Some (Err EINVAL)
        else
        dins ← find_insert (S (length drl)) drl 0 (vcn ss0);
        d ← drl.[dins];
        if (vcn d =? vcn ss0) && (0 <=? lcn d) && (0 <=? lcn ss0) then Some (Err ERANGE)
        else
        send ← rl_scan_end srl sstart;
        dend ← rl_scan_end drl dins;
        sterm ← srl.[send];
        let has_term := lcn sterm =? LCN_ENOENT in
        let marker := if has_term then send else 0 in
        let marker_vcn := if has_term then vcn sterm else 0 in
        sfinal ← scan_final (S (length srl)) srl send;
        slast ← srl.[send - 1];
        let ds := dend + 1 in
        let ss := sfinal - sstart + 1 in
        let start := (lcn d <? LCN_RL_NOT_MAPPED) || (vcn d =? vcn ss0) in
        let finish := (LCN_RL_NOT_MAPPED <=? lcn d) && (rl_end d <=? rl_end slast) in
        let ss := if finish && (len d =? 0) then ss + 1 else ss in
        let finish := if negb (marker =? 0) && (vcn slast <? rl_end d) then false else finish in
        let src := drop (Z.to_nat sstart) srl in
        drl ← (if start then
                 if finish then ntfs_rl_replace drl ds src ss dins
                 else ntfs_rl_insert drl ds src ss dins
               else
                 if finish then ntfs_rl_append drl ds src ss dins
                 else ntfs_rl_split drl ds src ss dins);
        drl ← (if negb (marker =? 0) then merge_marker drl dend marker_vcn else Some drl);
        Some (Ok (Some drl))
    end
  end.

Definition ntfs_runlists_merge := ntfs_runlists_merge_i.

End merge.

(** ** Abstract runlists

    [runs] is the sequence of runs before the terminator; [map_vcn runs v] is
    the mapping it stands for. *)

Fixpoint contig (v0 : Z) (runs : runlist) : Prop :=
  match runs with
  | [] => True
  | e :: t => vcn e = v0 /\ 0 < len e /\ contig (v0 + len e) t
  end.

Fixpoint runs_end (v0 : Z) (runs : runlist) : Z :=
  match runs with
  | [] => v0
  | e :: t => runs_end (v0 + len e) t
  end.

Definition run_lcn (e : runlist_element) (v : Z) : Z :=
  if 0 <=? lcn e then lcn e + (v - vcn e) else lcn e.

Fixpoint map_vcn (runs : runlist) (v : Z) : option Z :=
  match runs with
  | [] => None
  | e :: t => if (vcn e <=? v) && (v <? rl_end e) then Some (run_lcn e v) else map_vcn t v
  end.

(** A runlist array: runs, terminator, and whatever follows it in memory. *)
Record wf_rl (v0 : Z) (runs : runlist) (term : runlist_element) : Prop := {
  wf_contig : contig v0 runs;
  wf_term_len : len term = 0;
  wf_term_vcn : vcn term = runs_end v0 runs }.

Lemma contig_app v0 r1 r2 :
  contig v0 (r1 ++ r2) <-> contig v0 r1 /\ contig (runs_end v0 r1) r2.
Proof.
  revert v0; induction r1 as [|e r1 IH]; intros v0; cbn; [tauto|]. rewrite IH. tauto.
Qed.

Lemma runs_end_app v0 r1 r2 : runs_end v0 (r1 ++ r2) = runs_end (runs_end v0 r1) r2.
Proof. revert v0; induction r1 as [|e r1 IH]; intros v0; cbn; auto. Qed.

Lemma runs_end_ge v0 runs : contig v0 runs -> v0 <= runs_end v0 runs.
Proof.
  revert v0; induction runs as [|e t IH]; intros v0; cbn; [lia|].
  intros (_ & Hl & H). specialize (IH _ H). lia.
Qed.

Lemma map_vcn_below v0 runs v : contig v0 runs -> v < v0 -> map_vcn runs v = None.
Proof.
  revert v0; induction runs as [|e t IH]; intros v0; cbn; [done|].
  intros (Hv & Hl & H) Hlt. destruct (Z.leb_spec (vcn e) v); [lia|]. cbn.
  apply (IH _ H). lia.
Qed.

Lemma map_vcn_above v0 runs v : contig v0 runs -> runs_end v0 runs <= v -> map_vcn runs v = None.
Proof.
  revert v0; induction runs as [|e t IH]; intros v0; cbn; [done|].
  intros (Hv & Hl & H) Hge. pose proof (runs_end_ge _ _ H). unfold rl_end.
  destruct (Z.ltb_spec v (vcn e + len e)); [lia|]. rewrite andb_false_r. by apply (IH _ H).
Qed.

Lemma map_vcn_inside v0 runs v :
  contig v0 runs -> v0 <= v < runs_end v0 runs -> exists l, map_vcn runs v = Some l.
Proof.
  revert v0; induction runs as [|e t IH]; intros v0; cbn; [lia|].
  intros (Hv & Hl & H) Hin. unfold rl_end.
  destruct (Z.leb_spec (vcn e) v), (Z.ltb_spec v (vcn e + len e)); cbn; eauto; try lia.
  apply (IH _ H). lia.
Qed.

Lemma map_vcn_app r1 r2 v :
  map_vcn (r1 ++ r2) v = match map_vcn r1 v with Some l => Some l | None => map_vcn r2 v end.
Proof. induction r1 as [|e r1 IH]; cbn; [done|]. by destruct (_ && _). Qed.

(** The element after a run starts where the run ends. *)
Lemma next_vcn v0 e t term rest :
  wf_rl v0 (e :: t) term -> exists e1, (t ++ term :: rest).[0] = Some e1 /\ vcn e1 = rl_end e.
Proof.
  intros [(Hv & Hl & H) _ Ht]. unfold rl_end. destruct t as [|e1 t]; cbn in *.
  - exists term. split; [done | lia].
  - exists e1. split; [done | lia].
Qed.

Lemma wf_rl_tail v0 e t term : wf_rl v0 (e :: t) term -> wf_rl (v0 + len e) t term.
Proof. intros [(Hv & Hl & H) ? Ht]. by split. Qed.

Lemma vcn_to_lcn_loop_spec v0 runs term rest v :
  wf_rl v0 runs term -> v0 <= v ->
  vcn_to_lcn_loop (runs ++ term :: rest) v =
    Some (match map_vcn runs v with
          | Some l => l
          | None => if lcn term <? 0 then lcn term else LCN_ENOENT end).
Proof.
  revert v0; induction runs as [|e t IH]; intros v0 Hwf Hv; cbn [vcn_to_lcn_loop app map_vcn].
  - rewrite (wf_term_len _ _ _ Hwf). done.
  - destruct (next_vcn _ _ _ _ rest Hwf) as (e1 & E & Hn). rewrite E. cbn [mbind option_bind].
    destruct (wf_contig _ _ _ Hwf) as (Hve & Hle & _).
    destruct (Z.eqb_spec (len e) 0); [lia|]. rewrite Hn.
    destruct (Z.ltb_spec v (rl_end e)); [destruct (Z.leb_spec (vcn e) v); cbn; [done | lia]|].
    rewrite andb_false_r. apply (IH (v0 + len e)); [by apply wf_rl_tail | unfold rl_end in *; lia].
Qed.

(** on a well-formed runlist the lookup is memory safe and returns the
    abstract mapping; outside the runs it returns the special value that the
    terminator (or the documented convention) prescribes. *)
Theorem vcn_to_lcn_correct v0 runs term rest v :
  wf_rl v0 runs term -> lcn term < 0 -> 0 <= v ->
  ntfs_rl_vcn_to_lcn (Some (runs ++ term :: rest)) v =
    Some (if v <? v0 then LCN_ENOENT
          else match map_vcn runs v with Some l => l | None => lcn term end).
Proof.
  intros Hwf Hneg Hv. unfold ntfs_rl_vcn_to_lcn.
  destruct (Z.ltb_spec v 0); [lia|].
  assert (exists e0, (runs ++ term :: rest).[0] = Some e0 /\ vcn e0 = v0) as (e0 & E & <-).
  { destruct Hwf as [Hc _ Ht]. destruct runs as [|e t]; cbn in *; [exists term | exists e]; tauto. }
  rewrite E. cbn [mbind option_bind]. destruct (Z.ltb_spec v (vcn e0)); [done|].
  rewrite (vcn_to_lcn_loop_spec (vcn e0)) by done.
  by rewrite (proj2 (Z.ltb_lt (lcn term) 0) Hneg).
Qed.

Lemma vcn_to_lcn_correct_witness :
  ntfs_rl_vcn_to_lcn (Some ([RL 0 100 16; RL 16 LCN_HOLE 8] ++ [RL 24 LCN_ENOENT 0])) 9 = Some 109.
Proof.
  apply (vcn_to_lcn_correct 0 [RL 0 100 16; RL 16 LCN_HOLE 8] (RL 24 LCN_ENOENT 0) [] 9);
    [split; cbn; lia | unfold LCN_ENOENT; cbn; lia | lia].
Defined.

(** ** Truncation *)

Lemma truncate_loop_spec v0 runs term rest s :
  wf_rl v0 runs term -> v0 <= s < runs_end v0 runs ->
  exists runs' rest', truncate_loop (runs ++ term :: rest) s
      = Some (runs' ++ RL s LCN_ENOENT 0 :: rest', Ok tt) /\
    contig v0 runs' /\ runs_end v0 runs' = s /\
    length (runs' ++ RL s LCN_ENOENT 0 :: rest') = length (runs ++ term :: rest) /\
    forall v, map_vcn runs' v = if v <? s then map_vcn runs v else None.
Proof.
  revert v0; induction runs as [|e t IH]; intros v0 Hwf Hs; [cbn in Hs; lia|].
  destruct (next_vcn _ _ _ _ rest Hwf) as (e1 & E & Hn).
  pose proof (wf_contig _ _ _ Hwf) as (Hve & Hle & Hc).
  cbn [truncate_loop app]. rewrite E. cbn [mbind option_bind].
  destruct (Z.eqb_spec (len e) 0); [lia|]. rewrite Hn.
  destruct (Z.ltb_spec s (rl_end e)) as [Hlt|Hge].
  - destruct (Z.eqb_spec (s - vcn e) 0) as [Hz|Hnz].
    + exists [], (t ++ term :: rest). replace (vcn e) with s by lia. split_and!; cbn; try done; try lia.
      intros v. destruct (Z.ltb_spec v s); [|done].
      symmetry. destruct (Z.leb_spec (vcn e) v); [lia|]. cbn. apply (map_vcn_below _ _ _ Hc). lia.
    + destruct (t ++ term :: rest) as [|x l] eqn:El; [destruct t; done|].
      rewrite zset_inside by (rewrite zlen_cons; pose proof (zlen_nonneg l); lia).
      cbn. exists [set_len e (s - vcn e)], l. split_and!; try done.
      * cbn. lia.
      * cbn. lia.
      * intros v. cbn. unfold rl_end, run_lcn in *. cbn.
        replace (vcn e + (s - vcn e)) with s by lia.
        destruct (Z.leb_spec (vcn e) v), (Z.ltb_spec v s); cbn; try done.
        -- destruct (Z.ltb_spec v (vcn e + len e)); [done | lia].
        -- symmetry. apply (map_vcn_below _ _ _ Hc). lia.
  - unfold rl_end in Hge. destruct (IH (v0 + len e)) as (r' & rest' & E' & Hc' & He' & Hl' & Hm').
    { by apply wf_rl_tail. } { cbn in Hs. lia. }
    rewrite E'. cbn. exists (e :: r'), rest'. split_and!; cbn; try done.
    + by rewrite Hl'.
    + intros v. rewrite Hm'. unfold rl_end.
      destruct (Z.leb_spec (vcn e) v), (Z.ltb_spec v (vcn e + len e)), (Z.ltb_spec v s); cbn; done || lia.
Qed.

(** truncating at a mapped vcn keeps the mapping below it, unmaps the rest
    and leaves a well-formed runlist ending there with an ENOENT terminator. *)
Theorem rl_truncate_correct v0 runs term rest s :
  wf_rl v0 runs term -> v0 <= s < runs_end v0 runs ->
  exists runs' rest', ntfs_rl_truncate (Some (runs ++ term :: rest)) s
      = Some (Some (runs' ++ RL s LCN_ENOENT 0 :: rest'), Ok tt) /\
    wf_rl v0 runs' (RL s LCN_ENOENT 0) /\
    forall v, map_vcn runs' v = if v <? s then map_vcn runs v else None.
Proof.
  intros Hwf Hs. destruct (truncate_loop_spec _ _ _ rest _ Hwf Hs) as (r & rest' & E & Hc & He & _ & Hm).
  exists r, rest'. split_and!; [| by split | done].
  unfold ntfs_rl_truncate. pose proof (wf_contig _ _ _ Hwf) as Hcr.
  destruct runs as [|e t]; [cbn in Hs; lia|]. destruct Hcr as (Hv & _).
  cbn [app]. rewrite zget_cons_0. cbn [mbind option_bind].
  destruct (Z.ltb_spec s (vcn e)); [lia|]. cbn [app] in E. by rewrite E.
Qed.

Lemma rl_truncate_correct_witness :
  exists runs' rest', ntfs_rl_truncate (Some ([RL 0 100 16; RL 16 LCN_HOLE 8] ++ [RL 24 LCN_ENOENT 0])) 20
      = Some (Some (runs' ++ RL 20 LCN_ENOENT 0 :: rest'), Ok tt) /\
    wf_rl 0 runs' (RL 20 LCN_ENOENT 0) /\
    forall v, map_vcn runs' v = if v <? 20 then map_vcn [RL 0 100 16; RL 16 LCN_HOLE 8] v else None.
Proof.
  apply (rl_truncate_correct 0 [RL 0 100 16; RL 16 LCN_HOLE 8] (RL 24 LCN_ENOENT 0) [] 20);
    [split; cbn; lia | cbn; lia].
Defined.

(** ** Sparse accounting *)

Fixpoint allocated_clusters (runs : runlist) : Z :=
  match runs with
  | [] => 0
  | e :: t => (if lcn e <? 0 then 0 else len e) + allocated_clusters t
  end.

(** Fully mapped: every run is on disk or a hole. *)
Definition fully_mapped (runs : runlist) : Prop := Forall (fun e => LCN_HOLE <= lcn e) runs.

Lemma allocated_clusters_bounds v0 runs :
  contig v0 runs -> 0 <= allocated_clusters runs <= runs_end v0 runs - v0.
Proof.
  revert v0; induction runs as [|e t IH]; intros v0; cbn; [lia|].
  intros (_ & Hl & Hc). specialize (IH _ Hc). destruct (lcn e <? 0); lia.
Qed.

Lemma compressed_size_loop_spec v0 runs term rest acc :
  wf_rl v0 runs term -> fully_mapped runs -> 0 <= acc ->
  acc + (runs_end v0 runs - v0) < 2 ^ 63 ->
  compressed_size_loop (runs ++ term :: rest) acc = Some (Ok (acc + allocated_clusters runs)).
Proof.
  revert v0 acc; induction runs as [|e t IH]; intros v0 acc Hwf Hm Ha Hb; cbn [compressed_size_loop app].
  - rewrite (wf_term_len _ _ _ Hwf). cbn. do 2 f_equal. lia.
  - pose proof (wf_contig _ _ _ Hwf) as (Hv & Hl & Hc). inversion Hm as [|? ? Hme Hmt]; subst.
    destruct (Z.eqb_spec (len e) 0); [lia|]. cbn in Hb. pose proof (runs_end_ge _ _ Hc).
    cbn [allocated_clusters]. unfold LCN_HOLE in *. destruct (Z.ltb_spec (lcn e) 0).
    + rewrite (proj2 (Z.eqb_eq (lcn e) (-1))) by lia. cbn.
      rewrite (IH _ _ (wf_rl_tail _ _ _ _ Hwf)) by (done || lia). do 2 f_equal.
    + rewrite s64_small by (unfold in_s64; lia).
      rewrite (IH _ _ (wf_rl_tail _ _ _ _ Hwf)) by (done || lia). do 2 f_equal. lia.
Qed.

(** C3: the compressed size is the byte size of the allocated runs, with no
    overflow as long as the attribute fits in an s64 byte count. *)
Theorem compressed_size_correct v0 runs term rest bits :
  wf_rl v0 runs term -> fully_mapped runs -> 0 <= v0 -> 0 <= bits ->
  runs_end v0 runs * 2 ^ bits < 2 ^ 63 ->
  ntfs_rl_get_compressed_size bits (Some (runs ++ term :: rest))
    = Some (Ok (allocated_clusters runs * 2 ^ bits)).
Proof.
  intros Hwf Hm H0 Hb Hsz. pose proof (allocated_clusters_bounds _ _ (wf_contig _ _ _ Hwf)) as Ha.
  assert (0 < 2 ^ bits) by lia.
  unfold ntfs_rl_get_compressed_size. rewrite (compressed_size_loop_spec v0) by (done || nia).
  cbn [mbind option_bind]. rewrite Z.add_0_l, Z.shiftl_mul_pow2 by done.
  rewrite s64_small; [done|]. unfold in_s64. nia.
Qed.

Lemma compressed_size_correct_witness :
  ntfs_rl_get_compressed_size 12 (Some ([RL 0 100 16; RL 16 LCN_HOLE 8; RL 24 300 8] ++ [RL 32 LCN_ENOENT 0]))
    = Some (Ok (24 * 2 ^ 12)).
Proof.
  apply (compressed_size_correct 0 [RL 0 100 16; RL 16 LCN_HOLE 8; RL 24 300 8] (RL 32 LCN_ENOENT 0) [] 12);
    try (split; cbn; lia); try (cbn; lia).
  repeat constructor; discriminate.
Defined.

(** [ntfs_rl_sparse] agrees: a fully mapped runlist is sparse when the
    allocated clusters do not cover it. *)
Lemma rl_sparse_correct v0 runs term rest :
  wf_rl v0 runs term -> fully_mapped runs ->
  ntfs_rl_sparse (Some (runs ++ term :: rest))
    = Some (Ok (negb (allocated_clusters runs =? runs_end v0 runs - v0))).
Proof.
  unfold ntfs_rl_sparse.
  revert v0; induction runs as [|e t IH]; intros v0 Hwf Hm; cbn [rl_sparse_loop app].
  - rewrite (wf_term_len _ _ _ Hwf). cbn. by rewrite Z.sub_diag.
  - pose proof (wf_contig _ _ _ Hwf) as (Hv & Hl & Hc). inversion Hm as [|? ? Hme Hmt]; subst.
    destruct (Z.eqb_spec (len e) 0); [lia|]. cbn [allocated_clusters runs_end].
    pose proof (allocated_clusters_bounds _ _ Hc). unfold LCN_HOLE in *.
    destruct (Z.ltb_spec (lcn e) 0).
    + rewrite (proj2 (Z.eqb_eq (lcn e) (-1))) by lia. cbn.
      by rewrite (proj2 (Z.eqb_neq (allocated_clusters t) _)) by lia.
    + rewrite (IH _ (wf_rl_tail _ _ _ _ Hwf)) by done. do 3 f_equal.
      apply eq_true_iff_eq. rewrite !Z.eqb_eq. lia.
Qed.
