(* ===== verification/RlMerge.v ===== *)
(** Correctness of runlist merging (ntfs_runlists_merge and the four splicing
    primitives of libntfs-3g/runlist.c it chooses from). *)

From S2P Require Import Prelude Runlist.
Local Open Scope Z_scope.
Local Open Scope c_scope.

Section merge.
Context (junk : runlist_element).

(** ** Element moves *)

Lemma rl_mm_Some (base : runlist) dst src size :
  0 <= dst -> 0 <= src -> 0 <= size -> dst + size <= zlen base -> src + size <= zlen base ->
  exists base', ntfs_rl_mm base dst src size = Some base' /\ zlen base' = zlen base /\
    forall j, base'.[j] = if (dst <=? j) && (j <? dst + size) then base.[j - dst + src] else base.[j].
Proof.
  intros Hd Hs Hn Hb1 Hb2. unfold ntfs_rl_mm.
  destruct (Z.eqb_spec dst src) as [->|]; cbn [negb andb].
  { exists base. split_and!; try done. intros j. destruct (_ && _); [f_equal; lia | done]. }
  destruct (Z.ltb_spec 0 size).
  - rewrite zread_inside by lia. cbn [mbind option_bind].
    assert (zread base src size = Some (take (Z.to_nat size) (drop (Z.to_nat src) base))) as E
      by (apply zread_inside; lia).
    apply zread_Some in E as (_ & _ & _ & Hz & Hg).
    destruct (zwrite base dst _) as [b'|] eqn:Ew.
    + apply zwrite_Some in Ew as (_ & _ & Hl & Hj). exists b'. rewrite Hz in Hj. split_and!; try done.
      intros j. rewrite Hj. destruct (Z.leb_spec dst j), (Z.ltb_spec j (dst + size)); cbn; try done.
      rewrite Hg by lia. f_equal. lia.
    + rewrite zwrite_inside in Ew by (rewrite ?Hz; lia). done.
  - exists base. split_and!; try done. intros j.
    destruct (Z.leb_spec dst j), (Z.ltb_spec j (dst + size)); cbn; done || lia.
Qed.

Lemma rl_mc_Some (base : runlist) dst (src : runlist) sofs size :
  0 <= dst -> 0 <= sofs -> 0 <= size -> dst + size <= zlen base -> sofs + size <= zlen src ->
  exists base', ntfs_rl_mc base dst src sofs size = Some base' /\ zlen base' = zlen base /\
    forall j, base'.[j] = if (dst <=? j) && (j <? dst + size) then src.[j - dst + sofs] else base.[j].
Proof.
  intros Hd Hs Hn Hb1 Hb2. unfold ntfs_rl_mc.
  destruct (Z.ltb_spec 0 size).
  - rewrite zread_inside by lia. cbn [mbind option_bind].
    assert (zread src sofs size = Some (take (Z.to_nat size) (drop (Z.to_nat sofs) src))) as E
      by (apply zread_inside; lia).
    apply zread_Some in E as (_ & _ & _ & Hz & Hg).
    destruct (zwrite base dst _) as [b'|] eqn:Ew.
    + apply zwrite_Some in Ew as (_ & _ & Hl & Hj). exists b'. rewrite Hz in Hj. split_and!; try done.
      intros j. rewrite Hj. destruct (Z.leb_spec dst j), (Z.ltb_spec j (dst + size)); cbn; try done.
      rewrite Hg by lia. f_equal. lia.
    + rewrite zwrite_inside in Ew by (rewrite ?Hz; lia). done.
  - exists base. split_and!; try done. intros j.
    destruct (Z.leb_spec dst j), (Z.ltb_spec j (dst + size)); cbn; done || lia.
Qed.

(** All four primitives move a tail and copy the source in: the array
    [pre ++ mid ++ post ++ slack] becomes [pre ++ gap ++ s ++ post ++ ...]
    where [gap] are the [g] elements left between [pre] and [s]. *)
Lemma splice_spec (pre mid post slack s0 s s1 : runlist) g marker tail :
  0 <= g -> marker = zlen pre + g + zlen s -> tail = zlen pre + zlen mid ->
  g + zlen s <= zlen mid + zlen slack ->
  exists b gap rest,
    ntfs_rl_mm (pre ++ mid ++ post ++ slack) marker tail (zlen post) = Some b /\
    ntfs_rl_mc b (zlen pre + g) (s0 ++ s ++ s1) (zlen s0) (zlen s)
      = Some (pre ++ gap ++ s ++ post ++ rest) /\
    zlen gap = g /\ (forall j, 0 <= j < g -> gap.[j] = (mid ++ post ++ slack).[j]).
Proof.
  intros Hg -> -> Hfit. set (base := pre ++ mid ++ post ++ slack).
  pose proof (zlen_nonneg pre). pose proof (zlen_nonneg mid). pose proof (zlen_nonneg post).
  pose proof (zlen_nonneg slack). pose proof (zlen_nonneg s0).
  pose proof (zlen_nonneg s). pose proof (zlen_nonneg s1).
  assert (zlen base = zlen pre + zlen mid + zlen post + zlen slack) as Hb
    by (unfold base; rewrite !zlen_app; lia).
  destruct (rl_mm_Some base (zlen pre + g + zlen s) (zlen pre + zlen mid) (zlen post))
    as (b1 & E1 & Hl1 & Hj1); [lia.. |].
  destruct (rl_mc_Some b1 (zlen pre + g) (s0 ++ s ++ s1) (zlen s0) (zlen s))
    as (b2 & E2 & Hl2 & Hj2); [rewrite ?zlen_app; lia.. |].
  set (k := Z.to_nat (zlen pre + g + zlen s + zlen post)).
  exists b1, (take (Z.to_nat g) (drop (Z.to_nat (zlen pre)) b2)), (drop k b2).
  assert (zread b2 (zlen pre) g = Some (take (Z.to_nat g) (drop (Z.to_nat (zlen pre)) b2))) as Er
    by (apply zread_inside; lia).
  apply zread_Some in Er as (_ & _ & _ & Hgl & Hgj).
  assert (forall j, 0 <= j < zlen pre + g -> b2.[j] = base.[j]) as Hlow.
  { intros j Hj. rewrite Hj2, Hj1.
    destruct (Z.leb_spec (zlen pre + g) j), (Z.leb_spec (zlen pre + g + zlen s) j); cbn; done || lia. }
  split_and!; [done | rewrite E2 | done | intros j Hj; rewrite Hgj, Hlow by lia; unfold base;
                 rewrite zget_app_r by lia; f_equal; lia].
  f_equal. apply zget_ext. intros j Hj.
  set (gap := take _ (drop _ b2)) in *.
  rewrite !zget_app. destruct (Z.ltb_spec j (zlen pre)).
  { rewrite Hlow by lia. unfold base. by rewrite zget_app_l. }
  rewrite Hgl. destruct (Z.ltb_spec (j - zlen pre) g).
  { rewrite Hgj by lia. f_equal. lia. }
  destruct (Z.ltb_spec (j - zlen pre - g) (zlen s)).
  { rewrite Hj2. destruct (Z.leb_spec (zlen pre + g) j), (Z.ltb_spec j (zlen pre + g + zlen s)); cbn; try lia.
    rewrite zget_app_r by lia. rewrite zget_app_l by lia. f_equal. lia. }
  destruct (Z.ltb_spec (j - zlen pre - g - zlen s) (zlen post)).
  { rewrite Hj2, Hj1.
    destruct (Z.ltb_spec j (zlen pre + g + zlen s)), (Z.leb_spec (zlen pre + g + zlen s) j),
      (Z.ltb_spec j (zlen pre + g + zlen s + zlen post)); try lia.
    rewrite andb_false_r. cbn. unfold base. rewrite zget_app_r, zget_app_r, zget_app_l by lia. f_equal. lia. }
  unfold k. rewrite <-(take_drop (Z.to_nat (zlen pre + g + zlen s + zlen post)) b2) at 1.
  rewrite zget_app_r; unfold zlen in *; rewrite length_take; [f_equal|]; lia.
Qed.

(** ** Joining two runlists at a mergeable boundary *)

Abbreviation mergeable d s := (ntfs_rl_are_mergeable (Some d) (Some s)).

Definition join (l r : runlist) : runlist :=
  match last l, r with
  | Some p, h :: t =>
      if mergeable p h then take (length l - 1) l ++ ntfs_rl_merge_ p h :: t else l ++ r
  | _, _ => l ++ r
  end.

Lemma join_nil_l r : join [] r = r.
Proof. done. Qed.

Lemma join_nil_r l : join l [] = l.
Proof. unfold join. destruct (last l); apply app_nil_r. Qed.

Lemma join_snoc l p h t :
  join (l ++ [p]) (h :: t)
    = if mergeable p h then l ++ ntfs_rl_merge_ p h :: t else (l ++ [p]) ++ h :: t.
Proof.
  unfold join. rewrite last_snoc. destruct (mergeable p h); [|done]. f_equal.
  rewrite length_app. cbn. rewrite Nat.add_sub. by rewrite take_app_length.
Qed.

(** Mergeability looks only at the position and lcn of the right element. *)
Lemma mergeable_right p h h' : vcn h = vcn h' -> lcn h = lcn h' -> mergeable p h = mergeable p h'.
Proof. unfold ntfs_rl_are_mergeable. by intros -> ->. Qed.

(** Elements that follow each other without gap. *)
Fixpoint chain (v0 : Z) (l : runlist) : Prop :=
  match l with
  | [] => True
  | e :: t => vcn e = v0 /\ chain (rl_end e) t
  end.

Lemma chain_app v0 l1 l2 : chain v0 (l1 ++ l2) <-> chain v0 l1 /\ chain (runs_end v0 l1) l2.
Proof.
  revert v0; induction l1 as [|e l1 IH]; intros v0; cbn; [tauto|]. rewrite IH. unfold rl_end.
  split; intros ((Hv & Hc) & H) || intros (Hv & Hc & H); subst; tauto.
Qed.

Lemma chain_join v0 l r : chain v0 (l ++ r) -> chain v0 (join l r).
Proof.
  destruct l as [|p l _] using rev_ind; [by rewrite join_nil_l|].
  destruct r as [|h t]; [by rewrite join_nil_r, app_nil_r|].
  rewrite join_snoc. destruct (mergeable p h); [|done].
  rewrite !chain_app, runs_end_app. cbn. unfold rl_end. cbn.
  intros ((H1 & H2 & _) & H3 & H4). split_and!; try done.
  replace (vcn p + (len p + len h)) with (vcn h + len h) by lia. done.
Qed.

(** In a chain, setting the vcn of an element from its predecessor changes
    nothing: the end-marker fix of the primitives. *)
Lemma chain_fix v0 l rest i :
  chain v0 l -> 1 <= i < zlen l ->
  exists p, (l ++ rest).[i - 1] = Some p /\ upd (l ++ rest) i (fun e => set_vcn e (rl_end p)) = Some (l ++ rest).
Proof.
  intros Hc Hi. destruct (zget_inside l (i - 1)) as [p Hp]; [lia|].
  destruct (zget_inside l i) as [e He]; [lia|].
  exists p. rewrite zget_app_l by lia. split; [done|]. unfold upd. rewrite zget_app_l, He by lia. cbn.
  assert (vcn e = rl_end p) as <-.
  { clear -Hc Hp He Hi. revert v0 i Hc Hi Hp He. induction l as [|x l IH]; intros v0 i Hc Hi Hp He;
      [by rewrite zget_outside in He by (unfold zlen; cbn; lia)|].
    cbn in Hc. destruct Hc as [_ Hc]. rewrite zlen_cons in Hi.
    rewrite zget_cons_S in He by lia. destruct (decide (i = 1)) as [->|].
    - cbn in Hp. injection Hp as <-. destruct l as [|y l]; [by rewrite zget_outside in He by (unfold zlen; cbn; lia)|].
      cbn in He, Hc. injection He as <-. tauto.
    - rewrite zget_cons_S in Hp by lia. apply (IH _ (i - 1) Hc); [lia | done | done]. }
  rewrite zset_inside by (rewrite zlen_app; pose proof (zlen_nonneg rest); lia). f_equal.
  assert (set_vcn e (vcn e) = e) as -> by by destruct e.
  apply list_insert_id. unfold zget in He. destruct (Z.ltb_spec i 0); [done|].
  by apply lookup_app_l_Some.
Qed.

(** The right-hand merge of a primitive: source [s], first element of [post]. *)
Lemma right_merge (before s srest post slack : runlist) loc ssize dsize :
  s <> [] -> ssize = zlen s -> loc + 1 = zlen before -> dsize = zlen before + zlen post ->
  exists slast (r : bool) s2 mid post2,
    (s ++ srest).[ssize - 1] = Some slast /\
    (if loc + 1 <? dsize
     then d ← (before ++ post ++ slack).[loc + 1]; Some (mergeable slast d) else Some false) = Some r /\
    (forall slack', (if r then d ← (before ++ post ++ slack').[loc + 1]; zset (s ++ srest) (ssize - 1) (ntfs_rl_merge_ slast d)
     else Some (s ++ srest)) = Some (s2 ++ srest)) /\
    join s post = s2 ++ post2 /\ post = mid ++ post2 /\ zlen mid = Z.b2z r /\ zlen s2 = zlen s /\
    (forall h t, s = h :: t -> exists h2 t2, s2 = h2 :: t2 /\ forall p, mergeable p h2 = mergeable p h).
Proof.
  intros Hne -> Hloc ->. destruct s as [|sl s _] using rev_ind; [done|]. clear Hne.
  assert (zlen (s ++ [sl]) = zlen s + 1) as Hz by (rewrite zlen_app; done).
  pose proof (zlen_nonneg before).
  exists sl. rewrite Hz. rewrite <-app_assoc. cbn [app].
  replace (zlen s + 1 - 1) with (zlen s) by lia. rewrite zget_mid by done.
  destruct post as [|p0 post].
  { exists false, (s ++ [sl]), [], []. rewrite Hloc.
    change (@zlen runlist_element []) with 0. rewrite Z.add_0_r, Z.ltb_irrefl, join_nil_r, app_nil_r, <-app_assoc.
    split_and!; try done. eauto. }
  rewrite Hloc, zlen_cons. rewrite (proj2 (Z.ltb_lt _ _)) by (pose proof (zlen_nonneg post); lia).
  cbn [app]. rewrite zget_mid by done. cbn [mbind option_bind]. rewrite join_snoc.
  exists (mergeable sl p0). destruct (mergeable sl p0) eqn:Em.
  - exists (s ++ [ntfs_rl_merge_ sl p0]), [p0], post. split_and!; try done.
    + intros slack'. rewrite zget_mid by done. cbn [mbind option_bind]. rewrite zset_mid by done.
      by rewrite <-app_assoc.
    + by rewrite <-app_assoc.
    + rewrite zlen_app. done.
    + intros h t Hs. destruct s as [|x s]; cbn in Hs; injection Hs as <- <-; cbn; eauto.
  - exists (s ++ [sl]), [], (p0 :: post). split_and!; try done; [by intros; rewrite <-app_assoc | eauto].
Qed.

(** The left-hand merge: the last element of [pre] absorbs the first of [s]. *)
Lemma left_merge (pre s2 after : runlist) loc h h2 t2 :
  loc = zlen pre -> s2 = h2 :: t2 ->
  (forall p, mergeable p h2 = mergeable p h) ->
  exists (l : bool) pre2 s3,
    (if 0 <? loc then p ← (pre ++ after).[loc - 1]; Some (mergeable p h) else Some false) = Some l /\
    (forall after', (if l then upd (pre ++ after') (loc - 1) (fun p => ntfs_rl_merge_ p h2)
     else Some (pre ++ after')) = Some (pre2 ++ after')) /\
    (forall post, join pre (s2 ++ post) = pre2 ++ s3 ++ post) /\ zlen pre2 = zlen pre /\
    exists drop, s2 = drop ++ s3 /\ zlen drop = Z.b2z l.
Proof.
  intros -> -> Hm. destruct pre as [|p pre _] using rev_ind.
  { exists false, [], (h2 :: t2). split_and!; try done. by exists []. }
  assert (zlen (pre ++ [p]) = zlen pre + 1) as Hz by (rewrite zlen_app; done).
  pose proof (zlen_nonneg pre). rewrite Hz, (proj2 (Z.ltb_lt _ _)) by lia.
  replace (zlen pre + 1 - 1) with (zlen pre) by lia.
  rewrite <-app_assoc. cbn [app]. rewrite zget_mid by done. cbn [mbind option_bind].
  exists (mergeable p h). destruct (mergeable p h) eqn:Em.
  - exists (pre ++ [ntfs_rl_merge_ p h2]), t2. split_and!; try done.
    + intros after'. rewrite <-!app_assoc. unfold upd. cbn [app]. rewrite zget_mid by done. cbn [mbind option_bind].
      by rewrite zset_mid.
    + intros post. cbn [app]. rewrite join_snoc, Hm, Em. by rewrite <-app_assoc.
    + by rewrite zlen_app.
    + by exists [h2].
  - exists (pre ++ [p]), (h2 :: t2). split_and!; try done.
    + intros post. cbn [app]. by rewrite join_snoc, Hm, Em.
    + by exists [].
Qed.

(** ** The four primitives *)

Lemma cons_snoc_app {A} (pre : list A) d r : pre ++ d :: r = (pre ++ [d]) ++ r.
Proof. by rewrite <-app_assoc. Qed.

Lemma rl_realloc_app a b n :
  ntfs_rl_realloc junk (a ++ b) n = a ++ b ++ replicate (Z.to_nat (n - zlen (a ++ b))) junk.
Proof. unfold ntfs_rl_realloc. by rewrite <-app_assoc. Qed.

Lemma rl_replace_spec v0 pre d post stale s srest loc dsize ssize :
  s <> [] -> chain v0 (pre ++ s ++ post) ->
  loc = zlen pre -> dsize = zlen pre + 1 + zlen post -> ssize = zlen s ->
  exists rest, ntfs_rl_replace junk (pre ++ d :: post ++ stale) dsize (s ++ srest) ssize loc
    = Some (join pre (join s post) ++ rest).
Proof.
  intros Hne Hch -> -> ->.
  assert (zlen (pre ++ [d]) = zlen pre + 1) as Hz by (rewrite zlen_app; done).
  destruct (right_merge (pre ++ [d]) s srest post stale (zlen pre) (zlen s) (zlen pre + 1 + zlen post))
    as (slast & r & s2 & mid & post2 & E1 & E2 & E3 & Ej & -> & Hmid & Hs2 & Hhd); [done..| lia | lia |].
  destruct s as [|h t]; [done|]. destruct (Hhd h t eq_refl) as (h2 & t2 & -> & Hm).
  unfold ntfs_rl_replace. rewrite E1. cbn [mbind option_bind app]. rewrite zget_cons_0.
  cbn [mbind option_bind]. rewrite (cons_snoc_app pre d). rewrite E2. cbn [mbind option_bind].
  destruct (left_merge pre (h2 :: t2) ([d] ++ (mid ++ post2) ++ stale) (zlen pre) h h2 t2)
    as (l & pre2 & s3 & E4 & E5 & Ej2 & Hp2 & drp & Hd & Hdl); [done | done | exact Hm |].
  rewrite <-(app_assoc pre [d]). rewrite E4. cbn [mbind option_bind].
  set (dst := if 0 <? _ then _ else _).
  assert (exists slack, dst = pre ++ [d] ++ (mid ++ post2) ++ slack /\
    zlen (h :: t) - 1 - Z.b2z l - Z.b2z r <= zlen slack) as (slack & -> & Hsl).
  { unfold dst. destruct (Z.ltb_spec 0 (zlen (h :: t) - 1 - Z.b2z l - Z.b2z r)).
    - rewrite (app_assoc pre), (app_assoc (pre ++ _)), rl_realloc_app.
      eexists; split; [by rewrite <-!app_assoc|]. rewrite !zlen_app, zlen_replicate. change (zlen [d]) with 1. lia.
    - exists stale. split; [done|]. pose proof (zlen_nonneg stale). lia. }
  change (h :: t ++ srest) with ((h :: t) ++ srest).
  rewrite (app_assoc pre [d]). rewrite (E3 slack). cbn [mbind option_bind app]. rewrite zget_cons_0.
  cbn [mbind option_bind]. rewrite <-(app_assoc pre [d]). rewrite (E5 ([d] ++ (mid ++ post2) ++ slack)).
  cbn [mbind option_bind].
  assert (zlen (h2 :: t2) = Z.b2z l + zlen s3) as Hs3 by (rewrite Hd, zlen_app; lia).
  destruct (splice_spec pre2 ([d] ++ mid) post2 slack drp s3 srest 0
      (zlen pre + zlen (h :: t) - Z.b2z l) (zlen pre + Z.b2z r + 1))
    as (b & gap & rest & Eb & Es & Hg & _);
    [done | lia | rewrite zlen_app, Hmid; change (zlen [d]) with 1; lia |
     rewrite zlen_app, Hmid; change (zlen [d]) with 1; lia |].
  destruct gap; [|rewrite zlen_cons in Hg; pose proof (zlen_nonneg gap); lia].
  rewrite zlen_app. replace (zlen pre + 1 + (zlen mid + zlen post2) - (zlen pre + Z.b2z r + 1))
    with (zlen post2) by lia.
  rewrite <-!app_assoc in Eb |- *. rewrite Eb. cbn [mbind option_bind].
  rewrite Hp2, Z.add_0_r, Hdl in Es. replace (zlen (h :: t) - Z.b2z l) with (zlen s3) by lia.
  change (h2 :: t2 ++ srest) with ((h2 :: t2) ++ srest). rewrite Hd, <-app_assoc, Es.
  cbn [mbind option_bind app]. rewrite Ej, Ej2.
  assert (chain v0 (pre2 ++ s3 ++ post2)) as Hch2.
  { rewrite <-Ej2, <-Ej. apply chain_join. rewrite chain_app in Hch |- *.
    destruct Hch as [Hc1 Hc2]. split; [done | by apply chain_join]. }
  exists rest. rewrite <-!app_assoc. destruct (Z.ltb_spec 0 (zlen post2)); [|done].
  assert (exists e0 post3, post2 = e0 :: post3) as (e0 & post3 & ->)
    by (destruct post2; [change (@zlen runlist_element []) with 0 in *; lia | eauto]).
  pose proof (zlen_nonneg pre2). pose proof (zlen_nonneg s3). pose proof (zlen_nonneg post3).
  replace (zlen pre + zlen (h :: t) - Z.b2z l) with (zlen (pre2 ++ s3)) by (rewrite zlen_app; lia).
  rewrite !(app_assoc pre2 s3). cbn [app].
  rewrite (zget_mid (pre2 ++ s3) e0 (post3 ++ rest) _ eq_refl). cbn [mbind option_bind].
  destruct (lcn e0 =? LCN_ENOENT); [|done].
  assert (1 <= zlen (pre2 ++ s3)) by (rewrite zlen_app; pose proof (zlen_nonneg t); rewrite (zlen_cons h t) in *;
    destruct l; cbn [Z.b2z] in *; [|lia]; destruct (Z.ltb_spec 0 (zlen pre)); [lia | discriminate E4]).
  destruct (chain_fix v0 ((pre2 ++ s3) ++ e0 :: post3) rest (zlen (pre2 ++ s3))) as (p & Ep & Eu).
  { by rewrite <-app_assoc. } { rewrite !zlen_app, zlen_cons in *. lia. }
  rewrite <-app_assoc in Ep, Eu. cbn [app] in Ep, Eu. rewrite Ep. cbn [mbind option_bind]. exact Eu.
Qed.

Lemma chain_last v0 l x : chain v0 (l ++ [x]) -> rl_end x = runs_end v0 (l ++ [x]).
Proof. rewrite chain_app, runs_end_app. cbn. unfold rl_end. intros (_ & H & _). lia. Qed.

Lemma runs_end_join v0 l r : runs_end v0 (join l r) = runs_end v0 (l ++ r).
Proof.
  destruct l as [|p l _] using rev_ind; [done|].
  destruct r as [|h t]; [by rewrite join_nil_r, app_nil_r|].
  rewrite join_snoc. destruct (mergeable p h); [|done].
  rewrite !runs_end_app. cbn. f_equal. lia.
Qed.

Lemma upd_mid (l1 : runlist) x l2 i f : i = zlen l1 -> upd (l1 ++ x :: l2) i f = Some (l1 ++ f x :: l2).
Proof. intros Hi. unfold upd. rewrite zget_mid by done. cbn. by apply zset_mid. Qed.

Ltac zlen_lia :=
  rewrite ?zlen_app, ?zlen_cons; change (@zlen runlist_element []) with 0; lia.

(** A hole keeps its right end when its left end moves to [v]. *)
Definition is_gap (m : runlist_element) : bool :=
  (lcn m =? LCN_HOLE) || (lcn m =? LCN_RL_NOT_MAPPED).

Definition moved (m : runlist_element) (post : runlist) (v : Z) : runlist_element :=
  if is_gap m then RL v (lcn m) (match post with n :: _ => vcn n - v | [] => 0 end)
  else RL v (lcn m) (len m).

(** The marker update shared by the two forms of [ntfs_rl_insert]. *)
Lemma insert_marker (l post rest : runlist) x m marker (Hgap : is_gap m = true -> post <> []) :
  marker = zlen (l ++ [x]) ->
  (ep ← (l ++ x :: m :: post ++ rest).[marker - 1];
   dst ← upd (l ++ x :: m :: post ++ rest) marker (fun e => set_vcn e (rl_end ep));
   em ← dst.[marker];
   if (lcn em =? LCN_HOLE) || (lcn em =? LCN_RL_NOT_MAPPED) then
     en ← dst.[marker + 1]; upd dst marker (fun e => set_len e (vcn en - vcn e))
   else Some dst) = Some (l ++ x :: moved m post (rl_end x) :: post ++ rest).
Proof.
  intros ->. rewrite zlen_app. change (zlen [x]) with 1. rewrite zget_mid by lia. cbn [mbind option_bind].
  rewrite (cons_snoc_app l x (m :: post ++ rest)).
  rewrite (upd_mid (l ++ [x])) by zlen_lia. cbn [mbind option_bind].
  rewrite (zget_mid (l ++ [x]) _ _ (zlen l + 1)) by zlen_lia. cbn [mbind option_bind].
  unfold moved, is_gap in *. cbn [set_vcn lcn].
  destruct (_ || _); [|by rewrite <-app_assoc].
  destruct post as [|n post]; [by destruct Hgap|]. cbn [app].
  rewrite (cons_snoc_app (l ++ [x]) _ (n :: post ++ rest)).
  rewrite (zget_mid ((l ++ [x]) ++ [_])) by zlen_lia. cbn [mbind option_bind].
  rewrite <-(app_assoc (l ++ [x])). cbn [app]. rewrite (upd_mid (l ++ [x])) by zlen_lia.
  by rewrite <-app_assoc.
Qed.

Lemma join_snoc_ne l r : r <> [] -> exists l' x, join l r = l' ++ [x].
Proof.
  intros Hr. destruct (join l r) as [|x l' _] eqn:E using rev_ind; [|eauto]. exfalso.
  destruct r as [|h t]; [done|]. destruct l as [|p l _] using rev_ind; [done|].
  rewrite join_snoc in E. destruct (mergeable p h); by destruct l.
Qed.

Lemma rl_insert_spec pre s m post stale srest loc dsize ssize :
  s <> [] -> chain 0 (pre ++ s) -> Forall (fun e => 0 < len e) s ->
  (is_gap m = true -> post <> []) ->
  loc = zlen pre -> dsize = zlen pre + 1 + zlen post -> ssize = zlen s ->
  exists rest, ntfs_rl_insert junk (pre ++ m :: post ++ stale) dsize (s ++ srest) ssize loc
    = Some (join pre s ++ moved m post (runs_end 0 (pre ++ s)) :: post ++ rest).
Proof.
  intros Hne Hch Hpos Hgap -> -> ->. destruct s as [|h t]; [done|]. clear Hne.
  unfold ntfs_rl_insert. cbn [app]. rewrite zget_cons_0. cbn [mbind option_bind].
  destruct (left_merge pre (h :: t) (m :: post ++ stale) (zlen pre) h h t)
    as (l & pre2 & s3 & E4 & E5 & Ej & Hp2 & drp & Hd & Hdl); [done.. |].
  set (ld := if zlen pre =? 0 then _ else _).
  assert (ld = Some (l, false)) as ->.
  { unfold ld. destruct pre as [|p pre _] using rev_ind.
    - cbn in Hch |- *. injection E4 as <-. destruct (Z.ltb_spec 0 (vcn h)); [lia | done].
    - assert (zlen (pre ++ [p]) = zlen pre + 1) as Hz by zlen_lia.
      pose proof (zlen_nonneg pre). rewrite Hz in E4 |- *.
      rewrite (proj2 (Z.ltb_lt _ _)) in E4 by lia. rewrite (proj2 (Z.eqb_neq _ _)) by lia.
      replace (zlen pre + 1 - 1) with (zlen pre) in E4 |- * by lia.
      rewrite <-app_assoc in E4 |- *. cbn [app] in E4 |- *. rewrite zget_mid in E4 |- * by done.
      cbn [mbind option_bind] in E4 |- *. injection E4 as <-. do 2 f_equal.
      apply chain_app in Hch as [Hc1 [Hv _]]. pose proof (chain_last _ _ _ Hc1) as He.
      inversion Hpos; subst. unfold rl_end in He. apply Z.ltb_ge. destruct (mergeable p h); lia. }
  cbn [mbind option_bind fst snd Z.b2z]. rewrite !Z.add_0_r.
  change (m :: post ++ stale) with ((m :: post) ++ stale).
  rewrite (app_assoc pre), rl_realloc_app, <-app_assoc.
  set (slack := stale ++ replicate _ _).
  assert (zlen (h :: t) - Z.b2z l <= zlen slack) as Hsl
    by (unfold slack; rewrite !zlen_app, zlen_replicate, !zlen_cons; lia).
  clearbody slack. rewrite E5. cbn [mbind option_bind].
  assert (zlen (h :: t) = Z.b2z l + zlen s3) as Hs3 by (rewrite Hd, zlen_app; lia).
  destruct (splice_spec pre2 [] (m :: post) slack drp s3 srest 0
      (zlen pre + zlen (h :: t) - Z.b2z l) (zlen pre))
    as (b & gap & rest & Eb & Es & Hg & _);
    [done | lia | change (@zlen runlist_element []) with 0; lia | change (@zlen runlist_element []) with 0; lia |].
  destruct gap; [|rewrite zlen_cons in Hg; pose proof (zlen_nonneg gap); lia]. cbn [app] in Eb, Es.
  replace (zlen pre + 1 + zlen post - zlen pre) with (zlen (m :: post)) by (rewrite zlen_cons; lia).
  cbn [app]. rewrite Eb. cbn [mbind option_bind].
  rewrite Hp2, Z.add_0_r, Hdl in Es. replace (zlen (h :: t) - Z.b2z l) with (zlen s3) by lia.
  change (h :: t ++ srest) with ((h :: t) ++ srest). rewrite Hd, <-app_assoc, Es.
  cbn [mbind option_bind]. rewrite <-Hd.
  specialize (Ej []). rewrite !app_nil_r in Ej. rewrite <-runs_end_join, Ej.
  destruct (join_snoc_ne pre (h :: t)) as (l' & x & El); [done|]. rewrite Ej in El.
  rewrite (app_assoc pre2 s3), El, <-app_assoc. cbn [app].
  assert (chain 0 (l' ++ [x])) as Hc by (rewrite <-El, <-Ej; by apply chain_join).
  rewrite <-(chain_last _ _ _ Hc).
  assert (zlen pre + zlen (h :: t) - Z.b2z l = zlen (l' ++ [x])) as Hlen
    by (rewrite <-El, zlen_app; lia).
  pose proof (insert_marker l' post rest x m _ Hgap Hlen) as Hmk.
  exists rest. rewrite <-app_assoc. cbn [app]. rewrite <-Hmk. clear.
  apply obind_ext; intros ep. apply obind_ext; intros dst. apply obind_ext; intros em.
  apply obind_ret.
Qed.

Lemma rl_append_spec v0 pre d post stale h t srest loc dsize ssize :
  chain v0 (pre ++ set_len d (vcn h - vcn d) :: (h :: t) ++ post) ->
  zlen (h :: t) < zlen (join (h :: t) post) ->
  loc = zlen pre -> dsize = zlen pre + 1 + zlen post -> ssize = zlen (h :: t) ->
  exists rest, ntfs_rl_append junk (pre ++ d :: post ++ stale) dsize ((h :: t) ++ srest) ssize loc
    = Some (pre ++ set_len d (vcn h - vcn d) :: join (h :: t) post ++ rest).
Proof.
  intros Hch Hpost -> -> ->.
  destruct (right_merge (pre ++ [d]) (h :: t) srest post stale (zlen pre) (zlen (h :: t)) (zlen pre + 1 + zlen post))
    as (slast & r & s2 & mid & post2 & E1 & E2 & E3 & Ej & -> & Hmid & Hs2 & Hhd);
    [done | done | zlen_lia | zlen_lia |].
  rewrite Ej in Hpost |- *. rewrite zlen_app, Hs2 in Hpost.
  destruct post2 as [|e0 post3]; [change (@zlen runlist_element []) with 0 in Hpost; lia|].
  unfold ntfs_rl_append. rewrite E1. cbn [mbind option_bind].
  rewrite (cons_snoc_app pre d). rewrite E2. cbn [mbind option_bind].
  rewrite (app_assoc (pre ++ [d])), rl_realloc_app, <-app_assoc, <-app_assoc.
  set (slack := stale ++ replicate _ _).
  assert (zlen (h :: t) - Z.b2z r <= zlen slack) as Hsl
    by (unfold slack; rewrite ?zlen_app, zlen_replicate, ?zlen_app; change (zlen [d]) with 1; lia).
  clearbody slack. specialize (E3 slack). rewrite <-!app_assoc in E3. rewrite <-!app_assoc.
  rewrite E3. cbn [mbind option_bind].
  pose proof (zlen_nonneg pre). pose proof (zlen_nonneg post3). pose proof (zlen_nonneg t).
  destruct (splice_spec (pre ++ [d]) mid (e0 :: post3) slack [] s2 srest 0
      (zlen pre + zlen (h :: t) + 1) (zlen pre + 1 + Z.b2z r)) as (b & gap & rest & Eb & Es & Hg & _);
    [done | rewrite Hs2, zlen_app; change (zlen [d]) with 1; lia | zlen_lia | rewrite Hs2, Hmid; lia |].
  destruct gap; [|rewrite zlen_cons in Hg; pose proof (zlen_nonneg gap); lia].
  replace (zlen pre + 1 + zlen (mid ++ e0 :: post3) - zlen pre - 1 - Z.b2z r) with (zlen (e0 :: post3)) by zlen_lia.
  rewrite <-?app_assoc in Eb. rewrite <-?app_assoc. rewrite Eb. cbn [mbind option_bind].
  replace (zlen (pre ++ [d]) + 0) with (zlen pre + 1) in Es by zlen_lia.
  cbn [app] in Es. rewrite Hs2 in Es. change (@zlen runlist_element []) with 0 in Es.
  rewrite Es. cbn [mbind option_bind].
  assert (exists t2, s2 = h :: t2 \/ exists q, s2 = q :: t2 /\ vcn q = vcn h) as (t2 & Hh2).
  { destruct (Hhd h t eq_refl) as (q & t2 & -> & _). exists t2. right. exists q. split; [done|].
    destruct t as [|y t _] using rev_ind.
    - change [h] with ([] ++ [h]) in Ej. destruct (mid ++ e0 :: post3) eqn:Ep; [by destruct mid|].
      rewrite join_snoc in Ej. destruct (mergeable h r0); cbn in Ej; by injection Ej as <- _.
    - change (h :: t ++ [y]) with ((h :: t) ++ [y]) in Ej. destruct (mid ++ e0 :: post3) eqn:Ep; [by destruct mid|].
      rewrite join_snoc in Ej. destruct (mergeable y r0); cbn in Ej; by injection Ej as <- _. }
  assert (exists q, s2 = q :: t2 /\ vcn q = vcn h) as (q & -> & Hq) by (destruct Hh2 as [->|]; eauto). clear Hh2.
  cbn [app]. rewrite (zget_mid (pre ++ [d]) q _ (zlen pre + 1)) by zlen_lia. cbn [mbind option_bind].
  rewrite <-app_assoc. cbn [app]. rewrite (upd_mid pre) by done. cbn [mbind option_bind]. rewrite Hq.
  set (d' := set_len d _) in *.
  rewrite (cons_snoc_app pre d'), (cons_snoc_app _ q), (app_assoc (_ ++ [q])).
  assert (zlen (((pre ++ [d']) ++ [q]) ++ t2) = zlen pre + zlen (h :: t) + 1) as Hz
    by (rewrite !zlen_app; rewrite zlen_cons in Hs2; change (zlen [d']) with 1; change (zlen [q]) with 1; lia).
  rewrite (zget_mid _ e0 _ _ (eq_sym Hz)). cbn [mbind option_bind].
  exists rest. destruct (lcn e0 =? LCN_ENOENT); [|by rewrite <-!app_assoc].
  destruct (chain_fix v0 ((((pre ++ [d']) ++ [q]) ++ t2) ++ e0 :: post3) rest (zlen pre + zlen (h :: t) + 1)) as (p & Ep & Eu).
  { rewrite <-!app_assoc. cbn [app].
    change (q :: t2 ++ e0 :: post3) with ((q :: t2) ++ e0 :: post3). rewrite <-Ej.
    change (pre ++ d' :: join (h :: t) (mid ++ e0 :: post3)) with (pre ++ [d'] ++ join (h :: t) (mid ++ e0 :: post3)).
    change (pre ++ d' :: (h :: t) ++ mid ++ e0 :: post3) with (pre ++ [d'] ++ (h :: t) ++ mid ++ e0 :: post3) in Hch.
    rewrite !(app_assoc pre) in *. apply chain_app in Hch as [Hc1 Hc2]. apply chain_app.
    split; [done | by apply chain_join]. }
  { rewrite zlen_app, Hz, (zlen_cons e0), (zlen_cons h t). lia. }
  rewrite <-app_assoc in Ep, Eu. cbn [app] in Ep, Eu. rewrite Ep. cbn [mbind option_bind].
  rewrite Eu. by rewrite <-!app_assoc.
Qed.

Lemma rl_split_spec v0 pre d n post stale h t srest loc dsize ssize :
  chain v0 (h :: t) ->
  loc = zlen pre -> dsize = zlen pre + 1 + zlen (n :: post) -> ssize = zlen (h :: t) ->
  exists rest, ntfs_rl_split junk (pre ++ d :: (n :: post) ++ stale) dsize ((h :: t) ++ srest) ssize loc
    = Some (pre ++ set_len d (vcn h - vcn d) :: (h :: t)
        ++ RL (runs_end v0 (h :: t)) (lcn d) (vcn n - runs_end v0 (h :: t)) :: n :: post ++ rest).
Proof.
  intros Hch -> -> ->. unfold ntfs_rl_split.
  pose proof (zlen_nonneg pre). pose proof (zlen_nonneg post). pose proof (zlen_nonneg t).
  change (pre ++ d :: (n :: post) ++ stale) with (pre ++ (d :: n :: post) ++ stale).
  rewrite (app_assoc pre), rl_realloc_app, <-app_assoc.
  set (slack := stale ++ replicate _ _).
  assert (1 + zlen (h :: t) <= zlen slack) as Hsl
    by (unfold slack; rewrite ?zlen_app, zlen_replicate, ?zlen_app, (zlen_cons d); lia).
  clearbody slack.
  destruct (splice_spec pre [] (d :: n :: post) slack [] (h :: t) srest 1
      (zlen pre + 1 + zlen (h :: t)) (zlen pre)) as (b & gap & rest & Eb & Es & Hg & Hgj);
    [done | lia | change (@zlen runlist_element []) with 0; lia | change (@zlen runlist_element []) with 0; lia |].
  replace (zlen pre + 1 + zlen (n :: post) - zlen pre) with (zlen (d :: n :: post)) by zlen_lia.
  cbn [app] in Eb, Es |- *. rewrite Eb. cbn [mbind option_bind].
  change (@zlen runlist_element []) with 0 in Es. rewrite Es. cbn [mbind option_bind].
  destruct gap as [|g0 [|? gap]]; [done | | rewrite !zlen_cons in Hg; pose proof (zlen_nonneg gap); lia].
  specialize (Hgj 0 ltac:(lia)). cbn in Hgj. injection Hgj as ->. cbn [app].
  rewrite (cons_snoc_app pre d), (zget_mid (pre ++ [d])) by zlen_lia. cbn [mbind option_bind].
  rewrite <-app_assoc. cbn [app]. rewrite (upd_mid pre) by done. cbn [mbind option_bind].
  set (d' := set_len d _).
  destruct (exists_last (l := h :: t)) as (l' & x & El); [done|].
  assert (zlen (h :: t) = zlen l' + 1) as Hz by (rewrite El; zlen_lia). rewrite Hz.
  change (h :: t ++ d :: n :: post ++ rest) with ((h :: t) ++ d :: n :: post ++ rest).
  change (h :: t ++ RL (runs_end v0 (h :: t)) (lcn d) (vcn n - runs_end v0 (h :: t)) :: n :: post ++ rest)
    with ((h :: t) ++ RL (runs_end v0 (h :: t)) (lcn d) (vcn n - runs_end v0 (h :: t)) :: n :: post ++ rest).
  rewrite El in Hch |- *. rewrite <-(chain_last _ _ _ Hch), <-!app_assoc. cbn [app].
  replace (pre ++ d' :: l' ++ x :: d :: n :: post ++ rest) with (((pre ++ [d']) ++ l') ++ x :: d :: n :: post ++ rest)
    by by rewrite <-!app_assoc.
  rewrite (zget_mid ((pre ++ [d']) ++ l') x) by zlen_lia. cbn [mbind option_bind].
  rewrite (cons_snoc_app _ x). rewrite (upd_mid (((pre ++ [d']) ++ l') ++ [x])) by zlen_lia.
  cbn [mbind option_bind]. rewrite (cons_snoc_app _ (set_vcn d _)).
  rewrite (zget_mid ((((pre ++ [d']) ++ l') ++ [x]) ++ [_]) n) by zlen_lia. cbn [mbind option_bind].
  rewrite <-(app_assoc _ [_] (n :: _)). cbn [app]. rewrite (upd_mid (((pre ++ [d']) ++ l') ++ [x])) by zlen_lia.
  exists rest. match goal with |- context [h :: t ++ ?q] => change (h :: t ++ q) with ((h :: t) ++ q) end.
  rewrite El, <-!app_assoc. done.
Qed.

(** ** Joins and the abstract mapping *)

Lemma contig_chain v0 l : contig v0 l -> chain v0 l.
Proof.
  revert v0; induction l as [|e t IH]; intros v0; cbn; [done|]. unfold rl_end.
  intros (<- & _ & H). eauto.
Qed.

Lemma mergeable_inv p h : mergeable p h = true -> rl_end p = vcn h ->
  (lcn p = LCN_RL_NOT_MAPPED /\ lcn h = LCN_RL_NOT_MAPPED) \/ (lcn p = LCN_HOLE /\ lcn h = LCN_HOLE) \/
  (0 <= lcn p /\ lcn h = lcn p + len p).
Proof.
  unfold ntfs_rl_are_mergeable. intros H He.
  destruct (Z.eqb_spec (lcn p) LCN_RL_NOT_MAPPED), (Z.eqb_spec (lcn h) LCN_RL_NOT_MAPPED);
    cbn in H; try (left; done); rewrite He, Z.eqb_refl in H; cbn in H; right;
    destruct (Z.leb_spec 0 (lcn p)), (Z.leb_spec 0 (lcn h)), (Z.eqb_spec (lcn p + len p) (lcn h)),
      (Z.eqb_spec (lcn p) LCN_HOLE), (Z.eqb_spec (lcn h) LCN_HOLE); cbn in H; try discriminate H; auto.
Qed.

Lemma contig_join v0 l r : contig v0 (l ++ r) -> contig v0 (join l r).
Proof.
  destruct l as [|p l _] using rev_ind; [done|].
  destruct r as [|h t]; [by rewrite join_nil_r, app_nil_r|].
  rewrite join_snoc. destruct (mergeable p h); [|done].
  rewrite !contig_app, runs_end_app. cbn.
  intros ((H1 & H2 & H3 & _) & H4 & H5 & H6). split_and!; try done; [lia|]. by rewrite Z.add_assoc.
Qed.

(** A join changes the representation, not the mapping. *)
Lemma map_vcn_join v0 l r v : contig v0 (l ++ r) -> map_vcn (join l r) v = map_vcn (l ++ r) v.
Proof.
  destruct l as [|p l _] using rev_ind; [done|].
  destruct r as [|h t]; [by rewrite join_nil_r, app_nil_r|].
  rewrite join_snoc. destruct (mergeable p h) eqn:Em; [|done].
  rewrite !contig_app, runs_end_app. cbn. intros ((H1 & H2 & H3 & _) & H4 & H5 & H6).
  rewrite !map_vcn_app. destruct (map_vcn l v); [done|]. cbn. unfold run_lcn, rl_end. cbn.
  assert (vcn h = vcn p + len p) as Hv by lia.
  destruct (Z.leb_spec (vcn p) v), (Z.ltb_spec v (vcn p + (len p + len h))),
    (Z.ltb_spec v (vcn p + len p)), (Z.leb_spec (vcn h) v), (Z.ltb_spec v (vcn h + len h)); cbn; try done; try lia.
  destruct (mergeable_inv p h Em) as [[-> ->]|[[-> ->]|[Hp ->]]]; [unfold rl_end; lia | done | done |].
  rewrite !(proj2 (Z.leb_le 0 _)) by lia. f_equal. lia.
Qed.

Lemma join_app l r t : r <> [] -> join l (r ++ t) = join l r ++ t.
Proof.
  intros Hr. destruct r as [|h r]; [done|]. cbn [app].
  destruct l as [|p l _] using rev_ind; [done|]. rewrite !join_snoc.
  destruct (mergeable p h); by rewrite <-!app_assoc.
Qed.

(** A terminator below [LCN_HOLE] never merges with a mapped run. *)
Lemma join_term l post term : l <> [] -> Forall (fun e => LCN_HOLE <= lcn e) l -> lcn term < LCN_HOLE ->
  join l (post ++ [term]) = join l post ++ [term].
Proof.
  intros Hl Hm Ht. destruct post as [|h t]; [|by apply join_app].
  rewrite join_nil_r. cbn [app]. destruct l as [|p l _] using rev_ind; [done|]. rewrite join_snoc.
  apply Forall_app in Hm as [_ Hm]. inversion Hm; subst. unfold LCN_HOLE in *.
  unfold ntfs_rl_are_mergeable, LCN_RL_NOT_MAPPED, LCN_HOLE.
  rewrite (proj2 (Z.eqb_neq (lcn p) _)) by lia. cbn [andb].
  rewrite (proj2 (Z.leb_gt 0 (lcn term))) by lia. rewrite andb_false_r. cbn [andb].
  rewrite (proj2 (Z.eqb_neq (lcn term) (-1))) by lia. rewrite andb_false_r. by destruct (negb _).
Qed.

Lemma join_nonempty l r : l <> [] -> join l r <> [].
Proof.
  intros Hl. destruct l as [|p l _] using rev_ind; [done|].
  destruct r as [|h t]; [by rewrite join_nil_r; destruct l|].
  rewrite join_snoc. destruct (mergeable p h); by destruct l.
Qed.

Lemma join_length l r : zlen l <= zlen (join l r).
Proof.
  destruct l as [|p l _] using rev_ind; [apply zlen_nonneg|].
  destruct r as [|h t]; [by rewrite join_nil_r|].
  pose proof (zlen_nonneg t). rewrite join_snoc. destruct (mergeable p h); zlen_lia.
Qed.

(** [runs] stands for the same mapping as [l]. *)
Definition same_map (v0 : Z) (runs l : runlist) : Prop :=
  contig v0 runs /\ runs_end v0 runs = runs_end v0 l /\ forall v, map_vcn runs v = map_vcn l v.

Lemma same_map_join v0 l r : contig v0 (l ++ r) -> same_map v0 (join l r) (l ++ r).
Proof.
  intros H. split_and!; [by apply contig_join | apply runs_end_join | intros v; by apply (map_vcn_join v0)].
Qed.

Lemma same_map_refl v0 l : contig v0 l -> same_map v0 l l.
Proof. by intros. Qed.

Lemma same_map_trans v0 l1 l2 l3 : same_map v0 l1 l2 -> same_map v0 l2 l3 -> same_map v0 l1 l3.
Proof. intros (? & E1 & M1) (_ & E2 & M2). split_and!; [done | congruence | intros v; by rewrite M1]. Qed.

Lemma same_map_app v0 pre l l' : contig v0 (pre ++ l) -> same_map (runs_end v0 pre) l' l ->
  same_map v0 (pre ++ l') (pre ++ l).
Proof.
  rewrite contig_app. intros [H1 H2] (Hc & He & Hm). split_and!.
  - by apply contig_app.
  - by rewrite !runs_end_app.
  - intros v. by rewrite !map_vcn_app, Hm.
Qed.

Lemma same_map_app_l v0 l l' post : contig v0 (l ++ post) -> same_map v0 l' l ->
  same_map v0 (l' ++ post) (l ++ post).
Proof.
  rewrite contig_app. intros [H1 H2] (Hc & He & Hm). split_and!.
  - apply contig_app. by rewrite He.
  - by rewrite !runs_end_app, He.
  - intros v. by rewrite !map_vcn_app, Hm.
Qed.

(** The gap [d] with the part covered by the new runs removed. *)
Definition gap_left (d : runlist_element) (a : Z) : runlist :=
  if vcn d =? a then [] else [set_len d (a - vcn d)].
Definition gap_right (d : runlist_element) (b : Z) : runlist :=
  if rl_end d =? b then [] else [RL b (lcn d) (rl_end d - b)].

Lemma gap_split pre d post s a b :
  contig 0 (pre ++ d :: post) -> lcn d < 0 -> contig a s -> runs_end a s = b ->
  vcn d <= a -> b <= rl_end d -> a < b ->
  contig 0 (pre ++ gap_left d a ++ s ++ gap_right d b ++ post) /\
  runs_end 0 (pre ++ gap_left d a ++ s ++ gap_right d b ++ post) = runs_end 0 (pre ++ d :: post) /\
  forall v, map_vcn (pre ++ gap_left d a ++ s ++ gap_right d b ++ post) v
    = if (a <=? v) && (v <? b) then map_vcn s v else map_vcn (pre ++ d :: post) v.
Proof.
  intros Hc Hd Hs <- Ha Hb Hab. unfold rl_end in *.
  apply contig_app in Hc as [Hc1 [Hv [Hl Hc2]]]. rewrite Hv in *.
  assert (Hleft : contig (runs_end 0 pre) (gap_left d a) /\ runs_end (runs_end 0 pre) (gap_left d a) = a).
  { unfold gap_left. destruct (Z.eqb_spec (vcn d) a); cbn; lia. }
  destruct Hleft as [Hl1 Hl2].
  assert (Hright : contig (runs_end a s) (gap_right d (runs_end a s)) /\
    runs_end (runs_end a s) (gap_right d (runs_end a s)) = runs_end 0 pre + len d).
  { unfold gap_right, rl_end. destruct (Z.eqb_spec (vcn d + len d) (runs_end a s)); cbn; lia. }
  destruct Hright as [Hr1 Hr2].
  split_and!.
  - rewrite !contig_app. rewrite Hl2, Hr2. tauto.
  - rewrite !runs_end_app. cbn. by rewrite Hl2, Hr2.
  - intros v. rewrite !map_vcn_app. cbn. unfold rl_end.
    destruct (Z.leb_spec a v), (Z.ltb_spec v (runs_end a s)); cbn.
    + rewrite (map_vcn_above 0 pre) by (done || lia). rewrite (map_vcn_above _ _ _ Hl1) by lia.
      by destruct (map_vcn_inside _ _ v Hs) as (l & ->); [lia|].
    + rewrite (map_vcn_above 0 pre) by (done || lia). rewrite (map_vcn_above _ _ _ Hl1) by lia.
      rewrite (map_vcn_above _ _ _ Hs) by lia. unfold gap_right, rl_end.
      destruct (Z.eqb_spec (vcn d + len d) (runs_end a s)) as [E|E]; cbn; unfold rl_end, run_lcn; cbn.
      * destruct (Z.ltb_spec v (vcn d + len d)); [lia|]. by rewrite andb_false_r.
      * destruct (Z.leb_spec (runs_end a s) v), (Z.leb_spec (vcn d) v), (Z.leb_spec 0 (lcn d)); try lia.
        replace (runs_end a s + (vcn d + len d - runs_end a s)) with (vcn d + len d) by lia.
        by destruct (v <? _).
    + rewrite (map_vcn_below _ s v Hs) by lia. rewrite (map_vcn_below _ _ v Hr1) by lia.
      destruct (map_vcn pre v); [done|]. unfold gap_left.
      destruct (Z.eqb_spec (vcn d) a) as [E|E]; cbn; unfold rl_end, run_lcn; cbn.
      * destruct (Z.leb_spec (vcn d) v); [lia | done].
      * destruct (Z.leb_spec (vcn d) v), (Z.ltb_spec v (vcn d + len d)), (Z.leb_spec 0 (lcn d)),
          (Z.ltb_spec v (vcn d + (a - vcn d))); cbn; try done; try lia.
    + lia.
Qed.

(** ** The scans of ntfs_runlists_merge_i *)

Lemma skip_unmapped_spec u rest e i fuel before :
  Forall (fun x => len x <> 0 /\ lcn x < LCN_HOLE) u -> LCN_HOLE <= lcn e ->
  i = zlen before -> (length u < fuel)%nat ->
  skip_unmapped fuel (before ++ u ++ e :: rest) i = Some (i + zlen u).
Proof.
  revert before i fuel; induction u as [|x u IH]; intros before i fuel Hu He -> Hf;
    (destruct fuel as [|fuel]; [cbn in Hf; lia|]); cbn [skip_unmapped app]; rewrite zget_mid by done; cbn [mbind option_bind].
  - unfold LCN_HOLE in *. rewrite (proj2 (Z.ltb_ge _ _)) by lia. rewrite andb_false_r. change (@zlen runlist_element []) with 0. f_equal. lia.
  - inversion Hu as [|? ? [Hl Hn] Hu']; subst. rewrite (proj2 (Z.eqb_neq _ _)), (proj2 (Z.ltb_lt _ _)) by done. cbn [negb andb].
    rewrite (cons_snoc_app before), (IH (before ++ [x])); [f_equal; rewrite zlen_cons; lia | done | done | zlen_lia | cbn in Hf; lia].
Qed.

Lemma find_insert_spec pre d rest v i fuel before v0 :
  contig v0 pre -> runs_end v0 pre <= v < rl_end d -> i = zlen before -> (length pre < fuel)%nat ->
  find_insert fuel (before ++ pre ++ d :: rest) i v = Some (i + zlen pre).
Proof.
  revert before i fuel v0; induction pre as [|x pre IH]; intros before i fuel v0 Hc Hv -> Hf;
    (destruct fuel as [|fuel]; [cbn in Hf; lia|]); cbn [find_insert app]; rewrite zget_mid by done; cbn [mbind option_bind].
  - cbn in Hv. rewrite (proj2 (Z.ltb_lt _ (rl_end d))) by lia. rewrite orb_true_r. change (@zlen runlist_element []) with 0. f_equal. lia.
  - cbn in Hc, Hv. destruct Hc as (Hx & Hl & Hc). pose proof (runs_end_ge _ _ Hc).
    rewrite (proj2 (Z.eqb_neq _ _)) by lia. unfold rl_end at 1. rewrite (proj2 (Z.ltb_ge _ _)) by lia. cbn [orb].
    rewrite (cons_snoc_app before), (IH (before ++ [x]) _ _ (v0 + len x));
      [f_equal; rewrite zlen_cons; lia | done | done | zlen_lia | cbn in Hf; lia].
Qed.

Lemma scan_end_spec l term rest i fuel before :
  Forall (fun x => len x <> 0) l -> len term = 0 -> i = zlen before -> (length l < fuel)%nat ->
  scan_end fuel (before ++ l ++ term :: rest) i = Some (i + zlen l).
Proof.
  revert before i fuel; induction l as [|x l IH]; intros before i fuel Hl Ht -> Hf;
    (destruct fuel as [|fuel]; [cbn in Hf; lia|]); cbn [scan_end app]; rewrite zget_mid by done; cbn [mbind option_bind].
  - rewrite Ht. cbn [Z.eqb]. change (@zlen runlist_element []) with 0. f_equal. lia.
  - inversion Hl; subst. rewrite (proj2 (Z.eqb_neq _ _)) by done.
    rewrite (cons_snoc_app before), (IH (before ++ [x])); [f_equal; rewrite zlen_cons; lia | done | done | zlen_lia | cbn in Hf; lia].
Qed.

Lemma scan_final_spec l x term rest fuel :
  LCN_HOLE <= lcn x -> lcn term < LCN_HOLE -> (2 <= fuel)%nat ->
  scan_final fuel ((l ++ [x]) ++ term :: rest) (zlen (l ++ [x])) = Some (zlen l).
Proof.
  intros Hx Ht Hf. destruct fuel as [|[|fuel]]; [lia.. |]. cbn [scan_final].
  pose proof (zlen_nonneg l). assert (zlen (l ++ [x]) = zlen l + 1) as Hz by zlen_lia.
  rewrite (proj2 (Z.ltb_ge (zlen (l ++ [x])) 0)) by lia.
  rewrite (zget_mid (l ++ [x]) term rest _ eq_refl). cbn [mbind option_bind].
  rewrite (proj2 (Z.ltb_lt (lcn term) _)) by done. rewrite Hz. replace (zlen l + 1 - 1) with (zlen l) by lia.
  rewrite (proj2 (Z.ltb_ge (zlen l) 0)) by lia. rewrite <-app_assoc. cbn [app]. rewrite zget_mid by done. cbn [mbind option_bind].
  by rewrite (proj2 (Z.ltb_ge (lcn x) LCN_HOLE) Hx).
Qed.

Lemma contig_len v0 l : contig v0 l -> Forall (fun x => len x <> 0) l.
Proof.
  revert v0; induction l as [|e t IH]; intros v0; cbn; [done|].
  intros (_ & H & Hc). constructor; [lia | eauto].
Qed.

Lemma contig_pos v0 l : contig v0 l -> Forall (fun x => 0 < len x) l.
Proof.
  revert v0; induction l as [|e t IH]; intros v0; cbn; [done|].
  intros (_ & H & Hc). eauto.
Qed.

(** ** Merging into a gap *)

Section gap.
Context (pre post s u stale srest : runlist) (d term : runlist_element) (a b : Z).
Context (Hwf : wf_rl 0 (pre ++ d :: post) term) (Hterm : lcn term < LCN_HOLE) (Hgap : is_gap d = true).
Context (Hu : Forall (fun e => len e <> 0 /\ lcn e < LCN_HOLE) u).
Context (Hs : contig a s) (Hb : runs_end a s = b) (Hm : Forall (fun e => LCN_HOLE <= lcn e) s).
Context (Hab : a < b) (Ha : vcn d <= a) (Hbd : b <= rl_end d).

Definition gap_dst : runlist := (pre ++ d :: post) ++ term :: stale.
Definition gap_src : runlist := (u ++ s) ++ RL b LCN_RL_NOT_MAPPED 0 :: srest.

(** What the primitive chosen by the position of the source produces. *)
Definition gap_result : option runlist :=
  let start := vcn d =? a in
  let finish := rl_end d =? b in
  let src := s ++ RL b LCN_RL_NOT_MAPPED 0 :: srest in
  let ds := zlen pre + 1 + zlen (post ++ [term]) in
  if start then
    if finish then ntfs_rl_replace junk gap_dst ds src (zlen s) (zlen pre)
    else ntfs_rl_insert junk gap_dst ds src (zlen s) (zlen pre)
  else
    if finish then ntfs_rl_append junk gap_dst ds src (zlen s) (zlen pre)
    else ntfs_rl_split junk gap_dst ds src (zlen s) (zlen pre).

Lemma gap_lcn : lcn d < 0 /\ (lcn d <? LCN_RL_NOT_MAPPED) = false.
Proof using All.
  unfold is_gap, LCN_HOLE, LCN_RL_NOT_MAPPED in *.
  destruct (Z.eqb_spec (lcn d) (-1)); [|destruct (Z.eqb_spec (lcn d) (-2)); [|done]];
    split; lia || (apply Z.ltb_ge; lia).
Qed.

Lemma gap_next : exists n post', post ++ [term] = n :: post' /\ vcn n = rl_end d.
Proof using All.
  destruct Hwf as [Hc _ Ht]. apply contig_app in Hc as [_ (Hv & Hl & Hc)].
  rewrite runs_end_app in Ht. cbn in Ht. unfold rl_end.
  destruct post as [|n post']; cbn in *; [exists term, []; split; [done | lia] |].
  exists n, (post' ++ [term]). split; [done|]. lia.
Qed.

Lemma s_cons : exists h t, s = h :: t /\ vcn h = a.
Proof using All.
  destruct s as [|h t]; [cbn in Hb; lia|]. exists h, t. split; [done | apply Hs].
Qed.

(** The source scans ... *)
Lemma gap_src_scans : exists h x,
  skip_unmapped (S (length gap_src)) gap_src 0 = Some (zlen u) /\
  gap_src.[zlen u] = Some h /\ vcn h = a /\ 0 < len h /\
  rl_scan_end gap_src (zlen u) = Some (zlen u + zlen s) /\
  gap_src.[zlen u + zlen s] = Some (RL b LCN_RL_NOT_MAPPED 0) /\
  scan_final (S (length gap_src)) gap_src (zlen u + zlen s) = Some (zlen u + zlen s - 1) /\
  gap_src.[zlen u + zlen s - 1] = Some x /\ rl_end x = b /\
  drop (Z.to_nat (zlen u)) gap_src = s ++ RL b LCN_RL_NOT_MAPPED 0 :: srest.
Proof using All.
  destruct s_cons as (h & t & Es & Eh). set (T := RL b LCN_RL_NOT_MAPPED 0).
  destruct (exists_last (l := s)) as (l & x & El); [by rewrite Es|].
  assert (gap_src = u ++ h :: t ++ T :: srest) as E1 by (unfold gap_src; by rewrite Es, <-app_assoc).
  assert (gap_src = u ++ s ++ T :: srest) as E2 by (unfold gap_src; by rewrite <-app_assoc).
  assert (gap_src = ((u ++ l) ++ [x]) ++ T :: srest) as E3
    by (unfold gap_src; by rewrite El, <-!app_assoc).
  assert (gap_src = (u ++ l) ++ x :: T :: srest) as E4 by by rewrite E3, <-!app_assoc.
  assert (zlen u + zlen s = zlen ((u ++ l) ++ [x])) as Hz by (rewrite El; zlen_lia).
  assert (zlen u + zlen s - 1 = zlen (u ++ l)) as Hz1 by (rewrite El; zlen_lia).
  exists h, x. split_and!; try done.
  - rewrite E1. pose proof Hm as Hm'. rewrite Es in Hm'. inversion Hm'; subst.
    apply (skip_unmapped_spec u (t ++ T :: srest) h 0 _ []); try done. rewrite length_app; lia.
  - rewrite E1. by apply zget_mid.
  - pose proof Hs as Hs'. rewrite Es in Hs'. apply Hs'.
  - unfold rl_scan_end. rewrite E2. apply (scan_end_spec s T srest (zlen u) _ u); [|done|done|].
    + by apply (contig_len a).
    + rewrite !length_app. lia.
  - rewrite E3. by apply zget_mid.
  - rewrite Hz1, Hz, E3. apply scan_final_spec; [|done|].
    + pose proof Hm as Hm'. rewrite El in Hm'. apply Forall_app in Hm' as [_ Hm']. by inversion Hm'.
    + rewrite !length_app. cbn. lia.
  - rewrite E4. by apply zget_mid.
  - rewrite <-Hb. pose proof Hs as Hs'. rewrite El in Hs' |- *. eapply chain_last, contig_chain, Hs'.
  - rewrite E2. unfold zlen. by rewrite Nat2Z.id, drop_app_length.
Qed.

(** ... and those of the destination. *)
Lemma gap_dst_scans :
  find_insert (S (length gap_dst)) gap_dst 0 a = Some (zlen pre) /\ gap_dst.[zlen pre] = Some d /\
  rl_scan_end gap_dst (zlen pre) = Some (zlen pre + zlen (post ++ [term])) /\ 0 < len d.
Proof using All.
  destruct Hwf as [Hc Hlt Hvt]. pose proof (contig_len _ _ Hc) as Hnz.
  pose proof Hc as Hc0. apply contig_app in Hc0 as [Hcp (Hv & Hl & Hcq)].
  assert (gap_dst = pre ++ d :: (post ++ term :: stale)) as E1 by (unfold gap_dst; by rewrite <-app_assoc).
  assert (gap_dst = pre ++ (d :: post) ++ term :: stale) as E2 by (unfold gap_dst; by rewrite <-app_assoc).
  split_and!; [| | |done].
  - rewrite E1. apply (find_insert_spec pre d (post ++ term :: stale) a 0 _ [] 0); [done | lia | done | rewrite length_app; lia].
  - rewrite E1. by apply zget_mid.
  - unfold rl_scan_end. rewrite E2, (scan_end_spec (d :: post) term stale (zlen pre) _ pre); [|by apply Forall_app in Hnz as [_ Hnz]|done|done|].
    + f_equal. zlen_lia.
    + rewrite !length_app. lia.
Qed.

Lemma gap_select : ntfs_runlists_merge junk (Some gap_dst) (Some gap_src)
  = (drl ← gap_result; Some (Ok (Some drl))).
Proof using All.
  destruct gap_lcn as [Hn Hnm].
  destruct gap_src_scans as (h & x & S1 & S2 & Hh & Hlh & S3 & S4 & S5 & S6 & Hx & S7).
  destruct gap_dst_scans as (D1 & D2 & D3 & Hld).
  unfold ntfs_runlists_merge, ntfs_runlists_merge_i, gap_result.
  rewrite S1; cbn [mbind option_bind]. rewrite S2; cbn [mbind option_bind].
  rewrite (proj2 (Z.eqb_neq (len h) 0)), Hh by lia.
  rewrite D1; cbn [mbind option_bind]. rewrite D2; cbn [mbind option_bind].
  rewrite (proj2 (Z.leb_gt 0 (lcn d))) by done. rewrite andb_false_r. cbn [andb].
  rewrite S3; cbn [mbind option_bind]. rewrite D3; cbn [mbind option_bind]. rewrite S4; cbn [mbind option_bind].
  change (lcn (RL b LCN_RL_NOT_MAPPED 0) =? LCN_ENOENT) with false. cbv iota.
  rewrite S5; cbn [mbind option_bind]. rewrite S6; cbn [mbind option_bind]. rewrite Hx, Hnm, S7. cbn [orb Z.eqb negb andb].
  rewrite (proj2 (Z.leb_le LCN_RL_NOT_MAPPED (lcn d))) by (by apply Z.ltb_ge). cbn [andb].
  rewrite (proj2 (Z.eqb_neq (len d) 0)) by lia. rewrite andb_false_r.
  replace (rl_end d <=? b) with (rl_end d =? b)
    by (apply eq_true_iff_eq; rewrite Z.eqb_eq, Z.leb_le; lia).
  replace (zlen pre + zlen (post ++ [term]) + 1) with (zlen pre + 1 + zlen (post ++ [term])) by lia.
  replace (zlen u + zlen s - 1 - zlen u + 1) with (zlen s) by lia. cbv zeta.
  apply obind_ext. done.
Qed.
(** The runs each primitive leaves, in terms of the trimmed gap. *)
Lemma gap_result_spec : exists runs rest,
  gap_result = Some (runs ++ term :: rest) /\
  same_map 0 runs (pre ++ gap_left d a ++ s ++ gap_right d b ++ post).
Proof using All.
  destruct s_cons as (h & t & Es & Eh). destruct gap_lcn as [Hn _]. destruct gap_next as (n & post' & En & Hvn).
  destruct Hwf as [Hc Hlt Hvt].
  destruct (gap_split pre d post s a b Hc Hn Hs Hb Ha Hbd Hab) as (Hg & He & _).
  unfold gap_result, gap_dst. rewrite <-app_assoc. cbn [app].
  replace (post ++ term :: stale) with ((post ++ [term]) ++ stale) by by rewrite <-app_assoc.
  assert (s <> []) as Hne by by rewrite Es.
  assert (chain 0 ((pre ++ gap_left d a ++ s ++ gap_right d b ++ post) ++ [term])) as Hch.
  { apply chain_app. split; [by apply contig_chain|]. cbn. rewrite He. done. }
  rewrite <-!app_assoc in Hch. clear He.
  revert Hg Hch. unfold gap_left, gap_right.
  destruct (Z.eqb_spec (vcn d) a) as [Ea|Ea]; destruct (Z.eqb_spec (rl_end d) b) as [Ed|Ed];
    cbn [app]; intros Hg Hch; pose proof Hg as Hg'; apply contig_app in Hg' as [Hgp Hgs].
  - destruct (rl_replace_spec 0 pre d (post ++ [term]) stale s (RL b LCN_RL_NOT_MAPPED 0 :: srest)
      (zlen pre) (zlen pre + 1 + zlen (post ++ [term])) (zlen s)) as (rest & ->); [done..|].
    rewrite (join_term s) by done. rewrite (join_app pre) by by apply join_nonempty.
    exists (join pre (join s post)), rest. rewrite <-!app_assoc. split; [done|].
    pose proof (same_map_app 0 pre _ _ Hg (same_map_join _ s post Hgs)) as Hj.
    eapply same_map_trans; [apply same_map_join, Hj | exact Hj].
  - rewrite app_assoc in Hg. pose proof Hg as Hps. apply contig_app in Hps as [Hps Hps2].
    destruct (rl_insert_spec pre s d (post ++ [term]) stale (RL b LCN_RL_NOT_MAPPED 0 :: srest)
      (zlen pre) (zlen pre + 1 + zlen (post ++ [term])) (zlen s)) as (rest & ->); try done.
    { by apply contig_chain. } { by apply (contig_pos a). } { by destruct post. }
    assert (runs_end 0 (pre ++ s) = b) as ->.
    { rewrite <-Hb, runs_end_app. f_equal. rewrite Es in Hgs. destruct Hgs. congruence. }
    exists (join pre s ++ RL b (lcn d) (rl_end d - b) :: post), rest.
    assert (moved d (post ++ [term]) b = RL b (lcn d) (rl_end d - b)) as ->
      by (unfold moved; by rewrite Hgap, En, Hvn).
    split; [by rewrite <-!app_assoc |].
    rewrite app_assoc. apply same_map_app_l; [done|]. by apply same_map_join.
  - rewrite Es in Hch |- *. rewrite <-Eh in Hch.
    destruct (rl_append_spec 0 pre d (post ++ [term]) stale h t (RL b LCN_RL_NOT_MAPPED 0 :: srest)
      (zlen pre) (zlen pre + 1 + zlen (post ++ [term])) (zlen (h :: t))) as (rest & ->); try done.
    { rewrite <-Es, (join_term s) by done. pose proof (join_length s post). rewrite zlen_app. change (zlen [term]) with 1. lia. }
    rewrite <-Es, (join_term s), Eh by done.
    exists (pre ++ set_len d (a - vcn d) :: join s post), rest. split; [by rewrite <-!app_assoc|].
    change (set_len d (a - vcn d) :: join s post) with ([set_len d (a - vcn d)] ++ join s post).
    apply same_map_app; [done|]. apply (same_map_app _ [_]); [done|]. apply same_map_join. apply Hgs.
  - rewrite Es. rewrite En.
    destruct (rl_split_spec a pre d n post' stale h t (RL b LCN_RL_NOT_MAPPED 0 :: srest)
      (zlen pre) (zlen pre + 1 + zlen (n :: post')) (zlen (h :: t))) as (rest & ->); try done.
    { rewrite <-Es. by apply contig_chain. }
    rewrite <-Es, Hb, Eh, Hvn.
    exists (pre ++ set_len d (a - vcn d) :: s ++ RL b (lcn d) (rl_end d - b) :: post), rest.
    split; [|by apply same_map_refl]. rewrite <-!app_assoc. cbn. rewrite <-app_assoc. cbn.
    by rewrite (app_comm_cons post' rest n), <-En, <-app_assoc.
Qed.

End gap.

End merge.

(** C4: merging the runs [s] of an attribute extent, which cover [a, b), into
    a runlist that has the hole or unmapped run [d] there succeeds, never
    leaves the arrays, keeps the runlist well formed and maps exactly the vcns
    of [a, b) to the new runs, whichever of replace, insert, append and split
    the position of the extent selects and whichever neighbours merge. *)
Theorem runlists_merge_correct junk pre d post term stale u s b srest a :
  wf_rl 0 (pre ++ d :: post) term -> lcn term < LCN_HOLE -> is_gap d = true ->
  Forall (fun e => len e <> 0 /\ lcn e < LCN_HOLE) u ->
  contig a s -> runs_end a s = b -> Forall (fun e => LCN_HOLE <= lcn e) s ->
  a < b -> vcn d <= a -> b <= rl_end d ->
  exists runs rest,
    ntfs_runlists_merge junk (Some ((pre ++ d :: post) ++ term :: stale))
        (Some ((u ++ s) ++ RL b LCN_RL_NOT_MAPPED 0 :: srest))
      = Some (Ok (Some (runs ++ term :: rest))) /\
    wf_rl 0 runs term /\
    forall v, map_vcn runs v
      = if (a <=? v) && (v <? b) then map_vcn s v else map_vcn (pre ++ d :: post) v.
Proof.
  intros Hwf Ht Hg Hu Hs Hb Hm Hab Ha Hbd.
  destruct (gap_result_spec junk pre post s u stale srest d term a b) as (runs & rest & E & Hc & He & Hmap); try done.
  exists runs, rest. pose proof (gap_select junk pre post s u stale srest d term a b) as Hsel.
  unfold gap_dst, gap_src in Hsel. rewrite Hsel, E by done.
  assert (lcn d < 0) as Hn by (clear -Hg; unfold is_gap, LCN_HOLE, LCN_RL_NOT_MAPPED in Hg; bool_lia). destruct Hwf as [Hc0 Hlt Hvt].
  destruct (gap_split pre d post s a b Hc0 Hn Hs Hb Ha Hbd Hab) as (_ & He2 & Hm2).
  split_and!; [done | split; [done | done | by rewrite He, He2] | intros v; by rewrite Hmap, Hm2].
Qed.

(** Merging the extent [140, 160) into a two-part base runlist: a split. *)
Lemma runlists_merge_correct_witness :
  exists runs rest,
    ntfs_runlists_merge (RL 7 7 7)
        (Some ([RL 0 1000 100; RL 100 LCN_RL_NOT_MAPPED 100; RL 200 5000 10] ++ [RL 210 LCN_ENOENT 0]))
        (Some ([RL 0 LCN_RL_NOT_MAPPED 140; RL 140 3000 20] ++ [RL 160 LCN_RL_NOT_MAPPED 0]))
      = Some (Ok (Some (runs ++ RL 210 LCN_ENOENT 0 :: rest))) /\
    wf_rl 0 runs (RL 210 LCN_ENOENT 0) /\
    forall v, map_vcn runs v = if (140 <=? v) && (v <? 160) then map_vcn [RL 140 3000 20] v
      else map_vcn [RL 0 1000 100; RL 100 LCN_RL_NOT_MAPPED 100; RL 200 5000 10] v.
Proof.
  apply (runlists_merge_correct (RL 7 7 7) [RL 0 1000 100] (RL 100 LCN_RL_NOT_MAPPED 100) [RL 200 5000 10]
    (RL 210 LCN_ENOENT 0) [] [RL 0 LCN_RL_NOT_MAPPED 140] [RL 140 3000 20] 160 [] 140);
    try (cbn; lia); try reflexivity.
  - split; cbn; lia.
  - repeat constructor; discriminate.
  - repeat constructor; discriminate.
  - unfold rl_end; cbn; lia.
Defined.
