(* ===== verification/MappingPairs.v ===== *)
(** Mapping pairs: the on-disk encoding of a runlist
    (libntfs-3g/runlist.c, [ntfs_get_nr_significant_bytes] to
    [ntfs_mapping_pairs_build], and [ntfs_mapping_pairs_decompress]).

    Buffers are byte lists and pointers are indexes into them, so that a model
    that returns [None] has touched a byte outside its buffer.  A runlist
    pointer is the suffix of the runlist it points at. *)

From S2P Require Import Prelude Runlist.
Local Open Scope Z_scope.
Local Open Scope c_scope.

(** ** Significant bytes *)

(** [do { i++; l >>= 8; } while (l);] *)
Fixpoint nr_bytes_loop (fuel : nat) (l i : Z) : Z :=
  match fuel with
  | O => i
  | S f =>
      let i := i + 1 in
      let l := Z.shiftr l 8 in
      if l =? 0 then i else nr_bytes_loop f l i
  end.

Definition ntfs_get_nr_significant_bytes (n : Z) : Z :=
  let l := u64 (if n <? 0 then Z.lnot n else n) in
  if 128 <=? l then nr_bytes_loop 8 (Z.shiftr l 7) 1 else 1.

(** The write pointer and the count advance together; the second component
    is the count, or [None] for the ENOSPC return. *)
Fixpoint write_bytes_loop (fuel : nat) (m : list Z) (dst dst_max l i : Z)
    : option (list Z * option Z) :=
  match fuel with
  | O => None
  | S f =>
      if (0x7f <? l) || (l <? -0x80) then
        if dst_max <? dst then Some (m, None)
        else
          let l := Z.shiftr l 8 in
          m ← zset m dst (u8 l);
          write_bytes_loop f m (dst + 1) dst_max l (i + 1)
      else Some (m, Some i)
  end.

Definition ntfs_write_significant_bytes (m : list Z) (dst dst_max n : Z)
    : option (list Z * option Z) :=
  if dst_max <? dst then Some (m, None)
  else
    m ← zset m dst (u8 n);
    write_bytes_loop 9 m (dst + 1) dst_max n 1.

(** ** Walking the runlist *)

(** [while (rl->length && start_vcn >= rl[1].vcn) rl++;] *)
Fixpoint mp_skip (rl : runlist) (start_vcn : Z) : option runlist :=
  match rl with
  | [] => None
  | e :: t =>
      if len e =? 0 then Some rl
      else n ← t.[0]; if vcn n <=? start_vcn then mp_skip t start_vcn else Some rl
  end.

(** The check after the skip: start_vcn lies in the run pointed at. *)
Definition mp_start_bad (e : runlist_element) (start_vcn : Z) : bool :=
  ((len e =? 0) && (vcn e <? start_vcn)) || (start_vcn <? vcn e).

Definition mp_run_bad (e : runlist_element) : bool := (len e <? 0) || (lcn e <? LCN_HOLE).
Definition mp_run_errno (e : runlist_element) : errno :=
  if lcn e =? LCN_RL_NOT_MAPPED then EINVAL else EIO.

Section volume.
(** The volume fields that the code reads. *)
Context (cluster_size cluster_size_bits major_ver : Z).

(** ** Size of the encoding *)

Fixpoint mp_size_loop (rl : runlist) (rls prev_lcn max_size : Z) : option (result Z) :=
  match rl with
  | [] => None
  | e :: t =>
      if negb (len e =? 0) && (rls <=? max_size) then
        if mp_run_bad e then Some (Err (mp_run_errno e))
        else
          let rls := s32 (rls + (1 + ntfs_get_nr_significant_bytes (len e))) in
          if (0 <=? lcn e) || (major_ver <? 3)
          then mp_size_loop t (s32 (rls + ntfs_get_nr_significant_bytes (s64 (lcn e - prev_lcn))))
                 (lcn e) max_size
          else mp_size_loop t rls prev_lcn max_size
      else Some (Ok rls)
  end.

Definition ntfs_get_size_for_mapping_pairs (orl : option runlist) (start_vcn max_size : Z)
    : option (result Z) :=
  if start_vcn <? 0 then Some (Err EINVAL)
  else
    match orl with
    | None => if negb (start_vcn =? 0) then Some (Err EINVAL) else Some (Ok 1)
    | Some rl =>
        rl ← mp_skip rl start_vcn;
        e ← rl.[0];
        if mp_start_bad e start_vcn then Some (Err EINVAL)
        else if vcn e <? start_vcn then
          if mp_run_bad e then Some (Err (mp_run_errno e))
          else
            let delta := s64 (start_vcn - vcn e) in
            let rls := 1 + (1 + ntfs_get_nr_significant_bytes (s64 (len e - delta))) in
            if (0 <=? lcn e) || (major_ver <? 3) then
              let prev_lcn := if 0 <=? lcn e then s64 (lcn e + delta) else lcn e in
              mp_size_loop (drop 1 rl) (rls + ntfs_get_nr_significant_bytes prev_lcn) prev_lcn max_size
            else mp_size_loop (drop 1 rl) rls 0 max_size
        else mp_size_loop rl 1 0 max_size
    end.

(** ** Building *)

(** One mapping pair at [dst]: the length, the lcn change if it is stored,
    then the header byte.  The second component is [dst_next], or [None] when
    the code goes to [size_err]. *)
Definition mp_put (m : list Z) (dst dst_max length : Z) (change : option Z)
    : option (list Z * option Z) :=
  r ← ntfs_write_significant_bytes m (dst + 1) dst_max length;
  match r with
  | (m, None) => Some (m, None)
  | (m, Some len_len) =>
      r ← (match change with
           | Some c => ntfs_write_significant_bytes m (dst + 1 + len_len) dst_max c
           | None => Some (m, Some 0)
           end);
      match r with
      | (m, None) => Some (m, None)
      | (m, Some lcn_len) =>
          let dst_next := dst + len_len + lcn_len + 1 in
          if dst_max <? dst_next then Some (m, None)
          else
            m ← zset m dst (u8 (Z.lor (Z.shiftl lcn_len 4) len_len));
            Some (m, Some dst_next)
      end
  end.

(** The buffer, the return value and what *stop_rl was set to, if it was. *)
Definition mp_out : Type := list Z * result unit * option runlist.

Fixpoint mp_build_loop (m : list Z) (dst dst_max : Z) (rl : runlist) (prev_lcn : Z) : option mp_out :=
  match rl with
  | [] => None
  | e :: t =>
      if negb (len e =? 0) then
        if mp_run_bad e then Some (m, Err (mp_run_errno e), None)
        else
          let stored := (0 <=? lcn e) || (major_ver <? 3) in
          r ← mp_put m dst dst_max (len e) (if stored then Some (s64 (lcn e - prev_lcn)) else None);
          match r with
          | (m, None) => m ← zset m dst 0; Some (m, Err ENOSPC, Some rl)
          | (m, Some dst) => mp_build_loop m dst dst_max t (if stored then lcn e else prev_lcn)
          end
      else m ← zset m dst 0; Some (m, Ok tt, Some rl)
  end.

(** A NULL runlist (written [None]) leaves *stop_rl NULL (written [[]]). *)
Definition ntfs_mapping_pairs_build (m : list Z) (dst dst_len : Z) (orl : option runlist)
    (start_vcn : Z) : option mp_out :=
  if start_vcn <? 0 then Some (m, Err EINVAL, None)
  else
    match orl with
    | None =>
        if negb (start_vcn =? 0) then Some (m, Err EINVAL, None)
        else if dst_len <? 1 then Some (m, Err ENOSPC, Some [])
        else m ← zset m dst 0; Some (m, Ok tt, Some [])
    | Some rl =>
        rl ← mp_skip rl start_vcn;
        e ← rl.[0];
        if mp_start_bad e start_vcn then Some (m, Err EINVAL, None)
        else
          let dst_max := dst + dst_len - 1 in
          if vcn e <? start_vcn then
            if mp_run_bad e then Some (m, Err (mp_run_errno e), None)
            else
              let delta := s64 (start_vcn - vcn e) in
              let stored := (0 <=? lcn e) || (major_ver <? 3) in
              let prev_lcn := if stored then (if 0 <=? lcn e then s64 (lcn e + delta) else lcn e) else 0 in
              r ← mp_put m dst dst_max (s64 (len e - delta)) (if stored then Some prev_lcn else None);
              match r with
              | (m, None) => m ← zset m dst 0; Some (m, Err ENOSPC, Some rl)
              | (m, Some dst) => mp_build_loop m dst dst_max (drop 1 rl) prev_lcn
              end
          else mp_build_loop m dst dst_max rl 0
    end.

(** ** Decompression

    The attribute record is the byte list [m] at offset 0 and whatever lies
    after it.  Offsets are those of ATTR_RECORD in layout.h. *)

Definition attr_length (m : list Z) : option Z := le32_to_cpup m 4.
Definition attr_non_resident (m : list Z) : option Z := m.[8].
Definition attr_lowest_vcn (m : list Z) : option Z := sle64_to_cpup m 16.
Definition attr_highest_vcn (m : list Z) : option Z := sle64_to_cpup m 24.
Definition attr_mapping_pairs_offset (m : list Z) : option Z := le16_to_cpup m 32.
Definition attr_allocated_size (m : list Z) : option Z := sle64_to_cpup m 40.

(** [for (deltaxcn = (s8)buf[b--]; b > lo; b--) deltaxcn = (deltaxcn << 8) + buf[b];] *)
Fixpoint mp_delta_loop (n : nat) (m : list Z) (buf b deltaxcn : Z) : option Z :=
  match n with
  | O => Some deltaxcn
  | S n => x ← m.[buf + b]; mp_delta_loop n m buf (b - 1) (s64 (Z.shiftl deltaxcn 8 + x))
  end.

Definition mp_delta (m : list Z) (buf b lo : Z) : option Z :=
  x ← m.[buf + b];
  mp_delta_loop (Z.to_nat (b - 1 - lo)) m buf (b - 1) (s8 x).

(** The output array: its elements so far, [rlpos] (a u16) and the size in
    bytes of its allocation, [rlsize]. *)
Definition rl_element_size : Z := 24.

Definition mp_store (rl : runlist) (rlpos rlsize : Z) (e : runlist_element) : option runlist :=
  if rlsize <? (rlpos + 1) * rl_element_size then None
  else if rlpos =? zlen rl then Some (rl ++ [e]) else zset rl rlpos e.

Fixpoint mp_decompress_loop (fuel : nat) (m : list Z) (attr_end buf : Z)
    (rl : runlist) (rlpos rlsize vcn lcn : Z)
    : option (result (runlist * Z * Z * Z)) :=
  match fuel with
  | O => None
  | S f =>
      if buf <? attr_end then
        h ← m.[buf];
        if h =? 0 then Some (Ok (rl, rlpos, rlsize, vcn))
        else
          let rlsize := if rlsize <? (rlpos + 3) * rl_element_size then rlsize + 0x1000 else rlsize in
          let b := Z.land h 0xf in
          if negb (b =? 0) && (attr_end <? buf + b) then Some (Err EIO)
          else
            length ← (if negb (b =? 0) then mp_delta m buf b 0 else Some (-1));
            if length <? 0 then Some (Err EIO)
            else
              let run_vcn := vcn in
              let vcn := s64 (vcn + length) in
              if Z.land h 0xf0 =? 0 then
                rl ← mp_store rl rlpos rlsize (RL run_vcn LCN_HOLE length);
                mp_decompress_loop f m attr_end
                  (buf + (Z.land h 0xf + Z.land (Z.shiftr h 4) 0xf + 1))
                  rl (u16 (rlpos + 1)) rlsize vcn lcn
              else
                let b2 := Z.land h 0xf in
                let b := b2 + Z.land (Z.shiftr h 4) 0xf in
                if attr_end <? buf + b then Some (Err EIO)
                else
                  deltaxcn ← mp_delta m buf b b2;
                  let lcn := s64 (lcn + deltaxcn) in
                  if lcn <? -1 then Some (Err EIO)
                  else
                    rl ← mp_store rl rlpos rlsize (RL run_vcn lcn length);
                    mp_decompress_loop f m attr_end
                      (buf + (Z.land h 0xf + Z.land (Z.shiftr h 4) 0xf + 1))
                      rl (u16 (rlpos + 1)) rlsize vcn lcn
      else Some (Err EIO)
  end.

(** The end of the walk: highest_vcn check, the unmapped tail of a base
    extent and the terminator. *)
Definition mp_finish (m : list Z) (rl : runlist) (rlpos rlsize vcn lowest_vcn : Z)
    : option (result runlist) :=
  deltaxcn ← attr_highest_vcn m;
  if negb (deltaxcn =? 0) && negb (s64 (vcn - 1) =? deltaxcn) then Some (Err EIO)
  else if lowest_vcn =? 0 then
    allocated_size ← attr_allocated_size m;
    let num_clusters := Z.shiftr (s64 (allocated_size + cluster_size - 1)) cluster_size_bits in
    if vcn <? num_clusters then
      rl ← mp_store rl rlpos rlsize (RL vcn LCN_RL_NOT_MAPPED (s64 (num_clusters - vcn)));
      rl ← mp_store rl (u16 (rlpos + 1)) rlsize (RL (s64 (vcn + (num_clusters - vcn))) LCN_ENOENT 0);
      Some (Ok rl)
    else if num_clusters <? vcn then Some (Err EIO)
    else rl ← mp_store rl rlpos rlsize (RL vcn LCN_ENOENT 0); Some (Ok rl)
  else rl ← mp_store rl rlpos rlsize (RL vcn LCN_RL_NOT_MAPPED 0); Some (Ok rl).

Definition ntfs_mapping_pairs_decompress_i (junk : runlist_element) (m : list Z)
    (old_rl : option runlist) : option (result (option runlist)) :=
  non_resident ← attr_non_resident m;
  lowest_vcn ← attr_lowest_vcn m;
  if (non_resident =? 0) || (lowest_vcn <? 0) then Some (Err EINVAL)
  else
    buf ← attr_mapping_pairs_offset m;
    attr_end ← attr_length m;
    if (buf <? 0) || (attr_end <? buf) then Some (Err EIO)
    else
      let rlsize := 0x1000 in
      rl ← (if negb (lowest_vcn =? 0)
            then mp_store [] 0 rlsize (RL 0 LCN_RL_NOT_MAPPED lowest_vcn) else Some []);
      let rlpos := if negb (lowest_vcn =? 0) then 1 else 0 in
      r ← mp_decompress_loop (S (length m)) m attr_end buf rl rlpos rlsize lowest_vcn 0;
      match r with
      | Err e => Some (Err e)
      | Ok (rl, rlpos, rlsize, vcn) =>
          r ← mp_finish m rl rlpos rlsize vcn lowest_vcn;
          match r with
          | Err e => Some (Err e)
          | Ok rl =>
              match old_rl with
              | None => Some (Ok (Some rl))
              | Some _ => ntfs_runlists_merge junk old_rl (Some rl)
              end
          end
      end.

Definition ntfs_mapping_pairs_decompress := ntfs_mapping_pairs_decompress_i.

End volume.

(** ** Significant bytes: what the two routines compute *)

Lemma nr_bytes_loop_spec fuel l i :
  0 <= l < 2 ^ (8 * Z.of_nat fuel) -> (0 < fuel)%nat ->
  exists j, nr_bytes_loop fuel l i = i + j /\ 1 <= j <= Z.of_nat fuel /\ l < 2 ^ (8 * j) /\
    (j = 1 \/ 2 ^ (8 * (j - 1)) <= l).
Proof.
  revert l i; induction fuel as [|f IH]; intros l i Hl Hf; [lia|]. cbn [nr_bytes_loop].
  rewrite Z.shiftr_div_pow2 by lia. change (2 ^ 8) with 256.
  destruct (Z.eqb_spec (l / 256) 0) as [Hz|Hz].
  - exists 1. split_and!; try lia. change (2 ^ (8 * 1)) with 256. pose proof (Z.div_mod l 256). pose proof (Z.mod_pos_bound l 256). lia.
  - assert (256 <= l) as Hl2.
    { destruct (Z.le_gt_cases 256 l); [done|]. rewrite Z.div_small in Hz by lia. done. }
    assert (2 ^ (8 * Z.of_nat (S f)) = 256 * 2 ^ (8 * Z.of_nat f)) as Hp.
    { replace (8 * Z.of_nat (S f)) with (8 + 8 * Z.of_nat f) by lia. rewrite Z.pow_add_r by lia. done. }
    destruct (decide (f = 0%nat)) as [->|Hf0]; [cbn in Hl; lia|].
    destruct (IH (l / 256) (i + 1)) as (j & E & Hj & Hu & Hd); [|lia|].
    { split; [apply Z.div_pos; lia|]. apply Z.div_lt_upper_bound; lia. }
    exists (j + 1). rewrite E. split_and!; try lia.
    + replace (8 * (j + 1)) with (8 + 8 * j) by lia. rewrite Z.pow_add_r by lia. change (2 ^ 8) with 256.
      pose proof (Z.div_mod l 256). pose proof (Z.mod_pos_bound l 256). nia.
    + right. replace (j + 1 - 1) with j by lia. destruct Hd as [->|Hd]; [change (2 ^ (8 * 1)) with 256; lia|].
      replace (8 * j) with (8 + 8 * (j - 1)) by lia. rewrite Z.pow_add_r by lia. change (2 ^ 8) with 256.
      pose proof (Z.div_mod l 256). pose proof (Z.mod_pos_bound l 256). nia.
Qed.

(** [n] is representable in [k] signed bytes. *)
Definition fits_bytes (k n : Z) : Prop := - 2 ^ (8 * k - 1) <= n < 2 ^ (8 * k - 1).

Lemma fits_bytes_mono k k' n : 1 <= k <= k' -> fits_bytes k n -> fits_bytes k' n.
Proof.
  unfold fits_bytes. intros Hk Hn.
  assert (2 ^ (8 * k - 1) <= 2 ^ (8 * k' - 1)) by (apply Z.pow_le_mono_r; lia). lia.
Qed.

Lemma fits_bytes_1 n : fits_bytes 1 n <-> -128 <= n < 128.
Proof. done. Qed.

Lemma fits_bytes_shift k n : 1 <= k -> fits_bytes k (Z.shiftr n 8) <-> fits_bytes (k + 1) n.
Proof.
  intros Hk. unfold fits_bytes. rewrite Z.shiftr_div_pow2 by lia. change (2 ^ 8) with 256.
  replace (8 * (k + 1) - 1) with (8 + (8 * k - 1)) by lia. rewrite Z.pow_add_r by lia. change (2 ^ 8) with 256.
  pose proof (Z.div_mod n 256). pose proof (Z.mod_pos_bound n 256). split; intros; nia.
Qed.

(** The significant bytes are the fewest in which [n] is representable. *)
Lemma nr_significant_spec n : in_s64 n ->
  let k := ntfs_get_nr_significant_bytes n in
  1 <= k <= 8 /\ fits_bytes k n /\ (k = 1 \/ ~ fits_bytes (k - 1) n).
Proof.
  intros Hn. unfold ntfs_get_nr_significant_bytes, in_s64 in *.
  set (l := if n <? 0 then Z.lnot n else n).
  assert (0 <= l < 2 ^ 63 /\ forall k, 1 <= k -> fits_bytes k n <-> l < 2 ^ (8 * k - 1)) as [Hl Hfit].
  { unfold l, fits_bytes, Z.lnot in *. split; [destruct (Z.ltb_spec n 0); lia|]. intros k Hk.
    assert (0 < 2 ^ (8 * k - 1)) by (apply Z.pow_pos_nonneg; lia). destruct (Z.ltb_spec n 0); lia. }
  clearbody l. unfold u64. rewrite wrap_u_small by lia. cbv zeta.
  destruct (Z.leb_spec 128 l).
  - rewrite Z.shiftr_div_pow2 by lia. change (2 ^ 7) with 128.
    destruct (nr_bytes_loop_spec 8 (l / 128) 1) as (j & -> & Hj & Hu & Hd); [|lia|].
    { split; [apply Z.div_pos; lia|]. apply Z.div_lt_upper_bound; lia. }
    assert (forall e, 0 <= e -> 2 ^ (e + 7) = 128 * 2 ^ e) as Hp
      by (intros; rewrite Z.pow_add_r by lia; change (2 ^ 7) with 128; lia).
    pose proof (Z.div_mod l 128). pose proof (Z.mod_pos_bound l 128).
    assert (j <= 7) as Hj7.
    { destruct Hd as [->|Hd]; [lia|]. destruct (Z.le_gt_cases j 7); [done|]. replace j with 8 in Hd by lia.
      assert (l / 128 < 2 ^ 56) by (apply Z.div_lt_upper_bound; lia).
      change (8 * (8 - 1)) with 56 in Hd. lia. }
    split_and!; try lia.
    + rewrite Hfit by lia. replace (8 * (1 + j) - 1) with (8 * j + 7) by lia. rewrite Hp by lia. nia.
    + right. rewrite Hfit by lia. destruct Hd as [->|Hd]; [cbn; lia|].
      replace (8 * (1 + j - 1) - 1) with (8 * (j - 1) + 7) by lia. rewrite Hp by lia. nia.
  - split_and!; try lia. rewrite Hfit by lia. cbn. lia.
Qed.

Lemma nr_significant_unique n k : in_s64 n -> 1 <= k -> fits_bytes k n ->
  (k = 1 \/ ~ fits_bytes (k - 1) n) -> ntfs_get_nr_significant_bytes n = k.
Proof.
  intros Hn Hk Hf Hm. destruct (nr_significant_spec n Hn) as (Hr & Hf2 & Hm2).
  set (k2 := ntfs_get_nr_significant_bytes n) in *.
  destruct (Z.lt_trichotomy k k2) as [Hlt|[->|Hlt]]; [|done|].
  - destruct Hm2 as [|Hm2]; [lia|]. exfalso. apply Hm2. apply (fits_bytes_mono k); [lia | done].
  - destruct Hm as [|Hm]; [lia|]. exfalso. apply Hm. apply (fits_bytes_mono k2); [lia | done].
Qed.

Lemma in_s64_shiftr l : in_s64 l -> in_s64 (Z.shiftr l 8).
Proof.
  unfold in_s64. rewrite Z.shiftr_div_pow2 by lia. change (2 ^ 8) with 256. intros.
  pose proof (Z.div_mod l 256). pose proof (Z.mod_pos_bound l 256). lia.
Qed.

Lemma nr_significant_step l : in_s64 l ->
  ntfs_get_nr_significant_bytes l =
    if (0x7f <? l) || (l <? -0x80) then 1 + ntfs_get_nr_significant_bytes (Z.shiftr l 8) else 1.
Proof.
  intros Hl. pose proof (in_s64_shiftr l Hl) as Hs.
  destruct (nr_significant_spec _ Hs) as (Hr & Hf & Hm). set (k := ntfs_get_nr_significant_bytes (Z.shiftr l 8)) in *.
  destruct (Z.ltb_spec 0x7f l), (Z.ltb_spec l (-0x80)); cbn [orb]; try lia.
  3: { apply nr_significant_unique; [done | lia | rewrite fits_bytes_1; lia | by left]. }
  all: apply nr_significant_unique; [done | lia | rewrite Z.add_comm; exact (proj1 (fits_bytes_shift k l ltac:(lia)) Hf) |];
    right; replace (1 + k - 1) with k by lia; destruct Hm as [->|Hm]; [rewrite fits_bytes_1; lia|];
    destruct (decide (k = 1)) as [->|]; [rewrite fits_bytes_1; lia|];
    intros Hk; apply Hm; apply (proj2 (fits_bytes_shift (k - 1) l ltac:(lia))); by replace (k - 1 + 1) with k by lia.
Qed.

Definition sig_bytes (n : Z) : list Z := le_encode (Z.to_nat (ntfs_get_nr_significant_bytes n)) n.

Lemma zlen_sig_bytes n : in_s64 n -> zlen (sig_bytes n) = ntfs_get_nr_significant_bytes n.
Proof. intros Hn. destruct (nr_significant_spec n Hn). unfold sig_bytes. rewrite zlen_le_encode. lia. Qed.

Lemma sig_bytes_step l : in_s64 l ->
  sig_bytes l = u8 l :: if (0x7f <? l) || (l <? -0x80) then sig_bytes (Z.shiftr l 8) else [].
Proof.
  intros Hl. unfold sig_bytes at 1. rewrite (nr_significant_step l Hl).
  destruct ((0x7f <? l) || (l <? -0x80)); [|done].
  pose proof (nr_significant_spec _ (in_s64_shiftr l Hl)) as (Hr & _).
  rewrite Z2Nat.inj_add by lia. change (Z.to_nat 1 + ?x)%nat with (S x). cbn [le_encode].
  rewrite Z.shiftr_div_pow2 by lia. done.
Qed.

Lemma sig_bytes_nonempty n : in_s64 n -> 1 <= zlen (sig_bytes n) <= 8.
Proof. intros Hn. rewrite zlen_sig_bytes by done. apply (nr_significant_spec n Hn). Qed.

(** Writing the significant bytes stores exactly [sig_bytes n] when they fit
    below [dst_max], and otherwise stops without leaving the buffer. *)
Lemma write_bytes_loop_spec fuel m dst dst_max l i :
  in_s64 l -> ntfs_get_nr_significant_bytes l <= Z.of_nat fuel -> 0 <= dst <= dst_max + 1 -> dst_max < zlen m ->
  let xs := if (0x7f <? l) || (l <? -0x80) then sig_bytes (Z.shiftr l 8) else [] in
  if dst + zlen xs <=? dst_max + 1
  then exists m', write_bytes_loop fuel m dst dst_max l i = Some (m', Some (i + zlen xs)) /\
         zwrite m dst xs = Some m'
  else exists m', write_bytes_loop fuel m dst dst_max l i = Some (m', None) /\
         frame m m' dst (dst_max + 1).
Proof.
  revert m dst l i; induction fuel as [|f IH]; intros m dst l i Hl Hf Hd Hm.
  { destruct (nr_significant_spec l Hl); lia. }
  cbn [write_bytes_loop]. rewrite (nr_significant_step l Hl) in Hf.
  destruct ((0x7f <? l) || (l <? -0x80)) eqn:Eg; cbv zeta.
  2: { rewrite (@zlen_nil Z), (proj2 (Z.leb_le _ _)) by lia. exists m. split; [do 3 f_equal; lia|].
       apply zwrite_nil. lia. }
  pose proof (in_s64_shiftr l Hl) as Hs. pose proof (sig_bytes_nonempty _ Hs).
  destruct (Z.ltb_spec dst_max dst).
  { destruct (Z.leb_spec (dst + zlen (sig_bytes (Z.shiftr l 8))) (dst_max + 1)); [lia|].
    exists m. split; [done | apply frame_refl]. }
  destruct (zset m dst (u8 (Z.shiftr l 8))) as [m1|] eqn:E1; [|rewrite zset_inside in E1 by lia; done].
  cbn [mbind option_bind]. pose proof (zset_frame _ _ _ _ E1) as [Hl1 _].
  specialize (IH m1 (dst + 1) (Z.shiftr l 8) (i + 1) Hs ltac:(lia) ltac:(lia) ltac:(lia)).
  rewrite (sig_bytes_step _ Hs), zlen_cons. cbv zeta in IH.
  set (xs := if (0x7f <? Z.shiftr l 8) || _ then _ else _) in *.
  replace (dst + (zlen xs + 1)) with (dst + 1 + zlen xs) by lia.
  destruct (dst + 1 + zlen xs <=? dst_max + 1); destruct IH as (m' & E & H'); rewrite E; exists m'.
  - split; [do 3 f_equal; lia|]. by apply (zwrite_cons _ _ _ _ m1).
  - split; [done|]. eapply frame_trans; [by eapply zset_frame | exact H' | lia..].
Qed.

Lemma write_significant_spec m dst dst_max n :
  in_s64 n -> 0 <= dst -> dst_max < zlen m ->
  if dst + zlen (sig_bytes n) <=? dst_max + 1
  then exists m', ntfs_write_significant_bytes m dst dst_max n = Some (m', Some (zlen (sig_bytes n))) /\
         zwrite m dst (sig_bytes n) = Some m'
  else exists m', ntfs_write_significant_bytes m dst dst_max n = Some (m', None) /\
         frame m m' dst (dst_max + 1).
Proof.
  intros Hn Hd Hm. unfold ntfs_write_significant_bytes.
  destruct (nr_significant_spec n Hn) as (Hr & _). pose proof (sig_bytes_nonempty n Hn).
  destruct (Z.ltb_spec dst_max dst).
  { destruct (Z.leb_spec (dst + zlen (sig_bytes n)) (dst_max + 1)); [lia|]. exists m. by split. }
  destruct (zset m dst (u8 n)) as [m1|] eqn:E1; [|rewrite zset_inside in E1 by lia; done].
  cbn [mbind option_bind]. pose proof (zset_frame _ _ _ _ E1) as [Hl1 _].
  pose proof (write_bytes_loop_spec 9 m1 (dst + 1) dst_max n 1 Hn ltac:(lia) ltac:(lia) ltac:(lia)) as IH.
  rewrite (sig_bytes_step _ Hn), zlen_cons. cbv zeta in IH.
  set (xs := if (0x7f <? n) || _ then _ else _) in *.
  replace (dst + (zlen xs + 1)) with (dst + 1 + zlen xs) by lia.
  destruct (dst + 1 + zlen xs <=? dst_max + 1); destruct IH as (m' & E & H'); rewrite E; exists m'.
  - split; [do 3 f_equal; lia|]. by apply (zwrite_cons _ _ _ _ m1).
  - split; [done|]. eapply frame_trans; [by eapply zset_frame | exact H' | lia..].
Qed.

(** ** The encoding as a byte string *)

Definition sig_change (change : option Z) : list Z :=
  match change with Some c => sig_bytes c | None => [] end.

Definition enc_pair (length : Z) (change : option Z) : list Z :=
  Z.lor (Z.shiftl (zlen (sig_change change)) 4) (zlen (sig_bytes length))
    :: sig_bytes length ++ sig_change change.

Definition change_ok (change : option Z) : Prop := match change with Some c => in_s64 c | None => True end.

Lemma sig_change_len c : change_ok c -> 0 <= zlen (sig_change c) <= 8.
Proof.
  destruct c as [c|]; cbn; intros Hc.
  - pose proof (sig_bytes_nonempty c Hc). lia.
  - rewrite (@zlen_nil Z). lia.
Qed.

Lemma header_value a b : 0 <= a <= 8 -> 0 <= b <= 8 -> u8 (Z.lor (Z.shiftl a 4) b) = 16 * a + b.
Proof.
  intros Ha Hb. assert (a = 0 \/ a = 1 \/ a = 2 \/ a = 3 \/ a = 4 \/ a = 5 \/ a = 6 \/ a = 7 \/ a = 8) as Hc by lia.
  assert (b = 0 \/ b = 1 \/ b = 2 \/ b = 3 \/ b = 4 \/ b = 5 \/ b = 6 \/ b = 7 \/ b = 8) as Hd by lia.
  repeat destruct Hc as [->|Hc]; try subst a; repeat destruct Hd as [->|Hd]; try subst b; done.
Qed.

Lemma header_lor a b : 0 <= a <= 8 -> 0 <= b <= 8 -> Z.lor (Z.shiftl a 4) b = 16 * a + b.
Proof.
  intros Ha Hb. assert (a = 0 \/ a = 1 \/ a = 2 \/ a = 3 \/ a = 4 \/ a = 5 \/ a = 6 \/ a = 7 \/ a = 8) as Hc by lia.
  assert (b = 0 \/ b = 1 \/ b = 2 \/ b = 3 \/ b = 4 \/ b = 5 \/ b = 6 \/ b = 7 \/ b = 8) as Hd by lia.
  repeat destruct Hc as [->|Hc]; try subst a; repeat destruct Hd as [->|Hd]; try subst b; done.
Qed.

Lemma zlen_enc_pair length change : zlen (enc_pair length change) = 1 + zlen (sig_bytes length) + zlen (sig_change change).
Proof. unfold enc_pair. rewrite zlen_cons, zlen_app. lia. Qed.

Lemma change_write m dst dst_max change :
  change_ok change -> 0 <= dst <= dst_max + 1 -> dst_max < zlen m ->
  if dst + zlen (sig_change change) <=? dst_max + 1
  then exists m', match change with Some c => ntfs_write_significant_bytes m dst dst_max c
                  | None => Some (m, Some 0) end = Some (m', Some (zlen (sig_change change))) /\
         zwrite m dst (sig_change change) = Some m'
  else exists m', match change with Some c => ntfs_write_significant_bytes m dst dst_max c
                  | None => Some (m, Some 0) end = Some (m', None) /\ frame m m' dst (dst_max + 1).
Proof.
  destruct change as [c|]; cbn [change_ok sig_change]; intros Hc Hd Hm.
  - apply write_significant_spec; [done | lia | done].
  - rewrite (@zlen_nil Z), (proj2 (Z.leb_le _ _)) by lia. exists m. split; [done|]. apply zwrite_nil. lia.
Qed.

(** One pair is stored when it fits and leaves a byte for the terminator. *)
Lemma mp_put_spec m dst dst_max length change :
  in_s64 length -> change_ok change -> 0 <= dst <= dst_max -> dst_max < zlen m ->
  let xs := enc_pair length change in
  if dst + zlen xs <=? dst_max
  then exists m', mp_put m dst dst_max length change = Some (m', Some (dst + zlen xs)) /\ zwrite m dst xs = Some m'
  else exists m', mp_put m dst dst_max length change = Some (m', None) /\ frame m m' dst (dst_max + 1).
Proof.
  intros Hl Hc Hd Hm. cbv zeta. rewrite zlen_enc_pair. unfold mp_put.
  pose proof (sig_bytes_nonempty length Hl) as Hsl. pose proof (sig_change_len change Hc) as Hcl.
  pose proof (write_significant_spec m (dst + 1) dst_max length Hl ltac:(lia) Hm) as H1.
  destruct (Z.leb_spec (dst + 1 + zlen (sig_bytes length)) (dst_max + 1)) as [G1|G1]; destruct H1 as (m1 & -> & H1).
  2: { rewrite (proj2 (Z.leb_gt _ _)) by lia. cbn. exists m1. split; [done|]. eapply frame_trans; [exact H1 | apply (frame_refl _ dst dst) | lia..]. }
  cbn [mbind option_bind]. pose proof (zwrite_frame _ _ _ _ H1) as [Hz1 _].
  pose proof (change_write m1 (dst + 1 + zlen (sig_bytes length)) dst_max change Hc ltac:(lia) ltac:(lia)) as H2.
  destruct (Z.leb_spec (dst + 1 + zlen (sig_bytes length) + zlen (sig_change change)) (dst_max + 1)) as [G2|G2];
    destruct H2 as (m2 & -> & H2); cbn [mbind option_bind].
  2: { rewrite (proj2 (Z.leb_gt _ _)) by lia. exists m2. split; [done|].
       eapply frame_trans; [by eapply zwrite_frame | exact H2 | lia..]. }
  replace (dst + (1 + zlen (sig_bytes length) + zlen (sig_change change)))
    with (dst + zlen (sig_bytes length) + zlen (sig_change change) + 1) by lia.
  pose proof (zwrite_app _ _ _ _ _ _ H1 H2) as H12. pose proof (zwrite_frame _ _ _ _ H12) as Hfr.
  destruct (Z.ltb_spec dst_max (dst + zlen (sig_bytes length) + zlen (sig_change change) + 1)) as [G3|G3].
  - rewrite (proj2 (Z.leb_gt _ _)) by lia. exists m2. split; [done|].
    rewrite zlen_app in Hfr. eapply frame_trans; [exact Hfr | apply (frame_refl _ dst dst) | lia..].
  - rewrite (proj2 (Z.leb_le _ _)) by lia. rewrite header_value by lia.
    destruct (zset m2 dst _) as [m3|] eqn:E3; [|rewrite zset_inside in E3 by (destruct Hfr; lia); done].
    cbn [mbind option_bind]. exists m3. split; [done|]. unfold enc_pair. rewrite header_lor by lia.
    by apply (zwrite_cons_last _ _ _ _ m2).
Qed.

(** ** Building, as a function on runs *)

Section build.
Context (major_ver : Z).

Definition run_stored (e : runlist_element) : bool := (0 <=? lcn e) || (major_ver <? 3).
Definition run_change (prev : Z) (e : runlist_element) : option Z :=
  if run_stored e then Some (lcn e - prev) else None.
Definition run_next (prev : Z) (e : runlist_element) : Z := if run_stored e then lcn e else prev.

(** The mapping pairs of fully mapped runs, without the terminator byte. *)
Fixpoint mp_encode (prev : Z) (runs : runlist) : list Z :=
  match runs with
  | [] => []
  | e :: t => enc_pair (len e) (run_change prev e) ++ mp_encode (run_next prev e) t
  end.

Fixpoint last_lcn (prev : Z) (runs : runlist) : Z :=
  match runs with [] => prev | e :: t => last_lcn (run_next prev e) t end.

Lemma mp_encode_app prev r1 r2 : mp_encode prev (r1 ++ r2) = mp_encode prev r1 ++ mp_encode (last_lcn prev r1) r2.
Proof. revert prev; induction r1 as [|e t IH]; intros prev; cbn; [done|]. by rewrite IH, app_assoc. Qed.

(** A run that the code encodes: mapped or a hole, and within s64. *)
Definition run_ok (e : runlist_element) : Prop := 0 < len e < 2 ^ 63 /\ -1 <= lcn e < 2 ^ 63 - 1.

Lemma run_ok_good e : run_ok e -> mp_run_bad e = false.
Proof. unfold run_ok, mp_run_bad, LCN_HOLE. intros. apply orb_false_iff. rewrite !Z.ltb_ge. lia. Qed.

Lemma run_change_ok prev e : run_ok e -> -1 <= prev < 2 ^ 63 -> change_ok (run_change prev e) /\
  (if run_stored e then Some (s64 (lcn e - prev)) else None) = run_change prev e.
Proof.
  unfold run_change, run_ok. intros He Hp. destruct (run_stored e); cbn; [|done].
  assert (in_s64 (lcn e - prev)) by (unfold in_s64; lia). by rewrite s64_small.
Qed.

Lemma run_next_ok prev e : run_ok e -> -1 <= prev < 2 ^ 63 -> -1 <= run_next prev e < 2 ^ 63.
Proof. unfold run_next, run_ok. intros. destruct (run_stored e); lia. Qed.

(** The outcome of writing [runs] at [dst]: the longest prefix [rdone] that
    leaves room for the terminator is stored, then the terminator, and the
    rest, if any, is reported as ENOSPC. *)
Definition mp_fits (rdone : runlist) (todo : runlist) (prev dst dst_max : Z) : Prop :=
  dst + zlen (mp_encode prev rdone) <= dst_max /\
  match todo with
  | [] => True
  | e :: _ => dst_max < dst + zlen (mp_encode prev (rdone ++ [e]))
  end.

Definition mp_status (todo : runlist) : result unit := match todo with [] => Ok tt | _ => Err ENOSPC end.

Lemma mp_build_loop_spec runs term rest m dst dst_max prev :
  Forall run_ok runs -> len term = 0 -> -1 <= prev < 2 ^ 63 -> 0 <= dst <= dst_max -> dst_max < zlen m ->
  exists rdone todo m', runs = rdone ++ todo /\
    mp_build_loop major_ver m dst dst_max (runs ++ term :: rest) prev
      = Some (m', mp_status todo, Some (todo ++ term :: rest)) /\
    mp_fits rdone todo prev dst dst_max /\
    holds m' dst (mp_encode prev rdone ++ [0]) /\ frame m m' dst (dst_max + 1).
Proof.
  revert m dst prev; induction runs as [|e t IH]; intros m dst prev Hr Ht Hp Hd Hm; cbn [mp_build_loop app].
  - rewrite Ht. cbn [negb Z.eqb]. destruct (zset m dst 0) as [m'|] eqn:E; [|rewrite zset_inside in E by lia; done].
    cbn [mbind option_bind]. exists [], [], m'. split_and!; try done.
    + unfold mp_fits; cbn [mp_encode]. rewrite (@zlen_nil Z). lia.
    + by apply (holds_zset m).
    + eapply frame_trans; [by eapply zset_frame | apply (frame_refl _ dst dst) | lia..].
  - inversion Hr as [|? ? He Hr']; subst. pose proof He as [Hlen Hlcn].
    rewrite (proj2 (Z.eqb_neq (len e) 0)) by lia. cbn [negb]. rewrite run_ok_good by done.
    destruct (run_change_ok prev e He Hp) as [Hco Hc]. unfold run_stored in Hc at 1. rewrite Hc.
    pose proof (mp_put_spec m dst dst_max (len e) (run_change prev e) ltac:(unfold in_s64; lia) Hco Hd Hm) as Hput.
    cbv zeta in Hput. set (xs := enc_pair (len e) (run_change prev e)) in *.
    destruct (Z.leb_spec (dst + zlen xs) dst_max) as [G|G]; destruct Hput as (m1 & -> & H1); cbn [mbind option_bind].
    + pose proof (zwrite_frame _ _ _ _ H1) as Hf1. pose proof (zlen_nonneg xs).
      destruct (IH m1 (dst + zlen xs) (run_next prev e)) as (rd & todo & m' & -> & E & [Hft1 Hft2] & Hh & Hf);
        [done | done | by apply run_next_ok | lia | destruct Hf1; lia |].
      unfold run_next, run_stored in E. rewrite E. exists (e :: rd), todo, m'. unfold mp_fits. split_and!; try done.
      * cbn [mp_encode]. fold xs. rewrite zlen_app. lia.
      * cbn [app mp_encode]. fold xs. destruct todo as [|e2 todo]; [done|]. rewrite zlen_app. lia.
      * cbn [mp_encode]. fold xs. rewrite <-app_assoc, holds_app. split; [|done].
        eapply holds_frame; [by apply (holds_zwrite m) | exact Hf | lia].
      * eapply frame_trans; [exact Hf1 | exact Hf | lia..].
    + destruct (zset m1 dst 0) as [m'|] eqn:E; [|rewrite zset_inside in E by (destruct H1; lia); done].
      cbn [mbind option_bind]. exists [], (e :: t), m'. unfold mp_fits. split_and!; try done.
      * unfold mp_fits; cbn [mp_encode]. rewrite (@zlen_nil Z). lia.
      * cbn [app mp_encode]. rewrite app_nil_r. fold xs. lia.
      * by apply (holds_zset m1).
      * eapply frame_trans; [exact H1 | by eapply zset_frame | lia..].
Qed.

(** ** Starting in the middle of the runlist *)

(** The runs at and after [start], the first one cut to begin there. *)
Definition trim_run (e : runlist_element) (start : Z) : runlist_element :=
  if vcn e <? start
  then RL start (if 0 <=? lcn e then lcn e + (start - vcn e) else lcn e) (len e - (start - vcn e))
  else e.

Fixpoint runs_from (runs : runlist) (start : Z) : runlist :=
  match runs with
  | [] => []
  | e :: t => if rl_end e <=? start then runs_from t start else trim_run e start :: t
  end.

(** The two halves of the runlist at [start]. *)
Lemma runs_split v0 runs start : contig v0 runs -> v0 <= start <= runs_end v0 runs ->
  exists r1 r2, runs = r1 ++ r2 /\ contig v0 r1 /\ contig (runs_end v0 r1) r2 /\ runs_end v0 r1 <= start /\
    match r2 with
    | [] => runs_from runs start = [] /\ start = runs_end v0 r1
    | e :: t => vcn e <= start < rl_end e /\ runs_from runs start = trim_run e start :: t
    end.
Proof.
  revert v0; induction runs as [|e t IH]; intros v0; cbn.
  - intros _ H. exists [], []. cbn. split_and!; done || lia.
  - intros (Hv & Hl & Hc) Hs. destruct (Z.leb_spec (rl_end e) start); unfold rl_end in *.
    + destruct (IH (v0 + len e) Hc) as (r1 & r2 & -> & Hc1 & Hc2 & He & Hm); [lia|].
      exists (e :: r1), r2. exact (conj eq_refl (conj (conj Hv (conj Hl Hc1)) (conj Hc2 (conj He Hm)))).
    + exists [], (e :: t). cbn. split_and!; done || lia.
Qed.

Lemma mp_skip_app v0 r1 r2 term rest start :
  contig v0 (r1 ++ r2) -> len term = 0 -> vcn term = runs_end v0 (r1 ++ r2) ->
  runs_end v0 r1 <= start ->
  match r2 with [] => True | e :: _ => start < rl_end e end ->
  mp_skip (r1 ++ r2 ++ term :: rest) start = Some (r2 ++ term :: rest).
Proof.
  revert v0; induction r1 as [|e t IH]; intros v0 Hc Hlt Hvt Hs Hr; cbn [mp_skip app].
  - destruct r2 as [|e t]; cbn [app mp_skip]; [by rewrite Hlt|].
    destruct Hc as (Hv & Hl & Hc). rewrite (proj2 (Z.eqb_neq (len e) 0)) by lia.
    destruct (next_vcn v0 e t term rest) as (n & E & Hn); [by split|]. rewrite E. cbn [mbind option_bind].
    rewrite Hn, (proj2 (Z.leb_gt _ _)) by lia. done.
  - cbn in Hc. destruct Hc as (Hv & Hl & Hc). rewrite (proj2 (Z.eqb_neq (len e) 0)) by lia.
    destruct (next_vcn v0 e (t ++ r2) term rest) as (n & E & Hn); [by split|].
    rewrite <-app_assoc in E. rewrite E. cbn [mbind option_bind]. rewrite Hn. cbn in Hs.
    pose proof (proj1 (contig_app _ _ _) Hc) as [Hc1 _]. pose proof (runs_end_ge _ _ Hc1). unfold rl_end.
    rewrite (proj2 (Z.leb_le _ _)) by lia. by apply (IH (v0 + len e)).
Qed.

(** Runs within the range in which vcn and lcn arithmetic cannot overflow. *)
Definition run_fits (e : runlist_element) : Prop := run_ok e /\ lcn e + len e < 2 ^ 63 - 1.

Lemma run_fits_ok l : Forall run_fits l -> Forall run_ok l.
Proof. intros H. eapply Forall_impl; [exact H|]. by intros e []. Qed.

Lemma trim_run_ok e start : run_fits e -> vcn e <= start < rl_end e -> run_ok (trim_run e start).
Proof.
  unfold run_fits, run_ok, trim_run, rl_end. intros He Hs.
  destruct (Z.ltb_spec (vcn e) start); cbn; [|lia]. destruct (Z.leb_spec 0 (lcn e)); lia.
Qed.

Lemma trim_run_len e start : vcn e <= start < rl_end e -> start + len (trim_run e start) = rl_end e.
Proof. unfold trim_run, rl_end. intros. destruct (Z.ltb_spec (vcn e) start); cbn; lia. Qed.

(** The first element after the skip, written as the trimmed run. *)
Lemma mp_build_first e t term rest m dst dst_len start :
  run_fits e -> vcn e <= start < rl_end e -> 0 <= vcn e ->
  0 <= dst -> 1 <= dst_len -> dst + dst_len <= zlen m -> Forall run_ok t -> len term = 0 ->
  exists rdone todo m' stop, trim_run e start :: t = rdone ++ todo /\
    (let dst_max := dst + dst_len - 1 in
     if vcn e <? start then
       if mp_run_bad e then Some (m, Err (mp_run_errno e), None)
       else
         let delta := s64 (start - vcn e) in
         let stored := (0 <=? lcn e) || (major_ver <? 3) in
         let prev_lcn := if stored then (if 0 <=? lcn e then s64 (lcn e + delta) else lcn e) else 0 in
         r ← mp_put m dst dst_max (s64 (len e - delta)) (if stored then Some prev_lcn else None);
         match r with
         | (m, None) => m ← zset m dst 0; Some (m, Err ENOSPC, Some (e :: t ++ term :: rest))
         | (m, Some dst) => mp_build_loop major_ver m dst dst_max (t ++ term :: rest) prev_lcn
         end
     else mp_build_loop major_ver m dst dst_max ((e :: t) ++ term :: rest) 0)
    = Some (m', mp_status todo, Some stop) /\
    stop = (match rdone with [] => e :: t | _ => todo end) ++ term :: rest /\
    mp_fits rdone todo 0 dst (dst + dst_len - 1) /\
    holds m' dst (mp_encode 0 rdone ++ [0]) /\ frame m m' dst (dst + dst_len).
Proof.
  intros He Hs Hv Hd Hl Hm Ht Hterm. cbv zeta. pose proof (trim_run_ok e start He Hs) as Htr.
  destruct He as [Hok Hfit]. pose proof Hok as [Hlen Hlcn]. unfold rl_end in Hs.
  destruct (Z.ltb_spec (vcn e) start) as [Hlt|Hge].
  2: { replace (trim_run e start) with e by (unfold trim_run; rewrite (proj2 (Z.ltb_ge _ _)) by lia; done).
       destruct (mp_build_loop_spec (e :: t) term rest m dst (dst + dst_len - 1) 0) as (rd & todo & m' & Eq & E & Hf & Hh & Hfr);
         [by constructor | done | lia..|].
       exists rd, todo, m', (todo ++ term :: rest). split_and!; try done.
       - destruct rd; [by rewrite Eq | done].
       - by replace (dst + dst_len) with (dst + dst_len - 1 + 1) by lia. }
  rewrite run_ok_good by done. rewrite (s64_small (start - _)) by (unfold in_s64; lia).
  rewrite (s64_small (len e - _)) by (unfold in_s64; lia).
  set (tr := trim_run e start) in *.
  assert (tr = RL start (if 0 <=? lcn e then lcn e + (start - vcn e) else lcn e) (len e - (start - vcn e))) as Etr
    by (unfold tr, trim_run; rewrite (proj2 (Z.ltb_lt _ _)) by lia; done).
  assert (run_stored tr = run_stored e) as Est.
  { rewrite Etr. unfold run_stored. cbn. destruct (Z.leb_spec 0 (lcn e)); [|by rewrite (proj2 (Z.leb_gt _ _))].
    by rewrite (proj2 (Z.leb_le _ _)) by lia. }
  assert ((if 0 <=? lcn e then s64 (lcn e + (start - vcn e)) else lcn e) = lcn tr) as El.
  { rewrite Etr. cbn. destruct (Z.leb_spec 0 (lcn e)); [|done]. rewrite s64_small by (unfold in_s64; lia). done. }
  rewrite El. fold (run_stored e). rewrite <-Est.
  assert ((if run_stored tr then Some (if run_stored tr then lcn tr else 0) else None) = run_change 0 tr) as ->
    by (unfold run_change; destruct (run_stored tr); [f_equal; lia | done]).
  assert ((if run_stored tr then lcn tr else 0) = run_next 0 tr) as -> by done.
  replace (len e - (start - vcn e)) with (len tr) by by rewrite Etr.
  destruct (run_change_ok 0 tr Htr) as [Hco _]; [lia|].
  pose proof (mp_put_spec m dst (dst + dst_len - 1) (len tr) (run_change 0 tr)
    ltac:(destruct Htr; unfold in_s64; lia) Hco ltac:(lia) ltac:(lia)) as Hput.
  cbv zeta in Hput. set (xs := enc_pair (len tr) (run_change 0 tr)) in *.
  destruct (Z.leb_spec (dst + zlen xs) (dst + dst_len - 1)) as [G|G]; destruct Hput as (m1 & -> & H1); cbn [mbind option_bind].
  - pose proof (zwrite_frame _ _ _ _ H1) as Hf1. pose proof (zlen_nonneg xs).
    destruct (mp_build_loop_spec t term rest m1 (dst + zlen xs) (dst + dst_len - 1) (run_next 0 tr))
      as (rd & todo & m' & -> & E & [Hft1 Hft2] & Hh & Hf);
      [done | done | apply run_next_ok; [done | lia] | lia | destruct Hf1; lia |].
    rewrite E. exists (tr :: rd), todo, m', (todo ++ term :: rest). unfold mp_fits. split_and!; try done.
    + cbn [mp_encode]. fold xs. rewrite zlen_app. lia.
    + cbn [app mp_encode]. fold xs. destruct todo as [|e2 todo]; [done|]. rewrite zlen_app. lia.
    + cbn [mp_encode]. fold xs. rewrite <-app_assoc, holds_app. split; [|done].
      eapply holds_frame; [by apply (holds_zwrite m) | exact Hf | lia].
    + eapply frame_trans; [exact Hf1 | exact Hf | lia..].
  - destruct (zset m1 dst 0) as [m'|] eqn:E; [|rewrite zset_inside in E by (destruct H1; lia); done].
    cbn [mbind option_bind]. exists [], (tr :: t), m', (e :: t ++ term :: rest). unfold mp_fits. split_and!; try done.
    + cbn [mp_encode]. rewrite (@zlen_nil Z). lia.
    + cbn [app mp_encode]. rewrite app_nil_r. fold xs. lia.
    + by apply (holds_zset m1).
    + eapply frame_trans; [exact H1 | by eapply zset_frame | lia..].
Qed.

Lemma mp_encode_nonneg prev l : 0 <= zlen (mp_encode prev l).
Proof. apply zlen_nonneg. Qed.

Lemma mp_skip_restart v0 r1 r2 rdone todo term rest :
  contig v0 (r1 ++ rdone ++ todo) -> len term = 0 -> vcn term = runs_end v0 (r1 ++ rdone ++ todo) ->
  r2 = runs_end (runs_end v0 r1) rdone ->
  mp_skip ((r1 ++ rdone ++ todo) ++ term :: rest) r2 = Some (todo ++ term :: rest).
Proof.
  intros Hc Hl Hv ->. rewrite <-runs_end_app. rewrite app_assoc in Hc, Hv |- *. rewrite <-app_assoc.
  apply (mp_skip_app v0); [done | done | done | lia |].
  apply contig_app in Hc as [_ Hc]. destruct todo as [|e t]; [done|]. destruct Hc as (He & Hl2 & _).
  unfold rl_end. lia.
Qed.

(** ** The size computation *)

Lemma change_size prev e : run_ok e -> -1 <= prev < 2 ^ 63 ->
  zlen (sig_change (run_change prev e))
    = if run_stored e then ntfs_get_nr_significant_bytes (s64 (lcn e - prev)) else 0.
Proof.
  intros He Hp. destruct (run_change_ok prev e He Hp) as [Hok _]. unfold run_change in *.
  destruct (run_stored e); cbn in *; [|done]. rewrite s64_small by done. by rewrite zlen_sig_bytes.
Qed.

Lemma enc_pair_size prev e : run_ok e -> -1 <= prev < 2 ^ 63 ->
  2 <= zlen (enc_pair (len e) (run_change prev e)) <= 17.
Proof.
  intros He Hp. destruct (run_change_ok prev e He Hp) as [Hok _]. rewrite zlen_enc_pair.
  pose proof (sig_change_len _ Hok). pose proof (sig_bytes_nonempty (len e) ltac:(destruct He; unfold in_s64; lia)). lia.
Qed.

Lemma mp_size_loop_spec runs term rest rls prev max_size :
  Forall run_ok runs -> len term = 0 -> -1 <= prev < 2 ^ 63 -> 0 <= rls < 2 ^ 31 -> max_size < 2 ^ 31 - 32 ->
  exists r, mp_size_loop major_ver (runs ++ term :: rest) rls prev max_size = Some (Ok r) /\
    if rls + zlen (mp_encode prev runs) <=? max_size then r = rls + zlen (mp_encode prev runs)
    else max_size < r <= rls + zlen (mp_encode prev runs).
Proof.
  revert rls prev; induction runs as [|e t IH]; intros rls prev Hr Ht Hp Hrls Hmax; cbn [mp_size_loop app].
  - rewrite Ht. cbn [negb andb Z.eqb mp_encode]. rewrite (@zlen_nil Z), Z.add_0_r. exists rls. split; [done|].
    destruct (Z.leb_spec rls max_size); lia.
  - inversion Hr as [|? ? He Hr']; subst. pose proof He as [Hlen Hlcn]. cbn [mp_encode].
    rewrite (proj2 (Z.eqb_neq (len e) 0)) by lia. cbn [negb andb].
    pose proof (enc_pair_size prev e He Hp) as Hx. pose proof (change_size prev e He Hp) as Hcs.
    pose proof (zlen_enc_pair (len e) (run_change prev e)) as Hz.
    rewrite zlen_sig_bytes in Hz by (unfold in_s64; lia).
    set (xs := enc_pair (len e) (run_change prev e)) in *. rewrite zlen_app.
    pose proof (zlen_nonneg (mp_encode (run_next prev e) t)).
    destruct (Z.leb_spec rls max_size) as [G|G].
    2: { exists rls. split; [done|]. rewrite (proj2 (Z.leb_gt _ _)) by lia. lia. }
    rewrite run_ok_good by done. destruct (nr_significant_spec (len e)) as (Hn & _); [unfold in_s64; lia|].
    destruct (IH (rls + zlen xs) (run_next prev e) Hr' Ht (run_next_ok _ _ He Hp)) as (r & E & Hres); [lia.. |].
    rewrite <-Z.add_assoc in Hres. exists r. split; [|done]. rewrite <-E. fold (run_stored e).
    unfold run_next. destruct (run_stored e).
    + f_equal. rewrite (s32_small (rls + _)) by lia. rewrite s32_small; lia.
    + f_equal. rewrite s32_small; lia.
Qed.

End build.

(** ** Decoding one pair *)

Lemma mp_delta_loop_spec j m buf lo n :
  in_s64 n -> (forall i, 0 <= i < Z.of_nat j -> m.[buf + lo + 1 + i] = Some ((n / 256 ^ i) mod 256)) ->
  mp_delta_loop j m buf (lo + Z.of_nat j) (n / 256 ^ Z.of_nat j) = Some n.
Proof.
  intros Hn Hb. induction j as [|j IH]; cbn [mp_delta_loop].
  - by rewrite Z.pow_0_r, Z.div_1_r.
  - replace (buf + (lo + Z.of_nat (S j))) with (buf + lo + 1 + Z.of_nat j) by lia.
    rewrite Hb by lia. cbn [mbind option_bind].
    replace (lo + Z.of_nat (S j) - 1) with (lo + Z.of_nat j) by lia.
    rewrite <-IH by (intros; apply Hb; lia). f_equal.
    rewrite pow256_S, Z.shiftl_mul_pow2 by lia. change (2 ^ 8) with 256.
    rewrite (Z.mul_comm 256), <-Z.div_div by lia.
    set (q := n / 256 ^ Z.of_nat j). pose proof (Z.div_mod q 256).
    rewrite s64_small; [lia|]. replace (q / 256 * 256 + q mod 256) with q by lia.
    unfold q, in_s64 in *. assert (0 < 256 ^ Z.of_nat j) by lia.
    split; [apply Z.div_le_lower_bound | apply Z.div_lt_upper_bound]; nia.
Qed.

Lemma mp_delta_spec m buf lo n :
  in_s64 n -> 0 <= lo -> holds m (buf + lo + 1) (sig_bytes n) ->
  mp_delta m buf (lo + zlen (sig_bytes n)) lo = Some n.
Proof.
  intros Hn Hlo Hh. unfold mp_delta. pose proof (sig_bytes_nonempty n Hn) as Hk.
  destruct (nr_significant_spec n Hn) as (Hr & Hfit & _). rewrite zlen_sig_bytes in * by done.
  set (k := ntfs_get_nr_significant_bytes n) in *.
  assert (forall i, 0 <= i < k -> m.[buf + lo + 1 + i] = Some ((n / 256 ^ i) mod 256)) as Hg.
  { intros i Hi. rewrite Hh by (rewrite zlen_sig_bytes by done; done). unfold sig_bytes. apply zget_le_encode. fold k. lia. }
  replace (buf + (lo + k)) with (buf + lo + 1 + (k - 1)) by lia. rewrite Hg by lia. cbn [mbind option_bind].
  replace (lo + k - 1 - lo) with (k - 1) by lia.
  replace (lo + k - 1) with (lo + Z.of_nat (Z.to_nat (k - 1))) by lia.
  rewrite <-(mp_delta_loop_spec (Z.to_nat (k - 1)) m buf lo n Hn) by (intros; apply Hg; lia).
  f_equal. rewrite Z2Nat.id by lia. unfold s8.
  unfold fits_bytes in Hfit. set (q := n / 256 ^ (k - 1)).
  assert (-128 <= q < 128) as Hq.
  { replace (2 ^ (8 * k - 1)) with (128 * 256 ^ (k - 1)) in Hfit.
    - unfold q. assert (0 < 256 ^ (k - 1)) by (apply Z.pow_pos_nonneg; lia).
      split; [apply Z.div_le_lower_bound | apply Z.div_lt_upper_bound]; lia.
    - change 256 with (2 ^ 8). rewrite <-Z.pow_mul_r by lia. change 128 with (2 ^ 7).
      rewrite <-Z.pow_add_r by lia. f_equal. lia. }
  unfold wrap_s. change (2 ^ (8 - 1)) with 128. change (2 ^ 8) with 256.
  pose proof (Z.div_mod q 256). pose proof (Z.mod_pos_bound q 256).
  assert ((q mod 256 + 128) mod 256 = q + 128); [|lia].
  destruct (Z.lt_ge_cases q 0).
  - assert (q mod 256 = q + 256) as -> by (symmetry; apply (Z.mod_unique _ _ (-1)); lia).
    symmetry; apply (Z.mod_unique _ _ 1); lia.
  - rewrite (Z.mod_small q) by lia. apply Z.mod_small. lia.
Qed.

Lemma header_nibbles a b : 0 <= a <= 8 -> 1 <= b <= 8 ->
  let h := 16 * a + b in
  Z.land h 0xf = b /\ Z.land (Z.shiftr h 4) 0xf = a /\ (Z.land h 0xf0 =? 0) = (a =? 0) /\ (h =? 0) = false.
Proof.
  intros Ha Hb. assert (a = 0 \/ a = 1 \/ a = 2 \/ a = 3 \/ a = 4 \/ a = 5 \/ a = 6 \/ a = 7 \/ a = 8) as Hc by lia.
  assert (b = 1 \/ b = 2 \/ b = 3 \/ b = 4 \/ b = 5 \/ b = 6 \/ b = 7 \/ b = 8) as Hd by lia.
  repeat destruct Hc as [->|Hc]; try subst a; repeat destruct Hd as [->|Hd]; try subst b; split_and!; reflexivity.
Qed.

Lemma mp_store_push rl rlpos rlsize e :
  rlpos = zlen rl -> (rlpos + 1) * 24 <= rlsize -> mp_store rl rlpos rlsize e = Some (rl ++ [e]).
Proof.
  intros -> Hs. unfold mp_store, rl_element_size. rewrite (proj2 (Z.ltb_ge _ _)) by lia. by rewrite Z.eqb_refl.
Qed.

(** The decoder run on the encoder's output gives the runs back. *)
Lemma mp_decompress_loop_spec major_ver runs fuel m attr_end buf rl rlsize v prev :
  contig v runs -> Forall run_ok runs -> -1 <= prev < 2 ^ 63 ->
  0 <= v -> runs_end v runs < 2 ^ 63 ->
  holds m buf (mp_encode major_ver prev runs ++ [0]) ->
  0 <= buf -> buf + zlen (mp_encode major_ver prev runs) < attr_end -> (length runs < fuel)%nat ->
  (zlen rl + 2) * 24 <= rlsize -> zlen rl + zlen runs < 65536 ->
  exists rlsize', mp_decompress_loop fuel m attr_end buf rl (zlen rl) rlsize v prev
      = Some (Ok (rl ++ runs, zlen (rl ++ runs), rlsize', runs_end v runs)) /\
    (zlen (rl ++ runs) + 2) * 24 <= rlsize'.
Proof.
  revert fuel buf rl rlsize v prev; induction runs as [|e t IH];
    intros fuel buf rl rlsize v prev Hc Hr Hp Hv Hend Hh Hb Hae Hf Hcap Hn;
    (destruct fuel as [|fuel]; [cbn in Hf; lia|]); cbn [mp_decompress_loop].
  - cbn [mp_encode app] in Hh, Hae. rewrite (@zlen_nil Z) in Hae. apply holds_cons in Hh as [Hh _].
    rewrite (proj2 (Z.ltb_lt _ _)), Hh by lia. cbn. rewrite app_nil_r. eauto.
  - destruct Hc as (Hve & Hle & Hc). inversion Hr as [|? ? He Hr']; subst. pose proof He as [Hlen Hlcn].
    cbn [mp_encode] in Hh, Hae. destruct (run_change_ok major_ver prev e He Hp) as [Hco _].
    pose proof (zlen_enc_pair (len e) (run_change major_ver prev e)) as Hz.
    rewrite zlen_app in Hae. rewrite <-app_assoc in Hh. apply holds_app in Hh as [Hh Ht].
    set (b := zlen (sig_bytes (len e))) in *. set (a := zlen (sig_change (run_change major_ver prev e))) in *.
    assert (1 <= b <= 8) as Hbb by (apply sig_bytes_nonempty; unfold in_s64; lia).
    pose proof (sig_change_len _ Hco) as Haa. fold a in Haa.
    unfold enc_pair in Hh. fold a b in Hh. rewrite header_lor in Hh by lia.
    apply holds_cons in Hh as [Hhd Hh]. apply holds_app in Hh as [Hhl Hhc].
    pose proof (mp_encode_nonneg major_ver (run_next major_ver prev e) t).
    destruct (header_nibbles a b Haa Hbb) as (N1 & N2 & N3 & N4).
    rewrite (proj2 (Z.ltb_lt buf _)), Hhd by lia. cbn [mbind option_bind]. rewrite N4, N1, N2, N3.
    rewrite (proj2 (Z.eqb_neq b 0)), (proj2 (Z.ltb_ge attr_end (buf + b))) by lia. cbn [negb andb].
    pose proof (mp_delta_spec m buf 0 (len e) ltac:(unfold in_s64; lia) ltac:(lia)) as Hd1.
    rewrite Z.add_0_r in Hd1. fold b in Hd1. change (0 + b) with b in Hd1. rewrite (Hd1 Hhl). cbn [mbind option_bind].
    rewrite (proj2 (Z.ltb_ge (len e) 0)) by lia. cbn in Hend. pose proof (runs_end_ge _ _ Hc).
    rewrite (s64_small (vcn e + len e)) by (unfold in_s64; lia).
    set (rlsize1 := if rlsize <? _ then _ else _).
    assert ((zlen rl + 3) * 24 <= rlsize1) as Hcap1
      by (unfold rlsize1, rl_element_size; destruct (Z.ltb_spec rlsize ((zlen rl + 3) * 24)); lia).
    rewrite zlen_cons in Hn. pose proof (zlen_nonneg rl). pose proof (zlen_nonneg t).
    assert (u16 (zlen rl + 1) = zlen (rl ++ [e])) as Hu.
    { unfold u16. rewrite wrap_u_small by lia. by rewrite zlen_app. }
    assert (zlen (rl ++ [e]) = zlen rl + 1) as Hz1 by by rewrite zlen_app.
    assert (exists rlsize', mp_decompress_loop fuel m attr_end (buf + (b + a + 1)) (rl ++ [e]) (zlen (rl ++ [e])) rlsize1
        (vcn e + len e) (run_next major_ver prev e)
      = Some (Ok (rl ++ e :: t, zlen (rl ++ e :: t), rlsize', runs_end (vcn e) (e :: t))) /\
      (zlen (rl ++ e :: t) + 2) * 24 <= rlsize') as Hgoal.
    { replace (rl ++ e :: t) with ((rl ++ [e]) ++ t) by by rewrite <-app_assoc.
      replace (buf + (b + a + 1)) with (buf + (1 + b + a)) by lia. rewrite Hz in Ht, Hae.
      apply IH; try done; try lia; [by apply run_next_ok | cbn in Hf; lia]. }
    unfold run_change, run_next in *. destruct (run_stored major_ver e) eqn:Est; cbn [sig_change] in a, Hhc, Hco.
    + assert (1 <= a) by (apply sig_bytes_nonempty; exact Hco).
      rewrite (proj2 (Z.eqb_neq a 0)), (proj2 (Z.ltb_ge attr_end (buf + (b + a)))) by lia.
      pose proof (mp_delta_spec m buf b (lcn e - prev) Hco ltac:(lia)) as Hd2.
      change (zlen (sig_bytes (lcn e - prev))) with a in Hd2.
      rewrite Hd2 by by replace (buf + b + 1) with (buf + 1 + b) by lia.
      cbn [mbind option_bind]. replace (prev + (lcn e - prev)) with (lcn e) by lia.
      rewrite s64_small by (unfold in_s64; lia). rewrite (proj2 (Z.ltb_ge (lcn e) (-1))) by lia.
      rewrite mp_store_push by (done || lia). cbn [mbind option_bind]. rewrite Hu. destruct e; exact Hgoal.
    + rewrite (proj2 (Z.eqb_eq a 0)) by done.
      assert (lcn e = LCN_HOLE) as Hhole.
      { unfold run_stored in Est. apply orb_false_iff in Est as [E1 _]. apply Z.leb_gt in E1. unfold LCN_HOLE. lia. }
      rewrite <-Hhole. rewrite mp_store_push by (done || lia). cbn [mbind option_bind].
      destruct e as [ve le ne]; cbn [vcn lcn len] in *. rewrite Hu. exact Hgoal.
Qed.

Lemma mp_build_spec major_ver v0 runs term rest m dst dst_len start :
  wf_rl v0 runs term -> 0 <= v0 <= start -> start <= runs_end v0 runs -> Forall run_fits runs ->
  0 <= dst -> 1 <= dst_len -> dst + dst_len <= zlen m ->
  exists rdone todo m' stop, runs_from runs start = rdone ++ todo /\
    ntfs_mapping_pairs_build major_ver m dst dst_len (Some (runs ++ term :: rest)) start
      = Some (m', mp_status todo, Some stop) /\
    mp_skip (runs ++ term :: rest) (runs_end start rdone) = Some stop /\
    mp_fits major_ver rdone todo 0 dst (dst + dst_len - 1) /\
    holds m' dst (mp_encode major_ver 0 rdone ++ [0]) /\ frame m m' dst (dst + dst_len).
Proof.
  intros [Hc Hlt Hvt] Hv Hs Hf Hd Hl Hm.
  destruct (runs_split v0 runs start Hc) as (r1 & r2 & -> & Hc1 & Hc2 & He & Hr); [lia|].
  apply Forall_app in Hf as [Hf1 Hf2]. unfold ntfs_mapping_pairs_build.
  rewrite (proj2 (Z.ltb_ge _ _)) by lia. rewrite <-app_assoc.
  rewrite (mp_skip_app v0) by (done || (destruct r2; [done | lia])). cbn [mbind option_bind].
  destruct r2 as [|e t]; cbn [app].
  - rewrite zget_cons_0. cbn [mbind option_bind]. destruct Hr as [-> ->]. rewrite app_nil_r in *.
    unfold mp_start_bad. rewrite Hlt, Hvt, Z.ltb_irrefl. cbn [andb orb Z.eqb].
    destruct (mp_build_loop_spec major_ver [] term rest m dst (dst + dst_len - 1) 0) as (rd & todo & m' & Eq & E & Hft & Hh & Hfr);
      [done | done | lia..|].
    symmetry in Eq. apply app_nil in Eq as [-> ->]. cbn [app] in E. rewrite E.
    exists [], [], m', (term :: rest). split_and!; try done.
    + apply (mp_skip_app v0 r1 []); rewrite ?app_nil_r; done || (cbn; lia).
    + by replace (dst + dst_len) with (dst + dst_len - 1 + 1) by lia.
  - rewrite zget_cons_0. cbn [mbind option_bind]. destruct Hr as [Hin ->].
    inversion Hf2 as [|? ? Hfe Hft]; subst. pose proof (runs_end_ge _ _ Hc1).
    assert (mp_start_bad e start = false) as ->.
    { unfold mp_start_bad. destruct Hfe as [[? _] _]. rewrite (proj2 (Z.eqb_neq _ _)), (proj2 (Z.ltb_ge start _)) by lia. done. }
    pose proof Hc2 as (Hve & Hle & Hct).
    destruct (mp_build_first major_ver e t term rest m dst dst_len start) as (rd & todo & m' & stop & Eq & E & Hst & Hft2 & Hh & Hfr);
      [done | done | lia.. | by apply run_fits_ok | done |].
    exists rd, todo, m', stop. split_and!; try done.
    rewrite Hst. destruct rd as [|tr rd]; cbn [app] in Eq.
    + cbn [runs_end]. apply (mp_skip_app v0 r1 (e :: t)); [by apply contig_app | done | done | done | lia].
    + injection Eq as <- ->. change (r1 ++ e :: (rd ++ todo) ++ term :: rest) with (r1 ++ (e :: rd ++ todo) ++ term :: rest).
      rewrite app_assoc. change (e :: rd ++ todo) with ((e :: rd) ++ todo) in *.
      apply (mp_skip_restart v0); [by apply contig_app | done | done |]. cbn [runs_end]. rewrite trim_run_len by done.
      rewrite <-Hve. done.
Qed.

(** C5: building the mapping pairs of a fully mapped runlist from [start_vcn]
    on never writes outside [dst, dst + dst_len); it stores the encoding of the
    longest prefix of the runs that fits together with a terminator byte,
    returns success exactly when that is all of them and ENOSPC otherwise, and
    leaves *stop_rl at the element from which the next extent must go on. *)
Theorem mapping_pairs_build_correct major_ver v0 runs term rest m dst dst_len start :
  wf_rl v0 runs term -> 0 <= v0 <= start -> start <= runs_end v0 runs -> Forall run_fits runs ->
  0 <= dst -> 1 <= dst_len -> dst + dst_len <= zlen m ->
  exists rdone todo m' stop, runs_from runs start = rdone ++ todo /\
    ntfs_mapping_pairs_build major_ver m dst dst_len (Some (runs ++ term :: rest)) start
      = Some (m', mp_status todo, Some stop) /\
    mp_skip (runs ++ term :: rest) (runs_end start rdone) = Some stop /\
    mp_fits major_ver rdone todo 0 dst (dst + dst_len - 1) /\
    holds m' dst (mp_encode major_ver 0 rdone ++ [0]) /\ frame m m' dst (dst + dst_len).
Proof. apply mp_build_spec. Qed.

(** the size computed for a buffer is the size the encoder needs, that is
    the length of the encoding and its terminator, whenever that does not
    exceed [max_size]; otherwise the result exceeds [max_size] too. *)
Theorem size_for_mapping_pairs_correct major_ver v0 runs term rest start max_size :
  wf_rl v0 runs term -> 0 <= v0 <= start -> start <= runs_end v0 runs -> Forall run_fits runs ->
  max_size < 2 ^ 31 - 32 ->
  let total := zlen (mp_encode major_ver 0 (runs_from runs start) ++ [0]) in
  exists r, ntfs_get_size_for_mapping_pairs major_ver (Some (runs ++ term :: rest)) start max_size
      = Some (Ok r) /\
    if total <=? max_size then r = total else max_size < r <= total.
Proof.
  intros [Hc Hlt Hvt] Hv Hs Hf Hm. cbv zeta.
  destruct (runs_split v0 runs start Hc) as (r1 & r2 & -> & Hc1 & Hc2 & He & Hr); [lia|].
  apply Forall_app in Hf as [Hf1 Hf2]. unfold ntfs_get_size_for_mapping_pairs.
  rewrite (proj2 (Z.ltb_ge _ _)) by lia. rewrite <-app_assoc.
  rewrite (mp_skip_app v0) by (done || (destruct r2; [done | lia])). cbn [mbind option_bind].
  rewrite zlen_app. change (zlen [0]) with 1.
  destruct r2 as [|e t]; cbn [app]; rewrite zget_cons_0; cbn [mbind option_bind].
  - destruct Hr as [-> ->]. rewrite app_nil_r in *. unfold mp_start_bad. rewrite Hlt, Hvt, Z.ltb_irrefl. cbn [andb orb Z.eqb].
    destruct (mp_size_loop_spec major_ver [] term rest 1 0 max_size) as (r & E & H); [done | done | lia..|].
    cbn [app] in E. exists r. split; [done|]. by rewrite Z.add_comm.
  - destruct Hr as [Hin ->]. inversion Hf2 as [|? ? Hfe Hft]; subst. pose proof (runs_end_ge _ _ Hc1).
    pose proof Hfe as [[Hlen Hlcn] Hfit]. pose proof Hc2 as (Hve & _). unfold rl_end in Hin.
    unfold mp_start_bad. rewrite (proj2 (Z.eqb_neq (len e) 0)), (proj2 (Z.ltb_ge start _)) by lia. cbn [andb orb].
    pose proof (trim_run_ok e start Hfe Hin) as Htr. destruct (Z.ltb_spec (vcn e) start) as [G|G].
    2: { replace (trim_run e start) with e by (unfold trim_run; rewrite (proj2 (Z.ltb_ge _ _)) by lia; done).
         destruct (mp_size_loop_spec major_ver (e :: t) term rest 1 0 max_size) as (r & E & H2);
           [constructor; [apply Hfe | by apply run_fits_ok] | done | lia..|].
         exists r. split; [done|]. by rewrite Z.add_comm. }
    rewrite run_ok_good by apply Hfe. rewrite (s64_small (start - _)) by (unfold in_s64; lia).
    rewrite (s64_small (len e - _)) by (unfold in_s64; lia).
    assert (trim_run e start = RL start (if 0 <=? lcn e then lcn e + (start - vcn e) else lcn e) (len e - (start - vcn e))) as Etr
      by (unfold trim_run; rewrite (proj2 (Z.ltb_lt _ _)) by lia; done).
    pose proof (change_size major_ver 0 (trim_run e start) Htr ltac:(lia)) as Hcs.
    pose proof (enc_pair_size major_ver 0 (trim_run e start) Htr ltac:(lia)) as Hx.
    pose proof (zlen_enc_pair (len (trim_run e start)) (run_change major_ver 0 (trim_run e start))) as Hz.
    rewrite zlen_sig_bytes in Hz by (destruct Htr; unfold in_s64; lia).
    pose proof (run_next_ok major_ver 0 _ Htr ltac:(lia)) as Hnx.
    cbn [mp_encode]. rewrite zlen_app. set (xs := enc_pair _ _) in *.
    destruct (mp_size_loop_spec major_ver t term rest (1 + zlen xs) (run_next major_ver 0 (trim_run e start)) max_size)
      as (r & E & H2); [by apply run_fits_ok | done | done | lia.. |].
    exists r. replace (zlen xs + zlen (mp_encode major_ver (run_next major_ver 0 (trim_run e start)) t) + 1)
      with (1 + zlen xs + zlen (mp_encode major_ver (run_next major_ver 0 (trim_run e start)) t)) by lia.
    split; [|done]. rewrite <-E. rewrite Hz, Hcs, Etr. unfold run_next, run_stored. cbn [lcn len].
    rewrite Z.sub_0_r. destruct (Z.leb_spec 0 (lcn e)).
    + rewrite (proj2 (Z.leb_le 0 _)) by lia. cbn [orb]. rewrite !(s64_small (lcn e + _)) by (unfold in_s64; lia). f_equal; lia.
    + rewrite (proj2 (Z.leb_gt 0 _)) by lia. cbn [orb]. rewrite (s64_small (lcn e)) by (unfold in_s64; lia).
      destruct (major_ver <? 3); f_equal; lia.
Qed.

(** ** Round trip through an attribute record *)

Lemma runs_from_start v0 runs : contig v0 runs -> runs_from runs v0 = runs.
Proof.
  destruct runs as [|e t]; cbn; [done|]. intros (Hv & Hl & Hc). unfold rl_end, trim_run.
  rewrite (proj2 (Z.leb_gt _ _)), (proj2 (Z.ltb_ge _ _)) by lia. done.
Qed.

Lemma ld_frame n m m' a lo hi : frame m m' lo hi -> a + Z.of_nat n <= lo -> ld n m' a = ld n m a.
Proof. intros [Hl Hg] Ha. apply ld_ext; [done|]. intros j Hj. apply Hg. lia. Qed.

(** The header fields of a non-resident attribute record. *)
Record attr_header (m : list Z) (length lowest highest offset allocated : Z) : Prop := {
  ah_length : attr_length m = Some length;
  ah_non_resident : exists n, attr_non_resident m = Some n /\ n <> 0;
  ah_lowest : attr_lowest_vcn m = Some lowest;
  ah_highest : attr_highest_vcn m = Some highest;
  ah_offset : attr_mapping_pairs_offset m = Some offset;
  ah_allocated : attr_allocated_size m = Some allocated }.

Lemma attr_header_frame m m' l lo hi off al a b :
  attr_header m l lo hi off al -> frame m m' a b -> 48 <= a -> attr_header m' l lo hi off al.
Proof.
  unfold attr_length, attr_non_resident, attr_lowest_vcn, attr_highest_vcn, attr_mapping_pairs_offset,
    attr_allocated_size, le32_to_cpup, sle64_to_cpup, le16_to_cpup.
  intros [H1 (n & H2 & Hn) H3 H4 H5 H6] Hf Ha. split.
  all: unfold attr_length, attr_non_resident, attr_lowest_vcn, attr_highest_vcn, attr_mapping_pairs_offset,
    attr_allocated_size, le32_to_cpup, sle64_to_cpup, le16_to_cpup;
    rewrite ?(ld_frame _ _ _ _ _ _ Hf) by lia; try done.
  exists n. split; [|done]. destruct Hf as [_ Hg]. rewrite Hg by lia. done.
Qed.

(** What follows the decoded runs: the base extent is completed up to the
    allocated size, another extent ends in an unmapped terminator. *)
Definition mp_tail (lowest vend num_clusters : Z) : runlist :=
  if lowest =? 0 then
    if vend <? num_clusters
    then [RL vend LCN_RL_NOT_MAPPED (num_clusters - vend); RL num_clusters LCN_ENOENT 0]
    else [RL vend LCN_ENOENT 0]
  else [RL vend LCN_RL_NOT_MAPPED 0].

Definition mp_head (lowest : Z) : runlist :=
  if lowest =? 0 then [] else [RL 0 LCN_RL_NOT_MAPPED lowest].

Definition num_clusters (cluster_size bits allocated : Z) : Z :=
  Z.shiftr (allocated + cluster_size - 1) bits.

Lemma mp_decompress_spec cs bits junk major_ver m length v0 highest off allocated runs :
  attr_header m length v0 highest off allocated -> length <= zlen m -> 0 <= v0 -> 0 <= off -> 0 <= bits ->
  contig v0 runs -> Forall run_ok runs -> runs_end v0 runs < 2 ^ 63 -> zlen runs < 65000 ->
  holds m off (mp_encode major_ver 0 runs ++ [0]) -> off + zlen (mp_encode major_ver 0 runs) < length ->
  highest = 0 \/ highest = runs_end v0 runs - 1 ->
  (v0 = 0 -> runs_end v0 runs <= num_clusters cs bits allocated /\ 0 <= allocated + cs - 1 < 2 ^ 63) ->
  ntfs_mapping_pairs_decompress cs bits junk m None
    = Some (Ok (Some (mp_head v0 ++ runs ++ mp_tail v0 (runs_end v0 runs) (num_clusters cs bits allocated)))).
Proof.
  intros [H1 (n & H2 & Hn) H3 H4 H5 H6] Hlen Hv0 Hoff Hbits Hc Hr Hend Hcnt Hh Hfit Hhi Hal.
  unfold ntfs_mapping_pairs_decompress, ntfs_mapping_pairs_decompress_i.
  rewrite H2; cbn [mbind option_bind]. rewrite H3; cbn [mbind option_bind].
  rewrite (proj2 (Z.eqb_neq n 0)), (proj2 (Z.ltb_ge v0 0)) by done. cbn [orb].
  rewrite H5; cbn [mbind option_bind]. rewrite H1; cbn [mbind option_bind].
  pose proof (zlen_nonneg (mp_encode major_ver 0 runs)) as Hne. pose proof (runs_end_ge _ _ Hc) as Hge.
  rewrite (proj2 (Z.ltb_ge off 0)), (proj2 (Z.ltb_ge length off)) by lia. cbn [orb].
  assert ((if negb (v0 =? 0) then mp_store [] 0 0x1000 (RL 0 LCN_RL_NOT_MAPPED v0) else Some []) = Some (mp_head v0)) as ->
    by (unfold mp_head; by destruct (v0 =? 0)).
  cbn [mbind option_bind].
  assert ((if negb (v0 =? 0) then 1 else 0) = zlen (mp_head v0)) as -> by (unfold mp_head; by destruct (v0 =? 0)).
  assert (0 <= zlen (mp_head v0) <= 1) as Hhd by (unfold mp_head, zlen; destruct (v0 =? 0); cbn; lia).
  assert (zlen runs <= zlen (mp_encode major_ver 0 runs)) as Hle.
  { clear -Hr. generalize 0. induction Hr as [|e t He _ IH]; intros p; cbn [mp_encode]; [done|].
    rewrite zlen_app, zlen_cons, zlen_enc_pair. pose proof (zlen_nonneg (sig_bytes (len e))).
    pose proof (zlen_nonneg (sig_change (run_change major_ver p e))). specialize (IH (run_next major_ver p e)). lia. }
  destruct (mp_decompress_loop_spec major_ver runs (S (Datatypes.length m)) m length off (mp_head v0) 0x1000 v0 0)
    as (rlsize & E & Hcap); try done; try lia; [unfold zlen in *; lia |].
  rewrite E. cbn [mbind option_bind]. unfold mp_finish. rewrite H4. cbn [mbind option_bind].
  rewrite (s64_small (runs_end v0 runs - 1)) by (unfold in_s64; lia).
  assert (negb (highest =? 0) && negb (runs_end v0 runs - 1 =? highest) = false) as ->.
  { destruct Hhi as [-> | ->]; [done|]. rewrite Z.eqb_refl. apply andb_false_r. }
  unfold mp_tail. destruct (Z.eqb_spec v0 0) as [Ev|Ev].
  - destruct (Hal Ev) as [Hcl Hrng]. rewrite H6. cbn [mbind option_bind].
    rewrite (s64_small (allocated + cs - 1)) by (unfold in_s64; lia). fold (num_clusters cs bits allocated).
    assert (num_clusters cs bits allocated < 2 ^ 63) as Hnc.
    { unfold num_clusters. rewrite Z.shiftr_div_pow2 by done. apply Z.div_lt_upper_bound; [lia|].
      assert (1 <= 2 ^ bits) by (apply (Z.pow_le_mono_r 2 0 bits); lia). nia. }
    set (nc := num_clusters cs bits allocated) in *.
    destruct (Z.ltb_spec (runs_end v0 runs) nc) as [G|G].
    + rewrite mp_store_push by (done || lia). cbn [mbind option_bind].
      assert (zlen (mp_head v0 ++ runs) + 1 < 65536) by (rewrite zlen_app; lia).
      pose proof (zlen_nonneg (mp_head v0 ++ runs)).
      unfold u16. rewrite wrap_u_small by lia.
      rewrite mp_store_push by (rewrite ?(zlen_app (_ ++ runs)), ?zlen_cons, ?(@zlen_nil runlist_element); lia). cbn [mbind option_bind].
      rewrite !s64_small by (unfold in_s64; lia). rewrite <-!app_assoc. cbn [app].
      replace (runs_end v0 runs + (nc - runs_end v0 runs)) with nc by lia. done.
    + rewrite (proj2 (Z.ltb_ge nc _)) by lia. rewrite mp_store_push by (done || lia). cbn [mbind option_bind].
      by rewrite <-!app_assoc.
  - rewrite mp_store_push by (done || lia). cbn [mbind option_bind]. by rewrite <-!app_assoc.
Qed.

(** C6: decompressing the mapping pairs that ntfs_mapping_pairs_build wrote
    into an attribute record gives back exactly the runs it was given, with
    the unmapped head and the tail the attribute's header calls for. *)
Theorem mapping_pairs_roundtrip cs bits junk major_ver m m' stop length v0 highest off allocated runs term rest dst_len :
  attr_header m length v0 highest off allocated -> 48 <= off -> length <= zlen m -> 0 <= bits ->
  1 <= dst_len -> off + dst_len <= length ->
  wf_rl v0 runs term -> 0 <= v0 -> Forall run_fits runs -> runs_end v0 runs < 2 ^ 63 -> zlen runs < 65000 ->
  highest = 0 \/ highest = runs_end v0 runs - 1 ->
  (v0 = 0 -> runs_end v0 runs <= num_clusters cs bits allocated /\ 0 <= allocated + cs - 1 < 2 ^ 63) ->
  ntfs_mapping_pairs_build major_ver m off dst_len (Some (runs ++ term :: rest)) v0 = Some (m', Ok tt, stop) ->
  ntfs_mapping_pairs_decompress cs bits junk m' None
    = Some (Ok (Some (mp_head v0 ++ runs ++ mp_tail v0 (runs_end v0 runs) (num_clusters cs bits allocated)))).
Proof.
  intros Hh Hoff Hlen Hbits Hd Hfit Hwf Hv Hr Hend Hcnt Hhi Hal E. pose proof (wf_contig _ _ _ Hwf) as Hc.
  pose proof (runs_end_ge _ _ Hc).
  destruct (mp_build_spec major_ver v0 runs term rest m off dst_len v0) as (rd & todo & m2 & stop2 & Eq & E2 & _ & [Hft _] & Hhold & Hfr);
    try done; try lia.
  rewrite E in E2. injection E2 as Em Hst _; subst m2. destruct todo; [|done].
  rewrite app_nil_r, runs_from_start in Eq by done. subst rd.
  eapply (mp_decompress_spec cs bits junk major_ver m' length v0 highest off allocated runs); try done; try lia.
  - by eapply attr_header_frame.
  - by destruct Hfr as [-> _].
  - by apply run_fits_ok.
Qed.

(** ** Safety on arbitrary attribute bytes *)

Lemma mp_delta_loop_safe n m buf b d :
  0 <= buf + b + 1 - Z.of_nat n -> buf + b < zlen m -> exists d', mp_delta_loop n m buf b d = Some d'.
Proof.
  revert b d; induction n as [|n IH]; intros b d Hb Hm; cbn [mp_delta_loop]; [eauto|].
  destruct (zget_inside m (buf + b)) as [y ->]; [lia|]. apply IH; lia.
Qed.

Lemma mp_delta_safe m buf b lo :
  0 <= buf -> 0 <= lo < b -> buf + b < zlen m -> exists d, mp_delta m buf b lo = Some d.
Proof.
  intros Hb Hl Hm. unfold mp_delta. destruct (zget_inside m (buf + b)) as [x ->]; [lia|].
  apply mp_delta_loop_safe; lia.
Qed.

Lemma nibble_range h : 0 <= Z.land h 0xf <= 15.
Proof.
  pose proof (Z.land_ones h 4) as E. change (Z.ones 4) with 15 in E. rewrite E by lia.
  pose proof (Z.mod_pos_bound h (2 ^ 4)). lia.
Qed.

Lemma high_nibble h : is_byte h -> Z.land (Z.shiftr h 4) 0xf = 0 -> Z.land h 0xf0 = 0.
Proof.
  unfold is_byte. intros Hh H0. apply Z.bits_inj_0. intros i.
  assert (forall j, 0 <= j -> Z.testbit (Z.land (Z.shiftr h 4) 0xf) j = false) as Hb
    by (intros; rewrite H0; apply Z.bits_0).
  destruct (Z.lt_ge_cases i 0); [by apply Z.testbit_neg_r|]. rewrite Z.land_spec.
  destruct (Z.lt_ge_cases i 4) as [Hi|Hi].
  { assert (i = 0 \/ i = 1 \/ i = 2 \/ i = 3) as Hc by lia. repeat destruct Hc as [->|Hc]; try subst i; by rewrite andb_false_r. }
  specialize (Hb (i - 4) ltac:(lia)). rewrite Z.land_spec, Z.shiftr_spec in Hb by lia.
  replace (i - 4 + 4) with i in Hb by lia.
  replace (Z.testbit 240 i) with (Z.testbit 15 (i - 4)); [done|].
  change 240 with (Z.shiftl 15 4). rewrite Z.shiftl_spec by lia. done.
Qed.

Definition mp_loop_ok (rl : runlist) (rlpos rlsize : Z) : Prop :=
  rlpos = zlen rl /\ (zlen rl + 2) * 24 <= rlsize /\ zlen rl < 65534.

Lemma mp_store_ok rl rlpos rlsize e :
  rlpos = zlen rl -> (zlen rl + 3) * 24 <= rlsize -> zlen rl + 1 < 65534 ->
  mp_store rl rlpos rlsize e = Some (rl ++ [e]) /\ mp_loop_ok (rl ++ [e]) (u16 (rlpos + 1)) rlsize.
Proof.
  intros -> Hs Hn. pose proof (zlen_nonneg rl). rewrite mp_store_push by (done || lia). split; [done|].
  assert (zlen (rl ++ [e]) = zlen rl + 1) as Hz by by rewrite zlen_app.
  unfold mp_loop_ok, u16. rewrite wrap_u_small, Hz by lia. lia.
Qed.

(** The memory ends with the record, and the length or the LCN change of the
    element at [p] ends with it too: the code takes its last byte from behind. *)
Definition overreads (m : list Z) (attr_end : Z) : Prop :=
  zlen m = attr_end /\ exists p h, zget m p = Some h /\
    (Z.land h 0xf <> 0 /\ p + Z.land h 0xf = attr_end \/ Z.land h 0xf0 <> 0 /\ p + (Z.land h 0xf + Z.land (Z.shiftr h 4) 0xf) = attr_end).

Lemma mp_delta_outside m buf b lo : zlen m <= buf + b -> mp_delta m buf b lo = None.
Proof. intros Hb. unfold mp_delta. by rewrite zget_outside by lia. Qed.

Lemma mp_decompress_loop_safe fuel m attr_end buf rl rlpos rlsize v lcn :
  wf_bytes m -> 0 <= buf -> attr_end <= zlen m -> Z.max 0 (attr_end - buf) < Z.of_nat fuel ->
  mp_loop_ok rl rlpos rlsize -> zlen rl + Z.max 0 (attr_end - buf) < 65534 ->
  (exists r, mp_decompress_loop fuel m attr_end buf rl rlpos rlsize v lcn = Some r /\
    forall rl' rlpos' rlsize' v', r = Ok (rl', rlpos', rlsize', v') -> mp_loop_ok rl' rlpos' rlsize') \/
  (mp_decompress_loop fuel m attr_end buf rl rlpos rlsize v lcn = None /\ overreads m attr_end).
Proof.
  intros Hm. revert buf rl rlpos rlsize v lcn.
  induction fuel as [|f IH]; intros buf rl rlpos rlsize v lcn Hb Hae Hf (Hpos & Hcap & Hn) Hcnt; cbn [mp_decompress_loop].
  { lia. }
  destruct (Z.ltb_spec buf attr_end) as [Hlt|]; [|left; by eexists].
  destruct (zget_inside m buf) as [h Hh]; [lia|]. rewrite Hh. cbn [mbind option_bind].
  pose proof (zget_Forall _ _ _ _ Hm Hh) as Hhb.
  destruct (h =? 0); [left; eexists; split; [done|]; intros ? ? ? ? [= <- <- <- <-]; by unfold mp_loop_ok|].
  set (rlsize1 := if rlsize <? _ then _ else _).
  assert ((zlen rl + 3) * 24 <= rlsize1) as Hcap1
    by (unfold rlsize1, rl_element_size; subst rlpos; destruct (Z.ltb_spec rlsize ((zlen rl + 3) * 24)); lia).
  pose proof (nibble_range h) as Hb1. pose proof (nibble_range (Z.shiftr h 4)) as Hb2.
  set (b := Z.land h 0xf) in *. set (a := Z.land (Z.shiftr h 4) 0xf) in *.
  destruct (negb (b =? 0) && (attr_end <? buf + b)) eqn:Eg1; [left; by eexists|].
  assert ((exists length, (if negb (b =? 0) then mp_delta m buf b 0 else Some (-1)) = Some length) \/
          (if negb (b =? 0) then mp_delta m buf b 0 else Some (-1)) = None /\ overreads m attr_end) as [[length ->]|[-> Ho]].
  { destruct (Z.eqb_spec b 0) as [|Hb0]; cbn [negb]; [eauto|]. cbn in Eg1. apply Z.ltb_ge in Eg1. destruct (Z.lt_ge_cases (buf + b) (zlen m)).
    - left. apply mp_delta_safe; lia.
    - right. split; [by apply mp_delta_outside|]. split; [lia|]. exists buf, h. split; [done|]. left. split; [done | fold b; lia]. }
  2:{ by right. }
  cbn [mbind option_bind]. destruct (length <? 0); [left; by eexists|].
  destruct (Z.eqb_spec (Z.land h 0xf0) 0) as [Ez|Ez].
  - destruct (mp_store_ok rl rlpos rlsize1 (RL v LCN_HOLE length) Hpos Hcap1) as [-> Hok]; [lia|]. cbn [mbind option_bind].
    apply IH; try done; try lia. rewrite zlen_app. change (zlen [RL v LCN_HOLE length]) with 1. lia.
  - assert (a <> 0) as Ha by (intros Ha; apply Ez; by apply high_nibble).
    destruct (Z.ltb_spec attr_end (buf + (b + a))); [left; by eexists|].
    destruct (Z.lt_ge_cases (buf + (b + a)) (zlen m)) as [Hin|Hout].
    2:{ right. rewrite mp_delta_outside by done. split; [done|]. split; [lia|]. exists buf, h. split; [done|]. right. split; [done | fold a b; lia]. }
    destruct (mp_delta_safe m buf (b + a) b) as [d ->]; [lia..|]. cbn [mbind option_bind].
    destruct (s64 (lcn + d) <? -1); [left; by eexists|].
    destruct (mp_store_ok rl rlpos rlsize1 (RL v (s64 (lcn + d)) length) Hpos Hcap1) as [-> Hok]; [lia|]. cbn [mbind option_bind].
    apply IH; try done; try lia. rewrite zlen_app. change (zlen [RL v (s64 (lcn + d)) length]) with 1. lia.
Qed.

(** C7: Decompression of an attribute record of at most 65000 bytes, the header in memory, is memory
    safe whatever the record holds, and the walk ends: neither the record nor the
    growing runlist array is left, but for one byte.  When the memory ends with
    the record, and only then, a length or an LCN change that ends exactly with it
    takes its last byte from behind. *)
Theorem mapping_pairs_decompress_safe cs bits junk m length :
  wf_bytes m -> attr_length m = Some length -> 48 <= zlen m -> length <= zlen m -> length <= 65000 ->
  (exists r, ntfs_mapping_pairs_decompress cs bits junk m None = Some r) \/
  (ntfs_mapping_pairs_decompress cs bits junk m None = None /\ overreads m length).
Proof.
  intros Hm Hl H48 Hlen Hmax. unfold ntfs_mapping_pairs_decompress, ntfs_mapping_pairs_decompress_i.
  unfold attr_non_resident, attr_lowest_vcn, attr_mapping_pairs_offset, sle64_to_cpup, le16_to_cpup.
  destruct (zget_inside m 8) as [n ->]; [lia|]. cbn [mbind option_bind].
  destruct (ld_inside 8 m 16) as [lo ->]; [lia..|]. cbn [mbind option_bind].
  destruct ((n =? 0) || (s64 lo <? 0)); [left; eauto|].
  destruct (ld_inside 2 m 32) as [off Hoff]; [lia..|]. rewrite Hoff, Hl. cbn [mbind option_bind].
  pose proof (ld_range _ _ _ _ Hm Hoff). destruct (Z.ltb_spec off 0); [lia|]. cbn [orb].
  destruct (Z.ltb_spec length off); [left; eauto|].
  set (p0 := if negb (s64 lo =? 0) then 1 else 0).
  assert (exists rl, (if negb (s64 lo =? 0) then mp_store [] 0 0x1000 (RL 0 LCN_RL_NOT_MAPPED (s64 lo))
                      else Some []) = Some rl /\ mp_loop_ok rl p0 0x1000 /\ zlen rl <= 1) as (rl & -> & Hok & Hz).
  { unfold p0. destruct (s64 lo =? 0); cbn [negb].
    - exists []. by split_and!.
    - eexists. split_and!; [done | by split_and! | done]. }
  cbn [mbind option_bind].
  destruct (mp_decompress_loop_safe (S (Datatypes.length m)) m length off rl p0 0x1000 (s64 lo) 0) as [(r & -> & Hr)|[-> Ho]];
    try done; try (unfold zlen in *; lia); [|by right].
  left.
  cbn [mbind option_bind]. destruct r as [[[[rl' p'] sz'] v']|e]; [|eauto].
  destruct (Hr _ _ _ _ eq_refl) as (-> & Hcap & Hn). pose proof (zlen_nonneg rl').
  assert (exists r, mp_finish cs bits m rl' (zlen rl') sz' v' (s64 lo) = Some r) as [[] ->];
    [| cbn [mbind option_bind]; eauto..].
  unfold mp_finish, attr_highest_vcn, attr_allocated_size, sle64_to_cpup.
  destruct (ld_inside 8 m 24) as [hi ->]; [lia..|]. cbn [mbind option_bind].
  destruct (_ && _); [eauto|]. destruct (s64 lo =? 0).
  - destruct (ld_inside 8 m 40) as [al ->]; [lia..|]. cbn [mbind option_bind].
    destruct (_ <? _).
    + rewrite mp_store_push by (done || lia). cbn [mbind option_bind].
      unfold u16. rewrite wrap_u_small by lia.
      rewrite mp_store_push by (rewrite ?zlen_app, ?zlen_cons, ?(@zlen_nil runlist_element); lia). eauto.
    + destruct (_ <? _); [eauto|]. rewrite mp_store_push by (done || lia). cbn. eauto.
  - rewrite mp_store_push by (done || lia). cbn. eauto.
Qed.

Definition example_runs : runlist := [RL 0 1000 16; RL 16 LCN_HOLE 8; RL 24 300 200].

Lemma example_wf : wf_rl 0 example_runs (RL 224 LCN_ENOENT 0).
Proof. split; cbn; lia. Qed.

Lemma example_fits : Forall run_fits example_runs.
Proof. repeat constructor; cbn; lia || (unfold LCN_HOLE; lia). Qed.

Lemma mapping_pairs_build_correct_witness :
  exists rdone todo m' stop, runs_from example_runs 20 = rdone ++ todo /\
    ntfs_mapping_pairs_build 3 (replicate 16 255) 2 6 (Some (example_runs ++ [RL 224 LCN_ENOENT 0])) 20
      = Some (m', mp_status todo, Some stop) /\
    mp_skip (example_runs ++ [RL 224 LCN_ENOENT 0]) (runs_end 20 rdone) = Some stop /\
    mp_fits 3 rdone todo 0 2 (2 + 6 - 1) /\
    holds m' 2 (mp_encode 3 0 rdone ++ [0]) /\ frame (replicate 16 255) m' 2 (2 + 6).
Proof.
  apply (mapping_pairs_build_correct 3 0 example_runs (RL 224 LCN_ENOENT 0) [] (replicate 16 255) 2 6 20);
    [exact example_wf | lia | cbn; lia | exact example_fits | lia.. | vm_compute; discriminate].
Defined.

Lemma size_for_mapping_pairs_correct_witness :
  exists r, ntfs_get_size_for_mapping_pairs 3 (Some (example_runs ++ [RL 224 LCN_ENOENT 0])) 20 100 = Some (Ok r) /\
    if zlen (mp_encode 3 0 (runs_from example_runs 20) ++ [0]) <=? 100
    then r = zlen (mp_encode 3 0 (runs_from example_runs 20) ++ [0])
    else 100 < r <= zlen (mp_encode 3 0 (runs_from example_runs 20) ++ [0]).
Proof.
  apply (size_for_mapping_pairs_correct 3 0 example_runs (RL 224 LCN_ENOENT 0) [] 20 100);
    [exact example_wf | lia | cbn; lia | exact example_fits | lia].
Defined.

(** An attribute record of 96 bytes whose mapping pairs start at 64. *)
Definition example_attr : list Z :=
  le_encode 4 128 ++ le_encode 4 96 ++ [1; 0] ++ le_encode 6 0 ++ le_encode 8 0 ++ le_encode 8 223
  ++ le_encode 2 64 ++ le_encode 6 0 ++ le_encode 8 (224 * 4096) ++ le_encode 16 0 ++ replicate 32 255.

Lemma mapping_pairs_roundtrip_witness :
  exists m' stop,
    ntfs_mapping_pairs_build 3 example_attr 64 32 (Some (example_runs ++ [RL 224 LCN_ENOENT 0])) 0 = Some (m', Ok tt, stop) /\
    ntfs_mapping_pairs_decompress 4096 12 (RL 0 0 0) m' None
      = Some (Ok (Some (mp_head 0 ++ example_runs ++ mp_tail 0 (runs_end 0 example_runs) (num_clusters 4096 12 (224 * 4096))))).
Proof.
  eexists _, _. split; [vm_compute; reflexivity|].
  refine (mapping_pairs_roundtrip 4096 12 (RL 0 0 0) 3 example_attr _ _ 96 0 223 64 (224 * 4096) example_runs
    (RL 224 LCN_ENOENT 0) [] 32 _ _ _ _ _ _ example_wf _ example_fits _ _ _ _ _).
  - split; try reflexivity. by exists 1.
  - lia.
  - vm_compute; discriminate.
  - lia.
  - lia.
  - lia.
  - lia.
  - vm_compute; reflexivity.
  - vm_compute; reflexivity.
  - by right.
  - intros _. vm_compute. intuition discriminate.
  - vm_compute; reflexivity.
Defined.

Definition ones_attr : list Z := replicate 4 0 ++ le_encode 4 90 ++ replicate 120 1.

Lemma mapping_pairs_decompress_safe_witness : exists r, ntfs_mapping_pairs_decompress 4096 12 (RL 0 0 0) ones_attr None = Some r.
Proof.
  destruct (mapping_pairs_decompress_safe 4096 12 (RL 0 0 0) ones_attr 90) as [H|[_ [H _]]]; [wf_concrete | reflexivity | vm_compute; discriminate.. | exact H |].
  vm_compute in H. discriminate H.
Defined.

(** A record of 72 bytes with the memory: the length of its first run has one byte, the one behind the record. *)
Example decompress_overreads : let m := replicate 4 0 ++ le_encode 4 72 ++ [1] ++ replicate 23 0 ++ le_encode 2 71 ++ replicate 37 0 ++ [1] in
  zlen m = 72 /\ ntfs_mapping_pairs_decompress 4096 12 (RL 0 0 0) m None = None.
Proof. by vm_compute. Qed.
