(* ===== verification/Device.v ===== *)
(** Devices (libntfs-3g/device.c): positioned, multi-sector protected and
    cluster I/O on top of the operations a device driver provides.

    The drivers (unix_io.c, win32_io.c) only make system calls; they are the
    interface [DeviceOps], whose laws [DeviceLaws] say what POSIX promises of
    pread and pwrite: short counts are possible, but the bytes that are counted
    are the bytes of the device. *)

From S2P Require Import Prelude Mst.
Local Open Scope Z_scope.
Local Open Scope c_scope.
Set Default Proof Using "Type*".

(** struct ntfs_device_operations.  A read returns the bytes it got (fewer than
    asked, none at the end of the device), a write how many it accepted. *)
Class DeviceOps (D : Type) := {
  dev_pread : D -> Z -> Z -> D * result (list Z);
  dev_pwrite : D -> Z -> list Z -> D * result Z;
  dev_sync : D -> D * result unit;
  (** The bytes of the device: the abstraction the laws speak of. *)
  dev_data : D -> list Z }.

Class DeviceLaws (D : Type) `{DeviceOps D} := {
  pread_law : forall d pos n d' r, 0 <= pos -> 0 < n -> dev_pread d pos n = (d', r) ->
    dev_data d' = dev_data d /\
    match r with Ok bs => zlen bs <= n /\ holds (dev_data d) pos bs | Err _ => True end;
  pwrite_law : forall d pos bs d' r, 0 <= pos -> bs <> [] -> dev_pwrite d pos bs = (d', r) ->
    match r with
    | Ok n => 0 <= n <= zlen bs /\ zwrite (dev_data d) pos (take (Z.to_nat n) bs) = Some (dev_data d')
    | Err _ => dev_data d' = dev_data d
    end;
  sync_law : forall d d' r, dev_sync d = (d', r) -> dev_data d' = dev_data d }.

(** The part of struct ntfs_device that the code reads and writes: the driver
    state and the flags of d_state. *)
Record ntfs_device (D : Type) := Dev {
  d_private : D; NDevReadOnly : bool; NDevSync : bool; NDevDirty : bool }.
Arguments Dev {D} d_private NDevReadOnly NDevSync NDevDirty.
Arguments d_private {D} n.
Arguments NDevReadOnly {D} n.
Arguments NDevSync {D} n.
Arguments NDevDirty {D} n.

Definition set_private {D} (d : ntfs_device D) (p : D) : ntfs_device D :=
  Dev p (NDevReadOnly d) (NDevSync d) (NDevDirty d).
Definition NDevSetDirty {D} (d : ntfs_device D) : ntfs_device D :=
  Dev (d_private d) (NDevReadOnly d) (NDevSync d) true.

Section ops.
Context {D : Type} `{!DeviceOps D}.
Implicit Types dev : ntfs_device D.

Definition data dev : list Z := dev_data (d_private dev).

Definition ntfs_device_sync dev : ntfs_device D * result unit :=
  if NDevDirty dev then
    let '(p, r) := dev_sync (d_private dev) in (set_private dev p, r)
  else (dev, Ok tt).

(** [for (total = 0; count; count -= br, total += br)]; the buffer is the byte
    list [b] from index [ofs]. *)
Fixpoint pread_loop (fuel : nat) dev (pos count : Z) (b : list Z) (ofs total : Z)
    : option (ntfs_device D * list Z * result Z) :=
  match fuel with
  | O => None
  | S f =>
      if count =? 0 then Some (dev, b, Ok total)
      else
        let '(p, r) := dev_pread (d_private dev) (pos + total) count in
        let dev := set_private dev p in
        match r with
        | Ok bs =>
            if 0 <? zlen bs then
              b ← zwrite b (ofs + total) bs;
              pread_loop f dev pos (count - zlen bs) b ofs (total + zlen bs)
            else Some (dev, b, Ok total)
        | Err e => if negb (total =? 0) then Some (dev, b, Ok total) else Some (dev, b, Err e)
        end
  end.

(** [None] as the buffer is the NULL pointer. *)
Definition ntfs_pread dev (pos count : Z) (ob : option (list Z)) (ofs : Z)
    : option (ntfs_device D * list Z * result Z) :=
  match ob with
  | None => Some (dev, [], Err EINVAL)
  | Some b =>
      if (count <? 0) || (pos <? 0) then Some (dev, b, Err EINVAL)
      else if count =? 0 then Some (dev, b, Ok 0)
      else pread_loop (S (Z.to_nat count)) dev pos count b ofs 0
  end.

Fixpoint pwrite_loop (fuel : nat) dev (pos count : Z) (b : list Z) (ofs total : Z)
    : option (ntfs_device D * result Z) :=
  match fuel with
  | O => None
  | S f =>
      if count =? 0 then Some (dev, Ok total)
      else
        bs ← zread b (ofs + total) count;
        let '(p, r) := dev_pwrite (d_private dev) (pos + total) bs in
        let dev := set_private dev p in
        match r with
        | Ok written =>
            if 0 <? written then pwrite_loop f dev pos (count - written) b ofs (total + written)
            else Some (dev, Ok total)
        | Err e => if negb (total =? 0) then Some (dev, Ok total) else Some (dev, Err e)
        end
  end.

(** The return value is an s64: [Err _] stands for -1 and [Ok n] for any other
    [n], so that a failing sync turns [Ok n] into [Ok (n - 1)] and -1 into
    [Ok (-2)]. *)
Definition ntfs_pwrite dev (pos count : Z) (ob : option (list Z)) (ofs : Z)
    : option (ntfs_device D * result Z) :=
  match ob with
  | None => Some (dev, Err EINVAL)
  | Some b =>
      if (count <? 0) || (pos <? 0) then Some (dev, Err EINVAL)
      else if count =? 0 then Some (dev, Ok 0)
      else if NDevReadOnly dev then Some (dev, Err EROFS)
      else
        out ← pwrite_loop (S (Z.to_nat count)) (NDevSetDirty dev) pos count b ofs 0;
        let '(dev, r) := out in
        if NDevSync dev && negb (match r with Ok total => total =? 0 | Err _ => false end) then
          let '(p, s) := dev_sync (d_private dev) in
          let dev := set_private dev p in
          match s, r with
          | Err e, Ok total => Some (dev, Ok (total - 1))
          | Err e, Err _ => Some (dev, Ok (-2))
          | Ok _, _ => Some (dev, r)
          end
        else Some (dev, r)
  end.

(** ** Multi-sector protected blocks *)

(** The fixups of block [i] of a buffer of [bksize]-byte blocks. *)
Definition on_block {A} (b : list Z) (i bksize : Z) (f : list Z -> option (list Z * A)) : option (list Z * A) :=
  blk ← zread b (i * bksize) bksize;
  r ← f blk;
  b ← zwrite b (i * bksize) (fst r);
  Some (b, snd r).

(** [for (i = 0; i < count; ++i) ntfs_mst_post_read_fixup(b + i * bksize, bksize);] *)
Fixpoint post_read_blocks (n : nat) (b : list Z) (i bksize : Z) : option (list Z) :=
  match n with
  | O => Some b
  | S n =>
      r ← on_block b i bksize (fun blk => ntfs_mst_post_read_fixup blk bksize);
      post_read_blocks n (fst r) (i + 1) bksize
  end.

(** The division by [bksize] is a trap when it is zero. *)
Definition ntfs_mst_pread dev (pos count bksize : Z) (ob : option (list Z))
    : option (ntfs_device D * list Z * result Z) :=
  if negb (Z.land bksize (u32 (bksize - 1)) =? 0) || negb (bksize mod NTFS_BLOCK_SIZE =? 0)
  then Some (dev, default [] ob, Err EINVAL)
  else
    out ← ntfs_pread dev pos (s64 (count * bksize)) ob 0;
    let '(dev, b, r) := out in
    match r with
    | Err e => Some (dev, b, Err e)
    | Ok br =>
        if bksize =? 0 then None
        else
          let count := br / bksize in
          b ← post_read_blocks (Z.to_nat count) b 0 bksize;
          Some (dev, b, Ok count)
    end.

(** Protect blocks from [i] on; stops at the first one that cannot be, and
    returns the number of protected blocks or the error of the first. *)
Fixpoint pre_write_blocks (n : nat) (b : list Z) (i bksize : Z) : option (list Z * result Z) :=
  match n with
  | O => Some (b, Ok i)
  | S n =>
      r ← on_block b i bksize (fun blk => ntfs_mst_pre_write_fixup (Some blk) bksize);
      match snd r with
      | Ok _ => pre_write_blocks n (fst r) (i + 1) bksize
      | Err e => Some (fst r, if i =? 0 then Err e else Ok i)
      end
  end.

Fixpoint post_write_blocks (n : nat) (b : list Z) (i bksize : Z) : option (list Z) :=
  match n with
  | O => Some b
  | S n =>
      r ← on_block b i bksize (fun blk => b ← ntfs_mst_post_write_fixup blk; Some (b, tt));
      post_write_blocks n (fst r) (i + 1) bksize
  end.

Definition ntfs_mst_pwrite dev (pos count bksize : Z) (b : list Z)
    : option (ntfs_device D * list Z * result Z) :=
  if (count <? 0) || negb (bksize mod NTFS_BLOCK_SIZE =? 0) then Some (dev, b, Err EINVAL)
  else if count =? 0 then Some (dev, b, Ok 0)
  else
    r ← pre_write_blocks (Z.to_nat count) b 0 bksize;
    match r with
    | (b, Err e) => Some (dev, b, Err e)
    | (b, Ok count) =>
        out ← ntfs_pwrite dev pos (s64 (count * bksize)) (Some b) 0;
        let '(dev, written) := out in
        b ← post_write_blocks (Z.to_nat count) b 0 bksize;
        match written with
        | Err e => Some (dev, b, Err e)
        | Ok w =>
            if w <=? 0 then Some (dev, b, Ok w)
            else if bksize =? 0 then None
            else Some (dev, b, Ok (w / bksize))
        end
    end.

(** ** Clusters *)

Section volume.
Context (cluster_size_bits nr_clusters : Z) (NVolReadOnly : bool).

Definition ntfs_cluster_read dev (lcn count : Z) (b : list Z)
    : option (ntfs_device D * list Z * result Z) :=
  if (lcn <? 0) || (count <? 0) then Some (dev, b, Err EINVAL)
  else if nr_clusters <? s64 (lcn + count) then Some (dev, b, Err ESPIPE)
  else
    out ← ntfs_pread dev (s64 (Z.shiftl lcn cluster_size_bits)) (s64 (Z.shiftl count cluster_size_bits)) (Some b) 0;
    let '(dev, b, r) := out in
    Some (dev, b, match r with Ok br => Ok (Z.shiftr br cluster_size_bits) | Err e => Err e end).

Definition ntfs_cluster_write dev (lcn count : Z) (b : list Z) : option (ntfs_device D * result Z) :=
  if (lcn <? 0) || (count <? 0) then Some (dev, Err EINVAL)
  else if nr_clusters <? s64 (lcn + count) then Some (dev, Err ESPIPE)
  else
    out ← (if negb NVolReadOnly
           then ntfs_pwrite dev (s64 (Z.shiftl lcn cluster_size_bits)) (s64 (Z.shiftl count cluster_size_bits)) (Some b) 0
           else Some (dev, Ok (s64 (Z.shiftl count cluster_size_bits))));
    let '(dev, r) := out in
    Some (dev, match r with
               | Ok bw => if bw <? 0 then Ok bw else Ok (Z.shiftr bw cluster_size_bits)
               | Err e => Err e
               end).

End volume.
End ops.

(** ** Reads *)

Section theory.
Context {D : Type} `{!DeviceOps D} `{!DeviceLaws D}.
Implicit Types dev : ntfs_device D.

Definition same_flags dev dev' : Prop :=
  NDevReadOnly dev' = NDevReadOnly dev /\ NDevSync dev' = NDevSync dev.

(** [n] bytes of the device from [pos] are in [b'] at [ofs], which is
    otherwise [b]. *)
Definition read_into (m b b' : list Z) (pos ofs n : Z) : Prop :=
  frame b b' ofs (ofs + n) /\ forall j, 0 <= j < n -> exists x, b'.[ofs + j] = Some x /\ m.[pos + j] = Some x.

Lemma read_into_0 m b pos ofs : read_into m b b pos ofs 0.
Proof. split; [apply frame_refl|]. intros j Hj. lia. Qed.

Lemma read_into_step m b b1 b2 pos ofs bs n :
  0 <= pos -> holds m pos bs -> zwrite b ofs bs = Some b1 -> 0 <= n ->
  read_into m b1 b2 (pos + zlen bs) (ofs + zlen bs) n -> read_into m b b2 pos ofs (zlen bs + n).
Proof.
  intros Hpos Hh Hw Hn [Hf Hr]. pose proof (zlen_nonneg bs). split.
  - eapply frame_trans; [by eapply zwrite_frame | exact Hf | lia..].
  - intros j Hj. destruct (Z.lt_ge_cases j (zlen bs)).
    + destruct (zget_inside bs j) as [x Hx]; [lia|]. exists x. split.
      * destruct Hf as [_ Hg]. rewrite Hg by lia. rewrite (zwrite_get _ _ _ _ _ Hw) by lia. done.
      * rewrite Hh by lia. done.
    + destruct (Hr (j - zlen bs)) as (x & H1 & H2); [lia|]. exists x.
      by replace (ofs + j) with (ofs + zlen bs + (j - zlen bs)) by lia;
      replace (pos + j) with (pos + zlen bs + (j - zlen bs)) by lia.
Qed.

Lemma pread_loop_spec fuel dev pos count b ofs total :
  (Z.to_nat count < fuel)%nat -> 0 <= count -> 0 <= pos -> 0 <= ofs -> 0 <= total ->
  ofs + total + count <= zlen b ->
  exists dev' b' r, pread_loop fuel dev pos count b ofs total = Some (dev', b', r) /\
    data dev' = data dev /\ same_flags dev dev' /\ NDevDirty dev' = NDevDirty dev /\
    match r with
    | Ok n => total <= n <= total + count /\ read_into (data dev) b b' (pos + total) (ofs + total) (n - total)
    | Err _ => total = 0 /\ b' = b
    end.
Proof.
  revert dev count b total; induction fuel as [|f IH]; intros dev count b total Hf Hc Hp Ho Ht Hb; [lia|].
  cbn [pread_loop]. destruct (Z.eqb_spec count 0) as [->|Hc0].
  { exists dev, b, (Ok total). split_and!; try done; try lia. replace (total - total) with 0 by lia. apply read_into_0. }
  destruct (dev_pread (d_private dev) (pos + total) count) as [p r] eqn:E.
  apply pread_law in E as [Hd Hr]; [|lia..].
  destruct r as [bs|e].
  2: { destruct (Z.eqb_spec total 0); cbn [negb].
       - exists (set_private dev p), b, (Err e). by split_and!.
       - exists (set_private dev p), b, (Ok total). split_and!; try done; try lia.
         replace (total - total) with 0 by lia. apply read_into_0. }
  destruct Hr as [Hlen Hh]. destruct (Z.ltb_spec 0 (zlen bs)).
  2: { exists (set_private dev p), b, (Ok total). split_and!; try done; try lia.
       replace (total - total) with 0 by lia. apply read_into_0. }
  destruct (zwrite b (ofs + total) bs) as [b1|] eqn:Ew; [|rewrite zwrite_inside in Ew by lia; done].
  cbn [mbind option_bind]. pose proof (zwrite_frame _ _ _ _ Ew) as [Hl1 _].
  destruct (IH (set_private dev p) (count - zlen bs) b1 (total + zlen bs)) as (dev' & b' & r & E2 & Hd2 & [Hf1 Hf2] & Hdi & Hres); [lia..|].
  exists dev', b', r. rewrite E2. split_and!; try done; [by rewrite Hd2|].
  destruct r as [n|e]; [|lia]. destruct Hres as [Hn Hri]. split; [lia|].
  replace (n - total) with (zlen bs + (n - (total + zlen bs))) by lia.
  apply (read_into_step _ _ b1); [lia | exact Hh | done | lia |].
  rewrite !Z.add_assoc in Hri. unfold data in Hri. cbn [d_private set_private] in Hri. by rewrite Hd in Hri.
Qed.

Lemma ntfs_pread_spec dev pos count b ofs :
  0 <= count -> 0 <= pos -> 0 <= ofs -> ofs + count <= zlen b ->
  exists dev' b' r, ntfs_pread dev pos count (Some b) ofs = Some (dev', b', r) /\
    data dev' = data dev /\ same_flags dev dev' /\ NDevDirty dev' = NDevDirty dev /\
    match r with
    | Ok n => 0 <= n <= count /\ read_into (data dev) b b' pos ofs n
    | Err _ => b' = b
    end.
Proof.
  intros Hc Hp Ho Hb. unfold ntfs_pread. rewrite (proj2 (Z.ltb_ge count 0)), (proj2 (Z.ltb_ge pos 0)) by lia. cbn [orb].
  destruct (Z.eqb_spec count 0) as [->|].
  { exists dev, b, (Ok 0). split_and!; try done; try lia. apply read_into_0. }
  destruct (pread_loop_spec (S (Z.to_nat count)) dev pos count b ofs 0) as (dev' & b' & r & E & Hd & Hf & Hdi & Hr); [lia..|].
  exists dev', b', r. split_and!; try done. destruct r; [|tauto].
  rewrite !Z.add_0_r, Z.sub_0_r, Z.add_0_l in Hr. exact Hr.
Qed.

(** ** Writes *)

(** The first [n] bytes of [b] from [ofs] have gone to the device at [pos]. *)
Definition written_from (m m' b : list Z) (pos ofs n : Z) : Prop :=
  exists xs, zread b ofs n = Some xs /\ zwrite m pos xs = Some m'.

Lemma zread_0 {A} (b : list A) ofs : 0 <= ofs <= zlen b -> zread b ofs 0 = Some [].
Proof. intros. by rewrite zread_inside by lia. Qed.

Lemma zread_app {A} (b : list A) ofs n1 n2 xs1 xs2 :
  zread b ofs n1 = Some xs1 -> zread b (ofs + n1) n2 = Some xs2 -> zread b ofs (n1 + n2) = Some (xs1 ++ xs2).
Proof.
  intros H1%zread_Some H2%zread_Some. destruct H1 as (A1 & A2 & A3 & A4 & A5), H2 as (B1 & B2 & B3 & B4 & B5).
  assert (holds b ofs (xs1 ++ xs2)) as Hh.
  { apply holds_app. split; intros j Hj; [rewrite A5 by lia; done | rewrite B5 by lia; by rewrite A4]. }
  apply holds_zread in Hh; [|done | rewrite zlen_app; lia]. rewrite zlen_app, A4, B4 in Hh. exact Hh.
Qed.

Lemma zread_take {A} (b : list A) ofs n xs k :
  zread b ofs n = Some xs -> 0 <= k <= n -> zread b ofs k = Some (take (Z.to_nat k) xs).
Proof.
  intros H Hk. pose proof (zread_Some _ _ _ _ H) as (A1 & A2 & A3 & A4 & A5).
  rewrite zread_inside in H by lia. injection H as <-. rewrite zread_inside by lia. f_equal.
  rewrite take_take. f_equal. lia.
Qed.

Lemma pwrite_loop_spec fuel dev pos count b ofs total :
  (Z.to_nat count < fuel)%nat -> 0 <= count -> 0 <= pos -> 0 <= ofs -> 0 <= total ->
  ofs + total + count <= zlen b -> 0 <= pos + total <= zlen (data dev) ->
  exists dev' r, pwrite_loop fuel dev pos count b ofs total = Some (dev', r) /\ same_flags dev dev' /\
    NDevDirty dev' = NDevDirty dev /\
    match r with
    | Ok n => total <= n <= total + count /\
        written_from (data dev) (data dev') b (pos + total) (ofs + total) (n - total)
    | Err _ => total = 0 /\ data dev' = data dev
    end.
Proof.
  revert dev count total; induction fuel as [|f IH]; intros dev count total Hf Hc Hp Ho Ht Hb Hpt; [lia|].
  assert (forall dev', data dev' = data dev -> written_from (data dev) (data dev') b (pos + total) (ofs + total) (total - total)) as H0.
  { intros dev' ->. exists []. rewrite Z.sub_diag. split; [apply zread_0; lia | apply zwrite_nil; lia]. }
  cbn [pwrite_loop]. destruct (Z.eqb_spec count 0) as [->|Hc0].
  { exists dev, (Ok total). split_and!; try done; try lia. by apply H0. }
  destruct (zread b (ofs + total) count) as [bs|] eqn:Eb; [|rewrite zread_inside in Eb by lia; done].
  cbn [mbind option_bind]. pose proof (zread_Some _ _ _ _ Eb) as (_ & _ & _ & Hlen & _).
  destruct (dev_pwrite (d_private dev) (pos + total) bs) as [p r] eqn:E.
  apply pwrite_law in E; [|lia | intros ->; change (@zlen Z []) with 0 in Hlen; lia].
  destruct r as [w|e].
  2: { destruct (Z.eqb_spec total 0); cbn [negb].
       - exists (set_private dev p), (Err e). by split_and!.
       - exists (set_private dev p), (Ok total). split_and!; try done; try lia. by apply H0. }
  destruct E as [Hw Hz]. destruct (Z.ltb_spec 0 w).
  2: { exists (set_private dev p), (Ok total). split_and!; try done; try lia. apply H0.
       replace w with 0 in Hz by lia. change (take (Z.to_nat 0) bs) with (@nil Z) in Hz. rewrite zwrite_nil in Hz by (unfold data in Hpt; lia). injection Hz as Hz; unfold data; cbn [d_private set_private]; by symmetry. }
  assert (zlen (take (Z.to_nat w) bs) = w) as Htw by (unfold zlen in *; rewrite length_take; lia).
  pose proof (zwrite_Some _ _ _ _ Hz) as (_ & Hbd & Hld & _). rewrite Htw in Hbd.
  destruct (IH (set_private dev p) (count - w) (total + w)) as (dev' & r & E2 & [Hf1 Hf2] & Hdi & Hres);
    [lia.. | unfold data in *; cbn [d_private set_private]; lia |].
  exists dev', r. rewrite E2. split_and!; try done. destruct r as [n|e]; [|lia].
  destruct Hres as [Hn (xs & Hx1 & Hx2)]. split; [lia|]. exists (take (Z.to_nat w) bs ++ xs). split.
  - replace (n - total) with (w + (n - (total + w))) by lia. apply zread_app.
    + apply (zread_take _ _ count); [done | lia].
    + by rewrite <-Z.add_assoc.
  - apply (zwrite_app _ _ _ _ (dev_data p)); [exact Hz|]. rewrite Htw, <-Z.add_assoc. exact Hx2.
Qed.

(** What a positioned write leaves: [Ok m] reports [n] bytes written, or one
    less when the device is synchronous and the final sync failed. *)
Lemma ntfs_pwrite_spec dev pos count b ofs :
  0 <= count -> 0 <= pos <= zlen (data dev) -> 0 <= ofs -> ofs + count <= zlen b ->
  exists dev' r, ntfs_pwrite dev pos count (Some b) ofs = Some (dev', r) /\ same_flags dev dev' /\
    if (0 <? count) && NDevReadOnly dev then r = Err EROFS /\ dev' = dev
    else
      (0 < count -> NDevDirty dev' = true) /\
      match r with
      | Ok m => (m = -2 /\ NDevSync dev = true /\ data dev' = data dev) \/
          exists n, 0 <= n <= count /\ (m = n \/ (m = n - 1 /\ 0 < n /\ NDevSync dev = true)) /\
            written_from (data dev) (data dev') b pos ofs n
      | Err _ => data dev' = data dev
      end.
Proof.
  intros Hc Hp Ho Hb. unfold ntfs_pwrite. rewrite (proj2 (Z.ltb_ge count 0)), (proj2 (Z.ltb_ge pos 0)) by lia. cbn [orb].
  destruct (Z.eqb_spec count 0) as [->|].
  { exists dev, (Ok 0). split_and!; try done. cbn [Z.ltb Z.compare andb]. split; [lia|]. right. exists 0. split_and!; try lia.
    exists []. split; [apply zread_0; lia | by apply zwrite_nil]. }
  rewrite (proj2 (Z.ltb_lt 0 count)) by lia. cbn [andb]. destruct (NDevReadOnly dev) eqn:Ero; [by exists dev, (Err EROFS)|].
  destruct (pwrite_loop_spec (S (Z.to_nat count)) (NDevSetDirty dev) pos count b ofs 0) as (dev' & r & E & [Hf1 Hf2] & Hdi & Hr);
    try lia; [change (data (NDevSetDirty dev)) with (data dev); lia|].
  rewrite E. cbn [mbind option_bind]. rewrite !Z.add_0_r in Hr. change (data (NDevSetDirty dev)) with (data dev) in Hr.
  cbn [NDevReadOnly NDevSync NDevDirty NDevSetDirty] in Hf1, Hf2, Hdi.
  destruct (NDevSync dev' && _) eqn:Es.
  - destruct (dev_sync (d_private dev')) as [p s] eqn:Esy. apply sync_law in Esy.
    assert (data (set_private dev' p) = data dev') as Hd by done.
    apply andb_true_iff in Es as [Es1 Es2].
    destruct s as [tt'|e]; destruct r as [k|e2]; (eexists _, _; split; [done|]; split; [done|]; split; [by intros|]); rewrite ?Hd; try tauto.
    + right. exists k. rewrite Z.sub_0_r in Hr. tauto.
    + right. exists k. rewrite Z.sub_0_r in Hr. destruct (Z.eqb_spec k 0); [done|]. split; [tauto|]. split; [|tauto]. right.
      rewrite Hf2 in Es1. split_and!; [lia | lia | done].
    + left. split_and!; [done | congruence | tauto].
  - exists dev', r. split; [done|]. split; [done|]. split; [by intros|]. destruct r as [k|e]; [|tauto].
    right. exists k. rewrite Z.sub_0_r in Hr. tauto.
Qed.

(** ** Blocks *)

Lemma on_block_spec {A} (pre blk post : list Z) i bksize (f : list Z -> option (list Z * A)) blk' a :
  i * bksize = zlen pre -> zlen blk = bksize -> f blk = Some (blk', a) -> zlen blk' = bksize ->
  on_block (pre ++ blk ++ post) i bksize f = Some (pre ++ blk' ++ post, a).
Proof.
  intros Hi Hb Hf Hb'. unfold on_block. rewrite zread_mid by done. cbn [mbind option_bind].
  rewrite Hf. cbn [mbind option_bind fst snd]. rewrite zwrite_mid by congruence. done.
Qed.

Lemma on_block_inv {A} (pre blk post : list Z) i bksize (f : list Z -> option (list Z * A)) b a :
  i * bksize = zlen pre -> zlen blk = bksize -> on_block (pre ++ blk ++ post) i bksize f = Some (b, a) ->
  exists blk', f blk = Some (blk', a).
Proof.
  intros Hi Hb. unfold on_block. rewrite zread_mid by done. cbn [mbind option_bind].
  destruct (f blk) as [[blk' a']|]; cbn [mbind option_bind]; [|done].
  destruct (zwrite _ _ _); cbn; [|done]. intros [= _ <-]. eauto.
Qed.

(** A block that protection accepts: a well-formed record whose update
    sequence array lies after the record header. *)
Record mst_block (bksize : Z) (blk : list Z) : Prop := {
  mb_wf : wf_bytes blk;
  mb_len : zlen blk = bksize;
  mb_ofs : exists ofs cnt, rec_usa_ofs blk = Some ofs /\ rec_usa_count blk = Some cnt /\ 8 <= ofs }.

(** [blk1] is the protected form of [blk] and [blk2] its deprotected form,
    which agrees with [blk] outside the update sequence array. *)
Definition mst_images (bksize : Z) (blk blk1 blk2 : list Z) : Prop :=
  ntfs_mst_pre_write_fixup (Some blk) bksize = Some (blk1, Ok tt) /\
  ntfs_mst_post_write_fixup blk1 = Some blk2 /\
  ntfs_mst_post_read_fixup blk1 bksize = Some (blk2, Ok tt) /\
  zlen blk1 = bksize /\ zlen blk2 = bksize /\
  forall ofs cnt, rec_usa_ofs blk = Some ofs -> rec_usa_count blk = Some cnt ->
    forall j, ~ usa_byte ofs cnt j -> blk2.[j] = blk.[j].

Lemma mst_block_images bksize blk blk1 :
  mst_block bksize blk -> ntfs_mst_pre_write_fixup (Some blk) bksize = Some (blk1, Ok tt) ->
  exists blk2, mst_images bksize blk blk1 blk2.
Proof.
  intros [Hw Hl (ofs & cnt & Ho & Hc & H8)] H.
  destruct (mst_block_roundtrip blk bksize blk1 ofs cnt Hw Hl Ho Hc H8 H) as (blk2 & H1 & H2 & H3 & H4).
  destruct (pre_write_inv _ _ _ H Hw Hl) as (? & ? & ? & _ & _ & _ & _ & P).
  exists blk2. split_and!; try done; [by rewrite (pr_zlen _ _ _ _ _ P) | congruence |].
  intros ofs' cnt' Ho' Hc'. rewrite Ho in Ho'. rewrite Hc in Hc'. injection Ho' as <-. injection Hc' as <-. exact H4.
Qed.

Lemma pre_write_blocks_spec bksize blks pre i b1 n :
  0 < bksize -> 0 <= i -> Forall (mst_block bksize) blks -> i * bksize = zlen pre ->
  pre_write_blocks (length blks) (pre ++ concat blks) i bksize = Some (b1, Ok n) -> n = i + zlen blks ->
  exists blks1 blks2, b1 = pre ++ concat blks1 /\ length blks1 = length blks /\ length blks2 = length blks /\
    forall k blk, blks !! k = Some blk -> exists blk1 blk2,
      blks1 !! k = Some blk1 /\ blks2 !! k = Some blk2 /\ mst_images bksize blk blk1 blk2.
Proof.
  intros Hbk. revert pre i; induction blks as [|blk t IH]; intros pre i Hi Hb Hp H Hn; cbn [length concat pre_write_blocks] in H.
  - injection H as <- <-. by exists [], [].
  - inversion Hb as [|? ? Hblk Hb']; subst n.
    destruct (on_block _ _ _ _) as [[b r]|] eqn:E; cbn [mbind option_bind fst snd] in H; [|done].
    destruct (on_block_inv pre blk (concat t) i bksize _ _ _ Hp (mb_len _ _ Hblk) E) as [blk1 Hf].
    pose proof (zlen_nonneg t). pose proof (zlen_cons blk t).
    destruct r as [[]|e]; [|destruct (Z.eqb_spec i 0); [done | injection H as _ H; lia]].
    destruct (mst_block_images _ _ _ Hblk Hf) as (blk2 & Him). pose proof Him as (_ & _ & _ & Hl1 & _).
    rewrite (on_block_spec pre blk (concat t) i bksize _ blk1 (Ok tt)) in E by (done || apply Hblk).
    injection E as <-. rewrite app_assoc in H.
    destruct (IH (pre ++ blk1) (i + 1)) as (l1 & l2 & -> & Hn1 & Hn2 & Hk);
      [lia | done | rewrite zlen_app; lia | exact H | lia |].
    exists (blk1 :: l1), (blk2 :: l2). cbn [concat length]. rewrite <-app_assoc. split_and!; [done | lia | lia |].
    intros [|k] b Hkb; cbn in Hkb; [injection Hkb as <-; by exists blk1, blk2 | by apply Hk].
Qed.

Lemma on_block_len {A} b i bksize (f : list Z -> option (list Z * A)) b' a :
  on_block b i bksize f = Some (b', a) -> zlen b' = zlen b.
Proof.
  unfold on_block. destruct (zread _ _ _); cbn; [|done]. destruct (f _) as [[]|]; cbn; [|done].
  destruct (zwrite _ _ _) eqn:E; cbn; [|done]. intros [= <- _]. by apply zwrite_Some in E as (_ & _ & ? & _).
Qed.

Lemma pre_write_blocks_le k b i bksize b1 n :
  pre_write_blocks k b i bksize = Some (b1, Ok n) -> 0 <= i -> zlen b1 = zlen b /\ i <= n <= i + Z.of_nat k.
Proof.
  revert b i; induction k as [|k IH]; intros b i; cbn [pre_write_blocks]; [intros [= <- <-]; lia|].
  destruct (on_block _ _ _ _) as [[b2 r]|] eqn:E; cbn [mbind option_bind fst snd]; [|done].
  apply on_block_len in E. destruct r as [[]|e].
  - intros H Hi. destruct (IH _ _ H) as [H1 H2]; [lia|]. split; [congruence | lia].
  - destruct (Z.eqb_spec i 0); [done|]. intros [= <- <-]. lia.
Qed.

Lemma post_blocks_spec {A} (f : list Z -> option (list Z * A)) (go : nat -> list Z -> Z -> option (list Z)) bksize blks1 blks2 pre i :
  (forall b i, go O b i = Some b) ->
  (forall n b i, go (S n) b i = (r ← on_block b i bksize f; go n (fst r) (i + 1))) ->
  length blks2 = length blks1 -> i * bksize = zlen pre ->
  (forall k blk1 blk2, blks1 !! k = Some blk1 -> blks2 !! k = Some blk2 ->
     zlen blk1 = bksize /\ zlen blk2 = bksize /\ exists a, f blk1 = Some (blk2, a)) ->
  go (length blks1) (pre ++ concat blks1) i = Some (pre ++ concat blks2).
Proof.
  intros H0 HS. revert blks2 pre i; induction blks1 as [|b1 t1 IH]; intros [|b2 t2] pre i Hl Hp Hk; try done; cbn [length].
  rewrite HS. cbn [concat]. destruct (Hk O b1 b2 eq_refl eq_refl) as (Hl1 & Hl2 & a & Hf).
  rewrite (on_block_spec pre b1 (concat t1) i bksize f b2 a) by done. cbn [mbind option_bind fst].
  rewrite app_assoc, (IH t2 (pre ++ b2) (i + 1)); [by rewrite <-app_assoc | by injection Hl | rewrite zlen_app; lia |].
  intros k; apply (Hk (S k)).
Qed.

Lemma zlen_concat bksize blks : Forall (fun b : list Z => zlen b = bksize) blks -> zlen (concat blks) = zlen blks * bksize.
Proof.
  induction 1 as [|b t Hb _ IH]; cbn [concat]; [done|]. rewrite zlen_app, zlen_cons, IH. lia.
Qed.

Lemma read_into_all m b b' pos n :
  read_into m b b' pos 0 n -> zlen b = n -> 0 <= n -> holds m pos b'.
Proof.
  intros [[Hl _] Hr] Hb Hn j Hj. destruct (Hr j) as (x & H1 & H2); [lia|].
  rewrite Z.add_0_l in H1. by rewrite H1, H2.
Qed.

(** Everything a complete protected write establishes. *)
Lemma mst_pwrite_inv dev pos bksize blks dev' b' :
  0 < bksize -> Forall (mst_block bksize) blks -> blks <> [] -> 0 <= pos <= zlen (data dev) ->
  zlen blks * bksize < 2 ^ 63 ->
  ntfs_mst_pwrite dev pos (zlen blks) bksize (concat blks) = Some (dev', b', Ok (zlen blks)) ->
  exists blks1 blks2, length blks1 = length blks /\ length blks2 = length blks /\ b' = concat blks2 /\
    zwrite (data dev) pos (concat blks1) = Some (data dev') /\
    forall k blk, blks !! k = Some blk -> exists blk1 blk2,
      blks1 !! k = Some blk1 /\ blks2 !! k = Some blk2 /\ mst_images bksize blk blk1 blk2.
Proof.
  intros Hbk Hb Hne Hpos Hmax H. unfold ntfs_mst_pwrite in H.
  assert (0 < zlen blks) as Hn by (destruct blks; [done|]; rewrite zlen_cons; pose proof (zlen_nonneg blks); lia).
  rewrite (proj2 (Z.ltb_ge (zlen blks) 0)) in H by lia. cbn [orb] in H.
  destruct (negb _); [done|]. rewrite (proj2 (Z.eqb_neq (zlen blks) 0)) in H by lia.
  replace (Z.to_nat (zlen blks)) with (length blks) in H by (unfold zlen; lia).
  destruct (pre_write_blocks _ _ _ _) as [[b1 [n|e]]|] eqn:E; cbn [mbind option_bind] in H; [| done | done].
  destruct (pre_write_blocks_le _ _ _ _ _ _ E) as [Hlb Hnle]; [lia|].
  pose proof (zlen_concat bksize blks (Forall_impl _ _ _ Hb (fun b Hb => mb_len _ _ Hb))) as Hcat.
  rewrite s64_small in H by (unfold in_s64; unfold zlen in *; nia).
  destruct (ntfs_pwrite_spec dev pos (n * bksize) b1 0) as (d & r & E2 & _ & Hres); [nia | lia | lia | unfold zlen in *; nia |].
  rewrite E2 in H. cbn [mbind option_bind] in H.
  destruct (post_write_blocks _ b1 0 bksize) as [b2|] eqn:E3; cbn [mbind option_bind] in H; [|done].
  destruct r as [w|e]; [|done].
  assert (0 < w /\ d = dev' /\ b2 = b' /\ w / bksize = zlen blks) as (Hw & -> & -> & Hdiv).
  { destruct (Z.leb_spec w 0); [injection H as _ _ H; lia|].
    rewrite (proj2 (Z.eqb_neq bksize 0)) in H by lia. by injection H as <- <- <-. }
  clear H. destruct (_ && _) in Hres; [by destruct Hres|]. destruct Hres as (_ & [(-> & _)|(m & Hm & Hwm & Hwr)]); [lia|].
  assert (n = zlen blks /\ m = zlen blks * bksize) as [-> ->].
  { pose proof (Z.div_mod w bksize ltac:(lia)) as Hdm. pose proof (Z.mod_pos_bound w bksize ltac:(lia)).
    rewrite Hdiv in Hdm. unfold zlen in *. split; nia. }
  destruct (pre_write_blocks_spec bksize blks [] 0 b1 (zlen blks)) as (blks1 & blks2 & -> & Hl1 & Hl2 & Hk); try done; try lia.
  cbn [app] in *. exists blks1, blks2. split_and!; try done.
  - assert (post_write_blocks (length blks1) ([] ++ concat blks1) 0 bksize = Some ([] ++ concat blks2)) as E4.
    { apply (post_blocks_spec (fun blk => b ← ntfs_mst_post_write_fixup blk; Some (b, tt))
        (fun n b i => post_write_blocks n b i bksize) bksize blks1 blks2 [] 0); try done; [congruence|].
      intros k x y Hx Hy. destruct (lookup_lt_is_Some_2 blks k) as [blk Hblk]; [rewrite <-Hl1; by eapply lookup_lt_Some|].
      destruct (Hk k blk Hblk) as (x' & y' & Hx' & Hy' & (_ & Hpw & _ & ? & ? & _)).
      rewrite Hx in Hx'; injection Hx' as <-. rewrite Hy in Hy'; injection Hy' as <-.
      split_and!; try done. exists tt. by rewrite Hpw. }
    replace (length blks1) with (Z.to_nat (zlen blks)) in E4 by (unfold zlen; lia). cbn [app] in E4. congruence.
  - destruct Hwr as (xs & Hx1 & Hx2). rewrite zread_inside in Hx1 by (unfold zlen in *; nia).
    injection Hx1 as <-. change (drop (Z.to_nat 0) ?l) with l in Hx2. rewrite firstn_all2 in Hx2; [done|].
    unfold zlen in *; nia.
Qed.

Lemma holds_zlen_eq (b b' : list Z) : zlen b = zlen b' -> holds b 0 b' -> b = b'.
Proof.
  intros Hl Hh. apply zget_ext. intros j Hj. destruct (Z.lt_ge_cases j (zlen b')).
  - rewrite <-(Hh j) by lia. f_equal. 
  - by rewrite !zget_outside by lia.
Qed.

Lemma mst_pread_back dev' dev'' pos bksize blks1 blks2 buf rb n :
  0 < bksize -> n = zlen blks1 -> length blks2 = length blks1 -> n * bksize < 2 ^ 63 -> 0 <= pos ->
  zlen buf = n * bksize -> holds (data dev') pos (concat blks1) ->
  (forall k x y, blks1 !! k = Some x -> blks2 !! k = Some y ->
    zlen x = bksize /\ zlen y = bksize /\ ntfs_mst_post_read_fixup x bksize = Some (y, Ok tt)) ->
  ntfs_mst_pread dev' pos n bksize (Some buf) = Some (dev'', rb, Ok n) -> rb = concat blks2.
Proof.
  intros Hbk -> Hl2 Hmax Hpos Hbuf Hh Hk H. unfold ntfs_mst_pread in H.
  destruct (_ || _); [done|]. pose proof (zlen_nonneg blks1).
  rewrite s64_small in H by (unfold in_s64; nia).
  destruct (ntfs_pread_spec dev' pos (zlen blks1 * bksize) buf 0) as (d & b1 & r & E & _ & _ & _ & Hr); [nia | lia | lia | lia |].
  rewrite E in H. cbn [mbind option_bind] in H. destruct r as [br|e]; [|done].
  rewrite (proj2 (Z.eqb_neq bksize 0)) in H by lia.
  destruct (post_read_blocks _ b1 0 bksize) as [b2|] eqn:E3; cbn [mbind option_bind] in H; [|done].
  injection H as _ <- Hdiv. destruct Hr as [Hbr Hri]. rewrite Hdiv in E3.
  assert (br = zlen blks1 * bksize) as ->.
  { pose proof (Z.div_mod br bksize ltac:(lia)) as Hdm. pose proof (Z.mod_pos_bound br bksize ltac:(lia)).
    rewrite Hdiv in Hdm. nia. }
  pose proof (read_into_all _ _ _ _ _ Hri Hbuf ltac:(nia)) as Hh1.
  assert (zlen (concat blks1) = zlen blks1 * bksize) as Hcat.
  { apply zlen_concat. apply Forall_lookup_2. intros k x Hx.
    destruct (lookup_lt_is_Some_2 blks2 k) as [y Hy]; [rewrite Hl2; by eapply lookup_lt_Some|]. by destruct (Hk k x y Hx Hy). }
  assert (b1 = concat blks1) as ->.
  { destruct Hri as [[Hlb _] _]. apply zget_ext. intros j Hj. destruct (Z.lt_ge_cases j (zlen b1)).
    - rewrite <-Hh1, Hh by lia. done.
    - by rewrite !zget_outside by lia. }
  assert (post_read_blocks (length blks1) ([] ++ concat blks1) 0 bksize = Some ([] ++ concat blks2)) as E4.
  { apply (post_blocks_spec (fun blk => ntfs_mst_post_read_fixup blk bksize)
      (fun n b i => post_read_blocks n b i bksize) bksize blks1 blks2 [] 0); try done.
    intros k x y Hx Hy. destruct (Hk k x y Hx Hy) as (? & ? & ?). eauto. }
  replace (length blks1) with (Z.to_nat (zlen blks1)) in E4 by (unfold zlen; lia). cbn [app] in E4. congruence.
Qed.

End theory.

(** ** Properties *)

(** a positioned read returns how many bytes it put in the buffer, these
    are the device's bytes from that position, the rest of the buffer and the
    device are untouched, and an error means nothing was read; the loop over
    short driver reads always ends. *)
Theorem ntfs_pread_correct {D} `{DeviceLaws D} (dev : ntfs_device D) pos count b ofs :
  0 <= count -> 0 <= pos -> 0 <= ofs -> ofs + count <= zlen b ->
  exists dev' b' r, ntfs_pread dev pos count (Some b) ofs = Some (dev', b', r) /\
    data dev' = data dev /\
    match r with
    | Ok n => 0 <= n <= count /\ read_into (data dev) b b' pos ofs n
    | Err _ => b' = b
    end.
Proof.
  intros. destruct (ntfs_pread_spec dev pos count b ofs) as (d & b' & r & E & Hd & _ & _ & Hr); [done..|].
  exists d, b', r. done.
Qed.

(** a positioned write refuses a read-only device without touching it;
    otherwise the device is marked dirty and holds exactly the reported
    prefix of the buffer at that position, except that a failed sync of a
    synchronous device takes one off the count (-1 included). *)
Theorem ntfs_pwrite_correct {D} `{DeviceLaws D} (dev : ntfs_device D) pos count b ofs :
  0 < count -> 0 <= pos <= zlen (data dev) -> 0 <= ofs -> ofs + count <= zlen b ->
  exists dev' r, ntfs_pwrite dev pos count (Some b) ofs = Some (dev', r) /\
    if NDevReadOnly dev then r = Err EROFS /\ dev' = dev
    else
      NDevDirty dev' = true /\
      match r with
      | Ok m => (m = -2 /\ NDevSync dev = true /\ data dev' = data dev) \/
          exists n, 0 <= n <= count /\ (m = n \/ (m = n - 1 /\ 0 < n /\ NDevSync dev = true)) /\
            written_from (data dev) (data dev') b pos ofs n
      | Err _ => data dev' = data dev
      end.
Proof.
  intros Hc Hp Ho Hb. destruct (ntfs_pwrite_spec dev pos count b ofs) as (d & r & E & _ & Hr); [lia | done..|].
  exists d, r. split; [done|]. rewrite (proj2 (Z.ltb_lt 0 count)) in Hr by done. cbn [andb] in Hr.
  destruct (NDevReadOnly dev); [done|]. destruct Hr as [Hd Hr]. auto.
Qed.

(** C8: after a complete protected write, reading the blocks back gives
    exactly what the write left in the caller's buffer, and that buffer is
    what the caller wrote outside the update sequence arrays. *)
Theorem mst_device_coherent {D} `{DeviceLaws D} (dev dev' dev'' : ntfs_device D) pos bksize blks b' buf rb :
  0 < bksize -> Forall (mst_block bksize) blks -> blks <> [] -> 0 <= pos <= zlen (data dev) ->
  zlen blks * bksize < 2 ^ 63 -> zlen buf = zlen blks * bksize ->
  ntfs_mst_pwrite dev pos (zlen blks) bksize (concat blks) = Some (dev', b', Ok (zlen blks)) ->
  ntfs_mst_pread dev' pos (zlen blks) bksize (Some buf) = Some (dev'', rb, Ok (zlen blks)) ->
  rb = b' /\ exists blks2, b' = concat blks2 /\
    forall k blk ofs cnt, blks !! k = Some blk -> rec_usa_ofs blk = Some ofs -> rec_usa_count blk = Some cnt ->
      exists blk2, blks2 !! k = Some blk2 /\ zlen blk2 = bksize /\
        forall j, ~ usa_byte ofs cnt j -> zget blk2 j = zget blk j.
Proof.
  intros Hbk Hb Hne Hpos Hmax Hbuf Hw Hr.
  destruct (mst_pwrite_inv _ _ _ _ _ _ Hbk Hb Hne Hpos Hmax Hw) as (blks1 & blks2 & Hl1 & Hl2 & -> & Hz & Hk).
  assert (zlen blks = zlen blks1) as Hn by (unfold zlen; congruence). split.
  - apply (mst_pread_back dev' dev'' pos bksize blks1 blks2 buf rb (zlen blks)); [done | done | congruence | done | lia | done | by apply (holds_zwrite (data dev)) | | exact Hr].
    intros k x y Hx Hy. destruct (lookup_lt_is_Some_2 blks k) as [blk Hblk]; [rewrite <-Hl1; by eapply lookup_lt_Some|].
    destruct (Hk k blk Hblk) as (x' & y' & Hx' & Hy' & (_ & _ & ? & ? & ? & _)).
    rewrite Hx in Hx'; injection Hx' as <-. rewrite Hy in Hy'; injection Hy' as <-. done.
  - exists blks2. split; [done|]. intros k blk ofs cnt Hblk Ho Hc.
    destruct (Hk k blk Hblk) as (x & y & _ & Hy & (_ & _ & _ & _ & ? & Him)). eauto.
Qed.

(** ** A RAM disk

    A driver that transfers at most [chunk] bytes at a time: the laws have a
    model, and one that makes the loops iterate. *)

Section ram.
Context (chunk : Z).

Definition ram_read (m : list Z) (pos n : Z) : list Z :=
  match zread m pos (Z.max 0 (Z.min (Z.min n chunk) (zlen m - pos))) with Some bs => bs | None => [] end.

Definition ram_write (m : list Z) (pos : Z) (bs : list Z) : list Z * result Z :=
  let n := Z.max 0 (Z.min (Z.min (zlen bs) chunk) (zlen m - pos)) in
  match zwrite m pos (take (Z.to_nat n) bs) with
  | Some m' => (m', Ok n)
  | None => (m, Err EIO)
  end.

#[local] Instance ram_ops : DeviceOps (list Z) := {
  dev_pread m pos n := (m, Ok (ram_read m pos n));
  dev_pwrite m pos bs := ram_write m pos bs;
  dev_sync m := (m, Ok tt);
  dev_data m := m }.

#[local] Instance ram_laws : DeviceLaws (list Z).
Proof.
  split.
  - intros d pos n d' r Hp Hn [= <- <-]. split; [done|]. unfold ram_read.
    destruct (zread d pos _) as [bs|] eqn:E.
    + apply zread_Some in E as (_ & ? & _ & Hl & Hg). split; [lia|]. intros j Hj. symmetry. apply Hg. lia.
    + split; [rewrite (@zlen_nil Z); lia | apply holds_nil].
  - intros d pos bs d' r Hp Hne. cbn. unfold ram_write. destruct (zwrite d pos _) eqn:E; intros [= <- <-]; [|done].
    pose proof (zlen_nonneg bs). split; [lia | done].
  - by intros d d' r [= <- <-].
Qed.
End ram.

Definition ram_disk : ntfs_device (list Z) := Dev (replicate 2048 7) false true false.

Lemma ntfs_pread_correct_witness :
  exists dev' b' r,
    ntfs_pread (DeviceOps0 := ram_ops 3) ram_disk 2044 10 (Some (replicate 16 0)) 2 = Some (dev', b', r) /\
    data (DeviceOps0 := ram_ops 3) dev' = data (DeviceOps0 := ram_ops 3) ram_disk /\
    match r with
    | Ok n => 0 <= n <= 10 /\ read_into (data (DeviceOps0 := ram_ops 3) ram_disk) (replicate 16 0) b' 2044 2 n
    | Err _ => b' = replicate 16 0
    end.
Proof.
  apply (ntfs_pread_correct (H := ram_ops 3) (H0 := ram_laws 3) ram_disk 2044 10 (replicate 16 0) 2);
    vm_compute; discriminate.
Defined.

Lemma ntfs_pwrite_correct_witness :
  exists dev' r,
    ntfs_pwrite (DeviceOps0 := ram_ops 3) ram_disk 2044 10 (Some (replicate 16 9)) 2 = Some (dev', r) /\
    if NDevReadOnly ram_disk then r = Err EROFS /\ dev' = ram_disk
    else
      NDevDirty dev' = true /\
      match r with
      | Ok m => (m = -2 /\ NDevSync ram_disk = true /\
            data (DeviceOps0 := ram_ops 3) dev' = data (DeviceOps0 := ram_ops 3) ram_disk) \/
          exists n, 0 <= n <= 10 /\ (m = n \/ (m = n - 1 /\ 0 < n /\ NDevSync ram_disk = true)) /\
          written_from (data (DeviceOps0 := ram_ops 3) ram_disk) (data (DeviceOps0 := ram_ops 3) dev') (replicate 16 9) 2044 2 n
      | Err _ => data (DeviceOps0 := ram_ops 3) dev' = data (DeviceOps0 := ram_ops 3) ram_disk
      end.
Proof.
  apply (ntfs_pwrite_correct (H := ram_ops 3) (H0 := ram_laws 3) ram_disk 2044 10 (replicate 16 9) 2);
    vm_compute; intuition discriminate.
Defined.

Lemma mst_device_coherent_witness :
  exists dev' b' rb,
    ntfs_mst_pwrite (DeviceOps0 := ram_ops 100) ram_disk 512 1 1024 (concat [sample_record]) = Some (dev', b', Ok 1) /\
    ntfs_mst_pread (DeviceOps0 := ram_ops 100) dev' 512 1 1024 (Some (replicate 1024 0)) = Some (dev', rb, Ok 1) /\
    rb = b'.
Proof.
  eexists _, _, _. split; [vm_compute; reflexivity|]. split; [vm_compute; reflexivity|].
  refine (proj1 (mst_device_coherent (H := ram_ops 100) (H0 := ram_laws 100) ram_disk _ _ 512 1024 [sample_record] _
    (replicate 1024 0) _ _ _ _ _ _ _ _ _)); try (vm_compute; intuition (reflexivity || discriminate)).
  constructor; [|constructor]. split; [wf_concrete | reflexivity |].
  exists 48, 3. split_and!; [reflexivity | reflexivity | lia].
Defined.
