(* ===== verification/RlIo.v ===== *)
(** Runlist I/O (libntfs-3g/runlist.c, [ntfs_rl_pread] and [ntfs_rl_pwrite]):
    gathering and scattering a byte range of a file over the clusters its
    runlist maps, on the device of Device.v. *)

From S2P Require Import Prelude Runlist Device.
Local Open Scope Z_scope.
Local Open Scope c_scope.
Set Default Proof Using "Type*".

Section ops.
Context {D : Type} `{!DeviceOps D}.
(** vol->cluster_size_bits and NVolReadOnly(vol). *)
Context (cluster_size_bits : Z) (NVolReadOnly : bool).
Implicit Types dev : ntfs_device D.

(** [rl->length << vol->cluster_size_bits] and the same of an lcn. *)
Definition clusters (n : Z) : Z := s64 (Z.shiftl n cluster_size_bits).

(** Seek to the run containing [pos]: the runlist suffix and its offset. *)
Fixpoint rl_seek (rl : runlist) (ofs pos : Z) : option (runlist * Z) :=
  match rl with
  | [] => None
  | e :: t =>
      if negb (len e =? 0) && (s64 (ofs + clusters (len e)) <=? pos)
      then rl_seek t (s64 (ofs + clusters (len e))) pos
      else Some (rl, ofs)
  end.

(** [goto retry] as long as the system call is interrupted. *)
Fixpoint pread_retry (fuel : nat) dev (pos n : Z) (b : list Z) (bofs : Z)
    : option (ntfs_device D * list Z * result Z) :=
  match fuel with
  | O => None
  | S f =>
      out ← ntfs_pread dev pos n (Some b) bofs;
      match out with
      | (dev, b, Err EINTR) => pread_retry f dev pos n b bofs
      | _ => Some out
      end
  end.

(** [rl_err_out]: a partial count when something was transferred. *)
Definition rl_err_out (total : Z) (err : errno) : result Z :=
  if negb (total =? 0) then Ok total else Err err.

Fixpoint rl_pread_loop (fuel : nat) dev (rl : runlist) (ofs total count : Z) (b : list Z) (bofs : Z)
    : option (ntfs_device D * list Z * result Z) :=
  if count =? 0 then Some (dev, b, Ok total)
  else
    match rl with
    | [] => None
    | e :: t =>
        if len e =? 0 then Some (dev, b, rl_err_out total EIO)
        else
          let to_read := Z.min count (s64 (clusters (len e) - ofs)) in
          if lcn e <? 0 then
            if negb (lcn e =? LCN_HOLE) then Some (dev, b, rl_err_out total EIO)
            else if to_read <? 0 then None
            else
              b ← zwrite b bofs (replicate (Z.to_nat to_read) 0);
              rl_pread_loop fuel dev t 0 (total + to_read) (count - to_read) b (bofs + to_read)
          else
            out ← pread_retry fuel dev (s64 (clusters (lcn e) + ofs)) to_read b bofs;
            let '(dev, b, r) := out in
            match r with
            | Ok bytes_read =>
                if 0 <? bytes_read then
                  rl_pread_loop fuel dev t 0 (total + bytes_read) (count - bytes_read) b (bofs + bytes_read)
                else Some (dev, b, rl_err_out total EIO)
            | Err err => Some (dev, b, rl_err_out total err)
            end
    end.

(** [fuel] bounds the consecutive interruptions of one system call. *)
Definition ntfs_rl_pread (fuel : nat) dev (orl : option runlist) (pos count : Z) (b : list Z) (bofs : Z)
    : option (ntfs_device D * list Z * result Z) :=
  match orl with
  | None => Some (dev, b, Err EINVAL)
  | Some rl =>
      if (pos <? 0) || (count <? 0) then Some (dev, b, Err EINVAL)
      else if count =? 0 then Some (dev, b, Ok 0)
      else
        s ← rl_seek rl 0 pos;
        rl_pread_loop fuel dev (fst s) (s64 (pos - snd s)) 0 count b bofs
  end.

Fixpoint pwrite_retry (fuel : nat) dev (pos n : Z) (b : list Z) (bofs : Z)
    : option (ntfs_device D * result Z) :=
  match fuel with
  | O => None
  | S f =>
      out ← (if negb NVolReadOnly then ntfs_pwrite dev pos n (Some b) bofs else Some (dev, Ok n));
      match out with
      | (dev, Err EINTR) => pwrite_retry f dev pos n b bofs
      | _ => Some out
      end
  end.

Fixpoint rl_pwrite_loop (fuel : nat) dev (rl : runlist) (ofs total count : Z) (b : list Z) (bofs : Z)
    : option (ntfs_device D * result Z) :=
  if count =? 0 then Some (dev, Ok total)
  else
    match rl with
    | [] => None
    | e :: t =>
        if len e =? 0 then Some (dev, rl_err_out total EIO)
        else
          let to_write := Z.min count (s64 (clusters (len e) - ofs)) in
          if lcn e <? 0 then
            if negb (lcn e =? LCN_HOLE) then Some (dev, rl_err_out total EIO)
            else rl_pwrite_loop fuel dev t 0 (total + to_write) (count - to_write) b (bofs + to_write)
          else
            out ← pwrite_retry fuel dev (s64 (clusters (lcn e) + ofs)) to_write b bofs;
            let '(dev, r) := out in
            match r with
            | Ok written =>
                if 0 <? written then
                  rl_pwrite_loop fuel dev t 0 (total + written) (count - written) b (bofs + written)
                else Some (dev, rl_err_out total EIO)
            | Err err => Some (dev, rl_err_out total err)
            end
    end.

Definition ntfs_rl_pwrite (fuel : nat) dev (orl : option runlist) (ofs pos count : Z) (b : list Z) (bofs : Z)
    : option (ntfs_device D * result Z) :=
  match orl with
  | None => Some (dev, Err EINVAL)
  | Some rl =>
      if (pos <? 0) || (count <? 0) then Some (dev, Err EINVAL)
      else if count =? 0 then Some (dev, Ok 0)
      else
        s ← rl_seek rl ofs pos;
        rl_pwrite_loop fuel dev (fst s) (s64 (pos - snd s)) 0 count b bofs
  end.
End ops.

(** A driver that, inside the device, always makes progress. *)
Class ReliableDevice (D : Type) `{DeviceOps D} := {
  rel_read d pos n : 0 <= pos < zlen (dev_data d) -> 0 < n ->
    exists d' bs, dev_pread d pos n = (d', Ok bs) /\ bs <> [];
  rel_write d pos bs : 0 <= pos < zlen (dev_data d) -> bs <> [] ->
    exists d' n, dev_pwrite d pos bs = (d', Ok n) /\ 0 < n;
  rel_sync d : exists d', dev_sync d = (d', Ok tt) }.

Section theory.
Context {D : Type} `{!DeviceOps D} `{!DeviceLaws D} `{!ReliableDevice D}.
Implicit Types dev : ntfs_device D.

Lemma pread_loop_full fuel dev pos count b ofs total dev' b' r :
  0 <= count -> 0 <= pos -> 0 <= total -> pos + total + count <= zlen (data dev) ->
  pread_loop fuel dev pos count b ofs total = Some (dev', b', r) -> r = Ok (total + count).
Proof.
  revert dev count b total; induction fuel as [|f IH]; intros dev count b total Hc Hp Ht Hd; [done|].
  cbn [pread_loop]. destruct (Z.eqb_spec count 0) as [->|]; [intros [= _ _ <-]; f_equal; lia|].
  destruct (rel_read (d_private dev) (pos + total) count) as (p & bs & E & Hne); [unfold data in Hd; lia | lia|].
  rewrite E. apply pread_law in E as [Hd' [Hle Hh]]; [|lia..].
  destruct bs as [|x bs]; [done|]. clear Hne. rewrite zlen_cons in *. pose proof (zlen_nonneg bs).
  rewrite (proj2 (Z.ltb_lt _ _)) by lia.
  destruct (zwrite _ _ _) as [b1|]; cbn [mbind option_bind]; [|done]. intros H'.
  apply IH in H'; [subst r; f_equal; lia | lia | lia | lia |].
  unfold data in *. cbn [d_private set_private]. rewrite Hd'. lia.
Qed.

Lemma ntfs_pread_full dev pos count b ofs :
  0 < count -> 0 <= pos -> pos + count <= zlen (data dev) -> 0 <= ofs -> ofs + count <= zlen b ->
  exists dev' b', ntfs_pread dev pos count (Some b) ofs = Some (dev', b', Ok count) /\
    data dev' = data dev /\ read_into (data dev) b b' pos ofs count.
Proof.
  intros Hc Hp Hd Ho Hb.
  destruct (ntfs_pread_spec dev pos count b ofs) as (dev' & b' & r & E & Hd' & _ & _ & Hr); [lia | done..|].
  assert (r = Ok count) as ->.
  { unfold ntfs_pread in E. rewrite (proj2 (Z.ltb_ge count 0)), (proj2 (Z.ltb_ge pos 0)), (proj2 (Z.eqb_neq count 0)) in E by lia.
    cbn [orb] in E. apply pread_loop_full in E; [done | lia..]. }
  exists dev', b'. split_and!; [done | done | apply Hr].
Qed.

Lemma pwrite_loop_full fuel dev pos count b ofs total dev' r :
  0 <= count -> 0 <= pos -> 0 <= total -> pos + total + count <= zlen (data dev) ->
  pwrite_loop fuel dev pos count b ofs total = Some (dev', r) -> r = Ok (total + count).
Proof.
  revert dev count total; induction fuel as [|f IH]; intros dev count total Hc Hp Ht Hd; [done|].
  cbn [pwrite_loop]. destruct (Z.eqb_spec count 0) as [->|]; [intros [= _ <-]; f_equal; lia|].
  destruct (zread b _ _) as [bs|] eqn:Eb; cbn [mbind option_bind]; [|done].
  apply zread_Some in Eb as (_ & _ & _ & Hl & _).
  assert (bs <> []) as Hne by (intros ->; change (@zlen Z []) with 0 in Hl; lia).
  destruct (rel_write (d_private dev) (pos + total) bs) as (p & w & E & Hn); [unfold data in Hd; lia | done|].
  rewrite E. apply pwrite_law in E as [Hle Hw]; [|lia | done].
  rewrite (proj2 (Z.ltb_lt _ _)) by lia. intros H'.
  apply IH in H'; [subst r; f_equal; lia | lia | lia | lia |].
  apply zwrite_Some in Hw as (_ & _ & Hl' & _). unfold data in *. cbn [d_private set_private]. lia.
Qed.

Lemma ntfs_pwrite_full dev pos count b ofs :
  NDevReadOnly dev = false ->
  0 < count -> 0 <= pos -> pos + count <= zlen (data dev) -> 0 <= ofs -> ofs + count <= zlen b ->
  exists dev', ntfs_pwrite dev pos count (Some b) ofs = Some (dev', Ok count) /\
    NDevReadOnly dev' = false /\ written_from (data dev) (data dev') b pos ofs count.
Proof.
  intros Hro Hc Hp Hd Ho Hb. unfold ntfs_pwrite.
  rewrite (proj2 (Z.ltb_ge count 0)), (proj2 (Z.ltb_ge pos 0)), (proj2 (Z.eqb_neq count 0)), Hro by lia. cbn [orb].
  destruct (pwrite_loop_spec (S (Z.to_nat count)) (NDevSetDirty dev) pos count b ofs 0) as (dev' & r & E & [Hf1 Hf2] & _ & Hr);
    try lia; [change (data (NDevSetDirty dev)) with (data dev); lia|].
  rewrite E. cbn [mbind option_bind]. change (data (NDevSetDirty dev)) with (data dev) in Hr.
  pose proof E as E'. apply pwrite_loop_full in E'; [subst r | lia | lia | lia | change (data (NDevSetDirty dev)) with (data dev); lia].
  rewrite Z.add_0_l, !Z.add_0_r, Z.sub_0_r in Hr. cbn [NDevReadOnly NDevSetDirty] in Hf1. rewrite Z.add_0_l.
  destruct (NDevSync dev' && _).
  - destruct (rel_sync (d_private dev')) as [p Es]. rewrite Es. exists (set_private dev' p).
    apply sync_law in Es. split_and!; [done | by rewrite <-Hro | unfold data in *; cbn [d_private set_private]; rewrite Es; tauto].
  - exists dev'. split_and!; [done | congruence | tauto].
Qed.

(** ** The file a runlist stands for *)

Context (bits : Z) (Hbits : 0 <= bits).
Local Abbreviation cs := (2 ^ bits).

(** Where byte [p] of the file is on the device; [None] in a hole. *)
Definition phys (runs : runlist) (p : Z) : option Z :=
  match map_vcn runs (p / cs) with
  | Some l => if l <? 0 then None else Some (l * cs + p mod cs)
  | None => None
  end.

(** Byte [p] of the file: zero in a hole. *)
Definition file_byte (m : list Z) (runs : runlist) (p : Z) : option Z :=
  match phys runs p with Some q => m.[q] | None => Some 0 end.

(** Every run is a hole or lies inside the device, below the s64 limit. *)
Definition run_on_device (size : Z) (e : runlist_element) : Prop :=
  lcn e = LCN_HOLE \/ (0 <= lcn e /\ (lcn e + len e) * cs <= size).

Lemma cs_pos : 0 < cs.
Proof using Hbits. apply Z.pow_pos_nonneg; lia. Qed.

Lemma clusters_small n : 0 <= n -> n * cs < 2 ^ 63 -> clusters bits n = n * cs.
Proof using Hbits.
  intros Hn Hs. unfold clusters. rewrite Z.shiftl_mul_pow2 by done. apply s64_small. unfold in_s64.
  pose proof cs_pos. nia.
Qed.

(** Byte [j] of the part of a run that starts at file position [p]. *)
Lemma phys_in_run e t p j :
  0 <= len e -> vcn e * cs <= p -> 0 <= j -> p + j < rl_end e * cs ->
  phys (e :: t) (p + j) = if lcn e <? 0 then None else Some (lcn e * cs + (p - vcn e * cs) + j).
Proof using Hbits.
  intros Hl Hp Hj Hj2. unfold phys. pose proof cs_pos. cbn [map_vcn].
  assert (vcn e <= (p + j) / cs) by (apply Z.div_le_lower_bound; lia).
  assert ((p + j) / cs < rl_end e) by (apply Z.div_lt_upper_bound; lia).
  rewrite (proj2 (Z.leb_le _ _)), (proj2 (Z.ltb_lt _ _)) by done. cbn [andb]. unfold run_lcn.
  destruct (Z.leb_spec 0 (lcn e)).
  - rewrite !(proj2 (Z.ltb_ge _ 0)) by lia. f_equal. pose proof (Z.div_mod (p + j) cs). nia.
  - by rewrite !(proj2 (Z.ltb_lt _ 0)) by lia.
Qed.

Lemma phys_after e t p : 0 < len e -> rl_end e * cs <= p -> phys (e :: t) p = phys t p.
Proof using Hbits.
  intros Hl Hp. unfold phys. pose proof cs_pos. cbn [map_vcn].
  assert (rl_end e <= p / cs) by (apply Z.div_le_lower_bound; lia).
  rewrite (proj2 (Z.ltb_ge (p / cs) _)) by lia. by rewrite andb_false_r.
Qed.

Definition in_head (runs : runlist) (ofs : Z) : Prop :=
  match runs with [] => True | e :: _ => 0 <= ofs < len e * cs end.

(** What is left of the file from position [p]. *)
Definition avail (v : Z) (runs : runlist) (p : Z) : Z := Z.max 0 (runs_end v runs * cs - p).

Definition transfer_result (n count total : Z) : result Z :=
  if n =? count then Ok (total + n) else rl_err_out (total + n) EIO.

(** One run's worth of the file in the buffer. *)
Definition holds_file (m : list Z) (runs : runlist) (b : list Z) (bofs p n : Z) : Prop :=
  forall j, 0 <= j < n -> b.[bofs + j] = file_byte m runs (p + j).

Lemma holds_file_head m e t b bofs ofs k :
  0 < len e -> 0 <= ofs -> ofs + k <= len e * cs ->
  (if lcn e <? 0 then forall j, 0 <= j < k -> b.[bofs + j] = Some 0
   else forall j, 0 <= j < k -> b.[bofs + j] = m.[lcn e * cs + ofs + j]) ->
  holds_file m (e :: t) b bofs (vcn e * cs + ofs) k.
Proof using Hbits.
  intros Hl Ho Hk H j Hj. unfold file_byte. unfold rl_end in *.
  rewrite phys_in_run by (unfold rl_end; pose proof cs_pos; lia).
  destruct (lcn e <? 0); rewrite H by done; [done|]. f_equal. lia.
Qed.

Lemma holds_file_app m e t b1 b2 bofs p k n v :
  0 < len e -> v = rl_end e -> 0 <= k -> 0 <= n -> (n = 0 \/ p + k = v * cs) ->
  holds_file m (e :: t) b1 bofs p k -> frame b1 b2 (bofs + k) (bofs + k + n) ->
  holds_file m t b2 (bofs + k) (v * cs) n -> holds_file m (e :: t) b2 bofs p (k + n).
Proof using Hbits.
  intros Hl -> Hk Hn Hp H1 [_ Hf] H2 j Hj. destruct (Z.lt_ge_cases j k).
  - rewrite Hf by lia. apply H1; lia.
  - destruct Hp as [->|Hp]; [lia|].
    replace (bofs + j) with (bofs + k + (j - k)) by lia. rewrite H2 by lia.
    unfold file_byte. rewrite <-Hp. replace (p + k + (j - k)) with (p + j) by lia.
    rewrite phys_after by lia. done.
Qed.

Lemma rl_pread_loop_spec fuel dev runs term rest v ofs total count b bofs :
  (0 < fuel)%nat -> wf_rl v runs term -> Forall (run_on_device (zlen (data dev))) runs -> 0 <= v ->
  zlen (data dev) < 2 ^ 63 -> runs_end v runs * cs < 2 ^ 63 -> in_head runs ofs ->
  0 <= ofs -> 0 <= count -> 0 <= total -> 0 <= bofs -> bofs + count <= zlen b ->
  exists dev' b' n, n = Z.min count (avail v runs (v * cs + ofs)) /\
    rl_pread_loop bits fuel dev (runs ++ term :: rest) ofs total count b bofs
      = Some (dev', b', transfer_result n count total) /\
    data dev' = data dev /\ frame b b' bofs (bofs + n) /\
    holds_file (data dev) runs b' bofs (v * cs + ofs) n.
Proof using All.
  intros Hfu. revert dev v ofs total count b bofs.
  induction runs as [|e t IH]; intros dev v ofs total count b bofs Hwf Hdev Hv Hsz Hend Hin Ho Hc Ht Hbo Hb; cbn [rl_pread_loop app].
  - exists dev, b, 0. assert (avail v [] (v * cs + ofs) = 0) as -> by (unfold avail; cbn; lia).
    rewrite (wf_term_len _ _ _ Hwf). unfold transfer_result. rewrite Z.add_0_r.
    split_and!; [lia | destruct (Z.eqb_spec count 0) as [->|]; [done | by rewrite (proj2 (Z.eqb_neq 0 count)) by lia] | done | apply frame_refl | intros j Hj; lia].
  - destruct (wf_contig _ _ _ Hwf) as (Hve & Hle & Hct). pose proof cs_pos as Hcs. cbn in Hin, Hend.
    pose proof (runs_end_ge _ _ Hct) as Hge. inversion Hdev as [|? ? Hde Hdt]; subst v.
    assert (avail (vcn e) (e :: t) (vcn e * cs + ofs) = Z.max 0 (runs_end (vcn e + len e) t * cs - (vcn e * cs + ofs))) as Hav by done.
    destruct (Z.eqb_spec count 0) as [->|Hc0].
    { exists dev, b, 0. rewrite Z.min_l by (unfold avail; lia).
      split_and!; [done | by unfold transfer_result; rewrite Z.add_0_r | done | apply frame_refl | intros j Hj; lia]. }
    rewrite (proj2 (Z.eqb_neq (len e) 0)) by lia. rewrite (clusters_small (len e)) by nia.
    rewrite s64_small by (unfold in_s64; nia). set (k := Z.min count (len e * cs - ofs)).
    assert (0 < k <= count /\ ofs + k <= len e * cs) as [Hk Hk2] by lia.
    assert (forall dev1 b1, data dev1 = data dev -> frame b b1 bofs (bofs + k) ->
      holds_file (data dev) (e :: t) b1 bofs (vcn e * cs + ofs) k ->
      exists dev' b' n, n = Z.min count (avail (vcn e) (e :: t) (vcn e * cs + ofs)) /\
        rl_pread_loop bits fuel dev1 (t ++ term :: rest) 0 (total + k) (count - k) b1 (bofs + k)
          = Some (dev', b', transfer_result n count total) /\
        data dev' = data dev /\ frame b b' bofs (bofs + n) /\
        holds_file (data dev) (e :: t) b' bofs (vcn e * cs + ofs) n) as Hstep.
    { intros dev1 b1 Hd1 Hf1 Hh1.
      destruct (IH dev1 (vcn e + len e) 0 (total + k) (count - k) b1 (bofs + k)) as (dev' & b' & n & Hn & E & Hd' & Hf & Hh);
        try done; try lia; rewrite ?Hd1; try done.
      { by apply wf_rl_tail. }
      { destruct t; cbn; [done|]. cbn in Hct. nia. }
      { destruct Hf1 as [-> _]. lia. }
      rewrite Z.add_0_r in *. exists dev', b', (k + n).
      assert (k = Z.min count (len e * cs - ofs)) as Hkd by done.
      assert (n = 0 \/ vcn e * cs + ofs + k = (vcn e + len e) * cs) as Hor by (unfold avail in Hn; lia).
      assert (0 <= n) by (unfold avail in Hn; lia).
      split_and!.
      - rewrite Hav, Hn. unfold avail. nia.
      - rewrite E. unfold transfer_result. replace (n =? count - k) with (k + n =? count)
          by (apply eq_true_iff_eq; rewrite !Z.eqb_eq; lia). by replace (total + k + n) with (total + (k + n)) by lia.
      - by rewrite Hd', Hd1.
      - eapply frame_trans; [exact Hf1 | exact Hf | lia..].
      - rewrite Hd1 in Hh.
        exact (holds_file_app (data dev) e t b1 b' bofs (vcn e * cs + ofs) k n (vcn e + len e) Hle eq_refl
          ltac:(lia) ltac:(lia) Hor Hh1 Hf Hh). }
    destruct (Z.ltb_spec (lcn e) 0) as [Hlc|Hlc].
    + destruct Hde as [Hhole|]; [|lia]. rewrite Hhole. cbn [negb Z.eqb LCN_HOLE Pos.eqb].
      rewrite (proj2 (Z.ltb_ge k 0)) by lia.
      assert (zlen (replicate (Z.to_nat k) 0) = k) as Hzr by (rewrite zlen_replicate; lia).
      destruct (zwrite b bofs (replicate (Z.to_nat k) 0)) as [b1|] eqn:Ew; [|rewrite zwrite_inside in Ew by lia; done].
      cbn [mbind option_bind]. pose proof (zwrite_frame _ _ _ _ Ew) as Hf1. rewrite Hzr in Hf1.
      apply Hstep; [done | done|]. apply holds_file_head; [done | done | lia |].
      rewrite (proj2 (Z.ltb_lt _ _)) by done. intros j Hj. rewrite (zwrite_get _ _ _ _ _ Ew) by lia.
      unfold zget. rewrite (proj2 (Z.ltb_ge j 0)) by lia. apply lookup_replicate_2. lia.
    + destruct Hde as [Hhole|[_ Hde]]; [unfold LCN_HOLE in Hhole; lia|].
      rewrite clusters_small by nia. rewrite s64_small by (unfold in_s64; nia).
      destruct (ntfs_pread_full dev (lcn e * cs + ofs) k b bofs) as (dev1 & b1 & E1 & Hd1 & Hri); [lia | nia | nia | lia | lia |].
      destruct fuel as [|f]; [lia|]. cbn [pread_retry]. rewrite E1. cbn [mbind option_bind].
      rewrite (proj2 (Z.ltb_lt 0 k)) by lia. destruct Hri as [Hf1 Hr].
      apply Hstep; [done | done|]. apply holds_file_head; [done | done | lia |].
      rewrite (proj2 (Z.ltb_ge _ _)) by done. intros j Hj. destruct (Hr j Hj) as (y & H1 & H2). by rewrite H1, H2.
Qed.

Lemma rl_seek_spec runs term rest v pos :
  wf_rl v runs term -> 0 <= v -> runs_end v runs * cs < 2 ^ 63 -> v * cs <= pos ->
  exists r1 r2, runs = r1 ++ r2 /\
    rl_seek bits (runs ++ term :: rest) (v * cs) pos = Some (r2 ++ term :: rest, runs_end v r1 * cs) /\
    runs_end v r1 * cs <= pos /\ in_head r2 (pos - runs_end v r1 * cs) /\ wf_rl (runs_end v r1) r2 term /\
    v <= runs_end v r1.
Proof using Hbits.
  revert v; induction runs as [|e t IH]; intros v Hwf Hv Hend Hpos; cbn [rl_seek app].
  - rewrite (wf_term_len _ _ _ Hwf). exists [], []. cbn. done.
  - destruct (wf_contig _ _ _ Hwf) as (Hve & Hle & Hct). pose proof cs_pos as Hcs. cbn in Hend.
    pose proof (runs_end_ge _ _ Hct) as Hge.
    rewrite (proj2 (Z.eqb_neq (len e) 0)) by lia. rewrite (clusters_small (len e)) by nia.
    rewrite s64_small by (unfold in_s64; nia). cbn [negb andb].
    destruct (Z.leb_spec (v * cs + len e * cs) pos) as [G|G].
    + destruct (IH (v + len e)) as (r1 & r2 & -> & E & H1 & H2 & H3 & H4); [by apply wf_rl_tail | lia | done | lia |].
      exists (e :: r1), r2. rewrite <-Z.mul_add_distr_r, E. cbn [runs_end app]. split_and!; done || lia.
    + exists [], (e :: t). cbn. split_and!; done || lia.
Qed.

Lemma phys_skip v r1 r2 p : contig v (r1 ++ r2) -> runs_end v r1 * cs <= p -> phys (r1 ++ r2) p = phys r2 p.
Proof using Hbits.
  intros Hc Hp. apply contig_app in Hc as [Hc _]. unfold phys. rewrite map_vcn_app.
  rewrite (map_vcn_above v r1); [done | done|]. apply Z.div_le_lower_bound; [apply cs_pos | lia].
Qed.

Lemma ntfs_rl_pread_spec fuel dev runs term rest pos count b bofs :
  (0 < fuel)%nat -> wf_rl 0 runs term -> Forall (run_on_device (zlen (data dev))) runs ->
  zlen (data dev) < 2 ^ 63 -> runs_end 0 runs * cs < 2 ^ 63 ->
  0 <= pos < 2 ^ 63 -> 0 < count -> 0 <= bofs -> bofs + count <= zlen b ->
  exists dev' b' n, n = Z.min count (avail 0 runs pos) /\
    ntfs_rl_pread bits fuel dev (Some (runs ++ term :: rest)) pos count b bofs
      = Some (dev', b', transfer_result n count 0) /\
    data dev' = data dev /\ frame b b' bofs (bofs + n) /\ holds_file (data dev) runs b' bofs pos n.
Proof using All.
  intros Hfu Hwf Hdev Hsz Hend Hpos Hc Hbo Hb. unfold ntfs_rl_pread.
  rewrite (proj2 (Z.ltb_ge pos 0)), (proj2 (Z.ltb_ge count 0)), (proj2 (Z.eqb_neq count 0)) by lia. cbn [orb].
  destruct (rl_seek_spec runs term rest 0 pos) as (r1 & r2 & -> & E & H1 & H2 & H3 & H4); [done | lia | done | lia |].
  change (0 * cs) with 0 in E. rewrite E. cbn [mbind option_bind fst snd]. pose proof cs_pos.
  rewrite s64_small by (unfold in_s64; nia). apply Forall_app in Hdev as [_ Hdev].
  rewrite runs_end_app in Hend.
  destruct (rl_pread_loop_spec fuel dev r2 term rest (runs_end 0 r1) (pos - runs_end 0 r1 * cs) 0 count b bofs)
    as (dev' & b' & n & Hn & E2 & Hd & Hf & Hh); try done; try lia.
  replace (runs_end 0 r1 * cs + (pos - runs_end 0 r1 * cs)) with pos in * by lia.
  exists dev', b', n. split_and!; try done.
  - rewrite Hn. unfold avail. by rewrite runs_end_app.
  - intros j Hj. rewrite Hh by done. unfold file_byte.
    rewrite (phys_skip 0 r1 r2) by (apply Hwf || lia). done.
Qed.

(** ** Writing *)

(** No two bytes of the file share a place on the device. *)
Definition phys_inj (runs : runlist) : Prop :=
  forall p1 p2 q, phys runs p1 = Some q -> phys runs p2 = Some q -> p1 = p2.

(** The device after the [n] bytes of [b] at [bofs] went to the file at [p]:
    the bytes of the device they map to, and no others, have changed. *)
Definition wrote (m m' : list Z) (runs : runlist) (b : list Z) (bofs p n : Z) : Prop :=
  zlen m' = zlen m /\
  (forall q, (forall j, 0 <= j < n -> phys runs (p + j) <> Some q) -> m'.[q] = m.[q]) /\
  (forall j q, 0 <= j < n -> phys runs (p + j) = Some q -> m'.[q] = b.[bofs + j]).

Lemma wrote_0 m runs b bofs p : wrote m m runs b bofs p 0.
Proof using. split_and!; try done. intros j q Hj. lia. Qed.

Lemma phys_tail e t p q v :
  contig v (e :: t) -> phys t p = Some q -> phys (e :: t) p = Some q /\ rl_end e * cs <= p.
Proof using Hbits.
  intros (Hv & Hl & Hc) Hp. pose proof cs_pos.
  assert (rl_end e * cs <= p) as Hge.
  { destruct (Z.le_gt_cases (rl_end e * cs) p) as [|Hlt]; [done|]. exfalso. unfold phys in Hp.
    assert (p / cs < rl_end e) by (apply Z.div_lt_upper_bound; lia).
    rewrite (map_vcn_below _ t (p / cs) Hc) in Hp; [done|]. unfold rl_end in *. lia. }
  split; [|done]. by rewrite phys_after by lia.
Qed.

Lemma phys_inj_tail v e t : contig v (e :: t) -> phys_inj (e :: t) -> phys_inj t.
Proof using Hbits.
  intros Hc Hi p1 p2 q H1 H2. apply (Hi p1 p2 q); [by apply (phys_tail e t p1 q v) | by apply (phys_tail e t p2 q v)].
Qed.

Lemma wrote_step m m1 m2 e t b bofs p k n v :
  contig v (e :: t) -> phys_inj (e :: t) -> 0 <= k -> 0 <= n -> (n = 0 \/ p + k = rl_end e * cs) ->
  wrote m m1 (e :: t) b bofs p k -> wrote m1 m2 t b (bofs + k) (rl_end e * cs) n ->
  wrote m m2 (e :: t) b bofs p (k + n).
Proof using Hbits.
  intros Hc Hi Hk Hn Hp (L1 & F1 & W1) (L2 & F2 & W2). pose proof Hc as (_ & Hle & _).
  destruct Hp as [->|Hp].
  { rewrite Z.add_0_r. split_and!; [congruence | |].
    - intros q Hq. rewrite F2 by (intros; lia). by apply F1.
    - intros j q Hj Hq. rewrite F2 by (intros; lia). by apply W1. }
  assert (forall j q, 0 <= j < n -> phys t (rl_end e * cs + j) = Some q -> phys (e :: t) (p + (k + j)) = Some q) as Ht.
  { intros j q Hj Hq. rewrite Z.add_assoc, Hp. by apply (phys_tail e t _ q v). }
  split_and!; [congruence | |].
  - intros q Hq. rewrite F2, F1; [done| |].
    + intros j Hj. apply Hq. lia.
    + intros j Hj Hpq. apply (Hq (k + j)); [lia | by apply Ht].
  - intros j q Hj Hq. destruct (Z.lt_ge_cases j k) as [Hlt|Hge].
    + rewrite F2; [apply W1; [lia | done]|]. intros j2 Hj2 Hpq. apply Ht in Hpq; [|lia].
      pose proof (Hi _ _ _ Hq Hpq). lia.
    + rewrite (W2 (j - k)) by (rewrite <-?Hp; rewrite <-Hq || lia;
        replace (p + k + (j - k)) with (p + j) by lia; rewrite phys_after by lia; done).
      f_equal. lia.
Qed.

Lemma wrote_run m m' e t b bofs ofs k xs :
  0 < len e -> 0 <= ofs -> ofs + k <= len e * cs -> 0 <= lcn e -> 0 <= k ->
  zread b bofs k = Some xs -> zwrite m (lcn e * cs + ofs) xs = Some m' ->
  wrote m m' (e :: t) b bofs (vcn e * cs + ofs) k.
Proof using Hbits.
  intros Hl Ho Hk Hlc Hk0 Hx Hw. apply zread_Some in Hx as (_ & _ & _ & Hxl & Hxg). pose proof cs_pos.
  assert (forall j, 0 <= j < k -> phys (e :: t) (vcn e * cs + ofs + j) = Some (lcn e * cs + ofs + j)) as Hph.
  { intros j Hj. rewrite phys_in_run by (unfold rl_end; lia). rewrite (proj2 (Z.ltb_ge _ _)) by done. f_equal. lia. }
  pose proof (zwrite_Some _ _ _ _ Hw) as (_ & _ & Hlm & Hg). split_and!; [done | |].
  - intros q Hq. rewrite Hg. destruct (Z.leb_spec (lcn e * cs + ofs) q), (Z.ltb_spec q (lcn e * cs + ofs + zlen xs)); try done.
    exfalso. apply (Hq (q - (lcn e * cs + ofs))); [lia|]. rewrite Hph by lia. f_equal. lia.
  - intros j q Hj Hq. rewrite Hph in Hq by done. injection Hq as <-. rewrite (zwrite_get _ _ _ _ _ Hw) by lia. by apply Hxg.
Qed.

Lemma wrote_hole m e t b bofs p k :
  0 < len e -> vcn e * cs <= p -> p + k <= rl_end e * cs -> lcn e < 0 -> wrote m m (e :: t) b bofs p k.
Proof using Hbits.
  intros Hl Hp Hk Hlc. split_and!; try done. intros j q Hj.
  rewrite phys_in_run by (unfold rl_end in *; lia). by rewrite (proj2 (Z.ltb_lt _ _)).
Qed.

Lemma rl_pwrite_loop_spec fuel dev runs term rest v ofs total count b bofs :
  (0 < fuel)%nat -> wf_rl v runs term -> Forall (run_on_device (zlen (data dev))) runs -> 0 <= v ->
  zlen (data dev) < 2 ^ 63 -> runs_end v runs * cs < 2 ^ 63 -> in_head runs ofs -> phys_inj runs ->
  NDevReadOnly dev = false ->
  0 <= ofs -> 0 <= count -> 0 <= total -> 0 <= bofs -> bofs + count <= zlen b ->
  exists dev' n, n = Z.min count (avail v runs (v * cs + ofs)) /\
    rl_pwrite_loop bits false fuel dev (runs ++ term :: rest) ofs total count b bofs
      = Some (dev', transfer_result n count total) /\
    wrote (data dev) (data dev') runs b bofs (v * cs + ofs) n.
Proof using All.
  intros Hfu. revert dev v ofs total count bofs.
  induction runs as [|e t IH]; intros dev v ofs total count bofs Hwf Hdev Hv Hsz Hend Hin Hinj Hro Ho Hc Ht Hbo Hb; cbn [rl_pwrite_loop app].
  - exists dev, 0. assert (avail v [] (v * cs + ofs) = 0) as -> by (unfold avail; cbn; lia).
    rewrite (wf_term_len _ _ _ Hwf). unfold transfer_result. rewrite Z.add_0_r.
    split_and!; [lia | destruct (Z.eqb_spec count 0) as [->|]; [done | by rewrite (proj2 (Z.eqb_neq 0 count)) by lia] | apply wrote_0].
  - pose proof (wf_contig _ _ _ Hwf) as Hcc. pose proof Hcc as (Hve & Hle & Hct). pose proof cs_pos as Hcs. cbn in Hin, Hend.
    pose proof (runs_end_ge _ _ Hct) as Hge. inversion Hdev as [|? ? Hde Hdt]; subst v.
    assert (avail (vcn e) (e :: t) (vcn e * cs + ofs) = Z.max 0 (runs_end (vcn e + len e) t * cs - (vcn e * cs + ofs))) as Hav by done.
    destruct (Z.eqb_spec count 0) as [->|Hc0].
    { exists dev, 0. rewrite Z.min_l by (unfold avail; lia).
      split_and!; [done | by unfold transfer_result; rewrite Z.add_0_r | apply wrote_0]. }
    rewrite (proj2 (Z.eqb_neq (len e) 0)) by lia. rewrite (clusters_small (len e)) by nia.
    rewrite s64_small by (unfold in_s64; nia). set (k := Z.min count (len e * cs - ofs)).
    assert (0 < k <= count /\ ofs + k <= len e * cs) as [Hk Hk2] by lia.
    assert (forall dev1, zlen (data dev1) = zlen (data dev) -> NDevReadOnly dev1 = false ->
      wrote (data dev) (data dev1) (e :: t) b bofs (vcn e * cs + ofs) k ->
      exists dev' n, n = Z.min count (avail (vcn e) (e :: t) (vcn e * cs + ofs)) /\
        rl_pwrite_loop bits false fuel dev1 (t ++ term :: rest) 0 (total + k) (count - k) b (bofs + k)
          = Some (dev', transfer_result n count total) /\
        wrote (data dev) (data dev') (e :: t) b bofs (vcn e * cs + ofs) n) as Hstep.
    { intros dev1 Hd1 Hro1 Hw1.
      destruct (IH dev1 (vcn e + len e) 0 (total + k) (count - k) (bofs + k)) as (dev' & n & Hn & E & Hw);
        try done; try lia; rewrite ?Hd1; try done.
      { by apply wf_rl_tail. }
      { destruct t; cbn; [done|]. cbn in Hct. nia. }
      { by apply (phys_inj_tail (vcn e) e). }
      rewrite Z.add_0_r in *. exists dev', (k + n).
      assert (k = Z.min count (len e * cs - ofs)) as Hkd by done.
      assert (n = 0 \/ vcn e * cs + ofs + k = (vcn e + len e) * cs) as Hor by (unfold avail in Hn; lia).
      assert (0 <= n) by (unfold avail in Hn; lia).
      split_and!.
      - rewrite Hav, Hn. unfold avail. nia.
      - rewrite E. unfold transfer_result. replace (n =? count - k) with (k + n =? count)
          by (apply eq_true_iff_eq; rewrite !Z.eqb_eq; lia). by replace (total + k + n) with (total + (k + n)) by lia.
      - exact (wrote_step _ (data dev1) _ e t b bofs _ k n (vcn e) Hcc Hinj ltac:(lia) ltac:(lia) Hor Hw1 Hw). }
    destruct (Z.ltb_spec (lcn e) 0) as [Hlc|Hlc].
    + destruct Hde as [Hhole|]; [|lia]. rewrite Hhole. cbn [negb Z.eqb LCN_HOLE Pos.eqb].
      apply Hstep; [done | done |]. apply wrote_hole; [done | lia | unfold rl_end; lia | done].
    + destruct Hde as [Hhole|[_ Hde]]; [unfold LCN_HOLE in Hhole; lia|].
      rewrite clusters_small by nia. rewrite s64_small by (unfold in_s64; nia).
      destruct (ntfs_pwrite_full dev (lcn e * cs + ofs) k b bofs) as (dev1 & E1 & Hro1 & xs & Hx1 & Hx2);
        [done | lia | nia | nia | lia | lia |].
      destruct fuel as [|f]; [lia|]. cbn [pwrite_retry negb]. rewrite E1. cbn [mbind option_bind].
      rewrite (proj2 (Z.ltb_lt 0 k)) by lia. pose proof (zwrite_Some _ _ _ _ Hx2) as (_ & _ & Hl1 & _).
      apply Hstep; [done | done |]. apply (wrote_run _ _ _ _ _ _ _ _ xs); done || lia.
Qed.

Lemma wrote_skip v r1 r2 m m' b bofs p n :
  contig v (r1 ++ r2) -> runs_end v r1 * cs <= p -> wrote m m' r2 b bofs p n -> wrote m m' (r1 ++ r2) b bofs p n.
Proof using Hbits.
  intros Hc Hp (L & F & W). split_and!; [done | |].
  - intros q Hq. apply F. intros j Hj. specialize (Hq j Hj). by rewrite (phys_skip v) in Hq by (done || lia).
  - intros j q Hj. rewrite (phys_skip v) by (done || lia). by apply W.
Qed.

Lemma phys_inj_skip v r1 r2 : contig v (r1 ++ r2) -> phys_inj (r1 ++ r2) -> phys_inj r2.
Proof using Hbits.
  revert v; induction r1 as [|e r1 IH]; intros v Hc Hi; [done|]. pose proof Hc as (_ & _ & Hc').
  apply (IH _ Hc'). by apply (phys_inj_tail v e).
Qed.

Lemma ntfs_rl_pwrite_spec fuel dev runs term rest pos count b bofs :
  (0 < fuel)%nat -> wf_rl 0 runs term -> Forall (run_on_device (zlen (data dev))) runs ->
  zlen (data dev) < 2 ^ 63 -> runs_end 0 runs * cs < 2 ^ 63 -> phys_inj runs -> NDevReadOnly dev = false ->
  0 <= pos < 2 ^ 63 -> 0 < count -> 0 <= bofs -> bofs + count <= zlen b ->
  exists dev' n, n = Z.min count (avail 0 runs pos) /\
    ntfs_rl_pwrite bits false fuel dev (Some (runs ++ term :: rest)) 0 pos count b bofs
      = Some (dev', transfer_result n count 0) /\
    wrote (data dev) (data dev') runs b bofs pos n.
Proof using All.
  intros Hfu Hwf Hdev Hsz Hend Hinj Hro Hpos Hc Hbo Hb. unfold ntfs_rl_pwrite.
  rewrite (proj2 (Z.ltb_ge pos 0)), (proj2 (Z.ltb_ge count 0)), (proj2 (Z.eqb_neq count 0)) by lia. cbn [orb].
  destruct (rl_seek_spec runs term rest 0 pos) as (r1 & r2 & -> & E & H1 & H2 & H3 & H4); [done | lia | done | lia |].
  change (0 * cs) with 0 in E. rewrite E. cbn [mbind option_bind fst snd]. pose proof cs_pos.
  rewrite s64_small by (unfold in_s64; nia). apply Forall_app in Hdev as [_ Hdev].
  rewrite runs_end_app in Hend.
  destruct (rl_pwrite_loop_spec fuel dev r2 term rest (runs_end 0 r1) (pos - runs_end 0 r1 * cs) 0 count b bofs)
    as (dev' & n & Hn & E2 & Hw); try done; try lia.
  { eapply phys_inj_skip; [apply Hwf | done]. }
  replace (runs_end 0 r1 * cs + (pos - runs_end 0 r1 * cs)) with pos in * by lia.
  exists dev', n. split_and!; [| done |].
  - rewrite Hn. unfold avail. by rewrite runs_end_app.
  - apply (wrote_skip 0); [apply Hwf | lia | done].
Qed.

(** Runs in disjoint clusters never share a byte. *)
Lemma phys_range e t v p q : contig v (e :: t) -> phys (e :: t) p = Some q ->
  (vcn e * cs <= p < rl_end e * cs /\ 0 <= lcn e /\ q = lcn e * cs + (p - vcn e * cs)) \/ phys t p = Some q.
Proof using Hbits.
  intros (Hv & Hl & Hc) Hp. pose proof cs_pos. destruct (Z.le_gt_cases (rl_end e * cs) p).
  { right. by rewrite phys_after in Hp by lia. }
  destruct (Z.le_gt_cases (vcn e * cs) p).
  - left. replace p with (p + 0) in Hp by lia. rewrite phys_in_run in Hp by lia.
    destruct (Z.ltb_spec (lcn e) 0); [done|]. injection Hp as <-. lia.
  - exfalso. unfold phys in Hp. assert (p / cs < vcn e) by (apply Z.div_lt_upper_bound; lia).
    rewrite (map_vcn_below v (e :: t)) in Hp; [done | done | lia].
Qed.

Lemma phys_inj_cons e t v : contig v (e :: t) -> phys_inj t ->
  (forall p q, phys t p = Some q -> lcn e < 0 \/ q < lcn e * cs \/ (lcn e + len e) * cs <= q) ->
  phys_inj (e :: t).
Proof using Hbits.
  intros Hc Hi Hd p1 p2 q H1 H2. pose proof cs_pos.
  destruct (phys_range e t v p1 q Hc H1) as [(A1 & A2 & A3)|A], (phys_range e t v p2 q Hc H2) as [(B1 & B2 & B3)|B].
  - lia.
  - pose proof (Hd p2 q B). unfold rl_end in *. nia.
  - pose proof (Hd p1 q A). unfold rl_end in *. nia.
  - by apply (Hi p1 p2 q).
Qed.
End theory.

(** ** Properties *)

(** C9: on a device that works, reading a range of a file whose runlist is
    fully mapped returns the file's bytes: those of the device where a run
    maps them and zeros in holes, for as much of the range as the runlist
    covers (EIO when it covers none), and touches nothing else. *)
Theorem rl_pread_correct {D} `{ReliableDevice D} `{!DeviceLaws D} bits fuel (dev : ntfs_device D) runs term rest pos count b bofs :
  0 <= bits -> (0 < fuel)%nat -> wf_rl 0 runs term -> Forall (run_on_device bits (zlen (data dev))) runs ->
  zlen (data dev) < 2 ^ 63 -> runs_end 0 runs * 2 ^ bits < 2 ^ 63 ->
  0 <= pos < 2 ^ 63 -> 0 < count -> 0 <= bofs -> bofs + count <= zlen b ->
  exists dev' b' n, n = Z.min count (Z.max 0 (runs_end 0 runs * 2 ^ bits - pos)) /\
    ntfs_rl_pread bits fuel dev (Some (runs ++ term :: rest)) pos count b bofs
      = Some (dev', b', if n =? 0 then Err EIO else Ok n) /\
    data dev' = data dev /\ frame b b' bofs (bofs + n) /\
    forall j, 0 <= j < n -> zget b' (bofs + j) = file_byte bits (data dev) runs (pos + j).
Proof.
  intros Hb Hfu Hwf Hdev Hsz Hend Hpos Hc Hbo Hbl.
  destruct (ntfs_rl_pread_spec bits Hb fuel dev runs term rest pos count b bofs) as (dev' & b' & n & Hn & E & Hd & Hf & Hh); try done.
  exists dev', b', n. split_and!; try done. rewrite E. unfold transfer_result, rl_err_out.
  destruct (Z.eqb_spec n 0) as [->|]; [by rewrite (proj2 (Z.eqb_neq 0 count)) by lia|].
  destruct (Z.eqb_spec n count); [done|]. by rewrite Z.add_0_l, (proj2 (Z.eqb_neq n 0)).
Qed.

(** C10: on a device that works and a runlist whose runs do not overlap,
    writing a range of a file changes exactly that range of the file to the
    buffer's bytes, holes excepted (they keep reading as zero), and changes no
    byte of the device that does not belong to the range. *)
Theorem rl_pwrite_correct {D} `{ReliableDevice D} `{!DeviceLaws D} bits fuel (dev : ntfs_device D) runs term rest pos count b bofs :
  0 <= bits -> (0 < fuel)%nat -> wf_rl 0 runs term -> Forall (run_on_device bits (zlen (data dev))) runs ->
  zlen (data dev) < 2 ^ 63 -> runs_end 0 runs * 2 ^ bits < 2 ^ 63 -> phys_inj bits runs ->
  NDevReadOnly dev = false ->
  0 <= pos < 2 ^ 63 -> 0 < count -> 0 <= bofs -> bofs + count <= zlen b ->
  exists dev' n, n = Z.min count (Z.max 0 (runs_end 0 runs * 2 ^ bits - pos)) /\
    ntfs_rl_pwrite bits false fuel dev (Some (runs ++ term :: rest)) 0 pos count b bofs
      = Some (dev', if n =? 0 then Err EIO else Ok n) /\
    (forall q, (forall j, 0 <= j < n -> phys bits runs (pos + j) <> Some q) -> zget (data dev') q = zget (data dev) q) /\
    forall p, file_byte bits (data dev') runs p =
      if (pos <=? p) && (p <? pos + n)
      then match phys bits runs p with Some _ => zget b (bofs + (p - pos)) | None => Some 0 end
      else file_byte bits (data dev) runs p.
Proof.
  intros Hb Hfu Hwf Hdev Hsz Hend Hinj Hro Hpos Hc Hbo Hbl.
  destruct (ntfs_rl_pwrite_spec bits Hb fuel dev runs term rest pos count b bofs) as (dev' & n & Hn & E & L & F & W); try done.
  exists dev', n. split_and!; try done.
  - rewrite E. unfold transfer_result, rl_err_out.
    destruct (Z.eqb_spec n 0) as [->|]; [by rewrite (proj2 (Z.eqb_neq 0 count)) by lia|].
    destruct (Z.eqb_spec n count); [done|]. by rewrite Z.add_0_l, (proj2 (Z.eqb_neq n 0)).
  - intros p. unfold file_byte. destruct (phys bits runs p) as [q|] eqn:Hp; [|by destruct (_ && _)].
    destruct (Z.leb_spec pos p), (Z.ltb_spec p (pos + n)); cbn [andb].
    + apply W; [lia|]. by replace (pos + (p - pos)) with p by lia.
    + apply F. intros j Hj Hq. pose proof (Hinj _ _ _ Hp Hq). lia.
    + apply F. intros j Hj Hq. pose proof (Hinj _ _ _ Hp Hq). lia.
    + apply F. intros j Hj Hq. pose proof (Hinj _ _ _ Hp Hq). lia.
Qed.

(** ** A short read inside a run

    A disk whose bytes from 612 on to 1024 cannot be read, and a file whose
    first cluster (of 512 bytes) is cluster 1 and whose second is cluster 3. *)

#[local] Instance bad_sector_ops : DeviceOps (list Z) := {
  dev_pread m pos n :=
    if (612 <=? pos) && (pos <? 1024) then (m, Err EIO)
    else (m, Ok (ram_read 4096 m pos (if pos <? 612 then Z.min n (612 - pos) else n)));
  dev_pwrite m pos bs := ram_write 4096 m pos bs;
  dev_sync m := (m, Ok tt);
  dev_data m := m }.

Definition bad_sector_disk : ntfs_device (list Z) :=
  Dev (replicate 512 0 ++ replicate 512 1 ++ replicate 512 2 ++ replicate 512 3) false false false.

(** when the driver fails in the middle of a run, ntfs_rl_pread goes on
    with the next run at the place where the failed part should be: a read of
    the first cluster of the file reports complete success, although byte 100
    of the buffer is the first byte of the second cluster. *)
Theorem rl_pread_skips_short_read :
  exists dev' b',
    ntfs_rl_pread 9 1 bad_sector_disk (Some [RL 0 1 1; RL 1 3 1; RL 2 LCN_ENOENT 0]) 0 512 (replicate 512 9) 0
      = Some (dev', b', Ok 512) /\
    zget b' 100 = Some 3 /\ zget b' 100 = file_byte 9 (data bad_sector_disk) [RL 0 1 1; RL 1 3 1] 512 /\
    file_byte 9 (data bad_sector_disk) [RL 0 1 1; RL 1 3 1] 100 = Some 1.
Proof. eexists _, _. split; [vm_compute; reflexivity|]. split_and!; vm_compute; reflexivity. Qed.

(** ** Witnesses on the RAM disk *)

Lemma ram_reliable chunk : 0 < chunk -> @ReliableDevice (list Z) (ram_ops chunk).
Proof.
  intros Hc. split.
  - intros d pos n Hp Hn. cbn in *. eexists _, _. split; [done|]. unfold ram_read.
    destruct (zread d pos _) as [bs|] eqn:E.
    + apply zread_Some in E as (_ & _ & _ & Hl & _). intros ->. change (@zlen Z []) with 0 in Hl. lia.
    + rewrite zread_inside in E by lia. done.
  - intros d pos bs Hp Hne. cbn in *. unfold ram_write. destruct bs as [|x bs]; [done|]. rewrite zlen_cons.
    pose proof (zlen_nonneg bs).
    set (n := Z.max 0 _). assert (0 < n) by lia.
    destruct (zwrite d pos _) eqn:E; [eauto|]. exfalso. rewrite zwrite_inside in E; [done | lia |].
    assert (zlen (take (Z.to_nat n) (x :: bs)) <= n) by (unfold zlen; rewrite length_take; lia). lia.
  - intros d. by exists d.
Qed.

Definition example_file : runlist := [RL 0 1 2; RL 2 LCN_HOLE 1].
Definition blank_disk : ntfs_device (list Z) := Dev (replicate 2048 7) false false false.

Lemma example_file_inj : phys_inj 9 example_file.
Proof.
  apply (phys_inj_cons 9 ltac:(lia) _ _ 0); [cbn; lia | |].
  - apply (phys_inj_cons 9 ltac:(lia) _ _ 2); [cbn; lia | |]; by intros ?.
  - intros p q. unfold phys. cbn [map_vcn]. destruct (_ && _); done.
Qed.

Lemma rl_pread_correct_witness :
  exists dev' b' n, n = Z.min 1200 (Z.max 0 (runs_end 0 example_file * 2 ^ 9 - 500)) /\
    ntfs_rl_pread (DeviceOps0 := ram_ops 3) 9 1 blank_disk (Some (example_file ++ [RL 3 LCN_ENOENT 0])) 500 1200 (replicate 1200 9) 0
      = Some (dev', b', if n =? 0 then Err EIO else Ok n) /\
    data (DeviceOps0 := ram_ops 3) dev' = replicate 2048 7 /\ frame (replicate 1200 9) b' 0 (0 + n) /\
    forall j, 0 <= j < n -> zget b' (0 + j) = file_byte 9 (replicate 2048 7) example_file (500 + j).
Proof.
  apply (rl_pread_correct (H := ram_ops 3) (H0 := ram_reliable 3 ltac:(lia)) (DeviceLaws0 := ram_laws 3) 9 1 blank_disk
    example_file (RL 3 LCN_ENOENT 0) [] 500 1200 (replicate 1200 9) 0); try lia.
  - split; cbn; lia.
  - constructor; [right; vm_compute; intuition discriminate | constructor; [by left | constructor]].
  - vm_compute; reflexivity.
  - vm_compute; reflexivity.
  - vm_compute; discriminate.
Defined.

Lemma rl_pwrite_correct_witness :
  exists dev' n, n = Z.min 1200 (Z.max 0 (runs_end 0 example_file * 2 ^ 9 - 500)) /\
    ntfs_rl_pwrite (DeviceOps0 := ram_ops 3) 9 false 1 blank_disk (Some (example_file ++ [RL 3 LCN_ENOENT 0])) 0 500 1200 (replicate 1200 9) 0
      = Some (dev', if n =? 0 then Err EIO else Ok n) /\
    (forall q, (forall j, 0 <= j < n -> phys 9 example_file (500 + j) <> Some q) ->
       zget (data (DeviceOps0 := ram_ops 3) dev') q = zget (data (DeviceOps0 := ram_ops 3) blank_disk) q) /\
    forall p, file_byte 9 (data (DeviceOps0 := ram_ops 3) dev') example_file p =
      if (500 <=? p) && (p <? 500 + n)
      then match phys 9 example_file p with Some _ => zget (replicate 1200 9) (0 + (p - 500)) | None => Some 0 end
      else file_byte 9 (data (DeviceOps0 := ram_ops 3) blank_disk) example_file p.
Proof.
  apply (rl_pwrite_correct (H := ram_ops 3) (H0 := ram_reliable 3 ltac:(lia)) (DeviceLaws0 := ram_laws 3) 9 1 blank_disk
    example_file (RL 3 LCN_ENOENT 0) [] 500 1200 (replicate 1200 9) 0); try lia.
  - split; cbn; lia.
  - constructor; [right; vm_compute; intuition discriminate | constructor; [by left | constructor]].
  - vm_compute; reflexivity.
  - vm_compute; reflexivity.
  - exact example_file_inj.
  - reflexivity.
  - vm_compute; discriminate.
Defined.
