(* ===== verification/AttrIo.v ===== *)
(** The attribute interface: what ntfs_attr_pread and ntfs_attr_pwrite
    (libntfs-3g/attrib.c) promise to the code that keeps bitmaps in
    attributes.  The theorems about that code are proved against the classes;
    [mem_attr] is the attribute held in memory that shows the laws can hold. *)

From S2P Require Import Prelude.
Local Open Scope Z_scope.
Local Open Scope c_scope.

(** A read returns the bytes it got, a write the count it accepted; an error
    return (-1) is [Err]. *)
Class AttrOps (A : Type) := {
  attr_pread : A -> Z -> Z -> A * result (list Z);
  attr_pwrite : A -> Z -> list Z -> A * result Z;
  (** The bytes of the attribute value, data_size of them. *)
  attr_data : A -> list Z }.

(** Inside the attribute value, I/O that does not fail is complete. *)
Class AttrLaws (A : Type) `{AttrOps A} := {
  attr_pread_law a pos n a' r : 0 <= pos -> 0 <= n -> attr_pread a pos n = (a', r) ->
    attr_data a' = attr_data a /\
    match r with Ok bs => zlen bs <= n /\ holds (attr_data a) pos bs | Err _ => True end;
  attr_pwrite_law a pos bs a' r : 0 <= pos -> pos + zlen bs <= zlen (attr_data a) ->
    attr_pwrite a pos bs = (a', r) ->
    match r with
    | Ok n => 0 <= n <= zlen bs /\ zwrite (attr_data a) pos (take (Z.to_nat n) bs) = Some (attr_data a')
    | Err _ => zlen (attr_data a') = zlen (attr_data a)
    end }.

Class AttrReliable (A : Type) `{AttrOps A} := {
  attr_pread_full a pos n : 0 <= pos -> 0 <= n -> pos + n <= zlen (attr_data a) ->
    exists a' bs, attr_pread a pos n = (a', Ok bs) /\ zlen bs = n;
  attr_pwrite_full a pos bs : 0 <= pos -> pos + zlen bs <= zlen (attr_data a) ->
    exists a', attr_pwrite a pos bs = (a', Ok (zlen bs)) }.

(** An attribute in memory. *)
#[export] Instance mem_attr : AttrOps (list Z) := {
  attr_pread m pos n :=
    (m, Ok (match zread m pos (Z.max 0 (Z.min n (zlen m - pos))) with Some bs => bs | None => [] end));
  attr_pwrite m pos bs :=
    match zwrite m pos bs with Some m' => (m', Ok (zlen bs)) | None => (m, Err EIO) end;
  attr_data m := m }.

#[export] Instance mem_attr_laws : AttrLaws (list Z).
Proof.
  split.
  - intros a pos n a' r Hp Hn [= <- <-]. split; [done|].
    destruct (zread a pos _) as [bs|] eqn:E.
    + apply zread_Some in E as (_ & _ & _ & Hl & Hg). split; [lia|]. intros j Hj. symmetry. apply Hg. lia.
    + split; [rewrite (@zlen_nil Z); lia | apply holds_nil].
  - intros a pos bs a' r Hp Hb. cbn. destruct (zwrite a pos bs) eqn:E; intros [= <- <-]; [|done].
    pose proof (zlen_nonneg bs). split; [lia|]. unfold zlen. rewrite Nat2Z.id, firstn_all. done.
Qed.

#[export] Instance mem_attr_reliable : AttrReliable (list Z).
Proof.
  split.
  - intros a pos n Hp Hn Hb. cbn in *. eexists _, _. split; [done|].
    rewrite Z.max_r, Z.min_l by lia. destruct (zread a pos n) eqn:E.
    + by apply zread_Some in E as (_ & _ & _ & ? & _).
    + rewrite zread_inside in E by lia. done.
  - intros a pos bs Hp Hb. cbn in *. rewrite zwrite_inside by lia. eauto.
Qed.
