(* ===== verification/Bitmap.v ===== *)
(** Bitmaps (libntfs-3g/bitmap.c, include/ntfs-3g/bitmap.h): single bits of a
    byte array, and runs of bits in a bitmap attribute, which are read and
    written in windows of at most 8 KiB. *)

From S2P Require Import Prelude AttrIo.
Local Open Scope Z_scope.
Local Open Scope c_scope.
Set Default Proof Using "Type*".

(** ** Single bits *)

(** [b |= 1 << i] and [b &= ~(1 << i)]. *)
Definition put_bit (b i : Z) (value : bool) : Z :=
  if value then Z.lor b (Z.shiftl 1 i) else Z.land b (Z.lnot (Z.shiftl 1 i)).

(** [None] as the bitmap is the NULL pointer; the outer option is memory
    safety. *)
Definition ntfs_bit_set (obm : option (list Z)) (bit new_value : Z) : option (option (list Z)) :=
  match obm with
  | None => Some None
  | Some bm =>
      if 1 <? new_value then Some (Some bm)
      else
        b ← bm.[Z.shiftr bit 3];
        bm ← zset bm (Z.shiftr bit 3) (put_bit b (Z.land bit 7) (negb (new_value =? 0)));
        Some (Some bm)
  end.

Definition ntfs_bit_get (obm : option (list Z)) (bit : Z) : option Z :=
  match obm with
  | None => Some (-1)
  | Some bm => b ← bm.[Z.shiftr bit 3]; Some (Z.land (Z.shiftr b (Z.land bit 7)) 1)
  end.

Definition ntfs_bit_get_and_set (obm : option (list Z)) (bit new_value : Z) : option (option (list Z) * Z) :=
  match obm with
  | None => Some (None, -1)
  | Some bm =>
      if 1 <? new_value then Some (Some bm, -1)
      else
        let shift := Z.land bit 7 in
        b ← bm.[Z.shiftr bit 3];
        let old_bit := Z.land (Z.shiftr b shift) 1 in
        bm ← (if negb (new_value =? old_bit)
              then zset bm (Z.shiftr bit 3) (u8 (Z.lxor b (Z.shiftl 1 shift))) else Some bm);
        Some (Some bm, old_bit)
  end.

Definition ntfs_rol32 (word shift : Z) : Z :=
  Z.lor (u32 (Z.shiftl word shift)) (Z.shiftr word (32 - shift)).
Definition ntfs_ror32 (word shift : Z) : Z :=
  Z.lor (Z.shiftr word shift) (u32 (Z.shiftl word (32 - shift))).

(** ** Runs of bits *)

(** [while ((bit & 7) && count--)]: set the bits of the first byte; a count
    that runs out leaves -1. *)
Fixpoint first_bits (fuel : nat) (b bit count : Z) (value : bool) : option (Z * Z) :=
  match fuel with
  | O => None
  | S f =>
      if negb (Z.land bit 7 =? 0) then
        if count =? 0 then Some (b, count - 1)
        else first_bits f (put_bit b bit value) (bit + 1) (count - 1) value
      else Some (b, count)
  end.

(** [while (bit && count--)]: set the low bits of the last byte. *)
Fixpoint last_bits (fuel : nat) (b bit count : Z) (value : bool) : option (Z * Z) :=
  match fuel with
  | O => None
  | S f =>
      if negb (bit =? 0) then
        if count =? 0 then Some (b, count - 1)
        else last_bits f (put_bit b (bit - 1) value) (bit - 1) (count - 1) value
      else Some (b, count)
  end.

Section ops.
Context {A : Type} `{!AttrOps A}.
Implicit Types na : A.

(** The do-while loop; [firstbyte] is the flag of the partial first byte. *)
Fixpoint set_bits_loop (fuel : nat) na (start_bit count bufsize firstbyte bit : Z) (buf : list Z) (value : bool)
    : option (A * result unit) :=
  match fuel with
  | O => None
  | S f =>
      let lastbyte_pos := Z.shiftr (count + 7) 3 + firstbyte in
      let partial := (0 <? count) && negb (bit =? 0) in
      if partial && (lastbyte_pos =? 0) then Some (na, Err EIO)
      else
        st ← (if partial && (lastbyte_pos <=? bufsize) then
                let '(na, r) := attr_pread na (Z.shiftr (start_bit + count) 3) 1 in
                match r with
                | Err e => Some (na, Err e)
                | Ok bs =>
                    if negb (zlen bs =? 1) then Some (na, Err EIO)
                    else
                      x ← bs.[0];
                      r ← last_bits 9 x bit count value;
                      buf ← zset buf (lastbyte_pos - 1) (fst r);
                      Some (na, Ok (buf, snd r, 0, 1))
                end
              else Some (na, Ok (buf, count, bit, 0)));
        match st with
        | (na, Err e) => Some (na, Err e)
        | (na, Ok (buf, count, bit, lastbyte)) =>
            let tmp := s32 (Z.shiftr start_bit 3 - firstbyte) in
            out ← zread buf 0 bufsize;
            let '(na, r) := attr_pwrite na tmp out in
            match r with
            | Err e => Some (na, Err e)
            | Ok br =>
                if negb (br =? bufsize) then Some (na, Err EIO)
                else
                  let tmp := Z.shiftl (bufsize - firstbyte - lastbyte) 3 in
                  buf ← (if negb (firstbyte =? 0) then zset buf 0 (if value then 0xff else 0) else Some buf);
                  let start_bit := start_bit + tmp in
                  let count := count - tmp in
                  let bufsize := if Z.shiftr (count + 7) 3 <? bufsize then Z.shiftr (count + 7) 3 else bufsize in
                  if negb (lastbyte =? 0) && negb (count =? 0) then Some (na, Err EIO)
                  else if 0 <? count then set_bits_loop f na start_bit count bufsize 0 bit buf value
                  else Some (na, Ok tt)
            end
        end
  end.

Definition ntfs_bitmap_set_bits_in_run na (start_bit count : Z) (value : bool) : option (A * result unit) :=
  if (start_bit <? 0) || (count <? 0) then Some (na, Err EINVAL)
  else
    let bit := Z.land start_bit 7 in
    let firstbyte := if negb (bit =? 0) then 1 else 0 in
    let bufsize := Z.shiftr (count - (if negb (bit =? 0) then 8 - bit else 0) + 7) 3 + firstbyte in
    let bufsize := if 8192 <? bufsize then 8192 else bufsize in
    let buf := replicate (Z.to_nat bufsize) (if value then 0xff else 0) in
    st ← (if negb (bit =? 0) then
            let '(na, r) := attr_pread na (Z.shiftr start_bit 3) 1 in
            match r with
            | Err e => Some (na, Err e)
            | Ok bs =>
                if negb (zlen bs =? 1) then Some (na, Err EIO)
                else
                  x ← bs.[0];
                  r ← first_bits 9 x bit count value;
                  buf ← zset buf 0 (fst r);
                  Some (na, Ok (buf, snd r, Z.land (start_bit + 7) (Z.lnot 7)))
            end
          else Some (na, Ok (buf, count, start_bit)));
    match st with
    | (na, Err e) => Some (na, Err e)
    | (na, Ok (buf, count, start_bit)) =>
        set_bits_loop (S (Z.to_nat count)) na start_bit count bufsize firstbyte (Z.land count 7) buf value
    end.

Definition ntfs_bitmap_set_run na (start_bit count : Z) := ntfs_bitmap_set_bits_in_run na start_bit count true.
Definition ntfs_bitmap_clear_run na (start_bit count : Z) := ntfs_bitmap_set_bits_in_run na start_bit count false.
Definition ntfs_bitmap_set_bit na (bit : Z) := ntfs_bitmap_set_run na bit 1.
Definition ntfs_bitmap_clear_bit na (bit : Z) := ntfs_bitmap_clear_run na bit 1.
End ops.

(** ** Bits of a byte array *)

Definition bit_at (m : list Z) (i : Z) : bool :=
  match m.[i / 8] with Some x => Z.testbit x (i mod 8) | None => false end.

Lemma testbit_put_bit b i value j : 0 <= i -> 0 <= j ->
  Z.testbit (put_bit b i value) j = if j =? i then value else Z.testbit b j.
Proof.
  intros Hi Hj. unfold put_bit. assert (Z.testbit (Z.shiftl 1 i) j = (j =? i)) as Hs.
  { rewrite Z.shiftl_1_l. rewrite Z.pow2_bits_eqb by done. apply Z.eqb_sym. }
  destruct value; [rewrite Z.lor_spec, Hs | rewrite Z.land_spec, Z.lnot_spec, Hs by done];
    destruct (j =? i); cbn; rewrite ?orb_true_r, ?orb_false_r, ?andb_true_r, ?andb_false_r; done.
Qed.

Lemma land7 x : Z.land x 7 = x mod 8.
Proof. change 7 with (Z.ones 3). by rewrite Z.land_ones. Qed.

Lemma shiftr3 x : Z.shiftr x 3 = x / 8.
Proof. by rewrite Z.shiftr_div_pow2. Qed.

Lemma shiftl3 x : Z.shiftl x 3 = 8 * x.
Proof. rewrite Z.shiftl_mul_pow2 by done. lia. Qed.

Lemma bit_index a j : 0 <= j < 8 -> (8 * a + j) / 8 = a /\ (8 * a + j) mod 8 = j.
Proof.
  intros Hj. split.
  - symmetry. apply (Z.div_unique _ 8 a j); lia.
  - symmetry. apply (Z.mod_unique _ 8 a j); lia.
Qed.

Lemma bit_at_zset m k x m' i : zset m k x = Some m' ->
  bit_at m' i = if i / 8 =? k then Z.testbit x (i mod 8) else bit_at m i.
Proof. intros (_ & _ & Hg)%zset_Some. unfold bit_at. rewrite Hg. by destruct (i / 8 =? k). Qed.

Lemma bit_at_zread m a n xs i : zread m a n = Some xs -> 0 <= i < 8 * n -> bit_at xs i = bit_at m (8 * a + i).
Proof.
  intros (_ & _ & _ & _ & Hg)%zread_Some Hi. unfold bit_at.
  rewrite Hg by (split; [apply Z.div_pos; lia | apply Z.div_lt_upper_bound; lia]).
  replace (8 * a + i) with (i + a * 8) by lia. rewrite Z.div_add, Z.mod_add by lia.
  by rewrite (Z.add_comm a).
Qed.

Lemma bit_at_zwrite m p xs m' i : zwrite m p xs = Some m' ->
  bit_at m' i = if (8 * p <=? i) && (i <? 8 * (p + zlen xs)) then bit_at xs (i - 8 * p) else bit_at m i.
Proof.
  intros (_ & _ & _ & Hg)%zwrite_Some. unfold bit_at. rewrite Hg.
  assert ((p <=? i / 8) = (8 * p <=? i)) as ->.
  { apply eq_true_iff_eq. rewrite !Z.leb_le. split; intros H.
    - pose proof (Z.mul_div_le i 8). lia.
    - apply Z.div_le_lower_bound; lia. }
  assert ((i / 8 <? p + zlen xs) = (i <? 8 * (p + zlen xs))) as ->.
  { apply eq_true_iff_eq. rewrite !Z.ltb_lt. split; intros H.
    - pose proof (Z.mul_succ_div_gt i 8). lia.
    - apply Z.div_lt_upper_bound; lia. }
  destruct (_ && _); [|done].
  replace (i - 8 * p) with (i + (- p) * 8) by lia. rewrite Z.div_add, Z.mod_add by lia. done.
Qed.

Lemma bit_at_fill n (value : bool) i : 0 <= i < 8 * Z.of_nat n ->
  bit_at (replicate n (if value then 0xff else 0)) i = value.
Proof.
  intros Hi. unfold bit_at, zget. assert (0 <= i / 8 < Z.of_nat n) by (split; [apply Z.div_pos; lia | apply Z.div_lt_upper_bound; lia]).
  rewrite (proj2 (Z.ltb_ge _ 0)) by lia. rewrite lookup_replicate_2 by lia.
  destruct value; [|apply Z.bits_0]. pose proof (Z.mod_pos_bound i 8 ltac:(lia)).
  change 255 with (Z.ones 8). apply Z.ones_spec_low. lia.
Qed.

(** ** Single-bit operations *)

Lemma bit_get_spec bm bit : 0 <= bit < 8 * zlen bm ->
  ntfs_bit_get (Some bm) bit = Some (Z.b2z (bit_at bm bit)).
Proof.
  intros Hb. unfold ntfs_bit_get, bit_at. rewrite shiftr3, land7.
  destruct (zget_inside bm (bit / 8)) as [x ->]; [split; [apply Z.div_pos; lia | apply Z.div_lt_upper_bound; lia]|].
  cbn [mbind option_bind]. f_equal. change 1 with (Z.ones 1). rewrite Z.land_ones by lia.
  pose proof (Z.mod_pos_bound bit 8 ltac:(lia)). rewrite (Z.testbit_spec' x) by lia. by rewrite Z.shiftr_div_pow2 by lia.
Qed.

Lemma bit_set_spec bm bit new_value : 0 <= bit < 8 * zlen bm -> 0 <= new_value <= 1 ->
  exists bm', ntfs_bit_set (Some bm) bit new_value = Some (Some bm') /\ zlen bm' = zlen bm /\
    forall i, bit_at bm' i = if i =? bit then negb (new_value =? 0) else bit_at bm i.
Proof.
  intros Hb Hv. unfold ntfs_bit_set. rewrite (proj2 (Z.ltb_ge 1 new_value)) by lia. rewrite shiftr3, land7.
  assert (0 <= bit / 8 < zlen bm) as Hr by (split; [apply Z.div_pos; lia | apply Z.div_lt_upper_bound; lia]).
  destruct (zget_inside bm (bit / 8) Hr) as [x Hx]. rewrite Hx. cbn [mbind option_bind].
  destruct (zset bm (bit / 8) _) as [bm'|] eqn:E; [|rewrite zset_inside in E by done; done].
  cbn [mbind option_bind]. exists bm'. split_and!; [done | by apply zset_Some in E as (_ & ? & _)|].
  intros i. rewrite (bit_at_zset _ _ _ _ _ E). pose proof (Z.mod_pos_bound bit 8 ltac:(lia)).
  pose proof (Z.mod_pos_bound i 8 ltac:(lia)).
  pose proof (Z.div_mod bit 8 ltac:(lia)). pose proof (Z.div_mod i 8 ltac:(lia)).
  rewrite testbit_put_bit by lia.
  destruct (Z.eqb_spec (i / 8) (bit / 8)), (Z.eqb_spec (i mod 8) (bit mod 8)), (Z.eqb_spec i bit); subst; try done; try lia.
  unfold bit_at. by rewrite e, Hx.
Qed.

(** Getting and setting a bit returns the old value and stores the new one. *)
Lemma bit_get_and_set_spec bm bit new_value : wf_bytes bm -> 0 <= bit < 8 * zlen bm -> 0 <= new_value <= 1 ->
  exists bm', ntfs_bit_get_and_set (Some bm) bit new_value = Some (Some bm', Z.b2z (bit_at bm bit)) /\
    zlen bm' = zlen bm /\ forall i, bit_at bm' i = if i =? bit then negb (new_value =? 0) else bit_at bm i.
Proof.
  intros Hw Hb Hv. pose proof (bit_get_spec bm bit Hb) as Hget. unfold ntfs_bit_get, ntfs_bit_get_and_set in *.
  rewrite (proj2 (Z.ltb_ge 1 new_value)) by lia. rewrite shiftr3, land7 in *.
  assert (0 <= bit / 8 < zlen bm) as Hr by (split; [apply Z.div_pos; lia | apply Z.div_lt_upper_bound; lia]).
  destruct (zget_inside bm (bit / 8) Hr) as [x Hx]. rewrite Hx in *. cbn [mbind option_bind] in *.
  injection Hget as ->. assert (bit_at bm bit = Z.testbit x (bit mod 8)) as Hbit by (unfold bit_at; by rewrite Hx).
  pose proof (Z.mod_pos_bound bit 8 ltac:(lia)) as Hm. pose proof (Z.div_mod bit 8 ltac:(lia)) as Hdb.
  destruct (Z.eqb_spec new_value (Z.b2z (bit_at bm bit))) as [->|Hne]; cbn [negb].
  { exists bm. split_and!; try done. intros i. destruct (Z.eqb_spec i bit) as [->|]; [by destruct (bit_at bm bit) | done]. }
  destruct (zset bm (bit / 8) _) as [bm'|] eqn:E; [|rewrite zset_inside in E by done; done].
  cbn [mbind option_bind]. exists bm'. split_and!; [done | by apply zset_Some in E as (_ & ? & _)|].
  intros i. rewrite (bit_at_zset _ _ _ _ _ E). pose proof (Z.mod_pos_bound i 8 ltac:(lia)) as Hmi.
  pose proof (Z.div_mod i 8 ltac:(lia)). unfold u8, wrap_u. rewrite Z.mod_pow2_bits_low by lia.
  rewrite Z.lxor_spec, Z.shiftl_1_l, Z.pow2_bits_eqb by lia.
  destruct (Z.eqb_spec (i / 8) (bit / 8)), (Z.eqb_spec (bit mod 8) (i mod 8)), (Z.eqb_spec i bit); subst; try done; try lia.
  - rewrite <-Hbit. destruct (bit_at bm bit), (Z.eqb_spec new_value 0); cbn in *; try done; lia.
  - rewrite xorb_false_r. unfold bit_at. by rewrite e, Hx.
Qed.

(** ** The byte loops *)

Lemma first_bits_spec fuel b bit count value :
  1 <= bit <= 8 -> 0 <= count -> 8 - bit < Z.of_nat fuel ->
  exists b' count', first_bits fuel b bit count value = Some (b', count') /\
    (forall i, 0 <= i < 8 -> Z.testbit b' i = if (bit <=? i) && (i <? bit + count) then value else Z.testbit b i) /\
    count' = if 8 - bit <=? count then count - (8 - bit) else -1.
Proof.
  revert b bit count; induction fuel as [|f IH]; intros b bit count Hb Hc Hf; [lia|]. cbn [first_bits]. rewrite land7.
  destruct (decide (bit = 8)) as [->|].
  { exists b, count. change (8 mod 8) with 0. cbn [Z.eqb negb]. split_and!; [done | |].
    - intros i Hi. rewrite (proj2 (Z.leb_gt 8 i)) by lia. done.
    - rewrite (proj2 (Z.leb_le _ _)) by lia. lia. }
  rewrite Z.mod_small by lia. rewrite (proj2 (Z.eqb_neq bit 0)) by lia. cbn [negb].
  destruct (Z.eqb_spec count 0) as [->|].
  { exists b, (-1). split_and!; [done | |].
    - intros i Hi. destruct (Z.leb_spec bit i), (Z.ltb_spec i (bit + 0)); cbn; done || lia.
    - by rewrite (proj2 (Z.leb_gt _ _)) by lia. }
  destruct (IH (put_bit b bit value) (bit + 1) (count - 1)) as (b' & c' & E & Hbits & Hc'); [lia.. |].
  exists b', c'. split_and!; [done | |].
  - intros i Hi. rewrite Hbits, testbit_put_bit by lia.
    destruct (Z.leb_spec (bit + 1) i), (Z.ltb_spec i (bit + 1 + (count - 1))), (Z.leb_spec bit i), (Z.ltb_spec i (bit + count)),
      (Z.eqb_spec i bit); cbn; done || lia.
  - rewrite Hc'. destruct (Z.leb_spec (8 - (bit + 1)) (count - 1)), (Z.leb_spec (8 - bit) count); lia.
Qed.

Lemma last_bits_spec fuel b bit count value :
  0 <= bit <= 8 -> bit <= count -> bit < Z.of_nat fuel ->
  exists b', last_bits fuel b bit count value = Some (b', count - bit) /\
    forall i, 0 <= i < 8 -> Z.testbit b' i = if i <? bit then value else Z.testbit b i.
Proof.
  revert b bit count; induction fuel as [|f IH]; intros b bit count Hb Hc Hf; [lia|]. cbn [last_bits].
  destruct (Z.eqb_spec bit 0) as [->|]; cbn [negb].
  { exists b. rewrite Z.sub_0_r. split; [done|]. intros i Hi. by rewrite (proj2 (Z.ltb_ge i 0)) by lia. }
  rewrite (proj2 (Z.eqb_neq count 0)) by lia.
  destruct (IH (put_bit b (bit - 1) value) (bit - 1) (count - 1)) as (b' & E & Hbits); [lia.. |].
  exists b'. rewrite E. split; [do 2 f_equal; lia|]. intros i Hi. rewrite Hbits, testbit_put_bit by lia.
  destruct (Z.ltb_spec i (bit - 1)), (Z.ltb_spec i bit), (Z.eqb_spec i (bit - 1)); done || lia.
Qed.

(** ** Setting a run *)

Section run.
Context {A : Type} `{!AttrOps A} `{!AttrLaws A} `{!AttrReliable A}.
Context (m0 : list Z) (value : bool) (s e : Z).
Context (Hs : 0 <= s <= e) (He : e <= 8 * zlen m0) (He33 : e < 2 ^ 33).
Implicit Types na : A.

(** The wanted bitmap. *)
Definition target (i : Z) : bool := if (s <=? i) && (i <? e) then value else bit_at m0 i.

(** The bytes before [p] are done, the others untouched. *)
Definition done_up_to na (p : Z) : Prop :=
  zlen (attr_data na) = zlen m0 /\
  forall i, 0 <= i -> bit_at (attr_data na) i = if i <? 8 * p then target i else bit_at m0 i.

Lemma window_write na p out :
  done_up_to na p -> 0 <= p -> p + zlen out <= zlen m0 ->
  (forall i, 0 <= i < 8 * zlen out -> bit_at out i = target (8 * p + i)) ->
  exists na', attr_pwrite na p out = (na', Ok (zlen out)) /\ done_up_to na' (p + zlen out).
Proof using All.
  intros [Hl Hb] Hp Hle Hout.
  destruct (attr_pwrite_full na p out) as [na' E]; [done | by rewrite Hl|].
  exists na'. split; [done|]. apply attr_pwrite_law in E as [_ Hw]; [|done | by rewrite Hl].
  unfold zlen in Hw at 1. rewrite Nat2Z.id, firstn_all in Hw.
  split; [apply zwrite_Some in Hw as (_ & _ & ? & _); congruence|].
  intros i Hi. rewrite (bit_at_zwrite _ _ _ _ i Hw), Hb by done. pose proof (zlen_nonneg out).
  destruct (Z.leb_spec (8 * p) i), (Z.ltb_spec i (8 * (p + zlen out))), (Z.ltb_spec i (8 * p)); cbn; try done; try lia.
  rewrite Hout by lia. f_equal. lia.
Qed.

Lemma done_up_to_end na p : done_up_to na p -> e <= 8 * p ->
  zlen (attr_data na) = zlen m0 /\ forall i, 0 <= i -> bit_at (attr_data na) i = target i.
Proof using All.
  intros [Hl Hb] Hp. split; [done|]. intros i Hi. rewrite Hb by done.
  destruct (Z.ltb_spec i (8 * p)); [done|]. unfold target. rewrite (proj2 (Z.ltb_ge i e)) by lia. by rewrite andb_false_r.
Qed.

(** The last partial byte: its old value with the low bits set. *)
Lemma last_byte na p q bit count :
  done_up_to na p -> p <= q -> 0 <= q < zlen m0 -> e = 8 * q + bit -> s <= 8 * q -> 1 <= bit < 8 -> bit <= count ->
  exists na' x x', attr_pread na q 1 = (na', Ok [x]) /\ done_up_to na' p /\
    last_bits 9 x bit count value = Some (x', count - bit) /\
    forall j, 0 <= j < 8 -> Z.testbit x' j = target (8 * q + j).
Proof using All.
  intros [Hl Hb] Hpq Hq Heq Hsq Hbit Hcnt.
  destruct (attr_pread_full na q 1) as (na' & bs & E & Hz); [lia.. |].
  pose proof E as E'. apply attr_pread_law in E' as [Hd [_ Hh]]; [|lia..].
  destruct bs as [|x [|y bs]]; [done | | rewrite !zlen_cons in Hz; pose proof (zlen_nonneg bs); lia].
  destruct (last_bits_spec 9 x bit count value) as (x' & Ex & Hx); [lia.. |].
  exists na', x, x'. split_and!; [done | by unfold done_up_to; rewrite Hd | done |].
  intros j Hj. rewrite Hx by done. destruct (bit_index q j Hj) as [Hi1 Hi2].
  assert (bit_at (attr_data na) (8 * q + j) = Z.testbit x j) as Hxj.
  { unfold bit_at. rewrite Hi1, Hi2. specialize (Hh 0). rewrite Z.add_0_r, zget_cons_0 in Hh. by rewrite Hh by (cbn; lia). }
  rewrite Hb in Hxj by lia. rewrite (proj2 (Z.ltb_ge _ (8 * p))) in Hxj by lia.
  unfold target. rewrite (proj2 (Z.leb_le s _)) by lia. cbn [andb].
  replace (8 * q + j <? e) with (j <? bit) by (apply eq_true_iff_eq; rewrite !Z.ltb_lt; lia).
  by destruct (j <? bit).
Qed.

(** The state of the loop: the window starts at byte [q - first]. *)
Record loop_inv (na : A) (q count bufsize first : Z) (buf : list Z) : Prop := {
  li_first : first = 0 \/ (first = 1 /\ s <= 8 * q);
  li_pos : 0 <= q - first < 2 ^ 31;
  li_done : done_up_to na (q - first);
  li_count : (0 <= count /\ 8 * q + count = e /\ s <= 8 * q) \/
    (count = -1 /\ e <= 8 * q /\ first = 1 /\ bufsize = 1);
  li_fits : q - first + bufsize <= zlen m0;
  li_buf : 0 <= bufsize <= zlen buf;
  li_size : bufsize <= (count + 7) / 8 + first /\ (bufsize = (count + 7) / 8 + first \/ bufsize = 8192);
  li_head : forall i, 0 <= i < 8 * first -> bit_at buf i = target (8 * (q - first) + i);
  li_fill : forall i, 8 * first <= i < 8 * zlen buf -> bit_at buf i = value }.

Lemma target_inside i : s <= i < e -> target i = value.
Proof using All. intros Hi. unfold target. rewrite (proj2 (Z.leb_le _ _)), (proj2 (Z.ltb_lt _ _)) by lia. done. Qed.

Lemma s32_pos x : 0 <= x < 2 ^ 31 -> s32 x = x.
Proof using. intros. apply s32_small. lia. Qed.

(** An iteration that handles the last partial byte is the final one. *)
Lemma set_bits_final f na q count bufsize first bit buf :
  loop_inv na q count bufsize first buf -> 0 < count -> bit = count mod 8 -> bit <> 0 ->
  (count + 7) / 8 + first <= bufsize ->
  exists na', set_bits_loop (S f) na (8 * q) count bufsize first bit buf value = Some (na', Ok tt) /\
    zlen (attr_data na') = zlen m0 /\ forall i, 0 <= i -> bit_at (attr_data na') i = target i.
Proof using All.
  intros [Hf Hp Hd Hc Hfit Hbuf [Hsz _] Hh Hv] Hc0 Hbit Hb0 Hin. destruct Hc as [(_ & Hqe & Hsq)|]; [|lia].
  pose proof (Z.div_mod count 8 ltac:(lia)) as Hdm. pose proof (Z.mod_pos_bound count 8 ltac:(lia)) as Hmb.
  assert ((count + 7) / 8 = count / 8 + 1) as Hceil.
  { symmetry. apply (Z.div_unique _ 8 _ (count mod 8 - 1)); lia. }
  set (n := count / 8) in *. rewrite Hceil in *. assert (bufsize = n + 1 + first) as -> by lia.
  assert (0 <= n) by (apply Z.div_pos; lia).
  cbn [set_bits_loop]. rewrite !shiftr3, Hceil.
  rewrite (proj2 (Z.ltb_lt 0 count)), (proj2 (Z.eqb_neq bit 0)) by lia. cbn [negb andb].
  rewrite (proj2 (Z.eqb_neq (n + 1 + first) 0)), (proj2 (Z.leb_le _ (n + 1 + first))) by lia.
  assert ((8 * q + count) / 8 = q + n) as Hq.
  { symmetry. apply (Z.div_unique _ 8 _ (count mod 8)); lia. }
  rewrite Hq.
  destruct (last_byte na (q - first) (q + n) bit count) as (na1 & x & x' & E1 & Hd1 & E2 & Hx); [done | lia.. |].
  rewrite E1. change (zlen [x] =? 1) with true. cbn [negb]. rewrite zget_cons_0. cbn [mbind option_bind].
  rewrite E2. cbn [mbind option_bind fst snd].
  destruct (zset buf (n + 1 + first - 1) x') as [buf1|] eqn:E3; [|rewrite zset_inside in E3 by lia; done].
  cbn [mbind option_bind]. pose proof (zset_Some _ _ _ _ E3) as (_ & Hl1 & _).
  replace (8 * q / 8) with q by (rewrite Z.mul_comm, Z.div_mul; lia).
  destruct (zread buf1 0 (n + 1 + first)) as [out|] eqn:E4; [|rewrite zread_inside in E4 by lia; done].
  cbn [mbind option_bind]. rewrite s32_pos by lia. pose proof (zread_Some _ _ _ _ E4) as (_ & _ & _ & Hlo & _).
  destruct (window_write na1 (q - first) out) as (na2 & E5 & Hd2); [done | lia | lia | |].
  { intros i Hi. rewrite (bit_at_zread _ _ _ _ _ E4) by lia. rewrite Z.mul_0_r, Z.add_0_l, (bit_at_zset _ _ _ _ _ E3).
    pose proof (Z.div_mod i 8 ltac:(lia)). pose proof (Z.mod_pos_bound i 8 ltac:(lia)).
    destruct (Z.eqb_spec (i / 8) (n + 1 + first - 1)).
    - rewrite Hx by lia. f_equal. lia.
    - destruct (Z.lt_ge_cases i (8 * first)); [apply Hh; lia|]. rewrite Hv by lia. symmetry. apply target_inside. lia. }
  rewrite E5, Hlo, Z.eqb_refl. cbn [negb].
  destruct (done_up_to_end na2 (q - first + zlen out) Hd2) as [HL HB]; [lia|].
  assert (exists buf2, (if negb (first =? 0) then zset buf1 0 (if value then 0xff else 0) else Some buf1) = Some buf2) as [buf2 ->].
  { destruct (Z.eqb_spec first 0); cbn [negb]; [eauto|]. rewrite zset_inside by lia. eauto. }
  cbn [mbind option_bind]. rewrite shiftl3. replace (count - bit - 8 * (n + 1 + first - first - 1)) with 0 by lia.
  change (1 =? 0) with false. change (0 =? 0) with true. change (0 <? 0) with false. cbn [negb andb].
  exists na2. done.
Qed.

(** Any other iteration writes whole bytes and moves on. *)
Lemma set_bits_window f na q count bufsize first bit buf :
  loop_inv na q count bufsize first buf -> (0 <= count -> bit = count mod 8) ->
  (0 < count -> bit <> 0 -> bufsize < (count + 7) / 8 + first) ->
  exists na' buf', done_up_to na' (q - first + bufsize) /\ zlen buf' = zlen buf /\
    (forall i, 0 <= i < 8 * zlen buf' -> first = 0 \/ 0 < bufsize -> bit_at buf' i = value) /\
    set_bits_loop (S f) na (8 * q) count bufsize first bit buf value =
      let q' := q + (bufsize - first) in
      let count' := count - 8 * (bufsize - first) in
      let bufsize' := if (count' + 7) / 8 <? bufsize then (count' + 7) / 8 else bufsize in
      if 0 <? count' then set_bits_loop f na' (8 * q') count' bufsize' 0 bit buf' value else Some (na', Ok tt).
Proof using All.
  intros [Hf Hp Hd Hc Hfit Hbuf Hsz Hh Hv] Hbit Hnin.
  cbn [set_bits_loop]. rewrite !shiftr3.
  assert (((0 <? count) && negb (bit =? 0)) && ((count + 7) / 8 + first =? 0) = false) as ->.
  { destruct (Z.ltb_spec 0 count), (Z.eqb_spec bit 0); cbn; try done.
    apply Z.eqb_neq. assert (1 <= (count + 7) / 8) by (apply Z.div_le_lower_bound; lia). lia. }
  assert (((0 <? count) && negb (bit =? 0)) && ((count + 7) / 8 + first <=? bufsize) = false) as ->.
  { destruct (Z.ltb_spec 0 count), (Z.eqb_spec bit 0); cbn; try done. apply Z.leb_gt. auto. }
  cbn [mbind option_bind]. replace (8 * q / 8) with q by (rewrite Z.mul_comm, Z.div_mul; lia).
  destruct (zread buf 0 bufsize) as [out|] eqn:E4; [|rewrite zread_inside in E4 by lia; done].
  cbn [mbind option_bind]. rewrite s32_pos by lia. pose proof (zread_Some _ _ _ _ E4) as (_ & _ & _ & Hlo & _).
  assert (count = -1 \/ 8 * (bufsize - first) <= count) as Hwhole.
  { destruct Hc as [(H0 & _)|(-> & _)]; [|by left]. right.
    pose proof (Z.div_mod count 8 ltac:(lia)). pose proof (Z.mod_pos_bound count 8 ltac:(lia)).
    destruct (decide (bit = 0)) as [Hb0|Hb0].
    - assert ((count + 7) / 8 = count / 8) by (symmetry; apply (Z.div_unique _ 8 _ 7); lia). lia.
    - assert ((count + 7) / 8 = count / 8 + 1) by (symmetry; apply (Z.div_unique _ 8 _ (count mod 8 - 1)); lia).
      destruct (decide (count = 0)) as [->|]; [lia|]. specialize (Hnin ltac:(lia) Hb0). lia. }
  destruct (window_write na (q - first) out) as (na2 & E5 & Hd2); [done | lia | lia | |].
  { intros i Hi. rewrite (bit_at_zread _ _ _ _ _ E4) by lia. rewrite Z.mul_0_r, Z.add_0_l.
    destruct (Z.lt_ge_cases i (8 * first)); [apply Hh; lia|]. rewrite Hv by lia. symmetry. apply target_inside. lia. }
  rewrite E5, Hlo, Z.eqb_refl. cbn [negb].
  assert (exists buf2, (if negb (first =? 0) then zset buf 0 (if value then 0xff else 0) else Some buf) = Some buf2 /\
    zlen buf2 = zlen buf /\ (forall i, 0 <= i < 8 * zlen buf2 -> first = 0 \/ 0 < bufsize -> bit_at buf2 i = value)) as (buf2 & -> & Hl2 & Hb2).
  { destruct (Z.eqb_spec first 0) as [->|]; cbn [negb].
    - exists buf. split_and!; try done. intros i Hi _. apply Hv. lia.
    - assert (first = 1) as -> by lia. destruct (zset buf 0 _) as [buf2|] eqn:E.
      + exists buf2. pose proof (zset_Some _ _ _ _ E) as (_ & HL & _). split_and!; try done.
        intros i Hi _. rewrite (bit_at_zset _ _ _ _ _ E).
        destruct (Z.eqb_spec (i / 8) 0) as [Hz|Hz].
        * pose proof (Z.mod_pos_bound i 8 ltac:(lia)). destruct value; [|apply Z.bits_0].
          change 255 with (Z.ones 8). apply Z.ones_spec_low. lia.
        * apply Hv. pose proof (Z.div_mod i 8 ltac:(lia)). pose proof (Z.mod_pos_bound i 8 ltac:(lia)).
          assert (0 <= i / 8) by (apply Z.div_pos; lia). lia.
      + exfalso. destruct Hsz as [H1 [H2|H2]]; [|rewrite zset_inside in E by lia; done].
        assert (0 <= (count + 7) / 8) by (apply Z.div_pos; lia). rewrite zset_inside in E by lia. done. }
  cbn [mbind option_bind]. exists na2, buf2. rewrite <-Hlo at 1. split_and!; try done.
  rewrite !shiftl3, !shiftr3. replace (bufsize - first - 0) with (bufsize - first) by lia.
  change (0 =? 0) with true. cbn [negb andb]. cbv zeta. rewrite Z.mul_add_distr_l. done.
Qed.

Lemma set_bits_loop_spec fuel na q count bufsize first bit buf :
  loop_inv na q count bufsize first buf -> (0 <= count -> bit = count mod 8) -> (Z.to_nat count < fuel)%nat ->
  exists na', set_bits_loop fuel na (8 * q) count bufsize first bit buf value = Some (na', Ok tt) /\
    zlen (attr_data na') = zlen m0 /\ forall i, 0 <= i -> bit_at (attr_data na') i = target i.
Proof using All.
  revert na q count bufsize first buf; induction fuel as [|f IH]; intros na q count bufsize first buf Hinv Hbit Hf; [lia|].
  destruct (decide (0 < count /\ bit <> 0 /\ (count + 7) / 8 + first <= bufsize)) as [(H1 & H2 & H3)|Hn].
  { apply (set_bits_final f); auto with lia. }
  destruct (set_bits_window f na q count bufsize first bit buf Hinv Hbit) as (na' & buf' & Hd & Hl & Hfill & ->); [lia|].
  pose proof Hinv as [Hfi Hp _ Hc Hfit Hbuf [Hs1 Hs2] _ _]. cbv zeta.
  destruct (Z.ltb_spec 0 (count - 8 * (bufsize - first))) as [Hpos|Hend].
  - destruct Hc as [(H0 & Hqe & Hsq)|(-> & _ & -> & ->)]; [|lia].
    pose proof (Z.div_mod count 8 ltac:(lia)) as Hdm. pose proof (Z.mod_pos_bound count 8 ltac:(lia)) as Hmb.
    assert (bufsize = 8192) as ->.
    { destruct Hs2 as [Hs2|]; [|done]. exfalso. destruct (decide (bit = 0)) as [Hb0|Hb0].
      - assert ((count + 7) / 8 = count / 8) by (symmetry; apply (Z.div_unique _ 8 _ 7); lia). lia.
      - lia. }
    set (count' := count - 8 * (8192 - first)) in *.
    assert ((count' + 7) / 8 = (count + 7) / 8 - (8192 - first)) as Hceil.
    { replace (count' + 7) with (count + 7 + (- (8192 - first)) * 8) by lia. rewrite Z.div_add by lia. lia. }
    assert (1 <= (count' + 7) / 8) by (apply Z.div_le_lower_bound; lia).
    apply IH; [|intros _|lia].
    + split.
      * left. lia.
      * replace (q + (8192 - first) - 0) with (q - first + 8192) by lia. split; [|lia].
        destruct Hfi as [->|[-> _]]; lia.
      * replace (q + (8192 - first) - 0) with (q - first + 8192) by lia. exact Hd.
      * left. lia.
      * assert (8 * (q + (8192 - first)) + count' = e) by lia.
        assert (q + (8192 - first) + (count' + 7) / 8 <= zlen m0).
        { pose proof (Z.mul_div_le (count' + 7) 8). lia. }
        destruct (Z.ltb_spec ((count' + 7) / 8) 8192); lia.
      * destruct (Z.ltb_spec ((count' + 7) / 8) 8192); lia.
      * destruct (Z.ltb_spec ((count' + 7) / 8) 8192); lia.
      * intros i Hi. lia.
      * intros i Hi. apply Hfill; lia.
    + rewrite Hbit by lia. unfold count'. replace (count - 8 * (8192 - first)) with (count + (- (8192 - first)) * 8) by lia.
      by rewrite Z.mod_add by lia.
  - exists na'. split; [done|]. apply (done_up_to_end na' (q - first + bufsize)); [done|].
    destruct Hc as [(H0 & Hqe & Hsq)|(-> & ? & -> & ->)]; lia.
Qed.

Lemma set_bits_loop_start fuel na start q count bufsize first bit buf :
  start = 8 * q ->
  loop_inv na q count bufsize first buf -> (0 <= count -> bit = count mod 8) -> (Z.to_nat count < fuel)%nat ->
  exists na', set_bits_loop fuel na start count bufsize first bit buf value = Some (na', Ok tt) /\
    zlen (attr_data na') = zlen m0 /\ forall i, 0 <= i -> bit_at (attr_data na') i = target i.
Proof using All. intros ->. apply set_bits_loop_spec. Qed.

Lemma align_up x : Z.land (x + 7) (Z.lnot 7) = 8 * ((x + 7) / 8).
Proof using.
  rewrite <-Z.ldiff_land. change 7 with (Z.ones 3) at 2. rewrite Z.ldiff_ones_r by lia.
  rewrite shiftl3, shiftr3. done.
Qed.

Lemma bufsize_cap n : (if 8192 <? n then 8192 else n) = Z.min n 8192.
Proof using. destruct (Z.ltb_spec 8192 n); lia. Qed.

(** The partial first byte of an unaligned run. *)
Lemma first_byte na : attr_data na = m0 -> s mod 8 <> 0 ->
  exists na' x x' count', attr_pread na (s / 8) 1 = (na', Ok [x]) /\ attr_data na' = m0 /\
    first_bits 9 x (s mod 8) (e - s) value = Some (x', count') /\
    (forall i, 0 <= i < 8 -> Z.testbit x' i = target (8 * (s / 8) + i)) /\
    count' = if 8 - s mod 8 <=? e - s then e - s - (8 - s mod 8) else -1.
Proof using All.
  intros Hna Hs8. pose proof (Z.div_mod s 8 ltac:(lia)). pose proof (Z.mod_pos_bound s 8 ltac:(lia)).
  assert (0 <= s / 8) by (apply Z.div_pos; lia).
  destruct (attr_pread_full na (s / 8) 1) as (na' & bs & E & Hz); [lia | lia | rewrite Hna; lia |].
  pose proof E as E'. apply attr_pread_law in E' as [Hd [_ Hh]]; [|lia..]. rewrite Hna in *.
  destruct bs as [|x [|y bs]]; [done | | rewrite !zlen_cons in Hz; pose proof (zlen_nonneg bs); lia].
  destruct (first_bits_spec 9 x (s mod 8) (e - s) value) as (x' & c' & Ex & Hx & Hc); [lia.. |].
  exists na', x, x', c'. split_and!; try done. intros j Hj. rewrite Hx by done.
  destruct (bit_index (s / 8) j Hj) as [Hi1 Hi2].
  assert (bit_at m0 (8 * (s / 8) + j) = Z.testbit x j) as Hxj.
  { unfold bit_at. rewrite Hi1, Hi2. specialize (Hh 0). rewrite Z.add_0_r, zget_cons_0 in Hh. by rewrite Hh by (cbn; lia). }
  unfold target. rewrite Hxj.
  replace (s <=? 8 * (s / 8) + j) with (s mod 8 <=? j) by (apply eq_true_iff_eq; rewrite !Z.leb_le; lia).
  by replace (8 * (s / 8) + j <? e) with (j <? s mod 8 + (e - s)) by (apply eq_true_iff_eq; rewrite !Z.ltb_lt; lia).
Qed.

Lemma done_up_to_start na p : attr_data na = m0 -> 8 * p <= s -> done_up_to na p.
Proof using All.
  intros Hna Hp. split; [by rewrite Hna|]. intros i Hi. rewrite Hna. destruct (Z.ltb_spec i (8 * p)); [|done].
  unfold target. by rewrite (proj2 (Z.leb_gt s i)) by lia.
Qed.

Lemma set_bits_in_run_spec na : attr_data na = m0 ->
  exists na', ntfs_bitmap_set_bits_in_run na s (e - s) value = Some (na', Ok tt) /\
    zlen (attr_data na') = zlen m0 /\ forall i, 0 <= i -> bit_at (attr_data na') i = target i.
Proof using All.
  intros Hna. unfold ntfs_bitmap_set_bits_in_run.
  rewrite (proj2 (Z.ltb_ge s 0)), (proj2 (Z.ltb_ge (e - s) 0)) by lia. cbn [orb].
  rewrite !land7, !shiftr3, bufsize_cap, align_up. pose proof (Z.div_mod s 8 ltac:(lia)) as Hdm.
  pose proof (Z.mod_pos_bound s 8 ltac:(lia)) as Hmb. assert (0 <= s / 8) by (apply Z.div_pos; lia).
  destruct (Z.eqb_spec (s mod 8) 0) as [H0|H0]; cbn [negb].
  - cbn [mbind option_bind]. rewrite Z.sub_0_r, Z.add_0_r, land7.
    assert (0 <= (e - s + 7) / 8) by (apply Z.div_pos; lia).
    pose proof (Z.mul_div_le (e - s + 7) 8 ltac:(lia)).
    apply (set_bits_loop_start _ _ _ (s / 8)); [lia | |done|lia].
    split; rewrite ?zlen_replicate; try lia.
    + rewrite Z.sub_0_r. apply done_up_to_start; [done | lia].
    + intros i Hi. apply bit_at_fill. lia.
  - destruct (first_byte na Hna H0) as (na' & x & x' & c' & E1 & Hna' & E2 & Hx & Hc').
    rewrite E1. change (zlen [x] =? 1) with true. cbn [negb]. rewrite zget_cons_0. cbn [mbind option_bind].
    rewrite E2. cbn [mbind option_bind fst snd].
    set (n := Z.min ((e - s - (8 - s mod 8) + 7) / 8 + 1) 8192).
    assert (0 <= (e - s - (8 - s mod 8) + 7) / 8) as Hn0 by (apply Z.div_pos; lia).
    assert (1 <= n <= 8192 /\ n <= (e - s - (8 - s mod 8) + 7) / 8 + 1 /\
      (n = (e - s - (8 - s mod 8) + 7) / 8 + 1 \/ n = 8192)) as Hn by lia.
    clearbody n. set (buf := replicate (Z.to_nat n) _).
    assert (zlen buf = n) as Hbl by (unfold buf; rewrite zlen_replicate; lia).
    destruct (zset buf 0 x') as [buf1|] eqn:E3; [|rewrite zset_inside in E3 by lia; done].
    cbn [mbind option_bind]. pose proof (zset_Some _ _ _ _ E3) as (_ & Hl1 & _).
    assert ((s + 7) / 8 = s / 8 + 1) as Hq by (symmetry; apply (Z.div_unique _ 8 _ (s mod 8 - 1)); lia).
    rewrite Hq, land7. pose proof (Z.mul_div_le (e - s - (8 - s mod 8) + 7) 8 ltac:(lia)) as Hceil.
    apply (set_bits_loop_start _ _ _ (s / 8 + 1)); [done | |done|lia].
    split; rewrite ?Hl1; replace (s / 8 + 1 - 1) with (s / 8) by lia.
    + right. lia.
    + lia.
    + apply done_up_to_start; [done | lia].
    + destruct (Z.leb_spec (8 - s mod 8) (e - s)); [left; lia | right].
      assert ((e - s - (8 - s mod 8) + 7) / 8 = 0) by (apply Z.div_small; lia). lia.
    + destruct (Z.leb_spec (8 - s mod 8) (e - s)); [lia|].
      assert ((e - s - (8 - s mod 8) + 7) / 8 = 0) by (apply Z.div_small; lia). lia.
    + lia.
    + destruct (Z.leb_spec (8 - s mod 8) (e - s)); [rewrite Hc'; lia|].
      assert ((e - s - (8 - s mod 8) + 7) / 8 = 0) by (apply Z.div_small; lia). rewrite Hc'. change ((-1 + 7) / 8) with 0. lia.
    + intros i Hi. rewrite (bit_at_zset _ _ _ _ _ E3). rewrite Z.div_small, Z.mod_small by lia. cbn [Z.eqb]. apply Hx. lia.
    + intros i Hi. rewrite (bit_at_zset _ _ _ _ _ E3).
      assert (1 <= i / 8) by (apply Z.div_le_lower_bound; lia). rewrite (proj2 (Z.eqb_neq _ 0)) by lia.
      apply bit_at_fill. lia.
Qed.

End run.

(** ** Properties *)

(** C16: setting or clearing a run of bits in a bitmap attribute changes
    exactly the bits of the run, however it is aligned and however many 8 KiB
    windows it takes, and keeps the attribute's size. *)
Theorem bitmap_set_run_correct {A} `{AttrReliable A} `{!AttrLaws A} (na : A) start_bit count (value : bool) :
  0 <= start_bit -> 0 <= count -> start_bit + count <= 8 * zlen (attr_data na) -> start_bit + count < 2 ^ 33 ->
  exists na', (if value then ntfs_bitmap_set_run na start_bit count else ntfs_bitmap_clear_run na start_bit count)
      = Some (na', Ok tt) /\
    zlen (attr_data na') = zlen (attr_data na) /\
    forall i, 0 <= i -> bit_at (attr_data na') i
      = if (start_bit <=? i) && (i <? start_bit + count) then value else bit_at (attr_data na) i.
Proof.
  intros Hs Hc Hb Hm.
  destruct (set_bits_in_run_spec (attr_data na) value start_bit (start_bit + count) ltac:(lia) Hb Hm na eq_refl) as (na' & E & HL & HB).
  replace (start_bit + count - start_bit) with count in E by lia. exists na'. split; [by destruct value | done].
Qed.

(** ntfs_bit_get_and_set returns the bit's old value and stores the new
    one, leaving every other bit alone. *)
Theorem bit_get_and_set_correct bm bit new_value :
  wf_bytes bm -> 0 <= bit < 8 * zlen bm -> 0 <= new_value <= 1 ->
  exists bm', ntfs_bit_get_and_set (Some bm) bit new_value = Some (Some bm', Z.b2z (bit_at bm bit)) /\
    ntfs_bit_get (Some bm') bit = Some new_value /\ zlen bm' = zlen bm /\
    forall i, i <> bit -> bit_at bm' i = bit_at bm i.
Proof.
  intros Hw Hb Hv. destruct (bit_get_and_set_spec bm bit new_value Hw Hb Hv) as (bm' & E & Hl & Hbits).
  exists bm'. split_and!; [done | | done |].
  - rewrite bit_get_spec by lia. rewrite Hbits, Z.eqb_refl. f_equal. destruct (Z.eqb_spec new_value 0); cbn; lia.
  - intros i Hi. rewrite Hbits. by rewrite (proj2 (Z.eqb_neq i bit)).
Qed.

Lemma bitmap_set_run_correct_witness :
  exists na', ntfs_bitmap_set_run (replicate 16 0xaa) 13 57 = Some (na', Ok tt) /\
    zlen (attr_data na') = zlen (attr_data (replicate 16 0xaa)) /\
    forall i, 0 <= i -> bit_at (attr_data na') i
      = if (13 <=? i) && (i <? 13 + 57) then true else bit_at (attr_data (replicate 16 0xaa)) i.
Proof. apply (bitmap_set_run_correct (replicate 16 0xaa) 13 57 true); vm_compute; discriminate || reflexivity. Defined.

Lemma bit_get_and_set_correct_witness :
  exists bm', ntfs_bit_get_and_set (Some [0xaa; 0x0f]) 9 0 = Some (Some bm', Z.b2z (bit_at [0xaa; 0x0f] 9)) /\
    ntfs_bit_get (Some bm') 9 = Some 0 /\ zlen bm' = zlen [0xaa; 0x0f] /\
    forall i, i <> 9 -> bit_at bm' i = bit_at [0xaa; 0x0f] i.
Proof. apply (bit_get_and_set_correct [0xaa; 0x0f] 9 0); [wf_concrete | vm_compute; intuition discriminate | lia]. Defined.
