(* ===== verification/Lcnalloc.v ===== *)
(** Cluster allocation (libntfs-3g/lcnalloc.c): clusters are taken from and given
    back to the bitmap of the volume, which is an attribute (AttrIo). *)

From S2P Require Import Prelude Runlist AttrIo Bitmap.
Local Open Scope Z_scope.
Local Open Scope c_scope.
Set Default Proof Using "Type*".

Definition NTFS_LCNALLOC_BSIZE : Z := 4096.
Definition NTFS_LCNALLOC_SKIP : Z := NTFS_LCNALLOC_BSIZE.
Definition ZONE_MFT : Z := 1.
Definition ZONE_DATA1 : Z := 2.
Definition ZONE_DATA2 : Z := 4.

(** NTFS_CLUSTER_ALLOCATION_ZONES, an enum that C callers may hand any number. *)
Definition MFT_ZONE : Z := 0.
Definition DATA_ZONE : Z := 1.
Definition FIRST_ZONE : Z := 0.
Definition LAST_ZONE : Z := 1.

(** The fields of struct _ntfs_volume that the allocator uses. *)
Record ntfs_volume (A : Type) := Volume {
  full_zones : Z; mft_zone_start : Z; mft_zone_end : Z; mft_zone_pos : Z;
  data1_zone_pos : Z; data2_zone_pos : Z; nr_clusters : Z; lcnbmp_na : A; mft_lcn : Z; free_clusters : Z }.
Arguments Volume {A}. Arguments full_zones {A}. Arguments mft_zone_start {A}. Arguments mft_zone_end {A}.
Arguments mft_zone_pos {A}. Arguments data1_zone_pos {A}. Arguments data2_zone_pos {A}. Arguments nr_clusters {A}.
Arguments lcnbmp_na {A}. Arguments mft_lcn {A}. Arguments free_clusters {A}.

(** ** Zones *)

Section zones.
Context {A : Type}.
Implicit Types vol : ntfs_volume A.

Definition set_full_zones vol z : ntfs_volume A :=
  Volume z (mft_zone_start vol) (mft_zone_end vol) (mft_zone_pos vol) (data1_zone_pos vol) (data2_zone_pos vol)
         (nr_clusters vol) (lcnbmp_na vol) (mft_lcn vol) (free_clusters vol).
Definition set_zone_positions vol m d1 d2 : ntfs_volume A :=
  Volume (full_zones vol) (mft_zone_start vol) (mft_zone_end vol) m d1 d2 (nr_clusters vol) (lcnbmp_na vol) (mft_lcn vol) (free_clusters vol).
Definition set_lcnbmp vol na : ntfs_volume A :=
  Volume (full_zones vol) (mft_zone_start vol) (mft_zone_end vol) (mft_zone_pos vol) (data1_zone_pos vol) (data2_zone_pos vol)
         (nr_clusters vol) na (mft_lcn vol) (free_clusters vol).
Definition set_free_clusters vol n : ntfs_volume A :=
  Volume (full_zones vol) (mft_zone_start vol) (mft_zone_end vol) (mft_zone_pos vol) (data1_zone_pos vol) (data2_zone_pos vol)
         (nr_clusters vol) (lcnbmp_na vol) (mft_lcn vol) n.

(** The new value of [*pos]. *)
Definition ntfs_cluster_set_zone_pos (start end_ pos tc : Z) : Z :=
  if end_ <=? tc then start else if start <=? tc then tc else pos.

Definition ntfs_cluster_update_zone_pos vol (zone tc : Z) : ntfs_volume A :=
  if zone =? ZONE_MFT then
    set_zone_positions vol (ntfs_cluster_set_zone_pos (mft_lcn vol) (mft_zone_end vol) (mft_zone_pos vol) tc) (data1_zone_pos vol) (data2_zone_pos vol)
  else if zone =? ZONE_DATA1 then
    set_zone_positions vol (mft_zone_pos vol) (ntfs_cluster_set_zone_pos (mft_zone_end vol) (nr_clusters vol) (data1_zone_pos vol) tc) (data2_zone_pos vol)
  else
    set_zone_positions vol (mft_zone_pos vol) (data1_zone_pos vol) (ntfs_cluster_set_zone_pos 0 (mft_zone_start vol) (data2_zone_pos vol) tc).

(** A full zone gets a position and loses its mark. *)
Definition unmark_full vol (zone lcn : Z) : ntfs_volume A :=
  if negb (Z.land (full_zones vol) zone =? 0) then
    let vol := ntfs_cluster_update_zone_pos vol zone lcn in
    set_full_zones vol (Z.land (full_zones vol) (Z.lnot zone))
  else vol.

Definition update_full_status vol (lcn : Z) : ntfs_volume A :=
  if mft_zone_end vol <=? lcn then unmark_full vol ZONE_DATA1 lcn
  else if lcn <? mft_zone_start vol then unmark_full vol ZONE_DATA2 lcn
  else unmark_full vol ZONE_MFT lcn.
End zones.

(** ** The largest free range of a buffer *)

(** [do { buf++; run += 8; i++; } while ((i < size) && !*buf)] *)
Fixpoint zero_bytes (fuel : nat) (buf : list Z) (size i run : Z) : option (Z * Z) :=
  match fuel with
  | O => None
  | S f =>
      let i := i + 1 in
      let run := run + 8 in
      if i <? size then x ← buf.[i]; if x =? 0 then zero_bytes f buf size i run else Some (i, run) else Some (i, run)
  end.

Fixpoint full_bytes (fuel : nat) (buf : list Z) (size i : Z) : option Z :=
  match fuel with
  | O => None
  | S f =>
      let i := i + 1 in
      if i <? size then x ← buf.[i]; if x =? 255 then full_bytes f buf size i else Some i else Some i
  end.

(** [for (j = 0; j < 8; j++)]: [left] turns to go. *)
Fixpoint byte_bits (left : nat) (x i j run max_range start_pos : Z) : Z * Z * Z :=
  match left with
  | O => (run, max_range, start_pos)
  | S l =>
      if Z.testbit x j then
        if max_range <? run then byte_bits l x i (j + 1) 0 run (i * 8 + (j - run))
        else byte_bits l x i (j + 1) 0 max_range start_pos
      else byte_bits l x i (j + 1) (run + 1) max_range start_pos
  end.

Fixpoint range_loop (fuel : nat) (buf : list Z) (size i run max_range start_pos : Z) : option Z :=
  match fuel with
  | O => None
  | S f =>
      if i <? size then
        x ← buf.[i];
        if x =? 0 then
          r ← zero_bytes (S (length buf)) buf size i run;
          range_loop f buf size (fst r) (snd r) max_range start_pos
        else if x =? 255 then
          let '(max_range, start_pos) := if max_range <? run then (run, i * 8 - run) else (max_range, start_pos) in
          i ← full_bytes (S (length buf)) buf size i;
          range_loop f buf size i 0 max_range start_pos
        else
          let '(run, max_range, start_pos) := byte_bits 8 x i 0 run max_range start_pos in
          range_loop f buf size (i + 1) run max_range start_pos
      else Some (if max_range <? run then i * 8 - run else start_pos)
  end.

Definition max_empty_bit_range (buf : list Z) (size : Z) : option Z :=
  range_loop (S (length buf)) buf size 0 0 0 (-1).

(** ** Freeing *)

Section free.
Context {A : Type} `{!AttrOps A}.
Implicit Types vol : ntfs_volume A.

(** Clear a run of the bitmap. *)
Definition clear_run vol (lcn count : Z) : option (ntfs_volume A * result unit) :=
  r ← ntfs_bitmap_clear_run (lcnbmp_na vol) lcn count; Some (set_lcnbmp vol (fst r), snd r).

(** [for (; rl->length; rl++)], with the count of freed clusters. *)
Fixpoint free_from_rl_loop vol (rl : runlist) (nr_freed : Z) : option (ntfs_volume A * result unit * Z) :=
  match rl with
  | [] => None
  | e :: t =>
      if len e =? 0 then Some (vol, Ok tt, nr_freed)
      else if 0 <=? lcn e then
        r ← clear_run (update_full_status vol (lcn e)) (lcn e) (len e);
        match r with
        | (vol, Err e) => Some (vol, Err e, nr_freed)
        | (vol, Ok _) => free_from_rl_loop vol t (nr_freed + len e)
        end
      else free_from_rl_loop vol t nr_freed
  end.

Definition ntfs_cluster_free_from_rl vol (rl : runlist) : option (ntfs_volume A * result unit) :=
  r ← free_from_rl_loop vol rl 0;
  let '(vol, ret, nr_freed) := r in
  Some (set_free_clusters vol (free_clusters vol + nr_freed), ret).

Definition ntfs_cluster_free_basic vol (lcn count : Z) : option (ntfs_volume A * result unit) :=
  if 0 <=? lcn then
    r ← clear_run (update_full_status vol lcn) lcn count;
    match r with
    | (vol, Err e) => Some (vol, Err e)
    | (vol, Ok _) => Some (set_free_clusters vol (free_clusters vol + count), Ok tt)
    end
  else Some (vol, Ok tt).

(** An attribute with a runlist; ntfs_attr_map_runlist loads more of the runlist
    from the MFT records of the attribute. *)
Context {B : Type} (NAttrNonResident : B -> bool) (attr_rl : B -> option runlist) (ntfs_attr_map_runlist : B -> Z -> B * result unit).
Implicit Types na : B.

(** The loop of ntfs_attr_find_vcn: the index of the run, or the lcn of the
    element the loop stops at. *)
Fixpoint find_run (rl : runlist) (i v : Z) : option (Z + Z) :=
  match rl with
  | [] => None
  | e :: t =>
      if len e =? 0 then Some (inr (lcn e))
      else
        e1 ← t.[0];
        if v <? vcn e1 then Some (if LCN_HOLE <=? lcn e then inl i else inr (lcn e)) else find_run t (i + 1) v
  end.

(** The part behind the label retry; [None] inside means map_rl. *)
Definition find_mapped na (v : Z) : option (option (result Z)) :=
  match attr_rl na with
  | None => Some None
  | Some rl =>
      e0 ← rl.[0];
      if v <? vcn e0 then Some None
      else
        r ← find_run rl 0 v;
        Some (match r with
              | inl i => Some (Ok i)
              | inr l =>
                  if l =? LCN_RL_NOT_MAPPED then None
                  else if l =? LCN_ENOENT then Some (Err ENOENT)
                  else if l =? LCN_EINVAL then Some (Err EINVAL)
                  else Some (Err EIO)
              end)
  end.

Definition ntfs_attr_find_vcn na (v : Z) : option (B * result Z) :=
  if negb (NAttrNonResident na) || (v <? 0) then Some (na, Err EINVAL)
  else
    r ← find_mapped na v;
    match r with
    | Some r => Some (na, r)
    | None =>
        match ntfs_attr_map_runlist na v with
        | (na, Ok _) => r ← find_mapped na v; Some (na, match r with Some r => r | None => Err EIO end)
        | (na, Err EINVAL) | (na, Err ENOENT) => Some (na, Err EIO)
        | (na, Err e) => Some (na, Err e)
        end
    end.

(** The runs behind the first one, [count] as a cap. *)
Fixpoint free_runs_loop vol (rl : runlist) (count nr_freed : Z) : option (ntfs_volume A * result Z * Z) :=
  match rl with
  | [] => None
  | e :: t =>
      if negb (len e =? 0) && negb (count =? 0) then
        if (lcn e <? 0) && negb (lcn e =? LCN_HOLE) then Some (vol, Err EIO, nr_freed)
        else
          let to_free := if (0 <=? count) && (count <? len e) then count else len e in
          let count' := if 0 <=? count then count - to_free else count in
          if negb (lcn e =? LCN_HOLE) then
            r ← clear_run (update_full_status vol (lcn e)) (lcn e) to_free;
            match r with
            | (vol, Err e) => Some (vol, Err e, nr_freed)
            | (vol, Ok _) => free_runs_loop vol t count' (nr_freed + to_free)
            end
          else free_runs_loop vol t count' nr_freed
      else Some (vol, Ok count, nr_freed)
  end.

(** The number of freed clusters is returned in an int. *)
Definition ntfs_cluster_free vol na (start_vcn count : Z) : option (ntfs_volume A * B * result Z) :=
  if (start_vcn <? 0) || ((count <? 0) && negb (count =? -1)) then Some (vol, na, Err EINVAL)
  else
    r ← ntfs_attr_find_vcn na start_vcn;
    match r with
    | (na, Err ENOENT) => Some (vol, na, Ok 0)
    | (na, Err e) => Some (vol, na, Err e)
    | (na, Ok i) =>
        rl ← attr_rl na;
        e ← rl.[i];
        if (lcn e <? 0) && negb (lcn e =? LCN_HOLE) then Some (vol, na, Err EIO)
        else
          let delta := start_vcn - vcn e in
          let to_free := if (0 <=? count) && (count <? len e - delta) then count else len e - delta in
          r ← (if negb (lcn e =? LCN_HOLE) then
                 r ← clear_run (update_full_status vol (lcn e + delta)) (lcn e + delta) to_free;
                 Some (fst r, match snd r with Ok _ => Ok to_free | Err e => Err e end)
               else Some (vol, Ok 0));
          match r with
          | (vol, Err e) => Some (vol, na, Err e)
          | (vol, Ok nr_freed) =>
              let count := if 0 <=? count then count - to_free else count in
              r ← free_runs_loop vol (drop (Z.to_nat (i + 1)) rl) count nr_freed;
              let '(vol, r, nr_freed) := r in
              let ret := match r with
                         | Err e => Err e
                         | Ok count => if negb (count =? -1) && negb (count =? 0) then Err EIO else Ok (s32 nr_freed)
                         end in
              Some (set_free_clusters vol (free_clusters vol + nr_freed), na, ret)
          end
    end.
End free.

(** ** Allocation *)

Section alloc.
Context {A : Type} `{!AttrOps A}.
Implicit Types vol : ntfs_volume A.

(** Whether malloc and realloc find so many bytes; what realloc leaves in the
    elements it adds; the value errno has when a write is short. *)
Context (memory : Z -> bool) (junk : runlist_element) (old_errno : errno).

Definition bitmap_writeback vol (pos size : Z) (b : list Z) (writeback : bool) : option (ntfs_volume A * result unit) :=
  if negb writeback then Some (vol, Ok tt)
  else
    bs ← zread b 0 size;
    let '(na, r) := attr_pwrite (lcnbmp_na vol) pos bs in
    let vol := set_lcnbmp vol na in
    Some (match r with
          | Err e => (vol, Err e)
          | Ok written => if negb (written =? size) then (vol, Err (if written =? 0 then EIO else old_errno)) else (vol, Ok tt)
          end).

(** The local variables that the loops share. *)
Record locals := Locals {
  l_vol : ntfs_volume A; rl : runlist; rlpos : Z; rlsize : Z; prev_lcn : Z; prev_run_len : Z;
  clusters : Z; has_guess : bool; buf : list Z; writeback : bool }.
Implicit Types s : locals.

Definition set_vol s vol : locals :=
  Locals vol (rl s) (rlpos s) (rlsize s) (prev_lcn s) (prev_run_len s) (clusters s) (has_guess s) (buf s) (writeback s).
Definition set_guess s g : locals :=
  Locals (l_vol s) (rl s) (rlpos s) (rlsize s) (prev_lcn s) (prev_run_len s) (clusters s) g (buf s) (writeback s).
Definition set_buf s vol b : locals :=
  Locals vol (rl s) (rlpos s) (rlsize s) (prev_lcn s) (prev_run_len s) (clusters s) (has_guess s) b false.

(** sizeof(runlist) *)
Definition ELEMENT : Z := 24.

(** Room for two more elements; [None] inside is the failure of realloc. *)
Definition grow_rl s : option locals :=
  if rlsize s <=? s32 ((rlpos s + 2) * ELEMENT) then
    let rlsize := rlsize s + 4096 in
    if memory rlsize then
      Some (Locals (l_vol s) (rl s ++ replicate (Z.to_nat (rlsize / ELEMENT - zlen (rl s))) junk) (rlpos s) rlsize
                   (prev_lcn s) (prev_run_len s) (clusters s) (has_guess s) (buf s) (writeback s))
    else None
  else Some s.

(** Coalesce with the previous run if adjacent, otherwise append a new run. *)
Definition add_cluster s (start_vcn c : Z) : option locals :=
  if (prev_lcn s =? c - prev_run_len s) && negb (rlpos s =? 0) then
    rl' ← upd (rl s) (rlpos s - 1) (fun e => set_len e (prev_run_len s + 1));
    Some (Locals (l_vol s) rl' (rlpos s) (rlsize s) (prev_lcn s) (prev_run_len s + 1) (clusters s) (has_guess s) (buf s) (writeback s))
  else
    v ← (if negb (rlpos s =? 0) then e ← (rl s).[rlpos s - 1]; Some (vcn e + prev_run_len s) else Some start_vcn);
    rl' ← zset (rl s) (rlpos s) (RL v c 1);
    Some (Locals (l_vol s) rl' (rlpos s + 1) (rlsize s) c 1 (clusters s) (has_guess s) (buf s) (writeback s)).

(** The bit of [lcn] in the buffer is set, and one cluster less is free and wanted. *)
Definition take_bit s (lcn x : Z) : option locals :=
  b ← zset (buf s) (Z.shiftr lcn 3) (put_bit x (Z.land lcn 7) true);
  let vol := l_vol s in
  let vol := if free_clusters vol <=? 0 then vol else set_free_clusters vol (free_clusters vol - 1) in
  Some (Locals vol (rl s) (rlpos s) (rlsize s) (prev_lcn s) (prev_run_len s) (clusters s - 1) (has_guess s) b true).

Inductive outcome := Exhausted | Done (lcn : Z) | NoMemory.

(** [while (lcn < buf_size)] *)
Fixpoint alloc_loop (fuel : nat) s (start_vcn br bmp_pos lcn : Z) : option (locals * outcome) :=
  match fuel with
  | O => None
  | S f =>
      if lcn <? 8 * br then
        x ← (buf s).[Z.shiftr lcn 3];
        if has_guess s then
          if Z.testbit x (Z.land lcn 7) then Some (set_guess s false, Exhausted)
          else
            match grow_rl s with
            | None => Some (s, NoMemory)
            | Some s =>
                s ← take_bit s lcn x;
                s ← add_cluster s start_vcn (lcn + bmp_pos);
                if clusters s =? 0 then Some (s, Done lcn) else alloc_loop f s start_vcn br bmp_pos (lcn + 1)
            end
        else
          lcn ← max_empty_bit_range (buf s) br;
          if lcn <? 0 then Some (s, Exhausted) else alloc_loop f (set_guess s true) start_vcn br bmp_pos lcn
      else Some (s, Exhausted)
  end.

(** The search position. *)
Record search := Search {
  pass : Z; search_zone : Z; done_zones : Z; zone_start : Z; zone_end : Z; bmp_pos : Z; used_zone_pos : bool }.
Implicit Types p : search.

Definition is_zone_start vol (pos : Z) : bool := (pos =? 0) || (pos =? mft_zone_start vol) || (pos =? mft_zone_end vol).

Definition zone_pos vol (zone : Z) : Z :=
  if zone =? ZONE_MFT then mft_zone_pos vol else if zone =? ZONE_DATA1 then data1_zone_pos vol else data2_zone_pos vol.

(** After a buffer of [buf_size] bits, when it is not the last: on to the zone
    position when a hint was given, or behind the buffer. *)
Definition next_buffer vol p (buf_size : Z) : search :=
  let bmp_pos := Z.land (bmp_pos p) (Z.lnot 7) in
  if negb (used_zone_pos p) then
    let start := zone_pos vol (search_zone p) in
    Search (if is_zone_start vol start then 2 else pass p) (search_zone p) (done_zones p) start (zone_end p) start true
  else Search (pass p) (search_zone p) (done_zones p) (zone_start p) (zone_end p) (bmp_pos + buf_size) true.

(** [switch (search_zone)]: the zone that follows. *)
Definition switch_zone vol p : search :=
  let to zone start end_ begin := Search (if start =? begin then 2 else 1) zone (done_zones p) start end_ start (used_zone_pos p) in
  let data1 := to ZONE_DATA1 (data1_zone_pos vol) (nr_clusters vol) (mft_zone_end vol) in
  if search_zone p =? ZONE_MFT then data1
  else if search_zone p =? ZONE_DATA1 then to ZONE_DATA2 (data2_zone_pos vol) (mft_zone_start vol) 0
  else if Z.land (done_zones p) ZONE_DATA1 =? 0 then data1
  else to ZONE_MFT (mft_zone_pos vol) (mft_zone_end vol) (mft_zone_start vol).

(** The label done_zones_check; [None] inside means no space on the device. *)
Fixpoint done_zones_check (fuel : nat) s p : option (locals * option search) :=
  match fuel with
  | O => None
  | S f =>
      let done := Z.lor (done_zones p) (search_zone p) in
      let vol := set_full_zones (l_vol s) (Z.lor (full_zones (l_vol s)) (search_zone p)) in
      if done <? ZONE_MFT + ZONE_DATA1 + ZONE_DATA2 then
        vol ← (if negb (rlpos s =? 0) then
                 e ← (rl s).[rlpos s - 1];
                 Some (if used_zone_pos p then ntfs_cluster_update_zone_pos vol (search_zone p) (lcn e + len e + NTFS_LCNALLOC_SKIP) else vol)
               else Some vol);
        let p := switch_zone vol (Search 1 (search_zone p) done (zone_start p) (zone_end p) (bmp_pos p) (used_zone_pos p)) in
        if zone_start p =? zone_end p then done_zones_check f (set_vol s vol) p
        else Some (set_vol s vol, Some p)
      else Some (set_vol s vol, None)
  end.

(** The label zone_pass_done. *)
Definition zone_pass_done s p : option (locals * option search) :=
  if pass p =? 1 then
    let vol := l_vol s in
    let start := if search_zone p =? ZONE_MFT then mft_zone_start vol
                 else if search_zone p =? ZONE_DATA1 then mft_zone_end vol else 0 in
    let end_ := if zone_start p <? start then start else zone_start p in
    Some (s, Some (Search 2 (search_zone p) (done_zones p) start end_ start (used_zone_pos p)))
  else done_zones_check 8 s p.

(** The loop over buffers: it ends at done_ret (with the read position, the bytes
    read and the bit), or at err_ret with an error. *)
Inductive found := Found (pos br lcn : Z) | Failed (e : errno).

Fixpoint search_loop (fuel : nat) s p (start_vcn : Z) : option (locals * search * found) :=
  match fuel with
  | O => None
  | S f =>
      let pass_done s :=
        r ← zone_pass_done s p;
        match r with
        | (s, Some p) => search_loop f s p start_vcn
        | (s, None) => Some (s, p, Failed ENOSPC)
        end in
      if negb (Z.land (search_zone p) (full_zones (l_vol s)) =? 0) then pass_done s
      else
        let last_read_pos := Z.shiftr (bmp_pos p) 3 in
        let '(na, r) := attr_pread (lcnbmp_na (l_vol s)) last_read_pos NTFS_LCNALLOC_BSIZE in
        match r with
        | Err e => Some (set_vol s (set_lcnbmp (l_vol s) na), p, Failed e)
        | Ok bs =>
            let br := zlen bs in
            if br =? 0 then pass_done (set_vol s (set_lcnbmp (l_vol s) na))
            else
              b ← zwrite (buf s) 0 bs;
              let s := set_buf s (set_lcnbmp (l_vol s) na) b in
              r ← alloc_loop (Z.to_nat (8 * br + 2)) s start_vcn br (Z.land (bmp_pos p) (Z.lnot 7)) (Z.land (bmp_pos p) 7);
              match r with
              | (s, Done lcn) => Some (s, p, Found last_read_pos br lcn)
              | (s, NoMemory) =>
                  r ← bitmap_writeback (l_vol s) last_read_pos br (buf s) (writeback s);
                  Some (set_vol s (fst r), p, Failed (match snd r with Err e => e | Ok _ => ENOMEM end))
              | (s, Exhausted) =>
                  r ← bitmap_writeback (l_vol s) last_read_pos br (buf s) (writeback s);
                  match r with
                  | (vol, Err e) => Some (set_vol s vol, p, Failed e)
                  | (vol, Ok _) =>
                      let s := set_vol s vol in
                      let p' := next_buffer vol p (8 * br) in
                      if bmp_pos p' <? zone_end p' then search_loop f s p' start_vcn
                      else
                        r ← zone_pass_done s p';
                        match r with
                        | (s, Some p) => search_loop f s p start_vcn
                        | (s, None) => Some (s, p', Failed ENOSPC)
                        end
                  end
              end
        end
  end.

(** The terminator behind the last run. *)
Definition terminate s : option runlist :=
  e ← (rl s).[rlpos s - 1]; zset (rl s) (rlpos s) (RL (vcn e + len e) LCN_RL_NOT_MAPPED 0).

(** The label err_ret: what was allocated is given back. *)
Definition err_ret s (e : errno) : option (ntfs_volume A * result runlist) :=
  if rlsize s =? 0 then Some (l_vol s, Err e)
  else rl ← terminate s; r ← ntfs_cluster_free_from_rl (l_vol s) rl; Some (fst r, Err e).

(** The first zone and position. *)
Definition first_search vol (start_lcn zone : Z) : search :=
  let has_guess := 0 <=? start_lcn in
  let start := if has_guess then start_lcn else if zone =? DATA_ZONE then data1_zone_pos vol else mft_zone_pos vol in
  let pass := if is_zone_start vol start then 2 else 1 in
  if start <? mft_zone_start vol then Search pass ZONE_DATA2 0 start (mft_zone_start vol) start (negb has_guess)
  else if start <? mft_zone_end vol then Search pass ZONE_MFT 0 start (mft_zone_end vol) start (negb has_guess)
  else Search pass ZONE_DATA1 0 start (nr_clusters vol) start (negb has_guess).

Definition ntfs_cluster_alloc (fuel : nat) vol (start_vcn count start_lcn zone : Z) : option (ntfs_volume A * result runlist) :=
  if (count <? 0) || (start_lcn <? -1) || (zone <? FIRST_ZONE) || (LAST_ZONE <? zone) then Some (vol, Err EINVAL)
  else if count =? 0 then
    Some (vol, if memory 4096 then Ok (RL start_vcn LCN_RL_NOT_MAPPED 0 :: replicate 169 junk) else Err ENOMEM)
  else if negb (memory NTFS_LCNALLOC_BSIZE) then Some (vol, Err ENOMEM)
  else
    let p := first_search vol start_lcn zone in
    let s := Locals vol [] 0 0 0 0 count (0 <=? start_lcn) (replicate (Z.to_nat NTFS_LCNALLOC_BSIZE) 0) false in
    r ← search_loop fuel s p start_vcn;
    match r with
    | (s, p, Failed e) => err_ret s e
    | (s, p, Found last_read_pos br lcn) =>
        let vol := l_vol s in
        let tc := lcn + Z.land (bmp_pos p) (Z.lnot 7) + 1 + NTFS_LCNALLOC_SKIP in
        let s := set_vol s (if used_zone_pos p then ntfs_cluster_update_zone_pos vol (search_zone p) tc else vol) in
        rl ← terminate s;
        r ← bitmap_writeback (l_vol s) last_read_pos br (buf s) (writeback s);
        match r with
        | (vol, Ok _) => Some (vol, Ok rl)
        | (vol, Err e) => err_ret (set_vol s vol) e
        end
    end.
End alloc.
