(* ===== verification/LcnSpec.v ===== *)
(** What the allocator of libntfs-3g/lcnalloc.c, modelled in Lcnalloc, promises:
    the clusters it returns were free and are not any more, nothing else changes,
    and when it fails nothing changes at all. *)

From S2P Require Import Prelude Runlist AttrIo Bitmap Lcnalloc.
Local Open Scope Z_scope.
Local Open Scope c_scope.
Set Default Proof Using "Type*".

(** ** The largest free range *)

(** The bits from [a] to [b] are clear. *)
Definition clear (m : list Z) (a b : Z) : Prop := forall i, a <= i < b -> bit_at m i = false.

(** What is known after [p] bits: [run] clear ones end there, and [max_range] at
    [start_pos] is the longest range before them. *)
Definition ranged (m : list Z) (p run max_range start_pos : Z) : Prop :=
  0 <= run <= p /\ clear m (p - run) p /\ (run < p -> bit_at m (p - run - 1) = true) /\
  (max_range = 0 /\ start_pos = -1 \/ 0 < max_range /\ 0 <= start_pos /\ start_pos + max_range <= p /\ clear m start_pos (start_pos + max_range)) /\
  forall a k, 0 <= a -> 0 < k -> a + k <= p -> clear m a (a + k) -> k <= max_range \/ p - run <= a.

Lemma ranged_0 m : ranged m 0 0 0 (-1).
Proof. unfold ranged, clear. split_and!; try lia. all: intros; lia. Qed.

Lemma ranged_clear m p run mr sp : ranged m p run mr sp -> bit_at m p = false -> ranged m (p + 1) (run + 1) mr sp.
Proof.
  intros (H1 & H2 & H3 & H4 & H5) Hp. unfold ranged. split_and!; try lia.
  - intros i Hi. destruct (decide (i = p)) as [->|]; [done|]. apply H2. lia.
  - intros H. replace (p + 1 - (run + 1) - 1) with (p - run - 1) by lia. apply H3. lia.
  - destruct H4 as [?|(? & ? & ? & ?)]; [left | right]; split_and!; try tauto; lia.
  - intros a k Ha Hk Hak Hc. destruct (decide (a + k <= p)) as [|Hn].
    + destruct (H5 a k) as [|]; try done; [by left | right; lia].
    + right. destruct (decide (p - run <= a)); [lia|]. exfalso. specialize (Hc (p - run - 1)). rewrite H3 in Hc by lia. by discriminate Hc; lia.
Qed.

(** At a set bit the run is closed. *)
Lemma ranged_set m p run mr sp : ranged m p run mr sp -> bit_at m p = true ->
  ranged m (p + 1) 0 (if mr <? run then run else mr) (if mr <? run then p - run else sp).
Proof.
  intros (H1 & H2 & H3 & H4 & H5) Hp. unfold ranged. split_and!; try lia.
  - intros i Hi. lia.
  - intros _. by replace (p + 1 - 0 - 1) with p by lia.
  - destruct (Z.ltb_spec mr run).
    + right. split_and!; try lia. by replace (p - run + run) with p by lia.
    + destruct H4 as [?|(? & ? & ? & ?)]; [left | right]; split_and!; try tauto; lia.
  - intros a k Ha Hk Hak Hc. left. assert (a + k <= p) as Hap.
    { destruct (decide (a + k = p + 1)); [|lia]. specialize (Hc p ltac:(lia)). congruence. }
    destruct (H5 a k) as [|]; try done; destruct (Z.ltb_spec mr run); lia.
Qed.

Lemma bit_of_byte m i x j : m.[i] = Some x -> 0 <= j < 8 -> bit_at m (8 * i + j) = Z.testbit x j.
Proof. intros Hx Hj. destruct (bit_index i j Hj) as [E1 E2]. unfold bit_at. by rewrite E1, E2, Hx. Qed.

Lemma byte_zero m i : m.[i] = Some 0 -> clear m (8 * i) (8 * i + 8).
Proof. intros Hx k Hk. replace k with (8 * i + (k - 8 * i)) by lia. rewrite (bit_of_byte _ _ _ _ Hx) by lia. apply Z.bits_0. Qed.

Lemma byte_full m i j : m.[i] = Some 255 -> 0 <= j < 8 -> bit_at m (8 * i + j) = true.
Proof. intros Hx Hj. rewrite (bit_of_byte _ _ _ _ Hx) by done. change 255 with (Z.ones 8). by rewrite Z.ones_spec_low. Qed.

Lemma ranged_clears m n p run mr sp : 0 <= n -> ranged m p run mr sp -> clear m p (p + n) -> ranged m (p + n) (run + n) mr sp.
Proof.
  intros Hn. revert n Hn p run. apply (natlike_ind (fun n => forall p run, _ -> _ -> ranged m (p + n) (run + n) mr sp)); [intros p run H _; by rewrite !Z.add_0_r|].
  intros n Hn IH p run H Hc. replace (p + Z.succ n) with (p + 1 + n) by lia. replace (run + Z.succ n) with (run + 1 + n) by lia.
  apply IH; [apply ranged_clear; [done | apply Hc; lia] | intros i Hi; apply Hc; lia].
Qed.

Lemma zero_bytes_ok m size fuel i run mr sp : size <= zlen m -> 0 <= i < size -> ranged m (8 * i) run mr sp -> m.[i] = Some 0 ->
  (Z.to_nat (size - i) <= fuel)%nat ->
  exists i' run', zero_bytes fuel m size i run = Some (i', run') /\ i < i' <= size /\ ranged m (8 * i') run' mr sp.
Proof.
  intros Hs. revert i run. induction fuel as [|f IH]; intros i run Hi H Hx Hf; [lia|]. cbn [zero_bytes].
  assert (ranged m (8 * (i + 1)) (run + 8) mr sp) as H'.
  { replace (8 * (i + 1)) with (8 * i + 8) by lia. apply ranged_clears; [done | done | by apply byte_zero]. }
  destruct (Z.ltb_spec (i + 1) size).
  - destruct (zget_inside m (i + 1)) as [x Ex]; [lia|]. rewrite Ex. cbn [mbind option_bind]. destruct (Z.eqb_spec x 0) as [->|].
    + destruct (IH (i + 1) (run + 8)) as (i' & run' & -> & H1 & H2); [lia | done | done | lia|]. exists i', run'. split_and!; try done; lia.
    + exists (i + 1), (run + 8). split_and!; try done; lia.
  - exists (i + 1), (run + 8). split_and!; try done; lia.
Qed.

Lemma ranged_sets m n p mr sp : 0 <= n -> 0 <= mr -> ranged m p 0 mr sp -> (forall i, p <= i < p + n -> bit_at m i = true) -> ranged m (p + n) 0 mr sp.
Proof.
  intros Hn Hm. revert n Hn p. apply (natlike_ind (fun n => forall p, _ -> _ -> ranged m (p + n) 0 mr sp)); [intros p H _; by rewrite Z.add_0_r|].
  intros n Hn IH p H Hc. replace (p + Z.succ n) with (p + 1 + n) by lia. apply IH; [|intros i Hi; apply Hc; lia].
  apply ranged_set in H; [|apply Hc; lia]. by rewrite (proj2 (Z.ltb_ge mr 0)) in H.
Qed.

Lemma full_bytes_ok m size fuel i mr sp : size <= zlen m -> 0 <= i < size -> 0 <= mr -> ranged m (8 * i + 1) 0 mr sp -> m.[i] = Some 255 ->
  (Z.to_nat (size - i) <= fuel)%nat ->
  exists i', full_bytes fuel m size i = Some i' /\ i < i' <= size /\ ranged m (8 * i') 0 mr sp.
Proof.
  intros Hs. revert i. induction fuel as [|f IH]; intros i Hi Hm H Hx Hf; [lia|]. cbn [full_bytes].
  assert (ranged m (8 * (i + 1)) 0 mr sp) as H'.
  { replace (8 * (i + 1)) with (8 * i + 1 + 7) by lia. apply ranged_sets; [done | done | done|]. intros k Hk.
    replace k with (8 * i + (k - 8 * i)) by lia. apply byte_full; [done | lia]. }
  destruct (Z.ltb_spec (i + 1) size).
  - destruct (zget_inside m (i + 1)) as [x Ex]; [lia|]. rewrite Ex. cbn [mbind option_bind]. destruct (Z.eqb_spec x 255) as [->|].
    + destruct (IH (i + 1)) as (i' & -> & H1 & H2); [lia | done | | done | lia|].
      * apply (ranged_sets m 1); [done | done | done|]. intros k Hk. replace k with (8 * (i + 1) + 0) by lia. by apply byte_full.
      * exists i'. split_and!; try done; lia.
    + exists (i + 1). split_and!; try done; lia.
  - exists (i + 1). split_and!; try done; lia.
Qed.

Lemma byte_bits_ok m i x left j run mr sp : m.[i] = Some x -> j + Z.of_nat left = 8 -> 0 <= j -> ranged m (8 * i + j) run mr sp ->
  let '(run', mr', sp') := byte_bits left x i j run mr sp in ranged m (8 * i + 8) run' mr' sp'.
Proof.
  intros Hx. revert j run mr sp. induction left as [|l IH]; intros j run mr sp Hj Hj0 H; cbn [byte_bits]; [by replace 8 with j at 2 by lia|].
  pose proof (bit_of_byte m i x j Hx ltac:(lia)) as Hb. destruct (Z.testbit x j) eqn:Et.
  - apply ranged_set in H; [|done]. replace (8 * i + j + 1) with (8 * i + (j + 1)) in H by lia.
    replace (i * 8 + (j - run)) with (8 * i + j - run) by lia. destruct (mr <? run); apply IH; (done || lia).
  - apply ranged_clear in H; [|done]. apply IH; [lia | lia|]. by replace (8 * i + (j + 1)) with (8 * i + j + 1) by lia.
Qed.

(** The start of a longest range of clear bits, or -1 when all are set. *)
Definition longest (m : list Z) (n r : Z) : Prop :=
  r = -1 /\ (forall i, 0 <= i < n -> bit_at m i = true) \/
  exists k, 0 < k /\ 0 <= r /\ r + k <= n /\ clear m r (r + k) /\ forall a k', 0 <= a -> a + k' <= n -> clear m a (a + k') -> k' <= k.

Lemma ranged_longest m n run mr sp : ranged m n run mr sp -> longest m n (if mr <? run then n - run else sp).
Proof.
  intros (H1 & H2 & H3 & H4 & H5). destruct (Z.ltb_spec mr run) as [Hr|Hr].
  - right. exists run. split_and!; try lia; [by replace (n - run + run) with n by lia|].
    intros a k' Ha Hk Hc. destruct (decide (0 < k')); [|lia]. destruct (H5 a k') as [|]; try done; lia.
  - destruct H4 as [[-> ->]|(? & ? & ? & ?)].
    + left. split; [done|]. intros i Hi. destruct (bit_at m i) eqn:Eb; [done|]. exfalso.
      destruct (H5 i 1) as [|]; try lia. intros k Hk. by replace k with i by lia.
    + right. exists mr. split_and!; try done. intros a k' Ha Hk Hc. destruct (decide (0 < k')); [|lia]. destruct (H5 a k') as [|]; try done; lia.
Qed.

Lemma range_loop_ok m size fuel i run mr sp : 0 <= size <= zlen m -> 0 <= i <= size -> ranged m (8 * i) run mr sp -> (Z.to_nat (size - i) < fuel)%nat ->
  exists r, range_loop fuel m size i run mr sp = Some r /\ longest m (8 * size) r.
Proof.
  intros Hs. revert i run mr sp. induction fuel as [|f IH]; intros i run mr sp Hi H Hf; [lia|]. cbn [range_loop].
  destruct (Z.ltb_spec i size) as [Hlt|Hge].
  - destruct (zget_inside m i) as [x Ex]; [lia|]. rewrite Ex. cbn [mbind option_bind]. assert (size <= Z.of_nat (length m)) by (unfold zlen in Hs; lia).
    destruct (Z.eqb_spec x 0) as [->|]; [|destruct (Z.eqb_spec x 255) as [->|]].
    + destruct (zero_bytes_ok m size (S (length m)) i run mr sp) as (i' & run' & -> & H1 & H2); [lia.. | done | done | lia|].
      cbn [mbind option_bind fst snd]. apply IH; [lia | done | lia].
    + pose proof H as (_ & _ & _ & Hm & _). apply ranged_set in H; [|replace (8 * i) with (8 * i + 0) by lia; by apply byte_full].
      replace (i * 8 - run) with (8 * i - run) by lia.
      replace (if mr <? run then (run, 8 * i - run) else (mr, sp)) with ((if mr <? run then run else mr), (if mr <? run then 8 * i - run else sp)) by (by destruct (mr <? run)).
      destruct (full_bytes_ok m size (S (length m)) i (if mr <? run then run else mr) (if mr <? run then 8 * i - run else sp)) as (i' & -> & H1 & H2);
        [lia.. | destruct (Z.ltb_spec mr run); lia | done | done | lia|].
      cbn [mbind option_bind]. apply IH; [lia | done | lia].
    + pose proof (byte_bits_ok m i x 8 0 run mr sp Ex eq_refl ltac:(lia)) as Hb. rewrite Z.add_0_r in Hb. specialize (Hb H).
      destruct (byte_bits 8 x i 0 run mr sp) as [[run' mr'] sp']. apply IH; [lia | by replace (8 * (i + 1)) with (8 * i + 8) by lia | lia].
  - assert (i = size) as -> by lia. eexists. split; [done|]. replace (size * 8) with (8 * size) by lia. by apply ranged_longest.
Qed.

Lemma max_empty_ok m size : 0 <= size <= zlen m -> exists r, max_empty_bit_range m size = Some r /\ longest m (8 * size) r.
Proof. intros Hs. unfold zlen in Hs. apply range_loop_ok; [unfold zlen; lia | lia | apply ranged_0 | lia]. Qed.

(** ** The clusters of a runlist *)

Definition clusters_of (runs : runlist) : list Z := concat ((fun e => seqZ (lcn e) (len e)) <$> runs).

Lemma clusters_app r1 r2 : clusters_of (r1 ++ r2) = clusters_of r1 ++ clusters_of r2.
Proof. unfold clusters_of. by rewrite fmap_app, concat_app. Qed.

Lemma clusters_one e : clusters_of [e] = seqZ (lcn e) (len e).
Proof. unfold clusters_of. cbn. by rewrite app_nil_r. Qed.

Lemma runs_end_clusters v0 runs : contig v0 runs -> runs_end v0 runs = v0 + zlen (clusters_of runs).
Proof.
  revert v0. induction runs as [|e t IH]; intros v0; cbn [contig runs_end]; [unfold zlen; cbn; lia|]. intros (_ & Hl & Hc).
  rewrite IH by done. change (e :: t) with ([e] ++ t). rewrite clusters_app, clusters_one, zlen_app. unfold zlen at 2. rewrite length_seqZ. lia.
Qed.

Lemma run_len v0 runs e : contig v0 runs -> e ∈ runs -> 0 < len e.
Proof.
  revert v0. induction runs as [|x t IH]; intros v0; cbn; [by intros _ ?%not_elem_of_nil|].
  intros (_ & Hl & Hc) [->|He]%elem_of_cons; [done | by eapply IH].
Qed.

(** The last run grows by one cluster, or a run of one cluster follows. *)
Lemma contig_grow v0 runs e : contig v0 (runs ++ [e]) -> contig v0 (runs ++ [set_len e (len e + 1)]).
Proof. rewrite !contig_app. cbn. intros (H & Hv & Hl & _). split_and!; try done. lia. Qed.

Lemma contig_snoc v0 runs c : contig v0 runs -> contig v0 (runs ++ [RL (runs_end v0 runs) c 1]).
Proof. intros H. apply contig_app. cbn. split_and!; try done; lia. Qed.

Lemma clusters_grow runs e : 0 <= len e -> clusters_of (runs ++ [set_len e (len e + 1)]) = clusters_of (runs ++ [e]) ++ [lcn e + len e].
Proof.
  intros H. rewrite !clusters_app, !clusters_one, <-app_assoc. cbn [set_len lcn len]. f_equal. rewrite seqZ_app by lia. f_equal.
Qed.

Lemma runs_le_clusters v0 runs : contig v0 runs -> zlen runs <= zlen (clusters_of runs).
Proof.
  revert v0. induction runs as [|e t IH]; intros v0; cbn [contig]; [done|]. intros (_ & Hl & Hc). specialize (IH _ Hc).
  change (e :: t) with ([e] ++ t). rewrite clusters_app, clusters_one, !zlen_app. unfold zlen in *. rewrite length_seqZ. cbn [length]. lia.
Qed.

(** ** Freeing *)

Section free.
Context {A : Type} `{!AttrOps A} `{!AttrLaws A} `{!AttrReliable A}.
Implicit Types (vol : ntfs_volume A) (runs : runlist).

Definition bitmap vol : list Z := attr_data (lcnbmp_na vol).

(** The runs that are on the volume: not the holes. *)
Definition real runs : runlist := filter (fun e => 0 <= lcn e) runs.

(** [vol'] is [vol] with the bits of [cs] clear. *)
Definition freed_bits vol vol' (cs : list Z) : Prop :=
  zlen (bitmap vol') = zlen (bitmap vol) /\ nr_clusters vol' = nr_clusters vol /\
  forall i, 0 <= i -> bit_at (bitmap vol') i = bit_at (bitmap vol) i && negb (bool_decide (i ∈ cs)).

Lemma freed_bits_nil vol : freed_bits vol vol [].
Proof. split_and!; try done. intros i _. rewrite bool_decide_false by apply not_elem_of_nil. by rewrite andb_true_r. Qed.

Lemma freed_bits_app vol1 vol2 vol3 cs1 cs2 : freed_bits vol1 vol2 cs1 -> freed_bits vol2 vol3 cs2 -> freed_bits vol1 vol3 (cs1 ++ cs2).
Proof.
  intros (A1 & A2 & A3) (B1 & B2 & B3). split_and!; [congruence.. |]. intros i Hi. rewrite B3, A3 by done. rewrite <-andb_assoc, <-negb_orb. do 2 f_equal.
  apply eq_true_iff_eq. by rewrite orb_true_iff, !bool_decide_eq_true, elem_of_app.
Qed.

Lemma update_full_status_ok vol lcn : lcnbmp_na (update_full_status vol lcn) = lcnbmp_na vol /\
  free_clusters (update_full_status vol lcn) = free_clusters vol /\ nr_clusters (update_full_status vol lcn) = nr_clusters vol.
Proof. unfold update_full_status, unmark_full, ntfs_cluster_update_zone_pos. by repeat case_match. Qed.

Lemma clear_run_ok vol l n : 0 <= l -> 0 <= n -> l + n <= 8 * zlen (bitmap vol) -> 8 * zlen (bitmap vol) < 2 ^ 33 ->
  exists vol', clear_run (update_full_status vol l) l n = Some (vol', Ok tt) /\ freed_bits vol vol' (seqZ l n) /\ free_clusters vol' = free_clusters vol.
Proof.
  intros Hl Hn Hin Hsz. destruct (update_full_status_ok vol l) as (E1 & E2 & E3). unfold clear_run, ntfs_bitmap_clear_run. rewrite E1.
  destruct (set_bits_in_run_spec (bitmap vol) false l (l + n) ltac:(lia) ltac:(lia) ltac:(lia) (lcnbmp_na vol) eq_refl) as (na & E & H1 & H2).
  replace (l + n - l) with n in E by lia. rewrite E. cbn [mbind option_bind fst snd]. eexists. split; [done|]. split; [|done]. split_and!; [done | done|].
  intros i Hi. unfold bitmap at 1. cbn [set_lcnbmp lcnbmp_na]. rewrite H2 by done. unfold target.
  destruct (Z.leb_spec l i), (Z.ltb_spec i (l + n)); cbn [andb].
  - rewrite bool_decide_true by (apply elem_of_seqZ; lia). by rewrite andb_false_r.
  - rewrite bool_decide_false by (rewrite elem_of_seqZ; lia). by rewrite andb_true_r.
  - rewrite bool_decide_false by (rewrite elem_of_seqZ; lia). by rewrite andb_true_r.
  - rewrite bool_decide_false by (rewrite elem_of_seqZ; lia). by rewrite andb_true_r.
Qed.

(** The clusters of a run are on the volume. *)
Definition on_volume vol (e : runlist_element) : Prop := 0 <= lcn e -> lcn e + len e <= 8 * zlen (bitmap vol).

Lemma on_volume_freed vol vol' cs e : freed_bits vol vol' cs -> on_volume vol e -> on_volume vol' e.
Proof. intros (E & _) H Hl. rewrite E. by apply H. Qed.

Lemma free_from_rl_loop_ok runs term rest vol nr : len term = 0 -> Forall (fun e => 0 < len e) runs -> Forall (on_volume vol) runs -> 8 * zlen (bitmap vol) < 2 ^ 33 ->
  exists vol', free_from_rl_loop vol (runs ++ term :: rest) nr = Some (vol', Ok tt, nr + zlen (clusters_of (real runs))) /\
    freed_bits vol vol' (clusters_of (real runs)) /\ free_clusters vol' = free_clusters vol.
Proof.
  intros Ht Hl. revert vol nr. induction Hl as [|e runs He Hl IH]; intros vol nr Hv Hsz; cbn [app free_from_rl_loop].
  - rewrite Ht. cbn [Z.eqb]. exists vol. split; [|split; [apply freed_bits_nil | done]]. do 2 f_equal. unfold zlen. cbn. lia.
  - apply Forall_cons in Hv as [Hve Hv]. destruct (Z.eqb_spec (len e) 0); [lia|]. unfold real. rewrite filter_cons. fold (real runs). destruct (Z.leb_spec 0 (lcn e)) as [Hlcn|Hlcn].
    + rewrite decide_True by done. destruct (clear_run_ok vol (lcn e) (len e)) as (vol1 & -> & F1 & F2); [done | lia | by apply Hve | done|]. cbn [mbind option_bind].
      destruct (IH vol1 (nr + len e)) as (vol2 & -> & G1 & G2).
      { eapply Forall_impl; [exact Hv|]. intros x. apply (on_volume_freed _ _ _ _ F1). }
      { destruct F1 as [-> _]. done. }
      change (e :: real runs) with ([e] ++ real runs). rewrite clusters_app, clusters_one, zlen_app. unfold zlen at 2. rewrite length_seqZ.
      exists vol2. split; [do 2 f_equal; lia|]. split; [by eapply freed_bits_app | congruence].
    + rewrite decide_False by lia. by apply IH.
Qed.

Lemma free_from_rl_ok runs term rest vol : len term = 0 -> Forall (fun e => 0 < len e) runs -> Forall (on_volume vol) runs -> 8 * zlen (bitmap vol) < 2 ^ 33 ->
  exists vol', ntfs_cluster_free_from_rl vol (runs ++ term :: rest) = Some (vol', Ok tt) /\
    freed_bits vol vol' (clusters_of (real runs)) /\ free_clusters vol' = free_clusters vol + zlen (clusters_of (real runs)).
Proof.
  intros Ht Hl Hv Hsz. unfold ntfs_cluster_free_from_rl. destruct (free_from_rl_loop_ok runs term rest vol 0 Ht Hl Hv Hsz) as (vol' & -> & F1 & F2).
  cbn [mbind option_bind]. eexists. split; [done|]. split; [done|]. cbn. by rewrite F2.
Qed.
End free.

(** *** Freeing a range of an attribute *)

Section free_range.
Context {A : Type} `{!AttrOps A} `{!AttrLaws A} `{!AttrReliable A}.
Implicit Types (vol : ntfs_volume A) (runs : runlist).

(** The clusters that a runlist maps [n] virtual clusters to, from [v] on. *)
Definition range_clusters runs (v n : Z) : list Z :=
  omap (fun v => c ← map_vcn runs v; if 0 <=? c then Some c else None) (seqZ v n).

Lemma range_app runs v n1 n2 : 0 <= n1 -> 0 <= n2 -> range_clusters runs v (n1 + n2) = range_clusters runs v n1 ++ range_clusters runs (v + n1) n2.
Proof. intros. unfold range_clusters. by rewrite seqZ_app, omap_app by done. Qed.

Lemma range_0 runs v : range_clusters runs v 0 = [].
Proof. unfold range_clusters. by rewrite seqZ_nil. Qed.

Lemma range_ext runs runs' v n : (forall w, v <= w < v + n -> map_vcn runs w = map_vcn runs' w) -> range_clusters runs v n = range_clusters runs' v n.
Proof.
  intros H. unfold range_clusters. apply list_omap_ext. apply Forall_Forall2_diag. apply Forall_seqZ. intros w Hw. by rewrite H.
Qed.

Lemma omap_all {B C} (f : B -> option C) (g : B -> C) l : Forall (fun x => f x = Some (g x)) l -> omap f l = g <$> l.
Proof. induction 1 as [|x l Hx H IH]; [done|]. cbn. by rewrite Hx, IH. Qed.

Lemma omap_none {B C} (f : B -> option C) l : Forall (fun x => f x = None) l -> omap f l = [].
Proof. induction 1 as [|x l Hx H IH]; [done|]. cbn. by rewrite Hx. Qed.

(** Inside one run. *)
Lemma range_run e t v n : vcn e <= v -> 0 <= n -> v + n <= rl_end e ->
  range_clusters (e :: t) v n = if 0 <=? lcn e then seqZ (lcn e + (v - vcn e)) n else [].
Proof.
  intros Hv Hn He. unfold range_clusters.
  assert (forall w, v <= w < v + n -> map_vcn (e :: t) w = Some (run_lcn e w)) as Hm.
  { intros w Hw. cbn. by rewrite (proj2 (Z.leb_le (vcn e) w)), (proj2 (Z.ltb_lt w (rl_end e))) by lia. }
  destruct (Z.leb_spec 0 (lcn e)) as [Hl|Hl].
  - rewrite (omap_all _ (fun w => (lcn e - vcn e) + w)).
    + rewrite fmap_add_seqZ. f_equal. lia.
    + apply Forall_seqZ. intros w Hw. rewrite Hm by done. cbn. unfold run_lcn. rewrite (proj2 (Z.leb_le 0 (lcn e))) by done.
      rewrite (proj2 (Z.leb_le 0 _)) by lia. f_equal. lia.
  - apply omap_none. apply Forall_seqZ. intros w Hw. rewrite Hm by done. cbn. unfold run_lcn. rewrite (proj2 (Z.leb_gt 0 (lcn e))) by lia.
    by rewrite (proj2 (Z.leb_gt 0 (lcn e))) by lia.
Qed.

Lemma range_tail e t v n : rl_end e <= v -> range_clusters (e :: t) v n = range_clusters t v n.
Proof. intros He. apply range_ext. intros w Hw. cbn. rewrite (proj2 (Z.ltb_ge w (rl_end e))) by lia. by rewrite andb_false_r. Qed.

Lemma range_drop v0 r1 r2 v n : contig v0 r1 -> runs_end v0 r1 <= v -> range_clusters (r1 ++ r2) v n = range_clusters r2 v n.
Proof. intros Hc Hv. apply range_ext. intros w Hw. rewrite map_vcn_app. by rewrite (map_vcn_above v0) by (done || lia). Qed.

(** The runs behind the first one. *)
Lemma free_runs_loop_ok runs term rest vol v0 count nr : contig v0 runs -> len term = 0 -> Forall (fun e => LCN_HOLE <= lcn e) runs ->
  Forall (on_volume vol) runs -> 8 * zlen (bitmap vol) < 2 ^ 33 -> count = -1 \/ 0 <= count /\ v0 + count <= runs_end v0 runs ->
  let n := if count =? -1 then runs_end v0 runs - v0 else count in
  exists vol', free_runs_loop vol (runs ++ term :: rest) count nr =
      Some (vol', Ok (if count =? -1 then -1 else 0), nr + zlen (range_clusters runs v0 n)) /\
    freed_bits vol vol' (range_clusters runs v0 n) /\ free_clusters vol' = free_clusters vol.
Proof.
  revert vol v0 count nr. induction runs as [|e t IH]; intros vol v0 count nr Hc Ht Hl Hv Hsz Hcnt; cbn [app free_runs_loop runs_end].
  { cbn in Hcnt. rewrite Ht. cbn [Z.eqb negb andb]. exists vol. assert ((if count =? -1 then v0 - v0 else count) = 0) as -> by (destruct (Z.eqb_spec count (-1)); lia).
    rewrite range_0, (@zlen_nil Z), Z.add_0_r. split; [|split; [apply freed_bits_nil | done]].
    by assert ((if count =? -1 then -1 else 0) = count) as -> by (destruct (Z.eqb_spec count (-1)); lia). }
  destruct Hc as (Hve & Hle & Hc). apply Forall_cons in Hl as [Hle' Hl], Hv as [Hon Hv]. pose proof (runs_end_ge _ _ Hc) as Hend. unfold LCN_HOLE in *. cbn [runs_end] in Hcnt.
  destruct (Z.eqb_spec (len e) 0) as [|Hne]; [lia|]. cbn [negb andb]. destruct (Z.eqb_spec count 0) as [->|Hc0]; cbn [negb].
  { cbn [Z.eqb]. exists vol. rewrite range_0, (@zlen_nil Z), Z.add_0_r. split; [done|]. split; [apply freed_bits_nil | done]. }
  assert ((lcn e <? 0) && negb (lcn e =? -1) = false) as -> by (destruct (Z.ltb_spec (lcn e) 0), (Z.eqb_spec (lcn e) (-1)); (lia || done)).
  set (tf := if (0 <=? count) && (count <? len e) then count else len e).
  set (count' := if 0 <=? count then count - tf else count).
  set (n := if count =? -1 then runs_end (v0 + len e) t - v0 else count).
  assert (0 <= tf <= len e /\ tf <= n /\ (count' = -1 <-> count = -1) /\ (count' = -1 \/ 0 <= count' /\ v0 + len e + count' <= runs_end (v0 + len e) t) /\
          (n - tf = (if count' =? -1 then runs_end (v0 + len e) t - (v0 + len e) else count')) /\ (tf < len e -> n = tf)) as (T1 & T2 & T3 & T4 & T5 & T6).
  { unfold count', n, tf. destruct (Z.leb_spec 0 count), (Z.ltb_spec count (len e)), (Z.eqb_spec count (-1)); cbn [andb]; try lia;
      repeat (case_match; try lia); rewrite ?Z.eqb_eq, ?Z.eqb_neq in *; split_and!; lia. }
  assert ((if count =? -1 then -1 else 0) = (if count' =? -1 then -1 else 0)) as -> by (destruct (Z.eqb_spec count (-1)), (Z.eqb_spec count' (-1)); (done || lia)).
  assert (range_clusters (e :: t) v0 n = (if 0 <=? lcn e then seqZ (lcn e) tf else []) ++ range_clusters t (v0 + len e) (n - tf)) as ->.
  { replace n with (tf + (n - tf)) at 1 by lia. rewrite range_app by lia. f_equal.
    - rewrite range_run by (unfold rl_end; lia). destruct (0 <=? lcn e); [f_equal; lia | done].
    - destruct (decide (tf < len e)) as [H|H]; [rewrite T6 by done; rewrite Z.sub_diag; done|]. replace tf with (len e) by lia.
      apply range_tail. unfold rl_end. lia. }
  rewrite T5. destruct (Z.eqb_spec (lcn e) (-1)) as [Eh|Eh]; cbn [negb].
  - rewrite (proj2 (Z.leb_gt 0 (lcn e))) by lia. cbn [app]. by apply IH.
  - rewrite (proj2 (Z.leb_le 0 (lcn e))) by lia. specialize (Hon ltac:(lia)).
    destruct (clear_run_ok vol (lcn e) tf) as (vol1 & -> & F1 & F2); [lia.. | done|]. cbn [mbind option_bind].
    destruct (IH vol1 (v0 + len e) count' (nr + tf)) as (vol2 & -> & G1 & G2); try done.
    { eapply Forall_impl; [exact Hv|]. intros x. apply (on_volume_freed _ _ _ _ F1). }
    { by destruct F1 as [-> _]. }
    exists vol2. rewrite zlen_app. unfold zlen at 2. rewrite length_seqZ. split; [do 2 f_equal; lia|]. split; [by eapply freed_bits_app | congruence].
Qed.

Lemma find_run_ok runs term rest v0 v i : wf_rl v0 runs term -> Forall (fun e => LCN_HOLE <= lcn e) runs -> v0 <= v < runs_end v0 runs ->
  exists r1 e r2, runs = r1 ++ e :: r2 /\ find_run (runs ++ term :: rest) i v = Some (inl (i + zlen r1)) /\ vcn e <= v < rl_end e.
Proof.
  revert v0 i. induction runs as [|e t IH]; intros v0 i Hwf Hl Hv; cbn [runs_end] in Hv; [lia|]. apply Forall_cons in Hl as [Hle Hl].
  destruct (next_vcn _ _ _ _ rest Hwf) as (e1 & E1 & E2). pose proof (wf_contig _ _ _ Hwf) as (Hve & Hlen & Hc). cbn [app find_run].
  destruct (Z.eqb_spec (len e) 0); [lia|]. rewrite E1. cbn [mbind option_bind]. rewrite E2. destruct (Z.ltb_spec v (rl_end e)) as [Hlt|Hge].
  - rewrite (proj2 (Z.leb_le LCN_HOLE (lcn e))) by done. exists [], e, t. rewrite (@zlen_nil runlist_element), Z.add_0_r. split_and!; try done. lia.
  - unfold rl_end in Hge. destruct (IH (v0 + len e) (i + 1) (wf_rl_tail _ _ _ _ Hwf) Hl) as (r1 & e' & r2 & -> & -> & Hin); [lia|].
    exists (e :: r1), e', r2. rewrite zlen_cons. split_and!; try done; [do 2 f_equal; lia | lia..].
Qed.

Context {B : Type} (NAttrNonResident : B -> bool) (attr_rl : B -> option runlist) (map_runlist : B -> Z -> B * result unit).

Lemma find_vcn_ok na runs term rest v0 v : NAttrNonResident na = true -> attr_rl na = Some (runs ++ term :: rest) -> wf_rl v0 runs term ->
  Forall (fun e => LCN_HOLE <= lcn e) runs -> 0 <= v0 -> v0 <= v < runs_end v0 runs ->
  exists r1 e r2, runs = r1 ++ e :: r2 /\ ntfs_attr_find_vcn NAttrNonResident attr_rl map_runlist na v = Some (na, Ok (zlen r1)) /\ vcn e <= v < rl_end e.
Proof.
  intros Hn Hr Hwf Hl H0 Hv. destruct (find_run_ok runs term rest v0 v 0 Hwf Hl Hv) as (r1 & e & r2 & E & Ef & Hin). exists r1, e, r2. split; [done|]. split; [|done].
  unfold ntfs_attr_find_vcn, find_mapped. rewrite Hn, Hr, (proj2 (Z.ltb_ge v 0)) by lia. cbn [negb orb].
  assert (exists e0, (runs ++ term :: rest).[0] = Some e0 /\ vcn e0 <= v) as (e0 & -> & He0).
  { destruct runs as [|x t]; [cbn in Hv; lia|]. exists x. split; [done|]. destruct (wf_contig _ _ _ Hwf) as (-> & _ & _). lia. }
  cbn [mbind option_bind]. rewrite (proj2 (Z.ltb_ge v (vcn e0))) by lia. rewrite Ef. cbn [mbind option_bind]. by rewrite Z.add_0_l.
Qed.

Lemma cluster_free_ok vol na runs term rest v0 start_vcn count :
  NAttrNonResident na = true -> attr_rl na = Some (runs ++ term :: rest) -> wf_rl v0 runs term -> Forall (fun e => LCN_HOLE <= lcn e) runs -> 0 <= v0 ->
  Forall (on_volume vol) runs -> 8 * zlen (bitmap vol) < 2 ^ 33 -> v0 <= start_vcn < runs_end v0 runs ->
  count = -1 \/ 0 <= count /\ start_vcn + count <= runs_end v0 runs ->
  let n := if count =? -1 then runs_end v0 runs - start_vcn else count in
  exists vol', ntfs_cluster_free NAttrNonResident attr_rl map_runlist vol na start_vcn count = Some (vol', na, Ok (s32 (zlen (range_clusters runs start_vcn n)))) /\
    freed_bits vol vol' (range_clusters runs start_vcn n) /\ free_clusters vol' = free_clusters vol + zlen (range_clusters runs start_vcn n).
Proof.
  intros Hn Hr Hwf Hl H0 Hon Hsz Hs Hcnt n. unfold ntfs_cluster_free.
  assert ((start_vcn <? 0) || (count <? 0) && negb (count =? -1) = false) as ->.
  { rewrite (proj2 (Z.ltb_ge start_vcn 0)) by lia. destruct (Z.ltb_spec count 0), (Z.eqb_spec count (-1)); (done || lia). }
  destruct (find_vcn_ok na runs term rest v0 start_vcn Hn Hr Hwf Hl H0 Hs) as (r1 & e & r2 & -> & -> & Hin). cbn [mbind option_bind]. rewrite Hr. cbn [mbind option_bind].
  rewrite <-app_assoc. cbn [app]. rewrite zget_mid by done. cbn [mbind option_bind]. pose proof (wf_contig _ _ _ Hwf) as [Hc1 (Hve & Hlen & Hc2)]%contig_app.
  apply Forall_app in Hl as [_ [Hle Hl]%Forall_cons], Hon as [_ [Hoe Hon]%Forall_cons]. unfold LCN_HOLE in *. unfold rl_end in Hin. pose proof (runs_end_ge _ _ Hc2) as Hge.
  pose proof (runs_end_app v0 r1 (e :: r2)) as Hre. cbn [runs_end] in Hre, Hve. set (v1 := runs_end v0 r1) in *.
  assert ((lcn e <? 0) && negb (lcn e =? -1) = false) as -> by (destruct (Z.ltb_spec (lcn e) 0), (Z.eqb_spec (lcn e) (-1)); (lia || done)).
  set (delta := start_vcn - vcn e). set (tf := if (0 <=? count) && (count <? len e - delta) then count else len e - delta).
  set (count' := if 0 <=? count then count - tf else count).
  assert (0 <= tf <= len e - delta /\ tf <= n /\ (count' = -1 <-> count = -1) /\ (count' = -1 \/ 0 <= count' /\ v1 + len e + count' <= runs_end (v1 + len e) r2) /\
          (n - tf = (if count' =? -1 then runs_end (v1 + len e) r2 - (v1 + len e) else count')) /\ (tf < len e - delta -> n = tf)) as (T1 & T2 & T3 & T4 & T5 & T6).
  { unfold count', n, tf, delta. destruct (Z.leb_spec 0 count), (Z.ltb_spec count (len e - (start_vcn - vcn e))), (Z.eqb_spec count (-1)); cbn [andb]; try lia;
      repeat (case_match; try lia); rewrite ?Z.eqb_eq, ?Z.eqb_neq in *; split_and!; lia. }
  assert (range_clusters (r1 ++ e :: r2) start_vcn n = (if 0 <=? lcn e then seqZ (lcn e + delta) tf else []) ++ range_clusters r2 (v1 + len e) (n - tf)) as ->.
  { rewrite (range_drop v0) by (done || lia). replace n with (tf + (n - tf)) at 1 by lia. rewrite range_app by lia. f_equal.
    - by rewrite range_run by (unfold rl_end; lia).
    - destruct (decide (tf < len e - delta)) as [H|H]; [by rewrite T6, Z.sub_diag, !range_0|].
      rewrite range_tail by (unfold rl_end; lia). f_equal. lia. }
  rewrite T5. replace (Z.to_nat (zlen r1 + 1)) with (S (length r1)) by (unfold zlen; lia).
  set (r := if negb (lcn e =? -1) then _ else _).
  assert (exists vol1, r = Some (vol1, Ok (if 0 <=? lcn e then tf else 0)) /\ freed_bits vol vol1 (if 0 <=? lcn e then seqZ (lcn e + delta) tf else []) /\
    free_clusters vol1 = free_clusters vol) as (vol1 & -> & F1 & F2).
  { unfold r. destruct (Z.eqb_spec (lcn e) (-1)) as [Eh|Eh]; cbn [negb].
    - rewrite (proj2 (Z.leb_gt 0 (lcn e))) by lia. exists vol. split; [done|]. split; [apply freed_bits_nil | done].
    - rewrite (proj2 (Z.leb_le 0 (lcn e))) by lia. specialize (Hoe ltac:(lia)).
      destruct (clear_run_ok vol (lcn e + delta) tf) as (vol1 & -> & F1 & F2); [lia.. | done|]. by exists vol1. }
  cbn [mbind option_bind].
  assert (drop (S (length r1)) (r1 ++ e :: r2 ++ term :: rest) = r2 ++ term :: rest) as Ed.
  { rewrite (cons_middle e), app_assoc. rewrite drop_app_length'; [done|]. rewrite length_app. cbn. lia. }
  rewrite Ed. destruct (free_runs_loop_ok r2 term rest vol1 (v1 + len e) count' (if 0 <=? lcn e then tf else 0)) as (vol2 & -> & G1 & G2); try done.
  { apply (wf_term_len _ _ _ Hwf). }
  { eapply Forall_impl; [exact Hon|]. intros x. apply (on_volume_freed _ _ _ _ F1). }
  { by destruct F1 as [-> _]. }
  cbn [mbind option_bind]. assert (negb ((if count' =? -1 then -1 else 0) =? -1) && negb ((if count' =? -1 then -1 else 0) =? 0) = false) as -> by (by destruct (count' =? -1)).
  rewrite zlen_app. assert (zlen (if 0 <=? lcn e then seqZ (lcn e + delta) tf else []) = (if 0 <=? lcn e then tf else 0)) as ->.
  { destruct (0 <=? lcn e); [|done]. unfold zlen. rewrite length_seqZ. lia. }
  eexists. split; [done|]. split; [by eapply freed_bits_app|]. cbn. by rewrite G2, F2.
Qed.
End free_range.


(** ** Allocation *)

Section alloc.
Context {A : Type} `{!AttrOps A} `{!AttrLaws A} `{!AttrReliable A}.
Context (memory : Z -> bool) (junk : runlist_element) (old_errno : errno).
Context (vol0 : ntfs_volume A) (start_vcn count : Z).
Let m0 := attr_data (lcnbmp_na vol0).
Implicit Types (vol : ntfs_volume A) (s : locals (A := A)) (runs : runlist).

(** The bit of cluster [i] once the clusters [cs] are allocated. *)
Definition taken (cs : list Z) (i : Z) : bool := bit_at m0 i || bool_decide (i ∈ cs).

(** The positions are not negative, and the zones do not change. *)
Record vol_ok vol : Prop := {
  vk_mft : 0 <= mft_zone_pos vol; vk_data1 : 0 <= data1_zone_pos vol; vk_data2 : 0 <= data2_zone_pos vol;
  vk_lcn : mft_lcn vol = mft_lcn vol0; vk_start : mft_zone_start vol = mft_zone_start vol0; vk_end : mft_zone_end vol = mft_zone_end vol0;
  vk_nr : nr_clusters vol = nr_clusters vol0; vk_bytes : zlen (attr_data (lcnbmp_na vol)) = zlen m0 }.

Context (Hvol0 : vol_ok vol0) (Hstart : 0 <= mft_zone_start vol0) (Hend : 0 <= mft_zone_end vol0) (Hlcn : 0 <= mft_lcn vol0).
Context (Hcount : 0 < count <= 2 ^ 26).

(** The runlist so far. *)
Record runs_ok s runs : Prop := {
  ro_rl : exists rest, rl s = runs ++ rest;
  ro_pos : rlpos s = zlen runs;
  ro_contig : contig start_vcn runs;
  ro_lcn : Forall (fun e => 0 <= lcn e) runs;
  ro_last : match last runs with Some e => prev_lcn s = lcn e /\ prev_run_len s = len e | None => True end }.

Record built s runs : Prop := {
  bt_runs : runs_ok s runs;
  bt_count : clusters s + zlen (clusters_of runs) = count;
  bt_nodup : NoDup (clusters_of runs);
  bt_free : Forall (fun c => 0 <= c < 8 * zlen m0 /\ bit_at m0 c = false) (clusters_of runs);
  bt_fc : free_clusters (l_vol s) = Z.max (free_clusters vol0 - zlen (clusters_of runs)) (Z.min (free_clusters vol0) 0);
  bt_vol : vol_ok (l_vol s) }.

(** The array has room for the next run and the terminator, or is NULL. *)
Definition room s : Prop :=
  rlsize s = 0 /\ rl s = [] \/ 0 < rlsize s /\ zlen (rl s) = rlsize s / 24 /\ 1 <= rlpos s /\ (rlpos s + 1) * 24 < rlsize s.
Definition more_room s : Prop := 0 < rlsize s /\ zlen (rl s) = rlsize s / 24 /\ (rlpos s + 2) * 24 < rlsize s.

Lemma grow_rl_ok s runs : built s runs -> room s -> 0 < clusters s ->
  match grow_rl memory junk s with
  | Some s' => built s' runs /\ more_room s' /\ l_vol s' = l_vol s /\ clusters s' = clusters s /\ has_guess s' = has_guess s /\ buf s' = buf s /\ writeback s' = writeback s
  | None => True
  end.
Proof.
  intros H Hr Hc. pose proof H as [[(rest & Er) Hp Hcon Hl Hla] Hcnt Hnd Hfr Hfc Hv]. unfold grow_rl, ELEMENT. pose proof (runs_le_clusters _ _ Hcon). pose proof (zlen_nonneg runs).
  rewrite s32_small by lia. destruct (Z.leb_spec (rlsize s) ((rlpos s + 2) * 24)) as [Hle|Hgt].
  - destruct (memory (rlsize s + 4096)); [|done]. split; [|split; [|done]].
    + split; [|done..]. split; [|done..]. exists (rest ++ replicate (Z.to_nat ((rlsize s + 4096) / 24 - zlen (rl s))) junk). cbn. by rewrite Er, app_assoc.
    + unfold more_room. cbn [rl rlpos rlsize]. rewrite zlen_app, zlen_replicate. destruct Hr as [[E1 E2]|(R1 & R2 & R3 & R4)].
      * rewrite E2 in *. symmetry in Er. apply app_nil in Er as [-> _]. rewrite (@zlen_nil runlist_element) in *.
        rewrite E1, Hp. split_and!; [done | | done]. change ((0 + 4096) / 24) with 170. lia.
      * rewrite R2. split_and!; [lia | | lia]. assert (rlsize s / 24 <= (rlsize s + 4096) / 24) by (apply Z.div_le_mono; lia). lia.
  - destruct Hr as [[E1 E2]|(R1 & R2 & R3 & R4)]; [lia|]. split; [done | split; [|done]]. unfold more_room. split_and!; lia.
Qed.

(** A cluster is added to the runlist. *)
Lemma add_cluster_ok s runs c : runs_ok s runs -> more_room s -> 0 <= c ->
  exists s' runs', add_cluster s start_vcn c = Some s' /\ runs_ok s' runs' /\ room s' /\ clusters_of runs' = clusters_of runs ++ [c] /\
    l_vol s' = l_vol s /\ clusters s' = clusters s /\ has_guess s' = has_guess s /\ buf s' = buf s /\ writeback s' = writeback s.
Proof.
  intros [[rest Er] Hp Hc Hl Hla] (R1 & R2 & R3) Hc0. unfold add_cluster. rewrite Hp. pose proof (zlen_nonneg runs) as Hz.
  destruct runs as [|e runs _] using rev_ind.
  { assert (1 <= zlen (rl s)) as H1 by (rewrite R2; apply Z.div_le_lower_bound; lia). rewrite (@zlen_nil runlist_element) in *. rewrite andb_false_r.
    cbn [Z.eqb negb mbind option_bind]. rewrite zset_inside by lia. cbn [mbind option_bind].
    assert (exists x rest', rl s = x :: rest') as (x & rest' & Ex) by (destruct (rl s); [rewrite (@zlen_nil runlist_element) in H1; lia | eauto]).
    eexists _, [RL start_vcn c 1]. split; [done|]. rewrite Ex. cbn. split_and!; try done; try lia.
    - split; cbn; [by exists rest' | done | split_and!; (done || lia) | by repeat constructor | done].
    - right. cbn. split_and!; try lia. rewrite Ex in R2. done. }
  rewrite zlen_app in *. change (zlen [e]) with 1 in *. pose proof (zlen_nonneg runs). rewrite last_snoc in Hla. destruct Hla as [Hl1 Hl2].
  assert ((rl s).[zlen runs + 1 - 1] = Some e) as Eg by (rewrite Er, <-app_assoc; apply zget_mid; lia).
  assert (zlen runs + 1 < zlen (rl s)) as Hlt by (rewrite R2; assert (zlen runs + 3 <= rlsize s / 24) by (apply Z.div_le_lower_bound; lia); lia).
  rewrite (proj2 (Z.eqb_neq (zlen runs + 1) 0)) by lia. cbn [negb]. rewrite andb_true_r. apply Forall_app in Hl as [Hl [Hle _]%Forall_cons].
  assert (0 < len e) as Hlen by (apply (run_len _ _ _ Hc); apply elem_of_app; right; by left).
  destruct (Z.eqb_spec (prev_lcn s) (c - prev_run_len s)) as [Heq|Hne].
  - unfold upd. rewrite Eg. cbn [mbind option_bind]. rewrite Er, <-app_assoc. replace (zlen runs + 1 - 1) with (zlen runs) by lia. cbn [app].
    rewrite zset_mid by done. cbn [mbind option_bind]. eexists _, (runs ++ [set_len e (len e + 1)]). split; [done|]. rewrite clusters_grow by lia. split_and!; try done.
    + split; cbn.
      * exists rest. by rewrite <-app_assoc, Hl2.
      * by rewrite zlen_app.
      * by apply contig_grow.
      * apply Forall_app. split; [done|]. by repeat constructor.
      * rewrite last_snoc. cbn. split; [done | lia].
    + right. cbn. rewrite Er in R2. rewrite zlen_app, zlen_cons. rewrite !zlen_app in R2. change (zlen [e]) with 1 in R2. split_and!; try lia.
    + f_equal. f_equal. lia.
  - rewrite Eg. cbn [mbind option_bind]. destruct rest as [|x rest]; [rewrite Er, app_nil_r, zlen_app in Hlt; change (zlen [e]) with 1 in Hlt; lia|].
    assert (zlen runs + 1 = zlen (runs ++ [e])) as Ez by (by rewrite zlen_app). rewrite Ez, Er, zset_mid by done. cbn [mbind option_bind].
    assert (vcn e + prev_run_len s = runs_end start_vcn (runs ++ [e])) as Ev.
    { apply contig_app in Hc as (_ & Hv & _). rewrite runs_end_app. cbn. rewrite Hl2. lia. }
    eexists _, ((runs ++ [e]) ++ [RL (vcn e + prev_run_len s) c 1]). split; [done|]. split_and!; try done.
    + split; cbn.
      * exists rest. by rewrite <-(app_assoc (runs ++ [e])).
      * rewrite (zlen_app (runs ++ [e])). change (zlen [_]) with 1. lia.
      * rewrite Ev. by apply contig_snoc.
      * apply Forall_app. split; [apply Forall_app; split; [done | by constructor] | by repeat constructor].
      * by rewrite last_snoc.
    + right. cbn. rewrite Er in R2. rewrite !zlen_app, ?zlen_cons in *. change (zlen [e]) with 1 in *. split_and!; try lia.
    + by rewrite clusters_app, (clusters_one (RL _ _ _)).
Qed.

(** The buffer holds [br] bytes of the bitmap from byte [q], with changes not yet
    written. *)
Record window s runs (q br : Z) : Prop := {
  wn_range : 0 <= q /\ 0 <= br /\ q + br <= zlen m0 /\ br <= zlen (buf s) /\ zlen (buf s) = 4096;
  wn_in : forall i, 0 <= i < 8 * br -> bit_at (buf s) i = taken (clusters_of runs) (8 * q + i);
  wn_out : forall i, 0 <= i -> i < 8 * q \/ 8 * (q + br) <= i -> bit_at (attr_data (lcnbmp_na (l_vol s))) i = taken (clusters_of runs) i;
  wn_clean : writeback s = false -> forall i, 0 <= i -> bit_at (attr_data (lcnbmp_na (l_vol s))) i = taken (clusters_of runs) i }.

Lemma taken_snoc cs c i : taken (cs ++ [c]) i = taken cs i || bool_decide (i = c).
Proof.
  unfold taken. rewrite <-orb_assoc. f_equal. apply eq_true_iff_eq. rewrite orb_true_iff, !bool_decide_eq_true, elem_of_app, list_elem_of_singleton. done.
Qed.

Lemma taken_false cs i : taken cs i = false -> bit_at m0 i = false /\ i ∉ cs.
Proof. unfold taken. by intros [? ?%bool_decide_eq_false]%orb_false_iff. Qed.

Lemma bit_in_byte m l x : 0 <= l -> m.[Z.shiftr l 3] = Some x -> Z.testbit x (Z.land l 7) = bit_at m l.
Proof. intros Hl Hx. rewrite shiftr3 in Hx. unfold bit_at. by rewrite Hx, land7. Qed.

Lemma bit_at_put m l x m' i : 0 <= l -> 0 <= i -> m.[Z.shiftr l 3] = Some x -> zset m (Z.shiftr l 3) (put_bit x (Z.land l 7) true) = Some m' ->
  bit_at m' i = bit_at m i || bool_decide (i = l).
Proof.
  intros Hl Hi Hx Hm. rewrite (bit_at_zset _ _ _ _ _ Hm), shiftr3, land7 in *. pose proof (Z.mod_pos_bound l 8 ltac:(lia)). pose proof (Z.mod_pos_bound i 8 ltac:(lia)).
  pose proof (Z.div_mod l 8 ltac:(lia)). pose proof (Z.div_mod i 8 ltac:(lia)). rewrite testbit_put_bit by lia.
  destruct (Z.eqb_spec (i / 8) (l / 8)) as [E|E].
  - destruct (Z.eqb_spec (i mod 8) (l mod 8)).
    + rewrite bool_decide_true by lia. by rewrite orb_true_r.
    + rewrite bool_decide_false by congruence. rewrite orb_false_r. unfold bit_at. by rewrite E, Hx.
  - rewrite bool_decide_false by congruence. by rewrite orb_false_r.
Qed.

Lemma take_ok s runs q br lcn x : built s runs -> more_room s -> window s runs q br -> 0 <= lcn < 8 * br -> 0 < clusters s ->
  (buf s).[Z.shiftr lcn 3] = Some x -> Z.testbit x (Z.land lcn 7) = false ->
  exists s1 s2 runs', take_bit s lcn x = Some s1 /\ add_cluster s1 start_vcn (lcn + 8 * q) = Some s2 /\
    built s2 runs' /\ room s2 /\ window s2 runs' q br /\ clusters s2 = clusters s - 1 /\ has_guess s2 = has_guess s.
Proof.
  intros [Hr Hcnt Hnd Hfr Hfc Hv] Hm [Hwr Hwi Hwo Hwc] Hl Hc Hx Hb. rewrite (bit_in_byte (buf s) lcn x) in Hb by (done || lia). rewrite Hwi in Hb by lia.
  pose proof (taken_false _ _ Hb) as [Hb0 Hbn]. unfold take_bit.
  assert (0 <= Z.shiftr lcn 3 < zlen (buf s)) as Hin by (rewrite shiftr3; split; [apply Z.div_pos; lia | apply Z.div_lt_upper_bound; lia]).
  destruct (zset (buf s) (Z.shiftr lcn 3) (put_bit x (Z.land lcn 7) true)) as [b|] eqn:Eb; [|by rewrite zset_inside in Eb]. cbn [mbind option_bind].
  set (vol := if free_clusters (l_vol s) <=? 0 then _ else _). set (s1 := Locals _ _ _ _ _ _ _ _ _ _).
  destruct (add_cluster_ok s1 runs (lcn + 8 * q)) as (s2 & runs' & E2 & Hr2 & Hrm & Hcl & V1 & V2 & V3 & V4 & V5); [by destruct Hr; split | done | lia|].
  assert (lcnbmp_na vol = lcnbmp_na (l_vol s) /\ vol_ok vol /\ free_clusters vol = Z.max (free_clusters vol0 - zlen (clusters_of runs')) (Z.min (free_clusters vol0) 0)) as (W1 & W2 & W3).
  { pose proof (zlen_nonneg (clusters_of runs)). unfold vol. rewrite Hcl, zlen_app. change (zlen [lcn + 8 * q]) with 1. destruct (Z.leb_spec (free_clusters (l_vol s)) 0); cbn [free_clusters set_free_clusters]; split_and!; try done; try lia. by destruct Hv; split. }
  assert (zlen b = zlen (buf s)) as Hbl by by apply zset_Some in Eb as (_ & ? & _).
  exists s1, s2, runs'. split; [done|]. split; [done|]. split; [|split; [done | split; [|by rewrite V2, V3]]].
  - split; rewrite ?V1, ?V2; cbn [s1 l_vol clusters]; try done.
    + rewrite Hcl, zlen_app. change (zlen [lcn + 8 * q]) with 1. lia.
    + rewrite Hcl. apply NoDup_app. split_and!; [done | | apply NoDup_singleton]. intros i Hi Hi'%list_elem_of_singleton. subst i. by rewrite Z.add_comm in Hi.
    + rewrite Hcl. apply Forall_app. split; [done|]. apply Forall_cons. split; [|done]. rewrite (Z.add_comm lcn). split; [lia | done].
  - split; rewrite ?V1, ?V4, ?V5, ?Hcl; cbn [s1 l_vol buf writeback]; rewrite ?W1, ?Hbl; try done.
    + intros i Hi. rewrite (bit_at_put (buf s) lcn x b i), Hwi, taken_snoc by (done || lia). f_equal. apply bool_decide_ext. lia.
    + intros i Hi Hi'. rewrite taken_snoc, Hwo by done. rewrite bool_decide_false by lia. by rewrite orb_false_r.
Qed.

Lemma alloc_loop_ok fuel s runs q br lcn : built s runs -> room s -> window s runs q br -> 0 < clusters s -> 0 <= lcn ->
  (Z.to_nat (if has_guess s then 8 * br - lcn else 8 * br + 1) < fuel)%nat ->
  exists s' out runs', alloc_loop memory junk fuel s start_vcn br (8 * q) lcn = Some (s', out) /\ built s' runs' /\ room s' /\ window s' runs' q br /\
    match out with Done l => 0 <= l /\ clusters s' = 0 /\ runs' <> [] | _ => 0 < clusters s' end.
Proof.
  revert s runs lcn. induction fuel as [|f IH]; intros s runs lcn H Hr Hw Hc Hl Hf; [lia|]. cbn [alloc_loop]. pose proof (wn_range _ _ _ _ Hw) as Hwr.
  destruct (Z.ltb_spec lcn (8 * br)) as [Hlt|Hge]; [|by exists s, Exhausted, runs].
  destruct (zget_inside (buf s) (Z.shiftr lcn 3)) as [x Ex]; [rewrite shiftr3; split; [apply Z.div_pos; lia | apply Z.div_lt_upper_bound; lia]|].
  rewrite Ex. cbn [mbind option_bind]. destruct (has_guess s) eqn:Eg.
  - destruct (Z.testbit x (Z.land lcn 7)) eqn:Et.
    { exists (set_guess s false), Exhausted, runs. split; [done|]. split; [|split; [done | split; [by destruct Hw; split | done]]]. destruct H as [[] ? ? ? ? ?]. by split. }
    pose proof (grow_rl_ok _ _ H Hr Hc) as Hg. destruct (grow_rl memory junk s) as [s0|]; [|by exists s, NoMemory, runs].
    destruct Hg as (H0 & Hm & G1 & G2 & G3 & G4 & G5). rewrite <-G4 in Ex.
    assert (window s0 runs q br) as Hw0 by (destruct Hw; split; rewrite ?G1, ?G4, ?G5; done).
    destruct (take_ok s0 runs q br lcn x H0 Hm Hw0) as (s1 & s2 & runs' & -> & E2 & H2 & Hr2 & Hw2 & Hc2 & Hg2); [lia | lia | done | done|].
    cbn [mbind option_bind]. rewrite E2. cbn [mbind option_bind]. destruct (Z.eqb_spec (clusters s2) 0) as [Hz|Hz].
    + exists s2, (Done lcn), runs'. split_and!; try done. intros ->. pose proof (bt_count _ _ H2) as Hcn. change (zlen (clusters_of [])) with 0 in Hcn. lia.
    + apply (IH s2 runs'); [done | done | done | lia | lia |]. rewrite Hg2, G3, Eg. lia.
  - destruct (max_empty_ok (buf s) br) as (r & -> & Hlong); [lia|]. cbn [mbind option_bind]. destruct (Z.ltb_spec r 0) as [Hneg|Hpos]; [by exists s, Exhausted, runs|].
    apply (IH (set_guess s true) runs); cbn [set_guess has_guess]; try done; [| | lia].
    + destruct H as [[] ? ? ? ? ?]. by split.
    + by destruct Hw; split.
Qed.

(** All changes are written. *)
Definition settled s runs : Prop := forall i, 0 <= i -> bit_at (attr_data (lcnbmp_na (l_vol s))) i = taken (clusters_of runs) i.

Lemma built_vol s runs vol : built s runs -> free_clusters vol = free_clusters (l_vol s) -> vol_ok vol -> built (set_vol s vol) runs.
Proof. intros [[] ? ? ? Hf ?] E H. split; try done; cbn; congruence. Qed.

Lemma vol_ok_bmp vol na : vol_ok vol -> zlen (attr_data na) = zlen m0 -> vol_ok (set_lcnbmp vol na).
Proof. intros [] E. by split. Qed.

Lemma writeback_ok s runs q br : built s runs -> window s runs q br ->
  exists vol, bitmap_writeback old_errno (l_vol s) q br (buf s) (writeback s) = Some (vol, Ok tt) /\ built (set_vol s vol) runs /\ settled (set_vol s vol) runs.
Proof.
  intros H [Hr Hi Ho Hc]. unfold bitmap_writeback. destruct (writeback s) eqn:Ew; cbn [negb].
  - destruct (zread (buf s) 0 br) as [bs|] eqn:Eb; [|by rewrite zread_inside in Eb by lia]. cbn [mbind option_bind]. pose proof (zread_Some _ _ _ _ Eb) as (_ & _ & _ & Hl & _).
    pose proof (vk_bytes _ (bt_vol _ _ H)) as Hz. destruct (attr_pwrite_full (lcnbmp_na (l_vol s)) q bs) as [na E]; [lia | lia|]. rewrite E.
    pose proof E as E'. apply attr_pwrite_law in E' as [_ Hw]; [|lia | lia]. rewrite firstn_all2 in Hw by (unfold zlen; lia).
    rewrite Hl, Z.eqb_refl. cbn [negb]. eexists. split; [done|]. pose proof (zwrite_Some _ _ _ _ Hw) as (_ & _ & Hlen & _). split.
    + apply built_vol; [done | done|]. apply vol_ok_bmp; [apply (bt_vol _ _ H) | congruence].
    + intros i Hi0. cbn. rewrite (bit_at_zwrite _ _ _ _ _ Hw). destruct (Z.leb_spec (8 * q) i), (Z.ltb_spec i (8 * (q + zlen bs))); cbn [andb].
      * rewrite (bit_at_zread _ _ _ _ _ Eb) by lia. rewrite Z.add_0_l, Hi by lia. f_equal. lia.
      * apply Ho; lia.
      * apply Ho; lia.
      * apply Ho; lia.
  - exists (l_vol s). split; [done|]. split; [|intros i Hi0; by apply Hc]. apply built_vol; [done | done | apply (bt_vol _ _ H)].
Qed.

(** A read of the bitmap. *)
Lemma read_ok s runs pos na r : built s runs -> settled s runs -> zlen (buf s) = 4096 -> 0 <= pos ->
  attr_pread (lcnbmp_na (l_vol s)) pos NTFS_LCNALLOC_BSIZE = (na, r) ->
  built (set_vol s (set_lcnbmp (l_vol s) na)) runs /\ settled (set_vol s (set_lcnbmp (l_vol s) na)) runs /\
  match r with
  | Err _ => True
  | Ok bs => zlen bs = 0 \/ exists b, zwrite (buf s) 0 bs = Some b /\ zlen b = 4096 /\ 0 < zlen bs /\
      built (set_buf s (set_lcnbmp (l_vol s) na) b) runs /\ window (set_buf s (set_lcnbmp (l_vol s) na) b) runs pos (zlen bs)
  end.
Proof.
  intros H Hs Hb Hp E. pose proof E as E'. apply attr_pread_law in E' as [Hd Hr]; [|done | done]. pose proof (vk_bytes _ (bt_vol _ _ H)) as Hz.
  assert (vol_ok (set_lcnbmp (l_vol s) na)) as Hv by (apply vol_ok_bmp; [apply (bt_vol _ _ H) | congruence]).
  split; [by apply built_vol | split; [intros i Hi; cbn; rewrite Hd; by apply Hs|]]. destruct r as [bs|]; [|done]. destruct Hr as [Hl Hh].
  unfold NTFS_LCNALLOC_BSIZE in Hl. pose proof (zlen_nonneg bs). destruct (decide (zlen bs = 0)) as [|Hne]; [by left | right].
  destruct (zwrite (buf s) 0 bs) as [b|] eqn:Eb; [|by rewrite zwrite_inside in Eb by lia]. exists b. pose proof (zwrite_Some _ _ _ _ Eb) as (_ & _ & Hlen & _).
  split; [done|]. split; [congruence|]. split; [lia|].
  assert (pos + zlen bs <= zlen m0) as Hin.
  { specialize (Hh (zlen bs - 1) ltac:(lia)). destruct (zget_inside bs (zlen bs - 1)) as [x Ex]; [lia|]. rewrite Ex in Hh. apply zget_bounds in Hh. lia. }
  split; [destruct H as [[] ? ? ? ? ?]; split; try done; by split|]. split; cbn [set_buf buf l_vol lcnbmp_na set_lcnbmp writeback]; rewrite ?Hd.
  - split_and!; lia.
  - intros i Hi. rewrite <-Hs by lia. rewrite (bit_at_zwrite _ _ _ _ _ Eb). destruct (Z.leb_spec (8 * 0) i), (Z.ltb_spec i (8 * (0 + zlen bs))); try lia. cbn [andb].
    replace (i - 8 * 0) with i by lia. unfold bit_at. replace (8 * pos + i) with (i + pos * 8) by lia. rewrite Z.div_add, Z.mod_add by lia.
    rewrite (Z.add_comm (i / 8)), Hh; [done|]. split; [apply Z.div_pos; lia | apply Z.div_lt_upper_bound; lia].
  - intros i Hi _. by apply Hs.
  - intros _ i Hi. by apply Hs.
Qed.

(** *** Zones *)

Lemma set_zone_pos_nonneg start end_ pos tc : 0 <= start -> 0 <= pos -> 0 <= tc -> 0 <= ntfs_cluster_set_zone_pos start end_ pos tc.
Proof. intros. unfold ntfs_cluster_set_zone_pos. by destruct (end_ <=? tc), (start <=? tc). Qed.

Lemma vol_ok_update vol zone tc : vol_ok vol -> 0 <= tc -> vol_ok (ntfs_cluster_update_zone_pos vol zone tc).
Proof.
  intros [] Ht. unfold ntfs_cluster_update_zone_pos.
  destruct (zone =? ZONE_MFT), (zone =? ZONE_DATA1); split; cbn; try done; apply set_zone_pos_nonneg; lia.
Qed.

(** The zones searched and done, in the order they come, with the number left. *)
Definition phases : list (Z * Z * Z) :=
  [(1, 0, 3); (2, 0, 3); (4, 0, 4); (2, 1, 2); (4, 3, 1); (4, 2, 2); (1, 6, 1); (2, 4, 3); (4, 6, 2)].
Definition phase (p : search) (k : Z) : Prop := (search_zone p, done_zones p, k) ∈ phases.

Lemma phase_range p k : phase p k -> 1 <= k <= 4.
Proof. unfold phase, phases. rewrite !elem_of_cons, elem_of_nil. intros H. repeat destruct H as [[= _ _ ->]|H]; (lia || done). Qed.

Lemma phase_switch vol p k ps zs ze bp u : phase p k -> Z.lor (done_zones p) (search_zone p) < 7 ->
  exists k', phase (switch_zone vol (Search ps (search_zone p) (Z.lor (done_zones p) (search_zone p)) zs ze bp u)) k' /\ k' < k.
Proof.
  unfold phase. intros H Hd. unfold phases in H at 1. rewrite !elem_of_cons, elem_of_nil in H.
  repeat destruct H as [[= E1 E2 ->]|H]; try done; rewrite E1, E2 in *; try done; cbn in *;
    first [exists 3; split; [wf_concrete | done] | exists 2; split; [wf_concrete | done] | exists 1; split; [wf_concrete | done]].
Qed.

(** The state between two buffers. *)
Definition at_rest s runs : Prop := built s runs /\ room s /\ settled s runs /\ 0 < clusters s /\ zlen (buf s) = 4096.

Lemma at_rest_vol s runs vol : at_rest s runs -> free_clusters vol = free_clusters (l_vol s) -> lcnbmp_na vol = lcnbmp_na (l_vol s) -> vol_ok vol ->
  at_rest (set_vol s vol) runs.
Proof.
  intros (H1 & H2 & H3 & H4 & H5) E1 E2 Hv. split; [by apply built_vol|]. split; [done|]. split; [|done]. intros i Hi. cbn. rewrite E2. by apply H3.
Qed.

Lemma switch_start vol p : vol_ok vol -> 0 <= zone_start (switch_zone vol p) /\ bmp_pos (switch_zone vol p) = zone_start (switch_zone vol p) /\
  used_zone_pos (switch_zone vol p) = used_zone_pos p.
Proof. intros []. unfold switch_zone. destruct (_ =? _); [|destruct (_ =? _); [|destruct (_ =? _)]]; by split_and!. Qed.

(** The last run of the runlist. *)
Lemma last_run s runs : runs_ok s runs -> rlpos s <> 0 -> exists e runs', runs = runs' ++ [e] /\ (rl s).[rlpos s - 1] = Some e /\ 0 <= lcn e /\ 0 < len e.
Proof.
  intros [[rest Er] Hp Hc Hl _] H0. destruct runs as [|e runs _] using rev_ind; [by rewrite Hp in H0|]. exists e, runs. split; [done|]. split_and!.
  - rewrite Er, Hp, <-app_assoc, zlen_app. apply zget_mid. change (zlen [e]) with 1. lia.
  - apply Forall_app in Hl as [_ [? _]%Forall_cons]. done.
  - apply (run_len _ _ _ Hc). apply elem_of_app. right. by left.
Qed.

Lemma done_zones_check_ok fuel s runs p k : at_rest s runs -> phase p k -> (Z.to_nat k <= fuel)%nat ->
  exists s' r, done_zones_check fuel s p = Some (s', r) /\ at_rest s' runs /\
    match r with None => True | Some p' => exists k', phase p' k' /\ k' < k /\ 0 <= bmp_pos p' /\ used_zone_pos p' = used_zone_pos p end.
Proof.
  revert s p k. induction fuel as [|f IH]; intros s p k H Hp Hf; [pose proof (phase_range _ _ Hp); lia|]. cbn [done_zones_check].
  set (vol1 := set_full_zones _ _). assert (vol_ok vol1) as Hv1 by (destruct (bt_vol _ _ (proj1 H)); by split).
  change (ZONE_MFT + ZONE_DATA1 + ZONE_DATA2) with 7. destruct (Z.ltb_spec (Z.lor (done_zones p) (search_zone p)) 7) as [Hd|Hd].
  2: { eexists _, None. split; [done|]. split; [by apply at_rest_vol | done]. }
  set (upd_vol := if negb (rlpos s =? 0) then _ else _).
  assert (exists vol2, upd_vol = Some vol2 /\ vol_ok vol2 /\ free_clusters vol2 = free_clusters (l_vol s) /\ lcnbmp_na vol2 = lcnbmp_na (l_vol s)) as (vol2 & -> & Hv2 & E2 & E3).
  { unfold upd_vol. destruct (Z.eqb_spec (rlpos s) 0) as [H0|H0]; cbn [negb]; [by exists vol1|].
    destruct (last_run _ _ (bt_runs _ _ (proj1 H)) H0) as (e & runs' & _ & -> & Hl & Hn). cbn [mbind option_bind]. eexists. split; [done|].
    destruct (used_zone_pos p); [|done]. split; [apply vol_ok_update; [done | unfold NTFS_LCNALLOC_SKIP, NTFS_LCNALLOC_BSIZE; lia]|].
    unfold ntfs_cluster_update_zone_pos. by repeat case_match. }
  cbn [mbind option_bind]. destruct (phase_switch vol2 p k 1 (zone_start p) (zone_end p) (bmp_pos p) (used_zone_pos p) Hp Hd) as (k' & Hp' & Hk').
  set (p' := switch_zone vol2 _) in *. pose proof (at_rest_vol _ _ vol2 H E2 E3 Hv2) as H2. destruct (switch_start vol2 (Search 1 (search_zone p) (Z.lor (done_zones p) (search_zone p)) (zone_start p) (zone_end p) (bmp_pos p) (used_zone_pos p)) Hv2) as (S1 & S2 & S3).
  fold p' in S1, S2, S3. cbn in S3. destruct (Z.eqb_spec (zone_start p') (zone_end p')).
  - pose proof (phase_range _ _ Hp). pose proof (phase_range _ _ Hp'). destruct (IH (set_vol s vol2) p' k' H2 Hp') as (s' & r & E & H' & Hr); [lia|]. exists s', r. split; [done|]. split; [done|].
    destruct r as [p2|]; [|done]. destruct Hr as (k2 & P1 & P2 & P3 & P4). exists k2. split_and!; try done; [lia | congruence].
  - eexists _, (Some p'). split; [done|]. split; [done|]. exists k'. split_and!; try done. lia.
Qed.

(** What is left to search: zones, passes, and the hint. *)
Definition rank p (k : Z) : Z := 4 * k + (if pass p =? 1 then 2 else 0) + (if used_zone_pos p then 0 else 1).

Lemma zone_pass_done_ok s runs p k : at_rest s runs -> phase p k ->
  exists s' r, zone_pass_done s p = Some (s', r) /\ at_rest s' runs /\
    match r with None => True | Some p' => exists k', phase p' k' /\ rank p' k' < rank p k /\ 0 <= bmp_pos p' end.
Proof.
  intros H Hp. unfold zone_pass_done. destruct (Z.eqb_spec (pass p) 1) as [E|E].
  - eexists s, (Some _). split; [done|]. split; [done|]. exists k. split; [done|]. unfold rank. cbn [pass bmp_pos used_zone_pos]. rewrite E. cbn [Z.eqb Pos.eqb].
    split; [lia|]. destruct (bt_vol _ _ (proj1 H)) as [_ _ _ _ E1 E2 _ _]. repeat case_match; lia.
  - destruct (done_zones_check_ok 8 s runs p k H Hp) as (s' & r & -> & H' & Hr); [pose proof (phase_range _ _ Hp); lia|]. exists s', r. split; [done|]. split; [done|].
    destruct r as [p'|]; [|done]. destruct Hr as (k' & P1 & P2 & P3 & P4). exists k'. split; [done|]. split; [|done]. unfold rank. rewrite P4.
    rewrite (proj2 (Z.eqb_neq (pass p) 1)) by done. destruct (pass p' =? 1), (used_zone_pos p); lia.
Qed.

(** *** The search *)

Definition measure p (k : Z) : Z := rank p k * (8 * zlen m0 + 1) + Z.max 0 (8 * zlen m0 - bmp_pos p).

Lemma measure_rank p k p' k' : rank p' k' < rank p k -> 0 <= bmp_pos p' -> measure p' k' < measure p k.
Proof. intros Hr Hb. unfold measure. pose proof (zlen_nonneg m0). assert (Z.max 0 (8 * zlen m0 - bmp_pos p') <= 8 * zlen m0) by lia. nia. Qed.

Lemma aligned x : Z.land x (Z.lnot 7) = 8 * (x / 8).
Proof. rewrite <-Z.ldiff_land. change 7 with (Z.ones 3). rewrite Z.ldiff_ones_r by lia. by rewrite shiftl3, shiftr3. Qed.

Lemma next_buffer_ok vol p k br : vol_ok vol -> phase p k -> 0 <= bmp_pos p -> 0 < br -> bmp_pos p / 8 + br <= zlen m0 ->
  phase (next_buffer vol p (8 * br)) k /\ 0 <= bmp_pos (next_buffer vol p (8 * br)) /\ measure (next_buffer vol p (8 * br)) k < measure p k.
Proof.
  intros Hv Hp Hb Hbr Hin. unfold next_buffer. pose proof (Z.div_mod (bmp_pos p) 8 ltac:(lia)). pose proof (Z.mod_pos_bound (bmp_pos p) 8 ltac:(lia)).
  destruct (used_zone_pos p) eqn:Eu; cbn [negb].
  - split; [done|]. cbn [bmp_pos]. rewrite aligned. split; [lia|]. unfold measure, rank. cbn [pass used_zone_pos bmp_pos]. rewrite Eu. lia.
  - split; [done|]. assert (0 <= zone_pos vol (search_zone p)) as Hz by (destruct Hv; unfold zone_pos; by repeat case_match). split; [done|].
    apply measure_rank; [|done]. unfold rank. cbn [pass used_zone_pos]. rewrite Eu. destruct (is_zone_start _ _); cbn; destruct (pass p =? 1); lia.
Qed.

Definition result_ok s p runs (r : found) : Prop :=
  built s runs /\ room s /\
  match r with
  | Found pos br l => window s runs pos br /\ clusters s = 0 /\ runs <> [] /\ 0 <= l /\ 0 <= bmp_pos p
  | Failed _ => settled s runs /\ 0 < clusters s
  end.

Lemma search_loop_ok fuel s runs p k : at_rest s runs -> phase p k -> 0 <= bmp_pos p -> (Z.to_nat (measure p k) < fuel)%nat ->
  exists s' p' r runs', search_loop memory junk old_errno fuel s p start_vcn = Some (s', p', r) /\ result_ok s' p' runs' r.
Proof.
  revert s runs p k. induction fuel as [|f IH]; intros s runs p k H Hp Hb Hf; [lia|]. cbn [search_loop].
  assert (forall s runs p2, at_rest s runs -> phase p2 k -> measure p2 k <= measure p k -> exists s' p' r runs',
    (r ← zone_pass_done s p2; match r with (s, Some p) => search_loop memory junk old_errno f s p start_vcn | (s, None) => Some (s, p2, Failed ENOSPC) end)
      = Some (s', p', r) /\ result_ok s' p' runs' r) as Hpass.
  { clear s runs H. intros s runs p2 H Hp2 Hm. destruct (zone_pass_done_ok s runs p2 k H Hp2) as (s1 & r & -> & H1 & Hr). cbn [mbind option_bind]. destruct r as [p1|].
    - destruct Hr as (k' & P1 & P2 & P3). pose proof (measure_rank _ _ _ _ P2 P3). assert (0 <= measure p1 k').
      { unfold measure. pose proof (phase_range _ _ P1). pose proof (zlen_nonneg m0). assert (0 <= rank p1 k') by (unfold rank; repeat case_match; lia). nia. }
      apply (IH s1 runs p1 k'); [done | done | done | lia].
    - destruct H1 as (? & ? & ? & ? & _). by exists s1, p2, (Failed ENOSPC), runs. }
  destruct (negb _); [by apply (Hpass s runs)|]. destruct H as (H1 & H2 & H3 & H4 & H5). rewrite shiftr3.
  assert (0 <= bmp_pos p / 8) as Hq by (apply Z.div_pos; lia).
  destruct (attr_pread _ _ _) as [na r] eqn:Er. destruct (read_ok s runs _ na r H1 H3 H5 Hq Er) as (R1 & R2 & R3).
  destruct r as [bs|e]; [|by eexists _, _, _, runs]. destruct (Z.eqb_spec (zlen bs) 0) as [Hz|Hz].
  { apply (Hpass _ runs); [by split_and! | done | lia]. }
  destruct R3 as [|(b & -> & Hbl & Hbs & R4 & R5)]; [lia|]. cbn [mbind option_bind]. rewrite aligned, land7.
  pose proof (Z.mod_pos_bound (bmp_pos p) 8 ltac:(lia)) as Hmb. set (s2 := set_buf s _ b) in *.
  destruct (alloc_loop_ok (Z.to_nat (8 * zlen bs + 2)) s2 runs (bmp_pos p / 8) (zlen bs) (bmp_pos p mod 8)) as (s3 & out & runs3 & -> & A1 & A2 & A3 & A4);
    [done | done | done | done | lia | destruct (has_guess s2); lia|].
  cbn [mbind option_bind]. destruct out as [|l|].
  - destruct (writeback_ok _ _ _ _ A1 A3) as (vol & -> & W1 & W2). cbn [mbind option_bind]. pose proof (wn_range _ _ _ _ R5) as Hr5.
    destruct (next_buffer_ok vol p k (zlen bs) (bt_vol _ _ W1) Hp Hb Hbs) as (N1 & N2 & N3); [lia|]. set (p' := next_buffer vol p _) in *.
    assert (at_rest (set_vol s3 vol) runs3) as Hrest. { split_and!; try done. by pose proof (wn_range _ _ _ _ A3) as (_ & _ & _ & _ & ?). }
    destruct (Z.ltb_spec (bmp_pos p') (zone_end p')); [|apply (Hpass _ runs3); [done | done | lia]].
    apply (IH _ runs3 p' k); [done | done | done|]. assert (0 <= measure p' k); [|lia].
    unfold measure. pose proof (phase_range _ _ N1). pose proof (zlen_nonneg m0). assert (0 <= rank p' k) by (unfold rank; repeat case_match; lia). nia.
  - destruct A4 as (A4 & A5 & A6). by eexists _, _, _, runs3.
  - destruct (writeback_ok _ _ _ _ A1 A3) as (vol & -> & W1 & W2). cbn [mbind option_bind fst snd]. by eexists _, _, _, runs3.
Qed.

Lemma terminate_ok s runs : runs_ok s runs -> room s -> runs <> [] ->
  exists rest, terminate s = Some (runs ++ RL (runs_end start_vcn runs) LCN_RL_NOT_MAPPED 0 :: rest).
Proof.
  intros H Hr Hne. unfold terminate. pose proof H as [[rest Er] Hp Hc _ _]. pose proof (zlen_nonneg runs).
  assert (rlpos s <> 0) as Hn0 by (rewrite Hp; destruct runs; [done | rewrite zlen_cons; pose proof (zlen_nonneg runs); lia]).
  destruct (last_run _ _ H Hn0) as (e & runs' & -> & -> & _ & _). cbn [mbind option_bind].
  destruct Hr as [[_ E]|(R1 & R2 & R3 & R4)]; [rewrite E in Er; symmetry in Er; by apply app_nil in Er as [[_ ?]%app_nil _]|].
  assert (rlpos s + 1 <= rlsize s / 24) by (apply Z.div_le_lower_bound; lia). rewrite Hp, Er in *.
  destruct rest as [|x rest]; [rewrite app_nil_r in R2; lia|]. rewrite zset_mid by done. exists rest. do 4 f_equal.
  apply contig_app in Hc as (_ & Hv & _). rewrite runs_end_app. cbn. congruence.
Qed.

Lemma room_nil s runs : runs_ok s runs -> room s -> rlsize s <> 0 -> runs <> [].
Proof. intros [_ Hp _ _ _] [[? _]|(_ & _ & R & _)] H0; [done|]. intros ->. rewrite Hp, (@zlen_nil runlist_element) in R. lia. Qed.

(** The runs of the runlist are all on the volume. *)
Lemma built_runs s runs : built s runs -> Forall (fun e => 0 < len e) runs /\ Forall (on_volume (l_vol s)) runs /\ real runs = runs.
Proof.
  intros [[_ _ Hc Hl _] _ _ Hf _ Hv]. split_and!.
  - apply Forall_forall. intros e He. by apply (run_len _ _ _ Hc).
  - apply Forall_forall. intros e He _. unfold bitmap. rewrite (vk_bytes _ Hv). rewrite Forall_forall in Hf. pose proof (run_len _ _ _ Hc He).
    destruct (Hf (lcn e + len e - 1)); [|lia]. apply list_elem_of_split in He as (r1 & r2 & ->). change (e :: r2) with ([e] ++ r2).
    rewrite !clusters_app, clusters_one, !elem_of_app, elem_of_seqZ. right. left. lia.
  - clear -Hl. unfold real. induction Hl as [|e runs He Hl IH]; [done|]. rewrite filter_cons, decide_True by done. by rewrite IH.
Qed.

Context (Hsize : 8 * zlen m0 < 2 ^ 33).

Lemma err_ret_ok s runs e : built s runs -> room s -> settled s runs -> 
  exists vol, err_ret s e = Some (vol, Err e) /\ zlen (bitmap vol) = zlen m0 /\ (forall i, 0 <= i -> bit_at (bitmap vol) i = bit_at m0 i) /\
    (count <= free_clusters vol0 -> 0 <= clusters s -> free_clusters vol = free_clusters vol0).
Proof.
  intros H Hr Hs. unfold err_ret. destruct (Z.eqb_spec (rlsize s) 0) as [E|E].
  - exists (l_vol s). assert (runs = []) as ->.
    { destruct Hr as [[_ En]|[? _]]; [|lia]. destruct (bt_runs _ _ H) as [[rest Er] _ _ _ _]. rewrite En in Er. symmetry in Er. by apply app_nil in Er as [-> _]. }
    split; [done|]. split; [apply (vk_bytes _ (bt_vol _ _ H))|]. split.
    + intros i Hi. unfold bitmap. rewrite Hs by done. unfold taken. rewrite bool_decide_false by apply not_elem_of_nil. by rewrite orb_false_r.
    + intros Hf _. rewrite (bt_fc _ _ H). change (zlen (clusters_of [])) with 0. lia.
  - destruct (terminate_ok s runs (bt_runs _ _ H) Hr (room_nil _ _ (bt_runs _ _ H) Hr E)) as [rest ->]. cbn [mbind option_bind].
    destruct (built_runs _ _ H) as (B1 & B2 & B3).
    destruct (free_from_rl_ok runs (RL (runs_end start_vcn runs) LCN_RL_NOT_MAPPED 0) rest (l_vol s) eq_refl B1 B2) as (vol & -> & (F1 & _ & F2) & F3).
    { unfold bitmap. by rewrite (vk_bytes _ (bt_vol _ _ H)). }
    cbn [mbind option_bind fst]. exists vol. rewrite B3 in *. split; [done|]. split; [rewrite F1; apply (vk_bytes _ (bt_vol _ _ H))|]. split.
    + intros i Hi. rewrite F2 by done. unfold bitmap. rewrite Hs by done. unfold taken. destruct (bool_decide (i ∈ clusters_of runs)) eqn:Eb.
      * apply bool_decide_eq_true in Eb. pose proof (bt_free _ _ H) as Hfr. rewrite Forall_forall in Hfr. destruct (Hfr _ Eb) as [_ ->]. done.
      * by rewrite orb_false_r, andb_true_r.
    + intros Hf Hc. rewrite F3, (bt_fc _ _ H). pose proof (bt_count _ _ H). pose proof (zlen_nonneg (clusters_of runs)). lia.
Qed.

(** What the caller gets. *)
Definition allocated vol (r : result runlist) : Prop :=
  zlen (bitmap vol) = zlen (bitmap vol0) /\
  match r with
  | Ok rl => exists runs rest, rl = runs ++ RL (start_vcn + count) LCN_RL_NOT_MAPPED 0 :: rest /\
      contig start_vcn runs /\ Forall (fun e => 0 <= lcn e) runs /\ NoDup (clusters_of runs) /\ zlen (clusters_of runs) = count /\
      (forall c, c ∈ clusters_of runs -> 0 <= c < 8 * zlen (bitmap vol0) /\ bit_at (bitmap vol0) c = false) /\
      (forall i, 0 <= i -> bit_at (bitmap vol) i = bit_at (bitmap vol0) i || bool_decide (i ∈ clusters_of runs)) /\
      (count <= free_clusters vol0 -> free_clusters vol = free_clusters vol0 - count)
  | Err _ => (forall i, 0 <= i -> bit_at (bitmap vol) i = bit_at (bitmap vol0) i) /\
      (count <= free_clusters vol0 -> free_clusters vol = free_clusters vol0)
  end.

Lemma first_search_ok start_lcn zone : -1 <= start_lcn ->
  exists k, phase (first_search vol0 start_lcn zone) k /\ 0 <= bmp_pos (first_search vol0 start_lcn zone).
Proof.
  intros Hs. unfold first_search. set (start := if 0 <=? start_lcn then _ else _).
  assert (0 <= start) as H0 by (unfold start; destruct Hvol0; destruct (Z.leb_spec 0 start_lcn); [done|]; by destruct (_ =? _)).
  destruct (_ <? _); [exists 4; split; [unfold phase; cbn [search_zone done_zones]; wf_concrete | done]|]. destruct (_ <? _); exists 3; (split; [unfold phase; cbn [search_zone done_zones]; wf_concrete | done]).
Qed.

Lemma found_ok s p runs pos br l : result_ok s p runs (Found pos br l) ->
  let tc := l + Z.land (bmp_pos p) (Z.lnot 7) + 1 + NTFS_LCNALLOC_SKIP in
  let s1 := set_vol s (if used_zone_pos p then ntfs_cluster_update_zone_pos (l_vol s) (search_zone p) tc else l_vol s) in
  exists rl vol, terminate s1 = Some rl /\ bitmap_writeback old_errno (l_vol s1) pos br (buf s1) (writeback s1) = Some (vol, Ok tt) /\ allocated vol (Ok rl).
Proof.
  intros (H & Hr & Hw & Hc & Hne & Hl & Hb) tc s1. assert (0 <= tc) as Ht.
  { unfold tc, NTFS_LCNALLOC_SKIP, NTFS_LCNALLOC_BSIZE. rewrite aligned. assert (0 <= bmp_pos p / 8) by (apply Z.div_pos; lia). lia. }
  assert (built s1 runs /\ window s1 runs pos br) as [H1 Hw1].
  { unfold s1. destruct (used_zone_pos p).
    - assert (lcnbmp_na (ntfs_cluster_update_zone_pos (l_vol s) (search_zone p) tc) = lcnbmp_na (l_vol s)) as E by (unfold ntfs_cluster_update_zone_pos; by repeat case_match).
      split; [|destruct Hw; split; cbn; by rewrite ?E]. apply built_vol; [done | | apply vol_ok_update; [apply (bt_vol _ _ H) | done]].
      unfold ntfs_cluster_update_zone_pos; by repeat case_match.
    - split; [|by destruct Hw; split]. apply built_vol; [done | done | apply (bt_vol _ _ H)]. }
  destruct (terminate_ok s1 runs (bt_runs _ _ H1) Hr Hne) as [rest E]. destruct (writeback_ok _ _ _ _ H1 Hw1) as (vol & Ew & W1 & W2).
  eexists _, vol. split; [exact E|]. split; [exact Ew|]. pose proof (bt_count _ _ W1) as Hcnt. cbn [set_vol clusters s1] in Hcnt. rewrite Hc in Hcnt.
  pose proof (vk_bytes _ (bt_vol _ _ W1)) as Hz. split; [exact Hz|]. exists runs, rest.
  rewrite (runs_end_clusters _ _ (ro_contig _ _ (bt_runs _ _ H1))). split; [do 4 f_equal; lia|].
  split; [apply (bt_runs _ _ W1)|]. split; [apply (bt_runs _ _ W1)|]. split; [apply (bt_nodup _ _ W1)|]. split; [lia|]. split; [|split].
  - pose proof (bt_free _ _ W1) as Hf. rewrite Forall_forall in Hf. apply Hf.
  - intros i Hi. apply W2. done.
  - intros Hf. pose proof (bt_fc _ _ W1) as E1. cbn in E1. rewrite E1. lia.
Qed.

Lemma cluster_alloc_ok fuel start_lcn zone : -1 <= start_lcn -> FIRST_ZONE <= zone <= LAST_ZONE -> (Z.to_nat (20 * (8 * zlen (bitmap vol0) + 1)) <= fuel)%nat ->
  exists vol r, ntfs_cluster_alloc memory junk old_errno fuel vol0 start_vcn count start_lcn zone = Some (vol, r) /\ allocated vol r.
Proof.
  intros Hs Hz Hf. unfold FIRST_ZONE, LAST_ZONE in *. unfold ntfs_cluster_alloc, FIRST_ZONE, LAST_ZONE.
  rewrite (proj2 (Z.ltb_ge count 0)), (proj2 (Z.ltb_ge start_lcn (-1))), (proj2 (Z.ltb_ge zone 0)), (proj2 (Z.ltb_ge 1 zone)), (proj2 (Z.eqb_neq count 0)) by lia. cbn [orb].
  destruct (memory NTFS_LCNALLOC_BSIZE); [cbn [negb]|by exists vol0, (Err ENOMEM)].
  destruct (first_search_ok start_lcn zone Hs) as (k & Hp & Hb). set (p0 := first_search vol0 start_lcn zone) in *. set (s0 := Locals _ _ _ _ _ _ _ _ _ _).
  assert (at_rest s0 []) as H0.
  { split_and!; [| by left | | cbn; lia | done].
    - split; [ | | constructor | constructor | | done].
      + split; cbn; try done. by exists [].
      + change (count + 0 = count). lia.
      + change (free_clusters vol0 = Z.max (free_clusters vol0 - 0) (Z.min (free_clusters vol0) 0)). lia.
    - intros i Hi. cbn. unfold taken. rewrite bool_decide_false by apply not_elem_of_nil. by rewrite orb_false_r. }
  destruct (search_loop_ok fuel s0 [] p0 k H0 Hp Hb) as (s & p & r & runs & -> & Hr).
  { assert (measure p0 k < 20 * (8 * zlen m0 + 1)) as Hm.
    { unfold measure. pose proof (phase_range _ _ Hp). pose proof (zlen_nonneg m0). assert (rank p0 k <= 19) by (unfold rank; repeat case_match; lia). nia. }
    change (bitmap vol0) with m0 in Hf. pose proof (zlen_nonneg m0). lia. }
  cbn [mbind option_bind]. destruct r as [pos br l|e].
  - destruct (found_ok _ _ _ _ _ _ Hr) as (rl & vol & Et & Ew & Ha). cbn zeta. rewrite Et. cbn [mbind option_bind]. rewrite Ew. cbn [mbind option_bind]. by exists vol, (Ok rl).
  - destruct Hr as (H & Hrm & Hset & Hc). destruct (err_ret_ok s runs e H Hrm Hset) as (vol & -> & E1 & E2 & E3). exists vol, (Err e). split; [done|].
    split; [done|]. split; [done|]. intros Hfc. apply E3; lia.
Qed.
End alloc.

(** ** Properties *)

(** The zones lie on the volume. *)
Definition zones_ok {A} (vol : ntfs_volume A) : Prop :=
  0 <= mft_lcn vol /\ 0 <= mft_zone_start vol /\ 0 <= mft_zone_end vol /\
  0 <= mft_zone_pos vol /\ 0 <= data1_zone_pos vol /\ 0 <= data2_zone_pos vol.

(** max_empty_bit_range, for any bytes, ends inside the buffer and returns the
    start of a longest range of clear bits, or -1 when all bits are set. *)
Theorem max_empty_bit_range_correct m size : 0 <= size <= zlen m ->
  exists r, max_empty_bit_range m size = Some r /\ longest m (8 * size) r.
Proof. apply max_empty_ok. Qed.


(** C18: What ntfs_cluster_alloc returned, ntfs_cluster_free_from_rl gives back: the
    bitmap and the count of free clusters are as before. *)
Theorem cluster_alloc_free {A} `{!AttrOps A} `{!AttrLaws A} `{!AttrReliable A} memory junk old_errno fuel (vol vol' : ntfs_volume A) start_vcn count start_lcn zone rl :
  zones_ok vol -> 0 < count <= 2 ^ 26 -> -1 <= start_lcn -> FIRST_ZONE <= zone <= LAST_ZONE -> 8 * zlen (bitmap vol) < 2 ^ 33 ->
  (Z.to_nat (20 * (8 * zlen (bitmap vol) + 1)) <= fuel)%nat -> count <= free_clusters vol ->
  ntfs_cluster_alloc memory junk old_errno fuel vol start_vcn count start_lcn zone = Some (vol', Ok rl) ->
  exists vol2, ntfs_cluster_free_from_rl vol' rl = Some (vol2, Ok tt) /\ zlen (bitmap vol2) = zlen (bitmap vol) /\
    (forall i, 0 <= i -> bit_at (bitmap vol2) i = bit_at (bitmap vol) i) /\ free_clusters vol2 = free_clusters vol.
Proof.
  intros (? & ? & ? & ? & ? & ?) Hc Hs Hz Hsz Hf Hfc E.
  destruct (cluster_alloc_ok memory junk old_errno vol start_vcn count ltac:(by split) ltac:(done) ltac:(done) ltac:(done) Hc Hsz fuel start_lcn zone Hs Hz Hf) as (v & r & E' & Ha).
  rewrite E in E'. injection E' as <- <-. destruct Ha as (Hlen & runs & rest & -> & Hcon & Hl & Hnd & Hcnt & Hfree & Hbits & Hcl).
  assert (Forall (fun e => 0 < len e) runs) as B1 by (apply Forall_forall; intros e He; by apply (run_len _ _ _ Hcon)).
  assert (real runs = runs) as B3 by (clear -Hl; unfold real; induction Hl as [|e runs He Hl IH]; [done|]; rewrite filter_cons, decide_True by done; by rewrite IH).
  assert (Forall (on_volume vol') runs) as B2.
  { apply Forall_forall. intros e He _. rewrite Hlen. pose proof (run_len _ _ _ Hcon He). destruct (Hfree (lcn e + len e - 1)); [|lia].
    apply list_elem_of_split in He as (r1 & r2 & ->). change (e :: r2) with ([e] ++ r2). rewrite !clusters_app, clusters_one, !elem_of_app, elem_of_seqZ. right. left. lia. }
  destruct (free_from_rl_ok runs (RL (start_vcn + count) LCN_RL_NOT_MAPPED 0) rest vol' eq_refl B1 B2) as (vol2 & -> & (F1 & _ & F2) & F3); [by rewrite Hlen|].
  rewrite B3 in *. exists vol2. split; [done|]. split; [congruence|]. split; [|rewrite F3, Hcl by done; lia].
  intros i Hi. rewrite F2, Hbits by done. destruct (bool_decide (i ∈ clusters_of runs)) eqn:Eb; [|by rewrite orb_false_r, andb_true_r].
  apply bool_decide_eq_true, Hfree in Eb as [_ ->]. done.
Qed.

(** On a volume where every other cluster is free, 64 of them, the allocation of
    four clusters fails with ENOSPC: each buffer of the bitmap gives only its
    longest free range at each visit, each of the three zones is visited once when
    the positions are at their starts, and the zones are then taken to be full. *)
Theorem cluster_alloc_fragmented junk old_errno :
  exists vol : ntfs_volume (list Z), zones_ok vol /\ nr_clusters vol = 128 /\ free_clusters vol = 64 /\ full_zones vol = 0 /\
    (forall i, 0 <= i < 128 -> bit_at (bitmap vol) i = Z.even i) /\
    exists vol', ntfs_cluster_alloc (fun _ => true) junk old_errno 2600 vol 0 4 (-1) DATA_ZONE = Some (vol', Err ENOSPC).
Proof.
  exists (Volume 0 16 32 16 32 0 128 (replicate 16 0x55) 16 64). split; [unfold zones_ok; cbn; lia|]. split_and!; try done.
  - intros i Hi. assert (Forall (fun k => bit_at (replicate 16 0x55) k = Z.even k) (seqZ 0 128)) as H.
    { apply (bool_decide_unpack _). vm_compute. exact I. }
    rewrite Forall_seqZ in H. apply H. lia.
  - eexists. vm_compute. reflexivity.
Qed.

(** C19: On an attribute whose runlist is loaded, ntfs_cluster_free frees exactly the
    clusters that the range of [count] virtual clusters, or all up to the end, is
    mapped to, holes aside; it returns their number in 32 bits. *)
Theorem cluster_free_correct {A B} `{!AttrOps A} `{!AttrLaws A} `{!AttrReliable A} NAttrNonResident attr_rl map_runlist
    (vol : ntfs_volume A) (na : B) runs term rest v0 start_vcn count :
  NAttrNonResident na = true -> attr_rl na = Some (runs ++ term :: rest) -> wf_rl v0 runs term -> Forall (fun e => LCN_HOLE <= lcn e) runs -> 0 <= v0 ->
  Forall (on_volume vol) runs -> 8 * zlen (bitmap vol) < 2 ^ 33 -> v0 <= start_vcn < runs_end v0 runs ->
  count = -1 \/ 0 <= count /\ start_vcn + count <= runs_end v0 runs ->
  let cs := range_clusters runs start_vcn (if count =? -1 then runs_end v0 runs - start_vcn else count) in
  exists vol', ntfs_cluster_free NAttrNonResident attr_rl map_runlist vol na start_vcn count = Some (vol', na, Ok (s32 (zlen cs))) /\
    freed_bits vol vol' cs /\ free_clusters vol' = free_clusters vol + zlen cs.
Proof. intros. by eapply cluster_free_ok. Qed.

(** ** Witnesses *)

Lemma max_empty_bit_range_correct_witness : 0 <= 3 <= zlen [255; 0x8f; 0xfe] /\ exists r, max_empty_bit_range [255; 0x8f; 0xfe] 3 = Some r /\ longest [255; 0x8f; 0xfe] (8 * 3) r.
Proof. split; [vm_compute; split; discriminate | apply max_empty_bit_range_correct; vm_compute; split; discriminate]. Defined.

(** A volume of 128 clusters with the MFT zone from 16 to 32. *)
Definition sample_volume : ntfs_volume (list Z) := Volume 0 16 32 16 32 0 128 ([255; 0] ++ replicate 14 0x0f) 16 64.

Lemma sample_zones : zones_ok sample_volume.
Proof. unfold zones_ok; cbn; lia. Qed.


Lemma cluster_alloc_free_witness :
  exists vol' rl, ntfs_cluster_alloc (fun _ => true) (RL 0 0 0) EIO 2600 sample_volume 7 9 (-1) DATA_ZONE = Some (vol', Ok rl) /\
  exists vol2, ntfs_cluster_free_from_rl vol' rl = Some (vol2, Ok tt) /\ zlen (bitmap vol2) = zlen (bitmap sample_volume) /\
    (forall i, 0 <= i -> bit_at (bitmap vol2) i = bit_at (bitmap sample_volume) i) /\ free_clusters vol2 = free_clusters sample_volume.
Proof.
  do 2 eexists. split; [vm_compute; reflexivity|].
  apply (cluster_alloc_free (fun _ => true) (RL 0 0 0) EIO 2600 sample_volume _ 7 9 (-1) DATA_ZONE).
  - apply sample_zones.
  - lia.
  - lia.
  - vm_compute; split; discriminate.
  - vm_compute; reflexivity.
  - apply Nat.leb_le. vm_compute. reflexivity.
  - vm_compute; discriminate.
  - vm_compute; reflexivity.
Defined.

Lemma cluster_free_correct_witness :
  let runs := [RL 0 20 4; RL 4 LCN_HOLE 10; RL 14 100 2] in
  let cs := range_clusters runs 2 13 in
  exists vol', ntfs_cluster_free (fun _ => true) (fun na => na) (fun na _ => (na, Err EIO)) sample_volume (Some (runs ++ [RL 16 LCN_ENOENT 0])) 2 13
      = Some (vol', Some (runs ++ [RL 16 LCN_ENOENT 0]), Ok (s32 (zlen cs))) /\
    freed_bits sample_volume vol' cs /\ free_clusters vol' = free_clusters sample_volume + zlen cs.
Proof.
  intros runs cs. apply (cluster_free_correct (fun _ => true) (fun na => na) (fun na _ => (na, Err EIO)) sample_volume _ runs (RL 16 LCN_ENOENT 0) [] 0 2 13).
  - reflexivity.
  - reflexivity.
  - split; [|done..]. repeat split.
  - repeat constructor; cbn; unfold LCN_HOLE; lia.
  - lia.
  - repeat constructor; vm_compute; intros; discriminate.
  - vm_compute; reflexivity.
  - cbn; lia.
  - right. cbn. lia.
Defined.
