(* ===== verification/Boot.v ===== *)
(** The boot sector (libntfs-3g/bootsect.c) and the zones of a volume that is
    started from it (volume.c: ntfs_volume_startup).  The zones are the state that
    cluster allocation (Lcnalloc) begins with. *)

From S2P Require Import Prelude AttrIo Lcnalloc LcnSpec.
Local Open Scope Z_scope.
Local Open Scope c_scope.
Set Default Proof Using "Type*".

(** The fields of NTFS_BOOT_SECTOR and its BIOS_PARAMETER_BLOCK. *)
Definition oem_id (b : list Z) : option Z := le64_to_cpup b 3.
Definition bytes_per_sector (b : list Z) : option Z := le16_to_cpup b 11.
Definition sectors_per_cluster (b : list Z) : option Z := b.[13].
Definition reserved_sectors (b : list Z) : option Z := le16_to_cpup b 14.
Definition fats (b : list Z) : option Z := b.[16].
Definition root_entries (b : list Z) : option Z := le16_to_cpup b 17.
Definition small_sectors (b : list Z) : option Z := le16_to_cpup b 19.
Definition sectors_per_fat (b : list Z) : option Z := le16_to_cpup b 22.
Definition large_sectors (b : list Z) : option Z := le32_to_cpup b 32.
Definition number_of_sectors (b : list Z) : option Z := sle64_to_cpup b 40.
Definition bs_mft_lcn (b : list Z) : option Z := sle64_to_cpup b 48.
Definition bs_mftmirr_lcn (b : list Z) : option Z := sle64_to_cpup b 56.
Definition clusters_per_mft_record (b : list Z) : option Z := x ← b.[64]; Some (s8 x).
Definition clusters_per_index_record (b : list Z) : option Z := x ← b.[68]; Some (s8 x).

(** "NTFS    " *)
Definition NTFS_OEM_ID : Z := 0x202020205346544e.

(** The number of clusters of a record: one of the powers of 2 up to 64, or the
    negated logarithm of its size in bytes. *)
Definition record_clusters_ok (c : Z) : bool :=
  if (u8 c <? 0xe1) || (0xf7 <? u8 c) then
    (c =? 1) || (c =? 2) || (c =? 4) || (c =? 8) || (c =? 0x10) || (c =? 0x20) || (c =? 0x40)
  else true.

Definition ntfs_boot_sector_is_ntfs (b : list Z) : option bool :=
  oem ← oem_id b;
  if negb (oem =? NTFS_OEM_ID) then Some false
  else
    bytes ← bytes_per_sector b;
    if (bytes <? 256) || (4096 <? bytes) then Some false
    else
      spc ← sectors_per_cluster b;
      if negb ((spc =? 1) || (spc =? 2) || (spc =? 4) || (spc =? 8) || (spc =? 16) || (spc =? 32) || (spc =? 64) || (spc =? 128)) then Some false
      else if 65536 <? u32 (bytes * spc) then Some false
      else
        reserved ← reserved_sectors b;
        roots ← root_entries b;
        sectors ← small_sectors b;
        fat ← sectors_per_fat b;
        large ← large_sectors b;
        nfats ← fats b;
        if negb (reserved =? 0) || negb (roots =? 0) || negb (sectors =? 0) || negb (fat =? 0) || negb (large =? 0) || negb (nfats =? 0) then Some false
        else
          cpm ← clusters_per_mft_record b;
          if negb (record_clusters_ok cpm) then Some false
          else cpi ← clusters_per_index_record b; Some (record_clusters_ok cpi).

(** ffs of the C library, on an int that is not negative. *)
Fixpoint ffs_loop (fuel : nat) (x i : Z) : Z :=
  match fuel with
  | O => 0
  | S f => if Z.testbit x 0 then i else ffs_loop f (Z.shiftr x 1) (i + 1)
  end.
Definition ffs (x : Z) : Z := ffs_loop 32 x 1.

(** The fields of the volume that the boot sector determines. *)
Record geometry := Geometry {
  sector_size : Z; sector_size_bits : Z; g_nr_clusters : Z; g_mft_lcn : Z; mftmirr_lcn : Z;
  cluster_size : Z; cluster_size_bits : Z; mft_record_size : Z; mft_record_size_bits : Z;
  indx_record_size : Z; indx_record_size_bits : Z; mftmirr_size : Z }.

(** [x & (x - 1)] on a u32. *)
Definition several_bits (x : Z) : bool := negb (Z.land x (u32 (x - 1)) =? 0).

Definition record_size (c bits : Z) : Z := u32 (if c <? 0 then Z.shiftl 1 (- c) else Z.shiftl c bits).

(** [seek] moves the device to a byte offset; the division is by a record size
    that may be 0 in a sector that was not checked. *)
Definition ntfs_boot_sector_parse (seek : Z -> result unit) (b : list Z) : option (result geometry) :=
  sector_size ← bytes_per_sector b;
  let sector_bits := u8 (ffs sector_size - 1) in
  spc ← sectors_per_cluster b;
  if negb (Z.land spc (spc - 1) =? 0) then Some (Err EINVAL)
  else
    sectors ← number_of_sectors b;
    if sectors =? 0 then Some (Err EINVAL)
    else
      match seek (s64 (Z.shiftl (sectors - 1) sector_bits)) with
      | Err e => Some (Err e)
      | Ok _ =>
          let nr := Z.shiftr sectors (ffs spc - 1) in
          mft ← bs_mft_lcn b;
          mirr ← bs_mftmirr_lcn b;
          if (mft <? 0) || (nr <? mft) || (mirr <? 0) || (nr <? mirr) then Some (Err EINVAL)
          else
            let cluster := u32 (spc * sector_size) in
            if several_bits cluster then Some (Err EINVAL)
            else
              let cluster_bits := u8 (ffs cluster - 1) in
              c ← clusters_per_mft_record b;
              let rec_size := record_size c cluster_bits in
              if several_bits rec_size then Some (Err EINVAL)
              else
                c ← clusters_per_index_record b;
                let indx_size := record_size c cluster_bits in
                mirr_size ← (if cluster <=? u32 (4 * rec_size) then Some 4 else if rec_size =? 0 then None else Some (cluster / rec_size));
                Some (Ok (Geometry sector_size sector_bits nr mft mirr cluster cluster_bits rec_size (u8 (ffs rec_size - 1))
                                   indx_size (u8 (ffs indx_size - 1)) mirr_size))
      end.

(** [while (vol->mft_zone_end >= vol->nr_clusters)] *)
Fixpoint zone_end_loop (fuel : nat) (mft_lcn zone_size nr : Z) : option Z :=
  match fuel with
  | O => None
  | S f =>
      let zone_end := s64 (mft_lcn + zone_size) in
      if nr <=? zone_end then zone_end_loop f mft_lcn (Z.shiftr zone_size 1) nr else Some zone_end
  end.

(** Where mkntfs puts the MFT. *)
Definition standard_mft_lcn (cluster : Z) : Z :=
  let lcn := u32 (8192 + 2 * cluster - 1) / cluster in
  if lcn * cluster <? 16 * 1024 then u32 (16 * 1024 + cluster - 1) / cluster else lcn.

(** The cluster allocator of a volume that is started; its bitmap and the count of
    free clusters are loaded later. *)
Definition startup_zones {A} (fuel : nat) (g : geometry) (lcnbmp : A) (free : Z) : option (ntfs_volume A) :=
  let zone_start := if g_mft_lcn g <=? standard_mft_lcn (cluster_size g) then 0 else g_mft_lcn g in
  zone_end ← zone_end_loop fuel (g_mft_lcn g) (Z.shiftr (g_nr_clusters g) 3) (g_nr_clusters g);
  Some (Volume 0 zone_start zone_end (g_mft_lcn g) zone_end 0 (g_nr_clusters g) lcnbmp (g_mft_lcn g) free).

(** ** Powers of 2 *)

Lemma ffs_loop_pow fuel k i : (k < fuel)%nat -> ffs_loop fuel (2 ^ Z.of_nat k) i = i + Z.of_nat k.
Proof.
  revert k i; induction fuel as [|f IH]; intros k i Hk; [lia|]. cbn [ffs_loop]. destruct k as [|k]; [change (i = i + 0); lia|].
  rewrite Z.pow2_bits_false by lia. rewrite Z.shiftr_div_pow2, Nat2Z.inj_succ, Z.pow_succ_r, Z.pow_1_r, Z.mul_comm, Z.div_mul by lia. rewrite IH by lia. lia.
Qed.

Lemma ffs_pow k : 0 <= k < 32 -> ffs (2 ^ k) = k + 1.
Proof. intros Hk. unfold ffs. rewrite <-(Z2Nat.id k), ffs_loop_pow by lia. lia. Qed.

(** A number with one bit set. *)
Lemma one_bit x : 0 < x < 2 ^ 32 -> several_bits x = false -> exists k, 0 <= k < 32 /\ x = 2 ^ k.
Proof.
  unfold several_bits, u32. intros Hx H. rewrite wrap_u_small in H by lia. apply negb_false_iff, Z.eqb_eq in H.
  exists (Z.log2 x). pose proof (Z.log2_nonneg x). assert (Z.log2 x < 32) as Hl by (apply (Z.log2_lt_pow2 x 32); lia). split; [lia|].
  destruct (Z.log2_spec x) as [H1 H2]; [lia|]. destruct (Z.eq_dec x (2 ^ Z.log2 x)) as [|Hne]; [done | exfalso].
  assert (Z.log2 (x - 1) = Z.log2 x) as Hl1 by (apply Z.log2_unique; lia).
  assert (Z.testbit (Z.land x (x - 1)) (Z.log2 x) = true) as Ht; [|by rewrite H, Z.bits_0 in Ht].
  rewrite Z.land_spec, Z.bit_log2 by lia. rewrite <-Hl1 at 1. rewrite Z.bit_log2; [done | lia].
Qed.

(** ** What a checked sector holds *)

Lemma byte_field b i : wf_bytes b -> 0 <= i < zlen b -> exists v, b.[i] = Some v /\ 0 <= v < 256.
Proof. intros Hw Hi. destruct (zget_inside b i Hi) as [v Hv]. exists v. split; [done|]. by apply (zget_Forall _ _ _ _ Hw Hv). Qed.

Lemma word_field n b a : wf_bytes b -> 0 <= a -> a + Z.of_nat n <= zlen b -> exists v, ld n b a = Some v /\ 0 <= v < 256 ^ Z.of_nat n.
Proof. intros Hw Ha Hb. destruct (ld_inside n b a) as [v Hv]; [done..|]. exists v. split; [done|]. by eapply ld_range. Qed.

Lemma clusters_cases c : -128 <= c < 128 -> record_clusters_ok c = true -> (exists k, 0 <= k <= 6 /\ c = 2 ^ k) \/ -31 <= c <= -9.
Proof.
  unfold record_clusters_ok. intros Hc. destruct (_ || _) eqn:E.
  - intros H. left. repeat rewrite orb_true_iff in H. rewrite !Z.eqb_eq in H. destruct H as [[[[[[H|H]|H]|H]|H]|H]|H];
      [exists 0 | exists 1 | exists 2 | exists 3 | exists 4 | exists 5 | exists 6]; (split; [lia | done]).
  - intros _. right. apply orb_false_iff in E as [E1 E2]. apply Z.ltb_ge in E1, E2. unfold u8, wrap_u in *. change (2 ^ 8) with 256 in *. divlia.
Qed.

Record checked (b : list Z) (bytes spc cpm cpi : Z) : Prop := Checked {
  ck_bytes : bytes_per_sector b = Some bytes /\ 256 <= bytes <= 4096;
  ck_spc : sectors_per_cluster b = Some spc /\ exists k, 0 <= k <= 7 /\ spc = 2 ^ k;
  ck_cluster : bytes * spc <= 65536;
  ck_mft : clusters_per_mft_record b = Some cpm /\ ((exists k, 0 <= k <= 6 /\ cpm = 2 ^ k) \/ -31 <= cpm <= -9);
  ck_indx : clusters_per_index_record b = Some cpi /\ ((exists k, 0 <= k <= 6 /\ cpi = 2 ^ k) \/ -31 <= cpi <= -9) }.

Lemma s8_byte x : 0 <= x < 256 -> -128 <= s8 x < 128.
Proof. intros. unfold s8. pose proof (wrap_s_range 8 x ltac:(lia)). done. Qed.

Lemma is_ntfs_ok b : wf_bytes b -> zlen b = 512 -> exists r, ntfs_boot_sector_is_ntfs b = Some r /\ (r = true -> exists bytes spc cpm cpi, checked b bytes spc cpm cpi).
Proof.
  intros Hw Hl. unfold ntfs_boot_sector_is_ntfs, oem_id, le64_to_cpup.
  destruct (word_field 8 b 3 Hw) as (oem & -> & _); [lia | lia|]. cbn [mbind option_bind]. destruct (negb _); [by exists false|].
  destruct (word_field 2 b 11 Hw) as (bytes & Eb & _); [lia | lia|]. unfold bytes_per_sector at 1, le16_to_cpup. rewrite Eb. cbn [mbind option_bind].
  destruct (Z.ltb_spec bytes 256); [by exists false|]. destruct (Z.ltb_spec 4096 bytes); [by exists false|]. cbn [orb].
  destruct (byte_field b 13 Hw) as (spc & Es & Hspc); [lia|]. unfold sectors_per_cluster at 1. rewrite Es. cbn [mbind option_bind].
  destruct (negb _) eqn:Epow; [by exists false|]. destruct (Z.ltb_spec 65536 (u32 (bytes * spc))) as [|Hcl]; [by exists false|].
  unfold reserved_sectors, root_entries, small_sectors, sectors_per_fat, large_sectors, fats, le16_to_cpup, le32_to_cpup.
  destruct (word_field 2 b 14 Hw) as (v1 & -> & _); [lia | lia|]. cbn [mbind option_bind]. destruct (word_field 2 b 17 Hw) as (v2 & -> & _); [lia | lia|]. cbn [mbind option_bind].
  destruct (word_field 2 b 19 Hw) as (v3 & -> & _); [lia | lia|]. cbn [mbind option_bind]. destruct (word_field 2 b 22 Hw) as (v4 & -> & _); [lia | lia|]. cbn [mbind option_bind].
  destruct (word_field 4 b 32 Hw) as (v5 & -> & _); [lia | lia|]. cbn [mbind option_bind]. destruct (byte_field b 16 Hw) as (v6 & -> & _); [lia|]. cbn [mbind option_bind].
  match goal with |- context [if ?c then Some false else _] => destruct c end; [by exists false|]. destruct (byte_field b 64 Hw) as (m & Em & Hm); [lia|]. destruct (byte_field b 68 Hw) as (x & Ex & Hx); [lia|].
  assert (clusters_per_mft_record b = Some (s8 m)) as Em' by (unfold clusters_per_mft_record; by rewrite Em).
  assert (clusters_per_index_record b = Some (s8 x)) as Ex' by (unfold clusters_per_index_record; by rewrite Ex).
  rewrite Em', Ex'. cbn [mbind option_bind]. destruct (record_clusters_ok (s8 m)) eqn:Om; [cbn [negb]|by exists false]. eexists. split; [done|]. intros Ox.
  exists bytes, spc, (s8 m), (s8 x). split.
  - split; [done | lia].
  - split; [done|]. apply negb_false_iff in Epow. repeat rewrite orb_true_iff in Epow. rewrite !Z.eqb_eq in Epow. destruct Epow as [[[[[[[H2|H2]|H2]|H2]|H2]|H2]|H2]|H2];
      [exists 0 | exists 1 | exists 2 | exists 3 | exists 4 | exists 5 | exists 6 | exists 7]; (split; [lia | done]).
  - unfold u32 in Hcl. rewrite wrap_u_small in Hcl by nia. done.
  - split; [done|]. exact (clusters_cases _ (s8_byte _ Hm) Om).
  - split; [done|]. exact (clusters_cases _ (s8_byte _ Hx) Ox).
Qed.

(** A size that is a power of 2, with its logarithm. *)
Definition pow_size (size bits lo hi : Z) : Prop := size = 2 ^ bits /\ lo <= bits <= hi.

Lemma record_size_pow c bits : (exists k, 0 <= k <= 6 /\ c = 2 ^ k) \/ -31 <= c <= -9 -> 8 <= bits <= 16 ->
  exists m, pow_size (record_size c bits) m 8 31.
Proof.
  unfold record_size, pow_size, u32. intros [(k & Hk & ->)|Hc] Hb.
  - exists (k + bits). rewrite (proj2 (Z.ltb_ge (2 ^ k) 0)) by lia. rewrite Z.shiftl_mul_pow2, <-Z.pow_add_r by lia.
    split; [|lia]. apply wrap_u_small. split; [lia | apply Z.pow_lt_mono_r; lia].
  - exists (- c). rewrite (proj2 (Z.ltb_lt c 0)) by lia. rewrite Z.shiftl_1_l. split; [|lia]. apply wrap_u_small. split; [lia | apply Z.pow_lt_mono_r; lia].
Qed.

Record geometry_ok (sectors : Z) (g : geometry) : Prop := {
  go_sector : pow_size (sector_size g) (sector_size_bits g) 8 12;
  go_cluster : pow_size (cluster_size g) (cluster_size_bits g) (sector_size_bits g) 16;
  go_mft : pow_size (mft_record_size g) (mft_record_size_bits g) 8 31;
  go_indx : pow_size (indx_record_size g) (indx_record_size_bits g) 8 31;
  go_clusters : g_nr_clusters g = sectors / (cluster_size g / sector_size g);
  go_lcns : 0 <= g_mft_lcn g <= g_nr_clusters g /\ 0 <= mftmirr_lcn g <= g_nr_clusters g;
  go_mirror : mftmirr_size g = if mft_record_size_bits g <? 30 then Z.max 4 (cluster_size g / mft_record_size g) else 0 }.

Lemma ffs_bits k : 0 <= k < 32 -> u8 (ffs (2 ^ k) - 1) = k.
Proof. intros Hk. rewrite ffs_pow by done. unfold u8. rewrite wrap_u_small by lia. lia. Qed.

Lemma land_pred k : 0 <= k -> Z.land (2 ^ k) (2 ^ k - 1) = 0.
Proof. intros Hk. rewrite (land_ones' _ _ k) by done. apply Z.mod_same. lia. Qed.

Lemma pow_not_several k : 0 <= k < 32 -> several_bits (2 ^ k) = false.
Proof.
  intros Hk. unfold several_bits, u32. assert (0 < 2 ^ k < 2 ^ 32) by (split; [lia | apply Z.pow_lt_mono_r; lia]). rewrite wrap_u_small by lia.
  by rewrite land_pred by lia.
Qed.

(** The factors of a power of 2. *)
Lemma pow_factor bytes j m : 0 <= j -> 0 < bytes -> bytes * 2 ^ j = 2 ^ m -> 0 <= m -> j <= m /\ bytes = 2 ^ (m - j).
Proof.
  intros Hj Hb E Hm. assert (j <= m) as Hle by (apply (Z.pow_le_mono_r_iff 2); nia). split; [done|].
  assert (2 ^ m = 2 ^ (m - j) * 2 ^ j) as Em by (rewrite <-Z.pow_add_r by lia; f_equal; lia). rewrite Em in E. nia.
Qed.

Lemma mirror_size cluster cb m : cluster = 2 ^ cb -> 0 <= cb <= 16 -> 8 <= m <= 31 ->
  (if cluster <=? u32 (4 * 2 ^ m) then Some 4 else if 2 ^ m =? 0 then None else Some (cluster / 2 ^ m)) = Some (if m <? 30 then Z.max 4 (cluster / 2 ^ m) else 0).
Proof.
  intros -> Hc Hm. change 4 with (2 ^ 2) at 1. rewrite <-Z.pow_add_r by lia. rewrite (proj2 (Z.eqb_neq (2 ^ m) 0)) by lia. unfold u32.
  assert (2 ^ cb <= 2 ^ 16) by (apply Z.pow_le_mono_r; lia). destruct (Z.ltb_spec m 30).
  - rewrite wrap_u_small by (split; [lia | apply Z.pow_lt_mono_r; lia]). rewrite Z.pow_add_r by lia. change (2 ^ 2) with 4. destruct (Z.leb_spec (2 ^ cb) (4 * 2 ^ m)).
    + f_equal. assert (2 ^ cb / 2 ^ m <= 4) by (apply Z.div_le_upper_bound; lia). lia.
    + f_equal. assert (4 <= 2 ^ cb / 2 ^ m) by (apply Z.div_le_lower_bound; lia). lia.
  - assert (wrap_u 32 (2 ^ (2 + m)) = 0) as ->.
    { unfold wrap_u. replace (2 + m) with (m - 30 + 32) by lia. rewrite Z.pow_add_r by lia. by apply Z.mod_mul. }
    rewrite (proj2 (Z.leb_gt (2 ^ cb) 0)) by lia. f_equal. apply Z.div_small. split; [lia|]. apply Z.pow_lt_mono_r; lia.
Qed.

Lemma parse_ok seek b bytes spc cpm cpi : wf_bytes b -> zlen b = 512 -> checked b bytes spc cpm cpi ->
  exists r sectors, ntfs_boot_sector_parse seek b = Some r /\ number_of_sectors b = Some sectors /\
  match r with
  | Ok g => geometry_ok sectors g /\ sectors <> 0 /\ seek (s64 (Z.shiftl (sectors - 1) (sector_size_bits g))) = Ok tt
  | Err e => e = EINVAL \/ exists pos, seek pos = Err e
  end.
Proof.
  intros Hw Hl [[Eb Hb] [Es (j & Hj & ->)] Hcl [Em Hm] [Ex Hx]].
  destruct (word_field 8 b 40 Hw) as (s & Esec & _); [lia | lia|]. destruct (word_field 8 b 48 Hw) as (l1 & El1 & _); [lia | lia|]. destruct (word_field 8 b 56 Hw) as (l2 & El2 & _); [lia | lia|].
  assert (number_of_sectors b = Some (s64 s)) as Esec' by (unfold number_of_sectors, sle64_to_cpup; by rewrite Esec).
  assert (bs_mft_lcn b = Some (s64 l1)) as El1' by (unfold bs_mft_lcn, sle64_to_cpup; by rewrite El1).
  assert (bs_mftmirr_lcn b = Some (s64 l2)) as El2' by (unfold bs_mftmirr_lcn, sle64_to_cpup; by rewrite El2).
  unfold ntfs_boot_sector_parse. rewrite Eb, Es. cbn [mbind option_bind].
  rewrite land_pred by lia. change (0 =? 0) with true. cbn [negb]. rewrite Esec'. cbn [mbind option_bind].
  destruct (Z.eqb_spec (s64 s) 0) as [|Hs0]; [eexists _, _; by eauto|]. destruct (seek _) as [[]|e] eqn:Esk; [|eexists _, _; by eauto].
  rewrite El1', El2'. cbn [mbind option_bind]. set (nr := Z.shiftr (s64 s) (ffs (2 ^ j) - 1)).
  destruct (Z.ltb_spec (s64 l1) 0); [eexists _, _; by eauto|]. destruct (Z.ltb_spec nr (s64 l1)); [eexists _, _; by eauto|].
  destruct (Z.ltb_spec (s64 l2) 0); [eexists _, _; by eauto|]. destruct (Z.ltb_spec nr (s64 l2)); [eexists _, _; by eauto|]. cbn [orb].
  assert (1 <= 2 ^ j) by lia. assert (u32 (2 ^ j * bytes) = bytes * 2 ^ j) as -> by (unfold u32; rewrite wrap_u_small by nia; lia).
  destruct (several_bits (bytes * 2 ^ j)) eqn:Ecb; [eexists _, _; by eauto|]. destruct (one_bit (bytes * 2 ^ j) ltac:(nia) Ecb) as (cb & Hcb & Ec).
  destruct (pow_factor bytes j cb ltac:(lia) ltac:(lia) Ec ltac:(lia)) as [Hjc ->]. rewrite Ec, ffs_bits by done.
  assert (8 <= cb - j <= 12 /\ cb <= 16) as [Hsb Hc16].
  { split; [split; apply (Z.pow_le_mono_r_iff 2); try lia; change (2 ^ 8) with 256; change (2 ^ 12) with 4096; lia|]. apply (Z.pow_le_mono_r_iff 2); [lia | lia|]. change (2 ^ 16) with 65536. lia. }
  rewrite Em. cbn [mbind option_bind]. destruct (record_size_pow cpm cb Hm ltac:(lia)) as (m & Hmr & Hmb). rewrite Hmr. rewrite pow_not_several by lia.
  rewrite Ex. cbn [mbind option_bind]. destruct (record_size_pow cpi cb Hx ltac:(lia)) as (x & Hxr & Hxb). rewrite Hxr, !ffs_bits by lia.
  rewrite (mirror_size (2 ^ cb) cb m eq_refl ltac:(lia) Hmb). cbn [mbind option_bind]. eexists _, _. split; [done|]. split; [done|]. split; [|split; [done | cbn; by rewrite ffs_bits in Esk by lia]].
  split; cbn; try (split; [done | lia]).
  - unfold nr. rewrite ffs_pow by lia. replace (j + 1 - 1) with j by lia. rewrite Z.shiftr_div_pow2 by lia. f_equal.
    rewrite <-Z.pow_sub_r by lia. f_equal. lia.
  - split; lia.
Qed.

(** ** The zones *)

Lemma zone_end_step f lcn size nr : zone_end_loop (S f) lcn size nr =
  if nr <=? s64 (lcn + size) then zone_end_loop f lcn (Z.shiftr size 1) nr else Some (s64 (lcn + size)).
Proof. done. Qed.

Lemma zone_end_ok fuel lcn size nr : 0 <= lcn < nr -> nr < 2 ^ 62 -> 0 <= size < 2 ^ Z.of_nat fuel -> size <= nr ->
  exists e, zone_end_loop (S fuel) lcn size nr = Some e /\ lcn <= e < nr /\ e <= lcn + size.
Proof.
  revert size; induction fuel as [|f IH]; intros size Hl Hn Hs Hsn; rewrite zone_end_step, s64_small by (unfold in_s64; lia).
  - assert (size = 0) as -> by (change (2 ^ Z.of_nat 0) with 1 in Hs; lia). rewrite (proj2 (Z.leb_gt nr (lcn + 0))) by lia. eexists. split; [done | lia].
  - destruct (Z.leb_spec nr (lcn + size)); [|eexists; split; [done | lia]]. rewrite Z.shiftr_div_pow2 by lia. change (2 ^ 1) with 2. rewrite Nat2Z.inj_succ, Z.pow_succ_r in Hs by lia.
    destruct (IH (size / 2)) as (e & -> & He); [done | done | divlia | divlia|]. eexists. split; [done | divlia].
Qed.

(** With the MFT at the end of the volume the loop never ends. *)
Lemma zone_end_diverges fuel nr size : 0 <= nr < 2 ^ 62 -> 0 <= size <= nr -> zone_end_loop fuel nr size nr = None.
Proof.
  intros Hn. revert size; induction fuel as [|f IH]; intros size Hs; [done|]. cbn [zone_end_loop]. rewrite s64_small by (unfold in_s64; lia).
  rewrite (proj2 (Z.leb_le nr (nr + size))) by lia. apply IH. rewrite Z.shiftr_div_pow2 by lia. change (2 ^ 1) with 2. divlia.
Qed.

(** The zones of a new volume: the MFT lies in its zone, the zone ends on the
    volume, and each data zone is searched from its start. *)
Record zones_set {A} (vol : ntfs_volume A) : Prop := {
  zs_mft : 0 <= mft_zone_start vol <= mft_lcn vol /\ mft_lcn vol <= mft_zone_end vol < nr_clusters vol;
  zs_size : mft_zone_end vol - mft_lcn vol <= nr_clusters vol / 8;
  zs_start : mft_zone_start vol = 0 \/ mft_zone_start vol = mft_lcn vol;
  zs_pos : mft_zone_pos vol = mft_lcn vol /\ data1_zone_pos vol = mft_zone_end vol /\ data2_zone_pos vol = 0 /\ full_zones vol = 0 }.

Lemma startup_ok {A} sectors g (na : A) free : geometry_ok sectors g -> g_mft_lcn g < g_nr_clusters g -> g_nr_clusters g < 2 ^ 62 ->
  exists vol, startup_zones 64 g na free = Some vol /\ zones_set vol /\ zones_ok vol /\ nr_clusters vol = g_nr_clusters g /\ mft_lcn vol = g_mft_lcn g /\ lcnbmp_na vol = na.
Proof.
  intros Hg Hlt Hn. pose proof (go_lcns _ _ Hg) as [Hl _]. unfold startup_zones. rewrite Z.shiftr_div_pow2 by lia. change (2 ^ 3) with 8.
  destruct (zone_end_ok 63 (g_mft_lcn g) (g_nr_clusters g / 8) (g_nr_clusters g)) as (e & -> & He & Hs); [lia | done | | divlia |].
  { split; [divlia|]. apply (Z.le_lt_trans _ (2 ^ 62)); [divlia | done]. }
  cbn [mbind option_bind]. eexists. split; [done|]. split; [split; cbn; [| lia | | done]; destruct (_ <=? _); auto; lia|].
  split; [|done]. unfold zones_ok. cbn. destruct (_ <=? _); lia.
Qed.

(** ** Properties *)

(** C21: A boot sector, whatever its bytes, is checked and parsed without a trap; if
    both succeed, all sizes are powers of 2 that agree with their logarithms, a
    cluster is a whole number of sectors and at most 64 KiB, and the MFT and its
    mirror begin on the volume; the mirror has the size of a cluster, at least four
    records, except that records of 1 GiB or more overflow it to none. *)
Theorem boot_sector_parse_correct seek b : wf_bytes b -> zlen b = 512 ->
  exists ok, ntfs_boot_sector_is_ntfs b = Some ok /\
  (ok = true -> exists r sectors, ntfs_boot_sector_parse seek b = Some r /\ number_of_sectors b = Some sectors /\
     match r with
     | Ok g => geometry_ok sectors g /\ sectors <> 0 /\ seek (s64 (Z.shiftl (sectors - 1) (sector_size_bits g))) = Ok tt
     | Err e => e = EINVAL \/ exists pos, seek pos = Err e
     end).
Proof.
  intros Hw Hl. destruct (is_ntfs_ok b Hw Hl) as (ok & -> & Hok). exists ok. split; [done|]. intros ->.
  destruct (Hok eq_refl) as (bytes & spc & cpm & cpi & Hc). by eapply parse_ok.
Qed.

(** Starting a volume with a checked geometry sets the zones of the cluster
    allocator up as allocation wants them, in a bounded number of turns, exactly if the MFT begins before
    the end of the volume; if it begins at the end, which the parser accepts, the
    loop that halves the MFT zone never ends. *)
Theorem startup_zones_correct {A} sectors g (na : A) free : geometry_ok sectors g -> g_nr_clusters g < 2 ^ 62 ->
  (g_mft_lcn g < g_nr_clusters g -> exists vol, startup_zones 64 g na free = Some vol /\ zones_set vol /\
     zones_ok vol /\ nr_clusters vol = g_nr_clusters g /\ mft_lcn vol = g_mft_lcn g /\ lcnbmp_na vol = na) /\
  (g_mft_lcn g = g_nr_clusters g -> forall fuel, startup_zones fuel g na free = None).
Proof.
  intros Hg Hn. split; [intros Hlt; by apply (startup_ok sectors)|]. intros E fuel. pose proof (go_lcns _ _ Hg) as [Hl _]. unfold startup_zones. rewrite E.
  rewrite zone_end_diverges; [done | lia|]. rewrite Z.shiftr_div_pow2 by lia. change (2 ^ 3) with 8. divlia.
Qed.

(** ** Witnesses *)

Definition store (m : list Z) (f : nat * Z * Z) : list Z := let '(n, a, v) := f in default m (st n m a v).

(** A boot sector with sectors of 512 bytes, clusters of 4096, records of 1024,
    4096 clusters, and the MFT at cluster [mft]. *)
Definition sample_boot (mft : Z) : list Z :=
  foldl store (replicate 512 0)
    [(8%nat, 3, NTFS_OEM_ID); (2%nat, 11, 512); (1%nat, 13, 8); (8%nat, 40, 32768); (8%nat, 48, mft); (8%nat, 56, 2); (1%nat, 64, 0xf6); (1%nat, 68, 1)].

Definition sample_geometry (mft : Z) : geometry := Geometry 512 9 4096 mft 2 4096 12 1024 10 4096 12 4.

Lemma sample_geometry_ok mft : 0 <= mft <= 4096 -> geometry_ok 32768 (sample_geometry mft).
Proof. intros H. split; cbn; try (split; [done | lia]); done. Qed.

Lemma boot_sector_parse_correct_witness : let b := sample_boot 4 in ntfs_boot_sector_parse (fun _ => Ok tt) b = Some (Ok (sample_geometry 4)) /\
  exists ok, ntfs_boot_sector_is_ntfs b = Some ok /\
  (ok = true -> exists r sectors, ntfs_boot_sector_parse (fun _ => Ok tt) b = Some r /\ number_of_sectors b = Some sectors /\
     match r with
     | Ok g => geometry_ok sectors g /\ sectors <> 0 /\ Ok tt = Ok tt
     | Err e => e = EINVAL \/ exists pos : Z, Ok tt = Err e
     end).
Proof.
  split; [vm_compute; reflexivity|]. apply (boot_sector_parse_correct (fun _ => Ok tt)); [wf_concrete | vm_compute; reflexivity].
Defined.

Lemma startup_zones_correct_witness :
  let g := sample_geometry 4096 in ntfs_boot_sector_is_ntfs (sample_boot 4096) = Some true /\
  ntfs_boot_sector_parse (fun _ => Ok tt) (sample_boot 4096) = Some (Ok g) /\
  (g_mft_lcn g < g_nr_clusters g -> exists vol, startup_zones 64 g tt 0 = Some vol /\ zones_set vol /\
     zones_ok vol /\ nr_clusters vol = g_nr_clusters g /\ mft_lcn vol = g_mft_lcn g /\ lcnbmp_na vol = tt) /\
  (g_mft_lcn g = g_nr_clusters g -> forall fuel, startup_zones fuel g tt 0 = None).
Proof.
  split; [vm_compute; reflexivity|]. split; [vm_compute; reflexivity|].
  apply (startup_zones_correct 32768); [apply sample_geometry_ok; lia | vm_compute; reflexivity].
Defined.
