(* ===== verification/Logfile.v ===== *)
(** The journal (libntfs-3g/logfile.c, and volume.c: ntfs_volume_check_logfile):
    checks of the restart pages of $LogFile, which is an attribute (AttrIo),
    and emptying it. *)

From S2P Require Import Prelude Mst AttrIo.
Local Open Scope Z_scope.
Local Open Scope c_scope.
Set Default Proof Using "Type*".

Definition magic_RSTR : Z := 0x52545352.
Definition magic_RCRD : Z := 0x44524352.
Definition magic_CHKD : Z := 0x444b4843.
Definition magic_empty : Z := 0xffffffff.

Definition MaxLogFileSize : Z := 0x100000000.
Definition DefaultLogPageSize : Z := 4096.
Definition MinLogRecordPages : Z := 48.
Definition NTFS_BUF_SIZE : Z := 8192.
Definition LOGFILE_NO_CLIENT : Z := 0xffff.
Definition RESTART_VOLUME_IS_CLEAN : Z := 2.

(** offsetof(RESTART_PAGE_HEADER, usn), offsetof(RESTART_AREA, file_size) and
    sizeof(LOG_CLIENT_RECORD). *)
Definition USN_OFS : Z := 30.
Definition FILE_SIZE_OFS : Z := 24.
Definition CLIENT_SIZE : Z := 160.

(** NTFS_BLOCK_SIZE - sizeof(u16): where the first protected word is. *)
Definition FIRST_TAIL : Z := NTFS_BLOCK_SIZE - 2.

(** The fields of RESTART_PAGE_HEADER; the magic and the usa are those of
    NTFS_RECORD (Mst). *)
Definition chkdsk_lsn (rp : list Z) : option Z := sle64_to_cpup rp 8.
Definition system_page_size (rp : list Z) : option Z := le32_to_cpup rp 16.
Definition log_page_size (rp : list Z) : option Z := le32_to_cpup rp 20.
Definition restart_area_offset (rp : list Z) : option Z := le16_to_cpup rp 24.
Definition minor_ver (rp : list Z) : option Z := le16_to_cpup rp 26.
Definition major_ver (rp : list Z) : option Z := le16_to_cpup rp 28.

(** The fields of RESTART_AREA, which begins at [ra], and of LOG_CLIENT_RECORD. *)
Definition current_lsn (rp : list Z) (ra : Z) : option Z := sle64_to_cpup rp ra.
Definition log_clients (rp : list Z) (ra : Z) : option Z := le16_to_cpup rp (ra + 8).
Definition client_free_list (rp : list Z) (ra : Z) : option Z := le16_to_cpup rp (ra + 10).
Definition client_in_use_list (rp : list Z) (ra : Z) : option Z := le16_to_cpup rp (ra + 12).
Definition ra_flags (rp : list Z) (ra : Z) : option Z := le16_to_cpup rp (ra + 14).
Definition seq_number_bits (rp : list Z) (ra : Z) : option Z := le32_to_cpup rp (ra + 16).
Definition restart_area_length (rp : list Z) (ra : Z) : option Z := le16_to_cpup rp (ra + 20).
Definition client_array_offset (rp : list Z) (ra : Z) : option Z := le16_to_cpup rp (ra + 22).
Definition file_size (rp : list Z) (ra : Z) : option Z := le64_to_cpup rp (ra + FILE_SIZE_OFS).
Definition log_record_header_length (rp : list Z) (ra : Z) : option Z := le16_to_cpup rp (ra + 36).
Definition log_page_data_offset (rp : list Z) (ra : Z) : option Z := le16_to_cpup rp (ra + 38).
Definition prev_client (rp : list Z) (cr : Z) : option Z := le16_to_cpup rp (cr + 16).
Definition next_client (rp : list Z) (cr : Z) : option Z := le16_to_cpup rp (cr + 18).

(** ** The restart page *)

(** The update sequence array; [Some None] refuses it, otherwise its end. *)
Definition check_usa (rp : list Z) (page_size : Z) : option (option Z) :=
  let usa_count := u16 (1 + Z.shiftr page_size 9) in
  cnt ← rec_usa_count rp;
  if negb (usa_count =? cnt) then Some None
  else
    usa_ofs ← rec_usa_ofs rp;
    let usa_end := u16 (usa_ofs + usa_count * 2) in
    if (usa_ofs <? USN_OFS) || (FIRST_TAIL <? usa_end) then Some None else Some (Some usa_end).

(** The restart area behind [usa_end], and the chkdsk LSN. *)
Definition check_ra_offset (rp : list Z) (page_size magic usa_end : Z) : option bool :=
  ra_ofs ← restart_area_offset rp;
  if negb (Z.land ra_ofs 7 =? 0) || (ra_ofs <? usa_end) || (page_size <? ra_ofs) then Some false
  else if negb (magic =? magic_CHKD) then lsn ← chkdsk_lsn rp; Some (lsn =? 0)
  else Some true.

Definition ntfs_check_restart_page_header (rp : list Z) (pos : Z) : option bool :=
  page_size ← system_page_size rp;
  log_size ← log_page_size rp;
  if (page_size <? NTFS_BLOCK_SIZE) || (log_size <? NTFS_BLOCK_SIZE) ||
     negb (Z.land page_size (page_size - 1) =? 0) || negb (Z.land log_size (log_size - 1) =? 0) then Some false
  else if negb (pos =? 0) && negb (pos =? page_size) then Some false
  else
    major ← major_ver rp;
    minor ← minor_ver rp;
    if (negb (major =? 1) || negb (minor =? 1)) && (negb (major =? 2) || negb (minor =? 0)) then Some false
    else
      magic ← rec_magic rp;
      cnt ← rec_usa_count rp;
      if (magic =? magic_CHKD) && (cnt =? 0) then check_ra_offset rp page_size magic USN_OFS
      else
        usa ← check_usa rp page_size;
        match usa with
        | None => Some false
        | Some usa_end => check_ra_offset rp page_size magic usa_end
        end.

(** [while (file_size) { file_size >>= 1; fs_bits++; }] *)
Fixpoint count_bits (fuel : nat) (size bits : Z) : option Z :=
  match fuel with
  | O => None
  | S f => if size =? 0 then Some bits else count_bits f (Z.shiftr size 1) (bits + 1)
  end.

Definition is_aligned8 (x : Z) : bool := Z.land (x + 7) (Z.lnot 7) =? x.

Definition ntfs_check_restart_area (rp : list Z) : option bool :=
  ra ← restart_area_offset rp;
  if FIRST_TAIL <? ra + FILE_SIZE_OFS then Some false
  else
    ca_ofs ← client_array_offset rp ra;
    if negb (is_aligned8 ca_ofs) || (FIRST_TAIL <? ra + ca_ofs) then Some false
    else
      clients ← log_clients rp ra;
      length ← restart_area_length rp ra;
      page_size ← system_page_size rp;
      let ra_len := u16 (ca_ofs + clients * CLIENT_SIZE) in
      if (page_size <? ra + ra_len) || (page_size <? ra + length) || (length <? ra_len) then Some false
      else
        free ← client_free_list rp ra;
        used ← client_in_use_list rp ra;
        if (negb (free =? LOGFILE_NO_CLIENT) && (clients <=? free)) || (negb (used =? LOGFILE_NO_CLIENT) && (clients <=? used)) then Some false
        else
          size ← file_size rp ra;
          fs_bits ← count_bits 65 size 0;
          seq_bits ← seq_number_bits rp ra;
          if negb (seq_bits =? u32 (67 - fs_bits)) then Some false
          else
            hlen ← log_record_header_length rp ra;
            if negb (is_aligned8 hlen) then Some false
            else dofs ← log_page_data_offset rp ra; Some (is_aligned8 dofs).

(** The loop behind check_list from [idx], with [nr] records to go;
    [Some None] is err_out. *)
Fixpoint client_list (fuel : nat) (rp : list Z) (ca clients nr idx : Z) (idx_is_first : bool) : option (option Z) :=
  match fuel with
  | O => None
  | S f =>
      if idx =? LOGFILE_NO_CLIENT then Some (Some nr)
      else if (nr =? 0) || (clients <=? idx) then Some None
      else
        let cr := ca + idx * CLIENT_SIZE in
        bad ← (if idx_is_first then prev ← prev_client rp cr; Some (negb (prev =? LOGFILE_NO_CLIENT)) else Some false);
        if bad : bool then Some None
        else next ← next_client rp cr; client_list f rp ca clients (nr - 1) next false
  end.

Definition ntfs_check_log_client_array (rp : list Z) : option bool :=
  ra ← restart_area_offset rp;
  ca_ofs ← client_array_offset rp ra;
  clients ← log_clients rp ra;
  free ← client_free_list rp ra;
  r ← client_list (S (Z.to_nat clients)) rp (ra + ca_ofs) clients clients free true;
  match r with
  | None => Some false
  | Some nr =>
      used ← client_in_use_list rp ra;
      r ← client_list (S (Z.to_nat clients)) rp (ra + ca_ofs) clients nr used true;
      Some (match r with None => false | Some _ => true end)
  end.

(** ** The log file *)

Section logfile.
Context {A : Type} `{!AttrOps A}.
(** Whether malloc finds so many bytes, and the errno of a short read. *)
Context (memory : Z -> bool) (old_errno : errno).
Implicit Types na : A.

(** The copy of the whole restart page. *)
Definition load_page na (rp : list Z) (pos page_size : Z) : option (A * result (list Z)) :=
  if page_size <=? NTFS_BLOCK_SIZE then trp ← zread rp 0 page_size; Some (na, Ok trp)
  else
    let err e := Err (if decide (e = ENOMEM) then ENOMEM else EIO) in
    let '(na, r) := attr_pread na pos page_size in
    Some (na, match r with
              | Ok bs => if zlen bs =? page_size then Ok bs else err old_errno
              | Err e => err e
              end).

(** Deprotection; [false] is a transfer error that matters. *)
Definition deprotect (trp rp : list Z) (ra page_size : Z) : option (list Z * bool) :=
  magic ← rec_magic trp;
  cnt ← rec_usa_count trp;
  if negb (magic =? magic_CHKD) || negb (cnt =? 0) then
    r ← ntfs_mst_post_read_fixup trp page_size;
    match r with
    | (trp, Ok _) => Some (trp, true)
    | (trp, Err _) => length ← restart_area_length rp ra; Some (trp, negb (FIRST_TAIL <? ra + length))
    end
  else Some (trp, true).

(** On success the deprotected page and its LSN. *)
Definition ntfs_check_and_load_restart_page na (rp : list Z) (pos : Z) : option (A * result (list Z * Z)) :=
  ok ← ntfs_check_restart_page_header rp pos;
  if negb ok then Some (na, Err EINVAL)
  else
    ok ← ntfs_check_restart_area rp;
    if negb ok then Some (na, Err EINVAL)
    else
      ra ← restart_area_offset rp;
      page_size ← system_page_size rp;
      if negb (memory page_size) then Some (na, Err ENOMEM)
      else
        r ← load_page na rp pos page_size;
        match r with
        | (na, Err e) => Some (na, Err e)
        | (na, Ok trp) =>
            r ← deprotect trp rp ra page_size;
            let '(trp, ok) := r in
            if negb ok then Some (na, Err EINVAL)
            else
              magic ← rec_magic rp;
              used ← client_in_use_list rp ra;
              ok ← (if (magic =? magic_RSTR) && negb (used =? LOGFILE_NO_CLIENT) then ntfs_check_log_client_array trp else Some true);
              if negb ok then Some (na, Err EINVAL)
              else
                lsn ← (if magic =? magic_RSTR then current_lsn rp ra else chkdsk_lsn rp);
                Some (na, Ok (trp, lsn))
        end.

(** What the search through the file finds: whether all places are empty, the
    first page, and the second. *)
Definition pages : Type := bool * option (list Z * Z) * option (list Z * Z).

(** [for (pos = 0; pos < size; pos <<= 1)], where pos 0 is followed by
    NTFS_BLOCK_SIZE; [Some (_, None)] is err_out. *)
Fixpoint find_pages (fuel : nat) na (pos size : Z) (logfile_is_empty : bool) (rstr1 : option (list Z * Z)) : option (A * option pages) :=
  match fuel with
  | O => None
  | S f =>
      if size <=? pos then Some (na, Some (logfile_is_empty, rstr1, None))
      else
        let '(na, r) := attr_pread na pos NTFS_BLOCK_SIZE in
        let next := Z.shiftl (if pos =? 0 then Z.shiftr NTFS_BLOCK_SIZE 1 else pos) 1 in
        match r with
        | Err _ => Some (na, None)
        | Ok kaddr =>
            if negb (zlen kaddr =? NTFS_BLOCK_SIZE) then Some (na, None)
            else
              magic ← rec_magic kaddr;
              if (magic =? magic_empty) && negb logfile_is_empty then Some (na, Some (logfile_is_empty, rstr1, None))
              else
                let empty := (magic =? magic_empty) && logfile_is_empty in
                if magic =? magic_RCRD then Some (na, Some (empty, rstr1, None))
                else if negb (magic =? magic_RSTR) && negb (magic =? magic_CHKD) then find_pages f na next size empty rstr1
                else
                  r ← ntfs_check_and_load_restart_page na kaddr pos;
                  match r with
                  | (na, Ok page) =>
                      if pos =? 0 then find_pages f na next size empty (Some page)
                      else Some (na, Some (match rstr1 with
                                           | None => (empty, Some page, None)
                                           | Some _ => (empty, rstr1, Some page)
                                           end))
                  | (na, Err EINVAL) => find_pages f na next size empty rstr1
                  | (na, Err _) => Some (na, None)
                  end
        end
  end.

(** The size that is searched: whole pages, up to the largest journal. *)
Definition searched_size (data_size : Z) : Z :=
  let size := if MaxLogFileSize <? data_size then MaxLogFileSize else data_size in
  Z.land size (Z.lnot (DefaultLogPageSize - 1)).

(** The attribute of $LogFile and the flag NVolLogFileEmpty of its volume. *)
Record log_state := Log { log_na : A; log_empty : bool }.

(** The result is TRUE or FALSE, with the page that [*rp] is set to, if any. *)
Definition ntfs_check_logfile (s : log_state) : option (log_state * bool * option (list Z)) :=
  if log_empty s then Some (s, true, None)
  else
    let size := searched_size (zlen (attr_data (log_na s))) in
    if (size <? DefaultLogPageSize * 2) || (Z.shiftr (size - DefaultLogPageSize * 2) 12 <? MinLogRecordPages) then Some (s, false, None)
    else if negb (memory NTFS_BLOCK_SIZE) then Some (s, false, None)
    else
      r ← find_pages 32 (log_na s) 0 size true None;
      Some (match r with
            | (na, None) => (Log na false, false, None)
            | (na, Some (true, _, _)) => (Log na true, true, None)
            | (na, Some (false, None, _)) => (Log na false, false, None)
            | (na, Some (false, Some (p1, _), None)) => (Log na false, true, Some p1)
            | (na, Some (false, Some (p1, lsn1), Some (p2, lsn2))) => (Log na false, true, Some (if lsn1 <? lsn2 then p2 else p1))
            end).

Definition ntfs_is_logfile_clean (s : log_state) (rp : option (list Z)) : option bool :=
  if log_empty s then Some true
  else
    match rp with
    | None => Some false
    | Some rp =>
        magic ← rec_magic rp;
        if negb (magic =? magic_RSTR) && negb (magic =? magic_CHKD) then Some false
        else
          ra ← restart_area_offset rp;
          used ← client_in_use_list rp ra;
          if negb (used =? LOGFILE_NO_CLIENT) then
            flags ← ra_flags rp ra; Some (negb (Z.land flags RESTART_VOLUME_IS_CLEAN =? 0))
          else Some true
    end.

(** ntfs_volume_check_logfile, the attribute being open. *)
Definition volume_check_logfile (s : log_state) : option (log_state * result unit) :=
  r ← ntfs_check_logfile s;
  let '(s, ok, rp) := r in
  ok ← (if ok : bool then ntfs_is_logfile_clean s rp else Some false);
  cached ← (match rp with
            | None => Some false
            | Some rp => major ← major_ver rp; minor ← minor_ver rp; Some ((major =? 2) && (minor =? 0))
            end);
  Some (s, if cached : bool then Err EPERM else if ok : bool then Ok tt else Err EOPNOTSUPP).

(** [while ((count = na->data_size - pos) > 0)] *)
Fixpoint empty_loop (fuel : nat) na (pos : Z) : option (A * result unit) :=
  match fuel with
  | O => None
  | S f =>
      let count := zlen (attr_data na) - pos in
      if 0 <? count then
        let count := if NTFS_BUF_SIZE <? count then NTFS_BUF_SIZE else count in
        match attr_pwrite na pos (replicate (Z.to_nat count) 255) with
        | (na, Err e) => Some (na, Err e)
        | (na, Ok count) => if count <=? 0 then Some (na, Err EIO) else empty_loop f na (pos + count)
        end
      else Some (na, Ok tt)
  end.

Definition ntfs_empty_logfile (NAttrNonResident : A -> bool) (fuel : nat) (s : log_state) : option (log_state * result unit) :=
  if log_empty s then Some (s, Ok tt)
  else if negb (NAttrNonResident (log_na s)) then Some (s, Err EIO)
  else
    r ← empty_loop fuel (log_na s) 0;
    Some (match r with
          | (na, Ok _) => (Log na true, Ok tt)
          | (na, Err e) => (Log na (log_empty s), Err e)
          end).
End logfile.
Arguments Log {A}. Arguments log_na {A}. Arguments log_empty {A}.
