(* ===== verification/LogSpec.v ===== *)
(** What the checks of the journal (Logfile) guarantee: which accesses stay in
    the restart page, which lists of clients are accepted, when a volume is taken
    to be clean, and what emptying the journal leaves. *)

From S2P Require Import Prelude Mst AttrIo Logfile.
Local Open Scope Z_scope.
Local Open Scope c_scope.
Set Default Proof Using "Type*".

(** ** Fields of a page *)

Lemma field n rp a : wf_bytes rp -> 0 <= a -> a + Z.of_nat n <= zlen rp -> exists v, ld n rp a = Some v /\ 0 <= v < 256 ^ Z.of_nat n.
Proof. intros Hw Ha Hb. destruct (ld_inside n rp a) as [v Hv]; [done..|]. exists v. split; [done|]. by eapply ld_range. Qed.

(** Name the value of the field that the goal reads next. *)
Ltac field_step Hw v Hv Hr :=
  match goal with
  | |- context [ld ?n ?rp ?a ≫= _] =>
      destruct (field n rp a Hw) as (v & Hv & Hr); [lia | lia | rewrite Hv; cbn [mbind option_bind]]
  end.

Section header.
Context (rp : list Z) (Hw : wf_bytes rp) (Hl : 512 <= zlen rp).

Lemma ra_offset_ok ps magic usa_end : exists b, check_ra_offset rp ps magic usa_end = Some b /\
  (b = true -> exists ra, restart_area_offset rp = Some ra /\ ra mod 8 = 0 /\ usa_end <= ra <= ps).
Proof.
  unfold check_ra_offset, restart_area_offset, chkdsk_lsn, le16_to_cpup, sle64_to_cpup. field_step Hw ra Era Hra.
  rewrite (land_ones' ra 7 3) by done. change (2 ^ 3) with 8.
  destruct (Z.eqb_spec (ra mod 8) 0), (Z.ltb_spec ra usa_end), (Z.ltb_spec ps ra); cbn [negb orb]; try (by exists false).
  assert (exists ra', Some ra = Some ra' /\ ra' mod 8 = 0 /\ usa_end <= ra' <= ps) as Hok by eauto.
  destruct (magic =? magic_CHKD); cbn [negb]; [by exists true|]. field_step Hw lsn El Hlsn. by eexists.
Qed.

Lemma header_ok pos : exists b, ntfs_check_restart_page_header rp pos = Some b /\
  (b = true -> exists ra ps, restart_area_offset rp = Some ra /\ system_page_size rp = Some ps /\
     ra mod 8 = 0 /\ 0 <= ra <= ps /\ 512 <= ps < 2 ^ 32 /\ (pos = 0 \/ pos = ps)).
Proof.
  unfold ntfs_check_restart_page_header, system_page_size, log_page_size, major_ver, minor_ver, rec_magic, rec_usa_count, le32_to_cpup, le16_to_cpup, NTFS_BLOCK_SIZE.
  field_step Hw ps Eps Hps. field_step Hw lps Elps Hlps.
  destruct (Z.ltb_spec ps 512); [by exists false|]. destruct (_ || _); [by exists false|].
  destruct (Z.eqb_spec pos 0) as [Hpos|Hpos], (Z.eqb_spec pos ps) as [Hpp|Hpp]; cbn [negb andb]; try (by exists false).
  all: field_step Hw major Ema Hma; field_step Hw minor Emi Hmi; destruct (_ && _); [by exists false|].
  all: field_step Hw magic Emg Hmg; field_step Hw cnt Ecnt Hcnt.
  all: assert (forall usa_end, 0 <= usa_end -> exists b, check_ra_offset rp ps magic usa_end = Some b /\
    (b = true -> exists ra ps', restart_area_offset rp = Some ra /\ Some ps = Some ps' /\ ra mod 8 = 0 /\ 0 <= ra <= ps' /\ 512 <= ps' < 2 ^ 32 /\ (pos = 0 \/ pos = ps'))) as Hra
    by (intros usa_end Hu; destruct (ra_offset_ok ps magic usa_end) as (b & -> & Hb); exists b; split; [done|];
        intros Hbt; destruct (Hb Hbt) as (ra & ? & ? & ?); exists ra, ps; change (256 ^ Z.of_nat 4) with (2 ^ 32) in *; split_and!; auto with lia).
  all: destruct (_ && _); [by apply Hra|]; unfold check_usa, rec_usa_count, rec_usa_ofs, le16_to_cpup; rewrite Ecnt; cbn [mbind option_bind].
  all: destruct (negb _); [by exists false|]; field_step Hw uo Euo Huo; destruct (_ || _); [by exists false|]; apply Hra, Z.mod_pos_bound; lia.
Qed.
End header.

Lemma count_bits_ok n size bits : 0 <= size < 2 ^ Z.of_nat n -> 0 <= bits -> exists r, count_bits (S n) size bits = Some r /\ bits <= r.
Proof.
  revert size bits; induction n as [|n IH]; intros size bits Hs Hb; cbn [count_bits]; destruct (Z.eqb_spec size 0); [by exists bits | lia | by exists bits |].
  rewrite Nat2Z.inj_succ, Z.pow_succ_r in Hs by lia. destruct (IH (Z.shiftr size 1) (bits + 1)) as (r & Hr & ?); [rewrite Z.shiftr_div_pow2 by lia; divlia | lia|].
  exists r. split; [exact Hr | lia].
Qed.

Lemma aligned8 x : 0 <= x -> is_aligned8 x = true -> x mod 8 = 0.
Proof.
  unfold is_aligned8. intros Hx H%Z.eqb_eq. rewrite <-H. change 8 with (2 ^ 3). rewrite <-Z.land_ones, <-Z.land_assoc by done.
  change (Z.ones 3) with 7. change (Z.land (Z.lnot 7) 7) with 0. apply Z.land_0_r.
Qed.

(** What the restart area of an accepted page says: the client array begins in
    the first sector, and ends in the page if its length is not cut to 16 bits. *)
Record area_facts (rp : list Z) (ra ca clients free used : Z) : Prop := Area {
  af_ca : client_array_offset rp ra = Some ca; af_clients : log_clients rp ra = Some clients;
  af_free : client_free_list rp ra = Some free; af_used : client_in_use_list rp ra = Some used;
  af_begin : 0 <= ca /\ ca mod 8 = 0 /\ ra + ca <= 510;
  af_range : 0 <= clients < 2 ^ 16 /\ 0 <= free < 2 ^ 16 /\ 0 <= used < 2 ^ 16;
  af_end : exists length ps, restart_area_length rp ra = Some length /\ system_page_size rp = Some ps /\
    u16 (ca + clients * CLIENT_SIZE) <= length /\ ra + length <= ps }.

Section area.
Context (rp : list Z) (Hw : wf_bytes rp) (Hl : 512 <= zlen rp).

Lemma area_ok ra : restart_area_offset rp = Some ra -> 0 <= ra -> ra mod 8 = 0 -> ra <> 480 ->
  exists b, ntfs_check_restart_area rp = Some b /\ (b = true -> exists ca clients free used, area_facts rp ra ca clients free used).
Proof.
  intros Era Hra H8 Hne. unfold ntfs_check_restart_area. rewrite Era. cbn [mbind option_bind].
  unfold FIRST_TAIL, NTFS_BLOCK_SIZE, FILE_SIZE_OFS. destruct (Z.ltb_spec (512 - 2) (ra + 24)) as [|Hin]; [by exists false|].
  assert (ra <= 472) as Hle by divlia.
  unfold client_array_offset, log_clients, restart_area_length, system_page_size, client_free_list, client_in_use_list, file_size, FILE_SIZE_OFS,
    seq_number_bits, log_record_header_length, log_page_data_offset, le16_to_cpup, le32_to_cpup, le64_to_cpup.
  field_step Hw ca Eca Hca. destruct (is_aligned8 ca) eqn:Eal; [cbn [negb orb]|by exists false].
  destruct (Z.ltb_spec (512 - 2) (ra + ca)); [by exists false|].
  field_step Hw clients Ecl Hcl. field_step Hw rlen Elen Hlen. field_step Hw ps Eps Hps. cbv zeta.
  destruct (Z.ltb_spec ps (ra + u16 (ca + clients * CLIENT_SIZE))); [by exists false|].
  destruct (Z.ltb_spec ps (ra + rlen)); [by exists false|]. destruct (Z.ltb_spec rlen (u16 (ca + clients * CLIENT_SIZE))); [by exists false|]. cbn [orb].
  field_step Hw free Efr Hfr. field_step Hw used Eus Hus. destruct (_ || _); [by exists false|].
  field_step Hw fsize Esz Hsz. destruct (count_bits_ok 64 fsize 0) as (bits & -> & _); [done.. |]. cbn [mbind option_bind].
  field_step Hw sb Esb Hsb. destruct (negb (sb =? _)); [by exists false|].
  field_step Hw hl Ehl Hhl. destruct (negb (is_aligned8 hl)); [by exists false|]. field_step Hw dofs Edo Hdo.
  eexists. split; [done|]. intros _. exists ca, clients, free, used. split; try done.
  - split_and!; [lia | apply aligned8; [lia | done] | lia].
  - by exists rlen, ps.
Qed.
End area.

(** ** Lists of clients *)

(** [chain idx l]: from [idx] the links [next_client] visit the records [l], in
    the array, and end. *)
Inductive chain (rp : list Z) (ca clients : Z) : Z -> list Z -> Prop :=
  | chain_end : chain rp ca clients LOGFILE_NO_CLIENT []
  | chain_link idx next l : idx <> LOGFILE_NO_CLIENT -> idx < clients -> next_client rp (ca + idx * CLIENT_SIZE) = Some next ->
      chain rp ca clients next l -> chain rp ca clients idx (idx :: l).

Definition is_first (rp : list Z) (ca : Z) (l : list Z) : Prop :=
  match l with [] => True | idx :: _ => prev_client rp (ca + idx * CLIENT_SIZE) = Some LOGFILE_NO_CLIENT end.

Lemma chain_unique rp ca clients idx l1 l2 : chain rp ca clients idx l1 -> chain rp ca clients idx l2 -> l1 = l2.
Proof. intros H1. revert l2. induction H1 as [|idx next l Hne Hlt Hn Hc IH]; intros l2 H2; inversion H2; subst; try done. f_equal. apply IH. congruence. Qed.

Section array.
Context (rp : list Z) (Hw : wf_bytes rp) (ca clients : Z) (Hca : 0 <= ca) (Harray : ca + clients * CLIENT_SIZE <= zlen rp).

Lemma client_list_ok fuel nr idx first : (Z.to_nat nr < fuel)%nat -> 0 <= nr -> 0 <= idx < 2 ^ 16 ->
  exists r, client_list fuel rp ca clients nr idx first = Some r /\
  match r with
  | Some nr' => exists l, chain rp ca clients idx l /\ (first = true -> is_first rp ca l) /\ nr' = nr - zlen l /\ 0 <= nr'
  | None => forall l, chain rp ca clients idx l -> (first = true -> is_first rp ca l) -> nr < zlen l
  end.
Proof.
  revert nr idx first; induction fuel as [|f IH]; intros nr idx first Hf Hnr Hidx; [lia|]. cbn [client_list].
  destruct (Z.eqb_spec idx LOGFILE_NO_CLIENT) as [->|Hne].
  { eexists. split; [done|]. exists []. split; [constructor|]. split; [done|]. rewrite (@zlen_nil Z). lia. }
  destruct (Z.eqb_spec nr 0) as [->|Hnz]; cbn [orb].
  { eexists. split; [done|]. intros l Hl _. inversion Hl; subst; [done|]. rewrite zlen_cons. pose proof (zlen_nonneg l0). lia. }
  destruct (Z.leb_spec clients idx) as [Hle|Hlt].
  { eexists. split; [done|]. intros l Hl _. inversion Hl; subst; [done | lia]. }
  unfold CLIENT_SIZE in *. cbv zeta. destruct (field 2 rp (ca + idx * 160 + 16) Hw) as (prev & Ep & _); [lia | lia|].
  destruct (field 2 rp (ca + idx * 160 + 18) Hw) as (next & En & Hn); [lia | lia|].
  assert ((if first then prev ← prev_client rp (ca + idx * 160); Some (negb (prev =? LOGFILE_NO_CLIENT)) else Some false) = Some (first && negb (prev =? LOGFILE_NO_CLIENT))) as ->.
  { destruct first; [|done]. unfold prev_client, le16_to_cpup. by rewrite Ep. }
  cbn [mbind option_bind]. destruct (first && _) eqn:Eb.
  { apply andb_true_iff in Eb as [-> Eb]. eexists. split; [done|]. intros l Hl Hfi. specialize (Hfi eq_refl). inversion Hl; subst; [done|]. cbn in Hfi.
    unfold prev_client, le16_to_cpup, CLIENT_SIZE in Hfi. rewrite Ep in Hfi. injection Hfi as ->. done. }
  unfold next_client, le16_to_cpup. rewrite En. cbn [mbind option_bind]. destruct (IH (nr - 1) next false) as (r & Er & Hr); [lia | lia | lia|].
  exists r. split; [exact Er|]. destruct r as [nr'|].
  - destruct Hr as (l & Hc & _ & -> & Hnn). exists (idx :: l). split; [by econstructor|]. split; [|rewrite zlen_cons; lia].
    intros ->. cbn. unfold prev_client, le16_to_cpup, CLIENT_SIZE. rewrite Ep. f_equal. apply negb_false_iff, Z.eqb_eq in Eb. done.
  - intros l Hl _. inversion Hl as [|? n' l' Hi1 Hi2 Hi3 Hi4]; subst; [done|]. unfold next_client, le16_to_cpup, CLIENT_SIZE in Hi3.
    assert (n' = next) as -> by congruence. rewrite zlen_cons. enough (nr - 1 < zlen l') by lia. by apply Hr.
Qed.

Lemma client_array_ok ra ca_ofs free used : restart_area_offset rp = Some ra -> area_facts rp ra ca_ofs clients free used -> ca = ra + ca_ofs ->
  exists b, ntfs_check_log_client_array rp = Some b /\
  (b = true <-> exists l1 l2, chain rp ca clients free l1 /\ chain rp ca clients used l2 /\ is_first rp ca l1 /\ is_first rp ca l2 /\ zlen l1 + zlen l2 <= clients).
Proof.
  intros Era Hf Hcaq. destruct Hf as [H1 H2 H3 H4 _ (Hr1 & Hr2 & Hr3) _]. unfold ntfs_check_log_client_array. rewrite Era. cbn [mbind option_bind].
  rewrite H1. cbn [mbind option_bind]. rewrite H2. cbn [mbind option_bind]. rewrite H3. cbn [mbind option_bind]. rewrite <-Hcaq.
  destruct (client_list_ok (S (Z.to_nat clients)) clients free true) as (r & -> & Hr); [lia | lia | lia|]. cbn [mbind option_bind].
  destruct r as [nr|].
  - destruct Hr as (l1 & Hc1 & Hf1 & -> & Hnn). rewrite H4. cbn [mbind option_bind].
    destruct (client_list_ok (S (Z.to_nat clients)) (clients - zlen l1) used true) as (r & -> & Hr); [pose proof (zlen_nonneg l1); lia | lia | lia|].
    cbn [mbind option_bind]. eexists. split; [done|]. destruct r as [nr'|].
    + destruct Hr as (l2 & Hc2 & Hf2 & -> & ?). split; [|done]. intros _. exists l1, l2. split_and!; auto. lia.
    + split; [done|]. intros (m1 & m2 & C1 & C2 & F1 & F2 & Hle). rewrite (chain_unique _ _ _ _ _ _ C1 Hc1) in *. specialize (Hr m2 C2 (fun _ => F2)). lia.
  - exists false. split; [done|]. split; [done|]. intros (m1 & m2 & C1 & C2 & F1 & F2 & Hle). specialize (Hr m1 C1 (fun _ => F1)). pose proof (zlen_nonneg m2). lia.
Qed.
End array.

(** ** Loading a restart page *)

Lemma ld_same n m m' a : 0 <= a -> a + Z.of_nat n <= zlen m -> a + Z.of_nat n <= zlen m' ->
  (forall j, a <= j < a + Z.of_nat n -> zget m j = zget m' j) -> ld n m a = ld n m' a.
Proof.
  intros Ha Hb Hb' H. unfold ld. destruct (zread m a (Z.of_nat n)) as [xs|] eqn:E1; [|by rewrite zread_inside in E1 by lia].
  destruct (zread m' a (Z.of_nat n)) as [ys|] eqn:E2; [|by rewrite zread_inside in E2 by lia].
  apply zread_Some in E1 as (_ & _ & _ & L1 & G1), E2 as (_ & _ & _ & L2 & G2). do 3 f_equal. apply zget_ext. intros j Hj.
  destruct (Z.lt_ge_cases j (Z.of_nat n)); [rewrite G1, G2 by lia; apply H; lia | by rewrite !zget_outside by lia].
Qed.

(** [p] and [q] agree where no fixup writes: behind the magic, before the first
    protected word. *)
Definition agree (p q : list Z) : Prop := forall j, 4 <= j < 510 -> zget p j = zget q j.

Lemma agree_ld n p q a : agree p q -> 512 <= zlen p -> 512 <= zlen q -> 4 <= a -> a + Z.of_nat n <= 510 -> ld n p a = ld n q a.
Proof. intros H Hp Hq Ha Hb. apply ld_same; [lia.. |]. intros j Hj. apply H. lia. Qed.

Lemma deprotect_ok trp rp ra ps : wf_bytes trp -> zlen trp = ps -> 512 <= ps -> wf_bytes rp -> 0 <= ra -> ra + 22 <= zlen rp ->
  exists p ok, deprotect trp rp ra ps = Some (p, ok) /\ zlen p = ps /\ wf_bytes p /\ agree p trp.
Proof.
  intros Hw Hl Hps Hwr Hra Hrb. unfold deprotect.
  destruct (field 4 trp 0 Hw) as (magic & Emg & _); [lia | lia|]. destruct (field 2 trp 4 Hw) as (ofs & Eo & _); [lia | lia|].
  destruct (field 2 trp 6 Hw) as (cnt & Ec & _); [lia | lia|]. destruct (field 2 rp (ra + 20) Hwr) as (rlen & El & _); [lia | lia|].
  unfold rec_magic, le32_to_cpup. rewrite Emg. unfold rec_usa_count, le16_to_cpup. rewrite Ec. cbn [mbind option_bind].
  destruct (_ || _); [|by exists trp, true].
  assert (exists p r, ntfs_mst_post_read_fixup trp ps = Some (p, r) /\ zlen p = ps /\ wf_bytes p /\ agree p trp) as (p & r & -> & Hp).
  { unfold ntfs_mst_post_read_fixup. destruct (is_valid_record ps ofs cnt) eqn:Hv.
    - destruct (post_read_valid trp ps ofs cnt Hw Hl Eo Ec Hv true) as (usn & ok & _ & _ & ->). destruct ok.
      + destruct (restore_valid trp ps ofs cnt Hw Hl Eo Ec Hv) as (p & -> & Hz & Hwp & Hj & _). exists p, (Ok tt). split_and!; [done | congruence | done|].
        intros j Hj4. apply Hj. intros (k & Hk & Hkj). lia.
      + destruct (st_inside 4 trp 0 magic_BAAD) as [p Hp]; [lia | lia|]. unfold put_le32. rewrite Hp. exists p, (Err EIO).
        split_and!; [done | by rewrite (st_zlen _ _ _ _ _ Hp) | exact (st_wf _ _ _ _ _ Hw Hp)|]. intros j Hj. apply (st_other _ _ _ _ _ _ Hp). lia.
    - exists trp, (Err EINVAL). split_and!; try done. unfold ntfs_mst_post_read_fixup_warn, rec_usa_ofs, rec_usa_count, le16_to_cpup. rewrite Eo, Ec. cbn [mbind option_bind]. by rewrite Hv. }
  cbn [mbind option_bind]. destruct r; [by eexists _, _|]. unfold restart_area_length, le16_to_cpup. rewrite El. by eexists _, _.
Qed.

Lemma area_agree rp p ra ca clients free used : agree p rp -> 512 <= zlen rp -> 512 <= zlen p -> 0 <= ra -> ra + 24 <= 510 -> restart_area_offset rp = Some ra ->
  area_facts rp ra ca clients free used -> restart_area_offset p = Some ra /\ area_facts p ra ca clients free used.
Proof.
  intros Hag Hr Hp Hra Hrb Era Hf. assert (forall a, 4 <= a -> a + 2 <= 510 -> le16_to_cpup p a = le16_to_cpup rp a) as E2 by (intros a Ha Hb; apply agree_ld; done || lia).
  split; [unfold restart_area_offset; by rewrite E2 by lia|]. destruct Hf as [H1 H2 H3 H4 H5 H6 (rlen & ps & H7 & H8 & H9)].
  unfold client_array_offset, log_clients, client_free_list, client_in_use_list, restart_area_length, system_page_size in *.
  split; unfold client_array_offset, log_clients, client_free_list, client_in_use_list; rewrite ?E2 by lia; try done. exists rlen, ps. unfold restart_area_length, system_page_size. rewrite E2 by lia. split; [done|]. split; [|done].
  rewrite <-H8. by apply agree_ld.
Qed.

(** A restart page whose restart area and client array are read where they are:
    the two cases the checks let through are excluded. *)
Definition benign_page (block : list Z) : Prop :=
  forall ra ca clients, restart_area_offset block = Some ra -> client_array_offset block ra = Some ca -> log_clients block ra = Some clients ->
  ra <> 480 /\ ca + clients * CLIENT_SIZE < 2 ^ 16.

(** [page], deprotected, and [lsn] are what the restart page at [pos] of the
    journal says, and it passes all checks. *)
Definition valid_page (data : list Z) (pos : Z) (page : list Z * Z) : Prop :=
  exists block magic ra ca clients free used, zlen block = 512 /\ holds data pos block /\
    ntfs_check_restart_page_header block pos = Some true /\ ntfs_check_restart_area block = Some true /\
    rec_magic block = Some magic /\ restart_area_offset block = Some ra /\ 0 <= ra <= 486 /\ area_facts block ra ca clients free used /\ 512 <= zlen page.1 /\
    system_page_size block = Some (zlen page.1) /\ agree page.1 block /\
    (magic = magic_RSTR -> used <> LOGFILE_NO_CLIENT -> ntfs_check_log_client_array page.1 = Some true) /\
    (if magic =? magic_RSTR then current_lsn block ra else chkdsk_lsn block) = Some page.2.

Lemma area_inside rp ra b : restart_area_offset rp = Some ra -> ntfs_check_restart_area rp = Some b -> b = true -> ra + 24 <= 510.
Proof.
  intros Era E ->. unfold ntfs_check_restart_area in E. rewrite Era in E. cbn [mbind option_bind] in E. unfold FIRST_TAIL, NTFS_BLOCK_SIZE, FILE_SIZE_OFS in E.
  destruct (Z.ltb_spec (512 - 2) (ra + 24)); [done | lia].
Qed.

Lemma holds_wf data pos xs : wf_bytes data -> holds data pos xs -> wf_bytes xs.
Proof. intros Hw Hh. apply zget_Forall_2. intros i x Hx. pose proof (zget_bounds _ _ _ Hx). rewrite <-Hh in Hx by lia. by eapply zget_Forall in Hx. Qed.

Section load.
Context {A : Type} `{!AttrOps A} `{!AttrLaws A} (memory : Z -> bool) (old_errno : errno) (data : list Z) (Hdata : wf_bytes data).

Lemma load_page_ok na block pos ps : attr_data na = data -> 0 <= pos -> 512 <= ps -> zlen block = 512 -> holds data pos block ->
  exists na' r, load_page old_errno na block pos ps = Some (na', r) /\ attr_data na' = data /\
  match r with Ok raw => zlen raw = ps /\ holds data pos raw | Err e => e <> EINVAL end.
Proof.
  intros Hd Hp Hps Hl Hh. unfold load_page, NTFS_BLOCK_SIZE. destruct (Z.leb_spec ps 512).
  - assert (ps = 512) as -> by lia. rewrite <-Hl, holds_zread by (try lia; intros j Hj; done). by eexists _, _.
  - destruct (attr_pread na pos ps) as [na' r] eqn:E. destruct (attr_pread_law na pos ps na' r Hp ltac:(lia) E) as [Hd' Hr]. eexists _, _. split; [done|]. split; [congruence|].
    destruct r as [bs|e]; [|by case_decide]. destruct (Z.eqb_spec (zlen bs) ps); [|by case_decide]. split; [done|]. rewrite <-Hd. apply Hr.
Qed.

Lemma load_ok na block pos : attr_data na = data -> 0 <= pos -> zlen block = 512 -> holds data pos block -> 
  (ntfs_check_restart_page_header block pos = Some true -> benign_page block) ->
  exists na' r, ntfs_check_and_load_restart_page memory old_errno na block pos = Some (na', r) /\ attr_data na' = data /\
  match r with Ok page => valid_page data pos page | Err _ => True end.
Proof.
  intros Hd Hp Hl Hh Hbenign. unfold ntfs_check_and_load_restart_page. pose proof (holds_wf _ _ _ Hdata Hh) as Hw.
  destruct (header_ok block Hw ltac:(lia) pos) as (b & Eh & Hhd). rewrite Eh. cbn [mbind option_bind]. destruct b; [cbn [negb]|by eexists _, _].
  destruct (Hhd eq_refl) as (ra & ps & Era & Eps & H8 & Hra & Hps & _). specialize (Hbenign Eh).
  assert (ra <> 480 \/ ra = 480) as [Hne| ->] by lia.
  2: { destruct (field 2 block 502 Hw) as (ca & Eca & _); [lia | lia|]. destruct (field 2 block 488 Hw) as (cl & Ecl & _); [lia | lia|].
       destruct (Hbenign _ _ _ Era Eca Ecl). done. }
  destruct (area_ok block Hw ltac:(lia) ra Era ltac:(lia) H8 Hne) as (b & Ea & Har). rewrite Ea. cbn [mbind option_bind]. destruct b; [cbn [negb]|by eexists _, _].
  destruct (Har eq_refl) as (ca & clients & free & used & Hf). pose proof (area_inside _ _ _ Era Ea eq_refl) as Hin. rewrite Era, Eps. cbn [mbind option_bind].
  destruct (memory ps); [cbn [negb]|by eexists _, _].
  destruct (load_page_ok na block pos ps Hd Hp ltac:(lia) Hl Hh) as (na' & r & -> & Hd' & Hr). cbn [mbind option_bind]. destruct r as [raw|e]; [|by eexists _, _].
  destruct Hr as [Hzr Hhr]. destruct (deprotect_ok raw block ra ps (holds_wf _ _ _ Hdata Hhr) Hzr ltac:(lia) Hw ltac:(lia) ltac:(lia)) as (p & ok & -> & Hzp & Hwp & Hag).
  cbn [mbind option_bind]. destruct ok; [cbn [negb]|by eexists _, _].
  assert (agree p block) as Hagb by (intros j Hj; rewrite Hag, <-Hhr, Hh by lia; done).
  destruct (field 4 block 0 Hw) as (magic & Emg & _); [lia | lia|]. assert (rec_magic block = Some magic) as -> by exact Emg. cbn [mbind option_bind].
  rewrite (af_used _ _ _ _ _ _ Hf). cbn [mbind option_bind].
  assert (exists b, (if (magic =? magic_RSTR) && negb (used =? LOGFILE_NO_CLIENT) then ntfs_check_log_client_array p else Some true) = Some b /\
    (b = true -> magic = magic_RSTR -> used <> LOGFILE_NO_CLIENT -> ntfs_check_log_client_array p = Some true)) as (b & -> & Hb).
  { destruct (area_agree block p ra ca clients free used Hagb ltac:(lia) ltac:(lia) ltac:(lia) Hin Era Hf) as [Erap Hfp].
    destruct (Hbenign ra ca clients Era (af_ca _ _ _ _ _ _ Hf) (af_clients _ _ _ _ _ _ Hf)) as [_ H16].
    destruct (af_end _ _ _ _ _ _ Hf) as (rlen & ps' & _ & Eps' & Hu & He). rewrite Eps in Eps'. injection Eps' as <-.
    destruct (af_begin _ _ _ _ _ _ Hf) as (Hca & _). pose proof (af_range _ _ _ _ _ _ Hf) as ((Hcl & _) & _).
    unfold u16 in Hu. rewrite wrap_u_small in Hu by (unfold CLIENT_SIZE in *; lia).
    destruct (client_array_ok p Hwp (ra + ca) clients ltac:(lia) ltac:(lia) ra ca free used Erap Hfp eq_refl) as (b & -> & _).
    destruct (Z.eqb_spec magic magic_RSTR); [|exists true; split; [done | intros _ ?; done]].
    destruct (Z.eqb_spec used LOGFILE_NO_CLIENT); [exists true; split; [done | intros _ _ ?; done]|]. exists b. split; [done|]. by intros ->. }
  cbn [mbind option_bind]. destruct b; [cbn [negb]|by eexists _, _].
  assert (exists lsn, (if magic =? magic_RSTR then current_lsn block ra else chkdsk_lsn block) = Some lsn) as [lsn El].
  { unfold current_lsn, chkdsk_lsn, sle64_to_cpup. destruct (field 8 block ra Hw) as (v & -> & _); [lia | lia|]. destruct (field 8 block 8 Hw) as (v' & -> & _); [lia | lia|].
    destruct (_ =? _); by eexists. }
  rewrite El. cbn [mbind option_bind]. eexists _, _. split; [done|]. split; [done|]. exists block, magic, ra, ca, clients, free, used. cbn [fst snd]. rewrite Hzp.
  split_and!; try done; try lia. by apply Hb.
Qed.
End load.

(** ** The search through the journal *)

(** The positions where a restart page may begin. *)
Definition place (pos : Z) : Prop := pos = 0 \/ exists k : nat, pos = 512 * 2 ^ Z.of_nat k.
Definition next_place (pos : Z) : Z := Z.shiftl (if pos =? 0 then Z.shiftr NTFS_BLOCK_SIZE 1 else pos) 1.

Lemma next_place_eq pos : next_place pos = if pos =? 0 then 512 else 2 * pos.
Proof. unfold next_place. rewrite Z.shiftl_mul_pow2 by lia. destruct (pos =? 0); [done | lia]. Qed.

Lemma place_nonneg pos : place pos -> 0 <= pos.
Proof. intros [->|(k & ->)]; lia. Qed.

Lemma place_next pos : place pos -> place (next_place pos).
Proof.
  intros [->|(k & ->)]; rewrite next_place_eq; [right; by exists 0%nat|]. destruct (Z.eqb_spec (512 * 2 ^ Z.of_nat k) 0); [lia|].
  right. exists (S k). rewrite Nat2Z.inj_succ, Z.pow_succ_r by lia. lia.
Qed.

Lemma place_below pos q : place pos -> place q -> q < next_place pos -> q <= pos.
Proof.
  rewrite next_place_eq. intros [->|(k & ->)] [->|(j & ->)]; [done | | lia |].
  - change (0 =? 0) with true. cbv iota. lia.
  - destruct (Z.eqb_spec (512 * 2 ^ Z.of_nat k) 0); [lia|]. intros Hlt. assert (2 ^ Z.of_nat j < 2 ^ Z.of_nat (S k)) as Hp by (rewrite Nat2Z.inj_succ, Z.pow_succ_r by lia; lia).
    apply Z.pow_lt_mono_r_iff in Hp; [|lia|lia]. enough (2 ^ Z.of_nat j <= 2 ^ Z.of_nat k) by lia. apply Z.pow_le_mono_r; lia.
Qed.

(** Enough turns are left to pass [2 ^ 32]. *)
Definition turns (fuel : nat) (pos : Z) : Prop := (0 < fuel)%nat /\ 2 ^ 35 <= next_place pos * 2 ^ Z.of_nat fuel.

Lemma turns_next fuel pos : 0 <= pos < 2 ^ 32 -> turns (S fuel) pos -> turns fuel (next_place pos).
Proof.
  unfold turns. intros Hp [_ H]. assert (0 < next_place pos <= 2 ^ 33) as Hn by (rewrite next_place_eq; destruct (Z.eqb_spec pos 0); lia).
  assert (2 ^ 35 <= next_place (next_place pos) * 2 ^ Z.of_nat fuel) as H2.
  { rewrite Nat2Z.inj_succ, Z.pow_succ_r in H by lia. rewrite (next_place_eq (next_place pos)). destruct (Z.eqb_spec (next_place pos) 0); lia. }
  split; [|done]. destruct fuel; [cbn in H; lia | lia].
Qed.

Definition empty_at (data : list Z) (pos : Z) : Prop := le32_to_cpup data pos = Some magic_empty.

Definition benign (data : list Z) : Prop :=
  forall pos block, place pos -> zlen block = 512 -> holds data pos block -> ntfs_check_restart_page_header block pos = Some true -> benign_page block.

Section find.
Context {A : Type} `{!AttrOps A} `{!AttrLaws A} (memory : Z -> bool) (old_errno : errno) (data : list Z) (Hdata : wf_bytes data) (Hbenign : benign data).
Context (size : Z) (Hsize : size <= 2 ^ 32).

Lemma magic_at block pos magic : zlen block = 512 -> holds data pos block -> rec_magic block = Some magic -> 0 <= pos -> le32_to_cpup data pos = Some magic.
Proof.
  unfold rec_magic, le32_to_cpup. intros Hl Hh <- Hp. destruct (zget_inside block 511) as [x Hx]; [lia|]. rewrite <-Hh in Hx by lia. apply zget_bounds in Hx.
  pose proof (holds_zread _ _ _ Hh Hp ltac:(lia)) as E. by rewrite (ld_sub 4 _ _ _ _ 0 E), Z.add_0_r by lia.
Qed.

(** There is no restart page at the place: the block has another magic, or
    ntfs_check_and_load_restart_page refuses it. *)
Definition no_page (q : Z) : Prop :=
  exists block, zlen block = 512 /\ holds data q block /\
    ((exists magic, rec_magic block = Some magic /\ magic <> magic_RSTR /\ magic <> magic_CHKD) \/
     exists na na', attr_data na = data /\ ntfs_check_and_load_restart_page memory old_errno na block q = Some (na', Err EINVAL)).

(** Nothing is searched behind the place: a log record page, or an empty block
    after one that is not. *)
Definition ends_at (q : Z) : Prop :=
  le32_to_cpup data q = Some magic_RCRD \/ (empty_at data q /\ exists q', place q' /\ q' < q /\ ~ empty_at data q').

(** The search went to [stop], and [found] are all the restart pages on its way,
    with their places; the second page, or one that is not at 0, ends it. *)
Record searched (found : list (Z * (list Z * Z))) (stop : Z) : Prop := Searched {
  sr_pages : Forall (fun f => place f.1 /\ f.1 <= stop /\ valid_page data f.1 f.2) found;
  sr_rest : forall q, place q -> q < stop -> no_page q \/ exists p, (q, p) ∈ found;
  sr_stop : size <= stop \/ ends_at stop \/ (0 < stop /\ exists p, (stop, p) ∈ found) }.

(** What the search has found. *)
Definition pages_ok (ps : pages) : Prop :=
  match ps with
  | (true, r1, r2) => r1 = None /\ forall q, place q -> q < size -> empty_at data q
  | (false, None, r2) => True
  | (false, Some p1, r2) => exists found stop, searched found stop /\ found.*2 = p1 :: option_list r2
  end.

(** The pages found before [pos]; the first is at 0. *)
Definition first_page (rstr1 : option (list Z * Z)) : list (Z * (list Z * Z)) := if rstr1 is Some p then [(0, p)] else [].

Definition search_ok (pos : Z) (empty : bool) (rstr1 : option (list Z * Z)) : Prop :=
  (if empty then rstr1 = None /\ forall q, place q -> q < pos -> empty_at data q
   else exists q, place q /\ q < pos /\ ~ empty_at data q) /\
  (forall p, rstr1 = Some p -> 0 < pos /\ valid_page data 0 p) /\
  (forall q, place q -> q < pos -> no_page q \/ exists p, (q, p) ∈ first_page rstr1).

Lemma empty_at_inj q magic : le32_to_cpup data q = Some magic -> magic <> magic_empty -> ~ empty_at data q.
Proof. unfold empty_at. congruence. Qed.

Lemma first_searched pos rstr1 : place pos -> (forall p, rstr1 = Some p -> 0 < pos /\ valid_page data 0 p) ->
  (forall q, place q -> q < pos -> no_page q \/ exists p, (q, p) ∈ first_page rstr1) -> size <= pos \/ ends_at pos -> searched (first_page rstr1) pos.
Proof.
  intros Hp Hr Hq Hend. split; [|done|tauto]. destruct rstr1 as [p|]; cbn [first_page]; [apply Forall_singleton | constructor]. cbn.
  destruct (Hr p eq_refl). split_and!; [by left | cbn; lia | done].
Qed.

Lemma pages_first pos empty rstr1 : place pos -> search_ok pos empty rstr1 ->
  size <= pos \/ (empty = false /\ ends_at pos) -> pages_ok (empty, rstr1, None).
Proof.
  intros Hp (He & Hr & Hq) Hend. destruct empty.
  - destruct Hend as [Hle|[? _]]; [|done]. destruct He as [-> He]. split; [done|]. intros q Hpq Hlt. apply He; [done | lia].
  - destruct rstr1 as [p|]; [|done]. exists (first_page (Some p)), pos. split; [|done]. apply first_searched; [done..|]. tauto.
Qed.

Lemma search_next pos (empty : bool) rstr1 (empty' : bool) rstr1' : place pos -> search_ok pos empty rstr1 ->
  (if empty' then empty = true /\ empty_at data pos else empty = false \/ ~ empty_at data pos) ->
  (rstr1' = rstr1 /\ no_page pos \/ pos = 0 /\ exists p, rstr1' = Some p /\ empty' = false /\ valid_page data 0 p) ->
  search_ok (next_place pos) empty' rstr1'.
Proof.
  intros Hp (He & Hr & Hq) He' Hr'. pose proof (place_nonneg _ Hp) as Hpn. assert (pos < next_place pos) as Hnx.
  { rewrite next_place_eq. destruct (Z.eqb_spec pos 0); lia. }
  split_and!.
  - destruct empty'.
    + destruct He' as [-> Hat]. destruct He as [-> He]. split; [destruct Hr' as [[-> _]|(_ & p & _ & ? & _)]; done|]. intros q Hpq Hlt.
      pose proof (place_below _ _ Hp Hpq Hlt). destruct (decide (q = pos)) as [->|]; [done|]. apply He; [done | lia].
    + destruct He' as [->|Hat]; [|by exists pos]. destruct He as (q & ? & ? & ?). exists q. split_and!; [done | lia | done].
  - intros p ->. split; [lia|]. destruct Hr' as [[E _]|(_ & p' & [= <-] & _ & ?)]; [|done]. by apply Hr.
  - intros q Hpq Hlt. pose proof (place_below _ _ Hp Hpq Hlt). destruct (decide (q = pos)) as [->|].
    + destruct Hr' as [[-> Hn]|(-> & p & -> & _ & _)]; [by left|]. right. exists p. by left.
    + destruct (Hq q Hpq ltac:(lia)) as [|[p Hin]]; [by left|]. right. destruct Hr' as [[-> _]|(-> & _)]; [by exists p|].
      pose proof (place_nonneg _ Hpq). lia.
Qed.

Lemma find_pages_ok fuel na pos empty rstr1 : attr_data na = data -> place pos -> turns fuel pos -> search_ok pos empty rstr1 ->
  exists na' o, find_pages memory old_errno fuel na pos size empty rstr1 = Some (na', o) /\ attr_data na' = data /\
  match o with Some ps => pages_ok ps | None => True end.
Proof.
  revert na pos empty rstr1; induction fuel as [|f IH]; intros na pos empty rstr1 Hd Hp Ht Hs; [destruct Ht; lia|].
  cbn [find_pages]. destruct (Z.leb_spec size pos) as [Hle|Hlt].
  { eexists _, _. split; [done|]. split; [done|]. apply (pages_first pos); [done..|by left]. }
  pose proof (place_nonneg _ Hp) as Hpn. destruct (attr_pread na pos NTFS_BLOCK_SIZE) as [na1 r] eqn:E.
  destruct (attr_pread_law na pos NTFS_BLOCK_SIZE na1 r Hpn ltac:(done) E) as [Hd1 Hb]. rewrite Hd in *.
  destruct r as [block|e]; [|by eexists _, _]. destruct Hb as [_ Hh]. destruct (Z.eqb_spec (zlen block) NTFS_BLOCK_SIZE) as [Hl|]; [cbn [negb]|by eexists _, _].
  pose proof (holds_wf _ _ _ Hdata Hh) as Hw. destruct (field 4 block 0 Hw) as (magic & Emg & _); [lia | rewrite Hl; done|].
  assert (rec_magic block = Some magic) as Emg' by exact Emg. pose proof (magic_at _ _ _ Hl Hh Emg' Hpn) as Hat. rewrite Emg'. cbn [mbind option_bind].
  change (Z.shiftl (if pos =? 0 then Z.shiftr NTFS_BLOCK_SIZE 1 else pos) 1) with (next_place pos).
  assert (forall na2, attr_data na2 = data -> forall empty2 rstr2, search_ok (next_place pos) empty2 rstr2 ->
    exists na' o, find_pages memory old_errno f na2 (next_place pos) size empty2 rstr2 = Some (na', o) /\ attr_data na' = data /\ match o with Some ps => pages_ok ps | None => True end) as Hgo.
  { intros na2 Hd2 empty2 rstr2 Hs2. apply IH; [done | by apply place_next | apply turns_next; [lia | done] | done]. }
  destruct (Z.eqb_spec magic magic_empty) as [->|Hnm].
  { destruct empty; cbn [andb negb].
    - apply Hgo; [done|]. apply (search_next pos true rstr1); [done | done | done | left; split; [done|]].
      exists block. split_and!; [exact Hl | done |]. left. by exists magic_empty.
    - eexists _, _. split; [done|]. split; [done|]. apply (pages_first pos); [done..|]. right. split; [done|]. right. split; [exact Hat | apply Hs]. }
  pose proof (empty_at_inj _ _ Hat Hnm) as Hne. cbn [andb]. destruct (Z.eqb_spec magic magic_RCRD) as [->|Hnr].
  { eexists _, _. split; [done|]. split; [done|]. destruct rstr1 as [p|]; [|done]. exists (first_page (Some p)), pos. split; [|done].
    apply first_searched; [done | apply Hs | apply Hs |]. right. by left. }
  assert (no_page pos -> search_ok (next_place pos) false rstr1) as Hno.
  { intros Hn. apply (search_next pos empty rstr1); [done | done | by right | by left]. }
  destruct (_ && _) eqn:Em.
  { apply andb_true_iff in Em as [E1%negb_true_iff%Z.eqb_neq E2%negb_true_iff%Z.eqb_neq]. apply Hgo; [done|]. apply Hno.
    exists block. split_and!; [exact Hl | done |]. left. by exists magic. }
  destruct (load_ok memory old_errno data Hdata na1 block pos Hd1 Hpn Hl Hh (Hbenign _ _ Hp Hl Hh)) as (na2 & r & El & Hd2 & Hv). rewrite El. cbn [mbind option_bind].
  destruct r as [page|e].
  - destruct (Z.eqb_spec pos 0) as [->|Hne0].
    { apply Hgo; [done|]. apply (search_next 0 empty rstr1); [done | done | by right | right; split; [done|]]. by exists page. }
    eexists _, _. split; [done|]. split; [done|]. destruct Hs as (_ & Hr & Hq).
    assert (searched (first_page rstr1 ++ [(pos, page)]) pos) as Hsr.
    { split.
      - apply Forall_app. split; [|apply Forall_singleton; cbn; split_and!; [done | lia | done]].
        destruct rstr1 as [p|]; cbn [first_page]; [apply Forall_singleton | constructor]. cbn.
        destruct (Hr p eq_refl). split_and!; [by left | done | done].
      - intros q Hpq Hlq. destruct (Hq q Hpq Hlq) as [|[p Hin]]; [by left|]. right. exists p. apply elem_of_app. by left.
      - right. right. split; [lia|]. exists page. apply elem_of_app. right. by left. }
    destruct rstr1 as [p1|]; (eexists _, _; split; [exact Hsr | done]).
  - destruct e; try (by eexists _, _). apply Hgo; [done|]. apply Hno.
    exists block. split_and!; [exact Hl | done |]. right. by exists na1, na2.
Qed.
End find.

(** ** Clean or not *)

Record clean_page (p : list Z) : Prop := Clean {
  cl_magic : exists magic, rec_magic p = Some magic /\ (magic = magic_RSTR \/ magic = magic_CHKD);
  cl_closed : exists ra used flags, restart_area_offset p = Some ra /\ client_in_use_list p ra = Some used /\ ra_flags p ra = Some flags /\
    (used = LOGFILE_NO_CLIENT \/ Z.testbit flags 1 = true) }.

(** The version of a journal that Windows keeps metadata for. *)
Definition cached_version (p : list Z) : Prop := major_ver p = Some 2 /\ minor_ver p = Some 0.

Lemma clean_bit x : negb (Z.land x RESTART_VOLUME_IS_CLEAN =? 0) = Z.testbit x 1.
Proof.
  unfold RESTART_VOLUME_IS_CLEAN. destruct (Z.testbit x 1) eqn:E.
  - apply negb_true_iff, Z.eqb_neq. intros H. apply (f_equal (fun y => Z.testbit y 1)) in H. rewrite Z.land_spec, E in H. done.
  - apply negb_false_iff, Z.eqb_eq. apply Z.bits_inj'. intros i Hi. rewrite Z.land_spec, Z.bits_0. destruct (decide (i = 1)) as [->|Hne]; [by rewrite E|].
    change 2 with (2 ^ 1). rewrite Z.pow2_bits_false by lia. apply andb_false_r.
Qed.

Lemma is_clean_ok {A} data (na : A) pos page : valid_page data pos page ->
  exists b major minor, ntfs_is_logfile_clean (Log na false) (Some page.1) = Some b /\ (b = true -> clean_page page.1) /\
    major_ver page.1 = Some major /\ minor_ver page.1 = Some minor.
Proof.
  intros (block & _ & ra & ca & clients & free & used & Hl & _ & _ & _ & _ & Era & Hra & Hf & Hp & _ & Hag & _). set (p := page.1) in *.
  destruct (area_agree block p ra ca clients free used Hag ltac:(lia) ltac:(lia) ltac:(lia) ltac:(lia) Era Hf) as [Erap Hfp].
  destruct (ld_inside 4 p 0) as [magic Em]; [lia | lia|]. destruct (ld_inside 2 p (ra + 14)) as [flags Efl]; [lia | lia|].
  destruct (ld_inside 2 p 28) as [major Ema]; [lia | lia|]. destruct (ld_inside 2 p 26) as [minor Emi]; [lia | lia|].
  assert (rec_magic p = Some magic) as Em' by exact Em. assert (ra_flags p ra = Some flags) as Efl' by exact Efl.
  unfold ntfs_is_logfile_clean. cbn [log_empty]. rewrite Em'. cbn [mbind option_bind]. rewrite Erap. cbn [mbind option_bind].
  rewrite (af_used _ _ _ _ _ _ Hfp). cbn [mbind option_bind]. rewrite Efl'. cbn [mbind option_bind]. rewrite clean_bit.
  destruct (Z.eqb_spec magic magic_RSTR) as [Hm1|Hm1], (Z.eqb_spec magic magic_CHKD) as [Hm2|Hm2], (Z.eqb_spec used LOGFILE_NO_CLIENT) as [Hu|Hu];
    cbn [negb andb]; eexists _, major, minor; (split; [done|]; split; [|done]); intros Hb; try done.
  all: split; [exists magic; split; auto | exists ra, used, flags; split; [done|]; split; [apply (af_used _ _ _ _ _ _ Hfp)|]; split; [done|]; auto].
Qed.

(** ** Emptying the journal *)

Section emptying.
Context {A : Type} `{!AttrOps A} `{!AttrLaws A}.

Definition filled (data : list Z) (pos : Z) : Prop := forall j, 0 <= j < pos -> zget data j = Some 255.

Lemma empty_loop_ok fuel na pos L : zlen (attr_data na) = L -> 0 <= pos <= L -> filled (attr_data na) pos -> (Z.to_nat (L - pos) < fuel)%nat ->
  exists na' r, empty_loop fuel na pos = Some (na', r) /\ zlen (attr_data na') = L /\ match r with Ok _ => filled (attr_data na') L | Err _ => True end /\
    (AttrReliable A -> r = Ok tt).
Proof.
  revert na pos; induction fuel as [|f IH]; intros na pos HL Hp Hfill Hf; [lia|]. cbn [empty_loop]. rewrite HL.
  destruct (Z.ltb_spec 0 (L - pos)) as [Hlt|]; [|assert (pos = L) as -> by lia; by eexists _, (Ok tt)].
  set (count := if NTFS_BUF_SIZE <? L - pos then NTFS_BUF_SIZE else L - pos).
  assert (0 < count <= L - pos) as Hc by (unfold count, NTFS_BUF_SIZE; destruct (Z.ltb_spec 8192 (L - pos)); lia).
  set (bs := replicate _ _). assert (zlen bs = count) as Hbs by (unfold bs; rewrite zlen_replicate; lia).
  assert (pos + zlen bs <= zlen (attr_data na)) as Hfit by lia.
  destruct (attr_pwrite na pos bs) as [na1 r] eqn:E. pose proof (attr_pwrite_law na pos bs na1 r (proj1 Hp) Hfit E) as Hw.
  assert (AttrReliable A -> r = Ok count) as Hrel.
  { intros HR. destruct (attr_pwrite_full na pos bs (proj1 Hp) Hfit) as [a' E']. rewrite E in E'. injection E' as _ ->. by rewrite Hbs. }
  destruct r as [n|e]; [|eexists _, _; split; [done|]; split; [congruence|]; split; [done|]; intros HR; specialize (Hrel HR); done].
  destruct Hw as [Hn Hw]. destruct (Z.leb_spec n 0).
  { eexists _, _. split; [done|]. apply zwrite_Some in Hw as (_ & _ & -> & _). split; [done|]. split; [done|]. intros HR. injection (Hrel HR). lia. }
  apply zwrite_Some in Hw as (_ & _ & Hz & Hg). assert (zlen (take (Z.to_nat n) bs) = n) as Ht by (unfold zlen in *; rewrite length_take; lia). rewrite Ht in Hg.
  apply IH; [congruence | lia | | lia]. intros j Hj. rewrite Hg. destruct (Z.leb_spec pos j), (Z.ltb_spec j (pos + n)); cbn [andb]; try (apply Hfill; lia); try lia.
  unfold zget. destruct (Z.ltb_spec (j - pos) 0); [lia|]. rewrite lookup_take_lt by lia. unfold bs. apply lookup_replicate_2. lia.
Qed.

Lemma filled_empty_at data pos : filled data (zlen data) -> 0 <= pos -> pos + 4 <= zlen data -> empty_at data pos.
Proof.
  intros Hf Hp Hb. unfold empty_at, le32_to_cpup, ld. assert (holds data pos [255; 255; 255; 255]) as Hh.
  { intros j Hj. change (zlen [255; 255; 255; 255]) with 4 in Hj. rewrite Hf by lia. assert (j = 0 \/ j = 1 \/ j = 2 \/ j = 3) as [->|[->|[->| ->]]] by lia; done. }
  change (Z.of_nat 4) with (zlen [255; 255; 255; 255]). rewrite holds_zread; [done.. |]. change (zlen [255; 255; 255; 255]) with 4. lia.
Qed.

Context `{!AttrReliable A} (memory : Z -> bool) (old_errno : errno).

Lemma find_pages_empty fuel na pos size : filled (attr_data na) (zlen (attr_data na)) -> place pos -> turns fuel pos -> size <= 2 ^ 32 ->
  size mod 512 = 0 -> size <= zlen (attr_data na) ->
  exists na', find_pages memory old_errno fuel na pos size true None = Some (na', Some (true, None, None)) /\ attr_data na' = attr_data na.
Proof.
  revert na pos; induction fuel as [|f IH]; intros na pos Hfill Hp Ht Hsz Hm Hb; [destruct Ht; lia|]. cbn [find_pages].
  destruct (Z.leb_spec size pos) as [Hle|Hlt]; [by eexists|]. pose proof (place_nonneg _ Hp) as Hpn.
  assert (pos mod 512 = 0) as Hpm by (destruct Hp as [->|(k & ->)]; [done | rewrite Z.mul_comm; by apply Z.mod_mul]).
  destruct (attr_pread_full na pos NTFS_BLOCK_SIZE) as (na1 & bs & E & Hl); [done | done | unfold NTFS_BLOCK_SIZE; divlia|]. rewrite E, Hl.
  destruct (attr_pread_law na pos NTFS_BLOCK_SIZE na1 (Ok bs) Hpn ltac:(done) E) as [Hd1 [_ Hh]]. change (NTFS_BLOCK_SIZE =? NTFS_BLOCK_SIZE) with true. cbn [negb].
  assert (filled bs (zlen bs)) as Hfb.
  { intros j Hj. rewrite <-Hh by lia. apply Hfill. destruct (zget_inside bs j Hj) as [x Hx]. rewrite <-Hh in Hx by lia. apply zget_bounds in Hx. lia. }
  assert (rec_magic bs = Some magic_empty) as -> by (apply filled_empty_at; [done | done | rewrite Hl; done]). cbn [mbind option_bind andb negb].
  change (magic_empty =? magic_empty) with true. change (magic_empty =? magic_RCRD) with false. change (magic_empty =? magic_RSTR) with false. change (magic_empty =? magic_CHKD) with false. cbn [andb negb].
  change (Z.shiftl (if pos =? 0 then Z.shiftr NTFS_BLOCK_SIZE 1 else pos) 1) with (next_place pos). rewrite <-Hd1 in *.
  apply IH; try done; [by apply place_next | apply turns_next; [lia | done]].
Qed.
End emptying.

Lemma searched_bounds L : 0 <= L -> searched_size L <= L /\ searched_size L <= 2 ^ 32 /\ searched_size L mod 4096 = 0 /\ L - 4096 < searched_size L \/ searched_size L = 2 ^ 32 /\ 2 ^ 32 <= L.
Proof.
  intros HL. unfold searched_size, MaxLogFileSize, DefaultLogPageSize. change (Z.lnot (4096 - 1)) with (Z.lnot (Z.ones 12)).
  assert (forall x, Z.land x (Z.lnot (Z.ones 12)) = 4096 * (x / 4096)) as H.
  { intros x. rewrite <-Z.ldiff_land, Z.ldiff_ones_r by done. rewrite Z.shiftl_mul_pow2, Z.shiftr_div_pow2 by done. change (2 ^ 12) with 4096. lia. }
  rewrite !H. destruct (Z.ltb_spec 0x100000000 L); [right; split; [done | lia]|]. left. divlia.
Qed.

(** ** The checks of a mounted volume *)

Section volume.
Context {A : Type} `{!AttrOps A} `{!AttrLaws A} (memory : Z -> bool) (old_errno : errno) (data : list Z) (Hdata : wf_bytes data).

(** The pages that were found, and the one that counts: the most recent. *)
Definition newest (found : list (list Z * Z)) (page : list Z * Z) : Prop :=
  page ∈ found /\ Forall (fun q => q.2 <= page.2) found.

Lemma check_logfile_ok s : attr_data (log_na s) = data -> benign data -> log_empty s = false ->
  exists s' ok rp, ntfs_check_logfile memory old_errno s = Some (s', ok, rp) /\ attr_data (log_na s') = data /\
  (ok = false -> rp = None) /\
  (ok = true -> (log_empty s' = true /\ rp = None /\ forall q, place q -> q < searched_size (zlen data) -> empty_at data q) \/
    (log_empty s' = false /\ exists found stop page, searched (A := A) memory old_errno data (searched_size (zlen data)) found stop /\
       newest found.*2 page /\ rp = Some page.1)).
Proof.
  intros Hd Hben He. unfold ntfs_check_logfile. rewrite He, Hd. set (size := searched_size (zlen data)).
  destruct (_ || _); [by exists s, false, None|]. destruct (negb _); [by exists s, false, None|].
  assert (size <= 2 ^ 32) as Hs by (destruct (searched_bounds (zlen data)) as [?|?]; [apply zlen_nonneg | lia | lia]).
  destruct (find_pages_ok memory old_errno data Hdata Hben size Hs 32 (log_na s) 0 true None Hd) as (na & o & -> & Hdn & Ho); [by left | split; [lia | done] | | ].
  { assert (forall q, place q -> q < 0 -> False) as Hneg by (intros q Hq Hlt; pose proof (place_nonneg _ Hq); lia).
    split_and!; try done; intros q Hq Hlt; by edestruct Hneg. }
  cbn [mbind option_bind]. destruct o as [[[e r1] r2]|]; [|by exists (Log na false), false, None].
  destruct e; [exists (Log na true), true, None; split_and!; try done; intros _; left; by split_and!; try apply Ho|].
  destruct r1 as [[p1 l1]|]; [|by exists (Log na false), false, None].
  destruct Ho as (found & stop & Hsr & Hf).
  destruct r2 as [[p2 l2]|]; (eexists (Log na false), true, _; split; [done|]; split; [done|]; split; [done|]; intros _; right; split; [done|]; exists found, stop; rewrite Hf; cbn [option_list]).
  - exists (if l1 <? l2 then (p2, l2) else (p1, l1)). split_and!; [done | | by destruct (_ <? _)].
    unfold newest. destruct (Z.ltb_spec l1 l2); (split; [rewrite !elem_of_cons; auto|]); repeat constructor; cbn; lia.
  - exists (p1, l1). split_and!; [done | | done]. split; [by left | repeat constructor; cbn; lia].
Qed.
End volume.

(** ** Properties *)

(** The checks of a restart page, on any bytes, stay in the page unless its
    restart area begins at byte 480 or the length of its client array exceeds 16
    bits; an array of clients is accepted exactly if both lists of clients end,
    stay in the array, are not longer than the array together, and begin with a
    client that has none before it. *)
Theorem restart_page_checks rp pos : wf_bytes rp -> 512 <= zlen rp -> exists h, ntfs_check_restart_page_header rp pos = Some h /\
  (h = true -> benign_page rp -> exists a, ntfs_check_restart_area rp = Some a /\
    (a = true -> system_page_size rp = Some (zlen rp) -> exists ra ca clients free used b, restart_area_offset rp = Some ra /\
       client_array_offset rp ra = Some ca /\ log_clients rp ra = Some clients /\ client_free_list rp ra = Some free /\ client_in_use_list rp ra = Some used /\
       ntfs_check_log_client_array rp = Some b /\
       (b = true <-> exists l1 l2, chain rp (ra + ca) clients free l1 /\ chain rp (ra + ca) clients used l2 /\
          is_first rp (ra + ca) l1 /\ is_first rp (ra + ca) l2 /\ zlen l1 + zlen l2 <= clients))).
Proof.
  intros Hw Hl. destruct (header_ok rp Hw Hl pos) as (h & E & Hh). exists h. split; [done|]. intros -> Hben.
  destruct (Hh eq_refl) as (ra & ps & Era & Eps & H8 & Hra & _). assert (ra <> 480) as Hne.
  { intros ->. destruct (field 2 rp 502 Hw) as (ca & Eca & _); [lia | lia|]. destruct (field 2 rp 488 Hw) as (cl & Ecl & _); [lia | lia|]. by destruct (Hben _ _ _ Era Eca Ecl). }
  destruct (area_ok rp Hw Hl ra Era ltac:(lia) H8 Hne) as (a & Ea & Ha). exists a. split; [done|]. intros -> Eps'.
  destruct (Ha eq_refl) as (ca & clients & free & used & Hf). rewrite Eps in Eps'. injection Eps' as ->.
  destruct (Hben ra ca clients Era (af_ca _ _ _ _ _ _ Hf) (af_clients _ _ _ _ _ _ Hf)) as [_ H16]. destruct (af_end _ _ _ _ _ _ Hf) as (rlen & ps & _ & Eps' & Hu & He).
  rewrite Eps in Eps'. injection Eps' as <-. destruct (af_begin _ _ _ _ _ _ Hf) as (Hca & _). pose proof (af_range _ _ _ _ _ _ Hf) as ((Hcl & _) & _).
  unfold u16 in Hu. rewrite wrap_u_small in Hu by (unfold CLIENT_SIZE in *; lia).
  destruct (client_array_ok rp Hw (ra + ca) clients ltac:(lia) ltac:(lia) ra ca free used Era Hf eq_refl) as (b & Eb & Hb).
  exists ra, ca, clients, free, used, b. split_and!; try done; apply Hf.
Qed.

(** C20: A volume whose journal is checked, with any contents but the two kinds of
    pages that are read too far, is mounted only if the journal is empty or the
    page with the greatest LSN, among all the restart pages that the places up to
    the end of the search hold, is closed or marked clean, and not kept by
    Windows; the check ends, and changes nothing. *)
Theorem volume_check_safe {A} `{!AttrOps A} `{!AttrLaws A} memory old_errno (s : log_state (A := A)) :
  let data := attr_data (log_na s) in wf_bytes data -> benign data ->
  exists s' r, volume_check_logfile memory old_errno s = Some (s', r) /\ attr_data (log_na s') = data /\
  (r = Ok tt -> log_empty s = true \/
    (log_empty s' = true /\ forall q, place q -> q < searched_size (zlen data) -> empty_at data q) \/
    (exists found stop page, searched (A := A) memory old_errno data (searched_size (zlen data)) found stop /\ newest found.*2 page /\
       clean_page page.1 /\ ~ cached_version page.1)).
Proof.
  intros data Hw Hben. unfold volume_check_logfile. destruct (log_empty s) eqn:He.
  { unfold ntfs_check_logfile, ntfs_is_logfile_clean. rewrite He. cbn [mbind option_bind]. rewrite He. eexists _, _. split; [done|]. split; [done|]. by left. }
  destruct (check_logfile_ok memory old_errno data Hw s eq_refl Hben He) as (s' & ok & rp & -> & Hd & Hbad & Hok). cbn [mbind option_bind].
  destruct ok; [|rewrite Hbad by done; by eexists _, _].
  destruct (Hok eq_refl) as [(He' & -> & Hq)|(He' & found & stop & page & Hsr & Hn & ->)].
  - unfold ntfs_is_logfile_clean. rewrite He'. eexists _, _. split; [done|]. split; [done|]. intros _. right. by left.
  - destruct s' as [na e]. cbn in He'. subst e. assert (exists pos, valid_page data pos page) as (pos & Hp).
    { destruct Hn as [Hin _]. apply list_elem_of_fmap in Hin as (f & -> & Hin). exists f.1. by apply (proj1 (Forall_forall _ _) (sr_pages _ _ _ _ _ _ Hsr) f Hin). }
    destruct (is_clean_ok data na pos page Hp) as (b & major & minor & -> & Hb & Ema & Emi). cbn [mbind option_bind]. rewrite Ema, Emi. cbn [mbind option_bind].
    eexists _, _. split; [done|]. split; [done|]. intros Hr. right. right. exists found, stop, page. split; [done|]. split; [done|].
    destruct (_ && _) eqn:Ec; [done|]. destruct b; [|done]. split; [by apply Hb|]. intros [E1 E2]. rewrite E1 in Ema. rewrite E2 in Emi. injection Ema as <-. injection Emi as <-. done.
Qed.

(** Emptying the journal fills it with 0xff bytes, whatever the sizes of the
    writes, and the next check of the volume finds it empty and clean. *)
Theorem emptied_journal_clean {A} `{!AttrOps A} `{!AttrLaws A} `{!AttrReliable A} memory old_errno fuel (s : log_state (A := A)) :
  let L := zlen (attr_data (log_na s)) in log_empty s = false -> (Z.to_nat L < fuel)%nat -> 50 * 4096 <= L -> memory NTFS_BLOCK_SIZE = true ->
  exists na1 na2, ntfs_empty_logfile (fun _ => true) fuel s = Some (Log na1 true, Ok tt) /\ filled (attr_data na1) L /\ zlen (attr_data na1) = L /\
    volume_check_logfile memory old_errno (Log na1 false) = Some (Log na2 true, Ok tt) /\ attr_data na2 = attr_data na1.
Proof.
  intros L He Hf HL Hm. unfold ntfs_empty_logfile. rewrite He. cbn [negb].
  destruct (empty_loop_ok fuel (log_na s) 0 L eq_refl) as (na1 & r & -> & Hz & Hr & Hrel); [lia | intros j Hj; lia | lia|]. rewrite (Hrel _) in *. cbn [mbind option_bind].
  assert (exists na2, volume_check_logfile memory old_errno (Log na1 false) = Some (Log na2 true, Ok tt) /\ attr_data na2 = attr_data na1) as (na2 & ? & ?); [|by exists na1, na2].
  unfold volume_check_logfile, ntfs_check_logfile. cbn [log_empty log_na]. rewrite Hz. pose proof (searched_bounds L ltac:(lia)) as Hs.
  assert (204800 <= searched_size L <= 2 ^ 32 /\ searched_size L mod 512 = 0 /\ searched_size L <= L) as (Hs1 & Hs2 & Hs3).
  { destruct Hs as [(H1 & H2 & H3 & H4)|[-> ?]]; [|split; [lia|]; split; [done | lia]]. divlia. }
  enough (exists na2, find_pages memory old_errno 32 na1 0 (searched_size L) true None = Some (na2, Some (true, None, None)) /\ attr_data na2 = attr_data na1) as (na2 & E & Hd).
  { exists na2. rewrite E, Hm. unfold DefaultLogPageSize, MinLogRecordPages. destruct (Z.ltb_spec (searched_size L) (4096 * 2)); [lia|]. rewrite Z.shiftr_div_pow2 by lia. change (2 ^ 12) with 4096.
  destruct (Z.ltb_spec ((searched_size L - 4096 * 2) / 4096) 48); [divlia|]. done. }
  apply find_pages_empty; [by rewrite Hz | by left | by split; [lia|] | lia | done | lia].
Qed.

(** ** Samples *)

Definition put_field (m : list Z) (f : nat * Z * Z) : list Z := let '(n, a, v) := f in default m (st n m a v).

(** The first bytes of a restart page of size [ps], for a journal of 4 MiB, with its
    restart area at [ra], and the fields of the area. *)
Definition sample_page (bytes : nat) (ps ra ca clients used flags rlen : Z) : list Z :=
  foldl put_field (replicate bytes 0)
    [(4%nat, 0, magic_RSTR); (2%nat, 4, 30); (2%nat, 6, 1 + ps / 512); (4%nat, 16, ps); (4%nat, 20, ps); (2%nat, 24, ra); (2%nat, 26, 1); (2%nat, 28, 1);
     (2%nat, ra + 8, clients); (2%nat, ra + 10, LOGFILE_NO_CLIENT); (2%nat, ra + 12, used); (2%nat, ra + 14, flags); (4%nat, ra + 16, 44);
     (2%nat, ra + 20, rlen); (2%nat, ra + 22, ca); (8%nat, ra + 24, 0x400000);
     (2%nat, ra + ca + used * CLIENT_SIZE + 16, LOGFILE_NO_CLIENT); (2%nat, ra + ca + used * CLIENT_SIZE + 18, LOGFILE_NO_CLIENT)].

(** The checks read too far on two kinds of pages: in 512 bytes, the fields of
    a restart area at byte 480 whose client array begins inside it; and in a whole
    page of 4096 bytes, the record of a client in use, 16000 bytes behind the
    array's begin, since the length of an array of 2048 clients is 0 in 16 bits. *)
Theorem restart_page_overreads :
  (exists rp, wf_bytes rp /\ zlen rp = 512 /\ ntfs_check_restart_page_header rp 0 = Some true /\
     restart_area_offset rp = Some 480 /\ ntfs_check_restart_area rp = None) /\
  (exists rp, wf_bytes rp /\ zlen rp = 4096 /\ system_page_size rp = Some 4096 /\ ntfs_check_restart_page_header rp 0 = Some true /\
     ntfs_check_restart_area rp = Some true /\ restart_area_offset rp = Some 48 /\ client_array_offset rp 48 = Some 48 /\
     client_in_use_list rp 48 = Some 100 /\ ntfs_check_log_client_array rp = None).
Proof.
  split.
  - exists (sample_page 512 4096 480 0 1 LOGFILE_NO_CLIENT 0 160). split; [wf_concrete|]. by vm_compute.
  - exists (sample_page 4096 4096 48 48 2048 100 0 48). split; [wf_concrete|]. by vm_compute.
Qed.

(** ** Witnesses *)

Lemma sample_benign ca clients : ca + clients * CLIENT_SIZE < 2 ^ 16 -> forall rp, restart_area_offset rp = Some 48 -> client_array_offset rp 48 = Some ca -> log_clients rp 48 = Some clients -> benign_page rp.
Proof. intros H rp E1 E2 E3 ra ca' cl' F1 F2 F3. assert (ra = 48) as -> by congruence. assert (ca' = ca) as -> by congruence. assert (cl' = clients) as -> by congruence. done. Qed.

Lemma restart_page_checks_witness :
  let rp := sample_page 512 512 48 48 1 0 2 208 in
  ntfs_check_restart_page_header rp 512 = Some true /\ benign_page rp /\
  exists h, ntfs_check_restart_page_header rp 512 = Some h /\
  (h = true -> benign_page rp -> exists a, ntfs_check_restart_area rp = Some a /\
    (a = true -> system_page_size rp = Some (zlen rp) -> exists ra ca clients free used b, restart_area_offset rp = Some ra /\
       client_array_offset rp ra = Some ca /\ log_clients rp ra = Some clients /\ client_free_list rp ra = Some free /\ client_in_use_list rp ra = Some used /\
       ntfs_check_log_client_array rp = Some b /\
       (b = true <-> exists l1 l2, chain rp (ra + ca) clients free l1 /\ chain rp (ra + ca) clients used l2 /\
          is_first rp (ra + ca) l1 /\ is_first rp (ra + ca) l2 /\ zlen l1 + zlen l2 <= clients))).
Proof.
  intros rp. split; [vm_compute; reflexivity|]. split.
  - apply (sample_benign 48 1); [vm_compute; reflexivity..].
  - apply restart_page_checks; [wf_concrete | vm_compute; discriminate].
Defined.

(** A journal with one restart page, empty behind it. *)
Definition sample_journal : list Z := sample_page 512 512 48 48 1 0 2 208 ++ replicate (Z.to_nat (204800 - 512)) 255.

Lemma sample_journal_wf : wf_bytes sample_journal.
Proof. apply Forall_app. split; [wf_concrete | apply Forall_replicate; split; [lia | done]]. Qed.

Lemma sample_journal_benign : benign sample_journal.
Proof.
  intros pos block Hp Hl Hh Hhd. pose proof (place_nonneg _ Hp) as Hp0. set (page := sample_page 512 512 48 48 1 0 2 208) in *. assert (zlen page = 512) as Hz by done.
  destruct (Z.le_gt_cases 512 pos) as [Hge|Hlt].
  - assert (block = replicate 512 255) as ->; [|exfalso; clear -Hhd; vm_compute in Hhd; discriminate Hhd]. apply zget_ext. intros j Hj. destruct (Z.lt_ge_cases j 512).
    + rewrite <-Hh by lia. change sample_journal with (page ++ replicate (Z.to_nat (204800 - 512)) 255). rewrite zget_app_r by (rewrite Hz; lia).
      destruct (zget_inside block j) as [x Hx]; [lia|]. rewrite <-Hh in Hx by lia. apply zget_bounds in Hx. change sample_journal with (page ++ replicate (Z.to_nat (204800 - 512)) 255) in Hx. rewrite zlen_app, Hz in Hx.
      transitivity (Some 255); [|symmetry]; unfold zget.
      * destruct (Z.ltb_spec (pos + j - zlen page) 0); [lia|]. apply lookup_replicate_2. unfold zlen in *. rewrite length_replicate in Hx. lia.
      * destruct (Z.ltb_spec j 0); [lia|]. apply lookup_replicate_2. lia.
    + rewrite !zget_outside; [done | right; rewrite zlen_replicate; lia | lia].
  - assert (pos = 0) as -> by (destruct Hp as [->|(k & ->)]; [done | lia]).
    assert (zread page 0 (zlen block) = Some block) as Er.
    { apply holds_zread; [|done | lia]. intros j Hj. rewrite <-Hh by done. change sample_journal with (page ++ replicate (Z.to_nat (204800 - 512)) 255). by rewrite zget_app_l by (rewrite Hz; lia). }
    rewrite Hl in Er. vm_compute in Er; injection Er as <-.
    clear. refine (sample_benign 48 1 _ _ _ _ _); [done|vm_compute; reflexivity..].
Qed.

Lemma volume_check_safe_witness : wf_bytes sample_journal /\ benign sample_journal /\
  exists s' r, volume_check_logfile (fun _ => true) EIO (Log sample_journal false) = Some (s', r) /\ attr_data (log_na s') = sample_journal /\
  (r = Ok tt -> false = true \/
    (log_empty s' = true /\ forall q, place q -> q < searched_size (zlen sample_journal) -> empty_at sample_journal q) \/
    (exists found stop page, searched (A := list Z) (fun _ => true) EIO sample_journal (searched_size (zlen sample_journal)) found stop /\ newest found.*2 page /\
       clean_page page.1 /\ ~ cached_version page.1)).
Proof.
  split; [exact sample_journal_wf|]. split; [exact sample_journal_benign|].
  generalize sample_journal_wf, sample_journal_benign. generalize sample_journal. intros m Hw Hb.
  exact (volume_check_safe (fun _ => true) EIO (Log m false) Hw Hb).
Defined.

Lemma sample_journal_size : zlen sample_journal = 50 * 4096.
Proof. unfold sample_journal. rewrite zlen_app, zlen_replicate. change (zlen (sample_page 512 512 48 48 1 0 2 208)) with 512. lia. Qed.

Lemma emptied_journal_clean_witness :
  exists na1 na2, ntfs_empty_logfile (fun _ => true) (S (Z.to_nat (zlen sample_journal))) (Log sample_journal false) = Some (Log na1 true, Ok tt) /\
    filled (attr_data na1) (zlen sample_journal) /\ zlen (attr_data na1) = zlen sample_journal /\
    volume_check_logfile (fun _ => true) EIO (Log na1 false) = Some (Log na2 true, Ok tt) /\ attr_data na2 = attr_data na1.
Proof.
  generalize sample_journal_size. generalize sample_journal. intros m Hm.
  refine (emptied_journal_clean (fun _ => true) EIO (S (Z.to_nat (zlen m))) (Log m false) _ _ _ _).
  - reflexivity.
  - apply Nat.lt_succ_diag_r.
  - apply Z.eq_le_incl. symmetry. exact Hm.
  - reflexivity.
Defined.
