(* ===== verification/Unicode.v ===== *)
(** File name conversions (libntfs-3g/unistr.c, first half): UTF-16 as stored
    in NTFS to UTF-8 and back, in the default configuration
    (ALLOW_BROKEN_UNICODE, UTF-8 locale).

    A UTF-16 string is the list of its 16-bit units in cpu order, a UTF-8
    string the list of its bytes. *)

From S2P Require Import Prelude.
Local Open Scope Z_scope.
Local Open Scope c_scope.

Definition PATH_MAX : Z := 4096.

(** ** UTF-16 to UTF-8 *)

(** The loop of utf16_to_utf8_size; a unit that does not complete a pair is
    looked at again ([--i; continue]). *)
Fixpoint size_loop (fuel : nat) (ins : list Z) (ins_len outs_len i count : Z) (surrog : bool) : option (result (Z * bool)) :=
  match fuel with
  | O => None
  | S f =>
      if negb (i <? ins_len) then Some (Ok (count, surrog))
      else
        c ← ins.[i];
        if (c =? 0) || negb (count <=? outs_len) then Some (Ok (count, surrog))
        else if surrog then
          if (0xdc00 <=? c) && (c <? 0xe000) then size_loop f ins ins_len outs_len (i + 1) (count + 4) false
          else size_loop f ins ins_len outs_len i (count + 3) false
        else if c <? 0x80 then size_loop f ins ins_len outs_len (i + 1) (count + 1) false
        else if c <? 0x800 then size_loop f ins ins_len outs_len (i + 1) (count + 2) false
        else if c <? 0xd800 then size_loop f ins ins_len outs_len (i + 1) (count + 3) false
        else if c <? 0xdc00 then size_loop f ins ins_len outs_len (i + 1) count true
        else if c <? 0xe000 then size_loop f ins ins_len outs_len (i + 1) (count + 3) false
        else if 0xe000 <=? c then size_loop f ins ins_len outs_len (i + 1) (count + 3) false
        else Some (Err EILSEQ)
  end.

Definition conv_fuel (ins_len : Z) : nat := S (2 * Z.to_nat ins_len).

(** [count] stays at most outs_len + 4, so the int does not wrap for an outs_len
    of a buffer in memory. *)
Definition utf16_to_utf8_size (ins : list Z) (ins_len outs_len : Z) : option (result Z) :=
  r ← size_loop (conv_fuel ins_len) ins ins_len outs_len 0 0 false;
  match r with
  | Err e => Some (Err e)
  | Ok (count, surrog) =>
      let count := if surrog && (count <=? outs_len) then count + 3 else count in
      if outs_len <? count then Some (Err ENAMETOOLONG) else Some (Ok count)
  end.

(** The bytes of a unit on its own, three bytes when not below 0x800. *)
Definition two_bytes (c : Z) : list Z := [Z.lor 0xc0 (Z.land (Z.shiftr c 6) 0x3f); Z.lor 0x80 (Z.land c 0x3f)].
Definition three_bytes (c : Z) : list Z :=
  [Z.lor 0xe0 (Z.shiftr c 12); Z.lor 0x80 (Z.land (Z.shiftr c 6) 0x3f); Z.lor 0x80 (Z.land c 0x3f)].
Definition pair_bytes (halfpair c : Z) : list Z :=
  [0xf0 + Z.land (Z.shiftr (halfpair + 64) 8) 7; 0x80 + Z.land (Z.shiftr (halfpair + 64) 2) 63;
   0x80 + Z.land (Z.shiftr c 6) 15 + Z.shiftl (Z.land halfpair 3) 4; 0x80 + Z.land c 63].

(** The converting loop: the output buffer, the position [t] in it and the
    pending first half of a pair. *)
Fixpoint encode_loop (fuel : nat) (ins : list Z) (ins_len i halfpair : Z) (buf : list Z) (t : Z)
    : option (result (list Z * Z * Z)) :=
  match fuel with
  | O => None
  | S f =>
      let put bs i halfpair := buf ← zwrite buf t bs; encode_loop f ins ins_len i halfpair buf (t + zlen bs) in
      if negb (i <? ins_len) then Some (Ok (buf, t, halfpair))
      else
        c ← ins.[i];
        if c =? 0 then Some (Ok (buf, t, halfpair))
        else if negb (halfpair =? 0) then
          if (0xdc00 <=? c) && (c <? 0xe000) then put (pair_bytes halfpair c) (i + 1) 0
          else put (three_bytes halfpair) i 0
        else if c <? 0x80 then put [c] (i + 1) 0
        else if c <? 0x800 then put (two_bytes c) (i + 1) 0
        else if c <? 0xd800 then put (three_bytes c) (i + 1) 0
        else if c <? 0xdc00 then put [] (i + 1) c
        else if c <? 0xe000 then put (three_bytes c) (i + 1) 0
        else if 0xe000 <=? c then put (three_bytes c) (i + 1) 0
        else Some (Err EILSEQ)
  end.

(** [outs]: the caller's buffer, or [None] for NULL, in which case one of the
    right size is allocated.  The result is the buffer and the length. *)
Definition ntfs_utf16_to_utf8 (ins : list Z) (ins_len : Z) (outs : option (list Z)) (outs_len : Z)
    : option (result (list Z * Z)) :=
  let outs_len := match outs with None => PATH_MAX | Some _ => outs_len end in
  size ← utf16_to_utf8_size ins ins_len (outs_len - 1);
  match size with
  | Err e => Some (Err e)
  | Ok size =>
      let buf := match outs with None => replicate (Z.to_nat (size + 1)) 0 | Some b => b end in
      r ← encode_loop (conv_fuel ins_len) ins ins_len 0 0 buf 0;
      match r with
      | Err e => Some (Err e)
      | Ok (buf, t, halfpair) =>
          let bs := if negb (halfpair =? 0) then three_bytes halfpair else [] in
          buf ← zwrite buf t bs;
          let t := t + zlen bs in
          buf ← zset buf t 0;
          Some (Ok (buf, t))
      end
  end.

(** ** UTF-8 to UTF-16 *)

(** [break] ends the count without an error. *)
Fixpoint size16_loop (fuel : nat) (s : list Z) (p count : Z) : option (result Z) :=
  match fuel with
  | O => None
  | S f =>
      byte ← s.[p];
      let p := p + 1 in
      if byte =? 0 then Some (Ok count)
      else
        let count := count + 1 in
        if PATH_MAX <=? count then Some (Err ENAMETOOLONG)
        else if 0xc0 <=? byte then
          if 0xF5 <=? byte then Some (Err EILSEQ)
          else
            x ← s.[p];
            if x =? 0 then Some (Ok count)
            else
              let p := if 0xC0 <=? byte then p + 1 else p in
              x ← s.[p];
              if x =? 0 then Some (Ok count)
              else
                let p := if 0xE0 <=? byte then p + 1 else p in
                x ← s.[p];
                if x =? 0 then Some (Ok count)
                else if 0xF0 <=? byte then
                  let count := count + 1 in
                  if PATH_MAX <=? count then Some (Err ENAMETOOLONG) else size16_loop f s (p + 1) count
                else size16_loop f s p count
        else size16_loop f s p count
  end.

Definition utf8_to_utf16_size (s : list Z) : option (result Z) := size16_loop (length s) s 0 0.

Definition is_cont (b : Z) : bool := Z.land b 0xC0 =? 0x80.

(** The number of bytes used and the value; the later bytes are read only when
    the earlier ones continue the sequence. *)
Definition utf8_to_unicode (s : list Z) (t : Z) : option (result (Z * Z)) :=
  byte ← s.[t];
  if byte =? 0 then Some (Ok (0, 0))
  else if byte <? 0x80 then Some (Ok (1, byte))
  else if byte <? 0xc2 then Some (Err EILSEQ)
  else if byte <? 0xE0 then
    s1 ← s.[t + 1];
    if is_cont s1 then Some (Ok (2, Z.lor (Z.shiftl (Z.land byte 0x1F) 6) (Z.land s1 0x3F))) else Some (Err EILSEQ)
  else if byte <? 0xF0 then
    s1 ← s.[t + 1];
    if negb (is_cont s1) then Some (Err EILSEQ)
    else
      s2 ← s.[t + 2];
      if negb (is_cont s2) then Some (Err EILSEQ)
      else
        let wc := Z.lor (Z.lor (Z.shiftl (Z.land byte 0x0F) 12) (Z.shiftl (Z.land s1 0x3F) 6)) (Z.land s2 0x3F) in
        if ((0x800 <=? wc) && (wc <=? 0xD7FF)) || ((0xD800 <=? wc) && (wc <=? 0xDFFF)) || ((0xe000 <=? wc) && (wc <=? 0xFFFF))
        then Some (Ok (3, wc)) else Some (Err EILSEQ)
  else if byte <? 0xF5 then
    s1 ← s.[t + 1];
    if negb (is_cont s1) then Some (Err EILSEQ)
    else
      s2 ← s.[t + 2];
      if negb (is_cont s2) then Some (Err EILSEQ)
      else
        s3 ← s.[t + 3];
        if negb (is_cont s3) then Some (Err EILSEQ)
        else
          let wc := Z.lor (Z.lor (Z.lor (Z.shiftl (Z.land byte 0x07) 18) (Z.shiftl (Z.land s1 0x3F) 12))
                       (Z.shiftl (Z.land s2 0x3F) 6)) (Z.land s3 0x3F) in
          if (wc <=? 0x10ffff) && (0x10000 <=? wc) then Some (Ok (4, wc)) else Some (Err EILSEQ)
  else Some (Err EILSEQ).

(** The units stored for one character. *)
Definition units_of (wc : Z) : list Z :=
  if wc <? 0x10000 then [u16 wc]
  else
    let wc := wc - 0x10000 in
    [u16 (Z.shiftr wc 10 + 0xd800); u16 (Z.land wc 0x3ff + 0xdc00)].

Fixpoint decode_loop (fuel : nat) (ins : list Z) (t : Z) (buf : list Z) (outpos : Z) : option (result (list Z * Z)) :=
  match fuel with
  | O => None
  | S f =>
      r ← utf8_to_unicode ins t;
      match r with
      | Err e => Some (Err e)
      | Ok (m, wc) =>
          if m =? 0 then buf ← zset buf outpos 0; Some (Ok (buf, outpos + 1))
          else
            buf ← zwrite buf outpos (units_of wc);
            decode_loop f ins (t + m) buf (outpos + zlen (units_of wc))
      end
  end.

(** The result is the buffer and the number of units before the terminator. *)
Definition ntfs_utf8_to_utf16 (ins : list Z) (outs : option (list Z)) : option (result (list Z * Z)) :=
  shorts ← utf8_to_utf16_size ins;
  match shorts with
  | Err e => Some (Err e)
  | Ok shorts =>
      let buf := match outs with None => replicate (Z.to_nat (shorts + 1)) 0 | Some b => b end in
      r ← decode_loop (length ins) ins 0 buf 0;
      match r with
      | Err e => Some (Err e)
      | Ok (buf, outpos) => Some (Ok (buf, outpos - 1))
      end
  end.

(** The entry points: NULL arguments and an empty buffer are refused, then the
    UTF-8 converters run. *)
Definition ntfs_ucstombs (ins : option (list Z)) (ins_len : Z) (outs : option (option (list Z))) (outs_len : Z)
    : option (result (list Z * Z)) :=
  match ins, outs with
  | Some ins, Some mbs =>
      if bool_decide (is_Some mbs) && (outs_len =? 0) then Some (Err ENAMETOOLONG)
      else ntfs_utf16_to_utf8 ins ins_len mbs outs_len
  | _, _ => Some (Err EINVAL)
  end.

Definition ntfs_mbstoucs (ins : option (list Z)) (outs : option (option (list Z))) : option (result (list Z * Z)) :=
  match ins, outs with
  | Some ins, Some outs => ntfs_utf8_to_utf16 ins outs
  | _, _ => Some (Err EINVAL)
  end.

Definition NTFS_MAX_NAME_LEN : Z := 255.

(** A name of at most 255 units; [len0] is the caller's length, used when there
    is no string, and the empty name is AT_UNNAMED. *)
Definition ntfs_str2ucs (s : option (list Z)) (len0 : Z) : option (result (list Z * Z)) :=
  r ← match s with
      | None => Some (Ok (None, len0))
      | Some _ =>
          r ← ntfs_mbstoucs s (Some None);
          match r with Err e => Some (Err e) | Ok (ucs, len) => Some (Ok (Some ucs, len)) end
      end;
  match r with
  | Err e => Some (Err e)
  | Ok (ucs, len) =>
      if NTFS_MAX_NAME_LEN <? len then Some (Err ENAMETOOLONG)
      else match ucs with
           | Some ucs => if len =? 0 then Some (Ok ([], 0)) else Some (Ok (ucs, len))
           | None => Some (Ok ([], 0))
           end
  end.

(** ** The encodings, by code point (RFC 3629, RFC 2781) *)

Definition is_high (c : Z) : bool := (0xd800 <=? c) && (c <? 0xdc00).
Definition is_low (c : Z) : bool := (0xdc00 <=? c) && (c <? 0xe000).

(** The code points of a string; a surrogate without its partner stands for
    itself. *)
Fixpoint codepoints (s : list Z) : list Z :=
  match s with
  | [] => []
  | c :: s' =>
      match s' with
      | l :: s'' => if is_high c && is_low l then 0x10000 + (c - 0xd800) * 1024 + (l - 0xdc00) :: codepoints s''
                    else c :: codepoints s'
      | [] => [c]
      end
  end.

Definition utf8 (cp : Z) : list Z :=
  if cp <? 0x80 then [cp]
  else if cp <? 0x800 then [0xc0 + cp / 64; 0x80 + cp mod 64]
  else if cp <? 0x10000 then [0xe0 + cp / 4096; 0x80 + (cp / 64) mod 64; 0x80 + cp mod 64]
  else [0xf0 + cp / 262144; 0x80 + (cp / 4096) mod 64; 0x80 + (cp / 64) mod 64; 0x80 + cp mod 64].

Definition utf16 (cp : Z) : list Z :=
  if cp <? 0x10000 then [cp] else [0xd800 + (cp - 0x10000) / 1024; 0xdc00 + (cp - 0x10000) mod 1024].

Definition utf8_string (s : list Z) : list Z := flat_map utf8 (codepoints s).

Definition is_unit (c : Z) : Prop := 0 < c < 65536.
Definition is_codepoint (cp : Z) : Prop := 0 < cp <= 0x10ffff.

(** ** Bits *)

Ltac bits :=
  rewrite ?(land_ones' _ 0x3f 6), ?(land_ones' _ 7 3), ?(land_ones' _ 15 4), ?(land_ones' _ 0x1f 5), ?(land_ones' _ 3 2),
    ?(land_ones' _ 0x3ff 10) by done;
  rewrite ?Z.shiftr_div_pow2, ?Z.shiftl_mul_pow2 by done;
  change (2 ^ 2) with 4; change (2 ^ 3) with 8; change (2 ^ 4) with 16; change (2 ^ 5) with 32; change (2 ^ 6) with 64;
  change (2 ^ 8) with 256; change (2 ^ 10) with 1024; change (2 ^ 12) with 4096; change (2 ^ 18) with 262144.

Ltac bytes_eq :=
  repeat match goal with |- ?a :: _ = ?b :: _ => replace a with b by divlia; apply (f_equal (cons b)) end; done.

Lemma two_bytes_utf8 c : 0x80 <= c < 0x800 -> two_bytes c = utf8 c.
Proof.
  intros Hc. unfold two_bytes, utf8. bits.
  rewrite (proj2 (Z.ltb_ge c 0x80)), (proj2 (Z.ltb_lt c 0x800)) by lia.
  rewrite (lor_add 0xc0 _ 6), (lor_add 0x80 _ 6) by (done || divlia).
  bytes_eq.
Qed.

Lemma three_bytes_utf8 c : 0x800 <= c < 0x10000 -> three_bytes c = utf8 c.
Proof.
  intros Hc. unfold three_bytes, utf8. bits.
  rewrite (proj2 (Z.ltb_ge c 0x80)), (proj2 (Z.ltb_ge c 0x800)), (proj2 (Z.ltb_lt c 0x10000)) by lia.
  rewrite (lor_add 0xe0 _ 4), !(lor_add 0x80 _ 6) by (done || divlia).
  bytes_eq.
Qed.

Lemma pair_bytes_utf8 h c : is_high h = true -> is_low c = true ->
  pair_bytes h c = utf8 (0x10000 + (h - 0xd800) * 1024 + (c - 0xdc00)).
Proof.
  intros [Hh1 Hh2]%andb_true_iff [Hc1 Hc2]%andb_true_iff. unfold pair_bytes, utf8. bits.
  rewrite (proj2 (Z.ltb_ge _ 0x80)), (proj2 (Z.ltb_ge _ 0x800)), (proj2 (Z.ltb_ge _ 0x10000)) by lia.
  bytes_eq.
Qed.

(** ** The converting loops *)

(** From index [i], the string is [rest] and ends at ins_len or at a NUL. *)
Definition text (ins : list Z) (ins_len i : Z) (rest : list Z) : Prop :=
  0 <= i /\ Forall is_unit rest /\ holds ins i rest /\
  (i + zlen rest = ins_len \/ i + zlen rest < ins_len /\ ins.[i + zlen rest] = Some 0).

Lemma text_nil ins ins_len i : text ins ins_len i [] -> (i <? ins_len) = false \/ (i <? ins_len) = true /\ ins.[i] = Some 0.
Proof.
  intros (_ & _ & _ & H). rewrite (@zlen_nil Z), Z.add_0_r in H.
  destruct H as [->|[H1 H2]]; [left; apply Z.ltb_irrefl | right; split; [by apply Z.ltb_lt | done]].
Qed.

Lemma text_cons ins ins_len i c rest : text ins ins_len i (c :: rest) ->
  (i <? ins_len) = true /\ ins.[i] = Some c /\ (c =? 0) = false /\ is_unit c /\ text ins ins_len (i + 1) rest.
Proof.
  intros (Hi & [Hc Hr]%Forall_cons & [Hg Hh]%holds_cons & H). rewrite zlen_cons in H. pose proof (zlen_nonneg rest).
  unfold is_unit in Hc. split_and!; try done; try lia.
  split_and!; [lia | done | done |]. replace (i + 1 + zlen rest) with (i + (zlen rest + 1)) by lia.
  destruct H as [|[]]; [by left | by right].
Qed.

Definition pend (h : Z) : list Z := if h =? 0 then [] else [h].
Definition flush (h : Z) : list Z := if negb (h =? 0) then three_bytes h else [].

Definition starts_low (s : list Z) : bool := match s with l :: _ => is_low l | [] => false end.

Lemma cps_alone c s : is_high c && starts_low s = false -> codepoints (c :: s) = c :: codepoints s.
Proof. destruct s as [|l s]; cbn; [done|]. by intros ->. Qed.

Lemma cps_pair h l s : is_high h = true -> is_low l = true ->
  codepoints (h :: l :: s) = 0x10000 + (h - 0xd800) * 1024 + (l - 0xdc00) :: codepoints s.
Proof. cbn. by intros -> ->. Qed.

Lemma zlen_utf8 cp : zlen (utf8 cp) = if cp <? 0x80 then 1 else if cp <? 0x800 then 2 else if cp <? 0x10000 then 3 else 4.
Proof. unfold utf8. by repeat destruct (_ <? _). Qed.

Lemma utf8_string_alone c s : is_high c && starts_low s = false -> utf8_string (c :: s) = utf8 c ++ utf8_string s.
Proof. intros H. unfold utf8_string. by rewrite cps_alone. Qed.

Lemma utf8_string_pair h l s : is_high h = true -> is_low l = true ->
  utf8_string (h :: l :: s) = pair_bytes h l ++ utf8_string s.
Proof. intros Hh Hl. unfold utf8_string. rewrite cps_pair by done. cbn [flat_map]. by rewrite pair_bytes_utf8. Qed.

(** One unit that is not the first half of a pair. *)
Definition unit_bytes (c : Z) : list Z :=
  if c <? 0x80 then [c] else if c <? 0x800 then two_bytes c else three_bytes c.

Lemma unit_bytes_utf8 c : is_unit c -> unit_bytes c = utf8 c.
Proof.
  unfold is_unit, unit_bytes. intros Hc. destruct (Z.ltb_spec c 0x80) as [H1|H1].
  - unfold utf8. by rewrite (proj2 (Z.ltb_lt c 0x80)).
  - destruct (Z.ltb_spec c 0x800); [apply two_bytes_utf8; lia | apply three_bytes_utf8; lia].
Qed.

(** What one step of the loop does, by the kind of unit. *)
Lemma encode_step f ins ins_len i h buf t c rest : text ins ins_len i (c :: rest) -> (h = 0 \/ is_high h = true) ->
  encode_loop (S f) ins ins_len i h buf t =
    if negb (h =? 0) then
      if is_low c then buf ← zwrite buf t (pair_bytes h c); encode_loop f ins ins_len (i + 1) 0 buf (t + 4)
      else buf ← zwrite buf t (three_bytes h); encode_loop f ins ins_len i 0 buf (t + 3)
    else if is_high c then buf ← zwrite buf t []; encode_loop f ins ins_len (i + 1) c buf (t + 0)
    else buf ← zwrite buf t (unit_bytes c); encode_loop f ins ins_len (i + 1) 0 buf (t + zlen (unit_bytes c)).
Proof.
  intros (H1 & H2 & H3 & Hc & _)%text_cons Hh. cbn [encode_loop]. rewrite H1, H2. cbn [negb mbind option_bind]. rewrite H3.
  destruct (negb (h =? 0)); [done|]. unfold is_high, unit_bytes, is_unit in *.
  destruct (Z.ltb_spec c 0x80); [by rewrite (proj2 (Z.leb_gt 0xd800 c)) by lia|].
  destruct (Z.ltb_spec c 0x800); [by rewrite (proj2 (Z.leb_gt 0xd800 c)) by lia|].
  destruct (Z.ltb_spec c 0xd800); [by rewrite (proj2 (Z.leb_gt 0xd800 c)) by lia|].
  rewrite (proj2 (Z.leb_le 0xd800 c)) by lia. cbn [andb]. destruct (c <? 0xdc00); [done|].
  destruct (Z.ltb_spec c 0xe000); [done|]. by rewrite (proj2 (Z.leb_le 0xe000 c)) by lia.
Qed.

Lemma size_step f ins ins_len outs_len i count h c rest : text ins ins_len i (c :: rest) ->
  (h = 0 \/ is_high h = true) -> count <= outs_len ->
  size_loop (S f) ins ins_len outs_len i count (negb (h =? 0)) =
    if negb (h =? 0) then
      if is_low c then size_loop f ins ins_len outs_len (i + 1) (count + 4) false
      else size_loop f ins ins_len outs_len i (count + 3) false
    else if is_high c then size_loop f ins ins_len outs_len (i + 1) count true
    else size_loop f ins ins_len outs_len (i + 1) (count + zlen (unit_bytes c)) false.
Proof.
  intros (H1 & H2 & H3 & Hc & _)%text_cons Hh Hcount. cbn [size_loop]. rewrite H1, H2. cbn [negb mbind option_bind].
  rewrite H3, (proj2 (Z.leb_le _ _) Hcount). cbn [negb orb].
  destruct (negb (h =? 0)); [done|]. unfold is_high, unit_bytes, is_unit in *.
  destruct (Z.ltb_spec c 0x80); [by rewrite (proj2 (Z.leb_gt 0xd800 c)) by lia|].
  destruct (Z.ltb_spec c 0x800); [by rewrite (proj2 (Z.leb_gt 0xd800 c)) by lia|].
  destruct (Z.ltb_spec c 0xd800); [by rewrite (proj2 (Z.leb_gt 0xd800 c)) by lia|].
  rewrite (proj2 (Z.leb_le 0xd800 c)) by lia. cbn [andb]. destruct (c <? 0xdc00); [done|].
  destruct (Z.ltb_spec c 0xe000); [done|]. by rewrite (proj2 (Z.leb_le 0xe000 c)) by lia.
Qed.

Lemma high_nonzero h : is_high h = true -> (h =? 0) = false.
Proof. intros [H _]%andb_true_iff. lia. Qed.

Lemma high_three h : is_high h = true -> three_bytes h = utf8 h.
Proof. intros [H1 H2]%andb_true_iff. apply three_bytes_utf8. lia. Qed.

Lemma encode_loop_spec fuel ins ins_len i h buf t rest :
  text ins ins_len i rest -> (h = 0 \/ is_high h = true) -> 0 <= t ->
  t + zlen (utf8_string (pend h ++ rest)) <= zlen buf -> 2 * zlen rest + (if h =? 0 then 0 else 1) < Z.of_nat fuel ->
  exists buf' t' h' bs, encode_loop fuel ins ins_len i h buf t = Some (Ok (buf', t', h')) /\
    utf8_string (pend h ++ rest) = bs ++ flush h' /\ zwrite buf t bs = Some buf' /\ t' = t + zlen bs.
Proof.
  revert i h buf t rest; induction fuel as [|f IH]; intros i h buf t rest Ht Hh Ht0 Hbuf Hf; [pose proof (zlen_nonneg rest); destruct (h =? 0); lia|].
  assert (forall bs i' h' r' fl, utf8_string (pend h ++ rest) = bs ++ utf8_string (pend h' ++ r') -> text ins ins_len i' r' ->
    (h' = 0 \/ is_high h' = true) -> 2 * zlen r' + (if h' =? 0 then 0 else 1) < Z.of_nat f -> zlen bs = fl ->
    exists buf' t' h'' bs', (buf ← zwrite buf t bs; encode_loop f ins ins_len i' h' buf (t + fl)) = Some (Ok (buf', t', h'')) /\
      utf8_string (pend h ++ rest) = bs' ++ flush h'' /\ zwrite buf t bs' = Some buf' /\ t' = t + zlen bs') as Hput.
  { intros bs i' h' r' fl Heq Ht' Hh' Hf' <-. rewrite Heq, zlen_app in Hbuf. pose proof (zlen_nonneg (utf8_string (pend h' ++ r'))).
    pose proof (zlen_nonneg bs). destruct (zwrite buf t bs) as [b1|] eqn:E; [|rewrite zwrite_inside in E by lia; done].
    cbn [mbind option_bind]. pose proof (zwrite_Some _ _ _ _ E) as (_ & _ & Hl & _).
    destruct (IH i' h' b1 (t + zlen bs) r') as (buf' & t' & h'' & bs' & -> & Hbs & Hw & ->); [done | done | lia | lia | done |].
    exists buf', (t + zlen bs + zlen bs'), h'', (bs ++ bs'). rewrite Heq, Hbs, app_assoc, zlen_app. split_and!; [done | done | by eapply zwrite_app | lia]. }
  destruct rest as [|c rest].
  { pose proof (zlen_nonneg (utf8_string (pend h ++ []))). exists buf, t, h, [].
    rewrite app_nil_r, (@zlen_nil Z), Z.add_0_r in *. split_and!; [| | apply zwrite_nil; lia | done].
    - cbn [encode_loop]. destruct (text_nil _ _ _ Ht) as [->|[-> ->]]; done.
    - unfold flush, pend. destruct Hh as [->|Hh]; [done|]. rewrite high_nonzero by done. cbn [negb app]. unfold utf8_string. cbn.
      by rewrite app_nil_r, high_three. }
  rewrite (encode_step _ _ _ _ _ _ _ _ _ Ht Hh). destruct (text_cons _ _ _ _ _ Ht) as (_ & _ & _ & Hc & Ht').
  rewrite zlen_cons in Hf. destruct Hh as [->|Hh].
  - cbn [Z.eqb negb] in *. destruct (is_high c) eqn:Hhc.
    + apply (Hput [] (i + 1) c rest); [| done | by right | rewrite (high_nonzero c) by done; lia | done].
      unfold pend. by rewrite (high_nonzero c) by done.
    + apply (Hput _ (i + 1) 0 rest); [| done | by left | cbn; lia | done]. cbn [pend Z.eqb app].
      rewrite unit_bytes_utf8 by done. apply utf8_string_alone. by rewrite Hhc.
  - assert (pend h = [h]) as Hp by (unfold pend; by rewrite high_nonzero). rewrite Hp in *. rewrite high_nonzero in * by done.
    cbn [negb app]. destruct (is_low c) eqn:Hlc.
    + apply (Hput _ (i + 1) 0 rest); [| done | by left | cbn; lia | done]. cbn [pend Z.eqb app]. by apply utf8_string_pair.
    + apply (Hput _ i 0 (c :: rest)); [| done | by left | cbn [Z.eqb]; rewrite zlen_cons; lia | done]. cbn [pend Z.eqb app].
      rewrite high_three by done. apply utf8_string_alone. cbn [starts_low]. by rewrite Hlc, andb_false_r.
Qed.

(** The computed size, and the pending surrogate, for a result that may have
    stopped early because it is too long. *)
Definition final_size (outs_len count : Z) (surrog : bool) : Z :=
  if surrog && (count <=? outs_len) then count + 3 else count.

Lemma size_loop_spec fuel ins ins_len outs_len i h count rest :
  text ins ins_len i rest -> (h = 0 \/ is_high h = true) ->
  2 * zlen rest + (if h =? 0 then 0 else 1) < Z.of_nat fuel ->
  exists count' surrog', size_loop fuel ins ins_len outs_len i count (negb (h =? 0)) = Some (Ok (count', surrog')) /\
    let total := count + zlen (utf8_string (pend h ++ rest)) in
    if total <=? outs_len then final_size outs_len count' surrog' = total
    else outs_len < final_size outs_len count' surrog'.
Proof.
  revert i h count rest; induction fuel as [|f IH]; intros i h count rest Ht Hh Hf; [pose proof (zlen_nonneg rest); destruct (h =? 0); lia|].
  cbv zeta. pose proof (zlen_nonneg (utf8_string (pend h ++ rest))) as Hnn.
  destruct (Z.le_gt_cases count outs_len) as [Hco|Hco].
  2: { exists count, (negb (h =? 0)). assert (final_size outs_len count (negb (h =? 0)) = count) as ->.
       { unfold final_size. by rewrite (proj2 (Z.leb_gt count outs_len)), andb_false_r by lia. }
       rewrite (proj2 (Z.leb_gt _ outs_len)) by lia. split; [|done]. cbn [size_loop]. destruct rest as [|c rest].
       - destruct (text_nil _ _ _ Ht) as [->|[-> ->]]; [done|]. cbn. done.
       - destruct (text_cons _ _ _ _ _ Ht) as (-> & -> & H3 & _). cbn [negb mbind option_bind].
         rewrite H3, (proj2 (Z.leb_gt count outs_len)) by lia. done. }
  destruct rest as [|c rest].
  { exists count, (negb (h =? 0)). rewrite app_nil_r in *. split.
    - cbn [size_loop]. destruct (text_nil _ _ _ Ht) as [->|[-> ->]]; done.
    - unfold final_size. rewrite (proj2 (Z.leb_le count outs_len)), andb_true_r by lia. unfold pend. destruct Hh as [->|Hh].
      + cbn [Z.eqb negb]. change (zlen (utf8_string [])) with 0. rewrite Z.add_0_r. by rewrite (proj2 (Z.leb_le count outs_len)).
      + rewrite (high_nonzero h) by done. cbn [negb]. unfold utf8_string. cbn [codepoints flat_map].
        rewrite app_nil_r, <-high_three by done. change (zlen (three_bytes h)) with 3. destruct (Z.leb_spec (count + 3) outs_len); lia. }
  assert (forall k i' h' r', zlen (utf8_string (pend h ++ c :: rest)) = k + zlen (utf8_string (pend h' ++ r')) ->
    text ins ins_len i' r' -> (h' = 0 \/ is_high h' = true) -> 2 * zlen r' + (if h' =? 0 then 0 else 1) < Z.of_nat f ->
    exists count' surrog', size_loop f ins ins_len outs_len i' (count + k) (negb (h' =? 0)) = Some (Ok (count', surrog')) /\
      if count + zlen (utf8_string (pend h ++ c :: rest)) <=? outs_len
      then final_size outs_len count' surrog' = count + zlen (utf8_string (pend h ++ c :: rest))
      else outs_len < final_size outs_len count' surrog') as Hstep.
  { intros k i' h' r' Hk Ht' Hh' Hf'. destruct (IH i' h' (count + k) r' Ht' Hh' Hf') as (count' & surrog' & E & Hr).
    exists count', surrog'. split; [done|]. by rewrite Hk, Z.add_assoc. }
  rewrite (size_step _ _ _ _ _ _ _ _ _ Ht Hh Hco). destruct (text_cons _ _ _ _ _ Ht) as (_ & _ & _ & Hc & Ht').
  rewrite zlen_cons in Hf. destruct Hh as [->|Hh].
  - cbn [Z.eqb negb] in *. destruct (is_high c) eqn:Hhc.
    + destruct (Hstep 0 (i + 1) c rest) as (a & b & E & Hr);
        [unfold pend; by rewrite (high_nonzero c) | done | by right | rewrite (high_nonzero c) by done; lia |].
      rewrite Z.add_0_r, (high_nonzero c) in E by done. by exists a, b.
    + apply (Hstep _ (i + 1) 0 rest); [| done | by left | cbn; lia]. cbn [pend Z.eqb app].
      rewrite unit_bytes_utf8 by done. rewrite <-zlen_app. f_equal. apply utf8_string_alone. by rewrite Hhc.
  - assert (pend h = [h]) as Hp by (unfold pend; by rewrite (high_nonzero h)). rewrite Hp in *. rewrite (high_nonzero h) in * by done.
    cbn [negb app] in *. destruct (is_low c) eqn:Hlc.
    + apply (Hstep 4 (i + 1) 0 rest); [| done | by left | cbn; lia]. cbn [pend Z.eqb app].
      rewrite utf8_string_pair by done. by rewrite zlen_app.
    + apply (Hstep 3 i 0 (c :: rest)); [| done | by left | cbn [Z.eqb]; rewrite zlen_cons; lia]. cbn [pend Z.eqb app].
      rewrite utf8_string_alone by (cbn [starts_low]; by rewrite Hlc, andb_false_r). rewrite zlen_app, <-high_three by done. done.
Qed.

Lemma utf16_size_spec ins ins_len outs_len s : text ins ins_len 0 s ->
  utf16_to_utf8_size ins ins_len outs_len =
    Some (if zlen (utf8_string s) <=? outs_len then Ok (zlen (utf8_string s)) else Err ENAMETOOLONG).
Proof.
  intros Ht. unfold utf16_to_utf8_size, conv_fuel. pose proof (zlen_nonneg s).
  destruct (size_loop_spec (S (2 * Z.to_nat ins_len)) ins ins_len outs_len 0 0 0 s Ht) as (count & surrog & E & Hr);
    [by left | destruct Ht as (_ & _ & _ & Ht); cbn [Z.eqb]; lia |].
  cbn [Z.eqb negb] in E. rewrite E. cbn [mbind option_bind]. fold (final_size outs_len count surrog).
  cbn [pend Z.eqb app] in Hr. rewrite Z.add_0_l in Hr. cbv zeta in Hr.
  destruct (Z.leb_spec (zlen (utf8_string s)) outs_len); [rewrite Hr, (proj2 (Z.ltb_ge _ _)) by lia; done|].
  by rewrite (proj2 (Z.ltb_lt _ _) Hr).
Qed.

(** The whole conversion into an allocated buffer. *)
Lemma utf16_to_utf8_spec ins ins_len s : text ins ins_len 0 s ->
  forall outs_len, ntfs_utf16_to_utf8 ins ins_len None outs_len = Some (
    if zlen (utf8_string s) <? PATH_MAX then Ok (utf8_string s ++ [0], zlen (utf8_string s)) else Err ENAMETOOLONG).
Proof.
  intros Ht outs_len. unfold ntfs_utf16_to_utf8. rewrite (utf16_size_spec _ _ _ _ Ht). cbn [mbind option_bind].
  set (out := utf8_string s). pose proof (zlen_nonneg out) as Hnn.
  destruct (Z.leb_spec (zlen out) (PATH_MAX - 1)), (Z.ltb_spec (zlen out) PATH_MAX); try lia; [|done].
  set (buf := replicate (Z.to_nat (zlen out + 1)) 0). assert (zlen buf = zlen out + 1) as Hbl by (unfold buf; rewrite zlen_replicate; lia).
  destruct (encode_loop_spec (conv_fuel ins_len) ins ins_len 0 0 buf 0 s Ht) as (b1 & t' & h' & bs & -> & Hbs & Hw & ->);
    [by left | lia | cbn [pend Z.eqb app]; fold out; lia | unfold conv_fuel; destruct Ht as (_ & _ & _ & Ht); pose proof (zlen_nonneg s); cbn [Z.eqb]; lia |].
  cbn [mbind option_bind pend Z.eqb app] in *. fold (flush h'). fold out in Hbs. rewrite Hbs, zlen_app in *.
  pose proof (zlen_nonneg bs). pose proof (zlen_nonneg (flush h')). pose proof (zwrite_Some _ _ _ _ Hw) as (_ & _ & Hl1 & _).
  destruct (zwrite b1 (0 + zlen bs) (flush h')) as [b2|] eqn:E2; [|rewrite zwrite_inside in E2 by lia; done].
  cbn [mbind option_bind]. pose proof (zwrite_app _ _ _ _ _ _ Hw E2) as Hw2. pose proof (zwrite_Some _ _ _ _ E2) as (_ & _ & Hl2 & _).
  destruct (zset b2 _ 0) as [b3|] eqn:E3; [|rewrite zset_inside in E3 by lia; done]. cbn [mbind option_bind].
  rewrite zset_zwrite in E3. rewrite <-Z.add_assoc, <-zlen_app in E3. pose proof (zwrite_app _ _ _ _ _ _ Hw2 E3) as Hw3.
  do 3 f_equal.
  rewrite zwrite_inside in Hw3 by (rewrite ?zlen_app, ?zlen_cons, ?(@zlen_nil Z); lia). injection Hw3 as <-.
  rewrite drop_ge by (unfold zlen in *; rewrite !length_app in *; cbn; lia). cbn [Z.to_nat take firstn app]. by rewrite app_nil_r.
Qed.

(** ** Decoding *)

Lemma is_cont_spec b : is_byte b -> is_cont b = (0x80 <=? b) && (b <? 0xC0).
Proof.
  unfold is_byte. intros Hb.
  assert (forallb (fun k => Bool.eqb (is_cont (Z.of_nat k)) ((0x80 <=? Z.of_nat k) && (Z.of_nat k <? 0xC0))) (seq 0 256) = true) as H
    by (vm_compute; reflexivity).
  rewrite forallb_forall in H. specialize (H (Z.to_nat b)). rewrite Z2Nat.id in H by lia.
  apply Bool.eqb_prop, H, in_seq. lia.
Qed.

(** The value assembled from the bytes of a sequence. *)
Lemma wc2 b s1 : 0 <= s1 -> Z.lor (Z.shiftl (Z.land b 0x1F) 6) (Z.land s1 0x3F) = (b mod 32) * 64 + s1 mod 64.
Proof. intros. bits. rewrite (lor_add _ _ 6) by (done || divlia). lia. Qed.

Lemma wc3 b s1 s2 : Z.lor (Z.lor (Z.shiftl (Z.land b 0x0F) 12) (Z.shiftl (Z.land s1 0x3F) 6)) (Z.land s2 0x3F)
  = (b mod 16) * 4096 + (s1 mod 64) * 64 + s2 mod 64.
Proof.
  bits. rewrite (lor_add (b mod 16 * 4096) _ 12) by (done || (change (2 ^ 12) with 4096; divlia)).
  rewrite (lor_add _ _ 6) by (done || divlia). lia.
Qed.

Lemma wc4 b s1 s2 s3 :
  Z.lor (Z.lor (Z.lor (Z.shiftl (Z.land b 0x07) 18) (Z.shiftl (Z.land s1 0x3F) 12)) (Z.shiftl (Z.land s2 0x3F) 6)) (Z.land s3 0x3F)
  = (b mod 8) * 262144 + (s1 mod 64) * 4096 + (s2 mod 64) * 64 + s3 mod 64.
Proof.
  bits. rewrite (lor_add (b mod 8 * 262144) _ 18) by (done || (change (2 ^ 18) with 262144; divlia)).
  rewrite (lor_add (_ + _) _ 12) by (done || (change (2 ^ 12) with 4096; divlia)).
  rewrite (lor_add _ _ 6) by (done || divlia). lia.
Qed.

Ltac ltb_true a b := rewrite (proj2 (Z.ltb_lt a b)) by divlia.
Ltac ltb_false a b := rewrite (proj2 (Z.ltb_ge a b)) by divlia.

Lemma decode_char s t cp : is_codepoint cp -> holds s t (utf8 cp) -> utf8_to_unicode s t = Some (Ok (zlen (utf8 cp), cp)).
Proof.
  unfold is_codepoint. intros Hs Hh. rewrite zlen_utf8. unfold utf8 in Hh. unfold utf8_to_unicode.
  assert (forall b, 0 <= b < 64 -> is_cont (0x80 + b) = true) as Hcont.
  { intros b Hb. rewrite is_cont_spec by (unfold is_byte; lia). apply andb_true_iff. split; lia. }
  destruct (Z.ltb_spec cp 0x80).
  { apply holds_cons in Hh as [-> _]. cbn [mbind option_bind]. rewrite (proj2 (Z.eqb_neq cp 0)) by lia. by ltb_true cp 0x80. }
  destruct (Z.ltb_spec cp 0x800).
  { apply holds_cons in Hh as [-> [-> _]%holds_cons]. cbn [mbind option_bind]. rewrite (proj2 (Z.eqb_neq _ 0)) by divlia.
    ltb_false (0xc0 + cp / 64) 0x80. ltb_false (0xc0 + cp / 64) 0xc2. ltb_true (0xc0 + cp / 64) 0xE0.
    rewrite Hcont by divlia. rewrite wc2 by divlia. do 3 f_equal. divlia. }
  destruct (Z.ltb_spec cp 0x10000).
  { apply holds_cons in Hh as [-> [-> [H2 _]%holds_cons]%holds_cons]. replace (t + 1 + 1) with (t + 2) in H2 by lia. rewrite H2.
    cbn [mbind option_bind]. rewrite (proj2 (Z.eqb_neq _ 0)) by divlia.
    ltb_false (0xe0 + cp / 4096) 0x80. ltb_false (0xe0 + cp / 4096) 0xc2. ltb_false (0xe0 + cp / 4096) 0xE0.
    ltb_true (0xe0 + cp / 4096) 0xF0. rewrite !Hcont by divlia. cbn [negb]. rewrite wc3.
    assert ((0xe0 + cp / 4096) mod 16 * 4096 + (128 + (cp / 64) mod 64) mod 64 * 64 + (128 + cp mod 64) mod 64 = cp) as -> by divlia.
    destruct (Z.leb_spec 0x800 cp), (Z.leb_spec cp 0xD7FF), (Z.leb_spec 0xD800 cp), (Z.leb_spec cp 0xDFFF), (Z.leb_spec 0xe000 cp),
      (Z.leb_spec cp 0xFFFF); cbn; done || lia. }
  apply holds_cons in Hh as [-> [-> [H2 [H3 _]%holds_cons]%holds_cons]%holds_cons].
  replace (t + 1 + 1) with (t + 2) in * by lia. replace (t + 2 + 1) with (t + 3) in H3 by lia. rewrite H2, H3.
  cbn [mbind option_bind]. rewrite (proj2 (Z.eqb_neq _ 0)) by divlia.
  ltb_false (0xf0 + cp / 262144) 0x80. ltb_false (0xf0 + cp / 262144) 0xc2. ltb_false (0xf0 + cp / 262144) 0xE0.
  ltb_false (0xf0 + cp / 262144) 0xF0. ltb_true (0xf0 + cp / 262144) 0xF5. rewrite !Hcont by divlia. cbn [negb]. rewrite wc4.
  assert ((0xf0 + cp / 262144) mod 8 * 262144 + (128 + (cp / 4096) mod 64) mod 64 * 4096 + (128 + (cp / 64) mod 64) mod 64 * 64
    + (128 + cp mod 64) mod 64 = cp) as -> by divlia.
  by rewrite (proj2 (Z.leb_le cp 0x10ffff)), (proj2 (Z.leb_le 0x10000 cp)) by lia.
Qed.

Lemma wf_get s i b : wf_bytes s -> s.[i] = Some b -> is_byte b.
Proof. intros Hw. by apply zget_Forall. Qed.

(** What is accepted is the encoding of a code point, in its shortest form. *)
Lemma decode_char_inv s t m wc : wf_bytes s -> utf8_to_unicode s t = Some (Ok (m, wc)) ->
  (m = 0 /\ s.[t] = Some 0) \/ (is_codepoint wc /\ holds s t (utf8 wc) /\ m = zlen (utf8 wc)).
Proof.
  intros Hw. unfold utf8_to_unicode. destruct (s.[t]) as [b|] eqn:E0; cbn [mbind option_bind]; [|done].
  pose proof (wf_get _ _ _ Hw E0) as Hb. unfold is_byte in Hb.
  destruct (Z.eqb_spec b 0) as [->|]; [intros [= <- _]; by left|]. intros H. right. unfold is_codepoint. rewrite zlen_utf8. revert H.
  destruct (Z.ltb_spec b 0x80).
  { intros [= <- <-]. unfold utf8. ltb_true b 0x80. split_and!; [lia | lia | | done]. apply holds_cons. split; [done | apply holds_nil]. }
  destruct (Z.ltb_spec b 0xc2); [done|].
  destruct (s.[t + 1]) as [b1|] eqn:E1; cbn [mbind option_bind]; [|by repeat guard_case].
  pose proof (wf_get _ _ _ Hw E1) as Hb1. rewrite (is_cont_spec b1 Hb1). unfold is_byte in Hb1.
  destruct (Z.ltb_spec b 0xE0).
  { destruct (Z.leb_spec 0x80 b1), (Z.ltb_spec b1 0xC0); cbn [andb]; try done. intros [= <- <-]. rewrite wc2 by lia.
    unfold utf8. ltb_false (b mod 32 * 64 + b1 mod 64) 0x80. ltb_true (b mod 32 * 64 + b1 mod 64) 0x800. split_and!; [divlia | divlia | | done].
    apply holds_cons. rewrite holds_cons, E0, E1. split_and!; [f_equal; divlia | f_equal; divlia | apply holds_nil]. }
  destruct (Z.ltb_spec b 0xF0).
  { destruct (Z.leb_spec 0x80 b1), (Z.ltb_spec b1 0xC0); cbn [andb negb]; try done.
    destruct (s.[t + 2]) as [b2|] eqn:E2; cbn [mbind option_bind]; [|done]. pose proof (wf_get _ _ _ Hw E2) as Hb2.
    rewrite (is_cont_spec b2 Hb2). unfold is_byte in Hb2. destruct (Z.leb_spec 0x80 b2), (Z.ltb_spec b2 0xC0); cbn [andb negb]; try done.
    rewrite wc3. set (w := _ + b2 mod 64). destruct (_ || _) eqn:Eg; [|done]. intros [= <- <-].
    assert (0x800 <= w < 0x10000) as Hwr by (subst w; clear -Eg; lia).
    unfold utf8. ltb_false w 0x80. ltb_false w 0x800. ltb_true w 0x10000. split_and!; [lia | lia | | done].
    apply holds_cons. rewrite !holds_cons, <-!Z.add_assoc. change (1 + 1) with 2. rewrite E0, E1, E2. subst w. clear Eg.
    split_and!; [f_equal; divlia | f_equal; divlia | f_equal; divlia | apply holds_nil]. }
  destruct (Z.ltb_spec b 0xF5); [|done].
  destruct (Z.leb_spec 0x80 b1), (Z.ltb_spec b1 0xC0); cbn [andb negb]; try done.
  destruct (s.[t + 2]) as [b2|] eqn:E2; cbn [mbind option_bind]; [|done]. pose proof (wf_get _ _ _ Hw E2) as Hb2.
  rewrite (is_cont_spec b2 Hb2). unfold is_byte in Hb2. destruct (Z.leb_spec 0x80 b2), (Z.ltb_spec b2 0xC0); cbn [andb negb]; try done.
  destruct (s.[t + 3]) as [b3|] eqn:E3; cbn [mbind option_bind]; [|done]. pose proof (wf_get _ _ _ Hw E3) as Hb3.
  rewrite (is_cont_spec b3 Hb3). unfold is_byte in Hb3. destruct (Z.leb_spec 0x80 b3), (Z.ltb_spec b3 0xC0); cbn [andb negb]; try done.
  rewrite wc4. set (w := _ + b3 mod 64). destruct (_ && _) eqn:Eg; [|done]. intros [= <- <-].
  assert (0x10000 <= w <= 0x10ffff) as Hwr by (subst w; clear -Eg; lia).
  unfold utf8. ltb_false w 0x80. ltb_false w 0x800. ltb_false w 0x10000. split_and!; [lia | lia | | done].
  apply holds_cons. rewrite !holds_cons, <-!Z.add_assoc. change (1 + (1 + 1)) with 3. change (1 + 1) with 2. rewrite E0, E1, E2, E3. subst w. clear Eg.
  split_and!; [f_equal; divlia | f_equal; divlia | f_equal; divlia | f_equal; divlia | apply holds_nil].
Qed.

(** A C string of [k] bytes. *)
Definition cstring (s : list Z) (k : Z) : Prop :=
  wf_bytes s /\ 0 <= k /\ s.[k] = Some 0 /\ forall j, 0 <= j < k -> s.[j] <> Some 0.

Lemma cstring_get s k j : cstring s k -> 0 <= j < k -> exists b, s.[j] = Some b /\ 0 < b < 256.
Proof.
  intros (Hw & Hk & H0 & Hn) Hj. pose proof (zget_bounds _ _ _ H0).
  destruct (zget_inside s j) as [b Hb]; [lia|]. exists b. split; [done|].
  pose proof (wf_get _ _ _ Hw Hb) as Hr. unfold is_byte in Hr. assert (b <> 0) by (intros ->; by apply (Hn j)). lia.
Qed.

(** At most the terminator is read. *)
Lemma cstring_next s k j : cstring s k -> 0 <= j <= k -> exists b, s.[j] = Some b /\ 0 <= b < 256 /\ (b <> 0 -> j < k).
Proof.
  intros Hc Hj. destruct (decide (j = k)) as [->|].
  - exists 0. destruct Hc as (_ & _ & ? & _). split; [done | lia].
  - destruct (cstring_get s k j Hc) as (b & ? & ?); [lia|]. exists b. split; [done | lia].
Qed.

Lemma cont_nonzero b : 0 <= b < 256 -> is_cont b = true -> b <> 0.
Proof. intros Hb. rewrite is_cont_spec by done. lia. Qed.

Lemma decode_total s k t : cstring s k -> 0 <= t <= k -> exists r, utf8_to_unicode s t = Some r.
Proof.
  intros Hc Ht. unfold utf8_to_unicode. destruct (cstring_next s k t Hc Ht) as (b & -> & Hb & Hlt). cbn [mbind option_bind].
  destruct (Z.eqb_spec b 0); [eauto|]. do 2 (guard_case; [eauto|]).
  destruct (cstring_next s k (t + 1) Hc) as (b1 & -> & Hb1 & Hlt1); [lia|]. cbn [mbind option_bind].
  guard_case; [guard_case; eauto|]. destruct (is_cont b1) eqn:Ec1; cbn [negb]; [|guard_case; eauto; guard_case; eauto].
  pose proof (cont_nonzero b1 Hb1 Ec1).
  destruct (cstring_next s k (t + 2) Hc) as (b2 & -> & Hb2 & Hlt2); [lia|]. cbn [mbind option_bind].
  destruct (is_cont b2) eqn:Ec2; cbn [negb]; [|guard_case; eauto; guard_case; eauto].
  guard_case; [guard_case; eauto|]. guard_case; [|eauto]. pose proof (cont_nonzero b2 Hb2 Ec2).
  destruct (cstring_next s k (t + 3) Hc) as (b3 & -> & Hb3 & Hlt3); [lia|]. cbn [mbind option_bind].
  guard_case; [eauto|]. guard_case; eauto.
Qed.

Lemma utf8_bytes cp : is_codepoint cp -> Forall (fun b => 0 < b < 256) (utf8 cp).
Proof.
  unfold is_codepoint, utf8. intros Hc. destruct (Z.ltb_spec cp 0x80); [repeat constructor; lia|].
  destruct (Z.ltb_spec cp 0x800); [repeat constructor; divlia|].
  destruct (Z.ltb_spec cp 0x10000); repeat constructor; divlia.
Qed.

Lemma zlen_utf8_pos cp : 1 <= zlen (utf8 cp) <= 4.
Proof. rewrite zlen_utf8. repeat guard_case; lia. Qed.

(** A string that the text holds does not reach past the terminator. *)
Lemma holds_before s k t cp : cstring s k -> 0 <= t <= k -> is_codepoint cp -> holds s t (utf8 cp) -> t + zlen (utf8 cp) <= k.
Proof.
  intros (_ & _ & H0 & _) Ht Hs Hh. destruct (Z.le_gt_cases (t + zlen (utf8 cp)) k) as [|Hgt]; [done|].
  specialize (Hh (k - t) ltac:(lia)). replace (t + (k - t)) with k in Hh by lia. rewrite H0 in Hh. symmetry in Hh.
  assert (0 < 0 < 256) by exact (zget_Forall _ _ _ _ (utf8_bytes cp Hs) Hh). lia.
Qed.

(** Every C string is a sequence of encoded characters, to its end or to the
    first byte that starts none. *)
Lemma parse s k t : cstring s k -> 0 <= t <= k ->
  exists cps, Forall is_codepoint cps /\ holds s t (flat_map utf8 cps) /\
    let t' := t + zlen (flat_map utf8 cps) in
    t' = k \/ t' < k /\ exists e, utf8_to_unicode s t' = Some (Err e).
Proof.
  intros Hc. remember (Z.to_nat (k - t)) as n eqn:Hn. revert t Hn. induction n as [n IH] using lt_wf_ind. intros t -> Ht.
  destruct (decide (t = k)) as [->|Hne].
  { exists []. split; [done|]. split; [apply holds_nil|]. left. cbn [flat_map]. rewrite (@zlen_nil Z). lia. }
  destruct (decode_total s k t Hc Ht) as [r Hr]. destruct r as [[m wc]|e].
  2: { exists []. split; [done|]. split; [apply holds_nil|]. right. cbn [flat_map]. rewrite (@zlen_nil Z), Z.add_0_r. split; [lia | eauto]. }
  destruct (decode_char_inv s t m wc (proj1 Hc) Hr) as [[-> H0]|(Hs & Hh & ->)].
  { destruct Hc as (_ & _ & _ & Hz). destruct (Hz t); [lia | done]. }
  pose proof (holds_before s k t wc Hc Ht Hs Hh). pose proof (zlen_utf8_pos wc).
  destruct (IH (Z.to_nat (k - (t + zlen (utf8 wc)))) ltac:(lia) (t + zlen (utf8 wc)) eq_refl ltac:(lia)) as (cps & Hf & Hh2 & Hend).
  exists (wc :: cps). split; [by constructor|]. cbn [flat_map]. split; [by apply holds_app|].
  rewrite zlen_app, Z.add_assoc. done.
Qed.

Lemma units_of_utf16 cp : is_codepoint cp -> units_of cp = utf16 cp.
Proof.
  unfold is_codepoint, units_of, utf16. intros Hc. destruct (Z.ltb_spec cp 0x10000).
  - unfold u16. by rewrite wrap_u_small by lia.
  - cbv zeta. bits. unfold u16. rewrite !wrap_u_small by divlia. bytes_eq.
Qed.

Lemma zlen_utf16 cp : zlen (utf16 cp) = if cp <? 0x10000 then 1 else 2.
Proof. unfold utf16. by destruct (_ <? _). Qed.

(** One character of the counting loop. *)
Lemma size16_step s k t f count cp : cstring s k -> 0 <= t -> t + zlen (utf8 cp) <= k -> is_codepoint cp -> holds s t (utf8 cp) ->
  size16_loop (S (S f)) s t count =
    if PATH_MAX <=? count + zlen (utf16 cp) then Some (Err ENAMETOOLONG)
    else size16_loop (S f) s (t + zlen (utf8 cp)) (count + zlen (utf16 cp)).
Proof.
  intros Hc Ht Hk Hs Hh. remember (S f) as f1 eqn:Hf1. cbn [size16_loop]. rewrite zlen_utf16. rewrite zlen_utf8 in *.
  assert (forall p x, s.[p] = Some x -> (x =? 0) = true -> forall c, size16_loop f1 s p c = Some (Ok c)) as Hend.
  { intros p x Hp Hx c. subst f1. cbn [size16_loop]. rewrite Hp. cbn [mbind option_bind]. by rewrite Hx. }
  assert (forall p, t <= p <= k -> exists x, s.[p] = Some x) as Hget.
  { intros p Hp. destruct (cstring_next s k p Hc) as (x & ? & _); [lia | eauto]. }
  unfold is_codepoint in Hs. unfold utf8 in Hh.
  destruct (Z.ltb_spec cp 0x80).
  { ltb_true cp 0x10000. apply holds_cons in Hh as [-> _]. cbn [mbind option_bind]. rewrite (proj2 (Z.eqb_neq cp 0)) by lia.
    guard_case; [done|]. by rewrite (proj2 (Z.leb_gt 0xc0 cp)) by lia. }
  destruct (Z.ltb_spec cp 0x800).
  { ltb_true cp 0x10000. apply holds_cons in Hh as [-> [-> _]%holds_cons]. cbn [mbind option_bind]. rewrite (proj2 (Z.eqb_neq _ 0)) by divlia.
    guard_case; [done|]. rewrite (proj2 (Z.leb_le 0xc0 _)), (proj2 (Z.leb_gt 0xF5 _)) by divlia.
    rewrite (proj2 (Z.eqb_neq _ 0)) by divlia. replace (t + 1 + 1) with (t + 2) by lia.
    destruct (Hget (t + 2)) as [x Hx]; [lia|]. rewrite Hx. cbn [mbind option_bind].
    rewrite (proj2 (Z.leb_gt 0xE0 _)), (proj2 (Z.leb_gt 0xF0 _)) by divlia. rewrite Hx. cbn [mbind option_bind].
    destruct (x =? 0) eqn:E0; [by rewrite (Hend _ _ Hx E0) | done]. }
  destruct (Z.ltb_spec cp 0x10000).
  { apply holds_cons in Hh as [-> [-> [H2 _]%holds_cons]%holds_cons].
    replace (t + 1 + 1) with (t + 2) in * by lia. cbn [mbind option_bind]. rewrite (proj2 (Z.eqb_neq _ 0)) by divlia.
    guard_case; [done|]. rewrite (proj2 (Z.leb_le 0xc0 _)), (proj2 (Z.leb_gt 0xF5 _)) by divlia.
    rewrite (proj2 (Z.eqb_neq _ 0)) by divlia. rewrite H2. cbn [mbind option_bind]. rewrite (proj2 (Z.eqb_neq _ 0)) by divlia.
    rewrite (proj2 (Z.leb_le 0xE0 _)), (proj2 (Z.leb_gt 0xF0 _)) by divlia. replace (t + 2 + 1) with (t + 3) by lia.
    destruct (Hget (t + 3)) as [x Hx]; [lia|]. rewrite Hx. cbn [mbind option_bind].
    destruct (x =? 0) eqn:E0; [by rewrite (Hend _ _ Hx E0) | done]. }
  apply holds_cons in Hh as [-> [-> [H2 [H3 _]%holds_cons]%holds_cons]%holds_cons].
  replace (t + 1 + 1) with (t + 2) in * by lia. replace (t + 2 + 1) with (t + 3) in * by lia.
  cbn [mbind option_bind]. rewrite (proj2 (Z.eqb_neq _ 0)) by divlia.
  rewrite (proj2 (Z.leb_le 0xc0 _)), (proj2 (Z.leb_gt 0xF5 _)) by divlia.
  rewrite (proj2 (Z.eqb_neq _ 0)) by divlia. rewrite H2. cbn [mbind option_bind]. rewrite (proj2 (Z.eqb_neq _ 0)) by divlia.
  rewrite (proj2 (Z.leb_le 0xE0 _)), (proj2 (Z.leb_le 0xF0 _)) by divlia. replace (t + 2 + 1) with (t + 3) by lia. rewrite H3. cbn [mbind option_bind].
  rewrite (proj2 (Z.eqb_neq _ 0)) by divlia. replace (count + 1 + 1) with (count + 2) by lia. cbv iota. replace (t + 3 + 1) with (t + 4) by lia.
  destruct (Z.leb_spec PATH_MAX (count + 1)), (Z.leb_spec PATH_MAX (count + 2)); done || lia.
Qed.

Lemma size16_total s k : cstring s k -> forall f t count, 0 <= t <= k -> k - t < Z.of_nat f ->
  exists r, size16_loop f s t count = Some r /\ match r with Ok n => count <= n | Err _ => True end.
Proof.
  intros Hc. induction f as [|f IH]; intros t count Ht Hf; [lia|]. cbn [size16_loop].
  destruct (cstring_next s k t Hc Ht) as (b & -> & Hb & Hlt). cbn [mbind option_bind]. destruct (Z.eqb_spec b 0).
  { exists (Ok count). split; [done | lia]. }
  guard_case; [by eexists|].
  assert (forall p c, count + 1 <= c -> t + 1 <= p <= k ->
    exists r, size16_loop f s p c = Some r /\ match r with Ok n => count <= n | Err _ => True end) as Hrec.
  { intros p c Hco Hp. destruct (IH p c) as (r & -> & Hr); [lia..|]. exists r. split; [done|]. destruct r; [lia | done]. }
  assert (exists r, Some (Ok (count + 1)) = Some r /\ match r with Ok n => count <= n | Err _ => True end) as Hstop
    by (exists (Ok (count + 1)); split; [done | lia]).
  guard_case; [|apply Hrec; lia]. guard_case; [by eexists|].
  destruct (cstring_next s k (t + 1) Hc) as (b1 & -> & _ & Hlt1); [lia|]. cbn [mbind option_bind].
  destruct (Z.eqb_spec b1 0); [exact Hstop|]. cbv iota.
  destruct (cstring_next s k (t + 1 + 1) Hc) as (b2 & -> & _ & Hlt2); [lia|]. cbn [mbind option_bind].
  destruct (Z.eqb_spec b2 0); [exact Hstop|].
  assert (exists p, (if 0xE0 <=? b then t + 1 + 1 + 1 else t + 1 + 1) = p /\ t + 1 <= p <= k) as (p & -> & Hp)
    by (guard_case; eexists; split; try reflexivity; lia).
  destruct (cstring_next s k p Hc) as (b3 & -> & _ & Hlt3); [lia|]. cbn [mbind option_bind].
  destruct (Z.eqb_spec b3 0); [exact Hstop|]. guard_case; [|apply Hrec; lia]. guard_case; [by eexists | apply Hrec; lia].
Qed.

(** The units counted cover those of the characters up to the end or to the
    first malformed byte; a whole string is counted exactly. *)
Lemma size16_spec s k : cstring s k -> forall cps f t count,
  Forall is_codepoint cps -> holds s t (flat_map utf8 cps) -> 0 <= t -> t + zlen (flat_map utf8 cps) <= k -> k - t < Z.of_nat f ->
  0 <= count < PATH_MAX ->
  exists r, size16_loop f s t count = Some r /\
    let total := count + zlen (flat_map utf16 cps) in
    match r with Ok n => total <= n | Err _ => True end /\
    (t + zlen (flat_map utf8 cps) = k -> r = if total <? PATH_MAX then Ok total else Err ENAMETOOLONG).
Proof.
  intros Hc. induction cps as [|cp cps IH]; intros f t count Hs Hh Ht Hk Hf Hco; cbn [flat_map] in *.
  - rewrite (@zlen_nil Z), !Z.add_0_r in *. destruct (size16_total s k Hc f t count) as (r & E & Hr); [lia..|].
    exists r. split_and!; [done | done |]. intros ->. destruct f as [|f]; [lia|]. cbn [size16_loop] in E.
    destruct Hc as (_ & _ & H0 & _). rewrite H0 in E. cbn in E. injection E as <-. by rewrite (proj2 (Z.ltb_lt count PATH_MAX)) by lia.
  - apply Forall_cons in Hs as [Hs Hss]. apply holds_app in Hh as [Hh Hhs]. rewrite zlen_app in Hk.
    pose proof (zlen_nonneg (flat_map utf8 cps)). pose proof (zlen_utf8_pos cp). pose proof (zlen_nonneg (flat_map utf16 cps)).
    assert (1 <= zlen (utf16 cp) <= 2) by (rewrite zlen_utf16; guard_case; lia).
    destruct f as [|[|f]]; [lia | lia |]. rewrite (size16_step s k t f count cp) by (done || lia). rewrite !zlen_app.
    destruct (Z.leb_spec PATH_MAX (count + zlen (utf16 cp))).
    { eexists. split; [done|]. split; [done|]. intros _. by rewrite (proj2 (Z.ltb_ge _ _)) by lia. }
    destruct (IH (S f) (t + zlen (utf8 cp)) (count + zlen (utf16 cp)) Hss Hhs) as (r & -> & Hr & He); [lia..|].
    exists r. rewrite Z.add_assoc. split_and!; [done | done|]. intros Hend. apply He. lia.
Qed.

Lemma decode_loop_spec s k : cstring s k -> forall cps f t buf pos,
  Forall is_codepoint cps -> holds s t (flat_map utf8 cps) -> 0 <= t -> t + zlen (flat_map utf8 cps) <= k -> k - t < Z.of_nat f ->
  0 <= pos -> pos + zlen (flat_map utf16 cps) + 1 <= zlen buf ->
  exists buf1 f', zwrite buf pos (flat_map utf16 cps) = Some buf1 /\
    decode_loop f s t buf pos = decode_loop (S f') s (t + zlen (flat_map utf8 cps)) buf1 (pos + zlen (flat_map utf16 cps)).
Proof.
  intros Hc. induction cps as [|cp cps IH]; intros f t buf pos Hs Hh Ht Hk Hf Hp Hb; cbn [flat_map] in *.
  - rewrite !(@zlen_nil Z) in *. rewrite zwrite_nil, !Z.add_0_r by lia. destruct f as [|f]; [lia|]. eauto.
  - apply Forall_cons in Hs as [Hs Hss]. apply holds_app in Hh as [Hh Hhs]. rewrite !zlen_app in *.
    pose proof (zlen_nonneg (flat_map utf8 cps)). pose proof (zlen_utf8_pos cp). pose proof (zlen_nonneg (flat_map utf16 cps)).
    destruct f as [|f]; [lia|]. cbn [decode_loop]. rewrite (decode_char s t cp Hs Hh). cbn [mbind option_bind].
    rewrite (proj2 (Z.eqb_neq (zlen (utf8 cp)) 0)) by lia. rewrite (units_of_utf16 cp Hs). pose proof (zlen_nonneg (utf16 cp)).
    destruct (zwrite buf pos (utf16 cp)) as [b1|] eqn:E1; [|rewrite zwrite_inside in E1 by lia; done]. cbn [mbind option_bind].
    pose proof (zwrite_Some _ _ _ _ E1) as (_ & _ & Hl1 & _).
    destruct (IH f (t + zlen (utf8 cp)) b1 (pos + zlen (utf16 cp)) Hss Hhs) as (b2 & f' & E2 & E3); [lia..|].
    exists b2, f'. rewrite !Z.add_assoc. split; [by eapply zwrite_app | done].
Qed.

(** Two ways to read the same bytes as characters agree. *)
Lemma parse_prefix s cps cps' t : Forall is_codepoint cps -> Forall is_codepoint cps' ->
  holds s t (flat_map utf8 cps) -> holds s t (flat_map utf8 cps') -> zlen (flat_map utf8 cps) < zlen (flat_map utf8 cps') ->
  exists cp rest, cps' = cps ++ cp :: rest /\ is_codepoint cp /\ holds s (t + zlen (flat_map utf8 cps)) (utf8 cp).
Proof.
  revert cps' t. induction cps as [|c cps IH]; intros cps' t Hs Hs' Hh Hh' Hlt; cbn [flat_map] in *.
  - destruct cps' as [|c' cps']; [cbn [flat_map] in Hlt; lia|]. apply Forall_cons in Hs' as [? _].
    cbn [flat_map] in Hh'. apply holds_app in Hh' as [? _]. exists c', cps'. by rewrite (@zlen_nil Z), Z.add_0_r.
  - destruct cps' as [|c' cps']; cbn [flat_map] in *; [rewrite (@zlen_nil Z) in Hlt; pose proof (zlen_nonneg (utf8 c ++ flat_map utf8 cps)); lia|].
    apply Forall_cons in Hs as [Hc Hs], Hs' as [Hc' Hs']. apply holds_app in Hh as [Hh Hhs], Hh' as [Hh' Hhs'].
    pose proof (decode_char _ _ _ Hc Hh) as E. rewrite (decode_char _ _ _ Hc' Hh') in E. injection E as _ ->.
    rewrite !zlen_app in *. destruct (IH cps' _ Hs Hs' Hhs Hhs') as (cp & rest & -> & ? & ?); [lia|].
    exists cp, rest. by rewrite Z.add_assoc.
Qed.

Lemma utf8_to_utf16_spec s k : cstring s k ->
  exists r, ntfs_utf8_to_utf16 s None = Some r /\
    match r with
    | Ok (buf, n) => exists cps, Forall is_codepoint cps /\ zread s 0 k = Some (flat_map utf8 cps) /\
        buf = flat_map utf16 cps ++ [0] /\ n = zlen (flat_map utf16 cps) /\ n < PATH_MAX
    | Err _ => forall cps, Forall is_codepoint cps -> zread s 0 k = Some (flat_map utf8 cps) -> PATH_MAX <= zlen (flat_map utf16 cps)
    end.
Proof.
  intros Hc. pose proof (zget_bounds _ _ _ (proj1 (proj2 (proj2 Hc)))) as Hkb.
  assert (k < Z.of_nat (length s)) as Hlen by (unfold zlen in Hkb; lia). unfold ntfs_utf8_to_utf16, utf8_to_utf16_size.
  assert (forall cps, Forall is_codepoint cps -> zread s 0 k = Some (flat_map utf8 cps) ->
    size16_loop (length s) s 0 0 = Some (if zlen (flat_map utf16 cps) <? PATH_MAX then Ok (zlen (flat_map utf16 cps)) else Err ENAMETOOLONG)) as Hsize.
  { intros cps Hs (_ & _ & _ & Hl & Hg)%zread_Some.
    destruct (size16_spec s k Hc cps (length s) 0 0 Hs) as (r & -> & _ & Hr); [intros j Hj; symmetry; apply Hg; lia | lia | lia | lia | done |].
    by rewrite Hr. }
  destruct (parse s k 0 Hc) as (cps & Hs & Hh & Hend); [lia|]. cbv zeta in Hend. rewrite Z.add_0_l in Hend.
  assert (zlen (flat_map utf8 cps) <= k) as Hle by lia.
  destruct (size16_spec s k Hc cps (length s) 0 0 Hs Hh) as (r & Er & Hr & He); [lia | lia | lia | done |].
  rewrite Er. cbn [mbind option_bind]. cbv zeta in *. rewrite !Z.add_0_l in *. pose proof (zlen_nonneg (flat_map utf16 cps)).
  destruct r as [n|e].
  2: { exists (Err e). split; [done|]. intros cps' Hs' Hr'. rewrite (Hsize cps' Hs' Hr') in Er. by destruct (Z.ltb_spec (zlen (flat_map utf16 cps')) PATH_MAX). }
  set (buf := replicate _ 0). assert (zlen buf = n + 1) as Hbl by (unfold buf; rewrite zlen_replicate; lia).
  destruct (decode_loop_spec s k Hc cps (length s) 0 buf 0 Hs Hh) as (b1 & f' & E1 & E2); [lia..|].
  rewrite E2, !Z.add_0_l. cbn [decode_loop]. destruct Hend as [Hend|[Hend (e & Herr)]].
  - rewrite Hend in *. pose proof Hc as (_ & _ & H0 & _). unfold utf8_to_unicode at 1. rewrite H0. cbn [mbind option_bind Z.eqb].
    specialize (He eq_refl). destruct (Z.ltb_spec (zlen (flat_map utf16 cps)) PATH_MAX); [|done]. injection He as ->.
    pose proof (zwrite_Some _ _ _ _ E1) as (_ & _ & Hl1 & _).
    destruct (zset b1 _ 0) as [b2|] eqn:E3; [|rewrite zset_inside in E3 by lia; done]. cbn [mbind option_bind].
    eexists (Ok (_, _)). split; [done|]. exists cps. split_and!; [done | | | lia | lia].
    + rewrite <-Hend. apply holds_zread; [done | lia | lia].
    + rewrite zset_zwrite in E3. pose proof (zwrite_app _ _ _ _ _ _ E1 E3) as Hw.
      rewrite zwrite_inside in Hw by (rewrite ?zlen_app, ?zlen_cons, ?(@zlen_nil Z); lia). injection Hw as <-.
      rewrite drop_ge by (unfold zlen in *; rewrite length_app; cbn; lia). cbn [Z.to_nat take firstn app]. by rewrite app_nil_r.
  - rewrite Herr. cbn [mbind option_bind]. exists (Err e). split; [done|]. intros cps' Hs' Hr'.
    destruct (Z.lt_ge_cases (zlen (flat_map utf16 cps')) PATH_MAX) as [Hlt|]; [|done]. exfalso.
    pose proof (zread_Some _ _ _ _ Hr') as (_ & _ & _ & Hl' & Hg').
    assert (holds s 0 (flat_map utf8 cps')) as Hh' by (intros j Hj; symmetry; apply Hg'; lia).
    destruct (parse_prefix s cps cps' 0 Hs Hs' Hh Hh') as (cp & rest & -> & Hcp & Hh2); [lia|].
    rewrite Z.add_0_l in Hh2. by rewrite (decode_char _ _ _ Hcp Hh2) in Herr.
Qed.

(** ** From units to code points and back *)

Lemma pair_scalar h l : is_high h = true -> is_low l = true ->
  is_codepoint (0x10000 + (h - 0xd800) * 1024 + (l - 0xdc00)) /\ utf16 (0x10000 + (h - 0xd800) * 1024 + (l - 0xdc00)) = [h; l].
Proof.
  intros [H1 H2]%andb_true_iff [H3 H4]%andb_true_iff. unfold is_codepoint, utf16.
  rewrite (proj2 (Z.ltb_ge _ 0x10000)) by lia. split; [lia|]. bytes_eq.
Qed.

Lemma codepoints_spec s : Forall is_unit s -> Forall is_codepoint (codepoints s) /\ flat_map utf16 (codepoints s) = s.
Proof.
  remember (length s) as n eqn:Hn. revert s Hn. induction n as [n IH] using lt_wf_ind. intros s -> Hs.
  destruct s as [|c s]; [done|]. apply Forall_cons in Hs as [Hc Hs].
  destruct (is_high c && starts_low s) eqn:E.
  - destruct s as [|l s]; [by rewrite andb_false_r in E|]. apply andb_true_iff in E as [Hh Hl]. cbn [starts_low] in Hl.
    apply Forall_cons in Hs as [_ Hs]. rewrite cps_pair by done. destruct (pair_scalar c l Hh Hl) as [Hsc He].
    destruct (IH (length s) ltac:(cbn; lia) s eq_refl Hs) as [H1 H2]. split; [by constructor|]. cbn [flat_map]. by rewrite He, H2.
  - rewrite cps_alone by done. destruct (IH (length s) ltac:(cbn; lia) s eq_refl Hs) as [H1 H2]. unfold is_unit in Hc.
    split; [constructor; [unfold is_codepoint; lia | done]|]. cbn [flat_map]. rewrite H2. unfold utf16. by rewrite (proj2 (Z.ltb_lt c 0x10000)) by lia.
Qed.

Lemma holds_self (xs ys : list Z) : holds (xs ++ ys) 0 xs.
Proof. intros j Hj. by rewrite Z.add_0_l, zget_app_l by lia. Qed.

Lemma flat_utf8_inj cps cps' : Forall is_codepoint cps -> Forall is_codepoint cps' -> flat_map utf8 cps = flat_map utf8 cps' -> cps = cps'.
Proof.
  revert cps'. induction cps as [|c cps IH]; intros [|c' cps'] Hs Hs' Heq; cbn [flat_map] in Heq; try done.
  - pose proof (zlen_utf8_pos c') as Hp. apply (f_equal zlen) in Heq. rewrite (@zlen_nil Z), zlen_app in Heq.
    pose proof (zlen_nonneg (flat_map utf8 cps')). lia.
  - pose proof (zlen_utf8_pos c) as Hp. apply (f_equal zlen) in Heq. rewrite (@zlen_nil Z), zlen_app in Heq.
    pose proof (zlen_nonneg (flat_map utf8 cps)). lia.
  - apply Forall_cons in Hs as [Hc Hs], Hs' as [Hc' Hs'].
    pose proof (decode_char _ _ _ Hc (holds_self (utf8 c) (flat_map utf8 cps))) as E. rewrite Heq in E.
    rewrite (decode_char _ _ _ Hc' (holds_self (utf8 c') (flat_map utf8 cps'))) in E. injection E as _ ->.
    f_equal. apply IH; [done | done |]. by apply app_inv_head in Heq.
Qed.

Lemma utf8_string_bytes s : Forall is_unit s -> Forall (fun b => 0 < b < 256) (utf8_string s).
Proof.
  intros [Hs _]%codepoints_spec. unfold utf8_string. induction Hs as [|c cps Hc _ IH]; cbn [flat_map]; [done|].
  apply Forall_app. split; [by apply utf8_bytes | done].
Qed.

(** UTF-8 is no shorter than UTF-16, in units. *)
Lemma flat_utf16_le cps : zlen (flat_map utf16 cps) <= zlen (flat_map utf8 cps).
Proof.
  induction cps as [|c cps IH]; cbn [flat_map]; [done|]. rewrite !zlen_app, zlen_utf16, zlen_utf8. repeat guard_case; lia.
Qed.

Lemma zlen_utf16_le s : Forall is_unit s -> zlen s <= zlen (utf8_string s).
Proof. intros [_ H]%codepoints_spec. rewrite <-H at 1. apply flat_utf16_le. Qed.

Lemma cstring_of bs : Forall (fun b => 0 < b < 256) bs -> cstring (bs ++ [0]) (zlen bs).
Proof.
  intros Hb. split_and!.
  - apply Forall_app. split; [|repeat constructor; lia]. eapply Forall_impl; [exact Hb|]. unfold is_byte. cbn. lia.
  - apply zlen_nonneg.
  - by rewrite zget_app_r, Z.sub_diag by lia.
  - intros j Hj. rewrite zget_app_l by lia. intros H0. assert (0 < 0 < 256) by exact (zget_Forall _ _ _ _ Hb H0). lia.
Qed.

Lemma zread_self (xs ys : list Z) : zread (xs ++ ys) 0 (zlen xs) = Some xs.
Proof. apply (zread_mid []); done. Qed.

(** ** Properties *)

(** C33: converting a UTF-16 name of the volume gives the UTF-8 encoding of its
    code points in a buffer of exactly the right size, pairs joined and lone
    surrogates kept as such; only a result that reaches PATH_MAX is an error. *)
Theorem utf16_to_utf8_correct ins ins_len s outs_len : text ins ins_len 0 s ->
  ntfs_ucstombs (Some ins) ins_len (Some None) outs_len = Some (
    if zlen (utf8_string s) <? PATH_MAX then Ok (utf8_string s ++ [0], zlen (utf8_string s)) else Err ENAMETOOLONG).
Proof. intros Ht. exact (utf16_to_utf8_spec _ _ _ Ht outs_len). Qed.

(** The values that UTF-8 encodes: no surrogates. *)
Definition is_scalar (cp : Z) : Prop := is_codepoint cp /\ ~ (0xd800 <= cp <= 0xdfff).

(** No byte ED of the string is followed by one that makes it the three-byte form of a surrogate. *)
Definition no_surrogate_form (s : list Z) (k : Z) : Prop :=
  forall i b, 0 <= i < k -> s.[i] = Some 0xed -> s.[i + 1] = Some b -> b < 0xa0.

Lemma surrogate_form cp : 0xd800 <= cp <= 0xdfff -> exists b c, utf8 cp = [0xed; b; c] /\ 0xa0 <= b.
Proof.
  intros Hc. unfold utf8. rewrite !(proj2 (Z.ltb_ge _ _)) by lia. rewrite (proj2 (Z.ltb_lt cp 0x10000)) by lia.
  replace (0xe0 + cp / 4096) with 0xed by divlia. eexists _, _. split; [done|]. divlia.
Qed.

Lemma no_surrogates s k cps : no_surrogate_form s k -> zread s 0 k = Some (flat_map utf8 cps) -> Forall is_codepoint cps -> Forall is_scalar cps.
Proof.
  intros Hno Hr Hc. apply zread_Some in Hr as (_ & _ & _ & Hl & Hg). apply List.Forall_forall. intros cp Hin. split; [by apply (proj1 (List.Forall_forall _ _) Hc)|].
  intros Hs. destruct (surrogate_form cp Hs) as (b & c & E & Hb). apply in_split in Hin as (l1 & l2 & ->). rewrite flat_map_app in Hl, Hg. cbn [flat_map] in Hl, Hg. rewrite E in Hl, Hg.
  set (x := flat_map utf8 l1) in *. set (y := flat_map utf8 l2) in *. rewrite !zlen_app, !zlen_cons, zlen_nil in Hl. pose proof (zlen_nonneg x). pose proof (zlen_nonneg y).
  pose proof (Hg (zlen x) ltac:(lia)) as H1. pose proof (Hg (zlen x + 1) ltac:(lia)) as H2. rewrite zget_app_r, Z.sub_diag in H1 by lia.
  rewrite zget_app_r in H2 by lia. replace (zlen x + 1 - zlen x) with 1 in H2 by lia. cbn in H1, H2. symmetry in H1, H2. rewrite Z.add_0_l in *.
  specialize (Hno (zlen x) b ltac:(lia) H1 H2). lia.
Qed.

(** C34: converting any C string to UTF-16 stays inside the string and inside
    the allocated buffer.  Unless the string has the three-byte form of a surrogate,
    it succeeds exactly on the shortest-form encodings of Unicode scalar values with
    fewer than PATH_MAX units, and then gives these units and a terminator. *)
Theorem utf8_to_utf16_correct s k : cstring s k ->
  exists r, ntfs_mbstoucs (Some s) (Some None) = Some r /\
  (no_surrogate_form s k ->
    match r with
    | Ok (buf, n) => exists cps, Forall is_scalar cps /\ zread s 0 k = Some (flat_map utf8 cps) /\
        buf = flat_map utf16 cps ++ [0] /\ n = zlen (flat_map utf16 cps) /\ n < PATH_MAX
    | Err _ => forall cps, Forall is_scalar cps -> zread s 0 k = Some (flat_map utf8 cps) -> PATH_MAX <= zlen (flat_map utf16 cps)
    end).
Proof.
  intros Hc. destruct (utf8_to_utf16_spec s k Hc) as (r & E & Hr). exists r. split; [exact E|]. intros Hno. destruct r as [[buf n]|e].
  - destruct Hr as (cps & Hcp & Hrd & Hrest). exists cps. split; [by eapply no_surrogates | done].
  - intros cps Hs. apply Hr. eapply Forall_impl; [exact Hs|]. by intros cp [].
Qed.

(** a name converted to UTF-8 and back is the same name, whatever its units
    are, lone surrogates included, as long as its UTF-8 form fits a path. *)
Theorem utf16_utf8_roundtrip s : Forall is_unit s -> zlen (utf8_string s) < PATH_MAX ->
  exists bs n, ntfs_ucstombs (Some s) (zlen s) (Some None) 0 = Some (Ok (bs, n)) /\
    ntfs_mbstoucs (Some bs) (Some None) = Some (Ok (s ++ [0], zlen s)).
Proof.
  intros Hs Hl. destruct (codepoints_spec s Hs) as [Hcp H16].
  assert (text s (zlen s) 0 s) as Ht.
  { split_and!; [done | done | | by left]. intros j Hj. by rewrite Z.add_0_l. }
  exists (utf8_string s ++ [0]), (zlen (utf8_string s)). split.
  { pose proof (utf16_to_utf8_spec _ _ _ Ht 0) as E. rewrite (proj2 (Z.ltb_lt _ _) Hl) in E. exact E. }
  pose proof (zlen_utf16_le s Hs) as H168.
  destruct (utf8_to_utf16_spec _ _ (cstring_of _ (utf8_string_bytes s Hs))) as (r & E & Hr).
  unfold ntfs_mbstoucs. rewrite E. rewrite zread_self in Hr. destruct r as [[buf n]|e].
  - destruct Hr as (cps & Hcs & [= Hfl] & -> & -> & _). apply flat_utf8_inj in Hfl as <-; [|done..]. by rewrite H16.
  - specialize (Hr (codepoints s) Hcp eq_refl). rewrite H16 in Hr. lia.
Qed.

Definition sample_name : list Z := [0x41; 0xe9; 0x20ac; 0xd83d; 0xde00; 0xd800; 0x42; 0xdc01].

Lemma utf16_to_utf8_correct_witness :
  ntfs_ucstombs (Some (sample_name ++ [0; 7])) 10 (Some None) 0 = Some (
    if zlen (utf8_string sample_name) <? PATH_MAX then Ok (utf8_string sample_name ++ [0], zlen (utf8_string sample_name))
    else Err ENAMETOOLONG).
Proof.
  apply (utf16_to_utf8_correct (sample_name ++ [0; 7]) 10 sample_name 0). split_and!; [done | repeat constructor; done | apply holds_self |].
  right. split; [done | vm_compute; reflexivity].
Defined.

Definition sample_text : list Z := [0x41; 0xe9; 0xd7ff; 0x20ac; 0xd83d; 0xde00; 0x42].

Lemma utf8_to_utf16_correct_witness :
  exists buf n cps, ntfs_mbstoucs (Some (utf8_string sample_text ++ [0])) (Some None) = Some (Ok (buf, n)) /\
    Forall is_scalar cps /\ flat_map utf8 cps = utf8_string sample_text /\ buf = flat_map utf16 cps ++ [0].
Proof.
  destruct (utf8_to_utf16_correct (utf8_string sample_text ++ [0]) (zlen (utf8_string sample_text))) as (r & E & Hr);
    [apply cstring_of, utf8_string_bytes; repeat constructor; done|].
  assert (no_surrogate_form (utf8_string sample_text ++ [0]) (zlen (utf8_string sample_text))) as Hno.
  { intros i b Hi. change (zlen (utf8_string sample_text)) with 14 in Hi.
    assert (i = 0 \/ i = 1 \/ i = 2 \/ i = 3 \/ i = 4 \/ i = 5 \/ i = 6 \/ i = 7 \/ i = 8 \/ i = 9 \/ i = 10 \/ i = 11 \/ i = 12 \/ i = 13) as Hc by lia.
    repeat destruct Hc as [->|Hc]; try subst i; vm_compute; intros [=] [=]; subst; reflexivity. }
  specialize (Hr Hno). destruct r as [[buf n]|e]; [|vm_compute in E; discriminate E].
  destruct Hr as (cps & Hs & Hrd & -> & _). exists (flat_map utf16 cps ++ [0]), n, cps. split_and!; [exact E | exact Hs | | done].
  rewrite zread_self in Hrd. by injection Hrd.
Defined.

(** The three-byte forms of the surrogates D83D and DE00 are accepted, and give the pair whose only UTF-8 form has four bytes. *)
Example surrogate_forms_accepted :
  ntfs_mbstoucs (Some [0xed; 0xa0; 0xbd; 0xed; 0xb8; 0x80; 0]) (Some None) = Some (Ok ([0xd83d; 0xde00; 0], 2)) /\
  ntfs_ucstombs (Some [0xd83d; 0xde00]) 2 (Some None) 0 = Some (Ok ([0xf0; 0x9f; 0x98; 0x80; 0], 4)).
Proof. by vm_compute. Qed.

Lemma utf16_utf8_roundtrip_witness :
  exists bs n, ntfs_ucstombs (Some sample_name) (zlen sample_name) (Some None) 0 = Some (Ok (bs, n)) /\
    ntfs_mbstoucs (Some bs) (Some None) = Some (Ok (sample_name ++ [0], zlen sample_name)).
Proof. apply (utf16_utf8_roundtrip sample_name); [repeat constructor; done | vm_compute; reflexivity]. Defined.
