(* ===== verification/Names.v ===== *)
(** Names of files (libntfs-3g/unistr.c, second half): comparison, collation,
    case conversion, and the names that DOS and Windows forbid.

    A name is the list of its 16-bit units in cpu order; the upcase and locase
    tables are lists indexed by unit. *)

From S2P Require Import Prelude.
Local Open Scope Z_scope.
Local Open Scope c_scope.
Set Default Proof Using "Type*".

Inductive IGNORE_CASE_BOOL := CASE_SENSITIVE | IGNORE_CASE.

(** [if (u < upcase_len) u = upcase[u]]. *)
Definition up (upcase : list Z) (upcase_len u : Z) : option Z := if u <? upcase_len then upcase.[u] else Some u.

(** [if (a < b) return -1; if (a > b) return 1;] and then [k]. *)
Definition cmp_else (a b k : Z) : Z := if a <? b then -1 else if b <? a then 1 else k.

(** [while (--cnt && *name1 == *name2) name1++, name2++]: the position and
    the count left. *)
Fixpoint skip_equal (fuel : nat) (name1 name2 : list Z) (i cnt : Z) : option (Z * Z) :=
  match fuel with
  | O => None
  | S f =>
      let cnt := cnt - 1 in
      if cnt =? 0 then Some (i, cnt)
      else
        a ← name1.[i];
        b ← name2.[i];
        if a =? b then skip_equal f name1 name2 (i + 1) cnt else Some (i, cnt)
  end.

(** The do-while loops over upcased characters; [i] is the next position. *)
Fixpoint upcased_loop (fuel : nat) (name1 name2 upcase : list Z) (upcase_len i cnt : Z) : option (Z * Z) :=
  match fuel with
  | O => None
  | S f =>
      a ← name1.[i];
      u1 ← up upcase upcase_len a;
      b ← name2.[i];
      u2 ← up upcase upcase_len b;
      if (u1 =? u2) && negb (cnt - 1 =? 0) then upcased_loop f name1 name2 upcase upcase_len (i + 1) (cnt - 1)
      else Some (u1, u2)
  end.

Definition ntfs_names_full_collate (name1 : list Z) (name1_len : Z) (name2 : list Z) (name2_len : Z)
    (ic : IGNORE_CASE_BOOL) (upcase : list Z) (upcase_len : Z) : option Z :=
  let cnt := Z.min name1_len name2_len in
  let fuel := Z.to_nat cnt in
  if 0 <? cnt then
    match ic with
    | CASE_SENSITIVE =>
        r ← skip_equal fuel name1 name2 0 cnt;
        let '(i, cnt) := r in
        c1 ← name1.[i];
        c2 ← name2.[i];
        u1 ← up upcase upcase_len c1;
        u2 ← up upcase upcase_len c2;
        r ← (if (u1 =? u2) && negb (cnt =? 0) then upcased_loop fuel name1 name2 upcase upcase_len (i + 1) cnt
             else Some (u1, u2));
        let '(u1, u2) := r in
        Some (cmp_else u1 u2 (cmp_else name1_len name2_len (cmp_else c1 c2 0)))
    | IGNORE_CASE =>
        r ← upcased_loop fuel name1 name2 upcase upcase_len 0 cnt;
        let '(u1, u2) := r in
        Some (cmp_else u1 u2 (cmp_else name1_len name2_len 0))
    end
  else Some (cmp_else name1_len name2_len 0).

(** [for (i = 0; i < n; ++i)], stopping at a difference or a NUL. *)
Fixpoint ucsncmp_loop (fuel : nat) (s1 s2 : list Z) (i n : Z) : option Z :=
  if negb (i <? n) then Some 0
  else match fuel with
  | O => None
  | S f =>
      c1 ← s1.[i];
      c2 ← s2.[i];
      if c1 <? c2 then Some (-1)
      else if c2 <? c1 then Some 1
      else if c1 =? 0 then Some 0
      else ucsncmp_loop f s1 s2 (i + 1) n
  end.

Definition ntfs_ucsncmp (s1 s2 : list Z) (n : Z) : option Z := ucsncmp_loop (Z.to_nat n) s1 s2 0 n.

Fixpoint ucsncasecmp_loop (fuel : nat) (s1 s2 : list Z) (i n : Z) (upcase : list Z) (upcase_size : Z) : option Z :=
  if negb (i <? n) then Some 0
  else match fuel with
  | O => None
  | S f =>
      c1 ← s1.[i];
      c1 ← up upcase upcase_size c1;
      c2 ← s2.[i];
      c2 ← up upcase upcase_size c2;
      if c1 <? c2 then Some (-1)
      else if c2 <? c1 then Some 1
      else if c1 =? 0 then Some 0
      else ucsncasecmp_loop f s1 s2 (i + 1) n upcase upcase_size
  end.

Definition ntfs_ucsncasecmp (s1 s2 : list Z) (n : Z) (upcase : list Z) (upcase_size : Z) : option Z :=
  ucsncasecmp_loop (Z.to_nat n) s1 s2 0 n upcase upcase_size.

Definition ntfs_names_are_equal (s1 : list Z) (s1_len : Z) (s2 : list Z) (s2_len : Z) (ic : IGNORE_CASE_BOOL)
    (upcase : list Z) (upcase_size : Z) : option bool :=
  if negb (s1_len =? s2_len) then Some false
  else if s1_len =? 0 then Some true
  else match ic with
  | CASE_SENSITIVE => r ← ntfs_ucsncmp s1 s2 s1_len; Some (r =? 0)
  | IGNORE_CASE => r ← ntfs_ucsncasecmp s1 s2 s1_len upcase upcase_size; Some (r =? 0)
  end.

Fixpoint ucsnlen_loop (fuel : nat) (s : list Z) (i maxlen : Z) : option Z :=
  if negb (i <? maxlen) then Some i
  else match fuel with
  | O => None
  | S f => c ← s.[i]; if c =? 0 then Some i else ucsnlen_loop f s (i + 1) maxlen
  end.

Definition ntfs_ucsnlen (s : list Z) (maxlen : Z) : option Z := ucsnlen_loop (Z.to_nat maxlen) s 0 maxlen.

(** The copy, its terminator included. *)
Definition ntfs_ucsndup (s : list Z) (maxlen : Z) : option (list Z) :=
  len ← ntfs_ucsnlen s maxlen;
  bs ← zread s 0 len;
  dst ← zwrite (replicate (Z.to_nat (len + 1)) 0) 0 bs;
  zset dst len 0.

(** [for (i = 0; i < name_len; i++) if (name[i] < len) name[i] = table[name[i]]]. *)
Fixpoint recase_loop (fuel : nat) (name : list Z) (i name_len : Z) (table : list Z) (len : Z) : option (list Z) :=
  if negb (i <? name_len) then Some name
  else match fuel with
  | O => None
  | S f =>
      u ← name.[i];
      name ← (if u <? len then v ← table.[u]; zset name i v else Some name);
      recase_loop f name (i + 1) name_len table len
  end.

Definition ntfs_name_upcase (name : list Z) (name_len : Z) (upcase : list Z) (upcase_len : Z) : option (list Z) :=
  recase_loop (Z.to_nat name_len) name 0 name_len upcase upcase_len.

Definition ntfs_name_locase (name : list Z) (name_len : Z) (locase : option (list Z)) (locase_len : Z) : option (list Z) :=
  match locase with
  | Some locase => recase_loop (Z.to_nat name_len) name 0 name_len locase locase_len
  | None => Some name
  end.

(** The table of lower-case equivalents: the last character with a given
    upper-case form wins. *)
Fixpoint locase_loop (fuel : nat) (lc uc : list Z) (i uc_cnt : Z) : option (list Z) :=
  if negb (i <? uc_cnt) then Some lc
  else match fuel with
  | O => None
  | S f =>
      upp ← uc.[i];
      lc ← (if negb (upp =? i) && (upp <? uc_cnt) then zset lc upp (u16 i) else Some lc);
      locase_loop f lc uc (i + 1) uc_cnt
  end.

Definition ntfs_locase_table_build (uc : list Z) (uc_cnt : Z) : option (list Z) :=
  locase_loop (Z.to_nat uc_cnt) (map (fun k => u16 (Z.of_nat k)) (seq 0 (Z.to_nat uc_cnt))) uc 0 uc_cnt.

(** ** Forbidden names *)

Definition mainset : Z :=
  Z.lor (Z.shiftl 1 (0x22 - 0x20)) (Z.lor (Z.shiftl 1 (0x2a - 0x20)) (Z.lor (Z.shiftl 1 (0x2f - 0x20))
    (Z.lor (Z.shiftl 1 (0x3a - 0x20)) (Z.lor (Z.shiftl 1 (0x3c - 0x20)) (Z.lor (Z.shiftl 1 (0x3e - 0x20))
      (Z.shiftl 1 (0x3f - 0x20))))))).

Definition bad_char (ch : Z) : bool :=
  (ch <? 0x20) || ((ch <? 0x40) && negb (Z.land (Z.shiftl 1 (ch - 0x20)) mainset =? 0)) || (ch =? 0x5c) || (ch =? 0x7c).

Fixpoint forbidden_loop (fuel : nat) (name : list Z) (i len : Z) (forbidden : bool) : option bool :=
  if negb (i <? len) then Some forbidden
  else match fuel with
  | O => None
  | S f => ch ← name.[i]; forbidden_loop f name (i + 1) len (if bad_char ch then true else forbidden)
  end.

(** errno is set to EINVAL when the result is true. *)
Definition ntfs_forbidden_chars (name : list Z) (len : Z) (strict : bool) : option bool :=
  forbidden ← (if len =? 0 then Some true
               else if strict then c ← name.[len - 1]; Some ((c =? 0x20) || (c =? 0x2e))
               else Some false);
  forbidden_loop (Z.to_nat len) name 0 len forbidden.

Definition con : list Z := [0x63; 0x6f; 0x6e].
Definition prn : list Z := [0x70; 0x72; 0x6e].
Definition aux : list Z := [0x61; 0x75; 0x78].
Definition nul : list Z := [0x6e; 0x75; 0x6c].
Definition com : list Z := [0x63; 0x6f; 0x6d].
Definition lpt : list Z := [0x6c; 0x70; 0x74].

(** The quick check on the first two characters. *)
Definition rough_hash (n0 n1 : Z) : bool :=
  Z.rem (Z.lxor (Z.land n0 31 * 48) (Z.land n1 31 * 165)) 23 =? 17.

(** [cond1 && cond2], the second evaluated only when the first holds. *)
Definition and_then (c : option bool) (k : option bool) : option bool := match c with Some true => k | _ => c end.
Definition or_else (c : option bool) (k : option bool) : option bool := match c with Some false => k | _ => c end.

Section forbidden.
Context (upcase : list Z) (upcase_len : Z).

Definition same_as (name w : list Z) : option bool := r ← ntfs_ucsncasecmp name w 3 upcase upcase_len; Some (r =? 0).

(** [(len == n) || (name[n] == dot)]. *)
Definition ends_at (name : list Z) (len n : Z) : option bool :=
  if len =? n then Some true else c ← name.[n]; Some (c =? 0x2e).

(** [(len > 3) && (name[3] >= '1') && (name[3] <= '9')]. *)
Definition device_digit (name : list Z) (len : Z) : option bool :=
  if 3 <? len then c ← name.[3]; Some ((0x31 <=? c) && (c <=? 0x39)) else Some false.

Definition ntfs_forbidden_names (name : list Z) (len : Z) (strict : bool) : option bool :=
  forbidden ← ntfs_forbidden_chars name len strict;
  if negb forbidden && (3 <=? len) then
    n0 ← name.[0];
    n1 ← name.[1];
    if rough_hash n0 n1 then
      n2 ← name.[2];
      let k := Z.land n2 (Z.lnot 0x20) in
      if k =? 0x4e then and_then (ends_at name len 3) (or_else (same_as name con) (same_as name prn))
      else if k =? 0x58 then and_then (ends_at name len 3) (same_as name aux)
      else if k =? 0x4c then and_then (ends_at name len 3) (same_as name nul)
      else if k =? 0x4d then and_then (device_digit name len) (and_then (ends_at name len 4) (same_as name com))
      else if k =? 0x54 then and_then (device_digit name len) (and_then (ends_at name len 4) (same_as name lpt))
      else Some forbidden
    else Some forbidden
  else Some forbidden.

Fixpoint collapsible_loop (fuel : nat) (shortname longname : list Z) (i shortlen : Z) : option bool :=
  if negb (i <? shortlen) then Some true
  else match fuel with
  | O => None
  | S f =>
      ch ← longname.[i];
      cs ← shortname.[i];
      differ ← (if cs =? ch then Some false
                else if (upcase_len <=? ch) || (upcase_len <=? cs) then Some true
                else us ← upcase.[cs]; uh ← upcase.[ch]; Some (negb (us =? uh)));
      if (differ : bool) then Some false else collapsible_loop f shortname longname (i + 1) shortlen
  end.

Definition ntfs_collapsible_chars (shortname : list Z) (shortlen : Z) (longname : list Z) (longlen : Z) : option bool :=
  if shortlen =? longlen then collapsible_loop (Z.to_nat shortlen) shortname longname 0 shortlen else Some false.
End forbidden.

(** ** Lexicographic order *)

(** The reference order on lists: element by element, a proper prefix first. *)
Fixpoint lex (l1 l2 : list Z) : Z :=
  match l1, l2 with
  | [], [] => 0
  | [], _ :: _ => -1
  | _ :: _, [] => 1
  | a :: l1, b :: l2 => cmp_else a b (lex l1 l2)
  end.

Lemma cmp_else_refl a k : cmp_else a a k = k.
Proof. unfold cmp_else. by rewrite Z.ltb_irrefl. Qed.

Lemma lex_values l1 l2 : lex l1 l2 = -1 \/ lex l1 l2 = 0 \/ lex l1 l2 = 1.
Proof.
  revert l2; induction l1 as [|a l1 IH]; intros [|b l2]; cbn [lex]; auto. unfold cmp_else.
  destruct (a <? b); [auto|]. destruct (b <? a); auto.
Qed.

Lemma lex_refl l : lex l l = 0.
Proof. induction l as [|a l IH]; cbn [lex]; [done|]. unfold cmp_else. by rewrite Z.ltb_irrefl. Qed.

Lemma lex_eq l1 l2 : lex l1 l2 = 0 -> l1 = l2.
Proof.
  revert l2; induction l1 as [|a l1 IH]; intros [|b l2]; cbn [lex]; try done. unfold cmp_else.
  destruct (Z.ltb_spec a b); [done|]. destruct (Z.ltb_spec b a); [done|]. intros ?%IH. f_equal; [lia | done].
Qed.

Lemma lex_antisym l1 l2 : lex l2 l1 = - lex l1 l2.
Proof.
  revert l2; induction l1 as [|a l1 IH]; intros [|b l2]; cbn [lex]; try done. unfold cmp_else. rewrite (IH l2).
  destruct (Z.ltb_spec a b), (Z.ltb_spec b a); done || lia.
Qed.

Lemma lex_trans l1 l2 l3 : lex l1 l2 <= 0 -> lex l2 l3 <= 0 -> lex l1 l3 <= 0.
Proof.
  revert l2 l3; induction l1 as [|a l1 IH]; intros [|b l2] [|c l3]; cbn [lex]; try done; try lia. unfold cmp_else.
  destruct (Z.ltb_spec a b), (Z.ltb_spec b a), (Z.ltb_spec b c), (Z.ltb_spec c b), (Z.ltb_spec a c), (Z.ltb_spec c a); try lia.
  apply IH.
Qed.

Lemma lex_trans_strict l1 l2 l3 : lex l1 l2 < 0 -> lex l2 l3 <= 0 -> lex l1 l3 < 0.
Proof.
  intros H1 H2. pose proof (lex_trans l1 l2 l3 ltac:(lia) H2). destruct (lex_values l1 l3) as [|[E|]]; [lia | | lia].
  apply lex_eq in E as ->. rewrite lex_antisym in H2. lia.
Qed.

Lemma lex_trans_strict_r l1 l2 l3 : lex l1 l2 <= 0 -> lex l2 l3 < 0 -> lex l1 l3 < 0.
Proof.
  intros H1 H2. pose proof (lex_trans l1 l2 l3 H1 ltac:(lia)). destruct (lex_values l1 l3) as [|[E|]]; [lia | | lia].
  apply lex_eq in E as ->. rewrite lex_antisym in H2. lia.
Qed.

(** On lists of possibly different lengths: the common part decides first, then
    the lengths, then [k]. *)
Lemma lex_app_common a b l1 l2 : length a = length b -> lex (a ++ l1) (b ++ l2) = if lex a b =? 0 then lex l1 l2 else lex a b.
Proof.
  revert b; induction a as [|x a IH]; intros [|y b]; try done. cbn [app lex length]. intros [= Hl]. unfold cmp_else.
  rewrite (IH b Hl). destruct (Z.ltb_spec x y); [done|]. by destruct (Z.ltb_spec y x).
Qed.

(** The two keys of the order on names: ignoring case, then exact. *)
Definition lex2 (u1 n1 u2 n2 : list Z) : Z := if lex u1 u2 =? 0 then lex n1 n2 else lex u1 u2.

Lemma lex2_values u1 n1 u2 n2 : lex2 u1 n1 u2 n2 = -1 \/ lex2 u1 n1 u2 n2 = 0 \/ lex2 u1 n1 u2 n2 = 1.
Proof. unfold lex2. destruct (_ =? _); apply lex_values. Qed.

Lemma lex2_antisym u1 n1 u2 n2 : lex2 u2 n2 u1 n1 = - lex2 u1 n1 u2 n2.
Proof. unfold lex2. rewrite (lex_antisym u1 u2), (lex_antisym n1 n2). destruct (Z.eqb_spec (lex u1 u2) 0), (Z.eqb_spec (- lex u1 u2) 0); lia. Qed.

Lemma lex2_trans u1 n1 u2 n2 u3 n3 : lex2 u1 n1 u2 n2 <= 0 -> lex2 u2 n2 u3 n3 <= 0 -> lex2 u1 n1 u3 n3 <= 0.
Proof.
  unfold lex2. destruct (Z.eqb_spec (lex u1 u2) 0) as [E1|E1], (Z.eqb_spec (lex u2 u3) 0) as [E2|E2]; intros H1 H2.
  - apply lex_eq in E1 as ->, E2 as ->. rewrite lex_refl. cbn. by eapply lex_trans.
  - apply lex_eq in E1 as ->. by rewrite (proj2 (Z.eqb_neq _ _) E2).
  - apply lex_eq in E2 as <-. by rewrite (proj2 (Z.eqb_neq _ _) E1).
  - pose proof (lex_trans_strict u1 u2 u3 ltac:(destruct (lex_values u1 u2); lia) H2). destruct (Z.eqb_spec (lex u1 u3) 0); lia.
Qed.

(** ** Full collation *)

(** What the upcase table does to a unit. *)
Definition upc (upcase : list Z) (upcase_len c : Z) : Z := default c (up upcase upcase_len c).

Lemma drop_zget (l : list Z) i c : l.[i] = Some c -> drop (Z.to_nat i) l = c :: drop (Z.to_nat (i + 1)) l.
Proof.
  intros H. pose proof (zget_bounds _ _ _ H). unfold zget in H. rewrite (proj2 (Z.ltb_ge i 0)) in H by lia.
  rewrite (drop_S _ _ _ H). do 2 f_equal. lia.
Qed.

Definition seg (l : list Z) (i n : Z) : list Z := take (Z.to_nat n) (drop (Z.to_nat i) l).

Lemma seg_cons (l : list Z) i n c : l.[i] = Some c -> 0 < n -> seg l i n = c :: seg l (i + 1) (n - 1).
Proof.
  intros H Hn. unfold seg. rewrite (drop_zget _ _ _ H). replace (Z.to_nat n) with (S (Z.to_nat (n - 1))) by lia. done.
Qed.

Lemma wf_nonneg l i (c : Z) : Forall (fun c => 0 <= c) l -> l.[i] = Some c -> 0 <= c.
Proof. intros Hl. apply (zget_Forall _ _ _ _ Hl). Qed.

Lemma skip_equal_spec fuel n1 n2 i cnt : 0 <= i -> 1 <= cnt <= Z.of_nat fuel -> i + cnt <= zlen n1 -> i + cnt <= zlen n2 ->
  exists j left, skip_equal fuel n1 n2 i cnt = Some (j, left) /\ i <= j /\ 0 <= left /\ j + 1 + left = i + cnt /\
    seg n1 i (j - i) = seg n2 i (j - i) /\ (left = 0 \/ n1.[j] <> n2.[j]).
Proof.
  revert i cnt; induction fuel as [|f IH]; intros i cnt Hi Hc H1 H2; [lia|]. cbn [skip_equal].
  destruct (Z.eqb_spec (cnt - 1) 0) as [Hz|Hz].
  { exists i, (cnt - 1). split_and!; try lia; [done | by rewrite Z.sub_diag]. }
  destruct (zget_inside n1 i) as [a Ha]; [lia|]. destruct (zget_inside n2 i) as [b Hb]; [lia|]. rewrite Ha, Hb.
  cbn [mbind option_bind]. destruct (Z.eqb_spec a b) as [->|Hne].
  - destruct (IH (i + 1) (cnt - 1)) as (j & left & E & ? & ? & ? & Hs & Hd); [lia..|].
    exists j, left. split_and!; [done | lia | lia | lia | | done].
    rewrite (seg_cons n1 i (j - i) b Ha), (seg_cons n2 i (j - i) b Hb) by lia. f_equal.
    replace (j - i - 1) with (j - (i + 1)) by lia. done.
  - exists i, (cnt - 1). split_and!; try lia; [done | by rewrite Z.sub_diag |]. right. congruence.
Qed.

Lemma seg_app (l : list Z) i n m : 0 <= i -> 0 <= n -> 0 <= m -> i + n + m <= zlen l -> seg l i (n + m) = seg l i n ++ seg l (i + n) m.
Proof.
  intros. unfold seg. rewrite Z2Nat.inj_add by lia. rewrite <-take_take_drop. f_equal. rewrite drop_drop. do 2 f_equal. lia.
Qed.

Lemma zlen_seg (l : list Z) i n : 0 <= i -> 0 <= n -> i + n <= zlen l -> zlen (seg l i n) = n.
Proof. intros. unfold seg, zlen in *. rewrite length_take, length_drop. lia. Qed.

Lemma seg_whole (l : list Z) n : zlen l <= n -> seg l 0 n = l.
Proof. intros. unfold seg. cbn [Z.to_nat drop skipn]. apply take_ge. unfold zlen in *. lia. Qed.

(** The lengths decide between a name and a longer one it begins. *)
Lemma lex_lengths (n1 n2 : list Z) k (f : list Z -> list Z) (Hf : forall l, length (f l) = length l) (Happ : forall a b, f (a ++ b) = f a ++ f b) :
  let c := Z.min (zlen n1) (zlen n2) in
  (if lex (f (seg n1 0 c)) (f (seg n2 0 c)) =? 0 then cmp_else (zlen n1) (zlen n2) k else lex (f (seg n1 0 c)) (f (seg n2 0 c)))
  = if lex (f n1) (f n2) =? 0 then k else lex (f n1) (f n2).
Proof.
  intros c. pose proof (zlen_nonneg n1). pose proof (zlen_nonneg n2).
  assert (forall l, c <= zlen l -> l = seg l 0 c ++ seg l c (zlen l - c)) as Hsplit.
  { intros l Hl. rewrite <-seg_app by lia. replace (c + (zlen l - c)) with (zlen l) by lia. by rewrite seg_whole. }
  assert (lex (f n1) (f n2) = if lex (f (seg n1 0 c)) (f (seg n2 0 c)) =? 0
    then lex (f (seg n1 c (zlen n1 - c))) (f (seg n2 c (zlen n2 - c))) else lex (f (seg n1 0 c)) (f (seg n2 0 c))) as ->.
  { rewrite (Hsplit n1) at 1 by lia. rewrite (Hsplit n2) at 1 by lia. rewrite !Happ. apply lex_app_common. rewrite !Hf.
    pose proof (zlen_seg n1 0 c). pose proof (zlen_seg n2 0 c). unfold zlen in *. lia. }
  destruct (Z.eqb_spec (lex (f (seg n1 0 c)) (f (seg n2 0 c))) 0) as [E|E]; [|by rewrite (proj2 (Z.eqb_neq _ _) E)].
  assert (forall l, c <= zlen l -> length (f (seg l c (zlen l - c))) = Z.to_nat (zlen l - c)) as Hl.
  { intros l Hl. rewrite Hf. pose proof (zlen_seg l c (zlen l - c)). unfold zlen in *. lia. }
  pose proof (Hl n1 ltac:(lia)) as L1. pose proof (Hl n2 ltac:(lia)) as L2. unfold cmp_else.
  destruct (f (seg n1 c (zlen n1 - c))), (f (seg n2 c (zlen n2 - c))); cbn [length lex] in *;
    destruct (Z.ltb_spec (zlen n1) (zlen n2)), (Z.ltb_spec (zlen n2) (zlen n1)); try done; lia.
Qed.
Section collate.
Context (upcase : list Z) (upcase_len : Z) (Hlen : upcase_len <= zlen upcase).

Let U := upc upcase upcase_len.

Lemma up_upc c : 0 <= c -> up upcase upcase_len c = Some (U c).
Proof.
  intros Hc. unfold U, upc, up. destruct (Z.ltb_spec c upcase_len); [|done].
  by destruct (zget_inside upcase c) as [v ->]; [lia|].
Qed.

(** The upcased loop ends with a pair of characters that decides the order of
    the segments, ignoring case. *)
Lemma upcased_loop_spec fuel n1 n2 i cnt k :
  Forall (fun c => 0 <= c) n1 -> Forall (fun c => 0 <= c) n2 -> 0 <= i -> 1 <= cnt <= Z.of_nat fuel ->
  i + cnt <= zlen n1 -> i + cnt <= zlen n2 ->
  exists u1 u2, upcased_loop fuel n1 n2 upcase upcase_len i cnt = Some (u1, u2) /\
    cmp_else u1 u2 k = if lex (map U (seg n1 i cnt)) (map U (seg n2 i cnt)) =? 0 then k
                       else lex (map U (seg n1 i cnt)) (map U (seg n2 i cnt)).
Proof.
  revert i cnt; induction fuel as [|f IH]; intros i cnt H1 H2 Hi Hc Hl1 Hl2; [lia|]. cbn [upcased_loop].
  destruct (zget_inside n1 i) as [a Ha]; [lia|]. destruct (zget_inside n2 i) as [b Hb]; [lia|]. rewrite Ha, Hb.
  pose proof (wf_nonneg _ _ _ H1 Ha). pose proof (wf_nonneg _ _ _ H2 Hb).
  cbn [mbind option_bind]. rewrite !up_upc by done. cbn [mbind option_bind].
  rewrite (seg_cons n1 i cnt a Ha), (seg_cons n2 i cnt b Hb) by lia. cbn [map lex].
  destruct (Z.eqb_spec (U a) (U b)) as [Heq|Hne]; cbn [andb].
  - destruct (Z.eqb_spec (cnt - 1) 0) as [Hz|Hz]; cbn [negb].
    + exists (U a), (U b). split; [done|]. rewrite Hz. cbn [seg]. unfold seg. cbn [Z.to_nat take firstn map lex].
      unfold cmp_else. rewrite Heq, Z.ltb_irrefl. done.
    + destruct (IH (i + 1) (cnt - 1) H1 H2) as (u1 & u2 & E & Hr); [lia..|]. exists u1, u2. split; [done|]. rewrite Hr.
      unfold cmp_else. by rewrite Heq, Z.ltb_irrefl.
  - exists (U a), (U b). split; [done|]. unfold cmp_else. destruct (Z.ltb_spec (U a) (U b)); [done|].
    destruct (Z.ltb_spec (U b) (U a)); [done | lia].
Qed.

(** The collation of directories is the order by the two keys. *)
Lemma full_collate_spec n1 n2 ic : Forall (fun c => 0 <= c) n1 -> Forall (fun c => 0 <= c) n2 ->
  ntfs_names_full_collate n1 (zlen n1) n2 (zlen n2) ic upcase upcase_len = Some (
    match ic with
    | CASE_SENSITIVE => lex2 (map U n1) n1 (map U n2) n2
    | IGNORE_CASE => lex (map U n1) (map U n2)
    end).
Proof.
  intros H1 H2. pose proof (zlen_nonneg n1). pose proof (zlen_nonneg n2). unfold ntfs_names_full_collate.
  set (c := Z.min (zlen n1) (zlen n2)). cbv zeta. destruct (Z.ltb_spec 0 c) as [Hc|Hc].
  2: { f_equal. pose proof (fun k => lex_lengths n1 n2 k (map U) (length_map U) (map_app U)) as Hm. cbv zeta in Hm. fold c in Hm.
       pose proof (lex_lengths n1 n2 0 id (fun l => eq_refl) (fun a b => eq_refl)) as Hi. cbv zeta in Hi. fold c in Hi.
       assert (forall l, seg l 0 c = []) as E by (intros l; unfold seg; by replace (Z.to_nat c) with 0%nat by lia).
       specialize (Hm 0). rewrite !E in *. cbn in Hm, Hi. unfold id in Hi.
       destruct ic; [|destruct (Z.eqb_spec (lex (map U n1) (map U n2)) 0); lia].
       unfold lex2. destruct (Z.eqb_spec (lex (map U n1) (map U n2)) 0), (Z.eqb_spec (lex n1 n2) 0); lia. }
  destruct ic.
  2: { destruct (upcased_loop_spec (Z.to_nat c) n1 n2 0 c (cmp_else (zlen n1) (zlen n2) 0) H1 H2) as (u1 & u2 & -> & Hr); [lia..|].
       cbn [mbind option_bind]. rewrite Hr. f_equal. pose proof (lex_lengths n1 n2 0 (map U) (length_map U) (map_app U)) as Hm.
       cbv zeta in Hm. fold c in Hm. rewrite Hm. by destruct (Z.eqb_spec (lex (map U n1) (map U n2)) 0) as [->|]. }
  destruct (skip_equal_spec (Z.to_nat c) n1 n2 0 c) as (j & left & -> & Hj & Hl & Hjl & Hs & Hd); [lia..|].
  cbn [mbind option_bind]. rewrite Z.sub_0_r in Hs.
  destruct (zget_inside n1 j) as [c1 Hc1]; [lia|]. destruct (zget_inside n2 j) as [c2 Hc2]; [lia|]. rewrite Hc1, Hc2. cbn [mbind option_bind].
  pose proof (wf_nonneg _ _ _ H1 Hc1). pose proof (wf_nonneg _ _ _ H2 Hc2). rewrite !up_upc by done. cbn [mbind option_bind].
  set (k := cmp_else (zlen n1) (zlen n2) (cmp_else c1 c2 0)).
  assert (exists u1 u2, (if (U c1 =? U c2) && negb (left =? 0) then upcased_loop (Z.to_nat c) n1 n2 upcase upcase_len (j + 1) left
    else Some (U c1, U c2)) = Some (u1, u2) /\ cmp_else u1 u2 k = if lex (map U (seg n1 0 c)) (map U (seg n2 0 c)) =? 0 then k
      else lex (map U (seg n1 0 c)) (map U (seg n2 0 c))) as (u1 & u2 & -> & Hr).
  { assert (lex (map U (seg n1 0 c)) (map U (seg n2 0 c)) = lex (map U (seg n1 j (1 + left))) (map U (seg n2 j (1 + left)))) as ->.
    { replace c with (j + (1 + left)) by lia. rewrite !(seg_app _ 0 j (1 + left)) by lia. rewrite !map_app, Hs, Z.add_0_l.
      by rewrite lex_app_common, lex_refl by done. }
    rewrite (seg_cons n1 j (1 + left) c1 Hc1), (seg_cons n2 j (1 + left) c2 Hc2) by lia. replace (1 + left - 1) with left by lia. cbn [map lex].
    destruct (Z.eqb_spec (U c1) (U c2)) as [Heq|Hne]; cbn [andb].
    - rewrite Heq, !cmp_else_refl. destruct (Z.eqb_spec left 0) as [->|Hne]; cbn [negb].
      + exists (U c2), (U c2). split; [done|]. unfold seg. cbn. by rewrite cmp_else_refl.
      + apply upcased_loop_spec; done || lia.
    - exists (U c1), (U c2). split; [done|]. unfold cmp_else. destruct (Z.ltb_spec (U c1) (U c2)); [done|].
      destruct (Z.ltb_spec (U c2) (U c1)); [done | lia]. }
  cbn [mbind option_bind]. rewrite Hr. f_equal. unfold k.
  pose proof (lex_lengths n1 n2 (cmp_else c1 c2 0) (map U) (length_map U) (map_app U)) as Hm. cbv zeta in Hm. fold c in Hm. rewrite Hm.
  unfold lex2. destruct (Z.eqb_spec (lex (map U n1) (map U n2)) 0) as [E|]; [|done].
  apply lex_eq in E. apply (f_equal (length (A := Z))) in E as Elen. rewrite !length_map in Elen.
  assert (zlen n1 = zlen n2) as Hz by (unfold zlen; lia).
  rewrite <-(seg_whole n1 c), <-(seg_whole n2 c) by lia. replace c with (j + (1 + left)) by lia.
  rewrite !(seg_app _ 0 j (1 + left)) by lia. rewrite Hs, Z.add_0_l. rewrite lex_app_common, lex_refl by done. cbn [Z.eqb].
  rewrite (seg_cons n1 j (1 + left) c1 Hc1), (seg_cons n2 j (1 + left) c2 Hc2) by lia. cbn [lex].
  destruct Hd as [->|Hd].
  - unfold seg. cbn. done.
  - unfold cmp_else. destruct (Z.ltb_spec c1 c2); [done|]. destruct (Z.ltb_spec c2 c1); [done|].
    destruct Hd. rewrite Hc1, Hc2. f_equal. lia.
Qed.
End collate.

(** ** Forbidden names *)

Lemma forbidden_loop_spec fuel name i acc : 0 <= i -> i <= zlen name -> zlen name - i <= Z.of_nat fuel ->
  forbidden_loop fuel name i (zlen name) acc = Some (acc || existsb bad_char (drop (Z.to_nat i) name)).
Proof.
  revert i acc; induction fuel as [|f IH]; intros i acc Hi Hl Hf; cbn [forbidden_loop].
  - rewrite (proj2 (Z.ltb_ge i (zlen name))) by lia. cbn [negb]. rewrite drop_ge by (unfold zlen in *; lia). cbn. by rewrite orb_false_r.
  - destruct (Z.ltb_spec i (zlen name)); cbn [negb].
    + destruct (zget_inside name i) as [c Hc]; [lia|]. rewrite Hc. cbn [mbind option_bind]. rewrite IH by lia.
      rewrite (drop_zget _ _ _ Hc). cbn [existsb]. by destruct (bad_char c), acc.
    + rewrite drop_ge by (unfold zlen in *; lia). cbn. by rewrite orb_false_r.
Qed.

(** Empty, ending in a dot or a space when that matters, or with a control
    character or one of the nine excluded ones. *)
Definition forbidden_chars_spec (name : list Z) (strict : bool) : bool :=
  (zlen name =? 0) || (strict && match last name with Some c => (c =? 0x20) || (c =? 0x2e) | None => false end)
  || existsb bad_char name.

Lemma forbidden_chars_ok name strict : ntfs_forbidden_chars name (zlen name) strict = Some (forbidden_chars_spec name strict).
Proof.
  unfold ntfs_forbidden_chars, forbidden_chars_spec. pose proof (zlen_nonneg name) as Hn.
  assert (forall acc, forbidden_loop (Z.to_nat (zlen name)) name 0 (zlen name) acc = Some (acc || existsb bad_char name)) as Hloop.
  { intros acc. rewrite forbidden_loop_spec by lia. done. }
  destruct (Z.eqb_spec (zlen name) 0) as [E|E]; cbn [mbind option_bind]; [by rewrite Hloop|].
  destruct strict; cbn [mbind option_bind]; [|by rewrite Hloop].
  destruct (zget_inside name (zlen name - 1)) as [c Hc]; [lia|]. rewrite Hc. cbn [mbind option_bind]. rewrite Hloop.
  rewrite last_lookup. unfold zget, zlen in *. rewrite (proj2 (Z.ltb_ge _ 0)) in Hc by lia.
  replace (pred (length name)) with (Z.to_nat (Z.of_nat (length name) - 1)) by lia. by rewrite Hc.
Qed.

(** ASCII upper case. *)
Definition fold_case (c : Z) : Z := if (0x61 <=? c) && (c <=? 0x7a) then c - 0x20 else c.

Definition ends_base (rest : list Z) : bool := match rest with [] => true | d :: _ => d =? 0x2e end.

Definition word (a b c : Z) (w : list Z) : bool := bool_decide (map fold_case [a; b; c] = map fold_case w).

(** CON, PRN, AUX, NUL, COM1..COM9, LPT1..LPT9, alone or with a suffix. *)
Definition reserved (name : list Z) : bool :=
  match name with
  | a :: b :: c :: rest =>
      ((word a b c con || word a b c prn || word a b c aux || word a b c nul) && ends_base rest)
      || ((word a b c com || word a b c lpt) &&
          match rest with d :: rest => (0x31 <=? d) && (d <=? 0x39) && ends_base rest | [] => false end)
  | _ => false
  end.

Lemma fold_case_iff c X : 0x41 <= X <= 0x5a -> fold_case c = X <-> c = X \/ c = X + 0x20.
Proof. intros HX. unfold fold_case. destruct (Z.leb_spec 0x61 c), (Z.leb_spec c 0x7a); cbn [andb]; lia. Qed.

Lemma clear_bit5 c X : 0 <= c -> 0x41 <= X <= 0x5a -> (Z.land c (Z.lnot 0x20) =? X) = (fold_case c =? X).
Proof.
  intros Hc HX. apply eq_true_iff_eq. rewrite !Z.eqb_eq, fold_case_iff by done.
  assert (Z.testbit X 5 = false) as HX5.
  { assert (forallb (fun k => negb (Z.testbit (Z.of_nat k) 5)) (seq 0x41 26) = true) as H by (vm_compute; reflexivity).
    rewrite forallb_forall in H. specialize (H (Z.to_nat X)). rewrite Z2Nat.id in H by lia. apply negb_true_iff, H, in_seq. lia. }
  assert (Z.land c 0x20 = if Z.testbit c 5 then 0x20 else 0) as Hl.
  { apply Z.bits_inj'. intros k Hk. rewrite Z.land_spec. change 0x20 with (2 ^ 5). rewrite Z.pow2_bits_eqb by lia.
    destruct (Z.eqb_spec 5 k) as [<-|Hne].
    - rewrite andb_true_r. by destruct (Z.testbit c 5).
    - rewrite andb_false_r. destruct (Z.testbit c 5); [|by rewrite Z.bits_0]. rewrite Z.pow2_bits_eqb by lia. by rewrite (proj2 (Z.eqb_neq 5 k)). }
  change (Z.land c (Z.lnot 0x20)) with (Z.ldiff c 0x20) in *.
  replace (Z.land c (Z.lnot 32)) with (Z.ldiff c 32) by (apply Z.ldiff_land).
  pose proof (Z.add_lor_land (Z.ldiff c 32) (Z.land c 32)) as Hsum. rewrite Z.lor_ldiff_and in Hsum.
  assert (Z.land (Z.ldiff c 32) (Z.land c 32) = 0) as Hz.
  { apply Z.bits_inj'. intros k Hk. rewrite !Z.land_spec, Z.ldiff_spec, Z.bits_0. destruct (Z.testbit c k), (Z.testbit 32 k); done. }
  rewrite Hz, Hl in Hsum. split.
  - intros E. destruct (Z.testbit c 5); lia.
  - intros [->| ->].
    + rewrite HX5 in Hsum. lia.
    + destruct (Z.testbit (X + 32) 5) eqn:Hb; [lia|]. exfalso.
      assert (forallb (fun k => Z.testbit (Z.of_nat k + 32) 5) (seq 0x41 26) = true) as H by (vm_compute; reflexivity).
      rewrite forallb_forall in H. specialize (H (Z.to_nat X)). rewrite Z2Nat.id in H by lia. rewrite H in Hb; [done|]. apply in_seq. lia.
Qed.

Lemma word_parts a b c x y z : word a b c [x; y; z] = true <->
  fold_case a = fold_case x /\ fold_case b = fold_case y /\ fold_case c = fold_case z.
Proof.
  unfold word. rewrite bool_decide_eq_true. cbn [map]. split; [by intros [= -> -> ->] | by intros (-> & -> & ->)].
Qed.

(** The hash lets every reserved word through. *)
Lemma word_hash a b c w : In w [con; prn; aux; nul; com; lpt] -> word a b c w = true -> rough_hash a b = true.
Proof.
  assert (forall x y, 0x41 <= x <= 0x5a -> 0x41 <= y <= 0x5a -> forallb (fun a => forallb (rough_hash a) [y; y + 0x20]) [x; x + 0x20] = true ->
    fold_case a = x -> fold_case b = y -> rough_hash a b = true) as H.
  { intros x y Hx Hy Hall Ha%fold_case_iff Hb%fold_case_iff; [|done..]. rewrite forallb_forall in Hall.
    specialize (Hall a ltac:(cbn; intuition lia)). rewrite forallb_forall in Hall. apply Hall. cbn. intuition lia. }
  cbn [In]. intros Hw Hword.
  repeat destruct Hw as [<-|Hw]; try done; apply word_parts in Hword as (Ha & Hb & _); cbn in Ha, Hb;
    eapply H; try eassumption; try lia; vm_compute; reflexivity.
Qed.
Section reserved.
Context (upcase : list Z) (upcase_len : Z) (Hlen : upcase_len <= zlen upcase).

(** The table maps exactly the two cases of an ASCII letter to one character. *)
Context (Hup : forall c l, 0 <= c -> 0x61 <= l <= 0x7a ->
  upc upcase upcase_len c = upc upcase upcase_len l <-> fold_case c = l - 0x20).
Context (Hup0 : forall l, 0x61 <= l <= 0x7a -> upc upcase upcase_len l <> 0).

Let U := upc upcase upcase_len.

Definition letter (l : Z) : Prop := 0x61 <= l <= 0x7a.

(** One character of the comparison with a word of lower-case letters. *)
Lemma same_step f s1 s2 i n c l : s1.[i] = Some c -> s2.[i] = Some l -> 0 <= c -> letter l -> i < n ->
  ucsncasecmp_loop (S f) s1 s2 i n upcase upcase_len =
    if U c =? U l then ucsncasecmp_loop f s1 s2 (i + 1) n upcase upcase_len
    else Some (if U c <? U l then -1 else 1).
Proof.
  intros H1 H2 Hc Hl Hi. unfold letter in Hl. cbn [ucsncasecmp_loop]. rewrite (proj2 (Z.ltb_lt i n)) by done. cbn [negb].
  rewrite H1, H2. cbn [mbind option_bind]. rewrite !up_upc by (done || lia). cbn [mbind option_bind]. fold U.
  destruct (Z.eqb_spec (U c) (U l)) as [E|E].
  - rewrite E, Z.ltb_irrefl. by rewrite (proj2 (Z.eqb_neq _ 0)) by (by apply Hup0).
  - destruct (Z.ltb_spec (U c) (U l)); [done|]. by rewrite (proj2 (Z.ltb_lt (U l) (U c))) by lia.
Qed.

Lemma same_as_word a b c rest x y z : 0 <= a -> 0 <= b -> 0 <= c -> letter x -> letter y -> letter z ->
  same_as upcase upcase_len (a :: b :: c :: rest) [x; y; z] = Some (word a b c [x; y; z]).
Proof.
  intros Ha Hb Hc Hx Hy Hz. unfold same_as, ntfs_ucsncasecmp. change (Z.to_nat 3) with 3%nat.
  assert (forall c l, 0 <= c -> letter l -> (U c =? U l) = bool_decide (fold_case c = fold_case l)) as Heq.
  { intros c' l Hc' Hl. apply eq_true_iff_eq. rewrite Z.eqb_eq, bool_decide_eq_true. unfold U. rewrite Hup by done.
    unfold letter in Hl. unfold fold_case at 3. by rewrite (proj2 (Z.leb_le 0x61 l)), (proj2 (Z.leb_le l 0x7a)) by lia. }
  assert (word a b c [x; y; z] = (U a =? U x) && ((U b =? U y) && (U c =? U z))) as ->.
  { rewrite !Heq by done. unfold word. apply eq_true_iff_eq. rewrite !andb_true_iff, !bool_decide_eq_true. cbn [map].
    split; [by intros [= -> -> ->] | by intros (-> & -> & ->)]. }
  rewrite (same_step _ _ _ 0 3 a x), (same_step _ _ _ (0 + 1) 3 b y), (same_step _ _ _ (0 + 1 + 1) 3 c z) by (done || lia).
  destruct (U a =? U x); cbn [andb]; [|cbn; by destruct (_ <? _)].
  destruct (U b =? U y); cbn [andb]; [|cbn; by destruct (_ <? _)].
  destruct (U c =? U z); [done | cbn; by destruct (_ <? _)].
Qed.


Lemma ends_at_spec (name rest : list Z) (pre : list Z) : name = pre ++ rest -> 
  ends_at name (zlen name) (zlen pre) = Some (ends_base rest).
Proof.
  intros ->. unfold ends_at. rewrite zlen_app. destruct rest as [|d rest].
  - rewrite (@zlen_nil Z), Z.add_0_r, Z.eqb_refl. done.
  - pose proof (zlen_nonneg rest). rewrite zlen_cons, (proj2 (Z.eqb_neq _ _)) by lia.
    rewrite zget_app_r, Z.sub_diag by lia. done.
Qed.

Lemma forbidden_names_spec name strict : Forall (fun c => 0 <= c) name ->
  ntfs_forbidden_names upcase upcase_len name (zlen name) strict = Some (forbidden_chars_spec name strict || reserved name).
Proof.
  intros Hw. unfold ntfs_forbidden_names. rewrite forbidden_chars_ok. cbn [mbind option_bind].
  destruct (forbidden_chars_spec name strict); cbn [negb andb orb]; [done|].
  destruct name as [|a [|b [|c rest]]]; try done.
  apply Forall_cons in Hw as [Ha Hw]. apply Forall_cons in Hw as [Hb Hw]. apply Forall_cons in Hw as [Hc Hw].
  pose proof (zlen_nonneg rest) as Hr. rewrite (proj2 (Z.leb_le 3 _)) by (rewrite !zlen_cons; lia).
  assert ((a :: b :: c :: rest).[0] = Some a) as -> by done. assert ((a :: b :: c :: rest).[1] = Some b) as -> by done.
  assert ((a :: b :: c :: rest).[2] = Some c) as -> by done.
  cbn [mbind option_bind].
  assert (forall w, In w [con; prn; aux; nul; com; lpt] -> rough_hash a b = false -> word a b c w = false) as Hfar.
  { intros w Hin Hh. destruct (word a b c w) eqn:E; [|done]. by rewrite (word_hash a b c w Hin E) in Hh. }
  destruct (rough_hash a b) eqn:Hh.
  2: { cbn [reserved]. rewrite !Hfar by (done || cbn; tauto). done. }
  clear Hfar Hh. cbv zeta. rewrite !clear_bit5 by lia.
  assert (forall w, In w [con; prn; aux; nul; com; lpt] -> same_as upcase upcase_len (a :: b :: c :: rest) w = Some (word a b c w)) as Hsame.
  { intros w Hin. cbn [In] in Hin. repeat destruct Hin as [<-|Hin]; try done; apply same_as_word; unfold letter; lia. }
  rewrite !Hsame by (cbn; tauto). clear Hsame.
  assert (ends_at (a :: b :: c :: rest) (zlen (a :: b :: c :: rest)) 3 = Some (ends_base rest)) as ->
    by (apply (ends_at_spec _ rest [a; b; c]); done).
  assert (and_then (device_digit (a :: b :: c :: rest) (zlen (a :: b :: c :: rest)))
     (and_then (ends_at (a :: b :: c :: rest) (zlen (a :: b :: c :: rest)) 4) (Some true)) =
     Some (match rest with d :: rest => (0x31 <=? d) && (d <=? 0x39) && ends_base rest | [] => false end)) as Hdev.
  { unfold device_digit. destruct rest as [|d rest]; [done|]. pose proof (zlen_nonneg rest).
    rewrite (proj2 (Z.ltb_lt 3 _)) by (rewrite !zlen_cons; lia). assert ((a :: b :: c :: d :: rest).[3] = Some d) as -> by done. cbn [mbind option_bind].
    assert (ends_at (a :: b :: c :: d :: rest) (zlen (a :: b :: c :: d :: rest)) 4 = Some (ends_base rest)) as ->
      by (apply (ends_at_spec _ rest [a; b; c; d]); done). by destruct (_ && _); destruct (ends_base rest). }
  assert (forall x, and_then (device_digit (a :: b :: c :: rest) (zlen (a :: b :: c :: rest)))
     (and_then (ends_at (a :: b :: c :: rest) (zlen (a :: b :: c :: rest)) 4) (Some x)) =
     Some (match rest with d :: rest => (0x31 <=? d) && (d <=? 0x39) && ends_base rest | [] => false end && x)) as Hdev'.
  { intros x. revert Hdev. destruct (device_digit _ _) as [[]|]; cbn [and_then]; [|intros [= <-]; done | done].
    destruct (ends_at _ _ 4) as [[]|]; cbn [and_then]; intros [= <-]; done. }
  rewrite !Hdev'. clear Hdev Hdev'. cbn [reserved]. set (dev := match rest with [] => false | _ => _ end). clearbody dev.
  assert (forall w, In w [con; prn; aux; nul; com; lpt] -> fold_case c <> fold_case (List.nth 2 w 0) -> word a b c w = false) as Hthird.
  { intros w Hin Hne. destruct (word a b c w) eqn:E; [|done]. cbn [In] in Hin.
    repeat destruct Hin as [<-|Hin]; try done; apply word_parts in E as (_ & _ & ?); done. }
  destruct (Z.eqb_spec (fold_case c) 0x4e) as [E|].
  { rewrite (Hthird aux), (Hthird nul), (Hthird com), (Hthird lpt) by (try (cbn; tauto); rewrite E; done).
    by destruct (ends_base rest), (word a b c con), (word a b c prn). }
  rewrite (Hthird con), (Hthird prn) by (try (cbn; tauto); done). cbn [orb].
  destruct (Z.eqb_spec (fold_case c) 0x58) as [E|].
  { rewrite (Hthird nul), (Hthird com), (Hthird lpt) by (try (cbn; tauto); rewrite E; done).
    by destruct (ends_base rest), (word a b c aux). }
  rewrite (Hthird aux) by (try (cbn; tauto); done). cbn [orb].
  destruct (Z.eqb_spec (fold_case c) 0x4c) as [E|].
  { rewrite (Hthird com), (Hthird lpt) by (try (cbn; tauto); rewrite E; done). by destruct (ends_base rest), (word a b c nul). }
  rewrite (Hthird nul) by (try (cbn; tauto); done). cbn [andb orb].
  destruct (Z.eqb_spec (fold_case c) 0x4d) as [E|].
  { rewrite (Hthird lpt) by (try (cbn; tauto); rewrite E; done). by destruct dev, (word a b c com). }
  rewrite (Hthird com) by (try (cbn; tauto); done). cbn [orb].
  destruct (Z.eqb_spec (fold_case c) 0x54) as [E|]; [by destruct dev, (word a b c lpt)|].
  by rewrite (Hthird lpt) by (try (cbn; tauto); done).
Qed.
End reserved.

(** ** Properties *)

(** C35: the collation of directory entries is the lexicographic order of the
    upcased names, ties broken by the names themselves; it is a total order on
    names, so 0 is answered for equal names only. *)
Theorem names_collate_order upcase upcase_len n1 n2 n3 :
  upcase_len <= zlen upcase -> Forall (fun c => 0 <= c) n1 -> Forall (fun c => 0 <= c) n2 -> Forall (fun c => 0 <= c) n3 ->
  exists r12 r21 r23 r13,
    ntfs_names_full_collate n1 (zlen n1) n2 (zlen n2) CASE_SENSITIVE upcase upcase_len = Some r12 /\
    ntfs_names_full_collate n2 (zlen n2) n1 (zlen n1) CASE_SENSITIVE upcase upcase_len = Some r21 /\
    ntfs_names_full_collate n2 (zlen n2) n3 (zlen n3) CASE_SENSITIVE upcase upcase_len = Some r23 /\
    ntfs_names_full_collate n1 (zlen n1) n3 (zlen n3) CASE_SENSITIVE upcase upcase_len = Some r13 /\
    r12 = lex2 (map (upc upcase upcase_len) n1) n1 (map (upc upcase upcase_len) n2) n2 /\
    (r12 = -1 \/ r12 = 0 \/ r12 = 1) /\ (r12 = 0 <-> n1 = n2) /\ r21 = - r12 /\ (r12 <= 0 -> r23 <= 0 -> r13 <= 0).
Proof.
  intros Hl H1 H2 H3. rewrite !full_collate_spec by done. eexists _, _, _, _. split_and!; try done.
  - apply lex2_values.
  - unfold lex2. split; [|intros ->; by rewrite !lex_refl]. intros H.
    destruct (Z.eqb_spec (lex (map (upc upcase upcase_len) n1) (map (upc upcase upcase_len) n2)) 0); [by apply lex_eq | done].
  - apply lex2_antisym.
  - apply lex2_trans.
Qed.

(** the quick hash and the switch on the third character lose nothing: a
    name is refused exactly when it has a forbidden character (or a forbidden
    end) or is one of the reserved device names, alone or with a suffix, in any
    case. *)
Theorem forbidden_names_exact upcase upcase_len name strict :
  upcase_len <= zlen upcase ->
  (forall c l, 0 <= c -> 0x61 <= l <= 0x7a -> upc upcase upcase_len c = upc upcase upcase_len l <-> fold_case c = l - 0x20) ->
  (forall l, 0x61 <= l <= 0x7a -> upc upcase upcase_len l <> 0) -> Forall (fun c => 0 <= c) name ->
  ntfs_forbidden_names upcase upcase_len name (zlen name) strict = Some (forbidden_chars_spec name strict || reserved name).
Proof. intros Hl Hup Hup0. by apply forbidden_names_spec. Qed.

(** A table for ASCII alone. *)
Definition ascii_upcase : list Z := map (fun k => fold_case (Z.of_nat k)) (seq 0 128).

Lemma ascii_upc c : 0 <= c -> upc ascii_upcase 128 c = fold_case c.
Proof.
  intros Hc. unfold upc, up. destruct (Z.ltb_spec c 128).
  - unfold ascii_upcase, zget. rewrite (proj2 (Z.ltb_ge c 0)) by lia.
    rewrite list_lookup_fmap, lookup_seq_lt by lia. cbn. by rewrite Z2Nat.id.
  - unfold fold_case. by rewrite (proj2 (Z.leb_gt c 0x7a)), andb_false_r by lia.
Qed.

Lemma names_collate_order_witness : exists r12 r21 r23 r13,
  ntfs_names_full_collate [0x61; 0x62] (zlen [0x61; 0x62]) [0x41; 0x62; 0x63] (zlen [0x41; 0x62; 0x63]) CASE_SENSITIVE ascii_upcase 128 = Some r12 /\
  ntfs_names_full_collate [0x41; 0x62; 0x63] (zlen [0x41; 0x62; 0x63]) [0x61; 0x62] (zlen [0x61; 0x62]) CASE_SENSITIVE ascii_upcase 128 = Some r21 /\
  ntfs_names_full_collate [0x41; 0x62; 0x63] (zlen [0x41; 0x62; 0x63]) [0x42] (zlen [0x42]) CASE_SENSITIVE ascii_upcase 128 = Some r23 /\
  ntfs_names_full_collate [0x61; 0x62] (zlen [0x61; 0x62]) [0x42] (zlen [0x42]) CASE_SENSITIVE ascii_upcase 128 = Some r13 /\
  r12 = lex2 (map (upc ascii_upcase 128) [0x61; 0x62]) [0x61; 0x62] (map (upc ascii_upcase 128) [0x41; 0x62; 0x63]) [0x41; 0x62; 0x63] /\
  (r12 = -1 \/ r12 = 0 \/ r12 = 1) /\ (r12 = 0 <-> [0x61; 0x62] = [0x41; 0x62; 0x63]) /\ r21 = - r12 /\ (r12 <= 0 -> r23 <= 0 -> r13 <= 0).
Proof. apply (names_collate_order ascii_upcase 128 [0x61; 0x62] [0x41; 0x62; 0x63] [0x42]); [done | repeat constructor; lia..]. Defined.

Lemma forbidden_names_exact_witness :
  ntfs_forbidden_names ascii_upcase 128 [0x43; 0x6f; 0x4d; 0x31; 0x2e; 0x78] 6 false
    = Some (forbidden_chars_spec [0x43; 0x6f; 0x4d; 0x31; 0x2e; 0x78] false || reserved [0x43; 0x6f; 0x4d; 0x31; 0x2e; 0x78]).
Proof.
  apply (forbidden_names_exact ascii_upcase 128 [0x43; 0x6f; 0x4d; 0x31; 0x2e; 0x78] false); [done | | | repeat constructor; lia].
  - intros c l Hc Hl. rewrite !ascii_upc by lia. unfold fold_case at 2.
    rewrite (proj2 (Z.leb_le 0x61 l)), (proj2 (Z.leb_le l 0x7a)) by lia. cbn [andb]. done.
  - intros l Hl. rewrite ascii_upc by lia. unfold fold_case.
    rewrite (proj2 (Z.leb_le 0x61 l)), (proj2 (Z.leb_le l 0x7a)) by lia. cbn [andb]. lia.
Defined.
