(* ===== verification/Compress.v ===== *)
(** Compression (libntfs-3g/compress.c): ntfs_compress_block, which compresses
    one sub-block of at most 4096 bytes with a hash-chain match finder, and
    ntfs_decompress, which decompresses a compression block.

    Buffers are lists of bytes; pointers are indices into them. *)

From S2P Require Import Prelude.
Local Open Scope Z_scope.
Local Open Scope c_scope.
Set Default Proof Using "Type*".

Definition NTFS_SB_SIZE_MASK : Z := 0x0fff.
Definition NTFS_SB_SIZE : Z := 0x1000.
Definition NTFS_SB_IS_COMPRESSED : Z := 0x8000.
Definition NICE_MATCH_LEN : Z := 18.
Definition MAX_SEARCH_DEPTH : nat := 24.
Definition HASH_SHIFT : Z := 14.
Definition HASH_MULTIPLIER : Z := 0x1E35A7BD.

(** ** Decompression *)

(** [for (i = ..; i >= 0x10; i >>= 1) lg++;] *)
Fixpoint lg_loop (fuel : nat) (i lg : Z) : option Z :=
  match fuel with
  | O => None
  | S f => if 0x10 <=? i then lg_loop f (Z.shiftr i 1) (lg + 1) else Some lg
  end.

(** [while (length--) *dest++ = *dest_back_addr++;] *)
Fixpoint copy_bytes (n : nat) (dest : list Z) (d back : Z) : option (list Z) :=
  match n with
  | O => Some dest
  | S n => x ← dest.[back]; dest ← zset dest d x; copy_bytes n dest (d + 1) (back + 1)
  end.

(** The bytes of a phrase: those before the overlap at once, the others one by
    one. *)
Definition copy_phrase (dest : list Z) (d back length : Z) : option (list Z) :=
  let max_non_overlap := d - back in
  if length <=? max_non_overlap then
    bs ← zread dest back length;
    zwrite dest d bs
  else
    bs ← zread dest back max_non_overlap;
    dest ← zwrite dest d bs;
    copy_bytes (Z.to_nat (length - max_non_overlap)) dest (d + max_non_overlap) (back + max_non_overlap).

Section decompress.
Context (cbuf : list Z) (cb_size : Z).

(** The tokens of one tag, [n] of them left: the destination, and its position
    and that in the source, or the error. *)
Fixpoint token_loop (n : nat) (tag : Z) (dest : list Z) (d sb_start sb_end c cb_sb_end : Z) : option (list Z * result (Z * Z)) :=
  match n with
  | O => Some (dest, Ok (d, c))
  | S n =>
      if (cb_sb_end <=? c) || (sb_end <? d) then Some (dest, Ok (d, c))
      else if Z.land tag 1 =? 0 then
        x ← cbuf.[c];
        dest ← zset dest d x;
        token_loop n (Z.shiftr tag 1) dest (d + 1) sb_start sb_end (c + 1) cb_sb_end
      else if d =? sb_start then Some (dest, Err EOVERFLOW)
      else
        lg ← lg_loop 17 (u16 (d - sb_start - 1)) 0;
        pt ← le16_to_cpup cbuf c;
        let back := d - Z.shiftr pt (12 - lg) - 1 in
        if back <? sb_start then Some (dest, Err EOVERFLOW)
        else
          let length := u16 (Z.land pt (Z.shiftr 0xfff lg) + 3) in
          if sb_end <? d + length then Some (dest, Err EOVERFLOW)
          else
            dest ← copy_phrase dest d back length;
            token_loop n (Z.shiftr tag 1) dest (d + length) sb_start sb_end (c + 2) cb_sb_end
  end.

(** do_next_tag, until the end of the sub-block, whose rest is zeroed. *)
Fixpoint tag_loop (fuel : nat) (dest : list Z) (d sb_start sb_end c cb_sb_end : Z) : option (list Z * result (Z * Z)) :=
  match fuel with
  | O => None
  | S f =>
      if c =? cb_sb_end then
        if d <? sb_end then
          dest ← zwrite dest d (replicate (Z.to_nat (sb_end - d)) 0);
          Some (dest, Ok (sb_end, c))
        else Some (dest, Ok (d, c))
      else if (cb_sb_end <? c) || (sb_end <? d) then Some (dest, Err EOVERFLOW)
      else
        tag ← cbuf.[c];
        r ← token_loop 8 tag dest d sb_start sb_end (c + 1) cb_sb_end;
        match r with
        | (dest, Err e) => Some (dest, Err e)
        | (dest, Ok (d, c)) => tag_loop f dest d sb_start sb_end c cb_sb_end
        end
  end.

(** do_next_sb. *)
Fixpoint sb_loop (fuel : nat) (dest : list Z) (dest_size d c : Z) : option (list Z * result unit) :=
  match fuel with
  | O => None
  | S f =>
      if c =? cb_size then Some (dest, Ok tt)
      else
        h ← le16_to_cpup cbuf c;
        if (h =? 0) || (d =? dest_size) then Some (dest, Ok tt)
        else
          let sb_end := d + NTFS_SB_SIZE in
          if dest_size <? sb_end then Some (dest, Err EOVERFLOW)
          else if cb_size <? c + 6 then Some (dest, Err EOVERFLOW)
          else
            let cb_sb_end := c + Z.land h NTFS_SB_SIZE_MASK + 3 in
            if cb_size <? cb_sb_end then Some (dest, Err EOVERFLOW)
            else if Z.land h NTFS_SB_IS_COMPRESSED =? 0 then
              if negb (cb_sb_end - (c + 2) =? NTFS_SB_SIZE) then Some (dest, Err EOVERFLOW)
              else
                bs ← zread cbuf (c + 2) NTFS_SB_SIZE;
                dest ← zwrite dest d bs;
                sb_loop f dest dest_size (d + NTFS_SB_SIZE) (c + 2 + NTFS_SB_SIZE)
            else
              r ← tag_loop (Z.to_nat cb_size) dest d d sb_end (c + 2) cb_sb_end;
              match r with
              | (dest, Err e) => Some (dest, Err e)
              | (dest, Ok (d, c)) => sb_loop f dest dest_size d c
              end
  end.

Definition ntfs_decompress (dest : list Z) (dest_size : Z) : option (list Z * result unit) :=
  sb_loop (S (Z.to_nat cb_size)) dest dest_size 0 0.
End decompress.

(** ** Compression *)

(** The part of struct COMPRESS_CONTEXT that changes. *)
Record COMPRESS_CONTEXT := Ctx { c_size : Z; c_rel : Z; c_mxsz : Z; head : list Z; prev : list Z }.

Definition set_match (x : COMPRESS_CONTEXT) (size rel : Z) : COMPRESS_CONTEXT := Ctx size rel (c_mxsz x) (head x) (prev x).
Definition set_mxsz (x : COMPRESS_CONTEXT) (m : Z) : COMPRESS_CONTEXT := Ctx (c_size x) (c_rel x) m (head x) (prev x).

Section compress.
Context (inbuf : list Z) (bufsize : Z).

Definition ntfs_hash (p : Z) : option Z :=
  v ← le32_to_cpup inbuf p;
  let str := Z.land v 0xFFFFFF in
  Some (Z.shiftr (u32 (str * HASH_MULTIPLIER)) (32 - HASH_SHIFT)).

(** Put position [i] at the head of its hash chain; the old head. *)
Definition insert_position (x : COMPRESS_CONTEXT) (i : Z) : option (COMPRESS_CONTEXT * Z) :=
  hash ← ntfs_hash i;
  cur ← (head x).[hash];
  p ← zset (prev x) i cur;
  h ← zset (head x) hash i;
  Some (Ctx (c_size x) (c_rel x) (c_mxsz x) h p, cur).

(** [for (len = ..; len < lim; len++) if (matchptr[len] != strptr[len]) ..] *)
Fixpoint same_from (fuel : nat) (m i len lim : Z) : option bool :=
  if negb (len <? lim) then Some true
  else match fuel with
  | O => None
  | S f => a ← inbuf.[m + len]; b ← inbuf.[i + len]; if a =? b then same_from f m i (len + 1) lim else Some false
  end.

(** The inner while: extend to max_len. *)
Fixpoint extend_max (fuel : nat) (m i best_len max_len : Z) : option Z :=
  if negb (best_len <? max_len) then Some best_len
  else match fuel with
  | O => None
  | S f =>
      a ← inbuf.[m + best_len]; b ← inbuf.[i + best_len];
      if a =? b then extend_max f m i (best_len + 1) max_len else Some best_len
  end.

(** The do-while: the new length, and whether the search is over. *)
Fixpoint extend (fuel : nat) (m i best_len nice_len max_len : Z) : option (Z * bool) :=
  match fuel with
  | O => None
  | S f =>
      let best_len := best_len + 1 in
      if nice_len <=? best_len then l ← extend_max (Z.to_nat max_len) m i best_len max_len; Some (l, true)
      else
        a ← inbuf.[m + best_len]; b ← inbuf.[i + best_len];
        if a =? b then extend f m i best_len nice_len max_len else Some (best_len, false)
  end.

(** The candidate checks before extending; all of them or none. *)
Definition candidate (m i best_len : Z) : option bool :=
  a ← inbuf.[m + best_len]; b ← inbuf.[i + best_len];
  if negb (a =? b) then Some false
  else
    a ← inbuf.[m + (best_len - 1)]; b ← inbuf.[i + (best_len - 1)];
    if negb (a =? b) then Some false
    else
      a ← inbuf.[m]; b ← inbuf.[i];
      if negb (a =? b) then Some false else same_from (Z.to_nat best_len) m i 1 (best_len - 1).

(** The search along the chain: the length and position of the best match. *)
Fixpoint chain_loop (depth : nat) (prev : list Z) (i cur_match best_len best nice_len max_len : Z) : option (Z * Z) :=
  match depth with
  | O => Some (best_len, best)
  | S depth =>
      if cur_match <? 0 then Some (best_len, best)
      else
        ok ← candidate cur_match i best_len;
        if (ok : bool) then
          r ← extend (Z.to_nat nice_len) cur_match i best_len nice_len max_len;
          if (snd r : bool) then Some (fst r, cur_match)
          else next ← prev.[cur_match]; chain_loop depth prev i next (fst r) cur_match nice_len max_len
        else next ← prev.[cur_match]; chain_loop depth prev i next best_len best nice_len max_len
  end.

Definition ntfs_best_match (x : COMPRESS_CONTEXT) (i best_len : Z) : option COMPRESS_CONTEXT :=
  let max_len := Z.min (bufsize - i) (c_mxsz x) in
  let nice_len := Z.min NICE_MATCH_LEN max_len in
  if max_len <? 4 then Some (set_match x best_len 0)
  else
    r ← insert_position x i;
    let '(x, cur_match) := r in
    if max_len <=? best_len then Some (set_match x best_len 0)
    else
      r ← chain_loop MAX_SEARCH_DEPTH (prev x) i cur_match best_len i nice_len max_len;
      Some (set_match x (fst r) (snd r - i)).

Definition ntfs_skip_position (x : COMPRESS_CONTEXT) (i : Z) : option COMPRESS_CONTEXT :=
  if bufsize - i <? 4 then Some x else r ← insert_position x i; Some (fst r).

(** [do ntfs_skip_position(pctx, i); while (++i != j);] *)
Fixpoint skip_range (fuel : nat) (x : COMPRESS_CONTEXT) (i j : Z) : option COMPRESS_CONTEXT :=
  match fuel with
  | O => None
  | S f =>
      x ← ntfs_skip_position x i;
      if negb (i + 1 =? j) then skip_range f x (i + 1) j else Some x
  end.

(** [while (mxoff < i)]. *)
Fixpoint adjust (fuel : nat) (bp mxoff mxsz i : Z) : option (Z * Z * Z) :=
  match fuel with
  | O => None
  | S f => if mxoff <? i then adjust f (bp + 1) (Z.shiftl mxoff 1) (Z.shiftr (mxsz + 2) 1) i else Some (bp, mxoff, mxsz)
  end.

(** The local variables of ntfs_compress_block. *)
Record cstate := CS {
  s_i : Z; s_bp : Z; s_mxoff : Z; s_xout : Z; s_have : bool;
  s_tag : Z; s_ntag : Z; s_ptag : Z; s_out : list Z; s_ctx : COMPRESS_CONTEXT }.

(** [outbuf[xout++] = inbuf[i++];] *)
Definition put_literal (s : cstate) (have : bool) : option cstate :=
  b ← inbuf.[s_i s];
  out ← zset (s_out s) (s_xout s) b;
  Some (CS (s_i s + 1) (s_bp s) (s_mxoff s) (s_xout s + 1) have (s_tag s) (s_ntag s) (s_ptag s) out (s_ctx s)).

(** Output a match of [size] bytes at offset [offs]. *)
Definition put_phrase (s : cstate) (bp_cur offs size : Z) : option cstate :=
  let q := u32 (Z.shiftl (Z.lnot offs) (16 - bp_cur) + (size - 3)) in
  out ← zset (s_out s) (s_xout s) (Z.land q 255);
  out ← zset out (s_xout s + 1) (Z.land (Z.shiftr q 8) 255);
  Some (CS (s_i s) (s_bp s) (s_mxoff s) (s_xout s + 2) (s_have s)
           (Z.lor (s_tag s) (Z.shiftl 1 (8 - s_ntag s))) (s_ntag s) (s_ptag s) out (s_ctx s)).

Definition set_ctx (s : cstate) (x : COMPRESS_CONTEXT) : cstate :=
  CS (s_i s) (s_bp s) (s_mxoff s) (s_xout s) (s_have s) (s_tag s) (s_ntag s) (s_ptag s) (s_out s) x.
Definition set_pos (s : cstate) (i : Z) (have : bool) : cstate :=
  CS i (s_bp s) (s_mxoff s) (s_xout s) have (s_tag s) (s_ntag s) (s_ptag s) (s_out s) (s_ctx s).
Definition set_off (s : cstate) (bp mxoff mxsz : Z) : cstate :=
  CS (s_i s) bp mxoff (s_xout s) (s_have s) (s_tag s) (s_ntag s) (s_ptag s) (s_out s) (set_mxsz (s_ctx s) mxsz).
Definition dec_ntag (s : cstate) : cstate :=
  CS (s_i s) (s_bp s) (s_mxoff s) (s_xout s) (s_have s) (s_tag s) (s_ntag s - 1) (s_ptag s) (s_out s) (s_ctx s).

(** The search at the current position, unless a match is known. *)
Definition find_match (s : cstate) : option cstate :=
  if s_have s then Some s
  else
    r ← adjust 17 (s_bp s) (s_mxoff s) (c_mxsz (s_ctx s)) (s_i s);
    let '(bp, mxoff, mxsz) := r in
    let s := set_off s bp mxoff mxsz in
    x ← ntfs_best_match (s_ctx s) (s_i s) 2;
    Some (set_ctx s x).

(** The branches on the match: the new state, and whether the loop is left. *)
Definition emit (s : cstate) : option (cstate * bool) :=
  let size := c_size (s_ctx s) in
  let offs := c_rel (s_ctx s) in
  if 3 <=? size then
    let i := s_i s in
    let j := i + size in
    let bp_cur := s_bp s in
    if NICE_MATCH_LEN <=? size then
      s ← put_phrase s bp_cur offs size;
      if j =? bufsize then Some (dec_ntag (set_pos s j (s_have s)), true)
      else
        x ← skip_range (Z.to_nat size) (s_ctx s) (i + 1) j;
        Some (set_pos (set_ctx s x) j false, false)
    else
      let s := if s_mxoff s <? i + 1
               then set_off s (s_bp s + 1) (Z.shiftl (s_mxoff s) 1) (Z.shiftr (c_mxsz (s_ctx s) + 2) 1) else s in
      x ← ntfs_best_match (s_ctx s) (i + 1) size;
      let s := set_ctx s x in
      let k := i + 1 + c_size x in
      if j + 1 <? k then s ← put_literal s true; Some (s, false)
      else
        s ← put_phrase s bp_cur offs size;
        x ← skip_range (Z.to_nat size) (s_ctx s) (i + 2) j;
        Some (set_pos (set_ctx s x) j false, false)
  else s ← put_literal s false; Some (s, false).

(** [if (!--ntag) ..]: store a full tag and reserve the next. *)
Definition store_tag (s : cstate) : option cstate :=
  let s := dec_ntag s in
  if s_ntag s =? 0 then
    out ← zset (s_out s) (s_ptag s) (s_tag s);
    Some (CS (s_i s) (s_bp s) (s_mxoff s) (s_xout s + 1) (s_have s) 0 8 (s_xout s) out (s_ctx s))
  else Some s.

Fixpoint compress_loop (fuel : nat) (s : cstate) : option cstate :=
  match fuel with
  | O => None
  | S f =>
      if (s_i s <? bufsize) && (s_xout s <? NTFS_SB_SIZE + 2) then
        s ← find_match s;
        r ← emit s;
        let '(s, brk) := r in
        if (brk : bool) then Some s
        else s ← store_tag s; compress_loop f s
      else Some s
  end.

(** [prev0]: the uninitialised chain links.  The number of bytes, and the
    output buffer. *)
Definition ntfs_compress_block (outbuf prev0 : list Z) : option (Z * list Z) :=
  let x := Ctx 0 0 (Z.shiftl 1 (16 - 4) + 2) (replicate (Z.to_nat (Z.shiftl 1 HASH_SHIFT)) (-1)) prev0 in
  s ← compress_loop (S (Z.to_nat bufsize)) (CS 0 4 16 3 false 0 8 2 outbuf x);
  r ← (if s_ntag s =? 8 then Some (s_xout s - 1, s_out s)
       else out ← zset (s_out s) (s_ptag s) (s_tag s); Some (s_xout s, out));
  let '(xout, out) := r in
  if (bufsize <=? s_i s) && (xout <? NTFS_SB_SIZE + 2) then
    out ← zset out 0 (Z.land (xout - 3) 255);
    out ← zset out 1 (0xb0 + Z.land (Z.shiftr (xout - 3) 8) 15);
    Some (xout, out)
  else
    bs ← zread inbuf 0 bufsize;
    out ← zwrite out 2 bs;
    out ← (if bufsize <? NTFS_SB_SIZE then zwrite out (bufsize + 2) (replicate (Z.to_nat (NTFS_SB_SIZE - bufsize)) 0)
           else Some out);
    out ← zset out 0 0xff;
    out ← zset out 1 0x3f;
    Some (NTFS_SB_SIZE + 2, out).
End compress.

(** ** Decompression stays in its buffers *)

Lemma lg_loop_spec fuel i lg : 0 <= i < 16 * 2 ^ (Z.of_nat fuel - 1) -> (0 < fuel)%nat ->
  exists k, lg_loop fuel i lg = Some (lg + k) /\ 0 <= k < Z.of_nat fuel /\ i < 16 * 2 ^ k /\ (k = 0 \/ 8 * 2 ^ k <= i).
Proof.
  revert i lg; induction fuel as [|f IH]; intros i lg Hi Hf; [lia|]. cbn [lg_loop].
  destruct (Z.leb_spec 0x10 i).
  - destruct f as [|f']; [change (2 ^ (Z.of_nat 1 - 1)) with 1 in Hi; lia|].
    assert (2 ^ (Z.of_nat (S (S f')) - 1) = 2 * 2 ^ (Z.of_nat (S f') - 1)) as E
      by (rewrite <-Z.pow_succ_r by lia; f_equal; lia).
    rewrite Z.shiftr_div_pow2 by lia. change (2 ^ 1) with 2.
    destruct (IH (i / 2) (lg + 1)) as (k & -> & Hk & Hlt & Hge); [|lia|].
    { split; [apply Z.div_pos; lia|]. apply Z.div_lt_upper_bound; lia. }
    exists (k + 1). rewrite Z.pow_add_r by lia. change (2 ^ 1) with 2. pose proof (Z.mul_div_le i 2 ltac:(lia)).
    pose proof (Z.mul_succ_div_gt i 2 ltac:(lia)).
    split_and!; [f_equal; lia | lia | lia | lia |]. right. destruct Hge as [->|]; [change (2 ^ 0) with 1; lia | lia].
  - exists 0. rewrite Z.add_0_r. change (2 ^ 0) with 1. split_and!; try done; lia.
Qed.

Lemma copy_bytes_safe n dest d back : 0 <= back <= d -> d + Z.of_nat n <= zlen dest ->
  exists dest', copy_bytes n dest d back = Some dest' /\ frame dest dest' d (d + Z.of_nat n).
Proof.
  revert dest d back; induction n as [|n IH]; intros dest d back Hb Hl; cbn [copy_bytes].
  { exists dest. split; [done | apply frame_refl]. }
  destruct (zget_inside dest back) as [x ->]; [lia|]. cbn [mbind option_bind].
  destruct (zset dest d x) as [m|] eqn:E; [|rewrite zset_inside in E by lia; done]. cbn [mbind option_bind].
  pose proof (zset_frame _ _ _ _ E) as Hf. destruct (IH m (d + 1) (back + 1)) as (dest' & -> & Hf'); [lia | destruct Hf; lia |].
  exists dest'. split; [done|]. eapply frame_trans; [exact Hf | exact Hf' | lia..].
Qed.

Lemma copy_phrase_safe dest d back length : 0 <= back < d -> 0 <= length -> d + length <= zlen dest ->
  exists dest', copy_phrase dest d back length = Some dest' /\ frame dest dest' d (d + length).
Proof.
  intros Hb Hn Hl. unfold copy_phrase. destruct (Z.leb_spec length (d - back)).
  - destruct (zread dest back length) as [bs|] eqn:E; [|rewrite zread_inside in E by lia; done]. cbn [mbind option_bind].
    apply zread_Some in E as (_ & _ & _ & Hlb & _).
    destruct (zwrite dest d bs) as [m|] eqn:Ew; [|rewrite zwrite_inside in Ew by lia; done].
    exists m. split; [done|]. apply zwrite_frame in Ew. by rewrite Hlb in Ew.
  - destruct (zread dest back (d - back)) as [bs|] eqn:E; [|rewrite zread_inside in E by lia; done]. cbn [mbind option_bind].
    apply zread_Some in E as (_ & _ & _ & Hlb & _).
    destruct (zwrite dest d bs) as [m|] eqn:Ew; [|rewrite zwrite_inside in Ew by lia; done]. cbn [mbind option_bind].
    pose proof (zwrite_frame _ _ _ _ Ew) as Hf.
    destruct (copy_bytes_safe (Z.to_nat (length - (d - back))) m (d + (d - back)) (back + (d - back))) as (dest' & -> & Hf');
      [lia | destruct Hf as [-> _]; lia |].
    exists dest'. split; [done|]. eapply frame_trans; [exact Hf | exact Hf' | lia..].
Qed.

Section safe.
Context (cbuf : list Z) (cb_size : Z) (Hwf : wf_bytes cbuf) (Hcb : 0 <= cb_size < zlen cbuf).

Lemma token_loop_safe n tag dest d sb_start c cb_sb_end : 0 <= sb_start <= d -> d <= sb_start + NTFS_SB_SIZE + 1 ->
  sb_start + NTFS_SB_SIZE < zlen dest -> 0 <= c <= cb_sb_end + 1 -> cb_sb_end <= cb_size ->
  exists dest' r, token_loop cbuf n tag dest d sb_start (sb_start + NTFS_SB_SIZE) c cb_sb_end = Some (dest', r) /\
    frame dest dest' d (sb_start + NTFS_SB_SIZE + 1) /\
    match r with Ok (d', c') => d <= d' <= sb_start + NTFS_SB_SIZE + 1 /\ c <= c' <= cb_sb_end + 1 | Err _ => True end.
Proof.
  revert tag dest d c; induction n as [|n IH]; intros tag dest d c Hd Hd2 Hl Hc Hce; cbn [token_loop].
  { exists dest, (Ok (d, c)). split_and!; [done | apply frame_refl | lia..]. }
  unfold NTFS_SB_SIZE in *. guard_case; [exists dest, (Ok (d, c)); split_and!; [done | apply frame_refl | lia..]|].
  guard_case.
  { destruct (zget_inside cbuf c) as [x ->]; [lia|]. cbn [mbind option_bind].
    destruct (zset dest d x) as [m|] eqn:E; [|rewrite zset_inside in E by lia; done]. cbn [mbind option_bind].
    pose proof (zset_frame _ _ _ _ E) as Hf.
    destruct (IH (Z.shiftr tag 1) m (d + 1) (c + 1)) as (dest' & r & -> & Hf' & Hr); [lia | lia | destruct Hf; lia | lia | lia |].
    exists dest', r. split_and!; [done | eapply frame_trans; [exact Hf | exact Hf' | lia..] | destruct r as [[]|]; [lia | done]]. }
  guard_case; [exists dest, (Err EOVERFLOW); split_and!; [done | apply frame_refl | done]|].
  replace (u16 (d - sb_start - 1)) with (d - sb_start - 1) by (unfold u16; rewrite wrap_u_small; lia).
  destruct (lg_loop_spec 17 (d - sb_start - 1) 0) as (k & -> & Hk & Hk1 & Hk2); [change (2 ^ (Z.of_nat 17 - 1)) with 65536; lia | lia |].
  cbn [mbind option_bind]. rewrite Z.add_0_l.
  destruct (ld_inside 2 cbuf c) as [pt Hpt]; [lia | lia |]. unfold le16_to_cpup. rewrite Hpt. cbn [mbind option_bind].
  apply ld_range in Hpt; [|done]. guard_case; [exists dest, (Err EOVERFLOW); split_and!; [done | apply frame_refl | done]|].
  assert (k <= 8) as Hk8.
  { destruct (Z.le_gt_cases k 8); [done|]. destruct Hk2 as [|Hk2]; [lia|]. assert (2 ^ 9 <= 2 ^ k) by (apply Z.pow_le_mono_r; lia).
    change (2 ^ 9) with 512 in *. lia. }
  assert (0 <= Z.shiftr pt (12 - k)) by (apply Z.shiftr_nonneg; lia).
  assert (0 <= Z.land pt (Z.shiftr 0xfff k) <= 0xfff) as Hland.
  { change 0xfff with (Z.ones 12). rewrite Z.shiftr_div_pow2 by lia. rewrite Z.ones_div_pow2 by lia. rewrite Z.land_ones by lia.
    pose proof (Z.mod_pos_bound pt (2 ^ (12 - k)) ltac:(apply Z.pow_pos_nonneg; lia)).
    assert (2 ^ (12 - k) <= 2 ^ 12) by (apply Z.pow_le_mono_r; lia). change (2 ^ 12) with 4096 in *. change (Z.ones 12) with 4095. lia. }
  unfold u16. rewrite wrap_u_small by lia. guard_case; [exists dest, (Err EOVERFLOW); split_and!; [done | apply frame_refl | done]|].
  destruct (copy_phrase_safe dest d (d - Z.shiftr pt (12 - k) - 1) (Z.land pt (Z.shiftr 0xfff k) + 3)) as (m & -> & Hf); [lia..|].
  cbn [mbind option_bind].
  destruct (IH (Z.shiftr tag 1) m (d + (Z.land pt (Z.shiftr 0xfff k) + 3)) (c + 2)) as (dest' & r & -> & Hf' & Hr);
    [lia | lia | destruct Hf; lia | lia | lia |].
  exists dest', r. split_and!; [done | eapply frame_trans; [exact Hf | exact Hf' | lia..] | destruct r as [[]|]; [lia | done]].
Qed.

Lemma tag_loop_safe fuel dest d sb_start c cb_sb_end : 0 <= sb_start <= d -> d <= sb_start + NTFS_SB_SIZE + 1 ->
  sb_start + NTFS_SB_SIZE < zlen dest -> 0 <= c <= cb_sb_end + 1 -> cb_sb_end <= cb_size -> cb_sb_end + 1 - c < Z.of_nat fuel ->
  exists dest' r, tag_loop cbuf fuel dest d sb_start (sb_start + NTFS_SB_SIZE) c cb_sb_end = Some (dest', r) /\
    frame dest dest' d (sb_start + NTFS_SB_SIZE + 1) /\
    match r with
    | Ok (d', c') => sb_start + NTFS_SB_SIZE <= d' <= sb_start + NTFS_SB_SIZE + 1 /\ c' = cb_sb_end
    | Err _ => True
    end.
Proof.
  revert dest d c; induction fuel as [|f IH]; intros dest d c Hd Hd2 Hl Hc Hce Hf; [lia|]. cbn [tag_loop].
  destruct (Z.eqb_spec c cb_sb_end) as [->|Hne].
  - destruct (Z.ltb_spec d (sb_start + NTFS_SB_SIZE)).
    + set (zs := replicate _ 0). assert (zlen zs = sb_start + NTFS_SB_SIZE - d) as Hz by (unfold zs; rewrite zlen_replicate; lia).
      destruct (zwrite dest d zs) as [m|] eqn:E; [|rewrite zwrite_inside in E by lia; done]. cbn [mbind option_bind].
      exists m, (Ok (sb_start + NTFS_SB_SIZE, cb_sb_end)). apply zwrite_frame in E.
      split_and!; [done | eapply frame_trans; [exact E | apply (frame_refl _ d d) | lia..] | lia..].
    + exists dest, (Ok (d, cb_sb_end)). split_and!; [done | apply frame_refl | lia..].
  - guard_case; [exists dest, (Err EOVERFLOW); split_and!; [done | apply frame_refl | done]|].
    destruct (zget_inside cbuf c) as [tag ->]; [lia|]. cbn [mbind option_bind].
    destruct (token_loop_safe 8 tag dest d sb_start (c + 1) cb_sb_end) as (m & r & -> & Hfr & Hr); [lia..|].
    cbn [mbind option_bind]. destruct r as [[d' c']|e]; [|by exists m, (Err e)].
    destruct (IH m d' c') as (dest' & r & -> & Hfr' & Hr'); [lia | lia | destruct Hfr; lia | lia | lia | lia |].
    exists dest', r. split_and!; [done | eapply frame_trans; [exact Hfr | exact Hfr' | lia..] | done].
Qed.

Lemma sb_loop_safe fuel dest dest_size d c : 0 <= d <= dest_size + 1 -> dest_size < zlen dest -> 0 <= c <= cb_size ->
  cb_size - c < Z.of_nat fuel ->
  exists dest' r, sb_loop cbuf cb_size fuel dest dest_size d c = Some (dest', r) /\ frame dest dest' d (dest_size + 1).
Proof.
  revert dest d c; induction fuel as [|f IH]; intros dest d c Hd Hl Hc Hf; [lia|]. cbn [sb_loop].
  assert (forall (dest : list Z) r, exists dest' r', Some (dest, r) = Some (dest', r' : result unit) /\ frame dest dest' d (dest_size + 1)) as Hret
    by (intros dest0 r; exists dest0, r; split; [done | apply frame_refl]).
  destruct (Z.eqb_spec c cb_size) as [->|Hne]; [apply Hret|].
  destruct (ld_inside 2 cbuf c) as [h Hh]; [lia | lia |]. unfold le16_to_cpup. rewrite Hh. cbn [mbind option_bind].
  apply ld_range in Hh; [|done]. guard_case; [apply Hret|]. unfold NTFS_SB_SIZE in *. guard_case; [apply Hret|]. guard_case; [apply Hret|].
  guard_case; [apply Hret|]. assert (0 <= Z.land h NTFS_SB_SIZE_MASK) by (apply Z.land_nonneg; left; lia).
  guard_case.
  - guard_case; [apply Hret|].
    destruct (zread cbuf (c + 2) 0x1000) as [bs|] eqn:E; [|rewrite zread_inside in E by lia; done]. cbn [mbind option_bind].
    apply zread_Some in E as (_ & _ & _ & Hlb & _).
    destruct (zwrite dest d bs) as [m|] eqn:Ew; [|rewrite zwrite_inside in Ew by lia; done]. cbn [mbind option_bind].
    apply zwrite_frame in Ew as Hfr.
    destruct (IH m (d + 0x1000) (c + 2 + 0x1000)) as (dest' & r & -> & Hf'); [lia | destruct Hfr; lia | lia | lia |].
    exists dest', r. split; [done|]. eapply frame_trans; [exact Hfr | exact Hf' | lia..].
  - destruct (tag_loop_safe (Z.to_nat cb_size) dest d d (c + 2) (c + Z.land h NTFS_SB_SIZE_MASK + 3)) as (m & r & E & Hfr & Hr);
      unfold NTFS_SB_SIZE; [lia..|]. unfold NTFS_SB_SIZE in *. rewrite E. cbn [mbind option_bind].
    destruct r as [[d' c']|e].
    2: { exists m, (Err e). split; [done|]. eapply frame_trans; [exact Hfr | apply (frame_refl _ d d) | lia..]. }
    destruct Hr as [Hd' ->].
    destruct (IH m d' (c + Z.land h NTFS_SB_SIZE_MASK + 3)) as (dest' & r & -> & Hf'); [lia | destruct Hfr; lia | lia | lia |].
    exists dest', r. split; [done|]. eapply frame_trans; [exact Hfr | exact Hf' | lia..].
Qed.
End safe.


(** ** A stream that writes one byte too many *)

(** A sub-block of one literal and a phrase of 4095 bytes, which fills 4096
    bytes; and the same followed by a literal. *)
Definition full_sb : list Z := [0x03; 0xb0; 0x02; 97; 0xfc; 0x0f].
Definition over_sb : list Z := [0x04; 0xb0; 0x02; 97; 0xfc; 0x0f; 98].

Section over.
Context (cbuf : list Z).

Lemma fill_tokens n dest d c cb_sb_end : 0 <= d -> d + NTFS_SB_SIZE <= zlen dest -> holds cbuf c [97; 0xfc; 0x0f] ->
  0 <= c -> c + 3 <= zlen cbuf -> c + 3 <= cb_sb_end ->
  exists dest', zlen dest' = zlen dest /\
    token_loop cbuf (S (S n)) 2 dest d d (d + NTFS_SB_SIZE) c cb_sb_end =
    token_loop cbuf n 0 dest' (d + NTFS_SB_SIZE) d (d + NTFS_SB_SIZE) (c + 3) cb_sb_end.
Proof.
  unfold NTFS_SB_SIZE. intros Hd Hl Hc Hc0 Hcl Hce. cbn [token_loop].
  pose proof Hc as [Hc1 Hc2]%holds_cons.
  destruct (Z.leb_spec cb_sb_end c), (Z.ltb_spec (d + 0x1000) d); try lia. cbn [orb]. change (Z.land 2 1 =? 0) with true. cbv iota.
  rewrite Hc1. cbn [mbind option_bind].
  destruct (zset dest d 97) as [m|] eqn:E; [|rewrite zset_inside in E by lia; done]. cbn [mbind option_bind].
  apply zset_frame in E as [L1 _].
  destruct (Z.leb_spec cb_sb_end (c + 1)), (Z.ltb_spec (d + 0x1000) (d + 1)); try lia. cbn [orb].
  change (Z.land (Z.shiftr 2 1) 1 =? 0) with false. cbv iota.
  destruct (Z.eqb_spec (d + 1) d); [lia|]. replace (d + 1 - d - 1) with 0 by lia.
  change (lg_loop 17 (u16 0) 0) with (Some 0). cbn [mbind option_bind].
  assert (le16_to_cpup cbuf (c + 1) = Some 0x0ffc) as ->.
  { unfold le16_to_cpup, ld. change (Z.of_nat 2) with (zlen [0xfc; 0x0f]). rewrite holds_zread; [done | done | lia |].
    change (zlen [0xfc; 0x0f]) with 2. lia. }
  cbn [mbind option_bind]. change (Z.shiftr 0x0ffc (12 - 0)) with 0. change (u16 (Z.land 0x0ffc (Z.shiftr 0xfff 0) + 3)) with 4095.
  destruct (Z.ltb_spec (d + 1 - 0 - 1) d), (Z.ltb_spec (d + 0x1000) (d + 1 + 4095)); try lia.
  destruct (copy_phrase_safe m (d + 1) (d + 1 - 0 - 1) 4095) as (dest' & -> & [L2 _]); [lia..|]. cbn [mbind option_bind].
  exists dest'. split; [lia|]. change (Z.shiftr (Z.shiftr 2 1) 1) with 0. f_equal; lia.
Qed.

(** The sub-block with size field [k], up to its second token. *)
Lemma fill_sb k fuel dest dest_size d c : k = 3 \/ k = 4 -> 0 <= d -> d + NTFS_SB_SIZE <= dest_size -> dest_size <= zlen dest ->
  holds cbuf c [k; 0xb0; 0x02; 97; 0xfc; 0x0f] -> 0 <= c -> c + k + 3 <= zlen cbuf ->
  exists dest', zlen dest' = zlen dest /\
    sb_loop cbuf (zlen cbuf) (S fuel) dest dest_size d c =
     (r ← token_loop cbuf 6 0 dest' (d + NTFS_SB_SIZE) d (d + NTFS_SB_SIZE) (c + 6) (c + k + 3);
      match r with
      | (dest, Err e) => Some (dest, Err e)
      | (dest, Ok (d', c')) =>
          r ← tag_loop cbuf (Z.to_nat (zlen cbuf) - 1) dest d' d (d + NTFS_SB_SIZE) c' (c + k + 3);
          match r with
          | (dest, Err e) => Some (dest, Err e)
          | (dest, Ok (d, c)) => sb_loop cbuf (zlen cbuf) fuel dest dest_size d c
          end
      end).
Proof.
  unfold NTFS_SB_SIZE. intros Hk Hd Hds Hl Hc Hc0 Hcl. cbn [sb_loop]. destruct (Z.eqb_spec c (zlen cbuf)); [lia|].
  change ([k; 0xb0; 0x02; 97; 0xfc; 0x0f]) with ([k; 0xb0] ++ [0x02] ++ [97; 0xfc; 0x0f]) in Hc.
  rewrite !holds_app in Hc. destruct Hc as (H1 & H2 & H3). change (zlen [k; 0xb0]) with 2 in *. change (zlen [2]) with 1 in *.
  assert (le16_to_cpup cbuf c = Some (le_decode [k; 0xb0])) as ->.
  { unfold le16_to_cpup, ld. change (Z.of_nat 2) with (zlen [k; 0xb0]). rewrite holds_zread; [done | done | lia |].
    change (zlen [k; 0xb0]) with 2. lia. }
  cbn [mbind option_bind]. set (h := le_decode [k; 0xb0]). unfold NTFS_SB_SIZE.
  assert ((h =? 0) = false /\ Z.land h NTFS_SB_SIZE_MASK = k /\ (Z.land h NTFS_SB_IS_COMPRESSED =? 0) = false) as (-> & -> & ->)
    by (by destruct Hk as [-> | ->]).
  destruct (Z.eqb_spec d dest_size), (Z.ltb_spec dest_size (d + 0x1000)), (Z.ltb_spec (zlen cbuf) (c + 6)),
    (Z.ltb_spec (zlen cbuf) (c + k + 3)); try lia. cbn [orb].
  destruct (Z.to_nat (zlen cbuf)) as [|f] eqn:Ef; [lia|]. rewrite Nat.sub_1_r. cbn [tag_loop Nat.pred].
  destruct (Z.eqb_spec (c + 2) (c + k + 3)), (Z.ltb_spec (c + k + 3) (c + 2)), (Z.ltb_spec (d + 0x1000) d); try lia. cbn [orb].
  apply holds_cons in H2 as [-> _]. cbn [mbind option_bind].
  destruct (fill_tokens 6 dest d (c + 2 + 1) (c + k + 3)) as (dest' & L & E); unfold NTFS_SB_SIZE; [lia..|done|lia|lia|lia|].
  unfold NTFS_SB_SIZE in E. rewrite E. exists dest'. split; [done|]. replace (c + 2 + 1 + 3) with (c + 6) by lia.
  destruct (token_loop cbuf 6 0 dest' (d + 4096) d (d + 4096) (c + 6) (c + k + 3)) as [[m [[d' c']|e]]|]; done.
Qed.

Lemma full_sb_loop fuel dest dest_size d c : 0 <= d -> d + NTFS_SB_SIZE <= dest_size -> dest_size <= zlen dest ->
  holds cbuf c full_sb -> 0 <= c -> c + 6 <= zlen cbuf ->
  exists dest', zlen dest' = zlen dest /\
    sb_loop cbuf (zlen cbuf) (S fuel) dest dest_size d c =
    sb_loop cbuf (zlen cbuf) fuel dest' dest_size (d + NTFS_SB_SIZE) (c + 6).
Proof.
  intros Hd Hds Hl Hc Hc0 Hcl. destruct (fill_sb 3 fuel dest dest_size d c) as (dest' & L & ->); try done; [lia..|].
  exists dest'. split; [done|]. cbn [token_loop]. destruct (Z.leb_spec (c + 3 + 3) (c + 6)); [|lia]. cbn [orb mbind option_bind].
  destruct (Z.to_nat (zlen cbuf) - 1)%nat as [|f] eqn:E; [lia|]. cbn [tag_loop].
  destruct (Z.eqb_spec (c + 6) (c + 3 + 3)), (Z.ltb_spec (d + NTFS_SB_SIZE) (d + NTFS_SB_SIZE)); by try lia.
Qed.

Lemma over_sb_loop fuel dest d c : 0 <= d -> d + NTFS_SB_SIZE = zlen dest ->
  holds cbuf c over_sb -> 0 <= c -> c + 7 <= zlen cbuf ->
  sb_loop cbuf (zlen cbuf) (S fuel) dest (zlen dest) d c = None.
Proof.
  intros Hd Hl Hc Hc0 Hcl. unfold over_sb in Hc. change [4; 0xb0; 2; 97; 0xfc; 0x0f; 98] with ([4; 0xb0; 2; 97; 0xfc; 0x0f] ++ [98]) in Hc.
  apply holds_app in Hc as [Hc H98]. change (zlen [4; 0xb0; 2; 97; 0xfc; 0x0f]) with 6 in H98. apply holds_cons in H98 as [H98 _].
  destruct (fill_sb 4 fuel dest (zlen dest) d c) as (dest' & L & ->); try done; [lia..|].
  cbn [token_loop]. destruct (Z.leb_spec (c + 4 + 3) (c + 6)), (Z.ltb_spec (d + NTFS_SB_SIZE) (d + NTFS_SB_SIZE)); try lia. cbn [orb].
  change (Z.land 0 1 =? 0) with true. cbv iota. rewrite H98. cbn [mbind option_bind].
  destruct (zset dest' (d + NTFS_SB_SIZE) 98) eqn:E; [|done]. apply zset_Some in E. lia.
Qed.

Lemma full_then_over n fuel dest d c : 0 <= d -> d + NTFS_SB_SIZE * (Z.of_nat n + 1) = zlen dest -> (n < fuel)%nat ->
  holds cbuf c (concat (replicate n full_sb) ++ over_sb) -> 0 <= c -> c + 6 * Z.of_nat n + 7 <= zlen cbuf ->
  sb_loop cbuf (zlen cbuf) fuel dest (zlen dest) d c = None.
Proof.
  unfold NTFS_SB_SIZE. revert fuel dest d c; induction n as [|n IH]; intros [|fuel] dest d c Hd Hl Hf Hc Hc0 Hcl; try lia.
  { apply over_sb_loop; unfold NTFS_SB_SIZE; [lia | lia | done | lia | lia]. }
  cbn [replicate concat] in Hc. rewrite <-app_assoc in Hc. apply holds_app in Hc as [H1 H2]. change (zlen full_sb) with 6 in H2.
  destruct (full_sb_loop fuel dest (zlen dest) d c) as (dest' & L & ->); unfold NTFS_SB_SIZE; [lia | lia | lia | done | lia | lia |].
  rewrite <-L. apply IH; try done; lia.
Qed.
End over.

(** ** Properties *)

(** C13: decompressing arbitrary bytes returns, and touches no byte outside its
    buffers but for one: it may read the byte behind the compression block, and
    write the byte behind the destination. *)
Theorem decompress_safe cbuf cb_size dest dest_size : wf_bytes cbuf -> 0 <= cb_size < zlen cbuf -> 0 <= dest_size < zlen dest ->
  exists dest' r, ntfs_decompress cbuf cb_size dest dest_size = Some (dest', r) /\ frame dest dest' 0 (dest_size + 1).
Proof. intros Hw Hc Hd. apply sb_loop_safe; try done; lia. Qed.

(** the byte behind the destination is written: for a destination of any
    number of sub-blocks there are streams, in a block of any size that holds
    them, whose last literal lies behind it. *)
Theorem decompress_overruns n rest dest : zlen dest = NTFS_SB_SIZE * (Z.of_nat n + 1) ->
  let cbuf := concat (replicate n full_sb) ++ over_sb ++ rest in
  ntfs_decompress cbuf (zlen cbuf) dest (zlen dest) = None.
Proof.
  intros Hd cbuf. unfold ntfs_decompress.
  assert (zlen (concat (replicate n full_sb)) = 6 * Z.of_nat n) as Lf.
  { clear. induction n as [|n IH]; [done|]. cbn [replicate concat]. rewrite zlen_app, IH. change (zlen full_sb) with 6. lia. }
  assert (zlen cbuf = 6 * Z.of_nat n + 7 + zlen rest) as Lc by (unfold cbuf; rewrite !zlen_app, Lf; change (zlen over_sb) with 7; lia).
  pose proof (zlen_nonneg rest). apply (full_then_over cbuf n); [lia | lia | lia | | lia | lia].
  unfold cbuf. rewrite app_assoc. intros j Hj. rewrite Z.add_0_l. by rewrite zget_app_l by lia.
Qed.

(** ** Witnesses *)

Lemma decompress_safe_witness : exists dest' r,
  ntfs_decompress [0x03; 0xb0; 0x02; 97; 0xfc; 0x0f; 0; 0; 0] 8 (replicate 4097 1) 4096 = Some (dest', r) /\
  frame (replicate 4097 1) dest' 0 (4096 + 1).
Proof. apply (decompress_safe _ 8 _ 4096); [wf_concrete | split; vm_compute; congruence | split; vm_compute; congruence]. Defined.

Lemma decompress_overruns_witness : zlen (replicate 4096 (0 : Z)) = NTFS_SB_SIZE * (Z.of_nat 0 + 1) /\
  (let cbuf := concat (replicate 0 full_sb) ++ over_sb ++ replicate 4089 0 in
   ntfs_decompress cbuf (zlen cbuf) (replicate 4096 0) (zlen (replicate 4096 (0 : Z))) = None).
Proof. split; [by vm_compute | apply (decompress_overruns 0); by vm_compute]. Defined.
