(* ===== verification/CompressRt.v ===== *)
(** The compressed format of a sub-block, and that compressing and
    decompressing (libntfs-3g/compress.c, modelled in Compress) are inverse: a
    sub-block in the format decompresses to the bytes it stands for, and
    ntfs_compress_block produces a sub-block in the format. *)

From S2P Require Import Prelude Compress.
Local Open Scope Z_scope.
Local Open Scope c_scope.
Set Default Proof Using "Type*".

(** ** The format of a sub-block

    What a sub-block encodes: tokens, grouped by eight under a tag, each of
    which stands for the bytes of [inbuf] at the position the tokens before it
    lead to. *)

(** A byte, or the 16 bits of a phrase and its length. *)
Inductive token := Lit (b : Z) | Phrase (pt len : Z).

Definition tok_len (t : token) : Z := match t with Lit _ => 1 | Phrase _ len => len end.
Definition tok_bit (t : token) : Z := match t with Lit _ => 0 | Phrase _ _ => 1 end.
Definition tok_bytes (t : token) : list Z := match t with Lit b => [b] | Phrase pt _ => le_encode 2 pt end.
Definition toks_bytes (ts : list token) : list Z := concat (tok_bytes <$> ts).

Fixpoint tag_of (ts : list token) : Z :=
  match ts with [] => 0 | t :: ts => tok_bit t + 2 * tag_of ts end.

Definition group_bytes (ts : list token) : list Z := tag_of ts :: toks_bytes ts.
Definition groups_bytes (gs : list (list token)) : list Z := concat (group_bytes <$> gs).

(** [lg] is the number of bits by which offsets at position [p] are longer than
    four. *)
Definition lg_rel (p lg : Z) : Prop := 0 <= lg /\ p <= 16 * 2 ^ lg /\ (lg = 0 \/ 8 * 2 ^ lg < p).

Lemma lg_rel_unique p lg lg' : lg_rel p lg -> lg_rel p lg' -> lg = lg'.
Proof.
  assert (forall a b, lg_rel p a -> lg_rel p b -> ~ a < b) as Hw.
  { intros a b (Ha & Hp & _) (Hb & _ & [->|Hq]) Hab; [lia|].
    assert (2 ^ (a + 1) <= 2 ^ b) by (apply Z.pow_le_mono_r; lia). rewrite Z.pow_add_r in * by lia. change (2 ^ 1) with 2 in *. lia. }
  intros H1 H2. pose proof (Hw _ _ H1 H2). pose proof (Hw _ _ H2 H1). lia.
Qed.

Lemma lg_rel_le p lg : p <= 4096 -> lg_rel p lg -> lg <= 8.
Proof.
  intros Hp (Hl & _ & [->|Hq]); [lia|]. destruct (Z.le_gt_cases lg 8); [done|].
  assert (2 ^ 9 <= 2 ^ lg) by (apply Z.pow_le_mono_r; lia). change (2 ^ 9) with 512 in *. lia.
Qed.

Lemma lg_loop_rel p : 1 <= p <= 4096 -> exists lg, lg_loop 17 (u16 (p - 1)) 0 = Some lg /\ lg_rel p lg.
Proof.
  intros Hp. unfold u16. rewrite wrap_u_small by lia.
  destruct (lg_loop_spec 17 (p - 1) 0) as (k & -> & Hk & H1 & H2); [change (2 ^ (Z.of_nat 17 - 1)) with 65536; lia | lia |].
  exists k. split; [done|]. unfold lg_rel. lia.
Qed.

Section format.
Context (inbuf : list Z) (bufsize : Z).

(** The bytes at [m] and at [i] agree for [len] bytes. *)
Definition same (m i len : Z) : Prop := forall k, 0 <= k < len -> inbuf.[m + k] = inbuf.[i + k].

Definition tok_ok (p : Z) (t : token) : Prop :=
  p + tok_len t <= bufsize /\
  match t with
  | Lit b => inbuf.[p] = Some b
  | Phrase pt len =>
      exists lg dist, lg_rel p lg /\ 1 <= dist <= p /\ 3 <= len <= 2 ^ (12 - lg) + 2 /\
        pt = (dist - 1) * 2 ^ (12 - lg) + (len - 3) /\ same (p - dist) p len
  end.

Fixpoint toks_at (p : Z) (ts : list token) (q : Z) : Prop :=
  match ts with [] => p = q | t :: ts => tok_ok p t /\ toks_at (p + tok_len t) ts q end.

(** Groups of eight tokens; the last may be shorter. *)
Fixpoint groups_at (p : Z) (gs : list (list token)) (q : Z) : Prop :=
  match gs with
  | [] => p = q
  | g :: gs => exists r, g <> [] /\ (length g <= 8)%nat /\ (length g = 8%nat \/ gs = []) /\ toks_at p g r /\ groups_at r gs q
  end.

(** [bs] is a sub-block that stands for the first [bufsize] bytes of [inbuf]. *)
Inductive sb_format (bs : list Z) : Prop :=
  | sb_raw xs : bs = [0xff; 0x3f] ++ xs ++ replicate (Z.to_nat (NTFS_SB_SIZE - bufsize)) 0 ->
      zread inbuf 0 bufsize = Some xs -> sb_format bs
  | sb_compressed gs h : bs = le_encode 2 h ++ groups_bytes gs ->
      0x8000 <= h < 0x10000 -> Z.land h NTFS_SB_SIZE_MASK = zlen bs - 3 -> groups_at 0 gs bufsize -> sb_format bs.

Lemma tok_ok_pos p t : tok_ok p t -> 1 <= tok_len t.
Proof. destruct t; cbn; [lia|]. intros (_ & lg & dist & _ & _ & ? & _). lia. Qed.

Lemma toks_at_le p ts q : toks_at p ts q -> p <= q /\ (ts <> [] -> p < q <= bufsize).
Proof.
  revert p; induction ts as [|t ts IH]; intros p; cbn [toks_at]; [intros ->; split; [lia | done]|].
  intros [Ht Hts]. pose proof (tok_ok_pos _ _ Ht). pose proof (proj1 Ht). pose proof (IH _ Hts) as [H2 H3]. split; [lia|]. intros _.
  destruct ts; [cbn in *; lia | specialize (H3 ltac:(done)); lia].
Qed.

Lemma toks_at_app p ts us q : toks_at p (ts ++ us) q <-> exists r, toks_at p ts r /\ toks_at r us q.
Proof.
  revert p; induction ts as [|t ts IH]; intros p; cbn [toks_at app].
  - split; [eauto|]. by intros (r & -> & ?).
  - rewrite IH. split; [intros (? & r & ? & ?); eauto | intros (r & [? ?] & ?); eauto].
Qed.

Lemma groups_at_le p gs q : groups_at p gs q -> p <= q /\ (gs <> [] -> q <= bufsize).
Proof.
  revert p; induction gs as [|g gs IH]; intros p; cbn [groups_at]; [intros ->; split; [lia | done]|].
  intros (r & Hne & _ & _ & Ht & Hg). apply toks_at_le in Ht as [? Ht]. specialize (Ht Hne). pose proof (IH _ Hg) as [? Hg'].
  split; [lia|]. intros _. destruct gs; [cbn in *; lia | by apply Hg'].
Qed.
End format.

(** ** Decompressing the format *)

Section decode.
Context (inbuf : list Z) (bufsize : Z) (Hsize : bufsize <= NTFS_SB_SIZE).
Context (cbuf : list Z) (cb_size : Z).

(** [dest] holds the first [p] bytes of [inbuf] at [d0]. *)
Definition decoded (dest : list Z) (d0 p : Z) : Prop := forall k, 0 <= k < p -> dest.[d0 + k] = inbuf.[k].

Lemma decoded_step dest dest' d0 p q : decoded dest d0 p -> frame dest dest' (d0 + p) (d0 + q) ->
  (forall k, p <= k < q -> dest'.[d0 + k] = inbuf.[k]) -> decoded dest' d0 q.
Proof.
  intros H [_ Hf] Hn k Hk. destruct (Z.lt_ge_cases k p); [rewrite Hf by lia; by apply H; lia | apply Hn; lia].
Qed.

Lemma copy_bytes_decoded n dest d0 p dist : 1 <= dist <= p -> 0 <= d0 -> d0 + p + Z.of_nat n <= zlen dest ->
  decoded dest d0 p -> same inbuf (p - dist) p (Z.of_nat n) ->
  exists dest', copy_bytes n dest (d0 + p) (d0 + p - dist) = Some dest' /\
    frame dest dest' (d0 + p) (d0 + p + Z.of_nat n) /\ decoded dest' d0 (p + Z.of_nat n).
Proof.
  revert dest p; induction n as [|n IH]; intros dest p Hd Hd0 Hl Hdec Hs; cbn [copy_bytes].
  { exists dest. split_and!; [done | apply frame_refl | by rewrite Z.add_0_r]. }
  replace (d0 + p - dist) with (d0 + (p - dist)) by lia. rewrite Hdec by lia.
  pose proof (Hs 0 ltac:(lia)) as H0. rewrite !Z.add_0_r in H0.
  destruct (zget_inside dest (d0 + (p - dist))) as [x Hx]; [lia|]. rewrite Hdec in Hx by lia. rewrite Hx. cbn [mbind option_bind].
  destruct (zset dest (d0 + p) x) as [m|] eqn:E; [|rewrite zset_inside in E by lia; done]. cbn [mbind option_bind].
  pose proof (zset_frame _ _ _ _ E) as Hf. apply zset_Some in E as (_ & L & G).
  destruct (IH m (p + 1)) as (dest' & E' & Hf' & Hdec'); [lia | lia | lia | | |].
  { eapply decoded_step; [exact Hdec | eapply frame_trans; [exact Hf | apply (frame_refl m (d0 + p) (d0 + p)) | lia..] |].
    intros k Hk. replace k with p by lia. rewrite G, Z.eqb_refl. congruence. }
  { intros k Hk. specialize (Hs (k + 1) ltac:(lia)). replace (p + 1 - dist + k) with (p - dist + (k + 1)) by lia.
    by replace (p + 1 + k) with (p + (k + 1)) by lia. }
  replace (d0 + p + 1) with (d0 + (p + 1)) by lia. replace (d0 + (p - dist) + 1) with (d0 + (p + 1) - dist) by lia.
  rewrite E'. exists dest'. split; [done|]. split.
  - eapply frame_trans; [exact Hf | exact Hf' | lia..].
  - by replace (p + Z.of_nat (S n)) with (p + 1 + Z.of_nat n) by lia.
Qed.

Lemma write_decoded dest d0 p bs dest' : decoded dest d0 p -> zwrite dest (d0 + p) bs = Some dest' ->
  (forall k, 0 <= k < zlen bs -> bs.[k] = inbuf.[p + k]) -> decoded dest' d0 (p + zlen bs).
Proof.
  intros H E Hb. eapply decoded_step; [exact H | rewrite Z.add_assoc; by apply (zwrite_frame dest (d0 + p) bs) |].
  intros k Hk. replace (d0 + k) with (d0 + p + (k - p)) by lia. rewrite (zwrite_get _ _ _ _ _ E) by lia.
  rewrite Hb by lia. f_equal. lia.
Qed.

Lemma copy_phrase_decoded dest d0 p dist len : 1 <= dist <= p -> 0 <= len -> 0 <= d0 -> d0 + p + len <= zlen dest ->
  decoded dest d0 p -> same inbuf (p - dist) p len ->
  exists dest', copy_phrase dest (d0 + p) (d0 + p - dist) len = Some dest' /\
    frame dest dest' (d0 + p) (d0 + p + len) /\ decoded dest' d0 (p + len).
Proof.
  intros Hd Hlen Hd0 Hl Hdec Hs. unfold copy_phrase. replace (d0 + p - (d0 + p - dist)) with dist by lia.
  assert (forall n, 0 <= n -> n <= len -> n <= dist -> exists bs m, zread dest (d0 + p - dist) n = Some bs /\
    zwrite dest (d0 + p) bs = Some m /\ frame dest m (d0 + p) (d0 + p + n) /\ decoded m d0 (p + n)) as Hcopy.
  { intros n Hn Hnl Hnd. destruct (zread dest (d0 + p - dist) n) as [bs|] eqn:E; [|rewrite zread_inside in E by lia; done].
    apply zread_Some in E as (_ & _ & _ & Lb & Gb).
    destruct (zwrite dest (d0 + p) bs) as [m|] eqn:Ew; [|rewrite zwrite_inside in Ew by lia; done].
    exists bs, m. split_and!; [done | done | rewrite <-Lb; by apply (zwrite_frame dest (d0 + p) bs) |].
    rewrite <-Lb. eapply write_decoded; [done | done |]. intros k Hk. rewrite Gb by lia.
    replace (d0 + p - dist + k) with (d0 + (p - dist + k)) by lia. rewrite Hdec by lia. apply Hs. lia. }
  destruct (Z.leb_spec len dist).
  - destruct (Hcopy len) as (bs & m & -> & Hw & Hf & Hm); [lia..|]. cbn [mbind option_bind]. eauto.
  - destruct (Hcopy dist) as (bs & m & -> & Hw & Hf & Hm); [lia..|]. cbn [mbind option_bind]. rewrite Hw. cbn [mbind option_bind].
    pose proof (proj1 Hf) as Lm.
    destruct (copy_bytes_decoded (Z.to_nat (len - dist)) m d0 (p + dist) dist) as (dest' & E & Hf' & Hm'); [lia | lia | lia | done | |].
    { intros k Hk. specialize (Hs (dist + k) ltac:(lia)). replace (p + dist - dist + k) with (p - dist + (dist + k)) by lia.
      by replace (p + dist + k) with (p + (dist + k)) by lia. }
    replace (d0 + p + dist) with (d0 + (p + dist)) by lia. replace (d0 + p - dist + dist) with (d0 + (p + dist) - dist) by lia.
    rewrite E. exists dest'. split; [done|]. split; [eapply frame_trans; [exact Hf | exact Hf' | lia..]|].
    by replace (p + len) with (p + dist + Z.of_nat (Z.to_nat (len - dist))) by lia.
Qed.

(** The fields of a phrase. *)
Lemma phrase_fields lg dist len : 0 <= lg <= 8 -> 1 <= dist <= 16 * 2 ^ lg -> 3 <= len <= 2 ^ (12 - lg) + 2 ->
  let pt := (dist - 1) * 2 ^ (12 - lg) + (len - 3) in
  0 <= pt < 65536 /\ Z.shiftr pt (12 - lg) = dist - 1 /\ Z.land pt (Z.shiftr 0xfff lg) = len - 3.
Proof.
  intros Hlg Hd Hn pt. assert (0 < 2 ^ (12 - lg)) by (apply Z.pow_pos_nonneg; lia).
  assert (16 * 2 ^ lg * 2 ^ (12 - lg) = 65536) by (rewrite <-Z.mul_assoc, <-Z.pow_add_r by lia; by replace (lg + (12 - lg)) with 12 by lia).
  unfold pt. split_and!; [nia | nia | |].
  - rewrite Z.shiftr_div_pow2, Z.div_add_l, Z.div_small by lia. lia.
  - rewrite Z.shiftr_div_pow2 by lia. change 0xfff with (Z.ones 12). rewrite Z.ones_div_pow2, Z.land_ones by lia.
    rewrite Z.add_comm, Z.mod_add, Z.mod_small by lia. done.
Qed.

Lemma tag_cons t ts : Z.land (tag_of (t :: ts)) 1 = tok_bit t /\ Z.shiftr (tag_of (t :: ts)) 1 = tag_of ts.
Proof.
  cbn [tag_of]. rewrite (land_ones' _ 1 1), Z.shiftr_div_pow2 by lia. change (2 ^ 1) with 2. destruct t; cbn [tok_bit]; divlia.
Qed.

Lemma toks_bytes_cons t ts : toks_bytes (t :: ts) = tok_bytes t ++ toks_bytes ts.
Proof. done. Qed.

Lemma ld_holds n m a v : holds m a (le_encode n v) -> 0 <= a -> a + Z.of_nat n <= zlen m -> 0 <= v < 256 ^ Z.of_nat n ->
  ld n m a = Some v.
Proof.
  intros H Ha Hl Hv. unfold ld. replace (Z.of_nat n) with (zlen (le_encode n v)) by apply zlen_le_encode.
  rewrite holds_zread by (rewrite ?zlen_le_encode; done). cbn. by rewrite le_decode_encode, Z.mod_small.
Qed.

(** One token. *)
Lemma token_step n t ts dest d0 p c e : tok_ok inbuf bufsize p t -> holds cbuf c (tok_bytes t) -> 0 <= c ->
  c + zlen (tok_bytes t) <= e -> e <= zlen cbuf -> 0 <= p -> 0 <= d0 -> d0 + NTFS_SB_SIZE <= zlen dest -> decoded dest d0 p ->
  exists dest', token_loop cbuf (S n) (tag_of (t :: ts)) dest (d0 + p) d0 (d0 + NTFS_SB_SIZE) c e =
      token_loop cbuf n (tag_of ts) dest' (d0 + (p + tok_len t)) d0 (d0 + NTFS_SB_SIZE) (c + zlen (tok_bytes t)) e /\
    frame dest dest' (d0 + p) (d0 + (p + tok_len t)) /\ decoded dest' d0 (p + tok_len t).
Proof.
  unfold NTFS_SB_SIZE in *. intros [Hend Ht] Hc Hc0 Hce Hel Hp Hd0 Hl Hdec. cbn [token_loop].
  destruct (tag_cons t ts) as [-> ->]. assert (0 < zlen (tok_bytes t)) by (by destruct t).
  destruct (Z.leb_spec e c); [lia|]. destruct t as [b|pt len]; cbn [tok_bit tok_len tok_bytes] in *.
  - destruct (Z.ltb_spec (d0 + 0x1000) (d0 + p)); [lia|]. cbn [orb]. change (0 =? 0) with true. cbv iota.
    apply holds_cons in Hc as [-> _]. cbn [mbind option_bind].
    destruct (zset dest (d0 + p) b) as [m|] eqn:E; [|rewrite zset_inside in E by lia; done]. cbn [mbind option_bind].
    exists m. change (zlen [b]) with 1 in *. split_and!; [by rewrite Z.add_assoc | rewrite Z.add_assoc; by eapply zset_frame |].
    rewrite zset_zwrite in E. apply (write_decoded dest d0 p [b]); [done | done |]. change (zlen [b]) with 1. intros k Hk.
    replace k with 0 by lia. by rewrite Z.add_0_r, Ht.
  - destruct Ht as (lg & dist & Hlg & Hd & Hlen & Hpt & Hs). destruct (Z.ltb_spec (d0 + 0x1000) (d0 + p)); [lia|]. cbn [orb].
    change (1 =? 0) with false. cbv iota. destruct (Z.eqb_spec (d0 + p) d0); [lia|].
    replace (d0 + p - d0 - 1) with (p - 1) by lia. destruct (lg_loop_rel p) as (lg' & -> & Hlg'); [lia|].
    rewrite (lg_rel_unique _ _ _ Hlg' Hlg). cbn [mbind option_bind]. pose proof (lg_rel_le p lg ltac:(lia) Hlg). pose proof Hlg as (? & ? & _).
    destruct (phrase_fields lg dist len) as (Hr & E1 & E2); [lia..|]. rewrite <-Hpt in *.
    change (zlen (le_encode 2 pt)) with 2 in *. unfold le16_to_cpup.
    rewrite (ld_holds 2 cbuf c pt) by (try done; lia). cbn [mbind option_bind]. rewrite E1, E2.
    unfold u16. rewrite wrap_u_small by (assert (2 ^ (12 - lg) <= 2 ^ 12) by (apply Z.pow_le_mono_r; lia); lia).
    replace (d0 + p - (dist - 1) - 1) with (d0 + p - dist) by lia. replace (len - 3 + 3) with len by lia.
    destruct (Z.ltb_spec (d0 + p - dist) d0), (Z.ltb_spec (d0 + 0x1000) (d0 + p + len)); try lia.
    destruct (copy_phrase_decoded dest d0 p dist len) as (dest' & -> & Hf & Hdec'); try done; [lia..|]. cbn [mbind option_bind].
    exists dest'. by rewrite Z.add_assoc.
Qed.

(** The tokens of one group. *)
Lemma token_loop_decoded ts n dest d0 p q c e : toks_at inbuf bufsize p ts q -> (length ts <= n)%nat ->
  holds cbuf c (toks_bytes ts) -> 0 <= c -> c + zlen (toks_bytes ts) <= e -> e <= zlen cbuf ->
  length ts = n \/ c + zlen (toks_bytes ts) = e -> 0 <= p -> 0 <= d0 -> d0 + NTFS_SB_SIZE <= zlen dest -> decoded dest d0 p ->
  exists dest', token_loop cbuf n (tag_of ts) dest (d0 + p) d0 (d0 + NTFS_SB_SIZE) c e =
      Some (dest', Ok (d0 + q, c + zlen (toks_bytes ts))) /\
    frame dest dest' (d0 + p) (d0 + q) /\ decoded dest' d0 q.
Proof.
  revert n dest p c; induction ts as [|t ts IH]; intros n dest p c Ht Hn Hc Hc0 Hce Hel Hend Hp Hd0 Hl Hdec.
  - cbn in Ht. subst q. change (zlen (toks_bytes [])) with 0 in *. rewrite Z.add_0_r in *. exists dest.
    split_and!; [|apply frame_refl | done]. destruct n as [|n]; [done|]. cbn [token_loop].
    destruct Hend as [|<-]; [done|]. by rewrite Z.leb_refl.
  - destruct n as [|n]; [cbn in Hn; lia|]. destruct Ht as [Ht Hts]. rewrite toks_bytes_cons in *.
    apply holds_app in Hc as [Hc1 Hc2]. rewrite zlen_app in *. pose proof (zlen_nonneg (toks_bytes ts)).
    destruct (token_step n t ts dest d0 p c e) as (m & -> & Hf & Hm); try done; [lia|].
    pose proof (zlen_nonneg (tok_bytes t)). pose proof (tok_ok_pos _ _ _ _ Ht). pose proof (proj1 (toks_at_le _ _ _ _ _ Hts)).
    destruct (IH n m (p + tok_len t) (c + zlen (tok_bytes t))) as (dest' & -> & Hf' & Hdec'); try done; try lia.
    { cbn in Hn. lia. }
    { cbn in Hend. destruct Hend as [[=]|]; [by left | right; lia]. }
    { by destruct Hf as [-> _]. }
    exists dest'. rewrite Z.add_assoc. split_and!; [done | | done]. eapply frame_trans; [exact Hf | exact Hf' | lia..].
Qed.

(** [dest] holds at [d0] the [bufsize] bytes of [inbuf], and zeroes up to the
    size of a sub-block. *)
Definition sb_bytes (xs : list Z) : list Z := xs ++ replicate (Z.to_nat (NTFS_SB_SIZE - bufsize)) 0.

Lemma decoded_holds xs dest d0 : zread inbuf 0 bufsize = Some xs -> decoded dest d0 bufsize -> holds dest d0 xs.
Proof. intros (_ & _ & _ & L & G)%zread_Some H k Hk. rewrite H, G by lia. by rewrite Z.add_0_l. Qed.

Lemma zero_fill xs dest d0 dest' : zread inbuf 0 bufsize = Some xs -> decoded dest d0 bufsize ->
  zwrite dest (d0 + bufsize) (replicate (Z.to_nat (NTFS_SB_SIZE - bufsize)) 0) = Some dest' ->
  holds dest' d0 (sb_bytes xs).
Proof.
  intros Hx Hd E. pose proof (zread_Some _ _ _ _ Hx) as (_ & _ & _ & L & _). unfold sb_bytes. apply holds_app. split.
  - eapply holds_frame; [by apply decoded_holds | by eapply zwrite_frame | lia].
  - rewrite L. by eapply holds_zwrite.
Qed.

Lemma groups_bytes_len gs : Z.of_nat (length gs) <= zlen (groups_bytes gs).
Proof.
  induction gs as [|g gs IH]; [done|]. unfold groups_bytes in *. cbn [fmap list_fmap concat length]. rewrite zlen_app.
  unfold group_bytes at 1. rewrite zlen_cons. pose proof (zlen_nonneg (toks_bytes g)). lia.
Qed.

(** The groups of a sub-block. *)
Lemma tag_loop_decoded xs gs fuel dest d0 p c e : zread inbuf 0 bufsize = Some xs -> groups_at inbuf bufsize p gs bufsize ->
  holds cbuf c (groups_bytes gs) -> 0 <= c -> c + zlen (groups_bytes gs) = e -> e <= zlen cbuf -> (length gs < fuel)%nat ->
  0 <= p -> 0 <= d0 -> d0 + NTFS_SB_SIZE <= zlen dest -> decoded dest d0 p ->
  exists dest', tag_loop cbuf fuel dest (d0 + p) d0 (d0 + NTFS_SB_SIZE) c e = Some (dest', Ok (d0 + NTFS_SB_SIZE, e)) /\
    frame dest dest' (d0 + p) (d0 + NTFS_SB_SIZE) /\ holds dest' d0 (sb_bytes xs).
Proof.
  intros Hx. unfold NTFS_SB_SIZE in *. revert fuel dest p c.
  induction gs as [|g gs IH]; intros [|fuel] dest p c Hg Hc Hc0 Hce Hel Hfu Hp Hd0 Hl Hdec; cbn [length] in Hfu; try lia; cbn [tag_loop].
  - cbn in Hg. subst p. change (zlen (groups_bytes [])) with 0 in *. rewrite Z.add_0_r in *. subst e. rewrite Z.eqb_refl.
    destruct (zwrite dest (d0 + bufsize) (replicate (Z.to_nat (d0 + 0x1000 - (d0 + bufsize))) 0)) as [m|] eqn:E;
      [|rewrite zwrite_inside in E by (rewrite ?zlen_replicate; lia); done].
    pose proof (zwrite_frame _ _ _ _ E) as Hf. rewrite zlen_replicate in Hf.
    assert (holds m d0 (sb_bytes xs)) as Hh.
    { eapply zero_fill; [done | done |]. unfold NTFS_SB_SIZE. by replace (0x1000 - bufsize) with (d0 + 0x1000 - (d0 + bufsize)) by lia. }
    destruct (Z.ltb_spec (d0 + bufsize) (d0 + 0x1000)).
    + cbn [mbind option_bind]. exists m. split_and!; [done | | done]. eapply frame_trans; [exact Hf | apply (frame_refl m (d0 + bufsize) (d0 + bufsize)) | lia..].
    + assert (bufsize = 0x1000) as Hb by lia. rewrite Hb in *. rewrite Z.sub_diag in E. change (Z.to_nat 0) with 0%nat in E. cbn [replicate] in E.
      rewrite zwrite_nil in E by lia. injection E as <-. exists dest. split_and!; [done | apply frame_refl | done].
  - destruct Hg as (r & Hne & Hg8 & Hlast & Ht & Hgs). unfold groups_bytes in Hc, Hce. cbn [fmap list_fmap concat] in Hc, Hce.
    fold (groups_bytes gs) in Hc, Hce. rewrite zlen_app in Hce. unfold group_bytes in Hc, Hce at 1. unfold group_bytes in Hce. rewrite zlen_cons in Hce.
    apply holds_app in Hc as [Hc Hcs]. apply holds_cons in Hc as [Htag Hc]. rewrite zlen_cons in Hcs.
    pose proof (zlen_nonneg (toks_bytes g)). pose proof (zlen_nonneg (groups_bytes gs)).
    destruct (toks_at_le _ _ _ _ _ Ht) as [_ Hlt]. specialize (Hlt Hne).
    destruct (Z.eqb_spec c e), (Z.ltb_spec e c), (Z.ltb_spec (d0 + 0x1000) (d0 + p)); try lia. cbn [orb]. rewrite Htag. cbn [mbind option_bind].
    destruct (token_loop_decoded g 8 dest d0 p r (c + 1) e) as (m & E & Hf & Hm); try done; try lia.
    { destruct Hlast as [ | -> ]; [by left | right]. change (zlen (groups_bytes [])) with 0 in *. lia. }
    unfold NTFS_SB_SIZE in E. rewrite E. cbn [mbind option_bind].
    destruct (IH fuel m r (c + 1 + zlen (toks_bytes g))) as (dest' & -> & Hf' & Hh); try done; try lia.
    { by replace (c + 1 + zlen (toks_bytes g)) with (c + (zlen (toks_bytes g) + 1)) by lia. }
    { by destruct Hf as [-> _]. }
    exists dest'. split_and!; [done | | done]. eapply frame_trans; [exact Hf | exact Hf' | lia..].
Qed.

(** A sub-block in the format decompresses to the bytes it stands for. *)
Lemma sb_loop_decoded bs xs fuel dest dest_size d c : 1 <= bufsize -> zread inbuf 0 bufsize = Some xs -> sb_format inbuf bufsize bs ->
  holds cbuf c bs -> 0 <= c -> c + zlen bs <= cb_size -> c + 6 <= cb_size -> cb_size <= zlen cbuf ->
  0 <= d -> d + NTFS_SB_SIZE <= dest_size -> dest_size <= zlen dest ->
  exists dest', sb_loop cbuf cb_size (S fuel) dest dest_size d c =
      sb_loop cbuf cb_size fuel dest' dest_size (d + NTFS_SB_SIZE) (c + zlen bs) /\
    frame dest dest' d (d + NTFS_SB_SIZE) /\ holds dest' d (sb_bytes xs).
Proof.
  unfold NTFS_SB_SIZE in *. intros Hb1 Hx Hf Hc Hc0 Hcb Hc6 Hcl Hd Hds Hdl. cbn [sb_loop]. unfold NTFS_SB_SIZE.
  destruct (Z.eqb_spec c cb_size), (Z.eqb_spec d dest_size), (Z.ltb_spec dest_size (d + 0x1000)), (Z.ltb_spec cb_size (c + 6)); try lia.
  pose proof (zread_Some _ _ _ _ Hx) as (_ & _ & _ & Lx & Gx). destruct Hf as [ys -> Hys | gs h -> Hh Hmask Hg].
  - rewrite Hx in Hys. injection Hys as <-. change (xs ++ replicate _ 0) with (sb_bytes xs) in *.
    assert (zlen (sb_bytes xs) = 0x1000) as Lb by (unfold sb_bytes, NTFS_SB_SIZE; rewrite zlen_app, zlen_replicate; lia).
    rewrite zlen_app in *. apply holds_app in Hc as [H1 H2]. change (zlen [0xff; 0x3f]) with 2 in *. rewrite Lb in *.
    unfold le16_to_cpup. rewrite (ld_holds 2 cbuf c 0x3fff) by (try done; lia). cbn [mbind option_bind orb].
    change (0x3fff =? 0) with false. change (Z.land 0x3fff NTFS_SB_SIZE_MASK) with 0xfff.
    change (Z.land 0x3fff NTFS_SB_IS_COMPRESSED =? 0) with true. cbn [orb]. cbv iota.
    destruct (Z.ltb_spec cb_size (c + 0xfff + 3)); [lia|]. replace (c + 0xfff + 3 - (c + 2)) with 0x1000 by lia.
    change (negb (0x1000 =? 0x1000)) with false. cbv iota. rewrite <-Lb. rewrite holds_zread by (try done; lia). cbn [mbind option_bind].
    destruct (zwrite dest d (sb_bytes xs)) as [m|] eqn:E; [|rewrite zwrite_inside in E by lia; done]. cbn [mbind option_bind].
    exists m. rewrite Z.add_assoc. split_and!; [done | by eapply zwrite_frame | by eapply holds_zwrite].
  - rewrite zlen_app in *. rewrite zlen_le_encode in *. change (Z.of_nat 2) with 2 in *. apply holds_app in Hc as [H1 H2].
    rewrite zlen_le_encode in H2. change (Z.of_nat 2) with 2 in H2. pose proof (groups_bytes_len gs).
    assert (0 < zlen (groups_bytes gs)) by (destruct gs; [cbn in Hg; lia | cbn [length] in *; lia]).
    unfold le16_to_cpup. rewrite (ld_holds 2 cbuf c h) by (try done; try lia; change (256 ^ Z.of_nat 2) with 65536; lia).
    cbn [mbind option_bind]. destruct (Z.eqb_spec h 0); [lia|]. cbn [orb]. rewrite Hmask.
    destruct (Z.ltb_spec cb_size (c + (2 + zlen (groups_bytes gs) - 3) + 3)); [lia|].
    assert (Z.land h NTFS_SB_IS_COMPRESSED <> 0) as Hcomp.
    { intros Hz. apply (f_equal (fun x => Z.testbit x 15)) in Hz. rewrite Z.land_spec in Hz.
      change (Z.testbit NTFS_SB_IS_COMPRESSED 15) with true in Hz. rewrite andb_true_r, Z.bits_0 in Hz.
      rewrite Z.testbit_false in Hz by lia. change (2 ^ 15) with 32768 in Hz. divlia. }
    destruct (Z.eqb_spec (Z.land h NTFS_SB_IS_COMPRESSED) 0); [done|].
    destruct (tag_loop_decoded xs gs (Z.to_nat cb_size) dest d 0 (c + 2) (c + (2 + zlen (groups_bytes gs) - 3) + 3)) as (dest' & E & Hf & Hh');
      try done; try (unfold NTFS_SB_SIZE; lia). { intros k Hk. lia. }
    unfold NTFS_SB_SIZE in E, Hf. rewrite Z.add_0_r in E, Hf. rewrite E. cbn [mbind option_bind]. exists dest'. split_and!; [|done|done].
    f_equal. lia.
Qed.
End decode.

(** ** The match finder *)

Section finder.
Context (inbuf : list Z) (bufsize : Z) (Hin : bufsize <= zlen inbuf) (Hsize : bufsize <= NTFS_SB_SIZE).

(** The hash chains lead to earlier positions; those before [ins] are in. *)
Record chains_ok (x : COMPRESS_CONTEXT) (ins : Z) : Prop := {
  co_head_len : zlen (head x) = 2 ^ HASH_SHIFT;
  co_prev_len : zlen (prev x) = NTFS_SB_SIZE;
  co_head : forall h v, (head x).[h] = Some v -> -1 <= v < ins;
  co_prev : forall p v, 0 <= p < ins -> p + 4 <= bufsize -> (prev x).[p] = Some v -> -1 <= v < p }.

Lemma ntfs_hash_range p : 0 <= p -> p + 4 <= bufsize -> exists h, ntfs_hash inbuf p = Some h /\ 0 <= h < 2 ^ HASH_SHIFT.
Proof.
  intros Hp Hb. unfold ntfs_hash, le32_to_cpup. destruct (ld_inside 4 inbuf p) as [v ->]; [lia | lia |]. cbn [mbind option_bind].
  eexists. split; [done|]. rewrite Z.shiftr_div_pow2 by (unfold HASH_SHIFT; lia). unfold HASH_SHIFT. change (2 ^ (32 - 14)) with 262144.
  pose proof (wrap_u_range 32 (Z.land v 0xFFFFFF * HASH_MULTIPLIER) ltac:(lia)). fold (u32 (Z.land v 0xFFFFFF * HASH_MULTIPLIER)) in *.
  change (2 ^ 32) with 4294967296 in *. change (2 ^ 14) with 16384. divlia.
Qed.

(** [x'] differs from [x] in its chains only. *)
Definition same_match (x x' : COMPRESS_CONTEXT) : Prop := c_size x' = c_size x /\ c_rel x' = c_rel x /\ c_mxsz x' = c_mxsz x.

Lemma chains_mono x i j : chains_ok x i -> i <= j -> bufsize < i + 4 -> chains_ok x j.
Proof.
  intros [H1 H2 H3 H4] Hij Hb. split; [done | done | |].
  - intros h v Hv. specialize (H3 _ _ Hv). lia.
  - intros p v Hp Hpb Hv. apply (H4 p v); [lia | done | done].
Qed.

Lemma chains_set x ins size rel : chains_ok x ins -> chains_ok (set_match x size rel) ins.
Proof. by intros []; split. Qed.

Lemma insert_position_ok x i : chains_ok x i -> 0 <= i -> i + 4 <= bufsize ->
  exists x' cur, insert_position inbuf x i = Some (x', cur) /\ chains_ok x' (i + 1) /\ same_match x x' /\ -1 <= cur < i.
Proof.
  intros [H1 H2 H3 H4] Hi Hb. unfold insert_position. destruct (ntfs_hash_range i) as (h & -> & Hh); [done | done |]. cbn [mbind option_bind].
  destruct (zget_inside (head x) h) as [cur Hcur]; [lia|]. rewrite Hcur. cbn [mbind option_bind]. pose proof (H3 _ _ Hcur) as Hc.
  destruct (zset (prev x) i cur) as [p'|] eqn:Ep; [|rewrite zset_inside in Ep by lia; done]. cbn [mbind option_bind].
  destruct (zset (head x) h i) as [h'|] eqn:Eh; [|rewrite zset_inside in Eh by lia; done]. cbn [mbind option_bind].
  apply zset_Some in Ep as (_ & Lp & Gp), Eh as (_ & Lh & Gh). eexists _, cur. split; [done|]. split; [|done].
  split; cbn [head prev]; [lia | lia | |].
  - intros k v. rewrite Gh. destruct (Z.eqb_spec k h); [intros [= <-]; lia | intros Hv%H3; lia].
  - intros p v Hp Hpb. rewrite Gp. destruct (Z.eqb_spec p i); [intros [= <-]; lia | intros Hv; apply (H4 p); [lia | done | done]].
Qed.

Lemma same_S m i len : 0 <= len -> same inbuf m i len -> inbuf.[m + len] = inbuf.[i + len] -> same inbuf m i (len + 1).
Proof. intros Hl H E k Hk. destruct (decide (k = len)) as [->|]; [done | apply H; lia]. Qed.

Lemma same_from_ok fuel m i len lim : 0 <= m <= i -> 0 <= len -> i + lim <= bufsize -> lim - len <= Z.of_nat fuel -> same inbuf m i len ->
  exists b, same_from inbuf fuel m i len lim = Some b /\ (b = true -> same inbuf m i (Z.max len lim)).
Proof.
  revert len; induction fuel as [|f IH]; intros len Hm Hl Hlim Hf Hs; cbn [same_from];
    (destruct (Z.ltb_spec len lim); cbn [negb]; [|exists true; split; [done | intros _; by rewrite Z.max_l by lia]]); [lia|].
  destruct (zget_inside inbuf (m + len)) as [a Ha]; [lia|]. destruct (zget_inside inbuf (i + len)) as [b Hb]; [lia|].
  rewrite Ha, Hb. cbn [mbind option_bind]. destruct (Z.eqb_spec a b) as [->|]; [|by exists false].
  destruct (IH (len + 1)) as (r & -> & Hr); [done | lia | done | lia | apply same_S; [done | done | congruence] |].
  exists r. split; [done|]. by replace (Z.max len lim) with (Z.max (len + 1) lim) by lia.
Qed.

Lemma extend_max_ok fuel m i len lim : 0 <= m <= i -> 0 <= len <= lim -> i + lim <= bufsize -> lim - len <= Z.of_nat fuel -> same inbuf m i len ->
  exists l, extend_max inbuf fuel m i len lim = Some l /\ len <= l <= lim /\ same inbuf m i l.
Proof.
  revert len; induction fuel as [|f IH]; intros len Hm Hl Hlim Hf Hs; cbn [extend_max];
    (destruct (Z.ltb_spec len lim); cbn [negb]; [|exists len; by split_and!; [| lia | lia |]]); [lia|].
  destruct (zget_inside inbuf (m + len)) as [a Ha]; [lia|]. destruct (zget_inside inbuf (i + len)) as [b Hb]; [lia|].
  rewrite Ha, Hb. cbn [mbind option_bind]. destruct (Z.eqb_spec a b) as [->|]; [|exists len; by split_and!; [| lia | lia |]].
  destruct (IH (len + 1)) as (l & -> & Hl' & Hs'); [done | lia | done | lia | apply same_S; [lia | done | congruence] |].
  exists l. split_and!; done || lia.
Qed.

Lemma extend_ok fuel m i len nice lim : 0 <= m <= i -> 0 <= len < nice -> nice <= lim -> i + lim <= bufsize -> nice - len <= Z.of_nat fuel ->
  same inbuf m i (len + 1) ->
  exists l stop, extend inbuf fuel m i len nice lim = Some (l, stop) /\ len < l <= lim /\ same inbuf m i l /\ (stop = false -> l < nice).
Proof.
  revert len; induction fuel as [|f IH]; intros len Hm Hl Hn Hlim Hf Hs; [lia|]. cbn [extend]. destruct (Z.leb_spec nice (len + 1)).
  - destruct (extend_max_ok (Z.to_nat lim) m i (len + 1) lim) as (l & -> & Hl' & Hs'); [done | lia | done | lia | done |]. cbn [mbind option_bind].
    exists l, true. split_and!; try done; lia.
  - destruct (zget_inside inbuf (m + (len + 1))) as [a Ha]; [lia|]. destruct (zget_inside inbuf (i + (len + 1))) as [b Hb]; [lia|].
    rewrite Ha, Hb. cbn [mbind option_bind]. destruct (Z.eqb_spec a b) as [->|].
    + destruct (IH (len + 1)) as (l & stop & -> & Hl' & Hs' & Hst); try done; try lia. { apply same_S; [lia | done | congruence]. }
      exists l, stop. split_and!; try done; lia.
    + exists (len + 1), false. split_and!; try done; lia.
Qed.

Lemma candidate_ok m i len : 0 <= m <= i -> 2 <= len -> i + len < bufsize ->
  exists b, candidate inbuf m i len = Some b /\ (b = true -> same inbuf m i (len + 1)).
Proof.
  intros Hm Hl Hb. unfold candidate.
  assert (forall k, 0 <= k <= len -> exists a b, inbuf.[m + k] = Some a /\ inbuf.[i + k] = Some b /\ (a = b -> inbuf.[m + k] = inbuf.[i + k])) as Hk.
  { intros k Hk. destruct (zget_inside inbuf (m + k)) as [a Ha]; [lia|]. destruct (zget_inside inbuf (i + k)) as [b Hb']; [lia|].
    exists a, b. split_and!; try done. congruence. }
  destruct (Hk len) as (a & b & Ha & Hb' & E1); [lia|]. rewrite Ha, Hb'. cbn [mbind option_bind].
  destruct (Z.eqb_spec a b) as [Hab|]; cbn [negb]; [|by exists false]. specialize (E1 Hab). clear Ha Hb' a b Hab.
  destruct (Hk (len - 1)) as (a & b & Ha & Hb' & E2); [lia|]. rewrite Ha, Hb'. cbn [mbind option_bind].
  destruct (Z.eqb_spec a b) as [Hab|]; cbn [negb]; [|by exists false]. specialize (E2 Hab). clear Ha Hb' a b Hab.
  destruct (Hk 0) as (a & b & Ha & Hb' & E3); [lia|]. rewrite !Z.add_0_r in *. rewrite Ha, Hb'. cbn [mbind option_bind].
  destruct (Z.eqb_spec a b) as [Hab|]; cbn [negb]; [|by exists false]. specialize (E3 Hab). clear Ha Hb' a b Hab.
  destruct (same_from_ok (Z.to_nat len) m i 1 (len - 1)) as (r & -> & Hr); [done | lia | lia | lia | |].
  { intros k Hk0. replace k with 0 by lia. by rewrite !Z.add_0_r. }
  exists r. split; [done|]. intros Hrt. specialize (Hr Hrt).
  intros k Hk'. destruct (decide (k = len)) as [->|]; [done|]. destruct (decide (k = len - 1)) as [->|]; [done | apply Hr; lia].
Qed.

(** A match at [i] longer than [least], or none. *)
Definition match_ok (i least mxsz size rel : Z) : Prop :=
  (size = least /\ rel = 0) \/
  (least < size <= mxsz /\ i + size <= bufsize /\ - i <= rel <= -1 /\ same inbuf (i + rel) i size).

Lemma chain_loop_ok x depth i cur len best nice lim : chains_ok x (i + 1) -> 0 <= i -> i + 4 <= bufsize ->
  -1 <= cur < i -> 2 <= len < nice -> nice <= lim -> i + lim <= bufsize ->
  exists l b, chain_loop inbuf depth (prev x) i cur len best nice lim = Some (l, b) /\
    ((l = len /\ b = best) \/ (len < l <= lim /\ 0 <= b < i /\ same inbuf b i l)).
Proof.
  intros Hx Hi Hb. revert cur len best; induction depth as [|d IH]; intros cur len best Hc Hl Hn Hlim; cbn [chain_loop];
    [exists len, best; split; [done | by left]|].
  destruct (Z.ltb_spec cur 0); [exists len, best; split; [done | by left]|].
  destruct (candidate_ok cur i len) as (ok & -> & Hok); [lia | lia | lia |]. cbn [mbind option_bind].
  destruct (zget_inside (prev x) cur) as [next Hnext]; [rewrite (co_prev_len _ _ Hx); lia|].
  assert (-1 <= next < i) as Hnx by (pose proof (co_prev _ _ Hx cur next ltac:(lia) ltac:(lia) Hnext); lia). destruct ok.
  - destruct (extend_ok (Z.to_nat nice) cur i len nice lim) as (l & stop & -> & Hl' & Hs & Hst); [lia | lia | lia | lia | lia | by apply Hok |].
    cbn [mbind option_bind fst snd]. destruct stop.
    + exists l, cur. split; [done|]. right. split_and!; done || lia.
    + rewrite Hnext. cbn [mbind option_bind]. specialize (Hst eq_refl).
      destruct (IH next l cur) as (l2 & b & -> & Hr); [done | lia | done | done |]. exists l2, b. split; [done|]. right.
      destruct Hr as [[-> ->]|(? & ? & ?)]; split_and!; done || lia.
  - rewrite Hnext. cbn [mbind option_bind]. by apply IH.
Qed.

Lemma ntfs_best_match_ok x i least : chains_ok x i -> 0 <= i < bufsize -> 2 <= least < NICE_MATCH_LEN -> 4 <= c_mxsz x ->
  exists x', ntfs_best_match inbuf bufsize x i least = Some x' /\ chains_ok x' (i + 1) /\ c_mxsz x' = c_mxsz x /\
    match_ok i least (c_mxsz x) (c_size x') (c_rel x').
Proof.
  intros Hx Hi Hl Hm. unfold ntfs_best_match. unfold NICE_MATCH_LEN in *. destruct (Z.ltb_spec (Z.min (bufsize - i) (c_mxsz x)) 4).
  { eexists. split; [done|]. split_and!; [|done | by left]. apply chains_set. by apply (chains_mono x i); [|lia|lia]. }
  destruct (insert_position_ok x i) as (x' & cur & -> & Hx' & (_ & _ & Hmx) & Hc); [done | lia | lia |]. cbn [mbind option_bind].
  destruct (Z.leb_spec (Z.min (bufsize - i) (c_mxsz x)) least).
  { eexists. split; [done|]. split_and!; [by apply chains_set | done | by left]. }
  destruct (chain_loop_ok x' MAX_SEARCH_DEPTH i cur least i (Z.min 18 (Z.min (bufsize - i) (c_mxsz x))) (Z.min (bufsize - i) (c_mxsz x)))
    as (l & b & -> & Hr); [done | lia..|]. cbn [mbind option_bind fst snd]. eexists. split; [done|]. split_and!; [by apply chains_set | done |].
  cbn. destruct Hr as [[-> ->]|(? & ? & Hs)]; [left; split; [done | lia] | right]. replace (i + (b - i)) with b by lia.
  split_and!; done || lia.
Qed.

Lemma ntfs_skip_position_ok x i : chains_ok x i -> 0 <= i ->
  exists x', ntfs_skip_position inbuf bufsize x i = Some x' /\ chains_ok x' (i + 1) /\ same_match x x'.
Proof.
  intros Hx Hi. unfold ntfs_skip_position. destruct (Z.ltb_spec (bufsize - i) 4).
  { exists x. split_and!; [done | by apply (chains_mono x i); [|lia|lia] | done]. }
  destruct (insert_position_ok x i) as (x' & cur & -> & Hx' & Hm & _); [done | lia | lia |]. by exists x'.
Qed.

Lemma skip_range_ok fuel x i j : chains_ok x i -> 0 <= i < j -> j - i <= Z.of_nat fuel ->
  exists x', skip_range inbuf bufsize fuel x i j = Some x' /\ chains_ok x' j /\ same_match x x'.
Proof.
  revert x i; induction fuel as [|f IH]; intros x i Hx Hi Hf; [lia|]. cbn [skip_range].
  destruct (ntfs_skip_position_ok x i) as (m & -> & Hm & Hs); [done | lia |]. cbn [mbind option_bind].
  destruct (Z.eqb_spec (i + 1) j) as [<-|]; cbn [negb]; [by exists m|].
  destruct (IH m (i + 1)) as (x' & -> & Hx' & Hs'); [done | lia | lia |]. exists x'. split_and!; [done | done |].
  unfold same_match in *. intuition congruence.
Qed.
End finder.

(** ** The compressor's invariant *)

Lemma tag_of_range ts : 0 <= tag_of ts < 2 ^ Z.of_nat (length ts).
Proof.
  induction ts as [|t ts IH]; [done|]. cbn [tag_of length]. rewrite Nat2Z.inj_succ, Z.pow_succ_r by lia.
  destruct t; cbn [tok_bit]; lia.
Qed.

Lemma tag_of_snoc ts t : tag_of (ts ++ [t]) = Z.lor (tag_of ts) (Z.shiftl (tok_bit t) (Z.of_nat (length ts))).
Proof.
  rewrite Z.shiftl_mul_pow2 by lia. rewrite Z.lor_comm, (lor_add _ _ (Z.of_nat (length ts))); [|lia | apply tag_of_range |].
  - induction ts as [|u ts IH]; [cbn; lia|]. cbn [app tag_of length]. rewrite IH, Nat2Z.inj_succ, Z.pow_succ_r by lia. lia.
  - apply Z.mod_mul. lia.
Qed.

Lemma toks_bytes_snoc ts t : toks_bytes (ts ++ [t]) = toks_bytes ts ++ tok_bytes t.
Proof. unfold toks_bytes. rewrite fmap_app, concat_app. cbn. by rewrite app_nil_r. Qed.

Lemma groups_bytes_snoc gs g : groups_bytes (gs ++ [g]) = groups_bytes gs ++ group_bytes g.
Proof. unfold groups_bytes. rewrite fmap_app, concat_app. cbn. by rewrite app_nil_r. Qed.

Section compressor.
Context (inbuf : list Z) (bufsize : Z) (Hin : bufsize <= zlen inbuf) (Hsize : bufsize <= NTFS_SB_SIZE).
Context (osize : Z) (Hosize : NTFS_SB_SIZE + 4 <= osize).

(** The bits of an offset: [bp], [mxoff] and [mxsz] belong to one [lg], which is
    not too large for position [i]. *)
Record offset_ok (bp mxoff mxsz i lg : Z) : Prop := {
  oo_bp : bp = 4 + lg;
  oo_off : mxoff = 16 * 2 ^ lg;
  oo_sz : mxsz = 2 ^ (12 - lg) + 2;
  oo_lg : 0 <= lg <= 8;
  oo_low : lg = 0 \/ 8 * 2 ^ lg < i }.

(** What is encoded: full groups [gs], then the tokens [cur] of the open group. *)
Record encoded (s : cstate) (gs : list (list token)) (cur : list token) : Prop := {
  en_gs : Forall (fun g => length g = 8%nat) gs;
  en_cur : (length cur <= 8)%nat;
  en_toks : toks_at inbuf bufsize 0 (concat gs ++ cur) (s_i s);
  en_groups : holds (s_out s) 2 (groups_bytes gs);
  en_ptag : s_ptag s = 2 + zlen (groups_bytes gs);
  en_bytes : holds (s_out s) (s_ptag s + 1) (toks_bytes cur);
  en_xout : s_xout s = s_ptag s + 1 + zlen (toks_bytes cur);
  en_tag : s_tag s = tag_of cur;
  en_ntag : s_ntag s = 8 - Z.of_nat (length cur);
  en_size : zlen (s_out s) = osize }.

(** The match finder is past the current position, by one when a match there is
    already known. *)
Definition finder_ok (s : cstate) : Prop :=
  chains_ok bufsize (s_ctx s) (s_i s + if s_have s then 1 else 0) /\
  exists lg, offset_ok (s_bp s) (s_mxoff s) (c_mxsz (s_ctx s)) (s_i s) lg /\
    (s_have s = true -> s_i s <= s_mxoff s /\ 3 <= c_size (s_ctx s) /\
       match_ok inbuf bufsize (s_i s) 2 (c_mxsz (s_ctx s)) (c_size (s_ctx s)) (c_rel (s_ctx s))).

Lemma offset_step bp mxoff mxsz i lg j : offset_ok bp mxoff mxsz i lg -> i <= j <= bufsize -> mxoff < j ->
  offset_ok (bp + 1) (Z.shiftl mxoff 1) (Z.shiftr (mxsz + 2) 1) j (lg + 1).
Proof.
  unfold NTFS_SB_SIZE in *. intros [-> -> -> Hlg _] Hij Hm.
  assert (lg <= 7) as Hlg7.
  { destruct (Z.le_gt_cases lg 7); [done|]. replace lg with 8 in * by lia. change (2 ^ 8) with 256 in *. lia. }
  assert (2 ^ (lg + 1) = 2 * 2 ^ lg) as E1 by (rewrite Z.pow_add_r by lia; lia).
  assert (2 ^ (12 - lg) = 2 * 2 ^ (12 - (lg + 1))) as E2 by (rewrite <-Z.pow_succ_r by lia; f_equal; lia).
  split; [lia | rewrite Z.shiftl_mul_pow2 by lia; lia | | lia | lia].
  rewrite Z.shiftr_div_pow2, E2 by lia. change (2 ^ 1) with 2. divlia.
Qed.

Lemma adjust_ok fuel bp mxoff mxsz i lg : offset_ok bp mxoff mxsz i lg -> i <= bufsize -> 8 - lg < Z.of_nat fuel ->
  exists bp' mxoff' mxsz' lg', adjust fuel bp mxoff mxsz i = Some (bp', mxoff', mxsz') /\
    offset_ok bp' mxoff' mxsz' i lg' /\ i <= mxoff'.
Proof.
  revert bp mxoff mxsz lg; induction fuel as [|f IH]; intros bp mxoff mxsz lg Ho Hi Hf; [destruct Ho; lia|]. cbn [adjust].
  destruct (Z.ltb_spec mxoff i).
  - apply (IH _ _ _ (lg + 1)); [by apply (offset_step _ _ _ i); [|lia|] | done | lia].
  - by exists bp, mxoff, mxsz, lg.
Qed.

Lemma offset_lg_rel bp mxoff mxsz i lg : offset_ok bp mxoff mxsz i lg -> i <= mxoff -> lg_rel i lg.
Proof. intros [_ -> _ ? ?] Hi. unfold lg_rel. lia. Qed.

Lemma offset_mxsz bp mxoff mxsz i lg : offset_ok bp mxoff mxsz i lg -> 18 <= mxsz <= 4098.
Proof.
  intros [_ _ -> Hlg _]. assert (2 ^ 4 <= 2 ^ (12 - lg) <= 2 ^ 12) as H by (split; apply Z.pow_le_mono_r; lia).
  change (2 ^ 4) with 16 in H. change (2 ^ 12) with 4096 in H. lia.
Qed.

(** The token of a match. *)
Lemma phrase_tok i bp lg size rel : lg_rel i lg -> 0 <= lg <= 8 -> bp = 4 + lg -> 3 <= size ->
  match_ok inbuf bufsize i 2 (2 ^ (12 - lg) + 2) size rel -> i <= bufsize ->
  let q := u32 (Z.shiftl (Z.lnot rel) (16 - bp) + (size - 3)) in
  tok_ok inbuf bufsize i (Phrase q size) /\ 0 <= q < 65536.
Proof.
  unfold NTFS_SB_SIZE in *. intros Hlg Hlg8 -> Hs [[-> _]|(Hsz & Hend & Hr & Hsame)] Hi; [lia|]. cbn zeta.
  destruct (phrase_fields lg (- rel) size) as (Hpt & _); [lia | destruct Hlg; lia | lia |].
  replace (16 - (4 + lg)) with (12 - lg) by lia. rewrite Z.shiftl_mul_pow2 by lia. unfold Z.lnot.
  replace (Z.pred (- rel)) with (- rel - 1) by lia. unfold u32. rewrite wrap_u_small by lia.
  split; [|done]. split; [cbn; lia|]. exists lg, (- rel). split_and!; try done; try lia.
  by replace (i - - rel) with (i + rel) by lia.
Qed.

(** A token is put after the others. *)
Lemma encoded_push s s' gs cur t : encoded s gs cur -> (length cur < 8)%nat -> tok_ok inbuf bufsize (s_i s) t ->
  zwrite (s_out s) (s_xout s) (tok_bytes t) = Some (s_out s') -> s_xout s' = s_xout s + zlen (tok_bytes t) ->
  s_i s' = s_i s + tok_len t -> s_ptag s' = s_ptag s -> s_ntag s' = s_ntag s - 1 ->
  s_tag s' = Z.lor (s_tag s) (Z.shiftl (tok_bit t) (8 - s_ntag s)) ->
  encoded s' gs (cur ++ [t]).
Proof.
  intros [H1 H2 H3 H4 H5 H6 H7 H8 H9 H10] Hlen Ht Hw Hx Hi Hp Hn Htag.
  pose proof (zwrite_frame _ _ _ _ Hw) as Hf. pose proof (zlen_nonneg (toks_bytes cur)).
  split; [done | rewrite length_app; cbn; lia | | | congruence | | | | |].
  - rewrite app_assoc. apply toks_at_app. exists (s_i s). split; [done|]. cbn. by rewrite Hi.
  - eapply holds_frame; [done | done | lia].
  - rewrite toks_bytes_snoc. apply holds_app. rewrite Hp. split; [eapply holds_frame; [done | done | lia] |].
    rewrite <-H7. by eapply holds_zwrite.
  - rewrite Hx, H7, Hp, toks_bytes_snoc, zlen_app. lia.
  - rewrite Htag, H8, H9, tag_of_snoc. do 2 f_equal. lia.
  - rewrite Hn, H9, length_app. cbn. lia.
  - destruct Hf. lia.
Qed.

Lemma put_literal_ok s have gs cur : encoded s gs cur -> (length cur < 8)%nat -> 0 <= s_i s < bufsize -> 0 <= s_xout s < osize ->
  exists s' t, put_literal inbuf s have = Some s' /\ encoded (dec_ntag s') gs (cur ++ [t]) /\
    s_i s' = s_i s + 1 /\ s_xout s' = s_xout s + 1 /\ s_have s' = have /\
    s_bp s' = s_bp s /\ s_mxoff s' = s_mxoff s /\ s_ctx s' = s_ctx s.
Proof.
  intros He Hlen Hi Hx. unfold put_literal. destruct (zget_inside inbuf (s_i s)) as [b Hb]; [lia|]. rewrite Hb. cbn [mbind option_bind].
  destruct (zset (s_out s) (s_xout s) b) as [m|] eqn:E; [|rewrite zset_inside in E by (rewrite (en_size _ _ _ He); lia); done].
  cbn [mbind option_bind]. eexists _, (Lit b). split; [done|]. split; [|done].
  eapply encoded_push; try done; cbn [tok_bytes]; [split; [cbn; lia | done] | by rewrite <-zset_zwrite |].
  cbn [tok_bit]. by rewrite Z.shiftl_0_l, Z.lor_0_r.
Qed.

Lemma put_phrase_ok s gs cur lg j : encoded s gs cur -> (length cur < 8)%nat -> 0 <= s_i s < bufsize -> 0 <= s_xout s -> s_xout s + 1 < osize ->
  lg_rel (s_i s) lg -> 0 <= lg <= 8 -> 3 <= c_size (s_ctx s) ->
  match_ok inbuf bufsize (s_i s) 2 (2 ^ (12 - lg) + 2) (c_size (s_ctx s)) (c_rel (s_ctx s)) -> j = s_i s + c_size (s_ctx s) ->
  forall s0, s_i s0 = s_i s -> s_xout s0 = s_xout s -> s_out s0 = s_out s -> s_tag s0 = s_tag s -> s_ntag s0 = s_ntag s -> s_ptag s0 = s_ptag s ->
  exists s' t, put_phrase s0 (4 + lg) (c_rel (s_ctx s)) (c_size (s_ctx s)) = Some s' /\
    (forall h x, encoded (dec_ntag (set_pos (set_ctx s' x) j h)) gs (cur ++ [t])) /\
    s_i s' = s_i s /\ s_xout s' = s_xout s + 2 /\ s_have s' = s_have s0 /\
    s_bp s' = s_bp s0 /\ s_mxoff s' = s_mxoff s0 /\ s_ctx s' = s_ctx s0.
Proof.
  intros He Hlen Hi Hx Hx2 Hlg Hlg8 H3 Hm -> s0 E1 E2 E3 E4 E5 E6. unfold put_phrase. cbv zeta.
  destruct (phrase_tok (s_i s) (4 + lg) lg (c_size (s_ctx s)) (c_rel (s_ctx s))) as [Ht Hq]; try done; [lia|]. cbv zeta in Ht, Hq.
  set (q := u32 _) in *. rewrite E2, E3.
  assert (Z.land q 255 = q mod 256) as -> by (by apply (land_ones' q 255 8)).
  assert (Z.land (Z.shiftr q 8) 255 = (q / 256) mod 256) as ->
    by (rewrite Z.shiftr_div_pow2 by lia; by apply (land_ones' _ 255 8)).
  destruct (zset (s_out s) (s_xout s) (q mod 256)) as [m|] eqn:Em; [|rewrite zset_inside in Em by (rewrite (en_size _ _ _ He); lia); done].
  cbn [mbind option_bind]. pose proof (zset_Some _ _ _ _ Em) as (_ & Lm & _).
  destruct (zset m (s_xout s + 1) ((q / 256) mod 256)) as [m'|] eqn:Em';
    [|rewrite zset_inside in Em' by (rewrite Lm, (en_size _ _ _ He); lia); done].
  cbn [mbind option_bind]. eexists _, (Phrase q (c_size (s_ctx s))). split; [done|]. split; [|done].
  intros h x. eapply encoded_push; try done; cbn [s_out s_xout s_i s_ptag s_ntag s_tag dec_ntag set_pos set_ctx tok_bytes].
  - eapply zwrite_cons; [done|]. by rewrite <-zset_zwrite.
  - by rewrite E5.
  - by rewrite E4, E5.
Qed.

(** After the search: the best match at the current position is known. *)
Record searched (s : cstate) (lg : Z) : Prop := {
  se_chains : chains_ok bufsize (s_ctx s) (s_i s + 1);
  se_off : offset_ok (s_bp s) (s_mxoff s) (c_mxsz (s_ctx s)) (s_i s) lg;
  se_i : s_i s <= s_mxoff s;
  se_match : match_ok inbuf bufsize (s_i s) 2 (c_mxsz (s_ctx s)) (c_size (s_ctx s)) (c_rel (s_ctx s)) }.

Lemma offset_mono bp mxoff mxsz i lg j : offset_ok bp mxoff mxsz i lg -> i <= j -> offset_ok bp mxoff mxsz j lg.
Proof. intros [] ?. split; try done; lia. Qed.

Lemma match_weaken i least mxsz size rel : match_ok inbuf bufsize i least mxsz size rel -> 2 <= least < size ->
  match_ok inbuf bufsize i 2 mxsz size rel.
Proof. intros [[-> _]|(? & ? & ? & ?)] Hl; [lia | right; split_and!; done || lia]. Qed.

Lemma find_match_ok s gs cur : encoded s gs cur -> finder_ok s -> 0 <= s_i s < bufsize ->
  exists s' lg, find_match inbuf bufsize s = Some s' /\ encoded s' gs cur /\ searched s' lg /\ s_i s' = s_i s /\ s_xout s' = s_xout s.
Proof.
  intros He [Hc (lg & Ho & Hh)] Hi. unfold find_match. destruct (s_have s).
  { destruct (Hh eq_refl) as (Hm & _ & Hmo). exists s, lg. by split_and!. }
  rewrite Z.add_0_r in Hc.
  destruct (adjust_ok 17 (s_bp s) (s_mxoff s) (c_mxsz (s_ctx s)) (s_i s) lg) as (bp & mxoff & mxsz & lg' & -> & Ho' & Hm); [done | lia | destruct Ho; lia |].
  cbn [mbind option_bind]. pose proof (offset_mxsz _ _ _ _ _ Ho').
  destruct (ntfs_best_match_ok inbuf bufsize Hin Hsize (set_mxsz (s_ctx s) mxsz) (s_i s) 2) as (x & E & Hx & Hmx & Hmatch);
    [by destruct Hc; split | done | unfold NICE_MATCH_LEN; lia | cbn; lia |].
  change (s_ctx (set_off s bp mxoff mxsz)) with (set_mxsz (s_ctx s) mxsz). change (s_i (set_off s bp mxoff mxsz)) with (s_i s).
  rewrite E. cbn [mbind option_bind]. eexists _, lg'. split; [done|]. split; [by destruct He; split|]. split; [|done].
  cbn in Hmx, Hmatch. split; cbn; by rewrite ?Hmx.
Qed.

(** The next state of the compressor's loop, but for the tag. *)
Definition advanced (s s' : cstate) (gs : list (list token)) (cur : list token) : Prop :=
  (exists t, encoded (dec_ntag s') gs (cur ++ [t])) /\ s_i s < s_i s' <= bufsize /\ s_xout s' <= s_xout s + 2 /\ finder_ok s'.

Lemma emit_literal_ok s lg gs cur : encoded s gs cur -> searched s lg -> (length cur < 8)%nat -> 0 <= s_i s < bufsize -> 0 <= s_xout s < osize ->
  exists s', put_literal inbuf s false = Some s' /\ advanced s s' gs cur.
Proof.
  intros He [Hc Ho _ _] Hlen Hi Hx. destruct (put_literal_ok s false gs cur) as (s' & t & E & He' & Ei & Ex & Eh & Eb & Em & Ec); try done.
  exists s'. split; [done|]. split; [by exists t|]. split_and!; [lia | lia | lia |]. unfold finder_ok. rewrite Eh, Ei, Eb, Em, Ec. split.
  - by rewrite Z.add_0_r.
  - exists lg. split; [by apply (offset_mono _ _ _ (s_i s)); [|lia] | done].
Qed.

(** The phrase is put, and the match finder skips to its end. *)
Lemma emit_phrase_ok s s0 bp lg from gs cur : encoded s gs cur -> searched s lg -> (length cur < 8)%nat -> 0 <= s_i s < bufsize ->
  0 <= s_xout s -> s_xout s + 1 < osize -> 3 <= c_size (s_ctx s) -> bp = s_bp s ->
  s_i s0 = s_i s -> s_xout s0 = s_xout s -> s_out s0 = s_out s -> s_tag s0 = s_tag s -> s_ntag s0 = s_ntag s -> s_ptag s0 = s_ptag s ->
  s_i s < from < s_i s + c_size (s_ctx s) -> chains_ok bufsize (s_ctx s0) from ->
  (exists lg0, offset_ok (s_bp s0) (s_mxoff s0) (c_mxsz (s_ctx s0)) (s_i s + c_size (s_ctx s)) lg0) ->
  exists s1 x, put_phrase s0 bp (c_rel (s_ctx s)) (c_size (s_ctx s)) = Some s1 /\
    (exists t, encoded (dec_ntag (set_pos s1 (s_i s + c_size (s_ctx s)) (s_have s1))) gs (cur ++ [t])) /\ s_xout s1 = s_xout s + 2 /\
    skip_range inbuf bufsize (Z.to_nat (c_size (s_ctx s))) (s_ctx s1) from (s_i s + c_size (s_ctx s)) = Some x /\
    advanced s (set_pos (set_ctx s1 x) (s_i s + c_size (s_ctx s)) false) gs cur.
Proof.
  intros He [_ Ho Hmx Hm] Hlen Hi Hx0 Hx H3 -> E1 E2 E3 E4 E5 E6 Hfrom Hc (lg0 & Ho0).
  pose proof (offset_lg_rel _ _ _ _ _ Ho Hmx) as Hlg. pose proof (oo_lg _ _ _ _ _ Ho) as Hlg8.
  rewrite (oo_bp _ _ _ _ _ Ho). rewrite (oo_sz _ _ _ _ _ Ho) in Hm.
  destruct (put_phrase_ok s gs cur lg (s_i s + c_size (s_ctx s)) He Hlen Hi Hx0 Hx Hlg Hlg8 H3 Hm eq_refl s0 E1 E2 E3 E4 E5 E6)
    as (s1 & t & Ep & Hen & F1 & F2 & F3 & F4 & F5 & F6).
  destruct (skip_range_ok inbuf bufsize Hin Hsize (Z.to_nat (c_size (s_ctx s))) (s_ctx s1) from (s_i s + c_size (s_ctx s)))
    as (x & Es & Hx' & Hsm); [by rewrite F6 | lia | lia |].
  exists s1, x. split_and!; [done | exists t; apply (Hen (s_have s1) (s_ctx s1)) | done | done |].
  assert (s_i s + c_size (s_ctx s) <= bufsize) by (destruct Hm as [[? _]|(_ & ? & _)]; lia).
  split; [by exists t|]. cbn. split_and!; [lia | lia | lia |]. split; cbn; [by rewrite Z.add_0_r|].
  exists lg0. destruct Hsm as (_ & _ & ->). by rewrite F4, F5, F6.
Qed.

Lemma emit_ok s lg gs cur : encoded s gs cur -> searched s lg -> (length cur < 8)%nat -> 0 <= s_i s < bufsize -> 0 <= s_xout s ->
  s_xout s + 1 < osize ->
  exists s' brk, emit inbuf bufsize s = Some (s', brk) /\
    if brk : bool then (exists t, encoded s' gs (cur ++ [t])) /\ s_i s' = bufsize /\ s_xout s' <= s_xout s + 2
    else advanced s s' gs cur.
Proof.
  intros He Hse Hlen Hi Hx0 Hx. unfold emit. pose proof Hse as [Hc Ho Hmx Hm]. pose proof (offset_mxsz _ _ _ _ _ Ho) as Hmz.
  destruct (Z.leb_spec 3 (c_size (s_ctx s))) as [H3|H3].
  2: { destruct (emit_literal_ok s lg gs cur) as (s' & -> & Ha); try done; [lia|]. by exists s', false. }
  assert (s_i s + c_size (s_ctx s) <= bufsize) as Hend by (destruct Hm as [[? _]|(_ & ? & _)]; lia).
  unfold NICE_MATCH_LEN. destruct (Z.leb_spec 18 (c_size (s_ctx s))).
  - destruct (emit_phrase_ok s s (s_bp s) lg (s_i s + 1) gs cur) as (s1 & x & -> & Ht & Hx1 & Es & Ha); try done; [lia | |].
    { exists lg. apply (offset_mono _ _ _ (s_i s)); [done | lia]. }
    cbn [mbind option_bind]. destruct (Z.eqb_spec (s_i s + c_size (s_ctx s)) bufsize) as [Hj|].
    + eexists _, true. split; [done|]. split_and!; [done | done | cbn; lia].
    + rewrite Es. cbn [mbind option_bind]. by eexists _, false.
  - set (s1 := if s_mxoff s <? s_i s + 1 then _ else s).
    assert (exists lg1, offset_ok (s_bp s1) (s_mxoff s1) (c_mxsz (s_ctx s1)) (s_i s + 1) lg1 /\ s_i s + 1 <= s_mxoff s1) as (lg1 & Ho1 & Hm1).
    { unfold s1. destruct (Z.ltb_spec (s_mxoff s) (s_i s + 1)).
      - exists (lg + 1). pose proof (offset_step _ _ _ _ _ (s_i s + 1) Ho ltac:(lia) ltac:(lia)) as Ho1.
        split; [done|]. cbn. rewrite Z.shiftl_mul_pow2 by lia. pose proof (oo_off _ _ _ _ _ Ho). pose proof (oo_lg _ _ _ _ _ Ho).
        assert (0 < 2 ^ lg) by (apply Z.pow_pos_nonneg; lia). lia.
      - exists lg. split; [by apply (offset_mono _ _ _ (s_i s)); [|lia] | done]. }
    assert (s_i s1 = s_i s /\ s_xout s1 = s_xout s /\ s_out s1 = s_out s /\ s_tag s1 = s_tag s /\ s_ntag s1 = s_ntag s /\
            s_ptag s1 = s_ptag s /\ chains_ok bufsize (s_ctx s1) (s_i s + 1)) as (E1 & E2 & E3 & E4 & E5 & E6 & Hc1).
    { unfold s1. destruct (s_mxoff s <? s_i s + 1); [|done]. split_and!; try done. by destruct Hc; split. }
    clearbody s1. pose proof (offset_mxsz _ _ _ _ _ Ho1).
    destruct (ntfs_best_match_ok inbuf bufsize Hin Hsize (s_ctx s1) (s_i s + 1) (c_size (s_ctx s))) as (x & -> & Hx' & Hmxx & Hmatch);
      [done | lia | unfold NICE_MATCH_LEN; lia | lia |].
    cbn [mbind option_bind]. destruct (Z.ltb_spec (s_i s + c_size (s_ctx s) + 1) (s_i s + 1 + c_size x)).
    + assert (encoded (set_ctx s1 x) gs cur) as He1 by (destruct He; split; cbn; rewrite ?E1, ?E2, ?E3, ?E4, ?E5, ?E6; done).
      destruct (put_literal_ok (set_ctx s1 x) true gs cur) as (s' & t & -> & He' & Ei & Ex & Eh & Eb & Em & Ec); try done;
        [cbn; lia | cbn; lia |]. cbn [mbind option_bind]. exists s', false. split; [done|]. cbn in Ei, Ex, Eb, Em, Ec.
      split; [by exists t|]. split_and!; [lia | lia | lia |]. unfold finder_ok. rewrite Eh, Ei, Eb, Em, Ec, E1. split; [done|].
      exists lg1. rewrite Hmxx. split; [done|]. intros _. split_and!; [done | lia |]. apply (match_weaken _ (c_size (s_ctx s))); [done | lia].
    + destruct (emit_phrase_ok s (set_ctx s1 x) (s_bp s) lg (s_i s + 2) gs cur) as (s2 & x2 & -> & Ht & Hx1 & Es & Ha); try done; try lia.
      { cbn. by replace (s_i s + 2) with (s_i s + 1 + 1) by lia. }
      { exists lg1. cbn. rewrite Hmxx. apply (offset_mono _ _ _ (s_i s + 1)); [done | lia]. }
      cbn [mbind option_bind]. rewrite Es. cbn [mbind option_bind]. by eexists _, false.
Qed.

Lemma store_tag_ok s gs cur : encoded (dec_ntag s) gs cur -> s_xout s <= osize ->
  exists s' gs' cur', store_tag s = Some s' /\ encoded s' gs' cur' /\ (length cur' < 8)%nat /\
    s_i s' = s_i s /\ s_xout s <= s_xout s' <= s_xout s + 1 /\ (finder_ok s -> finder_ok s').
Proof.
  intros He Hx. unfold store_tag. destruct (Z.eqb_spec (s_ntag (dec_ntag s)) 0) as [H0|H0].
  2: { exists (dec_ntag s), gs, cur. assert (length cur < 8)%nat by (destruct He; lia).
    split_and!; try done; cbn; lia. }
  destruct He as [H1 H2 H3 H4 H5 H6 H7 H8 H9 H10]. pose proof (zlen_nonneg (groups_bytes gs)). pose proof (zlen_nonneg (toks_bytes cur)).
  cbn in *. destruct (zset (s_out s) (s_ptag s) (s_tag s)) as [m|] eqn:E; [|rewrite zset_inside in E by lia; done].
  pose proof (zset_frame _ _ _ _ E) as Hf. pose proof (zset_Some _ _ _ _ E) as (_ & Lm & Gm). cbn [mbind option_bind].
  eexists _, (gs ++ [cur]), []. split; [done|]. assert (length cur = 8%nat) by lia.
  assert (2 + zlen (groups_bytes (gs ++ [cur])) = s_xout s) as Hp.
  { rewrite groups_bytes_snoc, zlen_app. unfold group_bytes at 1. rewrite zlen_cons. lia. }
  split; [|cbn; split_and!; [lia | done | lia | lia | done]].
  split; cbn; try done; try lia.
  - apply Forall_app. by rewrite Forall_singleton.
  - by rewrite concat_app, app_nil_r, <-(app_nil_r cur) in *; cbn; rewrite app_nil_r.
  - rewrite groups_bytes_snoc. apply holds_app. split; [eapply holds_frame; [done | done | lia]|]. unfold group_bytes.
    apply holds_cons. rewrite <-H5. split; [by rewrite Gm, Z.eqb_refl, H8 | eapply holds_frame; [done | done | lia]].
  - apply holds_nil.
  - by rewrite zlen_nil, Z.add_0_r.
Qed.

(** The loop reaches the end, or stops at the end of the buffer. *)
Lemma compress_loop_ok fuel s gs cur : encoded s gs cur -> finder_ok s -> (length cur < 8)%nat -> 0 <= s_i s <= bufsize ->
  0 <= s_xout s <= NTFS_SB_SIZE + 4 -> bufsize - s_i s < Z.of_nat fuel ->
  exists s' gs' cur', compress_loop inbuf bufsize fuel s = Some s' /\ encoded s' gs' cur' /\ s_i s' <= bufsize /\
    s_xout s' <= NTFS_SB_SIZE + 4 /\ (s_i s' < bufsize -> NTFS_SB_SIZE + 2 <= s_xout s').
Proof.
  unfold NTFS_SB_SIZE in *. revert s gs cur; induction fuel as [|f IH]; intros s gs cur He Hf Hlen Hi Hx Hfu; [lia|]. cbn [compress_loop].
  unfold NTFS_SB_SIZE. destruct (Z.ltb_spec (s_i s) bufsize), (Z.ltb_spec (s_xout s) (0x1000 + 2)); cbn [andb];
    try (exists s, gs, cur; split_and!; done || lia).
  destruct (find_match_ok s gs cur) as (s1 & lg & -> & He1 & Hse & E1 & E2); [done | done | lia |]. cbn [mbind option_bind].
  destruct (emit_ok s1 lg gs cur) as (s2 & brk & -> & H2); try done; [lia | lia | lia |]. cbn [mbind option_bind]. destruct brk.
  - destruct H2 as ([t He2] & Ei & Ex). exists s2, gs, (cur ++ [t]). split_and!; done || lia.
  - destruct H2 as ([t He2] & Ei & Ex & Hf2). destruct (store_tag_ok s2 gs (cur ++ [t])) as (s3 & gs3 & cur3 & -> & He3 & Hl3 & E3 & E4 & Hf3);
      [done | lia |]. cbn [mbind option_bind]. assert (0 <= s_xout s3).
    { destruct He3 as [_ _ _ _ Hp _ Hxx _ _ _]. pose proof (zlen_nonneg (groups_bytes gs3)). pose proof (zlen_nonneg (toks_bytes cur3)). lia. }
    apply (IH s3 gs3 cur3); try done; [by apply Hf3 | lia | lia | lia].
Qed.
End compressor.

(** ** A block is compressed to a sub-block *)

Section block.
Context (inbuf : list Z) (bufsize : Z) (Hin : bufsize <= zlen inbuf) (Hsize : 1 <= bufsize <= NTFS_SB_SIZE).

Lemma groups_at_full p gs r : Forall (fun g => length g = 8%nat) gs -> toks_at inbuf bufsize p (concat gs) r ->
  forall cur q, toks_at inbuf bufsize r cur q -> (length cur <= 8)%nat ->
  groups_at inbuf bufsize p (gs ++ (if decide (cur = []) then [] else [cur])) q.
Proof.
  intros H. revert p; induction H as [|g gs Hg _ IH]; intros p Ht cur q Hc Hl; cbn in Ht |- *.
  - subst p. destruct (decide (cur = [])) as [->|]; [done|]. exists q. split_and!; try done. by right.
  - apply toks_at_app in Ht as (m & H1 & H2). exists m. split_and!; try done; [by intros -> | lia | by left | by apply IH].
Qed.

Lemma encoded_groups osize s gs cur : encoded inbuf bufsize osize s gs cur ->
  groups_at inbuf bufsize 0 (gs ++ (if decide (cur = []) then [] else [cur])) (s_i s).
Proof. intros []. apply toks_at_app in en_toks0 as (r & H1 & H2). by eapply groups_at_full. Qed.

(** Storing the last tag. *)
Lemma last_tag_ok osize s gs cur : encoded inbuf bufsize osize s gs cur -> s_xout s <= osize ->
  exists out n, (if s_ntag s =? 8 then Some (s_xout s - 1, s_out s)
     else out ← zset (s_out s) (s_ptag s) (s_tag s); Some (s_xout s, out)) = Some (n, out) /\ zlen out = osize /\
    n = 2 + zlen (groups_bytes (gs ++ (if decide (cur = []) then [] else [cur]))) /\
    s_xout s - 1 <= n <= s_xout s /\
    holds out 2 (groups_bytes (gs ++ (if decide (cur = []) then [] else [cur]))).
Proof.
  intros [H1 H2 H3 H4 H5 H6 H7 H8 H9 H10] Hx. pose proof (zlen_nonneg (groups_bytes gs)). pose proof (zlen_nonneg (toks_bytes cur)).
  destruct (decide (cur = [])) as [->|Hne].
  - change (zlen (toks_bytes [])) with 0 in *. rewrite H9. cbn [length]. change (8 - Z.of_nat 0 =? 8) with true. cbv iota.
    eexists _, _. rewrite app_nil_r. split_and!; done || lia.
  - destruct (Z.eqb_spec (s_ntag s) 8) as [E|_]; [destruct cur; [done | cbn [length] in *; lia]|].
    destruct (zset (s_out s) (s_ptag s) (s_tag s)) as [m|] eqn:E; [|rewrite zset_inside in E by lia; done].
    pose proof (zset_frame _ _ _ _ E) as Hf. pose proof (zset_Some _ _ _ _ E) as (_ & Lm & Gm). cbn [mbind option_bind].
    eexists _, _. split; [done|]. rewrite groups_bytes_snoc, zlen_app. unfold group_bytes at 1. rewrite zlen_cons.
    split_and!; try lia. apply holds_app. split; [eapply holds_frame; [done | done | lia]|]. unfold group_bytes.
    apply holds_cons. rewrite <-H5. split; [by rewrite Gm, Z.eqb_refl, H8 | eapply holds_frame; [done | done | lia]].
Qed.

(** The header of a compressed sub-block of [n] bytes. *)
Lemma header_bytes n : 3 <= n < NTFS_SB_SIZE + 3 ->
  le_encode 2 (0xb000 + (n - 3)) = [Z.land (n - 3) 255; 0xb0 + Z.land (Z.shiftr (n - 3) 8) 15] /\
  Z.land (0xb000 + (n - 3)) NTFS_SB_SIZE_MASK = n - 3.
Proof.
  unfold NTFS_SB_SIZE. intros Hn. rewrite (land_ones' (n - 3) 255 8), (land_ones' _ 15 4), Z.shiftr_div_pow2 by lia.
  rewrite (land_ones' (0xb000 + (n - 3)) NTFS_SB_SIZE_MASK 12) by done.
  change (2 ^ 8) with 256. change (2 ^ 4) with 16. change (2 ^ 12) with 4096. cbn [le_encode].
  split; [|divlia]. f_equal; [divlia|]. f_equal. divlia.
Qed.

Lemma init_finder outbuf prev0 : zlen prev0 = NTFS_SB_SIZE ->
  finder_ok inbuf bufsize (CS 0 4 16 3 false 0 8 2 outbuf
    (Ctx 0 0 (Z.shiftl 1 (16 - 4) + 2) (replicate (Z.to_nat (Z.shiftl 1 HASH_SHIFT)) (-1)) prev0)).
Proof.
  intros Hp. split; cbn [s_ctx s_i s_have s_bp s_mxoff c_mxsz].
  - split; cbn [head prev]; [by rewrite zlen_replicate | done | | lia].
    intros h v Hv. assert (v = -1) as ->; [|lia]. revert Hv. generalize (Z.to_nat (Z.shiftl 1 HASH_SHIFT)). intros k. unfold zget.
    destruct (h <? 0); [done|]. by intros [-> _]%lookup_replicate.
  - exists 0. split; [|done]. split; try done; lia.
Qed.

(** Storing the block uncompressed. *)
Lemma raw_block_ok out : zlen out >= NTFS_SB_SIZE + 4 ->
  exists out' bs, (bs ← zread inbuf 0 bufsize;
      out ← zwrite out 2 bs;
      out ← (if bufsize <? NTFS_SB_SIZE then zwrite out (bufsize + 2) (replicate (Z.to_nat (NTFS_SB_SIZE - bufsize)) 0)
             else Some out);
      out ← zset out 0 0xff;
      out ← zset out 1 0x3f;
      Some (NTFS_SB_SIZE + 2, out)) = Some (NTFS_SB_SIZE + 2, out') /\ zlen out' = zlen out /\
    holds out' 0 bs /\ zlen bs = NTFS_SB_SIZE + 2 /\ sb_format inbuf bufsize bs.
Proof.
  unfold NTFS_SB_SIZE in *. intros Ho.
  destruct (zread inbuf 0 bufsize) as [xs|] eqn:Ex; [|rewrite zread_inside in Ex by lia; done]. cbn [mbind option_bind].
  pose proof (zread_Some _ _ _ _ Ex) as (_ & _ & _ & Lx & _).
  set (zs := replicate _ 0). assert (zlen zs = 0x1000 - bufsize) as Lz by (unfold zs; rewrite zlen_replicate; lia).
  destruct (zwrite out 2 xs) as [m1|] eqn:E1; [|rewrite zwrite_inside in E1 by lia; done]. cbn [mbind option_bind].
  pose proof (zwrite_frame _ _ _ _ E1) as [L1 G1].
  assert (exists m2, (if bufsize <? 0x1000 then zwrite m1 (bufsize + 2) zs else Some m1) = Some m2 /\ zlen m2 = zlen m1 /\
            holds m2 2 (xs ++ zs)) as (m2 & -> & L2 & Hh).
  { destruct (Z.ltb_spec bufsize 0x1000).
    - destruct (zwrite m1 (bufsize + 2) zs) as [m2|] eqn:E2; [|rewrite zwrite_inside in E2 by lia; done].
      pose proof (zwrite_frame _ _ _ _ E2) as Hf. exists m2. split; [done|]. split; [by destruct Hf|]. apply holds_app.
      split; [eapply holds_frame; [by eapply holds_zwrite | done | lia]|]. replace (2 + zlen xs) with (bufsize + 2) by lia. by eapply holds_zwrite.
    - exists m1. split_and!; try done. assert (zs = []) as -> by (unfold zs; by replace (0x1000 - bufsize) with 0 by lia).
      rewrite app_nil_r. by eapply holds_zwrite. }
  cbn [mbind option_bind]. destruct (zset m2 0 0xff) as [m3|] eqn:E3; [|rewrite zset_inside in E3 by lia; done]. cbn [mbind option_bind].
  pose proof (zset_frame _ _ _ _ E3) as F3.
  destruct (zset m3 1 0x3f) as [m4|] eqn:E4; [|rewrite zset_inside in E4 by (destruct F3; lia); done]. cbn [mbind option_bind].
  pose proof (zset_frame _ _ _ _ E4) as F4. exists m4, ([0xff; 0x3f] ++ xs ++ zs). split; [done|].
  split; [destruct F3, F4; lia|]. split; [|split].
  - apply holds_cons. rewrite (proj2 F4) by lia. apply zset_Some in E3 as (_ & _ & G3), E4 as (_ & _ & G4).
    split; [by rewrite G3|]. apply holds_cons. split; [by rewrite G4|].
    eapply holds_frame; [eapply holds_frame; [exact Hh | exact F3 | lia] | exact F4 | lia].
  - rewrite !zlen_app, Lz, Lx. change (zlen [0xff; 0x3f]) with 2. lia.
  - by eapply sb_raw.
Qed.

Lemma ntfs_compress_block_ok outbuf prev0 : zlen prev0 = NTFS_SB_SIZE -> NTFS_SB_SIZE + 4 <= zlen outbuf ->
  exists n out bs, ntfs_compress_block inbuf bufsize outbuf prev0 = Some (n, out) /\ zlen out = zlen outbuf /\
    holds out 0 bs /\ zlen bs = n /\ 4 <= n <= NTFS_SB_SIZE + 2 /\ sb_format inbuf bufsize bs.
Proof.
  intros Hp Ho. unfold ntfs_compress_block. cbv zeta. set (s0 := CS 0 4 16 3 false 0 8 2 outbuf _).
  destruct (compress_loop_ok inbuf bufsize Hin ltac:(lia) (zlen outbuf) Ho (S (Z.to_nat bufsize)) s0 [] [])
    as (s & gs & cur & -> & He & Hi & Hx & Hfull).
  { split; cbn; rewrite ?(@zlen_nil Z); try apply holds_nil; done || lia. }
  { by apply init_finder. }
  { cbn. lia. } { cbn. lia. } { cbn. unfold NTFS_SB_SIZE. lia. } { cbn. lia. }
  cbn [mbind option_bind]. clearbody s0. pose proof (encoded_groups _ _ _ _ He) as Hg.
  destruct (last_tag_ok _ _ _ _ He) as (out & n & -> & Lo & Hn & Hnx & Hh); [lia|]. cbn [mbind option_bind].
  set (G := gs ++ _) in *. clearbody G. destruct (Z.leb_spec bufsize (s_i s)), (Z.ltb_spec n (NTFS_SB_SIZE + 2)); cbn [andb].
  - assert (s_i s = bufsize) as Eb by lia. rewrite Eb in Hg.
    assert (4 <= n) as Hn4.
    { destruct G as [|g G']; [cbn in Hg; lia|]. destruct Hg as (r & Hne & _). rewrite Hn. unfold groups_bytes. cbn [fmap list_fmap concat].
      rewrite zlen_app. unfold group_bytes at 1. rewrite zlen_cons. destruct g as [|t g]; [done|]. rewrite toks_bytes_cons, zlen_app.
      assert (1 <= zlen (tok_bytes t)) by (by destruct t). pose proof (zlen_nonneg (toks_bytes g)).
      pose proof (zlen_nonneg (concat (group_bytes <$> G'))). lia. }
    destruct (header_bytes n) as [Eh Em]; [lia|].
    destruct (zset out 0 (Z.land (n - 3) 255)) as [m1|] eqn:E1; [|rewrite zset_inside in E1 by (unfold NTFS_SB_SIZE in *; lia); done]. cbn [mbind option_bind].
    pose proof (zset_frame _ _ _ _ E1) as F1.
    destruct (zset m1 1 (0xb0 + Z.land (Z.shiftr (n - 3) 8) 15)) as [m2|] eqn:E2;
      [|rewrite zset_inside in E2 by (unfold NTFS_SB_SIZE in *; destruct F1; lia); done]. cbn [mbind option_bind].
    pose proof (zset_frame _ _ _ _ E2) as F2.
    exists n, m2, (le_encode 2 (0xb000 + (n - 3)) ++ groups_bytes G). split; [done|].
    split; [destruct F1, F2; lia|]. rewrite zlen_app, zlen_le_encode. change (Z.of_nat 2) with 2.
    split_and!; [| lia | lia | lia |].
    + rewrite Eh. apply holds_cons. rewrite (proj2 F2) by lia. apply zset_Some in E1 as (_ & _ & G1), E2 as (_ & _ & G2).
      split; [by rewrite G1|]. apply holds_cons. split; [by rewrite G2|].
      eapply holds_frame; [eapply holds_frame; [exact Hh | exact F1 | lia] | exact F2 | lia].
    + eapply (sb_compressed _ _ _ G (0xb000 + (n - 3))); [done | unfold NTFS_SB_SIZE in *; lia | | done].
      rewrite Em, zlen_app, zlen_le_encode. lia.
  - destruct (raw_block_ok out) as (out' & bs & -> & L & ? & ? & ?); [lia|]. exists (NTFS_SB_SIZE + 2), out', bs.
    split_and!; try done; try lia. all: unfold NTFS_SB_SIZE; lia.
  - destruct (raw_block_ok out) as (out' & bs & -> & L & ? & ? & ?); [lia|]. exists (NTFS_SB_SIZE + 2), out', bs.
    split_and!; try done; try lia. all: unfold NTFS_SB_SIZE; lia.
  - destruct (raw_block_ok out) as (out' & bs & -> & L & ? & ? & ?); [lia|]. exists (NTFS_SB_SIZE + 2), out', bs.
    split_and!; try done; try lia. all: unfold NTFS_SB_SIZE; lia.
Qed.
End block.

(** ** Properties *)

(** C11: a block that ntfs_compress_block compresses, whatever the memory of its
    match finder held, decompresses to the bytes of the block followed by zeroes;
    the output takes from 4 to 4098 bytes and stays in a buffer of 4100. *)
Theorem compress_roundtrip inbuf bufsize outbuf prev0 : 1 <= bufsize <= NTFS_SB_SIZE -> bufsize <= zlen inbuf ->
  zlen prev0 = NTFS_SB_SIZE -> NTFS_SB_SIZE + 4 <= zlen outbuf ->
  exists n out bs, ntfs_compress_block inbuf bufsize outbuf prev0 = Some (n, out) /\ zlen out = zlen outbuf /\
    4 <= n <= NTFS_SB_SIZE + 2 /\ zread out 0 n = Some bs /\
    forall rest dest, 2 <= zlen rest -> zlen dest = NTFS_SB_SIZE ->
      exists dest', ntfs_decompress (bs ++ rest) (n + zlen rest) dest NTFS_SB_SIZE = Some (dest', Ok tt) /\
        forall k, 0 <= k < NTFS_SB_SIZE -> zget dest' k = if k <? bufsize then zget inbuf k else Some 0.
Proof.
  intros Hb Hin Hp Ho. destruct (ntfs_compress_block_ok inbuf bufsize Hin Hb outbuf prev0 Hp Ho) as (n & out & bs & E & Lo & Hh & Lb & Hn & Hf).
  exists n, out, bs. do 3 (split; [done|]). unfold NTFS_SB_SIZE in *. split; [rewrite <-Lb; apply holds_zread; [done | lia | lia]|].
  intros rest dest Hr Hd. unfold ntfs_decompress.
  destruct (zread inbuf 0 bufsize) as [xs|] eqn:Ex; [|rewrite zread_inside in Ex by lia; done].
  assert (zlen (bs ++ rest) = n + zlen rest) as Lc by (rewrite zlen_app; lia).
  destruct (sb_loop_decoded inbuf bufsize ltac:(unfold NTFS_SB_SIZE; lia) (bs ++ rest) (n + zlen rest) bs xs (Z.to_nat (n + zlen rest)) dest 0x1000 0 0)
    as (dest' & E2 & Hfr & Hd'); try done; unfold NTFS_SB_SIZE; try lia.
  { intros j Hj. rewrite Z.add_0_l. by rewrite zget_app_l by lia. }
  unfold NTFS_SB_SIZE in E2. rewrite E2. exists dest'. split.
  - destruct (Z.to_nat (n + zlen rest)) as [|f] eqn:Ef; [lia|]. cbn [sb_loop].
    destruct (Z.eqb_spec (0 + zlen bs) (n + zlen rest)); [done|].
    destruct (ld_inside 2 (bs ++ rest) (0 + zlen bs)) as [h Hld]; [lia | lia |]. unfold le16_to_cpup. rewrite Hld. cbn [mbind option_bind].
    change (0 + 0x1000 =? 0x1000) with true. by rewrite orb_true_r.
  - intros k Hk. rewrite <-(Z.add_0_l k) at 1. apply zread_Some in Ex as (_ & _ & _ & Lx & Gx). unfold sb_bytes in Hd'.
    rewrite Hd' by (rewrite zlen_app, zlen_replicate; unfold NTFS_SB_SIZE; lia). rewrite zget_app, Lx.
    destruct (Z.ltb_spec k bufsize); [rewrite Gx by lia; by rewrite Z.add_0_l|].
    unfold zget. destruct (Z.ltb_spec (k - bufsize) 0); [lia|]. apply lookup_replicate_2. unfold NTFS_SB_SIZE. lia.
Qed.

(** ** Witness *)

Lemma compress_roundtrip_witness :
  exists n out bs, ntfs_compress_block (replicate 20 97) 20 (replicate 4100 0) (replicate 4096 (-7)) = Some (n, out) /\
    zlen out = zlen (replicate 4100 (0 : Z)) /\ 4 <= n <= NTFS_SB_SIZE + 2 /\ zread out 0 n = Some bs /\
    forall rest dest, 2 <= zlen rest -> zlen dest = NTFS_SB_SIZE ->
      exists dest', ntfs_decompress (bs ++ rest) (n + zlen rest) dest NTFS_SB_SIZE = Some (dest', Ok tt) /\
        forall k, 0 <= k < NTFS_SB_SIZE -> zget dest' k = if k <? 20 then zget (replicate 20 97) k else Some 0.
Proof. apply compress_roundtrip; vm_compute; split || idtac; congruence. Defined.
