(* ===== verification/CompSet.v ===== *)
(** Compression units (libntfs-3g/compress.c: ntfs_comp_set, read_clusters,
    write_clusters): a unit of up to 16 clusters is compressed sub-block by
    sub-block, and stored in the first of its clusters when at least one is
    saved. *)

From S2P Require Import Prelude Runlist Device RlIo Compress CompressRt.
Local Open Scope Z_scope.
Local Open Scope c_scope.
Set Default Proof Using "Type*".

Definition onezero : list Z := [0x01; 0xb0; 0x00; 0x00].
Definition twozeroes : list Z := [0x02; 0xb0; 0x00; 0x00; 0x00].
Definition morezeroes : list Z := [0x03; 0xb0; 0x02; 0x00].

Section ops.
Context {D : Type} `{!DeviceOps D}.
(** vol->cluster_size_bits and na->compression_block_size. *)
Context (cluster_size_bits compression_block_size : Z).
Implicit Types dev : ntfs_device D.

(** The count and the position of a run: all of it, or from [offs] on when it is
    the first; [wrap] is the type of the count. *)
Definition run_part (wrap : Z -> Z) (e : runlist_element) (first : bool) (offs : Z) : Z * Z :=
  let count := wrap (Z.shiftl (len e) cluster_size_bits) in
  let xpos := s64 (Z.shiftl (lcn e) cluster_size_bits) in
  if first then (wrap (count - offs), s64 (xpos + offs)) else (count, xpos).

(** What [int xgot] receives from an s64 return value. *)
Definition s32_ret (r : result Z) : Z := match r with Ok n => s32 n | Err _ => -1 end.

Fixpoint read_clusters_loop dev (rl : runlist) (first : bool) (offs to_read got : Z) (inbuf : list Z)
    : option (ntfs_device D * list Z * Z) :=
  match rl with
  | [] => None
  | e :: t =>
      let '(count, xpos) := run_part u32 e first offs in
      let count := if u32 (to_read - got) <? count then u32 (to_read - got) else count in
      out ← ntfs_pread dev xpos count (Some inbuf) got;
      let '(dev, inbuf, r) := out in
      if s32_ret r =? s32 count then
        let got := u32 (got + count) in
        if got <? to_read then read_clusters_loop dev t false offs to_read got inbuf else Some (dev, inbuf, got)
      else Some (dev, inbuf, got)
  end.

Definition read_clusters dev (rl : runlist) (offs to_read : Z) (inbuf : list Z) : option (ntfs_device D * list Z * Z) :=
  read_clusters_loop dev rl true offs to_read 0 inbuf.

Fixpoint write_clusters_loop dev (rl : runlist) (first : bool) (offs to_write put : Z) (outbuf : list Z)
    : option (ntfs_device D * Z) :=
  match rl with
  | [] => None
  | e :: t =>
      let '(count, xpos) := run_part s32 e first offs in
      let count := if to_write - put <? count then to_write - put else count in
      out ← ntfs_pwrite dev xpos count (Some outbuf) put;
      let '(dev, r) := out in
      if s32_ret r =? count then
        let put := put + count in
        if put <? to_write then write_clusters_loop dev t false offs to_write put outbuf else Some (dev, put)
      else Some (dev, put)
  end.

Definition write_clusters dev (rl : runlist) (offs to_write : Z) (outbuf : list Z) : option (ntfs_device D * Z) :=
  write_clusters_loop dev rl true offs to_write 0 outbuf.

(** [switch (sz) { case 4 : allzeroes = !memcmp(pbuf,onezero,4); .. }] *)
Definition block_zeroes (sz : Z) (pbuf : list Z) : option bool :=
  if sz =? 4 then bs ← zread pbuf 0 4; Some (bool_decide (bs = onezero))
  else if sz =? 5 then bs ← zread pbuf 0 5; Some (bool_decide (bs = twozeroes))
  else if sz =? 6 then bs ← zread pbuf 0 4; Some (bool_decide (bs = morezeroes))
  else Some false.

(** The loop over the blocks of the unit: [fail], [allzeroes], [compsz] and the
    output.  The match finder of block [p] starts with the links [prev0 p], which
    malloc leaves uninitialised. *)
Fixpoint comp_loop (fuel : nat) (inbuf : list Z) (prev0 : Z -> list Z) (insz p compsz : Z) (allzeroes : bool) (outbuf : list Z)
    : option (bool * bool * Z * list Z) :=
  match fuel with
  | O => None
  | S f =>
      if p <? insz then
        let bsz := if u32 (p + NTFS_SB_SIZE) <? insz then NTFS_SB_SIZE else u32 (insz - p) in
        r ← ntfs_compress_block (drop (Z.to_nat p) inbuf) bsz (drop (Z.to_nat compsz) outbuf) (prev0 p);
        let '(sz, pbuf) := r in
        let outbuf := take (Z.to_nat compsz) outbuf ++ pbuf in
        if (sz =? 0) || (compression_block_size <? u32 (compsz + sz + 2 ^ cluster_size_bits + 2)) then
          Some (true, allzeroes, compsz, outbuf)
        else
          allzeroes ← (if (allzeroes : bool) then block_zeroes sz pbuf else Some false);
          comp_loop f inbuf prev0 insz (u32 (p + NTFS_SB_SIZE)) (u32 (compsz + sz)) allzeroes outbuf
      else Some (false, allzeroes, compsz, outbuf)
  end.

(** [outbuf0]: the memory malloc returned; [None] when it failed. *)
Definition ntfs_comp_set dev (rl : runlist) (offs insz : Z) (inbuf : list Z) (outbuf0 : option (list Z)) (prev0 : Z -> list Z)
    : option (ntfs_device D * Z) :=
  match outbuf0 with
  | None => Some (dev, -1)
  | Some outbuf =>
      r ← comp_loop (S (Z.to_nat insz)) inbuf prev0 insz 0 0 true outbuf;
      let '(fail, allzeroes, compsz, outbuf) := r in
      if negb fail && negb allzeroes then
        outbuf ← zset outbuf compsz 0;
        outbuf ← zset outbuf (compsz + 1) 0;
        let compsz := compsz + 2 in
        let rounded := s32 (Z.lor (compsz - 1) (2 ^ cluster_size_bits - 1) + 1) in
        outbuf ← zwrite outbuf compsz (replicate (Z.to_nat (rounded - compsz)) 0);
        out ← write_clusters dev rl offs rounded outbuf;
        let '(dev, written) := out in
        Some (dev, if negb (written =? rounded) then -2 else written)
      else Some (dev, if negb fail then 0 else -1)
  end.
End ops.

(** ** Clusters are read and written as the runlist says *)

Section clusters_theory.
Context {D : Type} `{!DeviceOps D} `{!DeviceLaws D} `{!ReliableDevice D}.
Context (bits : Z) (Hbits : 0 <= bits).
Local Abbreviation cs := (2 ^ bits).
Implicit Types dev : ntfs_device D.

(** A run of allocated clusters on a device of [size] bytes, whose size in bytes
    is an s32. *)
Definition small_run (size : Z) (e : runlist_element) : Prop :=
  0 <= lcn e /\ (lcn e + len e) * cs <= size /\ len e * cs < 2 ^ 31.

Lemma run_part_small wrap e (first : bool) offs size :
  (forall x, 0 <= x < 2 ^ 31 -> wrap x = x) -> size < 2 ^ 63 -> small_run size e -> 0 <= len e ->
  0 <= (if first then offs else 0) <= len e * cs ->
  run_part bits wrap e first offs =
    (len e * cs - (if first then offs else 0), lcn e * cs + (if first then offs else 0)).
Proof.
  intros Hw Hsz (Hl & Hs & Hc) Hlen Ho. unfold run_part. rewrite !Z.shiftl_mul_pow2 by done.
  assert (0 < cs) by (apply Z.pow_pos_nonneg; lia). rewrite (Hw (len e * cs)) by nia.
  rewrite (s64_small (lcn e * cs)) by (unfold in_s64; nia). destruct first.
  - rewrite Hw by lia. rewrite s64_small by (unfold in_s64; nia). done.
  - f_equal; lia.
Qed.

Lemma write_clusters_loop_ok dev runs rest v (first : bool) offs to_write put b :
  contig v runs -> Forall (small_run (zlen (data dev))) runs -> zlen (data dev) < 2 ^ 63 -> phys_inj bits runs ->
  NDevReadOnly dev = false -> in_head bits runs (if first then offs else 0) -> 0 <= (if first then offs else 0) ->
  0 <= put < to_write -> to_write <= zlen b -> to_write < 2 ^ 31 ->
  v * cs + (if first then offs else 0) + (to_write - put) <= runs_end v runs * cs ->
  exists dev', write_clusters_loop bits dev (runs ++ rest) first offs to_write put b = Some (dev', to_write) /\
    wrote bits (data dev) (data dev') runs b put (v * cs + (if first then offs else 0)) (to_write - put).
Proof.
  revert dev v first put; induction runs as [|e t IH]; intros dev v first put Hc Hr Hsz Hinj Hro Hin Ho Hp Hb Hw Hend;
    [cbn in Hend; lia|].
  set (o := if first then offs else 0) in *. pose proof Hc as (Hve & Hle & Hct). inversion Hr as [|? ? He Ht]; subst v.
  assert (0 < cs) as Hcs by (apply Z.pow_pos_nonneg; lia). cbn [app write_clusters_loop]. cbn in Hin, Hend.
  rewrite (run_part_small s32 e first offs (zlen (data dev))); try done; try lia;
    [|intros ? ?; apply s32_small; lia]. fold o.
  set (k := if to_write - put <? len e * cs - o then to_write - put else len e * cs - o).
  assert (k = Z.min (to_write - put) (len e * cs - o)) as Hk by (unfold k; destruct (Z.ltb_spec (to_write - put) (len e * cs - o)); lia).
  clearbody k. pose proof He as (Hlc & Hds & Hsm).
  destruct (ntfs_pwrite_full dev (lcn e * cs + o) k b put) as (dev1 & -> & Hro1 & xs & Hx1 & Hx2); [done | lia | lia | lia | lia | lia |].
  cbn [mbind option_bind s32_ret]. rewrite s32_small, Z.eqb_refl by lia.
  pose proof (zwrite_Some _ _ _ _ Hx2) as (_ & _ & Hl1 & _).
  assert (wrote bits (data dev) (data dev1) (e :: t) b put (vcn e * cs + o) k) as Hw1
    by (apply (wrote_run bits Hbits _ _ _ _ _ _ _ _ xs); try done; lia).
  destruct (Z.ltb_spec (put + k) to_write).
  - destruct (IH dev1 (vcn e + len e) false (put + k)) as (dev' & -> & Hw'); try done; try lia; rewrite ?Hl1; try done.
    + by apply (phys_inj_tail bits Hbits (vcn e) e).
    + destruct t as [|e2 t2]; cbn; [done|]. cbn in Hct. nia.
    + exists dev'. split; [done|]. replace (to_write - put) with (k + (to_write - (put + k))) by lia.
      rewrite Z.add_0_r in Hw'. apply (wrote_step bits Hbits _ (data dev1) _ e t b put _ k _ (vcn e)); try done; try lia.
      right. unfold rl_end. lia.
  - exists dev1. split; [do 2 f_equal; lia|]. by replace (to_write - put) with k by lia.
Qed.

Lemma read_clusters_loop_ok dev runs rest v (first : bool) offs to_read got b :
  contig v runs -> Forall (small_run (zlen (data dev))) runs -> zlen (data dev) < 2 ^ 63 ->
  in_head bits runs (if first then offs else 0) -> 0 <= (if first then offs else 0) ->
  0 <= got < to_read -> to_read <= zlen b -> to_read < 2 ^ 31 ->
  v * cs + (if first then offs else 0) + (to_read - got) <= runs_end v runs * cs ->
  exists dev' b', read_clusters_loop bits dev (runs ++ rest) first offs to_read got b = Some (dev', b', to_read) /\
    data dev' = data dev /\ frame b b' got to_read /\
    holds_file bits (data dev) runs b' got (v * cs + (if first then offs else 0)) (to_read - got).
Proof.
  revert dev v first got b; induction runs as [|e t IH]; intros dev v first got b Hc Hr Hsz Hin Ho Hp Hb Hw Hend;
    [cbn in Hend; lia|].
  set (o := if first then offs else 0) in *. pose proof Hc as (Hve & Hle & Hct). inversion Hr as [|? ? He Ht]; subst v.
  assert (0 < cs) as Hcs by (apply Z.pow_pos_nonneg; lia). cbn [app read_clusters_loop]. cbn in Hin, Hend.
  rewrite (run_part_small u32 e first offs (zlen (data dev))); try done; try lia;
    [|intros ? ?; unfold u32; apply wrap_u_small; lia]. fold o.
  replace (u32 (to_read - got)) with (to_read - got) by (unfold u32; rewrite wrap_u_small; lia).
  set (k := if to_read - got <? len e * cs - o then to_read - got else len e * cs - o).
  assert (k = Z.min (to_read - got) (len e * cs - o)) as Hk by (unfold k; destruct (Z.ltb_spec (to_read - got) (len e * cs - o)); lia).
  clearbody k. pose proof He as (Hlc & Hds & Hsm).
  destruct (ntfs_pread_full dev (lcn e * cs + o) k b got) as (dev1 & b1 & -> & Hd1 & Hf1 & Hr1); [lia | lia | lia | lia | lia |].
  cbn [mbind option_bind s32_ret]. rewrite s32_small, Z.eqb_refl by lia.
  replace (u32 (got + k)) with (got + k) by (unfold u32; rewrite wrap_u_small; lia).
  assert (holds_file bits (data dev) (e :: t) b1 got (vcn e * cs + o) k) as Hh1.
  { apply (holds_file_head bits Hbits); try done; try lia. rewrite (proj2 (Z.ltb_ge (lcn e) 0)) by lia.
    intros j Hj. destruct (Hr1 j Hj) as (y & -> & E). by rewrite E. }
  destruct (Z.ltb_spec (got + k) to_read).
  - pose proof (proj1 Hf1) as Lb1.
    destruct (IH dev1 (vcn e + len e) false (got + k) b1) as (dev' & b' & -> & Hd' & Hf' & Hh'); try done; try lia; rewrite ?Hd1; try done.
    + destruct t as [|e2 t2]; cbn; [done|]. cbn in Hct. nia.
    + exists dev', b'. split; [done|]. split; [congruence|]. split; [eapply frame_trans; [exact Hf1 | exact Hf' | lia..]|].
      replace (to_read - got) with (k + (to_read - (got + k))) by lia. rewrite Z.add_0_r, Hd1 in Hh'.
      apply (holds_file_app bits Hbits _ e t b1 b' got _ k _ (vcn e + len e)); try done; try lia.
      by replace (got + k + (to_read - (got + k))) with to_read by lia.
  - exists dev1, b1. split; [do 2 f_equal; lia|]. split; [done|]. replace to_read with (got + k) by lia.
    split; [done|]. by replace (got + k - got) with k by lia.
Qed.
End clusters_theory.

(** ** A unit of sub-blocks *)

Lemma zlen_drop {A} (l : list A) p : 0 <= p <= zlen l -> zlen (drop (Z.to_nat p) l) = zlen l - p.
Proof. unfold zlen. rewrite length_drop. lia. Qed.

Lemma zget_drop {A} (l : list A) p k : 0 <= p -> 0 <= k -> (drop (Z.to_nat p) l).[k] = l.[p + k].
Proof.
  intros Hp Hk. unfold zget. destruct (Z.ltb_spec k 0), (Z.ltb_spec (p + k) 0); try lia.
  rewrite lookup_drop. f_equal. lia.
Qed.

(** Writing in the tail of a buffer. *)
Lemma holds_splice {A} (m tail bs xs : list A) c : holds m 0 xs -> zlen xs = c -> c <= zlen m -> holds tail 0 bs ->
  holds (take (Z.to_nat c) m ++ tail) 0 (xs ++ bs).
Proof.
  intros Hm <- Hc Ht. pose proof (zlen_nonneg xs).
  assert (zlen (take (Z.to_nat (zlen xs)) m) = zlen xs) as Ltk by (unfold zlen in *; rewrite length_take; lia).
  apply holds_app. split; intros j Hj; rewrite Z.add_0_l.
  - rewrite zget_app_l by lia. rewrite <-(Hm j Hj), Z.add_0_l. unfold zget. destruct (Z.ltb_spec j 0); [done|].
    by rewrite lookup_take_lt by lia.
  - rewrite zget_app_r by lia. rewrite Ltk. replace (zlen xs + j - zlen xs) with j by lia. rewrite <-(Ht j Hj). by f_equal; lia.
Qed.

Section unit_format.
Context (inbuf : list Z) (insz : Z).

(** The sub-blocks of a unit: each stands for the next 4096 bytes of [inbuf], or
    what is left of them. *)
Fixpoint unit_at (p : Z) (bss : list (list Z)) (q : Z) : Prop :=
  match bss with
  | [] => p = q
  | bs :: t => p < insz /\ 4 <= zlen bs <= NTFS_SB_SIZE + 2 /\
      sb_format (drop (Z.to_nat p) inbuf) (Z.min NTFS_SB_SIZE (insz - p)) bs /\ unit_at (p + NTFS_SB_SIZE) t q
  end.

Lemma unit_at_snoc p bss q bs : unit_at p bss q -> q < insz -> 4 <= zlen bs <= NTFS_SB_SIZE + 2 ->
  sb_format (drop (Z.to_nat q) inbuf) (Z.min NTFS_SB_SIZE (insz - q)) bs -> unit_at p (bss ++ [bs]) (q + NTFS_SB_SIZE).
Proof. revert p; induction bss as [|b t IH]; intros p; cbn; [by intros -> | intros (? & ? & ? & ?) ???; do 3 (split; [done|]); by apply IH]. Qed.

Lemma unit_at_q p bss q : unit_at p bss q -> q = p + NTFS_SB_SIZE * Z.of_nat (length bss) /\
  zlen (concat bss) <= (NTFS_SB_SIZE + 2) * Z.of_nat (length bss) /\ (bss = [] \/ q < insz + NTFS_SB_SIZE).
Proof.
  revert p; induction bss as [|b t IH]; intros p; cbn [unit_at concat length].
  - intros ->. rewrite (@zlen_nil Z). split_and!; [lia | lia | by left].
  - intros (? & ? & _ & (? & ? & Hq)%IH). rewrite zlen_app. split_and!; [lia | lia | right].
    destruct Hq as [->|]; [cbn [length] in *; lia | done].
Qed.

(** The decompressor restores the unit, and stops at the zero bytes that follow. *)
Lemma unit_decoded bss fuel cbuf cb_size dest p q c : unit_at p bss q -> insz <= q -> insz <= zlen inbuf -> 0 <= p ->
  holds cbuf c (concat bss ++ [0; 0]) -> 0 <= c -> c + zlen (concat bss) + 2 <= cb_size -> cb_size <= zlen cbuf ->
  cb_size <= zlen dest -> q <= cb_size -> (length bss < fuel)%nat ->
  exists dest', sb_loop cbuf cb_size fuel dest cb_size p c = Some (dest', Ok tt) /\ frame dest dest' p q /\
    forall k, p <= k < insz -> dest'.[k] = inbuf.[k].
Proof.
  revert fuel dest p c; induction bss as [|bs t IH]; intros [|fuel] dest p c Hu Hq Hin Hp Hc Hc0 Hce Hcl Hdl Hqs Hf; cbn [length] in Hf; try lia.
  - cbn in Hu. subst q. cbn [concat app] in *. rewrite (@zlen_nil Z) in Hce. exists dest. cbn [sb_loop].
    destruct (Z.eqb_spec c cb_size); [lia|]. unfold le16_to_cpup.
    rewrite (ld_holds 2 cbuf c 0) by (try done; lia). cbn [mbind option_bind]. change (0 =? 0) with true. cbn [orb].
    split_and!; [done | apply frame_refl | lia].
  - destruct Hu as (Hpi & Hlb & Hfmt & Hu). cbn [concat] in *. rewrite <-app_assoc in Hc. apply holds_app in Hc as [Hb Ht].
    rewrite zlen_app in Hce. pose proof (zlen_nonneg (concat t)). unfold NTFS_SB_SIZE in *.
    pose proof (unit_at_q _ _ _ Hu) as (Hqe & _). unfold NTFS_SB_SIZE in Hqe.
    assert (zlen (drop (Z.to_nat p) inbuf) = zlen inbuf - p) as Ld by (apply zlen_drop; lia).
    destruct (zread (drop (Z.to_nat p) inbuf) 0 (Z.min 0x1000 (insz - p))) as [xs|] eqn:Ex; [|rewrite zread_inside in Ex by lia; done].
    destruct (sb_loop_decoded (drop (Z.to_nat p) inbuf) (Z.min 0x1000 (insz - p)) ltac:(unfold NTFS_SB_SIZE; lia) cbuf cb_size
      bs xs fuel dest cb_size p c) as (m & -> & Hfm & Hm); try done; unfold NTFS_SB_SIZE; try lia.
    destruct (IH fuel m (p + 0x1000) (c + zlen bs)) as (dest' & -> & Hf' & Hd'); try done; try lia.
    { destruct Hfm. lia. }
    exists dest'. unfold NTFS_SB_SIZE in Hfm. split; [done|]. split; [eapply frame_trans; [exact Hfm | exact Hf' | lia..]|].
    intros k Hk. destruct (Z.lt_ge_cases k (p + 0x1000)) as [Hlt|]; [|apply Hd'; lia].
    rewrite (proj2 Hf') by lia. unfold sb_bytes in Hm. apply holds_app in Hm as [Hm _].
    apply zread_Some in Ex as (_ & _ & _ & Lx & Gx). replace k with (p + (k - p)) by lia. rewrite Hm, Gx by lia.
    rewrite zget_drop by lia. f_equal; lia.
Qed.
End unit_format.

(** ** Sub-blocks of zeroes *)

Section zeroes.
Context (inbuf : list Z) (bufsize : Z).

Definition zero_to (p : Z) : Prop := forall k, 0 <= k < p -> inbuf.[k] = Some 0.
Definition zero_lit (t : token) : Prop := match t with Lit b => b = 0 | Phrase _ _ => True end.

(** Phrases copy zeroes when every literal before them is zero. *)
Lemma zero_toks p ts q : toks_at inbuf bufsize p ts q -> Forall zero_lit ts -> 0 <= p -> zero_to p -> zero_to q.
Proof.
  intros Ht Hz. revert p Ht; induction Hz as [|t ts Hl _ IH]; intros p Ht Hp H; cbn in Ht; [by subst|].
  destruct Ht as [Htok Hts]. pose proof (tok_ok_pos _ _ _ _ Htok). apply (IH _ Hts); [lia|].
  destruct t as [b|pt len]; cbn in *.
  - intros k Hk. destruct (decide (k = p)) as [->|]; [rewrite (proj2 Htok); by subst b | apply H; lia].
  - destruct Htok as (_ & lg & dist & _ & Hd & _ & _ & Hs).
    assert (forall n, 0 <= n -> n <= len -> zero_to (p + n)) as Hn; [|apply Hn; lia].
    intros n Hn. pattern n. apply natlike_ind; [| |done]; [intros _; by rewrite Z.add_0_r|].
    intros x Hx IHx Hxl k Hk. destruct (decide (k = p + x)) as [->|]; [|apply IHx; lia].
    rewrite <-Hs by lia. apply IHx; lia.
Qed.

Lemma zero_groups p gs q : groups_at inbuf bufsize p gs q -> Forall (Forall zero_lit) gs -> 0 <= p -> zero_to p -> zero_to q.
Proof.
  intros Hg Hz. revert p Hg; induction Hz as [|g gs Hl _ IH]; intros p Hg Hp H; cbn in Hg; [by subst|].
  destruct Hg as (r & _ & _ & _ & Ht & Hg). apply (IH r Hg).
  - apply toks_at_le in Ht as [? _]. lia.
  - by eapply zero_toks.
Qed.

Lemma tag_0_lits ts : tag_of ts = 0 -> Forall (fun t => tok_bit t = 0) ts.
Proof.
  induction ts as [|t ts IH]; [done|]. cbn [tag_of]. pose proof (tag_of_range ts). intros Ht.
  assert (0 <= tok_bit t) by (by destruct t). constructor; [lia | apply IH; lia].
Qed.

(** Zero bytes encode literals that are zero. *)
Lemma zero_bytes_lits gs : Forall (fun b => b = 0) (groups_bytes gs) -> Forall (Forall zero_lit) gs.
Proof.
  induction gs as [|g gs IH]; [done|]. unfold groups_bytes. cbn [fmap list_fmap concat]. unfold group_bytes at 1.
  rewrite Forall_app, Forall_cons. intros [[Ht Hg] Hgs]. constructor; [|by apply IH]. apply tag_0_lits in Ht. clear IH Hgs.
  induction Ht as [|t ts Htb _ IH]; [done|]. rewrite toks_bytes_cons in Hg. apply Forall_app in Hg as [H1 H2].
  constructor; [|by apply IH]. destruct t; [|done]. by inversion H1.
Qed.

(** [2; 0; ..]: a zero, and a phrase. *)
Lemma more_bytes_lits gs a b : groups_bytes gs = [2; 0; a; b] -> Forall (fun g => g <> []) gs -> Forall (Forall zero_lit) gs.
Proof.
  destruct gs as [|g gs]; [done|]. unfold groups_bytes. cbn [fmap list_fmap concat]. unfold group_bytes at 1. cbn [app].
  intros [= Ht Hb] Hne. destruct g as [|[x|] g]; [done | | cbn [tag_of tok_bit] in Ht; lia]. rewrite toks_bytes_cons in Hb.
  cbn [tok_bytes app] in Hb. injection Hb as -> Hb. cbn [tag_of tok_bit] in Ht.
  destruct g as [|[y|pt n] g]; cbn [tag_of tok_bit] in Ht; [lia | lia |]. rewrite toks_bytes_cons in Hb. cbn [tok_bytes le_encode app] in Hb.
  injection Hb as _ _ Hb. apply app_nil in Hb as [Hg Hgs].
  destruct g as [|t g]; [|rewrite toks_bytes_cons in Hg; by destruct t]. destruct gs; [|done]. by repeat constructor.
Qed.

Lemma groups_at_ne p gs q : groups_at inbuf bufsize p gs q -> Forall (fun g => g <> []) gs.
Proof. revert p; induction gs as [|g gs IH]; intros p; cbn; [done|]. intros (r & ? & _ & _ & _ & ?%IH). by constructor. Qed.

Lemma format_zero bs gs : sb_format inbuf bufsize bs -> 1 <= bufsize ->
  (forall h gs', bs = le_encode 2 h ++ groups_bytes gs' -> groups_bytes gs' = gs) -> (exists b t, bs = b :: t /\ b <> 0xff) ->
  Forall (fun b => b = 0) gs \/ (exists a b, gs = [2; 0; a; b]) -> zero_to bufsize.
Proof.
  intros [xs E _ | gs' h E _ _ Hg] Hb Hgs (b & t & Eb & Hne) Hz; [rewrite Eb in E; by injection E|].
  specialize (Hgs h gs' E). subst gs.
  eapply zero_groups; [done | | lia | intros k Hk; lia]. destruct Hz as [Hz | (x & y & Hz)]; [by apply zero_bytes_lits|].
  eapply more_bytes_lits; [done | by eapply groups_at_ne].
Qed.

Lemma holds_prefix (m bs : list Z) k : holds m 0 bs -> 0 <= k <= zlen bs -> zlen bs <= zlen m ->
  zread m 0 k = Some (take (Z.to_nat k) bs).
Proof.
  intros H Hk Hl. assert (zlen (take (Z.to_nat k) bs) = k) as Lk by (unfold zlen in *; rewrite length_take; lia).
  rewrite <-(take_drop (Z.to_nat k) bs) in H. apply holds_app in H as [H _]. rewrite <-Lk at 1. apply holds_zread; [done | lia | lia].
Qed.

(** The test for zeroes is right when it says so. *)
Lemma block_zeroes_ok bs pbuf n : 1 <= bufsize -> sb_format inbuf bufsize bs -> holds pbuf 0 bs -> zlen bs = n -> n <= zlen pbuf ->
  exists b, block_zeroes n pbuf = Some b /\ (b = true -> zero_to bufsize).
Proof.
  intros Hb Hf Hh Hn Hl. unfold block_zeroes.
  destruct (Z.eqb_spec n 4); [|destruct (Z.eqb_spec n 5); [|destruct (Z.eqb_spec n 6); [|by exists false]]].
  all: rewrite (holds_prefix _ bs) by (done || lia); cbn [mbind option_bind]; eexists; split; [done|].
  all: intros Heq%bool_decide_eq_true_1.
  - rewrite take_ge in Heq by (unfold zlen in *; lia). apply (format_zero bs [0; 0]); try done.
    + intros h gs E. rewrite Heq in E. by injection E.
    + rewrite Heq. by eexists _, _.
    + left. by repeat constructor.
  - rewrite take_ge in Heq by (unfold zlen in *; lia). apply (format_zero bs [0; 0; 0]); try done.
    + intros h gs E. rewrite Heq in E. by injection E.
    + rewrite Heq. by eexists _, _.
    + left. by repeat constructor.
  - assert (exists a b, bs = morezeroes ++ [a; b]) as (x & y & E1).
    { rewrite <-(take_drop 4 bs). change (Z.to_nat 4) with 4%nat in Heq. rewrite Heq.
      assert (length (drop 4 bs) = 2%nat) as L2 by (rewrite length_drop; unfold zlen in *; lia).
      destruct (drop 4 bs) as [|x [|y [|]]]; try done. by exists x, y. }
    apply (format_zero bs [2; 0; x; y]); try done.
    + intros h gs E. rewrite E1 in E. by injection E.
    + rewrite E1. by eexists _, _.
    + right. by eexists _, _.
Qed.
End zeroes.

(** ** Compressing a unit *)

(** The size rounded up to a cluster. *)
Lemma rounded_size bits cbs n : 0 <= bits -> 0 < n -> n + 2 ^ bits <= cbs ->
  exists k, Z.lor (n - 1) (2 ^ bits - 1) + 1 = k * 2 ^ bits /\ n <= k * 2 ^ bits < n + 2 ^ bits.
Proof.
  intros Hbits Hn Hb. set (c := 2 ^ bits) in *. assert (0 < c) as Hc by (apply Z.pow_pos_nonneg; lia). exists ((n - 1) / c + 1).
  assert (Z.lor (n - 1) (c - 1) = (n - 1) / c * c + (c - 1)) as ->.
  { replace (c - 1) with (Z.ones bits) by (rewrite Z.ones_equiv; unfold c; lia).
    rewrite <-(lor_add ((n - 1) / c * c) (Z.ones bits) bits); [|lia | rewrite Z.ones_equiv; unfold c in *; lia | apply Z.mod_mul; unfold c in *; lia].
    apply Z.bits_inj'. intros i Hi. rewrite !Z.lor_spec. destruct (Z.lt_ge_cases i bits).
    - rewrite (Z.ones_spec_low bits i) by lia. by rewrite !orb_true_r.
    - rewrite (Z.ones_spec_high bits i) by lia. rewrite !orb_false_r. unfold c. rewrite Z.mul_pow2_bits, Z.div_pow2_bits by lia. f_equal. lia. }
  pose proof (Z.div_mod (n - 1) c). pose proof (Z.mod_pos_bound (n - 1) c Hc). split; [lia | nia].
Qed.

Section unit_compress.
Context (bits cbs : Z) (Hbits : 0 <= bits) (Hcbs : 2 ^ bits <= cbs < 2 ^ 30) (Hmul : cbs mod NTFS_SB_SIZE = 0).
Context (inbuf : list Z) (insz : Z) (Hinsz : 0 < insz <= cbs) (Hin : insz <= zlen inbuf).
Context (prev0 : Z -> list Z) (Hprev : forall p, zlen (prev0 p) = NTFS_SB_SIZE).

(** The state of the loop: the sub-blocks [bss] of the first [p] bytes. *)
Record unit_state (p compsz : Z) (allzeroes : bool) (outbuf : list Z) (bss : list (list Z)) : Prop := {
  us_unit : unit_at inbuf insz 0 bss p;
  us_size : compsz = zlen (concat bss);
  us_out : holds outbuf 0 (concat bss);
  us_len : zlen outbuf = cbs + 2 * (cbs / NTFS_SB_SIZE) + 2;
  us_fits : bss = [] \/ compsz + 2 ^ bits + 2 <= cbs;
  us_zero : allzeroes = true -> forall k, 0 <= k < Z.min p insz -> inbuf.[k] = Some 0 }.

(** The next block is compressed behind the others. *)
Lemma comp_block p compsz allzeroes outbuf bss : unit_state p compsz allzeroes outbuf bss -> p < insz ->
  exists sz pbuf bs, ntfs_compress_block (drop (Z.to_nat p) inbuf) (Z.min NTFS_SB_SIZE (insz - p)) (drop (Z.to_nat compsz) outbuf) (prev0 p)
      = Some (sz, pbuf) /\
    holds pbuf 0 bs /\ zlen bs = sz /\ 4 <= sz <= NTFS_SB_SIZE + 2 /\ 0 <= compsz < 2 ^ 30 /\ 0 <= p < 2 ^ 30 /\
    sb_format (drop (Z.to_nat p) inbuf) (Z.min NTFS_SB_SIZE (insz - p)) bs /\
    sz <= zlen pbuf /\ zlen (take (Z.to_nat compsz) outbuf ++ pbuf) = zlen outbuf /\
    holds (take (Z.to_nat compsz) outbuf ++ pbuf) 0 (concat (bss ++ [bs])).
Proof.
  intros [Hu Hs Ho Hl Hfit Hz] Hp. unfold NTFS_SB_SIZE in *. pose proof (unit_at_q _ _ _ _ _ Hu) as (Hq & Hlen & _). unfold NTFS_SB_SIZE in *.
  pose proof (zlen_nonneg (concat bss)).
  assert (cbs = 0x1000 * (cbs / 0x1000)) as Ecbs by (pose proof (Z.div_mod cbs 0x1000); lia).
  set (K := cbs / 0x1000) in *. assert (Z.of_nat (length bss) <= K - 1) by lia.
  destruct (ntfs_compress_block_ok (drop (Z.to_nat p) inbuf) (Z.min 0x1000 (insz - p))
    ltac:(rewrite zlen_drop; lia) ltac:(unfold NTFS_SB_SIZE; lia) (drop (Z.to_nat compsz) outbuf) (prev0 p))
    as (n & out & bs & E & Lo & Hh & Lb & Hn & Hf); [apply Hprev | unfold NTFS_SB_SIZE; rewrite zlen_drop; lia |].
  rewrite zlen_drop in Lo by lia. unfold NTFS_SB_SIZE in Hn.
  assert (zlen (take (Z.to_nat compsz) outbuf) = compsz) as Ltk by (unfold zlen in *; rewrite length_take; lia).
  assert (0 <= compsz < 2 ^ 30) as Hc30.
  { destruct Hfit as [->|]; [cbn [concat] in Hs; rewrite (@zlen_nil Z) in Hs; lia | assert (0 < 2 ^ bits) by (apply Z.pow_pos_nonneg; lia); lia]. }
  exists n, out, bs. do 6 (split; [done || lia|]). split; [done|]. split; [lia|]. split; [rewrite zlen_app; lia|].
  rewrite concat_app. cbn [concat]. rewrite app_nil_r. apply holds_splice; try done; lia.
Qed.

Lemma comp_loop_ok fuel p compsz allzeroes outbuf bss : unit_state p compsz allzeroes outbuf bss ->
  (Z.to_nat (insz - p) < fuel)%nat ->
  exists fail allzeroes' compsz' out, comp_loop bits cbs fuel inbuf prev0 insz p compsz allzeroes outbuf = Some (fail, allzeroes', compsz', out) /\
    (fail = true \/ exists q bss', unit_state q compsz' allzeroes' out bss' /\ insz <= q).
Proof.
  revert p compsz allzeroes outbuf bss; induction fuel as [|f IH]; intros p compsz allzeroes outbuf bss Hs Hf; [lia|]. cbn [comp_loop].
  destruct (Z.ltb_spec p insz) as [Hp|Hp]; [|eexists _, _, _, _; split; [done|]; right; by exists p, bss].
  destruct (comp_block _ _ _ _ _ Hs Hp) as (sz & pbuf & bs & E & Hh & Lb & Hsz & Hc & Hpr & Hfmt & Lp & Lo & Hout).
  unfold NTFS_SB_SIZE in *. assert (2 ^ 30 = 1073741824) as E30 by done.
  replace (u32 (p + 0x1000)) with (p + 0x1000) by (unfold u32; rewrite wrap_u_small; lia).
  replace (if p + 0x1000 <? insz then 0x1000 else u32 (insz - p)) with (Z.min 0x1000 (insz - p))
    by (unfold u32; rewrite wrap_u_small by lia; destruct (Z.ltb_spec (p + 0x1000) insz); lia).
  rewrite E. cbn [mbind option_bind].
  replace (u32 (compsz + sz + 2 ^ bits + 2)) with (compsz + sz + 2 ^ bits + 2) by (unfold u32; rewrite wrap_u_small; lia).
  replace (u32 (compsz + sz)) with (compsz + sz) by (unfold u32; rewrite wrap_u_small; lia).
  destruct (Z.eqb_spec sz 0); [lia|]. destruct (Z.ltb_spec cbs (compsz + sz + 2 ^ bits + 2)); cbn [orb].
  { eexists _, _, _, _. split; [done | by left]. }
  destruct Hs as [Hu Hsize Ho Hl Hfit Hz].
  assert (exists b, (if allzeroes then block_zeroes sz pbuf else Some false) = Some b /\
    (b = true -> forall k, 0 <= k < Z.min (p + 0x1000) insz -> inbuf.[k] = Some 0)) as (b & -> & Hb).
  { destruct allzeroes; [|by exists false]. destruct (block_zeroes_ok (drop (Z.to_nat p) inbuf) (Z.min 0x1000 (insz - p)) bs pbuf sz) as (b & -> & Hb); try done; [lia|].
    exists b. split; [done|]. intros Hbt k Hk. destruct (Z.lt_ge_cases k p); [apply Hz; [done | lia]|].
    rewrite <-(Hb Hbt (k - p)) by lia. rewrite zget_drop by lia. f_equal; lia. }
  cbn [mbind option_bind]. apply (IH _ _ _ _ (bss ++ [bs])); [|lia]. split; try done.
  - apply unit_at_snoc; try done. by rewrite Lb.
  - rewrite concat_app, zlen_app. cbn [concat]. rewrite app_nil_r. lia.
  - lia.
  - right. lia.
Qed.
End unit_compress.

Section comp_set.
Context {D : Type} `{!DeviceOps D} `{!DeviceLaws D} `{!ReliableDevice D}.
Context (bits cbs : Z) (Hbits : 0 <= bits) (Hcbs : 2 ^ bits <= cbs < 2 ^ 30).
Context (Hmul : cbs mod NTFS_SB_SIZE = 0) (Hmulc : cbs mod 2 ^ bits = 0).
Context (inbuf : list Z) (insz : Z) (Hinsz : 0 < insz <= cbs) (Hin : insz <= zlen inbuf).
Context (prev0 : Z -> list Z) (Hprev : forall p, zlen (prev0 p) = NTFS_SB_SIZE).
Implicit Types dev : ntfs_device D.

Lemma phys_total size runs v p : contig v runs -> Forall (small_run bits size) runs ->
  v * 2 ^ bits <= p < runs_end v runs * 2 ^ bits -> exists q, phys bits runs p = Some q.
Proof using Hbits.
  assert (0 < 2 ^ bits) by (apply Z.pow_pos_nonneg; lia).
  revert v; induction runs as [|e t IH]; intros v Hc Hr Hp; [cbn in Hp; lia|].
  destruct Hc as (<- & Hle & Hct). inversion Hr as [|? ? (Hlc & _) Ht]; subst. cbn in Hp.
  destruct (Z.lt_ge_cases p ((vcn e + len e) * 2 ^ bits)).
  - replace p with (p + 0) by lia. rewrite (phys_in_run bits Hbits) by (unfold rl_end; lia).
    rewrite (proj2 (Z.ltb_ge (lcn e) 0)) by lia. by eexists.
  - rewrite (phys_after bits Hbits) by (unfold rl_end; lia). apply (IH _ Hct); [done | lia].
Qed.

(** Storing the compressed unit: what is read back decompresses to the input. *)
Lemma unit_read_back dev' dev runs rest v offs q bss w out cb dest :
  unit_at inbuf insz 0 bss q -> insz <= q -> holds out 0 (concat bss ++ [0; 0]) -> zlen (concat bss) + 2 <= w -> w < cbs -> w <= zlen out ->
  wrote bits (data dev) (data dev') runs out 0 (v * 2 ^ bits + offs) w ->
  contig v runs -> Forall (small_run bits (zlen (data dev))) runs -> zlen (data dev) < 2 ^ 63 ->
  in_head bits runs offs -> 0 <= offs -> v * 2 ^ bits + offs + w <= runs_end v runs * 2 ^ bits ->
  zlen cb = cbs -> zlen dest = cbs ->
  exists dev'' cb' dest', read_clusters bits dev' (runs ++ rest) offs w cb = Some (dev'', cb', w) /\
    ntfs_decompress cb' cbs dest cbs = Some (dest', Ok tt) /\ forall k, 0 <= k < insz -> dest'.[k] = inbuf.[k].
Proof using All.
  intros Hu Hq Hout Hlen Hwc Hwl (Lw & _ & Hw) Hc Hr Hsz Hh Ho Hend Lcb Ldest. pose proof (zlen_nonneg (concat bss)).
  destruct (read_clusters_loop_ok bits Hbits dev' runs rest v true offs w 0 cb) as (dev'' & cb' & E & Hd & Hf & Hfile);
    try done; rewrite ?Lw; try done; try lia.
  rewrite Z.sub_0_r in Hfile.
  assert (holds cb' 0 (concat bss ++ [0; 0])) as Hcb.
  { assert (zlen (concat bss ++ [0; 0]) = zlen (concat bss) + 2) as L2 by (rewrite zlen_app; done).
    intros j Hj. rewrite <-Hout by done. rewrite Hfile by lia. unfold file_byte.
    destruct (phys_total (zlen (data dev)) runs v (v * 2 ^ bits + offs + j)) as [x Hx]; [done | done | lia |].
    rewrite Hx. apply (Hw j); [lia | done]. }
  pose proof (unit_at_q _ _ _ _ _ Hu) as (Hqe & _ & Hlast). unfold NTFS_SB_SIZE in *.
  assert (q <= cbs) as Hqc.
  { destruct Hlast as [->|Hlast]; [cbn [length] in Hqe; lia|]. pose proof (Z.div_mod cbs 0x1000). lia. }
  assert (Z.of_nat (length bss) <= cbs) by lia.
  destruct (unit_decoded inbuf insz bss (S (Z.to_nat cbs)) cb' cbs dest 0 q 0) as (dest' & Ed & _ & Hdest); try done; try lia.
  { destruct Hf. lia. }
  exists dev'', cb', dest'. split_and!; [done | done | intros k Hk; by apply Hdest].
Qed.

(** The end of the unit: two zero bytes, and zeroes up to a cluster. *)
Lemma finish_unit {R} (K : list Z -> option R) out compsz bs : zlen bs = compsz -> holds out 0 bs -> compsz + 2 ^ bits + 2 <= cbs -> cbs <= zlen out ->
  let w := s32 (Z.lor (compsz + 2 - 1) (2 ^ bits - 1) + 1) in
  exists out', compsz + 2 <= w <= cbs - 2 ^ bits /\ w mod 2 ^ bits = 0 /\
    (outbuf ← zset out compsz 0;
     outbuf ← zset outbuf (compsz + 1) 0;
     outbuf ← zwrite outbuf (compsz + 2) (replicate (Z.to_nat (w - (compsz + 2))) 0);
     K outbuf) = K out' /\
    zlen out' = zlen out /\ holds out' 0 (bs ++ [0; 0]).
Proof using Hbits Hcbs Hmulc.
  intros <- Hout Hfit Hl. pose proof (zlen_nonneg bs). assert (0 < 2 ^ bits) as Hcs by (apply Z.pow_pos_nonneg; lia).
  destruct (rounded_size bits cbs (zlen bs + 2) Hbits) as (k & Ek & Hk); [lia | lia |].
  assert (s32 (Z.lor (zlen bs + 2 - 1) (2 ^ bits - 1) + 1) = k * 2 ^ bits) as Es.
  { rewrite Ek. apply s32_small. change (2 ^ 31) with (2 * 2 ^ 30). lia. }
  destruct (zset out (zlen bs) 0) as [m1|] eqn:E1; [|rewrite zset_inside in E1 by lia; done].
  pose proof (zset_frame _ _ _ _ E1) as F1. pose proof (proj1 F1) as L1.
  destruct (zset m1 (zlen bs + 1) 0) as [m2|] eqn:E2; [|rewrite zset_inside in E2 by lia; done].
  pose proof (zset_frame _ _ _ _ E2) as F2. pose proof (proj1 F2) as L2.
  assert (holds m2 0 (bs ++ [0; 0])) as Hh2.
  { apply holds_app. split; [eapply holds_frame; [eapply holds_frame; [exact Hout | exact F1 | lia] | exact F2 | lia]|]. rewrite Z.add_0_l.
    apply holds_cons. apply zset_Some in E1 as (_ & _ & G1), E2 as (_ & _ & G2).
    split; [|apply holds_cons; split; [by rewrite G2, Z.eqb_refl | apply holds_nil]].
    rewrite G2, G1, Z.eqb_refl. by destruct (Z.eqb_spec (zlen bs) (zlen bs + 1)). }
  set (w := k * 2 ^ bits) in *. cbv zeta. rewrite Es.
  destruct (zwrite m2 (zlen bs + 2) (replicate (Z.to_nat (w - (zlen bs + 2))) 0)) as [m3|] eqn:E3;
    [|rewrite zwrite_inside in E3 by (rewrite ?zlen_replicate; lia); done].
  pose proof (zwrite_frame _ _ _ _ E3) as F3. pose proof (proj1 F3) as L3.
  exists m3. split.
  { pose proof (Z.div_mod cbs (2 ^ bits)) as Ec. rewrite Hmulc in Ec. specialize (Ec ltac:(lia)).
    set (c := 2 ^ bits) in *. set (Q := cbs / c) in *. assert (k < Q) by (unfold w in *; nia). assert ((k + 1) * c <= Q * c) by nia. unfold w in *; lia. }
  split; [unfold w; apply Z.mod_mul; lia|]. cbn [mbind option_bind]. rewrite E2. cbn [mbind option_bind]. rewrite E3. split; [done|]. split; [lia|].
  eapply holds_frame; [exact Hh2 | exact F3 |]. rewrite zlen_app. change (zlen [0; 0]) with 2. lia.
Qed.
End comp_set.

(** ** Properties *)

(** C12: compressing a unit, on a device that works: the unit is declined (and
    nothing is written), or found to be zero (and it is), or stored in the first
    [w] bytes of its runs, which are whole clusters and leave at least one cluster
    of the unit free; then nothing else of the device has changed, and reading
    the clusters back and decompressing them gives the unit's bytes. *)
Theorem ntfs_comp_set_correct {D} `{ReliableDevice D} `{!DeviceLaws D} bits cbs (dev : ntfs_device D) runs rest v offs inbuf insz outbuf0 prev0 :
  0 <= bits -> 2 ^ bits <= cbs < 2 ^ 30 -> cbs mod NTFS_SB_SIZE = 0 -> cbs mod 2 ^ bits = 0 ->
  0 < insz <= cbs -> insz <= zlen inbuf -> (forall p, zlen (prev0 p) = NTFS_SB_SIZE) ->
  zlen outbuf0 = cbs + 2 * (cbs / NTFS_SB_SIZE) + 2 ->
  contig v runs -> Forall (small_run bits (zlen (data dev))) runs -> zlen (data dev) < 2 ^ 63 -> phys_inj bits runs ->
  NDevReadOnly dev = false -> in_head bits runs offs -> 0 <= offs -> v * 2 ^ bits + offs + cbs <= runs_end v runs * 2 ^ bits ->
  exists dev' w, ntfs_comp_set bits cbs dev (runs ++ rest) offs insz inbuf (Some outbuf0) prev0 = Some (dev', w) /\
    ((w = -1 /\ dev' = dev) \/
     (w = 0 /\ dev' = dev /\ forall k, 0 <= k < insz -> zget inbuf k = Some 0) \/
     (0 < w <= cbs - 2 ^ bits /\ w mod 2 ^ bits = 0 /\
      (forall q, (forall j, 0 <= j < w -> phys bits runs (v * 2 ^ bits + offs + j) <> Some q) -> zget (data dev') q = zget (data dev) q) /\
      forall cb dest, zlen cb = cbs -> zlen dest = cbs ->
        exists dev'' cb' dest', read_clusters bits dev' (runs ++ rest) offs w cb = Some (dev'', cb', w) /\
          ntfs_decompress cb' cbs dest cbs = Some (dest', Ok tt) /\ forall k, 0 <= k < insz -> zget dest' k = zget inbuf k)).
Proof.
  intros Hb Hcbs Hm Hmc Hinsz Hin Hprev Lout Hc Hr Hsz Hinj Hro Hh Ho Hend. assert (0 < 2 ^ bits) as Hcs by (apply Z.pow_pos_nonneg; lia).
  unfold ntfs_comp_set.
  destruct (comp_loop_ok bits cbs Hb Hcbs Hm inbuf insz Hinsz Hin prev0 Hprev (S (Z.to_nat insz)) 0 0 true outbuf0 [])
    as (fail & allz & compsz & out & -> & Hres); [|lia|].
  { split; [done | done | apply holds_nil | done | by left | intros _ k Hk; lia]. }
  cbn [mbind option_bind]. destruct Hres as [-> | (q & bss & [Hu Hs Hout Hl Hfit Hz] & Hq)].
  { cbn [negb andb]. exists dev, (-1). split; [done | by left]. }
  destruct fail; cbn [negb andb]; [exists dev, (-1); split; [done | by left]|].
  destruct allz; cbn [negb]; [exists dev, 0; split; [done|]; right; left; split_and!; [done | done | intros k Hk; apply Hz; [done | lia]]|].
  pose proof (zlen_nonneg (concat bss)) as Hnn. assert (0 <= cbs / NTFS_SB_SIZE) as Hk0 by (apply Z.div_pos; [lia | done]).
  assert (compsz + 2 ^ bits + 2 <= cbs) as Hfit'.
  { destruct Hfit as [->|]; [|done]. cbn in Hu. lia. }
  destruct (finish_unit bits cbs Hb Hcbs Hmc (fun outbuf => out ← write_clusters bits dev (runs ++ rest) offs
      (s32 (Z.lor (compsz + 2 - 1) (2 ^ bits - 1) + 1)) outbuf;
      let '(dev, written) := out in
      Some (dev, if negb (written =? s32 (Z.lor (compsz + 2 - 1) (2 ^ bits - 1) + 1)) then -2 else written)) out compsz (concat bss))
    as (m3 & Hw & Hwm & E & L3 & Hh3); [done | done | lia | lia |].
  cbv zeta. set (w := s32 _) in *. rewrite E.
  destruct (write_clusters_loop_ok bits Hb dev runs rest v true offs w 0 m3) as (dev' & Ew & Hwr); try done; try lia.
  unfold write_clusters. rewrite Ew. cbn [mbind option_bind]. rewrite Z.eqb_refl. cbn [negb]. exists dev', w. split; [done|]. right. right.
  rewrite Z.sub_0_r in Hwr. split; [lia|]. split; [done|]. split; [apply Hwr|].
  intros cb dest Lcb Ld. apply (unit_read_back bits cbs Hb Hcbs Hm Hmc inbuf insz Hinsz Hin prev0 Hprev dev' dev runs rest v offs q bss w m3); try done; lia.
Qed.

(** the size of a run in bytes is cut to 32 bits: at the start of a run of a
    multiple of 4 GiB, write_clusters writes nothing and goes on with the next
    run, where it stores the data of the first. *)
Theorem write_clusters_skips_run {D} `{DeviceOps D} (dev : ntfs_device D) v l k t n b : 0 <= l < 2 ^ 50 -> 0 < n ->
  write_clusters 12 dev (RL v l (k * 2 ^ 20) :: t) 0 n b = write_clusters_loop 12 dev t false 0 n 0 b.
Proof.
  intros Hl Hn. unfold write_clusters. cbn [write_clusters_loop]. unfold run_part. cbn [len lcn]. rewrite !Z.shiftl_mul_pow2 by lia.
  assert (s32 (k * 2 ^ 20 * 2 ^ 12) = 0) as ->.
  { unfold s32, wrap_s. rewrite <-Z.mul_assoc, <-Z.pow_add_r by lia. change (2 ^ (20 + 12)) with (2 ^ 32).
    rewrite (Z.add_comm (k * 2 ^ 32)), Z.mod_add by lia. done. }
  change (s32 (0 - 0)) with 0. rewrite Z.sub_0_r. destruct (Z.ltb_spec n 0); [lia|].
  assert (2 ^ 50 * 2 ^ 12 < 2 ^ 63) by done.
  rewrite !(s64_small (l * 2 ^ 12)) by (unfold in_s64; lia). rewrite (Z.add_0_r (l * 2 ^ 12)), (s64_small (l * 2 ^ 12)) by (unfold in_s64; lia).
  unfold ntfs_pwrite. destruct (Z.ltb_spec (l * 2 ^ 12) 0); [lia|]. change (0 <? 0) with false. change (0 =? 0) with true. cbn [orb].
  cbv iota. cbn [mbind option_bind s32_ret]. change (s32 0 =? 0) with true. cbv iota.
  change (0 + 0) with 0. by destruct (Z.ltb_spec 0 n); [|lia].
Qed.

(** ** Witnesses *)

Definition unit_runs : runlist := [RL 0 1 16].
Definition unit_disk : ntfs_device (list Z) := Dev (replicate 8704 7) false false false.

Lemma unit_runs_inj : phys_inj 9 unit_runs.
Proof. apply (phys_inj_cons 9 ltac:(lia) _ _ 0); [cbn; lia | |]; by intros ?. Qed.

Lemma ntfs_comp_set_correct_witness :
  exists dev' w, ntfs_comp_set (DeviceOps0 := ram_ops 5) 9 8192 unit_disk (unit_runs ++ [RL 16 LCN_ENOENT 0]) 0 5000 (replicate 5000 97)
      (Some (replicate 8198 0)) (fun _ => replicate 4096 3) = Some (dev', w) /\
    ((w = -1 /\ dev' = unit_disk) \/
     (w = 0 /\ dev' = unit_disk /\ forall k, 0 <= k < 5000 -> zget (replicate 5000 97) k = Some 0) \/
     (0 < w <= 8192 - 2 ^ 9 /\ w mod 2 ^ 9 = 0 /\
      (forall q, (forall j, 0 <= j < w -> phys 9 unit_runs (0 * 2 ^ 9 + 0 + j) <> Some q) ->
         zget (data (DeviceOps0 := ram_ops 5) dev') q = zget (data (DeviceOps0 := ram_ops 5) unit_disk) q) /\
      forall cb dest, zlen cb = 8192 -> zlen dest = 8192 ->
        exists dev'' cb' dest', read_clusters (DeviceOps0 := ram_ops 5) 9 dev' (unit_runs ++ [RL 16 LCN_ENOENT 0]) 0 w cb = Some (dev'', cb', w) /\
          ntfs_decompress cb' 8192 dest 8192 = Some (dest', Ok tt) /\ forall k, 0 <= k < 5000 -> zget dest' k = zget (replicate 5000 97) k)).
Proof.
  apply (ntfs_comp_set_correct (H := ram_ops 5) (H0 := ram_reliable 5 ltac:(lia)) (DeviceLaws0 := ram_laws 5) 9 8192 unit_disk unit_runs
    [RL 16 LCN_ENOENT 0] 0 0 (replicate 5000 97) 5000 (replicate 8198 0) (fun _ => replicate 4096 3)).
  - lia.
  - by vm_compute.
  - by vm_compute.
  - by vm_compute.
  - lia.
  - by rewrite zlen_replicate.
  - intros p. by rewrite zlen_replicate.
  - by rewrite zlen_replicate.
  - cbn. lia.
  - constructor; [|constructor]. unfold small_run. vm_compute. intuition congruence.
  - by vm_compute.
  - exact unit_runs_inj.
  - reflexivity.
  - by vm_compute.
  - lia.
  - by vm_compute.
Defined.

Lemma write_clusters_skips_run_witness :
  write_clusters (DeviceOps0 := ram_ops 5) 12 unit_disk [RL 0 0 (1 * 2 ^ 20); RL (2 ^ 20) 1 1] 0 8 [1; 2; 3; 4; 5; 6; 7; 8] =
  write_clusters_loop (DeviceOps0 := ram_ops 5) 12 unit_disk [RL (2 ^ 20) 1 1] false 0 8 0 [1; 2; 3; 4; 5; 6; 7; 8].
Proof. apply (write_clusters_skips_run (H := ram_ops 5) unit_disk 0 0 1); lia. Defined.
