(* ===== verification/Cache.v ===== *)
(** LRU caches (libntfs-3g/cache.c): entries in a doubly linked list, most
    recent first, found through hash chains.

    The memory of a cache is a list of entries and a list of hash links;
    pointers are indices into them, [None] the NULL pointer, and [None] as the
    result of a function that it follows a NULL or wild pointer. *)

From S2P Require Import Prelude.
Local Open Scope Z_scope.
Local Open Scope c_scope.
Set Default Proof Using "Type*".

Section cache.
(** The fixed-size data of an entry. *)
Context {P : Type}.

(** What struct CACHED_GENERIC holds beside its links. *)
Record item := Item { payload : P; variable : option (list Z); varsize : Z }.

Record entry := Entry { next : option nat; previous : option nat; it : item }.

Record hash_entry := Link { h_next : option nat; h_entry : nat }.

(** struct CACHE_HEADER; [freed] is the trace of the calls of dofree. *)
Record cache := Cache {
  most_recent_entry : option nat; oldest_entry : option nat; free_entry : option nat;
  free_hash : option nat; first_hash : list (option nat); use_hash : bool;
  reads : Z; writes : Z; hits : Z;
  entries : list entry; links : list hash_entry; freed : list item }.

(** The hash function, and whether there is a free function. *)
Context (dohash : item -> Z) (dofree : bool).
Implicit Types c : cache.

Definition set_lru c mr old : cache :=
  Cache mr old (free_entry c) (free_hash c) (first_hash c) (use_hash c) (reads c) (writes c) (hits c) (entries c) (links c) (freed c).
Definition set_free c fe : cache :=
  Cache (most_recent_entry c) (oldest_entry c) fe (free_hash c) (first_hash c) (use_hash c) (reads c) (writes c) (hits c) (entries c) (links c) (freed c).
Definition set_hash c fh first ls : cache :=
  Cache (most_recent_entry c) (oldest_entry c) (free_entry c) fh first (use_hash c) (reads c) (writes c) (hits c) (entries c) ls (freed c).
Definition drop_hash c : cache :=
  Cache (most_recent_entry c) (oldest_entry c) (free_entry c) (free_hash c) (first_hash c) false (reads c) (writes c) (hits c) (entries c) (links c) (freed c).
Definition set_stats c r w h : cache :=
  Cache (most_recent_entry c) (oldest_entry c) (free_entry c) (free_hash c) (first_hash c) (use_hash c) r w h (entries c) (links c) (freed c).
Definition set_entries c es : cache :=
  Cache (most_recent_entry c) (oldest_entry c) (free_entry c) (free_hash c) (first_hash c) (use_hash c) (reads c) (writes c) (hits c) es (links c) (freed c).
Definition add_freed c x : cache :=
  Cache (most_recent_entry c) (oldest_entry c) (free_entry c) (free_hash c) (first_hash c) (use_hash c) (reads c) (writes c) (hits c) (entries c) (links c)
        (freed c ++ [x]).

(** [p->next = v] and the like. *)
Definition upd c (p : nat) (f : entry -> entry) : option cache :=
  e ← entries c !! p; Some (set_entries c (<[p := f e]> (entries c))).
Definition set_next c p v : option cache := upd c p (fun e => Entry v (previous e) (it e)).
Definition set_previous c p v : option cache := upd c p (fun e => Entry (next e) v (it e)).
Definition set_item c p x : option cache := upd c p (fun e => Entry (next e) (previous e) x).

Definition set_h_next (ls : list hash_entry) (l : nat) (v : option nat) : option (list hash_entry) :=
  x ← ls !! l; Some (<[l := Link v (h_entry x)]> ls).

(** ** The hash index *)

Definition inserthashindex c (current : nat) : option cache :=
  if use_hash c then
    e ← entries c !! current;
    let h := dohash (it e) in
    if (0 <=? h) && (h <? zlen (first_hash c)) then
      match free_hash c with
      | Some link =>
          l ← links c !! link;
          first ← (first_hash c).[h];
          first' ← zset (first_hash c) h (Some link);
          Some (set_hash c (h_next l) first' (<[link := Link first current]> (links c)))
      | None => Some (drop_hash c)
      end
    else Some (drop_hash c)
  else Some c.

(** [while (link && (link->entry != current))]: the link and its predecessor. *)
Fixpoint find_link (fuel : nat) (ls : list hash_entry) (link prev : option nat) (current : nat) : option (option nat * option nat) :=
  match fuel with
  | O => None
  | S f =>
      match link with
      | None => Some (None, prev)
      | Some l => x ← ls !! l; if Nat.eqb (h_entry x) current then Some (link, prev) else find_link f ls (h_next x) link current
      end
  end.

Definition drophashindex c (current : nat) (hash : Z) : option cache :=
  if use_hash c then
    if (0 <=? hash) && (hash <? zlen (first_hash c)) then
      first ← (first_hash c).[hash];
      r ← find_link (S (length (links c))) (links c) first None current;
      match r with
      | (Some link, prev) =>
          x ← links c !! link;
          c ← match prev with
              | Some p => ls ← set_h_next (links c) p (h_next x); Some (set_hash c (free_hash c) (first_hash c) ls)
              | None => first ← zset (first_hash c) hash (h_next x); Some (set_hash c (free_hash c) first (links c))
              end;
          ls ← set_h_next (links c) link (free_hash c);
          Some (set_hash c (Some link) (first_hash c) ls)
      | (None, _) => Some (drop_hash c)
      end
    else Some (drop_hash c)
  else Some c.

(** ** Lookup

    [differs] is the compare function applied to what is wanted. *)

Fixpoint hash_search (fuel : nat) c (link : option nat) (differs : item -> bool) : option (option nat) :=
  match fuel with
  | O => None
  | S f =>
      match link with
      | None => Some None
      | Some l =>
          x ← links c !! l;
          e ← entries c !! h_entry x;
          if differs (it e) then hash_search f c (h_next x) differs else Some (Some (h_entry x))
      end
  end.

Fixpoint lru_search (fuel : nat) c (current : option nat) (differs : item -> bool) : option (option nat) :=
  match fuel with
  | O => None
  | S f =>
      match current with
      | None => Some None
      | Some p => e ← entries c !! p; if differs (it e) then lru_search f c (next e) differs else Some current
      end
  end.

Definition search c (wanted : item) (differs : item -> bool) : option (option nat) :=
  if use_hash c then
    first ← (first_hash c).[dohash wanted];
    hash_search (S (length (links c))) c first differs
  else lru_search (S (length (entries c))) c (most_recent_entry c) differs.

(** Found and not at the head: unlink, and relink as the head. *)
Definition move_to_front c (current : nat) : option cache :=
  e ← entries c !! current;
  match previous e with
  | None => Some c
  | Some prev =>
      c ← set_next c prev (next e);
      c ← match next e with
          | Some n => set_previous c n (previous e)
          | None => Some (set_lru c (most_recent_entry c) (previous e))
          end;
      c ← set_next c current (most_recent_entry c);
      c ← set_previous c current None;
      mr ← most_recent_entry c;
      c ← set_previous c mr (Some current);
      Some (set_lru c (Some current) (oldest_entry c))
  end.

Definition ntfs_fetch_cache c (wanted : item) (differs : item -> bool) : option (cache * option nat) :=
  current ← search c wanted differs;
  c ← match current with
      | Some p => move_to_front (set_stats c (reads c) (writes c) (u64 (hits c + 1))) p
      | None => Some c
      end;
  Some (set_stats c (u64 (reads c + 1)) (writes c) (hits c), current).

(** ** Insertion *)

(** malloc, or realloc, of [n] bytes, when there is memory. *)
Definition allocate (mem : bool) (n : Z) : option (list Z) := if mem then Some (replicate (Z.to_nat n) 0) else None.

(** An entry for [x]: a free one, or the oldest, unlinked; its variable part is
    allocated. *)
Definition get_entry c (x : item) (mem : bool) : option (cache * nat) :=
  let var := if varsize x =? 0 then None else allocate mem (varsize x) in
  match free_entry c with
  | Some p =>
      e ← entries c !! p;
      let c := set_free c (next e) in
      c ← set_item c p (Item (payload (it e)) var (varsize x));
      Some (set_lru c (most_recent_entry c) (match oldest_entry c with None => Some p | o => o end), p)
  | None =>
      p ← oldest_entry c;
      e ← entries c !! p;
      before ← previous e;
      c ← set_next c before None;
      c ← (if use_hash c then drophashindex c p (dohash (it e)) else Some c);
      let c := if dofree then add_freed c (it e) else c in
      e ← entries c !! p;
      let c := set_lru c (most_recent_entry c) (previous e) in
      c ← set_item c p (Item (payload (it e)) var (varsize x));
      Some (c, p)
  end.

(** Relinked as the head of the list. *)
Definition link_first c (p : nat) : option cache :=
  c ← set_next c p (most_recent_entry c);
  c ← set_previous c p None;
  c ← match most_recent_entry c with Some mr => set_previous c mr (Some p) | None => Some c end;
  Some (set_lru c (Some p) (oldest_entry c)).

(** The data are copied; without memory for the variable part, the entry goes to
    the free list. *)
Definition fill_entry c (p : nat) (x : item) : option (cache * option nat) :=
  e ← entries c !! p;
  if varsize x =? 0 then
    c ← set_item c p (Item (payload x) None 0); Some (c, Some p)
  else
    match variable (it e) with
    | Some _ =>
        src ← variable x;
        bs ← zread src 0 (varsize x);
        c ← set_item c p (Item (payload x) (Some bs) (varsize (it e))); Some (c, Some p)
    | None =>
        c ← set_item c p (Item (payload x) None (varsize (it e)));
        let c := set_lru c (next e) (oldest_entry c) in
        c ← set_next c p (free_entry c);
        Some (set_free c (Some p), None)
    end.

Definition ntfs_enter_cache c (x : item) (differs : item -> bool) (mem : bool) : option (cache * option nat) :=
  current ← search c x differs;
  r ← match current with
      | Some _ => Some (c, current)
      | None =>
          r ← get_entry c x mem;
          let '(c, p) := r in
          c ← link_first c p;
          r ← fill_entry c p x;
          let '(c, current) := r in
          c ← match current with Some _ => inserthashindex c p | None => Some c end;
          Some (c, current)
      end;
  let '(c, current) := r in
  Some (set_stats c (reads c) (u64 (writes c + 1)) (hits c), current).

(** ** Invalidation *)

(** The variable part is freed; the pointer to it stays behind. *)
Definition do_invalidate c (current : nat) (flag_free : bool) : option cache :=
  e ← entries c !! current;
  let c := if flag_free && dofree then add_freed c (it e) else c in
  c ← match next e with
      | Some n => set_previous c n (previous e)
      | None => Some (set_lru c (most_recent_entry c) (previous e))
      end;
  c ← match previous e with
      | Some p => set_next c p (next e)
      | None => Some (set_lru c (next e) (oldest_entry c))
      end;
  c ← set_next c current (free_entry c);
  let c := set_free c (Some current) in
  set_item c current (Item (payload (it e)) (variable (it e)) 0).

Fixpoint invalidate_chain (fuel : nat) c (link : option nat) (differs : item -> bool) (flag_free : bool) (h count : Z) : option (cache * Z) :=
  match fuel with
  | O => None
  | S f =>
      match link with
      | None => Some (c, count)
      | Some l =>
          x ← links c !! l;
          e ← entries c !! h_entry x;
          if differs (it e) then invalidate_chain f c (h_next x) differs flag_free h count
          else
            c ← drophashindex c (h_entry x) h;
            c ← do_invalidate c (h_entry x) flag_free;
            invalidate_chain f c (h_next x) differs flag_free h (count + 1)
      end
  end.

Fixpoint invalidate_lru (fuel : nat) c (current : option nat) (differs : item -> bool) (flag_free : bool) (count : Z) : option (cache * Z) :=
  match fuel with
  | O => None
  | S f =>
      match current with
      | None => Some (c, count)
      | Some p =>
          e ← entries c !! p;
          if differs (it e) then invalidate_lru f c (next e) differs flag_free count
          else
            c ← (if use_hash c then drophashindex c p (dohash (it e)) else Some c);
            c ← do_invalidate c p flag_free;
            invalidate_lru f c (next e) differs flag_free (count + 1)
      end
  end.

Definition ntfs_invalidate_cache c (x : item) (differs : item -> bool) (flag_free flag_nohash : bool) : option (cache * Z) :=
  r ← (if negb flag_nohash && use_hash c then
         first ← (first_hash c).[dohash x];
         invalidate_chain (S (length (links c))) c first differs flag_free (dohash x) 0
       else Some (c, 0));
  let '(c, count) := r in
  if flag_nohash || negb (use_hash c) then
    invalidate_lru (S (length (entries c))) c (most_recent_entry c) differs flag_free count
  else Some (c, count).

Definition ntfs_remove_cache c (p : nat) (flag_free : bool) : option (cache * Z) :=
  e ← entries c !! p;
  c ← (if use_hash c then drophashindex c p (dohash (it e)) else Some c);
  c ← do_invalidate c p flag_free;
  Some (c, 1).

(** ** Creation and destruction *)

(** [for (entry = most_recent_entry; entry; entry = entry->next)]: the entries
    that dofree is called with. *)
Fixpoint ntfs_free_cache (fuel : nat) c (current : option nat) : option (list item) :=
  match fuel with
  | O => None
  | S f =>
      match current with
      | None => Some []
      | Some p =>
          e ← entries c !! p;
          rest ← ntfs_free_cache f c (next e);
          Some (if dofree then it e :: rest else rest)
      end
  end.

(** The memory of a new cache, where [junk] is what malloc left; the entries, and
    the hash links, are chained as free. *)
Definition ntfs_create_cache (junk : nat -> entry) (has_hash : bool) (item_count max_hash : nat) : option cache :=
  if (item_count =? 0)%nat then None
  else
    let chain (i : nat) := if (S i =? item_count)%nat then None else Some (S i) in
    let es := (fun i => Entry (chain i) (previous (junk i)) (Item (payload (it (junk i))) None 0)) <$> seq 0 item_count in
    let hashed := negb (max_hash =? 0)%nat in
    Some (Cache None None (Some 0%nat) (if hashed then Some 0%nat else None) (if hashed then replicate max_hash None else [])
                (has_hash && hashed) 0 0 0 es (if hashed then (fun i => Link (chain i) 0%nat) <$> seq 0 item_count else []) []).
End cache.
Arguments item P : clear implicits.
Arguments entry P : clear implicits.
Arguments cache P : clear implicits.
