(* ===== verification/CacheLru.v ===== *)
(** The caches of libntfs-3g/cache.c, modelled in Cache, are what they are meant
    to be: lists of items with distinct keys, most recent first, of bounded
    length; and where they are not, after a shortage of memory. *)

From S2P Require Import Prelude Cache.
Local Open Scope Z_scope.
Local Open Scope c_scope.
Set Default Proof Using "Type*".

(** ** Segments

    [l] is a path of pointers through a memory of nodes, along the field [nxt],
    that ends with the pointer [nx].  A doubly linked list is a path of [next]
    and, reversed, a path of [previous]. *)

Definition head_or (l : list nat) (nx : option nat) : option nat := match l with p :: _ => Some p | [] => nx end.

Section seg.
Context {N : Type} (nxt : N -> option nat).
Implicit Types (mem : list N) (l : list nat).

Fixpoint seg mem l (nx : option nat) : Prop :=
  match l with
  | [] => True
  | p :: t => (nxt <$> mem !! p) = Some (head_or t nx) /\ seg mem t nx
  end.

Lemma head_or_app l1 l2 nx : head_or (l1 ++ l2) nx = head_or l1 (head_or l2 nx).
Proof. by destruct l1. Qed.

Lemma path_app mem l1 l2 nx : seg mem (l1 ++ l2) nx <-> seg mem l1 (head_or l2 nx) /\ seg mem l2 nx.
Proof. induction l1 as [|p l1 IH]; cbn [seg app]; [tauto|]. rewrite IH, head_or_app. tauto. Qed.

Lemma seg_frame mem mem' l nx : (forall p, p ∈ l -> (nxt <$> mem' !! p) = (nxt <$> mem !! p)) -> seg mem l nx -> seg mem' l nx.
Proof.
  induction l as [|p l IH]; intros Hf; cbn [seg]; [done|]. intros [H1 H2]. split; [rewrite Hf by left; done|].
  apply IH; [|done]. intros q Hq. apply Hf. by right.
Qed.

Lemma seg_lookup mem l1 p l2 nx : seg mem (l1 ++ p :: l2) nx -> exists e, mem !! p = Some e /\ nxt e = head_or l2 nx.
Proof.
  intros [_ [H _]]%path_app. destruct (mem !! p) as [e|]; [|done]. injection H as H. by exists e.
Qed.

Lemma seg_in mem l nx p : seg mem l nx -> p ∈ l -> exists e, mem !! p = Some e.
Proof. intros H (l1 & l2 & ->)%list_elem_of_split. apply seg_lookup in H as (e & -> & _). by exists e. Qed.

Lemma seg_alter_same mem l nx p f : (forall e, nxt (f e) = nxt e) -> seg mem l nx -> seg (alter f p mem) l nx.
Proof.
  intros Hf. apply seg_frame. intros q _. destruct (decide (q = p)) as [->|].
  - rewrite list_lookup_alter_eq. destruct (mem !! p); cbn; [by rewrite Hf | done].
  - by rewrite list_lookup_alter_ne.
Qed.

Lemma seg_alter_notin mem l nx p f : p ∉ l -> seg mem l nx -> seg (alter f p mem) l nx.
Proof. intros Hp. apply seg_frame. intros q Hq. rewrite list_lookup_alter_ne; [done|]. by intros ->. Qed.

Lemma seg_alter_last mem l q nx v f : NoDup (l ++ [q]) -> (forall e, nxt (f e) = v) -> seg mem (l ++ [q]) nx -> seg (alter f q mem) (l ++ [q]) v.
Proof.
  intros (_ & Hq & _)%NoDup_app Hf [H1 [H2 _]]%path_app. apply path_app. split.
  - apply seg_alter_notin; [|done]. intros H. apply (Hq q H). by left.
  - cbn. split; [|done]. rewrite list_lookup_alter_eq. destruct (mem !! q); [|done]. cbn. by rewrite Hf.
Qed.

Definition alter_last (f : N -> N) l mem : list N := match last l with Some q => alter f q mem | None => mem end.

(** The node before [p] is made to point behind it. *)
Lemma seg_unlink mem l1 p l2 nx f : NoDup (l1 ++ p :: l2) -> (forall e, nxt (f e) = head_or l2 nx) ->
  seg mem (l1 ++ p :: l2) nx -> seg (alter_last f l1 mem) (l1 ++ l2) nx.
Proof.
  intros Hnd Hf [H1 [_ H2]]%path_app. unfold alter_last. destruct l1 as [|q l1 _] using rev_ind; [done|].
  rewrite last_snoc. apply NoDup_app in Hnd as (Hn1 & Hn & _). apply path_app. split.
  - by apply (seg_alter_last _ _ _ (Some p)).
  - apply seg_alter_notin; [|done]. intros Hq. apply (Hn q); [|by right]. apply elem_of_app. right. by left.
Qed.

Lemma path_cons mem p l nx e : mem !! p = Some e -> nxt e = head_or l nx -> seg mem l nx -> seg mem (p :: l) nx.
Proof. intros E1 E2 H. cbn. rewrite E1. cbn. by rewrite E2. Qed.
End seg.

(** ** The lists of a cache *)

Section lists.
Context {P : Type}.
Implicit Types (c : cache P) (es : list (entry P)) (lru free : list nat).

Definition with_next (v : option nat) (e : entry P) : entry P := Entry v (previous e) (it e).
Definition with_previous (v : option nat) (e : entry P) : entry P := Entry (next e) v (it e).
Definition with_item (x : item P) (e : entry P) : entry P := Entry (next e) (previous e) x.

Lemma upd_alter c p f : (p < length (entries c))%nat -> upd c p f = Some (set_entries c (alter f p (entries c))).
Proof.
  intros [e He]%lookup_lt_is_Some_2. unfold upd. rewrite He. cbn. do 2 f_equal.
  apply list_eq. intros i. destruct (decide (p = i)) as [<-|].
  - rewrite list_lookup_insert_eq by (by apply lookup_lt_Some in He). by rewrite list_lookup_alter_eq, He.
  - by rewrite list_lookup_insert_ne, list_lookup_alter_ne.
Qed.

Definition item_at es (p : nat) : option (item P) := it <$> es !! p.

Lemma item_at_alter es p f q : (forall e, it (f e) = it e) -> item_at (alter f p es) q = item_at es q.
Proof.
  intros Hf. unfold item_at. destruct (decide (q = p)) as [->|].
  - rewrite list_lookup_alter_eq. destruct (es !! p); [|done]. cbn. by rewrite Hf.
  - by rewrite list_lookup_alter_ne.
Qed.

(** The doubly linked list of the entries [lru], and the free list. *)
Record lists_ok c lru free : Prop := {
  lo_nodup : NoDup (lru ++ free);
  lo_len : length (lru ++ free) = length (entries c);
  lo_range : Forall (fun p => (p < length (entries c))%nat) (lru ++ free);
  lo_next : seg next (entries c) lru None;
  lo_prev : seg previous (entries c) (reverse lru) None;
  lo_free : seg next (entries c) free None;
  lo_mr : most_recent_entry c = head lru;
  lo_old : oldest_entry c = last lru;
  lo_fe : free_entry c = head free }.

Lemma head_head_or (l : list nat) : head l = head_or l None.
Proof. by destruct l. Qed.

Lemma head_or_reverse (l : list nat) : head_or (reverse l) None = last l.
Proof. destruct l as [|q l _] using rev_ind; [done|]. by rewrite reverse_snoc, last_snoc. Qed.

Lemma last_reverse_or (l : list nat) : last (reverse l) = head l.
Proof. destruct l; [done|]. by rewrite reverse_cons, last_snoc. Qed.

(** Taking an entry out of the list: its successor and its predecessor are linked. *)
Lemma unlink es l1 p l2 : NoDup (l1 ++ p :: l2) -> seg next es (l1 ++ p :: l2) None -> seg previous es (reverse (l1 ++ p :: l2)) None ->
  let es' := alter_last (with_previous (last l1)) (reverse l2) (alter_last (with_next (head l2)) l1 es) in
  seg next es' (l1 ++ l2) None /\ seg previous es' (reverse (l1 ++ l2)) None /\ length es' = length es /\
  (forall q, item_at es' q = item_at es q) /\ forall q, q ∉ l1 ++ l2 -> es' !! q = es !! q.
Proof.
  intros Hnd Hn Hp es'.
  assert (forall f l es, (forall e, next (f e) = next e) -> forall l', seg next es l' None -> seg next (alter_last f l es) l' None) as Hsn.
  { intros f l es0 Hf l' H. unfold alter_last. destruct (last l); [by apply seg_alter_same | done]. }
  assert (forall f l es, (forall e, previous (f e) = previous e) -> forall l', seg previous es l' None -> seg previous (alter_last f l es) l' None) as Hsp.
  { intros f l es0 Hf l' H. unfold alter_last. destruct (last l); [by apply seg_alter_same | done]. }
  unfold es'. split; [|split].
  - apply Hsn; [done|]. apply (seg_unlink next _ _ p); [done | intros e; by rewrite <-head_head_or | done].
  - rewrite reverse_app in *. rewrite reverse_cons, <-app_assoc in Hp. cbn in Hp. apply (seg_unlink previous _ _ p).
    + by rewrite !reverse_Permutation, <-Permutation_middle, (Permutation_app_comm l2 l1), Permutation_middle.
    + intros e. by rewrite head_or_reverse.
    + by apply Hsp.
  - unfold alter_last. rewrite last_reverse_or. repeat split.
    + destruct (head l2), (last l1); by rewrite ?length_alter.
    + intros q. destruct (head l2), (last l1); by rewrite ?item_at_alter.
    + intros q Hq. destruct (head l2) as [n|] eqn:E2, (last l1) as [m|] eqn:E1; try done.
      all: repeat (rewrite list_lookup_alter_ne; [|intros ->; apply Hq, elem_of_app]); try done.
      all: first [left; by apply last_Some_elem_of | right; by apply head_Some_elem_of].
Qed.

(** Putting an entry in front. *)
Lemma push es (p : nat) (lru : list nat) : (p < length es)%nat -> p ∉ lru -> NoDup lru -> seg next es lru None -> seg previous es (reverse lru) None ->
  let es' := alter_last (with_previous (Some p)) (reverse lru) (alter (with_previous None) p (alter (with_next (head lru)) p es)) in
  seg next es' (p :: lru) None /\ seg previous es' (reverse (p :: lru)) None /\ length es' = length es /\
  (forall q, item_at es' q = item_at es q) /\ forall q, q ∉ p :: lru -> es' !! q = es !! q.
Proof.
  intros [e He]%lookup_lt_is_Some_2 Hp Hnd Hn Hpr es'.
  assert (forall q, q ∉ p :: lru -> es' !! q = es !! q) as Hother.
  { intros q Hq. unfold es', alter_last. rewrite last_reverse_or.
    assert (q <> p) by (intros ->; apply Hq; by left). destruct (head lru) as [m|] eqn:Em; [rewrite list_lookup_alter_ne; [|intros ->; apply Hq; right; by apply head_Some_elem_of]|];
      by rewrite !list_lookup_alter_ne. }
  split; [|split; [|split; [|split; [|done]]]].
  - unfold es', alter_last. rewrite last_reverse_or.
    assert (seg next (alter (with_previous None) p (alter (with_next (head lru)) p es)) (p :: lru) None) as H.
    { apply seg_alter_same; [done|]. eapply path_cons; [by rewrite list_lookup_alter_eq, He | by rewrite <-head_head_or | by apply seg_alter_notin]. }
    destruct (head lru); [by apply seg_alter_same | done].
  - rewrite reverse_cons. apply path_app. cbn [head_or]. 
    assert (seg previous (alter (with_previous None) p (alter (with_next (head lru)) p es)) (reverse lru) None) as H.
    { apply seg_alter_notin; [by rewrite elem_of_reverse|]. by apply seg_alter_same. }
    destruct lru as [|m t].
    + split; [done|]. cbn. by rewrite !list_lookup_alter_eq, He.
    + unfold es', alter_last. rewrite last_reverse_or. cbn [head]. rewrite reverse_cons in H |- *. split.
      * apply (seg_alter_last _ _ _ _ None); [by rewrite <-reverse_cons, reverse_Permutation | done | done].
      * cbn. rewrite list_lookup_alter_ne by (intros ->; apply Hp; by left). by rewrite !list_lookup_alter_eq, He.
  - unfold es', alter_last. rewrite last_reverse_or. destruct (head lru); by rewrite !length_alter.
  - intros q. unfold es', alter_last. rewrite last_reverse_or. destruct (head lru); by rewrite !item_at_alter.
Qed.

Lemma set_next_ok c (p : nat) v : (p < length (entries c))%nat -> set_next c p v = Some (set_entries c (alter (with_next v) p (entries c))).
Proof. apply upd_alter. Qed.
Lemma set_previous_ok c (p : nat) v : (p < length (entries c))%nat -> set_previous c p v = Some (set_entries c (alter (with_previous v) p (entries c))).
Proof. apply upd_alter. Qed.
Lemma set_item_ok c (p : nat) x : (p < length (entries c))%nat -> set_item c p x = Some (set_entries c (alter (with_item x) p (entries c))).
Proof. apply upd_alter. Qed.

(** The part of the cache that the list operations leave alone. *)
Definition same_index c c' : Prop :=
  free_hash c' = free_hash c /\ first_hash c' = first_hash c /\ use_hash c' = use_hash c /\ links c' = links c /\
  length (entries c') = length (entries c).

Lemma same_index_refl c : same_index c c.
Proof. done. Qed.

Lemma lists_range c lru free (p : nat) : lists_ok c lru free -> p ∈ lru ++ free -> (p < length (entries c))%nat.
Proof. intros H Hp. pose proof (lo_range _ _ _ H) as Hr. rewrite Forall_forall in Hr. by apply Hr. Qed.

(** An entry of the list, and its neighbours. *)
Lemma lists_entry c l1 p l2 free : lists_ok c (l1 ++ p :: l2) free ->
  exists e, entries c !! p = Some e /\ next e = head l2 /\ previous e = last l1.
Proof.
  intros H. destruct (seg_lookup _ _ _ _ _ _ (lo_next _ _ _ H)) as (e & He & Hn). exists e. split; [done|].
  pose proof (lo_prev _ _ _ H) as Hp. rewrite reverse_app, reverse_cons, <-app_assoc in Hp. cbn in Hp.
  destruct (seg_lookup _ _ _ _ _ _ Hp) as (e' & He' & Hp'). rewrite He in He'. injection He' as <-.
  split; [by rewrite Hn, head_head_or | by rewrite Hp', head_or_reverse].
Qed.

Lemma head_app_ne {A} (l1 l2 : list A) : l1 <> [] -> head (l1 ++ l2) = head l1.
Proof. by destruct l1. Qed.

Lemma last_app_cons {A} (l1 : list A) x l2 : last (l1 ++ x :: l2) = last (x :: l2).
Proof. induction l1 as [|y l1 IH]; [done|]. cbn [app]. rewrite <-IH. by destruct l1. Qed.

(** Both list operations on the entries of a list. *)
Lemma relink es l1 (p : nat) l2 : (p < length es)%nat -> NoDup (l1 ++ p :: l2) ->
  seg next es (l1 ++ p :: l2) None -> seg previous es (reverse (l1 ++ p :: l2)) None ->
  let es1 := alter_last (with_previous (last l1)) (reverse l2) (alter_last (with_next (head l2)) l1 es) in
  let es2 := alter_last (with_previous (Some p)) (reverse (l1 ++ l2)) (alter (with_previous None) p (alter (with_next (head (l1 ++ l2))) p es1)) in
  seg next es2 (p :: l1 ++ l2) None /\ seg previous es2 (reverse (p :: l1 ++ l2)) None /\ length es2 = length es /\
  (forall q, item_at es2 q = item_at es q) /\ forall q, q ∉ p :: l1 ++ l2 -> es2 !! q = es !! q.
Proof.
  intros Hp Hnd Hn Hpr es1 es2. destruct (unlink es l1 p l2 Hnd Hn Hpr) as (U1 & U2 & U3 & U4 & U5). fold es1 in U1, U2, U3, U4, U5.
  rewrite <-Permutation_middle in Hnd. apply NoDup_cons in Hnd as [Hnp Hnd].
  destruct (push es1 p (l1 ++ l2)) as (V1 & V2 & V3 & V4 & V5); [by rewrite U3 | done.. |]. fold es2 in V1, V2, V3, V4, V5.
  split_and!; [done | done | congruence | intros q; by rewrite V4, U4 |].
  intros q Hq. rewrite V5 by done. apply U5. intros H. apply Hq. by right.
Qed.

Lemma move_to_front_ok c l1 p l2 free : lists_ok c (l1 ++ p :: l2) free ->
  exists c', move_to_front c p = Some c' /\ lists_ok c' (p :: l1 ++ l2) free /\ same_index c c' /\
    (forall q, item_at (entries c') q = item_at (entries c) q) /\ freed c' = freed c.
Proof.
  intros H. destruct (lists_entry _ _ _ _ _ H) as (e & He & Hen & Hep). unfold move_to_front. rewrite He. cbn [mbind option_bind].
  rewrite Hep, Hen. destruct (last l1) as [q|] eqn:Eq; [|apply last_None in Eq as ->; by exists c].
  assert (forall x, x ∈ l1 ++ p :: l2 -> (x < length (entries c))%nat) as Hr by (intros x Hx; apply (lists_range c (l1 ++ p :: l2) free); [done | apply elem_of_app; by left]).
  assert (p < length (entries c))%nat as Hpl by (apply Hr, elem_of_app; right; by left).
  assert (q ∈ l1) as Hql by (by apply last_Some_elem_of).
  assert (l1 <> []) as Hne by (by intros ->). destruct (head l1) as [mr|] eqn:Em; [|by destruct l1].
  destruct H as [H1 H2 H3 H4 H5 H6 H7 H8 H9]. pose proof H1 as (Hnd & _ & _)%NoDup_app.
  destruct (relink (entries c) l1 p l2) as (R1 & R2 & R3 & R4 & R5); [done..|].
  rewrite set_next_ok by (apply Hr, elem_of_app; by left). cbn [mbind option_bind].
  set (c2 := match head l2 with Some n => set_previous _ n (Some q) | None => _ end).
  assert (exists mr0, c2 = Some (set_lru (set_entries c (alter_last (with_previous (last l1)) (reverse l2) (alter_last (with_next (head l2)) l1 (entries c))))
    mr0 (last (l1 ++ l2))) /\ mr0 = most_recent_entry c) as (mr0 & -> & ->).
  { unfold c2, alter_last. rewrite last_reverse_or, Eq. exists (most_recent_entry c). split; [|done]. destruct l2 as [|n l2'].
    - by rewrite app_nil_r, Eq.
    - cbn [head]. rewrite set_previous_ok by (cbn; rewrite length_alter; apply Hr, elem_of_app; right; right; by left).
      cbn. destruct c; cbn in *. do 2 f_equal. rewrite H8, !last_app_cons. by destruct l2'. }
  cbn [mbind option_bind]. cbn [set_lru set_entries most_recent_entry].
  assert (most_recent_entry c = Some mr) as Hmr by (by rewrite H7, head_app_ne). assert (head (l1 ++ l2) = Some mr) as Hhd by (by rewrite head_app_ne).
  set (es1 := alter_last (with_previous (last l1)) (reverse l2) _) in *.
  assert (length es1 = length (entries c)) as L1 by (unfold es1, alter_last; destruct (last (reverse l2)), (last l1); by rewrite ?length_alter).
  rewrite set_next_ok by (cbn; lia). cbn [mbind option_bind set_entries set_lru entries]. rewrite set_previous_ok by (cbn; rewrite length_alter; lia).
  cbn [mbind option_bind set_entries set_lru entries most_recent_entry]. rewrite Hmr. cbn [mbind option_bind].
  rewrite set_previous_ok by (cbn; rewrite !length_alter, L1; apply Hr, elem_of_app; left; by apply head_Some_elem_of).
  cbn [mbind option_bind set_entries set_lru entries most_recent_entry oldest_entry]. eexists. split; [done|].
  unfold alter_last in R1, R2, R3, R4, R5 at 1. rewrite last_reverse_or, Hhd in R1, R2, R3, R4, R5. fold es1 in R1, R2, R3, R4, R5.
  assert (forall x, x ∈ free -> x ∉ p :: l1 ++ l2) as Hfree.
  { intros x Hx Hx'. apply NoDup_app in H1 as (_ & Hd & _). apply (Hd x); [|done]. by rewrite <-Permutation_middle. }
  split; [|split; [done | split; done]]. split; cbn; try done.
  - by rewrite app_comm_cons, Permutation_middle.
  - rewrite R3, <-H2, !length_app. cbn [length]. lia.
  - by rewrite R3, app_comm_cons, Permutation_middle.
  - eapply seg_frame; [|done]. intros x Hx. by rewrite R5 by by apply Hfree.
  - destruct (l1 ++ l2) eqn:E; [by apply app_nil in E as [-> _] | done].
Qed.

Local Ltac cache_cbn := unfold set_lru, set_entries, set_free, set_hash, set_stats in *;
  cbn [most_recent_entry oldest_entry free_entry free_hash first_hash use_hash reads writes hits entries links freed] in *.

(** The list writes of do_invalidate. *)
Lemma unlink_writes c l1 p l2 free : lists_ok c (l1 ++ p :: l2) free ->
  let es1 := alter_last (with_previous (last l1)) (reverse l2) (alter_last (with_next (head l2)) l1 (entries c)) in
  (c1 ← (match head l2 with Some n => set_previous c n (last l1) | None => Some (set_lru c (most_recent_entry c) (last l1)) end);
   match last l1 with Some q => set_next c1 q (head l2) | None => Some (set_lru c1 (head l2) (oldest_entry c1)) end)
    = Some (set_lru (set_entries c es1) (head (l1 ++ l2)) (last (l1 ++ l2))).
Proof.
  intros H es1.
  assert (forall x, x ∈ l1 ++ p :: l2 -> (x < length (entries c))%nat) as Hr by (intros y Hy; apply (lists_range c (l1 ++ p :: l2) free); [done | apply elem_of_app; by left]).
  destruct H as [H1 H2 H3 H4 H5 H6 H7 H8 H9]. pose proof H1 as (Hnd & _ & _)%NoDup_app.
  unfold es1, alter_last. rewrite last_reverse_or. destruct (head l2) as [n|] eqn:En, (last l1) as [q|] eqn:Eq.
  - assert (n ∈ l2) as Hn by by apply head_Some_elem_of. assert (q ∈ l1) as Hq by by apply last_Some_elem_of.
    assert (n <> q) as Hnq. { intros ->. apply NoDup_app in Hnd as (_ & Hd & _). apply (Hd q Hq). by right. }
    assert (l1 <> []) by (by intros ->).
    rewrite set_previous_ok by (apply Hr, elem_of_app; right; by right). cbn [mbind option_bind].
    rewrite set_next_ok by (cbn; rewrite length_alter; apply Hr, elem_of_app; by left).
    destruct c; cache_cbn. do 2 f_equal; [by rewrite H7, !head_app_ne | | by rewrite list_alter_alter_ne by done].
    rewrite H8. destruct l2; [done|]. by rewrite !last_app_cons.
  - apply last_None in Eq as ->. assert (n ∈ l2) as Hn by by apply head_Some_elem_of.
    rewrite set_previous_ok by (apply Hr, elem_of_app; right; by right). cbn [mbind option_bind app].
    destruct c; cache_cbn. rewrite H8, En. do 2 f_equal. by destruct l2.
  - apply head_None in En as ->. assert (q ∈ l1) as Hq by by apply last_Some_elem_of. assert (l1 <> []) by (by intros ->).
    cbn [mbind option_bind]. rewrite set_next_ok by (cbn; apply Hr, elem_of_app; by left). rewrite app_nil_r, Eq.
    destruct c; cache_cbn. by rewrite H7, head_app_ne.
  - apply last_None in Eq as ->. apply head_None in En as ->. by destruct c.
Qed.

(** The entry of an item leaves the list for the free list. *)
Lemma do_invalidate_ok dofree c l1 p l2 free x flag : lists_ok c (l1 ++ p :: l2) free -> item_at (entries c) p = Some x ->
  exists c', do_invalidate dofree c p flag = Some c' /\ lists_ok c' (l1 ++ l2) (p :: free) /\ same_index c c' /\
    (forall q, q <> p -> item_at (entries c') q = item_at (entries c) q) /\
    freed c' = freed c ++ (if flag && dofree then [x] else []).
Proof.
  intros H Hx. destruct (lists_entry _ _ _ _ _ H) as (e & He & Hen & Hep). unfold do_invalidate. rewrite He. cbn [mbind option_bind].
  unfold item_at in Hx. rewrite He in Hx. injection Hx as Hx. rewrite Hx, Hen, Hep.
  set (c0 := if flag && dofree then add_freed c x else c).
  assert (lists_ok c0 (l1 ++ p :: l2) free) as H0 by (unfold c0; destruct (flag && dofree); [by destruct H; split | done]).
  assert (entries c0 = entries c /\ same_index c c0 /\ free_entry c0 = free_entry c /\ freed c0 = freed c ++ (if flag && dofree then [x] else []))
    as (E1 & E2 & E3 & E4) by (unfold c0; destruct (flag && dofree); split_and!; rewrite ?app_nil_r; done).
  clearbody c0. pose proof (unlink_writes _ _ _ _ _ H0) as Hw. rewrite E1 in Hw. cbn zeta in Hw.
  destruct (match head l2 with Some n => set_previous c0 n (last l1) | None => _ end) as [c1|]; [|done]. cbn [mbind option_bind] in *. rewrite Hw.
  clear c1 Hw. cbn [mbind option_bind]. destruct H as [H1 H2 H3 H4 H5 H6 H7 H8 H9]. pose proof H1 as (Hnd & Hdis & _)%NoDup_app.
  destruct (unlink (entries c) l1 p l2) as (U1 & U2 & U3 & U4 & U5); [done..|]. set (es1 := alter_last (with_previous (last l1)) _ _) in *.
  assert (p < length (entries c))%nat as Hpl by (by apply lookup_lt_Some in He).
  rewrite set_next_ok by (cbn; lia). cbn [mbind option_bind]. rewrite set_item_ok by (cbn; rewrite length_alter; lia).
  cache_cbn. eexists. split; [done|]. rewrite <-Permutation_middle in Hnd. apply NoDup_cons in Hnd as [Hpn Hnd].
  assert (forall q, q ∈ free -> q <> p) as Hfp by (intros q Hq ->; apply (Hdis p); [apply elem_of_app; right; by left | done]).
  split; [|split; [|split]].
  - split; cache_cbn; try done.
    + by rewrite <-Permutation_middle, app_comm_cons, Permutation_middle.
    + rewrite !length_alter, U3, <-H2, !length_app. cbn [length]. lia.
    + by rewrite !length_alter, U3, <-Permutation_middle, app_comm_cons, Permutation_middle.
    + apply seg_alter_same; [done|]. by apply seg_alter_notin.
    + apply seg_alter_same; [done|]. by apply seg_alter_same.
    + eapply path_cons; [by rewrite !list_lookup_alter_eq, U5, He by done | cbn; by rewrite E3, H9, <-head_head_or |].
      eapply seg_frame; [|done]. intros q Hq. rewrite !list_lookup_alter_ne by (by intros ->; apply (Hfp _ Hq)).
      rewrite U5; [done|]. intros Hq'. apply (Hdis q); [|done]. rewrite elem_of_app in *. rewrite elem_of_cons. tauto.
  - unfold same_index in *. cache_cbn. rewrite !length_alter, U3. rewrite E1 in E2. tauto.
  - intros q Hq. unfold item_at; cbn [entries]. rewrite !list_lookup_alter_ne by done. apply U4.
  - done.
Qed.
End lists.

(** ** The hash index *)

Lemma concat_insert {A} (ls : list (list A)) h l l' : ls !! h = Some l ->
  exists a b, concat ls = a ++ l ++ b /\ concat (<[h := l']> ls) = a ++ l' ++ b.
Proof.
  intros Hl. pose proof (lookup_lt_Some _ _ _ Hl). exists (concat (take h ls)), (concat (drop (S h) ls)). split.
  - rewrite <-(take_drop_middle _ _ _ Hl) at 1. by rewrite concat_app.
  - rewrite insert_take_drop by done. by rewrite concat_app.
Qed.

Lemma in_concat_lookup {A} (ls : list (list A)) x : x ∈ concat ls <-> exists h l, ls !! h = Some l /\ x ∈ l.
Proof.
  induction ls as [|l ls IH]; cbn.
  - split; [by intros ?%not_elem_of_nil | by intros (h & l & ? & _)].
  - rewrite elem_of_app, IH. split.
    + intros [H|(h & l' & H1 & H2)]; [by exists 0%nat, l | by exists (S h), l'].
    + intros ([|h] & l' & H1 & H2); [injection H1 as ->; by left | right; by exists h, l'].
Qed.

Lemma concat_disjoint {A} (ls : list (list A)) i j l l' x : NoDup (concat ls) -> ls !! i = Some l -> ls !! j = Some l' -> x ∈ l -> x ∈ l' -> i = j.
Proof.
  revert i j; induction ls as [|k ls IH]; intros i j Hnd Hi Hj Hx Hx'; [done|]. cbn in Hnd. apply NoDup_app in Hnd as (Hk & Hd & Hnd).
  destruct i as [|i], j as [|j]; cbn in *; try done; [injection Hi as -> | injection Hj as -> | f_equal; by eapply IH];
    exfalso; eapply Hd; try done; apply in_concat_lookup; eauto.
Qed.

Section index.
Context {P : Type} (dohash : item P -> Z).
Implicit Types (c : cache P) (ls : list hash_entry) (lru : list nat).

Definition with_h_next (v : option nat) (x : hash_entry) : hash_entry := Link v (h_entry x).

(** The entry a link leads to. *)
Definition entry_of ls (x : nat) : nat := match ls !! x with Some l => h_entry l | None => 0%nat end.

(** Each entry of [lru] has one link, in the chain of its hash; the other links
    are free. *)
Record index_ok c lru (chains : list (list nat)) (fl : list nat) : Prop := {
  ix_len : length (first_hash c) = length chains;
  ix_first : forall h l, chains !! h = Some l -> first_hash c !! h = Some (head l);
  ix_seg : forall h l, chains !! h = Some l -> seg h_next (links c) l None;
  ix_free : seg h_next (links c) fl None;
  ix_fh : free_hash c = head fl;
  ix_nodup : NoDup (concat chains ++ fl);
  ix_count : length (concat chains ++ fl) = length (links c);
  ix_ent : (entry_of (links c) <$> concat chains) ≡ₚ lru;
  ix_hash : forall h l x, chains !! h = Some l -> x ∈ l ->
    exists y, item_at (entries c) (entry_of (links c) x) = Some y /\ dohash y = Z.of_nat h }.

Lemma index_perm c lru lru' chains fl : lru ≡ₚ lru' -> index_ok c lru chains fl -> index_ok c lru' chains fl.
Proof. intros Hp []. split; try done. by rewrite ix_ent0. Qed.

(** Only the links, and the hashes of the entries in use, matter. *)
Lemma index_frame c c' lru chains fl : index_ok c lru chains fl -> same_index c c' ->
  (forall q, q ∈ lru -> item_at (entries c') q = item_at (entries c) q) -> index_ok c' lru chains fl.
Proof.
  intros [] (E1 & E2 & E3 & E4 & E5) Hi. split; rewrite ?E1, ?E2, ?E4; try done.
  intros h l x Hl Hx. destruct (ix_hash0 h l x Hl Hx) as (y & Hy & Hh). exists y. split; [|done]. rewrite Hi; [done|].
  rewrite <-ix_ent0. apply list_elem_of_fmap. exists x. split; [done|]. apply in_concat_lookup. eauto.
Qed.

Lemma entry_of_alter ls x v q : entry_of (alter (with_h_next v) x ls) q = entry_of ls q.
Proof.
  unfold entry_of. destruct (decide (q = x)) as [->|]; [rewrite list_lookup_alter_eq; by destruct (ls !! x) | by rewrite list_lookup_alter_ne].
Qed.

Lemma set_h_next_ok ls x v : (x < length ls)%nat -> set_h_next ls x v = Some (alter (with_h_next v) x ls).
Proof.
  intros [l Hl]%lookup_lt_is_Some_2. unfold set_h_next. rewrite Hl. cbn. f_equal.
  apply list_eq. intros i. destruct (decide (x = i)) as [<-|].
  - rewrite list_lookup_insert_eq by (by apply lookup_lt_Some in Hl). by rewrite list_lookup_alter_eq, Hl.
  - by rewrite list_lookup_insert_ne, list_lookup_alter_ne.
Qed.

Lemma zget_lookup {A} (l : list A) (h : nat) : l.[Z.of_nat h] = l !! h.
Proof. apply zget_nat. Qed.

Lemma index_link c lru chains fl p : index_ok c lru chains fl -> p ∈ lru ->
  exists h a x b y, chains !! h = Some (a ++ x :: b) /\ entry_of (links c) x = p /\ item_at (entries c) p = Some y /\ dohash y = Z.of_nat h.
Proof.
  intros H Hp. rewrite <-(ix_ent _ _ _ _ H) in Hp. apply list_elem_of_fmap in Hp as (x & -> & Hx).
  apply in_concat_lookup in Hx as (h & l & Hl & Hx). destruct (ix_hash _ _ _ _ H _ _ _ Hl Hx) as (y & Hy & Hh).
  apply list_elem_of_split in Hx as (a & b & ->). by exists h, a, x, b, y.
Qed.

(** Two links of the index lead to different entries. *)
Lemma index_inj c lru chains fl x x' : index_ok c lru chains fl -> NoDup lru -> x ∈ concat chains -> x' ∈ concat chains ->
  entry_of (links c) x = entry_of (links c) x' -> x = x'.
Proof.
  intros H Hnd Hx Hx' E. rewrite <-(ix_ent _ _ _ _ H) in Hnd.
  apply list_elem_of_lookup in Hx as (i & Hi), Hx' as (j & Hj).
  assert (i = j) as ->; [|congruence]. eapply NoDup_lookup; [exact Hnd | |]; rewrite list_lookup_fmap.
  - rewrite Hi. cbn. by rewrite E.
  - by rewrite Hj.
Qed.

Lemma find_link_ok ls a x b prev p fuel : seg h_next ls (a ++ x :: b) None -> (forall y, y ∈ a -> entry_of ls y <> p) -> entry_of ls x = p ->
  (length a < fuel)%nat ->
  find_link fuel ls (head (a ++ x :: b)) prev p = Some (Some x, match last a with Some q => Some q | None => prev end).
Proof.
  revert prev fuel; induction a as [|q a IH]; intros prev [|fuel] Hs Ha Hx Hf; cbn [length] in Hf; try lia; cbn [app head find_link].
  - destruct Hs as [Hs _]. unfold entry_of in Hx. destruct (ls !! x) as [l|]; [|done]. cbn [mbind option_bind].
    by rewrite (proj2 (Nat.eqb_eq _ _) Hx).
  - destruct Hs as [Hs1 Hs2]. specialize (Ha q ltac:(by left)) as Hq. unfold entry_of in Hq. destruct (ls !! q) as [l|] eqn:El; [|done]. cbn [mbind option_bind].
    rewrite (proj2 (Nat.eqb_neq _ _) Hq). cbn in Hs1. injection Hs1 as Hs1. rewrite Hs1, <-head_head_or.
    rewrite IH; [|done | intros y Hy; apply Ha; by right | done | lia]. destruct a as [|z a _] using rev_ind; [done|]. by rewrite app_comm_cons, !last_snoc.
Qed.
Lemma entry_of_alter_last ls a v q : entry_of (alter_last (with_h_next v) a ls) q = entry_of ls q.
Proof. unfold alter_last. destruct (last a); [apply entry_of_alter | done]. Qed.

Lemma seg_alter_last_notin {N} (nxt : N -> option nat) mem f a l nx : (forall q, q ∈ a -> q ∉ l) -> seg nxt mem l nx -> seg nxt (alter_last f a mem) l nx.
Proof.
  intros Ha. unfold alter_last. destruct (last a) as [q|] eqn:E; [|done]. apply seg_alter_notin. apply Ha. by apply last_Some_elem_of.
Qed.

(** The lists are left alone. *)
Definition same_lists c c' : Prop :=
  most_recent_entry c' = most_recent_entry c /\ oldest_entry c' = oldest_entry c /\ free_entry c' = free_entry c /\
  entries c' = entries c /\ freed c' = freed c /\ use_hash c' = use_hash c /\ length (links c') = length (links c).

(** The index after link [x] is taken out of chain [h]. *)
Lemma index_drop c lru lru' chains fl h a x b first : index_ok c lru chains fl -> chains !! h = Some (a ++ x :: b) ->
  lru ≡ₚ entry_of (links c) x :: lru' ->
  length first = length chains -> first !! h = Some (head (a ++ b)) -> (forall k, k <> h -> first !! k = first_hash c !! k) ->
  index_ok (set_hash c (Some x) first (alter (with_h_next (free_hash c)) x (alter_last (with_h_next (head b)) a (links c)))) lru'
    (<[h := a ++ b]> chains) (x :: fl).
Proof.
  intros [] Hh Hp Lf Hf1 Hf2. pose proof (lookup_lt_Some _ _ _ Hh) as Hlt.
  destruct (concat_insert chains h (a ++ x :: b) (a ++ b) Hh) as (c1 & c2 & E1 & E2).
  assert (x ∈ a ++ x :: b) as Hxin by (apply elem_of_app; right; by left).
  pose proof ix_nodup0 as (Hnd & Hd & _)%NoDup_app.
  assert (forall q, q ∈ a ++ x :: b -> q ∈ concat chains) as Hin by (intros q Hq; apply in_concat_lookup; eauto).
  assert (forall q, q ∈ a ++ x :: b -> q ∉ fl) as Hqf by (intros q Hq; by apply Hd, Hin).
  assert (concat chains ≡ₚ x :: concat (<[h := a ++ b]> chains)) as Hperm.
  { rewrite E1, E2, <-(Permutation_middle a b x). cbn. by rewrite <-Permutation_middle. }
  pose proof (ix_seg0 _ _ Hh) as Hseg. pose proof (proj1 (path_app h_next _ _ _ _) Hseg) as [_ [Hsx _]].
  assert (NoDup (a ++ x :: b)) as Hndl by (rewrite E1 in Hnd; apply NoDup_app in Hnd as (_ & _ & Hnd); by apply NoDup_app in Hnd as [Hnd _]).
  set (ls1 := alter_last _ a (links c)).
  assert (forall l, (forall q, q ∈ a ++ x :: b -> q ∉ l) -> forall nx, seg h_next (links c) l nx -> seg h_next (alter (with_h_next (free_hash c)) x ls1) l nx) as Hkeep.
  { intros l Hl nx Hs. apply seg_alter_notin; [by apply Hl|]. apply seg_alter_last_notin; [|done]. intros q Hq. apply Hl, elem_of_app. by left. }
  assert (length ls1 = length (links c)) as L1 by (unfold ls1, alter_last; destruct (last a); by rewrite ?length_alter).
  split; cbn [set_hash first_hash links free_hash entries].
  - by rewrite length_insert.
  - intros k l Hk. destruct (decide (k = h)) as [->|Hkh].
    + rewrite list_lookup_insert_eq in Hk by done. by injection Hk as <-.
    + rewrite list_lookup_insert_ne in Hk by done. rewrite Hf2 by done. by apply ix_first0.
  - intros k l Hk. destruct (decide (k = h)) as [->|Hkh].
    + rewrite list_lookup_insert_eq in Hk by done. injection Hk as <-. apply seg_alter_notin.
      { rewrite <-Permutation_middle in Hndl. by apply NoDup_cons in Hndl as [? _]. }
      apply (seg_unlink h_next _ _ x); [done | intros y; by rewrite <-head_head_or | done].
    + rewrite list_lookup_insert_ne in Hk by done. apply Hkeep; [|by apply (ix_seg0 k)].
      intros q Hq Hq'. apply Hkh. by eapply concat_disjoint.
  - destruct (links c !! x) as [lx|] eqn:Ex; [|done]. eapply path_cons.
    + rewrite list_lookup_alter_eq. unfold ls1, alter_last. destruct (last a) as [q|] eqn:Eq; [|by rewrite Ex].
      rewrite list_lookup_alter_ne; [by rewrite Ex|]. intros ->. apply NoDup_app in Hndl as (_ & Hn & _). apply (Hn x); [by apply last_Some_elem_of | by left].
    + cbn. by rewrite ix_fh0, <-head_head_or.
    + by apply Hkeep.
  - done.
  - by rewrite <-Permutation_middle, app_comm_cons, <-Hperm.
  - rewrite length_alter, L1, <-ix_count0. rewrite Hperm, !length_app. cbn [length]. lia.
  - apply (Permutation_cons_inv (a := entry_of (links c) x)). rewrite <-Hp, <-ix_ent0, Hperm. cbn. f_equiv.
    apply Permutation_refl'. apply list_fmap_ext. intros i q _. rewrite entry_of_alter. unfold ls1. by rewrite entry_of_alter_last.
  - intros k l q Hk Hq. rewrite entry_of_alter. unfold ls1. rewrite entry_of_alter_last. destruct (decide (k = h)) as [->|Hkh].
    + rewrite list_lookup_insert_eq in Hk by done. injection Hk as <-. apply (ix_hash0 h (a ++ x :: b)); [done|].
      rewrite elem_of_app in *. rewrite elem_of_cons. tauto.
    + rewrite list_lookup_insert_ne in Hk by done. by apply (ix_hash0 k l).
Qed.
Lemma drophashindex_ok c lru chains fl h a x b lru' : index_ok c lru chains fl -> NoDup lru -> use_hash c = true ->
  chains !! h = Some (a ++ x :: b) -> lru ≡ₚ entry_of (links c) x :: lru' ->
  exists c', drophashindex c (entry_of (links c) x) (Z.of_nat h) = Some c' /\ same_lists c c' /\
    index_ok c' lru' (<[h := a ++ b]> chains) (x :: fl) /\ (forall q, entry_of (links c') q = entry_of (links c) q).
Proof.
  intros H Hnd Hu Hh Hp. unfold drophashindex. rewrite Hu. pose proof (lookup_lt_Some _ _ _ Hh) as Hlt. pose proof (ix_len _ _ _ _ H) as Hlen.
  unfold zlen. rewrite (proj2 (Z.leb_le 0 (Z.of_nat h))), (proj2 (Z.ltb_lt _ _)) by lia. cbn [andb].
  rewrite zget_nat, (ix_first _ _ _ _ H _ _ Hh). cbn [mbind option_bind].
  pose proof (ix_seg _ _ _ _ H _ _ Hh) as Hseg.
  assert (forall q, q ∈ a ++ x :: b -> q ∈ concat chains) as Hin by (intros q Hq; apply in_concat_lookup; eauto).
  assert (forall q, q ∈ a ++ x :: b -> (q < length (links c))%nat) as Hr.
  { intros q Hq. destruct (seg_in _ _ _ _ _ Hseg Hq) as [l Hl]. by apply lookup_lt_Some in Hl. }
  assert (NoDup (a ++ x :: b)) as Hndl.
  { pose proof (ix_nodup _ _ _ _ H) as (Hn & _ & _)%NoDup_app. destruct (concat_insert chains h _ [] Hh) as (c1 & c2 & E1 & _).
    rewrite E1 in Hn. apply NoDup_app in Hn as (_ & _ & Hn). by apply NoDup_app in Hn as [Hn _]. }
  rewrite (find_link_ok (links c) a x b None (entry_of (links c) x)); [|done| |done|].
  2: { intros y Hy E. pose proof (Hin y ltac:(apply elem_of_app; by left)) as Hy'. pose proof (Hin x ltac:(apply elem_of_app; right; by left)) as Hx'.
       rewrite (index_inj _ _ _ _ _ _ H Hnd Hy' Hx' E) in Hy. apply NoDup_app in Hndl as (_ & Hd & _). apply (Hd x Hy). by left. }
  2: { assert (length (a ++ x :: b) <= length (links c))%nat; [|rewrite length_app in *; lia].
       rewrite <-(ix_count _ _ _ _ H), length_app. destruct (concat_insert chains h _ [] Hh) as (c1 & c2 & E1 & _). rewrite E1, !length_app. cbn [length]. lia. }
  cbn [mbind option_bind]. destruct (seg_lookup _ _ _ _ _ _ Hseg) as (lx & Elx & Enx). rewrite <-head_head_or in Enx. rewrite Elx. cbn [mbind option_bind].
  rewrite Enx. destruct (last a) as [q|] eqn:Eq.
  - assert (q ∈ a) by by apply last_Some_elem_of.
    rewrite set_h_next_ok by (apply Hr, elem_of_app; by left). cbn [mbind option_bind set_hash links free_hash first_hash].
    rewrite set_h_next_ok by (rewrite length_alter; apply Hr, elem_of_app; right; by left). cbn [mbind option_bind]. eexists. split; [done|].
    split; [|split].
    + unfold same_lists. cbn. rewrite !length_alter. by split_and!.
    + pose proof (index_drop _ _ _ _ _ _ _ _ _ (first_hash c) H Hh Hp Hlen) as Hd. unfold alter_last in Hd. rewrite Eq in Hd.
      apply Hd; [|done]. rewrite (ix_first _ _ _ _ H _ _ Hh). by destruct a.
    + intros y. cbn [set_hash links]. by rewrite !entry_of_alter.
  - apply last_None in Eq as ->. rewrite zset_inside by (unfold zlen; lia). cbn [mbind option_bind set_hash links free_hash first_hash].
    rewrite set_h_next_ok by (apply Hr, elem_of_app; right; by left). cbn [mbind option_bind]. eexists. split; [done|]. rewrite Nat2Z.id.
    split; [|split].
    + unfold same_lists. cbn. rewrite !length_alter. by split_and!.
    + apply (index_drop _ _ _ _ _ _ [] x b _ H Hh Hp).
      * by rewrite length_insert.
      * cbn. by rewrite list_lookup_insert_eq by lia.
      * intros k Hk. by rewrite list_lookup_insert_ne by done.
    + intros y. cbn [set_hash links]. by rewrite !entry_of_alter.
Qed.

Lemma inserthashindex_ok c lru chains x fl p y : index_ok c lru chains (x :: fl) -> use_hash c = true ->
  item_at (entries c) p = Some y -> 0 <= dohash y < Z.of_nat (length chains) ->
  exists c' chains', inserthashindex dohash c p = Some c' /\ same_lists c c' /\ index_ok c' (p :: lru) chains' fl /\ length chains' = length chains.
Proof.
  intros H Hu Hy Hh. unfold inserthashindex. rewrite Hu. unfold item_at in Hy. destruct (entries c !! p) as [e|] eqn:Ee; [|done].
  cbn in Hy. injection Hy as Hy. cbn [mbind option_bind]. rewrite Hy. pose proof H as [I1 I2 I3 I4 I5 I6 I7 I8 I9].
  unfold zlen. rewrite (proj2 (Z.leb_le 0 (dohash y))), (proj2 (Z.ltb_lt _ _)) by lia. cbn [andb]. rewrite I5. cbn [head].
  destruct I4 as [Ix If]. destruct (links c !! x) as [l|] eqn:El; [|done]. cbn in Ix. injection Ix as Ix. cbn [mbind option_bind].
  set (h := Z.to_nat (dohash y)). assert (dohash y = Z.of_nat h) as Eh by lia. rewrite Eh.
  destruct (lookup_lt_is_Some_2 chains h) as [ch Hch]; [lia|]. rewrite zget_nat, (I2 _ _ Hch). cbn [mbind option_bind].
  rewrite zset_inside by (unfold zlen; lia). cbn [mbind option_bind]. rewrite Nat2Z.id.
  destruct (concat_insert chains h ch (x :: ch) Hch) as (c1 & c2 & E1 & E2).
  assert (concat (<[h := x :: ch]> chains) ≡ₚ x :: concat chains) as Hperm by (rewrite E1, E2; cbn; by rewrite <-Permutation_middle).
  assert (x ∉ concat chains ++ fl) as Hxn. { rewrite <-Permutation_middle in I6. by apply NoDup_cons in I6 as [? _]. }
  assert (forall q, q ∈ concat chains ++ fl -> <[x := Link (head ch) p]> (links c) !! q = links c !! q) as Hkeep.
  { intros q Hq. apply list_lookup_insert_ne. by intros ->. }
  assert (forall k l0, chains !! k = Some l0 -> forall q, q ∈ l0 -> q ∈ concat chains ++ fl) as Hin
    by (intros k l0 Hk q Hq; apply elem_of_app; left; apply in_concat_lookup; eauto).
  assert (x < length (links c))%nat as Hxl by (by apply lookup_lt_Some in El).
  eexists _, (<[h := x :: ch]> chains). split; [done|]. split; [|split; [|by rewrite length_insert]].
  { unfold same_lists. cbn. rewrite length_insert. by split_and!. }
  split; cbn [set_hash first_hash links free_hash entries].
  - by rewrite !length_insert.
  - intros k l0 Hk. destruct (decide (k = h)) as [->|Hkh].
    + rewrite list_lookup_insert_eq in Hk by lia. injection Hk as <-. by rewrite list_lookup_insert_eq by lia.
    + rewrite list_lookup_insert_ne in Hk by done. rewrite list_lookup_insert_ne by done. by apply I2.
  - intros k l0 Hk. destruct (decide (k = h)) as [->|Hkh].
    + rewrite list_lookup_insert_eq in Hk by lia. injection Hk as <-. eapply path_cons; [by rewrite list_lookup_insert_eq by done | cbn; by rewrite <-head_head_or |].
      eapply seg_frame; [|by apply (I3 h)]. intros q Hq. by rewrite Hkeep by (by apply (Hin h ch)).
    + rewrite list_lookup_insert_ne in Hk by done. eapply seg_frame; [|by apply (I3 k)]. intros q Hq. by rewrite Hkeep by (by apply (Hin k l0)).
  - eapply seg_frame; [|done]. intros q Hq. rewrite Hkeep; [done|]. apply elem_of_app. by right.
  - by rewrite Ix, <-head_head_or.
  - rewrite <-Permutation_middle in I6. by rewrite Hperm.
  - rewrite length_insert, <-I7, !length_app. rewrite Hperm. cbn [length]. lia.
  - rewrite Hperm. cbn. rewrite <-I8. unfold entry_of at 1. rewrite list_lookup_insert_eq by done. cbn. f_equiv.
    apply Permutation_refl'. apply list_fmap_ext. intros i q Hq. unfold entry_of. rewrite Hkeep; [done|]. apply elem_of_app. left. by eapply list_elem_of_lookup_2.
  - intros k l0 q Hk Hq. destruct (decide (q = x)) as [->|Hqx].
    + assert (k = h) as ->.
      { destruct (decide (k = h)) as [|Hkh]; [done|]. rewrite list_lookup_insert_ne in Hk by done. exfalso. apply Hxn. by apply (Hin k l0). }
      exists y. unfold entry_of. rewrite list_lookup_insert_eq by done. cbn. split; [|done]. unfold item_at. rewrite Ee. cbn. by rewrite Hy.
    + assert (exists l1, chains !! k = Some l1 /\ q ∈ l1) as (l1 & Hl1 & Hq1).
      { destruct (decide (k = h)) as [->|Hkh].
        - rewrite list_lookup_insert_eq in Hk by lia. injection Hk as <-. exists ch. split; [done|]. by apply elem_of_cons in Hq as [|].
        - rewrite list_lookup_insert_ne in Hk by done. by exists l0. }
      unfold entry_of. rewrite Hkeep by (by apply (Hin k l1)). by apply (I9 k l1).
Qed.
End index.

(** ** Entering an item *)

Section enter.
Context {P : Type} (dohash : item P -> Z) (dofree : bool).
Implicit Types (c : cache P) (lru free : list nat).

(** Entry [p] is in no list. *)
Record detached c (p : nat) lru free : Prop := {
  de_nodup : NoDup (p :: lru ++ free);
  de_len : length (p :: lru ++ free) = length (entries c);
  de_range : Forall (fun q => (q < length (entries c))%nat) (p :: lru ++ free);
  de_next : seg next (entries c) lru None;
  de_prev : seg previous (entries c) (reverse lru) None;
  de_free : seg next (entries c) free None;
  de_mr : most_recent_entry c = head lru;
  de_old : oldest_entry c = last (p :: lru);
  de_fe : free_entry c = head free }.

Lemma detached_keep c c' p lru free : detached c p lru free -> length (entries c') = length (entries c) ->
  (forall q, q <> p -> entries c' !! q = entries c !! q) -> most_recent_entry c' = most_recent_entry c ->
  oldest_entry c' = oldest_entry c -> free_entry c' = free_entry c -> detached c' p lru free.
Proof.
  intros [H1 H2 H3 H4 H5 H6 H7 H8 H9] Hl Hk E1 E2 E3. pose proof H1 as [Hp _]%NoDup_cons.
  assert (forall l, (forall q, q ∈ l -> q ∈ lru ++ free) -> forall nxt : entry P -> option nat, seg nxt (entries c) l None -> seg nxt (entries c') l None) as Hs.
  { intros l Hl' nxt. apply seg_frame. intros q Hq. rewrite Hk; [done|]. intros ->. by apply Hp, Hl'. }
  split; rewrite ?Hl, ?E1, ?E2, ?E3; try done; (apply Hs; [|done]); intros q; rewrite elem_of_app, ?elem_of_reverse; tauto.
Qed.

(** An entry of the free list, when there is one. *)
Lemma get_free c lru p free x mem : lists_ok c lru (p :: free) ->
  exists c', get_entry dohash dofree c x mem = Some (c', p) /\ detached c' p lru free /\ same_index c c' /\
    (forall q, q ∈ lru -> item_at (entries c') q = item_at (entries c) q) /\ freed c' = freed c /\
    exists e, entries c' !! p = Some e /\ variable (it e) = (if varsize x =? 0 then None else allocate mem (varsize x)) /\ varsize (it e) = varsize x.
Proof.
  intros [H1 H2 H3 H4 H5 H6 H7 H8 H9]. unfold get_entry. rewrite H9. cbn [head]. destruct H6 as [Hp Hf].
  destruct (entries c !! p) as [e|] eqn:Ee; [|done]. cbn in Hp. injection Hp as Hp. cbn [mbind option_bind].
  pose proof (lookup_lt_Some _ _ _ Ee) as Hpl. rewrite set_item_ok by (cbn; done). cbn [mbind option_bind].
  set (y := Item (payload (it e)) _ _). eexists. split; [done|].
  rewrite <-Permutation_middle in H1, H3. pose proof H1 as [Hpn _]%NoDup_cons.
  assert (forall l, (forall q, q ∈ l -> q ∈ lru ++ free) -> forall nxt : entry P -> option nat, seg nxt (entries c) l None ->
            seg nxt (alter (with_item y) p (entries c)) l None) as Hs.
  { intros l Hl' nxt. apply seg_alter_notin. intros Hin. by apply Hpn, Hl'. }
  split; [|split; [|split; [|split; [done|]]]].
  - split; cbn [set_lru set_entries set_free entries most_recent_entry oldest_entry free_entry]; rewrite ?length_alter; try done.
    + rewrite <-H2, !length_app. cbn [length]. rewrite length_app. lia.
    + apply Hs; [|done]. intros q. rewrite elem_of_app. tauto.
    + apply Hs; [|done]. intros q. rewrite elem_of_reverse, elem_of_app. tauto.
    + apply Hs; [|done]. intros q. rewrite elem_of_app. tauto.
    + rewrite H8. by destruct lru as [|q l _] using rev_ind; [|rewrite last_snoc, app_comm_cons, last_snoc].
  - unfold same_index. cbn. by rewrite length_alter.
  - intros q Hq. unfold item_at. cbn. rewrite list_lookup_alter_ne; [done|]. intros <-. apply Hpn, elem_of_app. by left.
  - cbn [set_lru set_entries set_free entries]. rewrite list_lookup_alter_eq, Ee. by eexists.
Qed.

(** Entry [p] becomes the most recent. *)
Lemma attach c p lru free : detached c p lru free ->
  exists c', link_first c p = Some c' /\
    lists_ok c' (p :: lru) free /\ same_index c c' /\ (forall q, item_at (entries c') q = item_at (entries c) q) /\ freed c' = freed c.
Proof.
  intros [H1 H2 H3 H4 H5 H6 H7 H8 H9]. pose proof H1 as [Hpn Hnd]%NoDup_cons. apply NoDup_app in Hnd as (Hnd & Hdis & _).
  assert (p < length (entries c))%nat as Hpl by by apply Forall_cons in H3 as [? _].
  destruct (push (entries c) p lru Hpl) as (V1 & V2 & V3 & V4 & V5); [intros Hp; apply Hpn, elem_of_app; by left | done..|].
  unfold link_first. rewrite set_next_ok by done. cbn [mbind option_bind]. rewrite set_previous_ok by (cbn; by rewrite length_alter). cbn [mbind option_bind set_entries most_recent_entry entries].
  rewrite H7. set (es2 := alter (with_previous None) p _) in *.
  assert (exists c2, (match head lru with Some mr => set_previous (set_entries (set_entries c (alter (with_next (head lru)) p (entries c))) es2) mr (Some p)
      | None => Some (set_entries (set_entries c (alter (with_next (head lru)) p (entries c))) es2) end) = Some c2 /\
      c2 = set_entries c (alter_last (with_previous (Some p)) (reverse lru) es2)) as (c2 & -> & ->).
  { unfold alter_last. rewrite last_reverse_or. destruct (head lru) as [mr|] eqn:Em; [|by eexists].
    rewrite set_previous_ok; [by eexists|]. cbn. unfold es2. rewrite !length_alter. rewrite Forall_forall in H3. apply H3. right.
    apply elem_of_app. left. by apply head_Some_elem_of. }
  cbn [mbind option_bind]. eexists. split; [done|]. set (es3 := alter_last _ _ es2) in *.
  split; [|split; [|split; [done | done]]].
  - split; cbn [set_lru set_entries entries most_recent_entry oldest_entry free_entry]; rewrite ?V3; try done.
    eapply seg_frame; [|done]. intros q Hq. rewrite V5; [done|]. rewrite elem_of_cons. intros [->|Hq'].
    + apply Hpn, elem_of_app. by right.
    + by apply (Hdis q).
  - unfold same_index. cbn. by rewrite V3.
Qed.

Context (hashed : bool) (nh : nat).

(** The index of the entries [lru], in a cache that is hashed. *)
Definition index_if c lru : Prop :=
  use_hash c = hashed /\
  (hashed = true -> length (links c) = length (entries c) /\ exists chains fl, index_ok dohash c lru chains fl /\ length chains = nh).

Lemma index_if_frame c c' lru : index_if c lru -> same_index c c' ->
  (forall q, q ∈ lru -> item_at (entries c') q = item_at (entries c) q) -> index_if c' lru.
Proof.
  intros [Hu Hi] Hs Hq. pose proof Hs as (_ & _ & E & El & Ee). split; [congruence|]. intros Hh. destruct (Hi Hh) as (Hl & ch & fl & Hx & Hn).
  split; [congruence|]. exists ch, fl. split; [by eapply index_frame | done].
Qed.

(** An entry is taken out of the index. *)
Lemma unhash c lru lru' p e : index_if c lru -> NoDup lru -> lru ≡ₚ p :: lru' -> entries c !! p = Some e ->
  exists c', (if use_hash c then drophashindex c p (dohash (it e)) else Some c) = Some c' /\ same_lists c c' /\ index_if c' lru'.
Proof.
  intros [Hu Hi] Hnd Hp He. rewrite Hu. destruct hashed eqn:Eh.
  - destruct (Hi eq_refl) as (Hl & ch & fl & Hx & Hn). destruct (index_link dohash _ _ _ _ p Hx) as (h & a & x & b & y & H1 & H2 & H3 & H4);
      [rewrite Hp; by left|]. unfold item_at in H3. rewrite He in H3. injection H3 as ->. rewrite H4, <-H2 in *.
    destruct (drophashindex_ok dohash _ _ _ _ _ _ _ _ lru' Hx Hnd Hu H1 Hp) as (c' & -> & Hs & Hx' & _).
    exists c'. split; [done|]. split; [done|]. destruct Hs as (_ & _ & _ & E1 & _ & E2 & E3).
    split; [congruence|]. intros _. split; [congruence|]. do 2 eexists. split; [done|]. by rewrite length_insert.
  - exists c. split_and!; [done | by unfold same_lists | split; [congruence|]]. intros Hh. congruence.
Qed.

(** The oldest entry, when there is no free one. *)
Lemma get_oldest c l1 p y x mem : l1 <> [] -> lists_ok c (l1 ++ [p]) [] -> index_if c (l1 ++ [p]) -> item_at (entries c) p = Some y ->
  exists c', get_entry dohash dofree c x mem = Some (c', p) /\ detached c' p l1 [] /\ index_if c' l1 /\
    length (entries c') = length (entries c) /\ (forall q, q ∈ l1 -> item_at (entries c') q = item_at (entries c) q) /\ freed c' = freed c ++ (if dofree then [y] else []) /\
    exists e, entries c' !! p = Some e /\ variable (it e) = (if varsize x =? 0 then None else allocate mem (varsize x)) /\ varsize (it e) = varsize x.
Proof.
  intros Hne H Hi Hy. destruct (lists_entry c l1 p [] [] H) as (e & He & Hen & Hep). unfold item_at in Hy. rewrite He in Hy. injection Hy as Hy.
  pose proof H as [H1 H2 H3 H4 H5 H6 H7 H8 H9]. rewrite app_nil_r in H1, H2, H3. unfold get_entry. rewrite H9, H8, last_snoc. cbn [head mbind option_bind].
  rewrite He. cbn [mbind option_bind]. rewrite Hep. destruct l1 as [|q l _] using rev_ind; [done|]. rewrite last_snoc. cbn [mbind option_bind].
  set (l1 := l ++ [q]) in *. pose proof H1 as (Hn1 & Hd & _)%NoDup_app.
  assert (q ∈ l1) as Hq1 by (apply elem_of_app; right; by left). assert (q <> p) as Hqp by (intros ->; apply (Hd p Hq1); by left).
  assert (p ∉ l1) as Hpn by (intros Hp; apply (Hd p Hp); by left).
  rewrite set_next_ok by (rewrite Forall_forall in H3; apply H3, elem_of_app; by left). cbn [mbind option_bind].
  set (c1 := set_entries c _). assert (entries c1 !! p = Some e) as He1 by (unfold c1; cbn; by rewrite list_lookup_alter_ne).
  assert (index_if c1 (l1 ++ [p])) as Hi1.
  { eapply index_if_frame; [done | |]; unfold c1, same_index; cbn; [by rewrite length_alter | intros z _; by apply item_at_alter]. }
  destruct (unhash c1 (l1 ++ [p]) l1 p e Hi1) as (c2 & -> & Hs & Hi2); [done | by rewrite Permutation_app_comm | done |].
  destruct Hs as (S1 & S2 & S3 & S4 & S5 & _ & _). cbn [mbind option_bind]. rewrite Hy.
  set (c3 := if dofree then add_freed c2 y else c2).
  assert (entries c3 = entries c1 /\ index_if c3 l1 /\ most_recent_entry c3 = most_recent_entry c /\ free_entry c3 = free_entry c /\
          freed c3 = freed c ++ (if dofree then [y] else [])) as (E1 & E2 & E3 & E4 & E5).
  { unfold c3. destruct dofree; cbn; split_and!; try done; [|by rewrite S5 | by rewrite app_nil_r].
    apply (index_if_frame c2); [done | done|]. intros; done. }
  clearbody c3. rewrite E1, He1. cbn [mbind option_bind].
  assert (p < length (entries c1))%nat as Hpl by by apply lookup_lt_Some in He1.
  rewrite set_item_ok by (cbn; by rewrite E1). cbn [mbind option_bind]. set (it' := Item (payload (it e)) _ _).
  eexists. split; [done|]. split_and!; cbn [set_lru set_entries entries freed].
  - split; cbn [set_lru set_entries entries most_recent_entry oldest_entry free_entry]; rewrite ?E1; rewrite ?length_alter; unfold c1;
      cbn [set_entries entries]; rewrite ?length_alter, ?app_nil_r.
    + by rewrite Permutation_cons_append.
    + rewrite <-H2, length_app. cbn. lia.
    + by rewrite Permutation_cons_append.
    + apply seg_alter_notin; [done|]. apply (seg_alter_last _ _ _ _ (Some p)); [done | done|]. by apply path_app in H4 as [? _].
    + apply seg_alter_notin; [by rewrite elem_of_reverse|]. apply seg_alter_same; [done|]. rewrite reverse_snoc in H5. by destruct H5.
    + done.
    + rewrite E3, H7. by apply head_app_ne.
    + rewrite Hep. by destruct l1.
    + congruence.
  - eapply index_if_frame; [done | |].
    + unfold same_index. cbn. by rewrite length_alter.
    + intros z Hz. unfold item_at. cbn. rewrite list_lookup_alter_ne; [done|]. by intros ->.
  - rewrite E1, length_alter. unfold c1. cbn. by rewrite length_alter.
  - intros z Hz. unfold item_at at 1. rewrite E1, list_lookup_alter_ne by (by intros ->). by apply item_at_alter.
  - done.
  - rewrite E1, list_lookup_alter_eq, He1. by eexists.
Qed.
End enter.
