(* ===== verification/CacheSpec.v ===== *)
(** The caches of libntfs-3g/cache.c refine lists of items with distinct keys,
    most recent first, of bounded length. *)

From S2P Require Import Prelude Cache CacheLru.
Local Open Scope Z_scope.
Local Open Scope c_scope.
Set Default Proof Using "Type*".

(** ** Lists of items *)

Section items.
Context {P : Type}.
Implicit Types (d : item P -> bool) (xs : list (item P)).

(** The first item that does not differ. *)
Definition position d xs : option nat := fst <$> list_find (fun y => d y = false) xs.

Lemma position_Some d xs i : position d xs = Some i ->
  exists xs1 y xs2, xs = xs1 ++ y :: xs2 /\ length xs1 = i /\ d y = false /\ Forall (fun z => d z = true) xs1.
Proof.
  unfold position. destruct (list_find _ xs) as [[j y]|] eqn:E; [|done]. cbn. intros [= ->].
  apply list_find_Some in E as (Hi & Hy & Hb). exists (take i xs), y, (drop (S i) xs).
  split; [by rewrite take_drop_middle|]. split; [apply length_take_le; apply lookup_lt_Some in Hi; lia|]. split; [done|].
  apply Forall_lookup. intros k z Hk. apply lookup_take_Some in Hk as [Hk Hlt]. specialize (Hb k z Hk Hlt). by destruct (d z).
Qed.

Lemma position_None d xs : position d xs = None -> Forall (fun z => d z = true) xs.
Proof.
  unfold position. destruct (list_find _ xs) as [|] eqn:E; [done|]. intros _. apply list_find_None in E.
  eapply Forall_impl; [exact E|]. intros z Hz. cbn in Hz. by destruct (d z).
Qed.

Lemma position_app d xs1 y xs2 : Forall (fun z => d z = true) xs1 -> d y = false -> position d (xs1 ++ y :: xs2) = Some (length xs1).
Proof.
  intros H Hy. unfold position. rewrite (proj2 (list_find_Some _ _ (length xs1) y)); [done|]. split_and!.
  - by rewrite list_lookup_middle.
  - done.
  - intros j z Hj Hlt. rewrite lookup_app_l in Hj by done. rewrite Forall_lookup in H. by rewrite (H _ _ Hj).
Qed.

Lemma position_none d xs : Forall (fun z => d z = true) xs -> position d xs = None.
Proof.
  intros H. unfold position. rewrite (proj2 (list_find_None _ _)); [done|]. eapply Forall_impl; [exact H|]. intros z Hz. cbn. by rewrite Hz.
Qed.

Lemma position_unique d xs i y : xs !! i = Some y -> d y = false -> (forall i j y z, xs !! i = Some y -> xs !! j = Some z -> d y = false -> d z = false -> i = j) ->
  position d xs = Some i.
Proof.
  intros Hi Hy Hu. destruct (position d xs) as [j|] eqn:E.
  - apply position_Some in E as (xs1 & z & xs2 & -> & <- & Hz & _). f_equal. eapply (Hu _ _ z y); [by rewrite list_lookup_middle | done..].
  - apply position_None in E. rewrite Forall_lookup in E. specialize (E _ _ Hi). cbn in E. congruence.
Qed.

(** The item found comes to the front. *)
Definition promote d xs : list (item P) * option (item P) :=
  match position d xs with Some i => (option_list (xs !! i) ++ delete i xs, xs !! i) | None => (xs, None) end.

(** The items that differ, and those that do not. *)
Definition kept d xs : list (item P) := filter (fun y => d y = true) xs.
Definition gone d xs : list (item P) := filter (fun y => d y = false) xs.

Lemma kept_cons d y xs : kept d (y :: xs) = (if d y then y :: kept d xs else kept d xs).
Proof. unfold kept. rewrite filter_cons. by destruct (d y). Qed.

Lemma gone_cons d y xs : gone d (y :: xs) = (if d y then gone d xs else y :: gone d xs).
Proof. unfold gone. rewrite filter_cons. by destruct (d y). Qed.

Lemma kept_all d xs : Forall (fun y => d y = true) xs -> kept d xs = xs /\ gone d xs = [].
Proof. induction 1 as [|y xs Hy H [IH1 IH2]]; [done|]. unfold kept, gone in *. rewrite !filter_cons, Hy. cbn. by rewrite IH1, IH2. Qed.

Lemma kept_one d xs1 y xs2 : Forall (fun z => d z = true) (xs1 ++ xs2) -> d y = false -> kept d (xs1 ++ y :: xs2) = xs1 ++ xs2 /\ gone d (xs1 ++ y :: xs2) = [y].
Proof.
  intros [H1 H2]%Forall_app Hy. unfold kept, gone. rewrite !filter_app, !filter_cons, Hy. cbn.
  destruct (kept_all _ _ H1) as [E1 E2], (kept_all _ _ H2) as [E3 E4]. unfold kept, gone in *. by rewrite E1, E2, E3, E4.
Qed.

Lemma others_kept d xs1 y xs2 : d y = false ->
  (forall i j z z', (xs1 ++ y :: xs2) !! i = Some z -> (xs1 ++ y :: xs2) !! j = Some z' -> d z = false -> d z' = false -> i = j) ->
  Forall (fun z => d z = true) (xs1 ++ xs2).
Proof.
  intros Hy Hu. assert (forall i z, i <> length xs1 -> (xs1 ++ y :: xs2) !! i = Some z -> d z = true) as Hz.
  { intros i z Hi Hz. destruct (d z) eqn:Ez; [done|]. exfalso. apply Hi. eapply (Hu _ _ z y); [done | by apply list_lookup_middle | done..]. }
  apply Forall_app. split; apply Forall_lookup; intros i z Hi.
  - pose proof (lookup_lt_Some _ _ _ Hi). apply (Hz i); [lia|]. by apply lookup_app_l_Some.
  - apply (Hz (length xs1 + S i)%nat); [lia|]. rewrite lookup_app_r by lia. by replace (length xs1 + S i - length xs1)%nat with (S i) by lia.
Qed.

Lemma promote_perm d xs : fst (promote d xs) ≡ₚ xs.
Proof.
  unfold promote. destruct (position d xs) as [i|] eqn:E; [|done]. apply position_Some in E as (xs1 & y & xs2 & -> & <- & _).
  rewrite list_lookup_middle, delete_middle by done. cbn. by rewrite Permutation_middle.
Qed.

Lemma promote_None d xs : snd (promote d xs) = None -> fst (promote d xs) = xs /\ kept d xs = xs /\ gone d xs = [].
Proof.
  unfold promote. destruct (position d xs) as [i|] eqn:E; cbn; intros H.
  - exfalso. apply position_Some in E as (xs1 & y & xs2 & -> & <- & _). by rewrite list_lookup_middle in H.
  - split; [done|]. by apply kept_all, position_None.
Qed.

Lemma promote_Some d xs x : (forall i j y z, xs !! i = Some y -> xs !! j = Some z -> d y = false -> d z = false -> i = j) ->
  snd (promote d xs) = Some x -> exists xs', fst (promote d xs) = x :: xs' /\ kept d xs = xs' /\ gone d xs = [x].
Proof.
  unfold promote. intros Hu. destruct (position d xs) as [i|] eqn:E; cbn; [|done]. intros H.
  apply position_Some in E as (xs1 & y & xs2 & -> & <- & Hy & _). rewrite list_lookup_middle in H |- * by done. injection H as ->.
  exists (xs1 ++ xs2). rewrite delete_middle. split; [done|]. apply kept_one; [|done]. by apply (others_kept _ _ _ _ Hy).
Qed.

End items.

(** ** Operations on a represented list *)

Section repr.
Context {P : Type} (dohash : item P -> Z) (dofree hashed : bool) (n nh : nat).
Implicit Types (c : cache P) (lru free : list nat) (xs : list (item P)) (d : item P -> bool).

(** [c] holds the items [xs], most recent first, in the entries [lru]. *)
Record repr c lru free xs : Prop := {
  rp_lists : lists_ok c lru free;
  rp_items : Forall2 (fun p x => item_at (entries c) p = Some x) lru xs;
  rp_index : index_if dohash hashed nh c lru;
  rp_cap : length (entries c) = n }.

Lemma repr_stats c lru free xs r w h : repr c lru free xs -> repr (set_stats c r w h) lru free xs.
Proof. intros [[] H2 [Hu Hi] H4]. split; [by split | done | | done]. split; [done|]. intros Hh. destruct (Hi Hh) as (Hl & ch & fl & [] & Hn).
  split; [done|]. exists ch, fl. split; [by split | done]. Qed.

Lemma lists_nodup c lru free : lists_ok c lru free -> NoDup lru.
Proof. intros H. by pose proof (lo_nodup _ _ _ H) as [? _]%NoDup_app. Qed.

Lemma items_frame c c' lru xs : Forall2 (fun p x => item_at (entries c) p = Some x) lru xs ->
  (forall q, q ∈ lru -> item_at (entries c') q = item_at (entries c) q) -> Forall2 (fun p x => item_at (entries c') p = Some x) lru xs.
Proof.
  induction 1 as [|p x lru xs Hp H IH]; intros Hq; constructor; [rewrite Hq by left; done|]. apply IH. intros q Hq'. apply Hq. by right.
Qed.

(** An operation on the lists only. *)
Lemma repr_lists c c' lru lru' free free' xs xs' : repr c lru free xs -> lists_ok c' lru' free' -> same_index c c' -> lru ≡ₚ lru' ->
  (forall q, item_at (entries c') q = item_at (entries c) q) -> Forall2 (fun p x => item_at (entries c) p = Some x) lru' xs' ->
  repr c' lru' free' xs'.
Proof.
  intros [H1 H2 [Hu H3] H4] Hl Hs Hp Hi Hx. pose proof Hs as (_ & _ & _ & _ & El). split; [done | by eapply items_frame | | congruence].
  eapply index_if_frame; [split; [exact Hu|] | done | done]. intros Hh. destruct (H3 Hh) as (Ha & ch & fl & Hb & Hn). split; [done|].
  exists ch, fl. split; [by eapply index_perm | done].
Qed.

(** *** Lookup *)

Lemma lru_search_ok c lru xs d fuel : seg next (entries c) lru None -> Forall2 (fun p x => item_at (entries c) p = Some x) lru xs ->
  (length lru < fuel)%nat -> lru_search fuel c (head lru) d = Some (position d xs ≫= fun i => lru !! i).
Proof.
  intros Hs H. revert fuel. induction H as [|p x lru xs Hp H IH]; intros [|fuel] Hf; cbn [length] in Hf; try lia; [done|].
  cbn [head lru_search]. destruct Hs as [Hs1 Hs2]. unfold item_at in Hp. destruct (entries c !! p) as [e|]; [|done]. cbn in Hs1, Hp.
  injection Hs1 as Hs1. injection Hp as Hp. cbn [mbind option_bind]. rewrite Hp. unfold position. cbn [list_find]. destruct (d x) eqn:Ed.
  - rewrite Hs1, <-head_head_or, IH by (done || lia). rewrite decide_False by done. unfold position. by destruct (list_find _ xs) as [[]|].
  - by rewrite decide_True.
Qed.

Lemma hash_search_ok c l d fuel : seg h_next (links c) l None -> (forall x, x ∈ l -> is_Some (item_at (entries c) (entry_of (links c) x))) ->
  (length l < fuel)%nat -> exists r, hash_search fuel c (head l) d = Some r /\
    match r with
    | Some p => exists x y, x ∈ l /\ p = entry_of (links c) x /\ item_at (entries c) p = Some y /\ d y = false
    | None => forall x y, x ∈ l -> item_at (entries c) (entry_of (links c) x) = Some y -> d y = true
    end.
Proof.
  revert fuel. induction l as [|x l IH]; intros [|fuel] Hs He Hf; cbn [length] in Hf; try lia.
  { exists None. split; [done|]. by intros x y ?%not_elem_of_nil. }
  cbn [head hash_search]. destruct Hs as [Hs1 Hs2]. destruct (He x ltac:(by left)) as [y Hy]. pose proof Hy as Hy'. unfold item_at, entry_of in Hy.
  destruct (links c !! x) as [lx|] eqn:Elx; [|done]. cbn in Hs1. injection Hs1 as Hs1. cbn [mbind option_bind].
  destruct (entries c !! h_entry lx) as [e|] eqn:Ee; [|done]. cbn in Hy. injection Hy as Hy. cbn [mbind option_bind]. rewrite Hy. destruct (d y) eqn:Ed.
  - rewrite Hs1, <-head_head_or. destruct (IH fuel) as (r & -> & Hr); [done | intros z Hz; apply He; by right | lia|]. exists r. split; [done|].
    destruct r as [p|].
    + destruct Hr as (z & w & H1 & H2). exists z, w. split; [by right | done].
    + intros z w [->|Hz]%elem_of_cons Hw; [congruence | by apply (Hr z)].
  - exists (Some (h_entry lx)). split; [done|]. exists x, y. unfold entry_of in Hy' |- *. rewrite Elx in Hy' |- *. split_and!; [by left | done..].
Qed.

(** The search finds the item that matches, when at most one does and, in a hashed
    cache, it has the hash of what is wanted. *)
Definition proper w d xs : Prop :=
  (forall y, y ∈ xs -> d y = false -> dohash y = dohash w) /\ forall i j y z, xs !! i = Some y -> xs !! j = Some z -> d y = false -> d z = false -> i = j.

Lemma search_ok c lru free xs w d : repr c lru free xs -> (hashed = true -> 0 <= dohash w < Z.of_nat nh) -> (hashed = true -> proper w d xs) ->
  search dohash c w d = Some (position d xs ≫= fun i => lru !! i).
Proof.
  intros [H1 H2 [Hu H3] H4] Hw Hp. unfold search. rewrite Hu. destruct hashed eqn:Eh.
  - specialize (Hw eq_refl). destruct (H3 eq_refl) as (Hl & ch & fl & Hx & Hn). destruct (Hp eq_refl) as [Hp1 Hp2].
    set (h := Z.to_nat (dohash w)). assert (dohash w = Z.of_nat h) as Ew by lia. rewrite Ew, zget_nat.
    destruct (lookup_lt_is_Some_2 ch h) as [l Hlh]; [lia|]. rewrite (ix_first _ _ _ _ _ Hx _ _ Hlh). cbn [mbind option_bind].
    assert (forall x, x ∈ l -> entry_of (links c) x ∈ lru) as Hin.
    { intros x Hxl. rewrite <-(ix_ent _ _ _ _ _ Hx). apply list_elem_of_fmap. exists x. split; [done|]. apply in_concat_lookup. eauto. }
    destruct (hash_search_ok c l d (S (length (links c)))) as (r & Er & Hr).
    + by apply (ix_seg _ _ _ _ _ Hx h).
    + intros x Hxl. destruct (ix_hash _ _ _ _ _ Hx _ _ _ Hlh Hxl) as (y & -> & _). done.
    + rewrite <-(ix_count _ _ _ _ _ Hx), length_app. destruct (concat_insert ch h l [] Hlh) as (c1 & c2 & -> & _). rewrite !length_app. lia.
    + rewrite Er. f_equal. destruct r as [p|].
      * destruct Hr as (x & y & H5 & -> & H6 & H7). destruct (proj1 (list_elem_of_lookup _ _) (Hin x H5)) as [j Hj].
        destruct (Forall2_lookup_l _ _ _ _ _ H2 Hj) as (z & Hz & Hz'). cbn in Hz'. rewrite Hz' in H6. injection H6 as ->.
        by rewrite (position_unique d xs j y Hz H7 Hp2).
      * destruct (position d xs) as [i|] eqn:Ep; [|done]. exfalso. apply position_Some in Ep as (xs1 & y & xs2 & -> & <- & Hy & _).
        destruct (Forall2_lookup_r _ _ _ _ _ H2 (list_lookup_middle _ _ _ _ eq_refl)) as (p & Hpl & Hpy). cbn in Hpy.
        destruct (index_link dohash _ _ _ _ p Hx) as (k & a & x & b & z & G1 & G2 & G3 & G4); [by eapply list_elem_of_lookup_2|].
        rewrite Hpy in G3. injection G3 as <-. rewrite (Hp1 y) in G4 by (done || (apply elem_of_app; right; by left)).
        assert (k = h) as -> by lia. rewrite Hlh in G1. injection G1 as ->.
        rewrite (Hr x y) in Hy; [done | apply elem_of_app; right; by left | by rewrite G2].
  - rewrite (lo_mr _ _ _ H1). apply lru_search_ok; [apply (lo_next _ _ _ H1) | done|].
    rewrite <-(lo_len _ _ _ H1), length_app. lia.
Qed.

(** *** The operations *)

Context (Hhash : hashed = true -> forall x, 0 <= dohash x < Z.of_nat nh).

(** The entry of the item at position [i]. *)
Lemma entry_at lru xs1 y xs2 c : Forall2 (fun p x => item_at (entries c) p = Some x) lru (xs1 ++ y :: xs2) ->
  exists l1 p l2, lru = l1 ++ p :: l2 /\ length l1 = length xs1 /\ item_at (entries c) p = Some y /\
    Forall2 (fun p x => item_at (entries c) p = Some x) l1 xs1 /\ Forall2 (fun p x => item_at (entries c) p = Some x) l2 xs2.
Proof.
  intros H. apply Forall2_app_inv_r in H as (l1 & l & H1 & H2 & ->). apply Forall2_cons_inv_r in H2 as (p & l2 & Hp & H2 & ->).
  exists l1, p, l2. split_and!; try done. by eapply Forall2_length.
Qed.

Lemma fetch_ok c lru free xs w d : repr c lru free xs -> (hashed = true -> proper w d xs) ->
  exists c' lru', ntfs_fetch_cache dohash c w d = Some (c', if promote d xs is (_, Some _) then head lru' else None) /\
    repr c' lru' free (fst (promote d xs)) /\ freed c' = freed c.
Proof.
  intros H Hp. unfold ntfs_fetch_cache, promote. rewrite (search_ok c lru free xs w d H (fun E => Hhash E w) Hp). cbn [mbind option_bind].
  destruct (position d xs) as [i|] eqn:Ep; cbn [mbind option_bind].
  - apply position_Some in Ep as (xs1 & y & xs2 & -> & <- & Hy & _). destruct (entry_at _ _ _ _ _ (rp_items _ _ _ _ H)) as (l1 & p & l2 & -> & Hl & Hpy & F1 & F2).
    rewrite list_lookup_middle by done. rewrite list_lookup_middle by done. rewrite delete_middle. cbn [mbind option_bind option_list app fst].
    apply (repr_stats _ _ _ _ (reads c) (writes c) (u64 (hits c + 1))) in H. destruct (move_to_front_ok _ _ _ _ _ (rp_lists _ _ _ _ H)) as (c' & -> & M1 & M2 & M3 & M4).
    cbn [mbind option_bind]. eexists _, (p :: l1 ++ l2). split; [done|]. split; [|done]. apply repr_stats.
    eapply repr_lists; [done | done | done | by rewrite Permutation_middle | done|]. constructor; [done|]. by apply Forall2_app.
  - eexists _, lru. split; [done|]. split; [by apply repr_stats | done].
Qed.

(** Items as their callers make them: the variable part has its size. *)
Definition wf_item (x : item P) : Prop :=
  varsize x = 0 /\ variable x = None \/ 0 < varsize x /\ exists bs, variable x = Some bs /\ zlen bs = varsize x.

Lemma set_item_lists c lru free p x : lists_ok c lru free -> lists_ok (set_entries c (alter (with_item x) p (entries c))) lru free.
Proof. intros []. split; cbn; rewrite ?length_alter; try done; by apply seg_alter_same. Qed.

(** The data of an entry of the list are written. *)
Lemma fill_ok c p lru free x e : lists_ok c (p :: lru) free -> wf_item x -> entries c !! p = Some e ->
  variable (it e) = (if varsize x =? 0 then None else allocate true (varsize x)) -> varsize (it e) = varsize x ->
  fill_entry c p x = Some (set_entries c (alter (with_item x) p (entries c)), Some p).
Proof.
  intros H Hw He Hv Hs. unfold fill_entry. rewrite He. cbn [mbind option_bind]. pose proof (lookup_lt_Some _ _ _ He) as Hp.
  destruct x as [pl v vs]. destruct Hw as [[Hw1 Hw2]|(Hw1 & bs & Hw2 & Hw3)]; cbn [varsize variable payload] in *; subst v.
  - rewrite (proj2 (Z.eqb_eq _ _) Hw1) in *. rewrite set_item_ok by done. cbn. by rewrite Hw1.
  - rewrite (proj2 (Z.eqb_neq vs 0)) in * by lia. rewrite Hv. cbn [allocate mbind option_bind]. pose proof (zread_mid [] bs [] 0 vs eq_refl (eq_sym Hw3)) as Hr.
    rewrite app_nil_l, app_nil_r in Hr. rewrite Hr. cbn [mbind option_bind].
    rewrite set_item_ok by done. cbn. by rewrite Hs.
Qed.

Lemma index_enter c p lru x : index_if dohash hashed nh c lru -> item_at (entries c) p = Some x -> (length lru < length (entries c))%nat ->
  exists c', inserthashindex dohash c p = Some c' /\ same_lists c c' /\ index_if dohash hashed nh c' (p :: lru).
Proof.
  intros [Hu Hi] Hx Hl. destruct hashed eqn:Eh.
  - destruct (Hi eq_refl) as (Hc & ch & fl & Ho & Hch). assert (exists z fl', fl = z :: fl') as (z & fl' & ->).
    { pose proof (ix_count _ _ _ _ _ Ho) as Hk. rewrite length_app in Hk. pose proof (Permutation_length (ix_ent _ _ _ _ _ Ho)) as Hk'.
      rewrite length_fmap in Hk'. destruct fl; [cbn in Hk; lia | eauto]. }
    destruct (inserthashindex_ok dohash c lru ch z fl' p x Ho Hu Hx) as (c' & ch' & -> & Hs & Ho' & El); [rewrite Hch; by apply Hhash|].
    exists c'. split; [done|]. split; [done|]. destruct Hs as (_ & _ & _ & E1 & _ & E2 & E3). split; [congruence|]. intros _.
    split; [congruence|]. exists ch', fl'. split; [done | congruence].
  - exists c. unfold inserthashindex. rewrite Hu. split_and!; [done | by unfold same_lists | by split].
Qed.

(** *** Invalidation *)

(** An entry goes from the list and the index to the free list. *)
Lemma invalidate_entry c c1 l1 p l2 free xs1 y xs2 flag : repr c (l1 ++ p :: l2) free (xs1 ++ y :: xs2) -> length l1 = length xs1 ->
  same_lists c c1 -> index_if dohash hashed nh c1 (l1 ++ l2) ->
  exists c2, do_invalidate dofree c1 p flag = Some c2 /\ repr c2 (l1 ++ l2) (p :: free) (xs1 ++ xs2) /\ same_index c1 c2 /\
    (forall q, q <> p -> item_at (entries c2) q = item_at (entries c) q) /\ freed c2 = freed c ++ (if flag && dofree then [y] else []).
Proof.
  intros [H1 H2 H3 H4] Hl (S1 & S2 & S3 & S4 & S5 & S6 & S7) Hi. apply Forall2_app_inv in H2 as [F1 F2]; [|done]. apply Forall2_cons in F2 as [Hy F2].
  assert (lists_ok c1 (l1 ++ p :: l2) free) as H1' by (destruct H1; split; rewrite ?S1, ?S2, ?S3, ?S4; done).
  destruct (do_invalidate_ok dofree c1 l1 p l2 free y flag H1') as (c2 & E & D1 & D2 & D3 & D4); [by rewrite S4|]. exists c2.
  pose proof (lists_nodup _ _ _ H1) as Hnd. rewrite <-Permutation_middle in Hnd. apply NoDup_cons in Hnd as [Hpn _].
  rewrite S4, S5 in *. assert (forall q, q ∈ l1 ++ l2 -> item_at (entries c2) q = item_at (entries c) q) as Hq by (intros q Hq; apply D3; by intros ->).
  split; [done|]. split; [split; [done | | |] | done].
  - apply Forall2_app; (eapply items_frame; [done|]); intros q Hq'; apply Hq, elem_of_app; tauto.
  - eapply index_if_frame; [done | done|]. by rewrite S4.
  - destruct D2 as (_ & _ & _ & _ & E5). congruence.
Qed.

Lemma repr_entry c l1 p l2 free xs1 y xs2 : repr c (l1 ++ p :: l2) free (xs1 ++ y :: xs2) -> length l1 = length xs1 ->
  exists e, entries c !! p = Some e /\ it e = y /\ next e = head l2.
Proof.
  intros [H1 H2 _ _] Hl. destruct (lists_entry _ _ _ _ _ H1) as (e & He & Hn' & _). exists e. split; [done|].
  apply Forall2_app_inv in H2 as [_ H2]; [|done]. apply Forall2_cons in H2 as [Hy _]. unfold item_at in Hy. rewrite He in Hy. injection Hy as Hy. done.
Qed.

Lemma drop_entry c l1 p l2 free xs1 y xs2 flag : repr c (l1 ++ p :: l2) free (xs1 ++ y :: xs2) -> length l1 = length xs1 ->
  exists c1 c2, (if use_hash c then drophashindex c p (dohash y) else Some c) = Some c1 /\ do_invalidate dofree c1 p flag = Some c2 /\
    repr c2 (l1 ++ l2) (p :: free) (xs1 ++ xs2) /\ freed c2 = freed c ++ (if flag && dofree then [y] else []).
Proof.
  intros H Hl. destruct (repr_entry _ _ _ _ _ _ _ _ H Hl) as (e & He & Hy & _).
  destruct (unhash dohash hashed nh c _ (l1 ++ l2) p e (rp_index _ _ _ _ H)) as (c1 & E1 & Hs & Hi);
    [apply (lists_nodup _ _ _ (rp_lists _ _ _ _ H)) | by rewrite Permutation_middle | done|].
  destruct (invalidate_entry _ _ _ _ _ _ _ _ _ flag H Hl Hs Hi) as (c2 & E2 & H2 & _ & _ & Hf). exists c1, c2. rewrite Hy in E1. by split_and!.
Qed.

Lemma invalidate_lru_ok l2 l1 xs1 xs2 c free d flag k fuel : repr c (l1 ++ l2) free (xs1 ++ xs2) -> length l1 = length xs1 -> (length l2 < fuel)%nat ->
  exists c' lru' free', invalidate_lru dohash dofree fuel c (head l2) d flag k = Some (c', k + zlen (gone d xs2)) /\
    repr c' lru' free' (xs1 ++ kept d xs2) /\ freed c' = freed c ++ (if flag && dofree then gone d xs2 else []).
Proof.
  revert l1 xs1 xs2 c free k fuel. induction l2 as [|p l2 IH]; intros l1 xs1 xs2 c free k [|fuel] H Hl Hf; cbn [length] in Hf; try lia.
  - pose proof (Forall2_length _ _ _ (rp_items _ _ _ _ H)) as E. rewrite !length_app in E. destruct xs2 as [|]; [|cbn in E; lia].
    cbn. exists c, (l1 ++ []), free. split; [unfold zlen; cbn; do 2 f_equal; lia|]. split; [done|]. destruct (flag && dofree); by rewrite app_nil_r.
  - pose proof (Forall2_length _ _ _ (rp_items _ _ _ _ H)) as E. rewrite !length_app in E. destruct xs2 as [|y xs2]; [cbn in E; lia|].
    destruct (repr_entry _ _ _ _ _ _ _ _ H Hl) as (e & He & Hy & Hnx). cbn [head invalidate_lru]. rewrite He. cbn [mbind option_bind]. rewrite Hy, Hnx.
    rewrite kept_cons, gone_cons. destruct (d y) eqn:Ed.
    + rewrite (cons_middle y), app_assoc. apply (IH (l1 ++ [p]) _ _ _ free); [|rewrite !length_app; cbn; lia | lia].
      by rewrite <-!app_assoc.
    + destruct (drop_entry _ _ _ _ _ _ _ _ flag H Hl) as (c1 & c2 & -> & E2 & H2 & Hf2). cbn [mbind option_bind]. rewrite E2. cbn [mbind option_bind].
      destruct (IH l1 xs1 xs2 c2 (p :: free) (k + 1) fuel H2 Hl) as (c' & lru' & free' & E' & H' & Hf'); [lia|]. exists c', lru', free'.
      rewrite E', zlen_cons. split; [do 2 f_equal; lia|]. split; [done|]. rewrite Hf', Hf2, <-app_assoc. by destruct (flag && dofree).
Qed.

Lemma chain_skip c a b d flag h k f : seg h_next (links c) (a ++ b) None ->
  (forall x, x ∈ a -> exists y, item_at (entries c) (entry_of (links c) x) = Some y /\ d y = true) ->
  invalidate_chain dofree (length a + f) c (head (a ++ b)) d flag h k = invalidate_chain dofree f c (head b) d flag h k.
Proof.
  induction a as [|x a IH]; intros Hs Ha; [done|]. destruct Hs as [Hs1 Hs2]. cbn [app length Nat.add head invalidate_chain].
  destruct (Ha x ltac:(by left)) as (y & Hy & Hd). unfold item_at, entry_of in Hy. destruct (links c !! x) as [lx|]; [|done]. cbn in Hs1. injection Hs1 as Hs1.
  cbn [mbind option_bind]. destruct (entries c !! h_entry lx) as [e|]; [|done]. cbn in Hy. injection Hy as Hy. cbn [mbind option_bind].
  rewrite Hy, Hd, Hs1, <-head_head_or. apply IH; [done|]. intros z Hz. apply Ha. by right.
Qed.

(** What the links of a chain lead to. *)
Lemma link_item c lru free xs ch fl h l x : repr c lru free xs -> index_ok dohash c lru ch fl -> ch !! h = Some l -> x ∈ l ->
  exists i y, lru !! i = Some (entry_of (links c) x) /\ xs !! i = Some y /\ item_at (entries c) (entry_of (links c) x) = Some y.
Proof.
  intros H Hx Hl Hxl. assert (entry_of (links c) x ∈ lru) as Hin.
  { rewrite <-(ix_ent _ _ _ _ _ Hx). apply list_elem_of_fmap. exists x. split; [done|]. apply in_concat_lookup. eauto. }
  apply list_elem_of_lookup in Hin as [i Hi]. destruct (Forall2_lookup_l _ _ _ _ _ (rp_items _ _ _ _ H) Hi) as (y & Hy & Hy'). by exists i, y.
Qed.

Lemma chain_bound c lru ch fl h l : index_ok dohash c lru ch fl -> ch !! h = Some l -> (length l <= length (links c))%nat.
Proof.
  intros Hx Hl. rewrite <-(ix_count _ _ _ _ _ Hx), length_app. destruct (concat_insert ch h l [] Hl) as (c1 & c2 & -> & _). rewrite !length_app. lia.
Qed.

(** A chain without a match. *)
Lemma chain_none c l d flag h k f : seg h_next (links c) l None ->
  (forall x, x ∈ l -> exists y, item_at (entries c) (entry_of (links c) x) = Some y /\ d y = true) -> (length l < f)%nat ->
  invalidate_chain dofree f c (head l) d flag h k = Some (c, k).
Proof.
  intros Hs Ha Hf. replace f with (length l + S (f - length l - 1))%nat by lia.
  pose proof (chain_skip c l [] d flag h k (S (f - length l - 1))) as E. rewrite app_nil_r in E. by rewrite E.
Qed.

(** The other links of the chain of the one match. *)
Lemma chain_others c l1 p l2 free xs1 y xs2 d ch fl h a x b : repr c (l1 ++ p :: l2) free (xs1 ++ y :: xs2) -> length l1 = length xs1 ->
  index_ok dohash c (l1 ++ p :: l2) ch fl -> ch !! h = Some (a ++ x :: b) -> entry_of (links c) x = p ->
  Forall (fun z => d z = true) (xs1 ++ xs2) ->
  forall q, q ∈ a ++ b -> entry_of (links c) q <> p /\ exists z, item_at (entries c) (entry_of (links c) q) = Some z /\ d z = true.
Proof.
  intros H Hll Hx Hl G2 Hall q Hq.
  assert (q <> x /\ q ∈ a ++ x :: b) as [Hne Hq'].
  { pose proof (ix_nodup _ _ _ _ _ Hx) as (Hndc & _ & _)%NoDup_app. destruct (concat_insert ch _ _ [] Hl) as (c1 & c2 & E & _). rewrite E in Hndc.
    apply NoDup_app in Hndc as (_ & _ & Hndc). apply NoDup_app in Hndc as (Hndc & _ & _). rewrite <-Permutation_middle in Hndc. apply NoDup_cons in Hndc as [Hxn _].
    split; [by intros ->|]. rewrite elem_of_app in *. rewrite elem_of_cons. tauto. }
  assert (entry_of (links c) q <> p) as Hqp.
  { rewrite <-G2. intros E. apply Hne. apply (index_inj dohash _ _ _ _ _ _ Hx (lists_nodup _ _ _ (rp_lists _ _ _ _ H))); [| | done]; apply in_concat_lookup;
      eexists _, _; (split; [exact Hl|]); [done | apply elem_of_app; right; by left]. }
  split; [done|]. destruct (link_item _ _ _ _ _ _ _ _ _ H Hx Hl Hq') as (j & z & J1 & J2 & J3). exists z. split; [done|].
  assert (z ∈ xs1 ++ xs2) as Hz; [|by rewrite Forall_forall in Hall; apply Hall].
  destruct (decide (j = length xs1)) as [->|Hj]; [rewrite <-Hll, list_lookup_middle in J1 by done; congruence|].
  rewrite elem_of_app. destruct (decide (j < length xs1)%nat).
  - left. rewrite lookup_app_l in J2 by done. by eapply list_elem_of_lookup_2.
  - right. rewrite lookup_app_r in J2 by lia. replace (j - length xs1)%nat with (S (j - length xs1 - 1)) in J2 by lia. by eapply list_elem_of_lookup_2.
Qed.

Lemma chain_one c l1 p l2 free xs1 y xs2 d flag ch fl h a x b k fuel : repr c (l1 ++ p :: l2) free (xs1 ++ y :: xs2) -> length l1 = length xs1 ->
  use_hash c = true -> index_ok dohash c (l1 ++ p :: l2) ch fl -> length ch = nh -> length (links c) = length (entries c) ->
  ch !! h = Some (a ++ x :: b) -> entry_of (links c) x = p -> d y = false -> Forall (fun z => d z = true) (xs1 ++ xs2) ->
  (S (length (a ++ b)) < fuel)%nat ->
  exists c', invalidate_chain dofree fuel c (head (a ++ x :: b)) d flag (Z.of_nat h) k = Some (c', k + 1) /\
    repr c' (l1 ++ l2) (p :: free) (xs1 ++ xs2) /\ freed c' = freed c ++ (if flag && dofree then [y] else []).
Proof.
  intros H Hll Hu Hx Hch Hlk Hl G2 Hy Hall Hf. pose proof (lists_nodup _ _ _ (rp_lists _ _ _ _ H)) as Hnd.
  pose proof (chain_others _ _ _ _ _ _ _ _ _ _ _ _ _ _ _ H Hll Hx Hl G2 Hall) as Hq. pose proof (ix_seg _ _ _ _ _ Hx _ _ Hl) as Hseg.
  rewrite length_app in Hf. replace fuel with (length a + S (fuel - length a - 1))%nat by lia.
  rewrite chain_skip; [|done | intros q Hqa; by apply Hq, elem_of_app; left]. cbn [head invalidate_chain].
  destruct (seg_lookup _ _ _ _ _ _ Hseg) as (lx & Elx & Enx). rewrite <-head_head_or in Enx. rewrite Elx. cbn [mbind option_bind].
  pose proof G2 as G2'. unfold entry_of in G2'. rewrite Elx in G2'. destruct (repr_entry _ _ _ _ _ _ _ _ H Hll) as (e & He & Hey & _).
  rewrite G2', He. cbn [mbind option_bind]. rewrite Hey, Hy.
  destruct (drophashindex_ok dohash c _ ch fl _ a x b (l1 ++ l2) Hx Hnd Hu Hl) as (c1 & E1 & Hs & Hx1 & Hent); [rewrite G2; by rewrite Permutation_middle|].
  rewrite G2 in E1. rewrite E1. cbn [mbind option_bind].
  assert (index_if dohash hashed nh c1 (l1 ++ l2)) as Hi1.
  { destruct (rp_index _ _ _ _ H) as [Hu' _]. pose proof Hs as (_ & _ & _ & S4 & _ & S6 & S7). split; [congruence|]. intros _. split; [congruence|].
    do 2 eexists. split; [done|]. by rewrite length_insert. }
  destruct (invalidate_entry c c1 l1 p l2 free xs1 y xs2 flag H Hll Hs Hi1) as (c2 & -> & H2 & Hsi & Hit & Hf2). cbn [mbind option_bind]. rewrite Enx.
  assert (links c2 = links c1) as El2 by (by destruct Hsi as (_ & _ & _ & E & _)).
  exists c2. split; [|done]. rewrite chain_none; [done | | | lia].
  - rewrite El2. pose proof (ix_seg _ _ _ _ _ Hx1 h (a ++ b)) as Hs1.
    rewrite list_lookup_insert_eq in Hs1 by (by apply lookup_lt_Some in Hl). by apply (proj1 (path_app _ _ _ _ _)) in Hs1 as [_ ?].
  - intros q Hqb. destruct (Hq q) as [Hqp Hz]; [apply elem_of_app; by right|]. by rewrite El2, Hent, Hit.
Qed.

Lemma chain_ok c lru free xs w d flag ch fl l : repr c lru free xs -> use_hash c = true -> index_ok dohash c lru ch fl ->
  length ch = nh -> ch !! Z.to_nat (dohash w) = Some l -> length (links c) = length (entries c) -> proper w d xs ->
  exists c' lru' free', invalidate_chain dofree (S (length (links c))) c (head l) d flag (dohash w) 0 = Some (c', zlen (gone d xs)) /\
    repr c' lru' free' (kept d xs) /\ freed c' = freed c ++ (if flag && dofree then gone d xs else []).
Proof.
  intros H Hu Hx Hch Hl Hlk [Hp1 Hp2]. pose proof (chain_bound _ _ _ _ _ _ Hx Hl) as Hb.
  destruct (position d xs) as [i|] eqn:Ep.
  - apply position_Some in Ep as (xs1 & y & xs2 & -> & <- & Hy & _). destruct (entry_at _ _ _ _ _ (rp_items _ _ _ _ H)) as (l1 & p & l2 & -> & Hll & Hpy & _).
    destruct (index_link dohash _ _ _ _ p Hx) as (k & a & x & b & z & G1 & G2 & G3 & G4); [apply elem_of_app; right; by left|].
    rewrite Hpy in G3. injection G3 as <-. rewrite (Hp1 y) in G4 by (done || (apply elem_of_app; right; by left)).
    rewrite G4, Nat2Z.id in Hl. rewrite Hl in G1. injection G1 as ->. pose proof (others_kept _ _ _ _ Hy Hp2) as Hall. rewrite length_app in Hb. cbn [length] in Hb.
    destruct (chain_one _ _ _ _ _ _ _ _ d flag ch fl k a x b 0 (S (length (links c))) H Hll) as (c' & E & H' & Hf); try done; [rewrite length_app; lia|].
    destruct (kept_one _ _ _ _ Hall Hy) as [-> ->]. rewrite G4. exists c', (l1 ++ l2), (p :: free). by rewrite E.
  - apply position_None in Ep. destruct (kept_all _ _ Ep) as [-> ->]. exists c, lru, free. rewrite chain_none; [by destruct (flag && dofree); rewrite app_nil_r | | | lia].
    + by apply (ix_seg _ _ _ _ _ Hx _ _ Hl).
    + intros x Hxl. destruct (link_item _ _ _ _ _ _ _ _ _ H Hx Hl Hxl) as (j & z & J1 & J2 & J3). exists z. split; [done|]. rewrite Forall_lookup in Ep. by apply (Ep j).
Qed.

(** Invalidation, by the chain of the wanted item or in the whole list. *)
Lemma invalidate_ok c lru free xs w d flag nohash : repr c lru free xs -> (hashed = true -> nohash = false -> proper w d xs) ->
  exists c' lru' free', ntfs_invalidate_cache dohash dofree c w d flag nohash = Some (c', zlen (gone d xs)) /\
    repr c' lru' free' (kept d xs) /\ freed c' = freed c ++ (if flag && dofree then gone d xs else []).
Proof.
  intros H Hp. destruct (rp_index _ _ _ _ H) as [Hu Hi]. unfold ntfs_invalidate_cache.
  assert (exists c' lru' free', invalidate_lru dohash dofree (S (length (entries c))) c (most_recent_entry c) d flag 0 = Some (c', zlen (gone d xs)) /\
            repr c' lru' free' (kept d xs) /\ freed c' = freed c ++ (if flag && dofree then gone d xs else [])) as Hlru.
  { rewrite (lo_mr _ _ _ (rp_lists _ _ _ _ H)). apply (invalidate_lru_ok lru [] [] xs c free); [done | done|].
    rewrite <-(lo_len _ _ _ (rp_lists _ _ _ _ H)), length_app. lia. }
  rewrite Hu. destruct nohash; [done|]. destruct (Sumbool.sumbool_of_bool hashed) as [Eh|Eh]; rewrite Eh in Hu, Hi |- *;
    [|cbn [negb andb orb mbind option_bind]; rewrite Hu; exact Hlru]. cbn [negb andb].
  destruct (Hi eq_refl) as (Hlk & ch & fl & Hx & Hch). pose proof (Hhash Eh w) as Hw.
  destruct (lookup_lt_is_Some_2 ch (Z.to_nat (dohash w))) as [l Hl]; [lia|]. pose proof (ix_first _ _ _ _ _ Hx _ _ Hl) as Hfi.
  rewrite <-zget_nat, Z2Nat.id in Hfi by lia. rewrite Hfi. cbn [mbind option_bind].
  destruct (chain_ok c lru free xs w d flag ch fl l) as (c' & lru' & free' & -> & H' & Hf); try done; [by apply Hp|]. cbn [mbind option_bind].
  destruct (rp_index _ _ _ _ H') as [Hu' _]. rewrite Hu', Eh. by exists c', lru', free'.
Qed.

(** *** Insertion *)

(** The item is put in front, and what does not fit is dropped. *)
Definition spec_enter x d xs : list (item P) := match position d xs with Some _ => xs | None => x :: take (n - 1) xs end.
Definition spec_evicted d xs : list (item P) := match position d xs with Some _ => [] | None => drop (n - 1) xs end.

(** An entry of its own for a new item. *)
Lemma get_entry_ok c lru free xs x mem : (2 <= n)%nat -> repr c lru free xs ->
  exists c' p lru' free', get_entry dohash dofree c x mem = Some (c', p) /\ detached c' p lru' free' /\ index_if dohash hashed nh c' lru' /\
    length (entries c') = n /\ Forall2 (fun q y => item_at (entries c') q = Some y) lru' (take (n - 1) xs) /\
    freed c' = freed c ++ (if dofree then drop (n - 1) xs else []) /\
    exists e, entries c' !! p = Some e /\ variable (it e) = (if varsize x =? 0 then None else allocate mem (varsize x)) /\ varsize (it e) = varsize x.
Proof.
  intros Hn [H1 H2 H3 H4]. pose proof (lo_len _ _ _ H1) as Hl. rewrite length_app, H4 in Hl. pose proof (Forall2_length _ _ _ H2) as Hlx. destruct free as [|p free].
  - destruct lru as [|p l1 _] using rev_ind; [cbn in Hl; lia|]. rewrite length_app in Hl. cbn in Hl. rewrite length_app in Hlx. cbn in Hlx.
    apply Forall2_app_inv_l in H2 as (xs1 & xs' & F1 & F2 & ->). apply Forall2_cons_inv_l in F2 as (y & xs2 & Hy & F2 & ->). apply Forall2_nil_inv_l in F2 as ->.
    rewrite length_app in Hlx. cbn in Hlx. rewrite take_app_length', drop_app_length' by lia.
    destruct (get_oldest dohash dofree hashed nh c l1 p y x mem) as (c' & G1 & G2 & G3 & G4 & G5 & G6 & G7); [intros ->; cbn in *; lia | done..|].
    exists c', p, l1, []. split_and!; try done; [congruence | by eapply items_frame].
  - cbn [length] in Hl. rewrite take_ge, drop_ge by lia. destruct (get_free dohash dofree c lru p free x mem H1) as (c' & G1 & G2 & G3 & G4 & G5 & G6).
    exists c', p, lru, free. split_and!; try done; [by eapply index_if_frame | | by eapply items_frame | destruct dofree; by rewrite app_nil_r].
    destruct G3 as (_ & _ & _ & _ & E). congruence.
Qed.

Lemma enter_ok c lru free xs x d : (2 <= n)%nat -> repr c lru free xs -> (hashed = true -> proper x d xs) -> wf_item x ->
  exists c' lru' free' p, ntfs_enter_cache dohash dofree c x d true = Some (c', Some p) /\
    repr c' lru' free' (spec_enter x d xs) /\ freed c' = freed c ++ (if dofree then spec_evicted d xs else []) /\
    item_at (entries c') p = match position d xs with Some i => xs !! i | None => Some x end.
Proof.
  intros Hn H Hp Hw. unfold ntfs_enter_cache, spec_enter, spec_evicted. rewrite (search_ok c lru free xs x d H (fun E => Hhash E x) Hp). cbn [mbind option_bind].
  destruct (position d xs) as [i|] eqn:Ep; cbn [mbind option_bind].
  - apply position_Some in Ep as (xs1 & y & xs2 & -> & <- & Hy & _). destruct (entry_at _ _ _ _ _ (rp_items _ _ _ _ H)) as (l1 & p & l2 & -> & Hl & Hpy & _ & _).
    rewrite !list_lookup_middle by done. cbn [mbind option_bind]. eexists _, _, free, p. split; [done|]. split; [by apply repr_stats|].
    split; [destruct dofree; by rewrite app_nil_r | done].
  - destruct (get_entry_ok _ _ _ _ x true Hn H) as (c1 & p & lru1 & free1 & -> & Hd & Hi & Hc & Hx & Hf & e & He & Hv & Hs). cbn [mbind option_bind].
    destruct (attach dohash _ _ _ _ Hd) as (c2 & -> & A1 & A2 & A3 & A4). cbn [mbind option_bind].
    assert (item_at (entries c2) p = Some (it e)) as He2 by (rewrite A3; unfold item_at; by rewrite He).
    unfold item_at in He2. destruct (entries c2 !! p) as [e2|] eqn:E2; [|done]. injection He2 as He2. rewrite <-He2 in *.
    rewrite (fill_ok _ _ _ _ _ _ A1 Hw E2 Hv Hs). cbn [mbind option_bind]. set (c3 := set_entries c2 _). pose proof (set_item_lists _ _ _ p x A1) as A5. fold c3 in A5.
    assert (item_at (entries c3) p = Some x) as E3 by (unfold item_at, c3; cbn; by rewrite list_lookup_alter_eq, E2).
    assert (p ∉ lru1) as Hpn. { pose proof (lists_nodup _ _ _ A1) as Hnd. by apply NoDup_cons in Hnd as [? _]. }
    assert (forall q, q ∈ lru1 -> item_at (entries c3) q = item_at (entries c1) q) as Hq.
    { intros q Hq. rewrite <-A3. unfold item_at, c3. cbn. rewrite list_lookup_alter_ne; [done|]. by intros ->. }
    destruct A2 as (B1 & B2 & B3 & B4 & B5). assert (length (entries c3) = n) as Hc3 by (unfold c3; cbn; rewrite length_alter; congruence).
    destruct (index_enter c3 p lru1 x) as (c4 & -> & Hs4 & Hi4); [| done | |].
    { eapply index_if_frame; [exact Hi | | done]. unfold same_index, c3. cbn. rewrite length_alter. by split_and!. }
    { rewrite Hc3, <-Hc, <-(de_len _ _ _ _ Hd). cbn. rewrite length_app. lia. }
    cbn [mbind option_bind]. destruct Hs4 as (S1 & S2 & S3 & S4 & S5 & _ & _). eexists _, (p :: lru1), free1, p. split; [done|]. split; [apply repr_stats|].
    + split; [| | done | congruence].
      * destruct A5. split; rewrite ?S1, ?S2, ?S3, ?S4; done.
      * rewrite S4. constructor; [done|]. by eapply items_frame.
    + split; [cbn [set_stats freed]; rewrite S5; unfold c3; cbn; congruence | cbn [set_stats entries]; by rewrite S4].
Qed.

(** *** Removal, destruction and creation *)

Lemma remove_ok c l1 p l2 free xs1 y xs2 flag : repr c (l1 ++ p :: l2) free (xs1 ++ y :: xs2) -> length l1 = length xs1 ->
  exists c', ntfs_remove_cache dohash dofree c p flag = Some (c', 1) /\ repr c' (l1 ++ l2) (p :: free) (xs1 ++ xs2) /\
    freed c' = freed c ++ (if flag && dofree then [y] else []).
Proof.
  intros H Hl. destruct (repr_entry _ _ _ _ _ _ _ _ H Hl) as (e & He & Hy & _). destruct (drop_entry _ _ _ _ _ _ _ _ flag H Hl) as (c1 & c2 & E1 & E2 & H' & Hf).
  unfold ntfs_remove_cache. rewrite He. cbn [mbind option_bind]. rewrite Hy, E1. cbn [mbind option_bind]. rewrite E2. by exists c2.
Qed.
End repr.

Lemma free_ok {P} (dofree : bool) (c : cache P) lru xs fuel : seg next (entries c) lru None -> Forall2 (fun p x => item_at (entries c) p = Some x) lru xs -> (length lru < fuel)%nat ->
  ntfs_free_cache dofree fuel c (head lru) = Some (if dofree then xs else []).
Proof.
  intros Hs H. revert fuel. induction H as [|p x lru xs Hp H IH]; intros [|fuel] Hf; cbn [length] in Hf; try lia; [by destruct dofree|].
  cbn [head ntfs_free_cache]. destruct Hs as [Hs1 Hs2]. unfold item_at in Hp. destruct (entries c !! p) as [e|]; [|done]. cbn in Hs1, Hp.
  injection Hs1 as Hs1. injection Hp as Hp. cbn [mbind option_bind]. rewrite Hs1, <-head_head_or, IH by (done || lia). cbn. rewrite Hp. by destruct dofree.
Qed.

Lemma seg_seq {N} (nxt : N -> option nat) (f : nat -> N) m a k : (a + k = m)%nat -> (forall i, nxt (f i) = if (S i =? m)%nat then None else Some (S i)) ->
  seg nxt (f <$> seq 0 m) (seq a k) None.
Proof.
  intros Hm Hf. revert a Hm; induction k as [|k IH]; intros a Hm; [done|]. cbn [seq]. eapply path_cons; [| |apply IH; lia].
  - rewrite list_lookup_fmap, lookup_seq_lt by lia. done.
  - rewrite Hf. cbn [Nat.add]. destruct k as [|k]; cbn [seq head_or].
    + by rewrite (proj2 (Nat.eqb_eq _ _)) by lia.
    + by rewrite (proj2 (Nat.eqb_neq _ _)) by lia.
Qed.

Lemma concat_nils {A} m : concat (replicate m (@nil A)) = [].
Proof. by induction m. Qed.

Lemma create_ok {P} (dohash : item P -> Z) junk has_hash n nh : (0 < n)%nat ->
  exists c, ntfs_create_cache junk has_hash n nh = Some c /\ freed c = [] /\
    repr dohash (has_hash && negb (nh =? 0)%nat) n nh c [] (seq 0 n) [].
Proof.
  intros Hn. unfold ntfs_create_cache. rewrite (proj2 (Nat.eqb_neq n 0)) by lia. set (hashed := negb (nh =? 0)%nat).
  eexists. split; [done|]. split; [done|]. split.
  - split; cbn [entries most_recent_entry oldest_entry free_entry app reverse seg head last]; try done.
    + apply NoDup_seq.
    + by rewrite length_fmap, !length_seq.
    + rewrite length_fmap, length_seq. apply Forall_forall. intros p Hp%elem_of_seq. lia.
    + by apply seg_seq.
    + destruct n; [lia | done].
  - constructor.
  - split; cbn [use_hash]; [done|]. intros Hh. apply andb_true_iff in Hh as [_ Hh]. fold hashed in Hh. cbn [links]. rewrite Hh. cbn [links entries]. rewrite !length_fmap.
    split; [done|]. exists (replicate nh []), (seq 0 n). split; [|by rewrite length_replicate].
    split; cbn [first_hash links free_hash entries].
    + by rewrite !length_replicate.
    + intros h l Hl. apply lookup_replicate in Hl as [-> Hl]. by apply lookup_replicate_2.
    + intros h l Hl. by apply lookup_replicate in Hl as [-> _].
    + by apply seg_seq.
    + destruct n; [lia | done].
    + rewrite concat_nils. apply NoDup_seq.
    + rewrite concat_nils, length_fmap. done.
    + by rewrite concat_nils.
    + intros h l x Hl Hx. apply lookup_replicate in Hl as [-> _]. by apply not_elem_of_nil in Hx.
  - cbn. by rewrite length_fmap, length_seq.
Qed.

(** ** A cache under any sequence of operations *)

(** The operations as the callers make them; [Take] is a fetch and the removal of
    what it finds. *)
Inductive cache_op (P : Type) :=
  | Fetch (w : item P)
  | Enter (x : item P)
  | Invalidate (w : item P) (flag_free : bool)
  | Invalidate_all (w : item P) (differs : item P -> bool) (flag_free : bool)
  | Take (w : item P) (flag_free : bool).

Inductive outcome (P : Type) := Found (x : option (item P)) | Count (k : Z).
Arguments Fetch {P}. Arguments Enter {P}. Arguments Invalidate {P}. Arguments Invalidate_all {P}. Arguments Take {P}.
Arguments Found {P}. Arguments Count {P}.

Section trace.
Context {P K : Type} `{EqDecision K} (key : item P -> K) (dohash : item P -> Z) (dofree : bool).
Implicit Types (c : cache P) (xs log : list (item P)) (o : cache_op P).

(** The compare functions tell apart the items with different keys. *)
Definition compare (w y : item P) : bool := negb (bool_decide (key y = key w)).

Definition cache_step c o : option (cache P * outcome P) :=
  match o with
  | Fetch w => '(c, r) ← ntfs_fetch_cache dohash c w (compare w); Some (c, Found (r ≫= item_at (entries c)))
  | Enter x => '(c, r) ← ntfs_enter_cache dohash dofree c x (compare x) true; Some (c, Found (r ≫= item_at (entries c)))
  | Invalidate w flag => '(c, k) ← ntfs_invalidate_cache dohash dofree c w (compare w) flag false; Some (c, Count k)
  | Invalidate_all w d flag => '(c, k) ← ntfs_invalidate_cache dohash dofree c w d flag true; Some (c, Count k)
  | Take w flag =>
      '(c, r) ← ntfs_fetch_cache dohash c w (compare w);
      match r with
      | Some p => let x := item_at (entries c) p in '(c, _) ← ntfs_remove_cache dohash dofree c p flag; Some (c, Found x)
      | None => Some (c, Found None)
      end
  end.

Fixpoint cache_run c (ops : list (cache_op P)) : option (cache P * list (outcome P)) :=
  match ops with
  | [] => Some (c, [])
  | o :: ops => '(c, r) ← cache_step c o; '(c, rs) ← cache_run c ops; Some (c, r :: rs)
  end.

(** The list of at most [n] items, most recent first, and the calls of dofree. *)
Definition spec_remove (d : item P -> bool) (flag : bool) xs log : list (item P) * list (item P) :=
  (kept d xs, log ++ (if flag && dofree then gone d xs else [])).

Definition spec_step (n : nat) xs log o : list (item P) * list (item P) * outcome P :=
  match o with
  | Fetch w => (fst (promote (compare w) xs), log, Found (snd (promote (compare w) xs)))
  | Enter x => (spec_enter n x (compare x) xs, log ++ (if dofree then spec_evicted n (compare x) xs else []),
                Found (match position (compare x) xs with Some i => xs !! i | None => Some x end))
  | Invalidate w flag => (spec_remove (compare w) flag xs log, Count (zlen (gone (compare w) xs)))
  | Invalidate_all _ d flag => (spec_remove d flag xs log, Count (zlen (gone d xs)))
  | Take w flag => (spec_remove (compare w) flag xs log, Found (snd (promote (compare w) xs)))
  end.

Fixpoint spec_run (n : nat) xs log (ops : list (cache_op P)) : list (item P) * list (item P) * list (outcome P) :=
  match ops with
  | [] => (xs, log, [])
  | o :: ops => let '(xs, log, r) := spec_step n xs log o in let '(xs, log, rs) := spec_run n xs log ops in (xs, log, r :: rs)
  end.

Context (hashed : bool) (n nh : nat) (key_hash : hashed = true -> forall y w, key y = key w -> dohash y = dohash w)
  (hash_range : hashed = true -> forall x, 0 <= dohash x < Z.of_nat nh) (room : (2 <= n)%nat).

Definition wf_op o : Prop := match o with Enter x => wf_item x | _ => True end.

Lemma compare_true w y : compare w y = true <-> key y <> key w.
Proof using P K key EqDecision0. unfold compare. by rewrite negb_true_iff, bool_decide_eq_false. Qed.
Lemma compare_false w y : compare w y = false <-> key y = key w.
Proof using P K key EqDecision0. unfold compare. by rewrite negb_false_iff, bool_decide_eq_true. Qed.

Lemma keys_unique w xs : NoDup (key <$> xs) ->
  forall i j y z, xs !! i = Some y -> xs !! j = Some z -> compare w y = false -> compare w z = false -> i = j.
Proof.
  intros Hnd i j y z Hi Hj Hy%compare_false Hz%compare_false.
  apply (NoDup_lookup _ _ _ (key w) Hnd); rewrite list_lookup_fmap; [rewrite Hi | rewrite Hj]; cbn; congruence.
Qed.

Lemma proper_keys w xs : NoDup (key <$> xs) -> hashed = true -> proper dohash w (compare w) xs.
Proof. intros Hnd Hh. split; [intros y _ Hy%compare_false; by apply key_hash | by apply keys_unique]. Qed.

Lemma step_keys xs log o : NoDup (key <$> xs) -> NoDup (key <$> fst (fst (spec_step n xs log o))).
Proof.
  assert (forall d, NoDup (key <$> xs) -> NoDup (key <$> kept d xs)) as Hk.
  { intros d Hd. apply (sublist_NoDup _ _ Hd), fmap_sublist, sublist_filter. }
  intros H. destruct o as [w|x|w fl|w d fl|w fl]; cbn; auto.
  - by rewrite promote_perm.
  - unfold spec_enter. destruct (position (compare x) xs) eqn:E; [done|]. apply position_None in E. cbn. apply NoDup_cons. split.
    + intros Hin. apply list_elem_of_fmap in Hin as (y & Hy & Hin). rewrite Forall_forall in E. apply (compare_true x y); [|done].
      apply E. by apply elem_of_take in Hin as (i & Hi%list_elem_of_lookup_2 & _).
    + apply (sublist_NoDup _ _ H), fmap_sublist, sublist_take.
Qed.

(** A cache, the items it holds and the items it gave to dofree. *)
Definition holds c xs log : Prop := exists lru free, repr dohash hashed n nh c lru free xs /\ freed c = log /\ NoDup (key <$> xs).

Lemma fetched c lru free d xs : repr dohash hashed n nh c lru free (fst (promote d xs)) ->
  (if promote d xs is (_, Some _) then head lru else None) ≫= item_at (entries c) = snd (promote d xs).
Proof.
  intros H. pose proof (rp_items _ _ _ _ _ _ _ _ H) as Hx. unfold promote in *. destruct (position d xs) as [i|]; [|done]. cbn in *.
  destruct (xs !! i) as [y|]; [|done]. cbn in Hx. apply Forall2_cons_inv_r in Hx as (p & l & Hp & _ & ->). done.
Qed.

Lemma cache_step_ok c xs log o : holds c xs log -> wf_op o ->
  exists c', cache_step c o = Some (c', snd (spec_step n xs log o)) /\
    holds c' (fst (fst (spec_step n xs log o))) (snd (fst (spec_step n xs log o))).
Proof.
  intros (lru & free & H & Hf & Hnd) Hw. pose proof (step_keys xs log o Hnd) as Hk. unfold holds.
  assert (forall w, hashed = true -> proper dohash w (compare w) xs) as Hp by (intros w; by apply proper_keys).
  destruct o as [w|x|w fl|w d fl|w fl]; cbn [cache_step spec_step spec_remove fst snd] in *.
  - destruct (fetch_ok dohash hashed n nh hash_range c lru free xs w (compare w) H (Hp w)) as (c' & lru' & -> & H' & Hf'). cbn [mbind option_bind].
    rewrite (fetched _ _ _ _ _ H'). eexists. split; [done|]. exists lru', free. by rewrite Hf', Hf.
  - destruct (enter_ok dohash dofree hashed n nh hash_range c lru free xs x (compare x) room H (Hp x) Hw) as (c' & lru' & free' & p & -> & H' & Hf' & Hx).
    cbn [mbind option_bind]. rewrite Hx. eexists. split; [done|]. exists lru', free'. by rewrite Hf', Hf.
  - destruct (invalidate_ok dohash dofree hashed n nh hash_range c lru free xs w (compare w) fl false H) as (c' & lru' & free' & -> & H' & Hf'); [by intros; apply Hp|].
    cbn [mbind option_bind]. eexists. split; [done|]. exists lru', free'. by rewrite Hf', Hf.
  - destruct (invalidate_ok dohash dofree hashed n nh hash_range c lru free xs w d fl true H) as (c' & lru' & free' & -> & H' & Hf'); [done|].
    cbn [mbind option_bind]. eexists. split; [done|]. exists lru', free'. by rewrite Hf', Hf.
  - destruct (fetch_ok dohash hashed n nh hash_range c lru free xs w (compare w) H (Hp w)) as (c1 & lru1 & -> & H1 & Hf1). cbn [mbind option_bind].
    pose proof (fetched _ _ _ _ _ H1) as Hh. destruct (promote (compare w) xs) as [xs1 [x|]] eqn:Ep; cbn [fst snd] in *.
    + destruct (promote_Some (compare w) xs x) as (xs' & E1 & E2 & E3); [by apply keys_unique | by rewrite Ep|]. rewrite E2, E3 in *. rewrite Ep in E1. cbn in E1. subst xs1.
      destruct lru1 as [|p l]; [done|]. cbn in Hh. cbn [head]. destruct (remove_ok dohash dofree hashed n nh hash_range c1 [] p l free [] x xs' fl H1 eq_refl) as (c2 & -> & H2 & Hf2).
      cbn [mbind option_bind]. rewrite Hh. eexists. split; [done|]. exists l, (p :: free). rewrite Hf2, Hf1, Hf. done.
    + destruct (promote_None (compare w) xs) as (E1 & E2 & E3); [by rewrite Ep|]. rewrite Ep in E1. cbn in E1. subst xs1.
      eexists. split; [done|]. exists lru1, free. rewrite E2, E3 in *. split; [done|]. split; [|done]. rewrite Hf1, Hf. destruct (fl && dofree); by rewrite app_nil_r.
Qed.

Lemma cache_run_ok ops c xs log : holds c xs log -> Forall wf_op ops ->
  exists c', cache_run c ops = Some (c', snd (spec_run n xs log ops)) /\
    holds c' (fst (fst (spec_run n xs log ops))) (snd (fst (spec_run n xs log ops))).
Proof.
  revert c xs log. induction ops as [|o ops IH]; intros c xs log H Hw; cbn [cache_run spec_run]; [by exists c|].
  apply Forall_cons in Hw as [Ho Hw]. destruct (cache_step_ok c xs log o H Ho) as (c1 & -> & H1). cbn [mbind option_bind].
  destruct (spec_step n xs log o) as [[xs1 log1] r]. cbn [fst snd] in *. destruct (IH c1 xs1 log1 H1 Hw) as (c2 & -> & H2). cbn [mbind option_bind].
  destruct (spec_run n xs1 log1 ops) as [[xs2 log2] rs]. by exists c2.
Qed.
End trace.

(** C14: Any sequence of fetches, entries, invalidations and removals on a new cache
    of at least two entries, hashed or not, when there is memory, follows no NULL
    pointer and ends, and does to the outcome of each operation and to the calls of
    dofree what the same operations do to a list of items with distinct keys, most
    recent first, cut at the capacity; ntfs_free_cache then meets those items. *)
Theorem cache_refines_lru {P K} `{EqDecision K} (key : item P -> K) dohash dofree junk has_hash n nh ops :
  (2 <= n)%nat ->
  (has_hash && negb (nh =? 0)%nat = true ->
     (forall y w, key y = key w -> dohash y = dohash w) /\ forall x, 0 <= dohash x < Z.of_nat nh) ->
  Forall wf_op ops ->
  let '(xs, log, rs) := spec_run key dofree n [] [] ops in
  exists c0 c, ntfs_create_cache junk has_hash n nh = Some c0 /\ cache_run key dohash dofree c0 ops = Some (c, rs) /\
    freed c = log /\ NoDup (key <$> xs) /\ (length xs <= n)%nat /\
    forall fr, ntfs_free_cache fr (S n) c (most_recent_entry c) = Some (if fr then xs else []).
Proof.
  intros Hn Hh Hw. destruct (create_ok dohash junk has_hash n nh) as (c0 & E0 & Hf0 & H0); [lia|].
  assert (holds key dohash (has_hash && negb (nh =? 0)%nat) n nh c0 [] []) as Hc by (exists [], (seq 0 n); split_and!; [done | done | constructor]).
  destruct (cache_run_ok key dohash dofree _ n nh (fun E => proj1 (Hh E)) (fun E => proj2 (Hh E)) Hn ops c0 [] [] Hc Hw) as (c & E & lru & free & H & Hf & Hnd).
  destruct (spec_run key dofree n [] [] ops) as [[xs log] rs]. cbn [fst snd] in *. exists c0, c. split_and!; try done.
  - rewrite <-(Forall2_length _ _ _ (rp_items _ _ _ _ _ _ _ _ H)), <-(rp_cap _ _ _ _ _ _ _ _ H), <-(lo_len _ _ _ (rp_lists _ _ _ _ _ _ _ _ H)), length_app. lia.
  - intros fr. rewrite (lo_mr _ _ _ (rp_lists _ _ _ _ _ _ _ _ H)). apply free_ok.
    + apply (lo_next _ _ _ (rp_lists _ _ _ _ _ _ _ _ H)).
    + apply (rp_items _ _ _ _ _ _ _ _ H).
    + rewrite <-(rp_cap _ _ _ _ _ _ _ _ H), <-(lo_len _ _ _ (rp_lists _ _ _ _ _ _ _ _ H)), length_app. lia.
Qed.

(** Two entries, four chains: item 2 gives way to item 3, and item 1 is taken. *)
Lemma cache_refines_lru_witness :
  let it k := Item k None 0 in
  let ops := [Enter (it 1); Enter (it 2); Fetch (it 1); Enter (it 3); Fetch (it 2); Take (it 1) true; Enter (it 7); Invalidate (it 3) false] in
  exists c0 c, ntfs_create_cache (fun _ => Entry None None (it 0)) true 2 4 = Some c0 /\
    cache_run payload (fun x => payload x mod 4) true c0 ops =
      Some (c, [Found (Some (it 1)); Found (Some (it 2)); Found (Some (it 1)); Found (Some (it 3)); Found None; Found (Some (it 1));
                Found (Some (it 7)); Count 1]) /\
    freed c = [it 2; it 1] /\ NoDup (payload <$> [it 7]) /\ (length [it 7%Z] <= 2)%nat /\
    forall fr, ntfs_free_cache fr 3 c (most_recent_entry c) = Some (if fr then [it 7] else []).
Proof.
  intros it ops. assert (spec_run payload true 2 [] [] ops = ([it 7], [it 2; it 1],
    [Found (Some (it 1)); Found (Some (it 2)); Found (Some (it 1)); Found (Some (it 3)); Found None; Found (Some (it 1)); Found (Some (it 7)); Count 1])) as E
    by (vm_compute; reflexivity).
  pose proof (cache_refines_lru payload (fun x => payload x mod 4) true (fun _ => Entry None None (it 0)) true 2 4 ops) as T.
  rewrite E in T. apply T.
  - lia.
  - intros _. split; [by intros y w ->|]. intros x. apply Z.mod_pos_bound. lia.
  - repeat constructor; cbn; by left.
Defined.

(** ** A shortage of memory *)

Lemma self_loop {P} (c : cache P) h e d fuel : entries c !! h = Some e -> next e = Some h -> d (it e) = true -> lru_search fuel c (Some h) d = None.
Proof. intros He Hn Hd. induction fuel as [|fuel IH]; [done|]. cbn [lru_search]. rewrite He. cbn [mbind option_bind]. by rewrite Hd, Hn. Qed.

(** Without memory for the variable part the entry goes to the free list, and the
    head of the list still points back to it. *)
Lemma enter_enomem {P} (dohash : item P -> Z) dofree n nh c lru free y xs x d : (2 <= n)%nat -> repr dohash false n nh c lru free (y :: xs) ->
  position d (y :: xs) = None -> 0 < varsize x ->
  exists c1 h p t e, ntfs_enter_cache dohash dofree c x d false = Some (c1, None) /\ most_recent_entry c1 = Some h /\ use_hash c1 = false /\
    p <> h /\ (p < length (entries c1))%nat /\ Forall (fun q => (q < length (entries c1))%nat /\ q <> h) t /\
    entries c1 !! h = Some e /\ it e = y /\ previous e = Some p /\ next e = head t.
Proof.
  intros Hn H Hd Hv. unfold ntfs_enter_cache. rewrite (search_ok dohash false n nh c lru free _ x d H) by done. rewrite Hd. cbn [mbind option_bind].
  destruct (get_entry_ok dohash dofree false n nh ltac:(done) _ _ _ _ x false Hn H) as (c1 & p & lru1 & free1 & -> & Hdt & [Hu _] & Hc & Hx & _ & e & He & Hev & Hes).
  cbn [mbind option_bind]. destruct (attach dohash _ _ _ _ Hdt) as (c2 & -> & A1 & A2 & A3 & _). cbn [mbind option_bind].
  destruct n as [|[|n]]; [lia.. |]. cbn in Hx. apply Forall2_cons_inv_r in Hx as (h & t & Hh & Ht & ->).
  destruct (lists_entry c2 [] p (h :: t) free1 A1) as (ep & Ep & Epn & _). destruct (lists_entry c2 [p] h t free1 A1) as (eh & Eh & Ehn & Ehp).
  pose proof (lo_nodup _ _ _ A1) as (Hnd & _ & _)%NoDup_app. apply NoDup_cons in Hnd as [Hp Hnd]. apply NoDup_cons in Hnd as [Hht _].
  assert (p <> h) as Hph by (intros ->; apply Hp; by left). pose proof (lookup_lt_Some _ _ _ Ep) as Hpl.
  assert (it ep = it e) as Hit by (pose proof (A3 p) as E; unfold item_at in E; rewrite Ep, He in E; by injection E).
  unfold fill_entry. rewrite Ep. cbn [mbind option_bind]. rewrite Hit, Hev, (proj2 (Z.eqb_neq (varsize x) 0)) by lia. cbn [allocate].
  rewrite set_item_ok by done. cbn [mbind option_bind]. rewrite set_next_ok by (cbn; by rewrite length_alter). cbn [mbind option_bind].
  eexists _, h, p, t, eh. split; [done|]. cbn [set_stats set_free set_entries set_lru most_recent_entry use_hash entries]. rewrite !length_alter.
  split_and!; try done.
  - destruct A2 as (_ & _ & E & _). congruence.
  - apply Forall_forall. intros q Hq. split; [|by intros ->]. apply (lists_range _ _ _ q A1). apply elem_of_app. left. right. by right.
  - by rewrite !list_lookup_alter_ne.
  - pose proof (A3 h) as E. rewrite Hh in E. unfold item_at in E. rewrite Eh in E. by injection E.
Qed.

(** Such a head, moved to the front, points to itself. *)
Lemma stale_head_loops {P} (c : cache P) h p t e : most_recent_entry c = Some h -> p <> h -> (p < length (entries c))%nat ->
  Forall (fun q => (q < length (entries c))%nat /\ q <> h) t -> entries c !! h = Some e -> previous e = Some p -> next e = head t ->
  exists c' e', move_to_front c h = Some c' /\ most_recent_entry c' = Some h /\ entries c' !! h = Some e' /\ next e' = Some h /\ it e' = it e.
Proof.
  intros Hm Hph Hp Ht He Hep Hen. pose proof (lookup_lt_Some _ _ _ He) as Hh. unfold move_to_front. rewrite He. cbn [mbind option_bind]. rewrite Hep, Hen.
  rewrite set_next_ok by done. cbn [mbind option_bind].
  set (c1 := set_entries c (alter (with_next (head t)) p (entries c))).
  assert (exists c2, (match head t with Some n => set_previous c1 n (Some p) | None => Some (set_lru c1 (most_recent_entry c1) (Some p)) end) = Some c2 /\
    entries c2 !! h = Some e /\ most_recent_entry c2 = Some h /\ (h < length (entries c2))%nat) as (c2 & -> & E2 & M2 & L2).
  { assert (entries c1 !! h = Some e) as E1 by (unfold c1; cbn; by rewrite list_lookup_alter_ne). destruct t as [|q t]; cbn [head].
    - eexists. split; [done|]. split_and!; [exact E1 | exact Hm | cbn; by rewrite length_alter].
    - apply Forall_cons in Ht as [[Hq Hqh] _]. rewrite set_previous_ok by (cbn; by rewrite length_alter). eexists. split; [done|].
      split_and!; [cbn; by rewrite list_lookup_alter_ne | exact Hm | cbn; by rewrite !length_alter]. }
  cbn [mbind option_bind]. rewrite set_next_ok by done. cbn [mbind option_bind]. rewrite set_previous_ok by (cbn; by rewrite length_alter).
  cbn [mbind option_bind set_entries most_recent_entry]. rewrite M2. cbn [mbind option_bind].
  rewrite set_previous_ok by (cbn; by rewrite !length_alter). cbn [mbind option_bind]. eexists _, _. split; [done|]. split; [done|].
  cbn [set_lru set_entries entries]. rewrite !list_lookup_alter_eq, E2. done.
Qed.

(** C15: When the variable part of a new item cannot be allocated, ntfs_enter_cache
    returns NULL, as it should, but leaves the head of a list that is not empty with
    a pointer back to the entry it put in the free list; the next fetch of the item
    at the head takes it for an entry to be moved to the front and makes it its own
    successor, so that a sequential search for any other item never ends. *)
Theorem cache_enomem_loops {P K} `{EqDecision K} (key : item P -> K) dohash dofree junk n nh ops c0 c y xs log rs rs' x w x' :
  (2 <= n)%nat -> Forall wf_op ops -> ntfs_create_cache junk false n nh = Some c0 -> cache_run key dohash dofree c0 ops = Some (c, rs') ->
  spec_run key dofree n [] [] ops = (y :: xs, log, rs) -> Forall (fun z => key z <> key x) (y :: xs) -> 0 < varsize x ->
  key y = key w -> key y <> key x' ->
  exists c1 c2 h, ntfs_enter_cache dohash dofree c x (compare key x) false = Some (c1, None) /\
    ntfs_fetch_cache dohash c1 w (compare key w) = Some (c2, Some h) /\ most_recent_entry c2 = Some h /\
    forall fuel, lru_search fuel c2 (most_recent_entry c2) (compare key x') = None.
Proof.
  intros Hn Hw E0 Er Es Hx Hv Hyw Hyx. destruct (create_ok dohash junk false n nh) as (c0' & E0' & Hf0 & H0); [lia|]. rewrite E0 in E0'. injection E0' as <-.
  assert (holds key dohash false n nh c0 [] []) as Hc by (exists [], (seq 0 n); split_and!; [done | done | constructor]).
  destruct (cache_run_ok key dohash dofree false n nh ltac:(done) ltac:(done) Hn ops c0 [] [] Hc Hw) as (c' & E & lru & free & H & _ & _).
  rewrite Er in E. injection E as <- _. rewrite Es in H. cbn [fst snd] in H.
  destruct (enter_enomem dohash dofree n nh c lru free y xs x (compare key x) Hn H) as (c1 & h & p & t & e & -> & M1 & U1 & Hph & Hp & Ht & He & Hey & Hep & Hen); [|done|].
  { apply position_none. eapply Forall_impl; [exact Hx|]. intros z Hz. by apply compare_true. }
  exists c1. unfold ntfs_fetch_cache, search. rewrite U1. rewrite M1. cbn [lru_search]. rewrite He. cbn [mbind option_bind].
  rewrite Hey, (proj2 (compare_false key w y) Hyw). cbn [mbind option_bind].
  destruct (stale_head_loops (set_stats c1 (reads c1) (writes c1) (u64 (hits c1 + 1))) h p t e) as (c2 & e' & -> & M2 & E2 & N2 & I2); try done.
  cbn [mbind option_bind]. eexists _, h. split; [done|]. split; [done|]. split; [done|]. intros fuel. cbn [set_stats most_recent_entry]. rewrite M2.
  apply (self_loop _ _ e'); [done | done|]. rewrite I2, Hey. by apply compare_true.
Qed.

(** Item 1 is cached, item 2 cannot be, item 1 is fetched, item 3 is looked for. *)
Lemma cache_enomem_loops_witness :
  let it k := Item k (Some [k]) 1 in
  exists c0 c, ntfs_create_cache (fun _ => Entry None None (it 0)) false 3 0 = Some c0 /\
    cache_run payload (fun _ => 0) false c0 [Enter (it 1)] = Some (c, [Found (Some (it 1))]) /\
    exists c1 c2 h, ntfs_enter_cache (fun _ => 0) false c (it 2) (compare payload (it 2)) false = Some (c1, None) /\
      ntfs_fetch_cache (fun _ => 0) c1 (it 1) (compare payload (it 1)) = Some (c2, Some h) /\ most_recent_entry c2 = Some h /\
      forall fuel, lru_search fuel c2 (most_recent_entry c2) (compare payload (it 3)) = None.
Proof.
  intros it. do 2 eexists. split; [vm_compute; reflexivity|]. split; [vm_compute; reflexivity|].
  eapply (cache_enomem_loops payload (fun _ => 0) false (fun _ => Entry None None (it 0)) 3 0 [Enter (it 1)] _ _ (it 1) [] [] [Found (Some (it 1))] [Found (Some (it 1))]).
  - lia.
  - apply Forall_cons; split; [|by apply Forall_nil]. right. split; [cbn; lia|]. by exists [1].
  - vm_compute. reflexivity.
  - vm_compute. reflexivity.
  - vm_compute. reflexivity.
  - by repeat constructor.
  - cbn. lia.
  - done.
  - done.
Defined.
