(* ===== verification/Sid.v ===== *)
(** Security identifiers and their mapping to Linux users and groups
    (libntfs-3g/acls.c).  A SID is the bytes of an object from an address on.
    The mapping is proved to be invertible at the end. *)

From S2P Require Import Prelude.
Local Open Scope Z_scope.
Local Open Scope c_scope.
Set Default Proof Using "Type*".

Definition SID_REVISION : Z := 1.
Definition SID_MAX_SUB_AUTHORITIES : Z := 15.

(** S-1-0-0, S-1-1-0, S-1-5-32-544, S-1-5-18, S-1-3-0 and S-1-3-1. *)
Definition nullsid : list Z := [1; 1; 0; 0; 0; 0; 0; 0; 0; 0; 0; 0].
Definition worldsid : list Z := [1; 1; 0; 0; 0; 0; 0; 1; 0; 0; 0; 0].
Definition adminsid : list Z := [1; 2; 0; 0; 0; 0; 0; 5; 32; 0; 0; 0; 32; 2; 0; 0].
Definition systemsid : list Z := [1; 1; 0; 0; 0; 0; 0; 5; 18; 0; 0; 0].
Definition ownersid : list Z := [1; 1; 0; 0; 0; 0; 0; 3; 0; 0; 0; 0].
Definition groupsid : list Z := [1; 1; 0; 0; 0; 0; 0; 3; 1; 0; 0; 0].

(** Fields of struct SID; the identifier authority is big-endian. *)
Definition be_to_cpup (n : nat) (m : list Z) (a : Z) : option Z :=
  bs ← zread m a (Z.of_nat n); Some (le_decode (reverse bs)).
Definition revision (m : list Z) (a : Z) : option Z := m.[a].
Definition sub_authority_count (m : list Z) (a : Z) : option Z := m.[a + 1].
Definition high_part (m : list Z) (a : Z) : option Z := be_to_cpup 2 m (a + 2).
Definition low_part (m : list Z) (a : Z) : option Z := be_to_cpup 4 m (a + 4).
Definition sub_authority (m : list Z) (a i : Z) : option Z := le32_to_cpup m (a + 8 + 4 * i).
Definition set_sub_authority (m : list Z) (a i v : Z) : option (list Z) := put_le32 m (a + 8 + 4 * i) v.

Definition ntfs_sid_size (m : list Z) (a : Z) : option Z :=
  cnt ← sub_authority_count m a; Some (cnt * 4 + 8).

Definition ntfs_same_sid (m1 : list Z) (a1 : Z) (m2 : list Z) (a2 : Z) : option bool :=
  size ← ntfs_sid_size m1 a1;
  size2 ← ntfs_sid_size m2 a2;
  if size2 =? size then
    first ← zread m1 a1 size;
    second ← zread m2 a2 size;
    Some (bool_decide (first = second))
  else Some false.

(** [x || y] and [x && y] that evaluate [y] only if needed. *)
Definition or_else (x y : option bool) : option bool := b ← x; if b : bool then Some true else y.
Definition and_then (x y : option bool) : option bool := b ← x; if b : bool then y else Some false.

Fixpoint subs_are (m : list Z) (a i : Z) (subs : list Z) : option bool :=
  match subs with
  | [] => Some true
  | s :: t => x ← sub_authority m a i; if x =? s then subs_are m a (i + 1) t else Some false
  end.

(** A SID with [cnt] sub-authorities, the first of which are [subs], of the
    authority [low]. *)
Definition sid_is (m : list Z) (a cnt low : Z) (subs : list Z) : option bool :=
  c ← sub_authority_count m a;
  if c =? cnt then
    h ← high_part m a;
    if h =? 0 then l ← low_part m a; if l =? low then subs_are m a 0 subs else Some false else Some false
  else Some false.

Definition is_world_sid (m : list Z) (a : Z) : option bool :=
  or_else (sid_is m a 1 1 [0]) (or_else (sid_is m a 2 5 [32; 545]) (or_else (sid_is m a 1 5 [11]) (sid_is m a 1 5 [4]))).

Definition ntfs_is_user_sid (m : list Z) (a : Z) : option bool := sid_is m a 5 5 [21].

Definition ntfs_known_group_sid (m : list Z) (a : Z) : option bool :=
  and_then (sid_is m a 1 5 []) (x ← sub_authority m a 0; Some ((1 <=? x) && (x <=? 6))).

Definition ntfs_valid_sid (m : list Z) (a : Z) : option bool :=
  r ← revision m a;
  if r =? SID_REVISION then cnt ← sub_authority_count m a; Some (cnt <=? SID_MAX_SUB_AUTHORITIES) else Some false.

Definition ntfs_valid_pattern (m : list Z) (a : Z) : option bool :=
  cnt ← sub_authority_count m a;
  auth ← sub_authority m a (cnt - 1);
  Some ((1000 <=? auth) && (auth <=? 0x7fffffff)).

(** ** Mapping *)

(** struct MAPPING; the list is the chain of [next]. *)
Record MAPPING := Mapping { xid : Z; sid : list Z }.

(** The copy of a pattern: its own size of it. *)
Definition copy_sid (pattern : list Z) : option (list Z) := size ← ntfs_sid_size pattern 0; zread pattern 0 size.

(** The loop of findimplicit over higher authorities. *)
Fixpoint carry_loop (fuel : nat) (psid : list Z) (m : list Z) (a cnt carry : Z) : option Z :=
  match fuel with
  | O => None
  | S f =>
      leauth ← sub_authority psid 0 (cnt - 2);
      psid ← set_sub_authority psid 0 (cnt - 2) (u32 (leauth + 1));
      same ← ntfs_same_sid psid 0 m a;
      if same : bool then Some carry else if carry + 1 <? 4 then carry_loop f psid m a cnt (carry + 1) else Some (carry + 1)
  end.

Definition findimplicit (m : list Z) (a : Z) (pattern : list Z) (parity : Z) : option Z :=
  psid ← copy_sid pattern;
  cnt ← sub_authority_count psid 0;
  xcnt ← sub_authority_count m a;
  if xcnt =? cnt then
    xlast ← sub_authority m a (cnt - 1);
    psid ← set_sub_authority psid 0 (cnt - 1) xlast;
    rlast ← sub_authority pattern 0 (cnt - 1);
    if (rlast <? xlast) && negb (Z.testbit (Z.lxor (Z.lxor xlast rlast) parity) 0) then
      let low := Z.land (Z.shiftr (xlast - rlast) 1) 0x3fffffff in
      same ← ntfs_same_sid psid 0 m a;
      if same : bool then Some low
      else carry ← carry_loop 3 psid m a cnt 1; Some (if carry <? 4 then Z.lor low (u32 (Z.shiftl carry 30)) else 0)
    else Some 0
  else Some 0.

(** The SID that a pattern gives to [id]: users have even, groups odd distances. *)
Definition implicit_sid (pattern : list Z) (id parity : Z) : option (list Z) :=
  defsid ← copy_sid pattern;
  cnt ← sub_authority_count defsid 0;
  leauth ← sub_authority defsid 0 (cnt - 1);
  defsid ← set_sub_authority defsid 0 (cnt - 1) (u32 (leauth + 2 * Z.land id 0x3fffffff + parity));
  if negb (Z.land id 0xc0000000 =? 0) then
    leauth ← sub_authority defsid 0 (cnt - 2);
    set_sub_authority defsid 0 (cnt - 2) (u32 (leauth + Z.land (Z.shiftr id 30) 3))
  else Some defsid.

(** [while (p && p->xid && p->xid != id) p = p->next] *)
Fixpoint find_xid (p : list MAPPING) (id : Z) : option MAPPING :=
  match p with
  | [] => None
  | e :: t => if (xid e =? 0) || (u32 (xid e) =? id) then Some e else find_xid t id
  end.

(** [while (p && p->xid && !ntfs_same_sid(usid, p->sid)) p = p->next] *)
Fixpoint find_same (p : list MAPPING) (m : list Z) (a : Z) : option (option MAPPING) :=
  match p with
  | [] => Some None
  | e :: t =>
      if xid e =? 0 then Some (Some e)
      else same ← ntfs_same_sid m a (sid e) 0; if same : bool then Some (Some e) else find_same t m a
  end.

(** [Some None] is the NULL pointer. *)
Definition find_sid (parity : Z) (mapping : list MAPPING) (id : Z) : option (option (list Z)) :=
  if id =? 0 then Some (Some adminsid)
  else
    match find_xid mapping id with
    | None => Some None
    | Some p => if xid p =? 0 then s ← implicit_sid (sid p) id parity; Some (Some s) else Some (Some (sid p))
    end.

Definition find_id (parity : Z) (mapping : list MAPPING) (m : list Z) (a : Z) : option Z :=
  p ← find_same mapping m a;
  match p with
  | None => Some 0
  | Some p => if xid p =? 0 then findimplicit m a (sid p) parity else Some (u32 (xid p))
  end.

Definition ntfs_find_usid := find_sid 0.
Definition ntfs_find_gsid := find_sid 1.
Definition ntfs_find_user := find_id 0.
Definition ntfs_find_group := find_id 1.

(** ** Well-formed SIDs *)

(** The bytes of one SID with [cnt] sub-authorities. *)
Definition wf_sid (s : list Z) (cnt : Z) : Prop := wf_bytes s /\ zlen s = 4 * cnt + 8 /\ zget s 1 = Some cnt.

Definition is_sid (s : list Z) : Prop := exists cnt, wf_sid s cnt.

#[export] Instance wf_sid_dec s cnt : Decision (wf_sid s cnt).
Proof. unfold wf_sid, wf_bytes. apply _. Defined.

(** A SID from its first bytes and its last two sub-authorities. *)
Definition sid_end (h : list Z) (x y : Z) : list Z := h ++ le_encode 4 x ++ le_encode 4 y.

Lemma wf_sid_size s cnt : wf_sid s cnt -> ntfs_sid_size s 0 = Some (zlen s).
Proof. intros (_ & Hl & H1). unfold ntfs_sid_size, sub_authority_count. change (0 + 1) with 1. rewrite H1. cbn. f_equal. lia. Qed.

Lemma same_sid_wf s1 s2 : is_sid s1 -> is_sid s2 -> ntfs_same_sid s1 0 s2 0 = Some (bool_decide (s1 = s2)).
Proof.
  intros [c1 H1] [c2 H2]. unfold ntfs_same_sid.
  rewrite (wf_sid_size s1 c1), (wf_sid_size s2 c2) by done. cbn [mbind option_bind].
  destruct (Z.eqb_spec (zlen s2) (zlen s1)) as [E|E].
  - rewrite zread_all, <-E, zread_all. done.
  - rewrite bool_decide_eq_false_2; [done|]. by intros ->.
Qed.

(** ** Mapping *)

Section pattern.
Context (h : list Z) (cnt : Z).
Context (Hcnt : 2 <= cnt) (Hh : zlen h = 4 * cnt) (Hw : wf_bytes h) (H1 : zget h 1 = Some cnt).

Lemma sid_end_wf x y : wf_sid (sid_end h x y) cnt.
Proof.
  unfold sid_end. repeat split.
  - apply Forall_app; split; [done|]. apply Forall_app; split; apply wf_le_encode.
  - autorewrite with zlen. lia.
  - by rewrite zget_app_l by lia.
Qed.

Lemma sid_end_count x y : sub_authority_count (sid_end h x y) 0 = Some cnt.
Proof. apply (sid_end_wf x y). Qed.

Lemma sid_end_x x y : sub_authority (sid_end h x y) 0 (cnt - 2) = Some (u32 x).
Proof. apply (ld_mid 4 h x). lia. Qed.

Lemma sid_end_y x y : sub_authority (sid_end h x y) 0 (cnt - 1) = Some (u32 y).
Proof.
  unfold sub_authority, le32_to_cpup, sid_end. rewrite app_assoc, <-(app_nil_r (le_encode 4 y)).
  apply ld_mid. autorewrite with zlen. lia.
Qed.

Lemma sid_end_set_x x y v : set_sub_authority (sid_end h x y) 0 (cnt - 2) v = Some (sid_end h v y).
Proof. apply (st_mid 4 h x). lia. Qed.

Lemma sid_end_set_y x y v : set_sub_authority (sid_end h x y) 0 (cnt - 1) v = Some (sid_end h x v).
Proof.
  unfold set_sub_authority, put_le32, sid_end. rewrite app_assoc, <-(app_nil_r (le_encode 4 y)).
  rewrite st_mid by (autorewrite with zlen; lia). by rewrite app_nil_r, <-app_assoc.
Qed.

Lemma sid_end_u32 x y : sid_end h (u32 x) (u32 y) = sid_end h x y.
Proof.
  unfold sid_end. do 2 f_equal; [|]; apply (le_encode_mod 4).
Qed.

Lemma sid_end_eq x y x' y' : sid_end h x y = sid_end h x' y' <-> u32 x = u32 x' /\ u32 y = u32 y'.
Proof.
  unfold sid_end. split.
  - intros E%app_inv_head. apply app_inj_1 in E as [Ex Ey]; [|done].
    apply le_encode_inj in Ex, Ey. done.
  - intros [Ex Ey]. f_equal. f_equal; apply le_encode_inj; done.
Qed.

Lemma sid_end_same x y x' y' : ntfs_same_sid (sid_end h x y) 0 (sid_end h x' y') 0 = Some (bool_decide (u32 x = u32 x' /\ u32 y = u32 y')).
Proof.
  rewrite same_sid_wf by (eexists; apply sid_end_wf). f_equal. apply bool_decide_ext, sid_end_eq.
Qed.

Lemma copy_sid_end x y : copy_sid (sid_end h x y) = Some (sid_end h x y).
Proof. unfold copy_sid. rewrite (wf_sid_size _ cnt) by apply sid_end_wf. cbn. apply zread_all. Qed.

(** The SID that a pattern gives to an id. *)
Lemma implicit_sid_end x0 y0 id parity :
  0 <= id < 2 ^ 32 ->
  implicit_sid (sid_end h x0 y0) id parity = Some (sid_end h (x0 + id / 2 ^ 30) (y0 + 2 * (id mod 2 ^ 30) + parity)).
Proof.
  intros Hid. unfold implicit_sid. rewrite copy_sid_end. cbn [mbind option_bind].
  rewrite sid_end_count. cbn [mbind option_bind]. rewrite sid_end_y. cbn [mbind option_bind].
  rewrite sid_end_set_y. cbn [mbind option_bind].
  rewrite (land_ones' id 0x3fffffff 30) by done.
  assert (u32 (u32 y0 + 2 * (id mod 2 ^ 30) + parity) = u32 (y0 + 2 * (id mod 2 ^ 30) + parity)) as ->.
  { unfold u32, wrap_u. rewrite <-!Z.add_assoc. apply Zplus_mod_idemp_l. }
  assert (Z.land id 0xc0000000 = 2 ^ 30 * (id / 2 ^ 30)) as ->.
  { change 0xc0000000 with (Z.shiftl 3 30). rewrite <-Z.shiftr_div_pow2, (Z.mul_comm (2 ^ 30)), <-Z.shiftl_mul_pow2 by done.
    apply Z.bits_inj'. intros i Hi. rewrite Z.land_spec, !Z.shiftl_spec by done.
    destruct (Z.lt_ge_cases i 30).
    - rewrite (Z.testbit_neg_r 3), (Z.testbit_neg_r (Z.shiftr id 30)) by lia. apply andb_false_r.
    - rewrite Z.shiftr_spec by lia. rewrite Z.sub_add.
      destruct (decide (i < 32)).
      + assert (i = 30 \/ i = 31) as [-> | ->] by lia; cbn; by rewrite andb_true_r.
      + assert (Z.testbit id i = false) as E; [|rewrite E; by destruct (Z.testbit 3 _)].
        rewrite <-(Z.mod_small id (2 ^ 32)) by done. apply Z.mod_pow2_bits_high. lia. }
  destruct (Z.eqb_spec (2 ^ 30 * (id / 2 ^ 30)) 0) as [E|E]; cbn [negb].
  - assert (id / 2 ^ 30 = 0) as -> by lia. f_equal. apply sid_end_eq. split; [by rewrite Z.add_0_r|].
    apply Z.mod_mod. done.
  - rewrite sid_end_x. cbn [mbind option_bind]. rewrite sid_end_set_x. f_equal. apply sid_end_eq. split.
    + rewrite Z.shiftr_div_pow2 by done. rewrite (land_ones' _ 3 2) by done.
      rewrite (Z.mod_small (id / 2 ^ 30)) by (change (2 ^ 2) with 4; divlia).
      unfold u32, wrap_u. rewrite Z.mod_mod by done. apply Zplus_mod_idemp_l.
    + apply Z.mod_mod. done.
Qed.

Lemma carry_loop_end x0 y k f c :
  1 <= c <= k -> k < 4 -> k - c < Z.of_nat f ->
  carry_loop f (sid_end h (x0 + (c - 1)) y) (sid_end h (x0 + k) y) 0 cnt c = Some k.
Proof.
  revert c; induction f as [|f IH]; intros c Hc Hk Hf; [lia|].
  cbn [carry_loop]. rewrite sid_end_x. cbn [mbind option_bind]. rewrite sid_end_set_x. cbn [mbind option_bind].
  assert (sid_end h (u32 (u32 (x0 + (c - 1)) + 1)) y = sid_end h (x0 + (c + 1 - 1)) y) as ->.
  { apply sid_end_eq. split; [|done]. unfold u32, wrap_u. rewrite Z.mod_mod, Zplus_mod_idemp_l by done. f_equal. lia. }
  rewrite sid_end_same. cbn [mbind option_bind]. destruct (bool_decide_reflect (u32 (x0 + (c + 1 - 1)) = u32 (x0 + k) /\ u32 y = u32 y)) as [[E _]|N].
  - f_equal. unfold u32, wrap_u in E. change (2 ^ 32) with 4294967296 in E. divlia.
  - destruct (Z.ltb_spec (c + 1) 4).
    + apply IH; [|done|lia]. split; [lia|]. destruct (decide (c = k)) as [->|]; [|lia].
      contradict N. split; [|done]. do 2 f_equal. lia.
    + contradict N. split; [|done]. do 2 f_equal. lia.
Qed.

(** The id of a SID that a pattern gave: for a user, the ids whose low 30 bits
    are zero are lost. *)
Lemma findimplicit_end x0 y0 id parity :
  0 <= id < 2 ^ 32 -> 0 <= y0 <= 0x7fffffff -> parity = 0 \/ parity = 1 ->
  findimplicit (sid_end h (x0 + id / 2 ^ 30) (y0 + 2 * (id mod 2 ^ 30) + parity)) 0 (sid_end h x0 y0) parity
  = Some (if (parity =? 0) && (id mod 2 ^ 30 =? 0) then 0 else id).
Proof.
  intros Hid Hy Hp. unfold findimplicit. rewrite copy_sid_end. cbn [mbind option_bind].
  rewrite !sid_end_count. cbn [mbind option_bind]. rewrite Z.eqb_refl, !sid_end_y. cbn [mbind option_bind].
  rewrite sid_end_set_y. cbn [mbind option_bind].
  assert (0 <= id mod 2 ^ 30 < 2 ^ 30) as Hlow by (apply Z.mod_pos_bound; done).
  assert (0 <= id / 2 ^ 30 < 4) as Hk by divlia.
  assert (id = 2 ^ 30 * (id / 2 ^ 30) + id mod 2 ^ 30) as Eid by (apply Z.div_mod; done).
  set (low := id mod 2 ^ 30) in *. set (k := id / 2 ^ 30) in *.
  change (2 ^ 30) with 1073741824 in Hlow, Eid.
  assert (forall z, 0 <= z < 2 ^ 32 -> u32 z = z) as U by (intros; by apply Z.mod_small).
  change (2 ^ 32) with 4294967296 in U. rewrite (U (y0 + 2 * low + parity)), (U y0) by lia.
  assert (Z.testbit (Z.lxor (Z.lxor (y0 + 2 * low + parity) y0) parity) 0 = false) as ->.
  { rewrite !Z.lxor_spec, !Z.bit0_odd, !Z.odd_add, Z.odd_mul. cbn [Z.odd andb].
    by destruct (Z.odd y0), Hp as [-> | ->]. }
  cbn [negb]. rewrite andb_true_r.
  destruct (Z.ltb_spec y0 (y0 + 2 * low + parity)) as [Hlt|Hge].
  2: { rewrite (proj2 (Z.eqb_eq parity 0)), (proj2 (Z.eqb_eq low 0)) by lia. done. }
  assert ((parity =? 0) && (low =? 0) = false) as ->.
  { apply andb_false_iff. destruct Hp; [right|left]; apply Z.eqb_neq; lia. }
  assert (Z.land (Z.shiftr (y0 + 2 * low + parity - y0) 1) 0x3fffffff = low) as ->.
  { rewrite (land_ones' _ _ 30), Z.shiftr_div_pow2 by done. change (2 ^ 1) with 2. change (2 ^ 30) with 1073741824. divlia. }
  rewrite sid_end_same. cbn [mbind option_bind].
  destruct (bool_decide_reflect (u32 x0 = u32 (x0 + k) /\ u32 (y0 + 2 * low + parity) = u32 (y0 + 2 * low + parity))) as [[E _]|N].
  - f_equal. unfold u32, wrap_u in E. change (2 ^ 32) with 4294967296 in E.
    assert (k = 0) by divlia. lia.
  - assert (k <> 0) as Hk0 by (intros E; apply N; by rewrite E, Z.add_0_r).
    assert (1 <= 1 <= k /\ k < 4 /\ k - 1 < Z.of_nat 3) as (Hc & Hc' & Hf) by lia.
    pose proof (carry_loop_end x0 (y0 + 2 * low + parity) k 3 1 Hc Hc' Hf) as E.
    change (1 - 1) with 0 in E. rewrite Z.add_0_r in E. rewrite E.
    cbn [mbind option_bind]. rewrite (proj2 (Z.ltb_lt _ _)) by lia.
    rewrite Z.shiftl_mul_pow2 by done. change (2 ^ 30) with 1073741824. rewrite U by lia.
    f_equal. rewrite Z.lor_comm, (lor_add _ _ 30); [lia|done|change (2 ^ 30) with 1073741824; lia|].
    by apply Z.mod_mul.
Qed.

End pattern.

(** ** The mapping as a whole *)

(** The explicit entries of a mapping file, before the default pattern. *)
Record entries_ok (es : list MAPPING) := {
  entries_xids : Forall (fun e => - 2 ^ 31 <= xid e < 2 ^ 31 /\ xid e <> 0) es;
  entries_sids : Forall (fun e => is_sid (sid e)) es;
  entries_xid_inj : NoDup ((fun e => u32 (xid e)) <$> es);
  entries_sid_inj : NoDup (sid <$> es);
  entries_admin : adminsid ∉ (sid <$> es)
}.

(** The SIDs that are read as a default pattern: encodesid lets through user
    SIDs and a few groups, whose last authority ntfs_valid_pattern refuses. *)
Definition pattern_ok (p : list Z) : Prop :=
  wf_sid p 5 /\ ntfs_is_user_sid p 0 = Some true /\ ntfs_valid_pattern p 0 = Some true.

#[export] Instance pattern_ok_dec p : Decision (pattern_ok p).
Proof. unfold pattern_ok. apply _. Defined.

Lemma split_word bs k : wf_bytes bs -> 0 <= k -> k + 4 <= zlen bs ->
  exists h x t, bs = h ++ le_encode 4 x ++ t /\ zlen h = k /\ 0 <= x < 2 ^ 32 /\ wf_bytes h /\ wf_bytes t.
Proof.
  intros Hw Hk Hl. exists (take (Z.to_nat k) bs), (le_decode (take 4 (drop (Z.to_nat k) bs))), (drop 4 (drop (Z.to_nat k) bs)).
  assert (length (take 4 (drop (Z.to_nat k) bs)) = 4%nat) as H4 by (rewrite length_take, length_drop; unfold zlen in Hl; lia).
  assert (wf_bytes (take 4 (drop (Z.to_nat k) bs))) as Hw4 by (by apply Forall_take, Forall_drop).
  pose proof (le_encode_decode _ Hw4) as E. rewrite H4 in E. rewrite E, !take_drop. split; [done|]. split.
  - unfold zlen in *. rewrite length_take. lia.
  - split; [|split; [by apply Forall_take | by apply Forall_drop, Forall_drop]].
    pose proof (le_decode_range _ Hw4) as R. unfold zlen in R. rewrite H4 in R. done.
Qed.

(** A pattern as [sid_end]. *)
Lemma pattern_split p : pattern_ok p ->
  exists h x0 y0, p = sid_end h x0 y0 /\ zlen h = 4 * 5 /\ wf_bytes h /\ zget h 1 = Some 5 /\ 1000 <= y0 <= 0x7fffffff.
Proof.
  intros ((Hw & Hl & H1) & _ & Hv).
  destruct (split_word p 20) as (h & x0 & t & -> & Hh & Hx & Hwh & Hwt); [done|lia|lia|].
  rewrite !zlen_app, zlen_le_encode in Hl.
  destruct (split_word t 0) as (h' & y0 & t' & -> & Hh' & Hy & _ & _); [done|lia|lia|].
  rewrite !zlen_app, zlen_le_encode in Hl.
  assert (h' = []) as -> by (destruct h'; [done|]; rewrite zlen_cons in Hh'; pose proof (zlen_nonneg h'); lia).
  assert (t' = []) as -> by (destruct t'; [done|]; rewrite zlen_cons in Hl; pose proof (zlen_nonneg t'); lia).
  cbn [app] in *. rewrite app_nil_r in *. rewrite zget_app_l in H1 by lia.
  exists h, x0, y0. do 4 (split; [done|]). revert Hv. change (h ++ le_encode 4 x0 ++ le_encode 4 y0) with (sid_end h x0 y0).
  unfold ntfs_valid_pattern. rewrite (sid_end_count h 5) by done. cbn [mbind option_bind].
  rewrite (sid_end_y h 5) by done. cbn [mbind option_bind]. rewrite (Z.mod_small y0) || (unfold u32, wrap_u; rewrite (Z.mod_small y0 (2 ^ 32)) by done).
  intros [= [H2%Z.leb_le H3%Z.leb_le]%andb_true_iff]. done.
Qed.

Lemma u32_eq0 x : - 2 ^ 31 <= x < 2 ^ 31 -> x <> 0 -> u32 x <> 0.
Proof. intros Hx Hn E. unfold u32, wrap_u in E. change (2 ^ 32) with 4294967296 in E. divlia. Qed.

(** The search by id stops at the entry of that id, or at the end. *)
Lemma find_xid_entries es rest id :
  entries_ok es ->
  (exists e, e ∈ es /\ u32 (xid e) = id /\ find_xid (es ++ rest) id = Some e) \/
  ((forall e, e ∈ es -> u32 (xid e) <> id) /\ find_xid (es ++ rest) id = find_xid rest id).
Proof.
  intros [Hx _ _ _ _]. induction Hx as [|e es [He He0] _ IH]; cbn [app find_xid].
  - right. split; [|done]. intros e He%elem_of_nil. done.
  - rewrite (proj2 (Z.eqb_neq _ _) He0), orb_false_l.
    destruct (Z.eqb_spec (u32 (xid e)) id) as [E|N].
    + left. exists e. split; [by left|done].
    + destruct IH as [(e' & Hin & HE)|[Hno HE]].
      * left. exists e'. split; [by right|done].
      * right. split; [|done]. intros e' [->|Hin]%elem_of_cons; [done|by apply Hno].
Qed.

(** So does the search by SID. *)
Lemma find_same_entries es rest s :
  entries_ok es -> is_sid s ->
  (exists e, e ∈ es /\ sid e = s /\ find_same (es ++ rest) s 0 = Some (Some e)) \/
  ((s ∉ (sid <$> es)) /\ find_same (es ++ rest) s 0 = find_same rest s 0).
Proof.
  intros [Hx Hs _ _ _] Hsid. induction es as [|e es IH]; cbn [app find_same fmap list_fmap].
  - right. split; [apply not_elem_of_nil|done].
  - apply Forall_cons in Hx as [[He He0] Hx], Hs as [Hse Hs].
    rewrite (proj2 (Z.eqb_neq _ _) He0), (same_sid_wf s (sid e)) by done. cbn [mbind option_bind].
    destruct (bool_decide_reflect (s = sid e)) as [E|N].
    + left. exists e. split; [by left|done].
    + destruct (IH Hx Hs) as [(e' & Hin & HE)|[Hno HE]].
      * left. exists e'. split; [by right|done].
      * right. split; [|done]. by rewrite not_elem_of_cons.
Qed.

Lemma entries_same_xid es e e' :
  entries_ok es -> e ∈ es -> e' ∈ es -> sid e = sid e' -> xid e = xid e'.
Proof.
  intros H (i & Hi)%list_elem_of_lookup (j & Hj)%list_elem_of_lookup E.
  assert (i = j) as ->; [|congruence].
  apply (NoDup_lookup (sid <$> es) _ _ (sid e)); [by destruct H | by rewrite list_lookup_fmap, Hi | by rewrite list_lookup_fmap, Hj, E].
Qed.

Lemma adminsid_sid : is_sid adminsid.
Proof. exists 2. apply (bool_decide_eq_true_1 (wf_sid adminsid 2)). by vm_compute. Qed.

(** C22: a mapping of user or group ids to SIDs (explicit entries, then a default
    pattern) is an injection with its inverse: ntfs_find_usid and
    ntfs_find_gsid find a SID for every 32-bit id, and ntfs_find_user and
    ntfs_find_group find the id back from it.  The exceptions are the user ids
    other than 0 with their low 30 bits zero, that the default pattern covers:
    they come back as 0, which is root. *)
Theorem mapping_roundtrip es pat rest parity id :
  parity = 0 \/ parity = 1 -> entries_ok es -> xid pat = 0 -> pattern_ok (sid pat) ->
  (forall e i, e ∈ es -> 0 <= i < 2 ^ 32 -> implicit_sid (sid pat) i parity <> Some (sid e)) ->
  0 <= id < 2 ^ 32 ->
  exists s, find_sid parity (es ++ pat :: rest) id = Some (Some s) /\
    find_id parity (es ++ pat :: rest) s 0 =
      Some (if bool_decide (parity = 0 /\ id mod 2 ^ 30 = 0 /\ Forall (fun e => u32 (xid e) <> id) es) then 0 else id).
Proof.
  intros Hp Hes Hx Hpat Hdisj Hid. destruct (pattern_split _ Hpat) as (h & x0 & y0 & Es & Hh & Hw & H1 & Hy).
  assert (2 <= 5) as H5 by done. unfold find_sid, find_id.
  destruct (Z.eqb_spec id 0) as [->|Hid0].
  - exists adminsid. split; [done|]. assert (forall b : bool, (if b then 0 else 0) = 0) as -> by (by intros []).
    destruct (find_same_entries es (pat :: rest) adminsid Hes adminsid_sid) as [(e & Hin & E & _)|[_ ->]].
    { destruct Hes as [_ _ _ _ Ha]. contradict Ha. rewrite <-E. by apply list_elem_of_fmap_2. }
    cbn [find_same]. rewrite (proj2 (Z.eqb_eq _ _) Hx). cbn [mbind option_bind]. rewrite (proj2 (Z.eqb_eq _ _) Hx).
    rewrite Es. unfold findimplicit. rewrite (copy_sid_end h 5) by done. cbn [mbind option_bind].
    rewrite (sid_end_count h 5) by done. done.
  - destruct (find_xid_entries es (pat :: rest) id Hes) as [(e & Hin & He & ->)|[Hno ->]].
    + pose proof (entries_xids es Hes) as Hxs. pose proof (entries_sids es Hes) as Hss. rewrite Forall_forall in Hxs, Hss.
      destruct (Hxs e Hin) as [_ He0]. rewrite (proj2 (Z.eqb_neq _ _) He0). exists (sid e). split; [done|].
      rewrite bool_decide_eq_false_2. 2: { intros (_ & _ & Hf). rewrite Forall_forall in Hf. by apply (Hf e). }
      destruct (find_same_entries es (pat :: rest) (sid e) Hes (Hss e Hin)) as [(e' & Hin' & E & ->)|[Hn _]].
      * cbn [mbind option_bind]. rewrite (entries_same_xid es e' e) by done. rewrite (proj2 (Z.eqb_neq _ _) He0). by rewrite He.
      * contradict Hn. by apply list_elem_of_fmap_2.
    + cbn [find_xid]. rewrite (proj2 (Z.eqb_eq _ _) Hx), orb_true_l, (proj2 (Z.eqb_eq _ _) Hx).
      assert (implicit_sid (sid pat) id parity = Some (sid_end h (x0 + id / 2 ^ 30) (y0 + 2 * (id mod 2 ^ 30) + parity))) as Ei
        by (rewrite Es; by apply (implicit_sid_end h 5)).
      rewrite Ei. cbn [mbind option_bind]. eexists; split; [done|].
      destruct (find_same_entries es (pat :: rest) _ Hes (ex_intro _ 5 (sid_end_wf h 5 H5 Hh Hw H1 (x0 + id / 2 ^ 30) (y0 + 2 * (id mod 2 ^ 30) + parity)))) as [(e & Hin & E & _)|[_ ->]].
      { exfalso. apply (Hdisj e id Hin Hid). by rewrite Ei, E. }
      cbn [find_same]. rewrite (proj2 (Z.eqb_eq _ _) Hx). cbn [mbind option_bind]. rewrite (proj2 (Z.eqb_eq _ _) Hx), Es.
      rewrite (findimplicit_end h 5) by (done || lia). f_equal. symmetry.
      destruct (Z.eqb_spec parity 0), (Z.eqb_spec (id mod 2 ^ 30) 0); cbn [andb];
        [rewrite bool_decide_eq_true_2 | rewrite bool_decide_eq_false_2..]; try done; try tauto.
      split_and!; [done..|]. by apply Forall_forall.
Qed.

(** S-1-5-21-a-b-c-d *)
Definition user_sid (a b c d : Z) : list Z :=
  [1; 5; 0; 0; 0; 0; 0; 5] ++ concat (le_encode 4 <$> [21; a; b; c; d]).

(** 1000 is S-1-5-21-7-8-9-1001, others follow S-1-5-21-1-2-3-10000; 5 2^28 + 77
    is S-1-5-21-1-2-4-536881066. *)
Lemma mapping_roundtrip_witness :
  exists s, find_sid 0 [Mapping 1000 (user_sid 7 8 9 1001); Mapping 0 (user_sid 1 2 3 10000)] 1342177357 = Some (Some s) /\
    find_id 0 [Mapping 1000 (user_sid 7 8 9 1001); Mapping 0 (user_sid 1 2 3 10000)] s 0 = Some 1342177357.
Proof.
  destruct (mapping_roundtrip [Mapping 1000 (user_sid 7 8 9 1001)] (Mapping 0 (user_sid 1 2 3 10000)) [] 0 1342177357)
    as (s & H1 & H2).
  - by left.
  - split.
    + by repeat constructor.
    + constructor; [|done]. exists 5. apply (bool_decide_eq_true_1 (wf_sid _ 5)). by vm_compute.
    + apply NoDup_singleton.
    + apply NoDup_singleton.
    + cbn [fmap list_fmap sid]. rewrite list_elem_of_singleton. intros H. by vm_compute in H.
  - done.
  - apply (bool_decide_eq_true_1 (pattern_ok _)). by vm_compute.
  - intros e i ->%list_elem_of_singleton Hi. cbn [sid].
    change (user_sid 1 2 3 10000) with (sid_end (take 20 (user_sid 1 2 3 10000)) 3 10000).
    rewrite (implicit_sid_end _ 5) by (done || by repeat constructor).
    by intros [= H].
  - done.
  - exists s. split; [done|]. rewrite bool_decide_eq_false_2 in H2; [done|]. by intros (_ & H & _).
Defined.
