(* ===== verification/Acl.v ===== *)
(** Access control lists and security descriptors (libntfs-3g/acls.c, built
    without POSIXACLS): sizes and sanity checks, the descriptor made for a Linux
    mode, and the mode read from a descriptor. *)

From S2P Require Import Prelude Sid.
Local Open Scope Z_scope.
Local Open Scope c_scope.
Set Default Proof Using "Type*".

(** ** Constants *)

Definition S_ISUID : Z := 0x800.
Definition S_ISGID : Z := 0x400.
Definition S_ISVTX : Z := 0x200.
Definition S_IRUSR : Z := 0x100.
Definition S_IWUSR : Z := 0x80.
Definition S_IXUSR : Z := 0x40.
Definition S_IRGRP : Z := 0x20.
Definition S_IWGRP : Z := 0x10.
Definition S_IXGRP : Z := 0x8.
Definition S_IROTH : Z := 0x4.
Definition S_IWOTH : Z := 0x2.
Definition S_IXOTH : Z := 0x1.

Definition FILE_READ_DATA : Z := 0x1.
Definition FILE_LIST_DIRECTORY : Z := 0x1.
Definition FILE_WRITE_DATA : Z := 0x2.
Definition FILE_ADD_FILE : Z := 0x2.
Definition FILE_APPEND_DATA : Z := 0x4.
Definition FILE_ADD_SUBDIRECTORY : Z := 0x4.
Definition FILE_READ_EA : Z := 0x8.
Definition FILE_WRITE_EA : Z := 0x10.
Definition FILE_EXECUTE : Z := 0x20.
Definition FILE_TRAVERSE : Z := 0x20.
Definition FILE_DELETE_CHILD : Z := 0x40.
Definition FILE_READ_ATTRIBUTES : Z := 0x80.
Definition FILE_WRITE_ATTRIBUTES : Z := 0x100.
Definition DELETE : Z := 0x10000.
Definition READ_CONTROL : Z := 0x20000.
Definition WRITE_DAC : Z := 0x40000.
Definition WRITE_OWNER : Z := 0x80000.
Definition SYNCHRONIZE : Z := 0x100000.
Definition GENERIC_EXECUTE : Z := 0x20000000.
Definition GENERIC_WRITE : Z := 0x40000000.
Definition GENERIC_READ : Z := 0x80000000.

Fixpoint flags (l : list Z) : Z := match l with [] => 0 | f :: t => Z.lor f (flags t) end.

Definition FILE_READ : Z := FILE_READ_DATA.
Definition FILE_WRITE : Z := flags [FILE_WRITE_DATA; FILE_APPEND_DATA; READ_CONTROL; FILE_WRITE_ATTRIBUTES; FILE_WRITE_EA].
Definition FILE_EXEC : Z := FILE_EXECUTE.
Definition DIR_READ : Z := FILE_LIST_DIRECTORY.
Definition DIR_WRITE : Z :=
  flags [FILE_ADD_FILE; FILE_ADD_SUBDIRECTORY; FILE_DELETE_CHILD; READ_CONTROL; FILE_WRITE_ATTRIBUTES; FILE_WRITE_EA].
Definition DIR_EXEC : Z := FILE_TRAVERSE.
Definition FILE_GREAD : Z := flags [FILE_READ_DATA; GENERIC_READ].
Definition FILE_GWRITE : Z := flags [FILE_WRITE_DATA; FILE_APPEND_DATA; GENERIC_WRITE].
Definition FILE_GEXEC : Z := flags [FILE_EXECUTE; GENERIC_EXECUTE].
Definition DIR_GREAD : Z := flags [FILE_LIST_DIRECTORY; GENERIC_READ].
Definition DIR_GWRITE : Z := flags [FILE_ADD_FILE; FILE_ADD_SUBDIRECTORY; GENERIC_WRITE].
Definition DIR_GEXEC : Z := flags [FILE_TRAVERSE; GENERIC_EXECUTE].
Definition OWNER_RIGHTS : Z :=
  flags [DELETE; READ_CONTROL; WRITE_DAC; WRITE_OWNER; SYNCHRONIZE; FILE_READ_ATTRIBUTES; FILE_WRITE_ATTRIBUTES;
         FILE_READ_EA; FILE_WRITE_EA].
Definition WORLD_RIGHTS : Z := flags [READ_CONTROL; FILE_READ_ATTRIBUTES; FILE_READ_EA; SYNCHRONIZE].
Definition ROOT_OWNER_UNMARK : Z := SYNCHRONIZE.
Definition ROOT_GROUP_UNMARK : Z := FILE_READ_EA.

Definition OBJECT_INHERIT_ACE : Z := 1.
Definition CONTAINER_INHERIT_ACE : Z := 2.
Definition NO_PROPAGATE_INHERIT_ACE : Z := 4.
Definition INHERIT_ONLY_ACE : Z := 8.
Definition FILE_INHERITANCE : Z := NO_PROPAGATE_INHERIT_ACE.
Definition DIR_INHERITANCE : Z := flags [OBJECT_INHERIT_ACE; CONTAINER_INHERIT_ACE].
Definition ACCESS_ALLOWED_ACE_TYPE : Z := 0.
Definition ACCESS_DENIED_ACE_TYPE : Z := 1.
Definition ACL_REVISION : Z := 2.
Definition ACL_REVISION_DS : Z := 4.
Definition SECURITY_DESCRIPTOR_REVISION : Z := 1.
Definition SE_DACL_PRESENT : Z := 0x4.
Definition SE_SACL_PRESENT : Z := 0x10.
Definition SE_DACL_PROTECTED : Z := 0x1000.
Definition SE_SELF_RELATIVE : Z := 0x8000.

(** [x & f], as a condition. *)
Definition has (x f : Z) : bool := negb (Z.land x f =? 0).

(** ** Structures *)

(** struct ACCESS_ALLOWED_ACE, 20 bytes with a SID of 12. *)
Definition sizeof_ACE : Z := 20.
Definition ace_type (m : list Z) (a : Z) : option Z := m.[a].
Definition ace_flags (m : list Z) (a : Z) : option Z := m.[a + 1].
Definition ace_size (m : list Z) (a : Z) : option Z := le16_to_cpup m (a + 2).
Definition ace_mask (m : list Z) (a : Z) : option Z := le32_to_cpup m (a + 4).

(** struct ACL: revision, alignment1, size, ace_count, alignment2. *)
Definition sizeof_ACL : Z := 8.
Definition acl_revision (m : list Z) (a : Z) : option Z := m.[a].
Definition acl_size (m : list Z) (a : Z) : option Z := le16_to_cpup m (a + 2).
Definition ace_count (m : list Z) (a : Z) : option Z := le16_to_cpup m (a + 4).

(** struct SECURITY_DESCRIPTOR_RELATIVE: revision, alignment, control, and the
    offsets of its parts. *)
Definition sizeof_DESCR : Z := 20.
Definition d_revision (m : list Z) : option Z := m.[0].
Definition d_control (m : list Z) : option Z := le16_to_cpup m 2.
Definition d_owner (m : list Z) : option Z := le32_to_cpup m 4.
Definition d_group (m : list Z) : option Z := le32_to_cpup m 8.
Definition d_sacl (m : list Z) : option Z := le32_to_cpup m 12.
Definition d_dacl (m : list Z) : option Z := le32_to_cpup m 16.

(** ** Sanity checks *)

Definition ntfs_attr_size (attr : list Z) : option Z :=
  let attrsz := sizeof_DESCR in
  offgroup ← d_group attr;
  attrsz ← (if attrsz <=? offgroup then
              size ← ntfs_sid_size attr offgroup;
              Some (if attrsz <? u32 (offgroup + size) then u32 (offgroup + size) else attrsz)
            else Some attrsz);
  offowner ← d_owner attr;
  attrsz ← (if attrsz <=? offowner then size ← ntfs_sid_size attr offowner; Some (u32 (offowner + size)) else Some attrsz);
  offsacl ← d_sacl attr;
  attrsz ← (if attrsz <=? offsacl then
              size ← acl_size attr offsacl;
              Some (if attrsz <? u32 (offsacl + size) then u32 (offsacl + size) else attrsz)
            else Some attrsz);
  offdacl ← d_dacl attr;
  if attrsz <=? offdacl then
    size ← acl_size attr offdacl;
    Some (if attrsz <? u32 (offdacl + size) then u32 (offdacl + size) else attrsz)
  else Some attrsz.

(** The loop of valid_acl: [n] more ACEs, the next one is number [nace]. *)
Fixpoint valid_aces (n : nat) (m : list Z) (pacl endacl acecnt nace offace : Z) : option bool :=
  match n with
  | O => Some true
  | S n' =>
      if endacl <? offace + sizeof_ACE then Some false
      else
        acesz ← ace_size m (pacl + offace);
        ok ← (if endacl <? u32 (offace + acesz) then Some false else ntfs_valid_sid m (pacl + offace + 8));
        if ok : bool then
          size ← ntfs_sid_size m (pacl + offace + 8);
          let wantsz := size + 8 in
          if ((nace <? acecnt - 1) && negb (wantsz =? acesz)) || (acesz <? wantsz) then Some false
          else valid_aces n' m pacl endacl acecnt (nace + 1) (u32 (offace + acesz))
        else Some false
  end.

Definition valid_acl (m : list Z) (pacl endacl : Z) : option bool :=
  acecnt ← ace_count m pacl; valid_aces (Z.to_nat acecnt) m pacl endacl acecnt 0 sizeof_ACL.

(** An ACL, when there is one, has its flag set and a known revision. *)
Definition acl_announced (m : list Z) (off flag : Z) : option bool :=
  if off =? 0 then Some true
  else
    control ← d_control m;
    if has control flag then
      rev ← acl_revision m off;
      if rev =? ACL_REVISION then Some true else rev ← acl_revision m off; Some (rev =? ACL_REVISION_DS)
    else Some false.

Definition ntfs_valid_descr (securattr : list Z) (attrsz : Z) : option bool :=
  offdacl ← d_dacl securattr;
  offsacl ← d_sacl securattr;
  offowner ← d_owner securattr;
  offgroup ← d_group securattr;
  ok ← and_then (Some (sizeof_DESCR <=? attrsz))
      (and_then (rev ← d_revision securattr; Some (rev =? SECURITY_DESCRIPTOR_REVISION))
      (and_then (Some ((sizeof_DESCR <=? offowner) && (u32 (offowner + 2) <? attrsz)
          && (sizeof_DESCR <=? offgroup) && (u32 (offgroup + 2) <? attrsz)
          && ((offdacl =? 0) || ((sizeof_DESCR <=? offdacl) && (offdacl + sizeof_ACL <=? attrsz)))
          && ((offsacl =? 0) || ((sizeof_DESCR <=? offsacl) && (offsacl + sizeof_ACL <=? attrsz)))
          && negb (has offowner 3) && negb (has offgroup 3) && negb (has offdacl 3) && negb (has offsacl 3)))
      (and_then (size ← ntfs_attr_size securattr; Some (size <=? attrsz))
      (and_then (ntfs_valid_sid securattr offowner)
      (and_then (ntfs_valid_sid securattr offgroup)
      (and_then (acl_announced securattr offdacl SE_DACL_PRESENT)
                (acl_announced securattr offsacl SE_SACL_PRESENT)))))));
  if ok : bool then
    bad ← or_else (if offdacl =? 0 then Some false else negb <$> valid_acl securattr offdacl (attrsz - offdacl))
                  (if offsacl =? 0 then Some false else negb <$> valid_acl securattr offsacl (attrsz - offsacl));
    Some (negb bad)
  else Some false.

(** ** Building a descriptor *)

(** What exec, write and read give on a file or on a directory. *)
Definition set_if (b : bool) (flag g : Z) : Z := if b then Z.lor g flag else g.
Definition rights (isdir x w r : bool) (g : Z) : Z :=
  if isdir then set_if r DIR_READ (set_if w DIR_WRITE (set_if x DIR_EXEC g))
  else set_if r FILE_READ (set_if w FILE_WRITE (set_if x FILE_EXEC g)).
Definition inheritance (isdir : bool) : Z := if isdir then DIR_INHERITANCE else FILE_INHERITANCE.

(** The memory, [pos] and [acecnt] of buildacls. *)
Definition builder : Type := list Z * Z * Z.

Definition put_ace (m : list Z) (a type fl mask : Z) (sid : list Z) : option (list Z) :=
  size ← ntfs_sid_size sid 0;
  m ← zset m a type;
  m ← zset m (a + 1) fl;
  m ← put_le16 m (a + 2) (size + 8);
  m ← put_le32 m (a + 4) mask;
  s ← zread sid 0 size;
  zwrite m (a + 8) s.

Definition add_ace (offs : Z) (s : builder) (type fl mask : Z) (sid : list Z) : option builder :=
  let '(m, pos, acecnt) := s in
  m ← put_ace m (offs + pos) type fl mask sid;
  size ← ntfs_sid_size sid 0;
  Some (m, pos + size + 8, acecnt + 1).

(** [pdace->flags = ...] at the current position. *)
Definition set_flags (offs : Z) (s : builder) (fl : Z) : option builder :=
  let '(m, pos, acecnt) := s in m ← zset m (offs + pos + 1) fl; Some (m, pos, acecnt).

Definition owner_grants (mode : Z) (isdir : bool) : Z :=
  rights isdir (has mode S_IXUSR) (has mode S_IWUSR) (has mode S_IRUSR) OWNER_RIGHTS.
Definition group_grants (mode : Z) (isdir : bool) : Z :=
  rights isdir (has mode S_IXGRP) (has mode S_IWGRP) (has mode S_IRGRP) WORLD_RIGHTS.
Definition world_grants (mode : Z) (isdir : bool) : Z :=
  rights isdir (has mode S_IXOTH) (has mode S_IWOTH) (has mode S_IROTH) WORLD_RIGHTS.
Definition all_grants : Z := flags [OWNER_RIGHTS; FILE_READ; FILE_WRITE; FILE_EXEC].

(** What the owner is denied, before [& ~grants]. *)
Definition owner_denials (mode : Z) (isdir groupowns : bool) : Z :=
  if groupowns then
    rights isdir (has mode S_IXOTH && negb (has mode S_IXGRP)) (has mode S_IWOTH && negb (has mode S_IWGRP))
           (has mode S_IROTH && negb (has mode S_IRGRP)) 0
  else
    rights isdir (has mode (Z.lor S_IXGRP S_IXOTH)) (has mode (Z.lor S_IWGRP S_IWOTH)) (has mode (Z.lor S_IRGRP S_IROTH)) 0.

Definition deny_owner (offs : Z) (s : builder) (mode : Z) (isdir adminowns groupowns : bool) (usid : list Z) : option builder :=
  if adminowns then Some s
  else
    s ← set_flags offs s (inheritance isdir);
    let denials := Z.land (owner_denials mode isdir groupowns) (Z.lnot (owner_grants mode isdir)) in
    if negb (denials =? 0) then add_ace offs s ACCESS_DENIED_ACE_TYPE (inheritance isdir) denials usid else Some s.

Definition deny_world_exec (offs : Z) (s : builder) (isdir : bool) : option builder :=
  if isdir then add_ace offs s ACCESS_DENIED_ACE_TYPE (Z.lor INHERIT_ONLY_ACE OBJECT_INHERIT_ACE) FILE_EXEC worldsid
  else Some s.

(** The group's ACEs, unless it has the same rights as the world. *)
Definition group_differs (mode : Z) : bool := has (Z.lxor (Z.shiftr mode 3) mode) 7.
Definition group_has_more (mode : Z) : bool := has (Z.land (Z.shiftr mode 3) (Z.lnot mode)) 7.

Definition group_denials (mode : Z) (isdir : bool) : Z :=
  Z.land (rights isdir (has mode S_IXOTH) (has mode S_IWOTH) (has mode S_IROTH) 0)
         (Z.lnot (Z.lor (group_grants mode isdir) OWNER_RIGHTS)).

Definition group_aces (offs : Z) (s : builder) (mode : Z) (isdir adminowns groupowns : bool) (gsid : list Z) : option builder :=
  if adminowns || group_differs mode then
    s ← (if adminowns || groupowns then Some s
         else
           s ← set_flags offs s (inheritance isdir);
           let denials := group_denials mode isdir in
           if negb (denials =? 0) then add_ace offs s ACCESS_DENIED_ACE_TYPE (inheritance isdir) denials gsid else Some s);
    if adminowns || groupowns || group_has_more mode then
      add_ace offs s ACCESS_ALLOWED_ACE_TYPE (inheritance isdir) (group_grants mode isdir) gsid
    else Some s
  else Some s.

(** A null ACE that holds the special flags. *)
Definition special_ace (offs : Z) (s : builder) (mode : Z) : option builder :=
  if has mode (flags [S_ISVTX; S_ISGID; S_ISUID]) then
    add_ace offs s ACCESS_ALLOWED_ACE_TYPE NO_PROPAGATE_INHERIT_ACE
      (set_if (has mode S_ISVTX) FILE_READ_DATA (set_if (has mode S_ISGID) FILE_WRITE_DATA (set_if (has mode S_ISUID) FILE_APPEND_DATA 0)))
      nullsid
  else Some s.

Definition adminowner (usid gsid : list Z) : option bool :=
  or_else (ntfs_same_sid usid 0 adminsid 0) (ntfs_same_sid gsid 0 adminsid 0).

Definition buildacls (secattr : list Z) (offs mode : Z) (isdir : bool) (usid gsid : list Z) : option (list Z * Z) :=
  usidsz ← ntfs_sid_size usid 0;
  adminowns ← adminowner usid gsid;
  groupowns ← and_then (Some (negb adminowns)) (ntfs_same_sid usid 0 gsid 0);
  m ← zset secattr offs ACL_REVISION;
  m ← zset m (offs + 1) 0;
  m ← put_le16 m (offs + 2) (sizeof_ACL + usidsz + 8);
  m ← put_le16 m (offs + 4) 1;
  m ← put_le16 m (offs + 6) 0;
  let s := (m, sizeof_ACL, 0) in
  s ← deny_owner offs s mode isdir adminowns groupowns usid;
  s ← deny_world_exec offs s isdir;
  s ← add_ace offs s ACCESS_ALLOWED_ACE_TYPE (inheritance isdir) (owner_grants mode isdir) usid;
  s ← group_aces offs s mode isdir adminowns groupowns gsid;
  s ← add_ace offs s ACCESS_ALLOWED_ACE_TYPE (inheritance isdir) (world_grants mode isdir) worldsid;
  s ← add_ace offs s ACCESS_ALLOWED_ACE_TYPE (inheritance isdir) all_grants adminsid;
  s ← add_ace offs s ACCESS_ALLOWED_ACE_TYPE (inheritance isdir) all_grants systemsid;
  s ← special_ace offs s mode;
  let '(m, pos, acecnt) := s in
  m ← put_le16 m (offs + 2) pos;
  m ← put_le16 m (offs + 4) acecnt;
  Some (m, pos).

(** The size that is allocated for a descriptor. *)
Definition newattrsz (mode : Z) (isdir : bool) (usidsz gsidsz : Z) : option Z :=
  wsidsz ← ntfs_sid_size worldsid 0;
  asidsz ← ntfs_sid_size adminsid 0;
  ssidsz ← ntfs_sid_size systemsid 0;
  nsidsz ← ntfs_sid_size nullsid 0;
  Some (sizeof_DESCR + usidsz + gsidsz + sizeof_ACL + 2 * (8 + usidsz) + 2 * (8 + gsidsz) + 8 + wsidsz + 8 + asidsz + 8 + ssidsz
        + (if isdir then 8 + wsidsz else 0) + (if has mode 0xe00 then 8 + nsidsz else 0)).

Definition ntfs_build_descr (ntfs_malloc : Z -> option (list Z)) (mode : Z) (isdir : bool) (usid gsid : list Z) :
    option (result (list Z)) :=
  usidsz ← ntfs_sid_size usid 0;
  gsidsz ← ntfs_sid_size gsid 0;
  newattrsz ← newattrsz mode isdir usidsz gsidsz;
  match ntfs_malloc newattrsz with
  | None => Some (Err ENOMEM)
  | Some m =>
      m ← zset m 0 SECURITY_DESCRIPTOR_REVISION;
      m ← zset m 1 0;
      m ← put_le16 m 2 (flags [SE_DACL_PRESENT; SE_DACL_PROTECTED; SE_SELF_RELATIVE]);
      r ← buildacls m sizeof_DESCR mode isdir usid gsid;
      let '(m, aclsz) := r in
      if sizeof_DESCR + aclsz + usidsz + gsidsz <=? newattrsz then
        s ← zread usid 0 usidsz;
        m ← zwrite m (sizeof_DESCR + aclsz) s;
        s ← zread gsid 0 gsidsz;
        m ← zwrite m (sizeof_DESCR + aclsz + usidsz) s;
        m ← put_le32 m 4 (sizeof_DESCR + aclsz);
        m ← put_le32 m 8 (sizeof_DESCR + aclsz + usidsz);
        m ← put_le32 m 12 0;
        m ← put_le32 m 16 sizeof_DESCR;
        Some (Ok m)
      else Some (Err EIO)
  end.

(** ** Reading permissions *)

(** The mode bits that a mask of rights gives. *)
Definition mode_bits (isdir : bool) (g x w r : Z) : Z :=
  if g =? 0 then 0
  else
    set_if (has g (if isdir then DIR_GREAD else FILE_GREAD)) r
      (set_if (has g (if isdir then DIR_GWRITE else FILE_GWRITE)) w
        (set_if (has g (if isdir then DIR_GEXEC else FILE_GEXEC)) x 0)).

Definition special_bits (special : Z) : Z :=
  if special =? 0 then 0
  else
    set_if (has special FILE_READ_DATA) S_ISVTX
      (set_if (has special FILE_WRITE_DATA) S_ISGID (set_if (has special FILE_APPEND_DATA) S_ISUID 0)).

Definition merge_permissions (isdir : bool) (owner group world special : Z) : Z :=
  Z.lor (Z.lor (Z.lor (mode_bits isdir owner S_IXUSR S_IWUSR S_IRUSR) (mode_bits isdir group S_IXGRP S_IWGRP S_IRGRP))
    (mode_bits isdir world S_IXOTH S_IWOTH S_IROTH)) (special_bits special).

(** The rights collected by the loops over ACEs. *)
Record access := Access {
  special : Z; allowown : Z; allowgrp : Z; allowall : Z; denyown : Z; denygrp : Z; denyall : Z
}.

Definition no_access : access := Access 0 0 0 0 0 0 0.

Inductive who := Own | Grp | All.

Definition allow (w : who) (mask : Z) (s : access) : access :=
  let 'Access sp ao ag aa dO dg da := s in
  match w with
  | Own => Access sp (Z.lor ao mask) ag aa dO dg da
  | Grp => Access sp ao (Z.lor ag mask) aa dO dg da
  | All => Access sp ao ag (Z.lor aa mask) dO dg da
  end.

Definition deny (w : who) (mask : Z) (s : access) : access :=
  let 'Access sp ao ag aa dO dg da := s in
  match w with
  | Own => Access sp ao ag aa (Z.lor dO mask) dg da
  | Grp => Access sp ao ag aa dO (Z.lor dg mask) da
  | All => Access sp ao ag aa dO dg (Z.lor da mask)
  end.

Definition add_special (mask : Z) (s : access) : access :=
  let 'Access sp ao ag aa dO dg da := s in Access (Z.lor sp mask) ao ag aa dO dg da.

Definition allow_or_deny (w : who) (type mask : Z) (s : access) : access :=
  if type =? ACCESS_ALLOWED_ACE_TYPE then allow w mask s
  else if type =? ACCESS_DENIED_ACE_TYPE then deny w mask s else s.

(** [for (nace = 0; nace < acecnt; nace++)] over the ACEs from [offace] on. *)
Fixpoint for_aces {S} (body : Z -> S -> option S) (m : list Z) (n : nat) (offace : Z) (s : S) : option S :=
  match n with
  | O => Some s
  | Datatypes.S n' =>
      s ← body offace s;
      size ← ace_size m offace;
      for_aces body m n' (offace + size) s
  end.

Definition for_dacl {S} (body : Z -> S -> option S) (securattr : list Z) (s : S) : option S :=
  off ← d_dacl securattr;
  let offdacl := s32 off in
  if negb (offdacl =? 0) then
    acecnt ← ace_count securattr offdacl;
    for_aces body securattr (Z.to_nat acecnt) (offdacl + sizeof_ACL) s
  else Some s.

Section body.
Context (m : list Z) (usid gsid : list Z) (a : Z).

(** The tests on the SID of the ACE at [a]. *)
Definition is_owner : option bool := or_else (ntfs_same_sid usid 0 m (a + 8)) (ntfs_same_sid ownersid 0 m (a + 8)).
Definition is_group : option bool := ntfs_same_sid gsid 0 m (a + 8).
Definition is_world : option bool := is_world_sid m (a + 8).
Definition is_null : option bool :=
  and_then (ntfs_same_sid m (a + 8) nullsid 0) (type ← ace_type m a; Some (type =? ACCESS_ALLOWED_ACE_TYPE)).
Definition owner_marked : option bool := mask ← ace_mask m a; Some (has mask WRITE_OWNER).

(** What is left to a SID that is neither the owner nor the group. *)
Definition world_or_null (s : access) : option access :=
  world ← is_world;
  if world : bool then type ← ace_type m a; mask ← ace_mask m a; Some (allow_or_deny All type mask s)
  else null ← is_null; if null : bool then mask ← ace_mask m a; Some (add_special mask s) else Some s.

Definition std_ace (st : access * bool) : option (access * bool) :=
  let '(s, noown) := st in
  fl ← ace_flags m a;
  if has fl INHERIT_ONLY_ACE then Some st
  else
    own ← is_owner;
    if own : bool then type ← ace_type m a; mask ← ace_mask m a; Some (allow_or_deny Own type mask s, false)
    else
      grp ← and_then is_group (negb <$> owner_marked);
      if grp : bool then type ← ace_type m a; mask ← ace_mask m a; Some (allow_or_deny Grp type mask s, noown)
      else s ← world_or_null s; Some (s, noown).

(** The state of the loop where owner and group are the same: ownpresent, grppresent. *)
Definition owngrp_ace (st : access * bool * bool) : option (access * bool * bool) :=
  let '(s, ownpresent, grppresent) := st in
  fl ← ace_flags m a;
  if has fl INHERIT_ONLY_ACE then Some st
  else
    own ← and_then is_owner owner_marked;
    if own : bool then
      type ← ace_type m a;
      if type =? ACCESS_ALLOWED_ACE_TYPE then mask ← ace_mask m a; Some (allow Own mask s, true, grppresent) else Some st
    else
      grp ← and_then (ntfs_same_sid usid 0 m (a + 8)) (negb <$> owner_marked);
      if grp : bool then
        type ← ace_type m a;
        if type =? ACCESS_ALLOWED_ACE_TYPE then mask ← ace_mask m a; Some (allow Grp mask s, ownpresent, true) else Some st
      else s ← world_or_null s; Some (s, ownpresent, grppresent).

(** The state of the loop where one of them is administrator: firstapply, isforeign. *)
Definition ownadmin_ace (st : access * bool * Z) : option (access * bool * Z) :=
  let '(s, firstapply, isforeign) := st in
  fl ← ace_flags m a;
  unmarked ← and_then (Some (negb (has fl INHERIT_ONLY_ACE)))
    (mask ← ace_mask m a; Some (negb (has (Z.lnot mask) (Z.lor ROOT_OWNER_UNMARK ROOT_GROUP_UNMARK))));
  if unmarked : bool then
    own ← and_then is_owner (and_then owner_marked (Some firstapply));
    st ← (if own : bool then
            type ← ace_type m a;
            mask ← ace_mask m a;
            Some (allow_or_deny Own type mask s,
                  if type =? ACCESS_ALLOWED_ACE_TYPE then Z.land isforeign (Z.lnot 1) else isforeign)
          else
            grp ← and_then is_group (negb <$> owner_marked);
            if grp : bool then
              type ← ace_type m a;
              mask ← ace_mask m a;
              Some (allow_or_deny Grp type mask s,
                    if type =? ACCESS_ALLOWED_ACE_TYPE then Z.land isforeign (Z.lnot 2) else isforeign)
            else
              world ← is_world;
              if world : bool then
                type ← ace_type m a; mask ← ace_mask m a; Some (allow_or_deny All type mask s, isforeign)
              else Some (s, isforeign));
    Some (fst st, false, snd st)
  else if has fl INHERIT_ONLY_ACE then Some st
  else
    null ← is_null;
    if null : bool then mask ← ace_mask m a; Some (add_special mask s, firstapply, isforeign) else Some st.

End body.

(** [merge_permissions] with what was denied taken away. *)
Definition merge_access (isdir : bool) (s : access) (own grp : Z) : Z :=
  merge_permissions isdir (Z.land own (Z.lnot (Z.lor (denyown s) (denyall s))))
    (Z.land grp (Z.lnot (Z.lor (denygrp s) (denyall s)))) (Z.land (allowall s) (Z.lnot (denyall s))) (special s).

Definition std_result (isdir : bool) (st : access * bool) : Z :=
  let '(s, noown) := st in
  let own := if noown then flags [FILE_READ_DATA; FILE_WRITE_DATA; FILE_EXECUTE] else allowown s in
  merge_access isdir s (Z.lor own (Z.lor (allowgrp s) (allowall s))) (Z.lor (allowgrp s) (allowall s)).

Definition owngrp_result (isdir : bool) (st : access * bool * bool) : Z :=
  let '(s, ownpresent, grppresent) := st in
  merge_access isdir s (if ownpresent then allowown s else allowall s) (if grppresent then allowgrp s else allowall s).

Definition ownadmin_result (isdir : bool) (st : access * bool * Z) : Z :=
  let '(s, _, isforeign) := st in
  if negb (isforeign =? 0) then
    merge_access isdir s (Z.lor (allowown s) (Z.lor (allowgrp s) (allowall s))) (Z.lor (allowgrp s) (allowall s))
  else merge_access isdir s (allowown s) (allowgrp s).

Definition build_std_permissions (securattr usid gsid : list Z) (isdir : bool) : option Z :=
  std_result isdir <$> for_dacl (std_ace securattr usid gsid) securattr (no_access, true).
Definition build_owngrp_permissions (securattr usid : list Z) (isdir : bool) : option Z :=
  owngrp_result isdir <$> for_dacl (owngrp_ace securattr usid) securattr (no_access, false, false).
Definition build_ownadmin_permissions (securattr usid gsid : list Z) (isdir : bool) : option Z :=
  ownadmin_result isdir <$> for_dacl (ownadmin_ace securattr usid gsid) securattr (no_access, true, 3).

Definition ntfs_build_permissions (securattr usid gsid : list Z) (isdir : bool) : option Z :=
  adminowns ← adminowner usid gsid;
  groupowns ← and_then (Some (negb adminowns)) (ntfs_same_sid gsid 0 usid 0);
  if adminowns : bool then build_ownadmin_permissions securattr usid gsid isdir
  else if groupowns : bool then build_owngrp_permissions securattr usid isdir
  else build_std_permissions securattr usid gsid isdir.

(** The [do ... while] of ntfs_acl_owner, with [n] ACEs after the one at [offace]. *)
Fixpoint find_owner (m : list Z) (n : nat) (offace : Z) : option (option Z) :=
  mask ← ace_mask m offace;
  type ← ace_type m offace;
  found ← and_then (Some (has mask WRITE_OWNER && (type =? ACCESS_ALLOWED_ACE_TYPE))) (ntfs_is_user_sid m (offace + 8));
  size ← ace_size m offace;
  if found : bool then Some (Some (offace + 8))
  else match n with O => Some None | Datatypes.S n' => find_owner m n' (offace + size) end.

(** The offset of the SID of the owner. *)
Definition ntfs_acl_owner (securattr : list Z) : option Z :=
  off ← d_dacl securattr;
  let offdacl := s32 off in
  found ← (if negb (offdacl =? 0) then
             acecnt ← ace_count securattr offdacl;
             find_owner securattr (pred (Z.to_nat acecnt)) (offdacl + sizeof_ACL)
           else Some None);
  match found with Some usid => Some usid | None => d_owner securattr end.
