(* ===== verification/AclBuild.v ===== *)
(** The bytes of the descriptors that ntfs_build_descr makes. *)

From S2P Require Import Prelude Sid Acl.
Local Open Scope Z_scope.
Local Open Scope c_scope.
Set Default Proof Using "Type*".

(** ** ACEs as values *)

Record ACE (A : Type) := Ace { a_type : Z; a_flags : Z; a_mask : Z; a_sid : A }.
Arguments Ace {A} _ _ _ _.
Arguments a_type {A} _.
Arguments a_flags {A} _.
Arguments a_mask {A} _.
Arguments a_sid {A} _.

Definition ace_map {A B : Type} (f : A -> B) (x : ACE A) : ACE B := Ace (a_type x) (a_flags x) (a_mask x) (f (a_sid x)).

Definition enc_ace (x : ACE (list Z)) : list Z :=
  a_type x :: a_flags x :: le_encode 2 (zlen (a_sid x) + 8) ++ le_encode 4 (a_mask x) ++ a_sid x.

Definition enc_aces (l : list (ACE (list Z))) : list Z := concat (enc_ace <$> l).

Section aces.
Context {A : Type} (mode : Z) (isdir adminowns groupowns : bool) (usid gsid world admin system null : A).

Definition allowed (fl mask : Z) (s : A) : ACE A := Ace ACCESS_ALLOWED_ACE_TYPE fl mask s.
Definition denied (fl mask : Z) (s : A) : list (ACE A) :=
  if negb (mask =? 0) then [Ace ACCESS_DENIED_ACE_TYPE fl mask s] else [].

Definition owner_denied : list (ACE A) :=
  if adminowns then []
  else denied (inheritance isdir) (Z.land (owner_denials mode isdir groupowns) (Z.lnot (owner_grants mode isdir))) usid.

Definition world_exec_denied : list (ACE A) :=
  if isdir then [Ace ACCESS_DENIED_ACE_TYPE (Z.lor INHERIT_ONLY_ACE OBJECT_INHERIT_ACE) FILE_EXEC world] else [].

Definition group_part : list (ACE A) :=
  if adminowns || group_differs mode then
    (if adminowns || groupowns then [] else denied (inheritance isdir) (group_denials mode isdir) gsid)
    ++ (if adminowns || groupowns || group_has_more mode then [allowed (inheritance isdir) (group_grants mode isdir) gsid] else [])
  else [].

Definition special_mask : Z :=
  set_if (has mode S_ISVTX) FILE_READ_DATA (set_if (has mode S_ISGID) FILE_WRITE_DATA (set_if (has mode S_ISUID) FILE_APPEND_DATA 0)).

Definition special_part : list (ACE A) :=
  if has mode (flags [S_ISVTX; S_ISGID; S_ISUID]) then [allowed NO_PROPAGATE_INHERIT_ACE special_mask null] else [].

(** The ACEs without the special one. *)
Definition base_aces : list (ACE A) :=
  owner_denied ++ world_exec_denied ++ [allowed (inheritance isdir) (owner_grants mode isdir) usid] ++ group_part
  ++ [allowed (inheritance isdir) (world_grants mode isdir) world; allowed (inheritance isdir) all_grants admin;
      allowed (inheritance isdir) all_grants system].

Definition mode_aces : list (ACE A) := base_aces ++ special_part.

End aces.

(** ** Writing them *)

Lemma zlen_enc_ace x : zlen (enc_ace x) = 8 + zlen (a_sid x).
Proof. unfold enc_ace. autorewrite with zlen. lia. Qed.

Lemma enc_aces_app l1 l2 : enc_aces (l1 ++ l2) = enc_aces l1 ++ enc_aces l2.
Proof. unfold enc_aces. by rewrite fmap_app, concat_app. Qed.

Lemma enc_aces_1 x : enc_aces [x] = enc_ace x.
Proof. unfold enc_aces. cbn [fmap list_fmap concat]. by rewrite app_nil_r. Qed.

Lemma zlen_enc_aces_cons x l : zlen (enc_aces (x :: l)) = 8 + zlen (a_sid x) + zlen (enc_aces l).
Proof. change (x :: l) with ([x] ++ l). by rewrite enc_aces_app, enc_aces_1, zlen_app, zlen_enc_ace. Qed.

Lemma zlen_enc_aces_app l1 l2 : zlen (enc_aces (l1 ++ l2)) = zlen (enc_aces l1) + zlen (enc_aces l2).
Proof. by rewrite enc_aces_app, zlen_app. Qed.

Lemma put_ace_zwrite m a type fl mask s : is_sid s -> 0 <= a -> a + 8 + zlen s <= zlen m ->
  put_ace m a type fl mask s = zwrite m a (enc_ace (Ace type fl mask s)).
Proof.
  intros [c Hs] Ha Hb. unfold put_ace, enc_ace. rewrite (wf_sid_size s c Hs). cbn [mbind option_bind a_type a_flags a_mask a_sid].
  pose proof (zlen_nonneg s). unfold put_le16, put_le32, st. rewrite zread_all. cbn [mbind option_bind].
  destruct (write_ok m a [type]) as (m1 & E1 & L1 & _); [lia|rewrite zlen_cons, zlen_nil; lia|].
  destruct (write_ok m1 (a + 1) [fl]) as (m2 & E2 & L2 & _); [lia|rewrite zlen_cons, zlen_nil; lia|].
  destruct (write_ok m2 (a + 2) (le_encode 2 (zlen s + 8))) as (m3 & E3 & L3 & _); [lia|rewrite zlen_le_encode; lia|].
  destruct (write_ok m3 (a + 4) (le_encode 4 mask)) as (m4 & E4 & L4 & _); [lia|rewrite zlen_le_encode; lia|].
  destruct (write_ok m4 (a + 8) s) as (m5 & E5 & L5 & _); [lia|lia|].
  rewrite !zset_zwrite, E1. cbn [mbind option_bind]. rewrite zset_zwrite, E2. cbn [mbind option_bind].
  rewrite E3. cbn [mbind option_bind]. rewrite E4. cbn [mbind option_bind]. rewrite E5. symmetry.
  apply (zwrite_app m a [type] _ m1 m5 E1). apply (zwrite_app m1 _ [fl] _ m2); [done|].
  change (zlen [type]) with 1. change (zlen [fl]) with 1. replace (a + 1 + 1) with (a + 2) by lia.
  apply (zwrite_app _ _ _ _ m3); [done|]. rewrite zlen_le_encode. replace (a + 2 + Z.of_nat 2) with (a + 4) by lia.
  apply (zwrite_app _ _ _ _ m4); [done|]. rewrite zlen_le_encode. by replace (a + 4 + Z.of_nat 4) with (a + 8) by lia.
Qed.

(** The state of buildacls after the ACEs [l]; [m0] is the memory before them. *)
Definition built (offs : Z) (m0 : list Z) (s : builder) (l : list (ACE (list Z))) : Prop :=
  let '(m, pos, acecnt) := s in
  pos = 8 + zlen (enc_aces l) /\ acecnt = zlen l /\ frame m0 m (offs + 8) (zlen m0) /\ holds m (offs + 8) (enc_aces l).

Section build.
Context (offs : Z) (m0 : list Z) (Hoffs : 0 <= offs).

Lemma add_ace_ok s l type fl mask sd : built offs m0 s l -> is_sid sd ->
  offs + 8 + zlen (enc_aces (l ++ [Ace type fl mask sd])) <= zlen m0 ->
  exists s', add_ace offs s type fl mask sd = Some s' /\ built offs m0 s' (l ++ [Ace type fl mask sd]).
Proof.
  destruct s as [[m pos] acecnt]. intros (-> & -> & [Hz Hf] & Hh) Hs Hb. rewrite zlen_enc_aces_app, enc_aces_1, zlen_enc_ace in Hb.
  cbn [a_sid] in Hb. pose proof (zlen_nonneg (enc_aces l)). pose proof (zlen_nonneg sd).
  unfold add_ace. rewrite put_ace_zwrite by (done || lia).
  destruct (write_ok m (offs + (8 + zlen (enc_aces l))) (enc_ace (Ace type fl mask sd))) as (m' & -> & L & F & H'); [lia|rewrite zlen_enc_ace; cbn [a_sid]; lia|].
  rewrite zlen_enc_ace in F. cbn [mbind option_bind a_sid] in *. destruct Hs as [c Hs]. rewrite (wf_sid_size sd c Hs). cbn [mbind option_bind].
  eexists; split; [done|]. unfold built. rewrite enc_aces_app, enc_aces_1, !zlen_app, zlen_enc_ace. cbn [a_sid].
  split; [lia|]. split; [done|]. split.
  - apply (frame_trans m0 m m' _ _ _ _ _ _ (conj Hz Hf) F); lia.
  - apply holds_app. split; [|by rewrite <-Z.add_assoc].
    apply (holds_frame m m' _ _ _ _ Hh F). lia.
Qed.

Lemma set_flags_ok s l fl : built offs m0 s l -> offs + 10 + zlen (enc_aces l) <= zlen m0 ->
  exists s', set_flags offs s fl = Some s' /\ built offs m0 s' l.
Proof.
  destruct s as [[m pos] acecnt]. intros (-> & -> & [Hz Hf] & Hh) Hb. pose proof (zlen_nonneg (enc_aces l)).
  unfold set_flags. rewrite zset_zwrite.
  destruct (write_ok m (offs + (8 + zlen (enc_aces l)) + 1) [fl]) as (m' & -> & L & F & _); [lia|rewrite zlen_cons, zlen_nil; lia|].
  rewrite zlen_cons, zlen_nil in F. cbn [mbind option_bind]. eexists; split; [done|]. split; [done|]. split; [done|]. split.
  - apply (frame_trans m0 m m' _ _ _ _ _ _ (conj Hz Hf) F); lia.
  - apply (holds_frame m m' _ _ _ _ Hh F). lia.
Qed.

Context (mode : Z) (isdir adminowns groupowns : bool).

Lemma denied_ok s l fl mask sd : built offs m0 s l -> is_sid sd ->
  offs + 8 + zlen (enc_aces (l ++ denied fl mask sd)) <= zlen m0 ->
  exists s', (if negb (mask =? 0) then add_ace offs s ACCESS_DENIED_ACE_TYPE fl mask sd else Some s) = Some s' /\
    built offs m0 s' (l ++ denied fl mask sd).
Proof.
  intros Hs Hsd Hb. unfold denied in *. destruct (negb (mask =? 0)); [by apply add_ace_ok|].
  exists s. by rewrite app_nil_r.
Qed.

Lemma deny_owner_ok s l usid : built offs m0 s l -> is_sid usid ->
  offs + 10 + zlen (enc_aces (l ++ owner_denied mode isdir adminowns groupowns usid)) <= zlen m0 ->
  exists s', deny_owner offs s mode isdir adminowns groupowns usid = Some s' /\
    built offs m0 s' (l ++ owner_denied mode isdir adminowns groupowns usid).
Proof.
  unfold deny_owner, owner_denied. intros Hs Hu Hb. destruct adminowns; [exists s; by rewrite app_nil_r|].
  rewrite zlen_enc_aces_app in Hb.
  destruct (set_flags_ok s l (inheritance isdir) Hs) as (s1 & -> & Hs1).
  { match type of Hb with _ + (_ + ?x) <= _ => pose proof (zlen_nonneg (enc_aces l)); assert (0 <= x) by apply zlen_nonneg end. lia. }
  cbn [mbind option_bind]. apply denied_ok; [done|done|]. rewrite zlen_enc_aces_app. lia.
Qed.

Lemma deny_world_exec_ok s l : built offs m0 s l ->
  offs + 8 + zlen (enc_aces (l ++ world_exec_denied isdir worldsid)) <= zlen m0 ->
  exists s', deny_world_exec offs s isdir = Some s' /\ built offs m0 s' (l ++ world_exec_denied isdir worldsid).
Proof.
  unfold deny_world_exec, world_exec_denied. intros Hs Hb. destruct isdir; [|exists s; by rewrite app_nil_r].
  apply add_ace_ok; [done| |done]. exists 1. apply (bool_decide_eq_true_1 (wf_sid _ 1)). by vm_compute.
Qed.

Lemma group_aces_ok s l gsid : built offs m0 s l -> is_sid gsid ->
  offs + 10 + zlen (enc_aces (l ++ group_part mode isdir adminowns groupowns gsid)) <= zlen m0 ->
  exists s', group_aces offs s mode isdir adminowns groupowns gsid = Some s' /\
    built offs m0 s' (l ++ group_part mode isdir adminowns groupowns gsid).
Proof.
  unfold group_aces, group_part. intros Hs Hg Hb.
  destruct (adminowns || group_differs mode); [|exists s; by rewrite app_nil_r].
  set (den := if adminowns || groupowns then [] else denied (inheritance isdir) (group_denials mode isdir) gsid) in *.
  assert (exists s1, (if adminowns || groupowns then Some s
         else s ← set_flags offs s (inheritance isdir);
           if negb (group_denials mode isdir =? 0)
           then add_ace offs s ACCESS_DENIED_ACE_TYPE (inheritance isdir) (group_denials mode isdir) gsid else Some s) = Some s1 /\
      built offs m0 s1 (l ++ den)) as (s1 & E1 & Hs1).
  { rewrite !zlen_enc_aces_app in Hb. pose proof (zlen_nonneg (enc_aces den)). unfold den in *.
    match type of Hb with context [zlen (enc_aces (if ?c then [allowed ?f ?g ?h] else []))] =>
      pose proof (zlen_nonneg (enc_aces (if c then [allowed f g h] else []))) end.
    destruct (adminowns || groupowns); [exists s; by rewrite app_nil_r|].
    destruct (set_flags_ok s l (inheritance isdir) Hs) as (s1 & -> & Hs1); [lia|]. cbn [mbind option_bind].
    apply denied_ok; [done|done|]. rewrite zlen_enc_aces_app. lia. }
  cbv zeta. rewrite E1. cbn [mbind option_bind]. rewrite app_assoc.
  destruct (adminowns || groupowns || group_has_more mode); [|exists s1; by rewrite app_nil_r].
  apply add_ace_ok; [done|done|]. rewrite <-app_assoc. unfold allowed in Hb. lia.
Qed.

Lemma special_ace_ok s l : built offs m0 s l -> offs + 8 + zlen (enc_aces (l ++ special_part mode nullsid)) <= zlen m0 ->
  exists s', special_ace offs s mode = Some s' /\ built offs m0 s' (l ++ special_part mode nullsid).
Proof.
  unfold special_ace, special_part. intros Hs Hb. destruct (has mode _); [|exists s; by rewrite app_nil_r].
  apply add_ace_ok; [done| |done]. exists 1. apply (bool_decide_eq_true_1 (wf_sid _ 1)). by vm_compute.
Qed.
End build.

Lemma known_sids : is_sid worldsid /\ is_sid systemsid /\ is_sid nullsid /\ is_sid ownersid /\ is_sid adminsid.
Proof.
  split_and!; [exists 1..|exists 2];
    match goal with |- wf_sid ?s ?c => apply (bool_decide_eq_true_1 (wf_sid s c)); by vm_compute end.
Qed.

(** ** The whole ACL *)

Definition admin_owns (usid gsid : list Z) : bool := bool_decide (usid = adminsid) || bool_decide (gsid = adminsid).
Definition group_owns (usid gsid : list Z) : bool := negb (admin_owns usid gsid) && bool_decide (usid = gsid).

Definition descr_aces (mode : Z) (isdir : bool) (usid gsid : list Z) : list (ACE (list Z)) :=
  mode_aces mode isdir (admin_owns usid gsid) (group_owns usid gsid) usid gsid worldsid adminsid systemsid nullsid.

Definition enc_acl (l : list (ACE (list Z))) : list Z :=
  [ACL_REVISION; 0] ++ le_encode 2 (8 + zlen (enc_aces l)) ++ le_encode 2 (zlen l) ++ le_encode 2 0 ++ enc_aces l.

Lemma zlen_enc_acl l : zlen (enc_acl l) = 8 + zlen (enc_aces l).
Proof. unfold enc_acl. autorewrite with zlen. rewrite zlen_nil. lia. Qed.

Lemma adminowner_ok usid gsid : is_sid usid -> is_sid gsid -> adminowner usid gsid = Some (admin_owns usid gsid).
Proof.
  intros Hu Hg. unfold adminowner, admin_owns. rewrite !same_sid_wf by (done || apply known_sids).
  cbn [or_else mbind option_bind]. by destruct (bool_decide (usid = adminsid)).
Qed.

#[local] Hint Rewrite zlen_enc_acl : zlen.

(** The space that ACEs take. *)
Ltac space :=
  rewrite ?zlen_enc_aces_app, ?zlen_enc_aces_cons; cbn [a_sid allowed]; change (enc_aces []) with (@nil Z);
  rewrite ?zlen_nil; change (zlen worldsid) with 12; change (zlen adminsid) with 16; change (zlen systemsid) with 12; lia.

(** The ACEs of a mode after the header of their ACL. *)
Lemma mode_aces_ok m offs mode isdir adm grp usid gsid s : is_sid usid -> is_sid gsid -> 0 <= offs ->
  built offs m s [] ->
  offs + 8 + zlen (enc_aces (mode_aces mode isdir adm grp usid gsid worldsid adminsid systemsid nullsid)) <= zlen m ->
  exists s', (s ← deny_owner offs s mode isdir adm grp usid;
    s ← deny_world_exec offs s isdir;
    s ← add_ace offs s ACCESS_ALLOWED_ACE_TYPE (inheritance isdir) (owner_grants mode isdir) usid;
    s ← group_aces offs s mode isdir adm grp gsid;
    s ← add_ace offs s ACCESS_ALLOWED_ACE_TYPE (inheritance isdir) (world_grants mode isdir) worldsid;
    s ← add_ace offs s ACCESS_ALLOWED_ACE_TYPE (inheritance isdir) all_grants adminsid;
    s ← add_ace offs s ACCESS_ALLOWED_ACE_TYPE (inheritance isdir) all_grants systemsid;
    special_ace offs s mode) = Some s' /\
    built offs m s' (mode_aces mode isdir adm grp usid gsid worldsid adminsid systemsid nullsid).
Proof.
  intros Hu Hg Ho Hs0 Hb. destruct known_sids as (Kw & Ks & Kn & _ & Ka).
  unfold mode_aces, base_aces in Hb. rewrite !zlen_enc_aces_app, !zlen_enc_aces_cons in Hb. cbn [a_sid allowed] in Hb.
  change (enc_aces []) with (@nil Z) in Hb. rewrite zlen_nil in Hb.
  change (zlen worldsid) with 12 in Hb. change (zlen adminsid) with 16 in Hb. change (zlen systemsid) with 12 in Hb.
  pose proof (zlen_nonneg usid). pose proof (fun l => zlen_nonneg (enc_aces l)) as Hn.
  pose proof (Hn (owner_denied mode isdir adm grp usid)). pose proof (Hn (world_exec_denied isdir worldsid)).
  pose proof (Hn (group_part mode isdir adm grp gsid)). pose proof (Hn (special_part mode nullsid)). clear Hn.
  destruct (deny_owner_ok offs m Ho mode isdir adm grp s [] usid Hs0 Hu) as (s1 & -> & B1); [space|]. cbn [mbind option_bind].
  destruct (deny_world_exec_ok offs m Ho isdir s1 _ B1) as (s2 & -> & B2); [space|]. cbn [mbind option_bind].
  destruct (add_ace_ok offs m Ho s2 _ ACCESS_ALLOWED_ACE_TYPE (inheritance isdir) (owner_grants mode isdir) usid B2 Hu) as (s3 & -> & B3); [space|].
  cbn [mbind option_bind].
  destruct (group_aces_ok offs m Ho mode isdir adm grp s3 _ gsid B3 Hg) as (s4 & -> & B4); [space|]. cbn [mbind option_bind].
  destruct (add_ace_ok offs m Ho s4 _ ACCESS_ALLOWED_ACE_TYPE (inheritance isdir) (world_grants mode isdir) worldsid B4 Kw) as (s5 & -> & B5); [space|].
  cbn [mbind option_bind].
  destruct (add_ace_ok offs m Ho s5 _ ACCESS_ALLOWED_ACE_TYPE (inheritance isdir) all_grants adminsid B5 Ka) as (s6 & -> & B6); [space|].
  cbn [mbind option_bind].
  destruct (add_ace_ok offs m Ho s6 _ ACCESS_ALLOWED_ACE_TYPE (inheritance isdir) all_grants systemsid B6 Ks) as (s7 & -> & B7); [space|].
  cbn [mbind option_bind].
  destruct (special_ace_ok offs m Ho mode s7 _ B7) as (s8 & -> & B8); [space|].
  exists s8. split; [done|]. revert B8. unfold mode_aces, base_aces, allowed. by rewrite <-!app_assoc.
Qed.

Lemma buildacls_ok m offs mode isdir usid gsid : is_sid usid -> is_sid gsid -> 0 <= offs ->
  offs + 8 + zlen (enc_aces (descr_aces mode isdir usid gsid)) <= zlen m ->
  exists m', buildacls m offs mode isdir usid gsid = Some (m', 8 + zlen (enc_aces (descr_aces mode isdir usid gsid))) /\
    frame m m' offs (zlen m) /\ holds m' offs (enc_acl (descr_aces mode isdir usid gsid)).
Proof.
  intros Hu Hg Ho Hb. pose proof Hu as [cu Hcu]. unfold buildacls. rewrite (wf_sid_size usid cu Hcu). cbn [mbind option_bind].
  rewrite adminowner_ok by done. cbn [mbind option_bind]. rewrite (same_sid_wf usid gsid) by done.
  assert (and_then (Some (negb (admin_owns usid gsid))) (Some (bool_decide (usid = gsid))) = Some (group_owns usid gsid)) as ->
    by (unfold group_owns, and_then; cbn [mbind option_bind]; by destruct (admin_owns usid gsid)).
  cbn [mbind option_bind]. pose proof (zlen_nonneg (enc_aces (descr_aces mode isdir usid gsid))) as Hnn. unfold put_le16.
  destruct (zset_ok m offs ACL_REVISION) as (m1 & -> & L1 & F1 & Hm1); [lia|]. cbn [mbind option_bind].
  destruct (zset_ok m1 (offs + 1) 0) as (m2 & -> & L2 & F2 & Hm2); [lia|]. cbn [mbind option_bind].
  destruct (st_ok 2 m2 (offs + 2) (sizeof_ACL + zlen usid + 8)) as (m3 & -> & L3 & F3 & _); [lia|lia|]. cbn [mbind option_bind].
  destruct (st_ok 2 m3 (offs + 4) 1) as (m4 & -> & L4 & F4 & _); [lia|lia|]. cbn [mbind option_bind].
  destruct (st_ok 2 m4 (offs + 6) 0) as (m5 & -> & L5 & F5 & Hm5); [lia|lia|]. cbn [mbind option_bind].
  assert (built offs m5 (m5, sizeof_ACL, 0) []) as B0 by (split; [done|]; split; [done|]; split; [apply frame_refl|apply holds_nil]).
  destruct (mode_aces_ok m5 offs mode isdir (admin_owns usid gsid) (group_owns usid gsid) usid gsid _ Hu Hg Ho B0) as (s & Es & Hs).
  { unfold descr_aces in Hb. lia. }
  repeat peel Es. rewrite Es. cbn [mbind option_bind]. fold (descr_aces mode isdir usid gsid) in Hs.
  destruct s as [[m6 pos] acecnt]. destruct Hs as (-> & -> & F6 & H6). pose proof (proj1 F6) as L6.
  destruct (st_ok 2 m6 (offs + 2) (8 + zlen (enc_aces (descr_aces mode isdir usid gsid)))) as (m7 & -> & L7 & F7 & H7); [lia|lia|].
  cbn [mbind option_bind].
  destruct (st_ok 2 m7 (offs + 4) (zlen (descr_aces mode isdir usid gsid))) as (m8 & -> & L8 & F8 & H8); [lia|lia|]. cbn [mbind option_bind].
  exists m8. split; [done|]. split.
  - frame_chain.
  - unfold enc_acl. change ([ACL_REVISION; 0] ++ ?x) with ([ACL_REVISION] ++ [0] ++ x).
    rewrite !holds_app, !zlen_le_encode. change (zlen [ACL_REVISION]) with 1. change (zlen [0]) with 1.
    replace (offs + 1 + 1) with (offs + 2) by lia. replace (offs + 2 + Z.of_nat 2) with (offs + 4) by lia.
    replace (offs + 4 + Z.of_nat 2) with (offs + 6) by lia. replace (offs + 6 + Z.of_nat 2) with (offs + 8) by lia.
    split_and!; carry.
Qed.

(** ** The whole descriptor *)

Definition enc_descr (mode : Z) (isdir : bool) (usid gsid : list Z) : list Z :=
  let acl := enc_acl (descr_aces mode isdir usid gsid) in
  [SECURITY_DESCRIPTOR_REVISION] ++ [0] ++ le_encode 2 (flags [SE_DACL_PRESENT; SE_DACL_PROTECTED; SE_SELF_RELATIVE])
  ++ le_encode 4 (sizeof_DESCR + zlen acl) ++ le_encode 4 (sizeof_DESCR + zlen acl + zlen usid)
  ++ le_encode 4 0 ++ le_encode 4 sizeof_DESCR ++ acl ++ usid ++ gsid.

Lemma zlen_enc_descr mode isdir usid gsid :
  zlen (enc_descr mode isdir usid gsid) = 28 + zlen (enc_aces (descr_aces mode isdir usid gsid)) + zlen usid + zlen gsid.
Proof. unfold enc_descr. autorewrite with zlen. rewrite zlen_nil. lia. Qed.

Lemma zlen_denied fl mask s : zlen (enc_aces (denied fl mask s)) <= 8 + zlen s.
Proof.
  unfold denied. pose proof (zlen_nonneg s). destruct (negb (mask =? 0)); [|change (enc_aces []) with (@nil Z); rewrite zlen_nil; lia].
  rewrite enc_aces_1, zlen_enc_ace. done.
Qed.

(** The ACEs fit the space that is allocated for them. *)
Lemma descr_aces_size mode isdir usid gsid :
  zlen (enc_aces (descr_aces mode isdir usid gsid)) <=
    2 * (8 + zlen usid) + 2 * (8 + zlen gsid) + 64 + (if isdir then 20 else 0) + (if has mode 0xe00 then 20 else 0).
Proof.
  pose proof (zlen_nonneg usid). pose proof (zlen_nonneg gsid).
  unfold descr_aces, mode_aces, base_aces. rewrite !zlen_enc_aces_app, !zlen_enc_aces_cons. cbn [a_sid allowed].
  change (enc_aces []) with (@nil Z). rewrite zlen_nil. change (zlen worldsid) with 12. change (zlen adminsid) with 16. change (zlen systemsid) with 12.
  assert (zlen (enc_aces (owner_denied mode isdir (admin_owns usid gsid) (group_owns usid gsid) usid)) <= 8 + zlen usid).
  { unfold owner_denied. destruct (admin_owns usid gsid); [change (enc_aces []) with (@nil Z); rewrite zlen_nil; lia|]. apply zlen_denied. }
  assert (zlen (enc_aces (world_exec_denied isdir worldsid)) = if isdir then 20 else 0) by (by destruct isdir).
  assert (zlen (enc_aces (special_part mode nullsid)) = if has mode 0xe00 then 20 else 0).
  { unfold special_part. change (flags [S_ISVTX; S_ISGID; S_ISUID]) with 0xe00. destruct (has mode 0xe00); [|done].
    by rewrite enc_aces_1, zlen_enc_ace. }
  assert (zlen (enc_aces (group_part mode isdir (admin_owns usid gsid) (group_owns usid gsid) gsid)) <= 2 * (8 + zlen gsid)).
  { unfold group_part. destruct (_ || group_differs mode); [|change (enc_aces []) with (@nil Z); rewrite zlen_nil; lia].
    rewrite zlen_enc_aces_app.
    match goal with |- ?x + ?y <= _ => assert (x <= 8 + zlen gsid); [|assert (y <= 8 + zlen gsid); [|lia]] end.
    - destruct (_ || group_owns usid gsid); [change (enc_aces []) with (@nil Z); rewrite zlen_nil; lia|]. apply zlen_denied.
    - destruct (_ || group_has_more mode); [|change (enc_aces []) with (@nil Z); rewrite zlen_nil; lia].
      rewrite enc_aces_1, zlen_enc_ace. cbn [a_sid allowed]. lia. }
  lia.
Qed.

Lemma newattrsz_eq mode isdir u g : newattrsz mode isdir u g =
  Some (92 + u + g + 2 * (8 + u) + 2 * (8 + g) + (if isdir then 20 else 0) + (if has mode 0xe00 then 20 else 0)).
Proof.
  unfold newattrsz. change (ntfs_sid_size worldsid 0) with (Some 12). change (ntfs_sid_size adminsid 0) with (Some 16).
  change (ntfs_sid_size systemsid 0) with (Some 12). change (ntfs_sid_size nullsid 0) with (Some 12).
  cbn [mbind option_bind]. f_equal. change sizeof_DESCR with 20. change sizeof_ACL with 8.
  destruct isdir, (has mode 0xe00); lia.
Qed.

Lemma build_descr_ok ntfs_malloc mode isdir usid gsid n m : is_sid usid -> is_sid gsid ->
  newattrsz mode isdir (zlen usid) (zlen gsid) = Some n -> ntfs_malloc n = Some m -> zlen m = n ->
  exists m', ntfs_build_descr ntfs_malloc mode isdir usid gsid = Some (Ok m') /\ zlen m' = n /\
    zlen (enc_descr mode isdir usid gsid) <= n /\ holds m' 0 (enc_descr mode isdir usid gsid).
Proof.
  intros Hu Hg Hn Hm Hz. pose proof Hu as [cu Hcu]. pose proof Hg as [cg Hcg]. unfold ntfs_build_descr.
  rewrite (wf_sid_size usid cu Hcu), (wf_sid_size gsid cg Hcg). cbn [mbind option_bind]. rewrite Hn. cbn [mbind option_bind]. rewrite Hm.
  rewrite newattrsz_eq in Hn. injection Hn as Hn.
  pose proof (descr_aces_size mode isdir usid gsid) as Hsz. pose proof (zlen_nonneg usid) as Hu0. pose proof (zlen_nonneg gsid) as Hg0.
  pose proof (zlen_nonneg (enc_aces (descr_aces mode isdir usid gsid))) as Hn0.
  rewrite zlen_enc_descr. unfold enc_descr. rewrite zlen_enc_acl.
  unfold put_le16, put_le32. change sizeof_DESCR with 20.
  destruct (zset_ok m 0 SECURITY_DESCRIPTOR_REVISION) as (m1 & -> & L1 & F1 & H1); [lia|]. cbn [mbind option_bind].
  destruct (zset_ok m1 1 0) as (m2 & -> & L2 & F2 & H2); [lia|]. cbn [mbind option_bind].
  destruct (st_ok 2 m2 2 (flags [SE_DACL_PRESENT; SE_DACL_PROTECTED; SE_SELF_RELATIVE])) as (m3 & -> & L3 & F3 & H3); [lia|lia|].
  cbn [mbind option_bind].
  destruct (buildacls_ok m3 20 mode isdir usid gsid Hu Hg) as (m4 & -> & F4 & H4); [lia|lia|]. pose proof (proj1 F4) as L4.
  cbn [mbind option_bind]. rewrite (proj2 (Z.leb_le _ _)) by lia. rewrite !zread_all. cbn [mbind option_bind].
  destruct (write_ok m4 (20 + (8 + zlen (enc_aces (descr_aces mode isdir usid gsid)))) usid) as (m5 & -> & L5 & F5 & H5); [lia|lia|].
  cbn [mbind option_bind].
  destruct (write_ok m5 (20 + (8 + zlen (enc_aces (descr_aces mode isdir usid gsid))) + zlen usid) gsid) as (m6 & -> & L6 & F6 & H6); [lia|lia|].
  cbn [mbind option_bind].
  destruct (st_ok 4 m6 4 (20 + (8 + zlen (enc_aces (descr_aces mode isdir usid gsid))))) as (m7 & -> & L7 & F7 & H7); [lia|lia|].
  cbn [mbind option_bind].
  destruct (st_ok 4 m7 8 (20 + (8 + zlen (enc_aces (descr_aces mode isdir usid gsid))) + zlen usid)) as (m8 & -> & L8 & F8 & H8); [lia|lia|].
  cbn [mbind option_bind].
  destruct (st_ok 4 m8 12 0) as (m9 & -> & L9 & F9 & H9); [lia|lia|]. cbn [mbind option_bind].
  destruct (st_ok 4 m9 16 20) as (m10 & -> & L10 & F10 & H10); [lia|lia|]. cbn [mbind option_bind].
  exists m10. split; [done|]. split; [lia|]. split; [destruct isdir, (has mode 0xe00); lia|].
  rewrite !holds_app, !zlen_le_encode, zlen_enc_acl. change (zlen [SECURITY_DESCRIPTOR_REVISION]) with 1. change (zlen [0]) with 1.
  cbn [Z.add Z.of_nat Pos.of_succ_nat Pos.succ Pos.add].
  split_and!; carry.
Qed.
