(* ===== verification/AclRead.v ===== *)
(** Reading the ACEs of an ACL: the accesses stay in the ACL, and on the bytes
    of a list of ACEs the loops over ACEs are folds over the list. *)

From S2P Require Import Prelude Sid Acl AclBuild.
Local Open Scope Z_scope.
Local Open Scope c_scope.
Set Default Proof Using "Type*".

(** ** A SID inside an object *)

(** Every field of the SID at [b] lies in the object. *)
Definition sid_in (m : list Z) (b : Z) : Prop :=
  exists c, zget m (b + 1) = Some c /\ 0 <= b /\ 0 <= c /\ b + 8 + 4 * c <= zlen m.

Lemma wf_sid_nonneg s c : wf_sid s c -> 0 <= c.
Proof. intros (Hw & _ & H1). exact (proj1 (zget_Forall _ _ _ _ Hw H1)). Qed.

Section sid_at.
Context (m : list Z) (b : Z) (Hb : 0 <= b).

Lemma sub_authority_total c i : zget m (b + 1) = Some c -> b + 8 + 4 * c <= zlen m -> 0 <= i < c ->
  exists x, sub_authority m b i = Some x.
Proof. intros H1 H2 Hi. apply (ld_inside 4); lia. Qed.

Lemma subs_are_total c i subs : zget m (b + 1) = Some c -> b + 8 + 4 * c <= zlen m -> 0 <= i -> i + zlen subs <= c ->
  exists r, subs_are m b i subs = Some r.
Proof.
  intros H1 H2. revert i; induction subs as [|s subs IH]; intros i Hi Hl; cbn [subs_are]; [by eexists|].
  rewrite zlen_cons in Hl. pose proof (zlen_nonneg subs).
  destruct (sub_authority_total c i) as [x ->]; [done|done|lia|]. cbn [mbind option_bind].
  destruct (x =? s); [|by eexists]. apply IH; lia.
Qed.

Lemma sid_is_total cnt low subs : sid_in m b -> zlen subs <= cnt -> exists r, sid_is m b cnt low subs = Some r.
Proof.
  intros (c & H1 & _ & Hc & H2) Hl. pose proof (zlen_nonneg subs). unfold sid_is, sub_authority_count. rewrite H1. cbn [mbind option_bind].
  destruct (Z.eqb_spec c cnt) as [->|]; [|by eexists].
  unfold high_part, low_part, be_to_cpup. rewrite (zread_inside m (b + 2)) by lia. cbn [mbind option_bind].
  destruct (_ =? 0); [|by eexists]. rewrite (zread_inside m (b + 4)) by lia. cbn [mbind option_bind].
  destruct (_ =? low); [|by eexists]. by apply (subs_are_total cnt).
Qed.

Lemma is_world_total : sid_in m b -> exists r, is_world_sid m b = Some r.
Proof.
  intros Hs. unfold is_world_sid.
  destruct (sid_is_total 1 1 [0] Hs) as [r1 ->]; [done|]. destruct (sid_is_total 2 5 [32; 545] Hs) as [r2 ->]; [done|].
  destruct (sid_is_total 1 5 [11] Hs) as [r3 ->]; [done|]. destruct (sid_is_total 1 5 [4] Hs) as [r4 ->]; [done|].
  destruct r1, r2, r3; by eexists.
Qed.

Lemma same_sid_total u : is_sid u -> sid_in m b ->
  (exists r, ntfs_same_sid u 0 m b = Some r) /\ (exists r, ntfs_same_sid m b u 0 = Some r).
Proof.
  intros [cu Hu] (c & H1 & _ & Hc & H2). unfold ntfs_same_sid. rewrite (wf_sid_size u cu Hu).
  unfold ntfs_sid_size at 1 2, sub_authority_count. rewrite H1. cbn [mbind option_bind].
  split.
  - destruct (Z.eqb_spec (c * 4 + 8) (zlen u)); [|by eexists]. rewrite zread_all, zread_inside by (try lia; apply zlen_nonneg).
    by eexists.
  - destruct (Z.eqb_spec (zlen u) (c * 4 + 8)) as [E|]; [|by eexists]. rewrite <-E, zread_all, zread_inside by (try lia; apply zlen_nonneg).
    by eexists.
Qed.

(** The bytes of a known SID. *)
Context (s : list Z) (c : Z) (Hs : wf_sid s c) (Hh : holds m b s) (Hz : b + zlen s <= zlen m).

Lemma zread_at k n : 0 <= k -> 0 <= n -> k + n <= zlen s -> zread m (b + k) n = zread s k n.
Proof. intros. symmetry. apply (zread_sub m b (zlen s)); [by apply holds_zread|done..]. Qed.

Lemma ld_at n k : 0 <= k -> k + Z.of_nat n <= zlen s -> ld n m (b + k) = ld n s k.
Proof. intros. unfold ld. by rewrite zread_at by lia. Qed.

Lemma count_at : zget m (b + 1) = Some c.
Proof. pose proof (wf_sid_nonneg s c Hs). destruct Hs as (Hw & Hl & H1). rewrite <-H1. apply Hh. lia. Qed.

Lemma sid_in_at : sid_in m b.
Proof.
  exists c. pose proof (wf_sid_nonneg s c Hs). pose proof Hs as (_ & Hl & _). split_and!; [apply count_at|lia..].
Qed.

Lemma sid_size_at : ntfs_sid_size m b = Some (zlen s).
Proof. unfold ntfs_sid_size, sub_authority_count. rewrite count_at. cbn. pose proof Hs as (_ & Hl & _). f_equal. lia. Qed.

Lemma same_sid_at u : is_sid u ->
  ntfs_same_sid u 0 m b = Some (bool_decide (u = s)) /\ ntfs_same_sid m b u 0 = Some (bool_decide (s = u)).
Proof.
  intros [cu Hu]. unfold ntfs_same_sid. rewrite (wf_sid_size u cu Hu), sid_size_at. cbn [mbind option_bind].
  rewrite (holds_zread m b s Hh Hb Hz). split.
  - destruct (Z.eqb_spec (zlen s) (zlen u)) as [E|E].
    + rewrite zread_all, <-E, (holds_zread m b s Hh Hb Hz). done.
    + rewrite bool_decide_eq_false_2; [done|]. by intros ->.
  - destruct (Z.eqb_spec (zlen u) (zlen s)) as [E|E].
    + rewrite <-E, zread_all. done.
    + rewrite bool_decide_eq_false_2; [done|]. by intros ->.
Qed.

Lemma subs_are_at i subs : 0 <= i -> i + zlen subs <= c -> subs_are m b i subs = subs_are s 0 i subs.
Proof.
  pose proof Hs as (_ & Hl & _). revert i; induction subs as [|x subs IH]; intros i Hi Hn; cbn [subs_are]; [done|].
  rewrite zlen_cons in Hn. pose proof (zlen_nonneg subs). unfold sub_authority, le32_to_cpup.
  replace (b + 8 + 4 * i) with (b + (0 + 8 + 4 * i)) by lia. rewrite ld_at by lia.
  destruct (ld 4 s (0 + 8 + 4 * i)); [|done]. cbn [mbind option_bind]. destruct (_ =? x); [|done]. apply IH; lia.
Qed.

Lemma sid_is_at cnt low subs : zlen subs <= cnt -> sid_is m b cnt low subs = sid_is s 0 cnt low subs.
Proof.
  intros Hn. pose proof (wf_sid_nonneg s c Hs). pose proof Hs as (_ & Hl & H1). unfold sid_is, sub_authority_count.
  rewrite count_at. change (0 + 1) with 1. rewrite H1. cbn [mbind option_bind]. destruct (Z.eqb_spec c cnt) as [E|]; [|done].
  unfold high_part, low_part, be_to_cpup. rewrite (zread_at 2), (zread_at 4) by lia. change (0 + 2) with 2. change (0 + 4) with 4.
  destruct (zread s 2 (Z.of_nat 2)); [|done]. cbn [mbind option_bind]. destruct (_ =? 0); [|done].
  destruct (zread s 4 (Z.of_nat 4)); [|done]. cbn [mbind option_bind]. destruct (_ =? low); [|done].
  apply subs_are_at; lia.
Qed.

Lemma is_world_at : is_world_sid m b = is_world_sid s 0.
Proof. unfold is_world_sid. by rewrite !sid_is_at by done. Qed.

Lemma is_user_at : ntfs_is_user_sid m b = ntfs_is_user_sid s 0.
Proof. by apply sid_is_at. Qed.
End sid_at.

(** ** An ACE inside an object *)

Definition wf_ace (x : ACE (list Z)) : Prop :=
  is_sid (a_sid x) /\ zlen (a_sid x) < 2 ^ 15 /\ 0 <= a_mask x < 2 ^ 32.

Definition ace_at (m : list Z) (a : Z) (x : ACE (list Z)) : Prop :=
  0 <= a /\ a + zlen (enc_ace x) <= zlen m /\ holds m a (enc_ace x).

Lemma ace_at_fields m a x : ace_at m a x -> wf_ace x ->
  ace_type m a = Some (a_type x) /\ ace_flags m a = Some (a_flags x) /\ ace_size m a = Some (zlen (a_sid x) + 8) /\
  ace_mask m a = Some (a_mask x) /\ holds m (a + 8) (a_sid x) /\ a + 8 + zlen (a_sid x) <= zlen m.
Proof.
  intros (Ha & Hb & Hh) (_ & Hz & Hm). rewrite zlen_enc_ace in Hb. pose proof (zlen_nonneg (a_sid x)).
  unfold enc_ace in Hh. apply holds_cons in Hh as [Ht Hh]. apply holds_cons in Hh as [Hf Hh].
  apply holds_app in Hh as [H2 Hh]. apply holds_app in Hh as [H4 Hh]. rewrite !zlen_le_encode in *.
  replace (a + 1 + 1) with (a + 2) in * by lia. replace (a + 2 + Z.of_nat 2) with (a + 4) in * by lia.
  replace (a + 4 + Z.of_nat 4) with (a + 8) in * by lia.
  split_and!; [done|done| | |done|lia].
  - unfold ace_size, le16_to_cpup. rewrite (holds_ld m 2 _ _ H2) by lia. f_equal. apply Z.mod_small. change (2 ^ 15) with 32768 in Hz.
    change (256 ^ Z.of_nat 2) with 65536. lia.
  - unfold ace_mask, le32_to_cpup. rewrite (holds_ld m 4 _ _ H4) by lia. f_equal. by apply Z.mod_small.
Qed.

Lemma for_aces_fold {S} (body : Z -> S -> option S) (f : S -> ACE (list Z) -> S) m l a s :
  (forall x b s, x ∈ l -> ace_at m b x -> body b s = Some (f s x)) -> Forall wf_ace l ->
  0 <= a -> a + zlen (enc_aces l) <= zlen m -> holds m a (enc_aces l) ->
  for_aces body m (length l) a s = Some (foldl f s l).
Proof.
  intros Hbody Hl. revert a s; induction Hl as [|x l Hx Hl IH]; intros a s Ha Hb Hh; [done|].
  cbn [length for_aces foldl]. rewrite zlen_enc_aces_cons in Hb. pose proof (zlen_nonneg (enc_aces l)). pose proof (zlen_nonneg (a_sid x)).
  change (x :: l) with ([x] ++ l) in Hh. rewrite enc_aces_app, enc_aces_1 in Hh. apply holds_app in Hh as [Hh1 Hh2].
  rewrite zlen_enc_ace in Hh2.
  assert (ace_at m a x) as Hat by (split; [done|]; rewrite zlen_enc_ace; split; [lia|done]).
  rewrite (Hbody x) by (done || by left). cbn [mbind option_bind].
  destruct (ace_at_fields m a x Hat Hx) as (_ & _ & -> & _). cbn [mbind option_bind].
  replace (a + (zlen (a_sid x) + 8)) with (a + (8 + zlen (a_sid x))) by lia.
  apply IH; [|lia|lia|done]. intros y b s' Hy. apply Hbody. by right.
Qed.

(** ** The loops as folds *)

Section steps.
Context {A : Type} (own grp world null : A -> bool).

Definition world_or_null_step (s : access) (x : ACE A) : access :=
  if world (a_sid x) then allow_or_deny All (a_type x) (a_mask x) s
  else if null (a_sid x) && (a_type x =? ACCESS_ALLOWED_ACE_TYPE) then add_special (a_mask x) s else s.

Definition std_step (st : access * bool) (x : ACE A) : access * bool :=
  let '(s, noown) := st in
  if has (a_flags x) INHERIT_ONLY_ACE then st
  else if own (a_sid x) then (allow_or_deny Own (a_type x) (a_mask x) s, false)
  else if grp (a_sid x) && negb (has (a_mask x) WRITE_OWNER) then (allow_or_deny Grp (a_type x) (a_mask x) s, noown)
  else (world_or_null_step s x, noown).

(** [grp] is here that the SID is the owner's. *)
Definition owngrp_step (st : access * bool * bool) (x : ACE A) : access * bool * bool :=
  let '(s, ownpresent, grppresent) := st in
  if has (a_flags x) INHERIT_ONLY_ACE then st
  else if own (a_sid x) && has (a_mask x) WRITE_OWNER then
    if a_type x =? ACCESS_ALLOWED_ACE_TYPE then (allow Own (a_mask x) s, true, grppresent) else st
  else if grp (a_sid x) && negb (has (a_mask x) WRITE_OWNER) then
    if a_type x =? ACCESS_ALLOWED_ACE_TYPE then (allow Grp (a_mask x) s, ownpresent, true) else st
  else (world_or_null_step s x, ownpresent, grppresent).

Definition ownadmin_step (st : access * bool * Z) (x : ACE A) : access * bool * Z :=
  let '(s, firstapply, isforeign) := st in
  if negb (has (a_flags x) INHERIT_ONLY_ACE) && negb (has (Z.lnot (a_mask x)) (Z.lor ROOT_OWNER_UNMARK ROOT_GROUP_UNMARK)) then
    let '(s', f') :=
      if own (a_sid x) && (has (a_mask x) WRITE_OWNER && firstapply) then
        (allow_or_deny Own (a_type x) (a_mask x) s,
         if a_type x =? ACCESS_ALLOWED_ACE_TYPE then Z.land isforeign (Z.lnot 1) else isforeign)
      else if grp (a_sid x) && negb (has (a_mask x) WRITE_OWNER) then
        (allow_or_deny Grp (a_type x) (a_mask x) s,
         if a_type x =? ACCESS_ALLOWED_ACE_TYPE then Z.land isforeign (Z.lnot 2) else isforeign)
      else if world (a_sid x) then (allow_or_deny All (a_type x) (a_mask x) s, isforeign)
      else (s, isforeign) in
    (s', false, f')
  else if has (a_flags x) INHERIT_ONLY_ACE then st
  else if null (a_sid x) && (a_type x =? ACCESS_ALLOWED_ACE_TYPE) then (add_special (a_mask x) s, firstapply, isforeign) else st.

Definition std_mode (isdir : bool) (l : list (ACE A)) : Z := std_result isdir (foldl std_step (no_access, true) l).
Definition owngrp_mode (isdir : bool) (l : list (ACE A)) : Z := owngrp_result isdir (foldl owngrp_step (no_access, false, false) l).
Definition ownadmin_mode (isdir : bool) (l : list (ACE A)) : Z := ownadmin_result isdir (foldl ownadmin_step (no_access, true, 3) l).
End steps.

(** The tests on SIDs. *)
Definition is_own (usid s : list Z) : bool := bool_decide (usid = s) || bool_decide (ownersid = s).
Definition is_grp (gsid s : list Z) : bool := bool_decide (gsid = s).
Definition is_wrld (s : list Z) : bool := default false (is_world_sid s 0).
Definition is_nul (s : list Z) : bool := bool_decide (s = nullsid).

Section bodies.
#[local] Set Default Proof Using "All".
Context (m usid gsid : list Z) (Hu : is_sid usid) (Hg : is_sid gsid) (a : Z) (x : ACE (list Z)) (Hat : ace_at m a x) (Hx : wf_ace x).

Lemma body_tests :
  ntfs_same_sid usid 0 m (a + 8) = Some (bool_decide (usid = a_sid x)) /\
  is_owner m usid a = Some (is_own usid (a_sid x)) /\ is_group m gsid a = Some (is_grp gsid (a_sid x)) /\
  is_world m a = Some (is_wrld (a_sid x)) /\
  is_null m a = Some (is_nul (a_sid x) && (a_type x =? ACCESS_ALLOWED_ACE_TYPE)) /\
  owner_marked m a = Some (has (a_mask x) WRITE_OWNER).
Proof.
  destruct (ace_at_fields m a x Hat Hx) as (Ht & _ & _ & Hm & Hh & Hz). destruct Hat as (Ha & _ & _). destruct Hx as ([c Hc] & _ & _).
  assert (0 <= a + 8) as Ha8 by lia. pose proof (same_sid_at m (a + 8) Ha8 (a_sid x) c Hc Hh ltac:(lia)) as Hsame.
  destruct (is_world_total m (a + 8) Ha8 (sid_in_at m (a + 8) Ha8 (a_sid x) c Hc Hh ltac:(lia))) as [w Hw].
  split_and!.
  - by apply Hsame.
  - unfold is_owner, is_own. rewrite (proj1 (Hsame usid Hu)), (proj1 (Hsame ownersid (proj1 (proj2 (proj2 (proj2 known_sids)))))).
    cbn [or_else mbind option_bind]. by destruct (bool_decide (usid = a_sid x)).
  - by apply Hsame.
  - unfold is_world, is_wrld. rewrite (is_world_at m (a + 8) Ha8 (a_sid x) c Hc Hh ltac:(lia)) in Hw |- *. by rewrite Hw.
  - unfold is_null, is_nul. rewrite (proj2 (Hsame nullsid (proj1 (proj2 (proj2 known_sids))))), Ht.
    cbn [and_then mbind option_bind]. by destruct (bool_decide (a_sid x = nullsid)).
  - unfold owner_marked. by rewrite Hm.
Qed.

Lemma world_or_null_ok s : world_or_null m a s = Some (world_or_null_step is_wrld is_nul s x).
Proof.
  destruct body_tests as (_ & _ & _ & Hw & Hn & _). destruct (ace_at_fields m a x Hat Hx) as (Ht & _ & _ & Hm & _).
  unfold world_or_null, world_or_null_step. rewrite Hw, Hn, Ht, Hm. cbn [mbind option_bind].
  by destruct (is_wrld (a_sid x)), (is_nul (a_sid x) && (a_type x =? ACCESS_ALLOWED_ACE_TYPE)).
Qed.

Ltac body :=
  destruct body_tests as (Hsame & Ho & Hgr & Hw & Hn & Hmk); destruct (ace_at_fields m a x Hat Hx) as (Ht & Hf & _ & Hm & _);
  rewrite Hf; cbn [mbind option_bind fmap option_fmap option_map].

Lemma std_ace_ok st : std_ace m usid gsid a st = Some (std_step (is_own usid) (is_grp gsid) is_wrld is_nul st x).
Proof.
  destruct st as [s noown]. unfold std_ace, std_step. body. destruct (has (a_flags x) INHERIT_ONLY_ACE); [done|].
  rewrite Ho, Ht, Hm. cbn [mbind option_bind]. destruct (is_own usid (a_sid x)); [done|].
  rewrite Hgr, Hmk, world_or_null_ok. cbn [and_then mbind option_bind fmap option_fmap option_map].
  by destruct (is_grp gsid (a_sid x)), (has (a_mask x) WRITE_OWNER).
Qed.

Lemma owngrp_ace_ok st :
  owngrp_ace m usid a st = Some (owngrp_step (is_own usid) (fun s => bool_decide (usid = s)) is_wrld is_nul st x).
Proof.
  destruct st as [[s op] gp]. unfold owngrp_ace, owngrp_step. body. destruct (has (a_flags x) INHERIT_ONLY_ACE); [done|].
  rewrite Ho, Hmk, Ht, Hm, Hsame, world_or_null_ok. cbn [and_then mbind option_bind fmap option_fmap option_map].
  destruct (is_own usid (a_sid x)), (has (a_mask x) WRITE_OWNER), (bool_decide (usid = a_sid x)), (a_type x =? ACCESS_ALLOWED_ACE_TYPE);
    done.
Qed.

Lemma ownadmin_ace_ok st :
  ownadmin_ace m usid gsid a st = Some (ownadmin_step (is_own usid) (is_grp gsid) is_wrld is_nul st x).
Proof.
  destruct st as [[s fa] fo]. unfold ownadmin_ace, ownadmin_step. body. rewrite Ho, Hmk, Ht, Hm, Hgr, Hw, Hn.
  cbn [and_then mbind option_bind fmap option_fmap option_map].
  destruct (has (a_flags x) INHERIT_ONLY_ACE), (has (Z.lnot (a_mask x)) (Z.lor ROOT_OWNER_UNMARK ROOT_GROUP_UNMARK)),
    (is_own usid (a_sid x)), (has (a_mask x) WRITE_OWNER), fa, (is_grp gsid (a_sid x)), (is_wrld (a_sid x)),
    (is_nul (a_sid x) && (a_type x =? ACCESS_ALLOWED_ACE_TYPE)); reflexivity.
Qed.
End bodies.

(** ** The permissions of a list of ACEs *)

Definition aces_mode {A} (adm grpowns : bool) (own same grp world null : A -> bool) (isdir : bool) (l : list (ACE A)) : Z :=
  if adm then ownadmin_mode own grp world null isdir l
  else if grpowns then owngrp_mode own same world null isdir l
  else std_mode own grp world null isdir l.

Lemma group_owns_comm usid gsid :
  negb (admin_owns usid gsid) && bool_decide (gsid = usid) = group_owns usid gsid.
Proof. unfold group_owns. f_equal. by apply bool_decide_ext. Qed.

(** A descriptor whose DACL, at [off], holds the ACEs [l]. *)
Lemma build_permissions_ok m off l usid gsid isdir : is_sid usid -> is_sid gsid ->
  d_dacl m = Some off -> 0 < off < 2 ^ 31 -> ace_count m off = Some (zlen l) ->
  Forall wf_ace l -> off + 8 + zlen (enc_aces l) <= zlen m -> holds m (off + 8) (enc_aces l) ->
  ntfs_build_permissions m usid gsid isdir =
    Some (aces_mode (admin_owns usid gsid) (group_owns usid gsid) (is_own usid) (fun s => bool_decide (usid = s)) (is_grp gsid) is_wrld is_nul isdir l).
Proof.
  intros Hu Hg Hd Hoff Hc Hl Hb Hh. unfold ntfs_build_permissions. rewrite adminowner_ok by done. cbn [mbind option_bind].
  rewrite (same_sid_wf gsid usid) by done.
  assert (and_then (Some (negb (admin_owns usid gsid))) (Some (bool_decide (gsid = usid))) = Some (group_owns usid gsid)) as ->
    by (rewrite <-group_owns_comm; unfold and_then; cbn [mbind option_bind]; by destruct (admin_owns usid gsid)).
  cbn [mbind option_bind].
  assert (forall S (body : Z -> S -> option S) f s, (forall x b s, ace_at m b x -> wf_ace x -> body b s = Some (f s x)) ->
    for_dacl body m s = Some (foldl f s l)) as F.
  { intros S body f s Hbody. unfold for_dacl. rewrite Hd. cbn [mbind option_bind]. rewrite s32_small by lia.
    rewrite (proj2 (Z.eqb_neq off 0)) by lia. cbn [negb]. rewrite Hc. cbn [mbind option_bind]. unfold zlen. rewrite Nat2Z.id.
    apply (for_aces_fold body f); [|done|unfold sizeof_ACL; lia..|done].
    intros x b s' Hx Hat. apply Hbody; [done|]. rewrite Forall_forall in Hl. by apply Hl. }
  unfold aces_mode, build_ownadmin_permissions, build_owngrp_permissions, build_std_permissions.
  destruct (admin_owns usid gsid); [|destruct (group_owns usid gsid)].
  - by rewrite (F _ _ _ _ (fun x b s Hat Hx => ownadmin_ace_ok m usid gsid Hu Hg b x Hat Hx s)).
  - by rewrite (F _ _ _ _ (fun x b s Hat Hx => owngrp_ace_ok m usid gsid Hu Hg b x Hat Hx s)).
  - by rewrite (F _ _ _ _ (fun x b s Hat Hx => std_ace_ok m usid gsid Hu Hg b x Hat Hx s)).
Qed.
