(* ===== verification/AclSpec.v ===== *)
(** What descriptors mean: the mode built into a descriptor is the mode read
    from it, built descriptors pass the checks, and reading a descriptor that
    passed the checks stays inside it. *)

From S2P Require Import Prelude Sid Acl AclBuild AclRead.
Local Open Scope Z_scope.
Local Open Scope c_scope.
Set Default Proof Using "Type*".

(** ** The SIDs of a descriptor as symbols *)

Inductive tok := TOwner | TGroup | TWorld | TAdmin | TSystem | TNull.

Definition interp (usid gsid : list Z) (t : tok) : list Z :=
  match t with
  | TOwner => usid | TGroup => gsid | TWorld => worldsid | TAdmin => adminsid | TSystem => systemsid | TNull => nullsid
  end.

(** Which symbols denote the owner and the group, from whether the owner and
    the group are administrator and whether they are the same. *)
Definition tok_own (ua ug : bool) (t : tok) : bool := match t with TOwner => true | TGroup => ug | TAdmin => ua | _ => false end.
Definition tok_grp (ga ug : bool) (t : tok) : bool := match t with TOwner => ug | TGroup => true | TAdmin => ga | _ => false end.
Definition tok_world (t : tok) : bool := match t with TWorld => true | _ => false end.
Definition tok_null (t : tok) : bool := match t with TNull => true | _ => false end.

Definition tok_aces (mode : Z) (isdir ua ga ug : bool) : list (ACE tok) :=
  base_aces mode isdir (ua || ga) (negb (ua || ga) && ug) TOwner TGroup TWorld TAdmin TSystem.

Definition tok_mode (isdir ua ga ug : bool) (l : list (ACE tok)) : Z :=
  aces_mode (ua || ga) (negb (ua || ga) && ug) (tok_own ua ug) (tok_own ua ug) (tok_grp ga ug) tok_world tok_null isdir l.

(** The owners and groups of Linux files: users, and administrator for root. *)
Definition owner_sid (s : list Z) : Prop := s = adminsid \/ (is_sid s /\ ntfs_is_user_sid s 0 = Some true).

(** The permission bits of every mode, the special ones left out, by evaluation. *)
Definition sid_cases : list (bool * bool * bool) :=
  [(false, false, false); (false, false, true); (true, false, false); (false, true, false); (true, true, true)].

Lemma base_modes :
  forallb (fun mode => forallb (fun isdir => forallb (fun '(ua, ga, ug) =>
    tok_mode isdir ua ga ug (tok_aces mode isdir ua ga ug) =? mode) sid_cases) [false; true]) (seqZ 0 512) = true.
Proof. by vm_compute. Qed.

(** ** Folds over ACEs *)

Lemma foldl_map_ext {S X Y} (f : S -> X -> S) (g : S -> Y -> S) (h : Y -> X) l s :
  (forall s y, f s (h y) = g s y) -> foldl f s (h <$> l) = foldl g s l.
Proof. intros H. revert s; induction l as [|y l IH]; intros s; [done|]. cbn. by rewrite H, IH. Qed.

Lemma aces_mode_map {A B} (f : A -> B) adm gr own same grp world null own' same' grp' world' null' isdir (l : list (ACE A)) :
  (forall t, own (f t) = own' t /\ same (f t) = same' t /\ grp (f t) = grp' t /\ world (f t) = world' t /\ null (f t) = null' t) ->
  aces_mode adm gr own same grp world null isdir (ace_map f <$> l) = aces_mode adm gr own' same' grp' world' null' isdir l.
Proof.
  intros H. unfold aces_mode, ownadmin_mode, owngrp_mode, std_mode.
  destruct adm; [|destruct gr]; f_equal; apply foldl_map_ext; intros s x; destruct (H (a_sid x)) as (E1 & E2 & E3 & E4 & E5);
    unfold ownadmin_step, owngrp_step, std_step, world_or_null_step; cbn [a_sid a_type a_flags a_mask ace_map];
    by rewrite ?E1, ?E2, ?E3, ?E4, ?E5.
Qed.

Lemma allow_or_deny_special w ty mask s : special (allow_or_deny w ty mask s) = special s.
Proof. unfold allow_or_deny. by destruct (ty =? ACCESS_ALLOWED_ACE_TYPE), (ty =? ACCESS_DENIED_ACE_TYPE), w, s. Qed.

Section with_special.
Context {A : Type} (own same grp world null : A -> bool).

(** Without null ACEs, no special bits. *)
Lemma no_null_special l : Forall (fun x => null (a_sid x) = false) l ->
  (forall st, special (fst (foldl (std_step own grp world null) st l)) = special (fst st)) /\
  (forall st, special (fst (fst (foldl (owngrp_step own same world null) st l))) = special (fst (fst st))) /\
  (forall st, special (fst (fst (foldl (ownadmin_step own grp world null) st l))) = special (fst (fst st))).
Proof.
  induction 1 as [|x l Hx _ IH]; [done|]. destruct IH as (I1 & I2 & I3). cbn [foldl].
  split_and!; [intros [s n]; rewrite I1|intros [[s o] g]; rewrite I2|intros [[s f] i]; rewrite I3];
    unfold std_step, owngrp_step, ownadmin_step, world_or_null_step; rewrite Hx; repeat case_match; simplify_eq;
    cbn [fst]; rewrite ?allow_or_deny_special; try done; by destruct s.
Qed.

Context (x : ACE A) (sp : Z).
Context (Hty : a_type x = ACCESS_ALLOWED_ACE_TYPE) (Hfl : a_flags x = NO_PROPAGATE_INHERIT_ACE) (Hm : a_mask x = sp) (Hsp : 0 <= sp < 8).
Context (Hown : own (a_sid x) = false) (Hsame : same (a_sid x) = false) (Hgrp : grp (a_sid x) = false)
  (Hworld : world (a_sid x) = false) (Hnull : null (a_sid x) = true).

Lemma merge_special isdir s own' grp' : special s = 0 ->
  merge_access isdir (add_special sp s) own' grp' = Z.lor (merge_access isdir s own' grp') (special_bits sp).
Proof.
  destruct s as [sp0 ao ag aa dO dg da]. cbn [special]. intros ->. unfold merge_access, merge_permissions. cbn [add_special denyown denyall denygrp allowall special].
  rewrite Z.lor_0_l. change (special_bits 0) with 0. by rewrite Z.lor_0_r.
Qed.

(** The null ACE adds the special bits. *)
Lemma special_ace_mode adm gr isdir l : Forall (fun x => null (a_sid x) = false) l ->
  aces_mode adm gr own same grp world null isdir (l ++ [x]) = Z.lor (aces_mode adm gr own same grp world null isdir l) (special_bits sp).
Proof.
  intros Hl. destruct (no_null_special l Hl) as (N1 & N2 & N3).
  unfold aces_mode, ownadmin_mode, owngrp_mode, std_mode. rewrite !foldl_app. cbn [foldl].
  assert (has (a_flags x) INHERIT_ONLY_ACE = false) as Hio by (by rewrite Hfl).
  assert (forall s, world_or_null_step world null s x = add_special sp s) as Hwn.
  { intros s. unfold world_or_null_step. by rewrite Hworld, Hnull, Hty, Hm. }
  destruct adm; [|destruct gr].
  - assert (has (Z.lnot (a_mask x)) (Z.lor ROOT_OWNER_UNMARK ROOT_GROUP_UNMARK) = true) as Hmk.
    { rewrite Hm. assert (sp = 0 \/ sp = 1 \/ sp = 2 \/ sp = 3 \/ sp = 4 \/ sp = 5 \/ sp = 6 \/ sp = 7) as Hc by lia.
      by destruct Hc as [-> | [-> | [-> | [-> | [-> | [-> | [-> | ->]]]]]]]. }
    specialize (N3 (no_access, true, 3)). destruct (foldl (ownadmin_step own grp world null) (no_access, true, 3) l) as [[s fa] fo].
    cbn [fst] in N3. unfold ownadmin_step. rewrite Hio, Hmk, Hnull, Hty, Hm, Z.eqb_refl. cbn [negb andb]. unfold ownadmin_result.
    assert (allowown (add_special sp s) = allowown s /\ allowgrp (add_special sp s) = allowgrp s /\ allowall (add_special sp s) = allowall s) as (-> & -> & ->) by (by destruct s).
    by destruct (negb (fo =? 0)); rewrite merge_special by (by rewrite N3).
  - specialize (N2 (no_access, false, false)). destruct (foldl (owngrp_step own same world null) (no_access, false, false) l) as [[s o] g].
    cbn [fst] in N2. unfold owngrp_step. rewrite Hio, Hown, Hsame, Hwn. cbn [andb]. unfold owngrp_result.
    assert (allowown (add_special sp s) = allowown s /\ allowgrp (add_special sp s) = allowgrp s /\ allowall (add_special sp s) = allowall s) as (-> & -> & ->) by (by destruct s).
    by rewrite merge_special by (by rewrite N2).
  - specialize (N1 (no_access, true)). destruct (foldl (std_step own grp world null) (no_access, true) l) as [s o].
    cbn [fst] in N1. unfold std_step. rewrite Hio, Hown, Hgrp, Hwn. cbn [andb]. unfold std_result.
    assert (allowown (add_special sp s) = allowown s /\ allowgrp (add_special sp s) = allowgrp s /\ allowall (add_special sp s) = allowall s) as (-> & -> & ->) by (by destruct s).
    by rewrite merge_special by (by rewrite N1).
Qed.
End with_special.

(** ** The bits of a mode *)

Lemma has_land mode k f : Z.land k f = f -> has (Z.land mode k) f = has mode f.
Proof. intros H. unfold has. by rewrite <-Z.land_assoc, H. Qed.

Lemma has_lor x f g : has x (Z.lor f g) = has x f || has x g.
Proof.
  unfold has. rewrite Z.land_lor_distr_r.
  destruct (Z.eqb_spec (Z.land x f) 0) as [->|N1]; [done|]. cbn [negb orb]. apply negb_true_iff, Z.eqb_neq.
  intros [E _]%Z.lor_eq_0_iff. done.
Qed.

Lemma testbit_low mode i : 0 <= i < 9 -> Z.testbit (Z.land mode 511) i = Z.testbit mode i.
Proof.
  intros Hi. rewrite (land_ones' mode 511 9) by done. apply Z.mod_pow2_bits_low; lia.
Qed.

Lemma land7_ext x y : (forall i, 0 <= i < 3 -> Z.testbit x i = Z.testbit y i) -> Z.land x 7 = Z.land y 7.
Proof.
  intros H. apply Z.bits_inj'. intros i Hi. rewrite !Z.land_spec. destruct (Z.lt_ge_cases i 3); [by rewrite H|].
  assert (Z.testbit 7 i = false) as E7; [|by rewrite E7, !andb_false_r]. change 7 with (Z.ones 3). apply Z.ones_spec_high. lia.
Qed.

Lemma group_differs_low mode : group_differs (Z.land mode 511) = group_differs mode.
Proof.
  unfold group_differs, has. do 2 f_equal. apply land7_ext. intros i Hi.
  by rewrite !Z.lxor_spec, !Z.shiftr_spec, !testbit_low by lia.
Qed.

Lemma group_has_more_low mode : group_has_more (Z.land mode 511) = group_has_more mode.
Proof.
  unfold group_has_more, has. do 2 f_equal. apply land7_ext. intros i Hi.
  by rewrite !Z.land_spec, !Z.lnot_spec, !Z.shiftr_spec, !testbit_low by lia.
Qed.

(** Only the low nine bits count, the special ACE apart. *)
Lemma base_aces_low {A} mode isdir adm grp (u g w a s : A) :
  base_aces (Z.land mode 511) isdir adm grp u g w a s = base_aces mode isdir adm grp u g w a s.
Proof.
  unfold base_aces, owner_denied, group_part, owner_denials, group_denials, owner_grants, group_grants, world_grants.
  by rewrite group_differs_low, group_has_more_low, !has_land by done.
Qed.

Lemma base_aces_map {A B} (f : A -> B) mode isdir adm grp u g w a s :
  ace_map f <$> base_aces mode isdir adm grp u g w a s = base_aces mode isdir adm grp (f u) (f g) (f w) (f a) (f s).
Proof.
  unfold base_aces. rewrite !fmap_app.
  assert (forall fl mk x, ace_map f <$> denied fl mk x = denied fl mk (f x)) as D
    by (intros fl mk x; unfold denied; by destruct (negb (mk =? 0))).
  assert (ace_map f <$> owner_denied mode isdir adm grp u = owner_denied mode isdir adm grp (f u)) as ->
    by (unfold owner_denied; destruct adm; [done|apply D]).
  assert (ace_map f <$> world_exec_denied isdir w = world_exec_denied isdir (f w)) as -> by (by destruct isdir).
  assert (ace_map f <$> group_part mode isdir adm grp g = group_part mode isdir adm grp (f g)) as ->; [|done].
  unfold group_part. destruct (adm || group_differs mode); [|done]. rewrite fmap_app.
  assert (ace_map f <$> (if adm || grp then [] else denied (inheritance isdir) (group_denials mode isdir) g) =
    (if adm || grp then [] else denied (inheritance isdir) (group_denials mode isdir) (f g))) as ->
    by (destruct (adm || grp); [done|apply D]).
  by destruct (adm || grp || group_has_more mode).
Qed.

Lemma land_bit mode k : 0 <= k -> Z.land mode (2 ^ k) = if has mode (2 ^ k) then 2 ^ k else 0.
Proof.
  intros Hk. unfold has. assert (Z.land mode (2 ^ k) = if Z.testbit mode k then 2 ^ k else 0) as ->.
  { apply Z.bits_inj'. intros i Hi. rewrite Z.land_spec, Z.pow2_bits_eqb by done.
    destruct (Z.eqb_spec k i) as [->|N]; [rewrite andb_true_r|rewrite andb_false_r].
    - destruct (Z.testbit mode i); [by rewrite Z.pow2_bits_true|by rewrite Z.bits_0].
    - destruct (Z.testbit mode k); [rewrite Z.pow2_bits_false; done|by rewrite Z.bits_0]. }
  destruct (Z.testbit mode k); [|done]. pose proof (Z.pow_pos_nonneg 2 k). by rewrite (proj2 (Z.eqb_neq _ _)) by lia.
Qed.

(** The special mask gives the special bits. *)
Lemma special_mask_bits mode :
  0 <= special_mask mode < 8 /\ special_bits (special_mask mode) = Z.land mode 0xe00 /\
  has mode (flags [S_ISVTX; S_ISGID; S_ISUID]) = negb (special_mask mode =? 0).
Proof.
  change 0xe00 with (Z.lor (2 ^ 9) (Z.lor (2 ^ 10) (2 ^ 11))). rewrite !Z.land_lor_distr_r, !land_bit by done.
  change (flags [S_ISVTX; S_ISGID; S_ISUID]) with (Z.lor (2 ^ 9) (Z.lor (2 ^ 10) (2 ^ 11))). rewrite !has_lor.
  unfold special_mask. change S_ISVTX with (2 ^ 9). change S_ISGID with (2 ^ 10). change S_ISUID with (2 ^ 11).
  by destruct (has mode (2 ^ 9)), (has mode (2 ^ 10)), (has mode (2 ^ 11)).
Qed.

(** ** The mode of a built descriptor *)

Lemma user_sid_count s : ntfs_is_user_sid s 0 = Some true -> zget s 1 = Some 5.
Proof.
  unfold ntfs_is_user_sid, sid_is, sub_authority_count. change (0 + 1) with 1. destruct (zget s 1) as [c|]; [|done].
  cbn [mbind option_bind]. destruct (Z.eqb_spec c 5) as [->|]; done.
Qed.

Lemma owner_sid_sid s : owner_sid s -> is_sid s.
Proof. intros [->|[H _]]; [apply known_sids|done]. Qed.

(** An owner is none of the fixed SIDs but administrator. *)
Lemma owner_sid_fresh s : owner_sid s ->
  s <> worldsid /\ s <> systemsid /\ s <> nullsid /\ s <> ownersid /\ is_wrld s = false.
Proof.
  intros [->|[_ H%user_sid_count]]; [by split_and!|].
  split_and!; [intros ->; done..|].
  unfold is_wrld, is_world_sid, sid_is, sub_authority_count. change (0 + 1) with 1. by rewrite H.
Qed.

Lemma interp_tests usid gsid t : owner_sid usid -> owner_sid gsid ->
  let ua := bool_decide (usid = adminsid) in let ga := bool_decide (gsid = adminsid) in let ug := bool_decide (usid = gsid) in
  is_own usid (interp usid gsid t) = tok_own ua ug t /\ bool_decide (usid = interp usid gsid t) = tok_own ua ug t /\
  is_grp gsid (interp usid gsid t) = tok_grp ga ug t /\ is_wrld (interp usid gsid t) = tok_world t /\
  is_nul (interp usid gsid t) = tok_null t.
Proof.
  intros Hu Hg ua ga ug. destruct (owner_sid_fresh usid Hu) as (U1 & U2 & U3 & U4 & U5).
  destruct (owner_sid_fresh gsid Hg) as (G1 & G2 & G3 & G4 & G5).
  unfold is_own, is_grp, is_nul, ua, ga, ug. destruct t; cbn [interp tok_own tok_grp tok_world tok_null].
  all: split_and!; try done.
  all: repeat match goal with
    | |- context [bool_decide (?a = ?a)] => rewrite (bool_decide_eq_true_2 (a = a)) by done
    | H : ?a <> ?b |- context [bool_decide (?a = ?b)] => rewrite (bool_decide_eq_false_2 (a = b)) by done
    | H : ?a <> ?b |- context [bool_decide (?b = ?a)] => rewrite (bool_decide_eq_false_2 (b = a)) by (intros E; apply H; by symmetry)
    end; rewrite ?orb_false_r; try done.
  all: try (by apply bool_decide_ext).
Qed.

Ltac by_member := repeat first [by left | right].

Lemma sid_case usid gsid :
  (bool_decide (usid = adminsid), bool_decide (gsid = adminsid), bool_decide (usid = gsid)) ∈ sid_cases.
Proof.
  unfold sid_cases. destruct (bool_decide_reflect (usid = adminsid)) as [->|N1].
  - destruct (bool_decide_reflect (gsid = adminsid)) as [->|N2].
    + rewrite bool_decide_eq_true_2 by done. by_member.
    + rewrite bool_decide_eq_false_2 by congruence. by_member.
  - destruct (bool_decide_reflect (gsid = adminsid)) as [->|N2].
    + rewrite bool_decide_eq_false_2 by done. by_member.
    + destruct (bool_decide (usid = gsid)); by_member.
Qed.

Lemma base_mode mode isdir ua ga ug : 0 <= mode < 512 -> (ua, ga, ug) ∈ sid_cases ->
  tok_mode isdir ua ga ug (tok_aces mode isdir ua ga ug) = mode.
Proof.
  intros Hm Hc. pose proof base_modes as H. rewrite forallb_forall in H.
  specialize (H mode). rewrite <-list_elem_of_In in H. specialize (H ltac:(apply elem_of_seqZ; lia)).
  rewrite forallb_forall in H.
  specialize (H isdir ltac:(destruct isdir; cbn; tauto)). rewrite forallb_forall in H.
  specialize (H (ua, ga, ug)). rewrite <-list_elem_of_In in H. specialize (H Hc). by apply Z.eqb_eq.
Qed.

Lemma base_no_null mode isdir ua ga ug : Forall (fun x => tok_null (a_sid x) = false) (tok_aces mode isdir ua ga ug).
Proof.
  unfold tok_aces, base_aces, owner_denied, world_exec_denied, group_part, denied.
  repeat (apply Forall_app; split); repeat case_match; repeat constructor.
Qed.

(** The mode read from the ACEs built for a mode. *)
Lemma descr_aces_mode mode isdir usid gsid : owner_sid usid -> owner_sid gsid ->
  aces_mode (admin_owns usid gsid) (group_owns usid gsid) (is_own usid) (fun s => bool_decide (usid = s)) (is_grp gsid) is_wrld is_nul
    isdir (descr_aces mode isdir usid gsid) = Z.land mode 0xfff.
Proof.
  intros Hu Hg. set (ua := bool_decide (usid = adminsid)). set (ga := bool_decide (gsid = adminsid)). set (ug := bool_decide (usid = gsid)).
  pose proof (sid_case usid gsid) as Hcase. fold ua ga ug in Hcase.
  destruct (special_mask_bits mode) as (Hs1 & Hs2 & Hs3).
  assert (descr_aces mode isdir usid gsid = ace_map (interp usid gsid) <$>
    (tok_aces (Z.land mode 511) isdir ua ga ug ++
     if negb (special_mask mode =? 0) then [allowed NO_PROPAGATE_INHERIT_ACE (special_mask mode) TNull] else [])) as ->.
  { unfold descr_aces, mode_aces, tok_aces. rewrite fmap_app, base_aces_map, base_aces_low. f_equal.
    unfold special_part. rewrite Hs3. by destruct (negb (special_mask mode =? 0)). }
  change (admin_owns usid gsid) with (ua || ga). change (group_owns usid gsid) with (negb (ua || ga) && ug).
  rewrite (aces_mode_map _ _ _ _ _ _ _ _ (tok_own ua ug) (tok_own ua ug) (tok_grp ga ug) tok_world tok_null)
    by (intros t; exact (interp_tests usid gsid t Hu Hg)).
  pose proof (base_mode (Z.land mode 511) isdir ua ga ug) as HB. rewrite (land_ones' mode 511 9) in * by done.
  assert (0 <= mode mod 2 ^ 9 < 512) as Hr by (apply (Z.mod_pos_bound mode (2 ^ 9)); done). specialize (HB Hr Hcase).
  assert (Z.land mode 0xfff = Z.lor (mode mod 2 ^ 9) (special_bits (special_mask mode))) as ->.
  { rewrite Hs2, <-(land_ones' mode 511 9) by done. by rewrite <-Z.land_lor_distr_r. }
  destruct (Z.eqb_spec (special_mask mode) 0) as [->|Hn]; cbn [negb].
  - rewrite app_nil_r. change (special_bits 0) with 0. rewrite Z.lor_0_r. exact HB.
  - rewrite (special_ace_mode _ _ _ _ _ _ (special_mask mode)) by (done || apply base_no_null). f_equal. exact HB.
Qed.

(** ** Reading a built descriptor *)

(** ** Reading a built descriptor *)

Lemma land_range a b : 0 <= a < 2 ^ 32 -> 0 <= Z.land a b < 2 ^ 32.
Proof.
  intros Ha. assert (Z.land a b = Z.land a b mod 2 ^ 32) as ->; [|by apply Z.mod_pos_bound].
  rewrite <-Z.land_ones by done. rewrite (Z.land_comm a b), <-Z.land_assoc, Z.land_ones by done. by rewrite Z.mod_small.
Qed.

Lemma rights_range isdir x w r g : 0 <= g < 2 ^ 32 -> 0 <= rights isdir x w r g < 2 ^ 32.
Proof.
  intros Hg. assert (forall b f g, 0 <= f < 2 ^ 32 -> 0 <= g < 2 ^ 32 -> 0 <= set_if b f g < 2 ^ 32) as S.
  { intros b f g' Hf Hg'. unfold set_if. destruct b; [|done].
    assert (Z.lor g' f = Z.lor g' f mod 2 ^ 32) as ->; [|by apply Z.mod_pos_bound].
    rewrite <-Z.land_ones by done. rewrite Z.land_lor_distr_l, !Z.land_ones by done. by rewrite !Z.mod_small. }
  unfold rights. destruct isdir; repeat apply S; done.
Qed.

Lemma sid_size_bound s : is_sid s -> zlen s <= 1028.
Proof.
  intros (c & Hw & Hl & H1). pose proof (zget_Forall _ _ _ _ Hw H1) as Hc. unfold is_byte in Hc. lia.
Qed.

Lemma wf_ace_intro ty fl mask s : is_sid s -> 0 <= mask < 2 ^ 32 -> wf_ace (Ace ty fl mask s).
Proof.
  intros Hs Hm. split; [done|]. split; [|done].
  pose proof (sid_size_bound s Hs). cbn [a_sid]. change (2 ^ 15) with 32768. lia.
Qed.

Lemma wf_denied fl mask s : is_sid s -> 0 <= mask < 2 ^ 32 -> Forall wf_ace (denied fl mask s).
Proof. intros Hs Hm. unfold denied. destruct (negb _); [|done]. constructor; [by apply wf_ace_intro|done]. Qed.

Lemma descr_aces_wf mode isdir usid gsid : is_sid usid -> is_sid gsid ->
  Forall wf_ace (descr_aces mode isdir usid gsid) /\ zlen (descr_aces mode isdir usid gsid) <= 10.
Proof.
  intros Hu Hg. destruct known_sids as (Kw & Ks & Kn & _ & Ka).
  assert (forall A fl mk (s : A), zlen (denied fl mk s) <= 1) as Hd by (intros; unfold denied; by destruct (negb _)).
  unfold descr_aces, mode_aces, base_aces, allowed. split.
  - repeat (apply Forall_app; split).
    + unfold owner_denied. destruct (admin_owns usid gsid); [done|]. apply wf_denied; [done|]. apply land_range.
      unfold owner_denials. destruct (group_owns usid gsid); by apply rights_range.
    + unfold world_exec_denied. destruct isdir; [|done]. constructor; [by apply wf_ace_intro|done].
    + constructor; [|done]. apply wf_ace_intro; [done|]. by apply rights_range.
    + unfold group_part. destruct (_ || group_differs mode); [|done]. apply Forall_app; split.
      * destruct (_ || group_owns usid gsid); [done|]. apply wf_denied; [done|]. apply land_range. by apply rights_range.
      * destruct (_ || group_has_more mode); [|done]. constructor; [|done]. apply wf_ace_intro; [done|]. by apply rights_range.
    + constructor; [apply wf_ace_intro; [done|by apply rights_range]|].
      constructor; [by apply wf_ace_intro|]. constructor; [by apply wf_ace_intro|done].
    + unfold special_part. destruct (has mode _); [|done]. constructor; [|done]. apply wf_ace_intro; [done|].
      destruct (special_mask_bits mode) as (H & _). change (2 ^ 32) with 4294967296. lia.
  - rewrite !zlen_app. unfold owner_denied, world_exec_denied, group_part, special_part.
    pose proof (Hd (list Z) (inheritance isdir) (group_denials mode isdir) gsid).
    match goal with |- context [if admin_owns usid gsid then [] else denied ?f ?k ?s] => pose proof (Hd (list Z) f k s) end.
    repeat case_match; rewrite ?zlen_app, ?zlen_cons, ?zlen_nil; lia.
Qed.

(** The fields of a descriptor that holds [enc_descr]. *)
Lemma built_fields m mode isdir usid gsid : is_sid usid -> is_sid gsid -> holds m 0 (enc_descr mode isdir usid gsid) ->
  zlen (enc_descr mode isdir usid gsid) <= zlen m ->
  let l := descr_aces mode isdir usid gsid in let n := zlen (enc_aces l) in
  0 <= n <= 5000 /\ zlen m >= 28 + n + zlen usid + zlen gsid /\
  d_revision m = Some 1 /\ d_control m = Some 0x9004 /\ d_owner m = Some (28 + n) /\ d_group m = Some (28 + n + zlen usid) /\
  d_sacl m = Some 0 /\ d_dacl m = Some 20 /\ acl_revision m 20 = Some ACL_REVISION /\ acl_size m 20 = Some (8 + n) /\
  ace_count m 20 = Some (zlen l) /\ holds m 28 (enc_aces l) /\ holds m (28 + n) usid /\ holds m (28 + n + zlen usid) gsid.
Proof.
  intros Hu Hg Hh Hz l n. rewrite zlen_enc_descr in Hz. fold l n in Hz.
  pose proof (sid_size_bound usid Hu) as Su. pose proof (sid_size_bound gsid Hg) as Sg.
  pose proof (descr_aces_size mode isdir usid gsid) as Hsz. fold l n in Hsz.
  destruct (descr_aces_wf mode isdir usid gsid Hu Hg) as [_ Hl]. fold l in Hl.
  pose proof (zlen_nonneg usid) as Pu. pose proof (zlen_nonneg gsid) as Pg. pose proof (zlen_nonneg l) as Pl.
  pose proof (zlen_nonneg (enc_aces l)) as Hn. fold n in Hn.
  assert (0 <= n <= 5000) as Hn5 by (destruct isdir, (has mode 0xe00); lia).
  unfold enc_descr, enc_acl in Hh. fold l n in Hh. rewrite !holds_app, !zlen_app, !zlen_le_encode in Hh. fold n in Hh.
  change (zlen [SECURITY_DESCRIPTOR_REVISION]) with 1 in Hh. change (zlen [0]) with 1 in Hh. change (zlen [ACL_REVISION; 0]) with 2 in Hh.
  destruct Hh as (H0 & _ & H2 & H4 & H8 & H12 & H16 & (H20 & H22 & H24 & _ & H28) & Hus & Hgs).
  assert (forall k v a b, holds m a (le_encode k v) -> a = b -> 0 <= b -> b + Z.of_nat k <= zlen m -> 0 <= v < 256 ^ Z.of_nat k -> ld k m b = Some v) as L.
  { intros k v a b H' -> Hb Hk Hv. rewrite (holds_ld m k v) by done. f_equal. by apply Z.mod_small. }
  assert (forall x a b, holds m a [x] -> a = b -> zget m b = Some x) as G by (intros x a b H' ->; rewrite <-(Z.add_0_r b); by apply H').
  change sizeof_DESCR with 20 in *.
  assert (256 ^ Z.of_nat 2 = 65536 /\ 256 ^ Z.of_nat 4 = 4294967296) as [W2 W4] by done.
  unfold d_revision, d_control, d_owner, d_group, d_sacl, d_dacl, acl_revision, acl_size, ace_count, le16_to_cpup, le32_to_cpup.
  split_and!; try lia.
  - by apply (G _ _ 0 H0).
  - apply (L 2%nat 0x9004 _ 2 H2); done || lia.
  - rewrite (L 4%nat _ _ 4 H4) by lia. f_equal. lia.
  - rewrite (L 4%nat _ _ 8 H8) by lia. f_equal. lia.
  - apply (L 4%nat 0 _ 12 H12); lia.
  - apply (L 4%nat 20 _ 16 H16); lia.
  - apply holds_cons in H20 as [H20 _]. revert H20. by match goal with |- zget _ ?a = _ -> _ => replace a with 20 by lia end.
  - apply (L 2%nat _ _ 22 H22); lia.
  - apply (L 2%nat _ _ 24 H24); lia.
  - revert H28. by match goal with |- holds _ ?a _ -> _ => replace a with 28 by lia end.
  - revert Hus. by match goal with |- holds _ ?a _ -> _ => replace a with (28 + n) by lia end.
  - revert Hgs. by match goal with |- holds _ ?a _ -> _ => replace a with (28 + n + zlen usid) by lia end.
Qed.

(** An ACE by which ntfs_acl_owner takes its SID for the owner's. *)
Definition owner_ace (x : ACE (list Z)) : Prop :=
  has (a_mask x) WRITE_OWNER = true /\ a_type x = ACCESS_ALLOWED_ACE_TYPE /\ ntfs_is_user_sid (a_sid x) 0 = Some true.

Lemma find_owner_ok m l x a : Forall wf_ace (x :: l) -> 0 <= a -> a + zlen (enc_aces (x :: l)) <= zlen m -> holds m a (enc_aces (x :: l)) ->
  exists r, find_owner m (length l) a = Some r /\
    (forall b, r = Some b -> exists y, y ∈ x :: l /\ owner_ace y /\ 0 <= b /\ b + zlen (a_sid y) <= zlen m /\ holds m b (a_sid y)).
Proof.
  revert x a; induction l as [|y l IH]; intros x a Hl Ha Hb Hh.
  all: inversion_clear Hl as [|? ? Hx Hl']; pose proof (zlen_nonneg (a_sid x)).
  all: rewrite zlen_enc_aces_cons in Hb; change (x :: ?t) with ([x] ++ t) in Hh; rewrite enc_aces_app, enc_aces_1 in Hh;
    apply holds_app in Hh as [Hh1 Hh2]; rewrite zlen_enc_ace in Hh2.
  all: match type of Hb with context [zlen (enc_aces ?t)] => pose proof (zlen_nonneg (enc_aces t)) end.
  all: assert (ace_at m a x) as Hat by (split; [done|]; rewrite zlen_enc_ace; split; [lia|done]);
    destruct (ace_at_fields m a x Hat Hx) as (Ht & _ & Hsz & Hm & Hs & Hbs); pose proof Hx as ([c Hc] & _ & _);
    assert (0 <= a + 8) as Ha8 by lia; destruct (sid_is_total m (a + 8) Ha8 5 5 [21]) as [u Hu]; [exact (sid_in_at m (a + 8) Ha8 (a_sid x) c Hc Hs Hbs)|done|];
    pose proof (is_user_at m (a + 8) Ha8 (a_sid x) c Hc Hs Hbs) as Hus; unfold ntfs_is_user_sid in Hus at 1; rewrite Hu in Hus.
  all: cbn [length find_owner]; rewrite Hm, Ht; cbn [mbind option_bind]; unfold ntfs_is_user_sid; rewrite Hu.
  all: destruct (has (a_mask x) WRITE_OWNER && (a_type x =? ACCESS_ALLOWED_ACE_TYPE)) eqn:E1; cbn [and_then mbind option_bind];
    [destruct u|]; rewrite Hsz; cbn [mbind option_bind].
  all: try (eexists; split; [done|]; intros b [= <-]; exists x; apply andb_true_iff in E1 as [E1 E2%Z.eqb_eq];
    split; [by left|]; split; [split; [done|split; [done|by symmetry]]|split; [lia|done]]).
  all: try (eexists; split; [done|]; by intros b).
  all: replace (a + (zlen (a_sid x) + 8)) with (a + (8 + zlen (a_sid x))) by lia;
    destruct (IH y (a + (8 + zlen (a_sid x)))) as (r & Er & Hr); [done|lia|lia|done|];
    exists r; split; [done|]; intros b Hb'; destruct (Hr b Hb') as (z & Hz & H'); exists z; (split; [by right|done]).
Qed.

Lemma owner_aces mode isdir usid gsid x : x ∈ descr_aces mode isdir usid gsid -> owner_ace x -> a_sid x = usid.
Proof.
  unfold descr_aces, mode_aces, base_aces, allowed. intros Hx (Hw & Hty & Hus).
  assert (forall fl mk s, x ∈ denied fl mk s -> False) as Hd.
  { intros fl mk s. unfold denied. destruct (negb _); [|by rewrite elem_of_nil]. intros ->%list_elem_of_singleton. done. }
  rewrite !elem_of_app, !elem_of_cons, elem_of_nil in Hx.
  destruct Hx as [[Hx|[Hx|[Hx|[Hx|Hx]]]]|Hx].
  - unfold owner_denied in Hx. destruct (admin_owns usid gsid); [by apply elem_of_nil in Hx|]. by apply Hd in Hx.
  - unfold world_exec_denied in Hx. destruct isdir; [|by apply elem_of_nil in Hx]. by apply list_elem_of_singleton in Hx as ->.
  - by destruct Hx as [-> | []].
  - exfalso. unfold group_part, allowed in Hx. destruct (_ || group_differs mode); [|by apply elem_of_nil in Hx].
    apply elem_of_app in Hx as [Hx|Hx].
    + destruct (_ || group_owns usid gsid); [by apply elem_of_nil in Hx|]. by apply Hd in Hx.
    + destruct (_ || group_has_more mode); [|by apply elem_of_nil in Hx]. apply list_elem_of_singleton in Hx as ->. cbn [a_mask] in Hw.
      revert Hw. unfold group_grants. by destruct isdir, (has mode S_IXGRP), (has mode S_IWGRP), (has mode S_IRGRP).
  - exfalso. by destruct Hx as [-> | [-> | [-> | []]]].
  - exfalso. unfold special_part, allowed in Hx. destruct (has mode _); [|by apply elem_of_nil in Hx]. by apply list_elem_of_singleton in Hx as ->.
Qed.

(** What malloc gives. *)
Definition malloc_ok (ntfs_malloc : Z -> option (list Z)) : Prop := forall n m, ntfs_malloc n = Some m -> zlen m = n.

(** C23: the mode of a file survives its Windows form: for any mode, file or
    directory, and any owner and group among users and administrator (root), the
    descriptor that ntfs_build_descr makes is read back by
    ntfs_build_permissions as the same twelve permission bits, ntfs_acl_owner
    finds the owner in it and its group field the group.  The function fails
    only for lack of memory, and never writes outside what it allocated. *)
Theorem permissions_roundtrip ntfs_malloc mode isdir usid gsid :
  malloc_ok ntfs_malloc -> owner_sid usid -> owner_sid gsid ->
  exists n, newattrsz mode isdir (zlen usid) (zlen gsid) = Some n /\
    match ntfs_malloc n with
    | None => ntfs_build_descr ntfs_malloc mode isdir usid gsid = Some (Err ENOMEM)
    | Some _ => exists descr, ntfs_build_descr ntfs_malloc mode isdir usid gsid = Some (Ok descr) /\
        ntfs_build_permissions descr usid gsid isdir = Some (Z.land mode 0xfff) /\
        (exists o, ntfs_acl_owner descr = Some o /\ ntfs_same_sid descr o usid 0 = Some true) /\
        (exists g, d_group descr = Some g /\ ntfs_same_sid descr g gsid 0 = Some true)
    end.
Proof.
  intros Hmal Ho Hgo. pose proof (owner_sid_sid _ Ho) as Hu. pose proof (owner_sid_sid _ Hgo) as Hg.
  eexists; split; [apply newattrsz_eq|]. destruct (ntfs_malloc _) as [m|] eqn:Em.
  - destruct (build_descr_ok ntfs_malloc mode isdir usid gsid _ m Hu Hg (newattrsz_eq _ _ _ _) Em (Hmal _ _ Em)) as (d & -> & Hz & Hb & Hh).
    exists d. split; [done|]. rewrite <-Hz in Hb.
    destruct (built_fields d mode isdir usid gsid Hu Hg Hh Hb) as (Hn & Hzm & _ & _ & Hdo & Hdg & _ & Hdd & _ & _ & Hc & H28 & Hus & Hgs).
    destruct (descr_aces_wf mode isdir usid gsid Hu Hg) as [Hwf _].
    pose proof (zlen_nonneg usid). pose proof (zlen_nonneg gsid).
    destruct Hu as [cu Hcu]. destruct Hg as [cg Hcg]. split; [|split].
    + rewrite (build_permissions_ok d 20 (descr_aces mode isdir usid gsid)); [by rewrite descr_aces_mode|by eexists..|done|done|done|done|lia|done].
    + destruct (descr_aces mode isdir usid gsid) as [|x l] eqn:El.
      { exfalso. revert El. unfold descr_aces, mode_aces, base_aces.
        intros [[_ [_ [E _]%app_eq_nil]%app_eq_nil]%app_eq_nil _]%app_eq_nil. done. }
      destruct (find_owner_ok d l x 28) as (r & Er & Hr); [done|lia|lia|done|].
      unfold ntfs_acl_owner. rewrite Hdd. cbn [mbind option_bind]. change (s32 20) with 20. cbn [negb Z.eqb]. rewrite Hc. cbn [mbind option_bind].
      change (20 + sizeof_ACL) with 28. unfold zlen at 1. rewrite Nat2Z.id. cbn [length pred]. rewrite Er. cbn [mbind option_bind].
      destruct r as [b|].
      * exists b. split; [done|]. destruct (Hr b eq_refl) as (y & Hy & Hoy & Hb0 & Hby & Hhy). rewrite <-El in Hy.
        pose proof (owner_aces _ _ _ _ _ Hy Hoy) as Ey. rewrite Ey in *.
        rewrite (proj2 (same_sid_at d b Hb0 usid cu Hcu Hhy Hby usid (ex_intro _ cu Hcu))). by rewrite bool_decide_eq_true_2.
      * exists (28 + zlen (enc_aces (x :: l))). split; [done|].
        rewrite (proj2 (same_sid_at d (28 + zlen (enc_aces (x :: l))) ltac:(lia) usid cu Hcu Hus ltac:(lia) usid (ex_intro _ cu Hcu))). by rewrite bool_decide_eq_true_2.
    + eexists; split; [done|].
      rewrite (proj2 (same_sid_at d (28 + zlen (enc_aces (descr_aces mode isdir usid gsid)) + zlen usid) ltac:(lia) gsid cg Hcg Hgs ltac:(lia) gsid (ex_intro _ cg Hcg))). by rewrite bool_decide_eq_true_2.
  - unfold ntfs_build_descr. destruct Hu as [cu Hcu]. destruct Hg as [cg Hcg]. rewrite (wf_sid_size usid cu Hcu), (wf_sid_size gsid cg Hcg).
    cbn [mbind option_bind]. rewrite newattrsz_eq. cbn [mbind option_bind]. by rewrite Em.
Qed.

(** Memory that malloc does not clear. *)
Definition dirty_malloc (n : Z) : option (list Z) := if 0 <=? n then Some (replicate (Z.to_nat n) 0xaa) else None.

Lemma dirty_malloc_ok : malloc_ok dirty_malloc.
Proof.
  intros n m. unfold dirty_malloc. destruct (Z.leb_spec 0 n); [|done]. intros [= <-]. rewrite zlen_replicate. lia.
Qed.

(** A directory of mode 1770 owned by a user, with the administrators' group. *)
Lemma permissions_roundtrip_witness :
  exists descr, ntfs_build_descr dirty_malloc 0x3f8 true (user_sid 1 2 3 1001) adminsid = Some (Ok descr) /\
    ntfs_build_permissions descr (user_sid 1 2 3 1001) adminsid true = Some 0x3f8.
Proof.
  destruct (permissions_roundtrip dirty_malloc 0x3f8 true (user_sid 1 2 3 1001) adminsid) as (n & En & H).
  - exact dirty_malloc_ok.
  - right. split; [|by vm_compute]. exists 5. apply (bool_decide_eq_true_1 (wf_sid _ 5)). by vm_compute.
  - by left.
  - rewrite newattrsz_eq in En. injection En as <-. unfold dirty_malloc at 1 in H.
    rewrite (proj2 (Z.leb_le _ _)) in H by (by vm_compute). destruct H as (d & Hd & Hp & _). exists d. split; [exact Hd|exact Hp].
Defined.

(** ** Checking a built descriptor *)

Lemma wf_sid_mod4 s : is_sid s -> zlen s mod 4 = 0.
Proof. intros (c & _ & -> & _). replace (4 * c + 8) with ((c + 2) * 4) by lia. by apply Z.mod_mul. Qed.

Lemma enc_aces_mod4 l : Forall wf_ace l -> zlen (enc_aces l) mod 4 = 0.
Proof.
  induction 1 as [|x l [Hs _] _ IH]; [done|]. rewrite zlen_enc_aces_cons. apply wf_sid_mod4 in Hs. divlia.
Qed.

Lemma has_3 x : x mod 4 = 0 -> has x 3 = false.
Proof. intros H. unfold has. rewrite (land_ones' x 3 2) by done. change (2 ^ 2) with 4. by rewrite H. Qed.

(** A SID that ntfs_valid_sid accepts, with an authority at least. *)
Definition valid_sid_bytes (s : list Z) : Prop := is_sid s /\ ntfs_valid_sid s 0 = Some true /\ 12 <= zlen s.

Section valid_sid_at.
Context (m : list Z) (b : Z) (Hb : 0 <= b) (s : list Z) (Hs : is_sid s) (Hh : holds m b s) (Hz : b + zlen s <= zlen m).

Lemma valid_sid_at : ntfs_valid_sid m b = ntfs_valid_sid s 0.
Proof.
  destruct Hs as [c Hc]. pose proof (wf_sid_nonneg s c Hc) as Hc0. unfold ntfs_valid_sid, revision, sub_authority_count.
  rewrite (count_at m b Hb s c Hc Hh Hz). change (0 + 1) with 1. destruct Hc as (_ & Hl & ->).
  by rewrite <-(Z.add_0_r b), Hh by lia.
Qed.
End valid_sid_at.

Lemma valid_aces_ok m pacl endacl acecnt l nace offace :
  Forall wf_ace l -> Forall (fun x => valid_sid_bytes (a_sid x)) l -> 0 <= pacl -> 0 <= offace -> endacl < 2 ^ 32 ->
  pacl + endacl <= zlen m -> offace + zlen (enc_aces l) <= endacl -> holds m (pacl + offace) (enc_aces l) ->
  valid_aces (length l) m pacl endacl acecnt nace offace = Some true.
Proof.
  intros Hl. revert nace offace; induction Hl as [|x l Hx Hl IH]; intros nace offace Hv Hp Ho He Hz Hb Hh; [done|].
  apply Forall_cons in Hv as [(Hs & Hvs & H12) Hv]. cbn [length valid_aces]. rewrite zlen_enc_aces_cons in Hb.
  pose proof (zlen_nonneg (enc_aces l)) as Hn. change (2 ^ 32) with 4294967296 in He.
  change (x :: l) with ([x] ++ l) in Hh. rewrite enc_aces_app, enc_aces_1 in Hh. apply holds_app in Hh as [Hh1 Hh2]. rewrite zlen_enc_ace in Hh2.
  unfold sizeof_ACE. rewrite (proj2 (Z.ltb_ge _ _)) by lia.
  assert (ace_at m (pacl + offace) x) as Hat by (split; [lia|]; rewrite zlen_enc_ace; split; [lia|done]).
  destruct (ace_at_fields _ _ _ Hat Hx) as (_ & _ & -> & _ & Hhs & Hbs). cbn [mbind option_bind].
  assert (u32 (offace + (zlen (a_sid x) + 8)) = offace + (zlen (a_sid x) + 8)) as ->
    by (apply Z.mod_small; change (2 ^ 32) with 4294967296; lia).
  rewrite (proj2 (Z.ltb_ge endacl (offace + (zlen (a_sid x) + 8)))) by lia. rewrite (valid_sid_at m (pacl + offace + 8) ltac:(lia) (a_sid x) Hs Hhs Hbs), Hvs. cbn [mbind option_bind].
  destruct Hs as [c Hc]. rewrite (sid_size_at m (pacl + offace + 8) ltac:(lia) (a_sid x) c Hc Hhs Hbs). cbn [mbind option_bind].
  rewrite Z.eqb_refl, andb_false_r, Z.ltb_irrefl. cbn [orb].
  apply IH; [done|done|lia|done|done|lia|]. revert Hh2. by replace (pacl + offace + (8 + zlen (a_sid x))) with (pacl + (offace + (zlen (a_sid x) + 8))) by lia.
Qed.

Lemma descr_aces_sids mode isdir usid gsid : valid_sid_bytes usid -> valid_sid_bytes gsid ->
  Forall (fun x => valid_sid_bytes (a_sid x)) (descr_aces mode isdir usid gsid).
Proof.
  intros Hu Hg. assert (valid_sid_bytes worldsid /\ valid_sid_bytes systemsid /\ valid_sid_bytes nullsid /\ valid_sid_bytes adminsid) as (Kw & Ks & Kn & Ka)
    by (split_and!; (split; [apply known_sids|split; [by vm_compute|done]])).
  unfold descr_aces, mode_aces, base_aces, owner_denied, world_exec_denied, group_part, special_part, denied.
  repeat case_match; repeat (apply Forall_app; split); repeat first [apply Forall_nil_2 | apply Forall_cons_2]; done.
Qed.

(** C24: the descriptors that ntfs_build_descr makes pass ntfs_valid_descr, and
    ntfs_attr_size gives the size of their contents, which are those of the
    allocation that are stored. *)
Theorem built_descr_valid ntfs_malloc mode isdir usid gsid descr :
  malloc_ok ntfs_malloc -> valid_sid_bytes usid -> valid_sid_bytes gsid ->
  ntfs_build_descr ntfs_malloc mode isdir usid gsid = Some (Ok descr) ->
  exists size, ntfs_attr_size descr = Some size /\ size <= zlen descr /\
    forall attrsz, size <= attrsz <= zlen descr -> ntfs_valid_descr descr attrsz = Some true.
Proof.
  intros Hmal Hu Hg Hd. pose proof Hu as (Hus & Huv & Hu12). pose proof Hg as (Hgs & Hgv & Hg12).
  destruct (ntfs_malloc (92 + zlen usid + zlen gsid + 2 * (8 + zlen usid) + 2 * (8 + zlen gsid) + (if isdir then 20 else 0) +
    (if has mode 0xe00 then 20 else 0))) as [m|] eqn:Em.
  2: { exfalso. revert Hd. unfold ntfs_build_descr. destruct Hus as [cu Hcu]. destruct Hgs as [cg Hcg].
       rewrite (wf_sid_size usid cu Hcu), (wf_sid_size gsid cg Hcg). cbn [mbind option_bind]. rewrite newattrsz_eq. cbn [mbind option_bind].
       by rewrite Em. }
  destruct (build_descr_ok ntfs_malloc mode isdir usid gsid _ m Hus Hgs (newattrsz_eq _ _ _ _) Em (Hmal _ _ Em)) as (d & Hd' & Hz & Hb & Hh).
  rewrite Hd in Hd'. injection Hd' as <-. rewrite <-Hz in Hb.
  pose proof (sid_size_bound usid Hus) as Su. pose proof (sid_size_bound gsid Hgs) as Sg.
  assert (zlen descr <= 20000) as Hzd by (rewrite Hz; destruct isdir, (has mode 0xe00); lia).
  destruct (built_fields descr mode isdir usid gsid Hus Hgs Hh Hb)
    as (Hn & Hzm & Hrev & Hctl & Hdo & Hdg & Hds & Hdd & Har & Hasz & Hc & H28 & Hou & Hog).
  destruct (descr_aces_wf mode isdir usid gsid Hus Hgs) as [Hwf Hl10].
  pose proof (descr_aces_sids mode isdir usid gsid Hu Hg) as Hvs.
  set (l := descr_aces mode isdir usid gsid) in *. set (n := zlen (enc_aces l)) in *.
  assert (ntfs_attr_size descr = Some (28 + n + zlen usid + zlen gsid)) as Hsize.
  { destruct Hus as [cu Hcu]. destruct Hgs as [cg Hcg]. unfold ntfs_attr_size. rewrite Hdg, Hdo, Hds, Hdd. cbn [mbind option_bind].
    change sizeof_DESCR with 20. rewrite (proj2 (Z.leb_le _ _)) by lia.
    rewrite (sid_size_at descr (28 + n + zlen usid) ltac:(lia) gsid cg Hcg Hog ltac:(lia)). cbn [mbind option_bind].
    unfold u32, wrap_u. rewrite (Z.mod_small (28 + n + zlen usid + zlen gsid)) by (change (2 ^ 32) with 4294967296; lia).
    rewrite (proj2 (Z.ltb_lt _ _)) by lia. rewrite (proj2 (Z.leb_gt _ _)) by lia. cbn [mbind option_bind].
    rewrite (proj2 (Z.leb_gt _ _)) by lia. cbn [mbind option_bind]. by rewrite (proj2 (Z.leb_gt _ _)) by lia. }
  exists (28 + n + zlen usid + zlen gsid). split; [done|]. split; [lia|]. intros attrsz Ha.
  unfold ntfs_valid_descr. rewrite Hdd, Hds, Hdo, Hdg, Hrev, Hsize. cbn [mbind option_bind]. change sizeof_DESCR with 20. change sizeof_ACL with 8.
  rewrite (proj2 (Z.leb_le 20 attrsz)) by lia.
  assert (forall x, 0 <= x < 20000 -> u32 x = x) as U by (intros x Hx; apply Z.mod_small; change (2 ^ 32) with 4294967296; lia).
  rewrite !U by lia.
  assert (n mod 4 = 0) as Hn4 by (by apply enc_aces_mod4). pose proof (wf_sid_mod4 usid Hus) as Hu4.
  rewrite (has_3 (28 + n)), (has_3 (28 + n + zlen usid)) by divlia. change (has 20 3) with false. change (has 0 3) with false.
  rewrite (proj2 (Z.leb_le 20 (28 + n))), (proj2 (Z.ltb_lt (28 + n + 2) attrsz)), (proj2 (Z.leb_le 20 (28 + n + zlen usid))),
    (proj2 (Z.ltb_lt (28 + n + zlen usid + 2) attrsz)) by lia.
  cbn [andb negb orb Z.eqb Z.leb Z.compare Pos.compare Pos.compare_cont and_then mbind option_bind].
  rewrite (proj2 (Z.leb_le (20 + 8) attrsz)) by lia. cbn [andb and_then mbind option_bind].
  change (match SECURITY_DESCRIPTOR_REVISION with Z.pos q => (1 =? q)%positive | _ => false end) with true.
  rewrite (proj2 (Z.leb_le _ attrsz)) by lia. cbv iota.
  rewrite (valid_sid_at descr (28 + n) ltac:(lia) usid Hus Hou ltac:(lia)), Huv. cbn [and_then mbind option_bind].
  rewrite (valid_sid_at descr (28 + n + zlen usid) ltac:(lia) gsid Hgs Hog ltac:(lia)), Hgv. cbn [and_then mbind option_bind].
  assert (acl_announced descr 20 SE_DACL_PRESENT = Some true) as -> by (unfold acl_announced; rewrite Hctl, Har; done).
  change (acl_announced descr 0 SE_SACL_PRESENT) with (Some true). cbn [and_then mbind option_bind].
  assert (valid_acl descr 20 (attrsz - 20) = Some true) as ->; [|done].
  unfold valid_acl. rewrite Hc. cbn [mbind option_bind]. unfold zlen at 1. rewrite Nat2Z.id. change sizeof_ACL with 8.
  apply valid_aces_ok; try done; lia.
Qed.

(** The descriptor of an executable file owned by root. *)
Lemma built_descr_valid_witness : exists descr size,
  ntfs_build_descr dirty_malloc 0x1ed false adminsid adminsid = Some (Ok descr) /\
  ntfs_attr_size descr = Some size /\ ntfs_valid_descr descr size = Some true.
Proof.
  destruct (ntfs_build_descr dirty_malloc 0x1ed false adminsid adminsid) as [[descr|e]|] eqn:E; [|by vm_compute in E..].
  exists descr. destruct (built_descr_valid dirty_malloc 0x1ed false adminsid adminsid descr) as (size & Hs & Hz & Hv).
  - exact dirty_malloc_ok.
  - split; [apply known_sids|split; [by vm_compute|done]].
  - split; [apply known_sids|split; [by vm_compute|done]].
  - exact E.
  - exists size. split; [done|]. split; [exact Hs|]. apply Hv. split; [apply Z.le_refl|exact Hz].
Defined.
