(* ===== verification/AclSafe.v ===== *)
(** What ntfs_valid_descr guarantees: reading the permissions of a descriptor
    that it accepts stays inside the descriptor; and what it does not. *)

From S2P Require Import Prelude Sid Acl AclBuild AclRead AclSpec.
Local Open Scope Z_scope.
Local Open Scope c_scope.
Set Default Proof Using "Type*".

(** ** ACEs inside an object *)


Section total.
Context (m : list Z) (Hm : wf_bytes m).





(** ** The loops over ACEs are total *)

Section ace.
Context (usid gsid : list Z) (Hu : is_sid usid) (Hg : is_sid gsid) (a : Z) (Ha : 0 <= a) (Hz : a + sizeof_ACE <= zlen m) (Hs : sid_in m (a + 8)).
#[local] Set Default Proof Using "All".


End ace.


End total.

(** ** Descriptors *)




Section descr.
Context (m : list Z) (Hm : wf_bytes m) (Hz : 20 <= zlen m < 2 ^ 31).



End descr.


Section checked.
Context (m : list Z) (Hm : wf_bytes m) (Hz : 20 <= zlen m < 2 ^ 31).



End checked.


(** ** Samples *)



(** The owner's SID begins inside the group's, which ends the descriptor. *)
Definition nested_descr : list Z :=
  [1; 0; 0; 128; 24; 0; 0; 0; 20; 0; 0; 0; 0; 0; 0; 0; 0; 0; 0; 0] ++ [1; 15; 0; 0] ++ [1; 15] ++ replicate 62 0.

(** An ACL with no ACE ends the descriptor. *)
Definition empty_acl_descr : list Z :=
  [1; 0; 4; 128; 20; 0; 0; 0; 20; 0; 0; 0; 0; 0; 0; 0; 32; 0; 0; 0] ++ worldsid ++ [2; 0; 8; 0; 0; 0; 0; 0].

(** three reads that the checks do not exclude: ntfs_valid_descr itself reads
    the header of a value shorter than a header, such as one byte, before it
    looks at the size; it accepts a descriptor whose owner SID reaches four
    bytes behind its end; and ntfs_acl_owner reads an ACE behind the end of an
    accepted descriptor whose DACL is empty. *)
Theorem valid_descr_overreads :
  (forall b, ntfs_valid_descr [b] 1 = None) /\
  (ntfs_valid_descr nested_descr (zlen nested_descr) = Some true /\ d_owner nested_descr = Some 24 /\
   ntfs_sid_size nested_descr 24 = Some (zlen nested_descr - 24 + 4)) /\
  (ntfs_valid_descr empty_acl_descr (zlen empty_acl_descr) = Some true /\ ntfs_acl_owner empty_acl_descr = None).
Proof. split_and!; [done|by vm_compute..]. Qed.
