(* ===== verification/Collate.v ===== *)
(** Collation of index keys (libntfs-3g/collate.c): the five comparison functions
    and the choice between them, and the order on keys that each of them is.

    [KeyOrder] is what the index code (Index.v) needs of a collation function. *)

From S2P Require Import Prelude Names.
Local Open Scope Z_scope.
Local Open Scope c_scope.
Set Default Proof Using "Type*".

(** ** The functions *)

Definition NTFS_COLLATION_ERROR : Z := -2.

(** A key is given by the memory from its first byte on and its length. *)
Definition COLLATE : Type := list Z -> Z -> list Z -> Z -> option Z.

(** The standard library's memcmp on two objects of the same length; the C
    standard fixes the sign of its result only. *)
Definition ntfs_collate_binary (memcmp : list Z -> list Z -> Z) : COLLATE := fun data1 data1_len data2 data2_len =>
  let n := Z.min data1_len data2_len in
  x ← zread data1 0 n;
  y ← zread data2 0 n;
  let rc := memcmp x y in
  Some (if (rc =? 0) && negb (data1_len =? data2_len) then (if data1_len <? data2_len then -1 else 1) else rc).

Definition ntfs_collate_ntofs_ulong : COLLATE := fun data1 data1_len data2 data2_len =>
  if negb (data1_len =? data2_len) || negb (data1_len =? 4) then Some NTFS_COLLATION_ERROR
  else
    d1 ← le32_to_cpup data1 0;
    d2 ← le32_to_cpup data2 0;
    Some (if d1 <? d2 then -1 else if d1 =? d2 then 0 else 1).

(** The do-while loop; [p] is the offset of p1 and p2, [len] what is left. *)
Fixpoint ulongs_loop (fuel : nat) (data1 data2 : list Z) (p len : Z) : option Z :=
  match fuel with
  | O => None
  | S f =>
      d1 ← le32_to_cpup data1 p;
      d2 ← le32_to_cpup data2 p;
      if (d1 =? d2) && (0 <? len - 4) then ulongs_loop f data1 data2 (p + 4) (len - 4)
      else Some (if d1 <? d2 then -1 else if d1 =? d2 then 0 else 1)
  end.

Definition ntfs_collate_ntofs_ulongs : COLLATE := fun data1 data1_len data2 data2_len =>
  if negb (data1_len =? data2_len) || (data1_len <=? 0) || negb (Z.land data1_len 3 =? 0) then Some NTFS_COLLATION_ERROR
  else ulongs_loop (Z.to_nat data1_len) data1 data2 0 data1_len.

Definition ntfs_collate_ntofs_security_hash : COLLATE := fun data1 data1_len data2 data2_len =>
  if negb (data1_len =? data2_len) || negb (data1_len =? 8) then Some NTFS_COLLATION_ERROR
  else
    d1 ← le32_to_cpup data1 0;
    d2 ← le32_to_cpup data2 0;
    if d1 <? d2 then Some (-1)
    else if d2 <? d1 then Some 1
    else
      d1 ← le32_to_cpup data1 4;
      d2 ← le32_to_cpup data2 4;
      Some (if d1 <? d2 then -1 else if d2 <? d1 then 1 else 0).

(** An array of 16-bit characters in memory, to the end of the object. *)
Fixpoint units (bs : list Z) : list Z :=
  match bs with
  | a :: b :: t => (a + 256 * b) :: units t
  | _ => []
  end.

(** FILE_NAME_ATTR: file_name_length is its byte 64, file_name follows byte 65. *)
Definition file_name_length (fn : list Z) : option Z := fn.[64].
Definition file_name (fn : list Z) : list Z := units (drop 66 fn).

Definition ntfs_collate_file_name (upcase : list Z) (upcase_len : Z) : COLLATE := fun data1 _ data2 _ =>
  l1 ← file_name_length data1;
  l2 ← file_name_length data2;
  ntfs_names_full_collate (file_name data1) l1 (file_name data2) l2 CASE_SENSITIVE upcase upcase_len.

Definition COLLATION_BINARY : Z := 0.
Definition COLLATION_FILE_NAME : Z := 1.
Definition COLLATION_NTOFS_ULONG : Z := 16.
Definition COLLATION_NTOFS_SECURITY_HASH : Z := 18.
Definition COLLATION_NTOFS_ULONGS : Z := 19.

Definition ntfs_get_collate_function (memcmp : list Z -> list Z -> Z) (upcase : list Z) (upcase_len cr : Z) : option COLLATE :=
  if cr =? COLLATION_BINARY then Some (ntfs_collate_binary memcmp)
  else if cr =? COLLATION_FILE_NAME then Some (ntfs_collate_file_name upcase upcase_len)
  else if cr =? COLLATION_NTOFS_SECURITY_HASH then Some ntfs_collate_ntofs_security_hash
  else if cr =? COLLATION_NTOFS_ULONG then Some ntfs_collate_ntofs_ulong
  else if cr =? COLLATION_NTOFS_ULONGS then Some ntfs_collate_ntofs_ulongs
  else None.

(** ** The order on keys *)

(** On valid keys, whatever follows them in memory, the function computes
    [key_cmp], a total preorder. *)
Class KeyOrder (collate : COLLATE) := {
  valid_key : list Z -> Prop;
  key_cmp : list Z -> list Z -> Z;
  key_cmp_values x y : key_cmp x y = -1 \/ key_cmp x y = 0 \/ key_cmp x y = 1;
  key_cmp_antisym x y : key_cmp y x = - key_cmp x y;
  key_cmp_trans x y z : key_cmp x y <= 0 -> key_cmp y z <= 0 -> key_cmp x z <= 0;
  collate_ok x y tx ty : valid_key x -> valid_key y ->
    collate (x ++ tx) (zlen x) (y ++ ty) (zlen y) = Some (key_cmp x y) }.
Arguments valid_key collate {_}.
Arguments key_cmp collate {_}.

(** The little-endian words of a key. *)
Fixpoint words (n : nat) (k : list Z) : list Z :=
  match n with O => [] | S n => le_decode (take 4 k) :: words n (drop 4 k) end.

Lemma ld_app n k p t : 0 <= p -> p + Z.of_nat n <= zlen k -> ld n (k ++ t) p = Some (le_decode (take n (drop (Z.to_nat p) k))).
Proof.
  intros Hp Hn. unfold ld, zread. pose proof (zlen_nonneg t). rewrite zlen_app.
  rewrite (proj2 (Z.leb_le 0 p)), (proj2 (Z.leb_le 0 (Z.of_nat n))), (proj2 (Z.leb_le (p + Z.of_nat n) (zlen k + zlen t))) by lia.
  cbn. rewrite Nat2Z.id. unfold zlen in Hn.
  rewrite (drop_app_le k) by lia. rewrite take_app_le by (rewrite length_drop; lia). done.
Qed.

Lemma le32_app k p t : 0 <= p -> p + 4 <= zlen k ->
  le32_to_cpup (k ++ t) p = Some (le_decode (take 4 (drop (Z.to_nat p) k))).
Proof. intros. apply (ld_app 4); lia. Qed.

Lemma three_way a b : (if a <? b then -1 else if a =? b then 0 else 1) = lex [a] [b].
Proof. cbn [lex]. unfold cmp_else. destruct (Z.ltb_spec a b), (Z.eqb_spec a b), (Z.ltb_spec b a); lia || done. Qed.

Lemma ulongs_loop_ok n f x y tx ty p : (0 < n <= f)%nat -> 0 <= p ->
  p + 4 * Z.of_nat n = zlen x -> p + 4 * Z.of_nat n = zlen y ->
  ulongs_loop f (x ++ tx) (y ++ ty) p (4 * Z.of_nat n) =
    Some (lex (words n (drop (Z.to_nat p) x)) (words n (drop (Z.to_nat p) y))).
Proof.
  revert n p; induction f as [|f IH]; intros [|n] p Hn Hp Hx Hy; try lia. cbn [ulongs_loop].
  rewrite !le32_app by lia. cbn [mbind option_bind words lex]. rewrite three_way. cbn [lex]. unfold cmp_else.
  set (a := le_decode (take 4 (drop _ x))). set (b := le_decode (take 4 (drop _ y))).
  rewrite !drop_drop. replace (Z.to_nat p + 4)%nat with (Z.to_nat (p + 4)) by lia.
  destruct (Z.eqb_spec a b) as [E|E]; cbn [andb].
  - destruct (Z.ltb_spec 0 (4 * Z.of_nat (S n) - 4)) as [H|H].
    + replace (4 * Z.of_nat (S n) - 4) with (4 * Z.of_nat n) by lia. rewrite IH by lia.
      destruct (Z.ltb_spec a b), (Z.ltb_spec b a); lia || done.
    + assert (n = O) as -> by lia. done.
  - destruct (Z.ltb_spec a b), (Z.ltb_spec b a); lia || done.
Qed.

(** Keys of [n] words: the orders of $SII, $Q ([n] = 1), $SDH ([n] = 2), $R and $O. *)
Definition word_key (n : nat) (k : list Z) : Prop := zlen k = 4 * Z.of_nat n.
Definition word_cmp (n : nat) (x y : list Z) : Z := lex (words n x) (words n y).

#[export] Program Instance ulong_order : KeyOrder ntfs_collate_ntofs_ulong := {
  valid_key := word_key 1; key_cmp := word_cmp 1 }.
Next Obligation. intros; apply lex_values. Qed.
Next Obligation. intros; apply lex_antisym. Qed.
Next Obligation. intros x y z; apply lex_trans. Qed.
Next Obligation.
  intros x y tx ty Hx Hy. unfold word_key in *. unfold ntfs_collate_ntofs_ulong. rewrite Hx, Hy. cbn [negb orb Z.eqb Z.mul].
  rewrite !le32_app by lia. cbn [mbind option_bind]. by rewrite three_way.
Qed.

#[export] Program Instance security_hash_order : KeyOrder ntfs_collate_ntofs_security_hash := {
  valid_key := word_key 2; key_cmp := word_cmp 2 }.
Next Obligation. intros; apply lex_values. Qed.
Next Obligation. intros; apply lex_antisym. Qed.
Next Obligation. intros x y z; apply lex_trans. Qed.
Next Obligation.
  intros x y tx ty Hx Hy. unfold word_key in *. unfold ntfs_collate_ntofs_security_hash. rewrite Hx, Hy.
  rewrite !le32_app by lia. unfold word_cmp. cbn [mbind option_bind words lex negb orb Z.eqb Z.mul Z.of_nat]. unfold cmp_else.
  change (Z.to_nat 0) with O. change (Z.to_nat 4) with 4%nat. rewrite !drop_0.
  destruct (le_decode (take 4 x) <? le_decode (take 4 y)); [done|]. by destruct (le_decode (take 4 y) <? le_decode (take 4 x)).
Qed.

(** Two keys of different numbers of words do not compare: the order is one of
    the keys of an index, all of [n] words. *)
#[export] Program Instance ulongs_order (n : nat) : KeyOrder (fun d1 l1 d2 l2 => ntfs_collate_ntofs_ulongs d1 l1 d2 l2) | 10 := {
  valid_key := fun k => (0 < n)%nat /\ word_key n k; key_cmp := word_cmp n }.
Next Obligation. intros; apply lex_values. Qed.
Next Obligation. intros; apply lex_antisym. Qed.
Next Obligation. intros n x y z; apply lex_trans. Qed.
Next Obligation.
  intros n x y tx ty [Hn Hx] [_ Hy]. unfold word_key in *. cbn beta. unfold ntfs_collate_ntofs_ulongs. rewrite Hx, Hy, Z.eqb_refl.
  rewrite (proj2 (Z.leb_gt _ 0)) by lia. rewrite (land_ones' _ 3 2) by lia. change (2 ^ 2) with 4.
  rewrite Z.mul_comm, Z.mod_mul by lia. cbn [negb orb Z.eqb]. rewrite Z.mul_comm, ulongs_loop_ok by lia. done.
Qed.

(** *** Binary keys *)

(** A memcmp whose results are -1, 0 and 1. *)
Class ThreeWay (memcmp : list Z -> list Z -> Z) := memcmp_lex x y : length x = length y -> memcmp x y = lex x y.

#[export] Instance lex_three_way : ThreeWay lex.
Proof. by intros x y _. Qed.

Lemma lex_common x y : lex x y =
  let n := Nat.min (length x) (length y) in
  if lex (take n x) (take n y) =? 0 then cmp_else (zlen x) (zlen y) 0 else lex (take n x) (take n y).
Proof.
  cbv zeta. revert y; induction x as [|a x IH]; intros [|b y]; [done| | |].
  - cbn [length Nat.min take lex Z.eqb]. unfold cmp_else. rewrite zlen_cons. change (zlen (@nil Z)) with 0.
    pose proof (zlen_nonneg y). by rewrite (proj2 (Z.ltb_lt 0 _)) by lia.
  - cbn [length Nat.min take lex Z.eqb]. unfold cmp_else. rewrite zlen_cons. change (zlen (@nil Z)) with 0.
    pose proof (zlen_nonneg x). rewrite (proj2 (Z.ltb_ge (zlen x + 1) 0)), (proj2 (Z.ltb_lt 0 _)) by lia. done.
  - cbn [length Nat.min take lex]. rewrite !zlen_cons. unfold cmp_else in *. rewrite IH.
    destruct (a <? b); [done|]. destruct (b <? a); [done|]. destruct (lex _ _ =? 0); [|done].
    destruct (Z.ltb_spec (zlen x) (zlen y)), (Z.ltb_spec (zlen x + 1) (zlen y + 1)),
      (Z.ltb_spec (zlen y) (zlen x)), (Z.ltb_spec (zlen y + 1) (zlen x + 1)); lia || done.
Qed.

Lemma zread_prefix (x t : list Z) n : 0 <= n <= zlen x -> zread (x ++ t) 0 n = Some (take (Z.to_nat n) x).
Proof.
  intros Hn. pose proof (zlen_nonneg t). rewrite zread_inside by (rewrite ?zlen_app; lia). cbn [drop Z.to_nat].
  rewrite drop_0, take_app_le by (unfold zlen in *; lia). done.
Qed.

#[export] Program Instance binary_order memcmp `{!ThreeWay memcmp} : KeyOrder (ntfs_collate_binary memcmp) := {
  valid_key := fun _ => True; key_cmp := lex }.
Next Obligation. intros; apply lex_values. Qed.
Next Obligation. intros; apply lex_antisym. Qed.
Next Obligation. intros memcmp ? x y z; apply lex_trans. Qed.
Next Obligation.
  intros memcmp ? x y tx ty _ _. unfold ntfs_collate_binary. cbv zeta. pose proof (zlen_nonneg x). pose proof (zlen_nonneg y).
  rewrite !zread_prefix by lia. cbn [mbind option_bind].
  replace (Z.to_nat (Z.min (zlen x) (zlen y))) with (Nat.min (length x) (length y)) by (unfold zlen; lia).
  rewrite (memcmp_lex (take _ x)) by (rewrite !length_take; lia). rewrite (lex_common x y). cbv zeta. f_equal.
  destruct (lex _ _ =? 0) eqn:E; cbn [andb]; [|done]. apply Z.eqb_eq in E. rewrite E. unfold cmp_else.
  destruct (Z.eqb_spec (zlen x) (zlen y)), (Z.ltb_spec (zlen x) (zlen y)), (Z.ltb_spec (zlen y) (zlen x)); cbn [negb]; lia || done.
Qed.

(** *** File names *)

Lemma zget_app_Some (l t : list Z) i x : l.[i] = Some x -> (l ++ t).[i] = Some x.
Proof. intros H. pose proof (zget_bounds _ _ _ H). rewrite zget_app_l by lia. done. Qed.

(** Memory beyond the part of the names that is compared does not matter. *)
Lemma skip_equal_mono f n1 n2 t1 t2 i cnt r :
  skip_equal f n1 n2 i cnt = Some r -> skip_equal f (n1 ++ t1) (n2 ++ t2) i cnt = Some r.
Proof.
  revert i cnt; induction f as [|f IH]; intros i cnt; cbn [skip_equal]; [done|]. cbv zeta. destruct (_ =? 0); [done|].
  destruct (zget n1 i) as [a|] eqn:E1; cbn [mbind option_bind]; [|done].
  destruct (zget n2 i) as [b|] eqn:E2; cbn [mbind option_bind]; [|done].
  rewrite (zget_app_Some _ _ _ _ E1), (zget_app_Some _ _ _ _ E2). cbn [mbind option_bind]. destruct (a =? b); [apply IH | done].
Qed.

Lemma upcased_loop_mono f n1 n2 t1 t2 upcase ul i cnt r :
  upcased_loop f n1 n2 upcase ul i cnt = Some r -> upcased_loop f (n1 ++ t1) (n2 ++ t2) upcase ul i cnt = Some r.
Proof.
  revert i cnt; induction f as [|f IH]; intros i cnt; cbn [upcased_loop]; [done|].
  destruct (zget n1 i) as [a|] eqn:E1; cbn [mbind option_bind]; [|done]. rewrite (zget_app_Some _ _ _ _ E1). cbn [mbind option_bind].
  destruct (up upcase ul a); cbn [mbind option_bind]; [|done].
  destruct (zget n2 i) as [b|] eqn:E2; cbn [mbind option_bind]; [|done]. rewrite (zget_app_Some _ _ _ _ E2). cbn [mbind option_bind].
  destruct (up upcase ul b); cbn [mbind option_bind]; [|done]. destruct (_ && _); [apply IH | done].
Qed.

Lemma full_collate_mono n1 n2 t1 t2 l1 l2 upcase ul r :
  ntfs_names_full_collate n1 l1 n2 l2 CASE_SENSITIVE upcase ul = Some r ->
  ntfs_names_full_collate (n1 ++ t1) l1 (n2 ++ t2) l2 CASE_SENSITIVE upcase ul = Some r.
Proof.
  unfold ntfs_names_full_collate. cbv zeta. destruct (0 <? _); [|done].
  destruct (skip_equal _ n1 _ _ _) as [[i cnt]|] eqn:E; cbn [mbind option_bind]; [|done].
  rewrite (skip_equal_mono _ _ _ t1 t2 _ _ _ E). cbn [mbind option_bind].
  destruct (zget n1 i) as [a|] eqn:E1; cbn [mbind option_bind]; [|done]. rewrite (zget_app_Some _ _ _ _ E1). cbn [mbind option_bind].
  destruct (zget n2 i) as [b|] eqn:E2; cbn [mbind option_bind]; [|done]. rewrite (zget_app_Some _ _ _ _ E2). cbn [mbind option_bind].
  destruct (up upcase ul a); cbn [mbind option_bind]; [|done]. destruct (up upcase ul b); cbn [mbind option_bind]; [|done].
  destruct (_ && _); [|done].
  destruct (upcased_loop _ n1 _ _ _ _ _) as [[u1 u2]|] eqn:E3; cbn [mbind option_bind]; [|done].
  by rewrite (upcased_loop_mono _ _ _ t1 t2 _ _ _ _ _ E3).
Qed.

Lemma units_app n a t : length a = (2 * n)%nat -> units (a ++ t) = units a ++ units t.
Proof.
  revert a; induction n as [|n IH]; intros a Ha; [by destruct a|].
  destruct a as [|x [|y a]]; cbn in Ha; try lia. cbn [app units]. rewrite IH by lia. done.
Qed.

Lemma length_units n a : length a = (2 * n)%nat -> length (units a) = n.
Proof.
  revert a; induction n as [|n IH]; intros a Ha; [by destruct a|].
  destruct a as [|x [|y a]]; cbn in Ha; try lia. cbn [units length]. rewrite IH by lia. done.
Qed.

Lemma units_nonneg n a : length a = (2 * n)%nat -> wf_bytes a -> Forall (fun c => 0 <= c) (units a).
Proof.
  revert a; induction n as [|n IH]; intros a Ha Hw; [by destruct a|].
  destruct a as [|x [|y a]]; cbn in Ha; try lia. inversion Hw as [|? ? Hx Hw1]. inversion Hw1 as [|? ? Hy Hw2].
  unfold is_byte in *. cbn [units]. constructor; [lia | apply IH; [lia | done]].
Qed.

(** A FILE_NAME_ATTR holds the name it announces. *)
Definition name_key (k : list Z) : Prop := wf_bytes k /\ exists n, file_name_length k = Some n /\ 66 + 2 * n <= zlen k.

(** The name of a key. *)
Definition key_name (k : list Z) : list Z := units (take (2 * Z.to_nat (default 0 (file_name_length k))) (drop 66 k)).

Lemma name_key_parts k t : name_key k -> exists n rest,
  file_name_length (k ++ t) = Some n /\ file_name (k ++ t) = key_name k ++ rest /\ zlen (key_name k) = n /\
  Forall (fun c => 0 <= c) (key_name k).
Proof.
  intros [Hw (n & Hn & Hl)]. unfold file_name_length in Hn. pose proof (zget_Forall _ _ _ _ Hw Hn) as Hb. unfold is_byte in Hb.
  unfold file_name_length, file_name, key_name, file_name_length. rewrite Hn. cbn [default]. rewrite (zget_app_Some _ _ _ _ Hn).
  assert (length k >= 66 + 2 * Z.to_nat n)%nat as Hk by (unfold zlen in Hl; lia).
  rewrite drop_app_le by lia.
  assert (length (take (2 * Z.to_nat n) (drop 66 k)) = (2 * Z.to_nat n)%nat) as Ht by (rewrite length_take, length_drop; lia).
  exists n, (units (drop (2 * Z.to_nat n) (drop 66 k) ++ t)). split_and!; [done | | |].
  - rewrite <-(take_drop (2 * Z.to_nat n) (drop 66 k)) at 1. rewrite <-app_assoc, (units_app (Z.to_nat n)) by done. done.
  - unfold zlen. rewrite (length_units (Z.to_nat n)) by done. lia.
  - apply (units_nonneg (Z.to_nat n)); [done|]. apply Forall_take, Forall_drop, Hw.
Qed.

(** The upcase table of the volume is as long as it says. *)
Class Upcase (upcase : list Z) (upcase_len : Z) := upcase_ok : upcase_len <= zlen upcase.

Definition name_cmp (upcase : list Z) (upcase_len : Z) (x y : list Z) : Z :=
  lex2 (map (upc upcase upcase_len) (key_name x)) (key_name x) (map (upc upcase upcase_len) (key_name y)) (key_name y).

#[export] Program Instance name_order upcase upcase_len `{!Upcase upcase upcase_len} :
  KeyOrder (ntfs_collate_file_name upcase upcase_len) := {
  valid_key := name_key; key_cmp := name_cmp upcase upcase_len }.
Next Obligation. intros; apply lex2_values. Qed.
Next Obligation. intros; apply lex2_antisym. Qed.
Next Obligation. intros u ul ? x y z; apply lex2_trans. Qed.
Next Obligation.
  intros u ul ? x y tx ty Hx Hy. unfold ntfs_collate_file_name.
  destruct (name_key_parts x tx Hx) as (n1 & r1 & -> & -> & <- & H1).
  destruct (name_key_parts y ty Hy) as (n2 & r2 & -> & -> & <- & H2). cbn [mbind option_bind].
  apply full_collate_mono. rewrite full_collate_spec by done. done.
Qed.
