(* ===== verification/AttrMst.v ===== *)
(** Multi-sector protected attribute I/O (libntfs-3g/attrib.c:
    ntfs_attr_mst_pread and ntfs_attr_mst_pwrite), and attributes that grow. *)

From S2P Require Import Prelude Mst Device AttrIo.
Local Open Scope Z_scope.
Local Open Scope c_scope.
Set Default Proof Using "Type*".

Section mst.
Context {A : Type} `{!AttrOps A}.
Implicit Types na : A.

(** The bytes returned are those the destination holds; a fixup that fails marks
    its block and is not an error here. *)
Definition ntfs_attr_mst_pread na (pos bk_cnt bk_size : Z) : option (A * list Z * result Z) :=
  if (bk_cnt <? 0) || negb (bk_size mod NTFS_BLOCK_SIZE =? 0) then Some (na, [], Err EINVAL)
  else
    let '(na, r) := attr_pread na pos (s64 (bk_cnt * bk_size)) in
    match r with
    | Err e => Some (na, [], Err e)
    | Ok b =>
        if zlen b <=? 0 then Some (na, b, Ok (zlen b))
        else if bk_size =? 0 then None
        else
          let br := zlen b / bk_size in
          b ← post_read_blocks (Z.to_nat br) b 0 bk_size;
          Some (na, b, Ok br)
    end.

Definition ntfs_attr_mst_pwrite na (pos bk_cnt bk_size : Z) (src : list Z) : option (A * list Z * result Z) :=
  if (bk_cnt <? 0) || negb (bk_size mod NTFS_BLOCK_SIZE =? 0) then Some (na, src, Err EINVAL)
  else if bk_cnt =? 0 then Some (na, src, Ok 0)
  else
    r ← pre_write_blocks (Z.to_nat bk_cnt) src 0 bk_size;
    match r with
    | (src, Err e) => Some (na, src, Err e)
    | (src, Ok bk_cnt) =>
        bs ← zread src 0 (s64 (bk_cnt * bk_size));
        let '(na, written) := attr_pwrite na pos bs in
        src ← post_write_blocks (Z.to_nat bk_cnt) src 0 bk_size;
        match written with
        | Err e => Some (na, src, Err e)
        | Ok w =>
            if w <=? 0 then Some (na, src, Ok w)
            else if bk_size =? 0 then None
            else Some (na, src, Ok (w / bk_size))
        end
    end.
End mst.

(** ** Attributes that grow *)

(** ntfs_attr_truncate. *)
Class AttrResize (A : Type) := { attr_truncate : A -> Z -> A * result unit }.

(** A write changes nothing outside the bytes it is given, and one that is not
    complete may have written any of them; a complete write has written all,
    even when it extends the value; growing the value fills with zeros. *)
Class AttrGrowLaws (A : Type) `{AttrOps A} `{AttrResize A} := {
  attr_pwrite_any a pos bs a' r : 0 <= pos -> attr_pwrite a pos bs = (a', r) ->
    zlen (attr_data a) <= zlen (attr_data a') /\
    forall j, 0 <= j < zlen (attr_data a) ->
      (attr_data a').[j] = (attr_data a).[j] \/ pos <= j < pos + zlen bs /\ (attr_data a').[j] = bs.[j - pos];
  attr_pwrite_all a pos bs a' : 0 <= pos -> attr_pwrite a pos bs = (a', Ok (zlen bs)) -> holds (attr_data a') pos bs;
  attr_pwrite_partial a pos bs a' n : 0 <= pos -> attr_pwrite a pos bs = (a', Ok n) -> n <= zlen bs;
  attr_truncate_grows a n a' : zlen (attr_data a) <= n -> attr_truncate a n = (a', Ok tt) ->
    attr_data a' = attr_data a ++ replicate (Z.to_nat (n - zlen (attr_data a))) 0 }.

(** The attribute in memory that grows. *)
Definition grown (m : list Z) (n : Z) : list Z := m ++ replicate (Z.to_nat (n - zlen m)) 0.

Record grow_attr := Grow { grow_data : list Z }.

#[export] Instance grow_attr_ops : AttrOps grow_attr := {
  attr_pread a pos n :=
    (a, Ok (match zread (grow_data a) pos (Z.max 0 (Z.min n (zlen (grow_data a) - pos))) with Some bs => bs | None => [] end));
  attr_pwrite a pos bs :=
    match zwrite (grown (grow_data a) (pos + zlen bs)) pos bs with Some m' => (Grow m', Ok (zlen bs)) | None => (a, Err EIO) end;
  attr_data := grow_data }.

#[export] Instance grow_attr_resize : AttrResize grow_attr := {
  attr_truncate a n := (Grow (take (Z.to_nat n) (grown (grow_data a) n)), Ok tt) }.

Lemma zlen_grown m n : zlen (grown m n) = Z.max (zlen m) n.
Proof. unfold grown. rewrite zlen_app, zlen_replicate. lia. Qed.

Lemma grown_id m n : n <= zlen m -> grown m n = m.
Proof. intros H. unfold grown. replace (Z.to_nat (n - zlen m)) with O by lia. apply app_nil_r. Qed.

#[export] Instance grow_attr_laws : AttrLaws grow_attr.
Proof.
  split.
  - intros a pos n a' r Hp Hn H. destruct (attr_pread_law (grow_data a) pos n (grow_data a') r) as [H1 H2]; [done | done | |].
    + injection H as <- <-. done.
    + injection H as <- _. done.
  - intros a pos bs a' r Hp Hb. cbn in *. pose proof (zlen_nonneg bs). rewrite grown_id by done.
    destruct (zwrite _ pos bs) eqn:E; intros [= <- <-]; [|done]. cbn.
    split; [lia|]. unfold zlen. rewrite Nat2Z.id, firstn_all. done.
Qed.

#[export] Instance grow_attr_grow_laws : AttrGrowLaws grow_attr.
Proof.
  split.
  - intros a pos bs a' r Hp. cbn. pose proof (zlen_nonneg bs). destruct (zwrite _ pos bs) eqn:E; intros [= <- <-]; [|split; [done|]; by left].
    cbn. apply zwrite_Some in E as (_ & _ & Hl & Hg). rewrite zlen_grown in Hl. split; [lia|]. intros j Hj. rewrite Hg.
    destruct (Z.leb_spec pos j), (Z.ltb_spec j (pos + zlen bs)); cbn [andb]; try (left; unfold grown; by rewrite zget_app_l by lia).
    right. split; [lia | done].
  - intros a pos bs a' Hp. cbn. destruct (zwrite _ pos bs) eqn:E; [|done]. intros [= <-]. cbn. by eapply holds_zwrite.
  - intros a pos bs a' n Hp. cbn. destruct (zwrite _ pos bs); [intros [= _ <-]; lia | done].
  - intros a n a' Hn [= <-]. cbn in *. unfold grown. rewrite firstn_all2; [done|].
    rewrite length_app, length_replicate. unfold zlen in *. lia.
Qed.

#[export] Instance grow_attr_reliable : AttrReliable grow_attr.
Proof.
  split.
  - intros a pos n Hp Hn Hb. cbn in *. eexists _, _. split; [done|].
    rewrite Z.max_r, Z.min_l by lia. rewrite zread_inside by lia. unfold zlen in *. rewrite length_take, length_drop. lia.
  - intros a pos bs Hp Hb. cbn in *. rewrite zwrite_inside by (rewrite ?zlen_grown; lia). eauto.
Qed.
