(* ===== verification/Index.v ===== *)
(** Indexes (libntfs-3g/index.c): the entries of an index node, the index
    blocks of $INDEX_ALLOCATION and their bitmap, the descent from $INDEX_ROOT,
    and the insertion of entries, which splits the blocks that are full.

    A node is a byte buffer, the value of $INDEX_ROOT or an index block, and the
    offset of its INDEX_HEADER; a pointer to an entry is the offset of the entry
    in the buffer.  [None] is an access outside the buffer. *)

From S2P Require Import Prelude Mst AttrIo AttrMst Collate.
Local Open Scope Z_scope.
Local Open Scope c_scope.
Set Default Proof Using "Type*".

(** ** Layout (include/ntfs-3g/layout.h) *)

(** INDEX_HEADER, at [h]. *)
Definition sizeof_INDEX_HEADER : Z := 16.
Definition entries_offset (m : list Z) (h : Z) : option Z := le32_to_cpup m h.
Definition index_length (m : list Z) (h : Z) : option Z := le32_to_cpup m (h + 4).
Definition allocated_size (m : list Z) (h : Z) : option Z := le32_to_cpup m (h + 8).
Definition ih_flags (m : list Z) (h : Z) : option Z := m.[h + 12].
Definition set_entries_offset (m : list Z) (h v : Z) : option (list Z) := put_le32 m h v.
Definition set_index_length (m : list Z) (h v : Z) : option (list Z) := put_le32 m (h + 4) v.
Definition set_allocated_size (m : list Z) (h v : Z) : option (list Z) := put_le32 m (h + 8) v.
Definition set_ih_flags (m : list Z) (h v : Z) : option (list Z) := zset m (h + 12) v.

Definition LARGE_INDEX : Z := 1.
Definition SMALL_INDEX : Z := 0.
Definition LEAF_NODE : Z := 0.
Definition NODE_MASK : Z := 1.

(** INDEX_BLOCK: magic, usa_ofs, usa_count, lsn, index_block_vcn and the header. *)
Definition sizeof_INDEX_BLOCK : Z := 40.
Definition magic_INDX : Z := 0x58444e49.
Definition IB_INDEX : Z := 24.
Definition index_block_vcn (ib : list Z) : option Z := sle64_to_cpup ib 16.

(** INDEX_ROOT: type, collation_rule, index_block_size, clusters_per_index_block
    and the header. *)
Definition IR_INDEX : Z := 16.
Definition collation_rule (ir : list Z) : option Z := le32_to_cpup ir 4.
Definition index_block_size (ir : list Z) : option Z := le32_to_cpup ir 8.

(** INDEX_ENTRY: 8 bytes of data or the file reference, length, key_length,
    ie_flags, and the key.  The VCN of the child node is the last 8 bytes. *)
Definition sizeof_INDEX_ENTRY_HEADER : Z := 16.
Definition sizeof_VCN : Z := 8.
Definition ie_length (m : list Z) (ie : Z) : option Z := le16_to_cpup m (ie + 8).
Definition ie_key_length (m : list Z) (ie : Z) : option Z := le16_to_cpup m (ie + 10).
Definition ie_flags (m : list Z) (ie : Z) : option Z := le16_to_cpup m (ie + 12).
Definition ie_key (ie : Z) : Z := ie + 16.
Definition set_ie_length (m : list Z) (ie v : Z) : option (list Z) := put_le16 m (ie + 8) v.
Definition set_ie_flags (m : list Z) (ie v : Z) : option (list Z) := put_le16 m (ie + 12) v.
Definition INDEX_ENTRY_NODE : Z := 1.
Definition INDEX_ENTRY_END : Z := 2.

(** [x & f], as a condition. *)
Definition flag (x f : Z) : bool := negb (Z.land x f =? 0).

(** ** Entries *)

Definition ntfs_ie_get_vcn_addr (m : list Z) (ie : Z) : option Z := len ← ie_length m ie; Some (ie + len - sizeof_VCN).
Definition ntfs_ie_get_vcn (m : list Z) (ie : Z) : option Z := a ← ntfs_ie_get_vcn_addr m ie; sle64_to_cpup m a.
Definition ntfs_ie_get_first (m : list Z) (ih : Z) : option Z := eo ← entries_offset m ih; Some (ih + eo).
Definition ntfs_ie_get_next (m : list Z) (ie : Z) : option Z := len ← ie_length m ie; Some (ie + len).
Definition ntfs_ie_get_end (m : list Z) (ih : Z) : option Z := il ← index_length m ih; Some (ih + il).
Definition ntfs_ie_end (m : list Z) (ie : Z) : option bool :=
  fl ← ie_flags m ie;
  if flag fl INDEX_ENTRY_END then Some true else len ← ie_length m ie; Some (len =? 0).

(** The loops over entries advance by at least one byte inside the buffer, so
    one round per byte is enough. *)
Definition rounds (m : list Z) : nat := S (length m).

Fixpoint get_last_loop (fuel : nat) (m : list Z) (ie ies_end : Z) : option Z :=
  match fuel with
  | O => None
  | S f =>
      if ie <? ies_end then
        e ← ntfs_ie_end m ie;
        if e : bool then Some ie else ie ← ntfs_ie_get_next m ie; get_last_loop f m ie ies_end
      else Some ie
  end.

Definition ntfs_ie_get_last (m : list Z) (ie ies_end : Z) : option Z := get_last_loop (rounds m) m ie ies_end.

(** [while (pos-- > 0) ie = ntfs_ie_get_next(ie);] *)
Fixpoint skip_entries (n : nat) (m : list Z) (ie : Z) : option Z :=
  match n with
  | O => Some ie
  | S n => ie ← ntfs_ie_get_next m ie; skip_entries n m ie
  end.

Definition ntfs_ie_get_by_pos (m : list Z) (ih pos : Z) : option Z :=
  ie ← ntfs_ie_get_first m ih;
  skip_entries (Z.to_nat pos) m ie.

(** [None] in the result is the NULL pointer. *)
Fixpoint prev_loop (fuel : nat) (m : list Z) (ie : Z) (prev : option Z) (tmp : Z) : option (option Z) :=
  match fuel with
  | O => None
  | S f => if tmp =? ie then Some prev else next ← ntfs_ie_get_next m tmp; prev_loop f m ie (Some tmp) next
  end.

Definition ntfs_ie_prev (m : list Z) (ih ie : Z) : option (option Z) :=
  tmp ← ntfs_ie_get_first m ih;
  prev_loop (rounds m) m ie None tmp.

Fixpoint numof_loop (fuel : nat) (m : list Z) (end_ ie n : Z) : option Z :=
  match fuel with
  | O => None
  | S f =>
      e ← ntfs_ie_end m ie;
      if negb e && (ie <? end_) then ie ← ntfs_ie_get_next m ie; numof_loop f m end_ ie (n + 1) else Some n
  end.

Definition ntfs_ih_numof_entries (m : list Z) (ih : Z) : option Z :=
  end_ ← ntfs_ie_get_end m ih;
  ie ← ntfs_ie_get_first m ih;
  numof_loop (rounds m) m end_ ie 0.

Definition ntfs_ih_one_entry (m : list Z) (ih : Z) : option bool := n ← ntfs_ih_numof_entries m ih; Some (n =? 1).
Definition ntfs_ih_zero_entry (m : list Z) (ih : Z) : option bool := n ← ntfs_ih_numof_entries m ih; Some (n =? 0).

(** memmove: the source is read before the destination is written. *)
Definition memmove (m : list Z) (dst src n : Z) : option (list Z) := bs ← zread m src n; zwrite m dst bs.

Definition ntfs_ie_delete (m : list Z) (ih ie : Z) : option (list Z) :=
  il ← index_length m ih;
  len ← ie_length m ie;
  let new_size := u32 (il - len) in
  m ← set_index_length m ih new_size;
  memmove m ie (ie + len) (new_size - (ie - ih)).

Definition ntfs_ie_set_vcn (m : list Z) (ie vcn : Z) : option (list Z) :=
  a ← ntfs_ie_get_vcn_addr m ie;
  put_le64 m a vcn.

(** Insert the entry [e], an object of its own, before the one at [pos]. *)
Definition ntfs_ie_insert (m : list Z) (ih : Z) (e : list Z) (pos : Z) : option (list Z) :=
  ie_size ← ie_length e 0;
  il ← index_length m ih;
  m ← set_index_length m ih (u32 (il + ie_size));
  il ← index_length m ih;
  m ← memmove m (pos + ie_size) pos (il - (pos - ih) - ie_size);
  bs ← zread e 0 ie_size;
  zwrite m pos bs.

(** The copies are made by malloc, which may fail ([ntfs_malloc] says when); the
    inner option is the pointer returned. *)
Section alloc.
Variable ntfs_malloc : Z -> bool.

Definition ntfs_ie_dup (m : list Z) (ie : Z) : option (option (list Z)) :=
  len ← ie_length m ie;
  if ntfs_malloc len then dup ← zread m ie len; Some (Some dup) else Some None.

Definition ntfs_ie_dup_novcn (m : list Z) (ie : Z) : option (option (list Z)) :=
  len ← ie_length m ie;
  fl ← ie_flags m ie;
  let size := if flag fl INDEX_ENTRY_NODE then len - sizeof_VCN else len in
  if ntfs_malloc size then
    dup ← zread m ie size;
    fl ← ie_flags dup 0;
    dup ← set_ie_flags dup 0 (Z.land fl (u16 (Z.lnot INDEX_ENTRY_NODE)));
    dup ← set_ie_length dup 0 (u16 size);
    Some (Some dup)
  else Some None.

(** realloc leaves the 8 new bytes undetermined: [fresh] is what they hold. *)
Definition ntfs_ie_add_vcn (fresh : list Z) (e : list Z) : option (option (list Z)) :=
  len ← ie_length e 0;
  e ← set_ie_length e 0 (u16 (len + sizeof_VCN));
  len ← ie_length e 0;
  if ntfs_malloc len then
    let p := take (Z.to_nat len) (e ++ fresh) in
    fl ← ie_flags p 0;
    p ← set_ie_flags p 0 (Z.lor fl INDEX_ENTRY_NODE);
    Some (Some p)
  else Some None.
End alloc.

(** ** Searching a node *)

Inductive status :=
  | STATUS_OK
  | STATUS_ERROR (e : errno)
  | STATUS_RESIDENT_ATTRIBUTE_FILLED_MFT
  | STATUS_KEEP_SEARCHING
  | STATUS_NOT_FOUND.

(** What ntfs_ie_lookup returns: the status with the values it stores through
    ie_out, vcn and icx->parent_pos[icx->pindex]. *)
Inductive found :=
  | Found (ie item : Z)
  | NotFound (ie : Z)
  | KeepSearching (vcn item : Z)
  | LookupError (e : errno).

Section lookup.
(** The collation function of the context, NULL when there is none. *)
Variable collate : option COLLATE.

(** After the loop: the entry the key collates before, or the last one. *)
Definition lookup_exit (m : list Z) (ie item : Z) : option found :=
  fl ← ie_flags m ie;
  if negb (flag fl INDEX_ENTRY_NODE) then Some (NotFound ie)
  else
    vcn ← ntfs_ie_get_vcn m ie;
    Some (if vcn <? 0 then LookupError EINVAL else KeepSearching vcn item).

Fixpoint ie_lookup_loop (fuel : nat) (key : list Z) (key_len : Z) (m : list Z) (index_end ie item : Z) : option found :=
  match fuel with
  | O => None
  | S f =>
      out ← (if index_end <? ie + sizeof_INDEX_ENTRY_HEADER then Some true
             else len ← ie_length m ie; Some (index_end <? ie + len));
      if out : bool then Some (LookupError ERANGE)
      else
        e ← ntfs_ie_end m ie;
        if e : bool then lookup_exit m ie item
        else
          match collate with
          | None => Some (LookupError EOPNOTSUPP)
          | Some collate =>
              klen ← ie_key_length m ie;
              rc ← collate key key_len (drop (Z.to_nat (ie_key ie)) m) klen;
              if rc =? NTFS_COLLATION_ERROR then Some (LookupError ERANGE)
              else if rc =? -1 then lookup_exit m ie item
              else if rc =? 0 then Some (Found ie item)
              else
                next ← ntfs_ie_get_next m ie;
                ie_lookup_loop f key key_len m index_end next (item + 1)
          end
  end.

Definition ntfs_ie_lookup (key : list Z) (key_len : Z) (m : list Z) (ih : Z) : option found :=
  index_end ← ntfs_ie_get_end m ih;
  ie ← ntfs_ie_get_first m ih;
  ie_lookup_loop (rounds m) key key_len m index_end ie 0.
End lookup.

(** ** The index of an inode *)

(** What attrib.c and mft.c provide for the resident $INDEX_ROOT attribute of an
    inode, whose record has the state [R], and for adding attributes. *)
Class RootOps (R A : Type) := {
  ir_value : R -> result (list Z);             (* the value, or the error of ntfs_ir_lookup *)
  ir_store : R -> list Z -> R;                 (* stores through the pointer to the value *)
  ir_attr_truncate : R -> Z -> R * status;     (* ntfs_attr_open and ntfs_attr_truncate *)
  ir_value_resize : R -> Z -> R * result unit; (* ntfs_resident_attr_value_resize *)
  ir_al_entry : R -> bool;                     (* ctx->al_entry *)
  ir_add_attrlist : R -> R * bool;             (* ntfs_inode_add_attrlist *)
  ir_move_away : R -> Z -> R * bool;           (* ntfs_attr_record_move_away *)
  attr_add : R -> list Z -> R * option A }.    (* ntfs_attr_add: the attribute with this value *)

(** The inode: the record with its root, $INDEX_ALLOCATION and $BITMAP. *)
Record inode (R A : Type) := Inode { root : R; ia : option A; bm : option A }.
Arguments Inode {R A} root ia bm.
Arguments root {R A} i.
Arguments ia {R A} i.
Arguments bm {R A} i.

Definition MAX_PARENT_VCN : Z := 32.
Definition VCN_INDEX_ROOT_PARENT : Z := -2.

(** ntfs_index_context.  The pointer ir is the root of the inode, ia_na is set
    when [ia_na]; [ib] is the block of [entry] when it is not in the root. *)
Record context := Icx {
  entry : option Z; data_len : Z; collate_fn : option COLLATE; is_in_root : bool; ib : list Z; ia_na : bool;
  parent_pos : list Z; parent_vcn : list Z; pindex : Z; ib_dirty : bool; bad_index : bool;
  block_size : Z; vcn_size_bits : Z }.

Definition ntfs_index_ctx_get : context :=
  Icx None 0 None false [] false (replicate 32 0) (replicate 32 0) 0 false false 0 0.

Definition set_entry (x : context) (ie len : Z) : context :=
  Icx (Some ie) len (collate_fn x) (is_in_root x) (ib x) (ia_na x) (parent_pos x) (parent_vcn x) (pindex x) (ib_dirty x)
    (bad_index x) (block_size x) (vcn_size_bits x).
Definition set_sizes (x : context) (bs vb : Z) (c : option COLLATE) : context :=
  Icx (entry x) (data_len x) c (is_in_root x) (ib x) (ia_na x) (parent_pos x) (parent_vcn x) (pindex x) (ib_dirty x)
    (bad_index x) bs vb.
Definition set_in_root (x : context) : context :=
  Icx (entry x) (data_len x) (collate_fn x) true (ib x) (ia_na x) (parent_pos x) (parent_vcn x) (pindex x) (ib_dirty x)
    (bad_index x) (block_size x) (vcn_size_bits x).
Definition set_ib (x : context) (b : list Z) : context :=
  Icx (entry x) (data_len x) (collate_fn x) false b (ia_na x) (parent_pos x) (parent_vcn x) (pindex x) (ib_dirty x)
    (bad_index x) (block_size x) (vcn_size_bits x).
Definition set_ia_na (x : context) : context :=
  Icx (entry x) (data_len x) (collate_fn x) (is_in_root x) (ib x) true (parent_pos x) (parent_vcn x) (pindex x) (ib_dirty x)
    (bad_index x) (block_size x) (vcn_size_bits x).
Definition set_parents (x : context) (pos vcn : list Z) (i : Z) : context :=
  Icx (entry x) (data_len x) (collate_fn x) (is_in_root x) (ib x) (ia_na x) pos vcn i (ib_dirty x) (bad_index x)
    (block_size x) (vcn_size_bits x).
Definition set_dirty (x : context) (d : bool) : context :=
  Icx (entry x) (data_len x) (collate_fn x) (is_in_root x) (ib x) (ia_na x) (parent_pos x) (parent_vcn x) (pindex x) d
    (bad_index x) (block_size x) (vcn_size_bits x).
Definition set_bad_index (x : context) : context :=
  Icx (entry x) (data_len x) (collate_fn x) (is_in_root x) (ib x) (ia_na x) (parent_pos x) (parent_vcn x) (pindex x)
    (ib_dirty x) true (block_size x) (vcn_size_bits x).

(** [icx->parent_pos[icx->pindex] = item] and [icx->parent_vcn[icx->pindex] = vcn]. *)
Definition store_pos (x : context) (item : Z) : option context :=
  p ← zset (parent_pos x) (pindex x) item; Some (set_parents x p (parent_vcn x) (pindex x)).
Definition store_vcn (x : context) (vcn : Z) : option context :=
  v ← zset (parent_vcn x) (pindex x) vcn; Some (set_parents x (parent_pos x) v (pindex x)).

Definition ntfs_icx_parent_vcn (x : context) : option Z := (parent_vcn x).[pindex x].
Definition ntfs_icx_parent_pos (x : context) : option Z := (parent_pos x).[pindex x].

Definition ntfs_icx_parent_inc (x : context) : context * status :=
  let x := set_parents x (parent_pos x) (parent_vcn x) (pindex x + 1) in
  (x, if MAX_PARENT_VCN <=? pindex x then STATUS_ERROR EOPNOTSUPP else STATUS_OK).
Definition ntfs_icx_parent_dec (x : context) : context * status :=
  let x := set_parents x (parent_pos x) (parent_vcn x) (pindex x - 1) in
  (x, if pindex x <? 0 then STATUS_ERROR EINVAL else STATUS_OK).

Definition ntfs_ib_vcn_to_pos (x : context) (vcn : Z) : Z := s64 (Z.shiftl vcn (vcn_size_bits x)).
Definition ntfs_ib_pos_to_vcn (x : context) (pos : Z) : Z := Z.shiftr pos (vcn_size_bits x).

Definition status_is_ok (s : status) : bool := match s with STATUS_OK => true | _ => false end.
Definition status_is_error (s : status) : bool := match s with STATUS_ERROR _ => true | _ => false end.

Definition ntfs_ia_check (x : context) (b : list Z) (vcn : Z) : option bool :=
  asize ← allocated_size b IB_INDEX;
  let ib_size := u32 (asize + 0x18) in
  magic ← rec_magic b;
  if negb (magic =? magic_INDX) then Some false
  else
    v ← index_block_vcn b;
    if negb (v =? vcn) then Some false else Some (ib_size =? block_size x).

Section inode.
Context {R A : Type} `{!AttrOps A, !AttrResize A, !RootOps R A}.
Implicit Types (ni : inode R A) (x : context).
Variable ntfs_malloc : Z -> bool.

(** The error of these is one value, EIO: which errno a failing attribute
    operation left is not followed. *)
Definition ntfs_ib_read ni x (vcn : Z) : option (inode R A * result (list Z)) :=
  match ia ni with
  | None => None
  | Some na =>
      let pos := ntfs_ib_vcn_to_pos x vcn in
      out ← ntfs_attr_mst_pread na pos 1 (block_size x);
      let '(na, dst, ret) := out in
      let ni := Inode (root ni) (Some na) (bm ni) in
      match ret with
      | Ok 1 => ok ← ntfs_ia_check x dst vcn; Some (ni, if ok : bool then Ok dst else Err EIO)
      | _ => Some (ni, Err EIO)
      end
  end.

(** The block in memory after the write has a new update sequence number. *)
Definition ntfs_ib_write ni x (b : list Z) : option (inode R A * list Z * status) :=
  vcn ← index_block_vcn b;
  match ia ni with
  | Some na =>
      if ia_na x then
        out ← ntfs_attr_mst_pwrite na (ntfs_ib_vcn_to_pos x vcn) 1 (block_size x) b;
        let '(na, b, ret) := out in
        Some (Inode (root ni) (Some na) (bm ni), b, match ret with Ok 1 => STATUS_OK | _ => STATUS_ERROR EIO end)
      else None
  | None => None
  end.

Definition ntfs_icx_ib_write ni x : option (inode R A * context * status) :=
  out ← ntfs_ib_write ni x (ib x);
  let '(ni, b, s) := out in
  let x := Icx (entry x) (data_len x) (collate_fn x) (is_in_root x) b (ia_na x) (parent_pos x) (parent_vcn x) (pindex x)
    (ib_dirty x) (bad_index x) (block_size x) (vcn_size_bits x) in
  Some (ni, if status_is_ok s then set_dirty x false else x, s).

(** *** Lookup *)

Variable memcmp : list Z -> list Z -> Z.
Variable upcase : list Z.
Variables upcase_len cluster_size cluster_size_bits : Z.

Definition lookup_done (buf : list Z) (ie : Z) x (r : result unit) : option (context * result unit) :=
  len ← ie_key_length buf ie;
  Some (set_entry x ie len, r).

(** [err_out] *)
Definition lookup_fails x (e : errno) : context * result unit := (set_bad_index x, Err e).

(** From descend_into_child_node on. *)
Fixpoint descend (fuel : nat) ni x (key : list Z) (key_len old_vcn vcn : Z) : option (inode R A * context * result unit) :=
  match fuel with
  | O => None
  | S f =>
      x ← store_vcn x old_vcn;
      let '(x, s) := ntfs_icx_parent_inc x in
      if status_is_error s then Some (ni, set_bad_index x, Err EOPNOTSUPP)
      else
        out ← ntfs_ib_read ni x vcn;
        let '(ni, r) := out in
        match r with
        | Err _ => Some (ni, set_bad_index x, Err EIO)
        | Ok b =>
            ret ← ntfs_ie_lookup (collate_fn x) key key_len b IB_INDEX;
            match ret with
            | LookupError e => Some (ni, set_bad_index x, Err e)
            | Found ie item =>
                x ← store_pos x item;
                x ← store_vcn (set_ib x b) vcn;
                out ← lookup_done b ie x (Ok tt);
                Some (ni, fst out, snd out)
            | NotFound ie =>
                x ← store_vcn (set_ib x b) vcn;
                out ← lookup_done b ie x (Err ENOENT);
                Some (ni, fst out, snd out)
            | KeepSearching child item =>
                x ← store_pos x item;
                fl ← ih_flags b IB_INDEX;
                if Z.land fl NODE_MASK =? LEAF_NODE then Some (ni, set_bad_index x, Err EIO)
                else descend f ni x key key_len vcn child
            end
        end
  end.

(** The descent ends after MAX_PARENT_VCN blocks. *)
Definition descent_rounds x : nat := S (Z.to_nat (MAX_PARENT_VCN - pindex x)).

Definition ntfs_index_lookup ni x (key : list Z) (key_len : Z) : option (inode R A * context * result unit) :=
  if key_len <=? 0 then Some (ni, x, Err EINVAL)
  else
    match ir_value (root ni) with
    | Err e => Some (ni, x, Err (if decide (e = ENOENT) then EIO else e))
    | Ok ir =>
        bs ← index_block_size ir;
        let x := set_sizes x bs (vcn_size_bits x) (collate_fn x) in
        if bs <? NTFS_BLOCK_SIZE then Some (ni, set_bad_index x, Err EIO)
        else
          rule ← collation_rule ir;
          let collate := ntfs_get_collate_function memcmp upcase upcase_len rule in
          let x := set_sizes x bs (if cluster_size <=? bs then cluster_size_bits else 9) collate in
          match collate with
          | None => Some (ni, set_bad_index x, Err EOPNOTSUPP)
          | Some _ =>
              ret ← ntfs_ie_lookup collate key key_len ir IR_INDEX;
              match ret with
              | LookupError e => Some (ni, x, Err e)
              | Found ie item =>
                  x ← store_pos x item;
                  x ← store_vcn (set_in_root x) VCN_INDEX_ROOT_PARENT;
                  out ← lookup_done ir ie x (Ok tt);
                  Some (ni, fst out, snd out)
              | NotFound ie =>
                  x ← store_vcn (set_in_root x) VCN_INDEX_ROOT_PARENT;
                  out ← lookup_done ir ie x (Err ENOENT);
                  Some (ni, fst out, snd out)
              | KeepSearching vcn item =>
                  x ← store_pos x item;
                  if ia ni is Some _ then
                    let x := set_ia_na x in
                    if ntfs_malloc (block_size x) then descend (descent_rounds x) ni x key key_len VCN_INDEX_ROOT_PARENT vcn
                    else Some (ni, set_bad_index x, Err ENOMEM)
                  else Some (ni, set_bad_index x, Err EIO)
              end
          end
    end.

(** *** The bitmap of the index blocks *)

Definition ntfs_ibm_vcn_to_pos x (vcn : Z) : Z := ntfs_ib_vcn_to_pos x vcn / block_size x.
Definition ntfs_ibm_pos_to_vcn x (pos : Z) : Z := ntfs_ib_pos_to_vcn x (s64 (pos * block_size x)).

Definition set_root ni (r : R) : inode R A := Inode r (ia ni) (bm ni).
Definition set_bm ni (na : A) : inode R A := Inode (root ni) (ia ni) (Some na).

Definition ntfs_ibm_add ni : inode R A * status :=
  match bm ni with
  | Some _ => (ni, STATUS_OK)
  | None =>
      let '(r, o) := attr_add (root ni) (replicate 8 0) in
      (Inode r (ia ni) o, if o is Some _ then STATUS_OK else STATUS_ERROR EIO)
  end.

(** The byte at [bpos] read, changed and written back. *)
Definition modify_byte ni (na : A) (bpos : Z) (f : Z -> Z) : option (inode R A * status) :=
  let '(na, r) := attr_pread na bpos 1 in
  match r with
  | Ok [byte] =>
      let '(na, r) := attr_pwrite na bpos [f byte] in
      Some (set_bm ni na, match r with Ok 1 => STATUS_OK | _ => STATUS_ERROR EIO end)
  | _ => Some (set_bm ni na, STATUS_ERROR EIO)
  end.

Definition ntfs_ibm_modify ni x (vcn : Z) (set : bool) : option (inode R A * status) :=
  let pos := ntfs_ibm_vcn_to_pos x vcn in
  let bpos := u32 (pos / 8) in
  let bit := u32 (Z.shiftl 1 (pos mod 8)) in
  match bm ni with
  | None => Some (ni, STATUS_ERROR EIO)
  | Some na =>
      let f byte := if set then u8 (Z.lor byte bit) else u8 (Z.land byte (Z.lnot bit)) in
      if set && (zlen (attr_data na) <? u32 (bpos + 1)) then
        let '(na, r) := attr_truncate na (Z.land (zlen (attr_data na) + 8) (Z.lnot 7)) in
        match r with
        | Err _ => Some (set_bm ni na, STATUS_ERROR EIO)
        | Ok _ => modify_byte ni na bpos f
        end
      else modify_byte ni na bpos f
  end.

Definition ntfs_ibm_set ni x (vcn : Z) := ntfs_ibm_modify ni x vcn true.
Definition ntfs_ibm_clear ni x (vcn : Z) := ntfs_ibm_modify ni x vcn false.

(** The first clear bit of a byte; 8 if there is none. *)
Fixpoint clear_bit (n : nat) (byte bit : Z) : Z :=
  match n with
  | O => bit
  | S n => if Z.land byte (Z.shiftl 1 bit) =? 0 then bit else clear_bit n byte (bit + 1)
  end.

(** The number of the first clear bit of the bytes, from byte [i] on; the number
    of all bits if there is none. *)
Fixpoint first_clear (bmp : list Z) (i : Z) : Z :=
  match bmp with
  | [] => i * 8
  | b :: t => if b =? 255 then first_clear t (i + 1) else i * 8 + clear_bit 8 b 0
  end.

(** -1 is the failure. *)
Definition ntfs_ibm_get_free ni x : option (inode R A * Z) :=
  match bm ni with
  | None => Some (ni, -1)
  | Some na =>
      if negb (ntfs_malloc (zlen (attr_data na))) then Some (ni, -1)
      else
        let '(na, r) := attr_pread na 0 (zlen (attr_data na)) in
        let ni := set_bm ni na in
        match r with
        | Err _ => Some (ni, -1)
        | Ok bmp =>
            if negb (zlen bmp =? zlen (attr_data na)) then Some (ni, -1)
            else
              let vcn := ntfs_ibm_pos_to_vcn x (first_clear bmp 0) in
              out ← ntfs_ibm_set ni x vcn;
              Some (fst out, if status_is_ok (snd out) then vcn else -1)
        end
  end.

(** *** Blocks made, split and cut *)

Definition ntfs_ib_alloc (ib_vcn ib_size node_type : Z) : option (option (list Z)) :=
  if negb (ntfs_malloc ib_size) then Some None
  else
    let b := replicate (Z.to_nat ib_size) 0 in
    b ← put_le32 b 0 magic_INDX;
    b ← put_le16 b 4 sizeof_INDEX_BLOCK;
    let usa_count := u16 (ib_size / NTFS_BLOCK_SIZE + 1) in
    b ← put_le16 b 6 usa_count;
    b ← put_le16 b sizeof_INDEX_BLOCK 1;
    b ← put_le64 b 8 0;
    b ← put_le64 b 16 ib_vcn;
    b ← set_entries_offset b IB_INDEX (Z.land (sizeof_INDEX_HEADER + usa_count * 2 + 7) (Z.lnot 7));
    b ← set_index_length b IB_INDEX 0;
    b ← set_allocated_size b IB_INDEX (u32 (ib_size - (sizeof_INDEX_BLOCK - sizeof_INDEX_HEADER)));
    b ← set_ih_flags b IB_INDEX node_type;
    Some (Some b).

(** The entries before the end, counted as ntfs_ie_get_median does. *)
Fixpoint count_loop (fuel : nat) (m : list Z) (ie_end ie i : Z) : option Z :=
  match fuel with
  | O => None
  | S f =>
      if ie <? ie_end then
        e ← ntfs_ie_end m ie;
        if e : bool then Some i else ie ← ntfs_ie_get_next m ie; count_loop f m ie_end ie (i + 1)
      else Some i
  end.

Definition ntfs_ie_get_median (m : list Z) (ih : Z) : option Z :=
  ie_start ← ntfs_ie_get_first m ih;
  ie_end ← ntfs_ie_get_end m ih;
  i ← count_loop (rounds m) m ie_end ie_start 0;
  let median := Z.quot i 2 - 1 in
  skip_entries (Z.to_nat (median + 1)) m ie_start.

Definition ntfs_ir_to_ib (ir : list Z) (ib_vcn : Z) : option (option (list Z)) :=
  size ← index_block_size ir;
  ob ← ntfs_ib_alloc ib_vcn size LEAF_NODE;
  match ob with
  | None => Some None
  | Some b =>
      ies_start ← ntfs_ie_get_first ir IR_INDEX;
      ies_end ← ntfs_ie_get_end ir IR_INDEX;
      ie_last ← ntfs_ie_get_last ir ies_start ies_end;
      len ← ie_length ir ie_last;
      let i := ie_last - ies_start + len in
      bs ← zread ir ies_start i;
      first ← ntfs_ie_get_first b IB_INDEX;
      b ← zwrite b first bs;
      fl ← ih_flags ir IR_INDEX;
      b ← set_ih_flags b IB_INDEX fl;
      eo ← entries_offset b IB_INDEX;
      b ← set_index_length b IB_INDEX (u32 (i + eo));
      Some (Some b)
  end.

Definition ntfs_ir_nill (ir : list Z) : option (list Z) :=
  ies_start ← ntfs_ie_get_first ir IR_INDEX;
  ies_end ← ntfs_ie_get_end ir IR_INDEX;
  ie_last ← ntfs_ie_get_last ir ies_start ies_end;
  if ies_start <? ie_last then len ← ie_length ir ie_last; memmove ir ies_start ie_last len else Some ir.

Definition ntfs_ib_copy_tail ni x (src : list Z) (median new_vcn : Z) : option (inode R A * status) :=
  fl ← ih_flags src IB_INDEX;
  ob ← ntfs_ib_alloc new_vcn (block_size x) (Z.land fl NODE_MASK);
  match ob with
  | None => Some (ni, STATUS_ERROR ENOMEM)
  | Some dst =>
      ie_head ← ntfs_ie_get_next src median;
      ies_end ← ntfs_ie_get_end src IB_INDEX;
      let tail_size := ies_end - ie_head in
      bs ← zread src ie_head tail_size;
      first ← ntfs_ie_get_first dst IB_INDEX;
      dst ← zwrite dst first bs;
      eo ← entries_offset dst IB_INDEX;
      dst ← set_index_length dst IB_INDEX (u32 (tail_size + eo));
      out ← ntfs_ib_write ni x dst;
      let '(ni, _, s) := out in Some (ni, s)
  end.

Definition cut_tail_block (b : list Z) (ie : Z) : option (list Z) :=
  ies_start ← ntfs_ie_get_first b IB_INDEX;
  ies_end ← ntfs_ie_get_end b IB_INDEX;
  ie_last ← ntfs_ie_get_last b ies_start ies_end;
  fl ← ie_flags b ie_last;
  b ← (if flag fl INDEX_ENTRY_NODE then vcn ← ntfs_ie_get_vcn b ie; ntfs_ie_set_vcn b ie_last vcn else Some b);
  len ← ie_length b ie_last;
  b ← memmove b ie ie_last len;
  len ← ie_length b ie;
  eo ← entries_offset b IB_INDEX;
  set_index_length b IB_INDEX (u32 (ie - ies_start + len + eo)).

Definition ntfs_ib_cut_tail ni x (b : list Z) (ie : Z) : option (inode R A * status) :=
  b ← cut_tail_block b ie;
  out ← ntfs_ib_write ni x b;
  let '(ni, _, s) := out in Some (ni, s).

(** *** The root *)

Definition ntfs_ia_add ni x : inode R A * context * status :=
  let '(ni, s) := ntfs_ibm_add ni in
  if negb (status_is_ok s) then (ni, x, STATUS_ERROR EIO)
  else
    match ia ni with
    | Some _ => (ni, set_ia_na x, STATUS_OK)
    | None =>
        let '(r, o) := attr_add (root ni) [] in
        (Inode r o (bm ni), if o is Some _ then set_ia_na x else x, if o is Some _ then STATUS_OK else STATUS_ERROR EIO)
    end.

(** The root made a node with one entry, the end, whose VCN is still to be set:
    the value and the size it must have. *)
Definition nodify (ir : list Z) : option (list Z * Z) :=
  ir ← ntfs_ir_nill ir;
  ie ← ntfs_ie_get_first ir IR_INDEX;
  fl ← ie_flags ir ie;
  ir ← set_ie_flags ir ie (Z.lor fl INDEX_ENTRY_NODE);
  ir ← set_ie_length ir ie (sizeof_INDEX_ENTRY_HEADER + sizeof_VCN);
  ir ← set_ih_flags ir IR_INDEX LARGE_INDEX;
  eo ← entries_offset ir IR_INDEX;
  len ← ie_length ir ie;
  ir ← set_index_length ir IR_INDEX (u32 (eo + len));
  il ← index_length ir IR_INDEX;
  ir ← set_allocated_size ir IR_INDEX il;
  Some (ir, s32 (IR_INDEX + il)).

(** From the label retry on; one round for each successful move of the root to
    an extent record. *)
Fixpoint reparent_root (rounds : nat) (r : R) (new_ib_vcn : Z) : option (R * status) :=
  match rounds with
  | O => None
  | S f =>
      match ir_value r with
      | Err _ => Some (r, STATUS_ERROR EIO)
      | Ok ir =>
          out ← nodify ir;
          let '(ir', ix_root_size) := out in
          let '(r, res) := ir_value_resize (ir_store r ir') ix_root_size in
          match res with
          | Ok _ =>
              match ir_value r with
              | Err _ => Some (r, STATUS_ERROR EIO)
              | Ok ir =>
                  ie ← ntfs_ie_get_first ir IR_INDEX;
                  ir ← ntfs_ie_set_vcn ir ie new_ib_vcn;
                  Some (ir_store r ir, STATUS_OK)
              end
          | Err e =>
              let '(r, extent) := (if negb (bool_decide (e = ENOSPC)) then (r, false)
                                   else if ir_al_entry r then (r, true) else ir_add_attrlist r) in
              if extent : bool then
                match ir_value r with
                | Err _ => Some (r, STATUS_ERROR EIO)
                | Ok ir =>
                    let '(r, moved) := ir_move_away r (s32 (ix_root_size - zlen ir)) in
                    if moved : bool then reparent_root f r new_ib_vcn else Some (r, STATUS_ERROR EIO)
                end
              else Some (r, STATUS_ERROR EIO)
          end
      end
  end.

Definition ntfs_ir_reparent (rounds : nat) ni x : option (inode R A * context * status) :=
  match ir_value (root ni) with
  | Err _ => Some (ni, x, STATUS_ERROR EIO)
  | Ok ir =>
      fl ← ih_flags ir IR_INDEX;
      let '(ni, x, s) := (if Z.land fl NODE_MASK =? SMALL_INDEX then ntfs_ia_add ni x else (ni, x, STATUS_OK)) in
      if negb (status_is_ok s) then Some (ni, x, STATUS_ERROR EIO)
      else
        out ← ntfs_ibm_get_free ni x;
        let '(ni, new_ib_vcn) := out in
        if new_ib_vcn =? -1 then Some (ni, x, STATUS_ERROR EIO)
        else
          let clear_bmp ni := out ← ntfs_ibm_clear ni x new_ib_vcn; Some (fst out, x, STATUS_ERROR EIO) in
          match ir_value (root ni) with
          | Err _ => clear_bmp ni
          | Ok ir =>
              ob ← ntfs_ir_to_ib ir new_ib_vcn;
              match ob with
              | None => clear_bmp ni
              | Some b =>
                  out ← ntfs_ib_write ni x b;
                  let '(ni, _, s) := out in
                  if negb (status_is_ok s) then clear_bmp ni
                  else
                    out ← reparent_root rounds (root ni) new_ib_vcn;
                    let '(r, s) := out in
                    let ni := set_root ni r in
                    if status_is_ok s then Some (ni, x, STATUS_OK) else clear_bmp ni
              end
          end
  end.

Definition ntfs_ir_truncate ni (data_size : Z) : option (inode R A * status) :=
  let '(r, ret) := ir_attr_truncate (root ni) (data_size + IR_INDEX) in
  if status_is_ok ret then
    match ir_value r with
    | Err _ => Some (set_root ni r, STATUS_ERROR EIO)
    | Ok ir => ir ← set_allocated_size ir IR_INDEX (u32 data_size); Some (set_root ni (ir_store r ir), STATUS_OK)
    end
  else Some (set_root ni r, ret).

Definition ntfs_ir_make_space (rounds : nat) ni x (data_size : Z) : option (inode R A * context * status) :=
  out ← ntfs_ir_truncate ni data_size;
  let '(ni, ret) := out in
  match ret with
  | STATUS_RESIDENT_ATTRIBUTE_FILLED_MFT =>
      out ← ntfs_ir_reparent rounds ni x;
      let '(ni, x, ret) := out in Some (ni, x, if status_is_ok ret then STATUS_KEEP_SEARCHING else ret)
  | _ => Some (ni, x, ret)
  end.

(** *** Insertion *)

(** What the bytes added by realloc hold. *)
Variable fresh : list Z.

(** The entry at [oie] of the buffer [obuf], with [new_vcn] after it. *)
Definition ntfs_ih_insert (m : list Z) (ih : Z) (obuf : list Z) (oie new_vcn pos : Z) : option (list Z * status) :=
  ie ← ntfs_ie_dup ntfs_malloc obuf oie;
  match ie with
  | None => Some (m, STATUS_ERROR ENOMEM)
  | Some e =>
      fl ← ie_flags e 0;
      oe ← (if negb (flag fl INDEX_ENTRY_NODE) then ntfs_ie_add_vcn ntfs_malloc fresh e else Some (Some e));
      match oe with
      | None => Some (m, STATUS_ERROR ENOMEM)
      | Some e =>
          ie_node ← ntfs_ie_get_by_pos m ih pos;
          old_vcn ← ntfs_ie_get_vcn m ie_node;
          m ← ntfs_ie_set_vcn m ie_node new_vcn;
          m ← ntfs_ie_insert m ih e ie_node;
          m ← ntfs_ie_set_vcn m ie_node old_vcn;
          Some (m, STATUS_OK)
      end
  end.

Definition ntfs_ir_insert_median (rounds : nat) ni x (mbuf : list Z) (median new_vcn : Z) :
    option (inode R A * context * status) :=
  match ir_value (root ni) with
  | Err _ => Some (ni, x, STATUS_ERROR EIO)
  | Ok ir =>
      il ← index_length ir IR_INDEX;
      len ← ie_length mbuf median;
      fl ← ie_flags mbuf median;
      let new_size := u32 (il + len + (if negb (flag fl INDEX_ENTRY_NODE) then sizeof_VCN else 0)) in
      out ← ntfs_ir_make_space rounds ni x (s32 new_size);
      let '(ni, x, ret) := out in
      if negb (status_is_ok ret) then Some (ni, x, ret)
      else
        match ir_value (root ni) with
        | Err _ => Some (ni, x, STATUS_ERROR EIO)
        | Ok ir =>
            pos ← ntfs_icx_parent_pos x;
            out ← ntfs_ih_insert ir IR_INDEX mbuf median new_vcn pos;
            let '(ir, s) := out in Some (set_root ni (ir_store (root ni) ir), x, s)
        end
  end.

(** [split] is the recursive call of ntfs_ib_split. *)
Definition ib_insert_with (split : inode R A -> context -> list Z -> option (inode R A * context * status))
    ni x (mbuf : list Z) (ie new_vcn : Z) : option (inode R A * context * status) :=
  if negb (ntfs_malloc (block_size x)) then Some (ni, x, STATUS_ERROR ENOMEM)
  else
    old_vcn ← ntfs_icx_parent_vcn x;
    out ← ntfs_ib_read ni x old_vcn;
    let '(ni, r) := out in
    match r with
    | Err e => Some (ni, x, STATUS_ERROR e)
    | Ok b =>
        idx_size ← index_length b IB_INDEX;
        alloc ← allocated_size b IB_INDEX;
        len ← ie_length mbuf ie;
        if alloc <? u32 (idx_size + len) + sizeof_VCN then
          out ← split ni x b;
          let '(ni, x, err) := out in Some (ni, x, if status_is_ok err then STATUS_KEEP_SEARCHING else err)
        else
          pos ← ntfs_icx_parent_pos x;
          out ← ntfs_ih_insert b IB_INDEX mbuf ie new_vcn pos;
          let '(b, s) := out in
          if negb (status_is_ok s) then Some (ni, x, STATUS_ERROR EIO)
          else
            out ← ntfs_ib_write ni x b;
            let '(ni, _, s) := out in
            Some (ni, x, if status_is_ok s then STATUS_OK else STATUS_ERROR EIO)
    end.

(** Each recursive call is for the parent block: [pindex] decreases. *)
Fixpoint ib_split (depth : nat) (rounds : nat) ni x (b : list Z) : option (inode R A * context * status) :=
  match depth with
  | O => None
  | S depth =>
      let '(x, s) := ntfs_icx_parent_dec x in
      if negb (status_is_ok s) then Some (ni, x, STATUS_ERROR EINVAL)
      else
        median ← ntfs_ie_get_median b IB_INDEX;
        out ← ntfs_ibm_get_free ni x;
        let '(ni, new_vcn) := out in
        if new_vcn =? -1 then Some (ni, x, STATUS_ERROR EIO)
        else
          out ← ntfs_ib_copy_tail ni x b median new_vcn;
          let '(ni, s) := out in
          if negb (status_is_ok s) then out ← ntfs_ibm_clear ni x new_vcn; Some (fst out, x, STATUS_ERROR EIO)
          else
            pv ← ntfs_icx_parent_vcn x;
            out ← (if pv =? VCN_INDEX_ROOT_PARENT then ntfs_ir_insert_median rounds ni x b median new_vcn
                   else ib_insert_with (ib_split depth rounds) ni x b median new_vcn);
            let '(ni, x, ret) := out in
            if negb (status_is_ok ret) then out ← ntfs_ibm_clear ni x new_vcn; Some (fst out, x, ret)
            else out ← ntfs_ib_cut_tail ni x b median; Some (fst out, x, snd out)
  end.

Definition ntfs_ib_split (rounds : nat) ni x (b : list Z) := ib_split (S (Z.to_nat (pindex x))) rounds ni x b.
Definition ntfs_ib_insert (rounds : nat) ni x := ib_insert_with (ntfs_ib_split rounds) ni x.

(** Release of the context; a failing write of the block is not reported. *)
Definition ntfs_index_ctx_free ni x : option (inode R A) :=
  if negb (bad_index x) && negb (if entry x is Some _ then true else false) then Some ni
  else if negb (is_in_root x) && ib_dirty x then out ← ntfs_ib_write ni x (ib x); Some (fst (fst out))
  else Some ni.

Definition ntfs_index_ctx_put := ntfs_index_ctx_free.

Definition ntfs_index_ctx_reinit ni x : option (inode R A * context) :=
  ni ← ntfs_index_ctx_free ni x;
  Some (ni, ntfs_index_ctx_get).

Definition ntfs_index_entry_mark_dirty x : context := if is_in_root x then x else set_dirty x true.

(** What one round of the loop of ntfs_ie_add does: the entry is in, the entry
    cannot be added, or space was made and the search starts again. *)
Inductive added := Added | Again | AddFails (e : errno).

Definition ie_add_round (rounds : nat) ni x (e : list Z) : option (inode R A * context * added) :=
  key_len ← ie_key_length e 0;
  out ← ntfs_index_lookup ni x (drop 16 e) key_len;
  let '(ni, x, r) := out in
  match r with
  | Ok _ => Some (ni, x, AddFails EEXIST)
  | Err ENOENT =>
      ie_pos ← entry x;
      buf ← (if is_in_root x then match ir_value (root ni) with Ok ir => Some ir | Err _ => None end else Some (ib x));
      let ih := if is_in_root x then IR_INDEX else IB_INDEX in
      asize ← allocated_size buf ih;
      il ← index_length buf ih;
      len ← ie_length e 0;
      let alloc := s32 asize in
      let new_size := s32 (il + len) in
      if new_size <=? alloc then
        buf ← ntfs_ie_insert buf ih e ie_pos;
        Some (if is_in_root x then set_root ni (ir_store (root ni) buf) else ni,
              ntfs_index_entry_mark_dirty (if is_in_root x then x else set_ib x buf), Added)
      else
        out ← (if is_in_root x then ntfs_ir_make_space rounds ni x new_size else ntfs_ib_split rounds ni x (ib x));
        let '(ni, x, s) := out in
        match s with
        | STATUS_ERROR e => Some (ni, x, AddFails e)
        | _ => out ← ntfs_index_ctx_reinit ni x; Some (fst out, snd out, Again)
        end
  | Err e => Some (ni, x, AddFails e)
  end.

Fixpoint ntfs_ie_add (fuel rounds : nat) ni x (e : list Z) : option (inode R A * context * added) :=
  match fuel with
  | O => Some (ni, x, Again)
  | S f =>
      out ← ie_add_round rounds ni x e;
      let '(ni, x, r) := out in
      if r is Again then ntfs_ie_add f rounds ni x e else Some (ni, x, r)
  end.

(** The index entry of a file name [fn], a FILE_NAME_ATTR, for the file [mref]. *)
Definition filename_entry (fn : list Z) (mref : Z) : option (list Z) :=
  n ← file_name_length fn;
  let fn_size := n * 2 + 66 in
  let ie_size := Z.land (sizeof_INDEX_ENTRY_HEADER + fn_size + 7) (Z.lnot 7) in
  let e := replicate (Z.to_nat ie_size) 0 in
  e ← put_le64 e 0 mref;
  e ← set_ie_length e 0 (u16 ie_size);
  e ← put_le16 e 10 (u16 fn_size);
  bs ← zread fn 0 fn_size;
  zwrite e 16 bs.

Definition ntfs_index_add_filename (fuel rounds : nat) ni (fn : list Z) (mref : Z) : option (inode R A * added) :=
  n ← file_name_length fn;
  if negb (ntfs_malloc (Z.land (sizeof_INDEX_ENTRY_HEADER + (n * 2 + 66) + 7) (Z.lnot 7))) then Some (ni, AddFails ENOMEM)
  else
    e ← filename_entry fn mref;
    if negb (ntfs_malloc 256) then Some (ni, AddFails ENOMEM)
    else
      out ← ntfs_ie_add fuel rounds ni ntfs_index_ctx_get e;
      let '(ni, x, r) := out in
      ni ← ntfs_index_ctx_put ni x;
      Some (ni, r).

(** *** Removal, the operations inside a node *)

(** ntfs_ir_leafify: the end of the root loses its child. *)
Definition leafify (ir : list Z) : option (list Z) :=
  ie ← ntfs_ie_get_first ir IR_INDEX;
  fl ← ie_flags ir ie;
  ir ← set_ie_flags ir ie (Z.land fl (u16 (Z.lnot INDEX_ENTRY_NODE)));
  len ← ie_length ir ie;
  ir ← set_ie_length ir ie (u16 (len - sizeof_VCN));
  il ← index_length ir IR_INDEX;
  ir ← set_index_length ir IR_INDEX (u32 (il - sizeof_VCN));
  fl ← ih_flags ir IR_INDEX;
  set_ih_flags ir IR_INDEX (Z.land fl (u8 (Z.lnot LARGE_INDEX))).

Definition ntfs_ir_leafify ni : option (inode R A) :=
  match ir_value (root ni) with
  | Err _ => None
  | Ok ir =>
      ir ← leafify ir;
      il ← index_length ir IR_INDEX;
      out ← ntfs_ir_truncate (set_root ni (ir_store (root ni) ir)) (s32 il);
      Some (fst out)
  end.
End inode.
