(* ===== verification/IndexSpec.v ===== *)
(** The nodes of an index as lists of slots: an entry and the VCN of the child
    before it.  The operations of Index.v on the bytes of a node are operations
    on its slots. *)

From S2P Require Import Prelude Mst AttrIo AttrMst Names Collate Index.
Local Open Scope Z_scope.
Local Open Scope c_scope.
Set Default Proof Using "Type*".
#[local] Arguments le_encode : simpl never.

(** ** Entries *)

(** What an entry holds besides its length and its child: the first 8 bytes, the
    key length, the flags without INDEX_ENTRY_NODE, and the bytes from 14 on
    (two reserved bytes, the key, the data). *)
Record ent := Ent { e_head : list Z; e_klen : Z; e_flags : Z; e_rest : list Z }.

Definition slot : Type := ent * option Z.

Definition vcn_bytes (c : option Z) : list Z := match c with Some v => le_encode 8 v | None => [] end.
Definition node_flag (c : option Z) : Z := match c with Some _ => INDEX_ENTRY_NODE | None => 0 end.

Definition enc_len (s : slot) : Z := 14 + zlen (e_rest s.1) + zlen (vcn_bytes s.2).

Definition enc (s : slot) : list Z :=
  e_head s.1 ++ le_encode 2 (enc_len s) ++ le_encode 2 (e_klen s.1) ++ le_encode 2 (e_flags s.1 + node_flag s.2)
    ++ e_rest s.1 ++ vcn_bytes s.2.

Definition e_key (x : ent) : list Z := take (Z.to_nat (e_klen x)) (drop 2 (e_rest x)).

Record wf_ent (end_ : bool) (x : ent) : Prop := {
  we_head : wf_bytes (e_head x) /\ zlen (e_head x) = 8;
  we_rest : wf_bytes (e_rest x) /\ 2 <= zlen (e_rest x) < 65000;
  we_klen : 0 <= e_klen x < 65536;
  we_flags : 0 <= e_flags x < 65536 /\ Z.land (e_flags x) 1 = 0 /\ flag (e_flags x) INDEX_ENTRY_END = end_;
  we_end : end_ = true -> zlen (e_rest x) = 2 }.

Definition wf_child (c : option Z) : Prop := match c with Some v => in_s64 v | None => True end.

Definition wf_slot (end_ : bool) (s : slot) : Prop := wf_ent end_ s.1 /\ wf_child s.2.

(** The slots of a node: the last one, and only it, is the end. *)
Definition wf_slots (sl : list slot) : Prop :=
  exists es z, sl = es ++ [z] /\ Forall (wf_slot false) es /\ wf_slot true z.

Definition enc_slots (sl : list slot) : list Z := concat (enc <$> sl).

(** ** The fields of an encoded entry *)

Lemma zlen_enc s : wf_slot false s \/ wf_slot true s -> zlen (enc s) = enc_len s.
Proof.
  intros H. assert (zlen (e_head s.1) = 8) as Hh by (destruct H as [[[] _]|[[] _]]; tauto).
  unfold enc. rewrite !zlen_app, !zlen_le_encode. unfold enc_len. lia.
Qed.

Lemma zlen_vcn_bytes c : zlen (vcn_bytes c) = match c with Some _ => 8 | None => 0 end.
Proof. by destruct c; [apply zlen_le_encode|]. Qed.

Lemma s64_mod v : in_s64 v -> s64 (v mod 256 ^ Z.of_nat 8) = v.
Proof.
  unfold in_s64, s64, wrap_s. intros H. change (256 ^ Z.of_nat 8) with (2 ^ 64). change (64 - 1) with 63.
  change (2 ^ 64) with 18446744073709551616 in *. change (2 ^ 63) with 9223372036854775808 in *. divlia.
Qed.

Section fields.
Variables (b : bool) (s : slot) (pre post : list Z) (ie : Z).
Hypothesis Hs : wf_slot b s.
Hypothesis Hie : ie = zlen pre.
#[local] Set Default Proof Using "All".

Let m := pre ++ enc s ++ post.

Lemma enc_len_range : 16 <= enc_len s < 65536 /\ zlen (enc s) = enc_len s.
Proof using Hs.
  destruct Hs as [[_ [_ Hr] _ _ _] _]. unfold enc_len at 1 2. rewrite zlen_vcn_bytes.
  split; [destruct s.2; lia|]. apply zlen_enc. destruct b; auto.
Qed.

Lemma field_length : ie_length m ie = Some (enc_len s).
Proof.
  pose proof enc_len_range as [Hl _]. destruct Hs as [[[_ Hh] _ _ _ _] _]. unfold m, ie_length, enc. rewrite <-!app_assoc, app_assoc.
  unfold le16_to_cpup. rewrite ld_mid by (rewrite zlen_app; lia). f_equal. apply Z.mod_small. change (256 ^ Z.of_nat 2) with 65536. lia.
Qed.

Lemma field_klen : ie_key_length m ie = Some (e_klen s.1).
Proof.
  destruct Hs as [[[_ Hh] _ Hk _ _] _]. unfold m, ie_key_length, enc. rewrite <-!app_assoc, (app_assoc pre), (app_assoc (pre ++ _)).
  unfold le16_to_cpup. rewrite ld_mid by (rewrite !zlen_app, !zlen_le_encode; lia). f_equal. apply Z.mod_small.
  change (256 ^ Z.of_nat 2) with 65536. lia.
Qed.

Lemma node_flag_range x : 0 <= x < 65536 -> Z.land x 1 = 0 -> forall c, 0 <= x + node_flag c < 65536 /\ x + node_flag c = Z.lor x (node_flag c).
Proof using.
  intros Hx Hl c. rewrite (land_ones' x 1 1) in Hl by lia. change (2 ^ 1) with 2 in Hl.
  split; [destruct c; cbn; unfold INDEX_ENTRY_NODE; divlia|]. symmetry. apply (lor_add x (node_flag c) 1); [lia | | done].
  destruct c; cbn; unfold INDEX_ENTRY_NODE; lia.
Qed.

Lemma field_flags : ie_flags m ie = Some (e_flags s.1 + node_flag s.2).
Proof.
  destruct Hs as [[[_ Hh] _ _ (Hf & Hl & _) _] _]. pose proof (node_flag_range _ Hf Hl s.2) as [Hn _].
  unfold m, ie_flags, enc. rewrite <-!app_assoc, (app_assoc pre), (app_assoc (pre ++ _)), (app_assoc ((pre ++ _) ++ _)).
  unfold le16_to_cpup. rewrite ld_mid by (rewrite !zlen_app, !zlen_le_encode; lia). f_equal. apply Z.mod_small.
  change (256 ^ Z.of_nat 2) with 65536. lia.
Qed.

Lemma flag_node : flag (e_flags s.1 + node_flag s.2) INDEX_ENTRY_NODE = match s.2 with Some _ => true | None => false end.
Proof using Hs.
  destruct Hs as [[_ _ _ (Hf & Hl & _) _] _]. pose proof (node_flag_range _ Hf Hl s.2) as [_ ->].
  unfold flag. rewrite Z.land_lor_distr_l. change INDEX_ENTRY_NODE with 1. rewrite Hl. by destruct s.2.
Qed.

Lemma flag_end : flag (e_flags s.1 + node_flag s.2) INDEX_ENTRY_END = b.
Proof using Hs.
  destruct Hs as [[_ _ _ (Hf & Hl & <-) _] _]. pose proof (node_flag_range _ Hf Hl s.2) as [_ ->].
  unfold flag. rewrite Z.land_lor_distr_l. by destruct s.2; cbn; rewrite Z.lor_0_r.
Qed.

Lemma field_end : ntfs_ie_end m ie = Some b.
Proof.
  pose proof field_length as Hl. pose proof enc_len_range as Hr. unfold ntfs_ie_end. rewrite field_flags. cbn [mbind option_bind].
  rewrite flag_end, Hl. clear Hl. cbn [mbind option_bind]. rewrite (proj2 (Z.eqb_neq _ 0)) by lia. by destruct b.
Qed.

Lemma field_next : ntfs_ie_get_next m ie = Some (ie + enc_len s).
Proof. unfold ntfs_ie_get_next. by rewrite field_length. Qed.

Lemma field_vcn_addr : ntfs_ie_get_vcn_addr m ie = Some (ie + enc_len s - 8).
Proof. unfold ntfs_ie_get_vcn_addr. by rewrite field_length. Qed.

(** The child is the last 8 bytes. *)
Lemma enc_vcn_split v : s.2 = Some v -> exists body,
  zlen body = enc_len s - 8 /\ enc s = body ++ le_encode 8 v.
Proof using Hs.
  intros E. pose proof enc_len_range as [_ Hl]. unfold enc in *. rewrite E in *. cbn [vcn_bytes] in *. rewrite !app_assoc in *.
  eexists. split; [|reflexivity]. rewrite (zlen_app _ (le_encode 8 v)), zlen_le_encode in Hl. lia.
Qed.

Lemma field_vcn v : s.2 = Some v -> ntfs_ie_get_vcn m ie = Some v.
Proof.
  intros E. destruct (enc_vcn_split v E) as (body & Hb & He). unfold ntfs_ie_get_vcn. rewrite field_vcn_addr. cbn [mbind option_bind].
  unfold sle64_to_cpup, m. rewrite He, <-app_assoc, app_assoc, ld_mid by (rewrite zlen_app; lia). cbn [mbind option_bind].
  destruct Hs as [_ Hc]. rewrite E in Hc. by rewrite s64_mod.
Qed.
End fields.

(** ** Nodes *)

(** The buffer [m] has an index header at [h], entries [eo] bytes further. *)
Record node_at (m : list Z) (h eo : Z) (pre : list Z) (sl : list slot) (post : list Z) : Prop := {
  na_eq : m = pre ++ enc_slots sl ++ post;
  na_h : 0 <= h;
  na_eo : 16 <= eo;
  na_pre : zlen pre = h + eo;
  na_entries : entries_offset m h = Some eo;
  na_length : index_length m h = Some (eo + zlen (enc_slots sl));
  na_wf : wf_bytes m;
  na_slots : wf_slots sl }.

Lemma enc_slots_app a b : enc_slots (a ++ b) = enc_slots a ++ enc_slots b.
Proof. unfold enc_slots. by rewrite fmap_app, concat_app. Qed.

Lemma enc_slots_cons s t : enc_slots (s :: t) = enc s ++ enc_slots t.
Proof. done. Qed.

Lemma enc_slots_1 s : enc_slots [s] = enc s.
Proof. apply app_nil_r. Qed.

Lemma zlen_enc_slots_cons b s t : wf_slot b s -> zlen (enc_slots (s :: t)) = enc_len s + zlen (enc_slots t).
Proof. intros H. rewrite enc_slots_cons, zlen_app. pose proof (enc_len_range b s H). lia. Qed.

Lemma enc_slots_size es : Forall (wf_slot false) es -> 16 * zlen es <= zlen (enc_slots es).
Proof.
  induction 1 as [|s es Hs _ IH]; [done|]. rewrite (zlen_enc_slots_cons false), zlen_cons by done.
  pose proof (enc_len_range false s Hs). lia.
Qed.

(** The first entry of a chain, and the chain after it. *)
Lemma chain_head s es pre rest : wf_slot false s ->
  let m := pre ++ enc_slots (s :: es) ++ rest in
  ntfs_ie_end m (zlen pre) = Some false /\ ntfs_ie_get_next m (zlen pre) = Some (zlen (pre ++ enc s)) /\
  m = (pre ++ enc s) ++ enc_slots es ++ rest /\ zlen (pre ++ enc s) = zlen pre + enc_len s.
Proof.
  intros Hs m. unfold m. rewrite enc_slots_cons, <-!app_assoc. pose proof (enc_len_range false s Hs) as [_ Hl].
  assert (zlen (pre ++ enc s) = zlen pre + enc_len s) as E by (rewrite zlen_app; lia). rewrite E.
  by rewrite (field_end false s pre _), (field_next false s pre _) by done.
Qed.

(** The end of a chain. *)
Lemma chain_end z pre rest : wf_slot true z -> ntfs_ie_end (pre ++ enc_slots [] ++ enc z ++ rest) (zlen pre) = Some true.
Proof. intros Hz. by apply (field_end true z pre rest). Qed.

(** A chain of entries met by a loop: [es], then the end [z]. *)
Section chain.
Variables (z : slot) (post : list Z).
Hypothesis Hz : wf_slot true z.
#[local] Set Default Proof Using "All".

Ltac chain_step s es pre Hs :=
  let E1 := fresh in let E2 := fresh in let E3 := fresh in let E4 := fresh in
  destruct (chain_head s es pre (enc z ++ post) Hs) as (E1 & E2 & E3 & E4);
  rewrite ?E1, ?E2; cbn [mbind option_bind negb andb]; rewrite ?E2; cbn [mbind option_bind]; rewrite E3.

Lemma chain_fuel es pre : Forall (wf_slot false) es -> (length es < rounds (pre ++ enc_slots es ++ enc z ++ post))%nat.
Proof using.
  intros H. pose proof (enc_slots_size es H). unfold rounds. rewrite !length_app. unfold zlen in *. lia.
Qed.

Lemma get_last_chain es pre fuel e : Forall (wf_slot false) es -> (length es < fuel)%nat -> zlen pre + zlen (enc_slots es) < e ->
  get_last_loop fuel (pre ++ enc_slots es ++ enc z ++ post) (zlen pre) e = Some (zlen pre + zlen (enc_slots es)).
Proof.
  revert pre fuel; induction es as [|s es IH]; intros pre [|f] H Hf He; try (cbn in Hf; lia); cbn [get_last_loop];
    pose proof (zlen_nonneg (enc_slots es)) as Hn || idtac.
  - rewrite chain_end by done. change (zlen (enc_slots [])) with 0 in *. rewrite (proj2 (Z.ltb_lt _ e)), Z.add_0_r by lia. done.
  - apply Forall_cons in H as [Hs H]. rewrite (zlen_enc_slots_cons false) in * by done. pose proof (enc_len_range _ _ Hs).
    rewrite (proj2 (Z.ltb_lt _ e)) by lia. chain_step s es pre Hs.
    rewrite IH; [f_equal; lia | done | cbn in Hf; lia | lia].
Qed.

Lemma count_chain es pre fuel e i : Forall (wf_slot false) es -> (length es < fuel)%nat -> zlen pre + zlen (enc_slots es) < e ->
  count_loop fuel (pre ++ enc_slots es ++ enc z ++ post) e (zlen pre) i = Some (i + zlen es).
Proof.
  revert pre fuel i; induction es as [|s es IH]; intros pre [|f] i H Hf He; try (cbn in Hf; lia); cbn [count_loop];
    pose proof (zlen_nonneg (enc_slots es)) as Hn || idtac.
  - rewrite chain_end by done. change (zlen (enc_slots [])) with 0 in *. rewrite (proj2 (Z.ltb_lt _ e)) by lia. cbn. f_equal.
    change (zlen (@nil slot)) with 0. lia.
  - apply Forall_cons in H as [Hs H]. rewrite (zlen_enc_slots_cons false) in * by done. pose proof (enc_len_range _ _ Hs).
    rewrite (proj2 (Z.ltb_lt _ e)) by lia. chain_step s es pre Hs.
    rewrite IH; [f_equal; rewrite zlen_cons; lia | done | cbn in Hf; lia | lia].
Qed.

Lemma numof_chain es pre fuel e n : Forall (wf_slot false) es -> (length es < fuel)%nat -> zlen pre + zlen (enc_slots es) < e ->
  numof_loop fuel (pre ++ enc_slots es ++ enc z ++ post) e (zlen pre) n = Some (n + zlen es).
Proof.
  revert pre fuel n; induction es as [|s es IH]; intros pre [|f] n H Hf He; try (cbn in Hf; lia); cbn [numof_loop];
    pose proof (zlen_nonneg (enc_slots es)) as Hn || idtac.
  - rewrite chain_end by done. cbn. f_equal. change (zlen (@nil slot)) with 0. lia.
  - apply Forall_cons in H as [Hs H]. rewrite (zlen_enc_slots_cons false) in * by done. pose proof (enc_len_range _ _ Hs).
    destruct (chain_head s es pre (enc z ++ post) Hs) as (-> & E2 & E3 & E4). cbn [mbind option_bind negb andb].
    rewrite (proj2 (Z.ltb_lt _ e)), E2 by lia. cbn [mbind option_bind]. rewrite E3.
    rewrite IH; [f_equal; rewrite zlen_cons; lia | done | cbn in Hf; lia | lia].
Qed.

Lemma skip_chain es pre rest : Forall (wf_slot false) es ->
  skip_entries (length es) (pre ++ enc_slots es ++ rest) (zlen pre) = Some (zlen pre + zlen (enc_slots es)).
Proof using.
  revert pre; induction es as [|s es IH]; intros pre H; cbn [length skip_entries].
  - f_equal. change (zlen (enc_slots [])) with 0. lia.
  - apply Forall_cons in H as [Hs H]. rewrite (zlen_enc_slots_cons false) by done.
    destruct (chain_head s es pre rest Hs) as (_ & -> & E3 & E4). cbn [mbind option_bind]. rewrite E3, IH by done. f_equal. lia.
Qed.
End chain.

(** ** Searching a node *)

Section search.
Context (collate : COLLATE) `{!KeyOrder collate}.

Definition good_key (x : ent) : Prop := valid_key collate (e_key x) /\ 2 + e_klen x <= zlen (e_rest x).

(** How many entries the key comes after. *)
Fixpoint rank (key : list Z) (es : list slot) : nat :=
  match es with
  | [] => O
  | s :: t => if key_cmp collate key (e_key s.1) =? 1 then S (rank key t) else O
  end.

(** What the search of a node gives: the slots are [es], then the end [z]; the
    first of them is at [ie]. *)
Definition exit_at (s : slot) (ie item : Z) : found :=
  match s.2 with None => NotFound ie | Some v => if v <? 0 then LookupError EINVAL else KeepSearching v item end.

Definition search (key : list Z) (es : list slot) (z : slot) (ie item : Z) : found :=
  let i := rank key es in
  let at_ := ie + zlen (enc_slots (take i es)) in
  match es !! i with
  | Some s => if key_cmp collate key (e_key s.1) =? 0 then Found at_ (item + Z.of_nat i) else exit_at s at_ (item + Z.of_nat i)
  | None => exit_at z at_ (item + Z.of_nat i)
  end.

Lemma exit_ok b s pre post item : wf_slot b s ->
  lookup_exit (pre ++ enc s ++ post) (zlen pre) item = Some (exit_at s (zlen pre) item).
Proof.
  intros Hs. unfold lookup_exit, exit_at. rewrite (field_flags b s) by done. cbn [mbind option_bind].
  rewrite (flag_node b s) by done. destruct (s.2) as [v|] eqn:E; cbn [negb]; [|done].
  rewrite (field_vcn b s _ _ _ Hs eq_refl v E). cbn [mbind option_bind]. done.
Qed.

Lemma key_in_memory s pre post : wf_slot false s -> good_key s.1 -> exists t,
  drop (Z.to_nat (ie_key (zlen pre))) (pre ++ enc s ++ post) = e_key s.1 ++ t /\ zlen (e_key s.1) = e_klen s.1.
Proof using.
  intros [[[_ Hh] _ Hk _ _] _] [_ Hl]. unfold ie_key, e_key, enc.
  set (k := Z.to_nat (e_klen s.1)). set (r := e_rest s.1) in *.
  exists (drop k (drop 2 r) ++ vcn_bytes s.2 ++ post). split; [|unfold zlen in *; rewrite length_take, length_drop; lia].
  rewrite !app_assoc, take_drop. rewrite <-!app_assoc.
  replace (Z.to_nat (zlen pre + 16)) with (length pre + (14 + 2))%nat by (unfold zlen; lia). rewrite drop_app_add.
  rewrite <-drop_drop, !app_assoc. set (h := ((e_head s.1 ++ _) ++ _) ++ _).
  assert (length h = 14)%nat as Hh14.
  { pose proof (zlen_le_encode 2 (enc_len s)). pose proof (zlen_le_encode 2 (e_klen s.1)).
    pose proof (zlen_le_encode 2 (e_flags s.1 + node_flag s.2)). unfold h. rewrite !length_app. unfold zlen in *. lia. }
  rewrite <-!(app_assoc h), <-Hh14, drop_app_length, <-!app_assoc, drop_app_le by (unfold zlen in *; lia). done.
Qed.

Lemma search_cons s t z key ie item : key_cmp collate key (e_key s.1) = 1 -> wf_slot false s ->
  search key (s :: t) z ie item = search key t z (ie + enc_len s) (item + 1).
Proof.
  intros E Hs. unfold search. cbn [rank]. rewrite E. cbn [Z.eqb Pos.eqb take].
  change ((s :: t) !! S (rank key t)) with (t !! rank key t). rewrite (zlen_enc_slots_cons false) by done.
  rewrite !Z.add_assoc. by replace (item + Z.of_nat (S (rank key t))) with (item + 1 + Z.of_nat (rank key t)) by lia.
Qed.

Lemma lookup_chain key kt z post es pre fuel item : wf_slot true z -> valid_key collate key ->
  Forall (wf_slot false) es -> Forall (fun s => good_key s.1) es -> (length es < fuel)%nat ->
  ie_lookup_loop (Some collate) fuel (key ++ kt) (zlen key) (pre ++ enc_slots es ++ enc z ++ post)
    (zlen pre + zlen (enc_slots es) + enc_len z) (zlen pre) item = Some (search key es z (zlen pre) item).
Proof.
  intros Hz Hk. pose proof (enc_len_range true z Hz) as [Hzl _].
  revert pre fuel item; induction es as [|s es IH]; intros pre [|f] item H Hg Hf; try (cbn in Hf; lia); cbn [ie_lookup_loop];
    unfold sizeof_INDEX_ENTRY_HEADER.
  - change (zlen (enc_slots [])) with 0. rewrite (proj2 (Z.ltb_ge _ (zlen pre + 16))) by lia.
    change (enc_slots [] ++ enc z ++ post) with (enc z ++ post). rewrite (field_length true z) by done. cbn [mbind option_bind].
    rewrite (proj2 (Z.ltb_ge _ _)) by lia. rewrite (field_end true z) by done. cbn [mbind option_bind].
    rewrite (exit_ok true) by done. unfold search. cbn. by rewrite !Z.add_0_r.
  - apply Forall_cons in H as [Hs H]. apply Forall_cons in Hg as [Hgs Hg]. pose proof (enc_len_range _ _ Hs) as [Hl Hl'].
    rewrite (zlen_enc_slots_cons false) by done. pose proof (zlen_nonneg (enc_slots es)).
    rewrite (proj2 (Z.ltb_ge _ (zlen pre + 16))) by lia. rewrite enc_slots_cons, <-!app_assoc.
    rewrite (field_length false s) by done. cbn [mbind option_bind]. rewrite (proj2 (Z.ltb_ge _ _)) by lia.
    rewrite (field_end false s) by done. cbn [mbind option_bind]. rewrite (field_klen false s) by done. cbn [mbind option_bind].
    destruct (key_in_memory s pre (enc_slots es ++ enc z ++ post) Hs Hgs) as (t & -> & Hkl).
    rewrite <-Hkl, (collate_ok key (e_key s.1) kt t Hk (proj1 Hgs)). cbn [mbind option_bind].
    destruct (key_cmp_values (collate := collate) key (e_key s.1)) as [E|[E|E]]; rewrite E; cbn [Z.eqb Pos.eqb NTFS_COLLATION_ERROR].
    + rewrite (exit_ok false) by done. unfold search. cbn [rank]. rewrite E. cbn. rewrite E. cbn. change (zlen (enc_slots [])) with 0. by rewrite !Z.add_0_r.
    + unfold search. cbn [rank]. rewrite E. cbn. rewrite E. cbn. change (zlen (enc_slots [])) with 0. by rewrite !Z.add_0_r.
    + rewrite (field_next false s) by done. cbn [mbind option_bind]. rewrite search_cons by done. rewrite app_assoc.
      replace (zlen pre + (enc_len s + zlen (enc_slots es)) + enc_len z) with (zlen (pre ++ enc s) + zlen (enc_slots es) + enc_len z)
        by (rewrite zlen_app; lia).
      replace (zlen pre + enc_len s) with (zlen (pre ++ enc s)) by (rewrite zlen_app; lia).
      apply IH; [done | done | cbn in Hf; lia].
Qed.
End search.
