(* ===== verification/IndexNode.v ===== *)
(** The operations of Index.v inside a node, on its slots: finding, inserting,
    removing and changing entries. *)

From S2P Require Import Prelude Mst AttrIo AttrMst Names Collate Index IndexSpec.
Local Open Scope Z_scope.
Local Open Scope c_scope.
Set Default Proof Using "Type*".
#[local] Arguments le_encode : simpl never.

(** ** Slots *)

Lemma wf_slots_split s1 s s2 : wf_slots (s1 ++ s :: s2) -> s2 <> [] ->
  Forall (wf_slot false) s1 /\ wf_slot false s /\ wf_slots s2.
Proof.
  intros (es & z & E & Hes & Hz) Hne. destruct (exists_last Hne) as (es2 & z2 & ->).
  rewrite app_comm_cons, app_assoc in E. apply app_inj_tail in E as [<- <-].
  apply Forall_app in Hes as [H1 H2]. apply Forall_cons in H2 as [H2 H3]. split_and!; [done | done |]. by exists es2, z2.
Qed.

Lemma wf_slots_app s1 s2 : s2 <> [] -> wf_slots (s1 ++ s2) <-> Forall (wf_slot false) s1 /\ wf_slots s2.
Proof.
  intros Hne. split.
  - intros (es & z & E & Hes & Hz). destruct (exists_last Hne) as (es2 & z2 & ->).
    rewrite app_assoc in E. apply app_inj_tail in E as [<- <-]. apply Forall_app in Hes as [H1 H2].
    split; [done|]. by exists es2, z2.
  - intros [H1 (es & z & -> & H2 & Hz)]. exists (s1 ++ es), z. rewrite app_assoc. split_and!; [done | by apply Forall_app | done].
Qed.

Lemma wf_slots_cons s s2 : s2 <> [] -> wf_slots (s :: s2) <-> wf_slot false s /\ wf_slots s2.
Proof. intros Hne. rewrite (wf_slots_app [s] s2 Hne). by rewrite Forall_singleton. Qed.

Lemma wf_slots_1 z : wf_slots [z] <-> wf_slot true z.
Proof.
  split; [|intros Hz; by exists [], z]. intros (es & z' & E & _ & Hz). destruct es as [|? [|]]; try done. by injection E as ->.
Qed.

Lemma wf_slots_ne sl : wf_slots sl -> sl <> [].
Proof. intros (es & z & -> & _). by destruct es. Qed.

(** Some bit is right for the slot at any place. *)
Lemma wf_slots_in s1 s s2 : wf_slots (s1 ++ s :: s2) -> exists b, wf_slot b s /\ Forall (wf_slot false) s1.
Proof.
  intros H. apply wf_slots_app in H as [H1 H]; [|done]. destruct s2 as [|t s2].
  - apply wf_slots_1 in H. eauto.
  - apply wf_slots_cons in H as [H _]; [|done]. eauto.
Qed.

Lemma wf_enc b s : wf_slot b s -> wf_bytes (enc s).
Proof.
  intros [[[H1 _] [H2 _] _ _ _] _]. unfold enc, wf_bytes in *. rewrite !Forall_app. split_and!; try done; try apply wf_le_encode.
  destruct s.2; cbn; [apply wf_le_encode | constructor].
Qed.

Lemma wf_enc_slots es : Forall (wf_slot false) es -> wf_bytes (enc_slots es).
Proof. induction 1 as [|s es Hs _ IH]; [constructor|]. rewrite enc_slots_cons. apply Forall_app. split; [by eapply wf_enc | done]. Qed.

Lemma wf_enc_all sl : wf_slots sl -> wf_bytes (enc_slots sl).
Proof.
  intros (es & z & -> & H & Hz). rewrite enc_slots_app, enc_slots_1. apply Forall_app. split; [by apply wf_enc_slots | by eapply wf_enc].
Qed.

(** ** The header *)

(** [pre'] is [pre], the header and what precedes the entries, with another
    index length. *)
Record relength (h eo : Z) (pre pre' : list Z) (il : Z) : Prop := {
  rl_len : zlen pre' = zlen pre;
  rl_same : forall j, ~ (h + 4 <= j < h + 8) -> pre'.[j] = pre.[j];
  rl_wf : wf_bytes pre';
  rl_il : ld 4 pre' (h + 4) = Some il }.

Lemma relength_ok h eo pre rest v : 0 <= h -> 16 <= eo -> zlen pre = h + eo -> wf_bytes pre -> 0 <= v < 2 ^ 32 ->
  exists pre', set_index_length (pre ++ rest) h v = Some (pre' ++ rest) /\ relength h eo pre pre' v.
Proof.
  intros Hh He Hp Hw Hv. destruct (st_inside 4 pre (h + 4) v) as [pre' E]; [lia | lia |].
  pose proof (st_Some _ _ _ _ _ E) as (_ & _ & Hl & _). exists pre'. split.
  - unfold set_index_length, put_le32. unfold st in E |- *. unfold zwrite in *. rewrite zlen_app.
    pose proof (zlen_nonneg rest). rewrite zlen_le_encode in *.
    rewrite (proj2 (Z.leb_le 0 (h + 4))) in * by lia. rewrite (proj2 (Z.leb_le _ (zlen pre))) in E by lia.
    rewrite (proj2 (Z.leb_le _ (zlen pre + zlen rest))) by lia. cbn [andb] in *. injection E as <-. f_equal.
    rewrite <-!app_assoc. assert (length (le_encode 4 v) = 4%nat) as -> by (pose proof (zlen_le_encode 4 v); unfold zlen in *; lia).
    rewrite take_app_le, drop_app_le by (unfold zlen in *; lia). done.
  - split; [lia | | by eapply st_wf | ].
    + intros j Hj. apply (st_other 4 pre (h + 4) v); [done | lia].
    + rewrite (ld_st_same _ _ _ _ _ E). f_equal. apply Z.mod_small. change (256 ^ Z.of_nat 4) with (2 ^ 32). lia.
Qed.

Lemma relength_field n h eo pre pre' il rest rest' a : relength h eo pre pre' il -> 0 <= a -> a + Z.of_nat n <= zlen pre ->
  a + Z.of_nat n <= h + 4 \/ h + 8 <= a -> ld n (pre' ++ rest') a = ld n (pre ++ rest) a.
Proof.
  intros [Hl Hs _ _] Ha Hn Ho. rewrite !ld_prefix by lia. apply ld_eq; try lia. intros j Hj. apply Hs. lia.
Qed.

(** A node put together again after a change of its index length. *)
Lemma node_at_relength m h eo pre sl post pre' sl' post' :
  node_at m h eo pre sl post -> relength h eo pre pre' (eo + zlen (enc_slots sl')) -> wf_slots sl' -> wf_bytes post' ->
  node_at (pre' ++ enc_slots sl' ++ post') h eo pre' sl' post'.
Proof.
  intros [-> Hh He Hp Heo Hil Hw Hsl] Hr Hsl' Hpost. pose proof Hr as [Hl _ Hw' Hi].
  split; try done; [lia | | | ].
  - rewrite <-Heo. unfold entries_offset, le32_to_cpup. apply (relength_field 4 h eo pre pre' _ _ _ h Hr); lia.
  - unfold index_length, le32_to_cpup. rewrite ld_prefix by lia. done.
  - apply Forall_app. split; [done|]. apply Forall_app. split; [by apply wf_enc_all | done].
Qed.

Lemma node_wf_parts m h eo pre sl post : node_at m h eo pre sl post ->
  wf_bytes pre /\ wf_bytes post /\ 0 <= eo + zlen (enc_slots sl) < 2 ^ 32.
Proof.
  intros [-> Hh He Hp Heo Hil Hw Hsl]. apply (ld_range 4) in Hil; [|done]. apply Forall_app in Hw as [H1 H2].
  apply Forall_app in H2 as [_ H2]. split_and!; try done; change (256 ^ Z.of_nat 4) with (2 ^ 32) in Hil; lia.
Qed.

(** ** Reading *)

Section read.
Context {m : list Z} {h eo : Z} {pre : list Z} {sl : list slot} {post : list Z}.
Hypothesis Hm : node_at m h eo pre sl post.
#[local] Set Default Proof Using "Hm".

Lemma node_first : ntfs_ie_get_first m h = Some (zlen pre).
Proof. pose proof Hm as [_ _ _ Hp He _ _ _]. unfold ntfs_ie_get_first. rewrite He. cbn. f_equal. lia. Qed.

Lemma node_end : ntfs_ie_get_end m h = Some (zlen pre + zlen (enc_slots sl)).
Proof. pose proof Hm as [_ _ _ Hp _ Hl _ _]. unfold ntfs_ie_get_end. rewrite Hl. cbn. f_equal. lia. Qed.

(** The slot in the middle of the buffer. *)
Lemma node_slot s1 s s2 : sl = s1 ++ s :: s2 -> m = (pre ++ enc_slots s1) ++ enc s ++ enc_slots s2 ++ post.
Proof. intros ->. destruct Hm as [-> _ _ _ _ _ _ _]. by rewrite enc_slots_app, enc_slots_cons, <-!app_assoc. Qed.

Lemma node_by_pos s1 s s2 : sl = s1 ++ s :: s2 -> ntfs_ie_get_by_pos m h (zlen s1) = Some (zlen pre + zlen (enc_slots s1)).
Proof.
  intros E. unfold ntfs_ie_get_by_pos. rewrite node_first. cbn [mbind option_bind]. pose proof Hm as [_ _ _ _ _ _ _ Hw].
  rewrite E in Hw. destruct (wf_slots_in _ _ _ Hw) as (b & _ & H1). rewrite (node_slot s1 s s2 E), <-app_assoc.
  unfold zlen at 1. rewrite Nat2Z.id. by apply skip_chain.
Qed.

Lemma node_chain es z : sl = es ++ [z] -> m = pre ++ enc_slots es ++ enc z ++ post /\ Forall (wf_slot false) es /\ wf_slot true z /\
  zlen (enc_slots sl) = zlen (enc_slots es) + enc_len z /\ (length es < rounds m)%nat.
Proof.
  intros Es. pose proof Hm as [E _ _ _ _ _ _ Hw]. rewrite Es in *. apply wf_slots_app in Hw as [H1 H2]; [|done]. apply wf_slots_1 in H2.
  assert (m = pre ++ enc_slots es ++ enc z ++ post) as Em by (rewrite E, enc_slots_app, enc_slots_1, <-!app_assoc; done).
  split_and!; try done.
  - rewrite enc_slots_app, enc_slots_1, zlen_app. pose proof (enc_len_range true z H2). lia.
  - rewrite Em. by apply chain_fuel.
Qed.

Lemma node_last es z : sl = es ++ [z] ->
  ntfs_ie_get_last m (zlen pre) (zlen pre + zlen (enc_slots sl)) = Some (zlen pre + zlen (enc_slots es)).
Proof.
  intros E. destruct (node_chain es z E) as (Em & H1 & H2 & Hl & Hf). pose proof (enc_len_range true z H2) as [? _].
  unfold ntfs_ie_get_last. rewrite Em in *. apply get_last_chain; [done | done | done | lia].
Qed.

Lemma node_numof es z : sl = es ++ [z] -> ntfs_ih_numof_entries m h = Some (zlen es).
Proof.
  intros E. destruct (node_chain es z E) as (Em & H1 & H2 & Hl & Hf). pose proof (enc_len_range true z H2) as [? _].
  unfold ntfs_ih_numof_entries. rewrite node_end, node_first. cbn [mbind option_bind]. rewrite Em in *.
  rewrite numof_chain; [done | done | done | done | lia].
Qed.

(** The median is the entry after the first half. *)
Lemma node_median es z : sl = es ++ [z] ->
  ntfs_ie_get_median m h = Some (zlen pre + zlen (enc_slots (take (Nat.div2 (length es)) es))).
Proof.
  intros E. destruct (node_chain es z E) as (Em & H1 & H2 & Hl & Hf). pose proof (enc_len_range true z H2) as [? _].
  unfold ntfs_ie_get_median. rewrite node_end, node_first. cbn [mbind option_bind]. rewrite Em in *.
  rewrite count_chain by (done || lia). cbn [mbind option_bind]. rewrite Z.add_0_l.
  assert (Z.to_nat (Z.quot (zlen es) 2 - 1 + 1) = Nat.div2 (length es)) as Ek.
  { rewrite Nat.div2_div. rewrite Z.quot_div_nonneg by (pose proof (zlen_nonneg es); lia). unfold zlen.
    rewrite Z.sub_add. change 2 with (Z.of_nat 2). rewrite <-Nat2Z.inj_div. apply Nat2Z.id. }
  rewrite Ek. set (k := Nat.div2 (length es)). assert (k <= length es)%nat as Hk by (apply Nat.div2_decr; lia).
  rewrite <-(take_drop k es) at 1. rewrite enc_slots_app, <-app_assoc.
  assert (length (take k es) = k) as Et by (rewrite length_take; lia). rewrite <-Et at 1.
  apply skip_chain. by apply Forall_take.
Qed.

Lemma node_lookup (collate : COLLATE) `{!KeyOrder collate} es z key kt : sl = es ++ [z] -> valid_key collate key ->
  Forall (fun s => good_key collate s.1) es ->
  ntfs_ie_lookup (Some collate) (key ++ kt) (zlen key) m h = Some (search collate key es z (zlen pre) 0).
Proof.
  intros E Hk Hg. destruct (node_chain es z E) as (Em & H1 & H2 & Hl & Hf).
  unfold ntfs_ie_lookup. rewrite node_end, node_first, Hl. cbn [mbind option_bind]. rewrite Em in *. rewrite Z.add_assoc.
  by apply lookup_chain.
Qed.
End read.

(** ** Writing *)

Definition enc_body (x : ent) : list Z :=
  e_head x ++ le_encode 2 (22 + zlen (e_rest x)) ++ le_encode 2 (e_klen x) ++ le_encode 2 (e_flags x + INDEX_ENTRY_NODE) ++ e_rest x.

Lemma enc_Some x v : enc (x, Some v) = enc_body x ++ le_encode 8 v.
Proof.
  unfold enc, enc_body. cbn [fst snd vcn_bytes node_flag]. unfold enc_len. cbn [fst snd]. rewrite zlen_vcn_bytes.
  replace (14 + zlen (e_rest x) + 8) with (22 + zlen (e_rest x)) by lia. by rewrite <-!app_assoc.
Qed.

(** The child of an entry replaced. *)
Lemma set_vcn_at b x v0 v pre post : wf_slot b (x, Some v0) ->
  ntfs_ie_set_vcn (pre ++ enc (x, Some v0) ++ post) (zlen pre) v = Some (pre ++ enc (x, Some v) ++ post).
Proof.
  intros Hs. unfold ntfs_ie_set_vcn. rewrite (field_vcn_addr b (x, Some v0)) by done. cbn [mbind option_bind].
  pose proof (enc_len_range b _ Hs) as [_ Hl]. rewrite enc_Some, zlen_app, zlen_le_encode in Hl.
  rewrite !enc_Some, <-!app_assoc, !(app_assoc pre). apply st_mid. rewrite zlen_app. lia.
Qed.

Lemma relength_twice h eo p p1 p2 a b : relength h eo p p1 a -> relength h eo p1 p2 b -> relength h eo p p2 b.
Proof. intros [? S1 _ _] [? S2 ? ?]. split; [lia | | done | done]. intros j Hj. rewrite S2, S1 by done. done. Qed.

(** ntfs_ie_insert on bytes: [e] between [a] and [b], over the slack. *)
Lemma insert_bytes h eo pre a b slack post e il : 0 <= h -> 16 <= eo -> zlen pre = h + eo -> wf_bytes pre ->
  ie_length e 0 = Some (zlen e) -> zlen slack = zlen e -> index_length (pre ++ a ++ b ++ slack ++ post) h = Some il ->
  il = eo + zlen a + zlen b -> il + zlen e < 2 ^ 32 ->
  exists pre', ntfs_ie_insert (pre ++ a ++ b ++ slack ++ post) h e (zlen pre + zlen a) = Some (pre' ++ a ++ e ++ b ++ post) /\
    relength h eo pre pre' (il + zlen e).
Proof.
  intros Hh He Hp Hw Hl Hs Hil -> Hmax. pose proof (zlen_nonneg a). pose proof (zlen_nonneg b). pose proof (zlen_nonneg e).
  destruct (relength_ok h eo pre (a ++ b ++ slack ++ post) (eo + zlen a + zlen b + zlen e)) as (pre' & E & R); [done..|lia|].
  exists pre'. split; [|done]. unfold ntfs_ie_insert. rewrite Hl, Hil. cbn [mbind option_bind].
  unfold u32. rewrite wrap_u_small by lia. rewrite E. cbn [mbind option_bind]. destruct R as [Rl _ _ Ri].
  unfold index_length at 1, le32_to_cpup. rewrite ld_prefix, Ri by lia. cbn [mbind option_bind]. unfold memmove.
  rewrite <-Rl. replace (eo + zlen a + zlen b + zlen e - (zlen pre' + zlen a - h) - zlen e) with (zlen b) by lia.
  rewrite (app_assoc pre' a), (zread_mid (pre' ++ a) b) by (rewrite ?zlen_app; lia). cbn [mbind option_bind].
  set (p := pre' ++ a). assert (zlen pre' + zlen a = zlen p) as -> by (unfold p; by rewrite zlen_app).
  set (x := b ++ slack). assert (b ++ slack ++ post = x ++ post) as -> by (unfold x; by rewrite app_assoc).
  assert (zlen x = zlen b + zlen e) as Hx by (unfold x; rewrite zlen_app; lia).
  rewrite <-(take_drop (Z.to_nat (zlen e)) x), <-app_assoc, app_assoc.
  set (x1 := take _ x). set (x2 := drop _ x).
  assert (zlen x1 = zlen e) as Hx1 by (unfold x1, zlen in *; rewrite length_take; lia).
  assert (zlen x2 = zlen b) as Hx2 by (unfold x2, zlen in *; rewrite length_drop; lia).
  rewrite (zwrite_mid (p ++ x1) x2 post) by (rewrite ?zlen_app; lia). cbn [mbind option_bind]. rewrite zread_all. cbn [mbind option_bind].
  rewrite <-app_assoc, (zwrite_mid p x1) by lia. unfold p. by rewrite <-!app_assoc.
Qed.

(** ntfs_ie_delete on bytes. *)
Lemma delete_bytes h eo pre a e b post il : 0 <= h -> 16 <= eo -> zlen pre = h + eo -> wf_bytes pre ->
  ie_length (pre ++ a ++ e ++ b ++ post) (zlen pre + zlen a) = Some (zlen e) ->
  index_length (pre ++ a ++ e ++ b ++ post) h = Some il -> il = eo + zlen a + zlen e + zlen b -> il < 2 ^ 32 ->
  exists pre' slack, ntfs_ie_delete (pre ++ a ++ e ++ b ++ post) h (zlen pre + zlen a) = Some (pre' ++ a ++ b ++ slack ++ post) /\
    relength h eo pre pre' (il - zlen e) /\ slack = drop (length b) (e ++ b).
Proof.
  intros Hh He Hp Hw Hl Hil -> Hmax. pose proof (zlen_nonneg a). pose proof (zlen_nonneg b). pose proof (zlen_nonneg e).
  destruct (relength_ok h eo pre (a ++ e ++ b ++ post) (eo + zlen a + zlen e + zlen b - zlen e)) as (pre' & E & R); [done..|lia|].
  exists pre', (drop (length b) (e ++ b)). split_and!; [|done|done]. unfold ntfs_ie_delete. rewrite Hl, Hil. cbn [mbind option_bind].
  unfold u32. rewrite wrap_u_small by lia. rewrite E. cbn [mbind option_bind]. destruct R as [Rl _ _ _]. unfold memmove.
  rewrite <-Rl. replace (eo + zlen a + zlen e + zlen b - zlen e - (zlen pre' + zlen a - h)) with (zlen b) by lia.
  rewrite (app_assoc pre' a), (app_assoc (pre' ++ a) e), (zread_mid ((pre' ++ a) ++ e) b) by (rewrite ?zlen_app; lia).
  cbn [mbind option_bind]. rewrite <-(app_assoc (pre' ++ a)), (app_assoc e).
  rewrite <-(take_drop (length b) (e ++ b)) at 1. rewrite <-(app_assoc (take _ _)).
  rewrite zwrite_mid; [by rewrite <-!app_assoc | rewrite zlen_app; lia |].
  unfold zlen. rewrite length_take, length_app. lia.
Qed.

(** *** On slots *)

(** Another node in the same place: the header is the same but for the index
    length. *)
Record node_edit (m : list Z) (h eo : Z) (pre post : list Z) (m' pre' : list Z) (sl' : list slot) (post' : list Z) : Prop := {
  ed_node : node_at m' h eo pre' sl' post';
  ed_pre : relength h eo pre pre' (eo + zlen (enc_slots sl'));
  ed_len : zlen m' = zlen m }.

Lemma wf_drop (l : list Z) n : wf_bytes l -> wf_bytes (drop n l).
Proof. apply Forall_drop. Qed.

Lemma enc_length b s : wf_slot b s -> ie_length (enc s) 0 = Some (zlen (enc s)).
Proof.
  intros H. rewrite (proj2 (enc_len_range b s H)). pose proof (field_length b s [] [] 0 H eq_refl) as E.
  cbn [app] in E. by rewrite app_nil_r in E.
Qed.

Lemma node_edited m h eo pre sl post pre' sl' post' : node_at m h eo pre sl post ->
  relength h eo pre pre' (eo + zlen (enc_slots sl')) -> wf_slots sl' -> wf_bytes post' ->
  zlen (enc_slots sl') + zlen post' = zlen (enc_slots sl) + zlen post ->
  node_edit m h eo pre post (pre' ++ enc_slots sl' ++ post') pre' sl' post'.
Proof.
  intros Hm Hr Hsl Hpost Hl. split; [by eapply node_at_relength | done |].
  destruct Hm as [-> _ _ _ _ _ _ _]. pose proof (rl_len _ _ _ _ _ Hr). rewrite !zlen_app. lia.
Qed.

Lemma node_insert m h eo pre s1 s2 post s : node_at m h eo pre (s1 ++ s2) post -> s2 <> [] -> wf_slot false s ->
  enc_len s <= zlen post -> eo + zlen (enc_slots (s1 ++ s2)) + enc_len s < 2 ^ 32 ->
  exists m' pre', ntfs_ie_insert m h (enc s) (zlen pre + zlen (enc_slots s1)) = Some m' /\
    node_edit m h eo pre post m' pre' (s1 ++ s :: s2) (drop (Z.to_nat (enc_len s)) post).
Proof.
  intros Hm Hne Hs Hp Hmax. pose proof Hm as [E Hh He Hpre Heo Hil Hw Hsl]. pose proof (node_wf_parts _ _ _ _ _ _ Hm) as (Hw1 & Hw2 & _).
  pose proof (enc_len_range false s Hs) as [Hlr Hl]. apply wf_slots_app in Hsl as [H1 H2]; [|done].
  set (n := Z.to_nat (enc_len s)).
  assert (m = pre ++ enc_slots s1 ++ enc_slots s2 ++ take n post ++ drop n post) as E'
    by (by rewrite take_drop, E, enc_slots_app, <-!app_assoc).
  rewrite enc_slots_app, zlen_app in *.
  destruct (insert_bytes h eo pre (enc_slots s1) (enc_slots s2) (take n post) (drop n post) (enc s)
    (eo + (zlen (enc_slots s1) + zlen (enc_slots s2)))) as (pre' & Ei & Hr); try done; try lia.
  - by eapply enc_length.
  - unfold n, zlen in *. rewrite length_take. lia.
  - by rewrite <-E'.
  - rewrite <-E' in Ei. eexists _, pre'. split; [exact Ei|].
    replace (pre' ++ enc_slots s1 ++ enc s ++ enc_slots s2 ++ drop n post) with (pre' ++ enc_slots (s1 ++ s :: s2) ++ drop n post)
      by (by rewrite enc_slots_app, enc_slots_cons, <-!app_assoc).
    assert (zlen (enc_slots (s1 ++ s :: s2)) = zlen (enc_slots s1) + zlen (enc_slots s2) + enc_len s) as Hz
      by (rewrite enc_slots_app, enc_slots_cons, !zlen_app; lia).
    eapply node_edited; [done | rewrite Hz | | by apply wf_drop | rewrite Hz, enc_slots_app, zlen_app].
    + by replace (eo + (zlen (enc_slots s1) + zlen (enc_slots s2) + enc_len s)) with
        (eo + (zlen (enc_slots s1) + zlen (enc_slots s2)) + zlen (enc s)) by lia.
    + apply wf_slots_app; [done|]. split; [done|]. by apply wf_slots_cons.
    + unfold n, zlen in *. rewrite length_drop. lia.
Qed.

Lemma node_delete m h eo pre s1 s s2 post : node_at m h eo pre (s1 ++ s :: s2) post -> s2 <> [] ->
  exists m' pre' slack, ntfs_ie_delete m h (zlen pre + zlen (enc_slots s1)) = Some m' /\ zlen slack = enc_len s /\
    node_edit m h eo pre post m' pre' (s1 ++ s2) (slack ++ post).
Proof.
  intros Hm Hne. pose proof Hm as [E Hh He Hpre Heo Hil Hw Hsl]. pose proof (node_wf_parts _ _ _ _ _ _ Hm) as (Hw1 & Hw2 & Hmax).
  apply wf_slots_app in Hsl as [H1 H2]; [|done]. apply wf_slots_cons in H2 as [Hs H2]; [|done].
  pose proof (enc_len_range false s Hs) as [Hlr Hl].
  assert (zlen (enc_slots (s1 ++ s :: s2)) = zlen (enc_slots s1) + zlen (enc_slots s2) + enc_len s) as Hz
    by (rewrite enc_slots_app, enc_slots_cons, !zlen_app; lia).
  assert (m = pre ++ enc_slots s1 ++ enc s ++ enc_slots s2 ++ post) as E'
    by (by rewrite E, enc_slots_app, enc_slots_cons, <-!app_assoc).
  destruct (delete_bytes h eo pre (enc_slots s1) (enc s) (enc_slots s2) post
    (eo + zlen (enc_slots (s1 ++ s :: s2)))) as (pre' & slack & Ed & Hr & Hsl); try done; try lia.
  - rewrite app_assoc, (field_length false s) by (done || by rewrite zlen_app). by rewrite Hl.
  - by rewrite <-E'.
  - assert (zlen slack = enc_len s) as Hsz by (rewrite Hsl; unfold zlen in *; rewrite length_drop, length_app; lia).
    rewrite <-E' in Ed. eexists _, pre', slack. split; [exact Ed|]. split; [done|].
    replace (pre' ++ enc_slots s1 ++ enc_slots s2 ++ slack ++ post) with (pre' ++ enc_slots (s1 ++ s2) ++ slack ++ post)
      by (by rewrite enc_slots_app, <-!app_assoc).
    assert (zlen (enc_slots (s1 ++ s2)) = zlen (enc_slots s1) + zlen (enc_slots s2)) as Hz' by (by rewrite enc_slots_app, zlen_app).
    eapply node_edited; [done | rewrite Hz' | | | rewrite zlen_app; lia].
    + by replace (eo + (zlen (enc_slots s1) + zlen (enc_slots s2))) with (eo + zlen (enc_slots (s1 ++ s :: s2)) - zlen (enc s)) by lia.
    + by apply wf_slots_app.
    + apply Forall_app. split; [|done]. rewrite Hsl. apply wf_drop, Forall_app. split; [by eapply wf_enc | by apply wf_enc_all].
Qed.

(** The child of a slot replaced. *)
Lemma node_set_vcn m h eo pre (s1 : list slot) x v0 v (s2 : list slot) post : node_at m h eo pre (s1 ++ (x, Some v0) :: s2) post -> in_s64 v ->
  exists m', ntfs_ie_set_vcn m (zlen pre + zlen (enc_slots s1)) v = Some m' /\
    node_at m' h eo pre (s1 ++ (x, Some v) :: s2) post /\ zlen m' = zlen m.
Proof.
  intros Hm Hv. pose proof Hm as [E Hh He Hpre Heo Hil Hw Hsl]. pose proof (node_wf_parts _ _ _ _ _ _ Hm) as (Hw1 & Hw2 & Hmax).
  destruct (wf_slots_in _ _ _ Hsl) as (b & Hs & _).
  assert (wf_slots (s1 ++ (x, Some v) :: s2)) as Hsl'.
  { destruct (decide (s2 = [])) as [->|Hne].
    - apply wf_slots_app in Hsl as [H1 H2]; [|done]. apply wf_slots_app; [done|]. split; [done|].
      apply wf_slots_1 in H2 as [H2 _]. by apply wf_slots_1.
    - apply wf_slots_app in Hsl as [H1 H2]; [|done]. apply wf_slots_app; [done|]. split; [done|].
      apply wf_slots_cons in H2 as [[H2 _] H3]; [|done]. by apply wf_slots_cons. }
  assert (zlen (enc_slots (s1 ++ (x, Some v) :: s2)) = zlen (enc_slots (s1 ++ (x, Some v0) :: s2))) as Hz
    by (rewrite !enc_slots_app, !enc_slots_cons, !enc_Some, !zlen_app, !zlen_le_encode; done).
  exists (pre ++ enc_slots (s1 ++ (x, Some v) :: s2) ++ post). split.
  { pose proof (node_slot Hm s1 (x, Some v0) s2 eq_refl) as Em. clear Hil Heo Hw. rewrite Em, <-zlen_app, (set_vcn_at b) by done.
    by rewrite enc_slots_app, enc_slots_cons, <-!app_assoc. }
  split; [|rewrite E, !zlen_app; lia]. rewrite E in Heo, Hil. unfold entries_offset, index_length, le32_to_cpup in Heo, Hil.
  split; try done; unfold entries_offset, index_length, le32_to_cpup.
  - rewrite <-Heo, !ld_prefix by lia. done.
  - rewrite ld_prefix in Hil |- * by lia. by rewrite Hil, Hz.
  - apply Forall_app. split; [done|]. apply Forall_app. split; [by apply wf_enc_all | done].
Qed.

(** The bytes of an entry around its length and around its flags. *)
Definition enc_parts (x : ent) (len fl : Z) (t : list Z) : list Z :=
  e_head x ++ le_encode 2 len ++ le_encode 2 (e_klen x) ++ le_encode 2 fl ++ t.

Section parts.
Variables (b : bool) (x : ent) (len fl : Z) (t : list Z).
Hypothesis Hx : wf_ent b x.
#[local] Set Default Proof Using "All".

Lemma parts_length : ie_length (enc_parts x len fl t) 0 = Some (len mod 65536).
Proof. destruct Hx as [[_ Hh] _ _ _ _]. apply (ld_mid 2 (e_head x)). lia. Qed.

Lemma parts_set_length v : set_ie_length (enc_parts x len fl t) 0 v = Some (enc_parts x v fl t).
Proof. destruct Hx as [[_ Hh] _ _ _ _]. apply (st_mid 2 (e_head x)). lia. Qed.

Lemma parts_flags : ie_flags (enc_parts x len fl t) 0 = Some (fl mod 65536).
Proof.
  destruct Hx as [[_ Hh] _ _ _ _]. unfold enc_parts, ie_flags, le16_to_cpup. rewrite (app_assoc _ (le_encode 2 (e_klen x))), app_assoc.
  apply (ld_mid 2). rewrite !zlen_app, !zlen_le_encode. lia.
Qed.

Lemma parts_set_flags v : set_ie_flags (enc_parts x len fl t) 0 v = Some (enc_parts x len v t).
Proof.
  destruct Hx as [[_ Hh] _ _ _ _]. unfold enc_parts, set_ie_flags, put_le16. rewrite (app_assoc _ (le_encode 2 (e_klen x))), (app_assoc (e_head x)).
  rewrite st_mid by (rewrite !zlen_app, !zlen_le_encode; lia). by rewrite <-!app_assoc.
Qed.

Lemma parts_zlen : zlen (enc_parts x len fl t) = 14 + zlen t.
Proof. destruct Hx as [[_ Hh] _ _ _ _]. unfold enc_parts. rewrite !zlen_app, !zlen_le_encode. lia. Qed.
End parts.

Lemma enc_as_parts s : enc s = enc_parts s.1 (enc_len s) (e_flags s.1 + node_flag s.2) (e_rest s.1 ++ vcn_bytes s.2).
Proof. done. Qed.

Lemma signed_bytes bs : wf_bytes bs -> zlen bs = 8 -> exists v, in_s64 v /\ bs = le_encode 8 v.
Proof.
  intros Hw Hl. exists (s64 (le_decode bs)). split; [apply (wrap_s_range 64); lia|].
  rewrite <-(le_encode_decode bs Hw) at 1. assert (length bs = 8%nat) as -> by (unfold zlen in Hl; lia).
  apply le_encode_inj. unfold s64, wrap_s. change (256 ^ Z.of_nat 8) with (2 ^ 64). change (64 - 1) with 63.
  rewrite Zminus_mod_idemp_l. f_equal. lia.
Qed.

(** The copy that goes up from a block that is split: the entry with room for a
    child, whatever the new bytes hold. *)
Lemma promoted (malloc : Z -> bool) fresh b x c op oq : wf_slot b (x, c) -> wf_bytes fresh -> zlen fresh = 8 ->
  let r := e ← ntfs_ie_dup malloc (op ++ enc (x, c) ++ oq) (zlen op);
           match e with
           | None => Some None
           | Some e => fl ← ie_flags e 0; if negb (flag fl INDEX_ENTRY_NODE) then ntfs_ie_add_vcn malloc fresh e else Some (Some e)
           end in
  r = Some None \/ exists v, in_s64 v /\ r = Some (Some (enc (x, Some v))).
Proof.
  intros Hs Hf Hf8. cbv zeta. pose proof (enc_len_range b _ Hs) as [Hlr Hl]. unfold ntfs_ie_dup.
  rewrite (field_length b (x, c)) by done. cbn [mbind option_bind]. destruct (malloc (enc_len (x, c))); [|by left].
  rewrite zread_mid by done. cbn [mbind option_bind].
  pose proof (field_flags b (x, c) [] [] 0 Hs eq_refl) as Ef. cbn [app] in Ef. rewrite app_nil_r in Ef. rewrite Ef. cbn [mbind option_bind].
  rewrite (flag_node b (x, c)) by done. destruct c as [v|]; cbn [snd negb]; [right; exists v; split; [apply Hs | done]|].
  clear Ef. pose proof Hs as [Hx _]. cbn [fst] in Hx. pose proof Hx as [_ [_ Hr] _ (Hfl & Hl1 & _) _].
  pose proof (node_flag_range _ Hfl Hl1 (Some 0)) as [Hn1 Hn2]. cbn [node_flag] in Hn1, Hn2.
  unfold ntfs_ie_add_vcn. rewrite enc_as_parts. cbn [fst snd node_flag vcn_bytes]. rewrite app_nil_r, Z.add_0_r.
  rewrite (parts_length b), Z.mod_small by (done || lia). cbn [mbind option_bind]. rewrite (parts_set_length b) by done. cbn [mbind option_bind].
  unfold u16. unfold enc_len in *. cbn [fst snd vcn_bytes] in *. change (zlen (@nil Z)) with 0 in *. unfold sizeof_VCN.
  rewrite wrap_u_small by lia. rewrite (parts_length b), Z.mod_small by (done || lia). cbn [mbind option_bind].
  destruct (malloc _); [|by left]. right. destruct (signed_bytes fresh Hf Hf8) as (v & Hv & ->). exists v. split; [done|].
  assert (forall n fl, enc_parts x n fl (e_rest x) ++ le_encode 8 v = enc_parts x n fl (e_rest x ++ le_encode 8 v)) as Ep
    by (intros; unfold enc_parts; by rewrite <-!app_assoc).
  rewrite Ep, firstn_all2
    by (pose proof (parts_zlen b x (14 + zlen (e_rest x) + 0 + 8) (e_flags x) (e_rest x ++ le_encode 8 v) Hx) as Hz;
        rewrite zlen_app, zlen_le_encode in Hz; unfold zlen in *; lia).
  rewrite (parts_flags b), Z.mod_small by (done || lia). cbn [mbind option_bind]. rewrite (parts_set_flags b) by done. cbn [mbind option_bind].
  rewrite enc_as_parts. cbn [fst snd vcn_bytes node_flag]. unfold enc_len. cbn [fst snd]. rewrite zlen_vcn_bytes, <-Hn2.
  by replace (14 + zlen (e_rest x) + 0 + 8) with (14 + zlen (e_rest x) + 8) by lia.
Qed.

(** ntfs_ih_insert: the new entry takes the child of the entry at the position,
    which gets the new one. *)
Lemma node_ih_insert malloc fresh m h eo pre (s1 : list slot) y old (s2 : list slot) post op x c oq new :
  node_at m h eo pre (s1 ++ (y, Some old) :: s2) post -> wf_slot false (x, c) -> in_s64 new ->
  wf_bytes fresh -> zlen fresh = 8 -> enc_len (x, Some new) <= zlen post ->
  eo + zlen (enc_slots (s1 ++ (y, Some old) :: s2)) + enc_len (x, Some new) < 2 ^ 32 ->
  ntfs_ih_insert malloc fresh m h (op ++ enc (x, c) ++ oq) (zlen op) new (zlen s1) = Some (m, STATUS_ERROR ENOMEM) \/
  exists m' pre' post',
    ntfs_ih_insert malloc fresh m h (op ++ enc (x, c) ++ oq) (zlen op) new (zlen s1) = Some (m', STATUS_OK) /\
    node_edit m h eo pre post m' pre' (s1 ++ (x, Some old) :: (y, Some new) :: s2) post' /\
    post' = drop (Z.to_nat (enc_len (x, Some new))) post.
Proof.
  intros Hm Hs Hnew Hf Hf8 Hp Hmax. unfold ntfs_ih_insert. destruct (promoted malloc fresh false x c op oq Hs Hf Hf8) as [E|(v & Hv & E)];
    destruct (ntfs_ie_dup malloc _ _) as [[e|]|]; cbn [mbind option_bind] in E |- *; try done; try (by left);
    destruct (ie_flags e 0); cbn [mbind option_bind] in E |- *; try done; rewrite E; cbn [mbind option_bind]; [by left|].
  right. clear E.
  assert (forall w, enc_len (x, Some w) = 14 + zlen (e_rest x) + 8) as Hel by (intros; unfold enc_len; cbn [fst snd]; by rewrite zlen_vcn_bytes).
  assert (in_s64 old) as Hold.
  { pose proof Hm as [_ _ _ _ _ _ _ Hsl]. destruct (wf_slots_in _ _ _ Hsl) as (b & [_ Hc] & _). exact Hc. }
  assert (wf_slot false (x, Some v)) as Hsv by (destruct Hs; by split).
  rewrite (node_by_pos Hm s1 (y, Some old) s2 eq_refl). cbn [mbind option_bind].
  pose proof Hm as [_ _ _ _ _ _ _ Hsl]. destruct (wf_slots_in _ _ _ Hsl) as (b & Hsy & _).
  assert (ntfs_ie_get_vcn m (zlen pre + zlen (enc_slots s1)) = Some old) as ->.
  { rewrite (node_slot Hm s1 (y, Some old) s2 eq_refl), <-zlen_app. by apply (field_vcn b (y, Some old)). }
  cbn [mbind option_bind]. destruct (node_set_vcn _ _ _ _ _ _ _ new _ _ Hm Hnew) as (m1 & -> & Hm1 & Hl1). cbn [mbind option_bind].
  assert (zlen (enc_slots (s1 ++ (y, Some new) :: s2)) = zlen (enc_slots (s1 ++ (y, Some old) :: s2))) as Hz
    by (rewrite !enc_slots_app, !enc_slots_cons, !enc_Some, !zlen_app, !zlen_le_encode; done).
  destruct (node_insert m1 h eo pre s1 ((y, Some new) :: s2) post (x, Some v) Hm1) as (m2 & pre' & -> & [Hm2 Hr2 Hl2]);
    [done | done | rewrite Hel in *; lia | rewrite Hz, Hel in *; lia |].
  cbn [mbind option_bind]. pose proof (rl_len _ _ _ _ _ Hr2) as Hpl. rewrite <-Hpl.
  destruct (node_set_vcn _ _ _ _ _ _ _ old _ _ Hm2 Hold) as (m3 & -> & Hm3 & Hl3). cbn [mbind option_bind].
  exists m3, pre', (drop (Z.to_nat (enc_len (x, Some v))) post). split_and!; [done | | by rewrite !Hel].
  split; [done | | lia].
  replace (zlen (enc_slots (s1 ++ (x, Some old) :: (y, Some new) :: s2))) with (zlen (enc_slots (s1 ++ (x, Some v) :: (y, Some new) :: s2)));
    [done|]. by rewrite !enc_slots_app, !enc_slots_cons, !enc_Some, !zlen_app, !zlen_le_encode.
Qed.
