(* ===== verification/IndexBlock.v ===== *)
(** The blocks of $INDEX_ALLOCATION and their bitmap: reading, writing and
    making blocks (libntfs-3g/index.c), on the bytes of the attributes. *)

From S2P Require Import Prelude Mst Device AttrIo AttrMst Names Collate Index IndexSpec IndexNode.
Local Open Scope Z_scope.
Local Open Scope c_scope.
Set Default Proof Using "Type*".
#[local] Arguments le_encode : simpl never.

(** ** Well-formed blocks *)

(** The fields before the entries, [pre], of a block; [k] says that its entries
    have children; half of the block at least is left for the entries. *)
Record header (bs vcn : Z) (k : bool) (pre : list Z) (eo : Z) : Prop := {
  hd_len : zlen pre = 24 + eo /\ 16 <= eo /\ wf_bytes pre;
  hd_magic : ld 4 pre 0 = Some magic_INDX;
  hd_usa : exists ofs cnt, ld 2 pre 4 = Some ofs /\ ld 2 pre 6 = Some cnt /\ is_valid_record bs ofs cnt = true /\
    40 <= ofs /\ ofs + 2 * cnt <= 24 + eo;
  hd_vcn : ld 8 pre 16 = Some vcn /\ 0 <= vcn < 2 ^ 63;
  hd_alloc : ld 4 pre 32 = Some (bs - 24);
  hd_flags : exists fl, zget pre 36 = Some fl /\ Z.land fl 1 = Z.b2z k;
  hd_room : 2 * eo <= bs }.

(** All slots have a child or none has. *)
Definition uniform (k : bool) (sl : list slot) : Prop := Forall (fun s : slot => bool_decide (is_Some s.2) = k) sl.

Record iblock_parts (bs vcn : Z) (k : bool) (b : list Z) (sl : list slot) (eo : Z) (pre post : list Z) : Prop := {
  ib_node : node_at b 24 eo pre sl post;
  ib_header : header bs vcn k pre eo;
  ib_len : zlen b = bs;
  ib_uniform : uniform k sl }.

Definition iblock (bs vcn : Z) (k : bool) (b : list Z) (sl : list slot) : Prop :=
  exists eo pre post, iblock_parts bs vcn k b sl eo pre post.

Lemma header_ext bs vcn k pre pre' eo : header bs vcn k pre eo -> zlen pre' = zlen pre -> wf_bytes pre' ->
  (forall j, 0 <= j < 40 -> ~ (28 <= j < 32) -> pre'.[j] = pre.[j]) -> header bs vcn k pre' eo.
Proof.
  intros [(Hl & He & Hw) Hm (ofs & cnt & Ho & Hc & Hu) [Hv Hvr] Ha (fl & Hf & Hk) Hroom] Hl' Hw' Hs.
  assert (forall n a, 0 <= a -> a + Z.of_nat n <= 40 -> a + Z.of_nat n <= 28 \/ 32 <= a -> ld n pre' a = ld n pre a) as Hld
    by (intros n a H0 H1 H2; apply ld_eq; try lia; intros j Hj; apply Hs; lia).
  split; [split_and!; [lia | done | done] | | | | | | done].
  - by rewrite Hld by lia.
  - exists ofs, cnt. by rewrite !Hld by lia.
  - by rewrite Hld by lia.
  - by rewrite Hld by lia.
  - exists fl. rewrite Hs by lia. done.
Qed.

Lemma header_relength bs vcn k pre pre' eo il : header bs vcn k pre eo -> relength 24 eo pre pre' il -> header bs vcn k pre' eo.
Proof. intros Hh [Hl Hs Hw _]. eapply header_ext; [done | done | done |]. intros j _ Hj. apply Hs. lia. Qed.

(** The fields of the block. *)
Section fields.
Context {bs vcn : Z} {k : bool} {b : list Z} {sl : list slot} {eo : Z} {pre post : list Z}.
Hypothesis Hb : iblock_parts bs vcn k b sl eo pre post.
#[local] Set Default Proof Using "Hb".

Lemma ib_field n a : 0 <= a -> a + Z.of_nat n <= 40 -> ld n b a = ld n pre a.
Proof.
  intros Ha Hn. pose proof Hb as [Hnode [(Hl & He & _) _ _ _ _ _] _ _]. pose proof (na_eq _ _ _ _ _ _ Hnode) as E. rewrite E.
  apply ld_prefix; lia.
Qed.

Lemma ib_magic_ok : rec_magic b = Some magic_INDX.
Proof. pose proof Hb as [_ [_ H _ _ _ _] _ _]. unfold rec_magic, le32_to_cpup. by rewrite ib_field by lia. Qed.

Lemma ib_vcn_ok : index_block_vcn b = Some vcn.
Proof.
  pose proof Hb as [_ [_ _ _ [H Hr] _ _] _ _]. unfold index_block_vcn, sle64_to_cpup. rewrite ib_field, H by lia. cbn.
  by rewrite s64_small by (unfold in_s64; lia).
Qed.

Lemma ib_alloc_ok : allocated_size b 24 = Some (bs - 24).
Proof. pose proof Hb as [_ [_ _ _ _ H _] _ _]. unfold allocated_size, le32_to_cpup. by rewrite ib_field by lia. Qed.

Lemma ib_flags_ok : exists fl, ih_flags b 24 = Some fl /\ Z.land fl 1 = Z.b2z k.
Proof.
  pose proof Hb as [Hnode [(Hl & He & _) _ _ _ _ (fl & H & Hk)] _ _]. exists fl. split; [|done]. unfold ih_flags.
  pose proof (na_eq _ _ _ _ _ _ Hnode) as E. rewrite E, zget_app_l by lia. done.
Qed.

Lemma ib_mst : mst_block bs b /\ exists ofs cnt, rec_usa_ofs b = Some ofs /\ rec_usa_count b = Some cnt /\
  is_valid_record bs ofs cnt = true /\ 40 <= ofs /\ ofs + 2 * cnt <= 24 + eo.
Proof.
  pose proof Hb as [Hnode [_ _ (ofs & cnt & Ho & Hc & Hv & H1 & H2) _ _ _] Hl _].
  assert (rec_usa_ofs b = Some ofs /\ rec_usa_count b = Some cnt) as [Ho' Hc']
    by (unfold rec_usa_ofs, rec_usa_count, le16_to_cpup; by rewrite !ib_field by lia).
  split; [|by exists ofs, cnt]. split; [apply Hnode | done |]. exists ofs, cnt. split_and!; [done | done | lia].
Qed.

(** The update sequence array lies before the entries: another one makes no
    difference. *)
Lemma ib_deprotected b2 : zlen b2 = zlen b -> wf_bytes b2 ->
  (forall ofs cnt, rec_usa_ofs b = Some ofs -> rec_usa_count b = Some cnt -> forall j, ~ usa_byte ofs cnt j -> b2.[j] = b.[j]) ->
  exists pre2, iblock_parts bs vcn k b2 sl eo pre2 post.
Proof.
  intros Hl2 Hw2 Hsame. destruct ib_mst as (_ & ofs & cnt & Ho & Hc & _ & H1 & H2). specialize (Hsame ofs cnt Ho Hc).
  pose proof Hb as [Hnode Hhd Hl Hun]. pose proof Hhd as [(Hp & He & Hwp) _ _ _ _ _]. pose proof Hnode as [E Hh He' Hpre Heo Hil Hw Hsl].
  set (rest := enc_slots sl ++ post). fold rest in E. set (n := Z.to_nat (24 + eo)). exists (take n b2).
  pose proof (zlen_nonneg rest). assert (zlen b = zlen pre + zlen rest) as Hzb by (rewrite E; apply zlen_app).
  assert (zlen (take n b2) = zlen pre) as Hp2 by (unfold n, zlen in *; rewrite length_take; lia).
  assert (drop n b2 = rest) as Hrest.
  { apply zget_ext. intros i Hi. replace (zget rest i) with (zget b (zlen pre + i)).
    - rewrite <-Hsame by (unfold usa_byte; lia). rewrite <-(take_drop n b2) at 2. rewrite zget_app_r by lia. f_equal. lia.
    - rewrite E, zget_app_r by lia. f_equal. lia. }
  assert (b2 = take n b2 ++ rest) as E2 by (by rewrite <-Hrest, take_drop).
  assert (forall j, 0 <= j < 40 -> zget (take n b2) j = zget pre j) as Hs.
  { intros j Hj. transitivity (zget (take n b2 ++ rest) j); [by rewrite zget_app_l by lia|].
    rewrite <-E2, Hsame by (unfold usa_byte; lia). rewrite E, zget_app_l by lia. done. }
  assert (forall a, 0 <= a -> a + 4 <= 40 -> ld 4 b2 a = ld 4 b a) as Hld.
  { intros a Ha Ha4. rewrite E, E2, !ld_prefix by lia. apply ld_eq; try lia. intros j Hj. apply Hs. lia. }
  split; [|eapply header_ext; [done | done | by apply Forall_take | intros j Hj _; by apply Hs] | lia | done].
  split; try done; [lia | | ].
  - rewrite <-Heo. unfold entries_offset, le32_to_cpup. rewrite Hld by lia. done.
  - rewrite <-Hil. unfold index_length, le32_to_cpup. rewrite Hld by lia. done.
Qed.
End fields.

(** ** Reading and writing blocks *)

(** [q] VCNs of 2 ^ [vb] bytes to a block of [bs]. *)
Record geometry (bs vb q : Z) : Prop := {
  ge_bs : bs = q * 2 ^ vb;
  ge_vb : 0 <= vb;
  ge_q : 0 < q;
  ge_sectors : bs mod 512 = 0;
  ge_range : 512 <= bs <= 65536 }.

Definition sized (x : context) (bs vb : Z) : Prop := block_size x = bs /\ vcn_size_bits x = vb.

(** The numbers of blocks: a bit of the bitmap each. *)
Definition block_number (i : Z) : Prop := 0 <= i < 2 ^ 34.

Definition check_context (bs : Z) : context := set_sizes ntfs_index_ctx_get bs 0 None.

(** The block a VCN stands for, as ntfs_ib_read gives it. *)
Definition fetch (bs vb : Z) (data : list Z) (vcn : Z) : option (list Z) :=
  raw ← zread data (Z.shiftl vcn vb) bs;
  r ← ntfs_mst_post_read_fixup raw bs;
  ok ← ntfs_ia_check (check_context bs) (fst r) vcn;
  if ok : bool then Some (fst r) else None.

Lemma ia_check_ok bs vb q vcn k b sl : geometry bs vb q -> iblock bs vcn k b sl ->
  ntfs_ia_check (check_context bs) b vcn = Some true.
Proof.
  intros G (eo & pre & post & Hb). unfold ntfs_ia_check. change IB_INDEX with 24.
  rewrite (ib_alloc_ok Hb), (ib_magic_ok Hb), (ib_vcn_ok Hb). cbn [mbind option_bind].
  rewrite !Z.eqb_refl. cbn [negb block_size check_context set_sizes]. unfold u32. rewrite wrap_u_small by (destruct G; lia).
  by replace (bs - 24 + 24) with bs by lia; rewrite Z.eqb_refl.
Qed.

(** The slots of a block that was protected are those of its deprotected form. *)
Lemma iblock_images bs vcn k b sl b1 b2 : iblock bs vcn k b sl -> mst_images bs b b1 b2 -> wf_bytes b2 -> iblock bs vcn k b2 sl.
Proof.
  intros (eo & pre & post & Hb) (_ & _ & _ & _ & Hl2 & Hs) Hw.
  destruct (ib_deprotected Hb b2) as (pre2 & H); [|done|done|by exists eo, pre2, post].
  rewrite Hl2. symmetry. apply Hb.
Qed.

Lemma usa_restore_len n b usa data b' : usa_restore n b usa data = Some b' -> zlen b' = zlen b.
Proof.
  revert b usa data; induction n as [|n IH]; intros b usa data; cbn [usa_restore]; [by intros [= ->]|].
  destruct (le16_to_cpup b (usa + 2)); cbn [mbind option_bind]; [|done].
  destruct (put_le16 b data _) as [b1|] eqn:E; cbn [mbind option_bind]; [|done]. intros ->%IH. by eapply st_zlen.
Qed.

Lemma post_read_len b size b' r : ntfs_mst_post_read_fixup b size = Some (b', r) -> zlen b' = zlen b.
Proof.
  unfold ntfs_mst_post_read_fixup, ntfs_mst_post_read_fixup_warn.
  destruct (rec_usa_ofs b); cbn [mbind option_bind]; [|done]. destruct (rec_usa_count b); cbn [mbind option_bind]; [|done].
  destruct (negb _); [by intros [= -> _]|]. destruct (le16_to_cpup b _); cbn [mbind option_bind]; [|done].
  destruct (usn_match _ _ _ _) as [[]|]; cbn [mbind option_bind negb]; [| |done].
  - destruct (usa_restore _ _ _ _) eqn:E; cbn [mbind option_bind]; [|done]. intros [= -> _]. by eapply usa_restore_len.
  - destruct (put_le32 b 0 _) eqn:E; cbn [mbind option_bind]; [|done]. intros [= -> _]. by eapply st_zlen.
Qed.

Lemma usa_restore_wf n b usa data b' : wf_bytes b -> usa_restore n b usa data = Some b' -> wf_bytes b'.
Proof.
  revert b usa data; induction n as [|n IH]; intros b usa data Hw; cbn [usa_restore]; [by intros [= <-]|].
  destruct (le16_to_cpup b (usa + 2)); cbn [mbind option_bind]; [|done].
  destruct (put_le16 b data _) as [b1|] eqn:E; cbn [mbind option_bind]; [|done]. apply IH. by eapply st_wf.
Qed.

(** A well-formed block is protected without error. *)
Lemma iblock_protect bs vcn k b sl : iblock bs vcn k b sl -> exists b1 b2,
  mst_images bs b b1 b2 /\ wf_bytes b2 /\ iblock bs vcn k b2 sl.
Proof.
  intros Hib. pose proof Hib as (eo & pre & post & Hb). destruct (ib_mst Hb) as (Hblk & ofs & cnt & Ho & Hc & Hv & H40 & Hend).
  pose proof Hb as [Hnode Hhd Hl _]. pose proof (na_wf _ _ _ _ _ _ Hnode) as Hw.
  assert (exists b1, ntfs_mst_pre_write_fixup (Some b) bs = Some (b1, Ok tt)) as (b1 & E1).
  { unfold ntfs_mst_pre_write_fixup. rewrite (ib_magic_ok Hb), Ho, Hc. cbn [mbind option_bind]. rewrite Hv. cbn [negb].
    change ((magic_INDX =? magic_BAAD) || (magic_INDX =? magic_HOLE)) with false. cbn [negb].
    pose proof (valid_bounds b bs ofs cnt Hw Hl Ho Hc Hv) as (? & ? & ? & ? & ?).
    destruct (ld_inside 2 b ofs) as [u Hu]; [lia..|]. unfold le16_to_cpup. rewrite Hu. cbn [mbind option_bind].
    destruct (pre_write_valid b bs ofs cnt Hw Hl Ho Hc Hv u Hu) as (x1 & x2 & -> & E & _). cbn [mbind option_bind].
    change (NTFS_BLOCK_SIZE - 2) with 510. rewrite E. cbn. by exists x2. }
  destruct (mst_block_images bs b b1 Hblk E1) as (b2 & Him). exists b1, b2.
  assert (wf_bytes b2) as Hw2.
  { destruct (pre_write_inv b bs b1 E1 Hw Hl) as (? & ? & ? & _ & _ & _ & _ & P). destruct Him as (_ & Hp & _).
    unfold ntfs_mst_post_write_fixup in Hp. destruct (rec_usa_ofs b1); cbn [mbind option_bind] in Hp; [|done].
    destruct (rec_usa_count b1); cbn [mbind option_bind] in Hp; [|done]. eapply usa_restore_wf; [|exact Hp]. apply P. }
  split_and!; [done | done | by eapply iblock_images].
Qed.

Section io.
Context {R A : Type} `{!AttrOps A, !AttrResize A, !RootOps R A, !AttrLaws A, !AttrReliable A, !AttrGrowLaws A}.
Context (bs vb q : Z) (G : geometry bs vb q).
Implicit Types (ni : inode R A) (x : context) (na : A).
#[local] Set Default Proof Using "All".

Lemma block_pos x i : sized x bs vb -> block_number i ->
  ntfs_ib_vcn_to_pos x (i * q) = i * bs /\ 0 <= i * bs < 2 ^ 51 /\ Z.shiftl (i * q) vb = i * bs.
Proof using G.
  intros [_ Hv] Hi. unfold ntfs_ib_vcn_to_pos. rewrite Hv. destruct G as [E Hvb Hq _ Hr]. unfold block_number in Hi.
  rewrite Z.shiftl_mul_pow2 by lia. rewrite <-Z.mul_assoc, <-E. assert (0 <= i * bs < 2 ^ 51) by nia.
  split_and!; [|lia|lia|done]. apply s64_small. unfold in_s64. lia.
Qed.

Lemma ib_read_fetch ni x na i b : sized x bs vb -> ia ni = Some na -> block_number i ->
  fetch bs vb (attr_data na) (i * q) = Some b ->
  exists na', ntfs_ib_read ni x (i * q) = Some (Inode (root ni) (Some na') (bm ni), Ok b) /\ attr_data na' = attr_data na.
Proof.
  intros Hx Hna Hi Hf. destruct (block_pos x i Hx Hi) as (Hp & Hr & Hsh). pose proof Hx as [Hbs Hvb].
  unfold fetch in Hf. rewrite Hsh in Hf. pose proof G as [_ _ _ Hsec Hrange].
  destruct (zread (attr_data na) (i * bs) bs) as [raw|] eqn:Er; cbn [mbind option_bind] in Hf; [|done].
  destruct (ntfs_mst_post_read_fixup raw bs) as [[b' r]|] eqn:Ef; cbn [mbind option_bind fst] in Hf; [|done].
  destruct (ntfs_ia_check _ _ _) as [[]|] eqn:Ec; cbn [mbind option_bind] in Hf; [|done|done]. injection Hf as ->.
  pose proof (zread_Some _ _ _ _ Er) as (Ha & _ & Hb & Hl & _).
  destruct (attr_pread_full na (i * bs) bs) as (na' & got & Ep & Hg); [lia | lia | lia |].
  destruct (attr_pread_law _ _ _ _ _ Ha (ltac:(lia) : 0 <= bs) Ep) as [Hd [_ Hh]].
  pose proof (holds_zread _ _ _ Hh Ha) as Hz. rewrite Hg, Er in Hz. specialize (Hz Hb). injection Hz as <-.
  exists na'. split; [|done]. unfold ntfs_ib_read. rewrite Hna, Hp, Hbs. unfold ntfs_attr_mst_pread. change NTFS_BLOCK_SIZE with 512. rewrite Z.mul_1_l, Hsec.
  cbn [Z.ltb Z.compare Z.eqb negb orb]. rewrite s64_small by (unfold in_s64; lia). rewrite Ep, Hl.
  rewrite (proj2 (Z.leb_gt bs 0)), (proj2 (Z.eqb_neq bs 0)), Z.div_same by lia. change (Z.to_nat 1) with 1%nat. cbn [post_read_blocks].
  pose proof (on_block_spec [] raw [] 0 bs (fun blk => ntfs_mst_post_read_fixup blk bs) b r) as Eb. cbn [app] in Eb.
  rewrite !app_nil_r in Eb. rewrite Eb; [|done|done|done|].
  - cbn [mbind option_bind fst]. change (ntfs_ia_check x b (i * q)) with (ntfs_ia_check (check_context (block_size x)) b (i * q)).
    rewrite Hbs, Ec. done.
  - unfold ntfs_mst_post_read_fixup in Ef. by apply post_read_len in Ef as ->.
Qed.

(** The protected write of one block. *)
Lemma mst_pwrite_block na pos vcn k b sl : iblock bs vcn k b sl -> 0 <= pos -> exists b1 b2 na' r,
  mst_images bs b b1 b2 /\ wf_bytes b2 /\ iblock bs vcn k b2 sl /\ attr_pwrite na pos b1 = (na', r) /\
  ntfs_attr_mst_pwrite na pos 1 bs b = Some (na', b2, match r with Err e => Err e | Ok w => if w <=? 0 then Ok w else Ok (w / bs) end).
Proof.
  intros Hib Hpos. destruct (iblock_protect _ _ _ _ _ Hib) as (b1 & b2 & Him & Hw2 & Hib2). pose proof Him as (E1 & E2 & _ & Hl1 & Hl2 & _).
  pose proof Hib as (eo & pre & post & Hb). pose proof (ib_len _ _ _ _ _ _ _ _ Hb) as Hl. pose proof G as [_ _ _ Hsec Hrange].
  exists b1, b2. destruct (attr_pwrite na pos b1) as [na' r] eqn:Ep. exists na', r. split_and!; try done.
  unfold ntfs_attr_mst_pwrite. change NTFS_BLOCK_SIZE with 512. rewrite Hsec. cbn [Z.ltb Z.compare Z.eqb negb orb].
  change (Z.to_nat 1) with 1%nat. cbn [pre_write_blocks post_write_blocks].
  pose proof (on_block_spec [] b [] 0 bs (fun blk => ntfs_mst_pre_write_fixup (Some blk) bs) b1 (Ok tt)) as Eb.
  pose proof (on_block_spec [] b1 [] 0 bs (fun blk => b ← ntfs_mst_post_write_fixup blk; Some (b, tt)) b2 tt) as Eb2.
  cbn [app] in Eb, Eb2. rewrite !app_nil_r in Eb, Eb2. rewrite Eb by done. cbn [mbind option_bind fst snd].
  rewrite Z.mul_1_l, s64_small by (unfold in_s64; lia). rewrite <-Hl1 at 1. rewrite zread_all. cbn [mbind option_bind]. rewrite Ep.
  change (Z.to_nat (0 + 1)) with 1%nat. cbn [post_write_blocks]. rewrite Eb2; [|done|done|by rewrite E2|done].
  cbn [mbind option_bind fst]. destruct r as [w|e]; [|done]. destruct (w <=? 0); [done|]. by rewrite (proj2 (Z.eqb_neq bs 0)) by lia.
Qed.

(** A block that is not at the same place is fetched as before. *)
Lemma fetch_other data data' i j b c : fetch bs vb data (j * q) = Some c -> block_number i -> block_number j -> i <> j ->
  zlen data <= zlen data' -> zlen b = bs ->
  (forall p, 0 <= p < zlen data -> data'.[p] = data.[p] \/ i * bs <= p < i * bs + zlen b /\ data'.[p] = b.[p - i * bs]) ->
  fetch bs vb data' (j * q) = Some c.
Proof using G.
  intros Hf Hi Hj Hij Hl Hb Hs. unfold fetch in *.
  destruct (block_pos (set_sizes ntfs_index_ctx_get bs vb None) j) as (_ & Hr & Hsh); [done | done |].
  rewrite Hsh in *. destruct (zread data (j * bs) bs) as [raw|] eqn:Er; cbn [mbind option_bind] in Hf; [|done].
  pose proof (zread_Some _ _ _ _ Er) as (_ & _ & Hend & _).
  rewrite (zread_eq data' data), Er; [exact Hf | lia | lia | lia |].
  intros p Hp. destruct (Hs p) as [E|[Hin _]]; [lia | done |]. pose proof G as [_ _ _ _ Hrange].
  assert (i < j \/ j < i) as [|] by lia; nia.
Qed.

(** Writing a block: a success makes it the block of its VCN. *)
Lemma ib_write_fetch ni x na i k b sl : sized x bs vb -> ia_na x = true -> ia ni = Some na -> block_number i ->
  iblock bs (i * q) k b sl ->
  exists na' b2 s, ntfs_ib_write ni x b = Some (Inode (root ni) (Some na') (bm ni), b2, s) /\
    (s = STATUS_OK ->
       fetch bs vb (attr_data na') (i * q) = Some b2 /\ iblock bs (i * q) k b2 sl /\
       forall j c, block_number j -> i <> j -> fetch bs vb (attr_data na) (j * q) = Some c ->
         fetch bs vb (attr_data na') (j * q) = Some c).
Proof.
  intros Hx Hop Hna Hi Hib. destruct (block_pos x i Hx Hi) as (Hp & Hr & Hsh). pose proof Hx as [Hbs Hvb]. pose proof G as [_ _ _ _ Hrange].
  destruct (mst_pwrite_block na (i * bs) _ _ _ _ Hib) as (b1 & b2 & na' & r & Him & Hw2 & Hib2 & Ep & E); [lia|].
  pose proof Hib as (eo & pre & post & Hb). unfold ntfs_ib_write. rewrite (ib_vcn_ok Hb), Hna, Hop. cbn [mbind option_bind].
  rewrite Hp, Hbs, E. cbn [mbind option_bind]. eexists na', b2, _. split; [reflexivity|]. intros Hs.
  pose proof Him as (_ & _ & E3 & Hl1 & Hl2 & _). destruct r as [w|e]; [|done].
  assert (w = zlen b1) as ->.
  { pose proof (attr_pwrite_partial na (i * bs) b1 na' w) as Hle. rewrite Hl1 in Hle |- *. specialize (Hle (ltac:(lia)) Ep).
    destruct (Z.leb_spec w 0) as [Hw0|Hw0]; [destruct w; done|].
    assert (w / bs = 1) as H1 by (destruct (w / bs) as [|[]|]; done). pose proof (Z.div_mod w bs (ltac:(lia))) as Hd. rewrite H1 in Hd.
    pose proof (Z.mod_pos_bound w bs). lia. }
  pose proof (attr_pwrite_all _ _ _ _ (ltac:(lia) : 0 <= i * bs) Ep) as Hh.
  destruct (attr_pwrite_any _ _ _ _ _ (ltac:(lia) : 0 <= i * bs) Ep) as [Hgrow Hany].
  split_and!; [|done|].
  - unfold fetch. rewrite Hsh. assert (i * bs + zlen b1 <= zlen (attr_data na')) as Hend.
    { destruct (zget_inside b1 (bs - 1)) as [y Hy]; [lia|]. pose proof (Hh (bs - 1)) as Hy2. rewrite Hl1 in Hy2.
      specialize (Hy2 (ltac:(lia))). rewrite Hy in Hy2. apply zget_bounds in Hy2. lia. }
    pose proof (holds_zread _ _ _ Hh) as Hz. rewrite Hl1 in Hz, Hend. rewrite Hz by lia. cbn [mbind option_bind]. rewrite E3. cbn [mbind option_bind fst].
    rewrite (ia_check_ok bs vb q _ k b2 sl) by done. done.
  - intros j c Hj Hij Hc. by eapply (fetch_other (attr_data na) _ i j b1).
Qed.

(** Writing a block that is there does not fail. *)
Lemma ib_write_inside ni x na i k b sl c ni' b2 s : sized x bs vb -> ia_na x = true -> ia ni = Some na -> block_number i ->
  iblock bs (i * q) k b sl -> fetch bs vb (attr_data na) (i * q) = Some c -> ntfs_ib_write ni x b = Some (ni', b2, s) -> s = STATUS_OK.
Proof.
  intros Hx Hop Hna Hi Hib Hf. destruct (block_pos x i Hx Hi) as (Hp & Hr & Hsh). pose proof Hx as [Hbs Hvb]. pose proof G as [_ _ _ _ Hrange].
  destruct (mst_pwrite_block na (i * bs) _ _ _ _ Hib) as (b1 & b2' & na' & r & (_ & _ & _ & Hl1 & _) & _ & _ & Ep & E); [lia|].
  unfold fetch in Hf. rewrite Hsh in Hf. destruct (zread (attr_data na) (i * bs) bs) eqn:Er; cbn [mbind option_bind] in Hf; [|done].
  apply zread_Some in Er as (_ & _ & Hend & _). destruct (attr_pwrite_full na (i * bs) b1) as [na2 E2]; [lia|lia|].
  rewrite Ep in E2. injection E2 as <- ->. rewrite Hl1, (proj2 (Z.leb_gt bs 0)), Z.div_same in E by lia.
  destruct Hib as (eo & pre & post & Hb). unfold ntfs_ib_write. rewrite (ib_vcn_ok Hb), Hna, Hop. cbn [mbind option_bind].
  rewrite Hp, Hbs, E. cbn [mbind option_bind]. by intros [= _ _ <-].
Qed.
End io.
