(* ===== verification/IndexMake.v ===== *)
(** Index blocks made by the insertion code (libntfs-3g/index.c): empty blocks,
    the tail moved to a new block, the head left in the old one, the root moved
    to a block and made a node. *)

From S2P Require Import Prelude Mst Device AttrIo AttrMst Names Collate Index IndexSpec IndexNode IndexBlock.
Local Open Scope Z_scope.
Local Open Scope c_scope.
Set Default Proof Using "Type*".
#[local] Arguments le_encode : simpl never.

(** ** A new block *)

Lemma st_keep n m a v : 0 <= a -> a + Z.of_nat n <= zlen m -> wf_bytes m ->
  exists m', st n m a v = Some m' /\ wf_bytes m' /\ zlen m' = zlen m /\ frame m m' a (a + Z.of_nat n) /\ holds m' a (le_encode n v).
Proof.
  intros Ha Hb Hw. destruct (st_ok n m a v Ha Hb) as (m' & E & Hm). exists m'. split; [done|]. split; [by eapply st_wf | done].
Qed.

(** The offset of the entries from the header. *)
Definition new_eo (bs : Z) : Z := Z.land (16 + (bs / 512 + 1) * 2 + 7) (Z.lnot 7).

Lemma align8 a : Z.land (a + 7) (Z.lnot 7) = (a + 7) / 8 * 8.
Proof.
  change 7 with (Z.ones 3) at 2. rewrite <-Z.ldiff_land, Z.ldiff_ones_r, Z.shiftl_mul_pow2, Z.shiftr_div_pow2 by lia. done.
Qed.

Lemma new_eo_range bs vb q : geometry bs vb q -> 16 + 2 * (bs / 512 + 1) <= new_eo bs <= 23 + 2 * (bs / 512 + 1) /\ 16 <= new_eo bs <= 300 /\
  24 + new_eo bs + 16 <= bs.
Proof.
  intros [_ _ _ Hm Hr]. unfold new_eo. rewrite align8. pose proof (Z.div_mod bs 512 (ltac:(lia))) as Hd. rewrite Hm in Hd.
  set (s := bs / 512) in *. divlia.
Qed.

(** An empty block: the header is right, nothing is said of the entries. *)
Definition empty_block (bs vcn : Z) (fl : Z) (b : list Z) : Prop :=
  wf_bytes b /\ zlen b = bs /\ entries_offset b 24 = Some (new_eo bs) /\ b.[36] = Some fl /\
  ld 4 b 0 = Some magic_INDX /\ ld 2 b 4 = Some 40 /\ ld 2 b 6 = Some (bs / 512 + 1) /\ ld 8 b 16 = Some vcn /\
  ld 4 b 32 = Some (bs - 24).

Lemma holds_ld_small m n v a : holds m a (le_encode n v) -> 0 <= a -> a + Z.of_nat n <= zlen m -> 0 <= v < 256 ^ Z.of_nat n ->
  ld n m a = Some v.
Proof. intros H Ha Hb Hv. rewrite (holds_ld m n v a H Ha Hb). by rewrite Z.mod_small. Qed.

Lemma alloc_block_ok malloc bs vb q vcn fl : geometry bs vb q -> 0 <= vcn < 2 ^ 63 -> 0 <= fl < 256 ->
  ntfs_ib_alloc malloc vcn bs fl = Some None \/
  exists b, ntfs_ib_alloc malloc vcn bs fl = Some (Some b) /\ empty_block bs vcn fl b.
Proof.
  intros G Hvcn Hfl. pose proof (new_eo_range bs vb q G) as (He & He2 & Heb). pose proof G as [_ _ _ Hsec Hr].
  unfold ntfs_ib_alloc. destruct (malloc bs); [right|by left]. cbn [negb]. unfold u16, u32. change NTFS_BLOCK_SIZE with 512.
  assert (0 <= bs / 512 + 1 < 200) as Hc by divlia. change sizeof_INDEX_BLOCK with 40. change sizeof_INDEX_HEADER with 16.
  change IB_INDEX with 24. rewrite !wrap_u_small by lia. fold (new_eo bs).
  unfold set_entries_offset, set_index_length, set_allocated_size, set_ih_flags, put_le16, put_le32, put_le64. cbv zeta.
  assert (wf_bytes (replicate (Z.to_nat bs) 0)) as W0 by (apply Forall_replicate; unfold is_byte; lia).
  assert (zlen (replicate (Z.to_nat bs) 0) = bs) as L0 by (rewrite zlen_replicate; lia).
  set (m0 := replicate _ 0) in *. clearbody m0.
  destruct (st_keep 4 m0 0 magic_INDX) as (m1 & -> & W1 & L1 & F1 & H1); [lia|lia|done|]. cbn [mbind option_bind].
  destruct (st_keep 2 m1 4 40) as (m2 & -> & W2 & L2 & F2 & H2); [lia|lia|done|]. cbn [mbind option_bind].
  destruct (st_keep 2 m2 6 (bs / 512 + 1)) as (m3 & -> & W3 & L3 & F3 & H3); [lia|lia|done|]. cbn [mbind option_bind].
  destruct (st_keep 2 m3 40 1) as (m4 & -> & W4 & L4 & F4 & _); [lia|lia|done|]. cbn [mbind option_bind].
  destruct (st_keep 8 m4 8 0) as (m5 & -> & W5 & L5 & F5 & _); [lia|lia|done|]. cbn [mbind option_bind].
  destruct (st_keep 8 m5 16 vcn) as (m6 & -> & W6 & L6 & F6 & H6); [lia|lia|done|]. cbn [mbind option_bind].
  destruct (st_keep 4 m6 24 (new_eo bs)) as (m7 & -> & W7 & L7 & F7 & H7); [lia|lia|done|]. cbn [mbind option_bind].
  destruct (st_keep 4 m7 (24 + 4) 0) as (m8 & -> & W8 & L8 & F8 & _); [lia|lia|done|]. cbn [mbind option_bind].
  destruct (st_keep 4 m8 (24 + 8) (bs - (40 - 16))) as (m9 & -> & W9 & L9 & F9 & H9); [lia|lia|done|]. cbn [mbind option_bind].
  destruct (zset_ok m9 (24 + 12) fl) as (m10 & E10 & L10 & F10 & H10); [lia|]. rewrite E10. cbn [mbind option_bind].
  exists m10. split; [done|]. split_and!.
  - apply zset_Some in E10 as (_ & _ & Hg). eapply (zget_Forall_2 is_byte). intros i y Hy. rewrite Hg in Hy.
    destruct (i =? _); [injection Hy as <-; unfold is_byte; lia | by eapply zget_Forall].
  - lia.
  - unfold entries_offset, le32_to_cpup. apply holds_ld_small; [carry | lia | lia |]. change (256 ^ Z.of_nat 4) with (2 ^ 32). lia.
  - pose proof (H10 0) as Hx. change (zlen [fl]) with 1 in Hx. rewrite Z.add_0_r in Hx. apply Hx. lia.
  - apply holds_ld_small; [carry | lia | lia | done].
  - apply holds_ld_small; [carry | lia | lia | done].
  - apply holds_ld_small; [carry | lia | lia |]. change (256 ^ Z.of_nat 2) with 65536. lia.
  - apply holds_ld_small; [carry | lia | lia |]. change (256 ^ Z.of_nat 8) with (2 ^ 64). lia.
  - apply holds_ld_small; [carry | lia | lia |]. change (256 ^ Z.of_nat 4) with (2 ^ 32). lia.
Qed.

Lemma empty_block_frame bs vcn fl b b' lo hi : empty_block bs vcn fl b -> frame b b' lo hi -> 40 <= lo -> 40 <= bs -> wf_bytes b' ->
  empty_block bs vcn fl b'.
Proof.
  intros (W & L & He & Hf & H1 & H2 & H3 & H4 & H5) [FL F] Hlo Hbs W'. unfold empty_block.
  assert (forall n a, 0 <= a -> a + Z.of_nat n <= 40 -> ld n b' a = ld n b a) as Hld.
  { intros n a Ha Hn. apply ld_eq; try lia. intros j Hj. apply F. lia. }
  unfold entries_offset, le32_to_cpup in *. rewrite !Hld by lia. rewrite F by lia. split_and!; done || lia.
Qed.

(** An entry list put in an empty block. *)
Lemma finish_block bs vb q vcn fl k b sl : geometry bs vb q -> empty_block bs vcn fl b -> 0 <= vcn < 2 ^ 63 ->
  Z.land fl 1 = Z.b2z k -> wf_slots sl -> uniform k sl -> new_eo bs + zlen (enc_slots sl) <= bs - 24 ->
  holds b (24 + new_eo bs) (enc_slots sl) ->
  exists b', set_index_length b 24 (new_eo bs + zlen (enc_slots sl)) = Some b' /\ iblock bs vcn k b' sl.
Proof.
  intros G (W & L & He & Hf & H1 & H2 & H3 & H4 & H5) Hvcn Hk Hsl Hun Hfit Hh.
  pose proof (new_eo_range bs vb q G) as (Hr1 & Hr2 & Hr3). pose proof (ge_range _ _ _ G) as Hbs. pose proof (zlen_nonneg (enc_slots sl)) as Hn.
  set (e := new_eo bs) in *. set (pre := take (Z.to_nat (24 + e)) b).
  set (post := drop (Z.to_nat (24 + e + zlen (enc_slots sl))) b).
  assert (zlen pre = 24 + e) as Hpre by (unfold pre, zlen in *; rewrite length_take; lia).
  assert (b = pre ++ enc_slots sl ++ post) as E.
  { pose proof (holds_zread _ _ _ Hh (ltac:(lia))) as Hz. specialize (Hz (ltac:(lia))). rewrite zread_inside in Hz by lia.
    injection Hz as Hz. rewrite <-Hz. unfold pre, post.
    replace (Z.to_nat (24 + e + zlen (enc_slots sl))) with (Z.to_nat (24 + e) + Z.to_nat (zlen (enc_slots sl)))%nat by lia.
    by rewrite <-drop_drop, take_drop, take_drop. }
  assert (wf_bytes pre) as Wp by (by apply Forall_take).
  destruct (relength_ok 24 e pre (enc_slots sl ++ post) (e + zlen (enc_slots sl))) as (pre' & Es & Hrl); [lia|lia|done|done|lia|].
  assert (forall n a, 0 <= a -> a + Z.of_nat n <= 40 -> ld n b a = ld n pre a) as Hld
    by (intros n a Ha Hna; rewrite E at 1; apply ld_prefix; lia).
  rewrite <-E in Es. eexists. split; [exact Es|]. exists e, pre', post. pose proof Hrl as [Hl' Hs' Hw' Hi'].
  assert (header bs vcn k pre e) as Hhd.
  { unfold entries_offset, le32_to_cpup in He. rewrite Hld in H1, H2, H3, H4, H5 by lia.
    split; [split_and!; [done | lia | done] | done | | done | done | | fold e in Hr1; clear -Hr1 Hbs; divlia].
    - exists 40, (bs / 512 + 1). split_and!; try done; try lia. unfold is_valid_record. change NTFS_BLOCK_SIZE with 512.
      rewrite (ge_sectors _ _ _ G). pose proof (ge_sectors _ _ _ G) as Hm. pose proof (Z.div_mod bs 512 (ltac:(lia))).
      rewrite (proj2 (Z.eqb_eq (bs / 512 + 1) (1 + bs / 512))) by lia. cbn. apply Z.leb_le. divlia.
    - exists fl. split; [|done]. by rewrite <-Hf, E, zget_app_l by lia. }
  split; [|by eapply header_relength | rewrite !zlen_app, Hl'; rewrite E, !zlen_app in L; lia | done].
  split; try done; try lia.
  - unfold entries_offset, le32_to_cpup in *. rewrite <-He, E. apply (relength_field 4 24 e pre pre' _ _ _ 24 Hrl); lia.
  - unfold index_length, le32_to_cpup. rewrite ld_prefix by lia. done.
  - apply Forall_app. split; [done|]. apply Forall_app. split; [by apply wf_enc_all | by apply Forall_drop].
Qed.

(** ** The two halves of a block *)

Lemma uniform_app k a b : uniform k (a ++ b) <-> uniform k a /\ uniform k b.
Proof. apply Forall_app. Qed.

Lemma uniform_cons k (s : slot) sl : uniform k (s :: sl) <-> bool_decide (is_Some s.2) = k /\ uniform k sl.
Proof. unfold uniform. by rewrite Forall_cons. Qed.

(** In a uniform node the flag of any slot tells of all children. *)
Lemma uniform_child k (s z : slot) : bool_decide (is_Some s.2) = k -> bool_decide (is_Some z.2) = k ->
  match z.2 with Some _ => exists v, s.2 = Some v | None => s.2 = None end.
Proof.
  destruct k.
  - intros [v Hv]%bool_decide_eq_true [w Hw]%bool_decide_eq_true. rewrite Hw. by exists v.
  - intros H1%bool_decide_eq_false H2%bool_decide_eq_false. apply eq_None_not_Some in H1, H2. by rewrite H2.
Qed.

(** The end of the block with the child the median had. *)
Definition cut_end (s z : slot) : slot := (z.1, s.2).

Section halves.
Context {bs vcn : Z} {k : bool} {b : list Z} {s1 : list slot} {s : slot} {t : list slot} {z : slot} {eo : Z} {pre post : list Z}.
Hypothesis Hb : iblock_parts bs vcn k b (s1 ++ s :: t ++ [z]) eo pre post.
#[local] Set Default Proof Using "Hb".

Lemma halves_wf : Forall (wf_slot false) s1 /\ wf_slot false s /\ Forall (wf_slot false) t /\ wf_slot true z /\
  uniform k s1 /\ bool_decide (is_Some s.2) = k /\ uniform k t /\ bool_decide (is_Some z.2) = k.
Proof.
  pose proof Hb as [Hn _ _ Hu]. pose proof (na_slots _ _ _ _ _ _ Hn) as Hw. apply wf_slots_split in Hw as (H1 & H2 & H3); [|by destruct t].
  apply wf_slots_app in H3 as [H3 H4]; [|done]. apply wf_slots_1 in H4.
  apply uniform_app in Hu as [U1 U2]. apply uniform_cons in U2 as [U2 U3]. apply uniform_app in U3 as [U3 U4]. apply uniform_cons in U4 as [U4 _].
  done.
Qed.

(** The last entry takes the child of the median. *)
Lemma cut_last : exists b1,
  (fl ← ie_flags b (zlen pre + zlen (enc_slots (s1 ++ s :: t)));
   if flag fl INDEX_ENTRY_NODE
   then vcn ← ntfs_ie_get_vcn b (zlen pre + zlen (enc_slots s1)); ntfs_ie_set_vcn b (zlen pre + zlen (enc_slots (s1 ++ s :: t))) vcn
   else Some b) = Some b1 /\ node_at b1 24 eo pre (s1 ++ s :: t ++ [cut_end s z]) post /\ zlen b1 = zlen b.
Proof.
  destruct halves_wf as (W1 & Ws & Wt & Wz & U1 & Us & Ut & Uz). pose proof (uniform_child k s z Us Uz) as Hc.
  pose proof Hb as [Hn Hhd Hl Hu].
  assert (s1 ++ s :: t ++ [z] = (s1 ++ s :: t) ++ [z]) as Es by (by rewrite <-app_assoc).
  pose proof (node_slot Hn (s1 ++ s :: t) z [] Es) as Ez.
  assert (ie_flags b (zlen (pre ++ enc_slots (s1 ++ s :: t))) = Some (e_flags z.1 + node_flag z.2)) as Ef
    by (rewrite Ez; by apply (field_flags true)).
  rewrite <-zlen_app, Ef. cbn [mbind option_bind]. rewrite (flag_node true z Wz). clear Ef Ez. destruct z as [ze [vz|]]; cbn [fst snd] in *.
  - destruct Hc as [vs Hvs]. pose proof (node_slot Hn s1 s (t ++ [(ze, Some vz)]) eq_refl) as Em.
    assert (ntfs_ie_get_vcn b (zlen pre + zlen (enc_slots s1)) = Some vs) as Ev
      by (rewrite Em, <-zlen_app; by apply (field_vcn false s)).
    rewrite Ev. cbn [mbind option_bind]. destruct Ws as [_ Wc']. rewrite Hvs in Wc'. cbn in Wc'.
    destruct (node_set_vcn b 24 eo pre (s1 ++ s :: t) ze vz vs [] post) as (b1 & E & Hn1 & Hl1); [by rewrite <-app_assoc | done |].
    exists b1. rewrite zlen_app, E. unfold cut_end. cbn [fst]. rewrite Hvs. split_and!; [done | | done].
    by rewrite <-app_assoc in Hn1.
  - exists b. unfold cut_end. cbn [fst]. by rewrite Hc.
Qed.

Lemma cut_tail_bytes : exists b' pre' post', cut_tail_block b (zlen pre + zlen (enc_slots s1)) = Some b' /\
  iblock_parts bs vcn k b' (s1 ++ [cut_end s z]) eo pre' post'.
Proof.
  destruct halves_wf as (W1 & Ws & Wt & Wz & U1 & Us & Ut & Uz). destruct cut_last as (b1 & E1 & Hn1 & Hl1).
  pose proof Hb as [Hn Hhd Hl Hu]. unfold cut_tail_block. change IB_INDEX with 24.
  rewrite (node_first Hn), (node_end Hn). cbn [mbind option_bind].
  assert (s1 ++ s :: t ++ [z] = (s1 ++ s :: t) ++ [z]) as Es by (by rewrite <-app_assoc).
  rewrite (node_last Hn _ _ Es). cbn [mbind option_bind].
  assert (wf_slot true (cut_end s z)) as Wc by (destruct Wz as [Wz _]; destruct Ws as [_ Ws']; by split).
  pose proof (enc_len_range true _ Wc) as [Hlr Hlc].
  destruct (ie_flags b _) as [fl|]; cbn [mbind option_bind] in E1 |- *; [|done]. rewrite E1. cbn [mbind option_bind].
  (* the bytes around the median *)
  set (a := pre ++ enc_slots s1) in *. set (x := enc s ++ enc_slots t). set (e := enc (cut_end s z)) in *.
  assert (b1 = a ++ x ++ e ++ post) as Eb.
  { rewrite (na_eq _ _ _ _ _ _ Hn1). unfold a, x, e. by rewrite !enc_slots_app, enc_slots_cons, !enc_slots_app, enc_slots_1, <-!app_assoc. }
  assert (zlen pre + zlen (enc_slots s1) = zlen a) as Ea by (unfold a; by rewrite zlen_app).
  assert (zlen pre + zlen (enc_slots (s1 ++ s :: t)) = zlen (a ++ x)) as Eax
    by (unfold a, x; rewrite enc_slots_app, enc_slots_cons, !zlen_app; lia).
  rewrite Ea, Eax. assert (ie_length b1 (zlen (a ++ x)) = Some (zlen e)) as El.
  { rewrite Eb, app_assoc. rewrite (field_length true (cut_end s z)) by done. by rewrite <-Hlc. }
  rewrite El. cbn [mbind option_bind]. unfold memmove. rewrite Eb, app_assoc, zread_mid by done. cbn [mbind option_bind].
  rewrite <-app_assoc. pose proof (zlen_nonneg x) as Hx.
  rewrite (app_assoc x), <-(take_drop (length e) (x ++ e)), <-(app_assoc (take _ _)).
  assert (zlen (take (length e) (x ++ e)) = zlen e) as Ht by (unfold zlen; rewrite length_take, length_app; lia).
  rewrite zwrite_mid by done. cbn [mbind option_bind]. set (y := drop (length e) (x ++ e)).
  rewrite (field_length true (cut_end s z)) by done. cbn [mbind option_bind].
  (* the header *)
  pose proof (node_wf_parts _ _ _ _ _ _ Hn1) as (Wpre & Wpost & Hmax). pose proof Hn1 as [_ _ Heo Hp Hent _ _ _].
  set (sl' := s1 ++ [cut_end s z]). assert (enc_slots sl' = enc_slots s1 ++ e) as Esl by (unfold sl'; by rewrite enc_slots_app, enc_slots_1).
  assert (zlen (enc_slots sl') <= zlen (enc_slots (s1 ++ s :: t ++ [cut_end s z]))) as Hle.
  { rewrite Esl, !enc_slots_app, enc_slots_cons, !enc_slots_app, enc_slots_1, !zlen_app. unfold e. pose proof (zlen_nonneg (enc s)).
    pose proof (zlen_nonneg (enc_slots t)). lia. }
  pose proof (zlen_nonneg (enc_slots sl')). assert (a ++ e ++ y ++ post = pre ++ enc_slots sl' ++ y ++ post) as ->
    by (unfold a; by rewrite Esl, <-!app_assoc).
  assert (entries_offset (pre ++ enc_slots sl' ++ y ++ post) 24 = Some eo) as ->.
  { rewrite <-Hent, (na_eq _ _ _ _ _ _ Hn1). unfold entries_offset, le32_to_cpup. by rewrite !ld_prefix by lia. }
  cbn [mbind option_bind].
  replace (zlen a - zlen pre + enc_len (cut_end s z) + eo) with (eo + zlen (enc_slots sl'))
    by (rewrite Esl, zlen_app; unfold e in *; lia).
  unfold u32. rewrite wrap_u_small by lia.
  destruct (relength_ok 24 eo pre (enc_slots sl' ++ y ++ post) (eo + zlen (enc_slots sl'))) as (pre' & -> & Hrl); [lia|done|done|done|lia|].
  eexists _, pre', (y ++ post). split; [reflexivity|].
  assert (wf_bytes (y ++ post)) as Wy.
  { apply Forall_app. split; [|done]. apply Forall_drop, Forall_app. split; [|by eapply wf_enc].
    apply Forall_app. split; [by eapply wf_enc | by apply wf_enc_slots]. }
  split.
  - eapply (node_at_relength b1); [done | done | apply wf_slots_app; [done|]; split; [done | by apply wf_slots_1] | done].
  - by eapply header_relength.
  - rewrite <-Hl, <-Hl1, Eb. pose proof (rl_len _ _ _ _ _ Hrl). unfold a, y. rewrite Esl, !zlen_app. unfold zlen in *.
    rewrite length_drop, length_app. lia.
  - apply uniform_app. split; [done|]. apply uniform_cons. split; [done | constructor].
Qed.
End halves.

(** Block [i] is now [b], the others are as before. *)
Definition wrote (bs vb q : Z) (data data' : list Z) (i : Z) (b : list Z) : Prop :=
  fetch bs vb data' (i * q) = Some b /\
  forall j c, block_number j -> i <> j -> fetch bs vb data (j * q) = Some c -> fetch bs vb data' (j * q) = Some c.

Lemma vcn_range bs vb q i : geometry bs vb q -> block_number i -> 0 <= i * q < 2 ^ 63.
Proof.
  intros [E Hv Hq _ Hr] Hi. unfold block_number in Hi. assert (1 <= 2 ^ vb) by (apply (Z.pow_le_mono_r 2 0); lia). nia.
Qed.

Lemma land1_range fl : 0 <= Z.land fl 1 < 256.
Proof. rewrite (land_ones' fl 1 1) by lia. change (2 ^ 1) with 2. divlia. Qed.

Section io.
Context {R A : Type} `{!AttrOps A, !AttrResize A, !RootOps R A, !AttrLaws A, !AttrReliable A, !AttrGrowLaws A}.
Context (bs vb q : Z) (G : geometry bs vb q) (malloc : Z -> bool).
Implicit Types (ni : inode R A) (x : context) (na : A).
#[local] Set Default Proof Using "All".

(** What is left of an operation that writes a block. *)
Definition write_effect ni na ni' (s : status) (i : Z) (k : bool) (sl : list slot) : Prop :=
  root ni' = root ni /\ bm ni' = bm ni /\ exists na', ia ni' = Some na' /\
    (s = STATUS_OK -> exists b, iblock bs (i * q) k b sl /\ wrote bs vb q (attr_data na) (attr_data na') i b).

Lemma write_block ni x na i k b sl : sized x bs vb -> ia_na x = true -> ia ni = Some na -> block_number i -> iblock bs (i * q) k b sl ->
  exists ni' s, (out ← ntfs_ib_write ni x b; let '(ni, _, s) := out in Some (ni, s)) = Some (ni', s) /\ write_effect ni na ni' s i k sl.
Proof.
  intros Hx Hop Hna Hi Hib. destruct (ib_write_fetch bs vb q G ni x na i k b sl Hx Hop Hna Hi Hib) as (na' & b2 & s & E & H).
  rewrite E. cbn [mbind option_bind]. eexists _, s. split; [reflexivity|]. split_and!; [done | done |].
  exists na'. split; [done|]. intros (H1 & H2 & H3)%H. exists b2. by split.
Qed.

Lemma copy_tail_ok ni x na j vcn k b s1 s t z eo pre post : sized x bs vb -> ia_na x = true -> ia ni = Some na -> block_number j ->
  iblock_parts bs vcn k b (s1 ++ s :: t ++ [z]) eo pre post ->
  exists ni' st, ntfs_ib_copy_tail malloc ni x b (zlen pre + zlen (enc_slots s1)) (j * q) = Some (ni', st) /\
    write_effect ni na ni' st j k (t ++ [z]).
Proof.
  intros Hx Hop Hna Hj Hb. destruct (halves_wf Hb) as (W1 & Ws & Wt & Wz & U1 & Us & Ut & Uz). pose proof Hb as [Hn Hhd Hl _].
  destruct (ib_flags_ok Hb) as (fl & Hfl & Hk). unfold ntfs_ib_copy_tail. change IB_INDEX with 24. rewrite Hfl. cbn [mbind option_bind].
  change NODE_MASK with 1. pose proof Hx as [Hbs _]. rewrite Hbs.
  destruct (alloc_block_ok malloc bs vb q (j * q) (Z.land fl 1) G (vcn_range bs vb q j G Hj) (land1_range fl)) as [E|(b0 & E & Hb0)]; rewrite E;
    cbn [mbind option_bind].
  { eexists ni, _. split; [reflexivity|]. split_and!; [done|done|]. exists na. split; [done|]. done. }
  rewrite (node_end Hn). pose proof (node_slot Hn s1 s (t ++ [z]) eq_refl) as Em.
  assert (ntfs_ie_get_next b (zlen pre + zlen (enc_slots s1)) = Some (zlen pre + zlen (enc_slots s1) + enc_len s)) as ->
    by (rewrite Em, <-zlen_app; by apply (field_next false)).
  cbn [mbind option_bind]. pose proof (enc_len_range false s Ws) as [Hsl Hsl'].
  assert (zlen (enc_slots (s1 ++ s :: t ++ [z])) = zlen (enc_slots s1) + enc_len s + zlen (enc_slots (t ++ [z]))) as Hz
    by (rewrite enc_slots_app, enc_slots_cons, !zlen_app; lia).
  set (sl := t ++ [z]) in *. rewrite Hz. replace (_ - _) with (zlen (enc_slots sl)) by lia.
  assert (zread b (zlen pre + zlen (enc_slots s1) + enc_len s) (zlen (enc_slots sl)) = Some (enc_slots sl)) as ->.
  { rewrite Em, (app_assoc _ (enc s)). apply zread_mid; [rewrite !zlen_app; lia | done]. }
  cbn [mbind option_bind].
  pose proof (new_eo_range bs vb q G) as (Hr1 & Hr2 & Hr3). pose proof (ge_range _ _ _ G) as Hbr.
  assert (new_eo bs + zlen (enc_slots sl) <= bs - 24) as Hfit.
  { pose proof (na_eq _ _ _ _ _ _ Hn) as Eb. assert (zlen b = zlen pre + zlen (enc_slots (s1 ++ s :: sl)) + zlen post) as Hzb
      by (rewrite Eb at 1; rewrite !zlen_app; lia).
    destruct Hhd as [(Hp & _) _ (ofs & cnt & _ & _ & Hv & H40 & Hend) _ _ _].
    pose proof (valid_record_facts _ _ _ Hv) as Hvf. pose proof (zlen_nonneg post). pose proof (zlen_nonneg (enc_slots s1)).
    destruct Hvf as (Hcnt & _). assert (cnt - 1 = bs / 512) by (rewrite Hcnt, Z.mul_comm; by rewrite Z.div_mul by lia). lia. }
  pose proof Hb0 as (W0 & L0 & He0 & _). unfold ntfs_ie_get_first. rewrite He0. cbn [mbind option_bind].
  destruct (write_ok b0 (24 + new_eo bs) (enc_slots sl)) as (b1 & Ew & L1 & F1 & H1); [lia|lia|]. rewrite Ew. cbn [mbind option_bind].
  assert (wf_slots sl) as Wsl by (apply wf_slots_app; [done|]; split; [done | by apply wf_slots_1]).
  assert (wf_bytes b1) as W1' by (eapply wf_zwrite; [exact W0 | by apply wf_enc_all | exact Ew]).
  pose proof (empty_block_frame _ _ _ _ b1 _ _ Hb0 F1 (ltac:(lia)) (ltac:(lia)) W1') as Hb1. pose proof Hb1 as (_ & _ & He1 & _).
  rewrite He1. cbn [mbind option_bind]. pose proof (zlen_nonneg (enc_slots sl)).
  unfold u32. rewrite wrap_u_small by lia. rewrite Z.add_comm.
  destruct (finish_block bs vb q (j * q) (Z.land fl 1) k b1 sl) as (b2 & -> & Hib); try done; [by apply (vcn_range bs vb) | | |].
  { by rewrite <-Z.land_assoc. }
  { apply uniform_app. split; [done|]. apply uniform_cons. split; [done | constructor]. }
  cbn [mbind option_bind]. by apply write_block.
Qed.
End io.
