(* ===== verification/IndexBitmap.v ===== *)
(** The bitmap of the index blocks (libntfs-3g/index.c: ntfs_ibm_modify,
    ntfs_ibm_get_free). *)

From S2P Require Import Prelude Mst Device AttrIo AttrMst Names Collate Index IndexSpec IndexNode IndexBlock IndexMake.
Local Open Scope Z_scope.
Local Open Scope c_scope.
Set Default Proof Using "Type*".

(** Block [i] is in use. *)
Definition bit_set (bmp : list Z) (i : Z) : Prop := exists y, bmp.[i / 8] = Some y /\ Z.testbit y (i mod 8) = true.

(** ** The search for a clear bit *)

Lemma clear_bit_spec n y b : 0 <= b ->
  b <= clear_bit n y b <= b + Z.of_nat n /\ (forall c, b <= c < clear_bit n y b -> Z.testbit y c = true) /\
  (clear_bit n y b < b + Z.of_nat n -> Z.testbit y (clear_bit n y b) = false).
Proof.
  revert b; induction n as [|n IH]; intros b Hb; cbn [clear_bit]; [split_and!; lia|].
  assert (Z.land y (Z.shiftl 1 b) = if Z.testbit y b then 2 ^ b else 0) as ->.
  { rewrite Z.shiftl_1_l. apply Z.bits_inj'. intros c Hc. rewrite Z.land_spec, Z.pow2_bits_eqb by done.
    destruct (Z.eqb_spec b c) as [->|Hne].
    - destruct (Z.testbit y c); [by rewrite Z.pow2_bits_true | by rewrite Z.bits_0].
    - rewrite andb_false_r. destruct (Z.testbit y b); [by rewrite Z.pow2_bits_false | by rewrite Z.bits_0]. }
  destruct (Z.testbit y b) eqn:E.
  - rewrite (proj2 (Z.eqb_neq _ 0)) by (pose proof (Z.pow_pos_nonneg 2 b); lia). destruct (IH (b + 1)) as (H1 & H2 & H3); [lia|].
    split_and!; [lia | lia | | intros; apply H3; lia]. intros c Hc. destruct (Z.eq_dec c b) as [->|]; [done | apply H2; lia].
  - cbn [Z.eqb]. split_and!; [lia | lia | lia | done].
Qed.

Lemma full_byte y : is_byte y -> (forall c, 0 <= c < 8 -> Z.testbit y c = true) -> y = 255.
Proof.
  intros Hy H. apply Z.bits_inj'. intros c Hc. destruct (Z.ltb_spec c 8).
  - rewrite H by lia. change 255 with (Z.ones 8). by rewrite Z.ones_spec_low by lia.
  - change 255 with (Z.ones 8). rewrite Z.ones_spec_high by lia. unfold is_byte in Hy.
    apply (Z.bits_above_log2 y c); [lia|]. destruct (Z.eq_dec y 0) as [->|]; [cbn; lia|]. apply Z.log2_lt_pow2; [lia|].
    pose proof (Z.pow_le_mono_r 2 8 c). lia.
Qed.

Lemma testbit_255 c : 0 <= c < 8 -> Z.testbit 255 c = true.
Proof. intros Hc. change 255 with (Z.ones 8). by apply Z.ones_spec_low. Qed.

(** The bit found is clear and the first one. *)
Lemma first_clear_spec bmp i : wf_bytes bmp -> 0 <= i ->
  let r := first_clear bmp i in
  i * 8 <= r <= (i + zlen bmp) * 8 /\
  (forall y, bmp.[r / 8 - i] = Some y -> Z.testbit y (r mod 8) = false) /\
  (forall c, i * 8 <= c < r -> exists y, bmp.[c / 8 - i] = Some y /\ Z.testbit y (c mod 8) = true).
Proof.
  cbv zeta. revert i; induction bmp as [|b t IH]; intros i Hw Hi; cbn [first_clear].
  - change (zlen (@nil Z)) with 0. split_and!; [lia | lia | | lia]. intros y Hy. apply zget_bounds in Hy.
    change (zlen (@nil Z)) with 0 in Hy. lia.
  - apply Forall_cons in Hw as [Hb Hw]. rewrite zlen_cons. pose proof (zlen_nonneg t). destruct (Z.eqb_spec b 255) as [->|Hne].
    + destruct (IH (i + 1) Hw (ltac:(lia))) as (H1 & H2 & H3). split_and!; [lia | lia | |].
      * intros y Hy. rewrite zget_cons_S in Hy by divlia. apply H2. rewrite <-Hy. f_equal. lia.
      * intros c Hc. destruct (Z.ltb_spec c ((i + 1) * 8)) as [Hlt|Hge].
        -- replace (c / 8 - i) with 0 by divlia. exists 255. rewrite zget_cons_0. split; [done|]. apply testbit_255. divlia.
        -- destruct (H3 c (ltac:(lia))) as (y & Hy & Ht). exists y. rewrite zget_cons_S by divlia.
           split; [|done]. rewrite <-Hy. f_equal. lia.
    + destruct (clear_bit_spec 8 b 0 (ltac:(lia))) as (H1 & H2 & H3). set (r := clear_bit 8 b 0) in *. change (Z.of_nat 8) with 8 in *.
      assert (r < 8) as Hr by (destruct (Z.eq_dec r 8) as [E|]; [|lia]; contradict Hne; apply full_byte; [done|]; intros; apply H2; lia).
      split_and!; [lia | lia | |].
      * intros y Hy. replace ((i * 8 + r) / 8 - i) with 0 in Hy by divlia. rewrite zget_cons_0 in Hy. injection Hy as <-.
        replace ((i * 8 + r) mod 8) with r by divlia. apply H3. lia.
      * intros c Hc. exists b. replace (c / 8 - i) with 0 by divlia. rewrite zget_cons_0. split; [done|]. apply H2. divlia.
Qed.

(** ** Changing a bit *)

Lemma set_bit_byte y n c : is_byte y -> 0 <= n < 8 -> 0 <= c < 8 ->
  Z.testbit (u8 (Z.lor y (u32 (Z.shiftl 1 n)))) c = Z.testbit y c || (c =? n).
Proof.
  intros Hy Hn Hc. unfold u8, u32, wrap_u. rewrite <-Z.land_ones, Z.land_spec, Z.ones_spec_low, andb_true_r by lia.
  rewrite Z.lor_spec. f_equal. rewrite <-Z.land_ones, Z.land_spec, Z.ones_spec_low, andb_true_r by lia.
  rewrite Z.shiftl_1_l, Z.pow2_bits_eqb by lia. by rewrite Z.eqb_sym.
Qed.

Lemma clear_bit_byte y n c : is_byte y -> 0 <= n < 8 -> 0 <= c < 8 ->
  Z.testbit (u8 (Z.land y (Z.lnot (u32 (Z.shiftl 1 n))))) c = Z.testbit y c && negb (c =? n).
Proof.
  intros Hy Hn Hc. unfold u8, u32, wrap_u. rewrite <-Z.land_ones, Z.land_spec, Z.ones_spec_low, andb_true_r by lia.
  rewrite Z.land_spec, Z.lnot_spec by lia. do 2 f_equal. rewrite <-Z.land_ones, Z.land_spec, Z.ones_spec_low, andb_true_r by lia.
  rewrite Z.shiftl_1_l, Z.pow2_bits_eqb by lia. by rewrite Z.eqb_sym.
Qed.

Lemma ibm_bit i : block_number i -> u32 (i / 8) = i / 8 /\ u32 (i / 8 + 1) = i / 8 + 1 /\ 0 <= i / 8 /\ 0 <= i mod 8 < 8.
Proof.
  unfold block_number. intros Hi. assert (0 <= i / 8 < 2 ^ 31) by (change (2 ^ 34) with 17179869184 in Hi; change (2 ^ 31) with 2147483648; divlia).
  unfold u32. rewrite !wrap_u_small by lia. split_and!; try lia; divlia.
Qed.

Lemma same_bit i j : 0 <= i -> 0 <= j -> i / 8 = j / 8 -> i mod 8 = j mod 8 -> i = j.
Proof. intros. rewrite (Z.div_mod i 8), (Z.div_mod j 8) by lia. lia. Qed.

Section io.
Context {R A : Type} `{!AttrOps A, !AttrResize A, !RootOps R A, !AttrLaws A, !AttrReliable A, !AttrGrowLaws A}.
Context (bs vb q : Z) (G : geometry bs vb q) (malloc : Z -> bool).
Implicit Types (ni : inode R A) (x : context) (na : A).
#[local] Set Default Proof Using "All".

(** Only the bitmap of the inode changes. *)
Definition only_bm ni ni' : Prop := root ni' = root ni /\ ia ni' = ia ni.

Lemma ibm_pos x i : sized x bs vb -> block_number i -> ntfs_ibm_vcn_to_pos x (i * q) = i /\ ntfs_ibm_pos_to_vcn x i = i * q.
Proof using G.
  intros Hx Hi. destruct (block_pos bs vb q G x i Hx Hi) as (Hp & Hr & _). destruct Hx as [Hbs Hvb]. pose proof G as [E Hv Hq _ Hrange].
  unfold ntfs_ibm_vcn_to_pos, ntfs_ibm_pos_to_vcn, ntfs_ib_pos_to_vcn. rewrite Hp, Hbs, Hvb. split; [apply Z.div_mul; lia|].
  rewrite s64_small by (unfold in_s64; lia). rewrite Z.shiftr_div_pow2 by lia. rewrite E at 1. rewrite Z.mul_assoc.
  apply Z.div_mul. apply Z.pow_nonzero; lia.
Qed.

(** One byte changed: whatever the result, the other bytes keep their values and
    that one is as it was or as it should be; after a success it is the latter. *)
Lemma modify_byte_spec ni na p f : 0 <= p -> exists ni' s na', modify_byte ni na p f = Some (ni', s) /\ only_bm ni ni' /\ bm ni' = Some na' /\
  (zlen (attr_data na') = zlen (attr_data na) /\ (wf_bytes (attr_data na) -> (forall y, is_byte (f y)) -> wf_bytes (attr_data na'))) /\
  (forall j, 0 <= j < zlen (attr_data na) -> j <> p -> (attr_data na').[j] = (attr_data na).[j]) /\
  (forall y, (attr_data na).[p] = Some y ->
     ((attr_data na').[p] = Some y \/ (attr_data na').[p] = Some (f y)) /\ (s = STATUS_OK -> (attr_data na').[p] = Some (f y))) /\
  (s = STATUS_OK -> exists y, (attr_data na).[p] = Some y).
Proof.
  intros Hp. unfold modify_byte. destruct (attr_pread na p 1) as [na1 r] eqn:E1.
  destruct (attr_pread_law na p 1 na1 r Hp ltac:(lia) E1) as [Hd Hr].
  assert (forall s, s <> STATUS_OK -> exists ni' s0 na', Some (set_bm ni na1, s) = Some (ni', s0) /\ only_bm ni ni' /\ bm ni' = Some na' /\
    (zlen (attr_data na') = zlen (attr_data na) /\ (wf_bytes (attr_data na) -> (forall y, is_byte (f y)) -> wf_bytes (attr_data na'))) /\
    (forall j, 0 <= j < zlen (attr_data na) -> j <> p -> (attr_data na').[j] = (attr_data na).[j]) /\
    (forall y, (attr_data na).[p] = Some y ->
       ((attr_data na').[p] = Some y \/ (attr_data na').[p] = Some (f y)) /\ (s0 = STATUS_OK -> (attr_data na').[p] = Some (f y))) /\
    (s0 = STATUS_OK -> exists y, (attr_data na).[p] = Some y)) as Hfail.
  { intros s Hs. exists (set_bm ni na1), s, na1. rewrite Hd. split_and!; try done. intros y Hy. split; [by left | done]. }
  destruct r as [[|y [|]]|e]; try by apply Hfail. clear Hfail. destruct Hr as [_ Hh].
  assert ((attr_data na).[p] = Some y) as Hy by (specialize (Hh 0); rewrite Z.add_0_r in Hh; apply Hh; rewrite zlen_cons; pose proof (zlen_nonneg (@nil Z)); lia).
  destruct (attr_pwrite na1 p [f y]) as [na2 r] eqn:E2.
  destruct (attr_pwrite_any na1 p [f y] na2 r Hp E2) as [Hl Hany]. rewrite Hd in *. change (zlen [f y]) with 1 in Hany.
  pose proof (zget_bounds _ _ _ Hy) as Hb.
  assert (zlen (attr_data na2) = zlen (attr_data na)) as Hz.
  { pose proof (attr_pwrite_law na1 p [f y] na2 r Hp) as Hlaw. rewrite Hd in Hlaw. change (zlen [f y]) with 1 in Hlaw.
    specialize (Hlaw (ltac:(lia)) E2). destruct r; [|done]. destruct Hlaw as [_ (_ & _ & Hlaw & _)%zwrite_Some]. done. }
  exists (set_bm ni na2), (match r with Ok 1 => STATUS_OK | _ => STATUS_ERROR EIO end), na2. split_and!; try done.
  - intros Hw Hf. eapply (zget_Forall_2 is_byte). intros j v Hv. pose proof (zget_bounds _ _ _ Hv). destruct (Hany j (ltac:(lia))) as [E|[Hj E]].
    + rewrite E in Hv. by eapply zget_Forall.
    + assert (j = p) as -> by lia. rewrite E, Z.sub_diag, zget_cons_0 in Hv. injection Hv as <-. apply Hf.
  - intros j Hj Hne. destruct (Hany j Hj) as [|[? _]]; [done | lia].
  - intros y' Hy'. rewrite Hy in Hy'. injection Hy' as <-. split.
    + destruct (Hany p Hb) as [->|[_ ->]]; [by left | right; by rewrite Z.sub_diag, zget_cons_0].
    + destruct r as [[|[]|]|]; try done. intros _. pose proof (attr_pwrite_all na1 p [f y] na2 Hp E2 0) as Hw.
      rewrite Z.add_0_r in Hw. apply Hw. change (zlen [f y]) with 1. lia.
  - intros _. by exists y.
Qed.

(** Clearing a bit never clears another, even when it fails. *)
Lemma ibm_clear_spec ni x na i : sized x bs vb -> block_number i -> bm ni = Some na -> wf_bytes (attr_data na) ->
  exists ni' s na', ntfs_ibm_clear ni x (i * q) = Some (ni', s) /\ only_bm ni ni' /\ bm ni' = Some na' /\
    wf_bytes (attr_data na') /\ zlen (attr_data na') = zlen (attr_data na) /\
    forall j, 0 <= j -> j <> i -> bit_set (attr_data na) j -> bit_set (attr_data na') j.
Proof.
  intros Hx Hi Hbm Hw. destruct (ibm_pos x i Hx Hi) as [Hp _]. destruct (ibm_bit i Hi) as (H1 & _ & H0 & Hm).
  unfold ntfs_ibm_clear, ntfs_ibm_modify. rewrite Hp, Hbm, H1. cbn [andb].
  destruct (modify_byte_spec ni na (i / 8) (fun byte => u8 (Z.land byte (Z.lnot (u32 (Z.shiftl 1 (i mod 8))))))) as
    (ni' & s & na' & -> & Ho & Hb & [Hl Hwf] & Hj & Hy & _); [lia|].
  exists ni', s, na'. split_and!; try done; [apply Hwf; [done | intros y; apply (wrap_u_range 8); lia]|]. intros j Hj0 Hne (y & Hget & Ht). pose proof (zget_bounds _ _ _ Hget).
  destruct (Z.eq_dec (j / 8) (i / 8)) as [E|E]; [|exists y; rewrite Hj by lia; done].
  rewrite E in Hget. pose proof (zget_Forall _ _ _ _ Hw Hget) as Hbyte.
  destruct (Hy y Hget) as [[Hn|Hn] _]; unfold bit_set; rewrite E, Hn; eexists; (split; [done|]); [done|].
  rewrite clear_bit_byte by (done || divlia). rewrite Ht. cbn. apply negb_true_iff, Z.eqb_neq. intros Em.
  apply Hne, same_bit; destruct Hi; lia.
Qed.

(** Setting a bit, in a bitmap that reaches it or ends just before it. *)
Lemma ibm_set_spec ni x na i : sized x bs vb -> block_number i -> bm ni = Some na -> wf_bytes (attr_data na) -> i / 8 <= zlen (attr_data na) ->
  exists ni' s na', ntfs_ibm_set ni x (i * q) = Some (ni', s) /\ only_bm ni ni' /\ bm ni' = Some na' /\
    (s = STATUS_OK -> wf_bytes (attr_data na') /\ zlen (attr_data na') <= zlen (attr_data na) + 8 /\ bit_set (attr_data na') i /\ forall j, 0 <= j -> bit_set (attr_data na) j -> bit_set (attr_data na') j).
Proof.
  intros Hx Hi Hbm Hw Hlen. destruct (ibm_pos x i Hx Hi) as [Hp _]. destruct (ibm_bit i Hi) as (H1 & H1' & H0 & Hm).
  unfold ntfs_ibm_set, ntfs_ibm_modify. rewrite Hp, Hbm, H1, H1'. cbn [andb].
  set (f := fun byte => u8 (Z.lor byte (u32 (Z.shiftl 1 (i mod 8))))).
  assert (forall na1, wf_bytes (attr_data na1) -> zlen (attr_data na1) <= zlen (attr_data na) + 8 -> (forall j, 0 <= j -> bit_set (attr_data na) j -> bit_set (attr_data na1) j) ->
    exists ni' s na', modify_byte ni na1 (i / 8) f = Some (ni', s) /\ only_bm ni ni' /\ bm ni' = Some na' /\
      (s = STATUS_OK -> wf_bytes (attr_data na') /\ zlen (attr_data na') <= zlen (attr_data na) + 8 /\ bit_set (attr_data na') i /\ forall j, 0 <= j -> bit_set (attr_data na) j -> bit_set (attr_data na') j)) as Hmod.
  { intros na1 Hw1 Hz1 Hk1. destruct (modify_byte_spec ni na1 (i / 8) f H0) as (ni' & s & na' & -> & Ho & Hb & [Hl Hwf] & Hj & Hy & Hok).
    exists ni', s, na'. split_and!; try done. intros Hs. destruct (Hok Hs) as [y Hget]. destruct (Hy y Hget) as [_ Hn]. specialize (Hn Hs).
    pose proof (zget_Forall _ _ _ _ Hw1 Hget) as Hbyte. split_and!; [apply Hwf; [done | intros y'; apply (wrap_u_range 8); lia] | lia | |].
    - exists (f y). split; [done|]. unfold f. rewrite set_bit_byte by (done || lia). by rewrite Z.eqb_refl, orb_true_r.
    - intros j Hj0 Hset. destruct (Hk1 j Hj0 Hset) as (z & Hz & Ht). pose proof (zget_bounds _ _ _ Hz).
      destruct (Z.eq_dec (j / 8) (i / 8)) as [E|E]; [|exists z; rewrite Hj by lia; done].
      rewrite E in Hz. rewrite Hget in Hz. injection Hz as <-. exists (f y). rewrite E. split; [done|].
      unfold f. rewrite set_bit_byte by (done || divlia). by rewrite Ht. }
  destruct (Z.ltb_spec (zlen (attr_data na)) (i / 8 + 1)); [|apply Hmod; [done | lia | done]].
  destruct (attr_truncate na _) as [na1 [[]|e]] eqn:Et.
  - pose proof (align8 (zlen (attr_data na) + 1)) as Ha. replace (zlen (attr_data na) + 1 + 7) with (zlen (attr_data na) + 8) in Ha by lia.
    apply attr_truncate_grows in Et; [|rewrite Ha; divlia]. apply Hmod; rewrite Et.
    + apply Forall_app. split; [done|]. apply Forall_replicate. unfold is_byte. lia.
    + rewrite zlen_app, zlen_replicate, Ha. divlia.
    + intros j Hj (y & Hy & Ht). pose proof (zget_bounds _ _ _ Hy). exists y. split; [|done]. by rewrite zget_app_l by lia.
  - eexists _, _, na1. split_and!; try done.
Qed.

(** A free block: its bit was clear and is set. *)
Lemma ibm_get_free_spec ni x na : sized x bs vb -> bm ni = Some na -> wf_bytes (attr_data na) -> zlen (attr_data na) < 2 ^ 30 ->
  exists ni' v na', ntfs_ibm_get_free malloc ni x = Some (ni', v) /\ only_bm ni ni' /\ bm ni' = Some na' /\
    (v <> -1 -> wf_bytes (attr_data na') /\ zlen (attr_data na') <= zlen (attr_data na) + 8 /\ exists i, v = i * q /\ block_number i /\ ~ bit_set (attr_data na) i /\ bit_set (attr_data na') i /\
       (forall j, 0 <= j < i -> bit_set (attr_data na) j) /\
       forall j, 0 <= j -> bit_set (attr_data na) j -> bit_set (attr_data na') j).
Proof.
  intros Hx Hbm Hw Hlen. unfold ntfs_ibm_get_free. rewrite Hbm. pose proof (zlen_nonneg (attr_data na)) as Hn.
  destruct (malloc _); cbn [negb]; [|by eexists ni, _, na].
  destruct (attr_pread na 0 _) as [na1 r] eqn:E. destruct (attr_pread_law _ _ _ _ _ (Z.le_refl 0) Hn E) as [Hd Hr].
  destruct r as [bmp|e]; [|by eexists _, _, na1]. destruct (Z.eqb_spec (zlen bmp) (zlen (attr_data na1))) as [El|]; cbn [negb];
    [|by eexists _, _, na1].
  rewrite Hd in El. destruct Hr as [_ Hh]. pose proof (holds_zread _ _ _ Hh (Z.le_refl 0) (ltac:(lia))) as Hz.
  rewrite El, zread_all in Hz. injection Hz as <-.
  destruct (first_clear_spec (attr_data na) 0 Hw (Z.le_refl 0)) as (H1 & H2 & H3). set (i := first_clear _ 0) in *.
  assert (block_number i) as Hi by (unfold block_number; change (2 ^ 34) with (2 ^ 30 * 16); lia).
  destruct (ibm_pos x i Hx Hi) as [_ ->].
  destruct (ibm_set_spec (set_bm ni na1) x na1 i) as (ni' & s & na' & -> & [Hr1 Hr2] & Hb & Hok); try done; try (rewrite Hd; done || divlia).
  cbn [mbind option_bind fst snd]. exists ni', (if status_is_ok s then i * q else -1), na'. split_and!; try done.
  destruct s; cbn [status_is_ok]; try done. intros _. destruct (Hok eq_refl) as (Hwf & Hz8 & Hs & Hk). rewrite Hd in Hk, Hz8.
  split; [done|]. split; [done|]. exists i. split_and!; try done.
  - intros (y & Hy & Ht). rewrite <-(Z.sub_0_r (i / 8)) in Hy. apply H2 in Hy. congruence.
  - intros j Hj. destruct (H3 j (ltac:(lia))) as (y & Hy & Ht). rewrite Z.sub_0_r in Hy. by exists y.
Qed.
End io.
