(* ===== verification/IndexTree.v ===== *)
(** The trees of index blocks (libntfs-3g/index.c): the sequence of the entries
    of an index, in order, and the path from the root to a block. *)

From stdpp Require Import sorting.
From S2P Require Import Prelude Mst AttrIo AttrMst Collate Index IndexSpec IndexNode IndexBlock IndexMake.
Local Open Scope Z_scope.
Local Open Scope c_scope.
Set Default Proof Using "Type*".
#[local] Arguments le_encode : simpl never.

(** Membership in a concatenation. *)
Ltac in_blocks := repeat first [progress rewrite ?in_app_iff in * | progress cbn [In] in *]; tauto.

(** ** In order *)

(** The blocks and the entries of the slots of a node, the children of which
    [T] describes; the end counts as an entry. *)
Inductive seq_of (T : Z -> list Z -> list ent -> Prop) : list slot -> list Z -> list ent -> Prop :=
  | seq_nil : seq_of T [] [] []
  | seq_leaf e sl vs xs : seq_of T sl vs xs -> seq_of T ((e, None) :: sl) vs (e :: xs)
  | seq_node e c vc xc sl vs xs : T c vc xc -> seq_of T sl vs xs ->
      seq_of T ((e, Some c) :: sl) (vc ++ vs) (xc ++ e :: xs).

(** What is below a slot. *)
Definition child_of (T : Z -> list Z -> list ent -> Prop) (c : option Z) (vs : list Z) (xs : list ent) : Prop :=
  match c with None => vs = [] /\ xs = [] | Some v => T v vs xs end.

Lemma seq_cons T (s : slot) (sl : list slot) vs xs : seq_of T (s :: sl) vs xs <->
  exists vc xc vr xr, child_of T s.2 vc xc /\ seq_of T sl vr xr /\ vs = vc ++ vr /\ xs = xc ++ s.1 :: xr.
Proof.
  split.
  - inversion 1; subst; cbn; [by eexists [], [], _, _ | by eexists _, _, _, _].
  - intros (vc & xc & vr & xr & Hc & Hs & -> & ->). destruct s as [e [c|]]; cbn in *; [by constructor|].
    destruct Hc as [-> ->]. by constructor.
Qed.

Lemma seq_app T (a b : list slot) vs xs : seq_of T (a ++ b) vs xs <->
  exists va xa vb xb, seq_of T a va xa /\ seq_of T b vb xb /\ vs = va ++ vb /\ xs = xa ++ xb.
Proof.
  revert vs xs; induction a as [|s a IH]; intros vs xs; cbn [app].
  - split; [intros H; eexists [], [], _, _; by split_and!; [constructor|..]|].
    intros (va & xa & vb & xb & Ha & Hb & -> & ->). by inversion Ha; subst.
  - rewrite seq_cons. setoid_rewrite seq_cons. setoid_rewrite IH. split.
    + intros (vc & xc & ? & ? & Hc & (va & xa & vb & xb & Ha & Hb & -> & ->) & -> & ->).
      exists (vc ++ va), (xc ++ s.1 :: xa), vb, xb. split_and!; [by eexists _, _, _, _ | done | by rewrite app_assoc | by rewrite <-app_assoc].
    + intros (? & ? & vb & xb & (vc & xc & va & xa & Hc & Ha & -> & ->) & Hb & -> & ->).
      exists vc, xc, (va ++ vb), (xa ++ xb). split_and!; [done | by eexists _, _, _, _ | by rewrite app_assoc | by rewrite <-app_assoc].
Qed.

Lemma seq_1 T (z : slot) vs xs : seq_of T [z] vs xs <-> exists xc, child_of T z.2 vs xc /\ xs = xc ++ [z.1].
Proof.
  rewrite seq_cons. split.
  - intros (vc & xc & vr & xr & Hc & Hs & -> & ->). inversion Hs; subst. rewrite app_nil_r. eauto.
  - intros (xc & Hc & ->). exists vs, xc, [], []. split_and!; [done | constructor | by rewrite app_nil_r | done].
Qed.

(** The sequence of a node ends with its end. *)
Lemma seq_last T (es : list slot) (z : slot) vs xs : seq_of T (es ++ [z]) vs xs -> exists ys, xs = ys ++ [z.1].
Proof.
  intros (va & xa & vb & xb & _ & (xc & _ & ->)%seq_1 & _ & ->)%seq_app. exists (xa ++ xc). by rewrite app_assoc.
Qed.

Lemma seq_mono (T T' : Z -> list Z -> list ent -> Prop) sl vs xs : seq_of T sl vs xs ->
  (forall c vc xc, T c vc xc -> (forall u, In u vc -> In u vs) -> T' c vc xc) -> seq_of T' sl vs xs.
Proof.
  induction 1 as [|e sl vs xs H IH|e c vc xc sl vs xs Hc H IH]; intros HT; constructor.
  - apply IH. intros; by apply HT.
  - apply HT; [done|]. intros u Hu. in_blocks.
  - apply IH. intros c' vc' xc' H1 H2. apply HT; [done|]. intros u Hu%H2. in_blocks.
Qed.

(** ** Trees *)

Section tree.
Variables bs q : Z.
Implicit Types (f : Z -> option (list Z)) (sl : list slot).

(** Block [v] has the slots [sl]. *)
Definition block_at f (v : Z) (k : bool) (b : list Z) sl : Prop :=
  (exists i, v = i * q /\ block_number i) /\ f v = Some b /\ iblock bs v k b sl.

(** The tree of height [d] whose root is block [v]: its blocks are [vs], its
    entries, the end of the root excepted, [xs]. *)
Fixpoint tree f (d : nat) (v : Z) (vs : list Z) (xs : list ent) : Prop :=
  exists b sl vs' z, block_at f v (match d with O => false | S _ => true end) b sl /\ vs = v :: vs' /\
    seq_of (match d with O => fun _ _ _ => False | S d => tree f d end) sl vs' (xs ++ [z]).

(** The trees below a node of height [d]. *)
Definition kids f (d : nat) : Z -> list Z -> list ent -> Prop := match d with O => fun _ _ _ => False | S d => tree f d end.
Definition inner (d : nat) : bool := match d with O => false | S _ => true end.

Lemma tree_unfold f d v vs xs : tree f d v vs xs <->
  exists b sl vs' z, block_at f v (inner d) b sl /\ vs = v :: vs' /\ seq_of (kids f d) sl vs' (xs ++ [z]).
Proof. by destruct d. Qed.

(** A tree depends on its blocks only. *)
Lemma tree_ext f f' d v vs xs : (forall u, In u vs -> f' u = f u) -> tree f d v vs xs -> tree f' d v vs xs.
Proof.
  revert v vs xs; induction d as [|d IH]; intros v vs xs Hf; rewrite !tree_unfold; intros (b & sl & vs' & z & (Hi & Hb & Hib) & -> & Hs);
    exists b, sl, vs', z; (split_and!; [| done |]); try (split_and!; [done | by rewrite Hf by (by left) | done]); cbn [kids] in *.
  - done.
  - eapply seq_mono; [exact Hs|]. intros c vc xc Hc Hin. apply IH; [|done]. intros u Hu. apply Hf. right. by apply Hin.
Qed.

Lemma kids_ext f f' d sl vs xs : (forall u, In u vs -> f' u = f u) -> seq_of (kids f d) sl vs xs -> seq_of (kids f' d) sl vs xs.
Proof.
  intros Hf Hs. eapply seq_mono; [exact Hs|]. intros c vc xc Hc Hin. destruct d as [|d]; [done|]. cbn [kids] in *.
  eapply tree_ext; [|done]. auto.
Qed.

(** ** Paths *)

(** A step of the path: the node, and the slots before the one the path goes
    through. *)
Definition step : Type := Z * list slot.

(** [path f sl d p c vl vr xl xr]: in the index whose root has the slots [sl],
    the steps [p], the innermost one first, lead to block [c], where a tree of
    height [d] stands; the other blocks before and after it are [vl] and [vr],
    and the entries [xl] and [xr], the end of the root included. *)
Inductive path f sl : nat -> list step -> Z -> list Z -> list Z -> list ent -> list ent -> Prop :=
  | path_root d s1 e c s2 vl vr xl xr : sl = s1 ++ (e, Some c) :: s2 ->
      seq_of (tree f d) s1 vl xl -> seq_of (tree f d) s2 vr xr ->
      path f sl d [(VCN_INDEX_ROOT_PARENT, s1)] c vl vr xl (e :: xr)
  | path_node d p v vl0 vr0 xl0 xr0 b s1 e c s2 vl vr xl xr ys z : path f sl (S d) p v vl0 vr0 xl0 xr0 ->
      block_at f v true b (s1 ++ (e, Some c) :: s2) ->
      seq_of (tree f d) s1 vl xl -> seq_of (tree f d) s2 vr xr -> e :: xr = ys ++ [z] ->
      path f sl d ((v, s1) :: p) c (vl0 ++ v :: vl) (vr ++ vr0) (xl0 ++ xl) (ys ++ xr0).

(** The height of the whole index. *)
Definition height (d : nat) (p : list step) : nat := (d + length p)%nat.

Lemma path_ne f sl d p c vl vr xl xr : path f sl d p c vl vr xl xr -> p <> [].
Proof. by destruct 1. Qed.

(** What the root is when the hole is filled. *)
Lemma path_fill f f' sl d p c vl vr xl xr vc xc : path f sl d p c vl vr xl xr ->
  (forall u, In u (vl ++ vr) -> f' u = f u) -> tree f' d c vc xc ->
  seq_of (kids f' (height d p)) sl (vl ++ vc ++ vr) (xl ++ xc ++ xr).
Proof.
  intros H; revert vc xc; induction H as [d s1 e c s2 vl vr xl xr E H1 H2|d p v vl0 vr0 xl0 xr0 b s1 e c s2 vl vr xl xr ys z H0 IH Hb H1 H2 E];
    intros vc xc Hf Ht.
  - unfold height. cbn [length]. rewrite Nat.add_1_r. subst sl. apply seq_app.
    exists vl, xl, (vc ++ vr), (xc ++ e :: xr). split_and!; try done.
    + eapply (kids_ext f f' (S d)); [|done]. intros u Hu. apply Hf. in_blocks.
    + apply seq_cons. exists vc, xc, vr, xr. split_and!; try done.
      eapply (kids_ext f f' (S d)); [|done]. intros u Hu. apply Hf. in_blocks.
  - specialize (IH (v :: vl ++ vc ++ vr) (xl ++ xc ++ ys)). unfold height in *. cbn [length] in *.
    replace (d + S (length p))%nat with (S d + length p)%nat by lia.
    assert (forall u, In u (vl0 ++ v :: vl ++ vr ++ vr0) -> f' u = f u) as Hf' by (intros u Hu; apply Hf; in_blocks).
    cbn [app] in IH. rewrite <-!app_assoc in IH. rewrite <-!app_assoc. cbn [app]. apply IH.
    + intros u Hu. apply Hf'. in_blocks.
    + apply tree_unfold. exists b, (s1 ++ (e, Some c) :: s2), (vl ++ vc ++ vr), z. split_and!; [| done |].
      * destruct Hb as (Hi & Hb & Hib). split_and!; [done | | done]. rewrite Hf' by in_blocks. done.
      * apply seq_app. exists vl, xl, (vc ++ vr), (xc ++ e :: xr). cbn [inner kids]. split_and!; [| | done | by rewrite E, <-!app_assoc].
        -- eapply (kids_ext f f' (S d)); [|done]. intros u Hu. apply Hf'. in_blocks.
        -- apply seq_cons. exists vc, xc, vr, xr. split_and!; try done.
           eapply (kids_ext f f' (S d)); [|done]. intros u Hu. apply Hf'. in_blocks.
Qed.

Lemma path_ext f f' sl d p c vl vr xl xr : path f sl d p c vl vr xl xr ->
  (forall u, In u (vl ++ vr) -> f' u = f u) -> path f' sl d p c vl vr xl xr.
Proof.
  induction 1 as [d s1 e c s2 vl vr xl xr E H1 H2|d p v vl0 vr0 xl0 xr0 b s1 e c s2 vl vr xl xr ys z H0 IH Hb H1 H2 E]; intros Hf.
  - econstructor; [done | |]; (eapply (kids_ext f f' (S d)); [|done]); intros u Hu; apply Hf; in_blocks.
  - assert (forall u, In u (vl0 ++ v :: vl ++ vr ++ vr0) -> f' u = f u) as Hf'
      by (intros u Hu; apply Hf; rewrite !in_app_iff in *; cbn in *; rewrite !in_app_iff in *; tauto).
    econstructor; [| | | | exact E].
    + apply IH. intros u Hu. apply Hf'. in_blocks.
    + destruct Hb as (Hi & Hb & Hib). split_and!; [done | | exact Hib]. rewrite Hf' by in_blocks. done.
    + eapply (kids_ext f f' (S d)); [|done]. intros u Hu. apply Hf'. in_blocks.
    + eapply (kids_ext f f' (S d)); [|done]. intros u Hu. apply Hf'. in_blocks.
Qed.
End tree.

(** ** The search of a node, in order *)

Section order.
Context {collate : COLLATE} `{!KeyOrder collate}.
Abbreviation cmp := (key_cmp collate).

(** The entry comes before, after the key. *)
Definition below (key : list Z) (x : ent) : Prop := cmp key (e_key x) = 1.
Definition above (key : list Z) (x : ent) : Prop := cmp key (e_key x) = -1.

Definition in_order (xs : list ent) : Prop := StronglySorted (fun a b => cmp (e_key a) (e_key b) = -1) xs.

Lemma cmp_below a b c : cmp a b = -1 -> cmp c b = 1 -> cmp c a = 1.
Proof.
  intros H1 H2. destruct (key_cmp_values (collate := collate) c a) as [E|[E|E]]; [exfalso..|done];
    assert (cmp c b <= 0) by (apply (key_cmp_trans c a b); lia); lia.
Qed.

Lemma cmp_above a b c : cmp c a <= 0 -> cmp a b = -1 -> cmp c b = -1.
Proof.
  intros H1 H2. assert (cmp c b <= 0) as H by (apply (key_cmp_trans c a b); lia).
  destruct (key_cmp_values (collate := collate) c b) as [E|[E|E]]; [done | exfalso | lia].
  pose proof (key_cmp_antisym c b) as Hs. assert (cmp b a <= 0) as H3 by (apply (key_cmp_trans b c a); lia).
  pose proof (key_cmp_antisym a b). lia.
Qed.

Lemma in_order_app a b : in_order (a ++ b) -> in_order a /\ in_order b.
Proof. intros H. split; [by eapply StronglySorted_app_1_l | by eapply StronglySorted_app_1_r]. Qed.

(** Entries before one the key comes after, and after one it does not. *)
Lemma below_all key xs y : in_order (xs ++ [y]) -> below key y -> Forall (below key) (xs ++ [y]).
Proof.
  intros H Hy. apply Forall_app. split; [|by constructor]. apply Forall_forall. intros x Hx.
  apply (cmp_below _ (e_key y)); [|done]. eapply (StronglySorted_app_1_elem_of _ _ _ _ _ H Hx). constructor.
Qed.

Lemma above_all key y ys : in_order (y :: ys) -> cmp key (e_key y) <= 0 -> Forall (above key) ys.
Proof.
  intros [H _]%StronglySorted_cons Hy. eapply Forall_impl; [exact H|]. intros x Hx. by apply (cmp_above (e_key y)).
Qed.

(** The slot the search stops at. *)
Lemma search_at key (es : list slot) (z : slot) ie item : exists (s1 : list slot) (s : slot) (s2 : list slot),
  es ++ [z] = s1 ++ s :: s2 /\ Forall (fun t : slot => below key t.1) s1 /\
  ((s2 <> [] /\ cmp key (e_key s.1) = 0 /\ search collate key es z ie item = Found (ie + zlen (enc_slots s1)) (item + zlen s1)) \/
   ((s2 = [] \/ above key s.1) /\ search collate key es z ie item = exit_at s (ie + zlen (enc_slots s1)) (item + zlen s1))).
Proof.
  unfold search. set (i := rank collate key es).
  assert (Forall (fun t : slot => below key t.1) (take i es) /\ forall s, es !! i = Some s -> cmp key (e_key s.1) <> 1) as [Hb Hi].
  { unfold i. clear. induction es as [|t es [IH1 IH2]]; [done|]. cbn [rank].
    destruct (Z.eqb_spec (cmp key (e_key t.1)) 1); [|split; [constructor | by intros s [= <-]]].
    cbn [take]. split; [by constructor | exact IH2]. }
  destruct (es !! i) as [s|] eqn:E.
  - assert (i < length es)%nat as Hl by (by eapply lookup_lt_Some).
    assert (zlen (take i es) = Z.of_nat i) as Hz by (unfold zlen; rewrite length_take; lia).
    exists (take i es), s, (drop (S i) es ++ [z]). split_and!; [|done|].
    + rewrite <-(take_drop_middle es i s E) at 1. by rewrite <-app_assoc.
    + rewrite Hz. destruct (Z.eqb_spec (cmp key (e_key s.1)) 0) as [E0|E0]; [left | right].
      * split_and!; [by destruct (drop _ es) | done | done].
      * split; [|done]. right. specialize (Hi s eq_refl). unfold above. destruct (key_cmp_values (collate := collate) key (e_key s.1)) as [|[|]]; lia.
  - apply lookup_ge_None in E. rewrite (take_ge es i) in Hb by exact E. rewrite (take_ge es i) by exact E. exists es, z, []. split_and!; [done | done |].
    right. split; [by left|]. assert (i = length es) as ->; [|done].
    assert (i <= length es)%nat; [|by apply Nat.le_antisymm]. unfold i. clear. induction es as [|t es IH]; cbn; [lia|]. case_match; lia.
Qed.

(** The key is in the part of the sequence that the slot stands for. *)
Lemma search_between T (s1 : list slot) (s : slot) (s2 : list slot) vs xs z key :
  seq_of T (s1 ++ s :: s2) vs (xs ++ [z]) -> in_order xs ->
  Forall (fun t : slot => below key t.1) s1 -> s2 = [] \/ cmp key (e_key s.1) <= 0 ->
  exists vl xl vc xc vr xr ys,
    seq_of T s1 vl xl /\ child_of T s.2 vc xc /\ seq_of T s2 vr xr /\ vs = vl ++ vc ++ vr /\
    s.1 :: xr = ys ++ [z] /\ xs = xl ++ xc ++ ys /\ Forall (below key) xl /\ (s2 = [] -> ys = []) /\
    (s2 <> [] -> exists zs, ys = s.1 :: zs /\ Forall (above key) zs).
Proof.
  intros (vl & xl & ? & ? & H1 & (vc & xc & vr & xr & Hc & H2 & -> & ->)%seq_cons & -> & E)%seq_app Ho Hb Hs.
  assert (exists ys, s.1 :: xr = ys ++ [z]) as [ys Ey].
  { destruct (exists_last (l := s.1 :: xr)) as (ys & z' & Ez); [done|]. rewrite Ez, !app_assoc in E. apply app_inj_tail in E as [_ <-]. by exists ys. }
  assert (xs = xl ++ xc ++ ys) as Exs by (rewrite Ey, !app_assoc in E; apply app_inj_tail in E as [E _]; by rewrite app_assoc).
  exists vl, xl, vc, xc, vr, xr, ys. split_and!; try done.
  - destruct (decide (s1 = [])) as [->|Hne]; [by inversion H1|]. destruct (exists_last Hne) as (t1 & t & ->).
    destruct (seq_last _ _ _ _ _ H1) as [zs ->]. apply Forall_app in Hb as [_ Hb]. apply Forall_inv in Hb.
    apply below_all; [|done]. rewrite Exs in Ho. by apply in_order_app in Ho as [Ho _].
  - intros ->. inversion H2; subst. destruct ys as [|y [|]]; try done. 
  - intros Hne. destruct Hs as [|Hs]; [done|]. destruct ys as [|y zs]; [exfalso|].
    { injection Ey as _ ->. inversion H2; subst; [done | by destruct xc0]. }
    injection Ey as <- Ey. exists zs. split; [done|]. apply (above_all key s.1); [|lia].
    rewrite Exs in Ho. apply in_order_app in Ho as [_ Ho]. by apply in_order_app in Ho as [_ Ho].
Qed.
End order.
