(* ===== verification/IndexLookup.v ===== *)
(** ntfs_index_lookup (libntfs-3g/index.c): the search of an index finds an entry
    with the key when there is one, and the place of the key when there is not,
    with the path that leads there. *)

From S2P Require Import Prelude Mst AttrIo AttrMst Collate Index IndexSpec IndexNode IndexBlock IndexMake IndexTree.
Local Open Scope Z_scope.
Local Open Scope c_scope.
Set Default Proof Using "Type*".
#[local] Arguments le_encode : simpl never.

(** ** The path in the context *)

(** The steps, the innermost one last, in parent_pos and in parent_vcn. *)
Fixpoint steps_pos (a : list Z) (p : list step) : Prop :=
  match p with [] => True | st :: p => a.[zlen p] = Some (zlen st.2) /\ steps_pos a p end.
Fixpoint steps_vcn (a : list Z) (p : list step) : Prop :=
  match p with [] => True | st :: p => a.[zlen p] = Some st.1 /\ steps_vcn a p end.

Record follows (x : context) (p : list step) (c : Z) : Prop := {
  fo_pos : zlen (parent_pos x) = 32 /\ steps_pos (parent_pos x) p;
  fo_vcn : zlen (parent_vcn x) = 32 /\ steps_vcn (parent_vcn x) p;
  fo_index : pindex x = zlen p /\ zlen p < 32;
  fo_here : (parent_vcn x).[pindex x] = Some c }.

Lemma steps_pos_zset a i v a' p : zset a i v = Some a' -> zlen p <= i -> steps_pos a p -> steps_pos a' p.
Proof.
  intros (_ & _ & Hg)%zset_Some Hp. induction p as [|st p IH]; [done|]. rewrite zlen_cons in Hp. pose proof (zlen_nonneg p).
  intros [H1 H2]. split; [|apply IH; [lia | done]]. rewrite Hg, (proj2 (Z.eqb_neq _ _)) by lia. done.
Qed.

Lemma steps_vcn_zset a i v a' p : zset a i v = Some a' -> zlen p <= i -> steps_vcn a p -> steps_vcn a' p.
Proof.
  intros (_ & _ & Hg)%zset_Some Hp. induction p as [|st p IH]; [done|]. rewrite zlen_cons in Hp. pose proof (zlen_nonneg p).
  intros [H1 H2]. split; [|apply IH; [lia | done]]. rewrite Hg, (proj2 (Z.eqb_neq _ _)) by lia. done.
Qed.

Lemma zset_keeps (a : list Z) i v : 0 <= i < zlen a -> exists a', zset a i v = Some a' /\ zlen a' = zlen a /\ a'.[i] = Some v.
Proof.
  intros Hi. destruct (zset_ok a i v Hi) as (a' & E & Hl & _). exists a'. split_and!; [done | done |].
  apply zset_Some in E as (_ & _ & ->). by rewrite Z.eqb_refl.
Qed.

Lemma seq_Forall T (P : ent -> Prop) (es : list slot) z vs xs z' : seq_of T (es ++ [z]) vs (xs ++ [z']) -> Forall P xs ->
  Forall (fun s : slot => P s.1) es.
Proof.
  intros (va & xa & vz & xz & Ha & (xc & _ & ->)%seq_1 & _ & E)%seq_app Hx. rewrite app_assoc in E. apply app_inj_tail in E as [-> _].
  apply Forall_app in Hx as [Hx _]. clear -Ha Hx. induction Ha as [|e sl vs xs H IH|e c vc xc sl vs xs Hc H IH]; constructor.
  - by apply Forall_inv in Hx.
  - apply IH. by apply Forall_inv_tail in Hx.
  - apply Forall_app in Hx as [_ Hx]. by apply Forall_inv in Hx.
  - apply IH. apply Forall_app in Hx as [_ Hx]. by apply Forall_inv_tail in Hx.
Qed.

(** A leaf is the list of its entries. *)
Lemma seq_leaf_fst (sl : list slot) vs xs : seq_of (fun _ _ _ => False) sl vs xs -> vs = [] /\ xs = fst <$> sl.
Proof. induction 1 as [|e sl vs xs H [-> ->]|]; done. Qed.

(** ** One node *)

Section node.
Context {collate : COLLATE} `{!KeyOrder collate} {key kt : list Z}.
Abbreviation cmp := (key_cmp collate).
Hypothesis Hk : valid_key collate key.

(** The slot [s] the search of a node stops at, and the parts of the sequence. *)
Record node_found (T : Z -> list Z -> list ent -> Prop) (s1 : list slot) (s : slot) (s2 : list slot) at_ vs xs (z : ent) r
    vl xl vc xc vr xr ys : Prop := {
  nf_left : seq_of T s1 vl xl;
  nf_child : child_of T s.2 vc xc;
  nf_right : seq_of T s2 vr xr;
  nf_blocks : vs = vl ++ vc ++ vr;
  nf_end : s.1 :: xr = ys ++ [z];
  nf_all : xs = xl ++ xc ++ ys;
  nf_below : Forall (below (collate := collate) key) xl;
  nf_result : (r = Found at_ (zlen s1) /\ s2 <> [] /\ cmp key (e_key s.1) = 0 /\ In s.1 xs) \/
    (r = exit_at s at_ (zlen s1) /\ Forall (above (collate := collate) key) ys) }.

Lemma node_search T m h eo pre sl post vs xs z : node_at m h eo pre sl post -> seq_of T sl vs (xs ++ [z]) ->
  in_order (collate := collate) xs -> Forall (good_key collate) xs ->
  exists s1 s s2 r vl xl vc xc vr xr ys, sl = s1 ++ s :: s2 /\
    ntfs_ie_lookup (Some collate) (key ++ kt) (zlen key) m h = Some r /\
    ie_key_length m (h + eo + zlen (enc_slots s1)) = Some (e_klen s.1) /\
    node_found T s1 s s2 (h + eo + zlen (enc_slots s1)) vs xs z r vl xl vc xc vr xr ys.
Proof.
  intros Hn Hs Ho Hg. pose proof (na_slots _ _ _ _ _ _ Hn) as (es & zs & -> & Hes & Hzs).
  pose proof (seq_Forall _ _ _ _ _ _ _ Hs Hg) as Hgs. pose proof (node_lookup Hn collate es zs key kt eq_refl Hk Hgs) as Hl.
  destruct (search_at (collate := collate) key es zs (zlen pre) 0) as (s1 & s & s2 & E & Hb1 & Hres). rewrite E in Hs, Hn.
  pose proof (na_pre _ _ _ _ _ _ Hn) as Hpre. rewrite <-Hpre.
  assert (s2 = [] \/ cmp key (e_key s.1) <= 0) as Hle by (destruct Hres as [(_ & -> & _)|([->|Ha] & _)]; [right; lia | by left | right; unfold above in Ha; lia]).
  destruct (search_between _ _ _ _ _ _ _ _ Hs Ho Hb1 Hle) as (vl & xl & vc & xc & vr & xr & ys & S1 & Sc & S2 & Ev & Ey & Exs & Hbx & Hnil & Hys).
  exists s1, s, s2, (search collate key es zs (zlen pre) 0), vl, xl, vc, xc, vr, xr, ys. split_and!; [done | done | |].
  { rewrite (node_slot Hn s1 s s2 eq_refl). destruct (wf_slots_in _ _ _ (na_slots _ _ _ _ _ _ Hn)) as (bb & Hws & _).
    apply (field_klen bb); [done | by rewrite zlen_app]. }
  split; try done. rewrite Exs at 1. destruct Hres as [(Hne & E0 & ->)|(Ha & ->)].
  - left. split_and!; try done. destruct (Hys Hne) as (zs' & -> & _). rewrite !in_app_iff. cbn. tauto.
  - right. split; [done|]. destruct (decide (s2 = [])) as [->|Hne]; [by rewrite Hnil by done|].
    destruct (Hys Hne) as (zs' & -> & Hz). constructor; [|done]. by destruct Ha.
Qed.

End node.

(** ** The root *)

(** The value of $INDEX_ROOT, an index of blocks of [bs] bytes collated by
    [rule]; [k] says that the entries of the root have children. *)
Record iroot_parts (bs rule : Z) (k : bool) (ir : list Z) (sl : list slot) (eo : Z) (pre post : list Z) : Prop := {
  ir_node : node_at ir IR_INDEX eo pre sl post;
  ir_uniform : uniform k sl;
  ir_rule : collation_rule ir = Some rule;
  ir_bs : index_block_size ir = Some bs;
  ir_flags : exists fl, ih_flags ir IR_INDEX = Some fl /\ Z.land fl NODE_MASK = if k then LARGE_INDEX else SMALL_INDEX;
  ir_alloc : exists al, allocated_size ir IR_INDEX = Some al /\ IR_INDEX + al <= zlen ir }.

Definition iroot (bs rule : Z) (k : bool) (ir : list Z) (sl : list slot) : Prop :=
  exists eo pre post, iroot_parts bs rule k ir sl eo pre post.

(** ** The descent *)

Section lookup.
Context {R A : Type} `{!AttrOps A, !AttrResize A, !RootOps R A, !AttrLaws A, !AttrReliable A, !AttrGrowLaws A}.
Context (bs vb q : Z) (G : geometry bs vb q) (malloc : Z -> bool).
Context {collate : COLLATE} `{!KeyOrder collate}.
Implicit Types (ni : inode R A) (x : context) (na : A).
Abbreviation cmp := (key_cmp collate).

(** The search stopped in block [c], between the slots [s1] and [s2]. *)
Record stops f (sl : list slot) x (d : nat) p c b (s1 s2 : list slot) vl vr xl xr : Prop := {
  st_path : path bs q f sl d p c vl vr xl xr;
  st_block : block_at bs q f c (inner d) b (s1 ++ s2);
  st_follows : follows x p c;
  st_ib : is_in_root x = false /\ ib x = b /\ ia_na x = true;
  st_entry : exists eo, entries_offset b IB_INDEX = Some eo /\ entry x = Some (IB_INDEX + eo + zlen (enc_slots s1)) }.

(** The trees below block [c], and the whole index. *)
Definition here (h : nat) f (d : nat) (p : list step) (c : Z) (s1 : list slot) (s : slot) (s2 : list slot) (vl vr : list Z) (xl xr : list ent) (vs : list Z) (xs : list ent) : Prop :=
  exists v0 (xc : list ent) z0, seq_of (kids bs q f d) (s1 ++ s :: s2) v0 (xc ++ [z0]) /\ vs = vl ++ (c :: v0) ++ vr /\ xs = xl ++ xc ++ xr /\ height d p = h.

(** What the search found: an entry with the key, or, in a leaf, its place. *)
Inductive outcome (h : nat) f sl x key (vs : list Z) (xs : list ent) (z : ent) : result unit -> Prop :=
  | outcome_found d p c b s1 s s2 vl vr xl xr : stops f sl x d p c b s1 (s :: s2) vl vr xl xr ->
      s2 <> [] -> cmp key (e_key s.1) = 0 -> In s.1 xs -> data_len x = e_klen s.1 -> here h f d p c s1 s s2 vl vr xl xr vs (xs ++ [z]) ->
      (parent_pos x).[zlen p] = Some (zlen s1) -> outcome h f sl x key vs xs z (Ok tt)
  | outcome_place p c b s1 s2 vl vr xl ys y zs : stops f sl x 0 p c b s1 s2 vl vr xl (zs ++ [z]) ->
      fst <$> s2 = ys ++ [y] -> vs = vl ++ c :: vr ->
      xs = (xl ++ (fst <$> s1)) ++ ys ++ zs ->
      Forall (below (collate := collate) key) (xl ++ (fst <$> s1)) -> Forall (above (collate := collate) key) (ys ++ zs) ->
      outcome h f sl x key vs xs z (Err ENOENT).

Lemma block_parts f c k b sl : block_at bs q f c k b sl -> exists eo pre post, iblock_parts bs c k b sl eo pre post.
Proof using. by intros (_ & _ & H). Qed.

Lemma done_found b ie x r n : ie_key_length b ie = Some n -> lookup_done b ie x r = Some (set_entry x ie n, r).
Proof using. intros H. unfold lookup_done. by rewrite H. Qed.

(** The context on the way down. *)
Record ready x (p : list step) : Prop := {
  rd_pos : zlen (parent_pos x) = 32 /\ steps_pos (parent_pos x) p;
  rd_vcn : zlen (parent_vcn x) = 32 /\ steps_vcn (parent_vcn x) p;
  rd_index : pindex x = zlen p /\ zlen p < 32;
  rd_rest : sized x bs vb /\ collate_fn x = Some collate /\ ia_na x = true }.

(** The stores of a level, before its block is read. *)
Lemma level x (p : list step) old (s1 : list slot) : ready x p -> (parent_pos x).[zlen p] = Some (zlen s1) -> zlen p + 1 < 32 ->
  exists x0 x1, store_vcn x old = Some x0 /\ ntfs_icx_parent_inc x0 = (x1, STATUS_OK) /\ ready x1 ((old, s1) :: p).
Proof using.
  intros [[Hlp Hsp] [Hlv Hsv] [Hi Hp] Hr] Hs Hp1. pose proof (zlen_nonneg p).
  destruct (zset_keeps (parent_vcn x) (zlen p) old) as (a & E & Hl & Hg); [lia|].
  unfold store_vcn. rewrite Hi, E. cbn [mbind option_bind]. eexists _, _. split; [reflexivity|].
  unfold ntfs_icx_parent_inc, MAX_PARENT_VCN. cbn. rewrite (proj2 (Z.leb_gt 32 _)) by lia. split; [reflexivity|].
  split; cbn; rewrite ?zlen_cons; [done | split; [lia|] | lia | done].
  split; [done|]. by eapply steps_vcn_zset.
Qed.

(** Deeper than the context can say. *)
Lemma level_fails x (p : list step) old : ready x p -> 31 <= zlen p ->
  exists x0 x1, store_vcn x old = Some x0 /\ ntfs_icx_parent_inc x0 = (x1, STATUS_ERROR EOPNOTSUPP) /\ sized x1 bs vb.
Proof using.
  intros [_ [Hlv Hsv] [Hi Hp] Hr] Hp1. destruct (zset_keeps (parent_vcn x) (zlen p) old) as (a & E & Hl & Hg); [lia|].
  unfold store_vcn. rewrite Hi, E. cbn [mbind option_bind]. eexists _, _. split; [reflexivity|].
  unfold ntfs_icx_parent_inc, MAX_PARENT_VCN. cbn. rewrite (proj2 (Z.leb_le 32 _)) by lia. split; [reflexivity|]. apply Hr.
Qed.

Lemma store_pos_ready x p item : ready x p -> exists x', store_pos x item = Some x' /\ ready x' p /\ (parent_pos x').[zlen p] = Some item.
Proof using.
  intros [[Hlp Hsp] [Hlv Hsv] [Hi Hp] Hr]. pose proof (zlen_nonneg p).
  destruct (zset_keeps (parent_pos x) (zlen p) item) as (a & E & Hl & Hg); [lia|].
  unfold store_pos. rewrite Hi, E. cbn [mbind option_bind]. eexists. split; [reflexivity|]. split; [|done].
  split; cbn; [|done|done|done]. split; [lia|]. by eapply steps_pos_zset.
Qed.

Lemma arrive x p b c : ready x p -> exists x', store_vcn (set_ib x b) c = Some x' /\
  follows x' p c /\ sized x' bs vb /\ (is_in_root x' = false /\ ib x' = b /\ ia_na x' = true) /\ parent_pos x' = parent_pos x.
Proof using.
  intros [[Hlp Hsp] [Hlv Hsv] [Hi Hp] Hr]. pose proof (zlen_nonneg p).
  destruct (zset_keeps (parent_vcn x) (zlen p) c) as (a & E & Hl & Hg); [lia|].
  unfold store_vcn. cbn [set_ib parent_vcn pindex]. rewrite Hi, E. cbn [mbind option_bind]. eexists. split; [reflexivity|].
  split; [|by split_and!; try apply Hr]. split; cbn; [done | | done | done]. split; [lia|]. by eapply steps_vcn_zset.
Qed.

(** *** One level *)

Section level.
Context {key kt : list Z}.
Hypothesis Hk : valid_key collate key.

(** The key belongs in the hole. *)
Definition narrowed (h : nat) f (sl : list slot) (vs : list Z) (xs : list ent) (z : ent) d p c : Prop :=
  exists vl vr vc xl xc ws, path bs q f sl d p c vl vr xl (ws ++ [z]) /\ tree bs q f d c vc xc /\ vs = vl ++ vc ++ vr /\ xs = xl ++ xc ++ ws /\
    Forall (below (collate := collate) key) xl /\ Forall (above (collate := collate) key) ws /\ height d p = h.

Context {h : nat} {f : Z -> option (list Z)} {sl : list slot} {vs : list Z} {xs : list ent} {z : ent}.
Hypotheses (Ho : in_order (collate := collate) xs) (Hg : Forall (good_key collate) xs).

(** What the search of block [c] gives. *)
Inductive block_found d p c (s1 : list slot) (s : slot) (s2 : list slot) at_ : found -> Prop :=
  | bf_found vl vr xl xr : path bs q f sl d p c vl vr xl xr -> s2 <> [] -> cmp key (e_key s.1) = 0 -> In s.1 xs ->
      here h f d p c s1 s s2 vl vr xl xr vs (xs ++ [z]) -> block_found d p c s1 s s2 at_ (Found at_ (zlen s1))
  | bf_place vl vr xl ys y zs : d = 0%nat -> path bs q f sl d p c vl vr xl (zs ++ [z]) -> fst <$> s :: s2 = ys ++ [y] -> vs = vl ++ c :: vr ->
      xs = (xl ++ (fst <$> s1)) ++ ys ++ zs -> Forall (below (collate := collate) key) (xl ++ (fst <$> s1)) ->
      Forall (above (collate := collate) key) (ys ++ zs) ->
      block_found d p c s1 s s2 at_ (NotFound at_)
  | bf_child d' v : d = S d' -> narrowed h f sl vs xs z d' ((c, s1) :: p) v ->
      block_found d p c s1 s s2 at_ (KeepSearching v (zlen s1)).

(** A child is a block, and its number is not negative. *)
Lemma tree_vcn d v us ys : tree bs q f d v us ys -> (v <? 0) = false.
Proof using G.
  intros (? & ? & ? & ? & ((i & -> & Hi & _) & _) & _)%tree_unfold. apply Z.ltb_ge. destruct G. nia.
Qed.

Lemma block_search d p c : narrowed h f sl vs xs z d p c -> exists b s1 s s2 eo r,
  block_at bs q f c (inner d) b (s1 ++ s :: s2) /\ entries_offset b IB_INDEX = Some eo /\
  ntfs_ie_lookup (Some collate) (key ++ kt) (zlen key) b IB_INDEX = Some r /\
  ie_key_length b (IB_INDEX + eo + zlen (enc_slots s1)) = Some (e_klen s.1) /\
  block_found d p c s1 s s2 (IB_INDEX + eo + zlen (enc_slots s1)) r.
Proof using All.
  intros (vl & vr & vc & xl & xc & ws & Hp & Ht & Evs & Exs & Hbl & Hab & Hh).
  apply tree_unfold in Ht as (b & sln & vs' & zn & Hb & -> & Hs). destruct (block_parts _ _ _ _ _ Hb) as (eo & pre & post & Hparts).
  pose proof Hparts as [Hn _ _ Hu].
  assert (in_order (collate := collate) xc /\ Forall (good_key collate) xc) as [Hoc Hgc].
  { rewrite Exs in Ho, Hg. apply in_order_app in Ho as [_ Ho1]. apply in_order_app in Ho1 as [Ho1 _]. apply Forall_app in Hg as [_ Hg1].
    by apply Forall_app in Hg1 as [Hg1 _]. }
  destruct (node_search (kt := kt) Hk _ _ _ _ _ _ _ _ _ _ Hn Hs Hoc Hgc) as (s1 & s & s2 & r & vl1 & xl1 & vc1 & xc1 & vr1 & xr1 & ys & -> & Hl & Hkl & Hf).
  exists b, s1, s, s2, eo, r. split_and!; [done | exact (na_entries _ _ _ _ _ _ Hn) | done | done |].
  destruct Hf as [S1 Sc S2 Ev Ey Exc Hbx Hres]. assert (Forall (below (collate := collate) key) (xl ++ xl1)) as Hbelow by (by apply Forall_app).
  destruct Hres as [(-> & Hne & E0 & Hin)|(-> & Ha)].
  - eapply bf_found; [exact Hp | done | done | |]; [rewrite Exs, !in_app_iff; tauto|].
    exists vs', xc, zn. split_and!; [done | done | | done]. rewrite Exs. by rewrite <-!app_assoc.
  - assert (Forall (above (collate := collate) key) (ys ++ ws)) as Habove by (by apply Forall_app).
    apply uniform_app in Hu as [_ Hu]. apply uniform_cons in Hu as [Hu _]. unfold exit_at. destruct d as [|d]; cbn [inner kids] in *.
    + apply bool_decide_eq_false in Hu. apply eq_None_not_Some in Hu. rewrite Hu in *. destruct Sc as [-> ->].
      apply seq_leaf_fst in S1 as [-> ->]. apply seq_leaf_fst in S2 as [-> ->].
      eapply bf_place with (xl := xl) (ys := ys) (y := zn) (zs := ws); [done | exact Hp | done | | | done | done].
      { rewrite Evs, Ev. cbn. by rewrite ?app_nil_r. }
      rewrite Exs, Exc. cbn [app]. by rewrite <-!app_assoc.
    + apply bool_decide_eq_true in Hu as [v Hv]. rewrite Hv in *. cbn [child_of] in Sc. rewrite (tree_vcn _ _ _ _ Sc).
      eapply bf_child; [done|]. destruct s as [e ch]. cbn [fst snd] in *. subst ch.
      exists (vl ++ c :: vl1), (vr1 ++ vr), vc1, (xl ++ xl1), xc1, (ys ++ ws). split_and!; [| done | | | done | done | unfold height in *; cbn [length]; lia].
      * rewrite <-app_assoc. eapply path_node; [exact Hp | exact Hb | done | done | exact Ey].
      * rewrite Evs, Ev. rewrite <-!app_assoc. cbn. by rewrite <-!app_assoc.
      * rewrite Exs, Exc. by rewrite <-!app_assoc.
Qed.

(** What an operation that only reads leaves. *)
Definition same_data ni na ni' : Prop :=
  root ni' = root ni /\ bm ni' = bm ni /\ exists na', ia ni' = Some na' /\ attr_data na' = attr_data na.

Lemma descend_ok fuel : forall d ni x na (p : list step) old s1 c, 31 < zlen p + Z.of_nat fuel -> ia ni = Some na -> f = fetch bs vb (attr_data na) ->
  ready x p -> (parent_pos x).[zlen p] = Some (zlen s1) ->
  narrowed h f sl vs xs z d ((old, s1) :: p) c ->
  exists ni' x' r, descend fuel ni x (key ++ kt) (zlen key) old c = Some (ni', x', r) /\ same_data ni na ni' /\ sized x' bs vb /\
    (outcome h f sl x' key vs xs z r \/ r = Err EOPNOTSUPP /\ 31 <= zlen p + Z.of_nat d).
Proof using All.
  induction fuel as [|fuel IH]; intros d ni x na p old s1 c Hfuel Hna Ef Hr Hs1 Hn; [pose proof (rd_index _ _ Hr); lia|]. cbn [descend].
  destruct (Z.le_gt_cases 31 (zlen p)) as [Hdeep|Hd].
  { destruct (level_fails x p old Hr Hdeep) as (x0 & x1 & E0 & E1 & Hx1). rewrite E0. cbn [mbind option_bind]. rewrite E1. cbn [status_is_error].
    eexists _, _, _. split; [reflexivity|]. split; [split_and!; [done | done | by exists na]|]. split; [done|]. right. split; [done | lia]. }
  destruct (level x p old s1 Hr Hs1) as (x0 & x1 & E0 & E1 & Hr1); [lia|]. rewrite E0. cbn [mbind option_bind]. rewrite E1. cbn [status_is_error].
  destruct (block_search _ _ _ Hn) as (b & t1 & t & t2 & eo & r & Hb & Heo & Hl & Hkl & Hf).
  pose proof Hb as ((i & Ei & Hbn) & Hfetch & _). rewrite Ef, Ei in Hfetch. pose proof (rd_rest _ _ Hr1) as (Hx1 & Hc1 & _).
  destruct (ib_read_fetch bs vb q G ni x1 na i b Hx1 Hna Hbn Hfetch) as (na1 & Er & Hd1). rewrite <-Ei in Er. rewrite Er. cbn [mbind option_bind].
  rewrite Hc1, Hl. cbn [mbind option_bind]. set (ni1 := Inode (root ni) (Some na1) (bm ni)).
  assert (same_data ni na ni1) as Hsame by (split_and!; [done | done | by exists na1]).
  destruct Hf as [vl vr xl xr Hp Hne Hcmp Hin Hhere|vl vr xl ys y zs -> Hp Hy Evs Exs Hbl Hab|d' v -> Hn'].
  - destruct (store_pos_ready x1 _ (zlen t1) Hr1) as (x2 & -> & Hr2 & Hp2). cbn [mbind option_bind].
    destruct (arrive x2 _ b c Hr2) as (x3 & -> & Hfo & Hsz & Hib & Hpp). cbn [mbind option_bind]. rewrite (done_found _ _ _ _ _ Hkl). cbn [mbind option_bind fst snd].
    eexists _, _, _. split; [reflexivity|]. split_and!; [done | done |]. left. refine (outcome_found _ _ _ _ _ _ _ _ d _ c b t1 t t2 _ _ _ _ _ Hne Hcmp Hin _ Hhere _); [|done|by cbn; rewrite Hpp].
    split; [exact Hp | exact Hb | by destruct Hfo; split | done | by exists eo].
  - destruct (arrive x1 _ b c Hr1) as (x3 & -> & Hfo & Hsz & Hib & _). cbn [mbind option_bind]. rewrite (done_found _ _ _ _ _ Hkl). cbn [mbind option_bind fst snd].
    eexists _, _, _. split; [reflexivity|]. split_and!; [done | done |]. left.
    refine (outcome_place _ _ _ _ _ _ _ _ _ c b t1 (t :: t2) _ _ _ ys y zs _ Hy Evs Exs Hbl Hab).
    split; [exact Hp | exact Hb | by destruct Hfo; split | done | by exists eo].
  - destruct (store_pos_ready x1 _ (zlen t1) Hr1) as (x2 & -> & Hr2 & Hp2). cbn [mbind option_bind].
    destruct (block_parts _ _ _ _ _ Hb) as (eo' & pre & post & Hparts). destruct (ib_flags_ok Hparts) as (fl & Hfl & Hfl1).
    change IB_INDEX with 24. rewrite Hfl. cbn [mbind option_bind]. change NODE_MASK with 1. rewrite Hfl1 by done. cbn [Z.eqb LEAF_NODE Pos.eqb].
    destruct (IH d' ni1 x2 na1 ((old, s1) :: p) c t1 v) as (ni' & x' & r & -> & (H1 & H2 & na2 & H3 & H4) & Hsz & Ho'); rewrite ?Hd1; try done; try (rewrite ?zlen_cons; lia).
    + exists ni', x', r. split; [done|]. split; [|split; [done|]].
      { unfold same_data. rewrite H1, H2. split_and!; [done | done |]. exists na2. split; [done|]. by rewrite H4, Hd1. }
      destruct Ho' as [Ho'|[Ho1 Ho2]]; [by left | right]. rewrite zlen_cons in Ho2. split; [done | lia].
Qed.

End level.

(** *** The search from the root *)

Section search.
Context {key kt : list Z}.
Hypothesis Hk : valid_key collate key.
Context {f : Z -> option (list Z)} {sl : list slot} {vs : list Z} {xs : list ent} {z : ent}.
Hypotheses (Ho : in_order (collate := collate) xs) (Hg : Forall (good_key collate) xs).

(** What the search of the root gives when it ends there. *)
Inductive root_outcome (d : nat) x ir : result unit -> Prop :=
  | root_found s1 s s2 eo : sl = s1 ++ s :: s2 -> s2 <> [] -> cmp key (e_key s.1) = 0 -> In s.1 xs -> data_len x = e_klen s.1 ->
      follows x [] VCN_INDEX_ROOT_PARENT -> (parent_pos x).[0] = Some (zlen s1) ->
      entries_offset ir IR_INDEX = Some eo -> entry x = Some (IR_INDEX + eo + zlen (enc_slots s1)) -> root_outcome d x ir (Ok tt)
  | root_place s1 s2 eo ys : d = 0%nat -> sl = s1 ++ s2 -> fst <$> s2 = ys ++ [z] -> xs = (fst <$> s1) ++ ys ->
      Forall (below (collate := collate) key) (fst <$> s1) -> Forall (above (collate := collate) key) ys ->
      entries_offset ir IR_INDEX = Some eo -> entry x = Some (IR_INDEX + eo + zlen (enc_slots s1)) -> root_outcome d x ir (Err ENOENT).

Context (memcmp : list Z -> list Z -> Z) (upcase : list Z) (upcase_len cluster_size cluster_size_bits : Z).

(** The blocks of an inode. *)
Definition fetch_of ni : Z -> option (list Z) := match ia ni with Some na => fetch bs vb (attr_data na) | None => fun _ => None end.

(** A context that has not been used. *)
Definition unused x : Prop := zlen (parent_pos x) = 32 /\ zlen (parent_vcn x) = 32 /\ pindex x = 0 /\ ib_dirty x = false /\ bad_index x = false.

(** Lookup only reads, and says in the context what it found and where. *)
Definition looked_up d ni x ni' x' ir r : Prop :=
  root ni' = root ni /\ bm ni' = bm ni /\ (forall v, fetch_of ni' v = fetch_of ni v) /\ sized x' bs vb /\
  ((is_in_root x' = true /\ ni' = ni /\ ia_na x' = ia_na x /\ root_outcome d x' ir r) \/ outcome d f sl x' key vs xs z r \/ r = Err EOPNOTSUPP /\ (31 < d)%nat).

(** The stores when the search ends in the root. *)
Lemma root_stores x : unused x -> exists x1, store_vcn (set_in_root x) VCN_INDEX_ROOT_PARENT = Some x1 /\
  sized x1 (block_size x) (vcn_size_bits x) /\ is_in_root x1 = true /\ follows x1 [] VCN_INDEX_ROOT_PARENT /\ parent_pos x1 = parent_pos x /\ ia_na x1 = ia_na x.
Proof using.
  intros (Hp & Hv & Hi & _). destruct (zset_keeps (parent_vcn x) 0 VCN_INDEX_ROOT_PARENT) as (a & E & Hl & Ha); [lia|].
  unfold store_vcn. cbn [set_in_root parent_vcn pindex]. rewrite Hi, E. cbn [mbind option_bind]. eexists. split_and!; try done.
  split; cbn; [done | by rewrite Hl | done | done].
Qed.

Lemma root_pos x n : unused x -> exists x1, store_pos x n = Some x1 /\ unused x1 /\ block_size x1 = block_size x /\
  vcn_size_bits x1 = vcn_size_bits x /\ collate_fn x1 = collate_fn x /\ ia_na x1 = ia_na x /\ (parent_pos x1).[0] = Some n.
Proof using.
  intros (Hp & Hv & Hi & Hd). destruct (zset_keeps (parent_pos x) 0 n) as (a & E & Hl & Ha); [lia|].
  unfold store_pos. rewrite Hi, E. cbn [mbind option_bind]. eexists. split; [reflexivity|]. split; [|done]. unfold unused. cbn. split_and!; try done; try apply Hd. lia.
Qed.

Lemma index_lookup_ok ni x ir rule d : ir_value (root ni) = Ok ir -> iroot bs rule (inner d) ir sl -> f = fetch_of ni ->
  seq_of (kids bs q f d) sl vs (xs ++ [z]) -> ntfs_get_collate_function memcmp upcase upcase_len rule = Some collate ->
  vb = (if cluster_size <=? bs then cluster_size_bits else 9) -> unused x -> 0 < zlen key -> malloc bs = true ->
  exists ni' x' r, ntfs_index_lookup malloc memcmp upcase upcase_len cluster_size cluster_size_bits ni x (key ++ kt) (zlen key) = Some (ni', x', r) /\
    looked_up d ni x ni' x' ir r.
Proof using All.
  intros Hir (eo & pre & post & [Hn Hu Hrule Hbs Hfl Hal]) Ef Hs Hcol Hvb Hx Hkey Hm. unfold ntfs_index_lookup.
  rewrite (proj2 (Z.leb_gt _ 0)) by lia. rewrite Hir, Hbs. cbn [mbind option_bind].
  rewrite (proj2 (Z.ltb_ge bs NTFS_BLOCK_SIZE)) by (pose proof (ge_range _ _ _ G); unfold NTFS_BLOCK_SIZE; lia).
  rewrite Hrule. cbn [mbind option_bind]. rewrite Hcol, <-Hvb. set (x1 := set_sizes (set_sizes x _ _ _) bs vb (Some collate)).
  destruct (node_search (kt := kt) Hk _ _ _ _ _ _ _ _ _ _ Hn Hs Ho Hg) as (s1 & s & s2 & r & vl & xl & vc & xc & vr & xr & ys & Esl & -> & Hkl & Hf).
  cbn [mbind option_bind].
  assert (unused x1) as Hx1 by done.
  destruct Hf as [S1 Sc S2 Ev Ey Exs Hb Hres]. rewrite Esl in Hu. apply uniform_app in Hu as [_ Hu]. apply uniform_cons in Hu as [Hu _].
  destruct (root_pos x1 (zlen s1) Hx1) as (x2 & E2 & Hx2 & Hb2 & Hv2 & Hc2 & Ha2 & Hp2).
  destruct Hres as [(-> & Hne & Hcmp & Hin)|(-> & Ha)].
  - rewrite E2. cbn [mbind option_bind]. destruct (root_stores x2 Hx2) as (x3 & -> & Hz3 & Hr3 & Hfo3 & Hpp3 & Ha3). cbn [mbind option_bind].
    rewrite (done_found _ _ _ _ _ Hkl). cbn [mbind option_bind fst snd]. eexists _, _, _. split; [reflexivity|].
    rewrite Hb2, Hv2 in Hz3.
    split_and!; [done | done | done | exact Hz3 |]. left. split_and!; [done | done | by cbn; rewrite Ha3, Ha2 |].
    refine (root_found _ _ _ s1 s s2 eo Esl Hne Hcmp Hin _ _ _ (na_entries _ _ _ _ _ _ Hn) _); [done | by destruct Hfo3; split | by cbn; rewrite Hpp3 | done].
  - unfold exit_at. destruct d as [|d]; cbn [inner kids] in *.
    + apply bool_decide_eq_false in Hu. apply eq_None_not_Some in Hu. rewrite Hu in *. destruct Sc as [-> ->].
      apply seq_leaf_fst in S1 as [-> ->]. apply seq_leaf_fst in S2 as [-> ->].
      destruct (root_stores x1 Hx1) as (x3 & -> & Hz3 & Hr3 & _ & _ & Ha3). cbn [mbind option_bind].
      rewrite (done_found _ _ _ _ _ Hkl). cbn [mbind option_bind fst snd]. eexists _, _, _. split; [reflexivity|].
      split_and!; [done | done | done | exact Hz3 |]. left. split_and!; [done | done | done |].
      refine (root_place _ _ _ s1 (s :: s2) eo ys eq_refl Esl Ey Exs Hb Ha (na_entries _ _ _ _ _ _ Hn) _). done.
    + apply bool_decide_eq_true in Hu as [v Hv]. rewrite Hv in *. cbn [child_of] in Sc. rewrite (tree_vcn _ _ _ _ Sc).
      rewrite E2. cbn [mbind option_bind].
      assert (exists na, ia ni = Some na) as [na Hna].
      { apply tree_unfold in Sc as (? & ? & ? & ? & (_ & Hfe & _) & _). rewrite Ef in Hfe. unfold fetch_of in Hfe. destruct (ia ni); [eauto | done]. }
      rewrite Hna. cbn [block_size set_ia_na]. rewrite Hb2. change (block_size x1) with bs. rewrite Hm.
      assert (f = fetch bs vb (attr_data na)) as Ef' by (rewrite Ef; unfold fetch_of; by rewrite Hna).
      destruct s as [e ch]. cbn [fst snd] in *. subst ch.
      destruct (descend_ok (kt := kt) Hk (h := S d) (f := f) (sl := sl) (vs := vs) (z := z) Ho Hg (descent_rounds (set_ia_na x2)) d ni (set_ia_na x2) na [] VCN_INDEX_ROOT_PARENT s1 v) as (ni' & x' & r & E & (H1 & H2 & na' & H3 & H4) & Hsz & Hout); try done.
      * unfold descent_rounds, MAX_PARENT_VCN. cbn [set_ia_na pindex]. destruct Hx2 as (_ & _ & -> & _). rewrite zlen_nil. lia.
      * destruct Hx2 as (Hl1 & Hl2 & Hl3 & _). split; [done | done | done |]. split; [by split | by split].
      * exists vl, vr, vc, xl, xc, ys. split_and!; [| exact Sc | exact Ev | exact Exs | exact Hb | exact Ha | unfold height; cbn; lia]. rewrite <-Ey. by eapply path_root.
      * exists ni', x', r. split; [exact E|]. split_and!; [done | done | | exact Hsz |].
        2: { right. destruct Hout as [Hout|[Ho1 Ho2]]; [by left | right]. split; [done|]. rewrite zlen_nil in Ho2. lia. }
        intros w. unfold fetch_of. by rewrite H3, Hna, H4.
Qed.
End search.
End lookup.
