(* ===== verification/IndexRoot.v ===== *)
(** The root of an index (libntfs-3g/index.c): what it relies on to change its
    size, and its move to an index block. *)

From S2P Require Import Prelude Mst Device AttrIo AttrMst Names Collate Index IndexSpec IndexNode IndexBlock IndexMake IndexTree IndexLookup.
Local Open Scope Z_scope.
Local Open Scope c_scope.
Set Default Proof Using "Type*".
#[local] Arguments le_encode : simpl never.

(** ** The resident attribute *)

Definition resized (v : list Z) (n : Z) : list Z := take (Z.to_nat n) (grown v n).

(** A change of size keeps the bytes and clears the new ones, or is refused for
    lack of space and changes nothing; a move to another record leaves the room
    asked for. *)
Class RootLaws (R A : Type) `{!RootOps R A, !AttrOps A} := {
  ir_max : Z;                                  (* a resident value is in one MFT record *)
  ir_max_law r v : ir_value r = Ok v -> zlen v <= ir_max;
  ir_store_law r v v' : ir_value r = Ok v -> zlen v' = zlen v -> ir_value (ir_store r v') = Ok v';
  ir_truncate_law r n r' s v : ir_attr_truncate r n = (r', s) -> ir_value r = Ok v -> 0 <= n ->
    match s with
    | STATUS_OK => ir_value r' = Ok (resized v n)
    | STATUS_RESIDENT_ATTRIBUTE_FILLED_MFT => ir_value r' = Ok v
    | STATUS_ERROR _ => True
    | _ => False
    end;
  ir_resize_law r n r' s v : ir_value_resize r n = (r', s) -> ir_value r = Ok v -> 0 <= n ->
    match s with Ok _ => ir_value r' = Ok (resized v n) | Err e => e = ENOSPC -> ir_value r' = Ok v end;
  ir_attrlist_law r r' b : ir_add_attrlist r = (r', b) -> ir_value r' = ir_value r;
  ir_move_law r n r' v : ir_move_away r n = (r', true) -> ir_value r = Ok v ->
    ir_value r' = Ok v /\
    forall v' m, zlen v' = zlen v -> m <= zlen v + n -> snd (ir_value_resize (ir_store r' v') m) <> Err ENOSPC;
  attr_add_law r bs r' na : attr_add r bs = (r', Some na) -> attr_data na = bs /\ ir_value r' = ir_value r }.

Lemma zlen_resized v n : 0 <= n -> zlen (resized v n) = n.
Proof. intros Hn. unfold resized, grown, zlen. rewrite length_take, length_app, length_replicate. lia. Qed.

Lemma resized_same v n j : j < n -> j < zlen v -> (resized v n).[j] = v.[j].
Proof.
  intros Hn Hj. destruct (Z.ltb_spec j 0); [by rewrite !zget_outside by lia|]. unfold resized, grown.
  transitivity ((v ++ replicate (Z.to_nat (n - zlen v)) 0).[j]); [|by rewrite zget_app_l by lia].
  rewrite <-(take_drop (Z.to_nat n) (v ++ replicate (Z.to_nat (n - zlen v)) 0)) at 2. rewrite zget_app_l; [done|].
  unfold zlen in *. rewrite length_take, length_app, length_replicate. lia.
Qed.

Lemma resized_wf v n : wf_bytes v -> wf_bytes (resized v n).
Proof. intros H. apply Forall_take, Forall_app. split; [done|]. apply Forall_replicate. unfold is_byte. lia. Qed.

(** ** The fields before the header of the root *)

(** Only the lengths and the flags of the header and what follows may differ. *)
Definition same_head (ir ir' : list Z) : Prop := forall j, 0 <= j < 20 -> ir'.[j] = ir.[j].

Lemma same_head_ld ir ir' n a : same_head ir ir' -> 20 <= zlen ir -> 20 <= zlen ir' -> 0 <= a -> a + Z.of_nat n <= 20 -> ld n ir' a = ld n ir a.
Proof. intros H H1 H2 Ha Hn. apply ld_eq; try lia. intros j Hj. apply H. lia. Qed.

Lemma same_head_trans a b c : same_head a b -> same_head b c -> same_head a c.
Proof. intros H1 H2 j Hj. rewrite H2, H1 by done. done. Qed.

(** ** The root moved to a block *)

Lemma ir_to_ib_ok malloc bs vb q ir eo pre k es z post i fl : geometry bs vb q -> block_number i ->
  node_at ir IR_INDEX eo pre (es ++ [z]) post -> uniform k (es ++ [z]) -> ih_flags ir IR_INDEX = Some fl -> Z.land fl 1 = Z.b2z k ->
  index_block_size ir = Some bs -> new_eo bs + zlen (enc_slots (es ++ [z])) <= bs - 24 ->
  ntfs_ir_to_ib malloc ir (i * q) = Some None \/
  exists b, ntfs_ir_to_ib malloc ir (i * q) = Some (Some b) /\ iblock bs (i * q) k b (es ++ [z]).
Proof.
  intros G Hi Hn Hu Hfl Hk Hbs Hfit. unfold ntfs_ir_to_ib. rewrite Hbs. cbn [mbind option_bind]. change LEAF_NODE with 0.
  destruct (alloc_block_ok malloc bs vb q (i * q) 0 G (vcn_range bs vb q i G Hi) (ltac:(lia))) as [E|(b0 & E & Hb0)]; rewrite E;
    cbn [mbind option_bind]; [by left|right].
  destruct (node_chain Hn es z eq_refl) as (Em & W1 & Wz & Hlen & _). set (sl := es ++ [z]) in *.
  pose proof (enc_len_range true z Wz) as [Hzr Hzl]. pose proof (zlen_nonneg (enc_slots es)).
  rewrite (node_first Hn), (node_end Hn). cbn [mbind option_bind]. rewrite (node_last Hn es z eq_refl). cbn [mbind option_bind].
  assert (ie_length ir (zlen pre + zlen (enc_slots es)) = Some (enc_len z)) as ->
    by (rewrite Em, app_assoc, <-zlen_app; by apply (field_length true)).
  cbn [mbind option_bind]. replace (zlen pre + zlen (enc_slots es) - zlen pre + enc_len z) with (zlen (enc_slots sl)) by lia.
  rewrite (na_eq _ _ _ _ _ _ Hn), (zread_mid pre) by done. cbn [mbind option_bind].
  pose proof Hb0 as (W0 & L0 & He0 & _). change IB_INDEX with 24. unfold ntfs_ie_get_first. rewrite He0. cbn [mbind option_bind].
  pose proof (new_eo_range bs vb q G) as (Hr1 & Hr2 & Hr3). pose proof (ge_range _ _ _ G) as Hbr.
  destruct (write_ok b0 (24 + new_eo bs) (enc_slots sl)) as (b1 & Ew & L1 & F1 & H1); [lia|lia|]. rewrite Ew. cbn [mbind option_bind].
  pose proof (na_slots _ _ _ _ _ _ Hn) as Wsl. assert (wf_bytes b1) as Wb1 by (eapply wf_zwrite; [exact W0 | by apply wf_enc_all | exact Ew]).
  pose proof (empty_block_frame _ _ _ _ b1 _ _ Hb0 F1 (ltac:(lia)) (ltac:(lia)) Wb1) as Hb1.
  rewrite <-(na_eq _ _ _ _ _ _ Hn), Hfl. cbn [mbind option_bind].
  assert (is_byte fl) as Hflb by (eapply zget_Forall; [exact (na_wf _ _ _ _ _ _ Hn) | exact Hfl]).
  unfold set_ih_flags. destruct (zset_ok b1 (24 + 12) fl) as (b2 & E2 & L2 & F2 & H2); [lia|]. rewrite E2. cbn [mbind option_bind].
  assert (empty_block bs (i * q) fl b2) as Hb2.
  { destruct Hb1 as (W & L & He & _ & H3 & H4 & H5 & H6 & H7). destruct F2 as [_ F2].
    assert (forall n a, 0 <= a -> a + Z.of_nat n <= 36 -> ld n b2 a = ld n b1 a) as Hld by (intros n a Ha Hna; apply ld_eq; try lia; intros; apply F2; lia).
    unfold empty_block, entries_offset, le32_to_cpup in *. rewrite !Hld by lia. split_and!; try done; [| lia |].
    - apply zset_Some in E2 as (_ & _ & Hg). eapply (zget_Forall_2 is_byte). intros j y Hy. rewrite Hg in Hy.
      destruct (j =? _); [by injection Hy as <- | by eapply zget_Forall].
    - specialize (H2 0 (ltac:(change (zlen [fl]) with 1; lia))). by rewrite Z.add_0_r, zget_cons_0 in H2. }
  assert (holds b2 (24 + new_eo bs) (enc_slots sl)) as Hh2 by (eapply holds_frame; [exact H1 | exact F2 | lia]).
  pose proof Hb2 as (_ & _ & He2 & _). rewrite He2. cbn [mbind option_bind].
  unfold u32. rewrite wrap_u_small by lia. rewrite Z.add_comm.
  destruct (finish_block bs vb q (i * q) fl k b2 sl) as (b3 & -> & Hib); try done; [by apply (vcn_range bs vb)|].
  cbn [mbind option_bind]. by exists b3.
Qed.

(** ** The root made a node *)

(** The root with its end [ze] first, of any length and node flag; [t] is what
    follows the two bytes after the flags. *)
Record end_first (ir : list Z) (eo : Z) (pre : list Z) (ze : ent) (len fl : Z) (t : list Z) : Prop := {
  ef_eq : ir = pre ++ enc_parts ze len fl (e_rest ze ++ t);
  ef_pre : zlen pre = 16 + eo /\ 16 <= eo < 2 ^ 30;
  ef_eo : entries_offset ir IR_INDEX = Some eo;
  ef_end : wf_ent true ze;
  ef_len : 0 < len < 65536;
  ef_fl : fl = e_flags ze \/ fl = e_flags ze + 1;
  ef_wf : wf_bytes ir }.

Lemma end_flags ze fl : wf_ent true ze -> fl = e_flags ze \/ fl = e_flags ze + 1 ->
  0 <= fl < 65536 /\ flag fl INDEX_ENTRY_END = true /\ Z.lor fl 1 = e_flags ze + 1.
Proof.
  intros Hz Hf. pose proof (we_flags _ _ Hz) as (Hr & Hl & He). pose proof (node_flag_range _ Hr Hl (Some 0)) as [H1 H2]. cbn [node_flag] in H1, H2.
  change INDEX_ENTRY_NODE with 1 in *.
  assert (wf_slot true (ze, Some 0)) as Hs by (split; [done | cbn; unfold in_s64; lia]).
  pose proof (flag_end true (ze, Some 0) Hs) as H3. cbn [fst snd node_flag] in H3. change INDEX_ENTRY_NODE with 1 in H3.
  destruct Hf as [->| ->]; split_and!; try done; try lia. rewrite H2 at 1. by rewrite <-Z.lor_assoc.
Qed.

(** A change confined to the first part. *)
Lemma frame_pre (pre x m' : list Z) lo hi : frame (pre ++ x) m' lo hi -> hi <= zlen pre ->
  exists pre', m' = pre' ++ x /\ zlen pre' = zlen pre /\ frame pre pre' lo hi.
Proof.
  intros [Hl Hf] Hhi. rewrite zlen_app in Hl. pose proof (zlen_nonneg x). exists (take (length pre) m').
  assert (zlen (take (length pre) m') = zlen pre) as Hp by (unfold zlen in *; rewrite length_take; lia).
  assert (drop (length pre) m' = x) as Hd.
  { apply zget_ext. intros j Hj. transitivity (zget m' (zlen pre + j)).
    - rewrite <-(take_drop (length pre) m') at 2. rewrite zget_app_r by lia. f_equal. lia.
    - rewrite Hf by lia. rewrite zget_app_r by lia. f_equal. lia. }
  split_and!; [by rewrite <-Hd, take_drop | done |]. split; [done|]. intros j Hj.
  destruct (Z.ltb_spec j (zlen pre)); [|by rewrite !zget_outside by lia].
  transitivity (zget m' j); [|rewrite Hf by done; by rewrite zget_app_l by lia].
  rewrite <-(take_drop (length pre) m') at 2. by rewrite zget_app_l by lia.
Qed.

Section nodify.
Context {ir : list Z} {eo : Z} {pre : list Z} {ze : ent} {len fl : Z} {t : list Z}.
Hypothesis Hs : end_first ir eo pre ze len fl t.
#[local] Set Default Proof Using "Hs".

Lemma ef_fields : ie_length ir (zlen pre) = Some len /\ ie_flags ir (zlen pre) = Some fl /\ ntfs_ie_end ir (zlen pre) = Some true.
Proof.
  pose proof Hs as [E _ _ Hz Hl Hf _]. destruct (end_flags ze fl Hz Hf) as (Hr & He & _).
  assert (ie_length ir (zlen pre) = Some len) as H1.
  { rewrite E. unfold ie_length, le16_to_cpup. pose proof (parts_zlen true ze len fl (e_rest ze ++ t) Hz) as Hp. pose proof (zlen_nonneg (e_rest ze ++ t)).
    rewrite <-(app_nil_r (enc_parts _ _ _ _)), (ld_in 2 pre _ [] _ 8) by lia.
    pose proof (parts_length true ze len fl (e_rest ze ++ t) Hz) as Hp2. unfold ie_length, le16_to_cpup in Hp2. change (0 + 8) with 8 in Hp2.
    rewrite Hp2. f_equal. apply Z.mod_small. lia. }
  assert (ie_flags ir (zlen pre) = Some fl) as H2.
  { rewrite E. unfold ie_flags, le16_to_cpup. pose proof (parts_zlen true ze len fl (e_rest ze ++ t) Hz) as Hp. pose proof (zlen_nonneg (e_rest ze ++ t)).
    rewrite <-(app_nil_r (enc_parts _ _ _ _)), (ld_in 2 pre _ [] _ 12) by lia.
    pose proof (parts_flags true ze len fl (e_rest ze ++ t) Hz) as Hp2. unfold ie_flags, le16_to_cpup in Hp2. change (0 + 12) with 12 in Hp2.
    rewrite Hp2. f_equal. apply Z.mod_small. lia. }
  split_and!; [done | done |]. unfold ntfs_ie_end. rewrite H2. cbn [mbind option_bind]. by rewrite He.
Qed.

Lemma ef_first : ntfs_ie_get_first ir IR_INDEX = Some (zlen pre).
Proof. pose proof Hs as [_ [Hp _] He _ _ _ _]. unfold ntfs_ie_get_first. rewrite He. cbn. f_equal. unfold IR_INDEX. lia. Qed.

(** The end is where the end of the root must be. *)
Lemma ef_nill il : index_length ir IR_INDEX = Some il -> ntfs_ir_nill ir = Some ir.
Proof.
  intros Hil. destruct ef_fields as (H1 & H2 & H3). unfold ntfs_ir_nill. rewrite ef_first. unfold ntfs_ie_get_end. rewrite Hil.
  cbn [mbind option_bind]. unfold ntfs_ie_get_last, rounds. cbn [get_last_loop]. rewrite H3. cbn [mbind option_bind].
  destruct (_ <? _); cbn [mbind option_bind]; by rewrite Z.ltb_irrefl.
Qed.

(** The stores of nodify, after the end is in its place. *)
Lemma ef_stores : exists ir' pre',
  (ie ← ntfs_ie_get_first ir IR_INDEX;
   fl ← ie_flags ir ie;
   ir ← set_ie_flags ir ie (Z.lor fl INDEX_ENTRY_NODE);
   ir ← set_ie_length ir ie (sizeof_INDEX_ENTRY_HEADER + sizeof_VCN);
   ir ← set_ih_flags ir IR_INDEX LARGE_INDEX;
   eo ← entries_offset ir IR_INDEX;
   len ← ie_length ir ie;
   ir ← set_index_length ir IR_INDEX (u32 (eo + len));
   il ← index_length ir IR_INDEX;
   ir ← set_allocated_size ir IR_INDEX il;
   Some (ir, s32 (IR_INDEX + il))) = Some (ir', 16 + eo + 24) /\
  end_first ir' eo pre' ze 24 (e_flags ze + 1) t /\ same_head ir ir' /\ zlen ir' = zlen ir /\
  ih_flags ir' IR_INDEX = Some LARGE_INDEX /\ index_length ir' IR_INDEX = Some (eo + 24) /\ allocated_size ir' IR_INDEX = Some (eo + 24).
Proof.
  pose proof Hs as [E [Hp He] Heo Hz Hl Hf Hw]. destruct (end_flags ze fl Hz Hf) as (Hr & Hend & Hlor). pose proof (end_flags ze (e_flags ze + 1) Hz (or_intror eq_refl)) as (Hr' & _).
  destruct ef_fields as (H1 & H2 & _). rewrite ef_first. cbn [mbind option_bind]. rewrite H2. cbn [mbind option_bind]. change INDEX_ENTRY_NODE with 1. rewrite Hlor.
  set (tt := e_rest ze ++ t) in *. pose proof (zlen_nonneg tt).
  assert (forall l f v, set_ie_flags (pre ++ enc_parts ze l f tt) (zlen pre) v = Some (pre ++ enc_parts ze l v tt)) as Sf.
  { intros l f v. unfold set_ie_flags, put_le16, enc_parts. rewrite (app_assoc _ (le_encode 2 (e_klen ze))), (app_assoc (e_head ze)), app_assoc.
    rewrite st_mid by (rewrite !zlen_app, !zlen_le_encode; pose proof (we_head _ _ Hz); lia). by rewrite <-!app_assoc. }
  assert (forall l f v, set_ie_length (pre ++ enc_parts ze l f tt) (zlen pre) v = Some (pre ++ enc_parts ze v f tt)) as Sl.
  { intros l f v. unfold set_ie_length, put_le16, enc_parts. rewrite (app_assoc pre).
    rewrite st_mid by (rewrite !zlen_app; pose proof (we_head _ _ Hz); lia). by rewrite <-!app_assoc. }
  rewrite E, Sf. cbn [mbind option_bind]. rewrite Sl. cbn [mbind option_bind]. change (sizeof_INDEX_ENTRY_HEADER + sizeof_VCN) with 24.
  set (x := enc_parts ze 24 (e_flags ze + 1) tt).
  assert (wf_bytes pre) as Wp by (rewrite E in Hw; by apply Forall_app in Hw as [? _]).
  assert (wf_bytes tt) as Wt by (rewrite E in Hw; unfold wf_bytes, enc_parts in Hw; rewrite !Forall_app in Hw; apply Hw).
  assert (wf_bytes x) as Wx by (unfold x, enc_parts, wf_bytes; rewrite !Forall_app; split_and!; try apply wf_le_encode; [apply (we_head _ _ Hz) | done]).
  set (m := pre ++ x). assert (zlen m = zlen pre + zlen x) as Lm by apply zlen_app.
  assert (zlen x = 14 + zlen tt) as Lx by (by apply (parts_zlen true)).
  assert (wf_bytes m) as Wm by (by apply Forall_app).
  unfold set_ih_flags, set_index_length, set_allocated_size, put_le32, entries_offset, index_length, le32_to_cpup in *.
  change IR_INDEX with 16 in *. change LARGE_INDEX with 1.
  destruct (zset_ok m (16 + 12) 1) as (m1 & E1 & L1 & F1 & G1); [lia|]. rewrite E1. cbn [mbind option_bind].
  assert (wf_bytes m1) as W1.
  { apply zset_Some in E1 as (_ & _ & Hg). eapply (zget_Forall_2 is_byte). intros j y Hy. rewrite Hg in Hy.
    destruct (j =? _); [injection Hy as <-; unfold is_byte; lia | by eapply zget_Forall]. }
  assert (frame m m1 20 29) as F1' by (eapply frame_weaken; [exact F1 | lia | lia]).
  destruct (frame_pre pre x m1 20 29 F1' (ltac:(lia))) as (p1 & Em1 & Lp1 & Fp1).
  assert (ld 4 m1 16 = Some eo) as ->.
  { rewrite <-Heo, E, Em1, !ld_prefix by lia. apply ld_eq; try lia. intros j Hj. apply Fp1. lia. }
  cbn [mbind option_bind].
  assert (ie_length m1 (zlen pre) = Some 24) as ->.
  { rewrite Em1, <-Lp1. unfold ie_length, le16_to_cpup. 
    rewrite <-(app_nil_r x), (ld_in 2 p1 x [] _ 8) by lia. exact (parts_length true ze 24 _ tt Hz). }
  cbn [mbind option_bind]. unfold u32. rewrite wrap_u_small by lia.
  destruct (st_keep 4 m1 (16 + 4) (eo + 24)) as (m2 & -> & W2 & L2 & F2 & G2); [lia|lia|done|]. cbn [mbind option_bind].
  assert (ld 4 m2 (16 + 4) = Some (eo + 24)) as ->
    by (apply holds_ld_small; [done | lia | lia | change (256 ^ Z.of_nat 4) with (2 ^ 32); lia]).
  cbn [mbind option_bind].
  destruct (st_keep 4 m2 (16 + 8) (eo + 24)) as (m3 & -> & W3 & L3 & F3 & G3); [lia|lia|done|]. cbn [mbind option_bind].
  assert (frame m m3 20 29) as F by frame_chain. destruct (frame_pre pre x m3 20 29 F (ltac:(lia))) as (p3 & Em3 & Lp3 & Fp3).
  exists m3, p3. rewrite <-E. rewrite s32_small by lia. replace (16 + (eo + 24)) with (16 + eo + 24) by lia.
  assert (forall j, 0 <= j < 20 -> zget m3 j = zget ir j) as Hsame.
  { intros j Hj. destruct F as [_ F]. rewrite F by lia. unfold m. rewrite E, !zget_app_l by lia. done. }
  assert (zlen ir = zlen m) as Lir.
  { rewrite E. unfold m, x. rewrite !zlen_app, !(parts_zlen true) by done. done. }
  split_and!; try done.
  - split; [done | lia | | done | lia | by right | done].
    unfold entries_offset, le32_to_cpup. rewrite <-Heo. apply ld_eq; try lia. intros j Hj. apply Hsame. lia.
  - lia.
  - unfold ih_flags. assert (holds m3 (16 + 12) [1]) as G1' by carry. specialize (G1' 0). rewrite Z.add_0_r in G1'. apply G1'.
    change (zlen [1]) with 1. lia.
  - apply holds_ld_small; [carry | lia | lia | change (256 ^ Z.of_nat 4) with (2 ^ 32); lia].
  - apply holds_ld_small; [carry | lia | lia | change (256 ^ Z.of_nat 4) with (2 ^ 32); lia].
Qed.
End nodify.

(** *** From a root to a node *)

(** What ntfs_ir_nill leaves, whatever it starts from. *)
Definition nodifiable (ir : list Z) (eo : Z) (ze : ent) : Prop :=
  exists ir1 pre len fl t, ntfs_ir_nill ir = Some ir1 /\ end_first ir1 eo pre ze len fl t /\ same_head ir ir1 /\ zlen ir1 = zlen ir.

Lemma root_nodifiable ir eo pre es z post : node_at ir IR_INDEX eo pre (es ++ [z]) post -> eo < 2 ^ 30 -> nodifiable ir eo z.1.
Proof.
  intros Hn He30. destruct (node_chain Hn es z eq_refl) as (Em & W1 & Wz & Hlen & _). pose proof (enc_len_range true z Wz) as [Hzr Hzl].
  pose proof Hn as [_ _ Heo Hp Hent _ Hw _]. change IR_INDEX with 16 in Hp, Heo. pose proof (zlen_nonneg (enc_slots es)) as Hes0.
  pose proof (node_flag_range _ (proj1 (we_flags _ _ (proj1 Wz))) (proj1 (proj2 (we_flags _ _ (proj1 Wz)))) z.2) as [Hfr _].
  assert (e_flags z.1 + node_flag z.2 = e_flags z.1 \/ e_flags z.1 + node_flag z.2 = e_flags z.1 + 1) as Hfl
    by (destruct z.2; cbn; unfold INDEX_ENTRY_NODE; lia).
  assert (forall a, enc z ++ a = enc_parts z.1 (enc_len z) (e_flags z.1 + node_flag z.2) (e_rest z.1 ++ vcn_bytes z.2 ++ a)) as Ep
    by (intros a; rewrite enc_as_parts; unfold enc_parts; by rewrite <-!app_assoc).
  unfold nodifiable, ntfs_ir_nill. rewrite (node_first Hn), (node_end Hn). cbn [mbind option_bind].
  rewrite (node_last Hn es z eq_refl). cbn [mbind option_bind].
  destruct (Z.ltb_spec (zlen pre) (zlen pre + zlen (enc_slots es))) as [Hlt|Hge].
  - assert (ie_length ir (zlen pre + zlen (enc_slots es)) = Some (zlen (enc z))) as ->
      by (rewrite Em, app_assoc, <-zlen_app, Hzl; by apply (field_length true)).
    cbn [mbind option_bind]. unfold memmove.
    assert (zread ir (zlen pre + zlen (enc_slots es)) (zlen (enc z)) = Some (enc z)) as ->
      by (rewrite Em, app_assoc; apply zread_mid; [by rewrite zlen_app | done]).
    cbn [mbind option_bind]. set (x := enc_slots es ++ enc z). set (y := drop (length (enc z)) x).
    assert (zlen (take (length (enc z)) x) = zlen (enc z)) as Ht by (unfold x, zlen in *; rewrite length_take, length_app; lia).
    assert (ir = pre ++ take (length (enc z)) x ++ y ++ post) as Ex
      by (unfold y; rewrite (app_assoc (take _ _)), take_drop; unfold x; by rewrite <-app_assoc).
    assert (zwrite ir (zlen pre) (enc z) = Some (pre ++ enc z ++ y ++ post)) as Ew by (rewrite Ex at 1; by rewrite zwrite_mid).
    rewrite Ew. exists (pre ++ enc z ++ y ++ post), pre, (enc_len z), (e_flags z.1 + node_flag z.2), (vcn_bytes z.2 ++ y ++ post).
    assert (forall j, 0 <= j < 20 -> zget (pre ++ enc z ++ y ++ post) j = zget ir j) as Hs
      by (intros j Hj; rewrite Em, !zget_app_l by lia; done).
    split_and!; [done | | done | by apply zwrite_Some in Ew as (_ & _ & ? & _)].
    split; [by rewrite Ep | lia | | apply Wz | lia | done | eapply wf_zwrite; [exact Hw | by eapply wf_enc | exact Ew]].
    unfold entries_offset, le32_to_cpup in *. rewrite <-Hent, Em. change IR_INDEX with 16. by rewrite !ld_prefix by lia.
  - assert (enc_slots es = []) as E0 by (destruct (enc_slots es); [done | rewrite zlen_cons in Hge; pose proof (zlen_nonneg l); lia]).
    exists ir, pre, (enc_len z), (e_flags z.1 + node_flag z.2), (vcn_bytes z.2 ++ post). split_and!; try done.
    split; [|lia|done|apply Wz|lia|done|done]. rewrite Em, E0. cbn [app]. by rewrite Ep.
Qed.

(** A root with one slot is what it becomes. *)
Lemma nodify_ok ir eo ze : nodifiable ir eo ze -> exists ir' pre t,
  nodify ir = Some (ir', 16 + eo + 24) /\ end_first ir' eo pre ze 24 (e_flags ze + 1) t /\ same_head ir ir' /\ zlen ir' = zlen ir /\
  ih_flags ir' IR_INDEX = Some LARGE_INDEX /\ index_length ir' IR_INDEX = Some (eo + 24) /\ allocated_size ir' IR_INDEX = Some (eo + 24) /\
  nodifiable ir' eo ze.
Proof.
  intros (ir1 & pre & len & fl & t & E & Hef & Hh & Hl). unfold nodify. rewrite E. cbn [mbind option_bind].
  destruct (ef_stores Hef) as (ir' & pre' & -> & Hef' & Hh' & Hl' & Hfl & Hil & Hal).
  exists ir', pre', t. split_and!; try done; [by eapply same_head_trans | congruence |].
  exists ir', pre', 24, (e_flags ze + 1), t. split_and!; try done. by eapply ef_nill.
Qed.

(** Resized, it takes the VCN of the block. *)
Lemma nodified_root ir eo pre ze t v : end_first ir eo pre ze 24 (e_flags ze + 1) t -> in_s64 v ->
  index_length ir IR_INDEX = Some (eo + 24) ->
  let ir2 := resized ir (16 + eo + 24) in
  ntfs_ie_get_first ir2 IR_INDEX = Some (zlen pre) /\
  exists ir3, ntfs_ie_set_vcn ir2 (zlen pre) v = Some ir3 /\ node_at ir3 IR_INDEX eo pre [(ze, Some v)] [] /\
    zlen ir3 = 16 + eo + 24 /\ forall j, 0 <= j < 16 + eo -> ir3.[j] = ir.[j].
Proof.
  intros [E [Hp He] Heo Hz _ _ Hw] Hv Hil ir2. pose proof (we_end _ _ Hz eq_refl) as Hr2.
  pose proof (parts_zlen true ze 24 (e_flags ze + 1) (e_rest ze) Hz) as Hpz. rewrite Hr2 in Hpz.
  set (x := enc_parts ze 24 (e_flags ze + 1) (e_rest ze)) in *.
  assert (ir = (pre ++ x) ++ t) as E' by (rewrite E; unfold x, enc_parts; by rewrite <-!app_assoc).
  assert (zlen ir2 = 16 + eo + 24) as L2 by (apply zlen_resized; lia). pose proof (zlen_nonneg t) as Ht0.
  assert (zlen ir = 32 + eo + zlen t) as Lir by (rewrite E', !zlen_app; lia).
  assert (wf_bytes ir2) as W2 by (by apply resized_wf).
  assert (forall j, 0 <= j < 32 + eo -> zget ir2 j = zget ir j) as Hs by (intros j Hj; apply resized_same; lia).
  assert (ir2 = pre ++ x ++ drop (Z.to_nat (32 + eo)) ir2) as E2.
  { rewrite app_assoc. rewrite <-(take_drop (Z.to_nat (32 + eo)) ir2) at 1. f_equal. apply zget_ext. intros j Hj.
    assert (zlen (take (Z.to_nat (32 + eo)) ir2) = 32 + eo) as Lt by (unfold zlen in *; rewrite length_take; lia).
    destruct (Z.ltb_spec j (32 + eo)); [|rewrite !zget_outside by (rewrite ?zlen_app; lia); done].
    transitivity (zget ir2 j).
    - rewrite <-(take_drop (Z.to_nat (32 + eo)) ir2) at 2. by rewrite zget_app_l by lia.
    - rewrite Hs by lia. rewrite E'. rewrite zget_app_l by (rewrite zlen_app; lia). done. }
  set (bs8 := drop _ ir2) in *.
  assert (zlen bs8 = 8) as L8 by (unfold bs8, zlen in *; rewrite length_drop; lia).
  destruct (signed_bytes bs8 (Forall_drop _ _ _ W2) L8) as (v0 & Hv0 & E8).
  assert (x ++ bs8 = enc (ze, Some v0)) as Ex.
  { rewrite E8. rewrite enc_as_parts. cbn [fst snd vcn_bytes node_flag]. unfold enc_len. cbn [fst snd]. rewrite zlen_vcn_bytes, Hr2.
    unfold x, enc_parts. by rewrite <-!app_assoc. }
  rewrite Ex in E2. assert (wf_slot true (ze, Some v0)) as Ws by (by split).
  assert (node_at ir2 IR_INDEX eo pre [(ze, Some v0)] []) as Hn.
  { assert (forall a, 0 <= a -> a + 4 <= 32 -> ld 4 ir2 a = ld 4 ir a) as Hld by (intros; apply ld_eq; try lia; intros; apply Hs; lia).
    unfold index_length, entries_offset, le32_to_cpup in *. change IR_INDEX with 16 in *.
    split; [rewrite E2 at 1; by rewrite enc_slots_1, app_nil_r | lia | lia | lia | | | done | by apply wf_slots_1].
    - unfold entries_offset, le32_to_cpup. by rewrite Hld by lia.
    - unfold index_length, le32_to_cpup. rewrite Hld, Hil by lia. do 2 f_equal. rewrite enc_slots_1.
      rewrite <-Ex, zlen_app. lia. }
  split; [exact (node_first Hn)|].
  destruct (node_set_vcn ir2 IR_INDEX eo pre [] ze v0 v [] [] Hn Hv) as (ir3 & E3 & Hn3 & L3).
  change (zlen (enc_slots [])) with 0 in E3. rewrite Z.add_0_r in E3. exists ir3. split_and!; [done | done | lia |].
  intros j Hj. rewrite (na_eq _ _ _ _ _ _ Hn3), zget_app_l by lia. rewrite E, zget_app_l by lia. done.
Qed.

(** ** The root of an index *)

Section root.
Context {bs rule : Z} {k : bool} {ir : list Z} {sl : list slot} {eo : Z} {pre post : list Z}.
Hypothesis Hr : iroot_parts bs rule k ir sl eo pre post.
#[local] Set Default Proof Using "Hr".

Lemma ir_extent : zlen ir = 16 + eo + zlen (enc_slots sl) + zlen post /\ 16 <= eo /\ zlen pre = 16 + eo /\ wf_bytes ir /\
  0 <= zlen (enc_slots sl) /\ 0 <= zlen post.
Proof.
  pose proof Hr as [[E _ He Hp _ _ Hw _] _ _ _ _ _]. change IR_INDEX with 16 in Hp. rewrite E at 1. rewrite !zlen_app.
  split_and!; [lia | done | done | done | apply zlen_nonneg | apply zlen_nonneg].
Qed.

(** A change of the entries keeps the other fields. *)
Lemma iroot_ext ir' pre' sl' post' k' : node_at ir' IR_INDEX eo pre' sl' post' -> uniform k' sl' ->
  same_head ir ir' ->
  (exists fl, ih_flags ir' IR_INDEX = Some fl /\ Z.land fl NODE_MASK = if k' then LARGE_INDEX else SMALL_INDEX) ->
  (exists al, allocated_size ir' IR_INDEX = Some al /\ IR_INDEX + al <= zlen ir') ->
  iroot_parts bs rule k' ir' sl' eo pre' post'.
Proof.
  intros Hn Hu Hs Hfl Hal. pose proof ir_extent as (Hl & He & _ & _ & H0 & H1). pose proof Hr as [_ _ Hrule Hbs _ _].
  assert (16 + eo <= zlen ir') as Hl'.
  { pose proof Hn as [E _ _ Hp _ _ _ _]. change IR_INDEX with 16 in Hp. rewrite E, zlen_app. pose proof (zlen_nonneg (enc_slots sl' ++ post')). lia. }
  assert (forall a, 0 <= a -> a + 4 <= 20 -> ld 4 ir' a = ld 4 ir a) as Hld by (intros a H2 H3; apply ld_eq; try lia; intros j Hj; apply Hs; lia).
  split; try done; unfold collation_rule, index_block_size, le32_to_cpup in *; by rewrite Hld by lia.
Qed.

Lemma iroot_edit ir' pre' sl' post' : node_edit ir IR_INDEX eo pre post ir' pre' sl' post' -> uniform k sl' ->
  iroot_parts bs rule k ir' sl' eo pre' post'.
Proof.
  intros [Hn [Hl Hs _ _] Hz] Hu. pose proof ir_extent as (Hir & He & Hp & _ & H0 & H1). pose proof Hr as [Hn0 _ _ _ (fl & Hf & Hf1) (al & Ha & Ha1)].
  assert (forall j, 0 <= j < 16 + eo -> ~ (20 <= j < 24) -> ir'.[j] = ir.[j]) as Hsame.
  { intros j Hj Hj'. rewrite (na_eq _ _ _ _ _ _ Hn), (na_eq _ _ _ _ _ _ Hn0), !zget_app_l by lia. apply Hs. unfold IR_INDEX. lia. }
  apply iroot_ext; [done | done | intros j Hj; apply Hsame; lia | |].
  - exists fl. split; [|done]. unfold ih_flags in *. change IR_INDEX with 16 in *. rewrite Hsame by lia. done.
  - exists al. split; [|lia]. unfold allocated_size, le32_to_cpup in *. change IR_INDEX with 16 in *. rewrite <-Ha. apply ld_eq; try lia.
    intros j Hj. apply Hsame; lia.
Qed.

(** Insertion in the room that is left. *)
Lemma root_insert (s1 : list slot) s (s2 : list slot) al il : sl = s1 ++ s2 -> s2 <> [] -> wf_slot false s -> bool_decide (is_Some s.2) = k ->
  allocated_size ir IR_INDEX = Some al -> index_length ir IR_INDEX = Some il -> il + enc_len s <= al ->
  exists ir', ntfs_ie_insert ir IR_INDEX (enc s) (IR_INDEX + eo + zlen (enc_slots s1)) = Some ir' /\ iroot bs rule k ir' (s1 ++ s :: s2) /\
    zlen ir' = zlen ir.
Proof.
  intros E Hne Hs Hk Ha Hi Hfit. pose proof ir_extent as (Hir & He & Hp & Hw & H0 & H1). pose proof Hr as [Hn Hu _ _ _ (al' & Ha' & Ha1)].
  rewrite Ha' in Ha. injection Ha as ->. rewrite (na_length _ _ _ _ _ _ Hn) in Hi. injection Hi as <-. change IR_INDEX with 16 in *.
  assert (0 <= al < 2 ^ 32) as Hal by (apply (ld_range 4) in Ha'; done). rewrite E in Hn, Hu, Hfit, Hir.
  destruct (node_insert ir 16 eo pre s1 s2 post s Hn Hne Hs) as (ir' & pre' & E1 & Hed); [lia | lia |].
  exists ir'. rewrite <-Hp. split; [done|]. split; [|apply Hed]. eexists _, _, _. eapply iroot_edit; [exact Hed|].
  apply uniform_app in Hu as [U1 U2]. apply uniform_app. split; [done|]. by apply uniform_cons.
Qed.

(** The value resized, with its new size in the header. *)
Lemma root_resized n : IR_INDEX <= n -> 16 + eo + zlen (enc_slots sl) <= n < 2 ^ 31 ->
  exists ir' pre' post', set_allocated_size (resized ir n) IR_INDEX (u32 (n - IR_INDEX)) = Some ir' /\
    iroot_parts bs rule k ir' sl eo pre' post' /\ zlen ir' = n /\ zlen post' = n - (16 + eo + zlen (enc_slots sl)) /\
    index_length ir' IR_INDEX = Some (eo + zlen (enc_slots sl)).
Proof.
  intros Hn16 Hn. pose proof ir_extent as (Hir & He & Hp & Hw & H0 & H1). pose proof Hr as [Hnode Hu _ _ (fl & Hf & Hf1) _].
  pose proof (na_eq _ _ _ _ _ _ Hnode) as E. set (v := resized ir n). assert (zlen v = n) as Lv by (apply zlen_resized; lia).
  assert (forall j, j < 16 + eo + zlen (enc_slots sl) -> v.[j] = ir.[j]) as Hs by (intros j Hj; apply resized_same; lia).
  set (c := 16 + eo + zlen (enc_slots sl)) in *. set (post' := drop (Z.to_nat c) v).
  assert (v = pre ++ enc_slots sl ++ post') as Ev.
  { rewrite app_assoc. rewrite <-(take_drop (Z.to_nat c) v) at 1. f_equal. apply zget_ext. intros j Hj.
    assert (zlen (take (Z.to_nat c) v) = c) as Lt by (unfold zlen in *; rewrite length_take; lia).
    destruct (Z.ltb_spec j c); [|rewrite !zget_outside by (rewrite ?zlen_app; lia); done].
    transitivity (v.[j]); [rewrite <-(take_drop (Z.to_nat c) v) at 2; by rewrite zget_app_l by lia|].
    rewrite Hs, E, app_assoc, zget_app_l by (rewrite ?zlen_app; lia). done. }
  assert (zlen post' = n - c) as Lp by (unfold post', zlen in *; rewrite length_drop; lia).
  change IR_INDEX with 16 in *. unfold u32. rewrite wrap_u_small by lia. unfold set_allocated_size, put_le32.
  assert (wf_bytes v) as Wv by (by apply resized_wf).
  destruct (st_keep 4 v (16 + 8) (n - 16)) as (ir' & E' & W' & L' & F' & H'); [lia|lia|done|].
  rewrite Ev in F'. destruct (frame_pre pre (enc_slots sl ++ post') ir' _ _ F' (ltac:(lia))) as (pre' & Ei & Lp' & Fp).
  assert (forall j, 0 <= j < c -> ~ (24 <= j < 28) -> ir'.[j] = ir.[j]) as Hsame.
  { intros j Hj Hj'. destruct F' as [_ F']. rewrite F', <-Ev, Hs by lia. done. }
  assert (forall a, 0 <= a -> a + 4 <= 24 -> ld 4 ir' a = ld 4 ir a) as Hld by (intros; apply ld_eq; try lia; intros; apply Hsame; lia).
  assert (index_length ir' 16 = Some (eo + zlen (enc_slots sl))) as Hil.
  { unfold index_length, le32_to_cpup. rewrite Hld by lia. apply (na_length _ _ _ _ _ _ Hnode). }
  exists ir', pre', post'. split_and!; [done | | lia | done | done]. apply iroot_ext; [| done | | |].
  - split; [exact Ei | done | done | change IR_INDEX with 16; lia | | done | done | apply (na_slots _ _ _ _ _ _ Hnode)].
    unfold entries_offset, le32_to_cpup. change IR_INDEX with 16. rewrite Hld by lia. apply (na_entries _ _ _ _ _ _ Hnode).
  - intros j Hj. apply Hsame; lia.
  - exists fl. split; [|done]. unfold ih_flags in *. change IR_INDEX with 16 in *. by rewrite Hsame by lia.
  - exists (n - 16). change IR_INDEX with 16. split; [|lia]. unfold allocated_size, le32_to_cpup.
    apply holds_ld_small; [done | lia | lia | change (256 ^ Z.of_nat 4) with (2 ^ 32); lia].
Qed.
End root.

(** ** The size of the root *)

Section laws.
Context {R A : Type} `{!AttrOps A, !AttrResize A, !RootOps R A, !RootLaws R A}.
Implicit Types (ni : inode R A) (r : R).

(** ntfs_ir_truncate: the same slots with room for [n] bytes, or the same root
    when the record has no room. *)
Lemma ir_truncate_ok bs rule k ni ir sl eo pre post n : ir_value (root ni) = Ok ir -> iroot_parts bs rule k ir sl eo pre post ->
  eo + zlen (enc_slots sl) <= n < 2 ^ 31 - 16 ->
  exists ni' s, ntfs_ir_truncate ni n = Some (ni', s) /\ ia ni' = ia ni /\ bm ni' = bm ni /\ snd (ir_attr_truncate (root ni) (n + IR_INDEX)) = s /\
    match s with
    | STATUS_OK => exists ir' pre' post', allocated_size ir' IR_INDEX = Some n /\ ir_value (root ni') = Ok ir' /\ iroot_parts bs rule k ir' sl eo pre' post' /\
        zlen post' = n - (eo + zlen (enc_slots sl)) /\ index_length ir' IR_INDEX = Some (eo + zlen (enc_slots sl))
    | STATUS_RESIDENT_ATTRIBUTE_FILLED_MFT => ir_value (root ni') = Ok ir
    | STATUS_ERROR _ => True
    | _ => False
    end.
Proof.
  intros Hv Hr Hn. pose proof (ir_extent Hr) as (_ & He & _ & _ & H0 & _). unfold ntfs_ir_truncate.
  destruct (ir_attr_truncate (root ni) (n + IR_INDEX)) as [r' s] eqn:E.
  pose proof (ir_truncate_law _ _ _ _ _ E Hv) as Hlaw. change IR_INDEX with 16 in *. specialize (Hlaw (ltac:(lia))).
  destruct s; cbn [status_is_ok]; try (eexists _, _; split_and!; [reflexivity | done | done | done | done]).
  rewrite Hlaw. destruct (root_resized Hr (n + 16)) as (ir' & pre' & post' & E2 & Hr' & Lz & Lp & Hil); [change IR_INDEX with 16; lia|lia|].
  change IR_INDEX with 16 in *. replace (n + 16 - 16) with n in E2 by lia. rewrite E2. cbn [mbind option_bind].
  eexists _, _. split; [reflexivity|]. cbn. split_and!; [done | done | done |]. exists ir', pre', post'. split_and!; try done; [| |lia].
  { unfold set_allocated_size, put_le32 in E2. unfold allocated_size, le32_to_cpup. rewrite (ld_st_same 4 _ _ _ _ E2). unfold u32. rewrite wrap_u_small by lia.
    f_equal. apply Z.mod_small. change (256 ^ Z.of_nat 4) with (2 ^ 32). lia. }
  apply (ir_store_law _ _ _ Hlaw). rewrite Lz, zlen_resized by lia. done.
Qed.

(** Nothing before the entries but the lengths and the flags changed. *)
Lemma nodified_iroot bs rule k ir sl eo pre post ze ir' ir2 pre' v : iroot_parts bs rule k ir sl eo pre post ->
  same_head ir ir' -> ih_flags ir' IR_INDEX = Some LARGE_INDEX -> allocated_size ir' IR_INDEX = Some (eo + 24) -> 32 + eo <= zlen ir' ->
  node_at ir2 IR_INDEX eo pre' [(ze, Some v)] [] -> zlen ir2 = 16 + eo + 24 -> (forall j, 0 <= j < 16 + eo -> ir2.[j] = ir'.[j]) ->
  iroot bs rule true ir2 [(ze, Some v)].
Proof.
  intros Hr Hh Hfl Hal Hl' Hn Hl Hs. pose proof (ir_extent Hr) as (_ & He & _). exists eo, pre', []. eapply iroot_ext; [exact Hr | done | | | |].
  - by constructor.
  - intros j Hj. rewrite Hs by lia. apply Hh; lia.
  - exists LARGE_INDEX. split; [|done]. unfold ih_flags in *. change IR_INDEX with 16 in *. by rewrite Hs by lia.
  - exists (eo + 24). split; [|change IR_INDEX with 16; lia]. unfold allocated_size, le32_to_cpup in *. change IR_INDEX with 16 in *. rewrite <-Hal.
    apply ld_eq; try lia. intros j Hj. apply Hs. lia.
Qed.

(** A root that is being made a node. *)
Definition shrinking (ir0 ir : list Z) (eo : Z) (ze : ent) : Prop := nodifiable ir eo ze /\ same_head ir0 ir /\ zlen ir = zlen ir0.

(** The end of a round that finds the space. *)
Lemma reparent_done bs rule k ir0 sl eo pre post ze r r' ir1 v : iroot_parts bs rule k ir0 sl eo pre post ->
  (exists pre' t, end_first ir1 eo pre' ze 24 (e_flags ze + 1) t) -> same_head ir0 ir1 -> ih_flags ir1 IR_INDEX = Some LARGE_INDEX ->
  index_length ir1 IR_INDEX = Some (eo + 24) -> allocated_size ir1 IR_INDEX = Some (eo + 24) -> in_s64 v ->
  ir_value_resize r (16 + eo + 24) = (r', Ok tt) -> ir_value r = Ok ir1 ->
  exists r2 ir2, (match ir_value r' with
     | Err _ => Some (r', STATUS_ERROR EIO)
     | Ok ir => ie ← ntfs_ie_get_first ir IR_INDEX; ir ← ntfs_ie_set_vcn ir ie v; Some (ir_store r' ir, STATUS_OK)
     end) = Some (r2, STATUS_OK) /\ ir_value r2 = Ok ir2 /\ iroot bs rule true ir2 [(ze, Some v)].
Proof.
  intros Hr (pre' & t & Hef) Hh Hfl Hil Hal Hv Hres Hval. pose proof (ir_extent Hr) as (_ & He & _). pose proof (ir_resize_law _ _ _ _ _ Hres Hval) as Hlaw. cbn beta iota in Hlaw.
  rewrite Hlaw by lia. destruct (nodified_root ir1 eo pre' ze t v Hef Hv Hil) as (-> & ir3 & E3 & Hn3 & L3 & S3). cbn [mbind option_bind]. rewrite E3.
  cbn [mbind option_bind]. eexists _, ir3. split; [reflexivity|]. split.
  - apply (ir_store_law _ _ _ (Hlaw (ltac:(lia)))). rewrite L3, zlen_resized by lia. done.
  - eapply nodified_iroot; try done. pose proof Hef as [E [Hp _] _ Hz _ _ _]. rewrite E, zlen_app, (parts_zlen true) by done.
    rewrite zlen_app. pose proof (we_end _ _ Hz eq_refl). pose proof (zlen_nonneg t). lia.
Qed.

(** One round finds the space, fails, or leaves the same root in another record,
    where there is room. *)
Lemma reparent_round bs rule k ir0 sl eo pre post ze f r ir v : iroot_parts bs rule k ir0 sl eo pre post -> zlen ir0 < 2 ^ 31 -> in_s64 v ->
  ir_value r = Ok ir -> shrinking ir0 ir eo ze ->
  (exists r2 ir2, reparent_root (S f) r v = Some (r2, STATUS_OK) /\ ir_value r2 = Ok ir2 /\ iroot bs rule true ir2 [(ze, Some v)]) \/
  (exists r2, reparent_root (S f) r v = Some (r2, STATUS_ERROR EIO)) \/
  (exists r2 ir2, reparent_root (S f) r v = reparent_root f r2 v /\ ir_value r2 = Ok ir2 /\ shrinking ir0 ir2 eo ze /\
     (forall ir3, zlen ir3 = zlen ir2 -> snd (ir_value_resize (ir_store r2 ir3) (16 + eo + 24)) <> Err ENOSPC)).
Proof.
  intros Hr Hmax Hv Hval (Hnod & Hh & Hl). pose proof (ir_extent Hr) as (Hz0 & He & _ & _ & Hz1 & Hz2). cbn [reparent_root]. rewrite Hval.
  destruct (nodify_ok ir eo ze Hnod) as (ir1 & pre1 & t1 & -> & Hef & Hh1 & Hl1 & Hfl & Hil & Hal & Hnod1). cbn [mbind option_bind].
  assert (ir_value (ir_store r ir1) = Ok ir1) as Hval1 by (by eapply ir_store_law).
  assert (same_head ir0 ir1) as Hh01 by (by eapply same_head_trans).
  destruct (ir_value_resize (ir_store r ir1) (16 + eo + 24)) as [r' res] eqn:Eres. destruct res as [[]|e].
  { left. eapply reparent_done; [exact Hr | by exists pre1, t1 | done | done | done | done | done | exact Eres | done]. }
  pose proof (ir_resize_law _ _ _ _ _ Eres Hval1 (ltac:(lia))) as Hlaw. cbn beta iota in Hlaw.
  destruct (decide (e = ENOSPC)) as [->|Hne].
  2: { rewrite bool_decide_false by done. cbn. right. left. by eexists. }
  rewrite bool_decide_true by done. cbn [negb]. specialize (Hlaw eq_refl).
  assert (exists r1 b, (if ir_al_entry r' then (r', true) else ir_add_attrlist r') = (r1, b) /\ ir_value r1 = Ok ir1) as (r1 & b & -> & Hval2).
  { destruct (ir_al_entry r'); [by exists r', true|]. destruct (ir_add_attrlist r') as [r1 b] eqn:Eal. exists r1, b. split; [done|].
    by rewrite (ir_attrlist_law _ _ _ Eal). }
  destruct b; [|right; left; by eexists]. rewrite Hval2.
  destruct (ir_move_away r1 _) as [r2 moved] eqn:Emv. destruct moved; [|right; left; by eexists].
  rewrite s32_small in Emv by lia. destruct (ir_move_law _ _ _ _ Emv Hval2) as [Hval3 Hroom]. right. right.
  exists r2, ir1. split; [done|]. split; [done|]. split; [split_and!; [done | done | lia]|].
  intros ir3 Hz3. apply Hroom; [done | lia].
Qed.

(** Two rounds are enough. *)
Lemma reparent_root_ok bs rule k ir sl eo pre post es z f r v : iroot_parts bs rule k ir sl eo pre post -> sl = es ++ [z] ->
  zlen ir < 2 ^ 30 -> in_s64 v -> ir_value r = Ok ir ->
  (exists r2 ir2, reparent_root (S (S f)) r v = Some (r2, STATUS_OK) /\ ir_value r2 = Ok ir2 /\ iroot bs rule true ir2 [(z.1, Some v)]) \/
  (exists r2, reparent_root (S (S f)) r v = Some (r2, STATUS_ERROR EIO)).
Proof.
  intros Hr -> Hmax Hv Hval. pose proof (ir_extent Hr) as (Hz0 & He & _ & _ & Hz1 & Hz2). pose proof Hr as [Hn _ _ _ _ _].
  assert (shrinking ir ir eo z.1) as Hs by (split; [eapply root_nodifiable; [exact Hn | lia] | by split]).
  destruct (reparent_round _ _ _ _ _ _ _ _ z.1 (S f) r ir v Hr (ltac:(lia)) Hv Hval Hs) as [H|[H|(r2 & ir2 & -> & Hval2 & Hs2 & Hno)]];
    [by left | by right |].
  pose proof Hs2 as (Hnod & Hh & Hl). cbn [reparent_root]. rewrite Hval2.
  destruct (nodify_ok ir2 eo z.1 Hnod) as (ir1 & pre1 & t1 & -> & Hef & Hh1 & Hl1 & Hfl & Hil & Hal & Hnod1). cbn [mbind option_bind].
  assert (ir_value (ir_store r2 ir1) = Ok ir1) as Hval1 by (by eapply ir_store_law).
  assert (same_head ir ir1) as Hh01 by (by eapply same_head_trans). specialize (Hno ir1 Hl1).
  destruct (ir_value_resize (ir_store r2 ir1) (16 + eo + 24)) as [r' res] eqn:Eres. destruct res as [[]|e].
  - left. eapply reparent_done; [exact Hr | by exists pre1, t1 | done | done | done | done | done | exact Eres | done].
  - rewrite bool_decide_false by (intros ->; by apply Hno). right. by eexists.
Qed.
End laws.
