(* ===== verification/IndexSplit.v ===== *)
(** The split of an index block (libntfs-3g/index.c: ntfs_ib_split and what it
    calls): whatever space it finds, the index keeps the same entries in the
    same order. *)

From S2P Require Import Prelude Mst AttrIo AttrMst Collate Index IndexSpec IndexNode IndexBlock IndexMake IndexBitmap IndexTree IndexLookup IndexRoot.
Local Open Scope Z_scope.
Local Open Scope c_scope.
Set Default Proof Using "Type*".
#[local] Arguments le_encode : simpl never.

(** ** A node in two *)

(** The two halves of a node, with the entry between them. *)
Lemma seq_halves T (s1 : list slot) (s : slot) (t : list slot) (z : slot) vs xs : seq_of T (s1 ++ s :: t ++ [z]) vs (xs ++ [z.1]) ->
  exists v1 x1 v2 x2, vs = v1 ++ v2 /\ xs = x1 ++ s.1 :: x2 /\ seq_of T (s1 ++ [cut_end s z]) v1 (x1 ++ [z.1]) /\
    seq_of T (t ++ [z]) v2 (x2 ++ [z.1]).
Proof.
  intros (vl & xl & ? & ? & H1 & (vc & xc & vr & xr & Hc & H2 & -> & ->)%seq_cons & -> & E)%seq_app.
  pose proof (seq_last _ _ _ _ _ H2) as (x2 & ->).
  assert (xs = (xl ++ xc) ++ s.1 :: x2) as ->.
  { replace (xl ++ xc ++ s.1 :: x2 ++ [z.1]) with (((xl ++ xc) ++ s.1 :: x2) ++ [z.1]) in E by (by rewrite <-!app_assoc). by apply app_inj_tail in E as [-> _]. }
  exists (vl ++ vc), (xl ++ xc), vr, x2. split_and!; [by rewrite app_assoc | done | | done].
  apply seq_app. exists vl, xl, vc, (xc ++ [z.1]). split_and!; [done | | done | by rewrite app_assoc].
  apply seq_1. by exists xc.
Qed.

Section split.
Context {bs q : Z}.
Implicit Types (f : Z -> option (list Z)) (sl : list slot).

(** The two halves in the parent. *)
Lemma seq_parent f h (s1 : list slot) c m nv e (s2 : list slot) vl xl v1 x1 v2 x2 vr xr :
  seq_of (tree bs q f h) s1 vl xl -> tree bs q f h c v1 x1 -> tree bs q f h nv v2 x2 -> seq_of (tree bs q f h) s2 vr xr ->
  seq_of (tree bs q f h) (s1 ++ (m, Some c) :: (e, Some nv) :: s2) (vl ++ v1 ++ v2 ++ vr) (xl ++ x1 ++ m :: x2 ++ e :: xr).
Proof.
  intros H1 Hc Hn H2. apply seq_app. exists vl, xl, (v1 ++ v2 ++ vr), (x1 ++ m :: x2 ++ e :: xr). split_and!; [done | | done | done].
  apply seq_cons. exists v1, x1, (v2 ++ vr), (x2 ++ e :: xr). split_and!; [done | | done | done].
  apply seq_cons. by exists v2, x2, vr, xr.
Qed.

(** *** The blocks of a tree *)

(** A block that is there. *)
Definition present f (v : Z) : Prop := (exists i, v = i * q /\ block_number i) /\ exists b, f v = Some b.

Lemma tree_present f d v vs xs : tree bs q f d v vs xs -> Forall (present f) vs.
Proof.
  revert v vs xs; induction d as [|d IH]; intros v vs xs (b & sl & vs' & z & (Hi & Hb & _) & -> & Hs)%tree_unfold;
    (constructor; [split; [done | eauto]|]); cbn [kids] in Hs.
  - apply seq_leaf_fst in Hs as [-> _]. constructor.
  - revert Hs. generalize (xs ++ [z]). induction 1 as [|e sl0 vs0 xs0 H IH2|e c vc xc sl0 vs0 xs0 Hc H IH2]; [constructor | done |].
    apply Forall_app. split; [by eapply IH | done].
Qed.

Lemma seq_present f d sl vs xs : seq_of (kids bs q f d) sl vs xs -> Forall (present f) vs.
Proof.
  destruct d as [|d]; cbn [kids].
  - intros [-> _]%seq_leaf_fst. constructor.
  - induction 1 as [|e sl0 vs0 xs0 H IH2|e c vc xc sl0 vs0 xs0 Hc H IH2]; [constructor | done |].
    apply Forall_app. split; [by eapply tree_present | done].
Qed.

Lemma path_present f sl d p c vl vr xl xr : path bs q f sl d p c vl vr xl xr -> Forall (present f) (vl ++ vr).
Proof.
  induction 1 as [d s1 e c s2 vl vr xl xr E H1 H2|d p v vl0 vr0 xl0 xr0 b s1 e c s2 vl vr xl xr ys z H0 IH Hb H1 H2 E].
  - apply Forall_app. split; by eapply (seq_present f (S d)).
  - pose proof (seq_present f (S d) _ _ _ H1). pose proof (seq_present f (S d) _ _ _ H2). apply Forall_app in IH as [I1 I2].
    apply Forall_app. split; apply Forall_app; split; try done. constructor; [|done]. destruct Hb as (Hi & Hb & _). split; [done | eauto].
Qed.

(** ** A split under a block *)

(** The slots of the parent [u] of block [c], and what is around it. *)
Lemma path_parent f sl d u (s1 : list slot) p c vl vr xl xr : path bs q f sl d ((u, s1) :: p) c vl vr xl xr -> p <> [] ->
  exists vl0 vr0 xl0 xr0 b e s2 vl1 vr1 xl1 xr1 ys z, path bs q f sl (S d) p u vl0 vr0 xl0 xr0 /\
    block_at bs q f u true b (s1 ++ (e, Some c) :: s2) /\ seq_of (tree bs q f d) s1 vl1 xl1 /\ seq_of (tree bs q f d) s2 vr1 xr1 /\
    e :: xr1 = ys ++ [z] /\ vl = vl0 ++ u :: vl1 /\ vr = vr1 ++ vr0 /\ xl = xl0 ++ xl1 /\ xr = ys ++ xr0.
Proof. intros H Hp. inversion H; subst; [done|]. repeat (eexists; try eassumption). Qed.

Lemma path_top f sl d u (s1 : list slot) c vl vr xl xr : path bs q f sl d [(u, s1)] c vl vr xl xr ->
  u = VCN_INDEX_ROOT_PARENT /\ exists e s2 xr1, sl = s1 ++ (e, Some c) :: s2 /\ seq_of (tree bs q f d) s1 vl xl /\
    seq_of (tree bs q f d) s2 vr xr1 /\ xr = e :: xr1.
Proof.
  intros H. inversion H as [d' s1' e c' s2 vl' vr' xl' xr' E H1 H2|d' p v vl0 vr0 xl0 xr0 b s1' e c' s2 vl' vr' xl' xr' ys z H0]; subst.
  - split; [done|]. by exists e, s2, xr'.
  - by apply path_ne in H0.
Qed.

(** What the three writes of a split leave: the halves at [c] and [nv]. *)
Lemma split_children f f' h c nv k b (s1 : list slot) (s : slot) (t : list slot) (z : slot) vc xc bl br : k = inner h ->
  seq_of (kids bs q f h) (s1 ++ s :: t ++ [z]) vc (xc ++ [z.1]) -> block_at bs q f c k b (s1 ++ s :: t ++ [z]) ->
  block_at bs q f' c k bl (s1 ++ [cut_end s z]) -> block_at bs q f' nv k br (t ++ [z]) -> (forall u, In u vc -> f' u = f u) ->
  exists v1 x1 v2 x2, vc = v1 ++ v2 /\ xc = x1 ++ s.1 :: x2 /\ tree bs q f' h c (c :: v1) x1 /\ tree bs q f' h nv (nv :: v2) x2.
Proof.
  intros -> Hs Hb Hl Hr Hf. apply (kids_ext _ _ f f') in Hs; [|done]. destruct (seq_halves _ _ _ _ _ _ _ Hs) as (v1 & x1 & v2 & x2 & -> & -> & H1 & H2).
  exists v1, x1, v2, x2. split_and!; [done | done | |]; apply tree_unfold.
  - by exists bl, (s1 ++ [cut_end s z]), v1, z.1.
  - by exists br, (t ++ [z]), v2, z.1.
Qed.
End split.

(** ** The state of an index *)

Section io.
Context {R A : Type} `{!AttrOps A, !AttrResize A, !RootOps R A, !AttrLaws A, !AttrReliable A, !AttrGrowLaws A, !RootLaws R A}.
Context (bs vb q : Z) (G : geometry bs vb q) (malloc : Z -> bool) (fresh : list Z) (rule : Z).
Hypothesis Hfresh : wf_bytes fresh /\ zlen fresh = 8.
(** The root is smaller than an index block. *)
Hypothesis Hmax : ir_max (R := R) + 292 <= bs.
Implicit Types (ni : inode R A) (x : context) (na : A) (f : Z -> option (list Z)).
Abbreviation fetch_of := (fetch_of bs vb).

(** Two entries of a block always fit. *)
Definition small (e : ent) : Prop := 2 * zlen (e_rest e) + 156 <= bs.

(** The bit of each block of [vs] is set. *)
Definition marked (nb : A) (vs : list Z) : Prop :=
  wf_bytes (attr_data nb) /\ forall i, 0 <= i -> In (i * q) vs -> bit_set (attr_data nb) i.

(** The index of [ni] has the entries [xs], the end of the root included, in the
    blocks [vs]; [d] is its height. *)
Record indexed ni (d : nat) (ir : list Z) (sl : list slot) (vs : list Z) (xs : list ent) : Prop := {
  ix_root : ir_value (root ni) = Ok ir /\ iroot bs rule (inner d) ir sl;
  ix_seq : seq_of (kids bs q (fetch_of ni) d) sl vs xs;
  ix_blocks : NoDup vs;
  ix_marked : forall nb, bm ni = Some nb -> marked nb vs }.

(** The index rebuilt: the blocks it did not have before were free in the bitmap
    [nb0], which has grown by [n] words at most. *)
Definition rebuilt ni (vs0 : list Z) (nb0 : A) (n : Z) (xs : list ent) : Prop :=
  exists d ir sl vs, indexed ni d ir sl vs xs /\ (exists nb, bm ni = Some nb /\ zlen (attr_data nb) <= zlen (attr_data nb0) + 8 * n) /\
    forall i, 0 <= i -> In (i * q) vs -> In (i * q) vs0 \/ ~ bit_set (attr_data nb0) i.

(** Block [i] written, the others that were there are unchanged. *)
Definition written f f' (i : Z) (k : bool) (sl : list slot) : Prop :=
  (exists b, block_at bs q f' (i * q) k b sl) /\ forall v, present (q := q) f v -> v <> i * q -> f' v = f v.

Lemma effect_written ni na ni' i k sl : ia ni = Some na -> block_number i -> write_effect bs vb q ni na ni' STATUS_OK i k sl ->
  root ni' = root ni /\ bm ni' = bm ni /\ (exists na', ia ni' = Some na') /\ written (fetch_of ni) (fetch_of ni') i k sl.
Proof using.
  intros Hna Hi (H1 & H2 & na' & H3 & H4). destruct (H4 eq_refl) as (b & Hib & Hf & Ho). split_and!; [done | done | eauto |].
  unfold written, IndexLookup.fetch_of. rewrite H3, Hna. split; [exists b; split_and!; [by exists i | done | done]|].
  intros v [(j & -> & Hj) (c & Hc)] Hne. rewrite Hc. apply Ho; [done | congruence | done].
Qed.

(** A block just taken from the bitmap is not one of the index. *)
Lemma fresh_block nb vs i : marked nb vs -> block_number i -> ~ bit_set (attr_data nb) i -> ~ In (i * q) vs.
Proof using. intros [_ H] [Hi _] Hn Hin. by apply Hn, H. Qed.

Lemma written_kept f f' i k sl vs : written f f' i k sl -> Forall (present (q := q) f) vs -> ~ In (i * q) vs -> forall u, In u vs -> f' u = f u.
Proof using.
  intros [_ H] Hp Hn u Hu. apply H; [|by intros ->]. rewrite List.Forall_forall in Hp. by apply Hp.
Qed.

(** The size of the bitmap. *)
Definition bm_size ni : Z := match bm ni with Some nb => zlen (attr_data nb) | None => 0 end.

(** *** The root moved to a block *)

(** What ntfs_ia_add leaves: both attributes, one empty if it was not there. *)
Lemma ia_add_ok ni x ir : ir_value (root ni) = Ok ir -> exists ni' x' s, ntfs_ia_add ni x = (ni', x', s) /\
  block_size x' = block_size x /\ vcn_size_bits x' = vcn_size_bits x /\
  (s = STATUS_OK -> ir_value (root ni') = Ok ir /\ ia_na x' = true /\ (exists na, ia ni' = Some na) /\ exists nb, bm ni' = Some nb /\
     (bm ni = Some nb \/ attr_data nb = replicate 8 0)).
Proof using RootLaws0.
  intros Hv. unfold ntfs_ia_add, ntfs_ibm_add.
  assert (forall r, ir_value r = Ok ir -> forall nb, bm ni = Some nb \/ attr_data nb = replicate 8 0 -> exists ni' x' s,
    (match ia ni with
     | Some _ => (Inode r (ia ni) (Some nb), set_ia_na x, STATUS_OK)
     | None => let '(r, o) := attr_add r [] in
        (Inode r o (Some nb), if o is Some _ then set_ia_na x else x, if o is Some _ then STATUS_OK else STATUS_ERROR EIO)
     end) = (ni', x', s) /\ block_size x' = block_size x /\ vcn_size_bits x' = vcn_size_bits x /\
    (s = STATUS_OK -> ir_value (root ni') = Ok ir /\ ia_na x' = true /\ (exists na, ia ni' = Some na) /\ exists nb, bm ni' = Some nb /\
       (bm ni = Some nb \/ attr_data nb = replicate 8 0))) as Hia.
  { intros r Hr nb Hnb. destruct (ia ni) as [na|].
    - eexists _, _, _. split; [reflexivity|]. split_and!; try done. intros _. cbn. split_and!; [done | done | eauto | by exists nb].
    - destruct (attr_add r []) as [r' [na|]] eqn:E; (eexists _, _, _; split; [reflexivity|]; split_and!; try done).
      apply attr_add_law in E as [_ Hv']. intros _. cbn. split_and!; [by rewrite Hv' | done | eauto | by exists nb]. }
  destruct (bm ni) as [nb|] eqn:Eb; cbn [status_is_ok negb].
  - destruct ni as [r o ob]. cbn in *. subst ob. apply Hia; [done | by left].
  - destruct (attr_add (root ni) (replicate 8 0)) as [r [nb|]] eqn:E; cbn [status_is_ok negb ia root bm].
    + apply attr_add_law in E as [Hd Hv']. apply Hia; [by rewrite Hv' | by right].
    + by eexists _, _, _.
Qed.

(** The preparation of the attributes, when the index was in the root alone. *)
Lemma reparent_start ni x d ir sl vs xs fl : indexed ni d ir sl vs xs -> sized x bs vb -> (inner d = true -> ia_na x = true) ->
  (forall nb, bm ni = Some nb -> zlen (attr_data nb) < 2 ^ 30) -> Z.land fl NODE_MASK = (if inner d then LARGE_INDEX else SMALL_INDEX) ->
  exists ni' x' s, (if Z.land fl NODE_MASK =? SMALL_INDEX then ntfs_ia_add ni x else (ni, x, STATUS_OK)) = (ni', x', s) /\ sized x' bs vb /\
    (s = STATUS_OK -> ia_na x' = true /\ (exists na, ia ni' = Some na) /\ indexed ni' d ir sl vs xs /\
       forall nb, bm ni' = Some nb -> zlen (attr_data nb) < 2 ^ 30 /\ zlen (attr_data nb) <= bm_size ni + 8 /\ (bm ni = Some nb \/ vs = [])).
Proof using G Hmax.
  intros Hix Hx Hop Hbig ->. pose proof Hix as [[Hv Hr] Hs Hnd Hm]. destruct d as [|d]; cbn [inner] in *.
  - change (SMALL_INDEX =? SMALL_INDEX) with true. destruct (ia_add_ok ni x ir Hv) as (ni' & x' & s & E & H1 & H2 & H3).
    exists ni', x', s. split; [done|]. split; [destruct Hx; split; congruence|]. intros (H4 & H5 & H6 & nb & H7 & H8)%H3.
    pose proof Hs as Hs0. apply seq_leaf_fst in Hs0 as [-> _]. split_and!; [done | done | |].
    + split; [done | exact Hs | done |]. intros nb' Hnb'. rewrite H7 in Hnb'. injection Hnb' as <-. split; [|by intros i _ []].
      destruct H8 as [H8|H8]; [apply (Hm nb H8)|]. rewrite H8. apply Forall_replicate. unfold is_byte. lia.
    + intros nb' Hnb'. rewrite H7 in Hnb'. injection Hnb' as <-. unfold bm_size. destruct H8 as [H8|H8].
      * rewrite H8. split; [by apply Hbig|]. split; [lia | by left].
      * rewrite H8. change (zlen (replicate 8 0)) with 8. split; [lia|]. split; [destruct (bm ni); [pose proof (zlen_nonneg (attr_data a))|]; lia | by right].
  - change (LARGE_INDEX =? SMALL_INDEX) with false. exists ni, x, STATUS_OK. split; [done|]. split; [done|]. intros _. split_and!; try done.
    + by apply Hop.
    + pose proof (seq_present (bs := bs) (q := q) _ (S d) _ _ _ Hs) as Hp. destruct Hr as (eo & pre & post & Hr).
      pose proof (ir_uniform _ _ _ _ _ _ _ _ Hr) as Hu. pose proof (na_slots _ _ _ _ _ _ (ir_node _ _ _ _ _ _ _ _ Hr)) as (es & z & -> & _ & _).
      apply uniform_app in Hu as [_ Hu]. apply uniform_cons in Hu as [Hu _]. apply bool_decide_eq_true in Hu as [v Hu].
      apply seq_app in Hs as (v1 & x1 & v2 & x2 & _ & (xc & Hc & _)%seq_1 & -> & _). rewrite Hu in Hc. cbn [child_of kids] in Hc.
      apply tree_unfold in Hc as (b & ? & ? & ? & (_ & Hf & _) & _). unfold IndexLookup.fetch_of in Hf. destruct (ia ni); [eauto | done].
    + intros nb Hnb. unfold bm_size. rewrite Hnb. split; [by apply Hbig|]. split; [lia | by left].
Qed.

(** The root, moved to block [i], has one child. *)
Lemma reparented ni ni' d ir sl vs xs z i ir' : indexed ni d ir sl vs (xs ++ [z]) -> block_number i -> ~ In (i * q) vs ->
  written (fetch_of ni) (fetch_of ni') i (inner d) sl -> ir_value (root ni') = Ok ir' -> iroot bs rule true ir' [(z, Some (i * q))] ->
  (forall nb, bm ni' = Some nb -> marked nb (i * q :: vs)) ->
  indexed ni' (S d) ir' [(z, Some (i * q))] (i * q :: vs) (xs ++ [z]).
Proof using.
  intros [[Hv Hr] Hs Hnd Hm] Hi Hn Hw Hv' Hr' Hm'. pose proof Hw as [(b & Hb) _]. split; try done.
  - apply seq_1. exists xs. split; [|done]. cbn [snd child_of]. apply tree_unfold. exists b, sl, vs, z. split_and!; [done | done |].
    eapply (kids_ext bs q (fetch_of ni)); [|done]. eapply written_kept; [done | by eapply seq_present | done].
  - constructor; [|done]. by intros ?%list_elem_of_In.
Qed.

Lemma clear_total ni x i : sized x bs vb -> block_number i -> exists out, ntfs_ibm_clear ni x (i * q) = Some out.
Proof using All.
  intros Hx Hi. destruct (ibm_pos bs vb q G x i Hx Hi) as [Hp _]. destruct (ibm_bit i Hi) as (H1 & _ & H0 & _).
  unfold ntfs_ibm_clear, ntfs_ibm_modify. rewrite Hp, H1. cbn [andb]. destruct (bm ni) as [na|]; [|eauto].
  destruct (modify_byte_spec bs vb q G malloc ni na (i / 8) (fun byte => u8 (Z.land byte (Z.lnot (u32 (Z.shiftl 1 (i mod 8))))))) as (ni' & s & _ & -> & _); [done|]. eauto.
Qed.

Lemma ir_reparent_ok extra ni x d ir sl vs xs : indexed ni d ir sl vs xs -> sized x bs vb -> (inner d = true -> ia_na x = true) ->
  (forall nb, bm ni = Some nb -> zlen (attr_data nb) < 2 ^ 30) ->
  exists ni' x' s, ntfs_ir_reparent malloc (S (S extra)) ni x = Some (ni', x', s) /\ sized x' bs vb /\
    ((exists e, s = STATUS_ERROR e) \/
     s = STATUS_OK /\ exists nb0, (forall nb, bm ni = Some nb -> vs <> [] -> nb0 = nb) /\ zlen (attr_data nb0) <= bm_size ni + 8 /\ rebuilt ni' vs nb0 1 xs).
Proof using All.
  intros Hix Hx Hop Hbig. pose proof Hix as [[Hv Hr] Hs Hnd Hm]. pose proof Hr as (eo & pre & post & Hp). pose proof Hp as [Hn Hu Hrule Hbs (fl & Hfl & Hfl1) _].
  unfold ntfs_ir_reparent. rewrite Hv, Hfl. cbn [mbind option_bind].
  destruct (reparent_start ni x d ir sl vs xs fl Hix Hx Hop Hbig Hfl1) as (ni1 & x1 & s1 & E1 & Hx1 & H1). rewrite E1.
  destruct s1; cbn [status_is_ok negb]; try (eexists _, _, _; split_and!; [reflexivity | done | left; by eexists]).
  destruct (H1 eq_refl) as (Hop1 & (na1 & Hna1) & Hix1 & Hbig1). pose proof Hix1 as [[Hv1 _] Hs1 _ Hm1]. clear E1 H1.
  destruct (bm ni1) as [nb1|] eqn:Eb1.
  2: { unfold ntfs_ibm_get_free. rewrite Eb1. cbn. eexists _, _, _. split_and!; [reflexivity | done | left; by eexists]. }
  destruct (Hbig1 nb1 eq_refl) as (Hlt & Hgrow & Hsame). pose proof (Hm1 nb1 eq_refl) as Hmk.
  destruct (ibm_get_free_spec bs vb q G malloc ni1 x1 nb1 Hx1 Eb1 (proj1 Hmk) Hlt) as (ni2 & v & nb2 & -> & [Hr2 Hi2] & Hb2 & Hfree). cbn [mbind option_bind].
  destruct (Z.eqb_spec v (-1)) as [|Hv1']; [eexists _, _, _; split_and!; [reflexivity | done | left; by eexists]|].
  destruct (Hfree Hv1') as (Hw2 & Hz8 & i & -> & Hi & Hnset & Hset & _ & Hkeep). clear Hfree Hv1'.
  assert (forall ni3, bm ni3 = Some nb2 -> exists ni' x' s, (out ← ntfs_ibm_clear ni3 x1 (i * q); Some (fst out, x1, STATUS_ERROR EIO)) = Some (ni', x', s) /\
    sized x' bs vb /\ ((exists e, s = STATUS_ERROR e) \/
     s = STATUS_OK /\ exists nb0, (forall nb, bm ni = Some nb -> vs <> [] -> nb0 = nb) /\ zlen (attr_data nb0) <= bm_size ni + 8 /\ rebuilt ni' vs nb0 1 xs)) as Hfail.
  { intros ni3 Hb3. destruct (clear_total ni3 x1 i Hx1 Hi) as [out ->]. cbn [mbind option_bind].
    eexists _, _, _. split; [reflexivity|]. split; [done | left; by eexists]. }
  rewrite Hr2, Hv1. pose proof (na_slots _ _ _ _ _ _ Hn) as (es & z & Esl & Wes & Wz). pose proof (ir_extent Hp) as (Hz0 & He & _ & _ & Hz1 & Hz2).
  pose proof (ir_max_law _ _ Hv) as Hmx. pose proof (new_eo_range bs vb q G) as (_ & Hne & _). pose proof (ge_range _ _ _ G) as Hbr.
  rewrite Esl in Hn, Hu, Hz0.
  destruct (ir_to_ib_ok malloc bs vb q ir eo pre (inner d) es z post i fl G Hi Hn Hu Hfl) as [->|(b & -> & Hib)]; [| done | lia | by apply Hfail |].
  { change NODE_MASK with 1 in Hfl1. rewrite Hfl1. by destruct (inner d). }
  cbn [mbind option_bind]. assert (ia ni2 = Some na1) as Hna2 by (by rewrite Hi2).
  destruct (write_block bs vb q G malloc ni2 x1 na1 i _ b _ Hx1 Hop1 Hna2 Hi Hib) as (ni3 & s3 & E3 & Heff).
  destruct (ntfs_ib_write ni2 x1 b) as [[[ni3' b3] s3']|]; cbn [mbind option_bind] in E3 |- *; [|done]. injection E3 as -> ->.
  pose proof Heff as (Hr3 & Hb3 & _). rewrite Hb2 in Hb3.
  destruct s3; cbn [status_is_ok negb]; try by apply Hfail.
  destruct (effect_written ni2 na1 ni3 i _ _ Hna2 Hi Heff) as (_ & _ & _ & Hwr).
  assert (ir_value (root ni3) = Ok ir) as Hv3 by (by rewrite Hr3, Hr2).
  pose proof (vcn_range bs vb q i G Hi) as Hvr.
  destruct (reparent_root_ok bs rule (inner d) ir sl eo pre post es z extra (root ni3) (i * q) Hp Esl) as
    [(r4 & ir4 & -> & Hv4 & Hr4)|(r4 & ->)]; try done; [lia | unfold in_s64; lia | |].
  - cbn [mbind option_bind status_is_ok]. eexists _, _, STATUS_OK. split; [reflexivity|]. split; [done|]. right. split; [done|].
    exists nb1. split.
    { intros nb Hnb Hne'. destruct Hsame as [Hsame|]; congruence. }
    split; [done|].
    pose proof Hs as Hs'. rewrite Esl in Hs'. destruct (seq_last _ _ _ _ _ Hs') as (ys & Exs).
    exists (S d), ir4, [(z.1, Some (i * q))], (i * q :: vs). split_and!.
    + rewrite Exs in *. eapply (reparented ni1); [exact Hix1 | done | exact (fresh_block nb1 vs i Hmk Hi Hnset) | | done | done |].
      * unfold written in *. rewrite Esl. unfold IndexLookup.fetch_of in *. cbn [set_root ia]. rewrite Hi2 in Hwr. exact Hwr.
      * intros nb Hnb. cbn in Hnb. rewrite Hb3 in Hnb. injection Hnb as <-. split; [done|]. intros j Hj [E|Hin].
        -- assert (j = i) as -> by (destruct G; nia). done.
        -- apply Hkeep; [done|]. by apply Hmk.
    + exists nb2. split; [done | lia].
    + intros j Hj [E|Hin]; [right | by left]. assert (j = i) as -> by (destruct G; nia). done.
  - cbn [mbind option_bind status_is_ok]. apply Hfail. done.
Qed.

(** *** The entry that goes up to the root *)

Lemma root_median extra ni x d ir (s1 : list slot) e c (s2 : list slot) vs xs op m cm oq nv :
  indexed ni (S d) ir (s1 ++ (e, Some c) :: s2) vs xs -> sized x bs vb -> ia_na x = true ->
  (forall nb, bm ni = Some nb -> zlen (attr_data nb) < 2 ^ 30) ->
  ntfs_icx_parent_pos x = Some (zlen s1) -> wf_slot false (m, cm) -> in_s64 nv ->
  exists ni' x' s, ntfs_ir_insert_median malloc fresh (S (S extra)) ni x (op ++ enc (m, cm) ++ oq) (zlen op) nv = Some (ni', x', s) /\ sized x' bs vb /\
    ((exists e, s = STATUS_ERROR e) \/
     (s = STATUS_OK /\ x' = x /\ ia ni' = ia ni /\ bm ni' = bm ni /\
        exists ir', ir_value (root ni') = Ok ir' /\ iroot bs rule true ir' (s1 ++ (m, Some c) :: (e, Some nv) :: s2)) \/
     (s = STATUS_KEEP_SEARCHING /\ exists nb0, (forall nb, bm ni = Some nb -> vs <> [] -> nb0 = nb) /\ zlen (attr_data nb0) <= bm_size ni + 8 /\ rebuilt ni' vs nb0 1 xs)).
Proof using All.
  intros Hix Hx Hop Hbig Hpos Hm Hnv. pose proof Hix as [[Hv (eo & pre & post & Hp)] Hs Hnd Hmk]. set (sl := s1 ++ (e, Some c) :: s2) in *.
  pose proof (ir_node _ _ _ _ _ _ _ _ Hp) as Hn. pose proof (ir_extent Hp) as (Hz0 & He & _ & _ & Hz1 & Hz2).
  pose proof (ir_max_law _ _ Hv) as Hmx. pose proof (ge_range _ _ _ G) as Hbr. pose proof (enc_len_range false _ Hm) as [Hlr _].
  unfold ntfs_ir_insert_median. rewrite Hv, (na_length _ _ _ _ _ _ Hn), (field_length false (m, cm)) by done. cbn [mbind option_bind].
  rewrite (field_flags false (m, cm)) by done. cbn [mbind option_bind]. rewrite (flag_node false (m, cm)) by done.
  set (n := eo + zlen (enc_slots sl) + enc_len (m, Some nv)).
  assert (u32 (eo + zlen (enc_slots sl) + enc_len (m, cm) + (if negb (match (m, cm).2 with Some _ => true | None => false end) then sizeof_VCN else 0)) = n) as ->.
  { assert (eo + zlen (enc_slots sl) + enc_len (m, cm) + (if negb (match (m, cm).2 with Some _ => true | None => false end) then sizeof_VCN else 0) = n) as ->
      by (unfold n, enc_len, sizeof_VCN; cbn [fst snd]; rewrite !zlen_vcn_bytes; destruct cm; cbn; lia).
    apply wrap_u_small. unfold n, enc_len in *. cbn [fst snd] in *. rewrite !zlen_vcn_bytes in *. destruct cm; lia. }
  assert (16 <= enc_len (m, Some nv) < 70000) as Hln by (unfold enc_len in *; cbn [fst snd] in *; rewrite !zlen_vcn_bytes in *; destruct cm; lia).
  rewrite s32_small by (unfold n; lia). unfold ntfs_ir_make_space.
  destruct (ir_truncate_ok bs rule true ni ir sl eo pre post n Hv Hp (ltac:(unfold n; lia))) as (ni1 & s & -> & Hi1 & Hb1 & _ & Hres). cbn [mbind option_bind].
  destruct s; try done; cbn [status_is_ok negb mbind option_bind]; try (eexists _, _, _; split_and!; [reflexivity | done | left; by eexists]).
  - destruct Hres as (ir1 & pre1 & post1 & _ & Hv1 & Hp1 & Lp1 & Hil1). rewrite Hv1, Hpos. cbn [mbind option_bind].
    pose proof (ir_node _ _ _ _ _ _ _ _ Hp1) as Hn1. destruct Hfresh as [Hfw Hf8].
    destruct (node_ih_insert malloc fresh ir1 IR_INDEX eo pre1 s1 e c s2 post1 op m cm oq nv Hn1 Hm Hnv Hfw Hf8) as [->|(ir2 & pre2 & post2 & -> & Hed & _)];
      [fold sl; unfold n in Lp1; lia | fold sl; lia | |]; cbn [mbind option_bind];
      (eexists _, _, _; split; [reflexivity|]; split; [done|]); [left; by eexists|right; left].
    split_and!; [done | done | by cbn | by cbn |]. exists ir2. split; [eapply ir_store_law; [exact Hv1 | apply Hed]|].
    eexists eo, _, _. eapply iroot_edit; [exact Hp1 | exact Hed |]. pose proof (ir_uniform _ _ _ _ _ _ _ _ Hp1) as Hu.
    unfold sl in Hu. apply uniform_app in Hu as [U1 U2]. apply uniform_cons in U2 as [_ U2]. apply uniform_app. split; [done|].
    apply uniform_cons. split; [done|]. by apply uniform_cons.
  - assert (indexed ni1 (S d) ir sl vs xs) as Hix1.
    { split; [split; [done | by eexists _, _, _] | | done | by rewrite Hb1]. unfold IndexLookup.fetch_of in *. by rewrite Hi1. }
    destruct (ir_reparent_ok extra ni1 x (S d) ir sl vs xs Hix1 Hx (fun _ => Hop)) as (ni' & x' & s & -> & Hx' & Hres'); [by rewrite Hb1|].
    cbn [mbind option_bind]. destruct Hres' as [(e' & ->)|(-> & nb0 & Hnb & Hreb)]; cbn [status_is_ok negb];
      (eexists _, _, _; split; [reflexivity|]; split; [done|]); [left; by eexists|]. right. right. split; [done|].
    exists nb0. unfold bm_size in Hreb. rewrite Hb1 in Hnb, Hreb. by split.
Qed.

(** *** One split *)

(** Block [b], number [c], is to be split: the entries before its end are [es]
    and the path [p] leads to it. *)
Record splitting ni x ir sl h (p : list step) c b (es : list slot) (zc : slot) vl vr vc (xl xc xr : list ent) : Prop := {
  sp_root : ir_value (root ni) = Ok ir /\ iroot bs rule true ir sl;
  sp_path : path bs q (fetch_of ni) sl h p c vl vr xl xr;
  sp_block : block_at bs q (fetch_of ni) c (inner h) b (es ++ [zc]);
  sp_seq : seq_of (kids bs q (fetch_of ni) h) (es ++ [zc]) vc (xc ++ [zc.1]);
  sp_nodup : NoDup (vl ++ (c :: vc) ++ vr);
  sp_small : Forall small (xl ++ xc ++ xr);
  sp_ne : es <> [];
  sp_marked : forall nb, bm ni = Some nb -> marked nb (vl ++ (c :: vc) ++ vr) /\ zlen (attr_data nb) + 8 * zlen p < 2 ^ 30;
  sp_ctx : follows x p c /\ sized x bs vb /\ ia_na x = true }.

(** What a split leaves. *)
Definition split_result ni' x' (s : status) (vs0 : list Z) (nb0 : option A) (n : Z) (xs : list ent) : Prop :=
  sized x' bs vb /\
  ((exists e, s = STATUS_ERROR e) \/
   (s = STATUS_OK \/ s = STATUS_KEEP_SEARCHING) /\ exists nb, nb0 = Some nb /\ rebuilt ni' vs0 nb n xs).

(** The step to the parent. *)
Lemma parent_step x u (s1 : list slot) (p : list step) c : follows x ((u, s1) :: p) c -> exists x1, ntfs_icx_parent_dec x = (x1, STATUS_OK) /\
  follows x1 p u /\ ntfs_icx_parent_vcn x1 = Some u /\ ntfs_icx_parent_pos x1 = Some (zlen s1) /\
  block_size x1 = block_size x /\ vcn_size_bits x1 = vcn_size_bits x /\ ia_na x1 = ia_na x.
Proof using.
  intros [[Hlp [Hp Hsp]] [Hlv [Hv Hsv]] [Hi Hlt] _]. rewrite zlen_cons in Hi, Hlt. pose proof (zlen_nonneg p).
  unfold ntfs_icx_parent_dec. cbn [set_parents pindex]. rewrite Hi. replace (zlen p + 1 - 1) with (zlen p) by lia.
  rewrite (proj2 (Z.ltb_ge _ 0)) by lia. eexists. split; [reflexivity|]. split_and!; try done.
  split; cbn; [done | done | lia | done].
Qed.

Lemma nodup_mid (a b : list Z) v : NoDup (a ++ b) -> ~ In v (a ++ b) -> NoDup (a ++ v :: b).
Proof using.
  intros H Hn. assert (a ++ v :: b ≡ₚ v :: a ++ b) as -> by (symmetry; apply Permutation_middle).
  constructor; [by intros ?%list_elem_of_In | done].
Qed.

Lemma written_present f f' i k sl v : written f f' i k sl -> present (q := q) f v -> v <> i * q -> present (q := q) f' v.
Proof using. intros [_ H] Hp Hne. pose proof (H v Hp Hne) as E. destruct Hp as [Hi [b Hb]]. split; [done|]. exists b. by rewrite E. Qed.

Lemma rebuilt_le ni vs0 nb0 n n' xs : rebuilt ni vs0 nb0 n xs -> n <= n' -> rebuilt ni vs0 nb0 n' xs.
Proof using.
  intros (d & ir & sl & vs & H1 & (nb & H2 & H3) & H4) Hn. exists d, ir, sl, vs. split_and!; [done | exists nb; split; [done | lia] | done].
Qed.

(** The bit of a block that is not used in the end is cleared. *)
Lemma rebuilt_clear ni x vs0 nb0 nb1 n xs j : sized x bs vb -> block_number j -> rebuilt ni vs0 nb1 n xs -> bit_set (attr_data nb1) j ->
  ~ In (j * q) vs0 -> (forall i, 0 <= i -> bit_set (attr_data nb0) i -> bit_set (attr_data nb1) i) ->
  zlen (attr_data nb1) <= zlen (attr_data nb0) + 8 -> exists ni' s, ntfs_ibm_clear ni x (j * q) = Some (ni', s) /\ rebuilt ni' vs0 nb0 (n + 1) xs.
Proof using G malloc AttrGrowLaws0 AttrLaws0 AttrReliable0.
  intros Hx Hj (d & ir & sl & vs & [Hr Hs Hnd Hm] & (nb & Hb & Hz) & Hf) Hset Hn Hle Hz8. destruct (Hm nb Hb) as [Hw Hbits].
  destruct (ibm_clear_spec bs vb q G malloc ni x nb j Hx Hj Hb Hw) as (ni' & s & nb' & -> & [Hr' Hi'] & Hb' & Hw' & Hz' & Hk).
  exists ni', s. split; [done|]. exists d, ir, sl, vs. split_and!.
  - split; [by rewrite Hr' | unfold IndexLookup.fetch_of in *; by rewrite Hi' | done |]. intros nb2 E. rewrite Hb' in E. injection E as <-.
    split; [done|]. intros i Hi Hin. apply Hk; [done | | by apply Hbits]. intros ->. destruct (Hf j Hi Hin); [by apply Hn | done].
  - exists nb'. split; [done | lia].
  - intros i Hi Hin. destruct (Hf i Hi Hin) as [|Hnset]; [by left | right]. intros Hs0. by apply Hnset, Hle.
Qed.

(** The two halves under the root. *)
Lemma split_root ni ni' ir' h u (s1 : list slot) c b bl br (r1 : list slot) (s : slot) (t : list slot) zc e (s2 : list slot) vl vr vc xl xc xr1 j nb0 nb :
  seq_of (tree bs q (fetch_of ni) h) s1 vl xl -> seq_of (tree bs q (fetch_of ni) h) s2 vr xr1 ->
  block_at bs q (fetch_of ni) c (inner h) b (r1 ++ s :: t ++ [zc]) -> seq_of (kids bs q (fetch_of ni) h) (r1 ++ s :: t ++ [zc]) vc (xc ++ [zc.1]) ->
  NoDup (vl ++ (c :: vc) ++ vr) -> ~ In (j * q) (vl ++ (c :: vc) ++ vr) ->
  ir_value (root ni') = Ok ir' -> iroot bs rule true ir' (s1 ++ (s.1, Some c) :: (e, Some (j * q)) :: s2) ->
  block_at bs q (fetch_of ni') c (inner h) bl (r1 ++ [cut_end s zc]) -> block_at bs q (fetch_of ni') (j * q) (inner h) br (t ++ [zc]) ->
  (forall v, In v (vl ++ vc ++ vr) -> fetch_of ni' v = fetch_of ni v) ->
  bm ni' = Some nb -> marked nb (j * q :: vl ++ (c :: vc) ++ vr) -> ~ bit_set (attr_data nb0) j -> block_number j -> zlen (attr_data nb) <= zlen (attr_data nb0) + 8 -> u = VCN_INDEX_ROOT_PARENT ->
  rebuilt ni' (vl ++ (c :: vc) ++ vr) nb0 1 (xl ++ xc ++ e :: xr1).
Proof using All.
  intros H1 H2 Hb Hs Hnd Hnj Hv' Hr' Hbl Hbr Hf Hbm Hmk Hnset Hj Hz8 _.
  destruct (split_children (fetch_of ni) (fetch_of ni') h c (j * q) (inner h) b r1 s t zc vc xc bl br eq_refl Hs Hb Hbl Hbr) as
    (v1 & x1 & v2 & x2 & -> & -> & T1 & T2); [intros v Hin; apply Hf; in_blocks|].
  apply (kids_ext bs q (fetch_of ni) (fetch_of ni') (S h)) in H1; [|intros v Hin; apply Hf; in_blocks].
  apply (kids_ext bs q (fetch_of ni) (fetch_of ni') (S h)) in H2; [|intros v Hin; apply Hf; in_blocks].
  pose proof (seq_parent _ _ _ _ s.1 _ e _ _ _ _ _ _ _ _ _ H1 T1 T2 H2) as Hseq.
  exists (S h), ir', (s1 ++ (s.1, Some c) :: (e, Some (j * q)) :: s2), (vl ++ (c :: v1) ++ (j * q :: v2) ++ vr).
  assert (vl ++ (c :: v1 ++ v2) ++ vr = (vl ++ c :: v1) ++ v2 ++ vr) as Eold by (cbn; by rewrite <-!app_assoc).
  assert (vl ++ (c :: v1) ++ (j * q :: v2) ++ vr = (vl ++ c :: v1) ++ j * q :: v2 ++ vr) as Enew by (cbn; by rewrite <-!app_assoc).
  split_and!.
  - split; [by split | | |].
    + rewrite <-app_assoc. exact Hseq.
    + rewrite Enew. rewrite Eold in Hnd, Hnj. by apply nodup_mid.
    + intros nb' E. rewrite Hbm in E. injection E as <-. destruct Hmk as [Hw Hmk]. split; [done|]. intros i Hi Hin. apply Hmk; [done|]. in_blocks.
  - exists nb. split; [done | lia].
  - intros i Hi Hin. destruct (decide (i = j)) as [->|Hne]; [by right | left].
    assert (j * q <> i * q) by (destruct G; nia). in_blocks.
Qed.

(** The two halves under a block [u], whose new image is [bu']. *)
Lemma split_under ni ni' d0 ir sl h u p (s1 : list slot) c b bl br bu' (r1 : list slot) (s : slot) (t : list slot) zc e (s2 : list slot)
    vl0 vr0 xl0 xr0 vl1 vr1 vc xl1 xc xr1 ys zu j nb0 nb :
  ir_value (root ni') = Ok ir -> iroot bs rule true ir sl -> height (S h) p = S d0 -> path bs q (fetch_of ni) sl (S h) p u vl0 vr0 xl0 xr0 ->
  seq_of (tree bs q (fetch_of ni) h) s1 vl1 xl1 -> seq_of (tree bs q (fetch_of ni) h) s2 vr1 xr1 -> e :: xr1 = ys ++ [zu] ->
  block_at bs q (fetch_of ni) c (inner h) b (r1 ++ s :: t ++ [zc]) -> seq_of (kids bs q (fetch_of ni) h) (r1 ++ s :: t ++ [zc]) vc (xc ++ [zc.1]) ->
  let vs := (vl0 ++ u :: vl1) ++ (c :: vc) ++ vr1 ++ vr0 in
  NoDup vs -> ~ In (j * q) vs ->
  block_at bs q (fetch_of ni') u true bu' (s1 ++ (s.1, Some c) :: (e, Some (j * q)) :: s2) ->
  block_at bs q (fetch_of ni') c (inner h) bl (r1 ++ [cut_end s zc]) -> block_at bs q (fetch_of ni') (j * q) (inner h) br (t ++ [zc]) ->
  (forall v, In v ((vl0 ++ vl1) ++ vc ++ vr1 ++ vr0) -> fetch_of ni' v = fetch_of ni v) ->
  bm ni' = Some nb -> marked nb (j * q :: vs) -> ~ bit_set (attr_data nb0) j -> block_number j -> zlen (attr_data nb) <= zlen (attr_data nb0) + 8 ->
  rebuilt ni' vs nb0 1 ((xl0 ++ xl1) ++ xc ++ ys ++ xr0).
Proof using All.
  intros Hv' Hr' Hh Hp H1 H2 Eys Hb Hs vs Hnd Hnj Hbu Hbl Hbr Hf Hbm Hmk Hnset Hj Hz8.
  destruct (split_children (fetch_of ni) (fetch_of ni') h c (j * q) (inner h) b r1 s t zc vc xc bl br eq_refl Hs Hb Hbl Hbr) as
    (v1 & x1 & v2 & x2 & -> & -> & T1 & T2); [intros v Hin; apply Hf; in_blocks|].
  apply (kids_ext bs q (fetch_of ni) (fetch_of ni') (S h)) in H1; [|intros v Hin; apply Hf; in_blocks].
  apply (kids_ext bs q (fetch_of ni) (fetch_of ni') (S h)) in H2; [|intros v Hin; apply Hf; in_blocks].
  pose proof (seq_parent _ _ _ _ s.1 _ e _ _ _ _ _ _ _ _ _ H1 T1 T2 H2) as Hseq.
  assert (tree bs q (fetch_of ni') (S h) u (u :: vl1 ++ (c :: v1) ++ (j * q :: v2) ++ vr1) (xl1 ++ x1 ++ s.1 :: x2 ++ ys)) as Tu.
  { apply tree_unfold. eexists bu', _, _, zu. split; [exact Hbu|]. split; [reflexivity|].
    replace ((xl1 ++ x1 ++ s.1 :: x2 ++ ys) ++ [zu]) with (xl1 ++ x1 ++ s.1 :: x2 ++ e :: xr1); [exact Hseq|].
    rewrite Eys, <-!app_assoc. cbn. by rewrite <-!app_assoc. }
  pose proof (path_fill _ _ _ (fetch_of ni') _ _ _ _ _ _ _ _ _ _ Hp (ltac:(intros v Hin; apply Hf; in_blocks)) Tu) as Hall. rewrite Hh in Hall.
  assert (vs = (vl0 ++ u :: vl1 ++ c :: v1) ++ v2 ++ vr1 ++ vr0) as Eold by (unfold vs; cbn; rewrite <-!app_assoc; cbn; by rewrite <-!app_assoc).
  assert (vl0 ++ (u :: vl1 ++ (c :: v1) ++ (j * q :: v2) ++ vr1) ++ vr0 = (vl0 ++ u :: vl1 ++ c :: v1) ++ j * q :: v2 ++ vr1 ++ vr0) as Enew
    by (cbn; rewrite <-!app_assoc; cbn; rewrite <-!app_assoc; cbn; by rewrite <-!app_assoc).
  rewrite Enew in Hall. exists (S d0), ir, sl, ((vl0 ++ u :: vl1 ++ c :: v1) ++ j * q :: v2 ++ vr1 ++ vr0). split_and!.
  - split; [by split | | |].
    + replace ((xl0 ++ xl1) ++ (x1 ++ s.1 :: x2) ++ ys ++ xr0) with (xl0 ++ (xl1 ++ x1 ++ s.1 :: x2 ++ ys) ++ xr0); [exact Hall|].
      rewrite <-!app_assoc. cbn. by rewrite <-!app_assoc.
    + rewrite Eold in Hnd, Hnj. by apply nodup_mid.
    + intros nb' E. rewrite Hbm in E. injection E as <-. destruct Hmk as [Hw Hmk]. split; [done|]. intros i Hi Hin. apply Hmk; [done|].
      rewrite Eold. in_blocks.
  - exists nb. split; [done | lia].
  - intros i Hi Hin. destruct (decide (i = j)) as [->|Hne]; [by right | left].
    assert (j * q <> i * q) by (destruct G; nia). rewrite Eold. in_blocks.
Qed.

(** *** The entry that goes up to a block *)

Lemma iblock_edit vcn k b (sl : list slot) eo pre post b' pre' sl' post' : iblock_parts bs vcn k b sl eo pre post ->
  node_edit b 24 eo pre post b' pre' sl' post' -> uniform k sl' -> iblock bs vcn k b' sl'.
Proof using.
  intros [Hn Hh Hl _] [Hn' Hr Hz] Hu. exists eo, pre', post'. split; [done | by eapply header_relength | congruence | done].
Qed.

(** A block with no room for a small entry holds one. *)
Lemma full_block vcn k b (sl : list slot) eo pre post len : iblock_parts bs vcn k b sl eo pre post -> 2 * len + 112 <= bs ->
  bs - 24 < eo + zlen (enc_slots sl) + len + 8 -> exists es z, sl = es ++ [z] /\ es <> [].
Proof using.
  intros [Hn Hh _ Hu] Hlen Hfull. pose proof (na_slots _ _ _ _ _ _ Hn) as (es & z & -> & _ & Wz). exists es, z. split; [done|]. intros ->.
  cbn [app] in Hfull. rewrite enc_slots_1 in Hfull. pose proof (enc_len_range true z Wz) as [_ Hz]. rewrite Hz in Hfull. unfold enc_len in Hfull.
  rewrite zlen_vcn_bytes in Hfull. rewrite (we_end _ _ (proj1 Wz) eq_refl) in Hfull. pose proof (hd_room _ _ _ _ _ Hh). destruct z.2; lia.
Qed.

Lemma small_len (s : slot) : small s.1 -> 2 * enc_len s + 112 <= bs.
Proof using. unfold small, enc_len. rewrite zlen_vcn_bytes. destruct s.2; lia. Qed.

Lemma block_median split ni x na u bu (s1 : list slot) e c (s2 : list slot) op m cm oq nv : ia ni = Some na ->
  block_at bs q (fetch_of ni) u true bu (s1 ++ (e, Some c) :: s2) -> sized x bs vb -> ia_na x = true ->
  ntfs_icx_parent_vcn x = Some u -> ntfs_icx_parent_pos x = Some (zlen s1) -> wf_slot false (m, cm) -> small m -> in_s64 nv ->
  exists ni1, root ni1 = root ni /\ bm ni1 = bm ni /\ (exists na1, ia ni1 = Some na1) /\ (forall v, fetch_of ni1 v = fetch_of ni v) /\
    let r := ib_insert_with malloc fresh split ni x (op ++ enc (m, cm) ++ oq) (zlen op) nv in
    ((exists ni2 e, r = Some (ni2, x, STATUS_ERROR e) /\ bm ni2 = bm ni) \/
     (r = (out ← split ni1 x bu; let '(ni, x, err) := out in Some (ni, x, if status_is_ok err then STATUS_KEEP_SEARCHING else err)) /\
        exists es z, s1 ++ (e, Some c) :: s2 = es ++ [z] /\ es <> []) \/
     (exists ni2 iu, r = Some (ni2, x, STATUS_OK) /\ u = iu * q /\ block_number iu /\ root ni2 = root ni /\ bm ni2 = bm ni /\ (exists na2, ia ni2 = Some na2) /\
        written (fetch_of ni) (fetch_of ni2) iu true (s1 ++ (m, Some c) :: (e, Some nv) :: s2))).
Proof using All.
  intros Hna Hb Hx Hop Hpv Hpp Hm Hsm Hnv. pose proof Hb as ((iu & -> & Hiu) & Hf & Hib). pose proof Hib as (eo & pre & post & Hp).
  pose proof Hf as Hf'. unfold IndexLookup.fetch_of in Hf'. rewrite Hna in Hf'.
  destruct (ib_read_fetch bs vb q G ni x na iu bu Hx Hna Hiu Hf') as (na1 & Er & Hd1). set (ni1 := Inode (root ni) (Some na1) (bm ni)) in *.
  assert (forall v, fetch_of ni1 v = fetch_of ni v) as Hsame by (intros v; unfold IndexLookup.fetch_of; cbn; by rewrite Hna, Hd1).
  exists ni1. split_and!; [done | done | by eexists | done |]. cbv zeta. unfold ib_insert_with.
  destruct (malloc (block_size x)); cbn [negb]; [|left; eauto]. rewrite Hpv. cbn [mbind option_bind]. rewrite Er. cbn [mbind option_bind].
  pose proof Hp as [Hn Hh Hl Hu]. change IB_INDEX with 24. rewrite (na_length _ _ _ _ _ _ Hn), (ib_alloc_ok Hp). cbn [mbind option_bind].
  rewrite (field_length false (m, cm)) by done. cbn [mbind option_bind]. pose proof (small_len (m, cm) Hsm) as Hsl.
  pose proof (enc_len_range false _ Hm) as [Hlr _]. pose proof (node_wf_parts _ _ _ _ _ _ Hn) as (_ & _ & Hil).
  pose proof (ge_range _ _ _ G) as Hbr. pose proof (na_eq _ _ _ _ _ _ Hn) as Eb. pose proof (na_pre _ _ _ _ _ _ Hn) as Hpre.
  assert (zlen bu = 24 + eo + zlen (enc_slots (s1 ++ (e, Some c) :: s2)) + zlen post) as Lb by (rewrite Eb at 1; rewrite !zlen_app; lia).
  pose proof (zlen_nonneg post). unfold u32, sizeof_VCN. rewrite wrap_u_small by lia.
  destruct (Z.ltb_spec (bs - 24) (eo + zlen (enc_slots (s1 ++ (e, Some c) :: s2)) + enc_len (m, cm) + 8)) as [Hfull|Hroom].
  { right. left. split; [done|]. by eapply full_block. }
  rewrite Hpp. cbn [mbind option_bind]. destruct Hfresh as [Hfw Hf8].
  assert (enc_len (m, Some nv) <= enc_len (m, cm) + 8) as Hle by (unfold enc_len; cbn [fst snd]; rewrite !zlen_vcn_bytes; destruct cm; lia).
  destruct (node_ih_insert malloc fresh bu 24 eo pre s1 e c s2 post op m cm oq nv Hn Hm Hnv Hfw Hf8) as [->|(b2 & pre2 & post2 & -> & Hed & _)];
    [lia | lia | |]; cbn [mbind option_bind status_is_ok negb]; [left; by eexists _, _|].
  assert (uniform true (s1 ++ (m, Some c) :: (e, Some nv) :: s2)) as Hu2.
  { apply uniform_app in Hu as [U1 U2]. apply uniform_cons in U2 as [_ U2]. apply uniform_app. split; [done|].
    apply uniform_cons. split; [done|]. by apply uniform_cons. }
  pose proof (iblock_edit _ _ _ _ _ _ _ _ _ _ _ Hp Hed Hu2) as Hib2.
  destruct (write_block bs vb q G malloc ni1 x na1 iu true b2 _ Hx Hop eq_refl Hiu Hib2) as (ni2 & s & E2 & Heff).
  destruct (ntfs_ib_write ni1 x b2) as [[[ni2' b3] s']|]; cbn [mbind option_bind] in E2 |- *; [|done]. injection E2 as -> ->.
  pose proof Heff as (Hr2 & Hb2 & _). destruct s; cbn [status_is_ok]; try (left; by eexists _, _).
  right. right. destruct (effect_written ni1 na1 ni2 iu _ _ eq_refl Hiu Heff) as (_ & _ & Hia2 & [Hw1 Hw2]).
  exists ni2, iu. split_and!; try done. split; [done|]. intros v Hv Hne. rewrite <-Hsame. apply Hw2; [|done].
  destruct Hv as [Hv (bv & Hbv)]. split; [done|]. exists bv. by rewrite Hsame.
Qed.

(** *** The split, up to the parent *)

(** The end of a split, after the attempt to add the median to the parent. *)
Definition split_end (b : list Z) (median nv : Z) (out : inode R A * context * status) : option (inode R A * context * status) :=
  let '(ni, x, ret) := out in
  if negb (status_is_ok ret) then out ← ntfs_ibm_clear ni x nv; Some (fst out, x, ret)
  else out ← ntfs_ib_cut_tail ni x b median; Some (fst out, x, snd out).

(** The second half is written; the first one is still whole. *)
Record halfway ni x1 ni2 u (s1 : list slot) (p : list step) c k b (r1 : list slot) (s : slot) (t : list slot) zc vs0 nb nb2 j eo pre post : Prop := {
  hw_ctx : follows x1 p u /\ ntfs_icx_parent_vcn x1 = Some u /\ ntfs_icx_parent_pos x1 = Some (zlen s1) /\ sized x1 bs vb /\ ia_na x1 = true;
  hw_parts : iblock_parts bs c k b (r1 ++ s :: t ++ [zc]) eo pre post;
  hw_same : root ni2 = root ni /\ bm ni2 = Some nb2 /\ exists na2, ia ni2 = Some na2;
  hw_number : block_number j /\ ~ bit_set (attr_data nb) j /\ bit_set (attr_data nb2) j;
  hw_marked : bm ni = Some nb /\ marked nb vs0 /\ marked nb2 (j * q :: vs0) /\
    (forall i, 0 <= i -> bit_set (attr_data nb) i -> bit_set (attr_data nb2) i) /\ zlen (attr_data nb2) <= zlen (attr_data nb) + 8;
  hw_written : written (fetch_of ni) (fetch_of ni2) j k (t ++ [zc]) }.

Lemma take_half (es : list slot) : es <> [] -> exists s t, es = take (Nat.div2 (length es)) es ++ s :: t.
Proof using.
  intros Hne. assert (Nat.div2 (length es) < length es)%nat as Hl by (apply Nat.lt_div2; destruct es; cbn; [done | lia]).
  destruct (lookup_lt_is_Some_2 es _ Hl) as [s Hs]. exists s, (drop (S (Nat.div2 (length es))) es). by rewrite take_drop_middle.
Qed.

Lemma split_start depth extra ni x ir sl h u (s1 : list slot) (p : list step) c b es zc vl vr vc xl xc xr :
  splitting ni x ir sl h ((u, s1) :: p) c b es zc vl vr vc xl xc xr ->
  let vs0 := vl ++ (c :: vc) ++ vr in
  (exists ni' x' e, ib_split malloc fresh (S depth) (S (S extra)) ni x b = Some (ni', x', STATUS_ERROR e) /\ sized x' bs vb) \/
  (exists x1 ni2 r1 s t nb nb2 j eo pre post, es = r1 ++ s :: t /\ halfway ni x1 ni2 u s1 p c (inner h) b r1 s t zc vs0 nb nb2 j eo pre post /\
     let median := zlen pre + zlen (enc_slots r1) in
     ib_split malloc fresh (S depth) (S (S extra)) ni x b =
       (out ← (if u =? VCN_INDEX_ROOT_PARENT then ntfs_ir_insert_median malloc fresh (S (S extra)) ni2 x1 b median (j * q)
               else ib_insert_with malloc fresh (ib_split malloc fresh depth (S (S extra))) ni2 x1 b median (j * q));
        split_end b median (j * q) out)).
Proof using All.
  intros [[Hv Hr] Hp Hb Hs Hnd Hsm Hne Hmk (Hfo & [Hbs Hvb] & Hop)] vs0. cbn [ib_split].
  destruct (parent_step x u s1 p c Hfo) as (x1 & -> & Hfo1 & Hpv & Hpp & Hbs1 & Hvb1 & Hop1). cbn [status_is_ok negb].
  assert (sized x1 bs vb) as Hx1 by (split; congruence). rewrite Hop in Hop1.
  destruct (take_half es Hne) as (s & t & Ees). set (r1 := take _ es) in *.
  pose proof Hb as (_ & Hf & (eo & pre & post & Hparts)). pose proof (ib_node _ _ _ _ _ _ _ _ Hparts) as Hn.
  change IB_INDEX with 24. rewrite (node_median Hn es zc eq_refl). cbn [mbind option_bind]. fold r1.
  assert (es ++ [zc] = r1 ++ s :: t ++ [zc]) as Esl by (rewrite Ees at 1; by rewrite <-app_assoc). rewrite Esl in Hparts.
  destruct (bm ni) as [nb|] eqn:Ebm.
  2: { left. unfold ntfs_ibm_get_free. rewrite Ebm. cbn. by eexists _, _, _. }
  destruct (Hmk nb eq_refl) as [Hmk0 Hsz]. rewrite zlen_cons in Hsz. pose proof (zlen_nonneg p).
  destruct (ibm_get_free_spec bs vb q G malloc ni x1 nb Hx1 Ebm (proj1 Hmk0)) as (ni1 & v & nb2 & -> & [Hr1 Hi1] & Hb1 & Hfree); [lia|]. cbn [mbind option_bind].
  destruct (Z.eqb_spec v (-1)) as [|Hv1]; [left; by eexists _, _, _|].
  destruct (Hfree Hv1) as (Hw2 & Hz2 & j & -> & Hj & Hnset & Hset & _ & Hkeep). clear Hfree Hv1.
  assert (exists na, ia ni = Some na) as [na Hna] by (unfold IndexLookup.fetch_of in Hf; destruct (ia ni); [eauto | done]).
  assert (ia ni1 = Some na) as Hna1 by (by rewrite Hi1).
  destruct (copy_tail_ok bs vb q G malloc ni1 x1 na j c (inner h) b r1 s t zc eo pre post Hx1 Hop1 Hna1 Hj Hparts) as (ni2 & st & -> & Heff). cbn [mbind option_bind].
  pose proof Heff as (Hr2 & Hb2 & _). destruct (status_is_ok st) eqn:Est; cbn [negb].
  2: { left. destruct (clear_total ni2 x1 j Hx1 Hj) as [out ->]. cbn [mbind option_bind]. by eexists _, _, _. }
  assert (st = STATUS_OK) as -> by (by destruct st). right. rewrite Hpv. cbn [mbind option_bind].
  destruct (effect_written ni1 na ni2 j _ _ Hna1 Hj Heff) as (_ & _ & Hia2 & Hwr).
  exists x1, ni2, r1, s, t, nb, nb2, j, eo, pre, post. split; [done|]. split; [|done]. split.
  - by split_and!.
  - done.
  - split_and!; [congruence | congruence | done].
  - done.
  - split_and!; try done. split; [done|]. intros i Hi [E|Hin]; [assert (i = j) as -> by (destruct G; nia); done | apply Hkeep; [done|]; by apply Hmk0].
  - unfold written, IndexLookup.fetch_of in *. by rewrite Hi1 in Hwr.
Qed.

Lemma ib_write_status ni x b ni' b' s : ntfs_ib_write ni x b = Some (ni', b', s) -> s = STATUS_OK \/ exists e, s = STATUS_ERROR e.
Proof using.
  unfold ntfs_ib_write. destruct (index_block_vcn b); cbn [mbind option_bind]; [|done]. destruct (ia ni); [|done]. destruct (ia_na x); [|done].
  destruct (ntfs_attr_mst_pwrite _ _ _ _ _) as [[[na b2] r]|]; cbn [mbind option_bind]; [|done]. intros [= _ _ <-].
  destruct r as [[|[]|]|]; eauto.
Qed.

Section ends.
Context {ni ni2 : inode R A} {x1 : context} {u : Z} {s1 : list slot} {p : list step} {c : Z} {k : bool} {b : list Z} {r1 : list slot} {s : slot}
  {t : list slot} {zc : slot} {vs0 : list Z} {nb nb2 : A} {j eo : Z} {pre post : list Z}.
Hypothesis Hw : halfway ni x1 ni2 u s1 p c k b r1 s t zc vs0 nb nb2 j eo pre post.

Lemma end_error ni3 x3 median e : sized x3 bs vb ->
  exists ni', split_end b median (j * q) (ni3, x3, STATUS_ERROR e) = Some (ni', x3, STATUS_ERROR e).
Proof using All.
  intros Hx. unfold split_end. cbn [status_is_ok negb]. destruct (clear_total ni3 x3 j Hx (proj1 (hw_number _ _ _ _ _ _ _ _ _ _ _ _ _ _ _ _ _ _ _ _ Hw))) as [out ->].
  cbn [mbind option_bind]. eauto.
Qed.

Lemma end_keep ni3 x3 median n xs : sized x3 bs vb -> rebuilt ni3 vs0 nb2 n xs ->
  exists ni', split_end b median (j * q) (ni3, x3, STATUS_KEEP_SEARCHING) = Some (ni', x3, STATUS_KEEP_SEARCHING) /\ rebuilt ni' vs0 nb (n + 1) xs.
Proof using All.
  intros Hx Hr. destruct Hw as [_ _ _ (Hj & Hnset & Hset) (_ & Hmk & _ & Hle & Hz8) _].
  destruct (rebuilt_clear ni3 x3 vs0 nb nb2 n xs j Hx Hj Hr Hset (fresh_block nb vs0 j Hmk Hj Hnset) Hle Hz8) as (ni' & s' & E & Hr').
  unfold split_end. cbn [status_is_ok negb]. rewrite E. cbn [mbind option_bind]. eauto.
Qed.

(** The first half is cut last. *)
Lemma end_ok ni3 na3 ic : ia ni3 = Some na3 -> c = ic * q -> block_number ic ->
  exists ni4 s', split_end b (zlen pre + zlen (enc_slots r1)) (j * q) (ni3, x1, STATUS_OK) = Some (ni4, x1, s') /\
    ((exists e, s' = STATUS_ERROR e) \/
     s' = STATUS_OK /\ root ni4 = root ni3 /\ bm ni4 = bm ni3 /\ written (fetch_of ni3) (fetch_of ni4) ic k (r1 ++ [cut_end s zc])).
Proof using All.
  intros Hna -> Hic. destruct Hw as [(_ & _ & _ & Hx & Hop) Hparts _ _ _ _]. unfold split_end, ntfs_ib_cut_tail. cbn [status_is_ok negb].
  destruct (cut_tail_bytes Hparts) as (b' & pre' & post' & -> & Hib). cbn [mbind option_bind].
  destruct (write_block bs vb q G malloc ni3 x1 na3 ic k b' _ Hx Hop Hna Hic (ex_intro _ _ (ex_intro _ _ (ex_intro _ _ Hib)))) as (ni4 & s' & E & Heff).
  destruct (ntfs_ib_write ni3 x1 b') as [[[ni4' b2] s2]|] eqn:Ew; cbn [mbind option_bind] in E |- *; [|done]. injection E as -> ->. cbn [fst snd].
  exists ni4, s'. split; [done|]. destruct (ib_write_status _ _ _ _ _ _ Ew) as [->|[e ->]]; [right | left; by eexists].
  destruct (effect_written ni3 na3 ni4 ic _ _ Hna Hic Heff) as (H1 & H2 & _ & H3). by split_and!.
Qed.

End ends.

Lemma nodup_out (a b d : list Z) v : NoDup (a ++ (v :: b) ++ d) -> ~ In v (a ++ b ++ d).
Proof using.
  assert (a ++ (v :: b) ++ d ≡ₚ v :: a ++ b ++ d) as -> by (symmetry; apply Permutation_middle).
  intros [H _]%NoDup_cons Hin. by apply H, list_elem_of_In.
Qed.

Lemma forall_out (P : Z -> Prop) (a b d : list Z) v : Forall P (a ++ (v :: b) ++ d) -> Forall P (a ++ b ++ d).
Proof using. rewrite !Forall_app, Forall_cons. intros (? & [_ ?] & ?). by split_and!. Qed.

Lemma written_all f f' i k sl vs : written f f' i k sl -> Forall (present (q := q) f) vs -> ~ In (i * q) vs ->
  (forall u, In u vs -> f' u = f u) /\ Forall (present (q := q) f') vs.
Proof using.
  intros Hw Hp Hn. split; [by eapply written_kept|]. apply List.Forall_forall. intros v Hv. eapply written_present; [done | | by intros ->].
  rewrite List.Forall_forall in Hp. by apply Hp.
Qed.

Lemma block_kept f f' i k k' b sl sl' v : written f f' i k sl -> block_at bs q f v k' b sl' -> v <> i * q -> block_at bs q f' v k' b sl'.
Proof using.
  intros [_ Hw] (Hi & Hf & Hib) Hne. split; [done|]. split; [|done]. rewrite Hw; [done | by split; [|exists b] | done].
Qed.

(** The block that is split, with what is below it. *)
Lemma splitting_tree ni x ir sl h p c b es zc vl vr vc xl xc xr : splitting ni x ir sl h p c b es zc vl vr vc xl xc xr ->
  tree bs q (fetch_of ni) h c (c :: vc) xc /\ Forall (present (q := q) (fetch_of ni)) (vl ++ (c :: vc) ++ vr).
Proof using.
  intros [_ Hp Hb Hs _ _ _ _ _]. pose proof (path_present _ _ _ _ _ _ _ _ _ Hp) as Hpr. apply Forall_app in Hpr as [H1 H2].
  assert (tree bs q (fetch_of ni) h c (c :: vc) xc) as Ht by (apply tree_unfold; by exists b, (es ++ [zc]), vc, zc.1).
  split; [done|]. apply Forall_app. split; [done|]. apply Forall_app. split; [by eapply tree_present | done].
Qed.

(** The block is an entry and what is around it. *)
Lemma median_at c k b (r1 : list slot) (s : slot) (t : list slot) zc eo pre post : iblock_parts bs c k b (r1 ++ s :: t ++ [zc]) eo pre post ->
  exists op oq m cm, b = op ++ enc (m, cm) ++ oq /\ zlen op = zlen pre + zlen (enc_slots r1) /\ s = (m, cm) /\ wf_slot false s.
Proof using.
  intros Hp. pose proof (halves_wf Hp) as (_ & Hs & _). destruct Hp as [Hn _ _ _]. destruct s as [m cm].
  exists (pre ++ enc_slots r1), (enc_slots (t ++ [zc]) ++ post), m, cm. split_and!; [exact (node_slot Hn r1 (m, cm) (t ++ [zc]) eq_refl) | apply zlen_app | done | done].
Qed.

(** The parent is the root. *)
Lemma split_top depth extra ni x ir sl h u (s1 : list slot) c b es zc vl vr vc xl xc xr :
  splitting ni x ir sl h [(u, s1)] c b es zc vl vr vc xl xc xr ->
  exists ni' x' s, ib_split malloc fresh (S depth) (S (S extra)) ni x b = Some (ni', x', s) /\
    split_result ni' x' s (vl ++ (c :: vc) ++ vr) (bm ni) 2 (xl ++ xc ++ xr).
Proof using All.
  intros Hsp. destruct (split_start depth extra _ _ _ _ _ _ _ _ _ _ _ _ _ _ _ _ _ _ Hsp) as [(ni' & x' & e & E & Hx')|H].
  { exists ni', x', (STATUS_ERROR e). split; [done|]. split; [done | left; eauto]. }
  destruct H as (x1 & ni2 & r1 & s & t & nb & nb2 & j & eo & pre & post & Ees & Hw & ->).
  pose proof (splitting_tree _ _ _ _ _ _ _ _ _ _ _ _ _ _ _ _ Hsp) as [Ht Hpr]. pose proof Hsp as [[Hv Hr] Hp Hb Hs Hnd Hsm _ _ _].
  pose proof Hw as [(_ & _ & Hpp & Hx1 & Hop1) Hparts (Hroot & Hbm2 & na2 & Hna2) (Hj & Hnset & Hset) (Hbm & Hmk & Hmk2 & Hle & Hsz) Hwr].
  set (vs0 := vl ++ (c :: vc) ++ vr) in *. pose proof (fresh_block nb vs0 j Hmk Hj Hnset) as Hnj.
  destruct (path_top _ _ _ _ _ _ _ _ _ _ Hp) as (-> & e & s2 & xr1 & -> & S1 & S2 & ->). rewrite Z.eqb_refl.
  destruct (written_all _ _ _ _ _ _ Hwr Hpr Hnj) as [Hkept Hpr2].
  assert (indexed ni2 (S h) ir (s1 ++ (e, Some c) :: s2) vs0 (xl ++ xc ++ e :: xr1)) as Hix.
  { split; [by rewrite Hroot | | done |].
    - eapply (path_fill bs q (fetch_of ni) (fetch_of ni2) _ h [(VCN_INDEX_ROOT_PARENT, s1)]) in Hp; [unfold height in Hp; rewrite Nat.add_1_r in Hp; exact Hp | |].
      + intros v Hv'. apply Hkept. unfold vs0. in_blocks.
      + eapply tree_ext; [|exact Ht]. intros v Hv'. apply Hkept. unfold vs0. in_blocks.
    - intros nb' E. rewrite Hbm2 in E. injection E as <-. destruct Hmk2 as [H1 H2]. split; [done|]. intros i Hi Hin. apply H2; [done | by right]. }
  destruct (median_at _ _ _ _ _ _ _ _ _ _ Hparts) as (op & oq & m & cm & Eb & Eop & -> & Wm).
  assert (in_s64 (j * q)) as Hjs by (pose proof (vcn_range bs vb q j G Hj); unfold in_s64; lia).
  assert (forall nb', bm ni2 = Some nb' -> zlen (attr_data nb') < 2 ^ 30) as Hbig.
  { intros nb' E. rewrite Hbm2 in E. injection E as <-. destruct (sp_marked _ _ _ _ _ _ _ _ _ _ _ _ _ _ _ _ Hsp nb Hbm) as [_ H8].
    change (zlen [(VCN_INDEX_ROOT_PARENT, s1)]) with 1 in H8. lia. }
  destruct (root_median extra ni2 x1 h ir s1 e c s2 vs0 _ op m cm oq (j * q) Hix Hx1 Hop1 Hbig Hpp Wm Hjs) as (ni3 & x3 & st & E & Hx3 & Hres).
  rewrite <-Eb, Eop in E. rewrite E. cbn [mbind option_bind].
  destruct Hres as [(e' & ->)|[(-> & -> & Hia3 & Hbm3 & ir' & Hv3 & Hr3)|(-> & nb0 & Hnb0 & _ & Hreb)]].
  - destruct (end_error Hw ni3 x3 (zlen pre + zlen (enc_slots r1)) e' Hx3) as (ni4 & ->). eexists _, _, _. split; [reflexivity|]. split; [done | left; eauto].
  - pose proof Hb as ((ic & Ec & Hic) & _). rewrite Hna2 in Hia3.
    destruct (end_ok Hw ni3 na2 ic Hia3 Ec Hic) as (ni4 & s4 & -> & [(e' & ->)|(-> & Hroot4 & Hbm4 & Hwr4)]).
    { eexists _, _, _. split; [reflexivity|]. split; [done | left; eauto]. }
    eexists _, _, _. split; [reflexivity|]. split; [done|]. right. split; [by left|]. exists nb. split; [done|].
    assert (fetch_of ni3 = fetch_of ni2) as Ef3 by (unfold IndexLookup.fetch_of; by rewrite Hia3, Hna2). rewrite Ef3 in Hwr4.
    destruct Hwr as [(br & Hbr) _]. pose proof Hwr4 as [(bl & Hbl) _]. rewrite <-Ec in Hbl.
    assert (j * q <> c) as Hjc by (intros E'; apply Hnj; unfold vs0; rewrite E'; in_blocks).
    pose proof (nodup_out _ _ _ _ Hnd) as Hnc. rewrite Ees, <-app_assoc in Hb, Hs. cbn [app] in Hb, Hs.
    apply (rebuilt_le _ _ _ 1); [|lia]. eapply (split_root ni ni4 ir'); try done.
    + by rewrite Hroot4.
    + eapply block_kept; [exact Hwr4 | exact Hbr | congruence].
    + intros v Hin. rewrite (proj1 (written_all _ _ _ _ _ (vl ++ vc ++ vr) Hwr4 (forall_out _ _ _ _ _ Hpr2) (ltac:(by rewrite <-Ec))) v Hin).
      apply Hkept. unfold vs0. in_blocks.
    + by rewrite Hbm4, Hbm3.
  - assert (nb0 = nb2) as -> by (apply Hnb0; [done | by destruct vl]).
    destruct (end_keep Hw ni3 x3 (zlen pre + zlen (enc_slots r1)) _ _ Hx3 Hreb) as (ni4 & -> & Hreb4).
    eexists _, _, _. split; [reflexivity|]. split; [done|]. right. split; [by right|]. exists nb. by split.
Qed.

(** The parent is to be split too. *)
Lemma splitting_parent ni x ir sl h u (s1 : list slot) (p : list step) c b es zc vl0 vr0 xl0 xr0 vl1 vr1 vc xl1 xc xr1 ys z bu e (s2 : list slot) x1 ni2 nb nb2
    (eu : list slot) (zu : slot) :
  let vs0 := (vl0 ++ u :: vl1) ++ (c :: vc) ++ vr1 ++ vr0 in
  splitting ni x ir sl h ((u, s1) :: p) c b es zc (vl0 ++ u :: vl1) (vr1 ++ vr0) vc (xl0 ++ xl1) xc (ys ++ xr0) ->
  path bs q (fetch_of ni) sl (S h) p u vl0 vr0 xl0 xr0 -> block_at bs q (fetch_of ni) u true bu (s1 ++ (e, Some c) :: s2) ->
  seq_of (tree bs q (fetch_of ni) h) s1 vl1 xl1 -> seq_of (tree bs q (fetch_of ni) h) s2 vr1 xr1 -> e :: xr1 = ys ++ [z] ->
  follows x1 p u -> sized x1 bs vb -> ia_na x1 = true -> root ni2 = root ni -> bm ni2 = Some nb2 -> bm ni = Some nb ->
  zlen (attr_data nb2) <= zlen (attr_data nb) + 8 -> marked nb2 vs0 -> (forall v, In v vs0 -> fetch_of ni2 v = fetch_of ni v) ->
  s1 ++ (e, Some c) :: s2 = eu ++ [zu] -> eu <> [] ->
  splitting ni2 x1 ir sl (S h) p u bu eu zu vl0 vr0 (vl1 ++ (c :: vc) ++ vr1) xl0 (xl1 ++ xc ++ ys) xr0.
Proof using All.
  intros vs0 Hsp Hp Hbu S1 S2 Ey Hfo Hx Hop Hroot Hbm2 Hbm Hsz Hmk Hkept Eu Hne.
  pose proof (splitting_tree _ _ _ _ _ _ _ _ _ _ _ _ _ _ _ _ Hsp) as [Ht _]. pose proof Hsp as [Hr _ _ _ Hnd Hsm _ Hmk0 _].
  assert (vl0 ++ (u :: vl1 ++ (c :: vc) ++ vr1) ++ vr0 = vs0) as Evs by (unfold vs0; cbn; rewrite <-!app_assoc; cbn; by rewrite <-!app_assoc).
  assert (seq_of (kids bs q (fetch_of ni) (S h)) (eu ++ [zu]) (vl1 ++ (c :: vc) ++ vr1) ((xl1 ++ xc ++ ys) ++ [z])) as Hs.
  { rewrite <-Eu. apply seq_app. exists vl1, xl1, ((c :: vc) ++ vr1), (xc ++ e :: xr1).
    split_and!; [done | | done | by rewrite Ey, <-!app_assoc]. apply seq_cons. by exists (c :: vc), xc, vr1, xr1. }
  pose proof (seq_last _ _ _ _ _ Hs) as (zs & Ez). apply app_inj_tail in Ez as [_ ->]. split.
  - by rewrite Hroot.
  - eapply path_ext; [exact Hp|]. intros v Hv. apply Hkept. unfold vs0. in_blocks.
  - rewrite Eu in Hbu. destruct Hbu as (Hi & Hf & Hib). split_and!; [done | | exact Hib]. rewrite Hkept; [done|]. unfold vs0. in_blocks.
  - eapply kids_ext; [|exact Hs]. intros v Hv. apply Hkept. unfold vs0. in_blocks.
  - by rewrite Evs.
  - replace (xl0 ++ (xl1 ++ xc ++ ys) ++ xr0) with ((xl0 ++ xl1) ++ xc ++ ys ++ xr0) by (by rewrite <-!app_assoc). done.
  - done.
  - intros nb' E. rewrite Hbm2 in E. injection E as <-. rewrite Evs. split; [done|]. destruct (Hmk0 nb Hbm) as [_ H8]. rewrite zlen_cons in H8. lia.
  - done.
Qed.

(** The parent is a block: the split of the blocks above it is [IH]. *)
Lemma split_deep depth extra ni x ir sl h u (s1 : list slot) (p : list step) c b es zc vl vr vc xl xc xr :
  (forall ni x h u b es zc vl vr vc xl xc xr, splitting ni x ir sl h p u b es zc vl vr vc xl xc xr ->
     exists ni' x' s, ib_split malloc fresh depth (S (S extra)) ni x b = Some (ni', x', s) /\
       split_result ni' x' s (vl ++ (u :: vc) ++ vr) (bm ni) (zlen p + 1) (xl ++ xc ++ xr)) ->
  splitting ni x ir sl h ((u, s1) :: p) c b es zc vl vr vc xl xc xr -> p <> [] ->
  exists ni' x' s, ib_split malloc fresh (S depth) (S (S extra)) ni x b = Some (ni', x', s) /\
    split_result ni' x' s (vl ++ (c :: vc) ++ vr) (bm ni) (zlen p + 2) (xl ++ xc ++ xr).
Proof using All.
  intros IH Hsp Hpne. destruct (split_start depth extra _ _ _ _ _ _ _ _ _ _ _ _ _ _ _ _ _ _ Hsp) as [(ni' & x' & e & E & Hx')|H].
  { exists ni', x', (STATUS_ERROR e). split; [done|]. split; [done | left; eauto]. }
  destruct H as (x1 & ni2 & r1 & s & t & nb & nb2 & j & eo & pre & post & Ees & Hw & ->).
  pose proof (splitting_tree _ _ _ _ _ _ _ _ _ _ _ _ _ _ _ _ Hsp) as [Ht Hpr]. pose proof Hsp as [[Hv Hr] Hp Hb Hs Hnd Hsm _ _ _].
  pose proof Hw as [(Hfo1 & Hpv & Hpp & Hx1 & Hop1) Hparts (Hroot & Hbm2 & na2 & Hna2) (Hj & Hnset & Hset) (Hbm & Hmk & Hmk2 & Hle & Hsz) Hwr].
  set (vs0 := vl ++ (c :: vc) ++ vr) in *. pose proof (fresh_block nb vs0 j Hmk Hj Hnset) as Hnj.
  destruct (written_all _ _ _ _ _ _ Hwr Hpr Hnj) as [Hkept Hpr2].
  destruct (path_parent _ _ _ _ _ _ _ _ _ _ _ Hp Hpne) as (vl0 & vr0 & xl0 & xr0 & bu & e & s2 & vl1 & vr1 & xl1 & xr1 & ys & z & Hpu & Hbu & S1 & S2 & Ey & -> & -> & -> & ->).
  pose proof Hbu as ((iu & Eu & Hiu) & _). assert (0 <= u) as Hu0 by (destruct Hiu, G; nia).
  rewrite (proj2 (Z.eqb_neq u VCN_INDEX_ROOT_PARENT)) by (unfold VCN_INDEX_ROOT_PARENT; lia).
  destruct (median_at _ _ _ _ _ _ _ _ _ _ Hparts) as (op & oq & m & cm & Eb & Eop & -> & Wm).
  assert (in_s64 (j * q)) as Hjs by (pose proof (vcn_range bs vb q j G Hj); unfold in_s64; lia).
  assert (small m) as Hsmm.
  { pose proof Hs as Hs'. rewrite Ees in Hs'. apply Forall_app in Hsm as [_ Hsm]. apply Forall_app in Hsm as [Hsm _].
    pose proof (seq_Forall _ _ _ _ _ _ _ Hs' Hsm) as Hm. apply Forall_app in Hm as [_ Hm]. by apply Forall_inv in Hm. }
  assert (u <> j * q) as Huj by (intros E'; apply Hnj; unfold vs0; rewrite <-E'; in_blocks).
  pose proof (block_kept _ _ _ _ _ _ _ _ _ Hwr Hbu Huj) as Hbu2.
  destruct (block_median (ib_split malloc fresh depth (S (S extra))) ni2 x1 na2 u bu s1 e c s2 op m cm oq (j * q) Hna2 Hbu2 Hx1 Hop1 Hpv Hpp Wm Hsmm Hjs) as
    (ni1 & Hr1 & Hbm1 & Hia1 & Hsame & Hres).
  rewrite <-Eb, Eop in Hres. cbv zeta in Hres.
  destruct Hres as [(ni3 & e' & -> & _)|[(-> & eu & zu & Eeu & Hne)|(ni3 & iu' & -> & Eu' & Hiu' & Hr3 & Hbm3 & (na3 & Hna3) & Hwr3)]]; cbn [mbind option_bind].
  - destruct (end_error Hw ni3 x1 (zlen pre + zlen (enc_slots r1)) e' Hx1) as (ni4 & ->). eexists _, _, _. split; [reflexivity|]. split; [done | left; eauto].
  - assert (splitting ni1 x1 ir sl (S h) p u bu eu zu vl0 vr0 (vl1 ++ (c :: vc) ++ vr1) xl0 (xl1 ++ xc ++ ys) xr0) as Hspu.
    { eapply splitting_parent; try done; try congruence.
      - destruct Hmk2 as [H1 H2]. split; [done|]. intros i Hi Hin. apply H2; [done | by right].
      - intros v Hv'. rewrite Hsame. by apply Hkept. }
    destruct (IH _ _ _ _ _ _ _ _ _ _ _ _ _ Hspu) as (ni3 & x3 & st & -> & Hx3 & Hres). cbn [mbind option_bind].
    assert (vl0 ++ (u :: vl1 ++ (c :: vc) ++ vr1) ++ vr0 = vs0) as Evs by (unfold vs0; cbn; rewrite <-!app_assoc; cbn; by rewrite <-!app_assoc).
    assert (xl0 ++ (xl1 ++ xc ++ ys) ++ xr0 = (xl0 ++ xl1) ++ xc ++ ys ++ xr0) as Exs by (by rewrite <-!app_assoc).
    destruct Hres as [(e' & ->)|(Hst & nb' & Enb & Hreb)].
    + destruct (end_error Hw ni3 x3 (zlen pre + zlen (enc_slots r1)) e' Hx3) as (ni4 & E). cbn [status_is_ok]. rewrite E.
      eexists _, _, _. split; [reflexivity|]. split; [done | left; eauto].
    + rewrite Hbm1, Hbm2 in Enb. injection Enb as <-. rewrite Evs, Exs in Hreb.
      destruct (end_keep Hw ni3 x3 (zlen pre + zlen (enc_slots r1)) _ _ Hx3 Hreb) as (ni4 & E & Hreb4).
      assert ((if status_is_ok st then STATUS_KEEP_SEARCHING else st) = STATUS_KEEP_SEARCHING) as -> by (by destruct Hst as [->| ->]). rewrite E.
      eexists _, _, _. split; [reflexivity|]. split; [done|]. right. split; [by right|]. exists nb. split; [done|]. eapply rebuilt_le; [exact Hreb4 | lia].
  - pose proof Hb as ((ic & Ec & Hic) & _).
    destruct (end_ok Hw ni3 na3 ic Hna3 Ec Hic) as (ni4 & s4 & -> & [(e' & ->)|(-> & Hroot4 & Hbm4 & Hwr4)]).
    { eexists _, _, _. split; [reflexivity|]. split; [done | left; eauto]. }
    eexists _, _, _. split; [reflexivity|]. split; [done|]. right. split; [by left|]. exists nb. split; [done|].
    pose proof Hwr3 as [(bu' & Hbu') _]. pose proof Hwr4 as [(bl & Hbl) _]. destruct Hwr as [(br & Hbr) _].
    rewrite <-Ec in Hbl. rewrite <-Eu' in Hbu'. set (V := (vl0 ++ vl1) ++ vc ++ vr1 ++ vr0).
    pose proof (nodup_out _ _ _ _ Hnd) as Hnc.
    assert (~ In u (vl0 ++ (vl1 ++ c :: vc) ++ vr1 ++ vr0)) as Hnu.
    { apply nodup_out. replace (vl0 ++ (u :: vl1 ++ c :: vc) ++ vr1 ++ vr0) with vs0; [done|]. unfold vs0. cbn. rewrite <-?app_assoc. cbn. by rewrite <-?app_assoc. }
    assert (u <> c /\ ~ In u V /\ ~ In c V) as (Huc & HuV & HcV).
    { split; [intros ->; apply Hnu; in_blocks|]. unfold V. split; intros Hin; [apply Hnu | apply Hnc]; in_blocks. }
    assert (j * q <> c) as Hjc by (intros E'; apply Hnj; unfold vs0; rewrite E'; in_blocks).
    assert (Forall (present (q := q) (fetch_of ni2)) V) as HV.
    { apply List.Forall_forall. intros v Hin. rewrite List.Forall_forall in Hpr2. apply Hpr2. unfold vs0. unfold V in Hin. in_blocks. }
    destruct (written_all _ _ _ _ _ V Hwr3 HV) as [K3 HV3]; [by rewrite <-Eu'|].
    destruct (written_all _ _ _ _ _ V Hwr4 HV3) as [K4 _]; [by rewrite <-Ec|].
    rewrite Ees, <-app_assoc in Hb, Hs. cbn [app] in Hb, Hs.
    apply (rebuilt_le _ _ _ 1); [|pose proof (zlen_nonneg p); lia]. eapply (split_under ni ni4 (h + length p) ir sl h u p s1 c b bl br bu' r1 (m, cm) t zc e s2 vl0 vr0 xl0 xr0 vl1 vr1 vc xl1 xc xr1 ys z j nb nb2); try done.
    + by rewrite Hroot4, Hr3, Hroot.
    + eapply block_kept; [exact Hwr4 | exact Hbu' | congruence].
    + eapply block_kept; [exact Hwr4 | | congruence]. eapply block_kept; [exact Hwr3 | exact Hbr | congruence].
    + intros v Hin. rewrite K4, K3 by done. apply Hkept. unfold vs0. in_blocks.
    + by rewrite Hbm4, Hbm3.
Qed.

(** The split of a block: the index has the same entries in the same order, and
    where it was changed one block was split, or the root moved. *)
Lemma ib_split_ok extra ir sl p : forall depth ni x h c b es zc vl vr vc xl xc xr, splitting ni x ir sl h p c b es zc vl vr vc xl xc xr ->
  (length p <= depth)%nat -> exists ni' x' s, ib_split malloc fresh depth (S (S extra)) ni x b = Some (ni', x', s) /\
    split_result ni' x' s (vl ++ (c :: vc) ++ vr) (bm ni) (zlen p + 1) (xl ++ xc ++ xr).
Proof using All.
  induction p as [|[u s1] p IH]; intros depth ni x h c b es zc vl vr vc xl xc xr Hsp Hd.
  - by destruct (path_ne _ _ _ _ _ _ _ _ _ _ _ (sp_path _ _ _ _ _ _ _ _ _ _ _ _ _ _ _ _ Hsp)).
  - cbn [length] in Hd. destruct depth as [|depth]; [lia|]. rewrite zlen_cons.
    destruct (decide (p = [])) as [->|Hne]; [by eapply split_top|]. replace (zlen p + 1 + 1) with (zlen p + 2) by lia.
    eapply split_deep; [|exact Hsp|done]. intros. eapply IH; [done | lia].
Qed.

Lemma ntfs_ib_split_ok extra ni x ir sl h p c b es zc vl vr vc xl xc xr : splitting ni x ir sl h p c b es zc vl vr vc xl xc xr ->
  exists ni' x' s, ntfs_ib_split malloc fresh (S (S extra)) ni x b = Some (ni', x', s) /\
    split_result ni' x' s (vl ++ (c :: vc) ++ vr) (bm ni) (zlen p + 1) (xl ++ xc ++ xr).
Proof using All.
  intros Hsp. eapply ib_split_ok; [exact Hsp|]. destruct (sp_ctx _ _ _ _ _ _ _ _ _ _ _ _ _ _ _ _ Hsp) as ([_ _ [-> _] _] & _). unfold zlen. lia.
Qed.
End io.
