(* ===== verification/IndexAdd.v ===== *)
(** ntfs_ie_add (libntfs-3g/index.c): an entry added to an index is in its place
    in the order, and the other entries keep theirs. *)

From S2P Require Import Prelude Mst AttrIo AttrMst Names Collate Index IndexSpec IndexNode IndexBlock IndexMake IndexBitmap IndexTree IndexLookup IndexRoot IndexSplit.
From stdpp Require Import sorting.
Local Open Scope Z_scope.
Local Open Scope c_scope.
Set Default Proof Using "Type*".
#[local] Arguments le_encode : simpl never.

(** ** The pending block *)

(** The flag that says that the block of the context is to be written changes in
    ntfs_index_entry_mark_dirty and ntfs_icx_ib_write only. *)
Section dirty.
Context {R A : Type} `{!AttrOps A, !AttrResize A, !RootOps R A}.
Implicit Types (ni : inode R A) (x : context).

(** The next call of a hypothesis that says that an operation ends. *)
Ltac next H :=
  match type of H with
  | Some _ = Some _ => injection H as <- <- <-
  | (match ?o with _ => _ end) = Some _ => let E := fresh "E" in destruct o eqn:E; cbn [mbind option_bind fst snd] in H; try discriminate H
  | mbind _ ?o = Some _ => let E := fresh "E" in destruct o eqn:E; cbn [mbind option_bind fst snd] in H; try discriminate H
  end.

Lemma store_pos_dirty x n x' : store_pos x n = Some x' -> ib_dirty x' = ib_dirty x.
Proof using. unfold store_pos. destruct (zset _ _ _); cbn [mbind option_bind]; [|done]. by intros [= <-]. Qed.

Lemma store_vcn_dirty x n x' : store_vcn x n = Some x' -> ib_dirty x' = ib_dirty x.
Proof using. unfold store_vcn. destruct (zset _ _ _); cbn [mbind option_bind]; [|done]. by intros [= <-]. Qed.

Lemma lookup_done_dirty b ie x r x' r' : lookup_done b ie x r = Some (x', r') -> ib_dirty x' = ib_dirty x.
Proof using. unfold lookup_done. destruct (ie_key_length b ie); cbn [mbind option_bind]; [|done]. by intros [= <- _]. Qed.

Ltac settle :=
  repeat match goal with p : prod _ _ |- _ => destruct p end; cbn [fst snd] in *;
  repeat match goal with
  | E : store_pos _ _ = Some _ |- _ => apply store_pos_dirty in E
  | E : store_vcn _ _ = Some _ |- _ => apply store_vcn_dirty in E
  | E : lookup_done _ _ _ _ = Some _ |- _ => apply lookup_done_dirty in E
  end;
  cbn in *; congruence.

Lemma descend_dirty fuel : forall ni x key klen old vcn ni' x' r, descend fuel ni x key klen old vcn = Some (ni', x', r) -> ib_dirty x' = ib_dirty x.
Proof using.
  induction fuel as [|fuel IH]; intros ni x key klen old vcn ni' x' r H; [done|]. cbn [descend] in H. unfold ntfs_icx_parent_inc in H.
  repeat next H; try settle. apply IH in H. settle.
Qed.

Lemma lookup_dirty malloc memcmp up ul cs csb ni x key klen ni' x' r :
  ntfs_index_lookup malloc memcmp up ul cs csb ni x key klen = Some (ni', x', r) -> ib_dirty x' = ib_dirty x.
Proof using.
  intros H. unfold ntfs_index_lookup in H. repeat next H; try settle. apply descend_dirty in H. settle.
Qed.

Lemma ia_add_dirty ni x ni' x' s : ntfs_ia_add ni x = (ni', x', s) -> ib_dirty x' = ib_dirty x.
Proof using.
  unfold ntfs_ia_add. destruct (ntfs_ibm_add ni) as [ni1 s1]. destruct (negb _); [by intros [= _ <- _]|].
  destruct (ia ni1); [by intros [= _ <- _]|]. destruct (attr_add _ _) as [r [o|]]; by intros [= _ <- _].
Qed.

Lemma reparent_dirty malloc rounds ni x ni' x' s : ntfs_ir_reparent malloc rounds ni x = Some (ni', x', s) -> ib_dirty x' = ib_dirty x.
Proof using.
  intros H. unfold ntfs_ir_reparent in H. destruct (ir_value (root ni)); [|by next H]. next H.
  destruct (if _ =? SMALL_INDEX then _ else _) as [[ni1 x1] s1] eqn:E1. assert (ib_dirty x1 = ib_dirty x) as <-.
  { destruct (_ =? SMALL_INDEX); [by eapply ia_add_dirty | by injection E1 as _ <- _]. }
  clear E1. repeat next H; settle.
Qed.

Lemma make_space_dirty malloc rounds ni x n ni' x' s : ntfs_ir_make_space malloc rounds ni x n = Some (ni', x', s) -> ib_dirty x' = ib_dirty x.
Proof using.
  intros H. unfold ntfs_ir_make_space in H. repeat next H; try settle. by eapply reparent_dirty.
Qed.

Lemma median_dirty malloc fresh rounds ni x mb m nv ni' x' s :
  ntfs_ir_insert_median malloc fresh rounds ni x mb m nv = Some (ni', x', s) -> ib_dirty x' = ib_dirty x.
Proof using.
  intros H. unfold ntfs_ir_insert_median in H. repeat next H; try settle; (eapply eq_trans; [|by eapply make_space_dirty]); settle.
Qed.

Lemma insert_dirty malloc fresh split ni x mb m nv ni' x' s :
  (forall ni x b ni' x' s, split ni x b = Some (ni', x', s) -> ib_dirty x' = ib_dirty x) ->
  ib_insert_with malloc fresh split ni x mb m nv = Some (ni', x', s) -> ib_dirty x' = ib_dirty x.
Proof using.
  intros Hs H. unfold ib_insert_with in H. repeat next H; try settle. by eapply Hs.
Qed.

Lemma split_dirty malloc fresh rounds depth : forall ni x b ni' x' s,
  ib_split malloc fresh depth rounds ni x b = Some (ni', x', s) -> ib_dirty x' = ib_dirty x.
Proof using.
  induction depth as [|depth IH]; intros ni x b ni' x' s H; [done|]. cbn [ib_split] in H. unfold ntfs_icx_parent_dec in H.
  next H; [next H; settle|]. next H. next H. next H. next H; [next H; settle|]. next H. destruct p0. next H; [repeat next H; settle|]. next H.
  match type of H with mbind _ ?o = _ => destruct o as [[[ni1 x1] s1]|] eqn:Eo; cbn [mbind option_bind] in H; [|done] end.
  assert (ib_dirty x1 = ib_dirty x) as <-.
  { destruct (_ =? VCN_INDEX_ROOT_PARENT); [apply median_dirty in Eo; exact Eo|]. apply insert_dirty in Eo; [exact Eo | exact IH]. }
  clear Eo. repeat next H; settle.
Qed.

Lemma ntfs_ib_split_dirty malloc fresh rounds ni x b ni' x' s : ntfs_ib_split malloc fresh rounds ni x b = Some (ni', x', s) -> ib_dirty x' = ib_dirty x.
Proof using. apply split_dirty. Qed.

Lemma make_or_split_dirty (c : bool) malloc fresh rounds ni x n ni' x' s :
  (if c then ntfs_ir_make_space malloc rounds ni x n else ntfs_ib_split malloc fresh rounds ni x (ib x)) = Some (ni', x', s) -> ib_dirty x' = ib_dirty x.
Proof using. destruct c; [apply make_space_dirty | apply ntfs_ib_split_dirty]. Qed.

Lemma reinit_dirty ni x ni' x' : ntfs_index_ctx_reinit ni x = Some (ni', x') -> ib_dirty x' = false.
Proof using. unfold ntfs_index_ctx_reinit. destruct (ntfs_index_ctx_free ni x); cbn [mbind option_bind]; [|done]. by intros [= _ <-]. Qed.

Lemma round_dirty malloc memcmp up ul cs csb fresh rounds ni x e ni' x' r :
  ie_add_round malloc memcmp up ul cs csb fresh rounds ni x e = Some (ni', x', r) -> ib_dirty x = false -> r <> Added -> ib_dirty x' = false.
Proof using.
  intros H Hx Hr. unfold ie_add_round in H. next H. next H. destruct p as [[ni1 x1] r1]. apply lookup_dirty in E0. rewrite Hx in E0.
  destruct r1 as [?|[]]; try (injection H as <- <- <-; done).
  do 5 next H. next H; [next H; by next H|]. next H. destruct p as [[ni2 x2] s].
  apply make_or_split_dirty in E7. rewrite E0 in E7.
  destruct s; try (injection H as <- <- <-; done); (next H; destruct p as [ni3 x3]; apply reinit_dirty in E8; injection H as <- <- <-; exact E8).
Qed.

Lemma ie_add_dirty malloc memcmp up ul cs csb fresh fuel : forall rounds ni x e ni' x' r,
  ntfs_ie_add malloc memcmp up ul cs csb fresh fuel rounds ni x e = Some (ni', x', r) -> ib_dirty x = false -> r <> Added -> ib_dirty x' = false.
Proof using.
  induction fuel as [|fuel IH]; intros rounds ni x e ni' x' r H Hx Hr; cbn [ntfs_ie_add] in H; [injection H as <- <- <-; done|].
  next H. destruct p as [[ni1 x1] r1]. destruct r1; [injection H as <- <- <-; done | | injection H as <- <- <-; by eapply round_dirty].
  eapply IH; [exact H | by eapply round_dirty | done].
Qed.
End dirty.

(** ** The order *)

Section order.
Context {collate : COLLATE} `{!KeyOrder collate}.
Abbreviation cmp := (key_cmp collate).

Lemma in_order_insert l e r : in_order (collate := collate) (l ++ r) -> Forall (below (collate := collate) (e_key e)) l ->
  Forall (above (collate := collate) (e_key e)) r -> in_order (collate := collate) (l ++ e :: r).
Proof.
  unfold in_order. rewrite !StronglySorted_app, StronglySorted_cons. intros (H1 & H2 & H3) Hb Ha. rewrite !Forall_forall in *.
  split_and!; [| done | | done].
  - intros x y Hx [->|Hy]%elem_of_cons; [|by apply H1]. pose proof (Hb x Hx) as E. unfold below in E. rewrite key_cmp_antisym, E. done.
  - intros y Hy. exact (Ha y Hy).
Qed.

(** A key between the entries is not the key of one of them. *)
Lemma not_between key l r e : Forall (below (collate := collate) key) l -> Forall (above (collate := collate) key) r -> In e (l ++ r) -> cmp key (e_key e) <> 0.
Proof.
  intros Hb Ha [H|H]%in_app_iff; rewrite List.Forall_forall in *; [specialize (Hb e H) | specialize (Ha e H)]; unfold below, above in *; lia.
Qed.

(** *** The place of an entry *)

Lemma in_order_mid l e t : in_order (collate := collate) (l ++ e :: t) ->
  Forall (below (collate := collate) (e_key e)) l /\ Forall (above (collate := collate) (e_key e)) t /\ in_order (collate := collate) (l ++ t).
Proof.
  unfold in_order. rewrite !StronglySorted_app, StronglySorted_cons. intros (H1 & H2 & H3 & H4). split_and!.
  - apply Forall_forall. intros x Hx. unfold below. rewrite key_cmp_antisym, (H1 x e Hx) by constructor. done.
  - done.
  - intros x y Hx Hy. apply H1; [done|]. by right.
  - done.
  - done.
Qed.

(** An entry has one place. *)
Lemma place_unique key (l t l' t' : list ent) : l ++ t = l' ++ t' -> Forall (below (collate := collate) key) l -> Forall (above (collate := collate) key) t ->
  Forall (below (collate := collate) key) l' -> Forall (above (collate := collate) key) t' -> l = l' /\ t = t'.
Proof.
  unfold below, above. revert l'; induction l as [|x l IH]; intros [|y l'] E Hl Ht Hl' Ht'; cbn [app] in E.
  - done.
  - subst t. apply Forall_inv in Ht. apply Forall_inv in Hl'. lia.
  - subst t'. apply Forall_inv in Ht'. apply Forall_inv in Hl. lia.
  - injection E as -> E. apply Forall_inv_tail in Hl, Hl'. destruct (IH l' E) as [-> ->]; done.
Qed.

Lemma order_unique e (l t l' t' : list ent) : l ++ t = l' ++ t' -> in_order (collate := collate) (l ++ e :: t) -> in_order (collate := collate) (l' ++ e :: t') ->
  l = l' /\ t = t'.
Proof. intros E (A1 & A2 & _)%in_order_mid (B1 & B2 & _)%in_order_mid. by apply (place_unique (e_key e)). Qed.

(** The entry of a key is where it is. *)
Lemma found_unique key (l t l' t' : list ent) e e' : l ++ e :: t = l' ++ e' :: t' -> in_order (collate := collate) (l ++ e :: t) ->
  cmp key (e_key e) = 0 -> cmp key (e_key e') = 0 -> l = l' /\ e = e' /\ t = t'.
Proof.
  intros E Ho H1 H2. revert l' E Ho; induction l as [|x l IH]; intros [|y l'] E Ho; cbn [app] in E.
  - by injection E as -> ->.
  - injection E as E1 E2. subst y t. exfalso. cbn [app] in Ho. apply StronglySorted_cons in Ho as [Ho _].
    rewrite Forall_forall in Ho. specialize (Ho e' ltac:(apply elem_of_app; right; constructor)).
    assert (cmp key (e_key e') = -1); [|lia]. by apply (cmp_above (e_key e)); [lia|].
  - cbn [app] in Ho. injection E as -> E. subst t'. exfalso. apply (in_order_mid (e' :: l)) in Ho as (Ho & _). apply Forall_inv in Ho. unfold below in Ho.
    rewrite key_cmp_antisym in Ho. assert (cmp key (e_key e) = -1); [|lia]. apply (cmp_above (e_key e')); lia.
  - injection E as -> E. destruct (IH l' E) as (-> & -> & ->); [by apply StronglySorted_cons in Ho as [_ ?]|]. done.
Qed.

(** A new entry of the index: with a key, and small. *)
Record new_entry (bs : Z) (e : ent) : Prop := {
  nw_wf : wf_ent false e;
  nw_key : good_key collate e /\ 0 < e_klen e;
  nw_small : small bs e }.

Lemma new_entry_key bs e : new_entry bs e -> ie_key_length (enc (e, None)) 0 = Some (e_klen e) /\ zlen (e_key e) = e_klen e /\
  exists t, drop 16 (enc (e, None)) = e_key e ++ t.
Proof.
  intros [Hw [Hg Hk] _]. assert (wf_slot false (e, None)) as Hs by (by split).
  pose proof (field_klen false (e, None) [] [] 0 Hs eq_refl) as H1. pose proof (key_in_memory collate (e, None) [] [] Hs Hg) as (t & H2 & H3).
  cbn [app fst] in *. rewrite !app_nil_r in *. split_and!; [done | done | by exists t].
Qed.
End order.

Lemma leaf_seq T (sl : list slot) : uniform false sl -> seq_of T sl [] (fst <$> sl).
Proof.
  induction sl as [|s sl IH]; [constructor|]. intros [Hs H]%uniform_cons. apply bool_decide_eq_false, eq_None_not_Some in Hs.
  destruct s as [e ch]. cbn in Hs. subst ch. cbn. constructor. by apply IH.
Qed.

(** ** One round *)

Section add.
Context {R A : Type} `{!AttrOps A, !AttrResize A, !RootOps R A, !AttrLaws A, !AttrReliable A, !AttrGrowLaws A, !RootLaws R A}.
Context (bs vb q : Z) (G : geometry bs vb q) (malloc : Z -> bool) (fresh : list Z) (rule : Z).
Hypothesis Hfresh : wf_bytes fresh /\ zlen fresh = 8.
Hypothesis Hmax : ir_max (R := R) + 292 <= bs.
Context (memcmp : list Z -> list Z -> Z) (upcase : list Z) (upcase_len cluster_size cluster_size_bits : Z).
Context {collate : COLLATE} `{!KeyOrder collate}.
Hypothesis Hcol : ntfs_get_collate_function memcmp upcase upcase_len rule = Some collate.
Hypothesis Hvb : vb = if cluster_size <=? bs then cluster_size_bits else 9.
Hypothesis Hmalloc : malloc bs = true.
Implicit Types (ni : inode R A) (x : context).
Abbreviation cmp := (key_cmp collate).

(** The index of [ni] has the entries [xs], in order, and the end [z] in its
    root. *)
Record valid ni (d : nat) (vs : list Z) (xs : list ent) (z : ent) : Prop := {
  va_index : exists ir sl, indexed bs vb q rule ni d ir sl vs (xs ++ [z]);
  va_order : in_order (collate := collate) xs;
  va_good : Forall (good_key collate) xs;
  va_small : Forall (small bs) (xs ++ [z]) }.

Lemma valid_insert ni d vs l r z e ir sl : indexed bs vb q rule ni d ir sl vs ((l ++ e :: r) ++ [z]) -> new_entry (collate := collate) bs e ->
  in_order (collate := collate) (l ++ r) -> Forall (good_key collate) (l ++ r) -> Forall (small bs) ((l ++ r) ++ [z]) ->
  Forall (below (collate := collate) (e_key e)) l -> Forall (above (collate := collate) (e_key e)) r -> valid ni d vs (l ++ e :: r) z.
Proof using.
  intros Hix [_ [Hg _] Hsm] Ho Hgs Hss Hb Ha. split; [by exists ir, sl | by apply in_order_insert | |].
  - apply Forall_app in Hgs as [H1 H2]. apply Forall_app. split; [done | by constructor].
  - rewrite !Forall_app in Hss. destruct Hss as [[H1 H2] H3]. rewrite !Forall_app. split_and!; [done | by constructor | done].
Qed.

(** A path starts at a root with children. *)
Lemma path_inner f sl d p c vl vr xl xr k : path bs q f sl d p c vl vr xl xr -> uniform k sl -> k = true.
Proof using.
  induction 1 as [d' t1 e' c' t2 vl vr xl xr -> _ _|]; [|done]. intros [_ [Hu _]%uniform_cons]%uniform_app. cbn in Hu. by rewrite <-Hu.
Qed.

(** *** A leaf with room *)

Lemma leaf_insert c b (s1 s2 : list slot) eo pre post e il : iblock_parts bs c false b (s1 ++ s2) eo pre post -> s2 <> [] ->
  new_entry (collate := collate) bs e -> index_length b IB_INDEX = Some il -> il + enc_len (e, None) <= bs - 24 ->
  exists b', ntfs_ie_insert b IB_INDEX (enc (e, None)) (IB_INDEX + eo + zlen (enc_slots s1)) = Some b' /\
    iblock bs c false b' (s1 ++ (e, None) :: s2).
Proof using G.
  intros Hp Hne [Hw _ _] Hil Hroom. pose proof Hp as [Hn Hh Hl Hu]. change IB_INDEX with 24 in *. rewrite (na_length _ _ _ _ _ _ Hn) in Hil.
  injection Hil as <-. pose proof (na_eq _ _ _ _ _ _ Hn) as Eb. pose proof (na_pre _ _ _ _ _ _ Hn) as Hpre. pose proof (ge_range _ _ _ G).
  assert (zlen b = 24 + eo + zlen (enc_slots (s1 ++ s2)) + zlen post) as Lb by (rewrite Eb at 1; rewrite !zlen_app; lia).
  assert (wf_slot false (e, None)) as Hs by (by split).
  destruct (node_insert b 24 eo pre s1 s2 post (e, None) Hn Hne Hs) as (b' & pre' & E & Hed); [lia|lia|].
  exists b'. rewrite <-Hpre. split; [done|]. eapply iblock_edit; [exact Hp | exact Hed |]. apply uniform_app in Hu as [U1 U2].
  apply uniform_app. split; [done|]. by apply uniform_cons.
Qed.

(** The leaf written, the entry is in the index. *)
Lemma leaf_written ni ni' d ir sl vs xl (s1 s2 : list slot) ys y zs z e p c vl vr ic :
  indexed bs vb q rule ni d ir sl vs ((xl ++ (fst <$> s1)) ++ (ys ++ zs) ++ [z]) -> path bs q (fetch_of bs vb ni) sl 0 p c vl vr xl (zs ++ [z]) ->
  fst <$> s2 = ys ++ [y] -> vs = vl ++ c :: vr -> c = ic * q -> uniform false (s1 ++ (e, None) :: s2) ->
  root ni' = root ni -> bm ni' = bm ni -> written bs q (fetch_of bs vb ni) (fetch_of bs vb ni') ic false (s1 ++ (e, None) :: s2) ->
  indexed bs vb q rule ni' (height 0 p) ir sl vs (((xl ++ (fst <$> s1)) ++ e :: ys ++ zs) ++ [z]).
Proof using.
  intros [[Hv Hr] Hs Hnd Hm] Hp Ey Evs Ec Hu Hroot Hbm Hw. pose proof (path_present _ _ _ _ _ _ _ _ _ Hp) as Hpr. subst vs.
  pose proof Hw as [(b & Hb) _]. rewrite <-Ec in Hb.
  assert (~ In c (vl ++ vr)) as Hnc by (by apply (nodup_out vl [] vr)).
  destruct (written_all bs q _ _ _ _ _ (vl ++ vr) Hw Hpr) as [K _]; [by rewrite <-Ec|].
  assert (tree bs q (fetch_of bs vb ni') 0 c [c] ((fst <$> s1) ++ e :: ys)) as Ht.
  { apply tree_unfold. exists b, (s1 ++ (e, None) :: s2), [], y. split_and!; [done | done |]. rewrite <-app_assoc.
    replace ((e :: ys) ++ [y]) with (e :: (fst <$> s2)) by (by rewrite Ey). pose proof (leaf_seq (kids bs q (fetch_of bs vb ni') 0) _ Hu) as H.
    by rewrite fmap_app in H. }
  pose proof (path_fill _ _ _ _ _ _ _ _ _ _ _ _ _ _ Hp K Ht) as Hall.
  split; [rewrite Hroot; split; [done|] | | done | by rewrite Hbm].
  - destruct Hr as (eo & pre & post & Hparts). exists eo, pre, post.
    assert (inner d = inner (height 0 p)) as <-; [|done].
    assert (inner (height 0 p) = true) as -> by (pose proof (path_ne _ _ _ _ _ _ _ _ _ _ _ Hp); by destruct p).
    exact (path_inner _ _ _ _ _ _ _ _ _ _ Hp (ir_uniform _ _ _ _ _ _ _ _ Hparts)).
  - replace (((xl ++ (fst <$> s1)) ++ e :: ys ++ zs) ++ [z]) with (xl ++ ((fst <$> s1) ++ e :: ys) ++ zs ++ [z]); [exact Hall|].
    rewrite <-!app_assoc. cbn. by rewrite <-!app_assoc.
Qed.

(** What a round leaves. *)
Definition round_result ni ni' x' (vs : list Z) (xs : list ent) (z e : ent) (r : added) : Prop :=
  match r with
  | Added => exists l t ni2 d vs', xs = l ++ t /\ ntfs_index_ctx_put ni' x' = Some ni2 /\ valid ni2 d vs' (l ++ e :: t) z
  | Again => x' = ntfs_index_ctx_get /\ bm_size ni' <= bm_size ni + 8 * 34 /\ exists d vs', valid ni' d vs' xs z
  | AddFails _ => True
  end.

(** What follows the search, in the root or in a block. *)
Definition after_search (rounds : nat) ni x (e : list Z) : option (inode R A * context * added) :=
  ie_pos ← entry x;
  buf ← (if is_in_root x then match ir_value (root ni) with Ok ir => Some ir | Err _ => None end else Some (ib x));
  let ih := if is_in_root x then IR_INDEX else IB_INDEX in
  asize ← allocated_size buf ih;
  il ← index_length buf ih;
  len ← ie_length e 0;
  let alloc := s32 asize in
  let new_size := s32 (il + len) in
  if new_size <=? alloc then
    buf ← ntfs_ie_insert buf ih e ie_pos;
    Some (if is_in_root x then set_root ni (ir_store (root ni) buf) else ni,
          ntfs_index_entry_mark_dirty (if is_in_root x then x else set_ib x buf), Added)
  else
    out ← (if is_in_root x then ntfs_ir_make_space malloc rounds ni x new_size else ntfs_ib_split malloc fresh rounds ni x (ib x));
    let '(ni, x, s) := out in
    match s with
    | STATUS_ERROR e => Some (ni, x, AddFails e)
    | _ => out ← ntfs_index_ctx_reinit ni x; Some (fst out, snd out, Again)
    end.

Lemma reinit_clean ni x : ib_dirty x = false -> ntfs_index_ctx_reinit ni x = Some (ni, ntfs_index_ctx_get).
Proof using. intros H. unfold ntfs_index_ctx_reinit, ntfs_index_ctx_free. rewrite H, andb_false_r. by destruct (_ && _). Qed.

(** There is room for [n] bytes in a node, in the nodes that may take an entry. *)
Definition room (buf : list Z) (ih n : Z) : Prop := forall al il, allocated_size buf ih = Some al -> index_length buf ih = Some il -> s32 (il + n) <= s32 al.
Definition ready ni (d : nat) (n : Z) : Prop :=
  (d = 0%nat -> forall ir, ir_value (root ni) = Ok ir -> room ir IR_INDEX n) /\ forall v b, IndexLookup.fetch_of bs vb ni v = Some b -> room b IB_INDEX n.

(** The same, or the root can be made larger. *)
Definition roomy ni (d : nat) (n : Z) : Prop :=
  (d = 0%nat -> forall ir, ir_value (root ni) = Ok ir -> room ir IR_INDEX n \/
     forall il, index_length ir IR_INDEX = Some il -> snd (ir_attr_truncate (root ni) (il + n + IR_INDEX)) = STATUS_OK) /\
  forall v b, IndexLookup.fetch_of bs vb ni v = Some b -> room b IB_INDEX n.

(** A round that made room. *)
Definition made_room ni' vs xs z (n : Z) (r : added) : Prop := r = Again /\ ready ni' 0 n /\ valid ni' 0 vs xs z.

Lemma after_search_added rounds ni x e buf n ni' x' r : (if is_in_root x then ir_value (root ni) = Ok buf else ib x = buf) -> ie_length e 0 = Some n ->
  room buf (if is_in_root x then IR_INDEX else IB_INDEX) n -> after_search rounds ni x e = Some (ni', x', r) -> r = Added.
Proof using.
  intros Hb Hn Hr. unfold after_search. destruct (entry x); cbn [mbind option_bind]; [|done].
  assert ((if is_in_root x then match ir_value (root ni) with Ok ir => Some ir | Err _ => None end else Some (ib x)) = Some buf) as ->
    by (destruct (is_in_root x); by rewrite Hb).
  cbn [mbind option_bind]. destruct (allocated_size buf _) as [al|] eqn:Ea; cbn [mbind option_bind]; [|done].
  destruct (index_length buf _) as [il|] eqn:Ei; cbn [mbind option_bind]; [|done]. rewrite Hn. cbn [mbind option_bind].
  rewrite (proj2 (Z.leb_le _ _)) by (by apply Hr). destruct (ntfs_ie_insert _ _ _ _); cbn [mbind option_bind]; [|done]. by intros [= _ _ <-].
Qed.

(** In the root. *)
Lemma add_root extra ni x d ir sl vs xs z e (s1 s2 : list slot) eo ys : valid ni d vs xs z -> new_entry (collate := collate) bs e ->
  indexed bs vb q rule ni d ir sl vs (xs ++ [z]) -> sized x bs vb -> ib_dirty x = false -> is_in_root x = true -> bm_size ni + 8 * 34 < 2 ^ 30 ->
  d = 0%nat -> sl = s1 ++ s2 -> fst <$> s2 = ys ++ [z] -> xs = (fst <$> s1) ++ ys ->
  Forall (below (collate := collate) (e_key e)) (fst <$> s1) -> Forall (above (collate := collate) (e_key e)) ys ->
  entries_offset ir IR_INDEX = Some eo -> entry x = Some (IR_INDEX + eo + zlen (enc_slots s1)) ->
  exists ni' x' r, after_search (S (S extra)) ni x (enc (e, None)) = Some (ni', x', r) /\ round_result ni ni' x' vs xs z e r /\
    (roomy ni d (enc_len (e, None)) -> r = Added \/ made_room ni' vs xs z (enc_len (e, None)) r).
Proof using All.
  intros Hva Hne Hix Hx Hdirty Hin Hbig -> Esl Ey Exs Hb Ha Heo Hent. pose proof Hix as [[Hv Hr] Hs Hnd Hm]. pose proof Hva as [_ Ho Hgs Hss].
  pose proof Hr as (eo' & pre & post & Hp). pose proof Hp as [Hn Hu Hrule Hbs Hfl (al & Hal & Hal1)].
  rewrite (na_entries _ _ _ _ _ _ Hn) in Heo. injection Heo as ->. pose proof (ir_extent Hp) as (Hz0 & He & _ & Hwf & Hz1 & Hz2).
  pose proof (ir_max_law _ _ Hv) as Hmx. pose proof (ge_range _ _ _ G) as Hbr. pose proof Hne as [Hw [Hg Hk] Hsm].
  assert (wf_slot false (e, None)) as Hws by (by split). pose proof (enc_len_range false _ Hws) as [Hlr Hl].
  assert (0 <= al < 2 ^ 32) as Halr by (apply (ld_range 4) in Hal; done). change IR_INDEX with 16 in Hal1.
  unfold after_search. rewrite Hin, Hent, Hv. cbn [mbind option_bind]. rewrite Hal, (na_length _ _ _ _ _ _ Hn). cbn [mbind option_bind].
  rewrite (enc_length false (e, None)), Hl by done. cbn [mbind option_bind]. rewrite !s32_small by lia.
  assert (s2 <> []) as Hs2 by (destruct s2; [by destruct ys | done]).
  destruct (Z.leb_spec (eo + zlen (enc_slots sl) + enc_len (e, None)) al) as [Hroom|Hfull].
  - destruct (root_insert Hp s1 (e, None) s2 al _ Esl Hs2 Hws eq_refl Hal (na_length _ _ _ _ _ _ Hn) Hroom) as (ir' & -> & Hr' & Lr'). cbn [mbind option_bind].
    eexists _, _, _. split; [reflexivity|]. split; [|by left]. exists (fst <$> s1), ys, (set_root ni (ir_store (root ni) ir')), 0%nat, vs. split; [done|]. split.
    { unfold ntfs_index_ctx_put, ntfs_index_ctx_free, ntfs_index_entry_mark_dirty. rewrite Hin, Hent, Hin. by destruct (_ && _). }
    pose proof Hs as Hs0. apply seq_leaf_fst in Hs0 as [Evs _]. rewrite Exs in Ho, Hgs, Hss.
    apply (valid_insert _ _ _ _ _ _ _ ir' (s1 ++ (e, None) :: s2)); try done. split; [split | | done | done].
    + eapply ir_store_law; [exact Hv | done].
    + exact Hr'.
    + rewrite Evs. replace (((fst <$> s1) ++ e :: ys) ++ [z]) with (fst <$> (s1 ++ (e, None) :: s2)).
      * apply leaf_seq. rewrite Esl in Hu. apply uniform_app in Hu as [U1 U2]. apply uniform_app. split; [done|]. by apply uniform_cons.
      * rewrite fmap_app, fmap_cons, Ey, <-app_assoc. done.
  - unfold ntfs_ir_make_space.
    destruct (ir_truncate_ok bs rule false ni ir sl eo pre post _ Hv Hp (ltac:(lia) : eo + zlen (enc_slots sl) <= eo + zlen (enc_slots sl) + enc_len (e, None) < 2 ^ 31 - 16)) as
      (ni1 & s & -> & Hi1 & Hb1 & Hst & Hres). cbn [mbind option_bind].
    assert (s <> STATUS_OK -> ~ roomy ni 0 (enc_len (e, None))) as Hno.
    { intros Hs' [Hg0 _]. destruct (Hg0 eq_refl ir Hv) as [Hrm|Htr].
      - specialize (Hrm al _ Hal (na_length _ _ _ _ _ _ Hn)). rewrite !s32_small in Hrm by lia. lia.
      - rewrite (Htr _ (na_length _ _ _ _ _ _ Hn)) in Hst. by symmetry in Hst. }
    destruct s; try done; cbn [mbind option_bind].
    + destruct Hres as (ir1 & pre1 & post1 & Hal1' & Hv1 & Hp1 & _ & Hil1). rewrite reinit_clean by done. cbn [mbind option_bind fst snd].
      assert (valid ni1 0 vs xs z) as Hva1.
      { split; try done. exists ir1, sl. split; [split; [done | by eexists _, _, _] | | done | by rewrite Hb1].
        unfold IndexLookup.fetch_of in *. by rewrite Hi1. }
      eexists _, _, _. split; [reflexivity|]. split; [split_and!; [done | unfold bm_size; rewrite Hb1; lia | by exists 0%nat, vs]|].
      intros [_ Hblk]. right. split; [done|]. split; [|done]. split.
      * intros _ ir2. rewrite Hv1. intros [= <-] al2 il2. rewrite Hal1', Hil1. by intros [= <-] [= <-].
      * unfold IndexLookup.fetch_of in *. by rewrite Hi1.
    + eexists _, _, _. split_and!; [reflexivity | done | intros H; by destruct (Hno (ltac:(done)) H)].
    + assert (indexed bs vb q rule ni1 0 ir sl vs (xs ++ [z])) as Hix1.
      { split; [done | | done | by rewrite Hb1]. unfold IndexLookup.fetch_of in *. by rewrite Hi1. }
      assert (bm_size ni1 = bm_size ni) as Hbs1 by (unfold bm_size; by rewrite Hb1).
      destruct (ir_reparent_ok bs vb q G malloc fresh rule Hfresh Hmax extra ni1 x 0 ir sl vs (xs ++ [z]) Hix1 Hx) as (ni' & x' & s & E & Hx' & Hres'); [done| |].
      { intros nb Hnb. unfold bm_size in Hbs1. rewrite Hnb in Hbs1. fold (bm_size ni) in Hbs1. lia. }
      assert (forall P, roomy ni 0 (enc_len (e, None)) -> P) as Hno' by (intros P H; by destruct (Hno (ltac:(done)) H)).
      rewrite E. cbn [mbind option_bind]. destruct Hres' as [(e' & ->)|(-> & nb0 & _ & Hg0 & Hreb)]; cbn [status_is_ok]; [eexists _, _, _; split_and!; [reflexivity | done | apply Hno']|].
      apply reparent_dirty in E. rewrite reinit_clean by congruence. cbn [mbind option_bind fst snd].
      eexists _, _, _. split; [reflexivity|]. split; [|apply Hno']. split; [done|]. destruct Hreb as (d' & ir' & sl' & vs' & Hix' & (nb & Hnb & Hz) & _).
      split; [unfold bm_size at 1; rewrite Hnb; lia|]. exists d', vs'. split; try done. by exists ir', sl'.
Qed.

(** In a leaf. *)
Lemma add_block extra ni x d ir sl vs xs z e p c b (s1 s2 : list slot) vl vr xl ys y zs : valid ni d vs xs z -> new_entry (collate := collate) bs e ->
  indexed bs vb q rule ni d ir sl vs (xs ++ [z]) -> sized x bs vb -> ib_dirty x = false -> bm_size ni + 8 * 34 < 2 ^ 30 ->
  stops bs q (fetch_of bs vb ni) sl x 0 p c b s1 s2 vl vr xl (zs ++ [z]) -> fst <$> s2 = ys ++ [y] -> vs = vl ++ c :: vr ->
  xs = (xl ++ (fst <$> s1)) ++ ys ++ zs -> Forall (below (collate := collate) (e_key e)) (xl ++ (fst <$> s1)) ->
  Forall (above (collate := collate) (e_key e)) (ys ++ zs) ->
  exists ni' x' r, after_search (S (S extra)) ni x (enc (e, None)) = Some (ni', x', r) /\ round_result ni ni' x' vs xs z e r.
Proof using All.
  intros Hva Hne Hix Hx Hdirty Hbig [Hpath Hblk Hfo (Hin & Hib & Hop) (eo & Heo & Hent)] Ey Evs Exs Hb Ha.
  pose proof Hix as [Hroot Hs Hnd Hm]. pose proof Hva as [_ Ho Hgs Hss].
  pose proof Hblk as ((ic & Ec & Hic) & Hf & (eo' & pre & post & Hp)). pose proof Hp as [Hn Hh Hl Hu]. pose proof (na_entries _ _ _ _ _ _ Hn) as Heo2.
  change 24 with IB_INDEX in Heo2. rewrite Heo2 in Heo. injection Heo as ->.
  pose proof (ge_range _ _ _ G) as Hbr. pose proof Hne as [Hw [Hg Hk] Hsm].
  assert (wf_slot false (e, None)) as Hws by (by split). pose proof (enc_len_range false _ Hws) as [Hlr Hlz].
  assert (exists na, ia ni = Some na) as [na Hna] by (unfold IndexLookup.fetch_of in Hf; destruct (ia ni); [eauto | done]).
  pose proof (na_eq _ _ _ _ _ _ Hn) as Eb. pose proof (na_pre _ _ _ _ _ _ Hn) as Hpre. pose proof (na_eo _ _ _ _ _ _ Hn) as Heo16.
  assert (zlen b = 24 + eo + zlen (enc_slots (s1 ++ s2)) + zlen post) as Lb by (rewrite Eb at 1; rewrite !zlen_app; lia).
  pose proof (zlen_nonneg post). pose proof (zlen_nonneg (enc_slots (s1 ++ s2))).
  assert (index_length b IB_INDEX = Some (eo + zlen (enc_slots (s1 ++ s2)))) as Hil by apply (na_length _ _ _ _ _ _ Hn).
  unfold after_search. rewrite Hin, Hent, Hib. cbn [mbind option_bind]. rewrite Hil.
  replace (allocated_size b IB_INDEX) with (Some (bs - 24)) by (symmetry; exact (ib_alloc_ok Hp)). cbn [mbind option_bind].
  rewrite (enc_length false (e, None)), Hlz by done. cbn [mbind option_bind]. rewrite !s32_small by lia.
  assert (s2 <> []) as Hs2 by (destruct s2; [by destruct ys | done]).
  destruct (Z.leb_spec (eo + zlen (enc_slots (s1 ++ s2)) + enc_len (e, None)) (bs - 24)) as [Hroom|Hfull].
  - destruct (leaf_insert c b s1 s2 eo pre post e _ Hp Hs2 Hne Hil Hroom) as (b' & -> & Hib'). cbn [mbind option_bind].
    eexists _, _, _. split; [reflexivity|]. unfold round_result.
    set (x' := ntfs_index_entry_mark_dirty (set_ib x b')). rewrite Ec in Hib', Hf. unfold IndexLookup.fetch_of in Hf. rewrite Hna in Hf.
    assert (sized x' bs vb) as Hx' by done. assert (ia_na x' = true) as Hop' by done.
    destruct (write_block bs vb q G malloc ni x' na ic false b' _ Hx' Hop' Hna Hic Hib') as (ni2 & s & E2 & Heff).
    destruct (ntfs_ib_write ni x' b') as [[[ni2' b3] s']|] eqn:Ew; cbn [mbind option_bind] in E2; [|done]. injection E2 as -> ->.
    pose proof (ib_write_inside bs vb q G ni x' na ic false b' _ b ni2 b3 s Hx' Hop' Hna Hic Hib' Hf Ew) as ->.
    destruct (effect_written bs vb q ni na ni2 ic _ _ Hna Hic Heff) as (Hr2 & Hb2 & _ & Hwr).
    exists (xl ++ (fst <$> s1)), (ys ++ zs), ni2, (height 0 p), vs. split; [done|]. split.
    { assert (ntfs_index_ctx_put ni x' = (out ← ntfs_ib_write ni x' b'; Some (fst (fst out)))) as ->; [|by rewrite Ew].
      assert (entry x' = Some (IB_INDEX + eo + zlen (enc_slots s1))) as He' by (exact Hent).
      unfold ntfs_index_ctx_put, ntfs_index_ctx_free. rewrite He', andb_false_r. done. }
    rewrite Exs in Hix, Ho, Hgs, Hss. rewrite <-(app_assoc (xl ++ _)) in Hix. 
    apply (valid_insert _ _ _ _ _ _ _ ir sl); try done.
    eapply (leaf_written ni ni2); try done.
    apply uniform_app in Hu as [U1 U2]. apply uniform_app. split; [done|]. by apply uniform_cons.
  - pose proof (small_len bs (e, None) Hsm) as Hsl. destruct (full_block bs c false b (s1 ++ s2) eo pre post (enc_len (e, None)) Hp Hsl) as (es & zc & Ees & Hes); [lia|].
    assert (fst <$> es = (fst <$> s1) ++ ys /\ zc.1 = y) as [Efst Ezc].
    { assert ((fst <$> es) ++ [zc.1] = ((fst <$> s1) ++ ys) ++ [y]) as E; [|by apply app_inj_tail in E].
      replace ((fst <$> es) ++ [zc.1]) with (fst <$> (es ++ [zc])) by (by rewrite fmap_app). by rewrite <-Ees, fmap_app, Ey, app_assoc. }
    assert (splitting bs vb q rule ni x ir sl 0 p c b es zc vl vr [] xl ((fst <$> s1) ++ ys) (zs ++ [z])) as Hsp.
    { destruct Hroot as [Hv Hr]. split; try done.
      - split; [done|]. destruct Hr as (eo2 & pre2 & post2 & Hr). rewrite <-(path_inner _ _ _ _ _ _ _ _ _ _ Hpath (ir_uniform _ _ _ _ _ _ _ _ Hr)). by exists eo2, pre2, post2.
      - by rewrite <-Ees.
      - rewrite <-Efst. replace ((fst <$> es) ++ [zc.1]) with (fst <$> (es ++ [zc])) by (by rewrite fmap_app). apply leaf_seq. by rewrite <-Ees.
      - by rewrite Evs in Hnd.
      - rewrite Exs in Hss. rewrite <-!app_assoc in Hss. rewrite <-!app_assoc. exact Hss.
      - intros nb Hnb. rewrite Evs in Hm. split; [by apply Hm|]. unfold bm_size in Hbig. rewrite Hnb in Hbig. destruct (fo_index _ _ _ Hfo). lia. }
    destruct (ntfs_ib_split_ok bs vb q G malloc fresh rule Hfresh Hmax extra ni x ir sl 0 p c b es zc vl vr [] xl _ (zs ++ [z]) Hsp) as (ni' & x' & s & E & Hx' & Hres).
    rewrite E. cbn [mbind option_bind]. destruct Hres as [(e' & ->)|(Hst & nb & Hnb & (d' & ir' & sl' & vs' & Hix' & (nb' & Hnb' & Hz) & _))]; [by eexists _, _, _|].
    apply ntfs_ib_split_dirty in E. rewrite Hdirty in E. exists ni', ntfs_index_ctx_get, Again. split.
    { destruct Hst as [->| ->]; by rewrite (reinit_clean ni' x' E). }
    split; [done|]. split.
    { unfold bm_size. rewrite Hnb, Hnb'. destruct (fo_index _ _ _ Hfo). lia. }
    exists d', vs'. split; try done. exists ir', sl'.
    replace (xs ++ [z]) with (xl ++ ((fst <$> s1) ++ ys) ++ zs ++ [z]); [done|]. rewrite Exs, <-!app_assoc. done.
Qed.

Lemma stops_ext f f' sl x d p c b (s1 s2 : list slot) vl vr xl xr : (forall v, f' v = f v) ->
  stops bs q f sl x d p c b s1 s2 vl vr xl xr -> stops bs q f' sl x d p c b s1 s2 vl vr xl xr.
Proof using.
  intros Hf [Hp (Hi & Hb & Hib) Hfo Hx He]. split; try done; [by eapply path_ext|]. split_and!; [done | by rewrite Hf | done].
Qed.

(** A round of ntfs_ie_add: the entry is added in its place, or the index has
    the same entries and the search starts again, or it fails.  It fails with
    EEXIST when the key is there, and does not fail when there is room. *)
Definition round_spec ni ni' x' (d : nat) (vs : list Z) (xs : list ent) (z e : ent) (r : added) : Prop :=
  round_result ni ni' x' vs xs z e r /\
  ((d <= 31)%nat -> (exists e1, In e1 xs /\ cmp (e_key e) (e_key e1) = 0) -> r = AddFails EEXIST) /\
  ((d <= 31)%nat -> (forall e1, In e1 xs -> cmp (e_key e) (e_key e1) <> 0) ->
    (ready ni d (enc_len (e, None)) -> r = Added) /\
    (roomy ni d (enc_len (e, None)) -> r = Added \/ made_room ni' vs xs z (enc_len (e, None)) r)).

(** The entry has its place between two others. *)
Lemma round_place ni ni' x' d vs xs z e r (l u : list ent) : xs = l ++ u -> Forall (below (collate := collate) (e_key e)) l ->
  Forall (above (collate := collate) (e_key e)) u -> round_result ni ni' x' vs xs z e r ->
  (ready ni d (enc_len (e, None)) -> r = Added) ->
  (roomy ni d (enc_len (e, None)) -> r = Added \/ made_room ni' vs xs z (enc_len (e, None)) r) -> round_spec ni ni' x' d vs xs z e r.
Proof using.
  intros -> Hb Ha Hr H1 H2. split; [done|]. split; [|done]. intros _ (e1 & Hin & E1). by apply (not_between _ _ _ _ Hb Ha) in Hin.
Qed.

Lemma round_exists ni ni' x' d vs xs z e e1 : In e1 xs -> cmp (e_key e) (e_key e1) = 0 -> round_spec ni ni' x' d vs xs z e (AddFails EEXIST).
Proof using. intros Hin E1. split; [done|]. split; [done|]. intros _ Ha. by destruct (Ha e1 Hin). Qed.

Lemma round_spec_same ni ni1 ni' x' d vs xs z e r : root ni1 = root ni -> bm ni1 = bm ni -> (forall v, fetch_of bs vb ni1 v = fetch_of bs vb ni v) ->
  round_spec ni1 ni' x' d vs xs z e r -> round_spec ni ni' x' d vs xs z e r.
Proof using.
  intros Hroot Hbm Hf (H1 & H2 & H3). assert (bm_size ni1 = bm_size ni) as Hbs by (unfold bm_size; by rewrite Hbm).
  split; [unfold round_result in *; by rewrite <-Hbs|]. split; [done|]. intros Hd Ha. destruct (H3 Hd Ha) as [H4 H5].
  unfold ready, roomy in *. split; intros [K1 K2]; [apply H4 | apply H5]; rewrite Hroot; (split; [done|]); intros v b; rewrite Hf; apply K2.
Qed.

Lemma ie_add_round_ok extra ni x d vs xs z e : valid ni d vs xs z -> new_entry (collate := collate) bs e -> unused x -> bm_size ni + 8 * 34 < 2 ^ 30 ->
  exists ni' x' r, ie_add_round malloc memcmp upcase upcase_len cluster_size cluster_size_bits fresh (S (S extra)) ni x (enc (e, None)) = Some (ni', x', r) /\
    round_spec ni ni' x' d vs xs z e r.
Proof using All.
  intros Hva Hne Hx Hbig. pose proof Hva as [(ir & sl & Hix) Ho Hgs Hss]. pose proof Hix as [[Hv Hr] Hs Hnd Hm].
  destruct (new_entry_key bs e Hne) as (Hkl & Hkz & t & Hkt). pose proof Hne as [Hw [Hg Hk] Hsm].
  assert (wf_slot false (e, None)) as Hws by (by split).
  assert (ie_length (enc (e, None)) 0 = Some (enc_len (e, None))) as Hlen.
  { rewrite (enc_length false (e, None)) by done. f_equal. by apply (enc_len_range false). }
  unfold ie_add_round. rewrite Hkl. cbn [mbind option_bind]. rewrite Hkt, <-Hkz.
  destruct (index_lookup_ok bs vb q G malloc (proj1 Hg) (kt := t) Ho Hgs memcmp upcase upcase_len cluster_size cluster_size_bits ni x ir rule d Hv Hr eq_refl Hs Hcol Hvb Hx) as
    (ni1 & x1 & r & E & Hroot & Hbm & Hf & Hx1 & Hres); [lia | done |].
  rewrite E. cbn [mbind option_bind]. apply lookup_dirty in E. assert (ib_dirty x1 = false) as Hd1 by (rewrite E; apply Hx).
  assert (indexed bs vb q rule ni1 d ir sl vs (xs ++ [z])) as Hix1.
  { split; [by rewrite Hroot | | done | by rewrite Hbm]. eapply kids_ext; [|exact Hs]. done. }
  assert (valid ni1 d vs xs z) as Hva1 by (split; try done; by exists ir, sl).
  assert (bm_size ni1 = bm_size ni) as Hbs1 by (unfold bm_size; by rewrite Hbm).
  assert (forall l u, xs = l ++ u -> Forall (below (collate := collate) (e_key e)) l -> Forall (above (collate := collate) (e_key e)) u ->
    (exists ni' x' r0, after_search (S (S extra)) ni1 x1 (enc (e, None)) = Some (ni', x', r0) /\ round_result ni1 ni' x' vs xs z e r0 /\
      (ready ni1 d (enc_len (e, None)) -> r0 = Added) /\
      (roomy ni1 d (enc_len (e, None)) -> r0 = Added \/ made_room ni' vs xs z (enc_len (e, None)) r0)) ->
    exists ni' x' r0, after_search (S (S extra)) ni1 x1 (enc (e, None)) = Some (ni', x', r0) /\ round_spec ni ni' x' d vs xs z e r0) as Hplace.
  { intros l u Exs Hb Ha (ni' & x' & r0 & E0 & Hr0 & H1 & H2). exists ni', x', r0. split; [done|].
    apply (round_spec_same ni ni1); [done | done | done |]. by eapply round_place. }
  destruct Hres as [(Hin & -> & _ & Hout)|[Hout|(-> & Hdeep)]].
  - destruct Hout as [s1 s s2 eo Esl Hs2 E0 Hin' Hdl _ _ Heo Hent|s1 s2 eo ys Ed Esl Ey Exs Hb Ha Heo Hent];
      [eexists _, _, _; split; [reflexivity|]; by eapply round_exists|].
    eapply Hplace; [exact Exs | done | done |].
    edestruct (add_root extra ni x1 d ir sl vs xs z e) as (ni' & x' & r0 & E0 & H1 & H2); try done. exists ni', x', r0. split_and!; try done.
    intros [Hrr _]. eapply after_search_added; [|exact Hlen | | exact E0]; rewrite Hin; [exact Hv | by apply Hrr].
  - destruct Hout as [d' p c b s1 s s2 vl vr xl xr Hst Hs2 E0 Hin' Hdl _ _|p c b s1 s2 vl vr xl ys y zs Hst Ey Evs Exs Hb Ha];
      [eexists _, _, _; split; [reflexivity|]; by eapply round_exists|].
    eapply Hplace; [exact Exs | done | done |].
    edestruct (add_block extra ni1 x1 d ir sl vs xs z e) as (ni' & x' & r0 & E0 & H1); try done; [lia | by eapply (stops_ext (fetch_of bs vb ni)) |].
    exists ni', x', r0. split; [done|]. split; [done|]. destruct Hst as [_ (_ & Hfb & _) _ (Hin & Hib & _) _].
    assert ((forall v b, fetch_of bs vb ni1 v = Some b -> room b IB_INDEX (enc_len (e, None))) -> r0 = Added) as Hadd.
    { intros Hrr. eapply after_search_added; [|exact Hlen | | exact E0]; rewrite Hin; [exact Hib | eapply Hrr; by rewrite Hf]. }
    split; intros [_ Hrr]; [|left]; by apply Hadd.
  - eexists _, _, _. split; [reflexivity|]. split; [done|]. split; intros; lia.
Qed.

(** *** The loop *)

Lemma ie_add_ok extra e z fuel : forall ni x d vs xs, valid ni d vs xs z -> new_entry (collate := collate) bs e -> unused x ->
  bm_size ni + 8 * 34 * (Z.of_nat fuel + 1) < 2 ^ 30 ->
  exists ni' x' r, ntfs_ie_add malloc memcmp upcase upcase_len cluster_size cluster_size_bits fresh fuel (S (S extra)) ni x (enc (e, None)) = Some (ni', x', r) /\
    match r with
    | Added => exists l t ni2 d vs', xs = l ++ t /\ ntfs_index_ctx_put ni' x' = Some ni2 /\ valid ni2 d vs' (l ++ e :: t) z
    | Again => exists d vs', valid ni' d vs' xs z
    | AddFails _ => True
    end /\
    ((0 < fuel)%nat -> (d <= 31)%nat -> (exists e1, In e1 xs /\ cmp (e_key e) (e_key e1) = 0) -> r = AddFails EEXIST) /\
    ((d <= 31)%nat -> (forall e1, In e1 xs -> cmp (e_key e) (e_key e1) <> 0) ->
      ((0 < fuel)%nat -> ready ni d (enc_len (e, None)) -> r = Added) /\ ((1 < fuel)%nat -> roomy ni d (enc_len (e, None)) -> r = Added)).
Proof using All.
  induction fuel as [|fuel IH]; intros ni x d vs xs Hva Hne Hx Hbig; cbn [ntfs_ie_add].
  - exists ni, x, Again. split; [done|]. split; [eauto | split; lia].
  - destruct (ie_add_round_ok extra ni x d vs xs z e Hva Hne Hx) as (ni1 & x1 & r & -> & Hr & Hex & Hro); [lia|]. cbn [mbind option_bind].
    destruct r as [| |e'].
    + exists ni1, x1, Added. split_and!; [done | exact Hr | intros _; exact Hex | done].
    + destruct Hr as (-> & Hsz & d' & vs' & Hva').
      destruct (IH ni1 ntfs_index_ctx_get d' vs' xs Hva' Hne) as (ni' & x' & r & E & Hres & _); [done | lia |]. rewrite E.
      exists ni', x', r. split_and!; [done | exact Hres | intros _ Hd He; by specialize (Hex Hd He) |].
      intros Hd He. destruct (Hro Hd He) as [H1 H2]. split; [intros _ Hrm; by specialize (H1 Hrm)|].
      intros Hf Hrm. destruct (H2 Hrm) as [|(_ & Hrd & Hva0)]; [done|].
      destruct (IH ni1 ntfs_index_ctx_get 0%nat vs xs Hva0 Hne) as (ni2 & x2 & r2 & E2 & _ & _ & Hadd); [done | lia |].
      rewrite E in E2. injection E2 as _ _ <-. apply (proj1 (Hadd (ltac:(lia)) He)); [lia | done].
    + exists ni1, x1, (AddFails e'). split_and!; [done | done | intros _; exact Hex |]. intros Hd He. destruct (Hro Hd He) as [H1 H2].
      split; intros _ Hrm; [by apply H1|]. destruct (H2 Hrm) as [|[? _]]; done.
Qed.
End add.
