(* ===== verification/IndexApi.v ===== *)
(** The operations of an index (libntfs-3g/index.c) as their callers use them:
    ntfs_index_lookup is a search of a sorted sequence of entries, and
    ntfs_ie_add and ntfs_index_add_filename insert in it.  An inode in memory is
    an instance of what they rely on. *)

From S2P Require Import Prelude Mst AttrIo AttrMst Names Collate Index IndexSpec IndexNode IndexBlock IndexMake IndexBitmap IndexTree IndexLookup IndexRoot IndexSplit IndexAdd.
Local Open Scope Z_scope.
Local Open Scope c_scope.
Set Default Proof Using "Type*".
#[local] Arguments le_encode : simpl never.

(** ** An inode in memory *)

(** The record has room for a value of 200 bytes, and cannot be extended. *)
Record mem_root := MemRoot { mem_value : list Z }.
Definition mem_room : Z := 200.

#[export] Instance mem_root_ops : RootOps mem_root grow_attr := {
  ir_value r := if zlen (mem_value r) <=? mem_room then Ok (mem_value r) else Err EIO;
  ir_store r v := MemRoot v;
  ir_attr_truncate r n := if n <=? mem_room then (MemRoot (resized (mem_value r) n), STATUS_OK) else (r, STATUS_RESIDENT_ATTRIBUTE_FILLED_MFT);
  ir_value_resize r n := if n <=? mem_room then (MemRoot (resized (mem_value r) n), Ok tt) else (r, Err ENOSPC);
  ir_al_entry _ := false;
  ir_add_attrlist r := (r, false);
  ir_move_away r _ := (r, false);
  attr_add r bs := (r, Some (Grow bs)) }.

#[export] Program Instance mem_root_laws : RootLaws mem_root grow_attr := { ir_max := mem_room }.
Next Obligation. intros r v. cbn. destruct (Z.leb_spec (zlen (mem_value r)) mem_room); [by intros [= <-] | done]. Qed.
Next Obligation. intros r v v'. cbn. destruct (Z.leb_spec (zlen (mem_value r)) mem_room); [intros [= <-] -> | done]. by rewrite (proj2 (Z.leb_le _ _)). Qed.
Next Obligation.
  intros r n r' s v. cbn. intros H Hv Hn. destruct (Z.leb_spec n mem_room); injection H as <- <-; [|done].
  destruct (zlen (mem_value r) <=? mem_room); [injection Hv as <- | done]. cbn. by rewrite zlen_resized, (proj2 (Z.leb_le _ _)).
Qed.
Next Obligation.
  intros r n r' s v. cbn. intros H Hv Hn. destruct (Z.leb_spec n mem_room); injection H as <- <-; [|done].
  destruct (zlen (mem_value r) <=? mem_room); [injection Hv as <- | done]. cbn. by rewrite zlen_resized, (proj2 (Z.leb_le _ _)).
Qed.
Next Obligation. by intros r r' b [= <- _]. Qed.
Next Obligation. by intros r n r' v [=]. Qed.
Next Obligation. by intros r bs r' na [= <- <-]. Qed.

(** ** The entry of a file name *)

(** The entry made for the name [fn] of the file [mref], [n] the number of its characters. *)
Definition name_pad (n : Z) : Z := (16 + (2 * n + 66) + 7) / 8 * 8 - (16 + (2 * n + 66)).
Definition filename_ent (fn : list Z) (mref n : Z) : ent :=
  Ent (le_encode 8 mref) (2 * n + 66) 0 (le_encode 2 0 ++ take (Z.to_nat (2 * n + 66)) fn ++ replicate (Z.to_nat (name_pad n)) 0).

Lemma le_encode_0 n : le_encode n 0 = replicate n 0.
Proof. induction n as [|n IH]; [done|]. cbn [le_encode replicate]. rewrite <-IH. done. Qed.

Lemma name_pad_range n : 0 <= name_pad n < 8.
Proof. unfold name_pad. divlia. Qed.

Section filename.
Context (fn : list Z) (mref n : Z) (Hfn : wf_bytes fn) (Hn : file_name_length fn = Some n) (Hlen : 66 + 2 * n <= zlen fn).

Lemma filename_byte : 0 <= n < 256.
Proof using Hfn Hn. pose proof (zget_Forall _ _ _ _ Hfn Hn) as Hb. exact Hb. Qed.

Lemma filename_key : zlen (take (Z.to_nat (2 * n + 66)) fn) = 2 * n + 66.
Proof using All. pose proof filename_byte. unfold zlen in *. rewrite length_take. lia. Qed.

Lemma filename_enc_len : enc_len (filename_ent fn mref n, None) = 16 + (2 * n + 66) + name_pad n.
Proof using All.
  pose proof (name_pad_range n). unfold enc_len, filename_ent. cbn [fst snd e_rest vcn_bytes].
  rewrite !zlen_app, zlen_le_encode, filename_key, zlen_replicate. change (zlen []) with 0. lia.
Qed.

Lemma filename_entry_ok : filename_entry fn mref = Some (enc (filename_ent fn mref n, None)).
Proof using All.
  pose proof filename_byte as Hb. pose proof (name_pad_range n) as Hp. pose proof filename_enc_len as Hl. pose proof filename_key as Hk.
  unfold filename_entry, sizeof_INDEX_ENTRY_HEADER. rewrite Hn. cbn [mbind option_bind]. cbv zeta. replace (n * 2 + 66) with (2 * n + 66) by lia. rewrite align8.
  replace ((16 + (2 * n + 66) + 7) / 8 * 8) with (16 + (2 * n + 66) + name_pad n) by (unfold name_pad; lia).
  replace (Z.to_nat (16 + (2 * n + 66) + name_pad n)) with (8 + (2 + (2 + (2 + (2 + (Z.to_nat (2 * n + 66) + Z.to_nat (name_pad n)))))))%nat by lia.
  rewrite 6!replicate_add, <-!le_encode_0. unfold put_le64, set_ie_length, put_le16.
  rewrite (st_mid 8 [] 0 _ 0 mref eq_refl : st 8 (le_encode 8 0 ++ _) 0 mref = _). cbn [mbind option_bind app].
  rewrite (st_mid 2 (le_encode 8 mref)) by (rewrite !zlen_le_encode; lia). cbn [mbind option_bind].
  rewrite app_assoc, (st_mid 2 (_ ++ _)) by (rewrite !zlen_app, !zlen_le_encode; lia). cbn [mbind option_bind].
  rewrite (zread_inside fn) by lia. change (Z.to_nat 0) with O. rewrite drop_0. cbn [mbind option_bind]. rewrite (app_assoc (_ ++ _)), (app_assoc ((_ ++ _) ++ _)), (app_assoc (((_ ++ _) ++ _) ++ _)).
  rewrite zwrite_mid by (rewrite ?zlen_app, ?Hk, ?zlen_le_encode; lia). f_equal.
  unfold enc. rewrite Hl. unfold filename_ent. cbn [fst snd e_head e_klen e_flags e_rest node_flag vcn_bytes]. unfold u16. rewrite !wrap_u_small by lia.
  rewrite app_nil_r, <-!app_assoc, (le_encode_0 (Z.to_nat (name_pad n))). done.
Qed.

Lemma filename_new bs upcase upcase_len `{!Upcase upcase upcase_len} : 4 * n + 306 <= bs -> name_key fn ->
  new_entry (collate := ntfs_collate_file_name upcase upcase_len) bs (filename_ent fn mref n) /\ e_key (filename_ent fn mref n) = take (Z.to_nat (2 * n + 66)) fn.
Proof using All.
  intros Hbs Hkey. pose proof filename_byte as Hb. pose proof (name_pad_range n) as Hp. pose proof filename_key as Hk.
  assert (e_key (filename_ent fn mref n) = take (Z.to_nat (2 * n + 66)) fn) as Ek.
  { unfold e_key, filename_ent. cbn [e_klen e_rest]. rewrite drop_app_length' by (by rewrite <-(Nat2Z.id (length _)); fold (zlen (le_encode 2 0)); rewrite zlen_le_encode).
    rewrite take_app_length'; [done|]. unfold zlen in Hk. lia. }
  assert (zlen (e_rest (filename_ent fn mref n)) = 2 + (2 * n + 66) + name_pad n) as Er.
  { unfold filename_ent. cbn [e_rest]. rewrite !zlen_app, zlen_le_encode, Hk, zlen_replicate. lia. }
  split; [|done]. split.
  - split; rewrite ?Er; cbn [filename_ent e_head e_klen e_flags e_rest].
    + split; [apply wf_le_encode | apply zlen_le_encode].
    + split; [|lia]. unfold wf_bytes. rewrite !Forall_app. split_and!; [apply wf_le_encode | by apply Forall_take | by apply Forall_replicate].
    + lia.
    + split_and!; [lia | lia | done | done].
    + done.
  - split; [|cbn; lia]. split; rewrite ?Ek, ?Er; [|cbn; lia]. cbn. split; [by apply Forall_take|]. exists n.
    split; [|rewrite Hk; lia]. unfold file_name_length in *. rewrite <-(take_drop (Z.to_nat (2 * n + 66)) fn) in Hn. rewrite zget_app_l in Hn by lia. exact Hn.
  - unfold small. lia.
Qed.

Lemma key_name_take : key_name (take (Z.to_nat (2 * n + 66)) fn) = key_name fn.
Proof using All.
  pose proof filename_byte. pose proof filename_key as Hk. unfold key_name. assert (file_name_length (take (Z.to_nat (2 * n + 66)) fn) = Some n) as ->.
  { unfold file_name_length in *. rewrite <-(take_drop (Z.to_nat (2 * n + 66)) fn) in Hn. rewrite zget_app_l in Hn by (rewrite Hk; lia). exact Hn. }
  rewrite Hn. cbn [default]. unfold id. f_equal. replace (Z.to_nat (2 * n + 66)) with (66 + 2 * Z.to_nat n)%nat by lia.
  rewrite skipn_firstn_comm, List.firstn_firstn. f_equal. lia.
Qed.
End filename.

(** ** The operations *)

Section api.
Context {R A : Type} `{!AttrOps A, !AttrResize A, !RootOps R A, !AttrLaws A, !AttrReliable A, !AttrGrowLaws A, !RootLaws R A}.
Context (bs vb q : Z) (malloc : Z -> bool) (fresh : list Z) (rule : Z).
Context (memcmp : list Z -> list Z -> Z) (upcase : list Z) (upcase_len cluster_size cluster_size_bits : Z).
Implicit Types (ni : inode R A) (x : context).

(** An index of blocks of [bs] bytes on a volume, with memory for a block. *)
Record environment : Prop := {
  en_geometry : geometry bs vb q;
  en_bits : vb = if cluster_size <=? bs then cluster_size_bits else 9;
  en_fresh : wf_bytes fresh /\ zlen fresh = 8;
  en_max : ir_max (R := R) + 292 <= bs;
  en_malloc : malloc bs = true }.

(** The bytes at the entry of the context. *)
Definition found_bytes ni x (n : Z) : option (list Z) :=
  ie ← entry x;
  match ir_value (root ni) with Ok ir => zread (if is_in_root x then ir else ib x) ie n | Err _ => None end.

Section collate.
Context {collate : COLLATE} `{!KeyOrder collate}.
Hypothesis Hcol : ntfs_get_collate_function memcmp upcase upcase_len rule = Some collate.
Abbreviation valid := (valid bs vb q rule (collate := collate)).

Lemma slot_bytes m h eo pre (s1 : list slot) (s : slot) (s2 : list slot) post : node_at m h eo pre (s1 ++ s :: s2) post ->
  zread m (h + eo + zlen (enc_slots s1)) (zlen (enc s)) = Some (enc s).
Proof using. intros Hn. rewrite <-(na_pre _ _ _ _ _ _ Hn), (node_slot Hn s1 s s2 eq_refl). apply zread_mid; [by rewrite zlen_app | done]. Qed.

(** C28: on an index of at most 31 levels ntfs_index_lookup reads only, and finds an entry with the key exactly when the index
    has one: the context then points to its bytes; if not, the entries are those before the key, then those after it. *)
Theorem ntfs_index_lookup_finds ni x key kt d vs xs z : environment -> valid ni d vs xs z -> valid_key collate key -> 0 < zlen key ->
  unused x -> (d <= 31)%nat ->
  exists ni' x' r, ntfs_index_lookup malloc memcmp upcase upcase_len cluster_size cluster_size_bits ni x (key ++ kt) (zlen key) = Some (ni', x', r) /\
    root ni' = root ni /\ bm ni' = bm ni /\ (forall v, fetch_of bs vb ni' v = fetch_of bs vb ni v) /\
    match r with
    | Ok _ => exists e c, In e xs /\ key_cmp collate key (e_key e) = 0 /\ data_len x' = e_klen e /\ found_bytes ni' x' (zlen (enc (e, c))) = Some (enc (e, c))
    | Err err => err = ENOENT /\ exists l t, xs = l ++ t /\ Forall (fun e => key_cmp collate key (e_key e) = 1) l /\
        Forall (fun e => key_cmp collate key (e_key e) = -1) t
    end.
Proof using KeyOrder0 Hcol AttrReliable0 AttrGrowLaws0 AttrLaws0 AttrResize0 RootLaws0.
  intros [G Hvb _ _ Hm] [(ir & sl & [[Hv Hr] Hs _ _]) Ho Hg _] Hk Hk0 Hx Hd.
  destruct (index_lookup_ok bs vb q G malloc Hk (kt := kt) Ho Hg memcmp upcase upcase_len cluster_size cluster_size_bits ni x ir rule d Hv Hr eq_refl Hs Hcol Hvb Hx Hk0 Hm) as
    (ni' & x' & r & E & Hroot & Hbm & Hf & _ & Hres).
  exists ni', x', r. split_and!; try done. unfold found_bytes. rewrite Hroot, Hv.
  destruct Hres as [(Hin & _ & _ & Hout)|[Hout|(_ & Hdeep)]]; [| |lia].
  - destruct Hout as [s1 s s2 eo -> Hs2 E0 Hin' Hdl _ _ Heo Hent|s1 s2 eo ys Ed Esl Ey Exs Hb Ha _ _]; [|split; [done|]; by exists (fst <$> s1), ys].
    destruct s as [e c]. exists e, c. split_and!; try done. rewrite Hent, Hin. cbn [mbind option_bind].
    destruct Hr as (eo' & pre & post & [Hn _ _ _ _ _]). rewrite (na_entries _ _ _ _ _ _ Hn) in Heo. injection Heo as ->. by eapply slot_bytes.
  - destruct Hout as [d' p c b s1 s s2 vl vr xl xr Hst Hs2 E0 Hin' Hdl _ _|p c b s1 s2 vl vr xl ys y zs Hst Ey Evs Exs Hb Ha];
      [|split; [done|]; by exists (xl ++ (fst <$> s1)), (ys ++ zs)].
    destruct Hst as [_ (_ & _ & (eo' & pre & post & [Hn _ _ _])) _ (Hin & -> & _) (eo & Heo & Hent)].
    destruct s as [e ch]. exists e, ch. split_and!; try done. rewrite Hent, Hin. cbn [mbind option_bind].
    pose proof (na_entries _ _ _ _ _ _ Hn) as Heo2. change 24 with IB_INDEX in *. rewrite Heo2 in Heo. injection Heo as ->. by eapply slot_bytes.
Qed.

(** C29: ntfs_ie_add, however many rounds it is given, inserts the entry in its place in the order, or leaves the same entries, or
    fails.  The key of an entry that is there is refused with EEXIST, and a key that is not there is added when the nodes have room.  What the context still holds is written by
    ntfs_index_ctx_put. *)
Theorem ntfs_ie_add_inserts fuel extra ni x d vs xs z e : environment -> valid ni d vs xs z -> new_entry (collate := collate) bs e -> unused x ->
  bm_size ni + 272 * (Z.of_nat fuel + 1) < 2 ^ 30 ->
  exists ni' x' r, ntfs_ie_add malloc memcmp upcase upcase_len cluster_size cluster_size_bits fresh fuel (S (S extra)) ni x (enc (e, None)) = Some (ni', x', r) /\
    match r with
    | Added => exists l t ni2 d vs', xs = l ++ t /\ ntfs_index_ctx_put ni' x' = Some ni2 /\ valid ni2 d vs' (l ++ e :: t) z
    | Again => exists d vs', valid ni' d vs' xs z
    | AddFails _ => True
    end /\
    ((1 < fuel)%nat -> (d <= 31)%nat ->
      ((exists e1, In e1 xs /\ key_cmp collate (e_key e) (e_key e1) = 0) -> r = AddFails EEXIST) /\
      ((forall e1, In e1 xs -> key_cmp collate (e_key e) (e_key e1) <> 0) -> roomy bs vb ni d (enc_len (e, None)) -> r = Added)).
Proof using KeyOrder0 Hcol AttrReliable0 AttrGrowLaws0 AttrLaws0 AttrResize0 RootLaws0.
  intros [G Hvb Hfresh Hmax Hm] Hva Hne Hx Hbig.
  destruct (ie_add_ok bs vb q G malloc fresh rule Hfresh Hmax memcmp upcase upcase_len cluster_size cluster_size_bits Hcol Hvb Hm extra e z fuel ni x d vs xs Hva Hne Hx) as
    (ni' & x' & r & E & Hr & H1 & H2); [lia|]. exists ni', x', r. split; [done|]. split; [exact Hr|]. intros Hf Hd.
  split; [apply H1; [lia | done] | intros Ha; exact (proj2 (H2 Hd Ha) Hf)].
Qed.
End collate.

(** C30: ntfs_index_add_filename puts the entry of a name in its place among the names of the directory; the name of an entry that is
    there is refused with EEXIST, a new name is added when the nodes have room, and when the loop ends early the entries are the same. *)
Theorem ntfs_index_add_filename_inserts `{!Upcase upcase upcase_len} fuel extra ni fn mref n d vs xs z :
  environment -> rule = COLLATION_FILE_NAME ->
  valid bs vb q rule (collate := ntfs_collate_file_name upcase upcase_len) ni d vs xs z ->
  name_key fn -> file_name_length fn = Some n -> 4 * n + 306 <= bs ->
  malloc (16 + (2 * n + 66) + name_pad n) = true -> malloc 256 = true -> bm_size ni + 272 * (Z.of_nat fuel + 1) < 2 ^ 30 ->
  exists ni' r, ntfs_index_add_filename malloc memcmp upcase upcase_len cluster_size cluster_size_bits fresh fuel (S (S extra)) ni fn mref = Some (ni', r) /\
    match r with
    | Added => exists l t d' vs', xs = l ++ t /\
        valid bs vb q rule (collate := ntfs_collate_file_name upcase upcase_len) ni' d' vs' (l ++ filename_ent fn mref n :: t) z
    | Again => exists d' vs', valid bs vb q rule (collate := ntfs_collate_file_name upcase upcase_len) ni' d' vs' xs z
    | AddFails _ => True
    end /\
    ((1 < fuel)%nat -> (d <= 31)%nat ->
      ((exists e, In e xs /\ key_name (e_key e) = key_name fn) -> r = AddFails EEXIST) /\
      ((forall e, In e xs -> key_name (e_key e) <> key_name fn) -> roomy bs vb ni d (16 + (2 * n + 66) + name_pad n) -> r = Added)).
Proof using AttrReliable0 AttrGrowLaws0 AttrLaws0 AttrResize0 RootLaws0.
  intros [G Hvb Hfresh Hmax Hm] Hrule Hva Hkey Hn Hbs Hm1 Hm2 Hbig. pose proof (proj1 Hkey) as Hwf.
  assert (66 + 2 * n <= zlen fn) as Hlen by (destruct Hkey as (_ & n' & Hn' & ?); congruence).
  pose proof (filename_byte fn n Hwf Hn) as Hb. pose proof (name_pad_range n) as Hp.
  destruct (filename_new fn mref n Hwf Hn Hlen bs upcase upcase_len Hbs Hkey) as [Hnew Ek].
  assert (ntfs_get_collate_function memcmp upcase upcase_len rule = Some (ntfs_collate_file_name upcase upcase_len)) as Hcol by (by rewrite Hrule).
  unfold ntfs_index_add_filename. rewrite (filename_entry_ok fn mref n) by done. rewrite Hn. cbn [mbind option_bind].
  replace (n * 2 + 66) with (2 * n + 66) by lia. unfold sizeof_INDEX_ENTRY_HEADER. rewrite align8.
  replace ((16 + (2 * n + 66) + 7) / 8 * 8) with (16 + (2 * n + 66) + name_pad n) by (unfold name_pad; lia). rewrite Hm1, Hm2. cbn [negb].
  destruct (ie_add_ok bs vb q G malloc fresh rule Hfresh Hmax memcmp upcase upcase_len cluster_size cluster_size_bits Hcol Hvb Hm extra
    (filename_ent fn mref n) z fuel ni ntfs_index_ctx_get d vs xs Hva Hnew) as (ni1 & x1 & r & E & Hr & Hex & Hadd); [done | lia |].
  rewrite E. cbn [mbind option_bind].
  assert (r <> Added -> ntfs_index_ctx_put ni1 x1 = Some ni1) as Hput.
  { intros Hne. pose proof (ie_add_dirty _ _ _ _ _ _ _ _ _ _ _ _ _ _ _ E eq_refl Hne) as Hd.
    unfold ntfs_index_ctx_put, ntfs_index_ctx_free. rewrite Hd, andb_false_r. by destruct (_ && _). }
  assert (forall e, name_cmp upcase upcase_len (e_key (filename_ent fn mref n)) (e_key e) = 0 <-> key_name (e_key e) = key_name fn) as Hsame.
  { intros e. unfold name_cmp, lex2. rewrite Ek, (key_name_take fn n) by done. split; [|by intros ->; rewrite !lex_refl].
    destruct (Z.eqb_spec (lex (map (upc upcase upcase_len) (key_name fn)) (map (upc upcase upcase_len) (key_name (e_key e)))) 0); [|done].
    by intros ->%lex_eq. }
  assert ((1 < fuel)%nat -> (d <= 31)%nat ->
      ((exists e, In e xs /\ key_name (e_key e) = key_name fn) -> r = AddFails EEXIST) /\
      ((forall e, In e xs -> key_name (e_key e) <> key_name fn) -> roomy bs vb ni d (16 + (2 * n + 66) + name_pad n) -> r = Added)) as Hex'.
  { intros H1 H2. split.
    - intros (e & He & Heq). apply Hex; [lia | done |]. exists e. split; [done|]. by apply Hsame.
    - intros He Hrm. rewrite <-(filename_enc_len fn mref n) in Hrm by done. apply (fun K => proj2 (Hadd H2 K) H1); [|done]. intros e1 He1 E1%Hsame. by apply (He e1). }
  destruct r as [| |e].
  - destruct Hr as (l & t & ni2 & d' & vs' & Exs & -> & Hv). exists ni2, Added. split_and!; [done | by exists l, t, d', vs' | done].
  - rewrite Hput by done. by exists ni1, Again.
  - rewrite Hput by done. by exists ni1, (AddFails e).
Qed.
End api.

(** ** An index in memory *)

(** The root of an empty index with blocks of 512 bytes, one virtual cluster each. *)
Definition end_ent : ent := Ent (replicate 8 0) 0 2 [0; 0].
Definition empty_root (rule : Z) : list Z :=
  le_encode 4 48 ++ le_encode 4 rule ++ le_encode 4 512 ++ [1; 0; 0; 0] ++ le_encode 4 16 ++ le_encode 4 32 ++ le_encode 4 32 ++ [0; 0; 0; 0] ++ enc (end_ent, None).
Definition empty_index (rule : Z) : inode mem_root grow_attr := Inode (MemRoot (empty_root rule)) None None.

Lemma small_environment : environment (R := mem_root) (A := grow_attr) 512 9 1 (fun _ => true) (replicate 8 0) 512 9.
Proof.
  split; [by split | done | | done | done]. split; [|done]. by apply Forall_replicate.
Qed.

Lemma empty_valid rule {collate : COLLATE} `{!KeyOrder collate} : In rule [COLLATION_FILE_NAME; COLLATION_NTOFS_ULONG] ->
  valid (collate := collate) 512 9 1 rule (empty_index rule) 0 [] [] end_ent.
Proof.
  intros Hrule. assert (wf_slot true (end_ent, None)) as Hz by (split; [split; try done; split; try done; by repeat constructor | done]).
  split; [| constructor | constructor | by repeat constructor].
  exists (empty_root rule), [(end_ent, None)]. split.
  - assert (ir_value (root (empty_index rule)) = Ok (empty_root rule)) as ->; [|split; [done|]].
    { cbn. by destruct Hrule as [<-|[<-|[]]]. }
    exists 16, (take 32 (empty_root rule)), []. assert (enc_slots [(end_ent, None)] = enc (end_ent, None)) as He by done.
    destruct Hrule as [<-|[<-|[]]].
    all: split; [| by constructor | done | done | by exists 0 | by exists 32].
    all: split; [done | done | done | done | done | done | by repeat constructor | by exists [], (end_ent, None)].
  - change ([] ++ [end_ent]) with (fst <$> [(end_ent, @None Z)]). apply leaf_seq. by repeat constructor.
  - constructor.
  - done.
Qed.

(** An entry with a key of 32 bits and data of 52 bytes. *)
Definition ulong_ent (k : Z) : ent := Ent (replicate 8 0) 4 0 ([0; 0] ++ le_encode 4 k ++ replicate 52 7).

Lemma ulong_new k : new_entry (collate := ntfs_collate_ntofs_ulong) 512 (ulong_ent k).
Proof.
  assert (zlen (e_rest (ulong_ent k)) = 58) as Hl by (cbn [ulong_ent e_rest]; by rewrite !zlen_app, zlen_le_encode, zlen_replicate).
  split; [split | split; [split|] |]; rewrite ?Hl; try done.
  - split; [by apply Forall_replicate | done].
  - split; [|done]. cbn [ulong_ent e_rest]. unfold wf_bytes. rewrite !Forall_app. split_and!; [by repeat constructor | apply wf_le_encode | by apply Forall_replicate].
Qed.

(** The name "abc". *)
Definition abc : list Z := replicate 64 0 ++ [3; 1; 97; 0; 98; 0; 99; 0].

#[local] Instance no_upcase : Upcase [] 0.
Proof. done. Qed.

Lemma empty_roomy rule n : In rule [COLLATION_FILE_NAME; COLLATION_NTOFS_ULONG] -> 0 <= n <= 152 -> roomy 512 9 (empty_index rule) 0 n.
Proof.
  intros Hrule Hn. split; [|done]. intros _ ir Hir. right. intros il Hil.
  assert (il = 32) as -> by (destruct Hrule as [<-|[<-|[]]]; injection Hir as <-; by injection Hil as <-).
  cbn. change IR_INDEX with 16. by rewrite (proj2 (Z.leb_le _ _)) by (unfold mem_room; lia).
Qed.

Lemma two_rounds : (1 < 5)%nat.
Proof. lia. Qed.
Lemma flat : (0 <= 31)%nat.
Proof. lia. Qed.

Lemma ntfs_index_lookup_finds_witness : exists ni' x' r,
  ntfs_index_lookup (fun _ => true) (fun _ _ => 0) [] 0 512 9 (empty_index COLLATION_NTOFS_ULONG) ntfs_index_ctx_get (le_encode 4 7 ++ [1]) 4 = Some (ni', x', r) /\ r = Err ENOENT.
Proof.
  destruct (ntfs_index_lookup_finds 512 9 1 (fun _ => true) (replicate 8 0) COLLATION_NTOFS_ULONG (fun _ _ => 0) [] 0 512 9 eq_refl
    (empty_index COLLATION_NTOFS_ULONG) ntfs_index_ctx_get (le_encode 4 7) [1] 0 [] [] end_ent) as (ni' & x' & r & E & _ & _ & _ & Hr);
    [exact small_environment | apply empty_valid; cbn; auto | done | done | done | lia |].
  exists ni', x', r. split; [exact E|]. destruct r; [by destruct Hr as (? & ? & [] & _) | by destruct Hr as [-> _]].
Defined.

Lemma ntfs_ie_add_inserts_witness : exists ni' x' d vs ni2,
  ntfs_ie_add (fun _ => true) (fun _ _ => 0) [] 0 512 9 (replicate 8 0) 5 2 (empty_index COLLATION_NTOFS_ULONG) ntfs_index_ctx_get (enc (ulong_ent 7, None))
    = Some (ni', x', Added) /\
  ntfs_index_ctx_put ni' x' = Some ni2 /\ valid (collate := ntfs_collate_ntofs_ulong) 512 9 1 COLLATION_NTOFS_ULONG ni2 d vs [ulong_ent 7] end_ent.
Proof.
  assert (roomy 512 9 (empty_index COLLATION_NTOFS_ULONG) 0 (enc_len (ulong_ent 7, None))) as Hroomy by (apply empty_roomy; [cbn; auto | done]).
  destruct (ntfs_ie_add_inserts 512 9 1 (fun _ => true) (replicate 8 0) COLLATION_NTOFS_ULONG (fun _ _ => 0) [] 0 512 9 eq_refl
    5 0 (empty_index COLLATION_NTOFS_ULONG) ntfs_index_ctx_get 0 [] [] end_ent (ulong_ent 7)) as (ni' & x' & r & E & Hr & Hadd);
    [exact small_environment | apply empty_valid; cbn; auto | exact (ulong_new 7) | done | done |].
  destruct (Hadd two_rounds flat) as [_ Hadded]. rewrite Hadded in E, Hr; [|intros ? [] | exact Hroomy | intros ? [] | exact Hroomy].
  destruct Hr as (l & t & ni2 & d & vs & Exs & Hput & Hv). symmetry in Exs. apply app_nil in Exs as [-> ->]. exists ni', x', d, vs, ni2. exact (conj E (conj Hput Hv)).
Defined.

Lemma ntfs_index_add_filename_inserts_witness : exists ni' d vs,
  ntfs_index_add_filename (fun _ => true) (fun _ _ => 0) [] 0 512 9 (replicate 8 0) 5 2 (empty_index COLLATION_FILE_NAME) abc 42 = Some (ni', Added) /\
  valid (collate := ntfs_collate_file_name [] 0) 512 9 1 COLLATION_FILE_NAME ni' d vs [filename_ent abc 42 3] end_ent.
Proof.
  assert (roomy 512 9 (empty_index COLLATION_FILE_NAME) 0 (16 + (2 * 3 + 66) + name_pad 3)) as Hroomy by (apply empty_roomy; [cbn; auto | done]).
  destruct (ntfs_index_add_filename_inserts 512 9 1 (fun _ => true) (replicate 8 0) COLLATION_FILE_NAME (fun _ _ => 0) [] 0 512 9
    5 0 (empty_index COLLATION_FILE_NAME) abc 42 3 0 [] [] end_ent) as (ni' & r & E & Hr & Hadd);
    [exact small_environment | done | apply empty_valid; cbn; auto | | done | done | done | done | done |].
  - split; [by repeat constructor | by exists 3].
  - destruct (Hadd two_rounds flat) as [_ Hadded]. rewrite Hadded in E, Hr; [|intros ? [] | exact Hroomy | intros ? [] | exact Hroomy].
    destruct Hr as (l & t & d & vs & Exs & Hv). symmetry in Exs. apply app_nil in Exs as [-> ->]. exists ni', d, vs. exact (conj E Hv).
Defined.

(** Sixty keys in a scrambled order: the root is full after one, the blocks split.  Each key is found, and no other. *)
Definition add_ulong (k : Z) (ni : inode mem_root grow_attr) : option (inode mem_root grow_attr) :=
  match ntfs_ie_add (fun _ => true) (fun _ _ => 0) [] 0 512 9 (replicate 8 0) 10 3 ni ntfs_index_ctx_get (enc (ulong_ent k, None)) with
  | Some (ni, x, Added) => ntfs_index_ctx_put ni x
  | _ => None
  end.
Definition finds_ulong (ni : inode mem_root grow_attr) (k : Z) : bool :=
  if ntfs_index_lookup (fun _ => true) (fun _ _ => 0) [] 0 512 9 ni ntfs_index_ctx_get (le_encode 4 k) 4 is Some (_, _, Ok _) then true else false.
Definition sixty : list Z := map (fun i => (Z.of_nat i * 37) mod 101) (seq 0 60).

Example sixty_keys :
  match foldl (fun o k => ni ← o; add_ulong k ni) (Some (empty_index COLLATION_NTOFS_ULONG)) sixty with
  | Some ni => forallb (fun k => Bool.eqb (finds_ulong ni (Z.of_nat k)) (existsb (Z.eqb (Z.of_nat k)) sixty)) (seq 0 101) && (zlen (attr_data (default (Grow []) (ia ni))) =? 13 * 512)
  | None => false
  end = true.
Proof. by vm_compute. Qed.
