(* ===== verification/IndexSample.v ===== *)
(** Two small indexes in memory, on which the theorems of the next files are
    evaluated: one of three keys, in its root, and one with two leaves. *)

From S2P Require Import Prelude Mst AttrIo AttrMst Collate Index IndexSpec IndexNode IndexBlock IndexMake IndexBitmap IndexTree IndexLookup IndexRoot IndexSplit IndexAdd IndexApi.
Local Open Scope Z_scope.
Local Open Scope c_scope.
Set Default Proof Using "Type*".
#[local] Arguments le_encode : simpl never.

(** ** Three keys in a root *)

Definition small_ent (k : Z) : ent := Ent (replicate 8 0) 4 0 ([0; 0] ++ le_encode 4 k ++ replicate 4 0).
Definition three_slots : list slot := [(small_ent 2, None); (small_ent 5, None); (small_ent 9, None); (end_ent, None)].
Definition three_root : list Z :=
  le_encode 4 48 ++ le_encode 4 COLLATION_NTOFS_ULONG ++ le_encode 4 512 ++ [1; 0; 0; 0] ++ le_encode 4 16 ++ le_encode 4 104 ++ le_encode 4 104 ++ [0; 0; 0; 0] ++ enc_slots three_slots.
Definition three_index : inode mem_root grow_attr := Inode (MemRoot three_root) None None.

Lemma small_ok k : wf_slot false (small_ent k, None) /\ small 512 (small_ent k) /\ good_key ntfs_collate_ntofs_ulong (small_ent k).
Proof.
  assert (zlen (e_rest (small_ent k)) = 10) as Hl by (cbn [small_ent e_rest]; by rewrite !zlen_app, zlen_le_encode, zlen_replicate).
  assert (wf_bytes (e_rest (small_ent k))) as Hw.
  { cbn [small_ent e_rest]. unfold wf_bytes. rewrite !Forall_app. split_and!; [by repeat constructor | apply wf_le_encode | by apply Forall_replicate]. }
  split_and!.
  - split; [|done]. split; cbn [fst]; rewrite ?Hl; try done. split; [by apply Forall_replicate | done].
  - unfold small. by rewrite Hl.
  - split; [split|]; rewrite ?Hl; done.
Qed.

Lemma three_valid : valid (collate := ntfs_collate_ntofs_ulong) 512 9 1 COLLATION_NTOFS_ULONG three_index 0 [] [small_ent 2; small_ent 5; small_ent 9] end_ent.
Proof.
  pose proof (fun k => proj1 (small_ok k)) as Hw. pose proof (fun k => proj1 (proj2 (small_ok k))) as Hsm. pose proof (fun k => proj2 (proj2 (small_ok k))) as Hg.
  assert (wf_slot true (end_ent, None)) as Hz by (split; [split; try done; split; try done; by repeat constructor | done]).
  assert (wf_bytes three_root) as Hb by (unfold three_root, wf_bytes; cbn; by repeat constructor).
  split; [| by repeat constructor | by repeat constructor | by repeat constructor].
  exists three_root, three_slots. split.
  - split; [done|]. exists 16, (take 32 three_root), []. split; [| by repeat constructor | done | done | by exists 0 | by exists 104].
    split; [done | done | done | done | done | done | exact Hb |]. exists [(small_ent 2, None); (small_ent 5, None); (small_ent 9, None)], (end_ent, None).
    split; [done|]. split; [by repeat constructor | exact Hz].
  - exact (leaf_seq (fun _ _ _ => False) three_slots ltac:(by repeat constructor)).
  - constructor.
  - done.
Qed.

(** ** Two leaves *)

(** Nineteen keys, added in order: 10 is in the root, between two leaves of nine entries. *)
Definition small_keys (a n : nat) : list ent := map (fun k => small_ent (Z.of_nat k)) (seq a n).
Definition add_entry (o : option (inode mem_root grow_attr)) (e : ent) : option (inode mem_root grow_attr) :=
  ni ← o;
  match ntfs_ie_add (fun _ => true) (fun _ _ => 0) [] 0 512 9 (replicate 8 0) 10 3 ni ntfs_index_ctx_get (enc (e, None)) with
  | Some (ni, x, Added) => ntfs_index_ctx_put ni x
  | _ => None
  end.
Definition two_levels : inode mem_root grow_attr := default three_index (foldl add_entry (Some (empty_index COLLATION_NTOFS_ULONG)) (small_keys 1 19)).
Definition two_leaves (v : Z) : list Z := default [] (fetch_of 512 9 two_levels v).
Definition leaf_slots (es : list ent) : list slot := map (fun e => (e, None)) es ++ [(end_ent, None)].

Lemma wf_bytes_check m : forallb (fun b => (0 <=? b) && (b <? 256)) m = true -> wf_bytes m.
Proof. rewrite forallb_forall. intros H. apply List.Forall_forall. intros b Hb%H. unfold is_byte. lia. Qed.

Lemma end_slot_ok c : in_s64 c -> wf_slot true (end_ent, Some c) /\ wf_slot true (end_ent, None).
Proof. intros Hc. assert (wf_ent true end_ent) as He by (split; try done; split; try done; by repeat constructor). done. Qed.

Lemma leaf_slots_uniform es : uniform false (leaf_slots es).
Proof. apply List.Forall_forall. intros s [(e & <- & _)%in_map_iff|[<-|[]]]%in_app_iff; done. Qed.

Lemma small_leaf v (ks : list nat) b pre post :
  let sl := leaf_slots (map (fun k => small_ent (Z.of_nat k)) ks) in
  b = pre ++ enc_slots sl ++ post -> zlen pre = 48 -> zlen b = 512 -> wf_bytes b -> entries_offset b 24 = Some 24 ->
  index_length b 24 = Some (24 + zlen (enc_slots sl)) -> header 512 v false pre 24 -> iblock 512 v false b sl.
Proof.
  cbv zeta. set (sl := leaf_slots _). intros Eb Lp Lb Hw Heo Hil Hh. exists 24, pre, post. split; [|done|done|].
  - split; try done. exists (map (fun e => (e, None)) (map (fun k => small_ent (Z.of_nat k)) ks)), (end_ent, None). split; [done|]. split; [|by apply (end_slot_ok 0)].
    apply List.Forall_forall. intros s (e & <- & (k & <- & _)%in_map_iff)%in_map_iff. apply small_ok.
  - apply leaf_slots_uniform.
Qed.

Lemma two_leaves_ok (v : Z) (a : nat) : v = 0 /\ a = 1%nat \/ v = 1 /\ a = 11%nat ->
  block_at 512 1 (fetch_of 512 9 two_levels) v false (two_leaves v) (leaf_slots (small_keys a 9)).
Proof.
  intros H. split; [exists v; unfold block_number; lia|].
  assert (forallb (fun b => (0 <=? b) && (b <? 256)) (two_leaves v) = true) as Hw by (destruct H as [[-> ->]|[-> ->]]; vm_compute; reflexivity).
  apply wf_bytes_check in Hw. split; [destruct H as [[-> ->]|[-> ->]]; vm_compute; reflexivity|].
  apply (small_leaf v (seq a 9) _ (take 48 (two_leaves v)) (drop 280 (two_leaves v)));
    [| | | exact Hw | | | split; [split; [|split; [lia | by apply Forall_take]]| | exists 40, 2 | | | exists 0 | lia]]; clear Hw;
    destruct H as [[-> ->]|[-> ->]]; vm_compute; repeat apply conj; (reflexivity || discriminate).
Qed.

Lemma two_leaves_tree (v : Z) (a : nat) : v = 0 /\ a = 1%nat \/ v = 1 /\ a = 11%nat -> tree 512 1 (fetch_of 512 9 two_levels) 0 v [v] (small_keys a 9).
Proof.
  intros H. apply tree_unfold. exists (two_leaves v), (leaf_slots (small_keys a 9)), [], end_ent. split; [by apply two_leaves_ok|]. split; [done|].
  replace (small_keys a 9 ++ [end_ent]) with (fst <$> leaf_slots (small_keys a 9)).
  - apply leaf_seq, leaf_slots_uniform.
  - done.
Qed.

Definition two_slots : list slot := [(small_ent 10, Some 0); (end_ent, Some 1)].

Definition two_root : list Z := Eval vm_compute in mem_value (root two_levels).

Lemma two_root_ok : ir_value (root two_levels) = Ok two_root /\ iroot 512 COLLATION_NTOFS_ULONG true two_root two_slots.
Proof.
  split; [vm_compute; reflexivity|]. assert (wf_bytes two_root) as Hw by (apply wf_bytes_check; by vm_compute).
  exists 16, (take 32 two_root), []. split; [| by repeat constructor | done | done | by exists 1 | by exists 72].
  split; [done | done | done | done | done | done | exact Hw |]. exists [(small_ent 10, Some 0)], (end_ent, Some 1). split; [done|]. split; [|by apply end_slot_ok].
  constructor; [|constructor]. split; [apply (small_ok 10) | done].
Qed.

Lemma two_valid : valid (collate := ntfs_collate_ntofs_ulong) 512 9 1 COLLATION_NTOFS_ULONG two_levels 1 [0; 1] (small_keys 1 19) end_ent.
Proof.
  split.
  - exists two_root, two_slots. split; [exact two_root_ok | | by apply (bool_decide_unpack (NoDup [0; 1])) |].
    + change ([0; 1]) with ([0] ++ [1]). change (small_keys 1 19 ++ [end_ent]) with (small_keys 1 9 ++ small_ent 10 :: small_keys 11 9 ++ [end_ent]).
      apply seq_cons. exists [0], (small_keys 1 9), [1], (small_keys 11 9 ++ [end_ent]). split; [apply two_leaves_tree; by left|]. split; [|done].
      apply seq_1. exists (small_keys 11 9). split; [apply two_leaves_tree; by right | done].
    + intros nb Hnb. assert (attr_data nb = [3; 0; 0; 0; 0; 0; 0; 0]) as E.
      { assert (bm two_levels = Some (Grow [3; 0; 0; 0; 0; 0; 0; 0])) as Hbm by (vm_compute; reflexivity). rewrite Hbm in Hnb. by injection Hnb as <-. }
      clear Hnb. split; rewrite E; clear E; [by repeat constructor|]. intros i Hi. rewrite Z.mul_1_r. intros [<-|[<-|[]]]; by exists 3.
  - by repeat constructor.
  - apply List.Forall_forall. intros e (k & <- & _)%in_map_iff. apply small_ok.
  - apply List.Forall_forall. intros e [(k & <- & _)%in_map_iff|[<-|[]]]%in_app_iff; [apply small_ok | done].
Qed.

(** The only key in the root, and the length of the leaves, for what has these bytes. *)
Lemma two_root_key ir (s1 : list slot) (s : slot) (s2 : list slot) : ir_value (root two_levels) = Ok ir -> iroot 512 COLLATION_NTOFS_ULONG true ir (s1 ++ s :: s2) -> s2 <> [] ->
  e_key s.1 = le_encode 4 10.
Proof.
  intros Hv (eo & pre & post & Hparts) Hne. destruct two_root_ok as [Hv2 _]. rewrite Hv2 in Hv. clear Hv2. injection Hv as <-. pose proof (ir_node _ _ _ _ _ _ _ _ Hparts) as Hn. clear Hparts.
  destruct (exists_last Hne) as (s3 & z & ->). pose proof Hn as Hn0. rewrite app_comm_cons, app_assoc in Hn0.
  pose proof (node_numof Hn0 _ z eq_refl) as Hnum. assert (ntfs_ih_numof_entries two_root IR_INDEX = Some 1) as E1 by (vm_compute; reflexivity).
  rewrite E1 in Hnum. injection Hnum as Hz. clear E1 Hn0.
  assert (s1 = []) as -> by (destruct s1; [done | unfold zlen in Hz; rewrite length_app in Hz; cbn in Hz; lia]). clear Hz. cbn [app] in Hn.
  pose proof (na_entries _ _ _ _ _ _ Hn) as Heo. assert (entries_offset two_root IR_INDEX = Some 16) as E by (vm_compute; reflexivity). rewrite E in Heo. injection Heo as <-. clear E.
  pose proof (na_pre _ _ _ _ _ _ Hn) as Hp. change (IR_INDEX + 16) with 32 in Hp.
  pose proof (na_slots _ _ _ _ _ _ Hn) as Hws. apply (wf_slots_split []) in Hws as (_ & Hw & _); [|done].
  pose proof (node_slot Hn [] s (s3 ++ [z]) eq_refl) as Em. cbn [app] in Em. change (enc_slots []) with (@nil Z) in Em. rewrite app_nil_r in Em. clear Hn.
  assert (ie_key_length two_root 32 = Some 4 /\ ie_length two_root 32 = Some 32 /\ zread two_root 48 4 = Some (le_encode 4 10)) as (E1 & E2 & E3) by (vm_compute; repeat apply conj; reflexivity).
  rewrite Em, (field_klen false) in E1 by done. rewrite Em, (field_length false) in E2 by done. injection E1 as E1. injection E2 as E2.
  assert (2 + e_klen s.1 <= zlen (e_rest s.1)) as Hl by (unfold enc_len in E2; rewrite zlen_vcn_bytes in E2; destruct s.2; lia).
  assert (zlen (e_key s.1) = 4) as Hk by (unfold e_key; rewrite E1; unfold zlen in *; rewrite length_take, length_drop; lia).
  destruct (key_in_memory ntfs_collate_ntofs_ulong s pre (enc_slots (s3 ++ [z]) ++ post) Hw) as (t & Hd & _); [by split|].
  rewrite Em in E3. unfold ie_key in Hd. rewrite Hp in Hd. unfold zread in E3. destruct (_ && _); [|done]. injection E3 as E3.
  change (drop (Z.to_nat 48)) with (drop (A := Z) (Z.to_nat (32 + 16))) in E3. rewrite Hd, take_app_length' in E3 by (unfold zlen in Hk; lia). done.
Qed.

Lemma two_leaf_length c b (sl : list slot) : In c [0; 1] -> block_at 512 1 (fetch_of 512 9 two_levels) c false b sl -> length sl = 10%nat.
Proof.
  intros Hc (_ & Hf & eo & pre & post & [Hn _ _ _]). pose proof (na_slots _ _ _ _ _ _ Hn) as (es & z & -> & _).
  pose proof (node_numof Hn es z eq_refl) as Hnum. assert (ntfs_ih_numof_entries b 24 = Some 9) as E9; [|rewrite E9 in Hnum; injection Hnum as Hz; unfold zlen in Hz; rewrite length_app; cbn; lia].
  assert (forall v, v = 0 \/ v = 1 -> (b ← fetch_of 512 9 two_levels v; ntfs_ih_numof_entries b 24) = Some 9) as Hall by (by intros ? [->| ->]; vm_compute).
  specialize (Hall c). rewrite Hf in Hall. apply Hall. destruct Hc as [<-|[<-|[]]]; [by left | by right].
Qed.
