(* ===== verification/IndexNext.v ===== *)
(** ntfs_index_next (libntfs-3g/index.c): the entries of an index, one after the
    other, from one that a lookup has found.  A walk down is a loop without a
    bound of its own; the arrays of the context end it on the 33rd level, where
    the code writes behind them and the model has no result. *)

From S2P Require Import Prelude Mst AttrIo AttrMst Collate Index IndexSpec IndexNode IndexBlock IndexMake IndexTree IndexLookup IndexRoot IndexSplit IndexAdd IndexApi IndexSample.
Local Open Scope Z_scope.
Local Open Scope c_scope.
Set Default Proof Using "Type*".
#[local] Arguments le_encode : simpl never.

(** ** The walk *)

Definition set_pindex (x : context) (i : Z) : context := set_parents x (parent_pos x) (parent_vcn x) i.
Definition set_position (x : context) (e : option Z) : context :=
  Icx e (data_len x) (collate_fn x) (is_in_root x) (ib x) (ia_na x) (parent_pos x) (parent_vcn x) (pindex x) (ib_dirty x)
    (bad_index x) (block_size x) (vcn_size_bits x).

Section next.
Context {R A : Type} `{!AttrOps A, !AttrResize A, !RootOps R A}.
Implicit Types (ni : inode R A) (x : context).
Variable ntfs_malloc : Z -> bool.

(** What the entries of the context point into. *)
Definition node_buf ni x : option (list Z) :=
  if is_in_root x then match ir_value (root ni) with Ok ir => Some ir | Err _ => None end else Some (ib x).

(** ntfs_ib_read into [icx->ib]; it fails when the attribute is not open, or the
    buffer was not allocated. *)
Definition next_read ni x (buffer : bool) (vcn : Z) : option (inode R A * result (list Z)) :=
  if ia_na x && buffer then ntfs_ib_read ni x vcn else Some (ni, Err EINVAL).

(** Nothing limits pindex here: the stores leave the arrays on the 33rd level. *)
Fixpoint walk_down (fuel : nat) ni x (ie : Z) : option (inode R A * context * option Z) :=
  match fuel with
  | O => None
  | S f =>
      buf ← node_buf ni x;
      vcn ← ntfs_ie_get_vcn buf ie;
      let buffer := if is_in_root x then ntfs_malloc (block_size x) else true in
      let x := if is_in_root x then set_pindex (set_ib x []) 1 else set_pindex x (pindex x + 1) in
      x ← store_pos x 0;
      x ← store_vcn x vcn;
      out ← next_read ni x buffer vcn;
      let '(ni, r) := out in
      match r with
      | Err _ => Some (ni, x, None)
      | Ok b =>
          e ← ntfs_ie_get_first b IB_INDEX;
          let x := set_position (set_ib x b) (Some e) in
          fl ← ie_flags b e;
          if flag fl INDEX_ENTRY_NODE then walk_down f ni x e else Some (ni, x, Some e)
      end
  end.

Definition ntfs_index_walk_down ni x (ie : Z) := walk_down (S (Z.to_nat MAX_PARENT_VCN)) ni x ie.

Fixpoint walk_up (fuel : nat) ni x : option (inode R A * context * option Z) :=
  match fuel with
  | O => None
  | S f =>
      let x := set_pindex x (pindex x - 1) in
      if pindex x =? 0 then
        let x := set_in_root (set_ib x []) in
        match ir_value (root ni) with
        | Err _ => Some (ni, set_position x None, None)
        | Ok ir =>
            pos ← ntfs_icx_parent_pos x;
            e ← ntfs_ie_get_by_pos ir IR_INDEX pos;
            Some (ni, set_position x (Some e), Some e)
        end
      else
        vcn ← ntfs_icx_parent_vcn x;
        out ← next_read ni x true vcn;
        let '(ni, r) := out in
        match r with
        | Err _ => Some (ni, set_position x None, None)
        | Ok b =>
            pos ← ntfs_icx_parent_pos x;
            e ← ntfs_ie_get_by_pos b IB_INDEX pos;
            let x := set_position (set_ib x b) (Some e) in
            fl ← ie_flags b e;
            if (0 <? pindex x) && flag fl INDEX_ENTRY_END then walk_up f ni x else Some (ni, x, Some e)
        end
  end.

Definition ntfs_index_walk_up ni x : option (inode R A * context * option Z) :=
  if 0 <? pindex x then walk_up (Z.to_nat (pindex x)) ni x else Some (ni, x, None).

Definition ntfs_index_next ni x (ie : Z) : option (inode R A * context * option Z) :=
  buf ← node_buf ni x;
  fl ← ie_flags buf ie;
  out ← (if flag fl INDEX_ENTRY_END then ntfs_index_walk_up ni x
         else
           next ← ntfs_ie_get_next buf ie;
           pos ← ntfs_icx_parent_pos x;
           x ← store_pos x (pos + 1);
           fl ← ie_flags buf next;
           if flag fl INDEX_ENTRY_NODE then ntfs_index_walk_down ni x next
           else if flag fl INDEX_ENTRY_END then ntfs_index_walk_up ni x
           else Some (ni, x, Some next));
  let '(ni, x, next) := out in
  match next with
  | None => Some (ni, x, None)
  | Some e =>
      buf ← node_buf ni x;
      fl ← ie_flags buf e;
      Some (ni, x, if flag fl INDEX_ENTRY_END then None else Some e)
  end.

(** The keys from an entry on, until ntfs_index_next returns NULL. *)
Fixpoint keys_from (fuel : nat) ni x (ie : Z) : option (list (list Z)) :=
  match fuel with
  | O => None
  | S f =>
      buf ← node_buf ni x;
      n ← ie_key_length buf ie;
      key ← zread buf (ie_key ie) n;
      out ← ntfs_index_next ni x ie;
      let '(ni, x, next) := out in
      match next with
      | None => Some [key]
      | Some ie => keys ← keys_from f ni x ie; Some (key :: keys)
      end
  end.
End next.

(** ** The fields of a slot *)

Lemma slot_facts m h eo pre (s1 : list slot) (s : slot) (s2 : list slot) post : node_at m h eo pre (s1 ++ s :: s2) post ->
  exists fl, ie_flags m (h + eo + zlen (enc_slots s1)) = Some fl /\ flag fl INDEX_ENTRY_NODE = bool_decide (is_Some s.2) /\
    flag fl INDEX_ENTRY_END = bool_decide (s2 = []) /\
    ntfs_ie_get_next m (h + eo + zlen (enc_slots s1)) = Some (h + eo + zlen (enc_slots (s1 ++ [s]))) /\
    (forall v, s.2 = Some v -> ntfs_ie_get_vcn m (h + eo + zlen (enc_slots s1)) = Some v) /\
    ie_key_length m (h + eo + zlen (enc_slots s1)) = Some (e_klen s.1).
Proof.
  intros Hn. pose proof (na_slots _ _ _ _ _ _ Hn) as Hw. rewrite <-(na_pre _ _ _ _ _ _ Hn), (node_slot Hn s1 s s2 eq_refl).
  rewrite wf_slots_app in Hw by done. destruct Hw as [_ Hw].
  assert (wf_slot (bool_decide (s2 = [])) s) as Hs.
  { destruct s2 as [|t s2]; [by apply wf_slots_1 in Hw|]. apply wf_slots_cons in Hw as [Hw _]; done. }
  assert (zlen (pre ++ enc_slots s1) = zlen pre + zlen (enc_slots s1)) as Hl by (by rewrite zlen_app).
  exists (e_flags s.1 + node_flag s.2). rewrite <-Hl. split_and!.
  - by eapply field_flags.
  - rewrite (flag_node _ s Hs). by destruct s.2.
  - apply (flag_end _ s Hs).
  - rewrite (field_next _ s _ _ _ Hs eq_refl). f_equal. rewrite enc_slots_app, enc_slots_1, !zlen_app, (proj2 (enc_len_range _ s Hs)). lia.
  - intros v Hv. by eapply field_vcn.
  - by eapply field_klen.
Qed.

Lemma inner_S d : inner d = true -> exists k, d = S k.
Proof. destruct d; [done | by eexists]. Qed.

Lemma zlen_snoc {A} (l : list A) x : zlen (l ++ [x]) = zlen l + 1.
Proof. rewrite zlen_app. done. Qed.

Lemma seq_nonempty T (s : slot) (sl : list slot) vs xs : seq_of T (s :: sl) vs xs -> xs <> [].
Proof. intros (vc & xc & ? & ? & _ & _ & _ & ->)%seq_cons. by destruct xc. Qed.

(** ** The walk in the sequence *)

Section walk.
Context {R A : Type} `{!AttrOps A, !AttrResize A, !RootOps R A, !AttrLaws A, !AttrReliable A, !AttrGrowLaws A}.
Context (bs vb q : Z) (G : geometry bs vb q) (malloc : Z -> bool) (rule : Z).
Hypothesis Hmalloc : malloc bs = true.
Implicit Types (ni : inode R A) (x : context) (na : A).
Abbreviation fetch_of := (fetch_of bs vb).

(** An index of height [d], the root of which has the slots [sl]. *)
Context (f : Z -> option (list Z)) (d : nat) (ir : list Z) (sl : list slot).
Hypothesis Hroot : iroot bs rule (inner d) ir sl.

(** What is read. *)
Definition reads ni : Prop := ir_value (root ni) = Ok ir /\ forall v, fetch_of ni v = f v.

(** No leaf is empty. *)
Definition leaves_full (vs : list Z) : Prop :=
  forall v b es, In v vs -> block_at bs q f v false b es -> (2 <= length es)%nat.

(** The arrays of the context. *)
Record walks x (p : list step) : Prop := {
  wk_pos : zlen (parent_pos x) = 32 /\ steps_pos (parent_pos x) p;
  wk_vcn : zlen (parent_vcn x) = 32 /\ steps_vcn (parent_vcn x) p;
  wk_sized : sized x bs vb;
  wk_open : d = 0%nat \/ ia_na x = true }.

(** The entry [e] at [ie] in the node of the context; [post] follows it. *)
Inductive position x (ie : Z) : ent -> list ent -> Prop :=
  | position_root (s1 : list slot) (s : slot) (s2 : list slot) v1 (ws : list ent) v2 (ys : list ent) eo : walks x [] -> is_in_root x = true -> pindex x = 0 ->
      (parent_vcn x).[0] = Some VCN_INDEX_ROOT_PARENT -> (parent_pos x).[0] = Some (zlen s1) ->
      sl = s1 ++ s :: s2 -> seq_of (kids bs q f d) (s1 ++ [s]) v1 ws -> seq_of (kids bs q f d) s2 v2 ys -> leaves_full v2 ->
      entries_offset ir IR_INDEX = Some eo -> ie = IR_INDEX + eo + zlen (enc_slots s1) -> position x ie s.1 ys
  | position_block k (p : list step) c b (s1 : list slot) (s : slot) (s2 : list slot) vl vr (xl xr : list ent) v1 (ws : list ent) v2 (ys : list ent) zb eo :
      path bs q f sl k p c vl vr xl xr -> height k p = d -> block_at bs q f c (inner k) b (s1 ++ s :: s2) -> s2 <> [] ->
      seq_of (kids bs q f k) (s1 ++ [s]) v1 ws -> seq_of (kids bs q f k) s2 v2 (ys ++ [zb]) -> leaves_full (v2 ++ vr) ->
      walks x p -> is_in_root x = false -> ib x = b -> pindex x = zlen p -> zlen p < 32 -> (parent_vcn x).[zlen p] = Some c -> (parent_pos x).[zlen p] = Some (zlen s1) ->
      entries_offset b IB_INDEX = Some eo -> ie = IB_INDEX + eo + zlen (enc_slots s1) -> position x ie s.1 (ys ++ xr).

Lemma next_read_ok ni x k c b es : reads ni -> sized x bs vb -> ia_na x = true -> block_at bs q f c k b es ->
  exists ni', next_read ni x true c = Some (ni', Ok b) /\ reads ni'.
Proof using All.
  intros [Hr Hf] Hx Ho ((i & -> & Hi) & Hb & _). unfold next_read. rewrite Ho. cbn [andb]. rewrite <-Hf in Hb.
  unfold IndexLookup.fetch_of in Hb, Hf. destruct (ia ni) as [na|] eqn:E; [|done].
  destruct (ib_read_fetch bs vb q G ni x na i b Hx E Hi Hb) as (na' & -> & Hd). eexists. split; [reflexivity|].
  split; [exact Hr|]. intros v. unfold IndexLookup.fetch_of. cbn. by rewrite Hd.
Qed.

Lemma leaves_part vs us : leaves_full vs -> (forall u, In u us -> In u vs) -> leaves_full us.
Proof using. intros H Hi v b es Hv. apply H. by apply Hi. Qed.

(** The stores on the way down to block [c]. *)
Lemma walks_down x (p : list step) c : walks x p -> pindex x = zlen p -> zlen p < 32 ->
  exists x1 x2, store_pos x 0 = Some x1 /\ store_vcn x1 c = Some x2 /\ walks x2 p /\ pindex x2 = zlen p /\
    (parent_pos x2).[zlen p] = Some 0 /\ (parent_vcn x2).[zlen p] = Some c /\ is_in_root x2 = is_in_root x /\ ia_na x2 = ia_na x.
Proof using.
  intros [[Hlp Hsp] [Hlv Hsv] Hz Ho] Hi Hp. pose proof (zlen_nonneg p).
  destruct (zset_keeps (parent_pos x) (zlen p) 0) as (a1 & E1 & L1 & G1); [lia|].
  destruct (zset_keeps (parent_vcn x) (zlen p) c) as (a2 & E2 & L2 & G2); [lia|].
  unfold store_pos. rewrite Hi, E1. cbn [mbind option_bind]. eexists _, _. split; [reflexivity|].
  unfold store_vcn. cbn [set_parents parent_vcn pindex]. rewrite E2. cbn [mbind option_bind]. split; [reflexivity|].
  split; [|done]. split; cbn; [split; [lia|] | split; [lia|] | done | done].
  - by eapply steps_pos_zset.
  - by eapply steps_vcn_zset.
Qed.

(** A level of the walk down. *)
Lemma down_level fuel ni x ie buf (p : list step) k v b es : reads ni -> node_buf ni x = Some buf -> ntfs_ie_get_vcn buf ie = Some v ->
  walks x p -> ia_na x = true -> pindex x = zlen p - 1 -> (is_in_root x = true -> zlen p = 1) -> 0 < zlen p < 32 -> block_at bs q f v k b es ->
  exists ni1 x1 eo s t, es = s :: t /\ entries_offset b IB_INDEX = Some eo /\
    walk_down malloc (S fuel) ni x ie =
      (if bool_decide (is_Some s.2) then walk_down malloc fuel ni1 x1 (IB_INDEX + eo) else Some (ni1, x1, Some (IB_INDEX + eo))) /\
    (forall c, s.2 = Some c -> ntfs_ie_get_vcn b (IB_INDEX + eo) = Some c) /\
    reads ni1 /\ walks x1 p /\ ia_na x1 = true /\ pindex x1 = zlen p /\ is_in_root x1 = false /\ ib x1 = b /\
    (parent_vcn x1).[zlen p] = Some v /\ (parent_pos x1).[zlen p] = Some 0.
Proof using All.
  intros Hr Hbuf Hv Hx Ho Hi Hir Hp Hb. cbn [walk_down]. rewrite Hbuf. cbn [mbind option_bind]. rewrite Hv. cbn [mbind option_bind].
  set (x0 := if is_in_root x then set_pindex (set_ib x []) 1 else set_pindex x (pindex x + 1)).
  assert (walks x0 p /\ pindex x0 = zlen p /\ is_in_root x0 = false /\ ia_na x0 = true) as (Hx0 & Hi0 & Hr0 & Ho0).
  { unfold x0. destruct Hx as [H1 H2 H3 H4]. destruct (is_in_root x) eqn:E; (split; [by split|]); cbn; (split_and!; [|done|done]); [by rewrite Hir | lia]. }
  destruct (walks_down x0 p v Hx0 Hi0) as (x1 & x2 & -> & E2 & Hx2 & Hi2 & Hp2 & Hv2 & Hr2 & Ho2); [lia|]. cbn [mbind option_bind]. rewrite E2. cbn [mbind option_bind].
  assert ((if is_in_root x then malloc (block_size x) else true) = true) as -> by (destruct (is_in_root x); [destruct Hx as [_ _ [-> _] _]; done | done]).
  rewrite Ho0 in Ho2. destruct (next_read_ok ni x2 _ v b es Hr (wk_sized _ _ Hx2) Ho2 Hb) as (ni1 & -> & Hr1). cbn [mbind option_bind].
  destruct Hb as (_ & _ & (eo & pre & post & [Hn _ _ _])). destruct (na_slots _ _ _ _ _ _ Hn) as (es' & z & E & _). destruct es as [|s t]; [by destruct es'|].
  assert (Hn' := Hn). change (s :: t) with ([] ++ s :: t) in Hn'. destruct (slot_facts _ _ _ _ _ _ _ _ Hn') as (fl & Hfl & Hnode & _ & _ & Hc & _).
  change (zlen (enc_slots [])) with 0 in *. rewrite Z.add_0_r in *.
  exists ni1, (set_position (set_ib x2 b) (Some (IB_INDEX + eo))), eo, s, t. unfold IB_INDEX. rewrite (node_first Hn), (na_pre _ _ _ _ _ _ Hn). cbn [mbind option_bind].
  rewrite Hfl. cbn [mbind option_bind]. rewrite Hnode. split_and!; try done.
  - exact (na_entries _ _ _ _ _ _ Hn).
  - by destruct Hx2; split.
Qed.

(** The walk down to the leftmost leaf below [v]. *)
Lemma walk_down_ok k : forall fuel ni x ie buf (p : list step) v vl vr (xl xr : list ent) vs (xs : list ent), (k < fuel)%nat -> reads ni -> node_buf ni x = Some buf ->
  ntfs_ie_get_vcn buf ie = Some v -> path bs q f sl k p v vl vr xl xr -> height k p = d -> tree bs q f k v vs xs -> leaves_full (vs ++ vr) ->
  walks x p -> ia_na x = true -> pindex x = zlen p - 1 -> (is_in_root x = true -> zlen p = 1) -> zlen p + Z.of_nat k < 32 ->
  exists ni' x' ie' e ys, walk_down malloc fuel ni x ie = Some (ni', x', Some ie') /\ reads ni' /\ xs = e :: ys /\ position x' ie' e (ys ++ xr).
Proof using All.
  induction k as [|k IH]; intros [|fuel] ni x ie buf p v vl vr xl xr vs xs Hfuel Hr Hbuf Hv Hp Hh Ht Hfull Hx Ho Hi Hir Hdeep; try lia.
  all: assert (0 < zlen p) as Hp0 by (pose proof (path_ne _ _ _ _ _ _ _ _ _ _ _ Hp); destruct p; [done | rewrite zlen_cons; pose proof (zlen_nonneg p); lia]).
  all: apply tree_unfold in Ht as (b & es & vs' & zn & Hb & -> & Hs).
  all: destruct (down_level fuel ni x ie buf p _ v b es Hr Hbuf Hv Hx Ho Hi Hir (ltac:(lia)) Hb) as
    (ni1 & x1 & eo & s & t & -> & Heo & -> & Hc & Hr1 & Hx1 & Ho1 & Hi1 & Hin1 & Hib1 & Hpv & Hpp).
  all: pose proof Hb as (_ & _ & (eo' & pre & post & [_ _ _ Hu])); apply uniform_cons in Hu as [Hu _]; cbn [inner] in Hu; rewrite Hu.
  - apply seq_leaf_fst in Hs as [-> Ey]. cbn in Ey.
    assert (2 <= length (s :: t))%nat as Hl2 by (apply (Hfull v b (s :: t)); [by left | exact Hb]).
    destruct t as [|t0 t]; [cbn in Hl2; lia|]. destruct (exists_last (l := fst <$> t0 :: t)) as (ys & zb & Ez); [done|].
    assert (xs = s.1 :: ys) as ->.
    { change (xs ++ [zn] = s.1 :: (fst <$> t0 :: t)) in Ey. rewrite Ez, app_comm_cons in Ey. by apply app_inj_tail in Ey as [-> _]. }
    exists ni1, x1, (IB_INDEX + eo), s.1, ys. split_and!; [done | done | done |].
    eapply (position_block x1 _ 0 p v b [] s (t0 :: t) vl vr xl xr [] [s.1] [] ys zb eo); try done; [ | | | lia | by rewrite Z.add_0_r].
    + apply (leaf_seq _ [s]). by repeat constructor.
    + rewrite <-Ez. apply leaf_seq. destruct Hb as (_ & _ & (? & ? & ? & [_ _ _ Hu'])). by apply uniform_cons in Hu' as [_ Hu'].
    + eapply leaves_part; [exact Hfull|]. intros u Hu'. right. cbn in Hu'. done.
  - apply seq_cons in Hs as (vc & xc & v2 & x2 & Hch & Hs2 & -> & Ey). apply bool_decide_eq_true in Hu as [c Hc']. rewrite Hc' in Hch. cbn [child_of kids inner] in *.
    destruct s as [e0 c0]. cbn [fst snd] in *. subst c0.
    destruct (exists_last (l := e0 :: x2)) as (ys & zb & Ez); [done|].
    assert (xs = xc ++ ys) as -> by (rewrite Ez, app_assoc in Ey; by apply app_inj_tail in Ey as [-> _]).
    assert (path bs q f sl k ((v, []) :: p) c (vl ++ v :: []) (v2 ++ vr) (xl ++ []) (ys ++ xr)) as Hp'.
    { eapply (path_node bs q f sl k p v vl vr xl xr b [] e0 c t [] v2 [] x2 ys zb Hp Hb); [constructor | exact Hs2 | exact Ez]. }
    destruct (IH fuel ni1 x1 (IB_INDEX + eo) b ((v, []) :: p) c (vl ++ v :: []) (v2 ++ vr) (xl ++ []) (ys ++ xr) vc xc) as (ni' & x' & ie' & e & ys' & E & Hr' & -> & Hpos); try done.
    + lia.
    + unfold node_buf. by rewrite Hin1, Hib1.
    + by apply Hc.
    + unfold height in *. cbn [length]. lia.
    + eapply leaves_part; [exact Hfull|]. intros u Hu'. in_blocks.
    + destruct Hx1 as [[? ?] [? ?] ? ?]. split; [by split_and!.. | done | done].
    + rewrite zlen_cons. lia.
    + by rewrite Hin1.
    + rewrite zlen_cons. lia.
    + exists ni', x', ie', e, (ys' ++ ys). split_and!; [done | done | done |]. by rewrite <-app_assoc.
Qed.

Lemma walks_shift x st (p : list step) b e : walks x (st :: p) ->
  walks (set_position (set_ib (set_pindex x (zlen p)) b) e) p /\ (parent_pos x).[zlen p] = Some (zlen st.2) /\ (parent_vcn x).[zlen p] = Some st.1.
Proof using. intros [[? [? ?]] [? [? ?]] ? ?]. split; [by split | done]. Qed.

(** The sequence up to an entry with the tree before it, and the tree of a node. *)
Lemma left_seq k (s1 : list slot) e c vl xl vc xc : seq_of (tree bs q f k) s1 vl xl -> tree bs q f k c vc xc ->
  seq_of (kids bs q f (S k)) (s1 ++ [(e, Some c)]) (vl ++ vc) (xl ++ xc ++ [e]).
Proof using.
  intros H1 H2. apply seq_app. exists vl, xl, vc, (xc ++ [e]). split_and!; [done | | done | done]. apply seq_1. by exists xc.
Qed.

Lemma node_tree k v b (s1 : list slot) e c (s2 : list slot) vl xl vc xc vr (xr : list ent) : block_at bs q f v true b (s1 ++ (e, Some c) :: s2) ->
  seq_of (tree bs q f k) s1 vl xl -> tree bs q f k c vc xc -> seq_of (tree bs q f k) s2 vr xr ->
  exists ys z, e :: xr = ys ++ [z] /\ tree bs q f (S k) v (v :: (vl ++ vc) ++ vr) ((xl ++ xc) ++ ys).
Proof using.
  intros Hb H1 H2 H3. destruct (exists_last (l := e :: xr)) as (ys & z & E); [done|]. exists ys, z. split; [done|].
  apply tree_unfold. exists b, (s1 ++ (e, Some c) :: s2), ((vl ++ vc) ++ vr), z. split_and!; [done | done |]. cbn [kids].
  replace (s1 ++ (e, Some c) :: s2) with ((s1 ++ [(e, Some c)]) ++ s2) by (by rewrite <-app_assoc).
  apply seq_app. exists (vl ++ vc), (xl ++ xc ++ [e]), vr, xr. split_and!; [by apply (left_seq k) | done | done |].
  rewrite <-!app_assoc. do 2 f_equal. exact (eq_sym E).
Qed.

(** The walk up from the end of block [c]. *)
Lemma walk_up_ok k (p : list step) c vl vr (xl xr : list ent) : path bs q f sl k p c vl vr xl xr -> height k p = d -> leaves_full vr ->
  forall fuel ni x vc xc, tree bs q f k c vc xc -> (length p <= fuel)%nat -> reads ni -> walks x p -> pindex x = zlen p -> zlen p < 32 ->
  exists ni' x' ie' e ys, walk_up fuel ni x = Some (ni', x', Some ie') /\ reads ni' /\ xr = e :: ys /\ position x' ie' e ys.
Proof using All.
  induction 1 as [k s1 e c s2 vl vr xl xr Esl H1 H2|k p v vl0 vr0 xl0 xr0 b s1 e c s2 vl vr xl xr ys zb H0 IH Hb H1 H2 Ey];
    intros Hh Hfull [|fuel] ni x vc xc Ht Hfuel Hr Hx Hi Hp; try (cbn in Hfuel; lia); cbn [walk_up].
  - replace (pindex x - 1) with 0 by (by rewrite Hi). cbn [pindex set_pindex set_parents Z.eqb]. destruct Hr as [Hir Hf]. rewrite Hir.
    destruct (walks_shift x _ [] [] None Hx) as (Hx0 & Hpos & Hvcn). rewrite (@zlen_nil step) in Hpos, Hvcn. cbn [fst snd] in *.
    unfold ntfs_icx_parent_pos. cbn [set_in_root set_ib parent_pos pindex set_pindex set_parents]. rewrite Hpos. cbn [mbind option_bind].
    destruct Hroot as (eo & pre & post & Hparts). pose proof (ir_node _ _ _ _ _ _ _ _ Hparts) as Hn. rewrite (node_by_pos Hn s1 (e, Some c) s2 Esl). cbn [mbind option_bind].
    eexists _, _, _, e, xr. split; [reflexivity|]. split; [done|]. split; [done|].
    assert (d = S k) as Ed by (unfold height in Hh; cbn in Hh; lia).
    eapply (position_root _ _ s1 (e, Some c) s2 _ _ vr xr eo); try done.
    + destruct Hx0. by split.
    + rewrite Ed. exact (left_seq k s1 e c vl xl vc xc H1 Ht).
    + rewrite Ed. exact H2.
    + exact (na_entries _ _ _ _ _ _ Hn).
    + by rewrite (na_pre _ _ _ _ _ _ Hn).
  - assert (0 < zlen p) as Hp0 by (pose proof (path_ne _ _ _ _ _ _ _ _ _ _ _ H0); destruct p; [done | rewrite zlen_cons; pose proof (zlen_nonneg p); lia]).
    rewrite zlen_cons in Hp. replace (pindex x - 1) with (zlen p) by (rewrite Hi, zlen_cons; lia). cbn [pindex set_pindex set_parents]. rewrite (proj2 (Z.eqb_neq _ _)) by lia.
    assert (forall b e, walks (set_position (set_ib (set_pindex x (zlen p)) b) e) p) as Hx0 by (intros b0 e0; by apply (walks_shift x (v, s1) p b0 e0)).
    destruct (walks_shift x _ p [] None Hx) as (_ & Hpos & Hvcn). cbn [fst snd] in *.
    unfold ntfs_icx_parent_vcn. cbn [pindex parent_vcn set_pindex set_parents]. rewrite Hvcn. cbn [mbind option_bind].
    assert (ia_na x = true) as Ho by (destruct Hx as [_ _ _ [H|H]]; [unfold height in Hh; cbn in Hh; lia | done]).
    destruct (next_read_ok ni (set_pindex x (zlen p)) true v b _ Hr (wk_sized _ _ (Hx0 [] None)) Ho Hb) as (ni1 & -> & Hr1). cbn [mbind option_bind].
    unfold ntfs_icx_parent_pos. cbn [pindex parent_pos set_pindex set_parents]. rewrite Hpos. cbn [mbind option_bind].
    pose proof Hb as (_ & _ & (eo & pre & post & [Hn _ _ _])). unfold IB_INDEX. rewrite (node_by_pos Hn s1 (e, Some c) s2 eq_refl), (na_pre _ _ _ _ _ _ Hn). cbn [mbind option_bind].
    destruct (slot_facts _ _ _ _ _ _ _ _ Hn) as (fl & -> & _ & Hend & _). cbn [mbind option_bind]. rewrite Hend. cbn [set_position set_ib pindex set_pindex set_parents].
    rewrite (proj2 (Z.ltb_lt 0 (zlen p))) by lia. cbn [andb]. destruct s2 as [|t s2]; cbn [bool_decide].
    + destruct (node_tree k v b s1 e c [] vl xl vc xc _ _ Hb H1 Ht H2) as (? & ? & _ & Htv). inversion H2; subst. destruct ys as [|y [|]]; try done. injection Ey as ->.
      destruct (IH (ltac:(unfold height in *; cbn in *; lia)) (ltac:(eapply leaves_part; [exact Hfull|]; intros u Hu; in_blocks)) fuel ni1 (set_position (set_ib (set_pindex x (zlen p)) b) (Some (24 + eo + zlen (enc_slots s1)))) _ _ Htv) as
        (ni' & x' & ie' & e' & ys & E & Hr' & -> & Hpos'); [cbn in Hfuel; lia | done | apply Hx0 | done | lia |].
      exists ni', x', ie', e', ys. done.
    + destruct (exists_last (l := xr)) as (ys' & zb' & ->); [by intros ->; apply seq_nonempty in H2|].
      rewrite app_comm_cons in Ey. apply app_inj_tail in Ey as [<- <-].
      eexists _, _, _, e, (ys' ++ xr0). split; [reflexivity|]. split; [done|]. split; [done|].
      eapply (position_block _ _ (S k) p v b s1 (e, Some c) (t :: s2) vl0 vr0 xl0 xr0 _ _ vr ys' zb' eo); try done.
      * unfold height in *. cbn [length] in *. lia.
      * exact (left_seq k s1 e c vl xl vc xc H1 Ht).
      * lia.
      * exact (na_entries _ _ _ _ _ _ Hn).
Qed.

Lemma path_after k (p : list step) c vl vr (xl xr : list ent) : path bs q f sl k p c vl vr xl xr -> xr <> [].
Proof using. induction 1 as [|k p v vl0 vr0 xl0 xr0 b s1 e c s2 vl vr xl xr ys z _ IH _ _ _ _]; [done|]. by destruct ys. Qed.

(** The node of a position, in memory. *)
Lemma position_node ni x ie e post : reads ni -> position x ie e post ->
  exists buf h eo pre (s1 : list slot) (s : slot) (s2 : list slot) post', node_buf ni x = Some buf /\ node_at buf h eo pre (s1 ++ s :: s2) post' /\
    ie = h + eo + zlen (enc_slots s1) /\ e = s.1 /\ (s2 = [] <-> post = []).
Proof using All.
  intros [Hir _] [s1 s s2 v1 ws v2 ys eo Hx Hin Hi _ Hpos Esl _ Hs2 _ Heo ->|
    k p c b s1 s s2 vl vr xl xr v1 ws v2 ys zb eo Hp _ Hb Hne _ Hs2 _ Hx Hin Hib _ _ _ _ Heo ->].
  - destruct Hroot as (eo' & pre & rest & Hparts). pose proof (ir_node _ _ _ _ _ _ _ _ Hparts) as Hn. rewrite (na_entries _ _ _ _ _ _ Hn) in Heo. injection Heo as ->.
    rewrite Esl in Hn. exists ir, IR_INDEX, eo, pre, s1, s, s2, rest. unfold node_buf. rewrite Hin, Hir. split_and!; try done.
    split; [intros ->; by inversion Hs2 | intros ->; destruct s2; [done | by apply seq_nonempty in Hs2]].
  - pose proof Hb as (_ & _ & (eo' & pre & rest & [Hn _ _ _])). change 24 with IB_INDEX in Hn. rewrite (na_entries _ _ _ _ _ _ Hn) in Heo. injection Heo as ->.
    exists b, IB_INDEX, eo, pre, s1, s, s2, rest. unfold node_buf. rewrite Hin, Hib. split_and!; try done.
    split; [done|]. intros [_ E]%app_nil. by apply path_after in Hp.
Qed.

Lemma position_end ni x ie e post : reads ni -> position x ie e post -> exists buf fl, node_buf ni x = Some buf /\ ie_flags buf ie = Some fl /\
  flag fl INDEX_ENTRY_END = bool_decide (post = []).
Proof using All.
  intros Hr Hpos. destruct (position_node _ _ _ _ _ Hr Hpos) as (buf & h & eo & pre & s1 & s & s2 & post' & Hbuf & Hn & -> & _ & Hiff).
  destruct (slot_facts _ _ _ _ _ _ _ _ Hn) as (fl & Hfl & _ & Hend & _). exists buf, fl. split_and!; [done | done |]. rewrite Hend.
  by apply bool_decide_ext.
Qed.

(** What follows in the same node. *)
Lemma walks_step x (p : list step) n : walks x p -> pindex x = zlen p -> zlen p < 32 -> exists x1, store_pos x n = Some x1 /\ walks x1 p /\ pindex x1 = zlen p /\
  (parent_pos x1).[zlen p] = Some n /\ parent_vcn x1 = parent_vcn x /\ is_in_root x1 = is_in_root x /\ ib x1 = ib x /\ ia_na x1 = ia_na x.
Proof using.
  intros [[Hlp Hsp] Hv Hz Ho] Hi Hp. pose proof (zlen_nonneg p). destruct (zset_keeps (parent_pos x) (zlen p) n) as (a1 & E1 & L1 & G1); [lia|].
  unfold store_pos. rewrite Hi, E1. cbn [mbind option_bind]. eexists. split; [reflexivity|]. split; [|done]. split; cbn; [split; [lia|] | done | done | done].
  by eapply steps_pos_zset.
Qed.

(** The end of ntfs_index_next. *)
Definition next_result ni' x' (r : option Z) (post : list ent) : Prop :=
  reads ni' /\ match post with [] => False | [_] => r = None | e :: post => exists ie', r = Some ie' /\ position x' ie' e post end.

Lemma next_done ni' x' ie' e post : reads ni' -> position x' ie' e post -> exists ni2 x2 r,
  (buf ← node_buf ni' x'; fl ← ie_flags buf ie'; Some (ni', x', if flag fl INDEX_ENTRY_END then None else Some ie')) = Some (ni2, x2, r) /\
  next_result ni2 x2 r (e :: post).
Proof using All.
  intros Hr Hpos. destruct (position_end _ _ _ _ _ Hr Hpos) as (buf & fl & Hb & Hf & Hend).
  rewrite Hb. cbn [mbind option_bind]. rewrite Hf. cbn [mbind option_bind]. eexists _, _, _. split; [reflexivity|].
  rewrite Hend. split; [done|]. destruct post as [|e' post]; [done|]. cbn. by exists ie'.
Qed.

Lemma index_next_ok ni x ie e post : reads ni -> position x ie e post -> post <> [] -> (d <= 31)%nat ->
  exists ni' x' r, ntfs_index_next malloc ni x ie = Some (ni', x', r) /\ next_result ni' x' r post.
Proof using All.
  intros Hr Hpos Hpost Hd. unfold ntfs_index_next. destruct (position_end _ _ _ _ _ Hr Hpos) as (buf & fl & Hbuf & Hfl & Hend). rewrite Hbuf. cbn [mbind option_bind].
  rewrite Hfl. cbn [mbind option_bind]. rewrite Hend, bool_decide_eq_false_2 by done. clear fl Hfl Hend.
  destruct Hpos as [s1 s s2 v1 ws v2 ys eo Hx Hin Hi Hpv Hpos Esl Hs1 Hs2 Hfull Heo ->|
    k p c b s1 s s2 vl vr xl xr v1 ws v2 ys zb eo Hp Hh Hb Hne Hs1 Hs2 Hfull Hx Hin Hib Hi Hp32 Hpv Hpos Heo ->].
  - destruct s2 as [|t s2]; [by inversion Hs2; subst|]. pose proof Hroot as (eo' & pre & rest & Hparts). pose proof (ir_node _ _ _ _ _ _ _ _ Hparts) as Hn.
    rewrite (na_entries _ _ _ _ _ _ Hn) in Heo. injection Heo as ->. unfold node_buf in Hbuf. rewrite Hin, (proj1 Hr) in Hbuf. injection Hbuf as <-.
    pose proof (ir_uniform _ _ _ _ _ _ _ _ Hparts) as Hu. rewrite Esl in Hn, Hu. destruct (slot_facts _ _ _ _ _ _ _ _ Hn) as (_ & _ & _ & _ & -> & _). cbn [mbind option_bind].
    unfold ntfs_icx_parent_pos. rewrite Hi, Hpos. cbn [mbind option_bind].
    destruct (walks_step x [] (zlen s1 + 1) Hx Hi) as (x1 & -> & Hx1 & Hi1 & Hp1 & Hv1 & Hin1 & _ & Ho1); [done|]. cbn [mbind option_bind].
    rewrite <-(zlen_snoc s1 s) in Hp1. rewrite Hin in Hin1. rewrite <-Hv1 in Hpv.
    replace (s1 ++ s :: t :: s2) with ((s1 ++ [s]) ++ t :: s2) in Hn, Hu, Esl by (by rewrite <-app_assoc).
    destruct (slot_facts _ _ _ _ _ _ _ _ Hn) as (fl & -> & Hnode & Hend & _ & Hvcn & _). cbn [mbind option_bind]. rewrite Hnode, Hend.
    apply uniform_app in Hu as [_ Hu]. apply uniform_cons in Hu as [Hu _]. rewrite Hu. apply seq_cons in Hs2 as (vc & xc & v3 & x3 & Hc & Hs3 & -> & ->).
    assert (seq_of (kids bs q f d) ((s1 ++ [s]) ++ [t]) (v1 ++ vc) (ws ++ xc ++ [t.1])) as Hs1t.
    { apply seq_app. exists v1, ws, vc, (xc ++ [t.1]). split_and!; [done | | done | done]. apply seq_1. by exists xc. }
    assert (inner d = true \/ inner d = false) as [Ein|Ein] by (destruct (inner d); auto); rewrite Ein in Hu |- *.
    + destruct (inner_S _ Ein) as [k Ed]. rewrite Ed in Hs1, Hs3, Hc. apply bool_decide_eq_true in Hu as [v Hv]. rewrite Hv in Hc, Hvcn. specialize (Hvcn v eq_refl).
      destruct t as [et ct]. cbn [fst snd] in *. subst ct.
      destruct (walk_down_ok k (S (Z.to_nat MAX_PARENT_VCN)) ni x1 (IR_INDEX + eo + zlen (enc_slots (s1 ++ [s]))) ir [(VCN_INDEX_ROOT_PARENT, s1 ++ [s])] v v1 v3 ws (et :: x3) vc xc) as
        (ni' & x' & ie' & e' & ys & E & Hr' & -> & Hpos'); try done.
      * unfold MAX_PARENT_VCN. lia.
      * unfold node_buf. by rewrite Hin1, (proj1 Hr).
      * by eapply path_root.
      * unfold height. cbn. lia.
      * destruct Hx1 as [[? ?] [? ?] ? ?]. split; [by split_and!.. | done | done].
      * rewrite Ho1. destruct Hx as [_ _ _ [H|H]]; [lia | done].
      * change (zlen [(VCN_INDEX_ROOT_PARENT, s1 ++ [s])]) with 1. lia.
      * unfold ntfs_index_walk_down. rewrite E. cbn [mbind option_bind]. by apply next_done.
    + apply bool_decide_eq_false, eq_None_not_Some in Hu. rewrite Hu in Hc. destruct Hc as [-> ->]. destruct s2 as [|t' s2]; cbn [bool_decide].
      * unfold ntfs_index_walk_up. rewrite Hi1. cbn [Z.ltb zlen]. inversion Hs3; subst. eexists _, _, _. split; [reflexivity|]. done.
      * cbn [mbind option_bind]. apply next_done; [done|]. eapply (position_root _ _ (s1 ++ [s]) t (t' :: s2)); try done. exact (na_entries _ _ _ _ _ _ Hn).
  - destruct s2 as [|t s2]; [done|]. pose proof Hb as (_ & _ & (eo' & pre & rest & [Hn _ _ Hu])). change 24 with IB_INDEX in Hn.
    rewrite (na_entries _ _ _ _ _ _ Hn) in Heo. injection Heo as ->. unfold node_buf in Hbuf. rewrite Hin, Hib in Hbuf. injection Hbuf as <-.
    destruct (slot_facts _ _ _ _ _ _ _ _ Hn) as (_ & _ & _ & _ & -> & _). cbn [mbind option_bind].
    unfold ntfs_icx_parent_pos. rewrite Hi, Hpos. cbn [mbind option_bind].
    destruct (walks_step x p (zlen s1 + 1) Hx Hi Hp32) as (x1 & -> & Hx1 & Hi1 & Hp1 & Hv1 & Hin1 & Hib1 & Ho1). cbn [mbind option_bind].
    rewrite <-(zlen_snoc s1 s) in Hp1. rewrite Hin in Hin1. rewrite <-Hv1 in Hpv.
    replace (s1 ++ s :: t :: s2) with ((s1 ++ [s]) ++ t :: s2) in Hn, Hu, Hb by (by rewrite <-app_assoc).
    destruct (slot_facts _ _ _ _ _ _ _ _ Hn) as (fl & -> & Hnode & Hend & _ & Hvcn & _). cbn [mbind option_bind]. rewrite Hnode, Hend.
    apply uniform_app in Hu as [_ Hu]. apply uniform_cons in Hu as [Hu _]. rewrite Hu. pose proof Hs2 as Hs2'. apply seq_cons in Hs2 as (vc & xc & v3 & x3 & Hc & Hs3 & -> & Ey).
    destruct (exists_last (l := t.1 :: x3)) as (zs & zb' & Ez); [done|]. rewrite Ez, app_assoc in Ey. apply app_inj_tail in Ey as [-> <-].
    assert (0 < zlen p) as Hp0 by (pose proof (path_ne _ _ _ _ _ _ _ _ _ _ _ Hp); destruct p; [done | rewrite zlen_cons; pose proof (zlen_nonneg p); lia]).
    destruct k as [|k]; cbn [inner kids] in *.
    + apply bool_decide_eq_false, eq_None_not_Some in Hu. rewrite Hu in Hc. destruct Hc as [-> ->]. destruct s2 as [|t' s2]; cbn [bool_decide].
      * inversion Hs3; subst. destruct zs as [|? [|]]; try done. 
        assert (exists vx xs', tree bs q f 0 c vx xs') as (vx & xs' & Ht).
        { exists [c], ws. apply tree_unfold. exists (ib x), ((s1 ++ [s]) ++ [t]), [], t.1. split_and!; [done | done |].
          pose proof Hs1 as Hs1'. apply seq_leaf_fst in Hs1' as [-> ->]. apply seq_app. eexists [], _, [], [t.1]. split_and!; [exact Hs1 | | done | done].
          apply seq_1. exists []. by rewrite Hu. }
        unfold ntfs_index_walk_up. rewrite Hi1, (proj2 (Z.ltb_lt 0 (zlen p))) by lia.
        destruct (walk_up_ok 0 p c vl vr xl xr Hp Hh (leaves_part _ _ Hfull (fun u Hu => Hu)) (Z.to_nat (zlen p)) ni x1 vx xs' Ht) as
          (ni' & x' & ie' & e' & ys & E & Hr' & -> & Hpos'); [unfold zlen; lia | done | done | done | done |].
        rewrite E. cbn [mbind option_bind app]. by apply next_done.
      * destruct zs as [|? zs]; [injection Ez as _ Ez; by apply seq_nonempty in Hs3|]. injection Ez as <- Ez. cbn [mbind option_bind]. cbn [app]. apply next_done; [done|].
        eapply (position_block _ _ 0 p c b (s1 ++ [s]) t (t' :: s2) vl vr xl xr); try done; [| |by rewrite Hib1|].
        -- apply seq_app. eexists _, _, _, _. split_and!; [exact Hs1 | | reflexivity | reflexivity]. apply seq_1. exists []. by rewrite Hu.
        -- by rewrite <-Ez.
        -- exact (na_entries _ _ _ _ _ _ Hn).
    + apply bool_decide_eq_true in Hu as [v Hv]. rewrite Hv in Hc, Hvcn. specialize (Hvcn v eq_refl). cbn [child_of] in Hc.
      destruct t as [et ct]. cbn [fst snd] in *. subst ct.
      assert (path bs q f sl k ((c, s1 ++ [s]) :: p) v (vl ++ c :: v1) (v3 ++ vr) (xl ++ ws) (zs ++ xr)) as Hp' by (by eapply path_node).
      destruct (walk_down_ok k (S (Z.to_nat MAX_PARENT_VCN)) ni x1 (IB_INDEX + eo + zlen (enc_slots (s1 ++ [s]))) b ((c, s1 ++ [s]) :: p) v (vl ++ c :: v1) (v3 ++ vr) (xl ++ ws) (zs ++ xr) vc xc) as
        (ni' & x' & ie' & e' & ys & E & Hr' & -> & Hpos'); try done.
      * unfold MAX_PARENT_VCN. unfold height in Hh. lia.
      * unfold node_buf. by rewrite Hin1, Hib1, Hib.
      * unfold height in *. cbn [length]. lia.
      * eapply leaves_part; [exact Hfull|]. intros u Hu'. in_blocks.
      * destruct Hx1 as [[? ?] [? ?] ? ?]. split; [by split_and!.. | done | done].
      * rewrite Ho1. destruct Hx as [_ _ _ [H|H]]; [unfold height in Hh; lia | done].
      * rewrite zlen_cons. lia.
      * by rewrite Hin1.
      * rewrite zlen_cons. unfold height in Hh. unfold zlen in *. lia.
      * unfold ntfs_index_walk_down. rewrite E. cbn [mbind option_bind]. rewrite <-app_assoc. by apply next_done.
Qed.

(** *** To the end *)

Lemma slot_wf m h eo pre (s1 : list slot) (s : slot) (s2 : list slot) post : node_at m h eo pre (s1 ++ s :: s2) post -> s2 <> [] -> wf_slot false s.
Proof using.
  intros Hn Hne. pose proof (na_slots _ _ _ _ _ _ Hn) as Hw. rewrite wf_slots_app in Hw by done. destruct Hw as [_ Hw].
  destruct s2 as [|t s2]; [done|]. by apply wf_slots_cons in Hw as [Hw _].
Qed.

Lemma slot_key {collate : COLLATE} `{!KeyOrder collate} m h eo pre (s1 : list slot) (s : slot) (s2 : list slot) post : node_at m h eo pre (s1 ++ s :: s2) post -> s2 <> [] ->
  good_key collate s.1 -> zread m (ie_key (h + eo + zlen (enc_slots s1))) (e_klen s.1) = Some (e_key s.1).
Proof using.
  intros Hn Hne Hg. pose proof (slot_wf _ _ _ _ _ _ _ _ Hn Hne) as Hs. rewrite <-(na_pre _ _ _ _ _ _ Hn), (node_slot Hn s1 s s2 eq_refl).
  rewrite <-zlen_app. destruct (key_in_memory collate s (pre ++ enc_slots s1) (enc_slots s2 ++ post) Hs Hg) as (t & Hd & Hl).
  rewrite zread_inside, Hd; [| | | ].
  - f_equal. rewrite take_app_length' by (unfold zlen in Hl; lia). done.
  - unfold ie_key. pose proof (zlen_nonneg (pre ++ enc_slots s1)). lia.
  - apply (we_klen _ _ (proj1 Hs)).
  - destruct (enc_len_range _ s Hs) as [_ He], Hg as [_ Hg]. unfold ie_key. rewrite (zlen_app (pre ++ _)), (zlen_app (enc s)), He.
    unfold enc_len. pose proof (zlen_nonneg (enc_slots s2 ++ post)). pose proof (zlen_nonneg (vcn_bytes s.2)). lia.
Qed.

Lemma keys_from_ok {collate : COLLATE} `{!KeyOrder collate} z (t : list ent) : forall fuel ni x ie e, (length t < fuel)%nat -> (d <= 31)%nat -> reads ni -> position x ie e (t ++ [z]) ->
  Forall (good_key collate) (e :: t) -> keys_from malloc fuel ni x ie = Some (e_key <$> e :: t).
Proof using All.
  induction t as [|e1 t IH]; intros [|fuel] ni x ie e Hfuel Hd Hr Hpos Hg; try lia; cbn [keys_from].
  all: destruct (position_node _ _ _ _ _ Hr Hpos) as (buf & h & eo & pre & s1 & s & s2 & post & -> & Hn & -> & -> & Hiff).
  all: cbn [mbind option_bind]; destruct (slot_facts _ _ _ _ _ _ _ _ Hn) as (_ & _ & _ & _ & _ & _ & ->); cbn [mbind option_bind].
  all: rewrite (slot_key (collate := collate) _ _ _ _ _ _ _ _ Hn); [| by intros E; apply Hiff in E; try destruct t | by apply Forall_inv in Hg]; cbn [mbind option_bind].
  all: edestruct (index_next_ok ni x _ _ _ Hr Hpos) as (ni' & x' & r & -> & Hr' & Hres); [by try destruct t | done |]; cbn [mbind option_bind].
  - cbn in Hres. by subst r.
  - cbn [app] in Hres. destruct (t ++ [z]) as [|y ys] eqn:Ey; [by destruct t|]. destruct Hres as (ie' & -> & Hpos').
    apply Forall_inv_tail in Hg. rewrite (IH fuel _ _ _ _ (ltac:(cbn in Hfuel; lia)) Hd Hr' Hpos' Hg). done.
Qed.
End walk.

(** ** Enumeration *)

Section enumerate.
Context {R A : Type} `{!AttrOps A, !AttrResize A, !RootOps R A, !AttrLaws A, !AttrReliable A, !AttrGrowLaws A, !RootLaws R A}.
Context (bs vb q : Z) (malloc : Z -> bool) (fresh : list Z) (rule : Z).
Context (memcmp : list Z -> list Z -> Z) (upcase : list Z) (upcase_len cluster_size cluster_size_bits : Z).
Context {collate : COLLATE} `{!KeyOrder collate}.
Hypothesis Hcol : ntfs_get_collate_function memcmp upcase upcase_len rule = Some collate.
Implicit Types (ni : inode R A) (x : context).
Abbreviation valid := (valid bs vb q rule (collate := collate)).
Abbreviation fetch_of := (fetch_of bs vb).

(** From the root of an index that has blocks, with no attribute open, there is no next entry. *)
Lemma next_stuck ni x ir sl (s1 : list slot) (s : slot) (s2 : list slot) eo v : ir_value (root ni) = Ok ir -> iroot bs rule true ir sl -> sl = s1 ++ s :: s2 -> s2 <> [] ->
  entries_offset ir IR_INDEX = Some eo -> is_in_root x = true -> ia_na x = false -> (parent_pos x).[0] = Some (zlen s1) ->
  follows x [] v -> exists x', ntfs_index_next malloc ni x (IR_INDEX + eo + zlen (enc_slots s1)) = Some (ni, x', None).
Proof using.
  intros Hir (eo' & pre & post & Hparts) Esl Hne Heo Hin Ha Hpos [[Hp _] [Hv _] [Hi _] _]. pose proof (ir_node _ _ _ _ _ _ _ _ Hparts) as Hn.
  rewrite (na_entries _ _ _ _ _ _ Hn) in Heo. injection Heo as ->. pose proof (ir_uniform _ _ _ _ _ _ _ _ Hparts) as Hu. rewrite Esl in Hn, Hu.
  unfold ntfs_index_next, node_buf. rewrite Hin, Hir. cbn [mbind option_bind].
  destruct (slot_facts _ _ _ _ _ _ _ _ Hn) as (fl & -> & _ & Hend & -> & _). cbn [mbind option_bind]. rewrite Hend, bool_decide_eq_false_2 by done.
  change (pindex x = 0) in Hi. unfold ntfs_icx_parent_pos. rewrite Hi, Hpos. cbn [mbind option_bind].
  destruct (zset_keeps (parent_pos x) 0 (zlen s1 + 1)) as (a1 & E1 & L1 & _); [lia|]. unfold store_pos. rewrite Hi, E1. cbn [mbind option_bind].
  destruct s2 as [|t s2]; [done|]. replace (s1 ++ s :: t :: s2) with ((s1 ++ [s]) ++ t :: s2) in Hn, Hu by (by rewrite <-app_assoc).
  destruct (slot_facts _ _ _ _ _ _ _ _ Hn) as (fl' & -> & Hnode & _ & _ & Hvcn & _). cbn [mbind option_bind]. rewrite Hnode.
  apply uniform_app in Hu as [_ Hu]. apply uniform_cons in Hu as [Hu _]. rewrite Hu. apply bool_decide_eq_true in Hu as [c Hc].
  unfold ntfs_index_walk_down. cbn [walk_down]. unfold node_buf. cbn [is_in_root set_parents]. rewrite Hin, Hir. cbn [mbind option_bind].
  rewrite (Hvcn c Hc). cbn [mbind option_bind].
  destruct (zset_keeps a1 1 0) as (a2 & E2 & L2 & _); [lia|]. unfold store_pos. cbn [parent_pos set_pindex set_parents set_ib pindex]. rewrite E2. cbn [mbind option_bind].
  destruct (zset_keeps (parent_vcn x) 1 c) as (a3 & E3 & L3 & _); [lia|]. unfold store_vcn. cbn [parent_vcn set_pindex set_parents set_ib pindex]. rewrite E3. cbn [mbind option_bind].
  unfold next_read. cbn [ia_na set_parents set_pindex set_ib]. rewrite Ha. cbn [andb mbind option_bind]. by eexists.
Qed.

(** The sequence of a node, before and after a slot that is not the end. *)
Lemma split_seq T (s1 : list slot) (s : slot) (s2 : list slot) vs (xs : list ent) z : seq_of T (s1 ++ s :: s2) vs (xs ++ [z]) -> s2 <> [] ->
  exists v1 ws v2 t, seq_of T (s1 ++ [s]) v1 (ws ++ [s.1]) /\ seq_of T s2 v2 (t ++ [z]) /\ vs = v1 ++ v2 /\ xs = ws ++ s.1 :: t.
Proof using.
  replace (s1 ++ s :: s2) with ((s1 ++ [s]) ++ s2) by (by rewrite <-app_assoc). intros (v1 & w1 & v2 & w2 & H1 & H2 & -> & E)%seq_app Hne.
  destruct (seq_last _ _ _ _ _ H1) as (ws & ->). destruct s2 as [|t s2]; [done|]. destruct (exists_last (seq_nonempty _ _ _ _ _ H2)) as (w & z' & ->).
  rewrite app_assoc in E. apply app_inj_tail in E as [-> ->]. exists v1, ws, v2, w. split_and!; [done | done | done |]. by rewrite <-app_assoc.
Qed.

(** No leaf among the blocks is empty. *)
Definition leaves_not_empty ni (vs : list Z) : Prop :=
  forall v b es, In v vs -> block_at bs q (fetch_of ni) v false b es -> (2 <= length es)%nat.

Lemma leaves_app ni v1 v2 : leaves_not_empty ni (v1 ++ v2) -> leaves_full bs q (fetch_of ni) v2.
Proof using. intros H v b es Hv. apply H. apply in_app_iff. by right. Qed.

(** The root has the entry. *)
Definition in_root ni (d : nat) (e : ent) : Prop :=
  exists ir (s1 : list slot) (s : slot) (s2 : list slot), ir_value (root ni) = Ok ir /\ iroot bs rule (inner d) ir (s1 ++ s :: s2) /\ s2 <> [] /\ s.1 = e.

(** What comes after the entry that was found: all that follow it; but from one in the root of an index that has blocks nothing, for the blocks are not open. *)
Lemma next_from_found ni x key kt d vs xs z : environment (A := A) (R := R) bs vb q malloc fresh cluster_size cluster_size_bits -> valid ni d vs xs z ->
  leaves_not_empty ni vs -> valid_key collate key -> 0 < zlen key -> unused x -> ia_na x = false -> (d <= 31)%nat ->
  (exists e, In e xs /\ key_cmp collate key (e_key e) = 0) ->
  exists ni' x' ie l e t, ntfs_index_lookup malloc memcmp upcase upcase_len cluster_size cluster_size_bits ni x (key ++ kt) (zlen key) = Some (ni', x', Ok tt) /\
    entry x' = Some ie /\ xs = l ++ e :: t /\ key_cmp collate key (e_key e) = 0 /\ (is_in_root x' = true -> in_root ni d e) /\
    keys_from malloc (S (length t)) ni' x' ie = Some (if is_in_root x' && inner d then [e_key e] else e_key <$> e :: t).
Proof using All.
  intros [G Hvb _ _ Hm] [(ir & sl & [[Hv Hr] Hs _ _]) Ho Hg _] Hfull Hk Hk0 Hx Hia Hd (e0 & Hin0 & Hc0).
  destruct (index_lookup_ok bs vb q G malloc Hk (kt := kt) Ho Hg memcmp upcase upcase_len cluster_size cluster_size_bits ni x ir rule d Hv Hr eq_refl Hs Hcol Hvb Hx Hk0 Hm) as
    (ni' & x' & r & E & Hroot' & Hbm & Hf & Hsz & Hres).
  assert (reads bs vb (fetch_of ni) ir ni') as Hreads by (split; [by rewrite Hroot' | done]).
  destruct Hres as [(Hin & -> & Ha & Hout)|[Hout|(_ & Hdeep)]]; [| |lia].
  - destruct Hout as [s1 s s2 eo Esl Hs2 E0 Hin' _ Hfo Hpp Heo Hent|s1 s2 eo ys _ _ _ Exs Hb Hab _ _]; [|by edestruct not_between; [exact Hb | exact Hab | rewrite <-Exs; exact Hin0 | exact Hc0]].
    pose proof Hs as Hs'. rewrite Esl in Hs'. apply split_seq in Hs' as (v1 & ws & v2 & t & H1 & H2 & -> & ->); [|done].
    eexists ni, x', _, ws, s.1, t. split_and!; [exact E | exact Hent | done | exact E0 | intros _; exists ir, s1, s, s2; by rewrite <-Esl |]. rewrite Hin. cbn [andb].
    apply Forall_app in Hg as [_ Hg]. destruct d as [|d]; cbn [inner] in *.
    + eapply (keys_from_ok bs vb q G malloc rule Hm (fetch_of ni) 0 ir sl Hr z t); [lia | lia | done | | exact Hg].
      destruct Hfo as [[? ?] [? ?] [Hi ?] Hhere]. rewrite Hi in Hhere. eapply (position_root _ _ _ _ _ _ _ _ _ s1 s s2); try done.
      * split; try done. by left.
      * by apply (leaves_app ni v1).
    + destruct (next_stuck ni x' ir sl s1 s s2 eo VCN_INDEX_ROOT_PARENT Hv Hr Esl Hs2 Heo Hin) as (x2 & Hn); [by rewrite Ha | done | exact Hfo |].
      cbn [keys_from]. unfold node_buf. rewrite Hin, Hv. cbn [mbind option_bind].
      destruct Hr as (eo' & pre & post & Hparts). pose proof (ir_node _ _ _ _ _ _ _ _ Hparts) as Hnode. rewrite (na_entries _ _ _ _ _ _ Hnode) in Heo. injection Heo as ->.
      rewrite Esl in Hnode. destruct (slot_facts _ _ _ _ _ _ _ _ Hnode) as (_ & _ & _ & _ & _ & _ & ->). cbn [mbind option_bind].
      rewrite (slot_key _ _ _ _ _ _ _ _ Hnode Hs2 (Forall_inv Hg)). cbn [mbind option_bind]. by rewrite Hn.
  - destruct Hout as [d' p c b s1 s s2 vl vr xl xr Hst Hs2 E0 Hin' _ Hhere Hpp|p c b s1 s2 vl vr xl ys y zs _ _ _ Exs Hb Hab];
      [|by edestruct not_between; [exact Hb | exact Hab | rewrite <-Exs; exact Hin0 | exact Hc0]].
    destruct Hst as [Hp Hb Hfo (Hin & Hib & Hopen) (eo & Heo & Hent)]. destruct Hhere as (v0 & xc & z0 & Hs0 & Evs & Exs & Hh).
    apply split_seq in Hs0 as (v1 & ws & v2 & ys & H1 & H2 & -> & ->); [|done].
    destruct (exists_last (path_after _ _ _ _ _ _ _ _ _ _ _ Hp)) as (t & zz & ->). rewrite !app_assoc in Exs. apply app_inj_tail in Exs as [-> ->].
    exists ni', x', (IB_INDEX + eo + zlen (enc_slots s1)), (xl ++ ws), s.1, (ys ++ t). rewrite Hin. cbn [andb].
    split_and!; [exact E | exact Hent | by rewrite <-!app_assoc | exact E0 | done |].
    eapply (keys_from_ok bs vb q G malloc rule Hm (fetch_of ni) d ir sl Hr zz (ys ++ t)); [lia | lia | done | |].
    + rewrite <-app_assoc. destruct Hfo as [[? ?] [? ?] [Hi ?] Hhere]. rewrite Hi in Hhere.
      eapply (position_block _ _ _ _ _ _ _ _ _ d' p c b s1 s s2 vl vr xl (t ++ [zz]) _ _ v2 ys z0 eo); try done.
      * apply (leaves_app ni (vl ++ c :: v1)). intros v b' es Hv'. apply Hfull. rewrite Evs. clear -Hv'. in_blocks.
      * split; try done. by right.
    + rewrite <-!app_assoc in Hg. do 2 apply Forall_app in Hg as [_ Hg]. exact Hg.
Qed.

(** C31: in an index without empty leaves, after a successful ntfs_index_lookup, of a key that is not in the root of an index with blocks, repeated ntfs_index_next gives the keys
    from the one found to the last, each once and in order. *)
Theorem ntfs_index_next_enumerates ni x key kt d vs xs z : environment (A := A) (R := R) bs vb q malloc fresh cluster_size cluster_size_bits -> valid ni d vs xs z ->
  leaves_not_empty ni vs -> valid_key collate key -> 0 < zlen key -> unused x -> ia_na x = false -> (d <= 31)%nat ->
  (exists e, In e xs /\ key_cmp collate key (e_key e) = 0) -> (d = 0%nat \/ forall e, in_root ni d e -> key_cmp collate key (e_key e) <> 0) ->
  exists ni' x' ie l e t, ntfs_index_lookup malloc memcmp upcase upcase_len cluster_size cluster_size_bits ni x (key ++ kt) (zlen key) = Some (ni', x', Ok tt) /\
    entry x' = Some ie /\ xs = l ++ e :: t /\ key_cmp collate key (e_key e) = 0 /\ keys_from malloc (S (length t)) ni' x' ie = Some (e_key <$> e :: t).
Proof using All.
  intros Henv Hva Hle Hk Hk0 Hx Hia Hd He Hroot. destruct (next_from_found ni x key kt d vs xs z Henv Hva Hle Hk Hk0 Hx Hia Hd He) as (ni' & x' & ie & l & e & t & E & Hie & Exs & Hc & Hin & Hkeys).
  exists ni', x', ie, l, e, t. split_and!; try done. rewrite Hkeys. destruct (is_in_root x'); [|done]. destruct Hroot as [->|Hroot]; [done|].
  by destruct (Hroot e (Hin eq_refl)).
Qed.
End enumerate.

(** ** In a small index *)

Lemma ntfs_index_next_enumerates_witness : exists ni' x' ie,
  ntfs_index_lookup (fun _ => true) (fun _ _ => 0) [] 0 512 9 two_levels ntfs_index_ctx_get (le_encode 4 8) 4 = Some (ni', x', Ok tt) /\ entry x' = Some ie /\
  keys_from (fun _ => true) 12 ni' x' ie = Some (e_key <$> small_keys 8 12).
Proof.
  assert (key_cmp ntfs_collate_ntofs_ulong (le_encode 4 8) (e_key (small_ent 8)) = 0) as Hc8 by done.
  destruct (ntfs_index_next_enumerates 512 9 1 (fun _ => true) (replicate 8 0) COLLATION_NTOFS_ULONG (fun _ _ => 0) [] 0 512 9 eq_refl
    two_levels ntfs_index_ctx_get (le_encode 4 8) [] 1 [0; 1] (small_keys 1 19) end_ent) as (ni' & x' & ie & l & e & t & E & Hie & Exs & Hc & Hk);
    [exact small_environment | exact two_valid | intros v b es Hv Hb; rewrite (two_leaf_length v b es Hv Hb); lia | done | done | done | done | lia | | |].
  - exists (small_ent 8). split; [|exact Hc8]. apply (in_app_iff (small_keys 1 7)). right. by left.
  - right. intros e (ir & s1 & s & s2 & Hv & Hr & Hne & <-). by rewrite (two_root_key ir s1 s s2 Hv Hr Hne).
  - exists ni', x', ie. split; [exact E|]. split; [exact Hie|].
    destruct (found_unique (collate := ntfs_collate_ntofs_ulong) (le_encode 4 8) (small_keys 1 7) (small_keys 9 11) l t (small_ent 8) e Exs) as (_ & <- & <-);
      [by repeat constructor | exact Hc8 | exact Hc | exact Hk].
Defined.

(** The sixty keys again: from the least one, which is in a leaf, all of them come in order; from 47, which is in the root, it alone. *)
Definition from_ulong (ni : inode mem_root grow_attr) (k : Z) : option (list Z) :=
  match ntfs_index_lookup (fun _ => true) (fun _ _ => 0) [] 0 512 9 ni ntfs_index_ctx_get (le_encode 4 k) 4 with
  | Some (ni, x, Ok _) => ie ← entry x; keys ← keys_from (fun _ => true) 100 ni x ie; Some (map (fun k => le_decode k) keys)
  | _ => None
  end.

Example sixty_in_order :
  match foldl (fun o k => ni ← o; add_ulong k ni) (Some (empty_index COLLATION_NTOFS_ULONG)) sixty with
  | Some ni => bool_decide (from_ulong ni 0 = Some (filter (fun k => existsb (Z.eqb k) sixty) (map Z.of_nat (seq 0 101)))) &&
               bool_decide (from_ulong ni 47 = Some [47])
  | None => false
  end = true.
Proof. by vm_compute. Qed.
