(* ===== verification/IndexRm.v ===== *)
(** The removal of an entry from an index (libntfs-3g/index.c: ntfs_index_rm and
    what it calls, ntfs_index_remove).  An entry of a leaf is cut out of it; an
    entry with a child is replaced by its successor, from a leaf; a leaf that
    becomes empty is given back, and the entry its parent has for it is added
    again. *)

From S2P Require Import Prelude Mst AttrIo AttrMst Collate Index IndexNext.
Local Open Scope Z_scope.
Local Open Scope c_scope.
Set Default Proof Using "Type*".

Section remove.
Context {R A : Type} `{!AttrOps A, !AttrResize A, !RootOps R A}.
Implicit Types (ni : inode R A) (x : context).
Variable ntfs_malloc : Z -> bool.
Variable memcmp : list Z -> list Z -> Z.
Variable upcase : list Z.
Variables upcase_len cluster_size cluster_size_bits : Z.
Variable fresh : list Z.

(** What a removal returns.  Which errno a failing call left is not followed.
    [Unreported] is STATUS_OK, as [Removed] is, where ntfs_index_rm_node returns it
    after a step that failed; the last one is for the rounds of an insertion that
    were not enough. *)
Inductive removal := Removed | Unreported | RemoveAgain | RmFails | RoundsOut.

(** The removal whose insertion of [ie_roam] ends so. *)
Definition of_added (r : added) : removal := match r with Added => Removed | Again => RoundsOut | AddFails _ => RmFails end.

(** [in_ir]: the parent is the root, and [ih] points into it; if not, into [b]. *)
Definition ntfs_ih_takeout (fuel rounds : nat) ni x (in_ir : bool) (b : list Z) (ie : Z) : option (inode R A * context * removal) :=
  let ih := if in_ir then IR_INDEX else IB_INDEX in
  ie_roam ← ntfs_ie_dup_novcn ntfs_malloc b ie;
  match ie_roam with
  | None => Some (ni, x, RmFails)
  | Some ie_roam =>
      b ← ntfs_ie_delete b ih ie;
      out ← (if in_ir then Some (set_root ni (ir_store (root ni) b), STATUS_OK)
             else out ← ntfs_ib_write ni x b; Some (fst (fst out), snd out));
      let '(ni, s) := out in
      if negb (status_is_ok s) then Some (ni, x, RmFails)
      else
        out ← ntfs_index_ctx_reinit ni x;
        let '(ni, x) := out in
        out ← ntfs_ie_add ntfs_malloc memcmp upcase upcase_len cluster_size cluster_size_bits fresh fuel rounds ni x ie_roam;
        let '(ni, x, r) := out in Some (ni, x, of_added r)
  end.

Definition ntfs_ih_reparent_end (fuel rounds : nat) ni x (in_ir : bool) (b : list Z) : option (inode R A * context * removal) :=
  let ih := if in_ir then IR_INDEX else IB_INDEX in
  pos ← ntfs_icx_parent_pos x;
  ie ← ntfs_ie_get_by_pos b ih pos;
  prev ← ntfs_ie_prev b ih ie;
  ie_prev ← prev;
  vcn ← ntfs_ie_get_vcn b ie_prev;
  b ← ntfs_ie_set_vcn b ie vcn;
  ntfs_ih_takeout fuel rounds ni x in_ir b ie_prev.

(** From the search of the parent on; [up] is the recursive call of
    ntfs_index_rm_leaf, for the parent block that became empty. *)
Definition rm_parent (up : inode R A -> context -> option (inode R A * context * removal)) (fuel rounds : nat) ni x :
    option (inode R A * context * removal) :=
  pv ← ntfs_icx_parent_vcn x;
  let in_ir := pv =? VCN_INDEX_ROOT_PARENT in
  let ih := if in_ir then IR_INDEX else IB_INDEX in
  out ← (if in_ir then match ir_value (root ni) with Ok ir => Some (ni, Ok ir) | Err _ => None end
         else if ntfs_malloc (block_size x) then ntfs_ib_read ni x pv else Some (ni, Err ENOMEM));
  let '(ni, r) := out in
  match r with
  | Err _ => Some (ni, x, RmFails)
  | Ok b =>
      pos ← ntfs_icx_parent_pos x;
      ie ← ntfs_ie_get_by_pos b ih pos;
      e ← ntfs_ie_end b ie;
      if negb e then ntfs_ih_takeout fuel rounds ni x in_ir b ie
      else
        zero ← ntfs_ih_zero_entry b ih;
        if zero : bool then
          if in_ir then ni ← ntfs_ir_leafify ni; Some (ni, x, Removed) else up ni x
        else ntfs_ih_reparent_end fuel rounds ni x in_ir b
  end.

(** Each recursive call is for the parent block: [pindex] decreases. *)
Fixpoint rm_leaf (depth fuel rounds : nat) ni x : option (inode R A * context * removal) :=
  match depth with
  | O => None
  | S depth =>
      let '(x, s) := ntfs_icx_parent_dec x in
      if negb (status_is_ok s) then Some (ni, x, RmFails)
      else
        leaf ← (parent_vcn x).[pindex x + 1];
        out ← ntfs_ibm_clear ni x leaf;
        let '(ni, s) := out in
        if negb (status_is_ok s) then Some (ni, x, RmFails)
        else rm_parent (rm_leaf depth fuel rounds) fuel rounds ni x
  end.

Definition ntfs_index_rm_leaf (fuel rounds : nat) ni x := rm_leaf (S (Z.to_nat (pindex x))) fuel rounds ni x.

(** From the label descend on, down the first children: the block, its first
    entry, and the context; the failures end with [Err]. *)
Fixpoint rm_descend (depth : nat) ni x (vcn : Z) : option (inode R A * context * result (list Z * Z)) :=
  match depth with
  | O => None
  | S f =>
      out ← ntfs_ib_read ni x vcn;
      let '(ni, r) := out in
      match r with
      | Err e => Some (ni, x, Err e)
      | Ok b =>
          ie_succ ← ntfs_ie_get_first b IB_INDEX;
          let '(x, s) := ntfs_icx_parent_inc x in
          if negb (status_is_ok s) then Some (ni, x, Err EOPNOTSUPP)
          else
            x ← store_vcn x vcn;
            x ← store_pos x 0;
            fl ← ih_flags b IB_INDEX;
            if Z.land fl NODE_MASK =? LEAF_NODE then Some (ni, x, Ok (b, ie_succ))
            else vcn ← ntfs_ie_get_vcn b ie_succ; rm_descend f ni x vcn
      end
  end.

(** From the replacement of [entry], at [pos] of the node [m], by [e] on; [failed] is
    what ret says until the end. *)
Definition rm_replace (fuel rounds : nat) ni x (m : list Z) (pos : Z) (e b : list Z) (ie_succ new_size : Z) (failed : removal) :
    option (inode R A * context * removal) :=
  let ih := if is_in_root x then IR_INDEX else IB_INDEX in
  m ← ntfs_ie_delete m ih pos;
  m ← ntfs_ie_insert m ih e pos;
  out ← (if is_in_root x then out ← ntfs_ir_truncate (set_root ni (ir_store (root ni) m)) (s32 new_size); Some (fst out, x, snd out)
         else ntfs_icx_ib_write ni (set_ib x m));
  let '(ni, x, s) := out in
  if negb (status_is_ok s) then Some (ni, x, failed)
  else
    b ← ntfs_ie_delete b IB_INDEX ie_succ;
    zero ← ntfs_ih_zero_entry b IB_INDEX;
    if zero : bool then
      out ← ntfs_index_rm_leaf fuel rounds ni x;
      let '(ni, x, r) := out in
      Some (ni, x, match r with Removed => Removed | RoundsOut => RoundsOut | _ => failed end)
    else
      out ← ntfs_ib_write ni x b;
      let '(ni, _, s) := out in
      Some (ni, x, if status_is_ok s then Removed else failed).

Definition of_status (s : status) : removal := match s with STATUS_OK => Removed | STATUS_ERROR _ => RmFails | _ => RemoveAgain end.

(** From the test of the size on: [ie] is the successor, with the child of the
    entry. *)
Definition rm_place (fuel rounds : nat) ni x (m : list Z) (ent entry_pos pindex0 : Z) (ie b : list Z) (ie_succ : Z) :
    option (inode R A * context * removal) :=
  let ih := if is_in_root x then IR_INDEX else IB_INDEX in
  len ← ie_length ie 0;
  old ← ie_length m ent;
  il ← index_length m ih;
  let delta := len - old in
  let new_size := u32 (il + delta) in
  if delta <=? 0 then rm_replace fuel rounds ni x m ent ie b ie_succ new_size RmFails
  else if is_in_root x then
    out ← ntfs_ir_make_space ntfs_malloc rounds ni x (s32 new_size);
    let '(ni, x, ret) := out in
    if negb (status_is_ok ret) then Some (ni, x, of_status ret)
    else
      match ir_value (root ni) with
      | Err _ => None
      | Ok ir =>
          ent ← ntfs_ie_get_by_pos ir IR_INDEX entry_pos;
          rm_replace fuel rounds ni x ir ent ie b ie_succ new_size Unreported
      end
  else
    al ← allocated_size m ih;
    if al <? new_size then
      out ← ntfs_ib_split ntfs_malloc fresh rounds ni (set_pindex x pindex0) m;
      let '(ni, x, ret) := out in
      Some (ni, x, match ret with STATUS_OK => RemoveAgain | _ => of_status ret end)
    else rm_replace fuel rounds ni x m ent ie b ie_succ new_size RmFails.

Definition ntfs_index_rm_node (fuel rounds : nat) ni x : option (inode R A * context * removal) :=
  let open := ia_na x || (if ia ni is Some _ then true else false) in
  if negb open then Some (ni, x, RmFails)
  else
    let x := set_ia_na x in
    if negb (ntfs_malloc (block_size x)) then Some (ni, x, RmFails)
    else
      ent ← entry x;
      m ← node_buf ni x;
      ie_succ ← ntfs_ie_get_next m ent;
      entry_pos ← ntfs_icx_parent_pos x;
      x ← store_pos x (entry_pos + 1);
      let pindex0 := pindex x in
      vcn ← ntfs_ie_get_vcn m ie_succ;
      out ← rm_descend (S (Z.to_nat MAX_PARENT_VCN)) ni x vcn;
      let '(ni, x, r) := out in
      match r with
      | Err _ => Some (ni, x, RmFails)
      | Ok (b, ie_succ) =>
          zero ← ntfs_ih_zero_entry b IB_INDEX;
          if zero : bool then Some (ni, x, RmFails)
          else
            ie ← ntfs_ie_dup ntfs_malloc b ie_succ;
            match ie with
            | None => Some (ni, x, RmFails)
            | Some ie =>
                ie ← ntfs_ie_add_vcn ntfs_malloc fresh ie;
                match ie with
                | None => Some (ni, x, RmFails)
                | Some ie =>
                    vcn ← ntfs_ie_get_vcn m ent;
                    ie ← ntfs_ie_set_vcn ie 0 vcn;
                    rm_place fuel rounds ni x m ent entry_pos pindex0 ie b ie_succ
                end
            end
      end.

Definition ntfs_index_rm (fuel rounds : nat) ni x : option (inode R A * context * removal) :=
  match entry x with
  | None => Some (ni, x, RmFails)
  | Some ent =>
      m ← node_buf ni x;
      e ← ntfs_ie_end m ent;
      if e : bool then Some (ni, x, RmFails)
      else
        let ih := if is_in_root x then IR_INDEX else IB_INDEX in
        fl ← ie_flags m ent;
        if flag fl INDEX_ENTRY_NODE then ntfs_index_rm_node fuel rounds ni x
        else
          one ← (if is_in_root x then Some false else ntfs_ih_one_entry m ih);
          if one : bool then
            out ← ntfs_index_rm_leaf fuel rounds ni x;
            let '(ni, x, r) := out in Some (ni, x, r)
          else
            m ← ntfs_ie_delete m ih ent;
            if is_in_root x then
              il ← index_length m ih;
              out ← ntfs_ir_truncate (set_root ni (ir_store (root ni) m)) (s32 il);
              let '(ni, s) := out in
              Some (ni, x, if status_is_ok s then Removed else RmFails)
            else
              out ← ntfs_icx_ib_write ni (set_ib x m);
              let '(ni, x, s) := out in
              Some (ni, x, if status_is_ok s then Removed else RmFails)
  end.

Fixpoint remove_loop (n fuel rounds : nat) ni x (key : list Z) (keylen : Z) : option (inode R A * context * removal) :=
  match n with
  | O => Some (ni, x, RoundsOut)
  | S n =>
      out ← ntfs_index_lookup ntfs_malloc memcmp upcase upcase_len cluster_size cluster_size_bits ni x key keylen;
      let '(ni, x, r) := out in
      match r with
      | Err _ => Some (ni, x, RmFails)
      | Ok _ =>
          out ← ntfs_index_rm fuel rounds ni x;
          let '(ni, x, r) := out in
          match r with
          | RemoveAgain =>
              out ← ntfs_index_ctx_reinit ni x;
              let '(ni, x) := out in remove_loop n fuel rounds ni x key keylen
          | _ => Some (ni, x, r)
          end
      end
  end.

Definition ntfs_index_remove (n fuel rounds : nat) ni (key : list Z) (keylen : Z) : option (inode R A * removal) :=
  if negb (ntfs_malloc 256) then Some (ni, RmFails)
  else
    out ← remove_loop n fuel rounds ni ntfs_index_ctx_get key keylen;
    let '(ni, x, r) := out in
    ni ← ntfs_index_ctx_put ni x;
    Some (ni, r).
End remove.
