(* ===== verification/IndexTake.v ===== *)
(** What the removal of an entry (IndexRm) does to the nodes of an index, and to
    the sequence of its entries, when it takes an entry out of a node and adds it
    again. *)

From S2P Require Import Prelude Mst AttrIo AttrMst Names Collate Index IndexSpec IndexNode IndexBlock IndexMake IndexBitmap IndexTree IndexLookup IndexRoot IndexSplit IndexAdd IndexNext IndexRm.
From stdpp Require Import sorting.
Local Open Scope Z_scope.
Local Open Scope c_scope.
Set Default Proof Using "Type*".
#[local] Arguments le_encode : simpl never.

(** ** Copies of entries *)

Lemma wf_no_child b x c : wf_slot b (x, c) -> wf_slot b (x, None).
Proof. intros [H _]. by split. Qed.

(** The entry without its child. *)
Lemma dup_novcn_ok malloc b x c op oq : wf_slot b (x, c) ->
  ntfs_ie_dup_novcn malloc (op ++ enc (x, c) ++ oq) (zlen op) = Some None \/
  ntfs_ie_dup_novcn malloc (op ++ enc (x, c) ++ oq) (zlen op) = Some (Some (enc (x, None))).
Proof.
  intros Hs. pose proof (enc_len_range b _ Hs) as [Hlr Hl]. pose proof (enc_len_range b _ (wf_no_child _ _ _ Hs)) as [Hlr0 Hl0].
  pose proof (proj1 Hs) as Hx. cbn [fst] in Hx. pose proof (we_flags _ _ Hx) as (Hf & Hf1 & _). pose proof (node_flag_range _ Hf Hf1 c) as [Hfr Hfl].
  unfold ntfs_ie_dup_novcn. rewrite (field_length b (x, c)), (field_flags b (x, c)) by done. cbn [mbind option_bind].
  rewrite (flag_node b (x, c)) by done. cbn [fst snd].
  assert ((if match c with Some _ => true | None => false end then enc_len (x, c) - sizeof_VCN else enc_len (x, c)) = enc_len (x, None)) as ->.
  { unfold enc_len, sizeof_VCN. cbn [fst snd]. rewrite !zlen_vcn_bytes. destruct c; lia. }
  destruct (malloc _); [right|by left].
  set (fl := e_flags x + node_flag c) in *. set (t := enc_parts x (enc_len (x, c)) fl (e_rest x)).
  assert (enc (x, c) = t ++ vcn_bytes c) as -> by (rewrite enc_as_parts; unfold t, enc_parts; cbn [fst snd]; by rewrite <-!app_assoc).
  assert (zlen t = enc_len (x, None)) as Ht by (unfold t; rewrite (parts_zlen b) by done; unfold enc_len; cbn [fst snd]; rewrite zlen_vcn_bytes; lia).
  rewrite <-app_assoc, zread_mid by done. cbn [mbind option_bind]. unfold t. rewrite (parts_flags b) by done. cbn [mbind option_bind].
  rewrite (parts_set_flags b) by done. cbn [mbind option_bind]. rewrite (parts_set_length b) by done. cbn [mbind option_bind].
  do 2 f_equal. rewrite enc_as_parts. cbn [fst snd vcn_bytes node_flag]. rewrite app_nil_r. unfold u16. rewrite wrap_u_small by lia.
  f_equal. rewrite Z.mod_small by lia. rewrite Hfl. change INDEX_ENTRY_NODE with 1.
  assert (Z.land (Z.lor (e_flags x) (node_flag c)) (wrap_u 16 (Z.lnot 1)) = e_flags x) as ->; [|lia].
  change (wrap_u 16 (Z.lnot 1)) with (Z.shiftl (Z.ones 15) 1). apply Z.bits_inj'. intros i Hi. rewrite Z.land_spec, Z.lor_spec, Z.shiftl_spec by done.
  destruct (Z.eqb_spec i 0) as [->|Hi0].
  - rewrite (Z.testbit_neg_r (Z.ones 15)) by lia. rewrite andb_false_r. symmetry. apply (f_equal (fun v => Z.testbit v 0)) in Hf1.
    rewrite Z.land_spec, Z.bits_0 in Hf1. by rewrite andb_true_r in Hf1.
  - assert (Z.testbit (node_flag c) i = false) as ->.
    { destruct c; cbn; [|apply Z.bits_0]. unfold INDEX_ENTRY_NODE. change 1 with (2 ^ 0). by apply Z.pow2_bits_false. }
    rewrite orb_false_r. destruct (Z.ltb_spec i 16).
    + rewrite (Z.ones_spec_low 15) by lia. by rewrite andb_true_r.
    + rewrite (Z.ones_spec_high 15) by lia. rewrite andb_false_r. symmetry. rewrite <-(Z.mod_small (e_flags x) (2 ^ 16)) by lia. by apply Z.mod_pow2_bits_high.
Qed.

(** The entry with a child. *)
Lemma dup_child_ok malloc fresh b x op oq v : wf_slot b (x, None) -> wf_bytes fresh -> zlen fresh = 8 ->
  let r := ie ← ntfs_ie_dup malloc (op ++ enc (x, None) ++ oq) (zlen op);
           match ie with
           | None => Some None
           | Some ie => ie ← ntfs_ie_add_vcn malloc fresh ie; match ie with None => Some None | Some ie => ie ← ntfs_ie_set_vcn ie 0 v; Some (Some ie) end
           end in
  r = Some None \/ r = Some (Some (enc (x, Some v))).
Proof.
  intros Hs Hf Hf8. cbv zeta. pose proof (promoted malloc fresh b x None op oq Hs Hf Hf8) as Hp. cbv zeta in Hp.
  destruct (ntfs_ie_dup malloc (op ++ enc (x, None) ++ oq) (zlen op)) as [[e|]|] eqn:E; cbn [mbind option_bind] in Hp |- *; [|by left|by destruct Hp as [?|(?&?&?)]].
  assert (e = enc (x, None)) as ->.
  { unfold ntfs_ie_dup in E. rewrite (field_length b (x, None)) in E by done. cbn [mbind option_bind] in E. destruct (malloc _); [|done].
    rewrite zread_mid in E by (try done; symmetry; apply (enc_len_range b _ Hs)). cbn in E. by injection E as <-. }
  pose proof (field_flags b (x, None) [] [] 0 Hs eq_refl) as Ef. cbn [app] in Ef. rewrite app_nil_r in Ef. rewrite Ef in Hp. cbn [mbind option_bind] in Hp.
  rewrite (flag_node b (x, None)) in Hp by done. cbn [snd negb] in Hp.
  destruct Hp as [->|(v0 & Hv0 & ->)]; cbn [mbind option_bind]; [by left|right].
  assert (wf_slot b (x, Some v0)) as Hs0 by (destruct Hs; by split).
  pose proof (set_vcn_at b x v0 v [] [] Hs0) as Ev. cbn [app] in Ev. rewrite !app_nil_r in Ev. change (zlen []) with 0 in Ev. rewrite Ev. done.
Qed.

(** ** The entry before another *)

Lemma prev_chain (s : slot) es : forall pre rest fuel prev, Forall (wf_slot false) es -> wf_slot false s -> (length es + 1 < fuel)%nat ->
  prev_loop fuel (pre ++ enc_slots (es ++ [s]) ++ rest) (zlen pre + zlen (enc_slots (es ++ [s]))) prev (zlen pre) =
    Some (Some (zlen pre + zlen (enc_slots es))).
Proof.
  induction es as [|t es IH]; intros pre rest [|f] prev Hes Hs Hf; try (cbn in Hf; lia); cbn [prev_loop app].
  - destruct (chain_head s [] pre rest Hs) as (_ & E2 & _). pose proof (enc_len_range _ _ Hs) as [Hr Hl]. rewrite enc_slots_1, Hl.
    rewrite (proj2 (Z.eqb_neq (zlen pre) _)) by lia. rewrite enc_slots_1 in E2. rewrite E2. cbn [mbind option_bind]. destruct f as [|f]; [cbn in Hf; lia|]. cbn [prev_loop].
    rewrite zlen_app, Hl, Z.eqb_refl. do 2 f_equal. change (zlen (enc_slots [])) with 0. lia.
  - apply Forall_cons in Hes as [Ht Hes]. destruct (chain_head t (es ++ [s]) pre rest Ht) as (_ & E2 & E3 & E4). cbn [app] in *.
    pose proof (enc_len_range _ _ Ht) as [Hr Hl]. rewrite !(zlen_enc_slots_cons false) by done. pose proof (zlen_nonneg (enc_slots (es ++ [s]))).
    rewrite (proj2 (Z.eqb_neq (zlen pre) _)) by lia. rewrite E2. cbn [mbind option_bind]. rewrite E3.
    replace (zlen pre + (enc_len t + zlen (enc_slots (es ++ [s])))) with (zlen (pre ++ enc t) + zlen (enc_slots (es ++ [s]))) by lia.
    rewrite IH; [|done|done|cbn in Hf; lia]. do 2 f_equal. lia.
Qed.

Lemma node_prev m h eo pre (s1 : list slot) (s : slot) (s2 : list slot) post : node_at m h eo pre (s1 ++ s :: s2) post -> s2 <> [] ->
  ntfs_ie_prev m h (zlen pre + zlen (enc_slots (s1 ++ [s]))) = Some (Some (zlen pre + zlen (enc_slots s1))).
Proof.
  intros Hn Hne. pose proof (na_slots _ _ _ _ _ _ Hn) as Hw. apply wf_slots_split in Hw as (H1 & Hs & _); [|done].
  unfold ntfs_ie_prev. rewrite (node_first Hn). cbn [mbind option_bind].
  assert (m = pre ++ enc_slots (s1 ++ [s]) ++ enc_slots s2 ++ post) as Em
    by (rewrite (node_slot Hn s1 s s2 eq_refl), enc_slots_app, enc_slots_1, <-!app_assoc; done).
  rewrite Em at 2. apply prev_chain; [done | done |]. rewrite Em. unfold rounds. rewrite !length_app.
  assert (Forall (wf_slot false) (s1 ++ [s])) as Hall by (apply Forall_app; by split; [|constructor]).
  pose proof (enc_slots_size _ Hall) as Hz. unfold zlen in Hz. rewrite (length_app s1) in Hz. cbn [length] in Hz. lia.
Qed.

(** ** The order *)

Section order.
Context {collate : COLLATE} `{!KeyOrder collate}.
Abbreviation cmp := (key_cmp collate).

(** The entries of an index that has all of them but one. *)
Record entries (bs : Z) (l : list ent) (e : ent) (t : list ent) (z : ent) : Prop := {
  en_order : in_order (collate := collate) (l ++ e :: t);
  en_good : Forall (good_key collate) (l ++ e :: t);
  en_small : Forall (small bs) ((l ++ e :: t) ++ [z]) }.

Lemma entries_rest bs l e t z : entries bs l e t z ->
  in_order (collate := collate) (l ++ t) /\ Forall (good_key collate) (l ++ t) /\ Forall (small bs) ((l ++ t) ++ [z]).
Proof.
  intros [Ho Hg Hs]. split_and!.
  - by apply in_order_mid in Ho as (_ & _ & ?).
  - rewrite Forall_app, Forall_cons in Hg. apply Forall_app. tauto.
  - rewrite !Forall_app, Forall_cons in Hs. rewrite !Forall_app. tauto.
Qed.

End order.

(** ** An entry taken out and added again *)

Section take.
Context {R A : Type} `{!AttrOps A, !AttrResize A, !RootOps R A, !AttrLaws A, !AttrReliable A, !AttrGrowLaws A, !RootLaws R A}.
Context (bs vb q : Z) (G : geometry bs vb q) (malloc : Z -> bool) (fresh : list Z) (rule : Z).
Hypothesis Hfresh : wf_bytes fresh /\ zlen fresh = 8.
Hypothesis Hmax : ir_max (R := R) + 292 <= bs.
Context (memcmp : list Z -> list Z -> Z) (upcase : list Z) (upcase_len cluster_size cluster_size_bits : Z).
Context {collate : COLLATE} `{!KeyOrder collate}.
Hypothesis Hcol : ntfs_get_collate_function memcmp upcase upcase_len rule = Some collate.
Hypothesis Hvb : vb = if cluster_size <=? bs then cluster_size_bits else 9.
Hypothesis Hmalloc : malloc bs = true.
Context (fuel extra : nat).
Implicit Types (ni : inode R A) (x : context).
Abbreviation cmp := (key_cmp collate).
Abbreviation valid := (valid bs vb q rule (collate := collate)).
Abbreviation fetch_of := (fetch_of bs vb).
Abbreviation entries := (entries bs (collate := collate)).
Abbreviation takeout := (ntfs_ih_takeout malloc memcmp upcase upcase_len cluster_size cluster_size_bits fresh fuel (S (S extra))).

(** The bitmap may still grow in all the rounds of an insertion. *)
Definition growable ni : Prop := bm_size ni + 8 * 34 * (Z.of_nat fuel + 1) < 2 ^ 30.

(** No search is needed again, and a failure is reported. *)
Definition final (r : removal) : bool := match r with RemoveAgain | Unreported => false | _ => true end.

(** What a removal leaves: the context can be closed, and after a success the
    index has the entries [xs]. *)
Definition removes_to (xs : list ent) (z : ent) (out : option (inode R A * context * removal)) : Prop :=
  exists ni x r ni2, out = Some (ni, x, r) /\ final r = true /\ ntfs_index_ctx_put ni x = Some ni2 /\
    (r = Removed -> exists d vs, valid ni2 d vs xs z).

Lemma put_clean ni x : ib_dirty x = false -> ntfs_index_ctx_put ni x = Some ni.
Proof using. intros H. unfold ntfs_index_ctx_put, ntfs_index_ctx_free. rewrite H, andb_false_r. by destruct (_ && _). Qed.

Lemma removes_fails xs z ni x r : ib_dirty x = false -> r = RmFails \/ r = RoundsOut -> removes_to xs z (Some (ni, x, r)).
Proof using. intros Hx Hr. exists ni, x, r, ni. split_and!; [done | by destruct Hr as [->| ->] | by apply put_clean | by destruct Hr as [->| ->]]. Qed.

Lemma readd_ok ni x d vs l e t z : valid ni d vs (l ++ t) z -> entries l e t z -> wf_ent false e -> ib_dirty x = false -> growable ni ->
  removes_to (l ++ e :: t) z
    (out ← ntfs_index_ctx_reinit ni x;
     let '(ni, x) := out in
     out ← ntfs_ie_add malloc memcmp upcase upcase_len cluster_size cluster_size_bits fresh fuel (S (S extra)) ni x (enc (e, None));
     let '(ni, x, r) := out in Some (ni, x, of_added r)).
Proof using All.
  intros Hva [Ho Hg Hs] Hwf Hx Hbig. rewrite (reinit_clean ni x Hx). cbn [mbind option_bind].
  assert (wf_slot false (e, None)) as Hws by (by split). pose proof (we_klen _ _ Hwf) as Hkl.
  destruct (Z.eq_dec (e_klen e) 0) as [E0|E0].
  - pose proof (field_klen false (e, None) [] [] 0 Hws eq_refl) as Ek. cbn [app] in Ek. rewrite app_nil_r in Ek. cbn [fst] in Ek.
    destruct fuel as [|n]; cbn [ntfs_ie_add]; [by apply removes_fails; [|right]|]. unfold ie_add_round. rewrite Ek, E0. cbn. by apply removes_fails; [|left].
  - assert (new_entry (collate := collate) bs e) as Hne.
    { split; [done | split; [|lia] |].
      - rewrite Forall_app, Forall_cons in Hg. tauto.
      - rewrite !Forall_app, Forall_cons in Hs. tauto. }
    destruct (ie_add_ok bs vb q G malloc fresh rule Hfresh Hmax memcmp upcase upcase_len cluster_size cluster_size_bits Hcol Hvb Hmalloc extra e z fuel
      ni ntfs_index_ctx_get d vs (l ++ t) Hva Hne) as (ni' & x' & r & E & Hr & _); [done | exact Hbig |].
    rewrite E. cbn [mbind option_bind]. pose proof (ie_add_dirty _ _ _ _ _ _ _ _ _ _ _ _ _ _ _ E eq_refl) as Hdirty.
    destruct r; [|by apply removes_fails; [apply Hdirty | right]|by apply removes_fails; [apply Hdirty | left]].
    destruct Hr as (l' & t' & ni2 & d' & vs' & El & Hput & Hv). exists ni', x', Removed, ni2. split_and!; [done | done | done |]. intros _. exists d', vs'.
    destruct (order_unique e l t l' t' El Ho (va_order _ _ _ _ _ _ _ _ _ Hv)) as [-> ->]. done.
Qed.

(** The copy that is added again, from a node. *)
Lemma roam_ok m h eo pre (s1 : list slot) e c (s2 : list slot) post : node_at m h eo pre (s1 ++ (e, c) :: s2) post -> s2 <> [] ->
  wf_ent false e /\ (ntfs_ie_dup_novcn malloc m (h + eo + zlen (enc_slots s1)) = Some None \/
    ntfs_ie_dup_novcn malloc m (h + eo + zlen (enc_slots s1)) = Some (Some (enc (e, None)))).
Proof using.
  intros Hn Hne. pose proof (slot_wf _ _ _ _ _ _ _ _ Hn Hne) as Hs. split; [apply Hs|].
  rewrite <-(na_pre _ _ _ _ _ _ Hn), (node_slot Hn s1 (e, c) s2 eq_refl), <-zlen_app. by apply (dup_novcn_ok malloc false).
Qed.

(** Out of the root. *)
Lemma takeout_root ni x d ir b (s1 : list slot) e c (s2 : list slot) eo pre post vs l t z :
  ir_value (root ni) = Ok ir -> zlen b = zlen ir -> iroot_parts bs rule true b (s1 ++ (e, c) :: s2) eo pre post -> s2 <> [] ->
  seq_of (kids bs q (fetch_of ni) (S d)) (s1 ++ s2) vs ((l ++ t) ++ [z]) -> NoDup vs -> (forall nb, bm ni = Some nb -> marked q nb vs) ->
  entries l e t z -> ib_dirty x = false -> growable ni ->
  removes_to (l ++ e :: t) z (takeout ni x true b (IR_INDEX + eo + zlen (enc_slots s1))).
Proof using All.
  intros Hv Hz Hr Hne Hs Hnd Hm Hen Hx Hbig. pose proof (ir_node _ _ _ _ _ _ _ _ Hr) as Hn. unfold ntfs_ih_takeout.
  destruct (roam_ok _ _ _ _ _ _ _ _ _ Hn Hne) as [Hwf [->| ->]]; cbn [mbind option_bind]; [by apply removes_fails; [|left]|].
  destruct (node_delete _ _ _ _ _ _ _ _ Hn Hne) as (b' & pre' & slack & Ed & _ & Hed). rewrite (na_pre _ _ _ _ _ _ Hn) in Ed. rewrite Ed. cbn [mbind option_bind status_is_ok negb].
  eapply (readd_ok _ _ (S d) vs); try done. destruct (entries_rest _ _ _ _ _ Hen) as (H1 & H2 & H3). split; [|done|done|done].
  exists b', (s1 ++ s2). split; [split| exact Hs | done | exact Hm].
  - cbn. apply (ir_store_law _ _ _ Hv). rewrite (ed_len _ _ _ _ _ _ _ _ _ Hed). done.
  - exists eo, pre', (slack ++ post). eapply iroot_edit; [exact Hr | exact Hed |].
    pose proof (ir_uniform _ _ _ _ _ _ _ _ Hr) as [U1 [_ U2]%uniform_cons]%uniform_app. by apply uniform_app.
Qed.

(** A block of the index written, with other slots: the index has the entries of
    those. *)
Lemma block_changed ni ni' d ir sl p u i vl vr (xl xr : list ent) (es : list slot) v0 (x0 : list ent) (z0 : ent) (xs : list ent) :
  path bs q (fetch_of ni) sl (S d) p u vl vr xl xr -> u = i * q -> ir_value (root ni) = Ok ir -> iroot bs rule true ir sl ->
  root ni' = root ni -> bm ni' = bm ni -> written bs q (fetch_of ni) (fetch_of ni') i true es ->
  seq_of (kids bs q (fetch_of ni) (S d)) es v0 (x0 ++ [z0]) -> NoDup (vl ++ (u :: v0) ++ vr) -> (forall nb, bm ni = Some nb -> marked q nb (vl ++ (u :: v0) ++ vr)) ->
  xs = xl ++ x0 ++ xr -> indexed bs vb q rule ni' (height (S d) p) ir sl (vl ++ (u :: v0) ++ vr) xs.
Proof using.
  clear Hfresh. intros Hp Eu Hv Hr Hroot Hbm Hw Hs Hnd Hm ->. pose proof Hw as [(b & Hb) _]. rewrite <-Eu in Hb.
  pose proof (path_present _ _ _ _ _ _ _ _ _ Hp) as Hpr. pose proof (seq_present (bs := bs) (q := q) _ (S d) _ _ _ Hs) as Hprs.
  assert (~ In u (vl ++ v0 ++ vr)) as Hnu by (by apply (nodup_out vl [] (v0 ++ vr))).
  assert (forall w, In w (vl ++ v0 ++ vr) -> fetch_of ni' w = fetch_of ni w) as Hsame.
  { rewrite Eu in Hnu. eapply written_kept; [exact Hw | | exact Hnu]. rewrite !Forall_app in *. tauto. }
  split.
  - rewrite Hroot. split; [done|]. pose proof (path_ne _ _ _ _ _ _ _ _ _ _ _ Hp). by destruct p.
  - eapply path_fill; [exact Hp | intros w Hw'; apply Hsame; in_blocks |]. apply tree_unfold. exists b, es, v0, z0. split_and!; [done | done |].
    eapply (kids_ext bs q (fetch_of ni)); [|exact Hs]. intros w Hw'. apply Hsame. in_blocks.
  - done.
  - by rewrite Hbm.
Qed.

(** Out of a block. *)
Lemma takeout_block ni x na d ir sl p u i b b0 vl vr (xl xr : list ent) (s1 : list slot) e c (s2 : list slot) eo pre post v0 (x0 : list ent) (z0 : ent) l t z :
  ia ni = Some na -> ia_na x = true -> sized x bs vb -> block_number i -> u = i * q -> fetch_of ni u = Some b0 ->
  path bs q (fetch_of ni) sl (S d) p u vl vr xl xr -> ir_value (root ni) = Ok ir -> iroot bs rule true ir sl ->
  iblock_parts bs u true b (s1 ++ (e, c) :: s2) eo pre post -> s2 <> [] ->
  seq_of (kids bs q (fetch_of ni) (S d)) (s1 ++ s2) v0 (x0 ++ [z0]) -> NoDup (vl ++ (u :: v0) ++ vr) ->
  (forall nb, bm ni = Some nb -> marked q nb (vl ++ (u :: v0) ++ vr)) -> (l ++ t) ++ [z] = xl ++ x0 ++ xr ->
  entries l e t z -> ib_dirty x = false -> growable ni ->
  removes_to (l ++ e :: t) z (takeout ni x false b (IB_INDEX + eo + zlen (enc_slots s1))).
Proof using All.
  intros Hna Hop Hx Hi Eu Hf Hp Hv Hr Hb Hne Hs Hnd Hm Exs Hen Hd Hbig. pose proof (ib_node _ _ _ _ _ _ _ _ Hb) as Hn. unfold ntfs_ih_takeout.
  destruct (roam_ok _ _ _ _ _ _ _ _ _ Hn Hne) as [Hwf [Ed|Ed]]; change 24 with IB_INDEX in Ed; rewrite Ed; cbn [mbind option_bind]; [by apply removes_fails; [|left]|]. clear Ed.
  destruct (node_delete _ _ _ _ _ _ _ _ Hn Hne) as (b' & pre' & slack & Ed & _ & Hed). rewrite (na_pre _ _ _ _ _ _ Hn) in Ed. change 24 with IB_INDEX in Ed. rewrite Ed. cbn [mbind option_bind].
  assert (iblock bs u true b' (s1 ++ s2)) as Hib.
  { eapply iblock_edit; [exact Hb | exact Hed |]. pose proof (ib_uniform _ _ _ _ _ _ _ _ Hb) as [U1 [_ U2]%uniform_cons]%uniform_app. by apply uniform_app. }
  rewrite Eu in Hib. destruct (write_block bs vb q G malloc ni x na i true b' _ Hx Hop Hna Hi Hib) as (ni2 & s & E2 & Heff).
  destruct (ntfs_ib_write ni x b') as [[[ni2' b3] s']|]; cbn [mbind option_bind] in E2 |- *; [|done]. injection E2 as -> ->.
  destruct s; cbn [status_is_ok negb fst snd]; try by apply removes_fails; [|left].
  destruct (effect_written bs vb q ni na ni2 i _ _ Hna Hi Heff) as (Hr2 & Hb2 & _ & Hwr).
  pose proof (block_changed ni ni2 d ir sl p u i vl vr xl xr _ v0 x0 z0 _ Hp Eu Hv Hr Hr2 Hb2 Hwr Hs Hnd Hm eq_refl) as Hix. rewrite <-Exs in Hix.
  destruct (entries_rest _ _ _ _ _ Hen) as (H1 & H2 & H3).
  eapply (readd_ok _ _ _ _); try done.
  - split; [by exists ir, sl | done | done | done].
  - unfold growable, bm_size in *. by rewrite Hb2.
Qed.
End take.
