(* ===== verification/IndexLeaf.v ===== *)
(** ntfs_index_rm_leaf (libntfs-3g/index.c): a block without entries is given
    back, with the parents that it leaves empty. *)

From S2P Require Import Prelude Mst Device AttrIo AttrMst Names Collate Index IndexSpec IndexNode IndexBlock IndexMake IndexBitmap IndexTree IndexLookup IndexRoot IndexSplit IndexAdd IndexNext IndexRm IndexTake.
Local Open Scope Z_scope.
Local Open Scope c_scope.
Set Default Proof Using "Type*".
#[local] Arguments le_encode : simpl never.

(** ** The root without children *)

(** Shrinking the resident root needs no space, so it succeeds. *)
Class RootReliable (R A : Type) `{!RootOps R A} := {
  ir_shrink r n v : ir_value r = Ok v -> 0 <= n <= zlen v -> snd (ir_attr_truncate r n) = STATUS_OK }.

Lemma clear_low x w : 0 <= x < 2 ^ w -> 1 <= w -> Z.land x (wrap_u w (Z.lnot 1)) = x - x mod 2.
Proof.
  intros Hx Hw. assert (wrap_u w (Z.lnot 1) = Z.shiftl (Z.ones (w - 1)) 1) as ->.
  { unfold wrap_u. rewrite Z.shiftl_mul_pow2, Z.ones_equiv by lia. change (Z.lnot 1) with (-2). change (2 ^ 1) with 2.
    assert (2 ^ w = 2 * 2 ^ (w - 1)) as -> by (rewrite <-Z.pow_succ_r by lia; f_equal; lia). assert (0 < 2 ^ (w - 1)) by lia.
    symmetry. apply (Z.mod_unique _ _ (-1)); [left; lia | unfold Z.pred; ring]. }
  assert (x - x mod 2 = Z.shiftl (Z.shiftr x 1) 1) as ->.
  { rewrite Z.shiftl_mul_pow2, Z.shiftr_div_pow2 by lia. change (2 ^ 1) with 2. pose proof (Z.div_mod x 2 ltac:(lia)). lia. }
  apply Z.bits_inj'. intros i Hi. rewrite Z.land_spec, !Z.shiftl_spec by done. destruct (Z.eqb_spec i 0) as [->|Hi0].
  - rewrite !(Z.testbit_neg_r _ (0 - 1)) by lia. apply andb_false_r.
  - rewrite Z.shiftr_spec by lia. replace (i - 1 + 1) with i by lia. destruct (Z.ltb_spec i w).
    + rewrite Z.ones_spec_low by lia. apply andb_true_r.
    + rewrite Z.ones_spec_high by lia. rewrite andb_false_r. symmetry. rewrite <-(Z.mod_small x (2 ^ w)) by lia. by apply Z.mod_pow2_bits_high; lia.
Qed.

Lemma slot_end_first ir eo pre ze c post : node_at ir IR_INDEX eo pre [(ze, Some c)] post -> eo < 2 ^ 30 ->
  end_first ir eo pre ze 24 (e_flags ze + 1) (le_encode 8 c ++ post) /\ wf_ent true ze /\ in_s64 c.
Proof.
  intros [E _ Heo Hp He Hl Hw Hs] Hmax. apply wf_slots_1 in Hs as [Hz Hc]. cbn [fst snd] in *. change IR_INDEX with 16 in *. split; [|done].
  pose proof (we_end _ _ Hz eq_refl) as Hr. split; [|lia|done|done|lia|by right|done].
  rewrite E at 1. f_equal. rewrite enc_slots_1, enc_as_parts. unfold enc_parts, enc_len. cbn [fst snd vcn_bytes node_flag]. rewrite zlen_le_encode, Hr.
  change INDEX_ENTRY_NODE with 1. rewrite <-!app_assoc. done.
Qed.

Lemma leafify_ok bs rule ir ze c eo pre post : iroot_parts bs rule true ir [(ze, Some c)] eo pre post -> eo < 2 ^ 30 ->
  exists ir' pre' post', leafify ir = Some ir' /\ iroot_parts bs rule false ir' [(ze, None)] eo pre' post' /\ zlen ir' = zlen ir /\
    index_length ir' IR_INDEX = Some (eo + 16).
Proof.
  intros Hr Hmax. pose proof (ir_node _ _ _ _ _ _ _ _ Hr) as Hn. destruct (slot_end_first _ _ _ _ _ _ Hn Hmax) as (Hef & Hz & Hc).
  destruct (ef_fields Hef) as (Hlen & Hfl & _). pose proof (ir_extent Hr) as (Lir & He & Hp & Hw & _ & Hpost).
  pose proof (we_flags _ _ Hz) as (Hf & Hf1 & _). pose proof (we_end _ _ Hz eq_refl) as Hr2.
  assert (e_flags ze mod 2 = 0) as Hev by (rewrite (land_ones' (e_flags ze) 1 1) in Hf1 by lia; exact Hf1).
  assert (zlen (enc_slots [(ze, Some c)]) = 24) as L24.
  { apply (na_slots _ _ _ _ _ _) in Hn. apply wf_slots_1 in Hn. rewrite enc_slots_1. rewrite (proj2 (enc_len_range true _ Hn)). unfold enc_len. cbn [fst snd]. rewrite zlen_vcn_bytes. lia. }
  unfold leafify. rewrite (ef_first Hef). cbn [mbind option_bind]. rewrite Hfl. cbn [mbind option_bind].
  change (u16 (Z.lnot INDEX_ENTRY_NODE)) with (wrap_u 16 (Z.lnot 1)). rewrite clear_low by divlia. replace (e_flags ze + 1 - (e_flags ze + 1) mod 2) with (e_flags ze) by divlia.
  pose proof Hef as [E _ _ _ _ _ _]. set (t := le_encode 8 c ++ post) in *. set (tt := e_rest ze ++ t) in *. pose proof (zlen_nonneg tt).
  assert (forall l f v, set_ie_flags (pre ++ enc_parts ze l f tt) (zlen pre) v = Some (pre ++ enc_parts ze l v tt)) as Sf.
  { intros l f v. unfold set_ie_flags, put_le16, enc_parts. rewrite (app_assoc _ (le_encode 2 (e_klen ze))), (app_assoc (e_head ze)), app_assoc.
    rewrite st_mid by (rewrite !zlen_app, !zlen_le_encode; pose proof (we_head _ _ Hz); lia). by rewrite <-!app_assoc. }
  assert (forall l f v, set_ie_length (pre ++ enc_parts ze l f tt) (zlen pre) v = Some (pre ++ enc_parts ze v f tt)) as Sl.
  { intros l f v. unfold set_ie_length, put_le16, enc_parts. rewrite (app_assoc pre).
    rewrite st_mid by (rewrite !zlen_app; pose proof (we_head _ _ Hz); lia). by rewrite <-!app_assoc. }
  assert (forall l f, ie_length (pre ++ enc_parts ze l f tt) (zlen pre) = Some (l mod 65536)) as Gl.
  { intros l f. unfold ie_length, le16_to_cpup. pose proof (parts_zlen true ze l f tt Hz). rewrite <-(app_nil_r (enc_parts _ _ _ _)), (ld_in 2 pre _ [] _ 8) by lia.
    exact (parts_length true ze l f tt Hz). }
  rewrite E, Sf. cbn [mbind option_bind]. rewrite Gl. cbn [mbind option_bind]. rewrite Sl. cbn [mbind option_bind].
  assert (u16 (24 mod 65536 - sizeof_VCN) = 16) as -> by done. set (x := enc_parts ze 16 (e_flags ze) tt).
  assert (zlen x = 14 + zlen tt) as Lx by (by apply (parts_zlen true)).
  assert (zlen ir = zlen pre + zlen x) as Lir2 by (rewrite E, zlen_app; rewrite (parts_zlen true) by done; lia).
  assert (wf_bytes pre) as Wp by (rewrite E in Hw; by apply Forall_app in Hw as [? _]).
  assert (wf_bytes tt) as Wt by (rewrite E in Hw; unfold wf_bytes, enc_parts in Hw; rewrite !Forall_app in Hw; apply Hw).
  assert (wf_bytes x) as Wx by (unfold x, enc_parts, wf_bytes; rewrite !Forall_app; split_and!; try apply wf_le_encode; [apply (we_head _ _ Hz) | done]).
  set (m := pre ++ x). assert (zlen m = zlen pre + zlen x) as Lm by apply zlen_app. assert (wf_bytes m) as Wm by (by apply Forall_app).
  assert (forall n a, 0 <= a -> a + Z.of_nat n <= 16 + eo -> ld n m a = ld n ir a) as Hld.
  { intros n a Ha Hb. unfold m. rewrite E. rewrite !ld_prefix by lia. done. }
  unfold index_length at 1, le32_to_cpup. change IR_INDEX with 16 in *. rewrite Hld by lia.
  change (ld 4 ir (16 + 4)) with (index_length ir 16). rewrite (na_length _ _ _ _ _ _ Hn), L24. cbn [mbind option_bind].
  unfold u32. rewrite wrap_u_small by (unfold sizeof_VCN; lia). replace (eo + 24 - sizeof_VCN) with (eo + 16) by (unfold sizeof_VCN; lia).
  unfold set_index_length, put_le32, set_ih_flags.
  destruct (st_keep 4 m (16 + 4) (eo + 16)) as (m1 & -> & W1 & L1 & F1 & G1); [lia|lia|done|]. cbn [mbind option_bind].
  destruct (ir_flags _ _ _ _ _ _ _ _ Hr) as (fl & Hih & _). change IR_INDEX with 16 in Hih. unfold ih_flags in Hih |- *.
  assert (m1.[16 + 12] = Some fl) as ->.
  { destruct F1 as [_ F1]. rewrite F1, <-Hih by lia. unfold m. rewrite E, !zget_app_l by lia. done. }
  cbn [mbind option_bind]. assert (is_byte fl) as Hflb by (eapply zget_Forall; [exact Hw | exact Hih]).
  change (u8 (Z.lnot LARGE_INDEX)) with (wrap_u 8 (Z.lnot 1)). rewrite clear_low by (unfold is_byte in Hflb; lia). set (fl' := fl - fl mod 2).
  assert (is_byte fl' /\ Z.land fl' 1 = 0) as [Hfb' Hf0'].
  { unfold is_byte, fl' in *. split; [divlia|]. rewrite (land_ones' _ 1 1) by lia. change (2 ^ 1) with 2. divlia. }
  destruct (zset_ok m1 (16 + 12) fl') as (m2 & E2 & L2 & F2 & G2); [lia|]. rewrite E2.
  assert (wf_bytes m2) as W2.
  { apply zset_Some in E2 as (_ & _ & Hg). eapply (zget_Forall_2 is_byte). intros j y Hy. rewrite Hg in Hy.
    destruct (j =? _); [by injection Hy as <- | by eapply zget_Forall]. }
  assert (frame m m2 20 29) as F by frame_chain. destruct (frame_pre pre x m2 20 29 F (ltac:(lia))) as (p2 & Em2 & Lp2 & Fp2).
  assert (forall j, 0 <= j < 16 + eo -> ~ (20 <= j < 29) -> m2.[j] = ir.[j]) as Hsame.
  { intros j Hj Hj'. destruct F as [_ F]. rewrite F by lia. unfold m. rewrite E, !zget_app_l by lia. done. }
  assert (forall n a, 0 <= a -> a + Z.of_nat n <= 16 + eo -> a + Z.of_nat n <= 20 \/ 29 <= a -> ld n m2 a = ld n ir a) as Hld2.
  { intros n a Ha Hb Ho. apply ld_eq; try lia. intros j Hj. apply Hsame; lia. }
  assert (ld 4 m2 20 = Some (eo + 16)) as Hil.
  { apply holds_ld_small; [by carry | lia | lia | change (256 ^ Z.of_nat 4) with (2 ^ 32); lia]. }
  assert (wf_slot true (ze, None)) as Ws by (by split).
  assert (x = enc_slots [(ze, None)] ++ t) as Ex.
  { rewrite enc_slots_1, enc_as_parts. unfold x, tt, enc_parts, enc_len. cbn [fst snd vcn_bytes node_flag]. change (zlen []) with 0. rewrite Hr2, app_nil_r, !Z.add_0_r. by rewrite <-!app_assoc. }
  assert (zlen (enc_slots [(ze, None)]) = 16) as L16.
  { rewrite enc_slots_1, (proj2 (enc_len_range true _ Ws)). unfold enc_len. cbn [fst snd]. rewrite zlen_vcn_bytes. lia. }
  exists m2, p2, t. split_and!; [done | | by rewrite <-E, L2, L1, Lm, Lir2 | exact Hil]. eapply (iroot_ext Hr).
  - split; [by rewrite Em2, Ex | done | done | change IR_INDEX with 16; lia | | | done | by apply wf_slots_1].
    + unfold entries_offset, le32_to_cpup. change IR_INDEX with 16. rewrite Hld2 by lia. exact (na_entries _ _ _ _ _ _ Hn).
    + unfold index_length, le32_to_cpup. change (IR_INDEX + 4) with 20. rewrite Hil, L16. done.
  - by constructor.
  - intros j Hj. apply Hsame; lia.
  - exists fl'. split; [|exact Hf0']. unfold ih_flags. specialize (G2 0). rewrite Z.add_0_r in G2. apply G2. change (zlen [fl']) with 1. lia.
  - destruct (ir_alloc _ _ _ _ _ _ _ _ Hr) as (al & Ha & Hal). exists al. change IR_INDEX with 16 in *. split; [|lia]. unfold allocated_size, le32_to_cpup in *. rewrite <-Ha.
    change (16 + 8) with 24. 
    (* the word at 24 is not touched *)
    apply ld_eq; try lia. intros j Hj. destruct F1 as [_ F1]. destruct F2 as [_ F2]. rewrite F2, F1 by lia. unfold m. rewrite E, !zget_app_l by lia. done.
Qed.

(** ** Nodes with another child of the end *)

Lemma iroot_set_vcn bs rule b (s1 : list slot) y v0 (s2 : list slot) eo pre post v : iroot_parts bs rule true b (s1 ++ (y, Some v0) :: s2) eo pre post -> in_s64 v ->
  exists b', ntfs_ie_set_vcn b (IR_INDEX + eo + zlen (enc_slots s1)) v = Some b' /\ iroot_parts bs rule true b' (s1 ++ (y, Some v) :: s2) eo pre post /\ zlen b' = zlen b.
Proof.
  intros Hr Hv. pose proof (ir_node _ _ _ _ _ _ _ _ Hr) as Hn. destruct (node_set_vcn _ _ _ _ _ _ _ v _ _ Hn Hv) as (b' & E & Hn' & L).
  rewrite (na_pre _ _ _ _ _ _ Hn) in E. exists b'. split; [done|]. split; [|done]. pose proof (na_pre _ _ _ _ _ _ Hn) as Hp. pose proof (na_eo _ _ _ _ _ _ Hn) as He.
  change IR_INDEX with 16 in *. assert (forall j, 0 <= j < 16 + eo -> b'.[j] = b.[j]) as Hs.
  { intros j Hj. rewrite (na_eq _ _ _ _ _ _ Hn), (na_eq _ _ _ _ _ _ Hn'), !zget_app_l by lia. done. }
  eapply (iroot_ext Hr); [exact Hn' | | intros j Hj; apply Hs; lia | |].
  - pose proof (ir_uniform _ _ _ _ _ _ _ _ Hr) as [U1 [_ U2]%uniform_cons]%uniform_app. apply uniform_app. split; [done|]. by apply uniform_cons.
  - destruct (ir_flags _ _ _ _ _ _ _ _ Hr) as (fl & Hf & Hf1). exists fl. split; [|done]. unfold ih_flags in *. change IR_INDEX with 16 in *. by rewrite Hs by lia.
  - destruct (ir_alloc _ _ _ _ _ _ _ _ Hr) as (al & Ha & Ha1). exists al. split; [|lia]. unfold allocated_size, le32_to_cpup in *. rewrite <-Ha. change IR_INDEX with 16 in *.
    rewrite (na_eq _ _ _ _ _ _ Hn), (na_eq _ _ _ _ _ _ Hn'), !ld_prefix by lia. done.
Qed.

Lemma iblock_set_vcn bs c b (s1 : list slot) y v0 (s2 : list slot) eo pre post v : iblock_parts bs c true b (s1 ++ (y, Some v0) :: s2) eo pre post -> in_s64 v ->
  exists b', ntfs_ie_set_vcn b (IB_INDEX + eo + zlen (enc_slots s1)) v = Some b' /\ iblock_parts bs c true b' (s1 ++ (y, Some v) :: s2) eo pre post.
Proof.
  intros [Hn Hh Hl Hu] Hv. destruct (node_set_vcn _ _ _ _ _ _ _ v _ _ Hn Hv) as (b' & E & Hn' & L). change IB_INDEX with 24.
  rewrite (na_pre _ _ _ _ _ _ Hn) in E. exists b'. split; [done|]. split; [done | done | lia |].
  apply uniform_app in Hu as [U1 [_ U2]%uniform_cons]. apply uniform_app. split; [done|]. by apply uniform_cons.
Qed.

Lemma slot_end m h eo pre (s1 : list slot) (s : slot) (s2 : list slot) post : node_at m h eo pre (s1 ++ s :: s2) post ->
  ntfs_ie_end m (h + eo + zlen (enc_slots s1)) = Some (bool_decide (s2 = [])) /\
  ntfs_ie_get_by_pos m h (zlen s1) = Some (h + eo + zlen (enc_slots s1)).
Proof.
  intros Hn. rewrite <-(na_pre _ _ _ _ _ _ Hn). split; [|exact (node_by_pos Hn s1 s s2 eq_refl)]. pose proof (na_slots _ _ _ _ _ _ Hn) as Hw.
  rewrite (node_slot Hn s1 s s2 eq_refl). apply field_end; [|by rewrite zlen_app]. destruct s2 as [|t s2].
  - apply wf_slots_app in Hw as [_ Hw]; [|done]. by apply wf_slots_1 in Hw.
  - by apply wf_slots_split in Hw as (_ & Hw & _).
Qed.

(** The sequence of a list of slots that ends with one that has a child. *)
Lemma seq_snoc_child T (s1 : list slot) e c vs (xs : list ent) : seq_of T (s1 ++ [(e, Some c)]) vs xs ->
  exists v1 x1 vc xc, seq_of T s1 v1 x1 /\ T c vc xc /\ vs = v1 ++ vc /\ xs = (x1 ++ xc) ++ [e].
Proof.
  intros (v1 & x1 & vc & xe & H1 & (xc & Hc & ->)%seq_1 & -> & ->)%seq_app. exists v1, x1, vc, xc. by rewrite app_assoc.
Qed.
