(* ===== verification/IndexRmLeaf.v ===== *)
(** ntfs_index_rm_leaf (libntfs-3g/index.c) as a step on the tree: the block of a
    path is no longer used, its parent loses the child, or has another one for the
    end, and the entry that goes is added again. *)

From S2P Require Import Prelude Mst Device AttrIo AttrMst Names Collate Index IndexSpec IndexNode IndexBlock IndexMake IndexBitmap IndexTree IndexLookup IndexRoot IndexSplit IndexAdd IndexNext IndexRm IndexTake IndexLeaf.
Local Open Scope Z_scope.
Local Open Scope c_scope.
Set Default Proof Using "Type*".
#[local] Arguments le_encode : simpl never.

(** ** Nodes *)

Lemma node_zero m h eo pre (es : list slot) (z : slot) post : node_at m h eo pre (es ++ [z]) post ->
  ntfs_ih_zero_entry m h = Some (bool_decide (es = [])) /\ ntfs_ih_one_entry m h = Some (zlen es =? 1).
Proof.
  intros Hn. unfold ntfs_ih_zero_entry, ntfs_ih_one_entry. rewrite (node_numof Hn es z eq_refl). cbn [mbind option_bind].
  split; [|done]. destruct es as [|s es]; [done|]. rewrite zlen_cons. pose proof (zlen_nonneg es).
  rewrite (proj2 (Z.eqb_neq _ 0)) by lia. by rewrite bool_decide_false.
Qed.

(** An entry at the right of a path: the end of the root at least. *)
Lemma path_right bs q f sl d p c vl vr (xl xr : list ent) : path bs q f sl d p c vl vr xl xr -> xr <> [].
Proof. induction 1 as [|d p v vl0 vr0 xl0 xr0 b s1 e c s2 vl vr xl xr ys z H0 IH Hb H1 H2 E]; [done|]. by destruct ys. Qed.

(** Where a path begins. *)
Lemma path_child bs q f sl d u (s1 : list slot) p c vl vr (xl xr : list ent) : path bs q f sl d ((u, s1) :: p) c vl vr xl xr ->
  forall d' vc xc, tree bs q f d' c vc xc -> exists i, c = i * q /\ block_number i.
Proof. intros _ d' vc xc (? & ? & ? & ? & ((i & ? & ?) & _) & _)%tree_unfold. by exists i. Qed.

(** The last entry of an inner node. *)
Lemma last_inner (s1 : list slot) : uniform true s1 -> s1 <> [] -> exists s0 y v, s1 = s0 ++ [(y, Some v)].
Proof.
  intros Hu Hne. destruct (exists_last Hne) as (s0 & [y c] & ->). apply uniform_app in Hu as [_ [Hc _]%uniform_cons].
  apply bool_decide_eq_true in Hc as [v Hc]. cbn in Hc. subst c. by exists s0, y, v.
Qed.

Section reparent.
Context {R A : Type} `{!AttrOps A, !AttrResize A, !RootOps R A}.
Context (malloc : Z -> bool) (memcmp : list Z -> list Z -> Z) (upcase : list Z) (upcase_len cluster_size cluster_size_bits : Z) (fresh : list Z).
Implicit Types (ni : inode R A) (x : context).

(** The end of a node takes over the child of the entry before it. *)
Lemma reparent_end_steps fuel rounds ni x (in_ir : bool) b b' eo pre (s0 : list slot) y v (s : slot) post :
  let ih := if in_ir then IR_INDEX else IB_INDEX in
  node_at b ih eo pre ((s0 ++ [(y, Some v)]) ++ [s]) post -> ntfs_icx_parent_pos x = Some (zlen (s0 ++ [(y, Some v)])) ->
  ntfs_ie_set_vcn b (ih + eo + zlen (enc_slots (s0 ++ [(y, Some v)]))) v = Some b' ->
  ntfs_ih_reparent_end malloc memcmp upcase upcase_len cluster_size cluster_size_bits fresh fuel rounds ni x in_ir b =
  ntfs_ih_takeout malloc memcmp upcase upcase_len cluster_size cluster_size_bits fresh fuel rounds ni x in_ir b' (ih + eo + zlen (enc_slots s0)).
Proof.
  cbv zeta. intros Hn Hp Hset. unfold ntfs_ih_reparent_end. rewrite Hp. cbn [mbind option_bind].
  destruct (slot_end _ _ _ _ _ _ _ _ Hn) as [_ ->]. cbn [mbind option_bind]. pose proof (na_pre _ _ _ _ _ _ Hn) as Hpre.
  rewrite <-app_assoc in Hn. cbn [app] in Hn. pose proof (node_prev _ _ _ _ _ _ _ _ Hn) as Hprev. rewrite Hpre in Hprev.
  unfold slot in *. rewrite Hprev by done. cbn [mbind option_bind]. pose proof (slot_wf _ _ _ _ _ _ _ _ Hn) as Hw.
  assert (ntfs_ie_get_vcn b ((if in_ir then IR_INDEX else IB_INDEX) + eo + zlen (enc_slots s0)) = Some v) as ->.
  { rewrite (node_slot Hn s0 (y, Some v) [s] eq_refl). apply (field_vcn false (y, Some v)); [by apply Hw | by rewrite zlen_app, Hpre | done]. }
  cbn [mbind option_bind]. rewrite Hset. done.
Qed.
End reparent.

(** ** The parent of a block that is not used any more *)

Section leaf.
Context {R A : Type} `{!AttrOps A, !AttrResize A, !RootOps R A, !AttrLaws A, !AttrReliable A, !AttrGrowLaws A, !RootLaws R A, !RootReliable R A}.
Context (bs vb q : Z) (G : geometry bs vb q) (malloc : Z -> bool) (fresh : list Z) (rule : Z).
Hypothesis Hfresh : wf_bytes fresh /\ zlen fresh = 8.
Hypothesis Hmax : ir_max (R := R) + 292 <= bs.
Context (memcmp : list Z -> list Z -> Z) (upcase : list Z) (upcase_len cluster_size cluster_size_bits : Z).
Context {collate : COLLATE} `{!KeyOrder collate}.
Hypothesis Hcol : ntfs_get_collate_function memcmp upcase upcase_len rule = Some collate.
Hypothesis Hvb : vb = if cluster_size <=? bs then cluster_size_bits else 9.
Hypothesis Hmalloc : malloc bs = true.
Context (fuel extra : nat).
Implicit Types (ni : inode R A) (x : context).
Abbreviation valid := (valid bs vb q rule (collate := collate)).
Abbreviation fetch_of := (fetch_of bs vb).
Abbreviation entries := (entries bs (collate := collate)).
Abbreviation takeout := (ntfs_ih_takeout malloc memcmp upcase upcase_len cluster_size cluster_size_bits fresh fuel (S (S extra))).
Abbreviation reparent_end := (ntfs_ih_reparent_end malloc memcmp upcase upcase_len cluster_size cluster_size_bits fresh fuel (S (S extra))).
Abbreviation rm_parent := (rm_parent malloc memcmp upcase upcase_len cluster_size cluster_size_bits fresh).
Abbreviation rm_leaf := (rm_leaf malloc memcmp upcase upcase_len cluster_size cluster_size_bits fresh).
Abbreviation removes_to := (removes_to bs vb q rule (collate := collate)).

(** A part of the blocks. *)
Lemma nodup_drop (a b c : list Z) : NoDup (a ++ b ++ c) -> NoDup (a ++ c).
Proof using.
  assert (a ++ b ++ c ≡ₚ b ++ a ++ c) as -> by (rewrite !app_assoc; by rewrite (Permutation_app_comm a b)). by intros (_ & _ & H)%NoDup_app.
Qed.

(** The root without its child. *)
Lemma ir_leafify_ok ni ir ze c : ir_value (root ni) = Ok ir -> iroot bs rule true ir [(ze, Some c)] ->
  exists ni' ir', ntfs_ir_leafify ni = Some ni' /\ ia ni' = ia ni /\ bm ni' = bm ni /\ ir_value (root ni') = Ok ir' /\
    iroot bs rule false ir' [(ze, None)].
Proof using AttrResize0 RootLaws0 RootReliable0 G Hmax.
  intros Hv (eo & pre & post & Hr). destruct (ir_extent Hr) as (Lir & He & _ & _ & Hz & Hpost). pose proof (ir_max_law _ _ Hv) as Hmx.
  pose proof (ge_range _ _ _ G) as Hbr. destruct (leafify_ok bs rule ir ze c eo pre post Hr) as (ir1 & pre1 & post1 & E1 & Hr1 & L1 & Hil1); [lia|].
  unfold ntfs_ir_leafify. rewrite Hv, E1. cbn [mbind option_bind]. rewrite Hil1. cbn [mbind option_bind]. rewrite s32_small by lia.
  set (ni1 := set_root ni (ir_store (root ni) ir1)). assert (ir_value (root ni1) = Ok ir1) as Hv1 by (by eapply ir_store_law).
  destruct (ir_extent Hr1) as (Lir1 & _). 
  assert (zlen (enc_slots [(ze, None)]) = 16) as L16.
  { pose proof (na_slots _ _ _ _ _ _ (ir_node _ _ _ _ _ _ _ _ Hr1)) as Hw. apply wf_slots_1 in Hw. rewrite enc_slots_1, (proj2 (enc_len_range true _ Hw)).
    unfold enc_len. cbn [fst snd]. rewrite zlen_vcn_bytes. pose proof (we_end _ _ (proj1 Hw) eq_refl). cbn [fst] in *. lia. }
  destruct (ir_truncate_ok bs rule false ni1 ir1 _ eo pre1 post1 (eo + 16) Hv1 Hr1) as (ni2 & s & -> & Hi2 & Hb2 & Hs & Hres); [lia|].
  cbn [mbind option_bind fst]. pose proof (zlen_nonneg post1). rewrite (ir_shrink _ _ _ Hv1) in Hs by (unfold IR_INDEX; lia). subst s.
  destruct Hres as (ir2 & pre2 & post2 & _ & Hv2 & Hr2 & _). exists ni2, ir2. split_and!; [done | done | done | done |]. by exists eo, pre2, post2.
Qed.

(** Block [c], at the end of the path [p], is not used any more; the entries of
    the others are [xs], and [z]. *)
Record emptied ni x ir sl d (p : list step) c vl vr (xl xr xs : list ent) z : Prop := {
  em_root : ir_value (root ni) = Ok ir /\ iroot bs rule true ir sl;
  em_path : path bs q (fetch_of ni) sl d p c vl vr xl xr;
  em_block : exists i, c = i * q /\ block_number i;
  em_seq : xl ++ xr = xs ++ [z];
  em_nodup : NoDup (vl ++ c :: vr);
  em_marked : forall nb, bm ni = Some nb -> marked q nb (vl ++ vr);
  em_open : ia_na x = true /\ exists na, ia ni = Some na;
  em_ctx : follows x p c /\ sized x bs vb /\ ib_dirty x = false;
  em_big : growable fuel ni;
  em_entries : in_order (collate := collate) xs /\ Forall (good_key collate) xs /\ Forall (small bs) (xs ++ [z]) }.

Lemma emptied_entries ni x ir sl d p c vl vr xl xr l e t z : emptied ni x ir sl d p c vl vr xl xr (l ++ e :: t) z -> entries l e t z.
Proof using. intros [_ _ _ _ _ _ _ _ _ (H1 & H2 & H3)]. by split. Qed.

Lemma emptied_clear ni x x1 ir sl d p c vl vr xl xr xs z : emptied ni x ir sl d p c vl vr xl xr xs z -> sized x1 bs vb ->
  exists ni1 s, ntfs_ibm_clear ni x1 c = Some (ni1, s) /\ (s = STATUS_OK -> emptied ni1 x ir sl d p c vl vr xl xr xs z).
Proof using G malloc AttrReliable0 AttrLaws0 AttrGrowLaws0.
  intros [Hr Hp (i & -> & Hi) Hs Hnd Hm Ho Hc Hb He] Hx1. destruct (bm ni) as [nb|] eqn:Eb.
  - destruct (Hm nb eq_refl) as [Hw Hbits]. destruct (ibm_clear_spec bs vb q G malloc ni x1 nb i Hx1 Hi Eb Hw) as (ni1 & s & nb1 & -> & [Hr1 Hi1] & Eb1 & Hw1 & Hz1 & Hk).
    exists ni1, s. split; [done|]. intros _. assert (fetch_of ni1 = fetch_of ni) as Ef by (unfold IndexLookup.fetch_of; by rewrite Hi1).
    split; try done.
    + by rewrite Hr1.
    + by rewrite Ef.
    + by exists i.
    + intros nb' E. rewrite Eb1 in E. injection E as <-. split; [done|]. intros j Hj Hin. apply Hk; [done | | by apply Hbits].
      intros ->. apply NoDup_app in Hnd as (_ & H1 & [H2 _]%NoDup_cons). apply in_app_iff in Hin as [Hin|Hin]; apply list_elem_of_In in Hin; [|done].
      apply (H1 _ Hin). constructor.
    + by rewrite Hi1.
    + unfold growable, bm_size in *. rewrite Eb in Hb. by rewrite Eb1, Hz1.
  - unfold ntfs_ibm_clear, ntfs_ibm_modify. rewrite Eb. by eexists _, _.
Qed.

(** The entry before the end and its child. *)
Lemma seq_before_end T (s0 : list slot) y v (ze : ent) vl (xl : list ent) : seq_of T (s0 ++ [(y, Some v)]) vl xl ->
  exists (x0 : list ent), xl = x0 ++ [y] /\ seq_of T (s0 ++ [(ze, Some v)]) vl (x0 ++ [ze]).
Proof using.
  intros (v1 & x1 & vc & xc & H1 & Hc & -> & ->)%seq_snoc_child. exists (x1 ++ xc). split; [done|]. apply seq_app.
  exists v1, x1, vc, (xc ++ [ze]). split_and!; [done | | done | by rewrite app_assoc]. apply seq_1. by exists xc.
Qed.

(** In the root. *)
Lemma parent_root up ni x x1 ir sl d u (s1 : list slot) c vl vr xl xr xs z : emptied ni x ir sl d [(u, s1)] c vl vr xl xr xs z ->
  ntfs_icx_parent_vcn x1 = Some u -> ntfs_icx_parent_pos x1 = Some (zlen s1) -> ib_dirty x1 = false ->
  removes_to xs z (rm_parent up fuel (S (S extra)) ni x1).
Proof using All.
  intros He Hpv Hpp Hd. pose proof He as [[Hv Hr] Hp _ Hs Hnd Hm _ _ Hb _].
  destruct (path_top _ _ _ _ _ _ _ _ _ _ Hp) as (-> & e & s2 & xr1 & -> & S1 & S2 & ->). unfold rm_parent. rewrite Hpv. cbn [mbind option_bind].
  rewrite Z.eqb_refl, Hv. cbn [mbind option_bind]. rewrite Hpp. cbn [mbind option_bind]. pose proof Hr as (eo & pre & post & Hparts).
  pose proof (ir_node _ _ _ _ _ _ _ _ Hparts) as Hn. destruct (slot_end _ _ _ _ _ _ _ _ Hn) as [Hend ->]. cbn [mbind option_bind]. rewrite Hend. cbn [mbind option_bind].
  assert (NoDup (vl ++ vr)) as Hnd' by exact (nodup_drop vl [c] vr Hnd).
  destruct (decide (s2 = [])) as [->|Hne]; [rewrite bool_decide_true by done | rewrite bool_decide_false by done]; cbn [negb].
  - assert (vr = [] /\ xr1 = []) as [-> ->] by (by inversion S2). rewrite !app_nil_r in *. apply app_inj_tail in Hs as [-> ->].
    rewrite (proj1 (node_zero _ _ _ _ _ _ _ Hn)). cbn [mbind option_bind].
    destruct (decide (s1 = [])) as [->|Hne]; [rewrite bool_decide_true by done | rewrite bool_decide_false by done].
    + assert (vl = [] /\ xs = []) as [-> ->] by (by inversion S1). destruct (ir_leafify_ok ni ir z c Hv Hr) as (ni2 & ir2 & -> & Hi2 & Hb2 & Hv2 & Hr2).
      cbn [mbind option_bind]. exists ni2, x1, Removed, ni2. split_and!; [done | done | by apply put_clean |]. intros _. exists 0%nat, [].
      split; [|constructor | constructor | apply He]. exists ir2, [(z, None)]. split; [done | | constructor |].
      * apply seq_1. by exists [].
      * intros nb Hnb. apply Hm. by rewrite <-Hb2.
    + pose proof (ir_uniform _ _ _ _ _ _ _ _ Hparts) as [Hu _]%uniform_app. destruct (last_inner s1 Hu Hne) as (s0 & y & v & ->).
      assert (in_s64 v) as Hv64.
      { pose proof (na_slots _ _ _ _ _ _ Hn) as Hw. rewrite <-app_assoc in Hw. apply wf_slots_split in Hw as (_ & [_ Hw] & _); done. }
      destruct (iroot_set_vcn bs rule ir (s0 ++ [(y, Some v)]) z c [] eo pre post v Hparts Hv64) as (b' & Eb' & Hparts' & Lb').
      erewrite (reparent_end_steps malloc memcmp upcase upcase_len cluster_size cluster_size_bits fresh fuel (S (S extra)) ni x1 true ir b'); [|exact Hn | exact Hpp | exact Eb'].
      destruct (seq_before_end _ _ _ _ z _ _ S1) as (x0 & -> & Hs0).
      rewrite <-app_assoc in Hparts'. cbn [app] in Hparts'.
      eapply (takeout_root bs vb q G malloc fresh rule Hfresh Hmax memcmp upcase upcase_len cluster_size cluster_size_bits Hcol Hvb Hmalloc fuel extra
        ni x1 d ir b' s0 y (Some v) [(z, Some v)] eo pre post vl x0 []); try done; [by rewrite app_nil_r | by eapply emptied_entries].
  - destruct (exists_last Hne) as (s2' & z2 & E2). rewrite E2 in S2. destruct (seq_last _ _ _ _ _ S2) as (zs & ->). rewrite <-E2 in S2. clear s2' E2.
    replace (xl ++ e :: zs ++ [z2.1]) with ((xl ++ e :: zs) ++ [z2.1]) in Hs by (by rewrite <-app_assoc). apply app_inj_tail in Hs as [<- <-].
    eapply (takeout_root bs vb q G malloc fresh rule Hfresh Hmax memcmp upcase upcase_len cluster_size cluster_size_bits Hcol Hvb Hmalloc fuel extra
      ni x1 d ir ir s1 e (Some c) s2 eo pre post (vl ++ vr) xl zs); try done.
    + apply seq_app. exists vl, xl, vr, (zs ++ [z2.1]). split_and!; try done. by rewrite <-app_assoc.
    + by eapply emptied_entries.
Qed.


(** In a block. *)
Lemma parent_block up ni x x1 ir sl d u (s1 : list slot) p c vl vr xl xr xs z : emptied ni x ir sl d ((u, s1) :: p) c vl vr xl xr xs z -> p <> [] ->
  follows x1 p u -> ntfs_icx_parent_vcn x1 = Some u -> ntfs_icx_parent_pos x1 = Some (zlen s1) -> sized x1 bs vb -> ia_na x1 = true -> ib_dirty x1 = false ->
  (forall ni1 vl0 vr0 xl0 xr0, emptied ni1 x1 ir sl (S d) p u vl0 vr0 xl0 xr0 xs z -> removes_to xs z (up ni1 x1)) ->
  removes_to xs z (rm_parent up fuel (S (S extra)) ni x1).
Proof using All.
  intros He Hp0 Hfo Hpv Hpp Hx1 Hop Hd Hup. pose proof He as [[Hv Hr] Hp _ Hs Hnd Hm [_ (na & Hna)] _ Hb Hes].
  destruct (path_parent _ _ _ _ _ _ _ _ _ _ _ Hp Hp0) as (vl0 & vr0 & xl0 & xr0 & b & e & s2 & vl1 & vr1 & xl1 & xr1 & ys & zu & Hpu & Hbu & S1 & S2 & Ey & -> & -> & -> & ->).
  pose proof Hbu as ((iu & Eu & Hiu) & Hf & (eo & pre & post & Hparts)). assert (0 <= u) as Hu0 by (destruct Hiu, G; nia).
  unfold IndexRm.rm_parent. rewrite Hpv. cbn [mbind option_bind]. rewrite (proj2 (Z.eqb_neq u VCN_INDEX_ROOT_PARENT)) by (unfold VCN_INDEX_ROOT_PARENT; lia).
  assert (block_size x1 = bs) as -> by apply Hx1. rewrite Hmalloc. pose proof Hf as Hf0. unfold IndexLookup.fetch_of in Hf0. rewrite Hna, Eu in Hf0.
  destruct (ib_read_fetch bs vb q G ni x1 na iu b Hx1 Hna Hiu Hf0) as (na1 & Er & Hd1). rewrite <-Eu in Er. rewrite Er. cbn [mbind option_bind]. clear Hf0 Er.
  set (ni1 := Inode (root ni) (Some na1) (bm ni)). assert (fetch_of ni1 = fetch_of ni) as Ef by (unfold IndexLookup.fetch_of; cbn; by rewrite Hna, Hd1).
  rewrite <-Ef in Hpu, S1, S2, Hf. rewrite Hpp. cbn [mbind option_bind].
  pose proof (ib_node _ _ _ _ _ _ _ _ Hparts) as Hn. destruct (slot_end _ _ _ _ _ _ _ _ Hn) as [Hend Hpos]. change 24 with IB_INDEX in Hend, Hpos.
  rewrite Hpos. cbn [mbind option_bind]. rewrite Hend. cbn [mbind option_bind].
  assert (xr0 <> []) as Hxr by (by eapply path_right). destruct (exists_last Hxr) as (zr & z0 & ->). clear Hxr.
  rewrite app_assoc, (app_assoc ys), (app_assoc (xl0 ++ xl1)) in Hs || idtac.
  destruct (decide (s2 = [])) as [->|Hne]; [rewrite bool_decide_true by done | rewrite bool_decide_false by done]; cbn [negb].
  - assert (vr1 = [] /\ xr1 = []) as [-> ->] by (by inversion S2). change ([e]) with ([] ++ [e]) in Ey. apply app_inj_tail in Ey as [<- <-].
    cbn [app] in *. replace ((xl0 ++ xl1) ++ zr ++ [z0]) with ((xl0 ++ xl1 ++ zr) ++ [z0]) in Hs by (by rewrite <-!app_assoc). apply app_inj_tail in Hs as [<- <-].
    destruct (node_zero _ _ _ _ _ _ _ Hn) as [Hz _]. change 24 with IB_INDEX in Hz. rewrite Hz. cbn [mbind option_bind].
    assert (NoDup (vl0 ++ u :: vl1 ++ vr0)) as Hnd1.
    { pose proof (nodup_drop _ [c] _ Hnd) as Hpart. by rewrite <-app_assoc in Hpart. }
    assert (forall nb, bm ni1 = Some nb -> marked q nb (vl0 ++ u :: vl1 ++ vr0)) as Hm1.
    { intros nb Hnb. specialize (Hm nb Hnb). by rewrite <-app_assoc in Hm. }
    destruct (decide (s1 = [])) as [->|Hne]; [rewrite bool_decide_true by done | rewrite bool_decide_false by done].
    + assert (vl1 = [] /\ xl1 = []) as [-> ->] by (by inversion S1). cbn [app] in *. eapply (Hup ni1 vl0 vr0 xl0 (zr ++ [z0])). split; try done.
      * by exists iu.
      * by rewrite <-app_assoc.
      * intros nb Hnb. destruct (Hm1 nb Hnb) as [H1 H2]. split; [done|]. intros i Hi Hin. apply H2; [done|]. in_blocks.
      * by split; [|exists na1].
    + pose proof (ib_uniform _ _ _ _ _ _ _ _ Hparts) as [Hu _]%uniform_app. destruct (last_inner s1 Hu Hne) as (s0 & y & v & ->).
      assert (in_s64 v) as Hv64.
      { pose proof (na_slots _ _ _ _ _ _ Hn) as Hw. rewrite <-app_assoc in Hw. apply wf_slots_split in Hw as (_ & [_ Hw] & _); done. }
      destruct (iblock_set_vcn bs u b (s0 ++ [(y, Some v)]) e c [] eo pre post v Hparts Hv64) as (b' & Eb' & Hparts').
      erewrite (reparent_end_steps malloc memcmp upcase upcase_len cluster_size cluster_size_bits fresh fuel (S (S extra)) ni1 x1 false b b'); [|exact Hn | exact Hpp | exact Eb'].
      destruct (seq_before_end _ _ _ _ e _ _ S1) as (x0 & -> & Hs0). rewrite <-app_assoc in Hparts'. cbn [app] in Hparts'.
      replace (xl0 ++ (x0 ++ [y]) ++ zr) with ((xl0 ++ x0) ++ y :: zr) in * by (by rewrite <-!app_assoc).
      eapply (takeout_block bs vb q G malloc fresh rule Hfresh Hmax memcmp upcase upcase_len cluster_size cluster_size_bits Hcol Hvb Hmalloc fuel extra
        ni1 x1 na1 d ir sl p u iu b' b vl0 vr0 xl0 (zr ++ [z0]) s0 y (Some v) [(e, Some v)] eo pre post vl1 x0 e (xl0 ++ x0) zr); try done.
      * by rewrite <-!app_assoc.
      * by eapply emptied_entries.
  - destruct (exists_last Hne) as (s2' & z2 & E2). rewrite E2 in S2. destruct (seq_last _ _ _ _ _ S2) as (zs & ->). rewrite <-E2 in S2. clear s2' E2.
    rewrite app_comm_cons in Ey. apply app_inj_tail in Ey as [<- <-].
    replace ((xl0 ++ xl1) ++ (e :: zs) ++ zr ++ [z0]) with (((xl0 ++ xl1) ++ e :: zs ++ zr) ++ [z0]) in Hs by (rewrite <-!app_assoc; cbn; by rewrite <-!app_assoc).
    apply app_inj_tail in Hs as [<- <-].
    eapply (takeout_block bs vb q G malloc fresh rule Hfresh Hmax memcmp upcase upcase_len cluster_size cluster_size_bits Hcol Hvb Hmalloc fuel extra
      ni1 x1 na1 d ir sl p u iu b b vl0 vr0 xl0 (zr ++ [z0]) s1 e (Some c) s2 eo pre post (vl1 ++ vr1) (xl1 ++ zs) z2.1 (xl0 ++ xl1) (zs ++ zr)); try done.
    + apply seq_app. exists vl1, xl1, vr1, (zs ++ [z2.1]). split_and!; try done. by rewrite <-app_assoc.
    + pose proof (nodup_drop _ [c] _ Hnd) as Hpart. rewrite <-app_assoc in Hpart. cbn [app] in Hpart |- *. by rewrite <-app_assoc.
    + intros nb Hnb. specialize (Hm nb Hnb). rewrite <-!app_assoc in Hm. cbn [app] in Hm |- *. by rewrite <-app_assoc.
    + by rewrite <-!app_assoc.
    + by eapply emptied_entries.
Qed.

(** The block is given back, with each parent that it leaves empty. *)
Lemma rm_leaf_ok depth : forall ni x ir sl d p c vl vr xl xr xs z, emptied ni x ir sl d p c vl vr xl xr xs z -> (length p <= depth)%nat ->
  removes_to xs z (rm_leaf depth fuel (S (S extra)) ni x).
Proof using All.
  induction depth as [|depth IH]; intros ni x ir sl d p c vl vr xl xr xs z He Hl.
  - pose proof (path_ne _ _ _ _ _ _ _ _ _ _ _ (em_path _ _ _ _ _ _ _ _ _ _ _ _ _ He)) as Hp. destruct p; [done | cbn in Hl; lia].
  - destruct p as [|[u s1] p]; [by destruct (path_ne _ _ _ _ _ _ _ _ _ _ _ (em_path _ _ _ _ _ _ _ _ _ _ _ _ _ He))|]. cbn [length] in Hl.
    destruct (em_ctx _ _ _ _ _ _ _ _ _ _ _ _ _ He) as (Hfo & Hx & Hd). pose proof (em_open _ _ _ _ _ _ _ _ _ _ _ _ _ He) as (Hop & _).
    destruct (parent_step _ _ _ _ _ Hfo) as (x1 & Edec & Hfo1 & Hpv & Hpp & Hb1 & Hv1 & Hop1). cbn [IndexRm.rm_leaf]. rewrite Edec. cbn [status_is_ok negb].
    assert (sized x1 bs vb) as Hx1 by (destruct Hx; split; congruence).
    assert ((parent_vcn x1).[pindex x1 + 1] = Some c /\ ib_dirty x1 = false) as [-> Hd1].
    { unfold ntfs_icx_parent_dec in Edec. injection Edec as <- _. cbn. replace (pindex x - 1 + 1) with (pindex x) by lia. split; [apply Hfo | done]. }
    cbn [mbind option_bind]. destruct (emptied_clear _ _ x1 _ _ _ _ _ _ _ _ _ _ _ He Hx1) as (ni1 & s & -> & Hs). cbn [mbind option_bind].
    destruct s; cbn [status_is_ok negb]; try by apply removes_fails; [|left]. specialize (Hs eq_refl).
    destruct (decide (p = [])) as [->|Hne]; [by eapply parent_root|].
    eapply parent_block; try done; try congruence. intros ni2 vl0 vr0 xl0 xr0 He2. eapply IH; [exact He2 | lia].
Qed.

Lemma ntfs_index_rm_leaf_ok ni x ir sl d p c vl vr xl xr xs z : emptied ni x ir sl d p c vl vr xl xr xs z ->
  removes_to xs z (ntfs_index_rm_leaf malloc memcmp upcase upcase_len cluster_size cluster_size_bits fresh fuel (S (S extra)) ni x).
Proof using All.
  intros He. eapply rm_leaf_ok; [exact He|]. destruct (em_ctx _ _ _ _ _ _ _ _ _ _ _ _ _ He) as ([_ _ [-> _] _] & _). unfold zlen. lia.
Qed.
End leaf.
