(* ===== verification/IndexRmNode.v ===== *)
(** ntfs_index_rm_node (libntfs-3g/index.c): the way down to the successor of an
    entry, and what is left when the successor has taken its place. *)

From S2P Require Import Prelude Mst Device AttrIo AttrMst Names Collate Index IndexSpec IndexNode IndexBlock IndexMake IndexBitmap IndexTree IndexLookup IndexRoot IndexSplit IndexAdd IndexNext IndexRm IndexTake IndexLeaf IndexRmLeaf.
Local Open Scope Z_scope.
Local Open Scope c_scope.
Set Default Proof Using "Type*".
#[local] Arguments le_encode : simpl never.

(** ** Down the first children *)

(** Only the path differs. *)
Definition kept (x x' : context) : Prop := exists pos vcn i, x' = set_parents x pos vcn i.

Lemma kept_refl x : kept x x.
Proof. exists (parent_pos x), (parent_vcn x), (pindex x). by destruct x. Qed.

Lemma kept_trans x y z : kept x y -> kept y z -> kept x z.
Proof. intros (a & b & c & ->) (a' & b' & c' & ->). by exists a', b', c'. Qed.

(** One level down. *)
Lemma step_down x (p : list step) old (s1 : list slot) c : follows x p old -> (parent_pos x).[zlen p] = Some (zlen s1) ->
  let '(x1, s) := ntfs_icx_parent_inc x in
  kept x x1 /\
  (s <> STATUS_OK /\ 31 <= zlen p \/
   s = STATUS_OK /\ exists x2 x3, store_vcn x1 c = Some x2 /\ store_pos x2 0 = Some x3 /\ kept x x3 /\
     follows x3 ((old, s1) :: p) c /\ (parent_pos x3).[zlen ((old, s1) :: p)] = Some 0).
Proof.
  intros [[Hlp Hsp] [Hlv Hsv] [Hi Hp] Hh] Hs. unfold ntfs_icx_parent_inc. split; [by eexists _, _, _|]. cbn. unfold MAX_PARENT_VCN. rewrite Hi in *.
  destruct (Z.leb_spec 32 (zlen p + 1)) as [|Hlt]; [left; by split; [|lia] | right]. split; [done|]. pose proof (zlen_nonneg p).
  unfold store_vcn, store_pos. cbn. destruct (zset_keeps (parent_vcn x) (zlen p + 1) c) as (v' & Ev & Hlv' & Hgv); [lia|].
  rewrite Ev. cbn [mbind option_bind]. destruct (zset_keeps (parent_pos x) (zlen p + 1) 0) as (p' & Ep & Hlp' & Hgp); [lia|].
  eexists _, _. split; [reflexivity|]. cbn. rewrite Ep. cbn [mbind option_bind]. split; [reflexivity|]. split; [by eexists _, _, _|]. cbn. rewrite zlen_cons.
  split; [|done]. split; cbn; rewrite ?zlen_cons; [| | lia | done].
  - split; [lia|]. change (steps_pos p' ((old, s1) :: p)). eapply steps_pos_zset; [exact Ep | rewrite zlen_cons; lia | done].
  - split; [lia|]. change (steps_vcn v' ((old, s1) :: p)). eapply steps_vcn_zset; [exact Ev | rewrite zlen_cons; lia | done].
Qed.

Section descend.
Context {R A : Type} `{!AttrOps A, !AttrResize A, !RootOps R A, !AttrLaws A, !AttrReliable A, !AttrGrowLaws A}.
Context (bs vb q : Z) (G : geometry bs vb q).
Implicit Types (ni : inode R A) (x : context) (na : A).
Abbreviation fetch_of := (fetch_of bs vb).

(** The first leaf of a tree: [c'], with the slots [sl']; the blocks before and
    after it, and its entries and the other ones. *)
Record first_leaf f d (c : Z) vs (xs : list ent) (way : list step) c' b (sl' : list slot) vl' vr' (xc xr' : list ent) zc : Prop := {
  fl_block : block_at bs q f c' false b sl';
  fl_slots : fst <$> sl' = xc ++ [zc];
  fl_blocks : vs = vl' ++ c' :: vr';
  fl_entries : xs = xc ++ xr';
  fl_path : forall f' sl p vl vr xl xr, (forall u, In u (vl' ++ vr') -> f' u = f u) -> path bs q f' sl d p c vl vr xl xr ->
    path bs q f' sl 0 (way ++ p) c' (vl ++ vl') (vr' ++ vr) xl (xr' ++ xr) }.

Lemma first_leaf_here f c vs (xs : list ent) : tree bs q f 0 c vs xs -> exists b sl' zc, first_leaf f 0 c vs xs [] c b sl' [] [] xs [] zc.
Proof using.
  intros (b & sl & vs' & z & Hb & -> & [-> Hs]%seq_leaf_fst)%tree_unfold. exists b, sl, z. split; try done.
  - by rewrite app_nil_r.
  - intros f' sl' p vl vr xl xr _ Hp. by rewrite app_nil_r.
Qed.

(** The first leaf of a tree is that of its first child. *)
Lemma first_leaf_up f d c b e0 v0 (s2 : list slot) vc vr1 (xc xr1 ys : list ent) z : block_at bs q f c true b ((e0, Some v0) :: s2) ->
  seq_of (tree bs q f d) s2 vr1 xr1 -> e0 :: xr1 = ys ++ [z] -> forall way c' b' sl' vl' vr' xc' xr' zc,
  first_leaf f d v0 vc xc way c' b' sl' vl' vr' xc' xr' zc ->
  first_leaf f (S d) c (c :: vc ++ vr1) (xc ++ ys) (way ++ [(c, [])]) c' b' sl' (c :: vl') (vr' ++ vr1) xc' (xr' ++ ys) zc.
Proof using.
  intros Hb S2 Ey way c' b' sl' vl' vr' xc' xr' zc [H1 H2 -> -> Hp]. split; try done.
  - by rewrite <-!app_assoc.
  - by rewrite <-app_assoc.
  - intros f' sl p vl vr xl xr Hf Hpath. assert (path bs q f' sl d ((c, []) :: p) v0 (vl ++ c :: []) (vr1 ++ vr) (xl ++ []) (ys ++ xr)) as Hpath'.
    { refine (path_node bs q f' sl d p c vl vr xl xr b [] e0 v0 s2 [] vr1 [] xr1 ys z Hpath _ (seq_nil _) _ Ey).
      - destruct Hb as (Hi & Hb & Hib). split_and!; [done | | done]. rewrite Hf by in_blocks. done.
      - eapply (kids_ext bs q f f' (S d)); [|exact S2]. intros u Hu. apply Hf. in_blocks. }
    apply Hp in Hpath'; [|intros u Hu; apply Hf; in_blocks]. rewrite <-!app_assoc in *. cbn [app] in *. by rewrite app_nil_r in Hpath'.
Qed.

Lemma rm_descend_ok fuel : forall d ni x na (p : list step) old (s1 : list slot) c vs (xs : list ent), 31 < zlen p + Z.of_nat fuel -> ia ni = Some na ->
  sized x bs vb -> follows x p old -> (parent_pos x).[zlen p] = Some (zlen s1) -> tree bs q (fetch_of ni) d c vs xs ->
  exists ni' x' r, rm_descend fuel ni x c = Some (ni', x', r) /\ same_data ni na ni' /\ kept x x' /\
    match r with
    | Err _ => 31 <= zlen p + Z.of_nat d
    | Ok (b, ie) => exists way c' sl' vl' vr' xc xr' zc, first_leaf (fetch_of ni) d c vs xs way c' b sl' vl' vr' xc xr' zc /\
        follows x' (way ++ (old, s1) :: p) c' /\ exists eo, entries_offset b IB_INDEX = Some eo /\ ie = IB_INDEX + eo
    end.
Proof using All.
  induction fuel as [|fuel IH]; intros d ni x na p old s1 c vs xs Hfuel Hna Hx Hfo Hpos Ht; [pose proof (fo_index _ _ _ Hfo); lia|].
  pose proof Ht as Ht0. apply tree_unfold in Ht0 as (b & sl & vs' & z & Hb & -> & Hs). pose proof Hb as ((i & Ei & Hi) & Hf & (eo & pre & post & Hparts)).
  cbn [rm_descend]. unfold IndexLookup.fetch_of in Hf. rewrite Hna, Ei in Hf. destruct (ib_read_fetch bs vb q G ni x na i b Hx Hna Hi Hf) as (na1 & Er & Hd1).
  rewrite <-Ei in Er. rewrite Er. cbn [mbind option_bind]. set (ni1 := Inode (root ni) (Some na1) (bm ni)).
  assert (same_data ni na ni1) as Hsame by (split_and!; [done | done | by exists na1]).
  assert (fetch_of ni1 = fetch_of ni) as Ef by (unfold IndexLookup.fetch_of; cbn; by rewrite Hna, Hd1).
  pose proof (ib_node _ _ _ _ _ _ _ _ Hparts) as Hn. pose proof (na_entries _ _ _ _ _ _ Hn) as Heo. change 24 with IB_INDEX in Heo.
  assert (ntfs_ie_get_first b IB_INDEX = Some (IB_INDEX + eo)) as -> by (unfold ntfs_ie_get_first; by rewrite Heo). cbn [mbind option_bind].
  pose proof (step_down x p old s1 c Hfo Hpos) as Hstep. destruct (ntfs_icx_parent_inc x) as [x1 s]. destruct Hstep as (Hk1 & Hstep).
  destruct Hstep as [[Hs0 Hdeep]|(-> & x2 & x3 & -> & Hst & Hk3 & Hfo3 & Hp3)].
  { assert (status_is_ok s = false) as -> by (by destruct s). eexists _, _, _. split; [reflexivity|]. split_and!; [done | done | lia]. }
  cbn [status_is_ok negb mbind option_bind]. rewrite Hst. cbn [mbind option_bind]. destruct (ib_flags_ok Hparts) as (fl & Hfl & Hfl1).
  change 24 with IB_INDEX in Hfl. rewrite Hfl. cbn [mbind option_bind]. change NODE_MASK with 1. rewrite Hfl1.
  destruct d as [|d]; cbn [inner kids] in *; [change (Z.b2z false =? LEAF_NODE) with true | change (Z.b2z true =? LEAF_NODE) with false]; cbv iota.
  - eexists _, _, _. split; [reflexivity|]. split; [done|]. split; [done|]. apply seq_leaf_fst in Hs as [-> Hs].
    exists [], c, sl, [], [], xs, [], z. split; [|split; [done | by exists eo]]. split; try done; [by rewrite app_nil_r|].
    intros f' sl' p' vl vr xl xr _ Hp. by rewrite app_nil_r.
  - destruct sl as [|[e0 c0] s2]; [inversion Hs; by destruct xs|]. pose proof (ib_uniform _ _ _ _ _ _ _ _ Hparts) as [Hc0 _]%uniform_cons.
    apply bool_decide_eq_true in Hc0 as [v0 Hc0]. cbn [snd] in Hc0. subst c0. pose proof (node_slot Hn [] (e0, Some v0) s2 eq_refl) as Eb. cbn [app] in Eb.
    destruct (wf_slots_in [] _ _ (na_slots _ _ _ _ _ _ Hn)) as (bb & Hw & _).
    assert (ntfs_ie_get_vcn b (IB_INDEX + eo) = Some v0) as ->.
    { rewrite Eb. eapply (field_vcn bb (e0, Some v0)); [done | | done]. pose proof (na_pre _ _ _ _ _ _ Hn) as Hpre. change 24 with IB_INDEX in Hpre. rewrite <-Hpre.
      change (enc_slots []) with (@nil Z). by rewrite app_nil_r. }
    cbn [mbind option_bind]. apply seq_cons in Hs as (vc & xc & vr1 & xr1 & Hc & S2 & -> & Exs). cbn [snd fst child_of] in *.
    assert (exists ys, e0 :: xr1 = ys ++ [z] /\ xs = xc ++ ys) as (ys & Ey & ->).
    { destruct (exists_last (l := e0 :: xr1)) as (ys & z' & E); [done|]. rewrite E, app_assoc in Exs. apply app_inj_tail in Exs as [-> <-]. by exists ys. }
    assert (sized x3 bs vb) as Hx3 by (by destruct Hk3 as (? & ? & ? & ->)). rewrite <-Ef in Hc.
    destruct (IH d ni1 x3 na1 ((old, s1) :: p) c [] v0 vc xc (ltac:(rewrite zlen_cons; lia)) eq_refl Hx3 Hfo3 Hp3 Hc) as (ni' & x' & r & -> & (H1 & H2 & na2 & H3 & H4) & Hk' & Hr).
    exists ni', x', r. split; [done|]. split; [|split; [by eapply kept_trans|]].
    { unfold same_data. rewrite H1, H2. split_and!; [done | done |]. exists na2. split; [done | by rewrite H4, Hd1]. }
    destruct r as [[b' ie]|]; [|rewrite zlen_cons in Hr; lia]. destruct Hr as (way & c' & sl' & vl' & vr' & xc' & xr' & zc & Hl & Hfo' & He). rewrite Ef in Hl.
    exists (way ++ [(c, [])]), c', sl', (c :: vl'), (vr' ++ vr1), xc', (xr' ++ ys), zc. split; [|by rewrite <-app_assoc].
    by eapply first_leaf_up.
Qed.
End descend.

(** ** An entry with children *)

(** The slots around an entry that has a child, and that is not the last one. *)
Record target (T : Z -> list Z -> list ent -> Prop) (s1 : list slot) (e : ent) cl (e2 : ent) c2 (s3 : list slot) v0 (xs : list ent)
    vl1 (xl1 : list ent) v2 (x2 : list ent) vr3 (xr3 : list ent) : Prop := {
  tg_left : forall es, seq_of T (s1 ++ [(es, Some cl)]) vl1 (xl1 ++ [es]);
  tg_child : T c2 v2 x2;
  tg_right : seq_of T s3 vr3 xr3;
  tg_blocks : v0 = vl1 ++ v2 ++ vr3;
  tg_entries : xs = xl1 ++ e :: x2 ++ e2 :: xr3 }.

Lemma inner_entry T (s1 : list slot) (s : slot) (s2 : list slot) v0 (xs : list ent) : seq_of T (s1 ++ s :: s2) v0 xs -> s2 <> [] -> uniform true (s1 ++ s :: s2) ->
  exists e cl e2 c2 s3 vl1 xl1 v2 x2 vr3 xr3, s = (e, Some cl) /\ s2 = (e2, Some c2) :: s3 /\ target T s1 e cl e2 c2 s3 v0 xs vl1 xl1 v2 x2 vr3 xr3.
Proof.
  intros Hs Hne Hu. destruct s2 as [|[e2 c2] s3]; [done|]. apply uniform_app in Hu as [_ Hu]. apply uniform_cons in Hu as [Hc Hu]. apply uniform_cons in Hu as [Hc2 _].
  apply bool_decide_eq_true in Hc as [cl Hc]. apply bool_decide_eq_true in Hc2 as [c2' Hc2]. destruct s as [e c]. cbn in Hc, Hc2. subst c c2.
  apply seq_app in Hs as (va & xa & vb & xb & Ha & Hb & -> & ->). apply seq_cons in Hb as (vc & xc & vd & xd & Hc & Hd & -> & ->). apply seq_cons in Hd as (v2 & x2 & vr3 & xr3 & H2 & H3 & -> & ->).
  cbn [fst snd child_of] in *. exists e, cl, e2, c2', s3, (va ++ vc), (xa ++ xc), v2, x2, vr3, xr3. split; [done|]. split; [done|]. split; [|done|done|by rewrite <-!app_assoc|by rewrite <-!app_assoc].
  intros es. apply seq_app. exists va, xa, vc, (xc ++ [es]). split_and!; [done | | done | by rewrite <-app_assoc]. apply seq_1. by exists xc.
Qed.

(** The bytes of a node in which an entry has given its place to another one, for
    which there is room. *)
Lemma node_replace m h eo pre (s1 : list slot) (s s' : slot) (s2 : list slot) post : node_at m h eo pre (s1 ++ s :: s2) post -> s2 <> [] -> wf_slot false s' ->
  enc_len s' <= enc_len s + zlen post -> eo + zlen (enc_slots (s1 ++ s :: s2)) - enc_len s + enc_len s' < 2 ^ 32 -> exists m' pre' post',
  (m ← ntfs_ie_delete m h (h + eo + zlen (enc_slots s1)); ntfs_ie_insert m h (enc s') (h + eo + zlen (enc_slots s1))) = Some m' /\
  node_edit m h eo pre post m' pre' (s1 ++ s' :: s2) post' /\ zlen (enc_slots (s1 ++ s' :: s2)) = zlen (enc_slots (s1 ++ s :: s2)) - enc_len s + enc_len s'.
Proof.
  intros Hn Hne Hs' Hle Hmax. pose proof (slot_wf _ _ _ _ _ _ _ _ Hn Hne) as Hs.
  destruct (enc_len_range _ _ Hs) as [Hr1 Hl1]. destruct (enc_len_range _ _ Hs') as [Hr2 Hl2].
  assert (forall w : slot, wf_slot false w -> zlen (enc_slots (s1 ++ w :: s2)) = zlen (enc_slots s1) + enc_len w + zlen (enc_slots s2)) as Hz.
  { intros w Hw. rewrite enc_slots_app, zlen_app, (zlen_enc_slots_cons false) by done. lia. }
  destruct (node_delete _ _ _ _ _ _ _ _ Hn Hne) as (m1 & pre1 & slack & E1 & Hsl & [Hn1 Hp1 L1]). pose proof (na_pre _ _ _ _ _ _ Hn) as Hpre.
  rewrite Hpre in E1. rewrite E1. cbn [mbind option_bind]. destruct (node_wf_parts _ _ _ _ _ _ Hn) as (_ & _ & Hr). rewrite (Hz s Hs) in Hr.
  destruct (node_insert m1 h eo pre1 s1 s2 (slack ++ post) s' Hn1 Hne Hs') as (m2 & pre2 & E2 & [Hn2 Hp2 L2]).
  - rewrite zlen_app. lia.
  - rewrite Hz in Hmax by done. rewrite enc_slots_app, zlen_app. lia.
  - rewrite (na_pre _ _ _ _ _ _ Hn1) in E2. exists m2, pre2, (drop (Z.to_nat (enc_len s')) (slack ++ post)). split; [done|]. split; [|rewrite !Hz by done; lia].
    split; [done | by eapply relength_twice | congruence].
Qed.

(** The sizes of the parts of a block. *)
Lemma block_extent bs vcn k b (sl : list slot) eo pre post : iblock_parts bs vcn k b sl eo pre post -> 24 + eo + zlen (enc_slots sl) + zlen post = bs.
Proof.
  intros [Hn _ Hl _]. pose proof (na_eq _ _ _ _ _ _ Hn) as E. pose proof (na_pre _ _ _ _ _ _ Hn) as Hp. rewrite E, !zlen_app in Hl. lia.
Qed.

(** ** The successor taken out of its leaf *)

Section node.
Context {R A : Type} `{!AttrOps A, !AttrResize A, !RootOps R A, !AttrLaws A, !AttrReliable A, !AttrGrowLaws A, !RootLaws R A, !RootReliable R A}.
Context (bs vb q : Z) (G : geometry bs vb q) (malloc : Z -> bool) (fresh : list Z) (rule : Z).
Hypothesis Hfresh : wf_bytes fresh /\ zlen fresh = 8.
Hypothesis Hmax : ir_max (R := R) + 292 <= bs.
Context (memcmp : list Z -> list Z -> Z) (upcase : list Z) (upcase_len cluster_size cluster_size_bits : Z).
Context {collate : COLLATE} `{!KeyOrder collate}.
Hypothesis Hcol : ntfs_get_collate_function memcmp upcase upcase_len rule = Some collate.
Hypothesis Hvb : vb = if cluster_size <=? bs then cluster_size_bits else 9.
Hypothesis Hmalloc : malloc bs = true.
Context (fuel extra : nat).
Implicit Types (ni : inode R A) (x : context).
Abbreviation fetch_of := (fetch_of bs vb).
Abbreviation removes_to := (removes_to bs vb q rule (collate := collate)).
Abbreviation rm_leaf_of := (ntfs_index_rm_leaf malloc memcmp upcase upcase_len cluster_size cluster_size_bits fresh fuel (S (S extra))).
Abbreviation emptied := (emptied bs vb q rule (collate := collate) fuel).

(** The leaf [c], at the end of the path [p], still has the entry [es] before its
    slots [sl']; without it the entries of the index are [xs], and [z]. *)
Record successor_out ni x ir sl p c b es (sl' : list slot) zc vl vr (xl xc xr xs : list ent) z : Prop := {
  so_root : ir_value (root ni) = Ok ir /\ iroot bs rule true ir sl;
  so_path : path bs q (fetch_of ni) sl 0 p c vl vr xl xr;
  so_block : block_at bs q (fetch_of ni) c false b ((es, None) :: sl');
  so_slots : fst <$> sl' = xc ++ [zc];
  so_seq : xl ++ xc ++ xr = xs ++ [z];
  so_nodup : NoDup (vl ++ c :: vr);
  so_marked : forall nb, bm ni = Some nb -> marked q nb (vl ++ c :: vr);
  so_open : ia_na x = true /\ exists na, ia ni = Some na;
  so_ctx : follows x p c /\ sized x bs vb /\ ib_dirty x = false;
  so_big : growable fuel ni;
  so_entries : in_order (collate := collate) xs /\ Forall (good_key collate) xs /\ Forall (small bs) (xs ++ [z]) }.

(** The end of ntfs_index_rm_node. *)
Definition take_successor ni x (b : list Z) (ie_succ : Z) (failed : removal) : option (inode R A * context * removal) :=
  b ← ntfs_ie_delete b IB_INDEX ie_succ;
  zero ← ntfs_ih_zero_entry b IB_INDEX;
  if zero : bool then
    out ← rm_leaf_of ni x;
    let '(ni, x, r) := out in
    Some (ni, x, match r with Removed => Removed | RoundsOut => RoundsOut | _ => failed end)
  else
    out ← ntfs_ib_write ni x b;
    let '(ni, _, s) := out in
    Some (ni, x, if status_is_ok s then Removed else failed).

(** What a round of ntfs_index_remove leaves.  After a success the index has the
    entries [xs]; if the search is to begin again, those it had, [all], with a
    bitmap of at most [n] bytes.  A failure is not reported only if [hid], and there
    is a success if [sure]. *)
Definition ends_round (n : Z) (xs all : list ent) (z : ent) (sure hid : Prop) (out : option (inode R A * context * removal)) : Prop :=
  exists ni x r ni2, out = Some (ni, x, r) /\ ntfs_index_ctx_put ni x = Some ni2 /\ (sure -> r = Removed) /\
    match r with
    | Removed => exists d vs, valid bs vb q rule (collate := collate) ni2 d vs xs z
    | Unreported => hid
    | RemoveAgain => ib_dirty x = false /\ bm_size ni <= n /\ exists d vs, valid bs vb q rule (collate := collate) ni d vs all z
    | RmFails | RoundsOut => True
    end.

Lemma ends_fails n (xs all : list ent) z (sure hid : Prop) ni x : ib_dirty x = false -> (sure -> False) -> ends_round n xs all z sure hid (Some (ni, x, RmFails)).
Proof using. intros Hx Hs. exists ni, x, RmFails, ni. split_and!; [done | by apply put_clean | by intros ?%Hs | done]. Qed.

Lemma removes_ends n (xs all : list ent) z (sure hid : Prop) out : removes_to xs z out -> (sure -> False) -> ends_round n xs all z sure hid out.
Proof using. intros (ni & x & r & ni2 & -> & Hf & Hput & Hr) Hs. exists ni, x, r, ni2. split_and!; [done | done | by intros ?%Hs |]. destruct r; try done. by apply Hr. Qed.

Lemma ends_weaken n n' (xs all : list ent) z (sure sure' hid hid' : Prop) out : n <= n' -> (sure' -> sure) -> (hid -> hid') ->
  ends_round n xs all z sure hid out -> ends_round n' xs all z sure' hid' out.
Proof using.
  intros Hn Hs Hh (ni & x & r & ni2 & -> & Hput & Hsure & Hr). exists ni, x, r, ni2. split_and!; [done | done | intros H; by apply Hsure, Hs |].
  destruct r; try done; [by apply Hh | destruct Hr as (H1 & H2 & H3); split_and!; [done | lia | done]].
Qed.

Lemma successor_emptied ni x ir sl p c b es sl' zc vl vr xl xr xs z : successor_out ni x ir sl p c b es sl' zc vl vr xl [] xr xs z ->
  emptied ni x ir sl 0 p c vl vr xl xr xs z.
Proof using.
  clear Hfresh. intros [Hr Hp (Hi & _) _ Hs Hnd Hm Ho Hc Hb He]. split; try done. intros nb Hnb. destruct (Hm nb Hnb) as [H1 H2]. split; [done|].
  intros i Hi0 Hin. apply H2; [done|]. in_blocks.
Qed.

Lemma take_successor_ok ni x ir sl p c b es sl' zc vl vr xl xc xr xs z eo failed n all (hid : Prop) :
  successor_out ni x ir sl p c b es sl' zc vl vr xl xc xr xs z -> entries_offset b IB_INDEX = Some eo -> failed = RmFails \/ failed = Unreported /\ hid ->
  ends_round n xs all z (2 <= length sl')%nat hid (take_successor ni x b (IB_INDEX + eo) failed).
Proof using All.
  intros Hso Heo Hfail. pose proof Hso as [[Hv Hr] Hp ((i & Ei & Hi) & Hf & (eo' & pre & post & Hparts)) Hsl Hs Hnd Hm [Hop (na & Hna)] (Hfo & Hx & Hd) Hb (He1 & He2 & He3)].
  pose proof (ib_node _ _ _ _ _ _ _ _ Hparts) as Hn. pose proof (na_entries _ _ _ _ _ _ Hn) as Heo2. change 24 with IB_INDEX in Heo2. rewrite Heo2 in Heo. injection Heo as ->.
  assert (sl' <> []) as Hne by (by destruct sl', xc). unfold take_successor.
  destruct (node_delete _ _ _ _ [] _ _ _ Hn Hne) as (b1 & pre1 & slack & E1 & _ & Hed). pose proof (na_pre _ _ _ _ _ _ Hn) as Hpre. rewrite Hpre in E1.
  change (zlen (enc_slots [])) with 0 in E1. rewrite Z.add_0_r in E1. change 24 with IB_INDEX in E1. rewrite E1. cbn [mbind option_bind app] in *.
  assert (iblock bs c false b1 sl') as Hib1.
  { eapply iblock_edit; [exact Hparts | exact Hed |]. pose proof (ib_uniform _ _ _ _ _ _ _ _ Hparts) as Hu. by apply uniform_cons in Hu as [_ Hu]. }
  destruct (exists_last Hne) as (es' & z' & E'). rewrite E', fmap_app in Hsl. apply app_inj_tail in Hsl as [Exc Ezc].
  pose proof (ed_node _ _ _ _ _ _ _ _ _ Hed) as Hn1. rewrite E' in Hn1. destruct (node_zero _ _ _ _ _ _ _ Hn1) as [Hz _]. change 24 with IB_INDEX in Hz. rewrite Hz. cbn [mbind option_bind].
  destruct (decide (es' = [])) as [->|Hne']; [rewrite bool_decide_true by done | rewrite bool_decide_false by done].
  - cbn in Exc. subst xc. apply successor_emptied in Hso.
    destruct (ntfs_index_rm_leaf_ok bs vb q G malloc fresh rule Hfresh Hmax memcmp upcase upcase_len cluster_size cluster_size_bits Hcol Hvb Hmalloc fuel extra _ _ _ _ _ _ _ _ _ _ _ _ _ Hso)
      as (ni2 & x2 & r & ni3 & -> & Hr1 & Hput & Hr2). cbn [mbind option_bind]. eexists _, _, _, ni3. split; [reflexivity|]. split; [done|].
    split; [subst sl'; cbn; lia|]. destruct r; try done; [by apply Hr2 | by destruct Hfail as [->|[-> ?]]].
  - rewrite Ei in Hib1. destruct (write_block bs vb q G malloc ni x na i false b1 _ Hx Hop Hna Hi Hib1) as (ni2 & s & E2 & Heff).
    destruct (ntfs_ib_write ni x b1) as [[[ni2' b3] s']|] eqn:Ew; cbn [mbind option_bind] in E2 |- *; [|done]. injection E2 as -> ->.
    unfold IndexLookup.fetch_of in Hf. rewrite Hna, Ei in Hf. pose proof (ib_write_inside bs vb q G ni x na i false b1 _ b ni2 b3 s Hx Hop Hna Hi Hib1 Hf Ew) as ->.
    cbn [status_is_ok]. eexists _, _, _, ni2. split; [reflexivity|]. split; [by apply put_clean|]. split; [done|].
    destruct (effect_written bs vb q ni na ni2 i _ _ Hna Hi Heff) as (Hr2 & Hb2 & _ & Hwr). pose proof Hwr as [(b2 & Hb2') _].
    exists (height 0 p), (vl ++ [c] ++ vr). split; [|done|done|done]. exists ir, sl. split.
    + rewrite Hr2. split; [done|]. pose proof (path_ne _ _ _ _ _ _ _ _ _ _ _ Hp). by destruct p.
    + rewrite <-Hs. eapply path_fill; [exact Hp | |].
      * eapply written_kept; [exact Hwr | by eapply path_present |]. rewrite <-Ei. by apply (nodup_out vl [] vr).
      * apply tree_unfold. exists b2, sl', [], zc. split_and!; [by rewrite Ei | done |].
        replace (xc ++ [zc]) with (fst <$> sl') by (rewrite E', fmap_app; cbn; by rewrite Exc, Ezc). apply leaf_seq.
        pose proof (ib_uniform _ _ _ _ _ _ _ _ Hparts) as Hu. by apply uniform_cons in Hu as [_ Hu].
    + done.
    + by rewrite Hb2.
Qed.

(** ** The successor in the place of the entry *)

(** A step says only how many slots it passes. *)
Lemma follows_step x (way : list step) old (s1 s1' : list slot) p c : follows x (way ++ (old, s1) :: p) c -> zlen s1 = zlen s1' -> follows x (way ++ (old, s1') :: p) c.
Proof using.
  intros [[Hl Hp] [Hl' Hv] Hi Hh] E. assert (forall w : list step, zlen (w ++ (old, s1') :: p) = zlen (w ++ (old, s1) :: p)) as Hz by (intros w; by rewrite !zlen_app, !zlen_cons).
  split; rewrite ?Hz; try done; (split; [done|]).
  - clear -Hp Hz E. induction way as [|[u w] way IH]; cbn [app steps_pos fst snd] in *; [by rewrite <-E|]. rewrite Hz. split; [apply Hp | apply IH, Hp].
  - clear -Hv Hz. induction way as [|[u w] way IH]; cbn [app steps_vcn fst snd] in *; [done|]. rewrite Hz. split; [apply Hv | apply IH, Hv].
Qed.

Lemma first_leaf_in f d c vs (xs : list ent) way c' b sl' vl' vr' xc xr' zc : first_leaf bs q f d c vs xs way c' b sl' vl' vr' xc xr' zc ->
  In c' vs /\ forall w, In w (vl' ++ vr') -> In w vs.
Proof using. clear Hfresh. intros [_ _ -> _ _]. split; [|intros w Hw]; in_blocks. Qed.

(** In the root. *)
Lemma out_root ni ni2 x ir2 d (s1 : list slot) e cl e2 c2 s3 vs (l t : list ent) z vl1 v2 (x2 : list ent) vr3 xr3 way c' b es sl' vl' vr' xc xr' zc :
  target (tree bs q (fetch_of ni) d) s1 e cl e2 c2 s3 vs ((l ++ e :: t) ++ [z]) vl1 l v2 x2 vr3 xr3 ->
  first_leaf bs q (fetch_of ni) d c2 v2 x2 way c' b ((es, None) :: sl') vl' vr' (es :: xc) xr' zc -> fst <$> sl' = xc ++ [zc] ->
  NoDup vs -> (forall nb, bm ni = Some nb -> marked q nb vs) -> entries bs (collate := collate) l e t z -> growable fuel ni ->
  ir_value (root ni2) = Ok ir2 -> iroot bs rule true ir2 (s1 ++ (es, Some cl) :: (e2, Some c2) :: s3) -> ia ni2 = ia ni -> bm ni2 = bm ni ->
  ia_na x = true -> (exists na, ia ni = Some na) -> follows x (way ++ [(VCN_INDEX_ROOT_PARENT, s1 ++ [(e, Some cl)])]) c' -> sized x bs vb -> ib_dirty x = false ->
  successor_out ni2 x ir2 (s1 ++ (es, Some cl) :: (e2, Some c2) :: s3) (way ++ [(VCN_INDEX_ROOT_PARENT, s1 ++ [(es, Some cl)])]) c' b es sl' zc
    (vl1 ++ vl') (vr' ++ vr3) (l ++ [es]) xc (xr' ++ e2 :: xr3) (l ++ t) z.
Proof using.
  intros [T1 T2 T3 -> Exs] Hl Hsl Hnd Hm Hen Hb Hv Hr Hi2 Hb2 Hop Hna Hfo Hx Hd. pose proof Hl as [Hblk _ -> -> Hpath].
  assert (fetch_of ni2 = fetch_of ni) as Ef by (unfold IndexLookup.fetch_of; by rewrite Hi2).
  assert ((vl1 ++ vl') ++ c' :: vr' ++ vr3 = vl1 ++ (vl' ++ c' :: vr') ++ vr3) as Evs by (by rewrite <-!app_assoc).
  split; try done; rewrite ?Evs, ?Ef; try done.
  - apply Hpath; [done|]. apply (path_root bs q (fetch_of ni) _ d (s1 ++ [(es, Some cl)]) e2 c2 s3); [by rewrite <-app_assoc | apply T1 | done].
  - rewrite <-!app_assoc in Exs. cbn [app] in Exs. apply app_inv_head in Exs. injection Exs as Exs. rewrite <-!app_assoc. cbn [app]. by rewrite Exs.
  - by rewrite Hb2.
  - by rewrite Hi2.
  - split; [|done]. eapply follows_step; [exact Hfo | by rewrite !zlen_app].
  - unfold growable, bm_size in *. by rewrite Hb2.
  - by apply (entries_rest _ l e).
Qed.

(** In a block. *)
Lemma out_block ni ni2 x ir sl d p u i vl vr (xl xr : list ent) (s1 : list slot) e cl e2 c2 s3 v0 (ys l t : list ent) z0 z vl1 (xl1 : list ent) v2 (x2 : list ent) vr3 xr3
    way c' b es sl' vl' vr' xc xr' zc :
  path bs q (fetch_of ni) sl (S d) p u vl vr xl xr -> u = i * q -> target (tree bs q (fetch_of ni) d) s1 e cl e2 c2 s3 v0 (ys ++ [z0]) vl1 xl1 v2 x2 vr3 xr3 ->
  first_leaf bs q (fetch_of ni) d c2 v2 x2 way c' b ((es, None) :: sl') vl' vr' (es :: xc) xr' zc -> fst <$> sl' = xc ++ [zc] ->
  l = xl ++ xl1 -> (l ++ e :: t) ++ [z] = xl ++ ys ++ xr -> NoDup (vl ++ (u :: v0) ++ vr) -> (forall nb, bm ni = Some nb -> marked q nb (vl ++ (u :: v0) ++ vr)) ->
  entries bs (collate := collate) l e t z -> growable fuel ni -> ir_value (root ni) = Ok ir -> iroot bs rule true ir sl ->
  root ni2 = root ni -> bm ni2 = bm ni -> (exists na, ia ni2 = Some na) -> written bs q (fetch_of ni) (fetch_of ni2) i true (s1 ++ (es, Some cl) :: (e2, Some c2) :: s3) ->
  ia_na x = true -> follows x (way ++ (u, s1 ++ [(e, Some cl)]) :: p) c' -> sized x bs vb -> ib_dirty x = false ->
  exists vla vra xla xra, successor_out ni2 x ir sl (way ++ (u, s1 ++ [(es, Some cl)]) :: p) c' b es sl' zc vla vra xla xc xra (l ++ t) z.
Proof using.
  clear Hfresh. intros Hp Eu [T1 T2 T3 Ev0 Eys] Hl Hsl -> Exs Hnd Hm Hen Hb Hv Hr Hr2 Hb2 Hna Hw Hop Hfo Hx Hd. pose proof Hl as [Hblk _ -> Ex2 Hpath].
  pose proof Hw as [(bu & Hbu) _]. rewrite <-Eu in Hbu. assert (~ In u (vl ++ v0 ++ vr)) as Hnu by (by apply (nodup_out vl [] (v0 ++ vr))).
  assert (forall w, In w (vl ++ v0 ++ vr) -> fetch_of ni2 w = fetch_of ni w) as Hsame.
  { pose proof (T1 es) as P1. pose proof (seq_present (bs := bs) (q := q) _ (S d) _ _ _ P1). pose proof (seq_present (bs := bs) (q := q) _ (S d) _ _ _ T3).
    pose proof (tree_present _ _ _ _ _ T2). pose proof (path_present _ _ _ _ _ _ _ _ _ Hp). rewrite Eu in Hnu. eapply written_kept; [exact Hw | | exact Hnu].
    rewrite Ev0, !Forall_app in *. tauto. }
  destruct (exists_last (l := e2 :: xr3)) as (zs & z0' & Ez); [done|].
  assert (ys = xl1 ++ e :: x2 ++ zs) as ->.
  { rewrite Ez in Eys. replace (xl1 ++ e :: x2 ++ zs ++ [z0']) with ((xl1 ++ e :: x2 ++ zs) ++ [z0']) in Eys by (by rewrite <-!app_assoc; cbn; rewrite <-!app_assoc).
    by apply app_inj_tail in Eys as [-> _]. }
  assert (t ++ [z] = x2 ++ zs ++ xr) as Et.
  { rewrite <-!app_assoc in Exs. cbn [app] in Exs. rewrite <-?app_assoc in Exs. apply app_inv_head, app_inv_head in Exs. by injection Exs. }
  assert (path bs q (fetch_of ni2) sl d ((u, s1 ++ [(es, Some cl)]) :: p) c2 (vl ++ u :: vl1) (vr3 ++ vr) (xl ++ xl1 ++ [es]) (zs ++ xr)) as Hp2.
  { refine (path_node bs q _ sl d p u vl vr xl xr bu (s1 ++ [(es, Some cl)]) e2 c2 s3 vl1 vr3 _ xr3 zs z0' _ _ _ _ Ez).
    - eapply path_ext; [exact Hp|]. intros w Hin. apply Hsame. in_blocks.
    - by rewrite <-app_assoc.
    - eapply (kids_ext bs q (fetch_of ni) _ (S d)); [|exact (T1 es)]. intros w Hin. apply Hsame. rewrite Ev0. in_blocks.
    - eapply (kids_ext bs q (fetch_of ni) _ (S d)); [|exact T3]. intros w Hin. apply Hsame. rewrite Ev0. in_blocks. }
  apply Hpath in Hp2; [|intros w Hin; apply Hsame; rewrite Ev0; in_blocks].
  assert (((vl ++ u :: vl1) ++ vl') ++ c' :: vr' ++ vr3 ++ vr = vl ++ (u :: v0) ++ vr) as Evs by (rewrite Ev0, <-!app_assoc; cbn; rewrite <-!app_assoc; cbn; by rewrite <-?app_assoc).
  eexists _, _, _, _. split; [.. | exact (entries_rest _ _ _ _ _ Hen)]; [| exact Hp2 | | exact Hsl | | | | | |]; rewrite ?Evs; try done.
  - by rewrite Hr2.
  - destruct Hblk as (Hi & Hf & Hib). split_and!; [done | | done]. rewrite Hsame by (rewrite Ev0; in_blocks). done.
  - rewrite <-(app_assoc (xl ++ xl1)), Et, Ex2, <-!app_assoc. cbn. by rewrite <-?app_assoc.
  - by rewrite Hb2.
  - split; [|done]. eapply follows_step; [exact Hfo | by rewrite !zlen_app].
  - unfold growable, bm_size in *. by rewrite Hb2.
Qed.

(** *** The replacement in the bytes *)

Abbreviation rm_replace := (rm_replace malloc memcmp upcase upcase_len cluster_size cluster_size_bits fresh fuel (S (S extra))).

Lemma replace_root ni x ir (s1 : list slot) (s s' : slot) (s2 : list slot) eo pre post b ie_succ failed : is_in_root x = true -> ir_value (root ni) = Ok ir ->
  iroot_parts bs rule true ir (s1 ++ s :: s2) eo pre post -> s2 <> [] -> wf_slot false s' -> (exists v, s'.2 = Some v) -> enc_len s' <= enc_len s + zlen post ->
  exists ni2 ir2, rm_replace ni x ir (IR_INDEX + eo + zlen (enc_slots s1)) (enc s') b ie_succ (u32 (eo + zlen (enc_slots (s1 ++ s :: s2)) + (enc_len s' - enc_len s))) failed =
      take_successor ni2 x b ie_succ failed /\
    ia ni2 = ia ni /\ bm ni2 = bm ni /\ ir_value (root ni2) = Ok ir2 /\ iroot bs rule true ir2 (s1 ++ s' :: s2).
Proof using All.
  intros Hroot Hv Hr Hne Hs' [v Hv'] Hle. pose proof (ir_node _ _ _ _ _ _ _ _ Hr) as Hn. destruct (ir_extent Hr) as (Lir & He & _ & _ & Hz & Hpost).
  pose proof (ir_max_law _ _ Hv) as Hmx. pose proof (ge_range _ _ _ G) as Hbr. pose proof (slot_wf _ _ _ _ _ _ _ _ Hn Hne) as Hs. destruct (enc_len_range _ _ Hs) as [Hrs _].
  destruct (node_replace ir IR_INDEX eo pre s1 s s' s2 post Hn Hne Hs' Hle (ltac:(lia))) as (m' & pre' & post' & E & Hed & Hz').
  destruct (enc_len_range _ _ Hs') as [Hr' _]. set (sl' := s1 ++ s' :: s2) in *. set (n := eo + zlen (enc_slots sl')).
  assert (uniform true sl') as Hu.
  { pose proof (ir_uniform _ _ _ _ _ _ _ _ Hr) as Hu. apply uniform_app in Hu as [U1 U2]. apply uniform_cons in U2 as [_ U2]. apply uniform_app. split; [done|].
    apply uniform_cons. split; [|done]. by rewrite Hv'. }
  pose proof (iroot_edit Hr _ _ _ _ Hed Hu) as Hr2. pose proof (zlen_nonneg (enc_slots sl')).
  replace (eo + zlen (enc_slots (s1 ++ s :: s2)) + (enc_len s' - enc_len s)) with n by (unfold n; lia).
  unfold IndexRm.rm_replace. rewrite Hroot. destruct (ntfs_ie_delete ir IR_INDEX _) as [m1|]; cbn [mbind option_bind] in E |- *; [|done]. rewrite E. cbn [mbind option_bind].
  set (ni1 := set_root ni (ir_store (root ni) m')). assert (ir_value (root ni1) = Ok m') as Hv1 by (eapply ir_store_law; [exact Hv | apply Hed]).
  assert (u32 n = n) as -> by (apply wrap_u_small; unfold n; lia). rewrite s32_small by (unfold n; lia).
  destruct (ir_truncate_ok bs rule true ni1 m' sl' eo pre' post' n Hv1 Hr2) as (ni2 & st & -> & Hi2 & Hb2 & Hst & Hres); [unfold n; lia|].
  pose proof (ed_len _ _ _ _ _ _ _ _ _ Hed). rewrite (ir_shrink _ _ _ Hv1) in Hst by (unfold n, IR_INDEX; lia). subst st.
  cbn [mbind option_bind fst snd status_is_ok negb].
  destruct Hres as (ir2 & pre2 & post2 & _ & Hv2 & Hr3 & _). exists ni2, ir2. split_and!; [reflexivity | done | done | done |]. by eexists eo, pre2, post2.
Qed.

Lemma replace_block ni x na i m (s1 : list slot) (s s' : slot) (s2 : list slot) eo pre post b ie_succ : is_in_root x = false ->
  iblock_parts bs (i * q) true m (s1 ++ s :: s2) eo pre post -> block_number i -> ia ni = Some na -> fetch_of ni (i * q) = Some m -> ia_na x = true -> sized x bs vb ->
  s2 <> [] -> wf_slot false s' -> (exists v, s'.2 = Some v) -> enc_len s' <= enc_len s + zlen post -> forall new_size,
  exists ni2 x2, rm_replace ni x m (IB_INDEX + eo + zlen (enc_slots s1)) (enc s') b ie_succ new_size RmFails = take_successor ni2 x2 b ie_succ RmFails /\
    root ni2 = root ni /\ bm ni2 = bm ni /\ (exists na, ia ni2 = Some na) /\ written bs q (fetch_of ni) (fetch_of ni2) i true (s1 ++ s' :: s2) /\
    parent_pos x2 = parent_pos x /\ parent_vcn x2 = parent_vcn x /\ pindex x2 = pindex x /\ ia_na x2 = true /\ sized x2 bs vb /\ ib_dirty x2 = false.
Proof using All.
  intros Hroot Hb Hi Hna Hf Hop Hx Hne Hs' [v Hv'] Hle new_size. pose proof (ib_node _ _ _ _ _ _ _ _ Hb) as Hn. pose proof (ge_range _ _ _ G) as Hbr.
  pose proof (slot_wf _ _ _ _ _ _ _ _ Hn Hne) as Hs. destruct (enc_len_range _ _ Hs) as [Hrs _]. pose proof (block_extent _ _ _ _ _ _ _ _ Hb) as Hz. pose proof (na_eo _ _ _ _ _ _ Hn).
  pose proof (zlen_nonneg post).
  destruct (node_replace m 24 eo pre s1 s s' s2 post Hn Hne Hs' Hle (ltac:(lia))) as (m' & pre' & post' & E & Hed & _). change 24 with IB_INDEX in E.
  assert (uniform true (s1 ++ s' :: s2)) as Hu.
  { pose proof (ib_uniform _ _ _ _ _ _ _ _ Hb) as Hu. apply uniform_app in Hu as [U1 U2]. apply uniform_cons in U2 as [_ U2]. apply uniform_app. split; [done|].
    apply uniform_cons. split; [|done]. by rewrite Hv'. }
  assert (iblock bs (i * q) true m' (s1 ++ s' :: s2)) as Hib by (eapply iblock_edit; [exact Hb | exact Hed | exact Hu]).
  unfold IndexRm.rm_replace. rewrite Hroot. destruct (ntfs_ie_delete m IB_INDEX _) as [m1|]; cbn [mbind option_bind] in E |- *; [|done]. rewrite E. cbn [mbind option_bind].
  unfold ntfs_icx_ib_write. change (ib (set_ib x m')) with m'. assert (sized (set_ib x m') bs vb) as Hx' by done. assert (ia_na (set_ib x m') = true) as Hop' by done.
  destruct (write_block bs vb q G malloc ni (set_ib x m') na i true m' _ Hx' Hop' Hna Hi Hib) as (ni2 & st & E2 & Heff).
  destruct (ntfs_ib_write ni (set_ib x m') m') as [[[ni2' b3] s0]|] eqn:Ew; cbn [mbind option_bind] in E2 |- *; [|done]. injection E2 as -> ->.
  unfold IndexLookup.fetch_of in Hf. rewrite Hna in Hf. pose proof (ib_write_inside bs vb q G ni (set_ib x m') na i true m' _ m ni2 b3 st Hx' Hop' Hna Hi Hib Hf Ew) as ->.
  cbn [status_is_ok negb]. destruct (effect_written bs vb q ni na ni2 i _ _ Hna Hi Heff) as (Hr2 & Hb2 & Hna2 & Hwr).
  eexists ni2, _. split; [reflexivity|]. done.
Qed.
End node.
