(* ===== verification/IndexRmPlace.v ===== *)
(** ntfs_index_rm_node (libntfs-3g/index.c), the whole: the successor of an entry
    with children goes to its place, for which the root may have to be made larger
    or the block to be split. *)

From S2P Require Import Prelude Mst Device AttrIo AttrMst Names Collate Index IndexSpec IndexNode IndexBlock IndexMake IndexBitmap IndexTree IndexLookup IndexRoot IndexSplit IndexAdd IndexNext IndexRm IndexTake IndexLeaf IndexRmLeaf IndexRmNode.
Local Open Scope Z_scope.
Local Open Scope c_scope.
Set Default Proof Using "Type*".
#[local] Arguments le_encode : simpl never.

(** With memory a copy does not fail. *)
Lemma dup_memory malloc m ie : (forall n, malloc n = true) -> ntfs_ie_dup malloc m ie <> Some None.
Proof. intros H. unfold ntfs_ie_dup. destruct (ie_length m ie); cbn; [|done]. rewrite H. by destruct (zread _ _ _). Qed.

Lemma add_vcn_memory malloc fresh e : (forall n, malloc n = true) -> ntfs_ie_add_vcn malloc fresh e <> Some None.
Proof.
  intros H. unfold ntfs_ie_add_vcn. destruct (ie_length e 0); cbn; [|done]. destruct (set_ie_length _ _ _); cbn; [|done].
  destruct (ie_length _ 0); cbn; [|done]. rewrite H. destruct (ie_flags _ 0); cbn; [|done]. by destruct (set_ie_flags _ _ _).
Qed.

(** The path of a context, at one of its blocks. *)
Lemma follows_back x (way : list step) u (s1 : list slot) p c : follows x (way ++ (u, s1) :: p) c -> follows (set_pindex x (zlen p)) p u.
Proof.
  intros [[Hl Hp] [Hl' Hv] [_ Hlt] _]. assert (zlen p < zlen (way ++ (u, s1) :: p)) as Hz by (unfold zlen, step in *; rewrite length_app; cbn [length]; lia).
  split; cbn [set_pindex set_parents parent_pos parent_vcn pindex].
  - split; [done|]. clear -Hp. induction way as [|w way IH]; cbn [app steps_pos] in *; [apply Hp | apply IH, Hp].
  - split; [done|]. clear -Hv. induction way as [|w way IH]; cbn [app steps_vcn] in *; [apply Hv | apply IH, Hv].
  - split; [done | unfold step in *; lia].
  - clear -Hv. induction way as [|w way IH]; cbn [app steps_vcn] in *; [apply Hv | apply IH, Hv].
Qed.

Section place.
Context {R A : Type} `{!AttrOps A, !AttrResize A, !RootOps R A, !AttrLaws A, !AttrReliable A, !AttrGrowLaws A, !RootLaws R A, !RootReliable R A}.
Context (bs vb q : Z) (G : geometry bs vb q) (malloc : Z -> bool) (fresh : list Z) (rule : Z).
Hypothesis Hfresh : wf_bytes fresh /\ zlen fresh = 8.
Hypothesis Hmax : ir_max (R := R) + 292 <= bs.
Context (memcmp : list Z -> list Z -> Z) (upcase : list Z) (upcase_len cluster_size cluster_size_bits : Z).
Context {collate : COLLATE} `{!KeyOrder collate}.
Hypothesis Hcol : ntfs_get_collate_function memcmp upcase upcase_len rule = Some collate.
Hypothesis Hvb : vb = if cluster_size <=? bs then cluster_size_bits else 9.
Hypothesis Hmalloc : malloc bs = true.
Context (fuel extra : nat).
Implicit Types (ni : inode R A) (x : context).
Abbreviation fetch_of := (fetch_of bs vb).
Abbreviation valid := (valid bs vb q rule (collate := collate)).
Abbreviation ends_round := (ends_round bs vb q rule (collate := collate)).
Abbreviation take_successor := (take_successor malloc fresh memcmp upcase upcase_len cluster_size cluster_size_bits fuel extra).
Abbreviation rm_node := (ntfs_index_rm_node malloc memcmp upcase upcase_len cluster_size cluster_size_bits fresh fuel (S (S extra))).
Abbreviation rm_place := (rm_place malloc memcmp upcase upcase_len cluster_size cluster_size_bits fresh fuel (S (S extra))).

(** *** The way down from the entry *)

(** Every leaf among the blocks [vs] keeps an entry when it loses one. *)
Definition leaves_keep (f : Z -> option (list Z)) (vs : list Z) : Prop := forall c b (sl : list slot), In c vs -> block_at bs q f c false b sl -> (3 <= length sl)%nat.

(** Nothing stops the way down. *)
Definition enough f (d : nat) (p : list step) (vs : list Z) : Prop := (forall n, malloc n = true) /\ zlen p + Z.of_nat d < 31 /\ leaves_keep f vs.

(** A leaf that is not empty begins with an entry. *)
Lemma leaf_first f c b (sl : list slot) (xc : list ent) zc : block_at bs q f c false b sl -> fst <$> sl = xc ++ [zc] ->
  exists eo pre post, entries_offset b IB_INDEX = Some eo /\ zlen pre = IB_INDEX + eo /\
    ((ntfs_ih_zero_entry b IB_INDEX = Some true /\ length sl = 1%nat) \/
     ntfs_ih_zero_entry b IB_INDEX = Some false /\ exists es sl' xc', sl = (es, None) :: sl' /\ xc = es :: xc' /\ fst <$> sl' = xc' ++ [zc] /\
       wf_slot false (es, None) /\ b = pre ++ enc (es, None) ++ post).
Proof using.
  intros (_ & _ & (eo & pre & post & Hparts)) Hsl. pose proof (ib_node _ _ _ _ _ _ _ _ Hparts) as Hn. pose proof (na_entries _ _ _ _ _ _ Hn) as Heo.
  pose proof (na_pre _ _ _ _ _ _ Hn) as Hpre. change 24 with IB_INDEX in *. pose proof (na_slots _ _ _ _ _ _ Hn) as (es & z & -> & Hes & Hz).
  destruct (node_zero _ _ _ _ _ _ _ Hn) as [E _]. destruct es as [|[e c'] es].
  - exists eo, pre, post. split_and!; [done | done | left; by split].
  - pose proof (ib_uniform _ _ _ _ _ _ _ _ Hparts) as Hu. cbn [app] in *. apply uniform_cons in Hu as [Hc _]. apply bool_decide_eq_false, eq_None_not_Some in Hc. cbn in Hc. subst c'.
    exists eo, pre, (enc_slots (es ++ [z]) ++ post). split_and!; [done | done |]. right. split; [done|]. apply Forall_cons in Hes as [Hw _].
    rewrite fmap_cons, fmap_app in Hsl. cbn [fst] in Hsl. rewrite app_comm_cons in Hsl. apply app_inj_tail in Hsl as [<- <-].
    exists e, (es ++ [z]), (fst <$> es). split_and!; [done | done | by rewrite fmap_app | done |].
    pose proof (node_slot Hn [] (e, None) (es ++ [z]) eq_refl) as Eb. cbn [app] in Eb. change (enc_slots []) with (@nil Z) in Eb. by rewrite app_nil_r in Eb.
Qed.

Lemma rm_node_down ni x na m eo pre (s1 : list slot) e cl e2 c2 (s3 : list slot) post p old d v2 (x2 : list ent) :
  let ih := if is_in_root x then IR_INDEX else IB_INDEX in
  node_buf ni x = Some m -> node_at m ih eo pre (s1 ++ (e, Some cl) :: (e2, Some c2) :: s3) post -> entry x = Some (ih + eo + zlen (enc_slots s1)) ->
  follows x p old -> (parent_pos x).[zlen p] = Some (zlen s1) -> ia ni = Some na -> sized x bs vb -> tree bs q (fetch_of ni) d c2 v2 x2 ->
  (exists ni1 x1, rm_node ni x = Some (ni1, x1, RmFails) /\ ib_dirty x1 = ib_dirty x /\ ~ enough (fetch_of ni) d p v2) \/
  exists ni1 x1 way c' b es sl' vl' vr' xc xr' zc eo', same_data ni na ni1 /\ kept (set_ia_na x) x1 /\
    first_leaf bs q (fetch_of ni) d c2 v2 x2 way c' b ((es, None) :: sl') vl' vr' (es :: xc) xr' zc /\ fst <$> sl' = xc ++ [zc] /\ wf_slot false (es, Some cl) /\
    follows x1 (way ++ (old, s1 ++ [(e, Some cl)]) :: p) c' /\ entries_offset b IB_INDEX = Some eo' /\
    rm_node ni x = rm_place ni1 x1 m (ih + eo + zlen (enc_slots s1)) (zlen s1) (zlen p) (enc (es, Some cl)) b (IB_INDEX + eo').
Proof using All.
  cbv zeta. set (ih := if is_in_root x then IR_INDEX else IB_INDEX). intros Hm Hn Hent Hfo Hpos Hna Hx Ht. generalize (eq_refl (rm_node ni x)).
  generalize (rm_node ni x) at 2 3 4. intros out. unfold ntfs_index_rm_node. rewrite Hna, orb_true_r. cbn [negb].
  change (block_size (set_ia_na x)) with (block_size x). assert (block_size x = bs) as -> by apply Hx. rewrite Hmalloc. cbn [negb].
  change (entry (set_ia_na x)) with (entry x). rewrite Hent. cbn [mbind option_bind]. change (node_buf ni (set_ia_na x)) with (node_buf ni x). rewrite Hm. cbn [mbind option_bind].
  pose proof (na_pre _ _ _ _ _ _ Hn) as Hpre. pose proof (slot_wf _ _ _ _ _ _ _ _ Hn (ltac:(done))) as Hw.
  pose proof (node_slot Hn s1 (e, Some cl) ((e2, Some c2) :: s3) eq_refl) as Em.
  assert (zlen (pre ++ enc_slots s1) = ih + eo + zlen (enc_slots s1)) as Lp by (rewrite zlen_app; lia).
  pose proof (field_next false _ _ (enc_slots ((e2, Some c2) :: s3) ++ post) _ Hw (eq_sym Lp)) as Hnext. rewrite <-Em in Hnext. rewrite Hnext. cbn [mbind option_bind].
  assert (ntfs_icx_parent_pos (set_ia_na x) = Some (zlen s1)) as ->.
  { unfold ntfs_icx_parent_pos. cbn. by rewrite (proj1 (fo_index _ _ _ Hfo)). }
  cbn [mbind option_bind]. destruct Hfo as [[Hlp Hsp] [Hlv Hsv] [Hi Hp] Hh]. pose proof (zlen_nonneg p).
  destruct (zset_keeps (parent_pos x) (zlen p) (zlen s1 + 1)) as (pp & Ep & Hlp' & Hgp); [lia|].
  unfold store_pos at 1. cbn [set_ia_na parent_pos parent_vcn pindex]. rewrite Hi, Ep. cbn [mbind option_bind].
  set (x0 := set_parents (set_ia_na x) pp (parent_vcn x) (zlen p)).
  assert (follows x0 p old) as Hfo0.
  { split; cbn; [split; [lia | by eapply steps_pos_zset] | done | done | by rewrite <-Hi]. }
  assert ((parent_pos x0).[zlen p] = Some (zlen (s1 ++ [(e, Some cl)]))) as Hpos0 by (cbn; rewrite Hgp, zlen_app; done).
  assert (ntfs_ie_get_vcn m (ih + eo + zlen (enc_slots s1) + enc_len (e, Some cl)) = Some c2) as ->.
  { pose proof Hn as Hn2. replace (s1 ++ (e, Some cl) :: (e2, Some c2) :: s3) with ((s1 ++ [(e, Some cl)]) ++ (e2, Some c2) :: s3) in Hn2 by (by rewrite <-app_assoc).
    destruct (wf_slots_in _ _ _ (na_slots _ _ _ _ _ _ Hn2)) as (bb & Hw2 & _). rewrite (node_slot Hn2 _ (e2, Some c2) s3 eq_refl).
    apply (field_vcn bb (e2, Some c2)); [done | | done]. rewrite zlen_app, enc_slots_app, zlen_app, enc_slots_1, (proj2 (enc_len_range _ _ Hw)). lia. }
  cbn [mbind option_bind].
  destruct (rm_descend_ok bs vb q G (S (Z.to_nat MAX_PARENT_VCN)) d ni x0 na p old _ c2 v2 x2 (ltac:(unfold MAX_PARENT_VCN; lia)) Hna Hx Hfo0 Hpos0 Ht) as (ni1 & x1 & r & -> & Hsame & Hk & Hr).
  cbn [mbind option_bind]. assert (ib_dirty x1 = ib_dirty x) as Hdx by (by destruct Hk as (? & ? & ? & ->)). destruct r as [[b ie]|]; [|intros <-; left; exists ni1, x1; split_and!; [done | done | intros (_ & Hd & _); lia]].
  destruct Hr as (way & c' & sl0 & vl' & vr' & xc0 & xr' & zc & Hl & Hfo1 & (eo' & Heo' & ->)).
  destruct (leaf_first _ _ _ _ _ _ (fl_block _ _ _ _ _ _ _ _ _ _ _ _ _ _ _ _ Hl) (fl_slots _ _ _ _ _ _ _ _ _ _ _ _ _ _ _ _ Hl)) as (eo2 & pre2 & post2 & Heo2 & Lp2 & Hz).
  rewrite Heo' in Heo2. injection Heo2 as <-.
  destruct Hz as [[-> Hone]|(-> & es & sl' & xc & -> & -> & Hsl & Hws & Eb)]; cbn [mbind option_bind].
  { intros <-. left. exists ni1, x1. split_and!; [done | done |]. intros (_ & _ & Hk2). destruct (first_leaf_in _ _ _ _ _ _ _ _ _ _ _ _ _ _ _ _ Hl) as [Hin _].
    specialize (Hk2 _ _ _ Hin (fl_block _ _ _ _ _ _ _ _ _ _ _ _ _ _ _ _ Hl)). lia. }
  pose proof (dup_child_ok malloc fresh false es pre2 post2 cl Hws (proj1 Hfresh) (proj2 Hfresh)) as Hdup. cbv zeta in Hdup. rewrite <-Eb, Lp2 in Hdup.
  destruct (ntfs_ie_dup malloc b (IB_INDEX + eo')) as [[ie|]|] eqn:E1; cbn [mbind option_bind] in Hdup |- *;
    [| intros <-; left; exists ni1, x1; split_and!; [done | done | intros (Hmem & _); by apply dup_memory in E1] | by destruct Hdup].
  destruct (ntfs_ie_add_vcn malloc fresh ie) as [[ie'|]|] eqn:E2; cbn [mbind option_bind] in Hdup |- *;
    [| intros <-; left; exists ni1, x1; split_and!; [done | done | intros (Hmem & _); by apply add_vcn_memory in E2] | by destruct Hdup].
  assert (ntfs_ie_get_vcn m (ih + eo + zlen (enc_slots s1)) = Some cl) as -> by (rewrite Em; by apply (field_vcn false (e, Some cl))).
  cbn [mbind option_bind]. destruct (ntfs_ie_set_vcn ie' 0 cl) as [ie2|]; cbn [mbind option_bind] in Hdup |- *; [|by destruct Hdup].
  assert (ie2 = enc (es, Some cl)) as -> by (by destruct Hdup as [|[= ->]]). intros <-. right.
  exists ni1, x1, way, c', b, es, sl', vl', vr', xc, xr', zc, eo'. split_and!; [done | | done | done | | done | done | done].
  - eapply kept_trans; [|exact Hk]. by exists pp, (parent_vcn x), (zlen p).
  - split; [apply Hws | apply Hw].
Qed.


(** *** The successor put in the place of the entry *)

(** The sizes that are compared. *)
Lemma place_sizes ni x m eo pre (s1 : list slot) (s s' : slot) (s2 : list slot) post pos pindex0 b ie_succ :
  let ih := if is_in_root x then IR_INDEX else IB_INDEX in
  let ent := ih + eo + zlen (enc_slots s1) in
  let new_size := u32 (eo + zlen (enc_slots (s1 ++ s :: s2)) + (enc_len s' - enc_len s)) in
  node_at m ih eo pre (s1 ++ s :: s2) post -> s2 <> [] -> wf_slot false s' ->
  rm_place ni x m ent pos pindex0 (enc s') b ie_succ =
  if enc_len s' - enc_len s <=? 0 then
    rm_replace malloc memcmp upcase upcase_len cluster_size cluster_size_bits fresh fuel (S (S extra)) ni x m ent (enc s') b ie_succ new_size RmFails
  else if is_in_root x then
    out ← ntfs_ir_make_space malloc (S (S extra)) ni x (s32 new_size);
    let '(ni, x, ret) := out in
    if negb (status_is_ok ret) then Some (ni, x, of_status ret)
    else
      match ir_value (root ni) with
      | Err _ => None
      | Ok ir =>
          ent ← ntfs_ie_get_by_pos ir IR_INDEX pos;
          rm_replace malloc memcmp upcase upcase_len cluster_size cluster_size_bits fresh fuel (S (S extra)) ni x ir ent (enc s') b ie_succ new_size Unreported
      end
  else
    al ← allocated_size m ih;
    if al <? new_size then
      out ← ntfs_ib_split malloc fresh (S (S extra)) ni (set_pindex x pindex0) m;
      let '(ni, x, ret) := out in Some (ni, x, match ret with STATUS_OK => RemoveAgain | _ => of_status ret end)
    else rm_replace malloc memcmp upcase upcase_len cluster_size cluster_size_bits fresh fuel (S (S extra)) ni x m ent (enc s') b ie_succ new_size RmFails.
Proof using.
  cbv zeta. set (ih := if is_in_root x then IR_INDEX else IB_INDEX). intros Hn Hne Hs'. unfold IndexRm.rm_place. fold ih.
  rewrite (enc_length false s'), (proj2 (enc_len_range _ _ Hs')) by done. cbn [mbind option_bind].
  pose proof (slot_wf _ _ _ _ _ _ _ _ Hn Hne) as Hs. pose proof (na_pre _ _ _ _ _ _ Hn) as Hpre.
  assert (ie_length m (ih + eo + zlen (enc_slots s1)) = Some (enc_len s)) as ->.
  { rewrite (node_slot Hn s1 s s2 eq_refl). apply (field_length false); [done | rewrite zlen_app; lia]. }
  cbn [mbind option_bind]. by rewrite (na_length _ _ _ _ _ _ Hn).
Qed.

(** Nothing was done, or the index was changed so that the search begins again. *)
Definition retries ni x (all : list ent) z (out : option (inode R A * context * removal)) : Prop :=
  exists ni2 x2 r, out = Some (ni2, x2, r) /\ ib_dirty x2 = ib_dirty x /\
    (r = RmFails \/ r = RemoveAgain /\ bm_size ni2 <= bm_size ni + 272 /\ exists d vs, valid ni2 d vs all z).

Lemma retries_ends ni x (xs all : list ent) z (sure hid : Prop) out : retries ni x all z out -> ib_dirty x = false -> (sure -> False) ->
  ends_round (bm_size ni + 272) xs all z sure hid out.
Proof using.
  intros (ni2 & x2 & r & -> & Hd & [->|(-> & Hb & Hv)]) Hx Hs; [by apply ends_fails; [congruence|]|].
  exists ni2, x2, RemoveAgain, ni2. split_and!; [done | apply put_clean; congruence | by intros ?%Hs | congruence | done | done].
Qed.

(** In the root. *)
Lemma place_root ni x d ir vs (s1 : list slot) (s s' : slot) (s2 : list slot) eo pre post all z b ie_succ pindex0 : is_in_root x = true -> sized x bs vb -> ia_na x = true ->
  ir_value (root ni) = Ok ir -> iroot_parts bs rule true ir (s1 ++ s :: s2) eo pre post -> valid ni (S d) vs all z ->
  indexed bs vb q rule ni (S d) ir (s1 ++ s :: s2) vs (all ++ [z]) -> bm_size ni + 272 < 2 ^ 30 -> s2 <> [] -> wf_slot false s' -> (exists v, s'.2 = Some v) ->
  let out := rm_place ni x ir (IR_INDEX + eo + zlen (enc_slots s1)) (zlen s1) pindex0 (enc s') b ie_succ in
  (exists ni2 ir2 failed, out = take_successor ni2 x b ie_succ failed /\ (failed = RmFails \/ failed = Unreported /\ enc_len s < enc_len s') /\
    ia ni2 = ia ni /\ bm ni2 = bm ni /\ ir_value (root ni2) = Ok ir2 /\ iroot bs rule true ir2 (s1 ++ s' :: s2)) \/
  enc_len s < enc_len s' /\ retries ni x all z out.
Proof using All.
  intros Hroot Hx Hop Hv Hr Hva Hix Hbig Hne Hs' Hc. cbv zeta. pose proof (ir_node _ _ _ _ _ _ _ _ Hr) as Hn. destruct (ir_extent Hr) as (Lir & He & _ & _ & Hz & Hpost).
  pose proof (ir_max_law _ _ Hv) as Hmx. pose proof (ge_range _ _ _ G) as Hbr. pose proof (slot_wf _ _ _ _ _ _ _ _ Hn Hne) as Hs.
  destruct (enc_len_range _ _ Hs) as [Hrs _]. destruct (enc_len_range _ _ Hs') as [Hrs' _].
  pose proof (place_sizes ni x ir eo pre s1 s s' s2 post (zlen s1) pindex0 b ie_succ) as Hpl. cbv zeta in Hpl. rewrite Hroot in Hpl. rewrite (Hpl Hn Hne Hs'). clear Hpl.
  destruct (Z.leb_spec (enc_len s' - enc_len s) 0) as [Hle|Hlt].
  - left. destruct (replace_root bs vb q G malloc fresh rule Hfresh Hmax memcmp upcase upcase_len cluster_size cluster_size_bits Hcol Hvb Hmalloc fuel extra
      ni x ir s1 s s' s2 eo pre post b ie_succ RmFails Hroot Hv Hr Hne Hs' Hc (ltac:(lia))) as (ni2 & ir2 & -> & H). exists ni2, ir2, RmFails. split; [done|]. split; [by left | done].
  - set (n := eo + zlen (enc_slots (s1 ++ s :: s2)) + (enc_len s' - enc_len s)).
    assert (u32 n = n) as Eu by (apply wrap_u_small; unfold n; lia). assert (s32 (u32 n) = n) as -> by (rewrite Eu; apply s32_small; unfold n; lia).
    unfold ntfs_ir_make_space. destruct (ir_truncate_ok bs rule true ni ir _ eo pre post n Hv Hr) as (ni1 & st & -> & Hi1 & Hb1 & _ & Hres); [unfold n; lia|].
    cbn [mbind option_bind]. destruct st; try done; cbn [mbind option_bind status_is_ok negb].
    + left. destruct Hres as (ir1 & pre1 & post1 & _ & Hv1 & Hr1 & Lp1 & _). rewrite Hv1.
      destruct (slot_end _ _ _ _ _ _ _ _ (ir_node _ _ _ _ _ _ _ _ Hr1)) as [_ ->]. cbn [mbind option_bind].
      destruct (replace_root bs vb q G malloc fresh rule Hfresh Hmax memcmp upcase upcase_len cluster_size cluster_size_bits Hcol Hvb Hmalloc fuel extra
        ni1 x ir1 s1 s s' s2 eo pre1 post1 b ie_succ Unreported Hroot Hv1 Hr1 Hne Hs' Hc (ltac:(unfold n in *; lia))) as (ni2 & ir2 & E & H1 & H2 & H3).
      fold n in E. rewrite E. exists ni2, ir2, Unreported. split_and!; [done | right; split; [done | lia] | congruence | congruence | apply H3 | apply H3].
    + right. split; [lia|]. eexists _, _, _. split; [reflexivity|]. split; [done | by left].
    + right. split; [lia|].
      assert (indexed bs vb q rule ni1 (S d) ir (s1 ++ s :: s2) vs (all ++ [z])) as Hix1.
      { destruct Hix as [[_ H1] H2 H3 H4]. split; [by split | | done | by rewrite Hb1]. unfold IndexLookup.fetch_of in *. by rewrite Hi1. }
      destruct (ir_reparent_ok bs vb q G malloc fresh rule Hfresh Hmax extra ni1 x (S d) ir _ vs (all ++ [z]) Hix1 Hx (fun _ => Hop)) as (ni' & x' & st & E & _ & Hres').
      { intros nb Hnb. rewrite Hb1 in Hnb. unfold bm_size in Hbig. rewrite Hnb in Hbig. lia. }
      rewrite E. apply reparent_dirty in E. cbn [mbind option_bind].
      destruct Hres' as [(e' & ->)|(-> & nb0 & _ & Hg & Hreb)]; cbn [status_is_ok negb of_status]; [eexists _, _, _; split_and!; [reflexivity | done | by left]|].
      eexists _, _, _. split; [reflexivity|]. split; [done|]. right. split; [done|]. destruct Hreb as (d' & ir' & sl' & vs' & Hix' & (nb & Hnb & Hzn) & _).
      unfold bm_size in Hg at 1. rewrite Hb1 in Hg. fold (bm_size ni) in Hg.
      split; [unfold bm_size at 1; rewrite Hnb; lia|]. destruct Hva as [_ V1 V2 V3]. exists d', vs'. split; try done. by exists ir', sl'.
Qed.
(** In a block. *)
Lemma place_block ni x na d ir sl (p : list step) u m vl vr vc (xl xc xr : list ent) (s1 : list slot) (s s' : slot) (s2 : list slot) z0 eo pre post all z b ie_succ pos :
  is_in_root x = false -> sized x bs vb -> ia_na x = true -> follows (set_pindex x (zlen p)) p u -> ia ni = Some na ->
  ir_value (root ni) = Ok ir -> iroot bs rule true ir sl -> path bs q (fetch_of ni) sl (S d) p u vl vr xl xr ->
  block_at bs q (fetch_of ni) u true m (s1 ++ s :: s2) -> iblock_parts bs u true m (s1 ++ s :: s2) eo pre post ->
  seq_of (tree bs q (fetch_of ni) d) (s1 ++ s :: s2) vc (xc ++ [z0]) -> s2 <> [] -> xl ++ xc ++ xr = all ++ [z] -> NoDup (vl ++ (u :: vc) ++ vr) ->
  (forall nb, bm ni = Some nb -> marked q nb (vl ++ (u :: vc) ++ vr)) -> in_order (collate := collate) all /\ Forall (good_key collate) all /\ Forall (small bs) (all ++ [z]) ->
  bm_size ni + 272 < 2 ^ 30 -> wf_slot false s' -> (exists v, s'.2 = Some v) ->
  let out := rm_place ni x m (IB_INDEX + eo + zlen (enc_slots s1)) pos (zlen p) (enc s') b ie_succ in
  (exists ni2 x2, out = take_successor ni2 x2 b ie_succ RmFails /\
    root ni2 = root ni /\ bm ni2 = bm ni /\ (exists na, ia ni2 = Some na) /\
    (exists i, u = i * q /\ written bs q (fetch_of ni) (fetch_of ni2) i true (s1 ++ s' :: s2)) /\
    parent_pos x2 = parent_pos x /\ parent_vcn x2 = parent_vcn x /\ pindex x2 = pindex x /\ ia_na x2 = true /\ sized x2 bs vb /\ ib_dirty x2 = false) \/
  enc_len s < enc_len s' /\ retries ni x all z out.
Proof using All.
  intros Hroot Hx Hop Hfo Hna Hv Hr Hp Hb Hparts Hs Hne Exs Hnd Hm (Ho & Hg & Hsm) Hbig Hs' Hc. cbv zeta.
  pose proof Hb as ((i & Eu & Hi) & Hf & _). pose proof (ib_node _ _ _ _ _ _ _ _ Hparts) as Hn. pose proof (ge_range _ _ _ G) as Hbr.
  pose proof (slot_wf _ _ _ _ _ _ _ _ Hn Hne) as Hws. destruct (enc_len_range _ _ Hws) as [Hrs _]. destruct (enc_len_range _ _ Hs') as [Hrs' _].
  pose proof (block_extent _ _ _ _ _ _ _ _ Hparts) as Hz. pose proof (na_eo _ _ _ _ _ _ Hn) as Heo. pose proof (zlen_nonneg post) as Hpost.
  pose proof (zlen_nonneg (enc_slots (s1 ++ s :: s2))) as Hz0.
  assert (forall new_size, enc_len s' <= enc_len s + zlen post -> exists ni2 x2,
    rm_replace malloc memcmp upcase upcase_len cluster_size cluster_size_bits fresh fuel (S (S extra)) ni x m (IB_INDEX + eo + zlen (enc_slots s1)) (enc s') b ie_succ new_size RmFails =
      take_successor ni2 x2 b ie_succ RmFails /\
    root ni2 = root ni /\ bm ni2 = bm ni /\ (exists na, ia ni2 = Some na) /\
    (exists i, u = i * q /\ written bs q (fetch_of ni) (fetch_of ni2) i true (s1 ++ s' :: s2)) /\
    parent_pos x2 = parent_pos x /\ parent_vcn x2 = parent_vcn x /\ pindex x2 = pindex x /\ ia_na x2 = true /\ sized x2 bs vb /\ ib_dirty x2 = false) as Hrep.
  { intros new_size Hle. rewrite Eu in Hparts, Hf.
    destruct (replace_block bs vb q G malloc fresh rule Hfresh Hmax memcmp upcase upcase_len cluster_size cluster_size_bits Hcol Hvb Hmalloc fuel extra
      ni x na i m s1 s s' s2 eo pre post b ie_succ Hroot Hparts Hi Hna Hf Hop Hx Hne Hs' Hc Hle new_size) as (ni2 & x2 & -> & H1 & H2 & H3 & H4 & H5).
    exists ni2, x2. split_and!; [done | done | done | done | by exists i | apply H5 | apply H5 | apply H5 | apply H5 | apply H5 | apply H5]. }
  pose proof (place_sizes ni x m eo pre s1 s s' s2 post pos (zlen p) b ie_succ) as Hpl. cbv zeta in Hpl. rewrite Hroot in Hpl. rewrite (Hpl Hn Hne Hs'). clear Hpl.
  destruct (Z.leb_spec (enc_len s' - enc_len s) 0) as [Hle|Hlt]; [left; apply Hrep; lia|].
  replace (allocated_size m IB_INDEX) with (Some (bs - 24)) by (symmetry; exact (ib_alloc_ok Hparts)). cbn [mbind option_bind].
  assert (forall n, 0 <= n < 2 ^ 32 -> u32 n = n) as -> by (intros n Hn32; by apply wrap_u_small); [|lia].
  destruct (Z.ltb_spec (bs - 24) (eo + zlen (enc_slots (s1 ++ s :: s2)) + (enc_len s' - enc_len s))) as [Hfull|Hroom]; [|left; apply Hrep; lia].
  right. split; [lia|]. destruct (exists_last Hne) as (s3 & zc & Es2). rewrite Es2, app_comm_cons, app_assoc in Hb, Hs.
  assert (zc.1 = z0) as Ez0.
  { destruct (seq_last _ _ _ _ _ Hs) as (ys & E). by apply app_inj_tail in E as [_ <-]. }
  rewrite <-Ez0 in Hs.
  assert (splitting bs vb q rule ni (set_pindex x (zlen p)) ir sl (S d) p u m (s1 ++ s :: s3) zc vl vr vc xl xc xr) as Hsp.
  { split; try done.
    - rewrite Exs. done.
    - by destruct s1.
    - intros nb Hnb. split; [by apply Hm|]. unfold bm_size in Hbig. rewrite Hnb in Hbig. destruct (fo_index _ _ _ Hfo). lia. }
  destruct (ntfs_ib_split_ok bs vb q G malloc fresh rule Hfresh Hmax extra _ _ _ _ _ _ _ _ _ _ _ _ _ _ _ _ Hsp) as (ni' & x' & st & E & Hx' & Hres).
  rewrite E. cbn [mbind option_bind]. apply ntfs_ib_split_dirty in E. change (ib_dirty (set_pindex x (zlen p))) with (ib_dirty x) in E.
  destruct Hres as [(e' & ->)|(Hst & nb & Hnb & (d' & ir' & sl' & vs' & Hix' & (nb' & Hnb' & Hzn) & _))]; [eexists _, _, _; split_and!; [reflexivity | done | by left]|].
  eexists _, _, _. split; [reflexivity|]. split; [done|]. right. split; [by destruct Hst as [->| ->]|]. split.
  { unfold bm_size. rewrite Hnb, Hnb'. destruct (fo_index _ _ _ Hfo). lia. }
  rewrite Exs in Hix'. exists d', vs'. split; try done. by exists ir', sl'.
Qed.
(** *** ntfs_index_rm_node *)

(** The entry that follows is not longer. *)
Definition no_longer (e : ent) (t : list ent) : Prop := match t with e' :: _ => zlen (e_rest e') <= zlen (e_rest e) | [] => True end.

Lemma no_longer_len (e es : ent) cl (t w : list ent) z : t ++ [z] = es :: w -> w <> [] -> no_longer e t <-> enc_len (es, Some cl) <= enc_len (e, Some cl).
Proof using. intros E Hw. destruct t as [|e' t]; [by injection E as _ <-|]. injection E as -> _. unfold no_longer, enc_len. cbn. lia. Qed.

(** An entry is at one place in the sequence. *)
Lemma entry_unique (l l' t w : list ent) e z : (l ++ e :: t) ++ [z] = l' ++ e :: w -> w <> [] -> in_order (collate := collate) (l ++ e :: t) -> l = l' /\ t ++ [z] = w.
Proof using KeyOrder0.
  intros E Hw Ho. destruct (exists_last Hw) as (w' & z' & ->). replace (l' ++ e :: w' ++ [z']) with ((l' ++ e :: w') ++ [z']) in E by (by rewrite <-app_assoc).
  apply app_inj_tail in E as [E <-]. pose proof (key_cmp_antisym (collate := collate) (e_key e) (e_key e)) as Hself.
  destruct (found_unique (e_key e) l t l' w' e e E Ho) as (-> & _ & ->); [lia | lia | done].
Qed.

Lemma same_fetch ni na ni' : ia ni = Some na -> same_data ni na ni' -> fetch_of ni' = fetch_of ni.
Proof using. intros Hna (_ & _ & na' & Hna' & Hd). unfold IndexLookup.fetch_of. by rewrite Hna, Hna', Hd. Qed.

(** Nothing stops the removal of [e], from an index of height [d]: there is memory,
    and neither a longer entry nor an empty leaf asks for a change of other nodes. *)
Definition unhindered ni (d : nat) (vs : list Z) (e : ent) (t : list ent) : Prop :=
  (forall n, malloc n = true) /\ (d <= 31)%nat /\ no_longer e t /\ leaves_keep (fetch_of ni) vs.

Lemma leaf_kept f d c2 v2 (x2 : list ent) way c' b es (sl' : list slot) vl' vr' (xc xr' : list ent) zc vs :
  first_leaf bs q f d c2 v2 x2 way c' b ((es, None) :: sl') vl' vr' xc xr' zc -> (forall w, In w v2 -> In w vs) -> leaves_keep f vs -> (2 <= length sl')%nat.
Proof using.
  intros Hl Hin Hk. destruct (first_leaf_in _ _ _ _ _ _ _ _ _ _ _ _ _ _ _ _ Hl) as [Hc _].
  specialize (Hk _ _ _ (Hin _ Hc) (fl_block _ _ _ _ _ _ _ _ _ _ _ _ _ _ _ _ Hl)). cbn [length] in Hk. lia.
Qed.

Lemma rm_node_root ni x d ir vs (s1 : list slot) (s : slot) (s2 : list slot) eo l t z : ir_value (root ni) = Ok ir -> iroot bs rule true ir (s1 ++ s :: s2) ->
  seq_of (tree bs q (fetch_of ni) d) (s1 ++ s :: s2) vs ((l ++ s.1 :: t) ++ [z]) -> s2 <> [] -> NoDup vs -> (forall nb, bm ni = Some nb -> marked q nb vs) ->
  entries bs (collate := collate) l s.1 t z -> growable fuel ni -> is_in_root x = true -> sized x bs vb -> ib_dirty x = false ->
  follows x [] VCN_INDEX_ROOT_PARENT -> (parent_pos x).[0] = Some (zlen s1) -> entries_offset ir IR_INDEX = Some eo ->
  entry x = Some (IR_INDEX + eo + zlen (enc_slots s1)) ->
  ends_round (bm_size ni + 272) (l ++ t) (l ++ s.1 :: t) z (unhindered ni (S d) vs s.1 t) (~ no_longer s.1 t) (rm_node ni x).
Proof using All.
  intros Hv Hr Hs Hne Hnd Hm Hen Hb Hroot Hx Hd Hfo Hpos Heo Hent. pose proof Hr as (eo0 & pre & post & Hparts). pose proof (ir_node _ _ _ _ _ _ _ _ Hparts) as Hn.
  pose proof (na_entries _ _ _ _ _ _ Hn) as Heo0. rewrite Heo in Heo0. injection Heo0 as <-. pose proof Hs as Hs0.
  destruct (inner_entry _ _ _ _ _ _ Hs Hne (ir_uniform _ _ _ _ _ _ _ _ Hparts)) as (e & cl & e2 & c2 & s3 & vl1 & xl1 & v2 & x2 & vr3 & xr3 & -> & -> & Ht). cbn [fst] in *.
  pose proof (tg_child _ _ _ _ _ _ _ _ _ _ _ _ _ _ _ Ht) as Hc2.
  assert (exists na, ia ni = Some na) as [na Hna].
  { apply tree_unfold in Hc2 as (? & ? & ? & ? & (_ & Hf & _) & _). unfold IndexLookup.fetch_of in Hf. destruct (ia ni); [eauto | done]. }
  assert (forall w, In w v2 -> In w vs) as Hin by (intros w Hw; rewrite (tg_blocks _ _ _ _ _ _ _ _ _ _ _ _ _ _ _ Ht), !in_app_iff; by right; left).
  pose proof (rm_node_down ni x na ir eo pre s1 e cl e2 c2 s3 post [] VCN_INDEX_ROOT_PARENT d v2 x2) as Hdown. cbv zeta in Hdown. rewrite Hroot in Hdown.
  assert (node_buf ni x = Some ir) as Hbuf by (unfold node_buf; by rewrite Hroot, Hv).
  destruct (Hdown Hbuf Hn Hent Hfo Hpos Hna Hx Hc2) as [(ni1 & x1 & -> & Hd1 & Hno)|H].
  { apply ends_fails; [congruence|]. intros (H1 & H2 & _ & H3). apply Hno. split_and!; [done | change (zlen (@nil step)) with 0; lia |]. intros c b sl Hc. apply H3. by apply Hin. }
  clear Hdown. destruct H as (ni1 & x1 & way & c' & b & es & sl' & vl' & vr' & xc & xr' & zc & eo' & Hsame & Hk & Hl & Hsl & Hws & Hfo1 & Heo' & ->).
  assert (l = xl1 /\ t ++ [z] = es :: (xc ++ xr') ++ e2 :: xr3) as [<- Et].
  { pose proof (tg_entries _ _ _ _ _ _ _ _ _ _ _ _ _ _ _ Ht) as E. rewrite (fl_entries _ _ _ _ _ _ _ _ _ _ _ _ _ _ _ _ Hl) in E.
    apply entry_unique in E as [-> ->]; [done | done | by destruct Hen]. }
  pose proof (no_longer_len e es cl t _ z Et (ltac:(by destruct (xc ++ xr')))) as Hnl.
  pose proof (same_fetch ni na ni1 Hna Hsame) as Ef. destruct Hsame as (Hr1 & Hb1 & na1 & Hna1 & _). rewrite <-Hr1 in Hv.
  assert (bm_size ni1 = bm_size ni) as Ebs by (unfold bm_size; by rewrite Hb1).
  assert (is_in_root x1 = true /\ sized x1 bs vb /\ ia_na x1 = true /\ ib_dirty x1 = false) as (Hroot1 & Hx1 & Hop1 & Hd1) by (by destruct Hk as (? & ? & ? & ->)).
  assert (valid ni (S d) vs (l ++ e :: t) z) as Hva by (destruct Hen; split; try done; by eexists ir, _; split; [rewrite <-Hr1; split|..]).
  assert (indexed bs vb q rule ni1 (S d) ir (s1 ++ (e, Some cl) :: (e2, Some c2) :: s3) vs ((l ++ e :: t) ++ [z])) as Hix1 by (split; rewrite ?Ef, ?Hb1; try done).
  assert (valid ni1 (S d) vs (l ++ e :: t) z) as Hva1 by (destruct Hen; split; try done; by eexists ir, _).
  destruct (place_root ni1 x1 d ir vs s1 (e, Some cl) (es, Some cl) ((e2, Some c2) :: s3) eo pre post _ z b (IB_INDEX + eo') (zlen (@nil step)) Hroot1 Hx1 Hop1 Hv Hparts Hva1 Hix1) as
    [(ni2 & ir2 & failed & -> & Hfail & Hi2 & Hb2 & Hv2 & Hr2)|[Hlt Hre]]; [unfold growable in Hb; lia | done | done | by exists cl | |].
  - rewrite <-Ef in Ht, Hl.
    eapply (ends_weaken bs vb q rule _ _ _ _ _ (2 <= length sl')%nat _ (enc_len (e, Some cl) < enc_len (es, Some cl)));
      [exact (Z.le_refl _) | intros (_ & _ & _ & H3); rewrite <-Ef in H3; by eapply leaf_kept | rewrite Hnl; lia |].
    eapply (take_successor_ok bs vb q G malloc fresh rule Hfresh Hmax memcmp upcase upcase_len cluster_size cluster_size_bits Hcol Hvb Hmalloc fuel extra); [|exact Heo' | exact Hfail].
    eapply (out_root bs vb q rule fuel ni1 ni2); [exact Ht | exact Hl | exact Hsl | done | | exact Hen | | exact Hv2 | exact Hr2 | done | done | done | by exists na1 | exact Hfo1 | done | done].
    + by rewrite Hb1.
    + unfold growable in *. by rewrite Ebs.
  - rewrite <-Ebs. eapply retries_ends; [exact Hre | done |]. intros (_ & _ & H%Hnl & _). lia.
Qed.
Lemma rm_node_block ni x d ir sl p u m vl vr (xl xr : list ent) (s1 : list slot) (s : slot) (s2 : list slot) v0 (ys : list ent) z0 eo l t z :
  ir_value (root ni) = Ok ir -> iroot bs rule true ir sl -> path bs q (fetch_of ni) sl (S d) p u vl vr xl xr ->
  block_at bs q (fetch_of ni) u true m (s1 ++ s :: s2) -> seq_of (tree bs q (fetch_of ni) d) (s1 ++ s :: s2) v0 (ys ++ [z0]) -> s2 <> [] ->
  (l ++ s.1 :: t) ++ [z] = xl ++ ys ++ xr -> NoDup (vl ++ (u :: v0) ++ vr) -> (forall nb, bm ni = Some nb -> marked q nb (vl ++ (u :: v0) ++ vr)) ->
  entries bs (collate := collate) l s.1 t z -> growable fuel ni -> is_in_root x = false -> ib x = m -> ia_na x = true -> sized x bs vb -> ib_dirty x = false ->
  follows x p u -> (parent_pos x).[zlen p] = Some (zlen s1) -> entries_offset m IB_INDEX = Some eo ->
  entry x = Some (IB_INDEX + eo + zlen (enc_slots s1)) ->
  ends_round (bm_size ni + 272) (l ++ t) (l ++ s.1 :: t) z (unhindered ni (height (S d) p) (vl ++ (u :: v0) ++ vr) s.1 t) (~ no_longer s.1 t) (rm_node ni x).
Proof using All.
  intros Hv Hr Hp Hblk Hs Hne Exs Hnd Hm Hen Hb Hroot Hib Hop Hx Hd Hfo Hpos Heo Hent. pose proof Hblk as ((i & Eu & Hi) & Hf & (eo0 & pre & post & Hparts)).
  pose proof (ib_node _ _ _ _ _ _ _ _ Hparts) as Hn.
  pose proof (na_entries _ _ _ _ _ _ Hn) as Heo0. change 24 with IB_INDEX in *. rewrite Heo in Heo0. injection Heo0 as <-. pose proof Hs as Hs0.
  destruct (inner_entry _ _ _ _ _ _ Hs Hne (ib_uniform _ _ _ _ _ _ _ _ Hparts)) as (e & cl & e2 & c2 & s3 & vl1 & xl1 & v2 & x2 & vr3 & xr3 & -> & -> & Ht). cbn [fst] in *.
  pose proof (tg_child _ _ _ _ _ _ _ _ _ _ _ _ _ _ _ Ht) as Hc2.
  assert (exists na, ia ni = Some na) as [na Hna] by (unfold IndexLookup.fetch_of in Hf; destruct (ia ni); [eauto | done]).
  assert (forall w, In w v2 -> In w (vl ++ (u :: v0) ++ vr)) as Hin.
  { intros w Hw. rewrite (tg_blocks _ _ _ _ _ _ _ _ _ _ _ _ _ _ _ Ht). clear Hfresh. in_blocks. }
  pose proof (rm_node_down ni x na m eo pre s1 e cl e2 c2 s3 post p u d v2 x2) as Hdown. cbv zeta in Hdown. rewrite Hroot in Hdown.
  assert (node_buf ni x = Some m) as Hbuf by (unfold node_buf; by rewrite Hroot, Hib).
  destruct (Hdown Hbuf Hn Hent Hfo Hpos Hna Hx Hc2) as [(ni1 & x1 & -> & Hd1 & Hno)|H].
  { apply ends_fails; [congruence|]. intros (H1 & H2 & _ & H3). apply Hno. split_and!; [done | unfold height in H2; unfold zlen; lia |]. intros c b w Hc. apply H3. by apply Hin. }
  clear Hdown. destruct H as (ni1 & x1 & way & c' & b & es & sl' & vl' & vr' & xc & xr' & zc & eo' & Hsame & Hk & Hl & Hsl & Hws & Hfo1 & Heo' & ->).
  assert (l = xl ++ xl1 /\ exists w, t ++ [z] = es :: w /\ w <> []) as (El & w & Et & Hw).
  { pose proof (tg_entries _ _ _ _ _ _ _ _ _ _ _ _ _ _ _ Ht) as E. rewrite (fl_entries _ _ _ _ _ _ _ _ _ _ _ _ _ _ _ _ Hl) in E.
    destruct (exists_last (l := e2 :: xr3)) as (zs & z0' & Ez); [done|]. rewrite Ez in E.
    assert (ys = xl1 ++ e :: es :: xc ++ xr' ++ zs) as ->.
    { replace (xl1 ++ e :: ((es :: xc) ++ xr') ++ zs ++ [z0']) with ((xl1 ++ e :: es :: xc ++ xr' ++ zs) ++ [z0']) in E by (rewrite <-!app_assoc; cbn; by rewrite <-!app_assoc).
      by apply app_inj_tail in E as [-> _]. }
    replace (xl ++ (xl1 ++ e :: es :: xc ++ xr' ++ zs) ++ xr) with ((xl ++ xl1) ++ e :: es :: (xc ++ xr' ++ zs) ++ xr) in Exs by (rewrite <-!app_assoc; cbn; by rewrite <-?app_assoc).
    apply entry_unique in Exs as [-> ->]; [| done | by destruct Hen]. split; [done|]. eexists. split; [done|]. pose proof (path_right _ _ _ _ _ _ _ _ _ _ _ Hp). by destruct (xc ++ xr' ++ zs). }
  pose proof (no_longer_len e es cl t w z Et Hw) as Hnl. pose proof (same_fetch ni na ni1 Hna Hsame) as Ef. destruct Hsame as (Hr1 & Hb1 & na1 & Hna1 & _).
  assert (is_in_root x1 = false /\ sized x1 bs vb /\ ia_na x1 = true /\ ib_dirty x1 = false) as (Hroot1 & Hx1 & Hop1 & Hd1) by (by destruct Hk as (? & ? & ? & ->)).
  assert (bm_size ni1 = bm_size ni) as Ebs by (unfold bm_size; by rewrite Hb1). assert (growable fuel ni1) as Hb1' by (unfold growable in *; by rewrite Ebs).
  pose proof Hen as [Ho Hg Hsm]. rewrite <-Ef in Ht, Hl, Hp, Hblk, Hs0. rewrite <-Hr1 in Hv. rewrite <-Hb1 in Hm.
  destruct (place_block ni1 x1 na1 d ir sl p u m vl vr v0 xl ys xr s1 (e, Some cl) (es, Some cl) ((e2, Some c2) :: s3) z0 eo pre post (l ++ e :: t) z b (IB_INDEX + eo') (zlen s1)) as
    [(ni2 & x2' & -> & Hr2 & Hb2 & Hna2 & (i2 & Eu2 & Hwr) & Hpp & Hpv & Hpi & Hop2 & Hx2 & Hd2)|[Hlt Hre]]; try done;
    [by eapply follows_back | unfold growable in Hb; lia | by exists cl | |].
  - assert (follows x2' (way ++ (u, s1 ++ [(e, Some cl)]) :: p) c') as Hfo2 by (destruct Hfo1; split; by rewrite ?Hpp, ?Hpv, ?Hpi).
    eapply (ends_weaken bs vb q rule _ _ _ _ _ (2 <= length sl')%nat _ (enc_len (e, Some cl) < enc_len (es, Some cl)));
      [exact (Z.le_refl _) | intros (_ & _ & _ & H3); rewrite <-Ef in H3; by eapply leaf_kept | rewrite Hnl; lia |].
    destruct (out_block bs vb q rule fuel ni1 ni2 x2' ir sl d p u i2 vl vr xl xr s1 e cl e2 c2 s3 v0 ys l t z0 z vl1 xl1 v2 x2 vr3 xr3 way c' b es sl' vl' vr' xc xr' zc) as (vla & vra & xla & xra & Hso); try done.
    eapply (take_successor_ok bs vb q G malloc fresh rule Hfresh Hmax memcmp upcase upcase_len cluster_size cluster_size_bits Hcol Hvb Hmalloc fuel extra); [exact Hso | exact Heo' | by left].
  - rewrite <-Ebs. eapply retries_ends; [exact Hre | done |]. intros (_ & _ & H%Hnl & _). lia.
Qed.
End place.
