(* ===== verification/IndexRmApi.v ===== *)
(** ntfs_index_remove (libntfs-3g/index.c): an entry that is removed from an index
    is not there any more, and the other ones keep their order. *)

From S2P Require Import Prelude Mst Device AttrIo AttrMst Names Collate Index IndexSpec IndexNode IndexBlock IndexMake IndexBitmap IndexTree IndexLookup IndexRoot IndexSplit IndexAdd IndexApi IndexSample IndexNext IndexRm IndexTake IndexLeaf IndexRmLeaf IndexRmNode IndexRmPlace.
Local Open Scope Z_scope.
Local Open Scope c_scope.
Set Default Proof Using "Type*".
#[local] Arguments le_encode : simpl never.

(** ** The entry that was found *)

Section rm.
Context {R A : Type} `{!AttrOps A, !AttrResize A, !RootOps R A, !AttrLaws A, !AttrReliable A, !AttrGrowLaws A, !RootLaws R A, !RootReliable R A}.
Context (bs vb q : Z) (G : geometry bs vb q) (malloc : Z -> bool) (fresh : list Z) (rule : Z).
Hypothesis Hfresh : wf_bytes fresh /\ zlen fresh = 8.
Hypothesis Hmax : ir_max (R := R) + 292 <= bs.
Context (memcmp : list Z -> list Z -> Z) (upcase : list Z) (upcase_len cluster_size cluster_size_bits : Z).
Context {collate : COLLATE} `{!KeyOrder collate}.
Hypothesis Hcol : ntfs_get_collate_function memcmp upcase upcase_len rule = Some collate.
Hypothesis Hvb : vb = if cluster_size <=? bs then cluster_size_bits else 9.
Hypothesis Hmalloc : malloc bs = true.
Context (fuel extra : nat).
Implicit Types (ni : inode R A) (x : context).
Abbreviation fetch_of := (fetch_of bs vb).
Abbreviation valid := (valid bs vb q rule (collate := collate)).
Abbreviation ends_round := (ends_round bs vb q rule (collate := collate)).
Abbreviation unhindered := (unhindered bs vb q malloc).
Abbreviation index_rm := (ntfs_index_rm malloc memcmp upcase upcase_len cluster_size cluster_size_bits fresh fuel (S (S extra))).

(** The first tests of ntfs_index_rm, in a node. *)
Lemma rm_tests ni x m eo pre (s1 : list slot) e c (s2 : list slot) post :
  let ih := if is_in_root x then IR_INDEX else IB_INDEX in
  node_at m ih eo pre (s1 ++ (e, c) :: s2) post -> s2 <> [] ->
  ntfs_ie_end m (ih + eo + zlen (enc_slots s1)) = Some false /\
  exists fl, ie_flags m (ih + eo + zlen (enc_slots s1)) = Some fl /\ flag fl INDEX_ENTRY_NODE = if c is Some _ then true else false.
Proof using.
  cbv zeta. set (ih := if is_in_root x then IR_INDEX else IB_INDEX). intros Hn Hne. destruct (slot_end _ _ _ _ _ _ _ _ Hn) as [-> _].
  rewrite bool_decide_false by done. split; [done|]. pose proof (slot_wf _ _ _ _ _ _ _ _ Hn Hne) as Hw. pose proof (na_pre _ _ _ _ _ _ Hn) as Hpre.
  eexists. split; [|exact (flag_node _ _ Hw)]. rewrite (node_slot Hn s1 (e, c) s2 eq_refl). apply (field_flags false); [done | rewrite zlen_app; lia].
Qed.

(** In the root, without children. *)
Lemma rm_root_leaf ni x ir (s1 : list slot) e (s2 : list slot) eo vs l t z : indexed bs vb q rule ni 0 ir (s1 ++ (e, None) :: s2) vs ((l ++ e :: t) ++ [z]) ->
  s2 <> [] -> entries bs (collate := collate) l e t z -> is_in_root x = true -> ib_dirty x = false -> entries_offset ir IR_INDEX = Some eo ->
  entry x = Some (IR_INDEX + eo + zlen (enc_slots s1)) ->
  exists ni' vs', index_rm ni x = Some (ni', x, Removed) /\ ntfs_index_ctx_put ni' x = Some ni' /\ valid ni' 0 vs' (l ++ t) z.
Proof using All.
  intros [[Hv (eo0 & pre & post & Hr)] Hs Hnd Hm] Hne Hen Hroot Hd Heo Hent. pose proof (ir_node _ _ _ _ _ _ _ _ Hr) as Hn.
  pose proof (na_entries _ _ _ _ _ _ Hn) as Heo0. rewrite Heo in Heo0. injection Heo0 as <-. destruct (ir_extent Hr) as (Lir & He & _ & _ & Hz & Hpost).
  pose proof (ir_max_law _ _ Hv) as Hmx. pose proof (ge_range _ _ _ G) as Hbr.
  pose proof (rm_tests ni x ir eo pre s1 e None s2 post) as Ht. cbv zeta in Ht. rewrite Hroot in Ht. destruct (Ht Hn Hne) as (Hend & fl & Hfl & Hfl1).
  unfold ntfs_index_rm. rewrite Hent. unfold node_buf. rewrite Hroot, Hv. cbn [mbind option_bind]. rewrite Hend. cbn [mbind option_bind]. rewrite Hfl. cbn [mbind option_bind].
  rewrite Hfl1. cbn [mbind option_bind].
  destruct (node_delete _ _ _ _ _ _ _ _ Hn Hne) as (m' & pre' & slack & Ed & Hsl & Hed). rewrite (na_pre _ _ _ _ _ _ Hn) in Ed. rewrite Ed. cbn [mbind option_bind].
  assert (uniform false (s1 ++ s2)) as Hu.
  { pose proof (ir_uniform _ _ _ _ _ _ _ _ Hr) as Hu. apply uniform_app in Hu as [U1 U2]. apply uniform_cons in U2 as [_ U2]. by apply uniform_app. }
  pose proof (iroot_edit Hr _ _ _ _ Hed Hu) as Hr2. destruct (ir_extent Hr2) as (Lir2 & _ & _ & _ & Hz2 & _). pose proof (ed_len _ _ _ _ _ _ _ _ _ Hed) as Lm.
  assert (0 <= zlen (slack ++ post)) by (apply zlen_nonneg).
  rewrite (na_length _ _ _ _ _ _ (ed_node _ _ _ _ _ _ _ _ _ Hed)). cbn [mbind option_bind]. rewrite s32_small by lia.
  set (ni1 := set_root ni (ir_store (root ni) m')). assert (ir_value (root ni1) = Ok m') as Hv1 by (by eapply ir_store_law).
  destruct (ir_truncate_ok bs rule false ni1 m' (s1 ++ s2) eo pre' (slack ++ post) (eo + zlen (enc_slots (s1 ++ s2))) Hv1 Hr2) as (ni2 & s & -> & Hi2 & Hb2 & Hst & Hres); [lia|].
  cbn [mbind option_bind]. rewrite (ir_shrink _ _ _ Hv1) in Hst by (unfold IR_INDEX; lia). subst s. destruct Hres as (ir2 & pre2 & post2 & _ & Hv2 & Hr3 & _).
  exists ni2, vs. split; [done|]. split; [by apply put_clean|]. destruct (entries_rest _ _ _ _ _ Hen) as (H1 & H2 & H3). split; try done.
  exists ir2, (s1 ++ s2). apply seq_leaf_fst in Hs as [-> Hs]. split; [split; [done | by eexists eo, pre2, post2] | | done | by rewrite Hb2].
  assert ((l ++ t) ++ [z] = fst <$> (s1 ++ s2)) as ->; [|by apply leaf_seq].
  rewrite fmap_app, fmap_cons in Hs. cbn [fst] in Hs. apply entry_unique in Hs as [-> Hs]; [| by destruct s2 | by destruct Hen]. by rewrite fmap_app, <-app_assoc, Hs.
Qed.

(** In a leaf. *)
Lemma rm_block_leaf ni x ir sl p c b vl vr (xl xr : list ent) (s1 : list slot) e (s2 : list slot) xc z0 eo l t z :
  ir_value (root ni) = Ok ir -> iroot bs rule true ir sl -> path bs q (fetch_of ni) sl 0 p c vl vr xl xr ->
  block_at bs q (fetch_of ni) c false b (s1 ++ (e, None) :: s2) -> fst <$> (s1 ++ (e, None) :: s2) = xc ++ [z0] -> s2 <> [] ->
  (l ++ e :: t) ++ [z] = xl ++ xc ++ xr -> NoDup (vl ++ c :: vr) -> (forall nb, bm ni = Some nb -> marked q nb (vl ++ c :: vr)) ->
  entries bs (collate := collate) l e t z -> growable fuel ni -> is_in_root x = false -> ib x = b -> ia_na x = true -> sized x bs vb -> ib_dirty x = false ->
  follows x p c -> entries_offset b IB_INDEX = Some eo -> entry x = Some (IB_INDEX + eo + zlen (enc_slots s1)) ->
  forall n hid, ends_round n (l ++ t) (l ++ e :: t) z (leaves_keep bs q (fetch_of ni) (vl ++ c :: vr)) hid (index_rm ni x).
Proof using All.
  intros Hv Hr Hp Hb Hxc Hne Exs Hnd Hm Hen Hbig Hroot Hib Hop Hx Hd Hfo Heo Hent n hid.
  pose proof Hb as ((i & Ei & Hi) & Hf & (eo0 & pre & post & Hparts)). pose proof (ib_node _ _ _ _ _ _ _ _ Hparts) as Hn.
  pose proof (na_entries _ _ _ _ _ _ Hn) as Heo0. change 24 with IB_INDEX in *. rewrite Heo in Heo0. injection Heo0 as <-.
  assert (exists na, ia ni = Some na) as [na Hna] by (unfold IndexLookup.fetch_of in Hf; destruct (ia ni); [eauto | done]).
  pose proof (rm_tests ni x b eo pre s1 e None s2 post) as Ht. cbv zeta in Ht. rewrite Hroot in Ht. destruct (Ht Hn Hne) as (Hend & fl & Hfl & Hfl1).
  unfold ntfs_index_rm. rewrite Hent. unfold node_buf. rewrite Hroot, Hib. cbn [mbind option_bind]. rewrite Hend. cbn [mbind option_bind]. rewrite Hfl. cbn [mbind option_bind].
  rewrite Hfl1. destruct (exists_last Hne) as (s2' & ze & Es2). rewrite Es2, app_comm_cons, app_assoc in Hn. destruct (node_zero _ _ _ _ _ _ _ Hn) as [_ Hone]. rewrite Hone.
  rewrite <-app_assoc, <-app_comm_cons, <-Es2 in Hn. cbn [mbind option_bind]. destruct (entries_rest _ _ _ _ _ Hen) as (H1 & H2 & H3).
  pose proof (path_right _ _ _ _ _ _ _ _ _ _ _ Hp) as Hxr.
  assert (xc = (fst <$> s1) ++ e :: (fst <$> s2') /\ z0 = ze.1) as [-> ->].
  { rewrite Es2, fmap_app, fmap_cons, fmap_app in Hxc. cbn [fst] in Hxc. replace ((fst <$> s1) ++ e :: (fst <$> s2') ++ (fst <$> [ze])) with (((fst <$> s1) ++ e :: (fst <$> s2')) ++ [ze.1]) in Hxc by (by rewrite <-app_assoc).
    by apply app_inj_tail in Hxc as [<- <-]. }
  replace (xl ++ ((fst <$> s1) ++ e :: (fst <$> s2')) ++ xr) with ((xl ++ (fst <$> s1)) ++ e :: (fst <$> s2') ++ xr) in Exs by (by rewrite <-!app_assoc).
  apply entry_unique in Exs as [-> Et]; [| by destruct (fst <$> s2') | by destruct Hen].
  match goal with |- context [zlen ?w =? 1] => destruct (Z.eqb_spec (zlen w) 1) as [Hl1|Hl1] end.
  - assert (s1 = [] /\ s2' = []) as [-> ->].
    { rewrite zlen_app, zlen_cons in Hl1. pose proof (zlen_nonneg s1). pose proof (zlen_nonneg s2'). destruct s1; [|rewrite zlen_cons in Hl1; pose proof (zlen_nonneg s1); lia].
      destruct s2'; [done|]. rewrite zlen_cons in Hl1. pose proof (zlen_nonneg s2'). change (zlen (@nil slot)) with 0 in *. lia. }
    cbn [fmap list_fmap app] in *. rewrite app_nil_r in *. subst xr.
    assert (emptied bs vb q rule (collate := collate) fuel ni x ir sl 0 p c vl vr xl (t ++ [z]) (xl ++ t) z) as He.
    { split; try done; [by exists i | by rewrite app_assoc | | by split; [|exists na]]. intros nb Hnb. destruct (Hm nb Hnb) as [Hm1 Hm2]. split; [done|].
      intros j Hj Hin. apply Hm2; [done|]. clear -Hin. in_blocks. }
    destruct (ntfs_index_rm_leaf_ok bs vb q G malloc fresh rule Hfresh Hmax memcmp upcase upcase_len cluster_size cluster_size_bits Hcol Hvb Hmalloc fuel extra _ _ _ _ _ _ _ _ _ _ _ _ _ He)
      as (ni2 & x2 & r & ni3 & -> & Hr1 & Hput & Hr2). cbn [mbind option_bind]. apply removes_ends; [by exists ni2, x2, r, ni3|].
    intros Hkeep. assert (In c (vl ++ c :: vr)) as Hin by (apply in_app_iff; right; by left). specialize (Hkeep _ _ _ Hin Hb). rewrite Es2 in Hkeep. cbn in Hkeep. lia.
  - destruct (node_delete _ _ _ _ _ _ _ _ Hn Hne) as (m' & pre' & slack & Ed & Hsl & Hed). rewrite (na_pre _ _ _ _ _ _ Hn) in Ed. rewrite Ed. cbn [mbind option_bind].
    pose proof (ib_uniform _ _ _ _ _ _ _ _ Hparts) as Hu. assert (uniform false (s1 ++ s2)) as Hu2 by (apply uniform_app in Hu as [U1 U2]; apply uniform_cons in U2 as [_ U2]; by apply uniform_app).
    assert (iblock bs c false m' (s1 ++ s2)) as Hib' by (eapply iblock_edit; [exact Hparts | exact Hed | done]). rewrite Ei in Hib'.
    unfold ntfs_icx_ib_write. change (ib (set_ib x m')) with m'. assert (sized (set_ib x m') bs vb) as Hx' by done. assert (ia_na (set_ib x m') = true) as Hop' by done.
    destruct (write_block bs vb q G malloc ni (set_ib x m') na i false m' _ Hx' Hop' Hna Hi Hib') as (ni2 & st & E2 & Heff).
    destruct (ntfs_ib_write ni (set_ib x m') m') as [[[ni2' b3] s0]|] eqn:Ew; cbn [mbind option_bind] in E2 |- *; [|done]. injection E2 as -> ->.
    unfold IndexLookup.fetch_of in Hf. rewrite Hna, Ei in Hf. pose proof (ib_write_inside bs vb q G ni (set_ib x m') na i false m' _ b ni2 b3 st Hx' Hop' Hna Hi Hib' Hf Ew) as ->.
    cbn [status_is_ok]. eexists _, _, _, ni2. split; [reflexivity|]. split; [by apply put_clean|]. split; [done|].
    destruct (effect_written bs vb q ni na ni2 i _ _ Hna Hi Heff) as (Hr2 & Hb2 & _ & Hwr). pose proof Hwr as [(b2 & Hb2') _].
    exists (height 0 p), (vl ++ [c] ++ vr). split; [|done|done|done]. exists ir, sl. split; [| | done | by rewrite Hb2].
    + rewrite Hr2. split; [done|]. pose proof (path_ne _ _ _ _ _ _ _ _ _ _ _ Hp). by destruct p.
    + replace (((xl ++ (fst <$> s1)) ++ t) ++ [z]) with (xl ++ ((fst <$> s1) ++ (fst <$> s2')) ++ xr) by (rewrite <-!app_assoc, <-Et; done).
      eapply path_fill; [exact Hp | |].
      * eapply written_kept; [exact Hwr | by eapply path_present |]. rewrite <-Ei. by apply (nodup_out vl [] vr).
      * apply tree_unfold. exists b2, (s1 ++ s2), [], ze.1. split_and!; [by rewrite Ei | done |].
        replace (((fst <$> s1) ++ (fst <$> s2')) ++ [ze.1]) with (fst <$> (s1 ++ s2)) by (rewrite Es2, !fmap_app, <-app_assoc; done). by apply leaf_seq.
Qed.

(** *** One round of ntfs_index_remove *)

Context {key kt : list Z}.
Hypothesis Hk : valid_key collate key /\ 0 < zlen key.
Abbreviation cmp := (key_cmp collate).

(** The entry of the key among [xs], and what the round leaves. *)
Definition removed_round ni (d : nat) (vs : list Z) (xs : list ent) z (out : option (inode R A * context * removal)) : Prop :=
  exists l e t, xs = l ++ e :: t /\ cmp key (e_key e) = 0 /\
    ends_round (bm_size ni + 272) (l ++ t) xs z (d = 0%nat \/ unhindered ni d vs e t) (~ no_longer e t) out.

Lemma entries_of ni d vs l e t z : valid ni d vs (l ++ e :: t) z -> entries bs (collate := collate) l e t z.
Proof using. intros [_ H1 H2 H3]. by split. Qed.

Lemma round_root ni x d vs xs z ir sl : valid ni d vs xs z -> indexed bs vb q rule ni d ir sl vs (xs ++ [z]) -> growable fuel ni ->
  sized x bs vb -> ib_dirty x = false -> is_in_root x = true ->
  root_outcome (collate := collate) (key := key) (sl := sl) (xs := xs) (z := z) d x ir (Ok tt) -> removed_round ni d vs xs z (index_rm ni x).
Proof using All.
  intros Hva Hix Hbig Hx Hd Hroot Hout. inversion Hout as [s1 s s2 eo Esl Hs2 E0 Hin Hdl Hfo Hpos Heo Hent|]; subst.
  apply in_split in Hin as (l & t & ->). exists l, (s.1), t. split; [done|]. split; [done|]. pose proof (entries_of _ _ _ _ _ _ _ Hva) as Hen.
  pose proof Hix as [[Hv Hr] Hs Hnd Hm]. pose proof Hr as (eo0 & pre & post & Hparts). pose proof (ir_uniform _ _ _ _ _ _ _ _ Hparts) as [_ [Hc _]%uniform_cons]%uniform_app.
  destruct d as [|d]; cbn [inner kids] in *.
  - apply bool_decide_eq_false, eq_None_not_Some in Hc. destruct s as [e c]. cbn [fst snd] in *. subst c.
    destruct (rm_root_leaf ni x ir s1 e s2 eo vs l t z Hix Hs2 Hen Hroot Hd Heo Hent) as (ni' & vs' & -> & Hput & Hv').
    eexists _, _, _, ni'. split; [reflexivity|]. split_and!; [done | done | by exists 0%nat, vs'].
  - assert (index_rm ni x = ntfs_index_rm_node malloc memcmp upcase upcase_len cluster_size cluster_size_bits fresh fuel (S (S extra)) ni x) as ->.
    { pose proof (ir_node _ _ _ _ _ _ _ _ Hparts) as Hn. pose proof (na_entries _ _ _ _ _ _ Hn) as Heo0. rewrite Heo in Heo0. injection Heo0 as <-.
      apply bool_decide_eq_true in Hc as [v Hc]. destruct s as [e c]. cbn [fst snd] in *. subst c.
      pose proof (rm_tests ni x ir eo pre s1 e (Some v) s2 post) as Ht. cbv zeta in Ht. rewrite Hroot in Ht. destruct (Ht Hn Hs2) as (Hend & fl & Hfl & Hfl1).
      unfold ntfs_index_rm. rewrite Hent. unfold node_buf. rewrite Hroot, Hv. cbn [mbind option_bind]. rewrite Hend. cbn [mbind option_bind]. rewrite Hfl. cbn [mbind option_bind]. by rewrite Hfl1. }
    eapply ends_weaken; [exact (Z.le_refl _) | | exact (fun H => H) |].
    2: by eapply (rm_node_root bs vb q G malloc fresh rule Hfresh Hmax memcmp upcase upcase_len cluster_size cluster_size_bits Hcol Hvb Hmalloc fuel extra ni x d ir vs s1 s s2 eo l t z).
    by intros [|].
Qed.

Lemma round_block ni x d vs xs z ir sl : valid ni d vs xs z -> indexed bs vb q rule ni d ir sl vs (xs ++ [z]) -> growable fuel ni ->
  sized x bs vb -> ib_dirty x = false ->
  outcome (collate := collate) bs q d (fetch_of ni) sl x key vs xs z (Ok tt) -> removed_round ni d vs xs z (index_rm ni x).
Proof using All.
  intros Hva [[Hv Hr] Hs Hnd Hm] Hbig Hx Hd Hout.
  inversion Hout as [d' p c b s1 s s2 vl vr xl xr [Hp Hb Hfo (Hroot & Hib & Hop) (eo & Heo & Hent)] Hs2 E0 Hin Hdl (v0 & xc & z0 & Hs0 & Evs & Exs & Hh) Hpos|]; subst.
  apply in_split in Hin as (l & t & ->). exists l, (s.1), t. split; [done|]. split; [done|]. pose proof (entries_of _ _ _ _ _ _ _ Hva) as Hen.
  assert (iroot bs rule true ir sl) as Hr'.
  { pose proof (path_ne _ _ _ _ _ _ _ _ _ _ _ Hp). unfold height in Hr. destruct p; [done|]. cbn [length] in Hr. by rewrite Nat.add_succ_r in Hr. }
  assert (height d' p <> 0%nat) as Hpos' by (pose proof (path_ne _ _ _ _ _ _ _ _ _ _ _ Hp); unfold height; destruct p; [done | cbn; lia]).
  destruct d' as [|d']; cbn [inner kids] in *; pose proof Hb as (_ & _ & (eo0 & pre & post & Hparts));
    pose proof (ib_uniform _ _ _ _ _ _ _ _ Hparts) as [_ [Hc _]%uniform_cons]%uniform_app.
  - apply bool_decide_eq_false, eq_None_not_Some in Hc. destruct s as [e ch]. cbn [fst snd] in *. subst ch. apply seq_leaf_fst in Hs0 as [-> Hs0].
    eapply ends_weaken; [exact (Z.le_refl _) | | exact (fun H => H) |].
    2: by eapply (rm_block_leaf ni x ir sl p c (ib x) vl vr xl xr s1 e s2 xc z0 eo l t z).
    by intros [?|(_ & _ & _ & H)].
  - assert (index_rm ni x = ntfs_index_rm_node malloc memcmp upcase upcase_len cluster_size cluster_size_bits fresh fuel (S (S extra)) ni x) as ->.
    { pose proof (ib_node _ _ _ _ _ _ _ _ Hparts) as Hn. pose proof (na_entries _ _ _ _ _ _ Hn) as Heo0. change 24 with IB_INDEX in *. rewrite Heo in Heo0. injection Heo0 as <-.
      apply bool_decide_eq_true in Hc as [v Hc]. destruct s as [e ch]. cbn [fst snd] in *. subst ch.
      pose proof (rm_tests ni x (ib x) eo pre s1 e (Some v) s2 post) as Ht. cbv zeta in Ht. rewrite Hroot in Ht. destruct (Ht Hn Hs2) as (Hend & fl & Hfl & Hfl1).
      unfold ntfs_index_rm. rewrite Hent. unfold node_buf. rewrite Hroot. cbn [mbind option_bind]. rewrite Hend. cbn [mbind option_bind]. rewrite Hfl. cbn [mbind option_bind]. by rewrite Hfl1. }
    eapply ends_weaken; [exact (Z.le_refl _) | | exact (fun H => H) |].
    2: by eapply (rm_node_block bs vb q G malloc fresh rule Hfresh Hmax memcmp upcase upcase_len cluster_size cluster_size_bits Hcol Hvb Hmalloc fuel extra
      ni x d' ir sl p c (ib x) vl vr xl xr s1 s s2 v0 xc z0 eo l t z).
    by intros [|].
Qed.

Lemma outcome_ext f f' h sl x (vs : list Z) (xs : list ent) z r : (forall v, f' v = f v) ->
  outcome (collate := collate) bs q h f sl x key vs xs z r -> outcome (collate := collate) bs q h f' sl x key vs xs z r.
Proof using.
  intros Hf [d p c b s1 s s2 vl vr xl xr Hst Hs2 E0 Hin Hdl (v0 & xc & z0 & Hs0 & Evs & Exs & Hh) Hpos|p c b s1 s2 vl vr xl ys y w Hst Ey Evs Exs Hb Ha].
  - eapply outcome_found; try done; [by eapply (stops_ext bs q f f')|]. exists v0, xc, z0. split_and!; try done. eapply kids_ext; [|exact Hs0]. done.
  - eapply outcome_place; try done. by eapply (stops_ext bs q f f').
Qed.

(** The search, and what it says of the entries. *)
Lemma round_search ni x d vs xs z : valid ni d vs xs z -> unused x -> growable fuel ni ->
  exists ni1 x1 r, ntfs_index_lookup malloc memcmp upcase upcase_len cluster_size cluster_size_bits ni x (key ++ kt) (zlen key) = Some (ni1, x1, r) /\
    match r with
    | Ok _ => removed_round ni d vs xs z (index_rm ni1 x1)
    | Err _ => ntfs_index_ctx_put ni1 x1 = Some ni1 /\ valid ni1 d vs xs z /\ ((d <= 31)%nat -> forall e, In e xs -> cmp key (e_key e) <> 0)
    end.
Proof using All.
  intros Hva Hx Hbig. pose proof Hva as [(ir & sl & Hix) Ho Hg Hsm]. pose proof Hix as [[Hv Hr] Hs Hnd Hm].
  destruct (index_lookup_ok bs vb q G malloc (proj1 Hk) (kt := kt) Ho Hg memcmp upcase upcase_len cluster_size cluster_size_bits ni x ir rule d Hv Hr eq_refl Hs Hcol Hvb Hx (proj2 Hk) Hmalloc) as
    (ni1 & x1 & r & E & Hroot & Hbm & Hf & Hsz & Hres).
  exists ni1, x1, r. split; [exact E|]. apply lookup_dirty in E. assert (ib_dirty x1 = false) as Hd1 by (rewrite E; apply Hx).
  assert (indexed bs vb q rule ni1 d ir sl vs (xs ++ [z])) as Hix1.
  { split; [by rewrite Hroot | | done | by rewrite Hbm]. eapply kids_ext; [|exact Hs]. done. }
  assert (valid ni1 d vs xs z) as Hva1 by (split; try done; by exists ir, sl).
  assert (growable fuel ni1) as Hbig1 by (unfold growable, bm_size in *; by rewrite Hbm).
  destruct r as [[]|err].
  - assert (removed_round ni1 d vs xs z (index_rm ni1 x1) -> removed_round ni d vs xs z (index_rm ni1 x1)) as Hsame.
    { intros (l & e & t & E0 & Hc & Hround). exists l, e, t. split; [done|]. split; [done|]. eapply ends_weaken; [| | exact (fun H => H) | exact Hround].
      - unfold bm_size. by rewrite Hbm.
      - intros [?|(H1 & H2 & H3 & H4)]; [by left | right]. split_and!; try done. intros c b w Hc0 (Hi & Hb & Hw). apply (H4 c b w Hc0). by rewrite Hf in Hb. }
    apply Hsame. destruct Hres as [(Hin & -> & _ & Hout)|[Hout|[? _]]]; [by eapply round_root | | done].
    eapply round_block; try done. by eapply (outcome_ext (fetch_of ni)).
  - split; [by apply put_clean|]. split; [done|]. intros Hd e Hin. destruct Hres as [(_ & _ & _ & Hout)|[Hout|[_ Hdeep]]]; [| |lia].
    + inversion Hout as [|s1 s2 eo ys _ _ _ Exs Hb Ha _ _]; subst. by apply (not_between key (fst <$> s1) ys).
    + inversion Hout as [|p c b s1 s2 vl vr xl ys y w _ _ _ Exs Hb Ha]; subst. by apply (not_between key (xl ++ (fst <$> s1)) (ys ++ w)).
Qed.

(** What the rounds leave: see ntfs_index_remove_removes. *)
Definition removal_spec (xs : list ent) z ni' (r : removal) : Prop :=
  match r with
  | Removed => exists l e t d' vs', xs = l ++ e :: t /\ cmp key (e_key e) = 0 /\ valid ni' d' vs' (l ++ t) z
  | Unreported => exists l e t, xs = l ++ e :: t /\ cmp key (e_key e) = 0 /\ ~ no_longer e t
  | RemoveAgain => False
  | RmFails | RoundsOut => True
  end.

Lemma remove_loop_ok n : forall ni x d vs xs z, valid ni d vs xs z -> unused x -> bm_size ni + 272 * (Z.of_nat (n + fuel) + 1) < 2 ^ 30 ->
  exists ni' x' r ni2, remove_loop malloc memcmp upcase upcase_len cluster_size cluster_size_bits fresh n fuel (S (S extra)) ni x (key ++ kt) (zlen key) = Some (ni', x', r) /\
    ntfs_index_ctx_put ni' x' = Some ni2 /\ removal_spec xs z ni2 r /\
    ((0 < n)%nat -> (forall e, In e xs -> cmp key (e_key e) <> 0) -> r = RmFails /\ valid ni2 d vs xs z) /\
    ((0 < n)%nat -> forall l e t, xs = l ++ e :: t -> cmp key (e_key e) = 0 -> d = 0%nat \/ unhindered ni d vs e t -> r = Removed).
Proof using All.
  induction n as [|n IH]; intros ni x d vs xs z Hva Hx Hbig; cbn [remove_loop].
  - exists ni, x, RoundsOut, ni. split_and!; [done | by apply put_clean, Hx | done | lia | lia].
  - destruct (round_search ni x d vs xs z Hva Hx (ltac:(unfold growable; lia))) as (ni1 & x1 & r & -> & Hr). cbn [mbind option_bind]. destruct r as [[]|err].
    + destruct Hr as (l & e & t & Exs & Hc & ni2 & x2 & r & ni3 & -> & Hput & Hsure & Hres). cbn [mbind option_bind].
      assert (In e xs) as Hin by (rewrite Exs; apply in_app_iff; right; by left).
      assert (forall l' e' t', xs = l' ++ e' :: t' -> cmp key (e_key e') = 0 -> d = 0%nat \/ unhindered ni d vs e' t' -> r = Removed) as Hdone.
      { intros l' e' t' E' Hc' Hun. apply Hsure. rewrite Exs in E'. destruct (found_unique key l t l' t' e e' E') as (_ & -> & ->); [|done|done|done].
        rewrite <-Exs. apply (va_order _ _ _ _ _ _ _ _ _ Hva). }
      destruct r.
      * exists ni2, x2, Removed, ni3. split_and!; [done | done | | intros _ Ha; by destruct (Ha e Hin) | intros _; exact Hdone].
        destruct Hres as (d' & vs' & Hv'). by exists l, e, t, d', vs'.
      * exists ni2, x2, Unreported, ni3. split_and!; [done | done | by exists l, e, t | intros _ Ha; by destruct (Ha e Hin) | intros _; exact Hdone].
      * destruct Hres as (Hd2 & Hb2 & d' & vs' & Hv'). rewrite (reinit_clean ni2 x2 Hd2). cbn [mbind option_bind].
        destruct (IH ni2 ntfs_index_ctx_get d' vs' xs z Hv' (ltac:(done)) (ltac:(lia))) as (ni4 & x4 & r4 & ni5 & -> & Hput4 & Hspec & _).
        exists ni4, x4, r4, ni5. split_and!; [done | done | exact Hspec | intros _ Ha; by destruct (Ha e Hin) |].
        intros _ l' e' t' E' Hc' Hun. by specialize (Hdone l' e' t' E' Hc' Hun).
      * exists ni2, x2, RmFails, ni3. split_and!; [done | done | done | intros _ Ha; by destruct (Ha e Hin) | intros _; exact Hdone].
      * exists ni2, x2, RoundsOut, ni3. split_and!; [done | done | done | intros _ Ha; by destruct (Ha e Hin) | intros _; exact Hdone].
    + destruct Hr as (Hput & Hv1 & Ha). exists ni1, x1, RmFails, ni1. split_and!; try done. intros _ l e t Exs Hc Hun.
      destruct (Ha (ltac:(destruct Hun as [->|(_ & Hd & _)]; lia)) e); [|done]. rewrite Exs. apply in_app_iff. right. by left.
Qed.
End rm.

Section api.
Context {R A : Type} `{!AttrOps A, !AttrResize A, !RootOps R A, !AttrLaws A, !AttrReliable A, !AttrGrowLaws A, !RootLaws R A, !RootReliable R A}.
Context (bs vb q : Z) (malloc : Z -> bool) (fresh : list Z) (rule : Z).
Context (memcmp : list Z -> list Z -> Z) (upcase : list Z) (upcase_len cluster_size cluster_size_bits : Z).
Context {collate : COLLATE} `{!KeyOrder collate}.
Hypothesis Hcol : ntfs_get_collate_function memcmp upcase upcase_len rule = Some collate.
Implicit Types (ni : inode R A) (x : context).
Abbreviation valid := (valid bs vb q rule (collate := collate)).

(** C32: ntfs_index_remove.  After a success the entry of the key is not in the index and the other ones keep their order, whatever their lengths: whether it
    was in the root, in a leaf, perhaps alone there, or in a node, where its successor takes its place, after the root was made larger, or in a further round when
    the root was moved or the block split for it.  An index without the key keeps its entries.  The removal succeeds from a root without blocks, and from an index
    where there is memory, the entry that follows is not longer and no leaf becomes empty.  STATUS_OK after a step that failed, [Unreported], is returned only when
    that entry is longer; no other result than [Removed] says what is left. *)
Theorem ntfs_index_remove_removes n fuel extra ni key kt d vs xs z : environment (A := A) (R := R) bs vb q malloc fresh cluster_size cluster_size_bits ->
  malloc 256 = true -> valid ni d vs xs z -> valid_key collate key -> 0 < zlen key -> bm_size ni + 272 * (Z.of_nat (S n + fuel) + 1) < 2 ^ 30 ->
  exists ni' r, ntfs_index_remove malloc memcmp upcase upcase_len cluster_size cluster_size_bits fresh (S n) fuel (S (S extra)) ni (key ++ kt) (zlen key) = Some (ni', r) /\
    match r with
    | Removed => exists l e t d' vs', xs = l ++ e :: t /\ key_cmp collate key (e_key e) = 0 /\ valid ni' d' vs' (l ++ t) z
    | Unreported => exists l e t, xs = l ++ e :: t /\ key_cmp collate key (e_key e) = 0 /\ ~ no_longer e t
    | RemoveAgain => False
    | RmFails | RoundsOut => True
    end /\
    ((forall e, In e xs -> key_cmp collate key (e_key e) <> 0) -> r = RmFails /\ valid ni' d vs xs z) /\
    (forall l e t, xs = l ++ e :: t -> key_cmp collate key (e_key e) = 0 -> d = 0%nat \/ unhindered bs vb q malloc ni d vs e t -> r = Removed).
Proof using All.
  intros [G Hvb Hfresh Hmax Hm] Hm256 Hva Hk Hk0 Hbig. unfold ntfs_index_remove. rewrite Hm256. cbn [negb].
  destruct (remove_loop_ok bs vb q G malloc fresh rule Hfresh Hmax memcmp upcase upcase_len cluster_size cluster_size_bits Hcol Hvb Hm fuel extra (kt := kt) (conj Hk Hk0) (S n)
    ni ntfs_index_ctx_get d vs xs z Hva (ltac:(done)) Hbig) as (ni1 & x1 & r & ni2 & -> & Hput & Hspec & Habsent & Hsure). cbn [mbind option_bind]. rewrite Hput. cbn [mbind option_bind].
  exists ni2, r. split; [done|]. split; [exact Hspec|]. split; [apply Habsent; lia | apply Hsure; lia].
Qed.
End api.

(** ** Removals in memory *)

#[export] Program Instance mem_root_reliable : RootReliable mem_root grow_attr.
Next Obligation.
  intros r n v. cbn. destruct (Z.leb_spec (zlen (mem_value r)) mem_room); [intros [= <-] Hn | done]. by rewrite (proj2 (Z.leb_le _ _)) by lia.
Qed.

Lemma two_leaves_keep : leaves_keep 512 1 (fetch_of 512 9 two_levels) [0; 1].
Proof. intros c b sl Hc Hb. rewrite (two_leaf_length c b sl Hc Hb). lia. Qed.

Lemma ntfs_index_remove_removes_witness : exists ni' d vs,
  ntfs_index_remove (fun _ => true) (fun _ _ => 0) [] 0 512 9 (replicate 8 0) 1 5 2 two_levels (le_encode 4 10) 4 = Some (ni', Removed) /\
  valid (collate := ntfs_collate_ntofs_ulong) 512 9 1 COLLATION_NTOFS_ULONG ni' d vs (small_keys 1 9 ++ small_keys 11 9) end_ent.
Proof.
  assert (key_cmp ntfs_collate_ntofs_ulong (le_encode 4 10) (e_key (small_ent 10)) = 0) as Hc by done.
  destruct (ntfs_index_remove_removes 512 9 1 (fun _ => true) (replicate 8 0) COLLATION_NTOFS_ULONG (fun _ _ => 0) [] 0 512 9 eq_refl
    0 5 0 two_levels (le_encode 4 10) [] 1 [0; 1] (small_keys 1 19) end_ent) as (ni' & r & E & Hr & _ & H0);
    [exact small_environment | done | exact two_valid | done | done | by vm_compute |].
  assert (r = Removed) as ->.
  { apply (H0 (small_keys 1 9) (small_ent 10) (small_keys 11 9)); [done | exact Hc |]. right. split; [done|]. split; [lia|]. split; [done | exact two_leaves_keep]. }
  destruct Hr as (l & e & t & d & vs & El & Hce & Hv). exists ni', d, vs. split; [exact E|].
  destruct (found_unique (collate := ntfs_collate_ntofs_ulong) (le_encode 4 10) (small_keys 1 9) (small_keys 11 9) l t (small_ent 10) e El) as (<- & _ & <-); [by repeat constructor | exact Hc | exact Hce | exact Hv].
Defined.

(** Sixteen keys, the index has blocks; after each removal the other keys are found, and that one is not; in the end the root has no child. *)
Definition rm_ulong (k : Z) (ni : inode mem_root grow_attr) : option (inode mem_root grow_attr) :=
  match ntfs_index_remove (fun _ => true) (fun _ _ => 0) [] 0 512 9 (replicate 8 0) 10 10 3 ni (le_encode 4 k) 4 with
  | Some (ni, Removed) => Some ni
  | _ => None
  end.
Fixpoint rm_all (ks : list Z) (ni : inode mem_root grow_attr) : option (inode mem_root grow_attr) :=
  match ks with
  | [] => Some ni
  | k :: ks => ni ← rm_ulong k ni; if forallb (finds_ulong ni) ks && negb (finds_ulong ni k) then rm_all ks ni else None
  end.
Definition few : list Z := take 16 sixty.

Example few_removed :
  match foldl (fun o k => ni ← o; add_ulong k ni) (Some (empty_index COLLATION_NTOFS_ULONG)) few with
  | Some ni => match rm_all (rev few) ni with
               | Some ni' => (512 <? zlen (attr_data (default (Grow []) (ia ni)))) && bool_decide (mem_value (root ni') = empty_root COLLATION_NTOFS_ULONG)
               | None => false
               end
  | None => false
  end = true.
Proof. by vm_compute. Qed.

(** *** Longer entries *)

(** An entry of [n] bytes, and an index of such entries. *)
Definition sized_ent (kn : Z * Z) : ent := Ent (replicate 8 0) 4 0 ([0; 0] ++ le_encode 4 kn.1 ++ replicate (Z.to_nat (kn.2 - 20)) 0).
Definition add_sized (kn : Z * Z) (ni : inode mem_root grow_attr) : option (inode mem_root grow_attr) :=
  match ntfs_ie_add (fun _ => true) (fun _ _ => 0) [] 0 512 9 (replicate 8 0) 10 3 ni ntfs_index_ctx_get (enc (sized_ent kn, None)) with
  | Some (ni, x, Added) => ntfs_index_ctx_put ni x
  | _ => None
  end.
Definition add_each (kns : list (Z * Z)) (o : option (inode mem_root grow_attr)) := foldl (fun o kn => ni ← o; add_sized kn ni) o kns.
Definition rm_each (ks : list Z) (o : option (inode mem_root grow_attr)) := foldl (fun o k => ni ← o; rm_ulong k ni) o ks.

(** What a removal returns, and the inode, with [malloc] and [n] searches. *)
Definition rm_with (malloc : Z -> bool) (n : nat) (k : Z) (ni : inode mem_root grow_attr) : option (inode mem_root grow_attr * removal) :=
  ntfs_index_remove malloc (fun _ _ => 0) [] 0 512 9 (replicate 8 0) n 10 3 ni (le_encode 4 k) 4.
Definition rm_result malloc n k (o : option (inode mem_root grow_attr)) : option removal := ni ← o; out ← rm_with malloc n k ni; Some (snd out).

(** Thirty keys, in order: 9 and 18 are in the root, and of those between them only 15 is left in its leaf; it is longer than 9. *)
Definition alone_index : option (inode mem_root grow_attr) :=
  rm_each [10; 11; 12; 13; 14; 16; 17]
    (add_each (map (fun k => (k, if k =? 15 then 40 else if k =? 18 then 32 else 24)) (map Z.of_nat (seq 1 30))) (Some (empty_index COLLATION_NTOFS_ULONG))).

(** Key 9 is removed from a root that is made larger for 15, whose leaf is given back; without memory for 18, which is taken out of the root and added again, STATUS_OK is
    returned, and the root refers to a block whose bit is clear. *)
Example failure_unreported :
  rm_result (fun _ => true) 1 9 alone_index = Some Removed /\ rm_result (fun n => negb (n =? 32)) 1 9 alone_index = Some Unreported /\
  match (ni ← alone_index; rm_with (fun n => negb (n =? 32)) 1 9 ni) with
  | Some (ni, _) => bool_decide (ntfs_ie_get_by_pos (mem_value (root ni)) IR_INDEX 1 = Some 80 /\ ntfs_ie_get_vcn (mem_value (root ni)) 80 = Some 1) &&
      match bm ni with Some b => match attr_data b with v :: _ => negb (Z.testbit v 1) | [] => false end | None => false end
  | None => false
  end = true.
Proof. split; [|split]; vm_compute; reflexivity. Qed.

(** Sixty keys of several lengths: the block of 20 is split for the entry after it, and the second search removes it. *)
Example split_retries :
  let o := add_each (map (fun k => (k, 24 + 8 * ((k * k * k) mod 19))) sixty) (Some (empty_index COLLATION_NTOFS_ULONG)) in
  rm_result (fun _ => true) 1 20 o = Some RoundsOut /\ rm_result (fun _ => true) 2 20 o = Some Removed.
Proof. split; vm_compute; reflexivity. Qed.

(** The split of a block of two entries for a third one, between them, leaves the new block empty; the entry before it cannot be removed then. *)
Example empty_leaf_stops :
  let o := add_each [(50, 192); (60, 72); (55, 192)] (Some (empty_index COLLATION_NTOFS_ULONG)) in
  rm_result (fun _ => true) 10 60 o = Some RmFails /\ rm_result (fun _ => true) 10 50 o = Some Removed.
Proof. split; vm_compute; reflexivity. Qed.
