(* ===== verification/Attr.v ===== *)
(** Attribute records in an MFT record (libntfs-3g/attrib.c): the search of a
    record, making room, adding, resizing and removing attribute records, the
    checks against $AttrDef; and the layout of an empty record with the check of
    one that was read (mft.c).

    An MFT record is its bytes; a pointer into it is an offset from its start. *)

From S2P Require Import Prelude Names Collate Index.
Local Open Scope Z_scope.
Local Open Scope c_scope.

(** ** Layout (include/ntfs-3g/layout.h) *)

Definition AT_UNUSED : Z := 0.
Definition AT_ATTRIBUTE_LIST : Z := 0x20.
Definition AT_FILE_NAME : Z := 0x30.
Definition AT_VOLUME_NAME : Z := 0x60.
Definition AT_DATA : Z := 0x80.
Definition AT_INDEX_ROOT : Z := 0x90.
Definition AT_INDEX_ALLOCATION : Z := 0xa0.
Definition AT_LOGGED_UTILITY_STREAM : Z := 0x100.
Definition AT_END : Z := 0xffffffff.

(** MFT_RECORD. *)
Definition magic_FILE : Z := 0x454c4946.
Definition sequence_number (m : list Z) : option Z := le16_to_cpup m 16.
Definition attrs_offset (m : list Z) : option Z := le16_to_cpup m 20.
Definition mft_flags (m : list Z) : option Z := le16_to_cpup m 22.
Definition bytes_in_use (m : list Z) : option Z := le32_to_cpup m 24.
Definition bytes_allocated (m : list Z) : option Z := le32_to_cpup m 28.
Definition next_attr_instance (m : list Z) : option Z := le16_to_cpup m 40.
Definition MFT_RECORD_IS_DIRECTORY : Z := 2.

(** ATTR_RECORD, of the attribute at [a]. *)
Definition attr_type (m : list Z) (a : Z) : option Z := le32_to_cpup m a.
Definition attr_length (m : list Z) (a : Z) : option Z := le32_to_cpup m (a + 4).
Definition attr_non_resident (m : list Z) (a : Z) : option Z := m.[a + 8].
Definition attr_name_length (m : list Z) (a : Z) : option Z := m.[a + 9].
Definition attr_name_offset (m : list Z) (a : Z) : option Z := le16_to_cpup m (a + 10).
Definition attr_flags (m : list Z) (a : Z) : option Z := le16_to_cpup m (a + 12).
Definition value_length (m : list Z) (a : Z) : option Z := le32_to_cpup m (a + 16).
Definition value_offset (m : list Z) (a : Z) : option Z := le16_to_cpup m (a + 20).
Definition offsetof_resident_end : Z := 24.
Definition offsetof_compressed_size : Z := 64.
Definition RESIDENT_ATTR_IS_INDEXED : Z := 1.
Definition ATTR_IS_COMPRESSED : Z := 0x0001.
Definition ATTR_IS_SPARSE : Z := 0x8000.
Definition STANDARD_COMPRESSION_UNIT : Z := 4.

(** (n + 7) & ~7 in 32 bits. *)
Definition align8 (n : Z) : Z := Z.land (u32 (n + 7)) 0xfffffff8.

(** A name a caller passes: NULL, the constant AT_UNNAMED, or an array. *)
Inductive attr_name := NULL_NAME | AT_UNNAMED | NAME (name : list Z).

Definition name_array (name : attr_name) : list Z := match name with NULL_NAME => [] | AT_UNNAMED => [0] | NAME l => l end.

(** ** The search (ntfs_attr_find) *)

(** ntfs_attr_search_ctx, without an attribute list: [cx_inode] says that
    ntfs_ino is set. *)
Record search_ctx := Ctx { cx_attr : Z; cx_is_first : bool; cx_inode : bool }.

Definition ntfs_attr_init_search_ctx (ni : bool) (m : list Z) : option search_ctx :=
  off ← attrs_offset m; Some (Ctx off true ni).

Definition ntfs_attr_reinit_search_ctx (m : list Z) (ctx : search_ctx) : option search_ctx :=
  off ← attrs_offset m; Some (Ctx off true (cx_inode ctx)).

(** What an attribute of the type is to the search: found, behind the place of
    what is searched, or before it. *)
Inductive verdict := Hit | Past | Next.

Definition match_name (m : list Z) (a : Z) (name : attr_name) (name_len : Z) (ic : IGNORE_CASE_BOOL) (upcase : list Z) (upcase_len : Z) : option verdict :=
  match name with
  | AT_UNNAMED => n ← attr_name_length m a; Some (if n =? 0 then Hit else Past)
  | NULL_NAME => Some Hit
  | NAME s =>
      off ← attr_name_offset m a;
      n ← attr_name_length m a;
      rc ← ntfs_names_full_collate s name_len (units (drop (Z.to_nat (a + off)) m)) n ic upcase upcase_len;
      Some (if rc =? 0 then Hit else if rc <? 0 then Past else Next)
  end.

(** Of the result of memcmp only the sign is used. *)
Definition match_value (m : list Z) (a : Z) (val : option (list Z)) (val_len : Z) : option verdict :=
  match val with
  | None => Some Hit
  | Some val =>
      off ← value_offset m a;
      avl ← value_length m a;
      let n := Z.min val_len avl in
      x ← zread val 0 n;
      y ← zread m (a + off) n;
      let rc := lex x y in
      Some (if rc =? 0 then if val_len =? avl then Hit else if val_len <? avl then Past else Next
            else if rc <? 0 then Past else Next)
  end.

Definition match_attr (m : list Z) (a : Z) (name : attr_name) (name_len : Z) (ic : IGNORE_CASE_BOOL) (val : option (list Z)) (val_len : Z)
    (upcase : list Z) (upcase_len : Z) : option verdict :=
  v ← match_name m a name name_len ic upcase upcase_len;
  match v with Hit => match_value m a val val_len | _ => Some v end.

(** [attr] is ctx->attr. *)
Fixpoint attr_find_loop (fuel : nat) (m : list Z) (type : Z) (name : attr_name) (name_len : Z) (ic : IGNORE_CASE_BOOL)
    (val : option (list Z)) (val_len : Z) (upcase : list Z) (upcase_len a attr : Z) : option (Z * result unit) :=
  match fuel with
  | O => None
  | S f =>
      al ← bytes_allocated m;
      if (a <? 0) || (al <? a) then Some (attr, Err EIO)
      else
        t ← attr_type m a;
        if (negb (type =? AT_UNUSED) && (type <? t)) || (t =? AT_END) then Some (a, Err ENOENT)
        else
          len ← attr_length m a;
          if len =? 0 then Some (a, Err EIO)
          else if type =? AT_UNUSED then Some (a, Ok tt)
          else if negb (t =? type) then attr_find_loop f m type name name_len ic val val_len upcase upcase_len (a + len) a
          else
            v ← match_attr m a name name_len ic val val_len upcase upcase_len;
            match v with
            | Hit => Some (a, Ok tt)
            | Past => Some (a, Err ENOENT)
            | Next => attr_find_loop f m type name name_len ic val val_len upcase upcase_len (a + len) a
            end
  end.

(** Every step but the last goes on by one byte at least, and none begins behind
    bytes_allocated. *)
Definition find_fuel (m : list Z) : nat := S (S (Z.to_nat (default 0 (bytes_allocated m)))).

Definition ntfs_attr_find (vol_upcase : list Z) (vol_upcase_len type : Z) (name : attr_name) (name_len : Z) (ic : IGNORE_CASE_BOOL)
    (val : option (list Z)) (val_len : Z) (m : list Z) (ctx : search_ctx) : option (search_ctx * result unit) :=
  if negb (cx_inode ctx) && (if name is NAME _ then true else false) then Some (ctx, Err EINVAL)
  else
    let upcase := if cx_inode ctx then vol_upcase else [] in
    let upcase_len := if cx_inode ctx then vol_upcase_len else 0 in
    a ← (if cx_is_first ctx then Some (cx_attr ctx) else len ← attr_length m (cx_attr ctx); Some (cx_attr ctx + len));
    out ← attr_find_loop (find_fuel m) m type name name_len ic val val_len upcase upcase_len a (cx_attr ctx);
    Some (Ctx (fst out) false (cx_inode ctx), snd out).

(** ** Room in a record *)

Definition ntfs_make_room_for_attr (m : list Z) (pos size : Z) : option (list Z * result unit) :=
  let size := align8 size in
  if pos <? 0 then Some (m, Err EINVAL)
  else
    biu ← bytes_in_use m;
    if s32 biu - 8 <? pos then Some (m, Err EINVAL)
    else if size =? 0 then Some (m, Ok tt)
    else
      al ← bytes_allocated m;
      if (al <? u32 (biu + size)) || (al <? pos + size) then Some (m, Err ENOSPC)
      else
        bs ← zread m pos (biu - pos);
        m ← zwrite m (pos + size) bs;
        m ← put_le32 m 24 (u32 (biu + size));
        Some (m, Ok tt).

Definition ntfs_attr_record_resize (m : list Z) (a new_size : Z) : option (list Z * status) :=
  old_size ← bytes_in_use m;
  alloc_size ← bytes_allocated m;
  attr_size ← attr_length m a;
  let new_size := align8 new_size in
  if new_size =? attr_size then Some (m, STATUS_OK)
  else
    let new_muse := u32 (old_size - attr_size + new_size) in
    if alloc_size <? new_muse then Some (m, STATUS_ERROR ENOSPC)
    else
      t ← attr_type m a;
      if (t =? AT_INDEX_ROOT) && (attr_size <? new_size) && (alloc_size <? u32 (new_muse + 120)) && (u32 (old_size + 120) <=? alloc_size)
      then Some (m, STATUS_RESIDENT_ATTRIBUTE_FILLED_MFT)
      else
        bs ← zread m (a + attr_size) (old_size - a - attr_size);
        m ← zwrite m (a + new_size) bs;
        m ← put_le32 m 24 new_muse;
        m ← (if 8 <=? new_size then put_le32 m (a + 4) new_size else Some m);
        Some (m, STATUS_OK).

Definition ntfs_resident_attr_value_resize (m : list Z) (a new_size : Z) : option (list Z * status) :=
  off ← value_offset m a;
  out ← ntfs_attr_record_resize m a (align8 (u32 (off + new_size)));
  let '(m, ret) := out in
  match ret with
  | STATUS_OK =>
      old ← value_length m a;
      m ← (if old <? new_size then zwrite m (a + off + old) (replicate (Z.to_nat (new_size - old)) 0) else Some m);
      m ← put_le32 m (a + 16) new_size;
      Some (m, STATUS_OK)
  | _ => Some (m, ret)
  end.

(** ** $AttrDef *)

(** ATTR_DEF, of the definition at [ad]. *)
Definition sizeof_ATTR_DEF : Z := 160.
Definition ad_type (defs : list Z) (ad : Z) : option Z := le32_to_cpup defs (ad + 0x80).
Definition ad_flags (defs : list Z) (ad : Z) : option Z := le32_to_cpup defs (ad + 0x8c).
Definition ad_min_size (defs : list Z) (ad : Z) : option Z := sle64_to_cpup defs (ad + 0x90).
Definition ad_max_size (defs : list Z) (ad : Z) : option Z := sle64_to_cpup defs (ad + 0x98).
Definition ATTR_DEF_RESIDENT : Z := 0x40.

(** What the checks need of a volume: $AttrDef, as it was read, and its length. *)
Record attrdefs := AttrDefs { attrdef : option (list Z); attrdef_len : Z }.

Fixpoint attrdef_loop (fuel : nat) (defs : list Z) (len type ad : Z) : option (result Z) :=
  match fuel with
  | O => None
  | S f =>
      if ad <? len then
        t ← ad_type defs ad;
        if t =? 0 then Some (Err ENOENT)
        else if t <? type then attrdef_loop f defs len type (ad + sizeof_ATTR_DEF)
        else if t =? type then Some (Ok ad)
        else Some (Err ENOENT)
      else Some (Err ENOENT)
  end.

Definition ntfs_attr_find_in_attrdef (vol : attrdefs) (type : Z) : option (result Z) :=
  match attrdef vol with
  | None => Some (Err EINVAL)
  | Some defs => if type =? 0 then Some (Err EINVAL) else attrdef_loop (S (Z.to_nat (attrdef_len vol))) defs (attrdef_len vol) type 0
  end.

Definition ntfs_attr_size_bounds_check (vol : attrdefs) (type size : Z) : option (result unit) :=
  if size <? 0 then Some (Err EINVAL)
  else if (type =? AT_ATTRIBUTE_LIST) && (0x40000 <? size) then Some (Err ERANGE)
  else
    r ← ntfs_attr_find_in_attrdef vol type;
    match r with
    | Err e => Some (Err e)
    | Ok ad =>
        let defs := default [] (attrdef vol) in
        min_size ← ad_min_size defs ad;
        max_size ← ad_max_size defs ad;
        let min_size := if type =? AT_VOLUME_NAME then 0 else min_size in
        if (negb (min_size =? 0) && (size <? min_size)) || ((0 <? max_size) && (max_size <? size)) then Some (Err ERANGE)
        else Some (Ok tt)
    end.

Definition TXF_DATA : list Z := [0x24; 0x54; 0x58; 0x46; 0x5f; 0x44; 0x41; 0x54; 0x41].

Definition ntfs_attr_can_be_non_resident (vol : attrdefs) (upcase : list Z) (upcase_len type : Z) (name : attr_name) (name_len : Z) : option (result unit) :=
  txf ← (if (type =? AT_LOGGED_UTILITY_STREAM) && (if name is NULL_NAME then false else true)
         then ntfs_names_are_equal TXF_DATA 9 (name_array name) name_len CASE_SENSITIVE upcase upcase_len else Some false);
  if (txf : bool) then Some (Err EPERM)
  else
    r ← ntfs_attr_find_in_attrdef vol type;
    match r with
    | Err e => Some (Err e)
    | Ok ad =>
        fl ← ad_flags (default [] (attrdef vol)) ad;
        Some (if Z.land fl ATTR_DEF_RESIDENT =? 0 then Ok tt else Err EPERM)
    end.

Definition ntfs_attr_can_be_resident (vol : attrdefs) (type : Z) : result unit :=
  if negb (bool_decide (is_Some (attrdef vol))) || (type =? 0) then Err EINVAL
  else if negb (type =? AT_INDEX_ALLOCATION) then Ok tt else Err EPERM.

(** ** Adding a record *)

(** What the functions use of an inode: its record, what is cached of its unnamed
    data, and whether its base inode has an attribute list. *)
Record mft_inode := MftInode {
  mrec : list Z;
  ni_data_size : Z;
  ni_allocated_size : Z;
  KnownSize : bool;
  NInoDirty : bool;
  NInoAttrList : bool }.

Definition set_mrec (ni : mft_inode) (m : list Z) : mft_inode :=
  MftInode m (ni_data_size ni) (ni_allocated_size ni) (KnownSize ni) (NInoDirty ni) (NInoAttrList ni).
Definition ntfs_inode_mark_dirty (ni : mft_inode) : mft_inode :=
  MftInode (mrec ni) (ni_data_size ni) (ni_allocated_size ni) (KnownSize ni) true (NInoAttrList ni).
Definition set_known_size (ni : mft_inode) (size allocated : Z) : mft_inode :=
  MftInode (mrec ni) size allocated true (NInoDirty ni) (NInoAttrList ni).

Section add.
(** attrlist.c: ntfs_attrlist_entry_add of the attribute at an offset, which may
    move attributes of the record. *)
Variable ntfs_attrlist_entry_add : mft_inode -> Z -> mft_inode * result unit.
Variables (vol : attrdefs) (upcase : list Z) (upcase_len : Z).

(** The fields of a resident record at [a]. *)
Definition resident_fields (m : list Z) (a type length name_len data_flags instance size : Z) : option (list Z) :=
  m ← put_le32 m a type;
  m ← put_le32 m (a + 4) length;
  m ← zwrite m (a + 8) [0];
  m ← zwrite m (a + 9) [name_len];
  m ← put_le16 m (a + 10) (if negb (name_len =? 0) then offsetof_resident_end else 0);
  m ← put_le16 m (a + 12) data_flags;
  m ← put_le16 m (a + 14) instance;
  m ← put_le32 m (a + 16) size;
  m ← put_le16 m (a + 20) (length - align8 size);
  Some m.

Definition name_bytes (name : list Z) : list Z := flat_map (le_encode 2) name.

(** memcpy of the name, when there is one. *)
Definition copy_name (m : list Z) (a : Z) (name : attr_name) (name_len : Z) : option (list Z) :=
  if negb (name_len =? 0) then
    off ← attr_name_offset m a;
    s ← zread (name_array name) 0 name_len;
    zwrite m (a + off) (name_bytes s)
  else Some m.

(** The stores into the room that was made. *)
Definition resident_record (m : list Z) (a type length : Z) (name : attr_name) (name_len data_flags instance : Z) (val : option (list Z)) (size : Z) : option (list Z) :=
  m ← resident_fields m a type length name_len data_flags instance size;
  off ← value_offset m a;
  v ← (match val with Some val => zread val 0 size | None => Some (replicate (Z.to_nat size) 0) end);
  m ← zwrite m (a + off) v;
  m ← zwrite m (a + 22) [if type =? AT_FILE_NAME then RESIDENT_ATTR_IS_INDEXED else 0];
  copy_name m a name name_len.

Definition next_instance (m : list Z) : option (list Z) :=
  i ← next_attr_instance m; put_le16 m 40 (Z.land (i + 1) 0xffff).

(** [i30]: the name is the constant NTFS_INDEX_I30. *)
Definition ntfs_resident_attr_record_add (ni : mft_inode) (type : Z) (name : attr_name) (i30 : bool) (name_len : Z) (val : option (list Z))
    (size data_flags : Z) : option (mft_inode * result Z) :=
  if (if name is NULL_NAME then true else false) && negb (name_len =? 0) then Some (ni, Err EINVAL)
  else match ntfs_attr_can_be_resident vol type with
  | Err e => Some (ni, Err e)
  | Ok _ =>
      ctx ← ntfs_attr_init_search_ctx true (mrec ni);
      out ← ntfs_attr_find upcase upcase_len type name name_len CASE_SENSITIVE val size (mrec ni) ctx;
      let '(ctx, r) := out in
      match r with
      | Ok _ => Some (ni, Err EEXIST)
      | Err ENOENT =>
          let a := cx_attr ctx in
          let length := u32 (offsetof_resident_end + align8 (2 * name_len) + align8 size) in
          out ← ntfs_make_room_for_attr (mrec ni) a length;
          let '(m, r) := out in
          match r with
          | Err e => Some (set_mrec ni m, Err e)
          | Ok _ =>
              instance ← next_attr_instance m;
              m ← resident_record m a type length name name_len data_flags instance val size;
              m ← next_instance m;
              let ni := set_mrec ni m in
              let '(ni, r) := if negb (type =? AT_ATTRIBUTE_LIST) && NInoAttrList ni then ntfs_attrlist_entry_add ni a else (ni, Ok tt) in
              match r with
              | Err e => out ← ntfs_attr_record_resize (mrec ni) a 0; Some (set_mrec ni (fst out), Err e)
              | Ok _ =>
                  fl ← mft_flags (mrec ni);
                  let main := if negb (Z.land fl MFT_RECORD_IS_DIRECTORY =? 0) then (type =? AT_INDEX_ROOT) && i30
                              else (type =? AT_DATA) && (if name is AT_UNNAMED then true else false) in
                  let ni := if main then set_known_size ni size (align8 size) else ni in
                  Some (ntfs_inode_mark_dirty ni, Ok a)
              end
          end
      | Err _ => Some (ni, Err EIO)
      end
  end.
End add.

(** ** Records as a whole (mft.c) *)

Definition ntfs_mft_record_check (mft_record_size : Z) (m : list Z) : option (result unit) :=
  magic ← le32_to_cpup m 0;
  if negb (magic =? magic_FILE) then Some (Err EIO)
  else
    al ← bytes_allocated m;
    if negb (al =? mft_record_size) then Some (Err EIO)
    else
      off ← attrs_offset m;
      if (off <? 0) || (mft_record_size <? off) then Some (Err EIO) else Some (Ok tt).

(** MREF of a reference: its low 48 bits. *)
Definition MREF (mref : Z) : Z := Z.land mref 0x0000ffffffffffff.
Definition sizeof_MFT_RECORD : Z := 48.
Definition sizeof_MFT_RECORD_OLD : Z := 42.

Definition ntfs_mft_record_layout (major_ver minor_ver mft_record_size mref : Z) (m : list Z) : option (list Z * result unit) :=
  let old := (major_ver <? 3) || ((major_ver =? 3) && (minor_ver =? 0)) in
  if negb old && negb (Z.land (MREF mref) 0x0000ffff00000000 =? 0) then Some (m, Err ERANGE)
  else
    let usa_ofs := if old then sizeof_MFT_RECORD_OLD else sizeof_MFT_RECORD in
    m ← put_le16 m 4 usa_ofs;
    m ← (if old then Some m else m ← put_le16 m 42 0; put_le32 m 44 (MREF mref));
    m ← put_le32 m 0 magic_FILE;
    let usa_count := if 512 <=? mft_record_size then u16 (mft_record_size / 512 + 1) else 1 in
    m ← put_le16 m 6 usa_count;
    m ← put_le16 m usa_ofs 1;
    m ← put_le64 m 8 0;
    m ← put_le16 m 16 1;
    m ← put_le16 m 18 0;
    let attrs := Z.land (usa_ofs + 2 * usa_count + 7) 0xfff8 in
    m ← put_le16 m 20 attrs;
    m ← put_le16 m 22 0;
    m ← put_le32 m 24 (Z.land (attrs + 8 + 7) 0xfffffff8);
    m ← put_le32 m 28 mft_record_size;
    m ← put_le64 m 32 0;
    m ← put_le16 m 40 0;
    m ← put_le32 m attrs AT_END;
    m ← put_le32 m (attrs + 4) 0;
    m ← zwrite m (attrs + 8) (replicate (Z.to_nat (mft_record_size - (attrs + 8))) 0);
    Some (m, Ok tt).
