(* ===== verification/AttrSpec.v ===== *)
(** An MFT record as a list of attributes: the bytes of the record are a header,
    the attributes one after the other, the end marker and free space.  The
    search of libntfs-3g/attrib.c is the search of that list. *)

From S2P Require Import Prelude Names Collate Index Attr.
Local Open Scope Z_scope.
Local Open Scope c_scope.
Set Default Proof Using "Type*".
#[local] Arguments le_encode : simpl never.

(** ** Attributes *)

(** The record of an attribute, by itself. *)
Record attr_ok (e : list Z) : Prop := {
  ao_bytes : wf_bytes e;
  ao_length : 24 <= zlen e < 2 ^ 16 /\ attr_length e 0 = Some (zlen e);
  ao_aligned : zlen e mod 8 = 0;
  ao_type : exists t, attr_type e 0 = Some t /\ 0 < t < AT_END;
  ao_name : exists n off, attr_name_length e 0 = Some n /\ attr_name_offset e 0 = Some off /\ off + 2 * n <= zlen e /\ (0 < n -> 24 <= off);
  ao_value : attr_non_resident e 0 = Some 0 -> exists n off, value_length e 0 = Some n /\ value_offset e 0 = Some off /\
    24 <= off /\ off + n <= zlen e /\ forall k o, attr_name_length e 0 = Some k -> attr_name_offset e 0 = Some o -> o + 2 * k <= off }.

Definition a_type (e : list Z) : Z := default 0 (attr_type e 0).
Definition a_resident (e : list Z) : bool := bool_decide (attr_non_resident e 0 = Some 0).

(** The bytes of the name and of the value, and the name. *)
Definition a_name (e : list Z) : list Z :=
  units (seg e (default 0 (attr_name_offset e 0)) (2 * default 0 (attr_name_length e 0))).
Definition a_value (e : list Z) : list Z := seg e (default 0 (value_offset e 0)) (default 0 (value_length e 0)).

Lemma seg_zread (e : list Z) o n : 0 <= o -> 0 <= n -> o + n <= zlen e -> zread e o n = Some (seg e o n).
Proof. intros. by rewrite zread_inside. Qed.

Lemma zlen_seg_in (e : list Z) o n : 0 <= o -> 0 <= n -> o + n <= zlen e -> zlen (seg e o n) = n.
Proof. intros. unfold seg, zlen in *. rewrite length_take, length_drop. lia. Qed.

Lemma drop_seg (e t : list Z) o n : 0 <= o -> 0 <= n -> o + n <= zlen e ->
  drop (Z.to_nat o) (e ++ t) = seg e o n ++ drop (Z.to_nat (o + n)) e ++ t.
Proof.
  intros. unfold seg, zlen in *. rewrite drop_app_le by lia. rewrite app_assoc. f_equal.
  rewrite <-(take_drop (Z.to_nat n) (drop (Z.to_nat o) e)) at 1. f_equal. rewrite drop_drop. f_equal. lia.
Qed.

Section attr.
Context (e : list Z) (He : attr_ok e).

Lemma attr_name_range : exists n off, attr_name_length e 0 = Some n /\ attr_name_offset e 0 = Some off /\ 0 <= n < 256 /\ 0 <= off /\ off + 2 * n <= zlen e /\ (0 < n -> 24 <= off).
Proof using He.
  destruct (ao_name _ He) as (n & off & Hn & Ho & Hl & H24). exists n, off. split_and!; try done.
  - pose proof (zget_Forall _ _ _ _ (ao_bytes _ He) Hn) as H. apply H.
  - pose proof (zget_Forall _ _ _ _ (ao_bytes _ He) Hn) as H. apply H.
  - pose proof (ld_range _ _ _ _ (ao_bytes _ He) Ho). lia.
Qed.

Lemma attr_value_range : a_resident e = true -> exists n off, value_length e 0 = Some n /\ value_offset e 0 = Some off /\ 0 <= n /\ 24 <= off /\ off + n <= zlen e.
Proof using He.
  intros Hr%bool_decide_eq_true. destruct (ao_value _ He Hr) as (n & off & Hn & Ho & Ho24 & Hl & _). exists n, off. split_and!; try done.
  pose proof (ld_range _ _ _ _ (ao_bytes _ He) Hn). lia.
Qed.

Lemma attr_type_a : attr_type e 0 = Some (a_type e) /\ 0 < a_type e < AT_END.
Proof using He. destruct (ao_type _ He) as (t & Ht & Hr). unfold a_type. by rewrite Ht. Qed.

(** *** In a record *)

Context (pre post : list Z).

Lemma field_in n k : 0 <= k -> k + Z.of_nat n <= 24 -> ld n (pre ++ e ++ post) (zlen pre + k) = ld n e (0 + k).
Proof using He. intros. apply ld_in; try lia. pose proof (proj1 (ao_length _ He)). lia. Qed.

Lemma byte_in k : 0 <= k < 24 -> (pre ++ e ++ post).[zlen pre + k] = e.[0 + k].
Proof using He.
  intros. pose proof (proj1 (ao_length _ He)). rewrite zget_app_r, zget_app_l by lia. f_equal. lia.
Qed.

Lemma in_type : attr_type (pre ++ e ++ post) (zlen pre) = Some (a_type e).
Proof using He. unfold attr_type, le32_to_cpup. rewrite <-(Z.add_0_r (zlen pre)), field_in by lia. apply attr_type_a. Qed.
Lemma in_length : attr_length (pre ++ e ++ post) (zlen pre) = Some (zlen e).
Proof using He. unfold attr_length, le32_to_cpup. rewrite field_in by lia. apply (ao_length _ He). Qed.
Lemma in_name_length : attr_name_length (pre ++ e ++ post) (zlen pre) = attr_name_length e 0.
Proof using He. unfold attr_name_length. by rewrite byte_in by lia. Qed.
Lemma in_name_offset : attr_name_offset (pre ++ e ++ post) (zlen pre) = attr_name_offset e 0.
Proof using He. unfold attr_name_offset, le16_to_cpup. by rewrite field_in by lia. Qed.
Lemma in_value_length : value_length (pre ++ e ++ post) (zlen pre) = value_length e 0.
Proof using He. unfold value_length, le32_to_cpup. by rewrite field_in by lia. Qed.
Lemma in_value_offset : value_offset (pre ++ e ++ post) (zlen pre) = value_offset e 0.
Proof using He. unfold value_offset, le16_to_cpup. by rewrite field_in by lia. Qed.
End attr.

(** ** What an attribute is to a search *)

Lemma full_collate_more n1 n2 t2 l1 l2 ic upcase ul r :
  ntfs_names_full_collate n1 l1 n2 l2 ic upcase ul = Some r -> ntfs_names_full_collate n1 l1 (n2 ++ t2) l2 ic upcase ul = Some r.
Proof.
  destruct ic; [intros H; rewrite <-(app_nil_r n1) at 1; by apply full_collate_mono|].
  unfold ntfs_names_full_collate. cbv zeta. destruct (0 <? _); [|done].
  destruct (upcased_loop _ n1 _ _ _ _ _) as [[u1 u2]|] eqn:E; cbn [mbind option_bind]; [|done].
  rewrite <-(app_nil_r n1), (upcased_loop_mono _ _ _ [] t2 _ _ _ _ _ E). done.
Qed.

(** Who asks: the type, the name (its length with it), the value. *)
Section judge.
Context (upcase : list Z) (upcase_len type : Z) (name : attr_name) (name_len : Z) (ic : IGNORE_CASE_BOOL) (val : option (list Z)).
Abbreviation U := (upc upcase upcase_len).

Definition by_order (c : Z) : verdict := if c =? 0 then Hit else if c <? 0 then Past else Next.

Definition judge_name (e : list Z) : verdict :=
  match name with
  | NULL_NAME => Hit
  | AT_UNNAMED => if bool_decide (a_name e = []) then Hit else Past
  | NAME s => by_order (match ic with CASE_SENSITIVE => lex2 (map U s) s (map U (a_name e)) (a_name e) | IGNORE_CASE => lex (map U s) (map U (a_name e)) end)
  end.

Definition judge_value (e : list Z) : verdict := match val with None => Hit | Some v => by_order (lex v (a_value e)) end.

Definition judge (e : list Z) : verdict :=
  if type =? AT_UNUSED then Hit
  else if type <? a_type e then Past
  else if negb (a_type e =? type) then Next
  else match judge_name e with Hit => judge_value e | v => v end.

(** The name is as long as the caller says; what is compared by value is resident. *)
Definition name_given : Prop := match name with NAME s => name_len = zlen s /\ Forall (fun c => 0 <= c) s | _ => True end.
Definition value_given (e : list Z) : Prop := a_type e = type -> val <> None -> a_resident e = true.

Section one.
Context (e : list Z) (He : attr_ok e) (pre post : list Z).
Hypotheses (Hname : name_given) (Hup : Upcase upcase upcase_len).

Lemma match_name_ok : match_name (pre ++ e ++ post) (zlen pre) name name_len ic upcase upcase_len = Some (judge_name e).
Proof using All.
  destruct (attr_name_range e He) as (n & off & Hn & Ho & Hnr & Hor & Hl & _). unfold match_name, judge_name, a_name. pose proof Hname as Hg. unfold name_given in Hg.
  rewrite in_name_length, in_name_offset by done. rewrite Hn, Ho. cbn [default from_option id]. destruct name as [| |s]; [done | |].
  - cbn [mbind option_bind]. pose proof (zlen_seg_in e off (2 * n) ltac:(lia) ltac:(lia) ltac:(lia)) as Hz.
    assert (length (seg e off (2 * n)) = (2 * Z.to_nat n)%nat) as Hz' by (unfold zlen in Hz; lia).
    pose proof (length_units _ _ Hz') as Hu. destruct (Z.eqb_spec n 0) as [->|Hne].
    + rewrite bool_decide_eq_true_2; [done|]. by apply length_zero_iff_nil.
    + rewrite bool_decide_eq_false_2; [done|]. intros E. rewrite E in Hu. cbn in Hu. lia.
  - destruct Hg as [-> Hs]. cbn [mbind option_bind].
    assert (drop (Z.to_nat (zlen pre + off)) (pre ++ e ++ post) = drop (Z.to_nat off) (e ++ post)) as ->.
    { replace (Z.to_nat (zlen pre + off)) with (length pre + Z.to_nat off)%nat by (unfold zlen; lia). by rewrite drop_app_add. }
    rewrite (drop_seg _ _ off (2 * n)) by lia. pose proof (zlen_seg_in e off (2 * n) ltac:(lia) ltac:(lia) ltac:(lia)) as Hz.
    assert (length (seg e off (2 * n)) = (2 * Z.to_nat n)%nat) as Hz' by (unfold zlen in Hz; lia).
    rewrite (units_app (Z.to_nat n)) by done. pose proof (length_units _ _ Hz') as Hu.
    assert (n = zlen (units (seg e off (2 * n)))) as Hn' by (unfold zlen; lia). set (nm := units (seg e off (2 * n))) in *. rewrite Hn'.
    erewrite full_collate_more; [|apply full_collate_spec; [exact Hup | done |]].
    + destruct ic; done.
    + apply (units_nonneg (Z.to_nat n)); [done|]. apply Forall_take, Forall_drop, (ao_bytes _ He).
Qed.

(** memcmp of the common part, then the lengths: the order on lists. *)
Lemma lex_common_part (x y : list Z) : let n := Z.min (zlen x) (zlen y) in
  lex x y = (let rc := lex (take (Z.to_nat n) x) (take (Z.to_nat n) y) in if rc =? 0 then cmp_else (zlen x) (zlen y) 0 else rc).
Proof using.
  cbv zeta. set (k := Z.to_nat _). rewrite <-(take_drop k x) at 1. rewrite <-(take_drop k y) at 1.
  assert (length (take k x) = length (take k y)) as Hk by (unfold k; rewrite !length_take; unfold zlen; lia).
  rewrite lex_app_common by done. destruct (_ =? 0); [|done]. unfold cmp_else.
  destruct (Z.ltb_spec (zlen x) (zlen y)); [|destruct (Z.ltb_spec (zlen y) (zlen x))].
  - rewrite (drop_ge x) by (unfold k, zlen in *; lia). destruct (drop k y) eqn:E; [|done]. apply (f_equal length) in E. rewrite length_drop in E. unfold k, zlen in *. cbn in E. lia.
  - rewrite (drop_ge y) by (unfold k, zlen in *; lia). destruct (drop k x) eqn:E; [|done]. apply (f_equal length) in E. rewrite length_drop in E. unfold k, zlen in *. cbn in E. lia.
  - rewrite !drop_ge by (unfold k, zlen in *; lia). done.
Qed.

Lemma match_value_ok val_len : (forall v, val = Some v -> val_len = zlen v) -> (val <> None -> a_resident e = true) ->
  match_value (pre ++ e ++ post) (zlen pre) val val_len = Some (judge_value e).
Proof using He.
  intros Hlen Hres. unfold match_value, judge_value. destruct val as [v|]; [|done]. rewrite (Hlen v eq_refl).
  destruct (attr_value_range e He) as (n & off & Hn & Ho & Hnr & Hor & Hl); [by apply Hres|].
  rewrite in_value_length, in_value_offset, Hn, Ho by done. cbn [mbind option_bind]. unfold a_value. rewrite Hn, Ho. cbn [default from_option id].
  pose proof (zlen_nonneg v). assert (0 <= Z.min (zlen v) n <= n /\ Z.min (zlen v) n <= zlen v) as Hk by lia. pose proof (lex_common_part v (seg e off n)) as Hlex. cbv zeta in Hlex.
  pose proof (zlen_seg_in e off n ltac:(lia) ltac:(lia) ltac:(lia)) as Hz. rewrite Hz in Hlex. rewrite Hlex. clear Hlex. set (k := Z.min (zlen v) n) in *. clearbody k. rewrite (zread_inside v 0 k) by lia. cbn [mbind option_bind].
  assert (zread (pre ++ e ++ post) (zlen pre + off) k = Some (take (Z.to_nat k) (seg e off n))) as ->.
  { rewrite zread_inside by (rewrite ?zlen_app; pose proof (zlen_nonneg pre); pose proof (zlen_nonneg post); lia). f_equal.
    replace (Z.to_nat (zlen pre + off)) with (length pre + Z.to_nat off)%nat by (unfold zlen; lia). rewrite drop_app_add, (drop_seg _ _ off n) by lia.
    rewrite take_app_le; [done|]. unfold zlen in Hz. lia. }
  cbn [mbind option_bind]. change (drop (Z.to_nat 0) v) with v. unfold by_order, cmp_else.
  destruct (Z.eqb_spec (lex (take (Z.to_nat k) v) (take (Z.to_nat k) (seg e off n))) 0) as [E|E]; [|by rewrite ?(proj2 (Z.eqb_neq _ _) E)].
  destruct (Z.eqb_spec (zlen v) n) as [->|]; [by rewrite Z.ltb_irrefl|].
  destruct (Z.ltb_spec (zlen v) n); [done|]. by rewrite (proj2 (Z.ltb_lt n (zlen v))) by lia.
Qed.

Lemma match_attr_ok val_len : (forall v, val = Some v -> val_len = zlen v) -> (val <> None -> a_resident e = true) ->
  match_attr (pre ++ e ++ post) (zlen pre) name name_len ic val val_len upcase upcase_len = Some (match judge_name e with Hit => judge_value e | v => v end).
Proof using All.
  intros Hlen Hres. unfold match_attr. rewrite match_name_ok. cbn [mbind option_bind]. destruct (judge_name e); [|done|done]. by apply match_value_ok.
Qed.
End one.
End judge.

(** ** Records *)

(** A record with the attributes [es]: the header [hd], the attributes, the end
    marker, which is the type AT_END and four bytes, and free space. *)
Record record_at (m hd : list Z) (es : list (list Z)) (fin free : list Z) : Prop := {
  rc_bytes : m = hd ++ concat es ++ (le_encode 4 AT_END ++ fin) ++ free;
  rc_wf : wf_bytes m;
  rc_head : 42 <= zlen hd /\ attrs_offset hd = Some (zlen hd);
  rc_used : bytes_in_use hd = Some (zlen hd + zlen (concat es) + 8);
  rc_allocated : bytes_allocated hd = Some (zlen m) /\ zlen m < 2 ^ 16;
  rc_fin : zlen fin = 4;
  rc_attrs : Forall attr_ok es }.

(** The offset behind the attributes [l]. *)
Definition place (hd : list Z) (l : list (list Z)) : Z := zlen hd + zlen (concat l).

Lemma place_snoc hd l e : place hd (l ++ [e]) = place hd l + zlen e.
Proof. unfold place. rewrite concat_app, zlen_app. cbn [concat]. rewrite app_nil_r. lia. Qed.

Lemma record_wf_parts m hd es fin free : record_at m hd es fin free -> wf_bytes hd /\ Forall wf_bytes es /\ wf_bytes fin /\ wf_bytes free.
Proof.
  intros [-> Hw _ _ _ _ Hes]. unfold wf_bytes in *. rewrite !Forall_app in Hw. destruct Hw as (? & _ & (_ & ?) & ?).
  split_and!; try done. eapply Forall_impl; [exact Hes|]. intros e He. apply (ao_bytes _ He).
Qed.

Section record.
Context {m hd : list Z} {es : list (list Z)} {fin free : list Z} (Hm : record_at m hd es fin free).

Lemma record_field n a : 0 <= a -> a + Z.of_nat n <= 42 -> ld n m a = ld n hd a.
Proof using Hm. destruct Hm as [-> _ [Hh _] _ _ _ _]. intros. apply ld_prefix; lia. Qed.

Lemma record_attrs_offset : attrs_offset m = Some (zlen hd).
Proof using Hm. unfold attrs_offset, le16_to_cpup. rewrite record_field by lia. apply Hm. Qed.
Lemma record_in_use : bytes_in_use m = Some (place hd es + 8).
Proof using Hm. unfold bytes_in_use, le32_to_cpup. rewrite record_field by lia. apply Hm. Qed.
Lemma record_allocated : bytes_allocated m = Some (zlen m).
Proof using Hm. unfold bytes_allocated, le32_to_cpup. rewrite record_field by lia. apply Hm. Qed.

Lemma record_len : place hd es + 8 + zlen free = zlen m.
Proof using Hm.
  destruct Hm as [-> _ _ _ _ Hf _]. unfold place. rewrite !zlen_app, zlen_le_encode, Hf. lia.
Qed.

Lemma record_split l r : es = l ++ r -> m = (hd ++ concat l) ++ concat r ++ (le_encode 4 AT_END ++ fin) ++ free /\ zlen (hd ++ concat l) = place hd l.
Proof using Hm. intros ->. destruct Hm as [-> _ _ _ _ _ _]. rewrite concat_app, <-!app_assoc. split; [done|]. by rewrite zlen_app. Qed.

Lemma record_end : attr_type m (place hd es) = Some AT_END.
Proof using Hm.
  destruct (record_split es [] ltac:(by rewrite app_nil_r)) as [E <-]. rewrite E. cbn [concat app]. unfold attr_type, le32_to_cpup.
  rewrite <-(app_assoc (le_encode 4 AT_END)). etransitivity; [by apply ld_mid | done].
Qed.

Lemma place_bounds l r : es = l ++ r -> 0 <= place hd l /\ place hd l + zlen (concat r) + 8 <= zlen m.
Proof using Hm.
  intros Es. pose proof record_len as Hl. unfold place in *. rewrite Es, concat_app, zlen_app in Hl.
  pose proof (zlen_nonneg hd). pose proof (zlen_nonneg (concat l)). pose proof (zlen_nonneg free). lia.
Qed.

Lemma attrs_long r : Forall attr_ok r -> 24 * Z.of_nat (length r) <= zlen (concat r).
Proof using.
  induction 1 as [|e r He _ IH]; [done|]. cbn [concat length]. rewrite zlen_app. pose proof (proj1 (ao_length _ He)). lia.
Qed.
End record.

(** ** The search *)

(** The search of a list: the attributes passed, and what it stopped at. *)
Definition search_result (judge : list Z -> verdict) (es l r : list (list Z)) (res : result unit) : Prop :=
  es = l ++ r /\ Forall (fun e => judge e = Next) l /\
  match r with [] => res = Err ENOENT | e :: _ => judge e = Hit /\ res = Ok tt \/ judge e = Past /\ res = Err ENOENT end.

Section find.
Context (upcase : list Z) (upcase_len type : Z) (name : attr_name) (name_len : Z) (ic : IGNORE_CASE_BOOL) (val : option (list Z)) (val_len : Z).
Hypotheses (Hname : name_given name name_len) (Hup : Upcase upcase upcase_len).
Hypothesis Hlen : forall v, val = Some v -> val_len = zlen v.
Abbreviation judge := (judge upcase upcase_len type name ic val).

Lemma find_loop_ok m hd es fin free : record_at m hd es fin free -> Forall (value_given type val) es -> forall r fuel l attr, es = l ++ r -> (length r < fuel)%nat ->
  exists l' r' res, attr_find_loop fuel m type name name_len ic val val_len upcase upcase_len (place hd l) attr = Some (place hd (l ++ l'), res) /\
    search_result judge r l' r' res.
Proof using Hname Hup Hlen.
  intros Hm Hval. induction r as [|e r IH]; intros [|fuel] l attr Es Hfuel; try (cbn in Hfuel; lia); cbn [attr_find_loop].
  all: rewrite (record_allocated Hm); cbn [mbind option_bind].
  all: pose proof (place_bounds Hm l _ Es) as [Hl0 Hl]; match type of Hl with _ + zlen (concat ?r) + _ <= _ => pose proof (zlen_nonneg (concat r)) end.
  all: rewrite (proj2 (Z.ltb_ge (place hd l) 0)), (proj2 (Z.ltb_ge (zlen m) (place hd l))) by lia; cbn [orb].
  - rewrite app_nil_r in Es. subst l. rewrite (record_end Hm). cbn [mbind option_bind]. rewrite orb_true_r.
    exists [], [], (Err ENOENT). by rewrite app_nil_r.
  - destruct (record_split Hm l (e :: r) Es) as [Em Ep]. cbn [concat] in Em. rewrite <-(app_assoc e) in Em.
    assert (attr_ok e) as He by (pose proof (rc_attrs _ _ _ _ _ Hm) as Ha; subst es; apply Forall_app in Ha as [_ Ha]; by apply Forall_inv in Ha).
    assert (value_given type val e) as Hv by (subst es; apply Forall_app in Hval as [_ Ha]; by apply Forall_inv in Ha).
    destruct (attr_type_a _ He) as [_ Ht]. rewrite <-Ep, Em, in_type by done. cbn [mbind option_bind].
    rewrite (proj2 (Z.eqb_neq (a_type e) AT_END)) by lia. rewrite orb_false_r. rewrite in_length by done. cbn [mbind option_bind].
    assert (forall v, judge e = v -> v <> Next -> exists l' r' res, Some (zlen (hd ++ concat l), match v with Hit => Ok tt | _ => Err ENOENT end) = Some (place hd (l ++ l'), res) /\
      search_result judge (e :: r) l' r' res) as Hstop.
    { intros v Hj Hn. exists [], (e :: r), (match v with Hit => Ok tt | _ => Err ENOENT end). rewrite app_nil_r, Ep. split; [done|]. split_and!; [done | done |].
      destruct v; [by left | by right | done]. }
    assert (judge e = Next -> exists l' r' res, attr_find_loop fuel m type name name_len ic val val_len upcase upcase_len (zlen (hd ++ concat l) + zlen e) (zlen (hd ++ concat l)) =
      Some (place hd (l ++ l'), res) /\ search_result judge (e :: r) l' r' res) as Hnext.
    { intros Hj. rewrite Ep, <-place_snoc. destruct (IH fuel (l ++ [e]) (place hd l)) as (l' & r' & res & E & -> & Hl' & Hr'); [by rewrite <-app_assoc | cbn in Hfuel; lia |].
      exists (e :: l'), r', res. rewrite <-app_assoc in E. split; [exact E|]. split_and!; [done | by constructor | done]. }
    rewrite Em in Hnext. assert (judge e = AttrSpec.judge upcase upcase_len type name ic val e) as Ej by done. unfold AttrSpec.judge in Ej at 2.
    assert ((zlen e =? 0) = false) as Hne by (apply Z.eqb_neq; pose proof (proj1 (ao_length _ He)); lia).
    destruct (Z.eqb_spec type AT_UNUSED) as [E0|E0]; cbn [negb andb].
    { rewrite Hne. by apply (Hstop Hit). }
    destruct (type <? a_type e); [by apply (Hstop Past)|]. rewrite Hne.
    destruct (Z.eqb_spec (a_type e) type) as [E1|E1]; cbn [negb] in *; [|by apply Hnext].
    rewrite match_attr_ok by (done || by apply Hv). cbn [mbind option_bind].
    rewrite <-Ej. destruct (judge e); [by apply (Hstop Hit) | by apply (Hstop Past) | by apply Hnext].
Qed.

(** What ntfs_attr_find starts from: the attributes [l] are behind it. *)
Definition starts (ctx : search_ctx) (hd : list Z) (l : list (list Z)) : Prop :=
  cx_is_first ctx = true /\ cx_attr ctx = place hd l \/
  cx_is_first ctx = false /\ exists l0 e, l = l0 ++ [e] /\ cx_attr ctx = place hd l0.

Lemma attr_find_ok m hd es fin free ctx l r : record_at m hd es fin free -> Forall (value_given type val) es -> es = l ++ r -> starts ctx hd l -> cx_inode ctx = true ->
  exists l' r' res, ntfs_attr_find upcase upcase_len type name name_len ic val val_len m ctx = Some (Ctx (place hd (l ++ l')) false true, res) /\
    search_result judge r l' r' res.
Proof using Hname Hup Hlen.
  intros Hm Hv Es Hs Hi. unfold ntfs_attr_find. rewrite Hi. cbn [negb andb].
  assert (exists a, (if cx_is_first ctx then Some (cx_attr ctx) else len ← attr_length m (cx_attr ctx); Some (cx_attr ctx + len)) = Some a /\ a = place hd l) as (a & -> & ->).
  { destruct Hs as [[-> ->]|(-> & l0 & e & -> & ->)]; [by eexists|]. rewrite <-app_assoc in Es. destruct (record_split Hm l0 (e :: r) Es) as [Em Ep]. cbn [concat] in Em.
    rewrite <-(app_assoc e) in Em. assert (attr_ok e) as He by (pose proof (rc_attrs _ _ _ _ _ Hm) as Ha; rewrite Es in Ha; apply Forall_app in Ha as [_ Ha]; by apply Forall_inv in Ha).
    rewrite <-Ep, Em, in_length by done. cbn [mbind option_bind]. eexists. split; [done|]. by rewrite Ep, place_snoc. }
  cbn [mbind option_bind]. destruct (find_loop_ok m hd es fin free Hm Hv r (find_fuel m) l (cx_attr ctx) Es) as (l' & r' & res & -> & Hres).
  - unfold find_fuel. rewrite (record_allocated Hm). cbn [default from_option id]. pose proof (record_len Hm) as Hl.
    pose proof (rc_attrs _ _ _ _ _ Hm) as Ha. rewrite Es in Ha, Hl. apply Forall_app in Ha as [_ Ha]. pose proof (attrs_long r Ha).
    unfold place in Hl. rewrite concat_app, zlen_app in Hl. pose proof (zlen_nonneg hd). pose proof (zlen_nonneg (concat l)). pose proof (zlen_nonneg free). lia.
  - cbn [mbind option_bind fst snd]. by exists l', r', res.
Qed.
End find.
