(* ===== verification/AttrRec.v ===== *)
(** Room in an MFT record: what ntfs_make_room_for_attr, ntfs_attr_record_resize
    and ntfs_resident_attr_value_resize (libntfs-3g/attrib.c) do to the list of
    attributes of a record. *)

From S2P Require Import Prelude Names Collate Index Attr AttrSpec.
Local Open Scope Z_scope.
Local Open Scope c_scope.
Set Default Proof Using "Type*".
#[local] Arguments le_encode : simpl never.

(** ** Alignment *)

Definition up8 (n : Z) : Z := (n + 7) / 8 * 8.

Lemma land_down8 x w : 3 <= w -> 0 <= x < 2 ^ w -> Z.land x (Z.ldiff (Z.ones w) (Z.ones 3)) = x / 8 * 8.
Proof.
  intros Hw Hx. assert (Z.land x (Z.ldiff (Z.ones w) (Z.ones 3)) = Z.ldiff (Z.land x (Z.ones w)) (Z.ones 3)) as ->.
  { apply Z.bits_inj'. intros i Hi. rewrite !Z.land_spec, !Z.ldiff_spec, !Z.land_spec. by rewrite andb_assoc. }
  rewrite Z.land_ones by lia. rewrite Z.mod_small by lia. rewrite Z.ldiff_ones_r by lia. by rewrite Z.shiftl_mul_pow2, Z.shiftr_div_pow2 by lia.
Qed.

Lemma align8_eq n : 0 <= n -> n + 7 < 2 ^ 32 -> align8 n = up8 n.
Proof. intros Hn Hm. unfold align8, up8, u32. rewrite wrap_u_small by lia. apply (land_down8 (n + 7) 32); lia. Qed.

Lemma up8_range n : n <= up8 n < n + 8 /\ up8 n mod 8 = 0.
Proof. unfold up8. split; [divlia|]. apply Z_mod_mult. Qed.

Lemma up8_id n : n mod 8 = 0 -> up8 n = n.
Proof. unfold up8. intros. divlia. Qed.

(** ** Writes in a piece *)

(** [bs] over the bytes of [e] from [k]. *)
Definition patch (e : list Z) (k : Z) (bs : list Z) : list Z := take (Z.to_nat k) e ++ bs ++ drop (Z.to_nat k + length bs) e.

Lemma zwrite_patch pre e post a k bs : a = zlen pre + k -> 0 <= k -> k + zlen bs <= zlen e ->
  zwrite (pre ++ e ++ post) a bs = Some (pre ++ patch e k bs ++ post).
Proof.
  intros -> Hk Hl. pose proof (zlen_nonneg pre). pose proof (zlen_nonneg post).
  assert (e = take (Z.to_nat k) e ++ take (length bs) (drop (Z.to_nat k) e) ++ drop (Z.to_nat k + length bs) e) as E.
  { by rewrite <-drop_drop, take_drop, take_drop. }
  unfold patch. rewrite E at 1. rewrite <-!app_assoc, !(app_assoc pre). apply zwrite_mid.
  - rewrite zlen_app. unfold zlen in *. rewrite length_take. lia.
  - unfold zlen in *. rewrite length_take, length_drop. lia.
Qed.

Lemma patch_write e k bs : 0 <= k -> k + zlen bs <= zlen e -> zwrite e k bs = Some (patch e k bs).
Proof. intros. by rewrite zwrite_inside. Qed.

Lemma patch_st n e k v : 0 <= k -> k + Z.of_nat n <= zlen e -> st n e k v = Some (patch e k (le_encode n v)).
Proof. intros. unfold st. apply patch_write; [done|]. by rewrite zlen_le_encode. Qed.

Lemma zlen_patch e k bs : 0 <= k -> k + zlen bs <= zlen e -> zlen (patch e k bs) = zlen e.
Proof. intros Hk Hl. pose proof (patch_write e k bs Hk Hl) as H. by apply zwrite_Some in H as (_ & _ & -> & _). Qed.

Lemma patch_get e k bs j : 0 <= k -> k + zlen bs <= zlen e -> j < k \/ k + zlen bs <= j -> (patch e k bs).[j] = e.[j].
Proof.
  intros Hk Hl Hj. pose proof (patch_write e k bs Hk Hl) as H. apply zwrite_Some in H as (_ & _ & _ & ->).
  destruct (Z.leb_spec k j), (Z.ltb_spec j (k + zlen bs)); done || lia.
Qed.

Lemma patch_ld n e k bs j : 0 <= k -> k + zlen bs <= zlen e -> j + Z.of_nat n <= k \/ k + zlen bs <= j -> ld n (patch e k bs) j = ld n e j.
Proof.
  intros Hk Hl Hj. apply ld_ext; [by apply zlen_patch|]. intros i Hi. apply patch_get; [done | done | lia].
Qed.

Lemma patch_same n e k v : 0 <= k -> k + Z.of_nat n <= zlen e -> ld n (patch e k (le_encode n v)) k = Some (v mod 256 ^ Z.of_nat n).
Proof. intros. by apply (ld_st_same n e), patch_st. Qed.

Lemma patch_wf e k bs : 0 <= k -> k + zlen bs <= zlen e -> wf_bytes e -> wf_bytes bs -> wf_bytes (patch e k bs).
Proof. intros Hk Hl He Hb. by apply (wf_zwrite e k bs), patch_write. Qed.

(** What memmove does to the bytes [x] behind [pre]: [t] from [n] on. *)
Lemma zwrite_over pre (x t : list Z) n : 0 <= n -> n + zlen t <= zlen x ->
  zwrite (pre ++ x) (zlen pre + n) t = Some (pre ++ take (Z.to_nat n) x ++ t ++ drop (Z.to_nat n + length t) x).
Proof.
  intros. rewrite <-(app_nil_r x) at 1. rewrite (zwrite_patch pre x [] _ n t) by done. by rewrite app_nil_r.
Qed.

(** ** The header *)

(** The header with other bytes in use. *)
Definition set_used (hd : list Z) (n : Z) : list Z := patch hd 24 (le_encode 4 n).

Lemma set_used_ok hd n size : 42 <= zlen hd -> 0 <= n < 2 ^ 32 -> attrs_offset hd = Some (zlen hd) -> bytes_allocated hd = Some size ->
  zlen (set_used hd n) = zlen hd /\ attrs_offset (set_used hd n) = Some (zlen (set_used hd n)) /\ bytes_in_use (set_used hd n) = Some n /\
  bytes_allocated (set_used hd n) = Some size /\ (wf_bytes hd -> wf_bytes (set_used hd n)).
Proof.
  intros Hh Hn Ho Ha. unfold set_used. pose proof (zlen_le_encode 4 n) as Hl. assert (zlen (patch hd 24 (le_encode 4 n)) = zlen hd) as Hz by (apply zlen_patch; lia).
  split_and!; [done | | | |].
  - rewrite Hz, <-Ho. apply patch_ld; lia.
  - unfold bytes_in_use, le32_to_cpup. rewrite patch_same by lia. f_equal. by apply Z.mod_small.
  - rewrite <-Ha. apply patch_ld; lia.
  - intros Hw. apply patch_wf; [lia | lia | done | apply wf_le_encode].
Qed.

Lemma put_used hd rest n : 42 <= zlen hd -> put_le32 (hd ++ rest) 24 n = Some (set_used hd n ++ rest).
Proof. intros Hh. unfold put_le32, st. apply (zwrite_patch [] hd rest); rewrite ?zlen_le_encode; change (zlen []) with 0; lia. Qed.

(** ** The list of a record *)

Definition end_marker (fin : list Z) : list Z := le_encode 4 AT_END ++ fin.

(** The record with the attributes [es]. *)
Definition record_bytes (hd : list Z) (es : list (list Z)) (fin free : list Z) : list Z :=
  set_used hd (place hd es + 8) ++ concat es ++ end_marker fin ++ free.

Lemma record_changed m hd es fin free es' free' : record_at m hd es fin free -> Forall attr_ok es' -> wf_bytes free' ->
  zlen (concat es') + zlen free' = zlen (concat es) + zlen free ->
  record_at (record_bytes hd es' fin free') (set_used hd (place hd es' + 8)) es' fin free' /\ zlen (record_bytes hd es' fin free') = zlen m /\
  forall k, place (set_used hd (place hd es' + 8)) k = place hd k.
Proof.
  intros Hm Hes Hfree Hl. pose proof Hm as [Em Hw [Hh Ho] Hu [Ha Hs] Hf _]. pose proof (record_len Hm) as Hlen. unfold place in Hlen.
  destruct (record_wf_parts _ _ _ _ _ Hm) as (Hwh & _ & Hwf & _).
  assert (0 <= place hd es' + 8 < 2 ^ 32) as Hr.
  { unfold place. pose proof (zlen_nonneg (concat es')). pose proof (zlen_nonneg hd). pose proof (zlen_nonneg free'). lia. }
  destruct (set_used_ok hd (place hd es' + 8) (zlen m) Hh Hr Ho Ha) as (E1 & E2 & E3 & E4 & E5).
  assert (forall k, place (set_used hd (place hd es' + 8)) k = place hd k) as Hp by (intros k; change (zlen (set_used hd (place hd es' + 8)) + zlen (concat k) = place hd k); by rewrite E1).
  assert (zlen (record_bytes hd es' fin free') = zlen m) as Hz.
  { unfold record_bytes, end_marker. rewrite !zlen_app, zlen_le_encode, E1, Hf. lia. }
  split_and!; [|done|done]. split; try done.
  - unfold record_bytes, end_marker, wf_bytes in *. rewrite !Forall_app. split_and!; [by apply E5 | | apply wf_le_encode | done | done].
    clear -Hes. induction Hes as [|e es He _ IH]; [by constructor|]. cbn [concat]. apply Forall_app. split; [apply (ao_bytes _ He) | done].
  - split; [lia | done].
  - rewrite E3. f_equal. by rewrite E1.
  - by rewrite Hz.
Qed.

(** What [take n] of [a ++ b] keeps of [a], with a word of it replaced. *)
Lemma wf_concat es : Forall attr_ok es -> wf_bytes (concat es).
Proof. induction 1 as [|e es He _ IH]; [by constructor|]. apply Forall_app. split; [apply (ao_bytes _ He) | done]. Qed.

Section room.
Context {m hd : list Z} {fin free : list Z} (l r : list (list Z)).

Lemma make_room_ok n : record_at m hd (l ++ r) fin free -> 0 < n < 2 ^ 31 -> n mod 8 = 0 ->
  if n <=? zlen free then exists gap, zlen gap = n /\ wf_bytes gap /\
    ntfs_make_room_for_attr m (place hd l) n =
      Some (set_used hd (place hd (l ++ r) + 8 + n) ++ concat l ++ gap ++ concat r ++ end_marker fin ++ drop (Z.to_nat n) free, Ok tt)
  else ntfs_make_room_for_attr m (place hd l) n = Some (m, Err ENOSPC).
Proof.
  intros Hm Hn H8. pose proof (record_len Hm) as Hlen. pose proof (proj2 (rc_allocated _ _ _ _ _ Hm)) as Hs.
  destruct (place_bounds Hm l r eq_refl) as [Hp0 Hp]. pose proof (zlen_nonneg (concat r)). pose proof (zlen_nonneg free).
  assert (place hd (l ++ r) = place hd l + zlen (concat r)) as Epl by (unfold place; rewrite concat_app, zlen_app; lia).
  unfold ntfs_make_room_for_attr. rewrite align8_eq, up8_id by lia. cbv zeta. rewrite (proj2 (Z.ltb_ge (place hd l) 0)) by lia.
  rewrite (record_in_use Hm), (record_allocated Hm). cbn [mbind option_bind]. rewrite s32_small by lia.
  rewrite (proj2 (Z.ltb_ge _ (place hd l))), (proj2 (Z.eqb_neq n 0)) by lia. unfold u32. rewrite wrap_u_small by lia.
  destruct (Z.leb_spec n (zlen free)).
  - rewrite (proj2 (Z.ltb_ge (zlen m) (place hd (l ++ r) + 8 + n))), (proj2 (Z.ltb_ge (zlen m) (place hd l + n))) by lia. cbn [orb].
    destruct (record_split Hm l r eq_refl) as [Em Ep]. change (le_encode 4 AT_END ++ fin) with (end_marker fin) in Em.
    assert (zlen (end_marker fin) = 8) as He8 by (unfold end_marker; rewrite zlen_app, zlen_le_encode, (rc_fin _ _ _ _ _ Hm); done).
    rewrite Em. set (t := concat r ++ end_marker fin). assert (zlen t = zlen (concat r) + 8) as Ht by (unfold t; rewrite zlen_app; lia).
    assert (zread ((hd ++ concat l) ++ concat r ++ end_marker fin ++ free) (place hd l) (place hd (l ++ r) + 8 - place hd l) = Some t) as ->.
    { rewrite (app_assoc (concat r)). apply zread_mid; [by rewrite Ep | fold t; lia]. }
    cbn [mbind option_bind]. rewrite (app_assoc (concat r)). fold t. rewrite <-Ep, zwrite_over by (rewrite ?zlen_app; lia).
    cbn [mbind option_bind]. rewrite <-(app_assoc hd). rewrite put_used by apply Hm. cbn [mbind option_bind].
    exists (take (Z.to_nat n) (t ++ free)). split; [|split].
    + unfold zlen in *. rewrite length_take, length_app. lia.
    + apply Forall_take, Forall_app. destruct (record_wf_parts _ _ _ _ _ Hm) as (_ & _ & Hwf & Hwfr). split; [|done].
      apply Forall_app. split; [|apply Forall_app; split; [apply wf_le_encode | done]].
      apply wf_concat. pose proof (rc_attrs _ _ _ _ _ Hm) as Ha. by apply Forall_app in Ha as [_ ?].
    + assert (drop (Z.to_nat n + length t) (t ++ free) = drop (Z.to_nat n) free) as -> by (by rewrite Nat.add_comm, <-drop_drop, drop_app_length).
      unfold t at 2. by rewrite <-!app_assoc.
  - rewrite (proj2 (Z.ltb_lt (zlen m) (place hd (l ++ r) + 8 + n))) by lia. done.
Qed.

Context (e : list Z) (He : attr_ok e).

(** What a resized attribute keeps: all but its length, as far as it goes. *)
Record resized_attr (n : Z) (e' : list Z) : Prop := {
  rz_len : zlen e' = n;
  rz_wf : wf_bytes e';
  rz_field : 0 < n -> attr_length e' 0 = Some n;
  rz_get : forall j, 0 <= j < n -> j < zlen e -> j < 4 \/ 8 <= j -> e'.[j] = e.[j] }.

Definition resize_filled (m : list Z) (used used' n : Z) : bool :=
  (a_type e =? AT_INDEX_ROOT) && (zlen e <? n) && (zlen m <? used' + 120) && (used + 120 <=? zlen m).

Lemma resize_ok n0 n used : record_at m hd (l ++ e :: r) fin free -> 0 <= n0 < 2 ^ 30 -> n = up8 n0 -> used = place hd (l ++ e :: r) + 8 ->
  if n =? zlen e then ntfs_attr_record_resize m (place hd l) n0 = Some (m, STATUS_OK)
  else if zlen m <? used - zlen e + n then ntfs_attr_record_resize m (place hd l) n0 = Some (m, STATUS_ERROR ENOSPC)
  else if resize_filled m used (used - zlen e + n) n then ntfs_attr_record_resize m (place hd l) n0 = Some (m, STATUS_RESIDENT_ATTRIBUTE_FILLED_MFT)
  else exists e' free', resized_attr n e' /\ wf_bytes free' /\ zlen e' + zlen free' = zlen e + zlen free /\
    ntfs_attr_record_resize m (place hd l) n0 = Some (set_used hd (used - zlen e + n) ++ concat l ++ e' ++ concat r ++ end_marker fin ++ free', STATUS_OK).
Proof using All.
  intros Hm Hn En Eu. pose proof (record_len Hm) as Hlen. pose proof (proj2 (rc_allocated _ _ _ _ _ Hm)) as Hs.
  destruct (up8_range n0) as [Hup H8]. rewrite <-En in Hup, H8. pose proof (proj1 (ao_length _ He)) as Hel. pose proof (ao_aligned _ He) as Hea.
  destruct (record_split Hm l (e :: r) eq_refl) as [Em Ep]. change (le_encode 4 AT_END ++ fin) with (end_marker fin) in Em. cbn [concat] in Em. rewrite <-(app_assoc e) in Em.
  assert (place hd (l ++ e :: r) = place hd l + zlen e + zlen (concat r)) as Epl by (unfold place; rewrite concat_app, zlen_app; cbn [concat]; rewrite zlen_app; lia).
  pose proof (zlen_nonneg (concat r)). pose proof (zlen_nonneg free). destruct (place_bounds Hm l _ eq_refl) as [Hp0 _].
  unfold ntfs_attr_record_resize. rewrite (record_in_use Hm), (record_allocated Hm). cbn [mbind option_bind].
  assert (attr_length m (place hd l) = Some (zlen e)) as -> by (rewrite <-Ep, Em; by apply in_length).
  assert (attr_type m (place hd l) = Some (a_type e)) as Hty by (rewrite <-Ep, Em; by apply in_type).
  cbn [mbind option_bind]. cbv zeta. rewrite align8_eq, <-En by lia.
  destruct (Z.eqb_spec n (zlen e)) as [|Hne]; [done|]. rewrite <-Eu. unfold u32. rewrite (wrap_u_small 32 (used - _ + _)) by lia.
  destruct (Z.ltb_spec (zlen m) (used - zlen e + n)) as [|Hfit]; [done|].
  rewrite Hty. cbn [mbind option_bind]. rewrite !wrap_u_small by lia. fold (resize_filled m used (used - zlen e + n) n).
  destruct (resize_filled m used _ n); [done|].
  assert (zlen (end_marker fin) = 8) as He8 by (unfold end_marker; rewrite zlen_app, zlen_le_encode, (rc_fin _ _ _ _ _ Hm); done).
  set (t := concat r ++ end_marker fin). assert (zlen t = zlen (concat r) + 8) as Ht by (unfold t; rewrite zlen_app; lia).
  assert (zread m (place hd l + zlen e) (used - place hd l - zlen e) = Some t) as ->.
  { rewrite Em. rewrite (app_assoc (concat r)), (app_assoc (hd ++ concat l)). apply zread_mid; [rewrite zlen_app; lia | fold t; lia]. }
  cbn [mbind option_bind]. assert (m = (hd ++ concat l) ++ e ++ t ++ free) as Em' by (rewrite Em; unfold t; by rewrite <-!app_assoc).
  assert (zlen (e ++ t ++ free) = zlen e + zlen t + zlen free) as Hx by (rewrite !zlen_app; lia).
  assert (zwrite m (place hd l + n) t = Some ((hd ++ concat l) ++ take (Z.to_nat n) (e ++ t ++ free) ++ t ++ drop (Z.to_nat n + length t) (e ++ t ++ free))) as ->.
  { rewrite <-Ep, Em'. apply zwrite_over; lia. }
  cbn [mbind option_bind].
  set (e1 := take (Z.to_nat n) (e ++ t ++ free)). set (free' := drop _ _).
  assert (zlen e1 = n) as Hl1 by (unfold e1, zlen in *; rewrite length_take; lia).
  assert (zlen free' = zlen e + zlen free - n) as Hl2 by (unfold free', zlen in *; rewrite length_drop; lia).
  destruct (record_wf_parts _ _ _ _ _ Hm) as (_ & Hwes & Hwf & Hwfr).
  assert (wf_bytes (e ++ t ++ free)) as Hwx.
  { apply Forall_app; split; [apply (ao_bytes _ He)|]. apply Forall_app; split; [|done]. apply Forall_app; split; [|apply Forall_app; split; [apply wf_le_encode | done]].
    apply wf_concat. pose proof (rc_attrs _ _ _ _ _ Hm) as Ha. apply Forall_app in Ha as [_ Ha]. by apply Forall_inv_tail in Ha. }
  assert (wf_bytes e1) as Hw1 by (by apply Forall_take). assert (wf_bytes free') as Hw2 by (by apply Forall_drop).
  assert (forall j, 0 <= j < n -> j < zlen e -> e1.[j] = e.[j]) as Hget.
  { intros j Hj Hje. unfold e1. transitivity ((e ++ t ++ free).[j]); [|by apply zget_app_l].
    rewrite <-(take_drop (Z.to_nat n) (e ++ t ++ free)) at 2. rewrite zget_app_l; [done|]. fold e1. lia. }
  clearbody e1 free'. rewrite <-(app_assoc hd). rewrite put_used by apply Hm. cbn [mbind option_bind].
  exists (if 8 <=? n then patch e1 4 (le_encode 4 n) else e1), free'. destruct (Z.leb_spec 8 n) as [Hn8|Hn8].
  - assert (zlen (le_encode 4 n) = 4) as H4 by (by rewrite zlen_le_encode). split_and!; [split | done | rewrite zlen_patch; lia |].
    + by rewrite zlen_patch by lia.
    + apply patch_wf; [lia | lia | done | apply wf_le_encode].
    + intros _. unfold attr_length, le32_to_cpup. change (0 + 4) with 4. rewrite (patch_same 4 e1 4 n) by lia. f_equal. apply Z.mod_small. lia.
    + intros j Hj Hje Hjk. rewrite patch_get by lia. by apply Hget.
    + unfold put_le32, st. rewrite (app_assoc (set_used _ _)). rewrite (zwrite_patch _ e1 _ _ 4).
      * cbn [mbind option_bind]. unfold t. by rewrite <-!app_assoc.
      * rewrite zlen_app. unfold set_used. rewrite zlen_patch by (rewrite ?zlen_le_encode; pose proof (proj1 (rc_head _ _ _ _ _ Hm)); lia). unfold place. lia.
      * lia.
      * lia.
  - assert (n = 0) as -> by divlia. split_and!; [split; done || lia | done | lia |]. cbn [mbind option_bind]. unfold t. by rewrite <-!app_assoc.
Qed.
End room.

(** ** A value of another size *)

(** The record with another attribute in the place of one as long. *)
Lemma record_replace m hd l e r fin free e' : record_at m hd (l ++ e :: r) fin free -> attr_ok e' -> zlen e' = zlen e ->
  record_at ((hd ++ concat l) ++ e' ++ concat r ++ end_marker fin ++ free) hd (l ++ e' :: r) fin free.
Proof.
  intros Hm He' Hl. destruct (record_split Hm l (e :: r) eq_refl) as [Em _]. cbn [concat] in Em. pose proof Hm as [_ Hw Hh Hu [Ha Hs] Hf Hes].
  assert (zlen ((hd ++ concat l) ++ e' ++ concat r ++ end_marker fin ++ free) = zlen m) as Hz.
  { rewrite Em. rewrite !zlen_app. unfold end_marker. rewrite !zlen_app. lia. }
  assert (zlen (concat (l ++ e' :: r)) = zlen (concat (l ++ e :: r))) as Hc by (rewrite !concat_app; cbn [concat]; rewrite !zlen_app; lia).
  split; try done.
  - rewrite concat_app. cbn [concat]. unfold end_marker. by rewrite <-!app_assoc.
  - rewrite Em in Hw. unfold wf_bytes in *. rewrite !Forall_app in Hw. unfold end_marker. rewrite !Forall_app. destruct Hw as (? & (? & ?) & ? & ?). split_and!; try tauto. apply (ao_bytes _ He').
  - by rewrite Hc.
  - by rewrite Hz.
  - apply Forall_app in Hes as [? Hes]. apply Forall_app. split; [done|]. constructor; [done|]. by apply Forall_inv_tail in Hes.
Qed.

(** What is written over the value: zeros behind what was there, and the length. *)
Definition cleared_value (e : list Z) (off old new : Z) : list Z := if old <? new then patch e (off + old) (replicate (Z.to_nat (new - old)) 0) else e.
Definition resized_value (e : list Z) (off old new : Z) : list Z := patch (cleared_value e off old new) 16 (le_encode 4 new).

(** The first [n] bytes of [v], or [v] and zeros. *)
Definition fit (v : list Z) (n : Z) : list Z := take (Z.to_nat n) (v ++ replicate (Z.to_nat (n - zlen v)) 0).

Lemma fit_get v n i : 0 <= i < n -> (fit v n).[i] = if i <? zlen v then v.[i] else Some 0.
Proof.
  intros Hi. unfold fit. transitivity ((v ++ replicate (Z.to_nat (n - zlen v)) 0).[i]).
  { rewrite <-(take_drop (Z.to_nat n) (v ++ _)) at 2. rewrite zget_app_l; [done|]. unfold zlen in *. rewrite length_take, length_app, length_replicate. lia. }
  rewrite zget_app. destruct (Z.ltb_spec i (zlen v)); [done|]. unfold zget. rewrite (proj2 (Z.ltb_ge _ _)) by lia. apply lookup_replicate_2. lia.
Qed.

Lemma zlen_fit v n : 0 <= n -> zlen (fit v n) = n.
Proof. intros. unfold fit, zlen. rewrite length_take, length_app, length_replicate. lia. Qed.

Lemma seg_get (e : list Z) o n i : 0 <= o -> o + n <= zlen e -> 0 <= i < n -> (seg e o n).[i] = e.[o + i].
Proof. intros. eapply zread_get; [apply seg_zread; lia | done]. Qed.

Lemma seg_eq (e e' : list Z) o n : 0 <= o -> 0 <= n -> o + n <= zlen e -> o + n <= zlen e' -> (forall j, o <= j < o + n -> e'.[j] = e.[j]) -> seg e' o n = seg e o n.
Proof.
  intros Ho Hn H1 H2 Hj. pose proof (zread_eq e' e o n Ho H2 H1 Hj) as E. rewrite !seg_zread in E by done. by injection E.
Qed.

Section value.
Context (e : list Z) (He : attr_ok e) (Hres : a_resident e = true).
Context (n : Z) (e' : list Z) (new off old : Z).
Hypotheses (Hr : resized_attr e n e') (Hoff : value_offset e 0 = Some off) (Hold : value_length e 0 = Some old).
Hypotheses (Hnew : 0 <= new < 2 ^ 29) (Hn : n = up8 (off + new)) (Hmax : n < 2 ^ 16).

Lemma value_bounds : 24 <= off /\ 0 <= old /\ off + old <= zlen e /\ off + new <= n < off + new + 8 /\ n mod 8 = 0.
Proof using All.
  destruct (attr_value_range e He Hres) as (k & o & Hk & Ho & ? & ? & ?). rewrite Hold in Hk. rewrite Hoff in Ho. injection Hk as <-. injection Ho as <-.
  destruct (up8_range (off + new)) as [Hu1 Hu2]. rewrite <-Hn in Hu1, Hu2. lia.
Qed.

Lemma cleared_ok : let e1 := cleared_value e' off old new in zlen e1 = n /\ wf_bytes e1 /\ attr_length e1 0 = Some n /\
  (forall j, 0 <= j < n -> j < off + old -> j < 4 \/ 8 <= j -> e1.[j] = e.[j]) /\ (forall j, off + old <= j < off + new -> e1.[j] = Some 0).
Proof using All.
  destruct value_bounds as (H1 & H2 & H3 & H4 & _), Hr as [L W F Gt]. cbv zeta. unfold cleared_value. destruct (Z.ltb_spec old new).
  - assert (zlen (replicate (Z.to_nat (new - old)) 0) = new - old) as Hz by (rewrite zlen_replicate; lia).
    split_and!; [by rewrite zlen_patch by lia | | | |].
    + apply patch_wf; [lia | lia | done |]. by apply Forall_replicate.
    + unfold attr_length, le32_to_cpup. rewrite patch_ld by lia. apply F. lia.
    + intros j Hj Hjo Hk. rewrite patch_get by lia. apply Gt; lia.
    + intros j Hj. pose proof (patch_write e' (off + old) (replicate (Z.to_nat (new - old)) 0) ltac:(lia) ltac:(lia)) as Hp.
      pose proof (zwrite_get _ _ _ _ (j - (off + old)) Hp ltac:(lia)) as Hg. replace (off + old + (j - (off + old))) with j in Hg by lia. rewrite Hg.
      unfold zget. rewrite (proj2 (Z.ltb_ge _ _)) by lia. apply lookup_replicate_2. lia.
  - split_and!; [done | done | apply F; lia | | intros; lia]. intros j Hj Hjo Hk. apply Gt; lia.
Qed.

Lemma resized_value_ok : let e2 := resized_value e' off old new in
  zlen e2 = n /\ attr_ok e2 /\ a_type e2 = a_type e /\ a_name e2 = a_name e /\ a_resident e2 = true /\ a_value e2 = fit (a_value e) new.
Proof using All.
  destruct value_bounds as (H1 & H2 & H3 & H4 & H8), cleared_ok as (L1 & W1 & F1 & G1 & Z1). cbv zeta. unfold resized_value. set (e1 := cleared_value e' off old new) in *. clearbody e1.
  assert (zlen (le_encode 4 new) = 4) as H44 by (by rewrite zlen_le_encode). set (e2 := patch e1 16 (le_encode 4 new)).
  assert (zlen e2 = n) as L2 by (unfold e2; rewrite zlen_patch; lia).
  assert (forall j, 0 <= j < n -> j < off + old -> j < 4 \/ 8 <= j < 16 \/ 20 <= j -> e2.[j] = e.[j]) as G2.
  { intros j Hj Hjo Hk. unfold e2. rewrite patch_get by lia. apply G1; lia. }
  assert (forall k j, 0 <= j -> j + Z.of_nat k <= 24 -> j + Z.of_nat k <= 4 \/ 8 <= j /\ j + Z.of_nat k <= 16 \/ 20 <= j -> ld k e2 j = ld k e j) as Ld.
  { intros k j Hj Hk24 Hk. apply ld_eq; try lia. intros i Hi. apply G2; lia. }
  assert (forall j, 8 <= j < 16 -> e2.[j] = e.[j]) as Lb by (intros j Hj; apply G2; lia).
  assert (value_length e2 0 = Some new) as Hvl.
  { unfold value_length, le32_to_cpup, e2. change (0 + 16) with 16. rewrite (patch_same 4 e1 16 new) by lia. f_equal. apply Z.mod_small. lia. }
  assert (value_offset e2 0 = Some off) as Hvo by (rewrite <-Hoff; apply Ld; lia).
  assert (attr_type e2 0 = attr_type e 0) as Hty by (apply Ld; lia).
  assert (attr_name_length e2 0 = attr_name_length e 0) as Hnl by (apply Lb; lia).
  assert (attr_name_offset e2 0 = attr_name_offset e 0) as Hno by (apply Ld; lia).
  assert (attr_non_resident e2 0 = attr_non_resident e 0) as Hnr by (apply Lb; lia).
  pose proof Hres as Hres'. apply bool_decide_eq_true in Hres'. destruct (ao_value _ He Hres') as (v & o & Hv & Ho & _ & _ & Hname). rewrite Hoff in Ho. injection Ho as <-.
  destruct (attr_name_range e He) as (k & no & Hk & Hno' & Hk1 & Hno1 & Hno2 & Hno3).
  pose proof (Hname _ _ Hk Hno') as Hend. split_and!; [done | | | | |].
  - split; [ | | | | |].
    + unfold e2. apply patch_wf; [lia | lia | done | apply wf_le_encode].
    + split; [lia|]. rewrite L2, <-F1. unfold attr_length, le32_to_cpup, e2. apply patch_ld; lia.
    + by rewrite L2.
    + rewrite Hty. apply (ao_type _ He).
    + rewrite Hnl, Hno, Hk, Hno'. exists k, no. split_and!; [done | done | lia | done].
    + intros _. rewrite Hvl, Hvo, Hnl, Hno. exists new, off. split_and!; [done | done | lia | lia | done].
  - unfold a_type. by rewrite Hty.
  - unfold a_name. rewrite Hnl, Hno, Hk, Hno'. cbn [default from_option id]. f_equal. destruct (decide (k = 0)) as [->|]; [done|].
    apply seg_eq; try lia. intros j Hj. apply G2; lia.
  - unfold a_resident. by rewrite Hnr.
  - unfold a_value. rewrite Hvl, Hvo, Hold, Hoff. cbn [default from_option id]. apply zget_ext. intros i Hi.
    destruct (Z.ltb_spec i new); [|rewrite !zget_outside by (rewrite ?zlen_fit, ?zlen_seg_in; lia); done].
    rewrite seg_get, fit_get by lia. rewrite zlen_seg_in by lia. destruct (Z.ltb_spec i old).
    + rewrite seg_get by lia. apply G2; lia.
    + unfold e2. rewrite patch_get by lia. apply Z1. lia.
Qed.
End value.
