(* ===== verification/AttrAdd.v ===== *)
(** A new attribute in an MFT record (libntfs-3g/attrib.c,
    ntfs_resident_attr_record_add): the bytes it gets, its place in the list of
    the attributes, and the order of the list. *)

From stdpp Require Import sorting.
From S2P Require Import Prelude Names Collate Index Attr AttrSpec AttrRec.
Local Open Scope Z_scope.
Local Open Scope c_scope.
Set Default Proof Using "Type*".
#[local] Arguments le_encode : simpl never.

(** ** Writes one after the other *)

Lemma write_then {B} (m : list Z) a xs a2 ys (k : list Z -> option B) : a2 = a + zlen xs ->
  (m1 ← zwrite m a xs; m2 ← zwrite m1 a2 ys; k m2) = (m2 ← zwrite m a (xs ++ ys); k m2).
Proof.
  intros ->. destruct (zwrite m a xs) as [m1|] eqn:E1; cbn [mbind option_bind].
  - destruct (zwrite m1 (a + zlen xs) ys) as [m2|] eqn:E2; cbn [mbind option_bind]; [by rewrite (zwrite_app m a xs ys m1 m2)|].
    apply zwrite_Some in E1 as (Ha & Hl & Hz & _). destruct (zwrite m a (xs ++ ys)) as [m2|] eqn:E; [|done].
    apply zwrite_Some in E as (_ & Hl2 & _). rewrite zlen_app in Hl2. rewrite zwrite_inside in E2; [done | pose proof (zlen_nonneg xs); lia | lia].
  - destruct (zwrite m a (xs ++ ys)) as [m2|] eqn:E; [|done]. apply zwrite_Some in E as (Ha & Hl2 & _). rewrite zlen_app in Hl2. pose proof (zlen_nonneg ys).
    rewrite zwrite_inside in E1; [done | done | lia].
Qed.

Definition resident_head (type length name_len data_flags instance size : Z) : list Z :=
  ((((((((le_encode 4 type ++ le_encode 4 length) ++ [0]) ++ [name_len]) ++ le_encode 2 (if negb (name_len =? 0) then offsetof_resident_end else 0)) ++
  le_encode 2 data_flags) ++ le_encode 2 instance) ++ le_encode 4 size) ++ le_encode 2 (length - align8 size)).

Lemma resident_fields_eq m a type length name_len data_flags instance size :
  resident_fields m a type length name_len data_flags instance size = zwrite m a (resident_head type length name_len data_flags instance size).
Proof.
  unfold resident_fields, put_le32, put_le16, st, resident_head.
  repeat (rewrite write_then by (rewrite ?zlen_app, ?zlen_le_encode, ?zlen_cons, ?zlen_nil; lia)). apply obind_ret.
Qed.

(** ** The new attribute *)

Section new.
Context (type n flags instance size rf g23 : Z) (name padN v padV : list Z).

Definition new_length : Z := 24 + up8 (2 * n) + up8 size.
Definition new_attr : list Z :=
  resident_head type new_length n flags instance size ++ [rf; g23] ++ (name_bytes name ++ padN) ++ (v ++ padV).

Record new_ok : Prop := {
  nw_type : 0 < type < AT_END;
  nw_name : zlen name = n /\ Forall (fun c => 0 <= c < 65536) name /\ 0 <= n < 256;
  nw_value : zlen v = size /\ wf_bytes v /\ 0 <= size;
  nw_rest : 0 <= rf < 256 /\ 0 <= g23 < 256 /\ wf_bytes padN /\ wf_bytes padV;
  nw_pads : zlen padN = up8 (2 * n) - 2 * n /\ zlen padV = up8 size - size;
  nw_max : new_length < 2 ^ 16 }.

Context (H : new_ok).

Lemma zlen_name_bytes (l : list Z) : zlen (name_bytes l) = 2 * zlen l.
Proof using. induction l as [|c l IH]; [done|]. cbn [name_bytes flat_map]. fold (name_bytes l). rewrite zlen_app, zlen_le_encode, IH, zlen_cons. lia. Qed.

Lemma units_name_bytes (l : list Z) : Forall (fun c => 0 <= c < 65536) l -> units (name_bytes l) = l.
Proof using.
  induction 1 as [|c l Hc _ IH]; [done|]. cbn [name_bytes flat_map]. fold (name_bytes l).
  rewrite (units_app 1) by done. rewrite IH. unfold le_encode. cbn [units app]. f_equal. divlia.
Qed.

Lemma wf_name_bytes (l : list Z) : wf_bytes (name_bytes l).
Proof using. induction l as [|c l IH]; [by constructor|]. cbn [name_bytes flat_map]. apply Forall_app. split; [apply wf_le_encode | exact IH]. Qed.

Lemma zlen_resident_head t l k f i s : zlen (resident_head t l k f i s) = 22.
Proof using. unfold resident_head. rewrite !zlen_app, !zlen_le_encode. done. Qed.

Lemma zlen_new_attr : zlen new_attr = new_length.
Proof using H.
  destruct H as [_ [Hn _] [Hv _] _ [Hpn Hpv] _]. unfold new_attr. rewrite !zlen_app, zlen_resident_head, zlen_name_bytes, Hpn, Hpv, Hn, Hv.
  unfold new_length. change (zlen [rf; g23]) with 2. lia.
Qed.

Lemma head_fields e : holds e 0 (resident_head type new_length n flags instance size) -> 22 <= zlen e -> new_length < 2 ^ 16 -> 0 < type < AT_END -> 0 <= n < 256 -> 0 <= size ->
  attr_type e 0 = Some type /\ attr_length e 0 = Some new_length /\ attr_non_resident e 0 = Some 0 /\ attr_name_length e 0 = Some n /\
  attr_name_offset e 0 = Some (if n =? 0 then 0 else 24) /\ value_length e 0 = Some size /\ value_offset e 0 = Some (24 + up8 (2 * n)).
Proof using.
  intros Hh He Hl Ht Hn Hs. unfold resident_head in Hh. rewrite !holds_app, !holds_cons in Hh. rewrite !zlen_app, !zlen_le_encode in Hh.
  change (zlen [0]) with 1 in Hh. change (zlen [n]) with 1 in Hh.
  destruct Hh as [[[[[[[[H1 H2] [H3 _]] [H4 _]] H5] H6] H7] H8] H9]. pose proof (up8_range (2 * n)). pose proof (up8_range size).
  unfold attr_type, attr_length, attr_non_resident, attr_name_length, attr_name_offset, value_length, value_offset, le32_to_cpup, le16_to_cpup.
  assert (align8 size = up8 size) as Ea by (apply align8_eq; unfold new_length in Hl; lia).
  apply holds_ld in H1, H2, H5, H8, H9; try lia. unfold new_length, AT_END in *.
  split_and!; [etransitivity; [exact H1|] | etransitivity; [exact H2|] | exact H3 | exact H4 | etransitivity; [exact H5|] | etransitivity; [exact H8|] | etransitivity; [exact H9|]]; f_equal.
  - apply Z.mod_small. lia.
  - apply Z.mod_small. lia.
  - unfold offsetof_resident_end. by destruct (n =? 0).
  - apply Z.mod_small. lia.
  - rewrite Ea. rewrite Z.mod_small by lia. lia.
Qed.

Lemma new_attr_ok : attr_ok new_attr /\ a_type new_attr = type /\ a_resident new_attr = true /\ a_name new_attr = name /\ a_value new_attr = v.
Proof using All.
  pose proof H as [Ht [Hn [Hnc Hn8]] [Hv [Hvw Hvs]] [Hrf [Hg [Hwn Hwv]]] [Hpn Hpv] Hmax]. pose proof zlen_new_attr as Hl.
  pose proof (up8_range (2 * n)) as [Hu1 Hu2]. pose proof (up8_range size) as [Hu3 Hu4]. unfold new_length in *.
  assert (holds new_attr 0 (resident_head type new_length n flags instance size)) as Hh.
  { assert (holds new_attr 0 new_attr) as Hh by (intros j Hj; done). unfold new_attr at 2 in Hh. by apply holds_app in Hh as [Hh _]. }
  destruct (head_fields new_attr Hh) as (F1 & F2 & F3 & F4 & F5 & F6 & F7); [unfold new_length in *; lia..|].
  assert (seg new_attr 24 (2 * n) = name_bytes name) as Esn.
  { pose proof (zlen_resident_head type (24 + up8 (2 * n) + up8 size) n flags instance size) as Hz.
    pose proof (seg_zread new_attr 24 (2 * n) ltac:(lia) ltac:(lia) ltac:(lia)) as Hs. unfold new_attr in Hs at 1. rewrite app_assoc, <-(app_assoc (name_bytes name)) in Hs.
    rewrite zread_mid in Hs; [by injection Hs | rewrite zlen_app; unfold new_length; rewrite Hz; done | rewrite zlen_name_bytes; lia]. }
  assert (seg new_attr (24 + up8 (2 * n)) size = v) as Esv.
  { pose proof (zlen_resident_head type (24 + up8 (2 * n) + up8 size) n flags instance size) as Hz.
    pose proof (seg_zread new_attr (24 + up8 (2 * n)) size ltac:(lia) ltac:(lia) ltac:(lia)) as Hs. unfold new_attr in Hs at 1. rewrite !app_assoc, <-(app_assoc _ v) in Hs.
    rewrite zread_mid in Hs; [by injection Hs | rewrite !zlen_app; unfold new_length; rewrite Hz, zlen_name_bytes; change (zlen [rf; g23]) with 2; lia | lia]. }
  split_and!.
  - split; [ | | | | |].
    + unfold wf_bytes, new_attr, resident_head. rewrite !Forall_app. split_and!; try apply wf_le_encode; try apply wf_name_bytes; try done; repeat constructor; unfold is_byte; lia.
    + rewrite Hl. split; [lia|]. exact F2.
    + rewrite Hl. divlia.
    + by exists type.
    + exists n, (if n =? 0 then 0 else 24). split_and!; [done | done | |]; destruct (Z.eqb_spec n 0); lia.
    + intros _. exists size, (24 + up8 (2 * n)). split_and!; [done | done | lia | lia |]. intros k o Hk Ho. assert (k = n) as -> by congruence. assert (o = if n =? 0 then 0 else 24) as -> by congruence.
      destruct (n =? 0); lia.
  - unfold a_type. by rewrite F1.
  - by apply bool_decide_eq_true.
  - unfold a_name. rewrite F4, F5. cbn [default from_option id]. destruct (Z.eqb_spec n 0) as [E|].
    + rewrite E. symmetry. apply length_zero_iff_nil. unfold zlen in Hn. lia.
    + rewrite Esn. by apply units_name_bytes.
  - unfold a_value. rewrite F6, F7. cbn [default from_option id]. done.
Qed.
End new.

Lemma cut_at {A} (l : list A) k : 0 <= k <= zlen l -> exists a b, l = a ++ b /\ zlen a = k /\ zlen b = zlen l - k.
Proof.
  intros Hk. exists (take (Z.to_nat k) l), (drop (Z.to_nat k) l). unfold zlen in *. rewrite take_drop, length_take, length_drop. split_and!; [done | lia | lia].
Qed.

Lemma two_bytes (a b r : list Z) : zlen a = 1 -> zlen b = 1 -> 2 <= zlen (a ++ b ++ r).
Proof. intros. rewrite !zlen_app. pose proof (zlen_nonneg r). lia. Qed.

(** The name and the value that are given. *)
Definition given_name (name : attr_name) : list Z := match name with NAME s => s | _ => [] end.
Definition given_value (val : option (list Z)) (size : Z) : list Z := match val with Some v => v | None => replicate (Z.to_nat size) 0 end.

Lemma resident_record_ok P gap Q type n flags instance size name val :
  zlen gap = new_length n size -> wf_bytes gap -> 0 < type < AT_END -> new_length n size < 2 ^ 16 ->
  zlen (given_name name) = n -> Forall (fun c => 0 <= c < 65536) (given_name name) -> 0 <= n < 256 ->
  zlen (given_value val size) = size -> wf_bytes (given_value val size) -> 0 <= size ->
  exists rf g23 padN padV, new_ok type n size rf g23 (given_name name) padN (given_value val size) padV /\
    resident_record (P ++ gap ++ Q) (zlen P) type (new_length n size) name n flags instance val size =
    Some (P ++ new_attr type n flags instance size rf g23 (given_name name) padN (given_value val size) padV ++ Q).
Proof.
  set (rf := if type =? AT_FILE_NAME then RESIDENT_ATTR_IS_INDEXED else 0). assert (0 <= rf < 256) as Hrf by (unfold rf; by case_match).
  intros Hgap Hwg Ht Hmax Hn Hnc Hnr Hv Hvw Hs. pose proof (up8_range (2 * n)) as [Hu1 _]. pose proof (up8_range size) as [Hu2 _].
  unfold new_length in Hgap. destruct (cut_at gap 22 ltac:(lia)) as (gh & g1 & -> & Lh & L1). destruct (cut_at g1 1 ltac:(lia)) as (g22 & g2 & -> & L22 & L2).
  destruct (cut_at g2 1 ltac:(lia)) as (g23l & g3 & -> & L23 & L3). destruct (cut_at g3 (2 * n) ltac:(lia)) as (gn1 & g4 & -> & Ln1 & L4).
  destruct (cut_at g4 (up8 (2 * n) - 2 * n) ltac:(lia)) as (gn2 & g5 & -> & Ln2 & L5). destruct (cut_at g5 size ltac:(lia)) as (gv1 & gv2 & -> & Lv1 & Lv2).
  rewrite !zlen_app in *. destruct g23l as [|g23 [|]]; try done; [|rewrite !zlen_cons in L23; pose proof (zlen_nonneg l); lia].
  unfold wf_bytes in Hwg. rewrite !Forall_app in Hwg. destruct Hwg as (_ & _ & Hg23 & _ & Hwn & _ & Hwv). apply Forall_inv in Hg23.
  assert (new_ok type n size rf g23 (given_name name) gn2 (given_value val size) gv2) as Hok.
  { split; try done. split; [lia|]. lia. }
  exists rf, g23, gn2, gv2. split; [exact Hok|]. unfold resident_record. fold rf. rewrite resident_fields_eq.
  set (hd := resident_head type (new_length n size) n flags instance size). pose proof (zlen_resident_head type (new_length n size) n flags instance size) as Hh. fold hd in Hh.
  rewrite <-!app_assoc. rewrite (zwrite_mid P gh _ (zlen P) hd) by lia. cbn [mbind option_bind].
  assert (forall x, holds (hd ++ x) 0 hd) as Hhold.
  { intros x. assert (holds (hd ++ x) 0 (hd ++ x)) as Hx by (intros j Hj; done). by apply holds_app in Hx as [Hx _]. }
  assert (forall x, 2 <= zlen x -> value_offset (P ++ hd ++ x) (zlen P) = Some (24 + up8 (2 * n)) /\ attr_name_offset (P ++ hd ++ x) (zlen P) = Some (if n =? 0 then 0 else 24)) as Hf.
  { intros x Hx. destruct (head_fields type n flags instance size (hd ++ x) (Hhold x) ltac:(rewrite zlen_app; lia) Hmax Ht Hnr Hs) as (_ & _ & _ & _ & F5 & _ & F7).
    unfold value_offset, attr_name_offset, le16_to_cpup in *. rewrite !app_assoc, <-(app_assoc P hd x), <-(app_nil_r (hd ++ x)).
    split; [rewrite (ld_in 2 P (hd ++ x) [] _ 20) by (rewrite ?zlen_app; lia); exact F7 | rewrite (ld_in 2 P (hd ++ x) [] _ 10) by (rewrite ?zlen_app; lia); exact F5]. }
  rewrite (proj1 (Hf _ (two_bytes g22 [g23] _ ltac:(lia) eq_refl))). cbn [mbind option_bind].
  assert ((match val with Some val => zread val 0 size | None => Some (replicate (Z.to_nat size) 0) end) = Some (given_value val size)) as ->.
  { destruct val as [w|]; [|done]. cbn [given_value] in Hv |- *. rewrite <-Hv. apply zread_all. }
  cbn [mbind option_bind]. rewrite 5!app_assoc. rewrite (zwrite_mid _ gv1 _) by (rewrite ?zlen_app; change (zlen [g23]) with 1; lia). cbn [mbind option_bind].
  rewrite <-!app_assoc. rewrite (app_assoc P hd). rewrite (zwrite_mid _ g22 _ _ [rf]) by (rewrite ?zlen_app; change (zlen [rf]) with 1; lia). cbn [mbind option_bind].
  rewrite <-!app_assoc. unfold copy_name.
  assert (forall y, new_attr type n flags instance size rf g23 (given_name name) gn2 (given_value val size) gv2 ++ y = hd ++ [rf] ++ [g23] ++ name_bytes (given_name name) ++ gn2 ++ given_value val size ++ gv2 ++ y) as Enew.
  { intros y. unfold new_attr. fold hd. rewrite <-!app_assoc. done. }
  rewrite Enew. destruct (Z.eqb_spec n 0) as [E|E]; cbn [negb].
  - assert (given_name name = []) as -> by (apply length_zero_iff_nil; unfold zlen in Hn; lia). assert (gn1 = []) as -> by (apply length_zero_iff_nil; unfold zlen in Ln1; lia). done.
  - destruct name as [| |s]; cbn [given_name name_array] in *; [done | done |].
    rewrite (proj2 (Hf _ (two_bytes [rf] [g23] _ eq_refl eq_refl))).
    cbn [mbind option_bind]. assert (zread s 0 n = Some s) as -> by (rewrite <-Hn; apply zread_all). cbn [mbind option_bind].
    rewrite 3!app_assoc. rewrite (zwrite_mid _ gn1 _) by (rewrite ?zlen_app, ?zlen_name_bytes; change (zlen [g23]) with 1; change (zlen [rf]) with 1; lia). cbn [mbind option_bind].
    by rewrite <-!app_assoc.
Qed.

(** ** The order of the attributes *)

(** One comparison, then another. *)
Definition then_cmp (c d : Z) : Z := if c =? 0 then d else c.

Lemma then_cmp_trans c12 c23 c13 d12 d23 d13 : (c12 <= 0 -> c23 <= 0 -> c13 <= 0) -> (c12 = 0 -> c13 = c23) -> (c23 = 0 -> c13 = c12) ->
  (c12 < 0 -> c23 < 0 -> c13 < 0) -> (d12 <= 0 -> d23 <= 0 -> d13 <= 0) ->
  then_cmp c12 d12 <= 0 -> then_cmp c23 d23 <= 0 -> then_cmp c13 d13 <= 0.
Proof.
  intros H1 H2 H3 H4 H5. unfold then_cmp. destruct (Z.eqb_spec c12 0), (Z.eqb_spec c23 0), (Z.eqb_spec c13 0); intros; lia || auto with lia.
Qed.

Section order.
Context (upcase : list Z) (upcase_len : Z).
Abbreviation U := (upc upcase upcase_len).

Definition name_order (a b : list Z) : Z := lex2 (map U a) a (map U b) b.

Lemma name_order_eq a b : name_order a b = 0 -> a = b.
Proof using. unfold name_order, lex2. destruct (Z.eqb_spec (lex (map U a) (map U b)) 0); [apply lex_eq | done]. Qed.

Lemma name_order_trans a b c : name_order a b <= 0 -> name_order b c <= 0 -> name_order a c <= 0.
Proof using. apply lex2_trans. Qed.

Lemma name_order_strict a b c : name_order a b < 0 -> name_order b c < 0 -> name_order a c < 0.
Proof using.
  intros H1 H2. pose proof (name_order_trans a b c ltac:(lia) ltac:(lia)). destruct (Z.eq_dec (name_order a c) 0) as [E|]; [|lia].
  apply name_order_eq in E as ->. unfold name_order in *. rewrite lex2_antisym in H2. lia.
Qed.

(** By type, then by name, then by value. *)
Definition attr_value (e : list Z) : list Z := if a_resident e then a_value e else [].
Definition attr_cmp (a b : list Z) : Z :=
  then_cmp (a_type a - a_type b) (then_cmp (name_order (a_name a) (a_name b)) (lex (attr_value a) (attr_value b))).
Definition attr_le (a b : list Z) : Prop := attr_cmp a b <= 0.

#[export] Instance attr_le_trans : Transitive attr_le.
Proof using.
  intros a b c. unfold attr_le, attr_cmp. apply then_cmp_trans; try lia. apply then_cmp_trans.
  - apply name_order_trans.
  - by intros ->%name_order_eq.
  - by intros ->%name_order_eq.
  - apply name_order_strict.
  - apply lex_trans.
Qed.

Definition in_record_order (es : list (list Z)) : Prop := StronglySorted attr_le es.

Lemma in_record_order_insert l e r : in_record_order (l ++ r) -> Forall (fun x => attr_le x e) l ->
  match r with [] => True | y :: _ => attr_le e y end -> in_record_order (l ++ e :: r).
Proof using.
  intros Hs Hl Hr. assert (in_record_order r) as Hsr by (by eapply StronglySorted_app_1_r). assert (Forall (attr_le e) r) as Her.
  { destruct r as [|y r]; [constructor|]. constructor; [done|]. apply StronglySorted_cons in Hsr as [Hy _]. eapply Forall_impl; [exact Hy|]. intros x Hx. by transitivity y. }
  clear Hr. induction Hl as [|x l Hx Hl IH]; cbn [app] in *; [by apply StronglySorted_cons|].
  apply StronglySorted_cons in Hs as [Hxs Hs]. apply StronglySorted_cons. split; [|by apply IH].
  apply Forall_app in Hxs as [? ?]. apply Forall_app. split; [done|]. by constructor.
Qed.

(** The search finds the place of the new attribute. *)
Context (type : Z) (name : attr_name) (val : option (list Z)) (size : Z) (e' : list Z).
Hypotheses (Htype : a_type e' = type) (Ht0 : type <> AT_UNUSED) (Hname : a_name e' = given_name name) (Hres : a_resident e' = true) (Hval : a_value e' = given_value val size).
Abbreviation judge := (judge upcase upcase_len type name CASE_SENSITIVE val).

Lemma judge_order e : value_given type val e -> (name = NULL_NAME -> a_type e = type -> a_name e = []) ->
  match judge e with Next => attr_le e e' | Past => attr_le e' e | Hit => True end.
Proof using All.
  intros Hv Hn. unfold AttrSpec.judge, attr_le, attr_cmp, then_cmp. rewrite (proj2 (Z.eqb_neq type AT_UNUSED) Ht0), Htype.
  destruct (Z.ltb_spec type (a_type e)); [by rewrite (proj2 (Z.eqb_neq _ 0)) by lia; lia|].
  destruct (Z.eqb_spec (a_type e) type) as [E|]; cbn [negb]; [|rewrite (proj2 (Z.eqb_neq _ 0)) by lia; lia]. rewrite E, Z.sub_diag. cbn [Z.eqb].
  assert (forall c : Z, by_order c = Hit /\ c = 0 \/ by_order c = Past /\ c < 0 \/ by_order c = Next /\ 0 < c) as Hby.
  { intros c. unfold by_order. destruct (Z.eqb_spec c 0); [auto|]. destruct (Z.ltb_spec c 0); auto with lia. }
  assert (a_name e' = a_name e -> match judge_value val e with Next => lex (attr_value e) (attr_value e') <= 0 | Past => lex (attr_value e') (attr_value e) <= 0 | Hit => True end) as Hvalue.
  { intros _. unfold judge_value, attr_value. destruct val as [v|] eqn:Ev; [|done]. rewrite Hres, Hv, Hval by done. cbn [given_value].
    destruct (Hby (lex v (a_value e))) as [[-> ?]|[[-> ?]|[-> ?]]]; [done | lia |]. rewrite lex_antisym. lia. }
  assert (name_order (a_name e') (a_name e') = 0) as Hrefl by (unfold name_order, lex2; by rewrite !lex_refl).
  unfold judge_name. rewrite Hname in *. destruct name as [| |s] eqn:En; cbn [given_name] in *.
  - assert (a_name e = []) as En0 by (by apply Hn). rewrite En0 in *. rewrite Hrefl. cbn [Z.eqb]. by apply Hvalue.
  - case_bool_decide as Eb; [rewrite Eb in *; rewrite Hrefl; cbn [Z.eqb]; by apply Hvalue|].
    unfold name_order, lex2. destruct (a_name e); [done|]. done.
  - fold (name_order s (a_name e)). destruct (Hby (name_order s (a_name e))) as [[-> E0]|[[-> E0]|[-> E0]]].
    + apply name_order_eq in E0 as E1. rewrite <-E1 in *. rewrite Hrefl. cbn [Z.eqb]. by apply Hvalue.
    + rewrite (proj2 (Z.eqb_neq _ 0)) by lia. lia.
    + unfold name_order in *. rewrite lex2_antisym. rewrite (proj2 (Z.eqb_neq _ 0)) by lia. lia.
Qed.
End order.
