(* ===== verification/AttrApi.v ===== *)
(** The theorems on attribute records (libntfs-3g/attrib.c) and on MFT records
    (mft.c): the search, resizing, adding and removing are operations on the list
    of the attributes. *)

From S2P Require Import Prelude Mst Names Collate Index IndexMake Attr AttrSpec AttrRec AttrAdd.
From stdpp Require Import sorting.
Local Open Scope Z_scope.
Local Open Scope c_scope.
Set Default Proof Using "Type*".
#[local] Arguments le_encode : simpl never.

(** ** Values *)

Lemma value_stores P e e' Q n off old new : attr_ok e -> a_resident e = true -> resized_attr e n e' -> value_offset e 0 = Some off -> value_length e 0 = Some old ->
  0 <= new < 2 ^ 29 -> n = up8 (off + new) -> n < 2 ^ 16 ->
  (old ← value_length (P ++ e' ++ Q) (zlen P);
   m ← (if old <? new then zwrite (P ++ e' ++ Q) (zlen P + off + old) (replicate (Z.to_nat (new - old)) 0) else Some (P ++ e' ++ Q));
   m ← put_le32 m (zlen P + 16) new;
   Some (m, STATUS_OK)) = Some (P ++ resized_value e' off old new ++ Q, STATUS_OK).
Proof.
  intros He Hres Hr Hoff Hold Hnew Hn Hmax. destruct (value_bounds e He Hres n e' new off old Hr Hoff Hold Hnew Hn Hmax) as (H1 & H2 & H3 & H4 & _).
  destruct (cleared_ok e He Hres n e' new off old Hr Hoff Hold Hnew Hn Hmax) as (L1 & _). pose proof Hr as [L _ _ G].
  assert (value_length (P ++ e' ++ Q) (zlen P) = Some old) as ->.
  { rewrite <-Hold. unfold value_length, le32_to_cpup. rewrite (ld_in 4 P e' Q _ 16) by lia. change (0 + 16) with 16.
    pose proof (proj1 (ao_length _ He)). apply ld_eq; try lia. intros j Hj. apply G; lia. }
  cbn [mbind option_bind]. unfold resized_value.
  assert ((if old <? new then zwrite (P ++ e' ++ Q) (zlen P + off + old) (replicate (Z.to_nat (new - old)) 0) else Some (P ++ e' ++ Q)) =
    Some (P ++ cleared_value e' off old new ++ Q)) as ->.
  { unfold cleared_value. destruct (Z.ltb_spec old new); [|done]. apply zwrite_patch; rewrite ?zlen_replicate; lia. }
  cbn [mbind option_bind]. unfold put_le32, st. rewrite (zwrite_patch _ _ _ _ 16) by (rewrite ?zlen_le_encode; lia). done.
Qed.

(** C37: resizing the value of a resident attribute changes that value only, to its first bytes or to itself and zeros; every other
    attribute and the names and types stay.  It fails exactly for want of space, and then changes nothing; an index root is not
    allowed to take the last 120 bytes. *)
Theorem ntfs_resident_attr_value_resize_correct m hd l e r fin free new off :
  record_at m hd (l ++ e :: r) fin free -> a_resident e = true -> value_offset e 0 = Some off -> 0 <= new < 2 ^ 29 ->
  let used := place hd (l ++ e :: r) + 8 - zlen e + up8 (off + new) in
  exists m' s, ntfs_resident_attr_value_resize m (place hd l) new = Some (m', s) /\
  match s with
  | STATUS_OK => used <= zlen m /\ exists hd' e' free', record_at m' hd' (l ++ e' :: r) fin free' /\ (forall k, place hd' k = place hd k) /\
      zlen m' = zlen m /\ a_type e' = a_type e /\ a_name e' = a_name e /\ a_resident e' = true /\ a_value e' = fit (a_value e) new
  | STATUS_ERROR err => m' = m /\ err = ENOSPC /\ zlen m < used
  | STATUS_RESIDENT_ATTRIBUTE_FILLED_MFT => m' = m /\ a_type e = AT_INDEX_ROOT /\ zlen e < up8 (off + new) /\ zlen m - 120 < used <= zlen m
  | _ => False
  end.
Proof.
  intros Hm Hres Hoff Hnew used. pose proof (rc_attrs _ _ _ _ _ Hm) as Ha. pose proof (Forall_inv (proj2 (proj1 (Forall_app _ _ _) Ha))) as He.
  destruct (attr_value_range e He Hres) as (old & o & Hold & Ho & Hold0 & H24 & Hend). rewrite Hoff in Ho. injection Ho as <-.
  pose proof (proj1 (ao_length _ He)) as Hel. destruct (up8_range (off + new)) as [Hup H8].
  destruct (record_split Hm l (e :: r) eq_refl) as [Em Ep]. change (le_encode 4 AT_END ++ fin) with (end_marker fin) in Em. cbn [concat] in Em. rewrite <-(app_assoc e) in Em.
  assert (value_offset m (place hd l) = Some off) as Ho by (rewrite <-Ep, Em, in_value_offset; done).
  unfold ntfs_resident_attr_value_resize. rewrite Ho. cbn [mbind option_bind].
  assert (align8 (u32 (off + new)) = up8 (off + new)) as -> by (unfold u32; rewrite wrap_u_small, align8_eq by lia; done).
  pose proof (resize_ok l r e He (up8 (off + new)) (up8 (off + new)) (place hd (l ++ e :: r) + 8) Hm ltac:(lia) (eq_sym (up8_id _ H8)) eq_refl) as Hrz.
  fold used in Hrz. pose proof (record_len Hm) as Hlen. pose proof (proj2 (rc_allocated _ _ _ _ _ Hm)) as Hs.
  assert (place hd (l ++ e :: r) >= zlen e) as Hpl.
  { unfold place. rewrite concat_app. cbn [concat]. rewrite !zlen_app. pose proof (zlen_nonneg hd). pose proof (zlen_nonneg (concat l)). pose proof (zlen_nonneg (concat r)). lia. }
  pose proof (zlen_nonneg free).
  destruct (Z.eqb_spec (up8 (off + new)) (zlen e)) as [En|En].
  - rewrite Hrz. cbn [mbind option_bind].
    assert (resized_attr e (zlen e) e) as Hr by (split; [done | apply He | intros _; apply He | done]).
    pose proof (resized_value_ok e He Hres (zlen e) e new off old Hr Hoff Hold Hnew ltac:(lia) ltac:(lia)) as (L2 & A2 & T2 & N2 & R2 & V2).
    rewrite Em. rewrite <-Ep. rewrite (value_stores _ e e _ (zlen e) off old new He Hres Hr Hoff Hold Hnew) by lia. rewrite <-Em. eexists _, _. split; [reflexivity|]. split; [unfold used; lia|].
    pose proof (record_replace m hd l e r fin free _ Hm A2 L2) as Hm2. eexists hd, _, free. split; [exact Hm2|]. split_and!; try done.
    rewrite Em, !zlen_app. lia.
  - destruct (Z.ltb_spec (zlen m) used) as [Hbig|Hfit]; [rewrite Hrz; by eexists _, _|].
    destruct (resize_filled e m (place hd (l ++ e :: r) + 8) used (up8 (off + new))) eqn:Ef.
    { rewrite Hrz. eexists _, _. split; [reflexivity|]. unfold resize_filled in Ef. rewrite !andb_true_iff, Z.eqb_eq, !Z.ltb_lt in Ef. split_and!; try tauto; lia. }
    destruct Hrz as (e' & free' & Hr & Hwf & Hl & ->). cbn [mbind option_bind]. assert (up8 (off + new) < 2 ^ 16) as Hmax by (unfold used in Hfit; lia).
    pose proof (resized_value_ok e He Hres _ e' new off old Hr Hoff Hold Hnew eq_refl Hmax) as (L2 & A2 & T2 & N2 & R2 & V2).
    destruct (record_changed m hd (l ++ e :: r) fin free (l ++ resized_value e' off old new :: r) free' Hm) as (Hm2 & Hz2 & Hp2).
    { apply Forall_app in Ha as [? Ha]. apply Forall_app. split; [done|]. constructor; [done|]. by apply Forall_inv_tail in Ha. }
    { done. }
    { pose proof (rz_len _ _ _ Hr). rewrite !concat_app. cbn [concat]. rewrite !zlen_app, L2. lia. }
    assert (used = place hd (l ++ resized_value e' off old new :: r) + 8) as Eu.
    { unfold used, place. rewrite !concat_app. cbn [concat]. rewrite !zlen_app, L2. lia. }
    assert (zlen (set_used hd used ++ concat l) = place hd l) as Ep2.
    { rewrite zlen_app, Eu. specialize (Hp2 l). unfold place in Hp2 at 1. lia. }
    rewrite app_assoc, <-Ep2. rewrite (value_stores _ e e' _ (up8 (off + new)) off old new He Hres Hr Hoff Hold Hnew eq_refl Hmax). rewrite <-app_assoc.
    eexists _, _. split; [reflexivity|]. split; [done|]. unfold record_bytes in Hm2, Hz2. rewrite concat_app in Hm2 at 1. rewrite concat_app in Hz2 at 1. cbn [concat] in Hm2, Hz2.
    rewrite <-!app_assoc in Hm2, Hz2. rewrite Eu. eexists _, _, _. split; [exact Hm2|]. split_and!; done.
Qed.

(** ** The search *)

(** C36: ntfs_attr_find goes over the list of the attributes of a record from where the context stands, and stops at the first one that is
    not before what is searched: it is found when type, name and, where given, value match; if not, ENOENT, and the context
    stands where such an attribute belongs.  Searching AT_UNUSED finds the next attribute, whatever it is. *)
Theorem ntfs_attr_find_correct upcase upcase_len type name name_len ic val val_len m hd l r fin free ctx :
  record_at m hd (l ++ r) fin free -> starts ctx hd l -> cx_inode ctx = true -> name_given name name_len -> Upcase upcase upcase_len ->
  (forall v, val = Some v -> val_len = zlen v) -> Forall (value_given type val) (l ++ r) ->
  exists l' r' res, ntfs_attr_find upcase upcase_len type name name_len ic val val_len m ctx = Some (Ctx (place hd (l ++ l')) false true, res) /\
    r = l' ++ r' /\ Forall (fun e => judge upcase upcase_len type name ic val e = Next) l' /\
    match r' with
    | [] => res = Err ENOENT
    | e :: _ => judge upcase upcase_len type name ic val e = Hit /\ res = Ok tt \/ judge upcase upcase_len type name ic val e = Past /\ res = Err ENOENT
    end.
Proof.
  intros Hm Hs Hi Hn Hu Hl Hv. destruct (attr_find_ok upcase upcase_len type name name_len ic val val_len Hn Hu Hl m hd (l ++ r) fin free ctx l r Hm Hv eq_refl Hs Hi) as
    (l' & r' & res & E & Er & Hl' & Hr'). by exists l', r', res.
Qed.

(** ** Adding *)

(** The record with another word in the part of the header that the list does not use. *)
Lemma record_patch_head m hd es fin free bs : record_at m hd es fin free -> zlen bs = 2 -> wf_bytes bs ->
  record_at (patch hd 40 bs ++ concat es ++ end_marker fin ++ free) (patch hd 40 bs) es fin free /\
  zwrite m 40 bs = Some (patch hd 40 bs ++ concat es ++ end_marker fin ++ free) /\ zlen (patch hd 40 bs) = zlen hd.
Proof.
  intros Hm Hb Hw. pose proof Hm as [Em Hwm [Hh Ho] Hu [Ha Hs] Hf Hes]. assert (zlen (patch hd 40 bs) = zlen hd) as Hz by (apply zlen_patch; lia).
  assert (zlen (patch hd 40 bs ++ concat es ++ end_marker fin ++ free) = zlen m) as Hzm by (rewrite Em; unfold end_marker; rewrite !zlen_app; lia).
  assert (bytes_allocated (patch hd 40 bs) = Some (zlen m)) as Ha2 by (rewrite <-Ha; apply patch_ld; lia).
  split_and!; [| |done].
  - destruct (record_wf_parts _ _ _ _ _ Hm) as (Hwh & _ & Hwf & Hwfr). split; try done.
    + unfold wf_bytes, end_marker in *. rewrite !Forall_app. split_and!; [apply patch_wf; (lia || done) | by apply wf_concat | apply wf_le_encode | done | done].
    + split; [lia|]. rewrite Hz, <-Ho. apply patch_ld; lia.
    + rewrite Hz, <-Hu. apply patch_ld; lia.
    + by rewrite Hzm.
  - rewrite Em. apply (zwrite_patch [] hd); [change (zlen []) with 0; lia | lia | lia].
Qed.

Section add.
Context (ntfs_attrlist_entry_add : mft_inode -> Z -> mft_inode * result unit) (vol : attrdefs) (upcase : list Z) (upcase_len : Z).
Context (type n size flags : Z) (name : attr_name) (i30 : bool) (val : option (list Z)).

(** The arguments fit: a type that may be resident, a name of [n] units, a value of [size] bytes. *)
Record arguments : Prop := {
  ar_upcase : Upcase upcase upcase_len;
  ar_defs : is_Some (attrdef vol);
  ar_type : 0 < type < AT_END /\ type <> AT_INDEX_ALLOCATION;
  ar_name : zlen (given_name name) = n /\ Forall (fun c => 0 <= c < 65536) (given_name name) /\ n < 256;
  ar_value : zlen (given_value val size) = size /\ wf_bytes (given_value val size) /\ 0 <= size < 2 ^ 15 }.

Abbreviation judge := (judge upcase upcase_len type name CASE_SENSITIVE val).
Abbreviation add := (ntfs_resident_attr_record_add ntfs_attrlist_entry_add vol upcase upcase_len).

Lemma args_name : arguments -> name_given name n.
Proof using.
  intros [_ _ _ (Hn & Hc & _) _]. unfold name_given. destruct name; [done | done |]. split; [done|]. eapply Forall_impl; [exact Hc|]. cbn. lia.
Qed.

Lemma args_len : arguments -> forall v, val = Some v -> size = zlen v.
Proof using. intros [_ _ _ _ (Hv & _)] v ->. done. Qed.

(** What a new attribute is to the search for it. *)
Lemma judge_new e : a_type e = type -> type <> AT_UNUSED -> a_name e = given_name name -> a_value e = given_value val size -> judge e = Hit.
Proof using.
  intros Ht H0 Hn Hv. unfold AttrSpec.judge. rewrite Ht, Z.ltb_irrefl, (proj2 (Z.eqb_neq _ _) H0), Z.eqb_refl. cbn [negb].
  assert (judge_name upcase upcase_len name CASE_SENSITIVE e = Hit) as ->.
  { unfold judge_name. rewrite Hn. destruct name as [| |s]; cbn [given_name]; [done | done |]. unfold lex2, by_order. by rewrite !lex_refl. }
  unfold judge_value. destruct val as [v|]; [|done]. rewrite Hv. cbn [given_value]. unfold by_order. by rewrite lex_refl.
Qed.

(** The record after the addition. *)
Definition added ni ni' hd es fin (l r : list (list Z)) (a : Z) : Prop :=
  exists hd' e free', es = l ++ r /\ a = place hd l /\ record_at (mrec ni') hd' (l ++ e :: r) fin free' /\ zlen (mrec ni') = zlen (mrec ni) /\ (forall k, place hd' k = place hd k) /\
    a_type e = type /\ a_name e = given_name name /\ a_resident e = true /\ a_value e = given_value val size.

Lemma record_add_ok ni hd es fin free : arguments -> record_at (mrec ni) hd es fin free -> NInoAttrList ni = false -> Forall (value_given type val) es ->
  exists l r ni' res, add ni type name i30 n val size flags = Some (ni', res) /\ es = l ++ r /\ Forall (fun e => judge e = Next) l /\
    match r with e :: _ => judge e <> Next | [] => True end /\
    match res with
    | Ok a => added ni ni' hd es fin l r a /\ match r with e :: _ => judge e = Past | [] => True end
    | Err EEXIST => ni' = ni /\ match r with e :: _ => judge e = Hit | [] => False end
    | Err err => ni' = ni /\ err = ENOSPC /\ zlen free < new_length n size /\ match r with e :: _ => judge e = Past | [] => True end
    end.
Proof using.
  intros Hargs Hm Hnl Hv. pose proof Hargs as [Hup [defs Hdefs] [Ht Hia] (Hn & Hc & Hn8) (Hvl & Hvw & Hs)].
  assert (0 <= n) as Hn0 by (rewrite <-Hn; apply zlen_nonneg). unfold ntfs_resident_attr_record_add.
  assert ((if name is NULL_NAME then true else false) && negb (n =? 0) = false) as ->.
  { destruct name; [|done|done]. cbn in Hn. by rewrite <-Hn. }
  assert (ntfs_attr_can_be_resident vol type = Ok tt) as ->.
  { unfold ntfs_attr_can_be_resident. rewrite Hdefs, bool_decide_eq_true_2 by eauto. rewrite (proj2 (Z.eqb_neq type 0)), (proj2 (Z.eqb_neq _ _) Hia) by lia. done. }
  unfold ntfs_attr_init_search_ctx. rewrite (record_attrs_offset Hm). cbn [mbind option_bind].
  assert (starts (Ctx (zlen hd) true true) hd []) as Hst by (left; split; [done|]; cbn; unfold place; cbn [concat]; rewrite zlen_nil; lia).
  destruct (attr_find_ok upcase upcase_len type name n CASE_SENSITIVE val size (args_name Hargs) Hup (args_len Hargs) _ hd es fin free _ [] es Hm Hv eq_refl Hst eq_refl) as
    (l & r & res & -> & Es & Hl & Hr). cbn [mbind option_bind app cx_attr]. exists l, r.
  assert (match r with e :: _ => judge e <> Next | [] => True end) as Hstop by (destruct r; [done|]; by destruct Hr as [[-> _]|[-> _]]).
  assert (res = Ok tt /\ (exists e r', r = e :: r' /\ judge e = Hit) \/ res = Err ENOENT /\ match r with e :: _ => judge e = Past | [] => True end) as Hcases.
  { destruct r as [|e r]; [by right|]. destruct Hr as [[H1 ->]|[H1 ->]]; [left; eauto | by right]. }
  clear Hr. destruct Hcases as [(-> & e & r' & -> & Hj)|(-> & Hpast)]; [by eexists ni, _|].
  pose proof (up8_range (2 * n)) as [Hu1 Hu1']. pose proof (up8_range size) as [Hu2 Hu2'].
  assert (u32 (offsetof_resident_end + align8 (2 * n) + align8 size) = new_length n size) as ->.
  { rewrite !align8_eq by lia. unfold u32. apply wrap_u_small. unfold new_length. lia. }
  subst es. pose proof (make_room_ok l r (new_length n size) Hm ltac:(unfold new_length; lia) ltac:(unfold new_length; divlia)) as Hroom.
  destruct (Z.leb_spec (new_length n size) (zlen free)) as [Hfit|Hfit].
  2: { rewrite Hroom. cbn [mbind option_bind]. eexists _, _. split; [reflexivity|]. split_and!; [done | done | done | by destruct ni | done | done | done]. }
  destruct Hroom as (gap & Hgl & Hgw & ->). cbn [mbind option_bind].
  pose proof (proj2 (rc_allocated _ _ _ _ _ Hm)) as Hmax. pose proof (record_len Hm) as Hlen. destruct (place_bounds Hm l r eq_refl) as [Hp0 Hp1].
  pose proof (zlen_nonneg (concat r)). set (hd1 := set_used hd (place hd (l ++ r) + 8 + new_length n size)). set (Q := concat r ++ end_marker fin ++ drop (Z.to_nat (new_length n size)) free).
  destruct (record_wf_parts _ _ _ _ _ Hm) as (_ & _ & _ & Hwfr). pose proof (rc_attrs _ _ _ _ _ Hm) as Hes.
  assert (zlen hd1 = zlen hd) as Hz1 by (unfold hd1, set_used; apply zlen_patch; rewrite ?zlen_le_encode; pose proof (proj1 (rc_head _ _ _ _ _ Hm)); lia).
  pose proof (proj1 (rc_head _ _ _ _ _ Hm)) as H42.
  assert (exists i, next_attr_instance hd1 = Some i) as [i Hi] by (apply (ld_inside 2); lia).
  assert (forall x, next_attr_instance (hd1 ++ x) = Some i) as Hinst by (intros x; rewrite <-Hi; apply ld_prefix; lia).
  rewrite Hinst. cbn [mbind option_bind]. assert (zlen (hd1 ++ concat l) = place hd l) as Ep by (rewrite zlen_app, Hz1; done).
  rewrite <-Ep. rewrite (app_assoc hd1).
  destruct (resident_record_ok (hd1 ++ concat l) gap Q type n flags i size name val Hgl Hgw Ht) as (rf & g23 & padN & padV & Hok & Hrec); [unfold new_length; lia | done | done | lia | done | done | lia |].
  rewrite Hrec. cbn [mbind option_bind].
  set (e := new_attr type n flags i size rf g23 (given_name name) padN (given_value val size) padV).
  pose proof (zlen_new_attr type n flags i size rf g23 (given_name name) padN (given_value val size) padV Hok) as Hel. fold e in Hel.
  destruct (new_attr_ok type n flags i size rf g23 (given_name name) padN (given_value val size) padV Hok) as (Ha & Hty & Hrs & Hnm & Hva). fold e in Ha, Hty, Hrs, Hnm, Hva.
  destruct (record_changed _ hd (l ++ r) fin free (l ++ e :: r) (drop (Z.to_nat (new_length n size)) free) Hm) as (Hm1 & Hzm1 & Hpl1).
  { apply Forall_app in Hes as [? ?]. apply Forall_app. split; [done|]. by constructor. }
  { by apply Forall_drop. }
  { rewrite !concat_app. cbn [concat]. rewrite !zlen_app, Hel. unfold zlen in Hfit |- *. rewrite length_drop. unfold new_length in *. lia. }
  assert (place hd (l ++ e :: r) + 8 = place hd (l ++ r) + 8 + new_length n size) as Epl.
  { unfold place. rewrite !concat_app. cbn [concat]. rewrite !zlen_app, Hel. lia. }
  unfold record_bytes in Hm1, Hzm1. rewrite Epl in Hm1, Hzm1, Hpl1. fold hd1 in Hm1, Hzm1, Hpl1.
  assert ((hd1 ++ concat l) ++ e ++ Q = hd1 ++ concat (l ++ e :: r) ++ end_marker fin ++ drop (Z.to_nat (new_length n size)) free) as EQ.
  { rewrite concat_app. cbn [concat]. unfold Q. by rewrite <-!app_assoc. }
  rewrite EQ. unfold next_instance. rewrite Hinst. cbn [mbind option_bind]. unfold put_le16, st.
  destruct (record_patch_head _ _ _ _ _ (le_encode 2 (Z.land (i + 1) 0xffff)) Hm1 ltac:(by rewrite zlen_le_encode) (wf_le_encode _ _)) as (Hm2 & -> & Hz2).
  cbn [mbind option_bind]. cbn [set_mrec NInoAttrList]. rewrite Hnl, andb_false_r. cbn [mrec set_mrec].
  assert (exists fl, mft_flags (patch hd1 40 (le_encode 2 (Z.land (i + 1) 0xffff)) ++ concat (l ++ e :: r) ++ end_marker fin ++ drop (Z.to_nat (new_length n size)) free) = Some fl) as [fl ->].
  { apply (ld_inside 2); [lia|]. rewrite zlen_app, Hz2. match goal with |- context [zlen (?a ++ ?b ++ ?c)] => pose proof (zlen_nonneg (a ++ b ++ c)) end. lia. }
  cbn [mbind option_bind]. eexists _, _. split; [reflexivity|]. split_and!; [done | done | done | | done].
  exists (patch hd1 40 (le_encode 2 (Z.land (i + 1) 0xffff))), e, (drop (Z.to_nat (new_length n size)) free).
  match goal with |- context [ntfs_inode_mark_dirty ?x] => assert (mrec (ntfs_inode_mark_dirty x) = mrec (set_mrec ni (patch hd1 40 (le_encode 2 (Z.land (i + 1) 0xffff)) ++ concat (l ++ e :: r) ++ end_marker fin ++ drop (Z.to_nat (new_length n size)) free))) as -> end.
  { cbn [ntfs_inode_mark_dirty mrec]. by destruct (if negb _ then _ else _). }
  cbn [mrec set_mrec]. split_and!; try done.
  - rewrite <-Hzm1, !zlen_app, Hz2. done.
  - intros k. rewrite <-(Hpl1 k). unfold place. by rewrite Hz2.
Qed.
End add.

(** The record has an attribute of the type and the name. *)
Definition has_attr (type : Z) (name : attr_name) (es : list (list Z)) : Prop := exists e, In e es /\ a_type e = type /\ a_name e = given_name name.

(** No attribute of the type and the name has another value than the one that is given; without a name, those of the type have none either. *)
Definition no_other_value (type : Z) (name : attr_name) (val : option (list Z)) (es : list (list Z)) : Prop :=
  Forall (fun e => a_type e = type -> (name = NULL_NAME -> a_name e = []) /\ (a_name e = given_name name -> val = None \/ val = Some (a_value e))) es.

Section place.
Context (upcase : list Z) (upcase_len type : Z) (name : attr_name) (val : option (list Z)).
Hypothesis Ht0 : type <> AT_UNUSED.
Abbreviation judge := (judge upcase upcase_len type name CASE_SENSITIVE val).

Lemma by_order_spec c : match by_order c with Hit => c = 0 | Past => c < 0 | Next => 0 < c end.
Proof using. unfold by_order. destruct (Z.eqb_spec c 0); [done|]. destruct (Z.ltb_spec c 0); [done | lia]. Qed.

(** What the search takes for the attribute has its type and its name. *)
Lemma judge_hit es e : no_other_value type name val es -> In e es -> judge e = Hit -> a_type e = type /\ a_name e = given_name name.
Proof using Ht0.
  intros Hno Hin. pose proof (proj1 (List.Forall_forall _ _) Hno e Hin) as He. unfold AttrSpec.judge. rewrite (proj2 (Z.eqb_neq type AT_UNUSED) Ht0).
  destruct (Z.ltb_spec type (a_type e)); [done|]. destruct (Z.eqb_spec (a_type e) type) as [E|]; [cbn [negb] | done]. destruct (He E) as [Hnull _].
  intros Hj. split; [done|]. assert (judge_name upcase upcase_len name CASE_SENSITIVE e = Hit) as Hn by (by destruct (judge_name _ _ _ _ _)).
  unfold judge_name in Hn. destruct name as [| |s]; cbn [given_name]; [by apply Hnull | by case_bool_decide |].
  pose proof (by_order_spec (name_order upcase upcase_len s (a_name e))) as Hb. unfold name_order at 1 in Hb. rewrite Hn in Hb. by apply name_order_eq in Hb.
Qed.

(** Behind an attribute that is past the place there is none of the type and the name. *)
Lemma past_rest es h e : no_other_value type name val es -> In h es -> In e es -> value_given type val h -> value_given type val e ->
  judge h = Past -> attr_le upcase upcase_len h e -> a_type e = type -> a_name e = given_name name -> False.
Proof using Ht0.
  intros Hno Hh He Hvh Hve. pose proof (proj1 (List.Forall_forall _ _) Hno h Hh) as Oh. pose proof (proj1 (List.Forall_forall _ _) Hno e He) as Oe.
  unfold AttrSpec.judge, attr_le, attr_cmp, then_cmp. rewrite (proj2 (Z.eqb_neq type AT_UNUSED) Ht0). intros Hp Hle Ht Hn.
  rewrite Ht in Hle. destruct (Z.eqb_spec (a_type h - type) 0) as [E0|]; [|destruct (Z.ltb_spec type (a_type h)); [lia|]; destruct (Z.eqb_spec (a_type h) type); [lia | done]].
  assert (a_type h = type) as Eh by lia. rewrite Eh, Z.ltb_irrefl, Z.eqb_refl in Hp. cbn [negb] in Hp. destruct (Oh Eh) as [Nh _]. destruct (Oe Ht) as [_ Ve]. specialize (Ve Hn).
  assert (judge_name upcase upcase_len name CASE_SENSITIVE h = Hit -> a_name h = a_name e -> False) as Hvalue.
  { intros Ej En. rewrite Ej in Hp. rewrite En in Hle. unfold name_order in Hle. unfold lex2 in Hle. rewrite !lex_refl in Hle. cbn [Z.eqb] in Hle.
    unfold judge_value in Hp. destruct val as [v|]; [|done]. destruct Ve as [|[= Ev]]; [done|]. unfold attr_value in Hle. rewrite Hvh, Hve in Hle by done. rewrite <-Ev in Hle.
    pose proof (by_order_spec (lex v (a_value h))) as Hb. rewrite Hp in Hb. rewrite lex_antisym in Hle. lia. }
  unfold judge_name in Hp, Hvalue. destruct name as [| |s]; cbn [given_name] in Hn.
  - apply Hvalue; [done|]. by rewrite Hn, Nh.
  - case_bool_decide as Eb; [apply Hvalue; [done | congruence]|]. rewrite Hn in Hle. unfold name_order, lex2 in Hle. destruct (a_name h); [done|]. done.
  - pose proof (by_order_spec (name_order upcase upcase_len s (a_name h))) as Hb. unfold name_order at 1 in Hb.
    destruct (by_order _) eqn:Ej in Hb, Hp, Hvalue.
    + apply name_order_eq in Hb. apply Hvalue; [done | congruence].
    + rewrite Hn in Hle. unfold name_order in *. rewrite lex2_antisym in Hle. destruct (Z.eqb_spec (- lex2 (map (upc upcase upcase_len) s) s (map (upc upcase upcase_len) (a_name h)) (a_name h)) 0); lia.
    + done.
Qed.

(** A search that passed [l] and stopped before [r] has missed nothing in a record in order. *)
Lemma search_missed l r : no_other_value type name val (l ++ r) -> Forall (value_given type val) (l ++ r) -> Forall (fun e => judge e = Next) l ->
  match r with e :: _ => judge e = Past | [] => True end -> in_record_order upcase upcase_len (l ++ r) -> ~ has_attr type name (l ++ r).
Proof using Ht0.
  intros Hno Hv Hl Hr Ho (e & Hin & Ht & Hn). pose proof (proj1 (List.Forall_forall _ _) Hno) as Hno'. pose proof (proj1 (List.Forall_forall _ _) Hv) as Hv'.
  assert (forall e, In e (l ++ r) -> a_type e = type -> a_name e = given_name name -> judge e = Hit) as Hhit.
  { intros x Hx Hxt Hxn. unfold AttrSpec.judge. rewrite (proj2 (Z.eqb_neq type AT_UNUSED) Ht0), Hxt, Z.ltb_irrefl, Z.eqb_refl. cbn [negb].
    assert (judge_name upcase upcase_len name CASE_SENSITIVE x = Hit) as ->.
    { unfold judge_name. rewrite Hxn. destruct name as [| |s]; cbn [given_name]; [done | done |]. unfold lex2, by_order. by rewrite !lex_refl. }
    unfold judge_value. destruct val as [v|] eqn:Ev; [|done]. destruct (proj2 (Hno' x Hx Hxt) Hxn) as [|[= ->]]; [done|]. unfold by_order. by rewrite lex_refl. }
  apply in_app_iff in Hin as Hin'. destruct Hin' as [Hil|Hir].
  - pose proof (proj1 (List.Forall_forall _ _) Hl e Hil) as Hj. pose proof (Hhit e Hin Ht Hn). cbn beta in Hj. congruence.
  - destruct r as [|h r]; [done|]. destruct Hir as [->|Hir]; [rewrite (Hhit e Hin Ht Hn) in Hr; done|].
    apply StronglySorted_app_1_r in Ho. apply StronglySorted_cons in Ho as [Ho _].
    eapply (past_rest (l ++ h :: r) h e); try done; try apply Hv'; try done.
    + apply in_elt.
    + apply in_elt.
    + by apply (proj1 (List.Forall_forall _ _) Ho).
Qed.
End place.

(** C38: adding a resident attribute to a record that has none of its type and name with another value puts it where the search for it
    ended, with the type, the name and the value it was given, and the other attributes stay as they are and in order.  It fails with EEXIST
    only if there is one of the type and the name already, and with ENOSPC only if the free space is short, and then changes nothing; in a
    record in order an attribute that is there is always refused. *)
Theorem ntfs_resident_attr_record_add_correct attrlist_add vol upcase upcase_len type n size flags name i30 val ni hd es fin free :
  arguments vol upcase upcase_len type n size name val -> record_at (mrec ni) hd es fin free -> NInoAttrList ni = false -> Forall (value_given type val) es ->
  no_other_value type name val es ->
  exists ni' res, ntfs_resident_attr_record_add attrlist_add vol upcase upcase_len ni type name i30 n val size flags = Some (ni', res) /\
    match res with
    | Ok a => exists l r hd' e free', es = l ++ r /\ a = place hd l /\ record_at (mrec ni') hd' (l ++ e :: r) fin free' /\ zlen (mrec ni') = zlen (mrec ni) /\
        a_type e = type /\ a_name e = given_name name /\ a_resident e = true /\ a_value e = given_value val size /\
        (in_record_order upcase upcase_len es -> in_record_order upcase upcase_len (l ++ e :: r))
    | Err EEXIST => ni' = ni /\ has_attr type name es
    | Err err => ni' = ni /\ err = ENOSPC /\ zlen free < new_length n size
    end /\
    (in_record_order upcase upcase_len es -> has_attr type name es -> res = Err EEXIST).
Proof.
  intros Hargs Hm Hnl Hv Hno. assert (type <> AT_UNUSED) as Ht0 by (pose proof (ar_type _ _ _ _ _ _ _ _ Hargs); unfold AT_UNUSED; lia).
  destruct (record_add_ok attrlist_add vol upcase upcase_len type n size flags name i30 val ni hd es fin free Hargs Hm Hnl Hv) as
    (l & r & ni' & res & E & Es & Hl & Hstop & Hres). exists ni', res. split; [exact E|]. subst es.
  assert (match r with e :: _ => judge upcase upcase_len type name CASE_SENSITIVE val e = Past | [] => True end ->
    in_record_order upcase upcase_len (l ++ r) -> has_attr type name (l ++ r) -> res = Err EEXIST) as Hmissed.
  { intros Hp Ho Ha. by destruct (search_missed upcase upcase_len type name val Ht0 l r Hno Hv Hl Hp Ho). }
  destruct res as [a|err].
  - destruct Hres as [(hd' & e & free' & _ & Ea & Hm' & Hz & _ & Ht & Hn & Hr & Hvl) Hpast]. split; [|by apply Hmissed]. exists l, r, hd', e, free'. split_and!; try done.
    intros Hord.
    assert (forall x, In x (l ++ r) -> match judge upcase upcase_len type name CASE_SENSITIVE val x with Next => attr_le upcase upcase_len x e | Past => attr_le upcase upcase_len e x | Hit => True end) as Hj.
    { intros x Hx. apply (judge_order upcase upcase_len type name val size e Ht); try done.
      - by apply (proj1 (List.Forall_forall _ _) Hv).
      - intros En Hxt. by apply (proj1 (List.Forall_forall _ _) Hno x Hx Hxt). }
    apply in_record_order_insert; [done | |].
    + apply List.Forall_forall. intros x Hx. specialize (Hj x (in_or_app _ _ _ (or_introl Hx))). by rewrite (proj1 (List.Forall_forall _ _) Hl x Hx) in Hj.
    + destruct r as [|y r]; [done|]. specialize (Hj y (in_elt _ _ _)). by rewrite Hpast in Hj.
  - destruct (decide (err = EEXIST)) as [->|Hne].
    + split; [|done]. destruct Hres as [-> Hr]. split; [done|]. destruct r as [|e r]; [done|]. exists e. split; [apply in_elt|].
      apply (judge_hit upcase upcase_len type name val Ht0 (l ++ e :: r)); [done | apply in_elt | done].
    + assert (ni' = ni /\ err = ENOSPC /\ zlen free < new_length n size /\ match r with e :: _ => judge upcase upcase_len type name CASE_SENSITIVE val e = Past | [] => True end) as (-> & -> & Hf & Hp) by (by destruct err).
      split; [done | by apply Hmissed].
Qed.

(** C39: an attribute that was added is found again by the same search, and removing it gives back the attributes there were before. *)
Theorem attr_add_find_remove attrlist_add vol upcase upcase_len type n size flags name i30 val ni hd es fin free ni' a :
  arguments vol upcase upcase_len type n size name val -> record_at (mrec ni) hd es fin free -> NInoAttrList ni = false -> Forall (value_given type val) es ->
  ntfs_resident_attr_record_add attrlist_add vol upcase upcase_len ni type name i30 n val size flags = Some (ni', Ok a) ->
  (exists ctx0 ctx, ntfs_attr_init_search_ctx true (mrec ni') = Some ctx0 /\
    ntfs_attr_find upcase upcase_len type name n CASE_SENSITIVE val size (mrec ni') ctx0 = Some (ctx, Ok tt) /\ cx_attr ctx = a) /\
  exists m2 hd2 free2, ntfs_attr_record_resize (mrec ni') a 0 = Some (m2, STATUS_OK) /\ record_at m2 hd2 es fin free2 /\ zlen m2 = zlen (mrec ni).
Proof.
  intros Hargs Hm Hnl Hv E. destruct (record_add_ok attrlist_add vol upcase upcase_len type n size flags name i30 val ni hd es fin free Hargs Hm Hnl Hv) as
    (l & r & ni2 & res & E2 & Es & Hl & Hstop & Hres). rewrite E2 in E. injection E as -> ->.
  destruct Hres as [(hd' & e & free' & _ & Ea & Hm' & Hz & Hp & Ht & Hn & Hr & Hvl) _]. pose proof Hargs as [Hup _ [Ht1 _] _ _].
  assert (type <> AT_UNUSED) as Ht0 by (unfold AT_UNUSED; lia).
  assert (Forall (value_given type val) (l ++ e :: r)) as Hv'.
  { subst es. apply Forall_app in Hv as [? ?]. apply Forall_app. split; [done|]. constructor; [by intros _ _ | done]. }
  assert (starts (Ctx (zlen hd') true true) hd' []) as Hst by (left; split; [done|]; cbn; unfold place; cbn [concat]; rewrite zlen_nil; lia).
  pose proof (judge_new upcase upcase_len type size name val e Ht Ht0 Hn Hvl) as Hj. split.
  - exists (Ctx (zlen hd') true true). unfold ntfs_attr_init_search_ctx. rewrite (record_attrs_offset Hm'). cbn [mbind option_bind].
    destruct (attr_find_ok upcase upcase_len type name n CASE_SENSITIVE val size (args_name vol upcase upcase_len type n size name val Hargs) Hup (args_len vol upcase upcase_len type n size name val Hargs) _ hd' _ fin free' _ [] (l ++ e :: r) Hm' Hv' eq_refl Hst eq_refl) as
      (l' & r' & res & Ef & El & Hl' & Hr'). assert (l' = l /\ r' = e :: r) as [-> ->].
    { clear -El Hl Hl' Hr' Hj. revert l' El Hl'. induction l as [|x l IH]; intros [|y l'] El Hl'; cbn [app] in *.
      - done.
      - injection El as -> ->. apply Forall_inv in Hl'. by rewrite Hj in Hl'.
      - subst r'. apply Forall_inv in Hl. destruct Hr' as [[H _]|[H _]]; by rewrite H in Hl.
      - injection El as -> El. destruct (IH (Forall_inv_tail Hl) l' El (Forall_inv_tail Hl')) as [-> ->]. done. }
    destruct Hr' as [[_ ->]|[H _]]; [|by rewrite Hj in H]. eexists. split; [done|]. split; [exact Ef|]. cbn. rewrite Hp. done.
  - pose proof (rc_attrs _ _ _ _ _ Hm') as Ha'. pose proof (Forall_inv (proj2 (proj1 (Forall_app _ _ _) Ha'))) as He. pose proof (proj1 (ao_length _ He)) as Hel.
    pose proof (resize_ok l r e He 0 0 _ Hm' ltac:(lia) eq_refl eq_refl) as Hrz. rewrite (proj2 (Z.eqb_neq 0 (zlen e))) in Hrz by lia.
    pose proof (record_len Hm') as Hlen. pose proof (zlen_nonneg free').
    rewrite (proj2 (Z.ltb_ge _ _)) in Hrz by lia.
    assert (resize_filled e (mrec ni') (place hd' (l ++ e :: r) + 8) (place hd' (l ++ e :: r) + 8 - zlen e + 0) 0 = false) as Ef.
    { unfold resize_filled. rewrite (proj2 (Z.ltb_ge (zlen e) 0)) by lia. by rewrite andb_false_r. }
    rewrite Ef in Hrz. destruct Hrz as (e0 & free2 & Hrz0 & Hwf & Hl0 & Er). assert (e0 = []) as -> by (pose proof (rz_len _ _ _ Hrz0) as H0; destruct e0; [done | rewrite zlen_cons in H0; pose proof (zlen_nonneg e0); lia]).
    rewrite Ea, <-Hp. rewrite Er.
    destruct (record_changed _ hd' (l ++ e :: r) fin free' (l ++ r) free2 Hm') as (Hm2 & Hz2 & _).
    { apply Forall_app in Ha' as [? Ha']. apply Forall_app. split; [done|]. by apply Forall_inv_tail in Ha'. }
    { done. }
    { rewrite !concat_app. cbn [concat]. rewrite !zlen_app. change (zlen []) with 0 in Hl0. lia. }
    assert (place hd' (l ++ e :: r) + 8 - zlen e + 0 = place hd' (l ++ r) + 8) as -> by (unfold place; rewrite !concat_app; cbn [concat]; rewrite !zlen_app; lia).
    unfold record_bytes in Hm2, Hz2. rewrite concat_app in Hm2 at 1. rewrite concat_app in Hz2 at 1. rewrite <-!app_assoc in Hm2, Hz2. cbn [app].
    eexists _, _, free2. split; [reflexivity|]. rewrite Es. split; [exact Hm2|]. rewrite Hz2. exact Hz.
Qed.

(** ** Empty records *)

Lemma high_bits y k : 0 <= k -> 2 ^ k <= y \/ y < 0 \/ forall a, Z.land y (Z.shiftl a k) = 0.
Proof.
  intros Hk. destruct (Z.ltb_spec y 0); [auto|]. destruct (Z.leb_spec (2 ^ k) y); [auto|]. right; right. intros a. apply Z.bits_inj'. intros i Hi.
  rewrite Z.land_spec, Z.bits_0, Z.shiftl_spec by done. destruct (Z.ltb_spec i k).
  - rewrite (Z.testbit_neg_r a) by lia. apply andb_false_r.
  - rewrite <-(Z.mod_small y (2 ^ k)) by lia. rewrite Z.mod_pow2_bits_high by lia. done.
Qed.

(** C40: laying out a record gives one without attributes, which the check of records accepts; its update sequence array is in front of
    the attributes and fits the protection of records.  It fails only for a number of more than 32 bits on NTFS 3.1. *)
Theorem ntfs_mft_record_layout_correct major_ver minor_ver size mref m : wf_bytes m -> zlen m = size -> 512 <= size < 2 ^ 16 -> size mod 512 = 0 -> 0 <= mref < 2 ^ 64 ->
  exists m' r, ntfs_mft_record_layout major_ver minor_ver size mref m = Some (m', r) /\
  match r with
  | Err e => e = ERANGE /\ m' = m /\ 2 ^ 32 <= MREF mref
  | Ok _ => exists hd free ofs, record_at m' hd [] (le_encode 4 0) free /\ zlen m' = size /\ ntfs_mft_record_check size m' = Some (Ok tt) /\
      rec_usa_ofs m' = Some ofs /\ rec_usa_count m' = Some (1 + size / 512) /\ is_valid_record size ofs (1 + size / 512) = true /\ ofs + 2 * (1 + size / 512) <= zlen hd
  end.
Proof.
  intros Hw Hl Hs H512 Hr. unfold ntfs_mft_record_layout. cbv zeta. set (old := (major_ver <? 3) || ((major_ver =? 3) && (minor_ver =? 0))). clearbody old.
  destruct (negb old && negb (Z.land (MREF mref) 0xffff00000000 =? 0)) eqn:Eo.
  { eexists _, _. split; [reflexivity|]. split_and!; [done | done |]. apply andb_true_iff in Eo as [_ Eo]. apply negb_true_iff, Z.eqb_neq in Eo.
    destruct (high_bits (MREF mref) 32 ltac:(lia)) as [|[Hneg|E]]; [done | | by destruct Eo; apply (E 0xffff)].
    assert (0 <= MREF mref) by (apply Z.land_nonneg; lia). lia. }
  set (ofs := if old then sizeof_MFT_RECORD_OLD else sizeof_MFT_RECORD). assert (ofs = 42 \/ ofs = 48) as Hofs by (unfold ofs; destruct old; auto).
  rewrite (proj2 (Z.leb_le 512 size)) by lia. assert (u16 (size / 512 + 1) = 1 + size / 512) as -> by (unfold u16; rewrite wrap_u_small; [lia | divlia]).
  set (cnt := 1 + size / 512). assert (2 <= cnt <= 129 /\ 512 * (cnt - 1) = size) as [Hcnt Hcs] by (unfold cnt; divlia).
  assert (Z.land (ofs + 2 * cnt + 7) 0xfff8 = up8 (ofs + 2 * cnt)) as -> by (apply (land_down8 _ 16); lia).
  destruct (up8_range (ofs + 2 * cnt)) as [Hu1 Hu2]. set (attrs := up8 (ofs + 2 * cnt)) in *. clearbody attrs.
  assert (Z.land (attrs + 8 + 7) 0xfffffff8 = attrs + 8) as -> by (etransitivity; [apply (land_down8 _ 32); lia | divlia]).
  unfold put_le16, put_le32, put_le64.
  destruct (st_keep 2 m 4 ofs) as (m1 & -> & W1 & L1 & F1 & H1); [lia|lia|done|]. cbn [mbind option_bind].
  assert (exists m2, (if old then Some m1 else m0 ← st 2 m1 42 0; st 4 m0 44 (MREF mref)) = Some m2 /\ wf_bytes m2 /\ zlen m2 = zlen m1 /\ frame m1 m2 42 48) as (m2 & -> & W2 & L2 & F2).
  { destruct old; [exists m1; split_and!; [done | done | done | apply frame_refl]|].
    destruct (st_keep 2 m1 42 0) as (ma & -> & Wa & La & Fa & _); [lia|lia|done|]. cbn [mbind option_bind].
    destruct (st_keep 4 ma 44 (MREF mref)) as (mb & -> & Wb & Lb & Fb & _); [lia|lia|done|]. exists mb. split_and!; [done | done | lia |].
    apply (frame_trans m1 ma mb _ _ _ _ _ _ Fa Fb); lia. }
  cbn [mbind option_bind].
  destruct (st_keep 4 m2 0 magic_FILE) as (m3 & -> & W3 & L3 & F3 & H3); [lia|lia|done|]. cbn [mbind option_bind].
  destruct (st_keep 2 m3 6 cnt) as (m4 & -> & W4 & L4 & F4 & H4); [lia|lia|done|]. cbn [mbind option_bind].
  destruct (st_keep 2 m4 ofs 1) as (m5 & -> & W5 & L5 & F5 & _); [lia|lia|done|]. cbn [mbind option_bind].
  destruct (st_keep 8 m5 8 0) as (m6 & -> & W6 & L6 & F6 & _); [lia|lia|done|]. cbn [mbind option_bind].
  destruct (st_keep 2 m6 16 1) as (m7 & -> & W7 & L7 & F7 & _); [lia|lia|done|]. cbn [mbind option_bind].
  destruct (st_keep 2 m7 18 0) as (m8 & -> & W8 & L8 & F8 & _); [lia|lia|done|]. cbn [mbind option_bind].
  destruct (st_keep 2 m8 20 attrs) as (m9 & -> & W9 & L9 & F9 & H9); [lia|lia|done|]. cbn [mbind option_bind].
  destruct (st_keep 2 m9 22 0) as (m10 & -> & W10 & L10 & F10 & _); [lia|lia|done|]. cbn [mbind option_bind].
  destruct (st_keep 4 m10 24 (attrs + 8)) as (m11 & -> & W11 & L11 & F11 & H11); [lia|lia|done|]. cbn [mbind option_bind].
  destruct (st_keep 4 m11 28 size) as (m12 & -> & W12 & L12 & F12 & H12); [lia|lia|done|]. cbn [mbind option_bind].
  destruct (st_keep 8 m12 32 0) as (m13 & -> & W13 & L13 & F13 & _); [lia|lia|done|]. cbn [mbind option_bind].
  destruct (st_keep 2 m13 40 0) as (m14 & -> & W14 & L14 & F14 & _); [lia|lia|done|]. cbn [mbind option_bind].
  destruct (st_keep 4 m14 attrs AT_END) as (m15 & -> & W15 & L15 & F15 & H15); [lia|lia|done|]. cbn [mbind option_bind].
  destruct (st_keep 4 m15 (attrs + 4) 0) as (m16 & -> & W16 & L16 & F16 & H16); [lia|lia|done|]. cbn [mbind option_bind].
  set (zs := replicate (Z.to_nat (size - (attrs + 8))) 0). assert (zlen zs = size - (attrs + 8)) as Hzs by (unfold zs; rewrite zlen_replicate; lia).
  destruct (write_ok m16 (attrs + 8) zs) as (m17 & E17 & L17 & F17 & H17); [lia|lia|]. rewrite E17. cbn [mbind option_bind].
  assert (wf_bytes m17) as W17 by (apply (wf_zwrite m16 (attrs + 8) zs); [done | by apply Forall_replicate | done]). clear E17.
  eexists m17, _. split; [reflexivity|].
  assert (zlen (le_encode 4 AT_END) = 4 /\ zlen (le_encode 4 0) = 4) as [Z1 Z2] by (split; apply zlen_le_encode).
  assert (holds m17 4 (le_encode 2 ofs) /\ holds m17 6 (le_encode 2 cnt) /\ holds m17 20 (le_encode 2 attrs) /\ holds m17 24 (le_encode 4 (attrs + 8)) /\
    holds m17 28 (le_encode 4 size) /\ holds m17 0 (le_encode 4 magic_FILE) /\ holds m17 attrs (le_encode 4 AT_END ++ le_encode 4 0 ++ zs)) as (G4 & G6 & G20 & G24 & G28 & G0 & Gend).
  { split_and!; try (by carry). rewrite !holds_app, Z1, Z2. split_and!; [carry | carry |]. replace (attrs + 4 + 4) with (attrs + 8) by lia. exact H17. }
  set (hd := take (Z.to_nat attrs) m17). assert (zlen hd = attrs) as Lhd by (unfold hd, zlen in *; rewrite length_take; lia).
  assert (drop (Z.to_nat attrs) m17 = le_encode 4 AT_END ++ le_encode 4 0 ++ zs) as Ed.
  { pose proof (holds_zread m17 attrs _ Gend ltac:(lia)) as Hz. rewrite !zlen_app, Z1, Z2, Hzs in Hz. specialize (Hz ltac:(lia)). rewrite zread_inside in Hz by lia.
    injection Hz as Hz. rewrite take_ge in Hz; [done|]. rewrite length_drop. unfold zlen in *. lia. }
  assert (m17 = hd ++ le_encode 4 AT_END ++ le_encode 4 0 ++ zs) as Em by (rewrite <-Ed; symmetry; apply take_drop).
  assert (forall n a v, holds m17 a (le_encode n v) -> 0 <= a -> a + Z.of_nat n <= 42 -> 0 <= v < 256 ^ Z.of_nat n -> ld n m17 a = Some v /\ ld n hd a = Some v) as Hld.
  { intros n a v Hh Ha Hb Hv. assert (ld n m17 a = Some v) as E by (apply holds_ld_small; [done | done | lia | done]). split; [done|].
    rewrite <-E, Em. symmetry. apply ld_prefix; lia. }
  apply Hld in G4 as [A4 _], G6 as [A6 _], G20 as [A20 B20], G24 as [_ B24], G28 as [A28 B28], G0 as [A0 _];
    try (change (256 ^ Z.of_nat 2) with 65536; change (256 ^ Z.of_nat 4) with 4294967296; unfold magic_FILE; lia).
  exists hd, zs, ofs. split_and!.
  - split; [ | done | | | | done | constructor].
    + rewrite Em at 1. cbn [concat app]. by rewrite <-!app_assoc.
    + split; [lia|]. rewrite Lhd. exact B20.
    + rewrite Lhd. cbn [concat]. rewrite zlen_nil. unfold bytes_in_use, le32_to_cpup. rewrite B24. f_equal. lia.
    + split; [|lia]. unfold bytes_allocated, le32_to_cpup. rewrite B28. f_equal. lia.
  - lia.
  - unfold ntfs_mft_record_check, bytes_allocated, attrs_offset, le32_to_cpup, le16_to_cpup. rewrite A0, A28, A20. cbn [mbind option_bind].
    rewrite !Z.eqb_refl. cbn [negb]. rewrite (proj2 (Z.ltb_ge attrs 0)), (proj2 (Z.ltb_ge size attrs)) by lia. done.
  - exact A4.
  - exact A6.
  - unfold is_valid_record, NTFS_BLOCK_SIZE. rewrite !andb_true_iff, !Z.eqb_eq, Z.leb_le. split_and!; [done | destruct Hofs as [E|E]; by rewrite E | done | fold cnt; lia].
  - lia.
Qed.

(** ** Records in memory *)

(** A volume whose $AttrDef is not looked at, an inode without an attribute list. *)
Definition any_vol : attrdefs := AttrDefs (Some []) 0.
Definition no_list (ni : mft_inode) (_ : Z) : mft_inode * result unit := (ni, Ok tt).
Definition inode_of (m : list Z) : mft_inode := MftInode m 0 0 false false false.

Definition empty_record : list Z :=
  match ntfs_mft_record_layout 3 1 1024 5 (replicate 1024 0) with Some (m, _) => m | None => [] end.

(** With an unnamed $DATA of three bytes. *)
Definition data_attr : list Z := le_encode 4 AT_DATA ++ le_encode 4 32 ++ [0; 0; 0; 0; 0; 0; 0; 0] ++ le_encode 4 3 ++ le_encode 2 24 ++ [0; 0] ++ [7; 8; 9; 0; 0; 0; 0; 0].
Definition data_record : list Z := record_bytes (take 56 empty_record) [data_attr] (le_encode 4 0) (replicate 928 0).

Lemma by_computation (P : Prop) `{!Decision P} : bool_decide P = true -> P.
Proof. apply bool_decide_eq_true_1. Qed.

Lemma empty_record_at : record_at empty_record (take 56 empty_record) [] (le_encode 4 0) (drop 64 empty_record).
Proof. split; [by vm_compute | apply (by_computation _); by vm_compute | by split; vm_compute | by vm_compute | by split; vm_compute | by vm_compute | constructor]. Qed.

Lemma data_attr_ok : attr_ok data_attr.
Proof.
  split; [apply (by_computation _); by vm_compute | by split | done | | |].
  - by exists AT_DATA.
  - by exists 0, 0.
  - intros _. exists 3, 24. split_and!; try done. intros k o Hk Ho. injection Hk as <-. injection Ho as <-. done.
Qed.

Lemma data_record_at : record_at data_record (set_used (take 56 empty_record) 96) [data_attr] (le_encode 4 0) (replicate 928 0).
Proof.
  split; [by vm_compute | apply (by_computation _); by vm_compute | by split; vm_compute | by vm_compute | by split; vm_compute | by vm_compute |]. constructor; [exact data_attr_ok | constructor].
Qed.

#[local] Instance empty_upcase : Upcase [] 0.
Proof. done. Qed.

Lemma data_arguments v : zlen v < 100 -> wf_bytes v -> arguments any_vol [] 0 AT_DATA 0 (zlen v) AT_UNNAMED (Some v).
Proof.
  intros Hl Hw. split; [exact empty_upcase | by eexists | done | split; [done | split; [constructor | done]] |]. cbn [given_value]. pose proof (zlen_nonneg v). split_and!; [done | done | lia | lia].
Qed.

Lemma ntfs_attr_find_correct_witness : exists ctx,
  ntfs_attr_find [] 0 AT_DATA AT_UNNAMED 0 CASE_SENSITIVE None 0 data_record (Ctx 56 true true) = Some (ctx, Ok tt) /\ cx_attr ctx = 56.
Proof.
  destruct (ntfs_attr_find_correct [] 0 AT_DATA AT_UNNAMED 0 CASE_SENSITIVE None 0 data_record (set_used (take 56 empty_record) 96) [] [data_attr] (le_encode 4 0) (replicate 928 0) (Ctx 56 true true)
    data_record_at) as (l' & r' & res & E & Er & Hl & Hr); [by left | done | done | exact empty_upcase | done | by constructor |].
  destruct l' as [|e l']; [|injection Er as <- _; by apply Forall_inv in Hl]. cbn [app] in Er. subst r'. destruct Hr as [[_ ->]|[H _]]; [|discriminate H]. eexists. split; [exact E | done].
Defined.

Lemma ntfs_resident_attr_value_resize_correct_witness : exists m' hd' e' free',
  ntfs_resident_attr_value_resize data_record 56 20 = Some (m', STATUS_OK) /\ record_at m' hd' [e'] (le_encode 4 0) free' /\ a_value e' = [7; 8; 9] ++ replicate 17 0.
Proof.
  destruct (ntfs_resident_attr_value_resize_correct data_record (set_used (take 56 empty_record) 96) [] data_attr [] (le_encode 4 0) (replicate 928 0) 20 24 data_record_at) as (m' & s & E & Hs);
    [done | done | done |]. assert (s = STATUS_OK) as ->.
  { destruct s; [done | | | by destruct Hs | by destruct Hs].
    - destruct Hs as (_ & _ & Hs). vm_compute in Hs. discriminate Hs.
    - destruct Hs as (_ & Hs & _). discriminate Hs. }
  destruct Hs as (_ & hd' & e' & free' & Hm & _ & _ & _ & _ & _ & Hv). exists m', hd', e', free'. exact (conj E (conj Hm Hv)).
Defined.

Lemma ntfs_resident_attr_record_add_correct_witness : exists ni' a,
  ntfs_resident_attr_record_add no_list any_vol [] 0 (inode_of empty_record) AT_DATA AT_UNNAMED false 0 (Some [1; 2]) 2 0 = Some (ni', Ok a) /\
  exists hd' e free', record_at (mrec ni') hd' [e] (le_encode 4 0) free' /\ a_value e = [1; 2].
Proof.
  destruct (ntfs_resident_attr_record_add_correct no_list any_vol [] 0 AT_DATA 0 2 0 AT_UNNAMED false (Some [1; 2]) (inode_of empty_record) _ _ _ _ (data_arguments [1; 2] eq_refl ltac:(by repeat constructor)) empty_record_at eq_refl
    ltac:(constructor) ltac:(constructor)) as (ni' & res & E & Hr & _). destruct res as [a|err].
  - exists ni', a. split; [exact E|]. destruct Hr as (l & r & hd' & e & free' & Es & _ & Hm & _ & _ & _ & _ & Hv & _). symmetry in Es. apply app_nil in Es as [-> ->]. exists hd', e, free'. exact (conj Hm Hv).
  - exfalso. destruct err; try (destruct Hr as (_ & Hc & _); discriminate Hc).
    + destruct Hr as (_ & _ & Hc). vm_compute in Hc. discriminate Hc.
    + by destruct Hr as (_ & e & [] & _).
Defined.

Definition added_inode : mft_inode :=
  match ntfs_resident_attr_record_add no_list any_vol [] 0 (inode_of empty_record) AT_DATA AT_UNNAMED false 0 (Some [1; 2]) 2 0 with Some (ni, _) => ni | None => inode_of [] end.

Lemma attr_add_find_remove_witness : exists m2 hd2 free2,
  ntfs_attr_record_resize (mrec added_inode) 56 0 = Some (m2, STATUS_OK) /\ record_at m2 hd2 [] (le_encode 4 0) free2.
Proof.
  destruct (attr_add_find_remove no_list any_vol [] 0 AT_DATA 0 2 0 AT_UNNAMED false (Some [1; 2]) (inode_of empty_record) _ _ _ _ added_inode 56 (data_arguments [1; 2] eq_refl ltac:(by repeat constructor)) empty_record_at eq_refl
    ltac:(constructor)) as [_ (m2 & hd2 & free2 & E & Hm & _)]; [by vm_compute|]. exists m2, hd2, free2. exact (conj E Hm).
Defined.

Lemma ntfs_mft_record_layout_correct_witness : exists m' hd free,
  ntfs_mft_record_layout 3 1 1024 5 (replicate 1024 0) = Some (m', Ok tt) /\ record_at m' hd [] (le_encode 4 0) free.
Proof.
  destruct (ntfs_mft_record_layout_correct 3 1 1024 5 (replicate 1024 0)) as (m' & r & E & Hr); [by apply Forall_replicate | done | done | done | done |].
  destruct r as [[]|e]; [|destruct Hr as (_ & _ & Hr); vm_compute in Hr; by destruct Hr]. destruct Hr as (hd & free & _ & Hm & _). exists m', hd, free. exact (conj E Hm).
Defined.

(** ** What the code does not check *)

(** A second unnamed $DATA with another value is added beside the first. *)
Example two_unnamed_data :
  match ntfs_resident_attr_record_add no_list any_vol [] 0 (inode_of data_record) AT_DATA AT_UNNAMED false 0 (Some [9]) 1 0 with Some (_, r) => r | None => Err EIO end = Ok 88.
Proof. by vm_compute. Qed.

(** A record whose last attribute ends with it: the search reads behind the record. *)
Definition unterminated : list Z := patch (patch empty_record 56 (le_encode 4 AT_DATA)) 60 (le_encode 4 968).
Example find_reads_behind : zlen unterminated = 1024 /\ ntfs_mft_record_check 1024 unterminated = Some (Ok tt) /\
  ntfs_attr_find [] 0 AT_INDEX_ROOT AT_UNNAMED 0 CASE_SENSITIVE None 0 unterminated (Ctx 56 true true) = None.
Proof. split_and!; by vm_compute. Qed.
