(* ===== verification/Vdfuse.v ===== *)
(** The VirtualBox image mounter (src/vdfuseloop/vdfuse/src/vdfuse.c): partition
    table parsing and the FUSE callbacks that present the whole disk and its
    partitions as files.

    The VirtualBox disk library is the interface [VDOps]; usageAndExit ends the
    process, which is the outcome [Exits].  The host is little-endian, as the
    code reads the on-disk words without conversion. *)

From Stdlib Require Import Ascii.
From stdpp Require Export strings pretty relations.
From S2P Require Import Prelude.
Local Open Scope Z_scope.
Local Open Scope c_scope.
Set Default Proof Using "Type*".

(** ** Data *)

Definition BLOCKSIZE : Z := 512.
Definition UNALLOCATED : Z := -1.
Definition HOSTPARTITION_MAX : Z := 100.
Definition MBR_START : Z := 446.
Definition EBR_START : Z := 446.
Definition ENTIRE_DISK_STR : string := "EntireDisk".
Definition PARTTYPE_IS_EXTENDED (x : Z) : bool := (x =? 0x05) || (x =? 0x0f) || (x =? 0x85).

(** The fields of MBRentry; the CHS bytes are only copied. *)
Record MBRentry := Entry { status : Z; chs : list Z; type : Z; chs_end : list Z; eoffset : Z; esize : Z }.

Record Partition := Part { name : string; offset : Z; size : Z; no : Z; descriptor : MBRentry }.

Definition zero_entry : MBRentry := Entry 0 [0; 0; 0] 0 [0; 0; 0] 0 0.
Definition zero_partition : Partition := Part "" 0 0 0 zero_entry.
Definition set_no (p : Partition) (n : Z) : Partition := Part (name p) (offset p) (size p) n (descriptor p).
Definition set_name (p : Partition) (s : string) : Partition := Part s (offset p) (size p) (no p) (descriptor p).
Definition set_descriptor (p : Partition) (e : MBRentry) : Partition := Part (name p) (offset p) (size p) (no p) e.

(** A packed MBRentry in a block read from the image. *)
Definition entry_at (b : list Z) (a : Z) : option MBRentry :=
  st ← b.[a];
  c1 ← zread b (a + 1) 3;
  ty ← b.[a + 4];
  c2 ← zread b (a + 5) 3;
  o ← ld 4 b (a + 8);
  s ← ld 4 b (a + 12);
  Some (Entry st c1 ty c2 o s).

(** usageAndExit prints its message and calls exit(1). *)
Inductive exits (A : Type) : Type :=
  | Returns (a : A)
  | Exits (message : string).
Arguments Returns {A} a.
Arguments Exits {A} message.

(** ** The VirtualBox disk library *)

(** VDRead gives its status and what the buffer then holds; VDWrite its status.
    A status is a failure when it is negative. *)
Class VDOps (D : Type) := {
  VDRead : D -> Z -> Z -> D * Z * list Z;
  VDWrite : D -> Z -> list Z -> D * Z;
  VDGetSize : D -> Z;
  VDFlush : D -> D;
  (** The bytes of the virtual disk. *)
  vd_data : D -> list Z }.

Definition RT_SUCCESS (rc : Z) : bool := 0 <=? rc.

(** What the library promises: a successful transfer moves the disk's bytes, a
    read leaves the disk alone, and the disk keeps its size. *)
Class VDLaws (D : Type) `{VDOps D} := {
  VDRead_law d pos n d' rc bs : 0 <= n -> VDRead d pos n = (d', rc, bs) ->
    vd_data d' = vd_data d /\ zlen bs = n /\ (wf_bytes (vd_data d) -> wf_bytes bs) /\
    (RT_SUCCESS rc = true -> 0 <= pos /\ pos + n <= zlen (vd_data d) /\ holds (vd_data d) pos bs);
  VDWrite_law d pos bs d' rc : VDWrite d pos bs = (d', rc) ->
    (wf_bytes (vd_data d) -> wf_bytes bs -> wf_bytes (vd_data d')) /\
    if RT_SUCCESS rc then zwrite (vd_data d) pos bs = Some (vd_data d')
    else frame (vd_data d) (vd_data d') pos (pos + zlen bs);
  VDGetSize_law d : VDGetSize d = zlen (vd_data d);
  VDFlush_law d : vd_data (VDFlush d) = vd_data d }.

(** Reads inside the disk do not fail. *)
Class VDReliable (D : Type) `{VDOps D} := {
  VDRead_ok d pos n : 0 <= pos -> 0 <= n -> pos + n <= zlen (vd_data d) ->
    RT_SUCCESS (snd (fst (VDRead d pos n))) = true }.

(** ** Partition table *)

(** [for (i = ..; k iterations; i++) partitionTable[i].no = UNALLOCATED]. *)
Fixpoint reset_loop (k : nat) (i : Z) (tbl : list Partition) : option (list Partition) :=
  match k with
  | O => Some tbl
  | S k' =>
      p ← tbl.[i];
      tbl ← zset tbl i (set_no p UNALLOCATED);
      reset_loop k' (i + 1) tbl
  end.

(** The table is the 101 entries of partitionTable and the memory of one more
    entry behind it, because the loop's bound is [i <= 101]: its last iteration
    writes the no field of that memory.  The memset covers the array alone. *)
Definition reset_table (tbl : list Partition) : option (list Partition) :=
  tbl ← zwrite tbl 0 (replicate (Z.to_nat (HOSTPARTITION_MAX + 1)) zero_partition);
  reset_loop (Z.to_nat (HOSTPARTITION_MAX + 2)) 0 tbl.

(** The four entries of the MBR; [k] is the number of iterations left. *)
Fixpoint mbr_loop (k : nat) (i : Z) (mbrb : list Z) (tbl : list Partition) (lastPartition entendedFlag : Z)
    : option (exits (list Partition * Z * Z)) :=
  match k with
  | O => Some (Returns (tbl, lastPartition, entendedFlag))
  | S k' =>
      e ← entry_at mbrb (MBR_START + (i - 1) * 16);
      p ← tbl.[i];
      tbl ← zset tbl i (set_descriptor p e);
      if type e =? 0 then mbr_loop k' (i + 1) mbrb tbl lastPartition entendedFlag
      else if PARTTYPE_IS_EXTENDED (type e) then
        if negb (entendedFlag =? UNALLOCATED) then Some (Exits "More than one extended partition in MBR")
        else mbr_loop k' (i + 1) mbrb tbl lastPartition i
      else
        tbl ← zset tbl i (Part (name p) (s64 (eoffset e * BLOCKSIZE)) (u64 (esize e * BLOCKSIZE)) i e);
        mbr_loop k' (i + 1) mbrb tbl i entendedFlag
  end.

Section ops.
Context {D : Type} `{!VDOps D}.
Implicit Types d : D.

(** The chain of EBRs, for i from 5 to HOSTPARTITION_MAX. *)
Fixpoint ebr_loop (k : nat) (i uStart uOffset : Z) d (tbl : list Partition) (lastPartition : Z)
    : option (D * exits (list Partition * Z)) :=
  match k with
  | O => Some (d, Returns (tbl, lastPartition))
  | S k' =>
      let '(d, _, ebr) := VDRead d (u64 (uStart + uOffset + EBR_START)) BLOCKSIZE in
      signature ← le16_to_cpup ebr 510;
      desc ← entry_at ebr EBR_START;
      chain ← entry_at ebr (EBR_START + 16);
      if negb (signature =? 0xaa55) then Some (d, Exits "Invalid EBR signature found on image")
      else if type desc =? 0 then Some (d, Exits "Logical partition with type 0 encountered")
      else if eoffset desc =? 0 then Some (d, Exits "Logical partition invalid partition start offset encountered")
      else
        p ← tbl.[i];
        tbl ← zset tbl i (Part (name p) (s64 (uStart + uOffset + eoffset desc * BLOCKSIZE))
                               (u64 (esize desc * BLOCKSIZE)) i desc);
        if type chain =? 0 then Some (d, Returns (tbl, i))
        else if negb (PARTTYPE_IS_EXTENDED (type chain)) then Some (d, Exits "Logical partition chain broken")
        else ebr_loop k' (i + 1) uStart (eoffset chain) d tbl i
  end.

(** The block that chains down the EBRs, when there is an extended partition. *)
Definition read_ebrs d (tbl : list Partition) (lastPartition entendedFlag : Z)
    : option (D * exits (list Partition * Z)) :=
  if negb (entendedFlag =? UNALLOCATED) then
    p ← tbl.[entendedFlag];
    let uStart := s64 (eoffset (descriptor p) * BLOCKSIZE) in
    if uStart =? 0 then Some (d, Exits "Inconsistency for logical partition start. Aborting")
    else ebr_loop (Z.to_nat (HOSTPARTITION_MAX - 4)) 5 uStart 0 d tbl lastPartition
  else Some (d, Returns (tbl, lastPartition)).

(** [for (i = 1; i <= lastPartition; i++)]: name the partitions in use. *)
Fixpoint name_loop (k : nat) (i : Z) (tbl : list Partition) : option (list Partition) :=
  match k with
  | O => Some tbl
  | S k' =>
      p ← tbl.[i];
      tbl ← (if negb (no p =? UNALLOCATED) then zset tbl i (set_name p ("Partition" +:+ pretty i)) else Some tbl);
      name_loop k' (i + 1) tbl
  end.

Definition initialisePartitionTable d (tbl : list Partition) (lastPartition : Z)
    : option (D * exits (list Partition * Z)) :=
  tbl ← reset_table tbl;
  tbl ← zset tbl 0 (Part ENTIRE_DISK_STR 0 (VDGetSize d) 0 zero_entry);
  let '(d, _, mbrb) := VDRead d 0 BLOCKSIZE in
  signature ← le16_to_cpup mbrb 510;
  if signature =? 0 then Some (d, Returns (tbl, lastPartition))
  else if negb (signature =? 0xaa55) then Some (d, Exits "Invalid MBR found on image")
  else
    r ← mbr_loop 4 1 mbrb tbl lastPartition UNALLOCATED;
    match r with
    | Exits m => Some (d, Exits m)
    | Returns (tbl, lastPartition, entendedFlag) =>
        r ← read_ebrs d tbl lastPartition entendedFlag;
        match r with
        | (d, Exits m) => Some (d, Exits m)
        | (d, Returns (tbl, lastPartition)) =>
            tbl ← name_loop (Z.to_nat lastPartition) 1 tbl;
            Some (d, Returns (tbl, lastPartition))
        end
    end.
End ops.

(** The state the callbacks share, and the options of the mount. *)
Record vd_state := VD {
  partitionTable : list Partition; lastPartition : Z;
  entireDiskOpened : bool; partitionOpened : bool; opened : Z }.

(** The fields of struct stat that are set; the others are copied. *)
Record stat := Stat { st_mode : Z; st_nlink : Z; st_uid : Z; st_gid : Z; st_size : Z; st_blocks : Z }.

Record vd_config := Config { readonly : bool; allowall : bool; allowallw : bool; VDfile_stat : stat }.

Fixpoint find_loop (k : nat) (i : Z) (tbl : list Partition) (s : string) : option Z :=
  match k with
  | O => Some (-1)
  | S k' =>
      p ← tbl.[i];
      if negb (no p =? UNALLOCATED) && String.eqb s (name p) then Some i
      else find_loop k' (i + 1) tbl s
  end.

(** [filename + 1] of the empty string is past its terminator. *)
Definition findPartition (s : vd_state) (filename : string) : option Z :=
  match filename with
  | EmptyString => None
  | String _ rest => find_loop (Z.to_nat (lastPartition s + 1)) 0 (partitionTable s) rest
  end.

(** [buf]: the 8 bytes of the array after the read. *)
Definition detectDiskType (buf : list Z) : exits string :=
  if bool_decide (take 8 buf = [99; 111; 110; 101; 99; 116; 105; 120]) then Returns "VHD"%string
  else if bool_decide (take 4 buf = [86; 77; 68; 75]) then Returns "VMDK"%string
  else if bool_decide (take 4 buf = [75; 68; 77; 86]) then Returns "VMDK"%string
  else if bool_decide (take 3 buf = [60; 60; 60]) then Returns "VDI"%string
  else Exits "cannot autodetect disk type".

(** ** Command line *)

Record mount_opts := Opts {
  o_readonly : bool; o_foreground : bool; o_verbose : bool; o_allowall : bool; o_allowallw : bool; o_debug : bool;
  diskType : string; differencing : list string; imagefilename : option string }.

Definition default_opts : mount_opts := Opts false false false false false false "auto" [] None.

Definition DIFFERENCING_MAX : Z := 100.

(** One option from getopt, with its argument. *)
Definition getopt_step (o : mount_opts) (c : ascii) (optarg : string) : exits mount_opts :=
  let 'Opts r g v a w d t s f := o in
  if Ascii.eqb c "r" then Returns (Opts true g v a w d t s f)
  else if Ascii.eqb c "g" then Returns (Opts r true v a w d t s f)
  else if Ascii.eqb c "v" then Returns (Opts r g true a w d t s f)
  else if Ascii.eqb c "a" then Returns (Opts r g v true w d t s f)
  else if Ascii.eqb c "w" then Returns (Opts r g v true true d t s f)
  else if Ascii.eqb c "t" then Returns (Opts r g v a w d optarg s f)
  else if Ascii.eqb c "s" then
    if zlen s =? DIFFERENCING_MAX then Exits "Too many differencing disks"
    else Returns (Opts r g v a w d t (s ++ [optarg]) f)
  else if Ascii.eqb c "f" then Returns (Opts r g v a w d t s (Some optarg))
  else if Ascii.eqb c "d" then Returns (Opts r true v a w true t s f)
  else if Ascii.eqb c "h" then Exits ""
  else if Ascii.eqb c "?" then Exits "Unknown option"
  else Returns o.

Fixpoint getopt_loop (o : mount_opts) (opts : list (ascii * string)) : exits mount_opts :=
  match opts with
  | [] => Returns o
  | (c, optarg) :: opts =>
      match getopt_step o c optarg with
      | Returns o => getopt_loop o opts
      | Exits m => Exits m
      end
  end.

Definition IS_TYPE (o : mount_opts) (s : string) : bool := String.eqb s (diskType o).

(** The validation, up to the opening of the disk: [mountpoints] are the
    arguments after the options; [can_stat] and [can_access] what stat and
    access report; [magic] the first bytes of a file. *)
Definition validate_opts (o : mount_opts) (mountpoints : list string) (can_stat : string -> bool)
    (can_access : string -> bool -> bool) (magic : string -> list Z) : exits (string * string * string) :=
  match mountpoints, imagefilename o with
  | [mountpoint], Some image =>
      if negb (can_stat image) then Exits "cannot access imagefile"
      else if negb (can_access image (negb (o_readonly o))) then Exits "cannot access imagefile"
      else if negb (forallb (fun f => can_access f (negb (o_readonly o))) (differencing o))
        then Exits "cannot access differencing imagefile"
      else if negb (IS_TYPE o "auto" || IS_TYPE o "VDI" || IS_TYPE o "VMDK" || IS_TYPE o "VHD" || IS_TYPE o "auto")
        then Exits "invalid disk type specified"
      else if IS_TYPE o "auto" then
        match detectDiskType (magic image) with
        | Returns ty => Returns (ty, image, mountpoint)
        | Exits m => Exits m
        end
      else Returns (diskType o, image, mountpoint)
  | [_], None => Exits "no image chosen"
  | _, _ => Exits "a single mountpoint must be specified"
  end.

(** ** Callbacks *)

Definition S_IFDIR : Z := 0x4000.
Definition S_IFREG : Z := 0x8000.
Definition S_IRUSR : Z := 256.
Definition S_IWUSR : Z := 128.
Definition S_IXUSR : Z := 64.
Definition S_IRGRP : Z := 32.
Definition S_IWGRP : Z := 16.
Definition S_IXGRP : Z := 8.
Definition S_IROTH : Z := 4.
Definition S_IWOTH : Z := 2.
Definition O_WRONLY : Z := 1.
Definition O_RDWR : Z := 2.

Definition mode_if (b : bool) (m bits : Z) : Z := if b then Z.lor m bits else m.

Definition VD_getattr (cfg : vd_config) (s : vd_state) (p : string) : option (result stat) :=
  let isFileRoot := String.eqb "/" p in
  n ← findPartition s p;
  if negb isFileRoot && (n =? -1) then Some (Err ENOENT)
  else
    let st0 := VDfile_stat cfg in
    r ← (if isFileRoot then
           Some (mode_if (allowall cfg) (Z.lor S_IFDIR (Z.lor S_IRUSR (Z.lor S_IXUSR (Z.lor S_IRGRP S_IXGRP)))) S_IROTH, 0, 2)
         else
           q ← (partitionTable s).[n];
           let sz := s64 (size q) in
           Some (mode_if (allowallw cfg) (mode_if (allowall cfg) (Z.lor S_IFREG (Z.lor S_IRUSR S_IWUSR)) (Z.lor S_IRGRP S_IROTH))
                   (Z.lor S_IWGRP S_IWOTH),
                 sz, Z.quot (sz + BLOCKSIZE - 1) BLOCKSIZE));
    let '(mode, sz, blocks) := r in
    let mode := if readonly cfg then Z.land mode (Z.lnot (Z.lor S_IWUSR (Z.lor S_IWGRP S_IWOTH))) else mode in
    Some (Ok (Stat mode 1 (st_uid st0) (st_gid st0) sz blocks)).

(** VD_open up to its last return: the partition's number, or the error. *)
Definition open_guard (cfg : vd_config) (s : vd_state) (cName : string) (flags : Z) : option (result Z) :=
  n ← findPartition s cName;
  if (n =? -1) || (entireDiskOpened s && (0 <? n)) || (partitionOpened s && (n =? 0)) then Some (Err ENOENT)
  else if readonly cfg && negb (Z.land flags (Z.lor O_WRONLY O_RDWR) =? 0) then Some (Err EROFS)
  else Some (Ok n).

(** The assignments that follow. *)
Definition open_commit (s : vd_state) (n : Z) : vd_state :=
  VD (partitionTable s) (lastPartition s)
     (if n =? 0 then true else entireDiskOpened s)
     (if n =? 0 then partitionOpened s else true)
     (s32 (opened s + 1)).

Definition VD_open (cfg : vd_config) (s : vd_state) (cName : string) (flags : Z) : option (vd_state * result unit) :=
  r ← open_guard cfg s cName flags;
  match r with
  | Err e => Some (s, Err e)
  | Ok n => Some (open_commit s n, Ok tt)
  end.

Definition VD_readdir (s : vd_state) (p : string) : option (result (list string)) :=
  if negb (String.eqb "/" p) then Some (Err ENOENT)
  else
    ps ← zread (partitionTable s) 0 (lastPartition s + 1);
    Some (Ok ("."%string :: ".."%string :: (name <$> filter (fun q => negb (no q =? UNALLOCATED) = true) ps))).

Section io.
Context {D : Type} `{!VDOps D}.
Implicit Types d : D.

Definition VD_release d (s : vd_state) : option (D * exits vd_state) :=
  let opened := s32 (opened s - 1) in
  if opened =? 0 then
    r ← initialisePartitionTable d (partitionTable s) (lastPartition s);
    match r with
    | (d, Exits m) => Some (d, Exits m)
    | (d, Returns (tbl, last)) => Some (d, Returns (VD tbl last false false opened))
    end
  else
    Some (d, Returns (VD (partitionTable s) (lastPartition s) (entireDiskOpened s) (partitionOpened s) opened)).

(** [if (offset >= p->size) return 0; if (offset + len > p->size) len = ..] on
    uint64_t. *)
Definition clip (p : Partition) (len off : Z) : option Z :=
  if size p <=? u64 off then None
  else Some (if size p <? u64 (off + len) then u64 (size p - off) else len).

(** The buffer [out] is given with its contents. *)
Definition VD_read d (s : vd_state) (c : string) (out : list Z) (len off : Z) : option (D * list Z * result Z) :=
  n ← findPartition s c;
  if n <? 0 then Some (d, out, Err ENOENT)
  else if (if n =? 0 then partitionOpened s else entireDiskOpened s) then Some (d, out, Err EIO)
  else
    p ← (partitionTable s).[n];
    match clip p len off with
    | None => Some (d, out, Ok 0)
    | Some len =>
        let '(d, ret, bs) := VDRead d (u64 (off + offset p)) len in
        out ← zwrite out 0 bs;
        Some (d, out, if RT_SUCCESS ret then Ok (s32 len) else Err EIO)
    end.

Definition VD_write d (s : vd_state) (c : string) (inp : list Z) (len off : Z) : option (D * result Z) :=
  n ← findPartition s c;
  if n <? 0 then Some (d, Err ENOENT)
  else if (if n =? 0 then partitionOpened s else entireDiskOpened s) then Some (d, Err EIO)
  else
    p ← (partitionTable s).[n];
    match clip p len off with
    | None => Some (d, Ok 0)
    | Some len =>
        bs ← zread inp 0 len;
        let '(d, ret) := VDWrite d (u64 (off + offset p)) bs in
        Some (d, if RT_SUCCESS ret then Ok (s32 len) else Err EIO)
    end.

Definition VD_flush d : D := VDFlush d.
End io.

(** ** Entries *)

Lemma zget_some {A} (l : list A) i : 0 <= i < zlen l -> is_Some (l.[i]).
Proof. intros (x & ->)%zget_inside. eauto. Qed.

Lemma entry_at_inside b a : 0 <= a -> a + 16 <= zlen b -> exists e, entry_at b a = Some e.
Proof.
  intros. unfold entry_at.
  destruct (zget_inside b a) as [x ->]; [lia|]. cbn [mbind option_bind].
  rewrite zread_inside by lia. cbn [mbind option_bind].
  destruct (zget_inside b (a + 4)) as [y ->]; [lia|]. cbn [mbind option_bind].
  rewrite zread_inside by lia. cbn [mbind option_bind].
  destruct (ld_inside 4 b (a + 8)) as [o ->]; [lia..|]. cbn [mbind option_bind].
  destruct (ld_inside 4 b (a + 12)) as [s ->]; [lia..|]. cbn. eauto.
Qed.

Lemma entry_range b a e : wf_bytes b -> entry_at b a = Some e ->
  0 <= eoffset e < 2 ^ 32 /\ 0 <= esize e < 2 ^ 32.
Proof.
  intros Hb H. unfold entry_at in H. opt_inv. cbn [eoffset esize]. split; by eapply (ld_range 4).
Qed.

(** A block read from the image decodes as the image does. *)
Lemma entry_at_sub m a n xs b : zread m a n = Some xs -> 0 <= b -> b + 16 <= n -> entry_at xs b = entry_at m (a + b).
Proof.
  intros H Hb Hn. unfold entry_at.
  rewrite !(zread_get _ _ _ _ _ H), !(zread_sub _ _ _ _ _ _ H), !(ld_sub _ _ _ _ _ _ H) by lia.
  by rewrite !Z.add_assoc.
Qed.

(** ** The loops over the table *)

Lemma reset_loop_spec k i tbl : 0 <= i -> i + Z.of_nat k <= zlen tbl ->
  exists tbl', reset_loop k i tbl = Some tbl' /\ zlen tbl' = zlen tbl /\
    forall j, tbl'.[j] = if (i <=? j) && (j <? i + Z.of_nat k) then (fun p => set_no p UNALLOCATED) <$> tbl.[j] else tbl.[j].
Proof.
  revert i tbl; induction k as [|k IH]; intros i tbl Hi Hk.
  { exists tbl. split_and!; [done | done |]. intros j. destruct (Z.leb_spec i j), (Z.ltb_spec j (i + Z.of_nat 0)); done || lia. }
  cbn [reset_loop]. destruct (zget_inside tbl i) as [p Hp]; [lia|]. rewrite Hp. cbn [mbind option_bind].
  destruct (zset tbl i _) as [tbl1|] eqn:E; [|rewrite zset_inside in E by lia; done]. cbn [mbind option_bind].
  apply zset_Some in E as (_ & Hl & Hg). destruct (IH (i + 1) tbl1) as (tbl' & -> & Hl' & Hg'); [lia.. |].
  exists tbl'. split_and!; [done | lia |]. intros j. rewrite Hg', Hg.
  destruct (Z.eqb_spec j i) as [->|].
  - rewrite Hp. destruct (Z.leb_spec (i + 1) i), (Z.leb_spec i i), (Z.ltb_spec i (i + Z.of_nat (S k))); cbn; done || lia.
  - destruct (Z.leb_spec (i + 1) j), (Z.ltb_spec j (i + 1 + Z.of_nat k)), (Z.leb_spec i j), (Z.ltb_spec j (i + Z.of_nat (S k)));
      cbn; done || lia.
Qed.

Lemma reset_table_spec tbl : zlen tbl = HOSTPARTITION_MAX + 2 ->
  exists tbl', reset_table tbl = Some tbl' /\ zlen tbl' = HOSTPARTITION_MAX + 2 /\
    forall j, 0 <= j <= HOSTPARTITION_MAX -> tbl'.[j] = Some (set_no zero_partition UNALLOCATED).
Proof.
  unfold reset_table, HOSTPARTITION_MAX. intros Hl.
  destruct (zwrite tbl 0 _) as [t1|] eqn:E; [|rewrite zwrite_inside in E by (rewrite ?zlen_replicate; lia); done].
  cbn [mbind option_bind]. pose proof (zwrite_Some _ _ _ _ E) as (_ & _ & Hl1 & _).
  destruct (reset_loop_spec (Z.to_nat (100 + 2)) 0 t1) as (tbl' & -> & Hl' & Hg); [lia.. |].
  exists tbl'. split_and!; [done | lia |]. intros j Hj. rewrite Hg.
  rewrite (proj2 (Z.leb_le 0 j)), (proj2 (Z.ltb_lt j _)) by lia. cbn [andb].
  replace j with (0 + j) by lia. rewrite (zwrite_get _ _ _ _ _ E) by (rewrite zlen_replicate; lia).
  unfold zget. rewrite (proj2 (Z.ltb_ge j 0)) by lia. rewrite lookup_replicate_2 by lia. done.
Qed.

Lemma name_loop_spec k i tbl : 0 <= i -> i + Z.of_nat k <= zlen tbl ->
  exists tbl', name_loop k i tbl = Some tbl' /\ zlen tbl' = zlen tbl /\
    forall j, tbl'.[j] = if (i <=? j) && (j <? i + Z.of_nat k)
      then (fun p => if no p =? UNALLOCATED then p else set_name p ("Partition" +:+ pretty j)) <$> tbl.[j] else tbl.[j].
Proof.
  revert i tbl; induction k as [|k IH]; intros i tbl Hi Hk.
  { exists tbl. split_and!; [done | done |]. intros j. destruct (Z.leb_spec i j), (Z.ltb_spec j (i + Z.of_nat 0)); done || lia. }
  cbn [name_loop]. destruct (zget_inside tbl i) as [p Hp]; [lia|]. rewrite Hp. cbn [mbind option_bind].
  assert (exists tbl1, (if negb (no p =? UNALLOCATED) then zset tbl i (set_name p ("Partition" +:+ pretty i)) else Some tbl)
      = Some tbl1 /\ zlen tbl1 = zlen tbl /\ forall j, tbl1.[j] = if j =? i
        then Some (if no p =? UNALLOCATED then p else set_name p ("Partition" +:+ pretty i)) else tbl.[j]) as (tbl1 & -> & Hl & Hg).
  { destruct (no p =? UNALLOCATED); cbn [negb].
    - exists tbl. split_and!; [done..|]. intros j. by destruct (Z.eqb_spec j i) as [->|].
    - destruct (zset tbl i _) as [t|] eqn:E; [|rewrite zset_inside in E by lia; done].
      apply zset_Some in E as (_ & ? & ?). by exists t. }
  cbn [mbind option_bind]. destruct (IH (i + 1) tbl1) as (tbl' & -> & Hl' & Hg'); [lia.. |].
  exists tbl'. split_and!; [done | lia |]. intros j. rewrite Hg', Hg.
  destruct (Z.eqb_spec j i) as [->|].
  - rewrite Hp. destruct (Z.leb_spec (i + 1) i), (Z.leb_spec i i), (Z.ltb_spec i (i + Z.of_nat (S k))); cbn; done || lia.
  - destruct (Z.leb_spec (i + 1) j), (Z.ltb_spec j (i + 1 + Z.of_nat k)), (Z.leb_spec i j), (Z.ltb_spec j (i + Z.of_nat (S k)));
      cbn; done || lia.
Qed.

(** What one MBR entry makes of its slot. *)
Definition mbr_slot (i : Z) (p : Partition) (e : MBRentry) : Partition :=
  if (type e =? 0) || PARTTYPE_IS_EXTENDED (type e) then set_descriptor p e
  else Part (name p) (s64 (eoffset e * BLOCKSIZE)) (u64 (esize e * BLOCKSIZE)) i e.

Definition mbr_entry (mbrb : list Z) (i : Z) : option MBRentry := entry_at mbrb (MBR_START + (i - 1) * 16).

(** A slot in use after the MBR, for a slot that was not. *)
Definition in_use (e : MBRentry) : bool := negb ((type e =? 0) || PARTTYPE_IS_EXTENDED (type e)).

(** The four MBR entries: either two extended partitions are met, or every
    slot holds its entry, and lastPartition and the extended slot follow. *)
Lemma mbr_loop_spec k i mbrb tbl last ext : zlen mbrb = BLOCKSIZE -> 1 <= i -> i + Z.of_nat k <= 5 ->
  5 <= zlen tbl -> ext < i ->
  exists r, mbr_loop k i mbrb tbl last ext = Some r /\
    match r with
    | Returns (tbl', last', ext') =>
        zlen tbl' = zlen tbl /\
        (forall j, tbl'.[j] = if (i <=? j) && (j <? i + Z.of_nat k)
           then p ← tbl.[j]; e ← mbr_entry mbrb j; Some (mbr_slot j p e) else tbl.[j]) /\
        (last' = last \/ i <= last' < i + Z.of_nat k) /\
        (forall j e, i <= j < i + Z.of_nat k -> mbr_entry mbrb j = Some e -> in_use e = true -> i <= last' /\ j <= last') /\
        (ext' = ext \/ i <= ext' < i + Z.of_nat k) /\
        ((forall j e, i <= j < i + Z.of_nat k -> mbr_entry mbrb j = Some e -> PARTTYPE_IS_EXTENDED (type e) = false) -> ext' = ext)
    | Exits _ => exists j e, i <= j < i + Z.of_nat k /\ mbr_entry mbrb j = Some e /\ PARTTYPE_IS_EXTENDED (type e) = true
    end.
Proof.
  intros Hm. revert i tbl last ext; induction k as [|k IH]; intros i tbl last ext Hi Hk Ht Hx.
  { exists (Returns (tbl, last, ext)). split; [done|]. split_and!; try done; try lia; try (by left).
    intros j. destruct (Z.leb_spec i j), (Z.ltb_spec j (i + Z.of_nat 0)); done || lia. }
  cbn [mbr_loop]. fold (mbr_entry mbrb i).
  destruct (entry_at_inside mbrb (MBR_START + (i - 1) * 16)) as [e He]; [unfold MBR_START, BLOCKSIZE in *; lia.. |].
  fold (mbr_entry mbrb i) in He. rewrite He. cbn [mbind option_bind].
  destruct (zget_inside tbl i) as [p Hp]; [lia|]. rewrite Hp. cbn [mbind option_bind].
  destruct (zset tbl i (set_descriptor p e)) as [t1|] eqn:E1; [|rewrite zset_inside in E1 by lia; done].
  cbn [mbind option_bind]. apply zset_Some in E1 as (_ & Hl1 & Hg1).
  assert (forall t', zlen t' = zlen tbl -> (forall j, t'.[j] = if j =? i then Some (mbr_slot i p e) else tbl.[j]) ->
    forall tbl', (forall j, tbl'.[j] = if (i + 1 <=? j) && (j <? i + 1 + Z.of_nat k)
           then p ← t'.[j]; e ← mbr_entry mbrb j; Some (mbr_slot j p e) else t'.[j]) ->
    forall j, tbl'.[j] = if (i <=? j) && (j <? i + Z.of_nat (S k))
           then p ← tbl.[j]; e ← mbr_entry mbrb j; Some (mbr_slot j p e) else tbl.[j]) as Hstep.
  { intros t' _ Ht' tbl' Hg j. rewrite Hg, Ht'. destruct (Z.eqb_spec j i) as [->|].
    - destruct (Z.leb_spec (i + 1) i), (Z.leb_spec i i), (Z.ltb_spec i (i + Z.of_nat (S k))); try lia.
      cbn. by rewrite Hp, He.
    - destruct (Z.leb_spec (i + 1) j), (Z.ltb_spec j (i + 1 + Z.of_nat k)), (Z.leb_spec i j), (Z.ltb_spec j (i + Z.of_nat (S k)));
        cbn [andb]; done || lia. }
  unfold mbr_slot in Hstep at 1. unfold in_use.
  destruct (Z.eqb_spec (type e) 0) as [Hty|Hty]; cbn [orb] in Hstep.
  { destruct (IH (i + 1) t1 last ext) as (r & -> & Hr); [lia.. |]. exists r. split; [done|].
    destruct r as [[[tbl' last'] ext']|m].
    - destruct Hr as (L & G & B & U & X & N). split_and!; [lia | eapply Hstep; eauto | lia | | lia |].
      + intros j e' Hj He' Huse. destruct (decide (j = i)) as [->|]; [|destruct (U j e'); [lia | done | done | lia]].
        rewrite He in He'. injection He' as <-. by rewrite Hty in Huse.
      + intros H. apply N. intros j e' Hj. apply H. lia.
    - destruct Hr as (j & e' & Hj & ?). exists j, e'. split; [lia | done]. }
  destruct (PARTTYPE_IS_EXTENDED (type e)) eqn:Hext; cbn [orb] in Hstep.
  { destruct (Z.eqb_spec ext UNALLOCATED); cbn [negb].
    - destruct (IH (i + 1) t1 last i) as (r & -> & Hr); [lia.. |]. exists r. split; [done|].
      destruct r as [[[tbl' last'] ext']|m].
      + destruct Hr as (L & G & B & U & X & N). split_and!; [lia | eapply Hstep; eauto | lia | | lia |].
        * intros j e' Hj He' Huse. destruct (decide (j = i)) as [->|]; [|destruct (U j e'); [lia | done | done | lia]].
          rewrite He in He'. injection He' as <-. rewrite Hext, orb_true_r in Huse. done.
        * intros H. rewrite (H i e) in Hext by (done || lia). done.
      + destruct Hr as (j & e' & Hj & ?). exists j, e'. split; [lia | done].
    - exists (Exits "More than one extended partition in MBR"). split; [done|]. exists i, e. split; [lia | done]. }
  destruct (zset t1 i _) as [t2|] eqn:E2; [|rewrite zset_inside in E2 by lia; done].
  cbn [mbind option_bind]. apply zset_Some in E2 as (_ & Hl2 & Hg2).
  destruct (IH (i + 1) t2 i ext) as (r & -> & Hr); [lia.. |]. exists r. split; [done|].
  destruct r as [[[tbl' last'] ext']|m].
  - destruct Hr as (L & G & B & U & X & N). split_and!; [lia | | lia | | lia |].
    + apply (Hstep t2); [lia | | done]. intros j. rewrite Hg2, Hg1. by destruct (Z.eqb_spec j i).
    + intros j e' Hj He' Huse. destruct (decide (j = i)) as [->|]; [lia|]. destruct (U j e'); [lia | done | done | lia].
    + intros H. apply N. intros j e' Hj. apply H. lia.
  - destruct Hr as (j & e' & Hj & ?). exists j, e'. split; [lia | done].
Qed.

(** ** Well-formed tables *)

Definition entire (sz : Z) : Partition := Part ENTIRE_DISK_STR 0 sz 0 zero_entry.

(** The whole disk is entry 0; an entry in use carries its own number, at most
    lastPartition, and once the table is complete its name. *)
Record table_ok (named : bool) (sz : Z) (tbl : list Partition) (last : Z) : Prop := {
  table_len : zlen tbl = HOSTPARTITION_MAX + 2;
  table_last : 0 <= last <= HOSTPARTITION_MAX;
  table_entire : tbl.[0] = Some (entire sz);
  table_slot i p : 1 <= i <= HOSTPARTITION_MAX -> tbl.[i] = Some p -> no p <> UNALLOCATED ->
    no p = i /\ i <= last /\ 0 <= offset p < 2 ^ 43 /\ 0 <= size p < 2 ^ 41 /\
    (named = true -> name p = "Partition" +:+ pretty i) }.

Definition wf_table := table_ok true.

(** The slots from [i] on are not in use. *)
Definition free_from (i : Z) (tbl : list Partition) : Prop :=
  forall j p, i <= j <= HOSTPARTITION_MAX -> tbl.[j] = Some p -> no p = UNALLOCATED.

Lemma table_ok_set sz tbl last i p tbl' : table_ok false sz tbl last -> 1 <= i <= HOSTPARTITION_MAX -> free_from i tbl ->
  zset tbl i p = Some tbl' -> no p = i -> 0 <= offset p < 2 ^ 43 -> 0 <= size p < 2 ^ 41 -> table_ok false sz tbl' i.
Proof.
  intros [L R Z0 S] Hi Hf (_ & Hl' & Hg)%zset_Some Hn Ho Hs. unfold free_from, HOSTPARTITION_MAX in *. split; unfold HOSTPARTITION_MAX.
  - lia.
  - lia.
  - rewrite Hg. by rewrite (proj2 (Z.eqb_neq 0 i)) by lia.
  - intros j q Hj. rewrite Hg. destruct (Z.eqb_spec j i) as [->|].
    + intros [= <-] _. split_and!; done || lia.
    + intros Hq Hno. destruct (S j q Hj Hq Hno) as (? & ? & ? & ? & ?).
      destruct (Z.le_gt_cases i j); [destruct Hno; apply (Hf j); done || lia | split_and!; done || lia].
Qed.

Lemma table_ok_name sz tbl last : table_ok false sz tbl last ->
  exists tbl', name_loop (Z.to_nat last) 1 tbl = Some tbl' /\ wf_table sz tbl' last.
Proof.
  intros [L R Z0 S]. destruct (name_loop_spec (Z.to_nat last) 1 tbl) as (tbl' & E & Hl & Hg);
    [lia | unfold HOSTPARTITION_MAX in *; lia |].
  exists tbl'. split; [done|]. split; [by rewrite Hl | done | by rewrite Hg |].
  intros i p Hi. rewrite Hg. unfold HOSTPARTITION_MAX in *. destruct (Z.leb_spec 1 i); [|lia].
  destruct (zget_inside tbl i) as [q Hq]; [lia|]. rewrite Hq.
  destruct (Z.ltb_spec i (1 + Z.of_nat (Z.to_nat last))); cbn [andb fmap option_fmap option_map].
  - destruct (Z.eqb_spec (no q) UNALLOCATED); intros [= <-] Hno; [done|].
    destruct (S i q Hi Hq Hno) as (? & ? & ? & ? & ?). cbn. split_and!; done || lia.
  - intros [= <-] Hno. destruct (S i q Hi Hq Hno) as (? & ? & ? & ? & ?). lia.
Qed.

(** The slots the MBR sets are in range. *)
Lemma mbr_slot_ok i p e : 1 <= i -> no p = UNALLOCATED -> 0 <= eoffset e < 2 ^ 32 -> 0 <= esize e < 2 ^ 32 ->
  no (mbr_slot i p e) <> UNALLOCATED -> in_use e = true /\ no (mbr_slot i p e) = i /\
    offset (mbr_slot i p e) = eoffset e * BLOCKSIZE /\ size (mbr_slot i p e) = esize e * BLOCKSIZE.
Proof.
  intros Hi Hp Ho Hs. unfold mbr_slot, in_use. destruct (_ || _); [done|]. cbn. intros _. unfold BLOCKSIZE.
  split_and!; [done | done | apply s64_small; unfold in_s64; lia | apply wrap_u_small; lia].
Qed.

Lemma table_ok_mbr sz tbl last mbrb tbl' last' ext' :
  zlen mbrb = BLOCKSIZE -> wf_bytes mbrb -> table_ok false sz tbl last ->
  free_from 1 tbl ->
  mbr_loop 4 1 mbrb tbl last UNALLOCATED = Some (Returns (tbl', last', ext')) ->
  table_ok false sz tbl' last' /\ (ext' = UNALLOCATED \/ 1 <= ext' <= 4) /\
  free_from 5 tbl' /\
  (forall i p, 1 <= i <= 4 -> tbl'.[i] = Some p -> 0 <= eoffset (descriptor p) < 2 ^ 32).
Proof.
  intros Hm Hw [L R Z0 S] Hfree E. unfold free_from, HOSTPARTITION_MAX in *.
  destruct (mbr_loop_spec 4 1 mbrb tbl last UNALLOCATED) as (r & E' & Hr); [done | lia | lia | lia | unfold UNALLOCATED; lia |].
  rewrite E in E'. injection E' as <-. destruct Hr as (Hl & Hg & Hb & Hu & Hx & _).
  split_and!; [|lia | |].
  2: { intros i p Hi. rewrite Hg. destruct (Z.leb_spec 1 i), (Z.ltb_spec i (1 + Z.of_nat 4)); cbn [andb]; try lia.
       apply Hfree. unfold HOSTPARTITION_MAX in *. lia. }
  2: { intros i p Hi. rewrite Hg. destruct (Z.leb_spec 1 i), (Z.ltb_spec i (1 + Z.of_nat 4)); cbn [andb]; try lia.
       destruct (tbl.[i]) as [q|]; cbn [mbind option_bind]; [|done].
       destruct (mbr_entry mbrb i) as [e|] eqn:He; cbn [mbind option_bind]; [|done]. intros [= <-].
       destruct (entry_range _ _ _ Hw He). unfold mbr_slot. by destruct (_ || _). }
  split; unfold HOSTPARTITION_MAX; [lia | lia | by rewrite Hg |].
  intros i p Hi. rewrite Hg. destruct (Z.leb_spec 1 i); [|lia].
  destruct (zget_inside tbl i) as [q Hq]; [lia|]. rewrite Hq.
  destruct (Z.ltb_spec i (1 + Z.of_nat 4)) as [Hi4|]; cbn [andb mbind option_bind];
    [|intros [= <-] Hno; destruct Hno; by apply (Hfree i)].
  destruct (mbr_entry mbrb i) as [e|] eqn:He; cbn [mbind option_bind]; [|done]. intros [= <-] Hno.
  pose proof (entry_range _ _ _ Hw He) as [Ho Hs]. specialize (Hfree i q ltac:(lia) Hq).
  destruct (mbr_slot_ok i q e) as (Huse & Hn & Hof & Hsz); [lia | done.. |].
  destruct (Hu i e ltac:(lia) He Huse). rewrite Hn, Hof, Hsz. unfold BLOCKSIZE. split_and!; done || lia.
Qed.

Section laws.
Context {D : Type} `{VDLaws D}.
Implicit Types d : D.

(** The EBR chain keeps the table well formed, or ends the process. *)
Lemma ebr_loop_spec k i uStart uOffset d tbl last sz :
  table_ok false sz tbl last -> free_from i tbl -> 5 <= i -> i + Z.of_nat k <= HOSTPARTITION_MAX + 1 ->
  0 <= uStart < 2 ^ 41 -> 0 <= uOffset < 2 ^ 32 -> wf_bytes (vd_data d) ->
  exists d' r, ebr_loop k i uStart uOffset d tbl last = Some (d', r) /\ vd_data d' = vd_data d /\
    match r with Returns (tbl', last') => table_ok false sz tbl' last' | Exits _ => True end.
Proof.
  revert i uOffset d tbl last; induction k as [|k IH]; intros i uOffset d tbl last Ht Hf Hi Hk Hs Ho Hwb.
  { exists d, (Returns (tbl, last)). done. }
  cbn [ebr_loop]. destruct (VDRead d _ BLOCKSIZE) as [[d1 rc] ebr] eqn:E.
  apply VDRead_law in E as (Hd & Hlen & Hw & _); [|unfold BLOCKSIZE; lia]. specialize (Hw Hwb). unfold BLOCKSIZE in Hlen.
  destruct (ld_inside 2 ebr 510) as [sg Hsg]; [lia..|]. unfold le16_to_cpup. rewrite Hsg. cbn [mbind option_bind].
  destruct (entry_at_inside ebr EBR_START) as [e He]; [unfold EBR_START; lia..|].
  destruct (entry_at_inside ebr (EBR_START + 16)) as [c Hc]; [unfold EBR_START; lia..|].
  rewrite He, Hc. cbn [mbind option_bind].
  pose proof (entry_range _ _ _ Hw He) as [Heo Hes]. pose proof (entry_range _ _ _ Hw Hc) as [Hco _].
  repeat (guard_case; [by eexists _, _ |]).
  pose proof (table_len _ _ _ _ Ht). unfold HOSTPARTITION_MAX in *.
  destruct (zget_inside tbl i) as [p Hp]; [lia|]. rewrite Hp. cbn [mbind option_bind].
  assert (s64 (uStart + uOffset + eoffset e * BLOCKSIZE) = uStart + uOffset + eoffset e * BLOCKSIZE) as ->
    by (unfold BLOCKSIZE; apply s64_small; unfold in_s64; lia).
  assert (u64 (esize e * BLOCKSIZE) = esize e * BLOCKSIZE) as -> by (unfold BLOCKSIZE; apply wrap_u_small; lia).
  destruct (zset tbl i _) as [tbl1|] eqn:E1; [|rewrite zset_inside in E1 by lia; done]. cbn [mbind option_bind].
  assert (table_ok false sz tbl1 i) as Ht1.
  { eapply table_ok_set; [done | unfold HOSTPARTITION_MAX; lia | done | done | done | |]; cbn; unfold BLOCKSIZE; lia. }
  apply zset_Some in E1 as (_ & _ & Hg).
  guard_case; [by eexists _, _|]. guard_case; [by eexists _, _|].
  destruct (IH (i + 1) (eoffset c) d1 tbl1 i) as (d' & r & E2 & Hd' & Hr); [done | | lia | lia | lia | lia | by rewrite Hd |].
  { intros j q Hj. rewrite Hg, (proj2 (Z.eqb_neq j i)) by lia. apply Hf. lia. }
  exists d', r. rewrite Hd', Hd. done.
Qed.

Lemma read_ebrs_spec d tbl last ext sz :
  table_ok false sz tbl last -> free_from 5 tbl -> ext = UNALLOCATED \/ 1 <= ext <= 4 ->
  (forall p, 1 <= ext <= 4 -> tbl.[ext] = Some p -> 0 <= eoffset (descriptor p) < 2 ^ 32) -> wf_bytes (vd_data d) ->
  exists d' r, read_ebrs d tbl last ext = Some (d', r) /\ vd_data d' = vd_data d /\
    match r with Returns (tbl', last') => table_ok false sz tbl' last' | Exits _ => True end.
Proof.
  intros Ht Hf Hext Hd Hwb. unfold read_ebrs.
  destruct (Z.eqb_spec ext UNALLOCATED); cbn [negb]; [by eexists _, (Returns (tbl, last))|].
  destruct Hext as [|Hext]; [done|]. pose proof (table_len _ _ _ _ Ht). unfold HOSTPARTITION_MAX in *.
  destruct (zget_inside tbl ext) as [p Hp]; [lia|]. rewrite Hp. cbn [mbind option_bind].
  specialize (Hd p Hext Hp). rewrite s64_small by (unfold in_s64, BLOCKSIZE; lia).
  guard_case; [by eexists _, _|].
  apply ebr_loop_spec; unfold HOSTPARTITION_MAX, BLOCKSIZE; done || lia.
Qed.
End laws.

Section init.
Context {D : Type} `{VDLaws D}.
Implicit Types d : D.

(** The table before the MBR is looked at. *)
Lemma fresh_table tbl last sz : zlen tbl = HOSTPARTITION_MAX + 2 -> 0 <= last <= HOSTPARTITION_MAX ->
  exists t0 t1, reset_table tbl = Some t0 /\ zset t0 0 (Part ENTIRE_DISK_STR 0 sz 0 zero_entry) = Some t1 /\
    table_ok false sz t1 last /\
    forall i, 1 <= i <= HOSTPARTITION_MAX -> t1.[i] = Some (set_no zero_partition UNALLOCATED).
Proof.
  intros Hl Hr. destruct (reset_table_spec tbl Hl) as (t0 & E0 & Hl0 & Hg0).
  destruct (zset t0 0 (entire sz)) as [t1|] eqn:E1;
    [|rewrite zset_inside in E1 by (unfold HOSTPARTITION_MAX in *; lia); done].
  exists t0, t1. apply zset_Some in E1 as E2. destruct E2 as (_ & Hl1 & Hg1).
  assert (forall i, 1 <= i <= HOSTPARTITION_MAX -> t1.[i] = Some (set_no zero_partition UNALLOCATED)) as Hfree.
  { intros i Hi. rewrite Hg1, (proj2 (Z.eqb_neq i 0)) by lia. apply Hg0. lia. }
  split_and!; [done | done | | done]. split; [lia | done | by rewrite Hg1 |].
  intros i p Hi Hp Hn. rewrite Hfree in Hp by lia. injection Hp as <-. done.
Qed.

Lemma fresh_free tbl : (forall i, 1 <= i <= HOSTPARTITION_MAX -> tbl.[i] = Some (set_no zero_partition UNALLOCATED)) ->
  free_from 1 tbl.
Proof. intros Hf i p Hi. rewrite Hf by lia. by intros [= <-]. Qed.

Lemma table_ok_named sz tbl last : table_ok false sz tbl last -> free_from 1 tbl -> wf_table sz tbl last.
Proof.
  intros [L R Z0 S] Hf. split; [done..|]. intros i p Hi Hp Hn. destruct Hn. by apply (Hf i).
Qed.

Lemma init_table_spec d tbl last : zlen tbl = HOSTPARTITION_MAX + 2 -> 0 <= last <= HOSTPARTITION_MAX ->
  wf_bytes (vd_data d) ->
  exists d' r, initialisePartitionTable d tbl last = Some (d', r) /\ vd_data d' = vd_data d /\
    match r with Returns (tbl', last') => wf_table (zlen (vd_data d)) tbl' last' | Exits _ => True end.
Proof.
  intros Hl Hr Hwb. unfold initialisePartitionTable.
  rewrite VDGetSize_law.
  destruct (fresh_table tbl last (zlen (vd_data d)) Hl Hr) as (t0 & t1 & -> & E1 & Ht1 & Hfree).
  cbn [mbind option_bind]. rewrite E1. cbn [mbind option_bind]. apply fresh_free in Hfree as Hf.
  destruct (VDRead d 0 BLOCKSIZE) as [[d1 rc] mbrb] eqn:E.
  apply VDRead_law in E as (Hd & Hlen & Hw & _); [|unfold BLOCKSIZE; lia]. specialize (Hw Hwb).
  destruct (ld_inside 2 mbrb 510) as [sg Hsg]; [unfold BLOCKSIZE in *; lia..|].
  unfold le16_to_cpup. rewrite Hsg. cbn [mbind option_bind].
  guard_case; [eexists _, _; split; [done|]; split; [done|]; by apply table_ok_named|].
  guard_case; [by eexists _, _|].
  destruct (mbr_loop_spec 4 1 mbrb t1 last UNALLOCATED) as (r & Em & Hm); [done | lia | lia | | unfold UNALLOCATED; lia |].
  { pose proof (table_len _ _ _ _ Ht1). unfold HOSTPARTITION_MAX in *. lia. }
  rewrite Em. cbn [mbind option_bind]. destruct r as [[[t2 last2] ext]|m]; [clear Hm | by eexists _, _].
  destruct (table_ok_mbr _ _ _ _ _ _ _ Hlen Hw Ht1 Hf Em) as (Ht2 & Hext & Hf5 & Hdesc).
  destruct (read_ebrs_spec d1 t2 last2 ext (zlen (vd_data d)) Ht2 Hf5 Hext) as (d2 & r & -> & Hd2 & Hr2); [by apply Hdesc | by rewrite Hd |].
  cbn [mbind option_bind]. rewrite Hd in Hd2. destruct r as [[t3 last3]|m]; [|by eexists _, _].
  destruct (table_ok_name _ _ _ Hr2) as (t4 & -> & Ht4). cbn [mbind option_bind]. by eexists _, (Returns (t4, last3)).
Qed.
End init.

(** ** Lookup *)

(** [p] is partition number [n] (0: the whole disk). *)
Definition is_partition (s : vd_state) (n : Z) (p : Partition) : Prop :=
  0 <= n <= lastPartition s /\ (partitionTable s).[n] = Some p /\ no p <> UNALLOCATED.

Definition wf_state (sz : Z) (s : vd_state) : Prop := wf_table sz (partitionTable s) (lastPartition s).

Definition partition_name (n : Z) : string := if n =? 0 then ENTIRE_DISK_STR else "Partition" +:+ pretty n.

Lemma partition_name_inj m n : partition_name m = partition_name n -> m = n.
Proof.
  unfold partition_name, ENTIRE_DISK_STR. destruct (Z.eqb_spec m 0) as [->|], (Z.eqb_spec n 0) as [->|]; try done.
  intros Heq. apply (inj (String.append "Partition")) in Heq. by apply (inj pretty) in Heq.
Qed.

Lemma is_partition_name sz s n p : wf_state sz s -> is_partition s n p ->
  no p = n /\ name p = partition_name n /\ 0 <= offset p < 2 ^ 43 /\ (0 < n -> 0 <= size p < 2 ^ 41) /\ (n = 0 -> p = entire sz).
Proof.
  intros [L R Z0 S] (Hn & Hp & Hno). unfold partition_name. destruct (Z.eqb_spec n 0) as [->|].
  - rewrite Z0 in Hp. injection Hp as <-. cbn. split_and!; done || lia.
  - destruct (S n p) as (? & ? & ? & ? & ?); [lia | done | done |]. split_and!; auto; lia.
Qed.

Lemma find_loop_spec tbl k i s : 0 <= i -> i + Z.of_nat k <= zlen tbl ->
  exists r, find_loop k i tbl s = Some r /\
    ((r = -1 /\ forall j p, i <= j < i + Z.of_nat k -> tbl.[j] = Some p -> no p <> UNALLOCATED -> name p <> s)
     \/ (i <= r < i + Z.of_nat k /\ exists p, tbl.[r] = Some p /\ no p <> UNALLOCATED /\ name p = s)).
Proof.
  revert i; induction k as [|k IH]; intros i Hi Hk; cbn [find_loop].
  { exists (-1). split; [done|]. left. split; [done|]. lia. }
  destruct (zget_inside tbl i) as [p Hp]; [lia|]. rewrite Hp. cbn [mbind option_bind].
  destruct (negb (no p =? UNALLOCATED) && String.eqb s (name p)) eqn:G.
  - apply andb_true_iff in G as [G1 G2]. apply negb_true_iff, Z.eqb_neq in G1. apply String.eqb_eq in G2.
    exists i. split; [done|]. right. split; [lia|]. by exists p.
  - destruct (IH (i + 1)) as (r & -> & [[-> Hr]|[Hr Hp']]); [lia.. | |].
    + exists (-1). split; [done|]. left. split; [done|]. intros j q Hj Hq Hno Hname. destruct (decide (j = i)) as [->|].
      * rewrite Hp in Hq. injection Hq as <-. rewrite Hname, String.eqb_refl in G.
        rewrite (proj2 (Z.eqb_neq _ _) Hno) in G. done.
      * apply (Hr j q); done || lia.
    + exists r. split; [done|]. right. split; [lia | done].
Qed.

Lemma findPartition_spec sz s c x : wf_state sz s ->
  exists n, findPartition s (String c x) = Some n /\
    ((n = -1 /\ forall m p, is_partition s m p -> x <> partition_name m)
     \/ (x = partition_name n /\ exists p, is_partition s n p)).
Proof.
  intros Hwf. pose proof Hwf as [L R Z0 S]. cbn [findPartition].
  destruct (find_loop_spec (partitionTable s) (Z.to_nat (lastPartition s + 1)) 0 x) as (n & -> & Hn);
    [lia | unfold HOSTPARTITION_MAX in *; lia |].
  exists n. split; [done|]. destruct Hn as [[-> Hn]|[Hn (p & Hp & Hno & Hname)]].
  - left. split; [done|]. intros m p Hm Hx. destruct (is_partition_name _ _ _ _ Hwf Hm) as (_ & Hname & _).
    destruct Hm as (? & Hp & Hno). apply (Hn m p); [lia | done.. | congruence].
  - right. assert (is_partition s n p) as Hip by (split; [lia | done]).
    destruct (is_partition_name _ _ _ _ Hwf Hip) as (_ & Hname' & _). split; [congruence | by exists p].
Qed.

Lemma findPartition_name sz s c n p : wf_state sz s -> is_partition s n p ->
  findPartition s (String c (partition_name n)) = Some n.
Proof.
  intros Hwf Hp. destruct (findPartition_spec sz s c (partition_name n) Hwf) as (m & -> & [[_ Hm]|[Hx _]]).
  - by destruct (Hm n p Hp).
  - by apply partition_name_inj in Hx as ->.
Qed.

(** ** Reading and writing *)

(** Whether the callbacks refuse I/O on partition [n]. *)
Definition locked_out (s : vd_state) (n : Z) : bool := if n =? 0 then partitionOpened s else entireDiskOpened s.

(** A partition that lies inside the disk, as far as the sizes go. *)
Definition in_disk (sz : Z) (p : Partition) : Prop := 0 <= offset p /\ 0 <= size p /\ offset p + size p <= sz /\ sz < 2 ^ 63.

Lemma clip_spec p len off : 0 <= size p < 2 ^ 63 -> 0 <= off -> 0 <= len -> off + len < 2 ^ 63 ->
  clip p len off = if size p <=? off then None else Some (Z.min len (size p - off)).
Proof.
  intros Hs Ho Hl Hb. unfold clip, u64. rewrite !wrap_u_small by lia. guard_case; [done|]. f_equal.
  rewrite wrap_u_small by lia. guard_case; lia.
Qed.

Section io.
Context {D : Type} `{VDLaws D}.
Implicit Types d : D.

Lemma VD_read_spec d s c x n p out len off :
  let sz := zlen (vd_data d) in
  wf_state sz s -> findPartition s (String c x) = Some n -> is_partition s n p -> locked_out s n = false ->
  in_disk sz p -> 0 <= off -> 0 <= len <= zlen out -> len < 2 ^ 31 -> off + len < 2 ^ 63 ->
  exists d' out' r, VD_read d s (String c x) out len off = Some (d', out', r) /\ vd_data d' = vd_data d /\
    match r with
    | Ok m => m = Z.max 0 (Z.min len (size p - off)) /\
        exists bs, (m = 0 /\ bs = [] \/ zread (vd_data d) (offset p + off) m = Some bs) /\ zwrite out 0 bs = Some out'
    | Err e => e = EIO /\ (VDReliable D -> False) /\ frame out out' 0 len
    end.
Proof.
  cbv zeta. intros Hwf Hf (Hn & Hp & Hno) Hlock (Ho1 & Hs1 & Hb1 & Hm) Ho Hl Hl2 Hol. unfold VD_read.
  rewrite Hf. cbn [mbind option_bind]. rewrite (proj2 (Z.ltb_ge n 0)) by lia. fold (locked_out s n). rewrite Hlock, Hp.
  cbn [mbind option_bind]. rewrite clip_spec by lia. destruct (Z.leb_spec (size p) off).
  { exists d, out, (Ok 0). split_and!; [done | done | lia |]. exists []. split; [by left|]. apply zwrite_nil. lia. }
  set (m := Z.min len (size p - off)). destruct (VDRead d _ m) as [[d1 ret] bs] eqn:E.
  unfold u64 in E. rewrite wrap_u_small in E by lia. apply VDRead_law in E as E'; [|lia]. destruct E' as (Hd & Hlb & Hw & Hok).
  assert (exists out', zwrite out 0 bs = Some out') as [out' Hout] by (rewrite zwrite_inside by lia; eauto).
  rewrite Hout. cbn [mbind option_bind]. exists d1, out'.
  destruct (RT_SUCCESS ret) eqn:Hrc.
  - exists (Ok (s32 m)). rewrite s32_small by lia. split_and!; [done | done | lia |]. exists bs. split; [|done]. right.
    destruct (Hok eq_refl) as (? & ? & Hh). replace (offset p + off) with (off + offset p) by lia.
    rewrite <-Hlb. apply holds_zread; lia || done.
  - exists (Err EIO). split_and!; [done | done | done | |].
    + intros Hrel. assert (RT_SUCCESS (snd (fst (VDRead d (off + offset p) m))) = true) as Hc by (apply VDRead_ok; lia).
      rewrite E in Hc. cbn in Hc. congruence.
    + apply zwrite_frame in Hout as [Hz Hg]. split; [done|]. intros j Hj. apply Hg. lia.
Qed.

Lemma VD_write_spec d s c x n p inp len off :
  let sz := zlen (vd_data d) in
  wf_state sz s -> findPartition s (String c x) = Some n -> is_partition s n p -> locked_out s n = false ->
  in_disk sz p -> 0 <= off -> 0 <= len <= zlen inp -> len < 2 ^ 31 -> off + len < 2 ^ 63 ->
  exists d' r, VD_write d s (String c x) inp len off = Some (d', r) /\
    match r with
    | Ok m => m = Z.max 0 (Z.min len (size p - off)) /\
        exists bs, zread inp 0 m = Some bs /\ (m = 0 /\ d' = d \/ zwrite (vd_data d) (offset p + off) bs = Some (vd_data d'))
    | Err e => e = EIO /\ frame (vd_data d) (vd_data d') (offset p) (offset p + size p)
    end.
Proof.
  cbv zeta. intros Hwf Hf (Hn & Hp & Hno) Hlock (Ho1 & Hs1 & Hb1 & Hm) Ho Hl Hl2 Hol. unfold VD_write.
  rewrite Hf. cbn [mbind option_bind]. rewrite (proj2 (Z.ltb_ge n 0)) by lia. fold (locked_out s n). rewrite Hlock, Hp.
  cbn [mbind option_bind]. rewrite clip_spec by lia. destruct (Z.leb_spec (size p) off).
  { exists d, (Ok 0). split_and!; [done | lia |]. exists []. split; [rewrite zread_inside by lia; done | by left]. }
  set (m := Z.min len (size p - off)).
  destruct (zread inp 0 m) as [bs|] eqn:Eb; [|rewrite zread_inside in Eb by lia; done]. cbn [mbind option_bind].
  pose proof (zread_Some _ _ _ _ Eb) as (_ & _ & _ & Hlb & _).
  destruct (VDWrite d _ bs) as [d1 ret] eqn:E. unfold u64 in E. rewrite wrap_u_small in E by lia. apply VDWrite_law in E as [_ E].
  exists d1. destruct (RT_SUCCESS ret).
  - exists (Ok (s32 m)). rewrite s32_small by lia. split_and!; [done | lia |]. exists bs. split; [done|]. right.
    by replace (offset p + off) with (off + offset p) by lia.
  - exists (Err EIO). split_and!; [done | done |]. destruct E as [Hz Hg]. split; [done|]. intros j Hj. apply Hg. lia.
Qed.
End io.

(** ** The mounted file system as a transition system *)

(** The disk, the shared state and the handles that are open, by partition
    number.  The kernel releases only handles it has opened. *)
Record conf (D : Type) := Conf { disk : D; shared : vd_state; handles : list Z }.
Arguments Conf {D} disk shared handles.
Arguments disk {D} c.
Arguments shared {D} c.
Arguments handles {D} c.

Section steps.
Context {D : Type} `{VDLaws D} (cfg : vd_config).

(** One callback, run without interleaving. *)
Inductive fuse_step : conf D -> conf D -> Prop :=
  | step_open d s hs c x flags n s' : opened s + 1 < 2 ^ 31 ->
      findPartition s (String c x) = Some n ->
      VD_open cfg s (String c x) flags = Some (s', Ok tt) -> fuse_step (Conf d s hs) (Conf d s' (n :: hs))
  | step_open_fails d s hs c x flags s' e :
      VD_open cfg s (String c x) flags = Some (s', Err e) -> fuse_step (Conf d s hs) (Conf d s' hs)
  | step_release d s hs1 n hs2 d' s' :
      VD_release d s = Some (d', Returns s') -> fuse_step (Conf d s (hs1 ++ n :: hs2)) (Conf d' s' (hs1 ++ hs2))
  | step_read d s hs c out len off d' out' r :
      0 <= len -> VD_read d s c out len off = Some (d', out', r) -> fuse_step (Conf d s hs) (Conf d' s hs)
  | step_write d s hs c inp len off d' r :
      wf_bytes inp -> VD_write d s c inp len off = Some (d', r) -> fuse_step (Conf d s hs) (Conf d' s hs).

Record fuse_inv (c : conf D) : Prop := {
  inv_state : wf_state (zlen (vd_data (disk c))) (shared c);
  inv_bytes : wf_bytes (vd_data (disk c));
  inv_opened : opened (shared c) = zlen (handles c);
  inv_small : zlen (handles c) < 2 ^ 31;
  inv_entire : entireDiskOpened (shared c) = true <-> 0 ∈ handles c;
  inv_part : partitionOpened (shared c) = true <-> exists n, n ∈ handles c /\ n <> 0;
  inv_excl : entireDiskOpened (shared c) && partitionOpened (shared c) = false;
  inv_handles n : n ∈ handles c -> exists p, is_partition (shared c) n p }.

Lemma open_guard_ok s c x flags n sz : wf_state sz s -> findPartition s (String c x) = Some n ->
  open_guard cfg s (String c x) flags = Some (Ok n) ->
  (exists p, is_partition s n p) /\ (n = 0 -> partitionOpened s = false) /\ (n <> 0 -> entireDiskOpened s = false).
Proof.
  intros Hwf Hf Hg. unfold open_guard in Hg. rewrite Hf in Hg. cbn [mbind option_bind] in Hg.
  destruct (findPartition_spec sz s c x Hwf) as (m & Hf' & Hm). rewrite Hf in Hf'. injection Hf' as <-.
  destruct Hm as [[-> _]|[_ (p & Hp)]]; [done|]. split; [by exists p|].
  destruct Hp as ([Hn _] & _). destruct (Z.eqb_spec n (-1)); [lia|]. cbn [orb] in Hg.
  destruct (entireDiskOpened s), (partitionOpened s), (Z.ltb_spec 0 n), (Z.eqb_spec n 0); cbn in Hg; split; intros; done || lia.
Qed.

Lemma VD_open_ok s c x flags n s' : findPartition s (String c x) = Some n ->
  VD_open cfg s (String c x) flags = Some (s', Ok tt) ->
  open_guard cfg s (String c x) flags = Some (Ok n) /\ s' = open_commit s n.
Proof.
  intros Hf. unfold VD_open, open_guard. rewrite Hf. cbn [mbind option_bind].
  do 2 (guard_case; cbn [mbind option_bind]; [congruence|]). by intros [= <-].
Qed.

Lemma VD_open_err s c x flags s' e : VD_open cfg s (String c x) flags = Some (s', Err e) -> s' = s.
Proof.
  unfold VD_open. destruct (open_guard _ _ _ _) as [[n|e']|]; cbn; [done | congruence | done].
Qed.

Lemma VD_read_data d s c out len off d' out' r : 0 <= len ->
  VD_read d s c out len off = Some (d', out', r) -> vd_data d' = vd_data d.
Proof.
  intros Hl Hr. unfold VD_read in Hr. opt_inv. guard_case; [by opt_inv|]. guard_case; [by opt_inv|]. opt_inv.
  destruct (clip _ _ _) as [m|] eqn:Ec; [|by opt_inv].
  assert (0 <= m) as Hm.
  { unfold clip in Ec. guard_case; [done|]. injection Ec as <-. guard_case; [|done]. apply wrap_u_range. lia. }
  destruct (VDRead d _ m) as [[d1 rc] bs] eqn:E2. opt_inv. apply VDRead_law in E2; [|done]. intuition congruence.
Qed.

Lemma VD_write_data d s c inp len off d' r : wf_bytes inp -> wf_bytes (vd_data d) ->
  VD_write d s c inp len off = Some (d', r) -> wf_bytes (vd_data d') /\ zlen (vd_data d') = zlen (vd_data d).
Proof.
  intros Hi Hw Hr. unfold VD_write in Hr. opt_inv. guard_case; [by opt_inv|]. guard_case; [by opt_inv|]. opt_inv.
  destruct (clip _ _ _) as [m|] eqn:Ec; [|by opt_inv].
  opt_inv. destruct (VDWrite d _ _) as [d1 rc] eqn:E2. opt_inv. apply VDWrite_law in E2 as [Hwf Hd].
  split; [apply Hwf; [done | exact (wf_zread _ _ _ _ Hi E1)]|].
  destruct (RT_SUCCESS rc); [by apply zwrite_Some in Hd as (_ & _ & ? & _) | by destruct Hd].
Qed.

Lemma VD_release_spec d s sz : wf_state sz s -> wf_bytes (vd_data d) -> sz = zlen (vd_data d) -> 1 <= opened s < 2 ^ 31 ->
  exists d' r, VD_release d s = Some (d', r) /\ vd_data d' = vd_data d /\
    match r with
    | Exits _ => opened s = 1
    | Returns s' => wf_state sz s' /\ opened s' = opened s - 1 /\
        if opened s =? 1 then entireDiskOpened s' = false /\ partitionOpened s' = false
        else s' = VD (partitionTable s) (lastPartition s) (entireDiskOpened s) (partitionOpened s) (opened s - 1)
    end.
Proof.
  intros Hwf Hw -> Ho. unfold VD_release. rewrite s32_small by lia. cbv zeta.
  destruct (Z.eqb_spec (opened s - 1) 0), (Z.eqb_spec (opened s) 1); try lia.
  - destruct Hwf as [L R Z0 S]. destruct (init_table_spec d (partitionTable s) (lastPartition s) L R Hw) as (d' & r & -> & Hd & Hr).
    cbn [mbind option_bind]. destruct r as [[tbl last]|m]; [|by eexists _, _].
    eexists _, (Returns _). done.
  - eexists _, (Returns _). done.
Qed.

(** The invariant depends on the disk only through its size and its bytes. *)
Lemma fuse_inv_disk d d' s hs : fuse_inv (Conf d s hs) -> wf_bytes (vd_data d') -> zlen (vd_data d') = zlen (vd_data d) ->
  fuse_inv (Conf d' s hs).
Proof. intros [] Hw Hz. split; cbn in *; try done. by rewrite Hz. Qed.

Lemma fuse_inv_open d s hs n : fuse_inv (Conf d s hs) -> opened s + 1 < 2 ^ 31 -> (exists p, is_partition s n p) ->
  (n = 0 -> partitionOpened s = false) -> (n <> 0 -> entireDiskOpened s = false) ->
  fuse_inv (Conf d (open_commit s n) (n :: hs)).
Proof.
  intros [IS IB IO IM IE IP IX IH] Hb Hp H1 H2. cbn in *. pose proof (zlen_nonneg hs).
  split; cbn; rewrite ?zlen_cons; try done; try lia.
  - rewrite s32_small by lia. lia.
  - destruct (Z.eqb_spec n 0) as [->|]; [split; [left | done]|]. rewrite IE, elem_of_cons. intuition congruence.
  - destruct (Z.eqb_spec n 0) as [->|].
    + rewrite IP. setoid_rewrite elem_of_cons. split; [intros (m & ? & ?); eauto | intros (m & [->|?] & ?); [done | eauto]].
    + split; [|done]. intros _. exists n. split; [left | done].
  - destruct (Z.eqb_spec n 0) as [E|E]; [by rewrite H1 | by rewrite H2].
  - intros m [->|Hm]%elem_of_cons; [done | by apply IH].
Qed.

Lemma fuse_inv_release d s hs1 n hs2 d' s' : fuse_inv (Conf d s (hs1 ++ n :: hs2)) ->
  VD_release d s = Some (d', Returns s') -> fuse_inv (Conf d' s' (hs1 ++ hs2)).
Proof.
  intros [IS IB IO IM IE IP IX IH] Hr. cbn in *. pose proof (zlen_nonneg hs1). pose proof (zlen_nonneg hs2).
  rewrite zlen_app, zlen_cons in IO, IM.
  destruct (VD_release_spec d s _ IS IB eq_refl ltac:(lia)) as (d1 & r & E & Hd & Hs). rewrite E in Hr. injection Hr as -> ->.
  destruct Hs as (Hwf & Ho & Hs). destruct (Z.eqb_spec (opened s) 1) as [Hone|].
  - assert (hs1 = [] /\ hs2 = []) as [-> ->].
    { split; [destruct hs1 | destruct hs2]; try done; rewrite zlen_cons in *; pose proof (zlen_nonneg hs1); pose proof (zlen_nonneg hs2);
        try (pose proof (zlen_nonneg l)); lia. }
    destruct Hs as [He Hp]. split; cbn; rewrite ?Hd, ?He, ?Hp; try done.
    + rewrite Ho, (@zlen_nil Z). lia.
    + split; [done | by intros ?%elem_of_nil].
    + split; [done | by intros (m & ?%elem_of_nil & _)].
    + by intros m ?%elem_of_nil.
  - subst s'. cbn in *. assert (hs1 ++ hs2 <> []) as Hne.
    { intros [-> ->]%app_eq_nil. rewrite ?(@zlen_nil Z) in *. lia. }
    assert (forall m, m ∈ hs1 ++ hs2 -> m ∈ hs1 ++ n :: hs2) as Hsub.
    { intros m. rewrite !elem_of_app, elem_of_cons. tauto. }
    assert (exists m, m ∈ hs1 ++ hs2) as [m Hm] by (destruct (hs1 ++ hs2) as [|m l]; [done | exists m; left]).
    pose proof (Hsub m Hm) as Hm'.
    split; cbn; rewrite ?Hd; try done.
    + rewrite zlen_app. lia.
    + rewrite zlen_app. lia.
    + split; [|intros H3; apply IE; by apply Hsub]. intros He. destruct (decide (m = 0)) as [->|]; [done|].
      rewrite He in IX. rewrite (proj2 IP) in IX by eauto. done.
    + split; [|intros (k & Hk & ?); apply IP; exists k; auto]. intros Hp. destruct (decide (m = 0)) as [->|]; [|by exists m].
      rewrite Hp, (proj2 IE) in IX by done. done.
    + intros k Hk. apply IH. by apply Hsub.
Qed.

Lemma fuse_inv_mount d0 tbl0 d tbl last : zlen tbl0 = HOSTPARTITION_MAX + 2 -> wf_bytes (vd_data d0) ->
  initialisePartitionTable d0 tbl0 0 = Some (d, Returns (tbl, last)) ->
  fuse_inv (Conf d (VD tbl last false false 0) []).
Proof.
  intros Hl Hw Hi. destruct (init_table_spec d0 tbl0 0 Hl ltac:(unfold HOSTPARTITION_MAX; lia) Hw) as (d' & r & E & Hd & Ht).
  rewrite Hi in E. injection E as <- <-. clear Hi. split; cbn; rewrite ?Hd.
  - done.
  - done.
  - done.
  - done.
  - split; [done | by intros ?%elem_of_nil].
  - split; [done | by intros (? & ?%elem_of_nil & _)].
  - done.
  - by intros ? ?%elem_of_nil.
Qed.

Lemma fuse_step_inv c c' : fuse_inv c -> fuse_step c c' -> fuse_inv c'.
Proof.
  intros Hc Hs. destruct Hs as [d s hs ch x flags n s' Hb Hf Ho | d s hs ch x flags s' e Ho | d s hs1 n hs2 d' s' Hr
    | d s hs ch out len off d' out' r Hl Hr | d s hs ch inp len off d' r Hw Hr].
  - destruct (VD_open_ok _ _ _ _ _ _ Hf Ho) as [Hg ->]. destruct (open_guard_ok _ _ _ _ _ _ (inv_state _ Hc) Hf Hg) as (Hp & H1 & H2).
    by apply fuse_inv_open.
  - by apply VD_open_err in Ho as ->.
  - by eapply fuse_inv_release.
  - apply VD_read_data in Hr; [|done]. eapply fuse_inv_disk; [done | |]; rewrite Hr; [by destruct Hc | done].
  - apply VD_write_data in Hr as [? ?]; [|done | by destruct Hc]. by eapply fuse_inv_disk.
Qed.
End steps.

(** ** Directory listing and attributes *)

Lemma bool_if_some {A} (b : bool) (x y : A) : (if b then Some x else Some y) = Some (if b then x else y).
Proof. by destruct b. Qed.

Definition write_bits : Z := Z.lor S_IWUSR (Z.lor S_IWGRP S_IWOTH).

Lemma getattr_spec cfg sz s c n p : wf_state sz s -> 0 <= sz < 2 ^ 63 -> is_partition s n p ->
  exists st, VD_getattr cfg s (String c (partition_name n)) = Some (Ok st) /\
    st_size st = size p /\ st_nlink st = 1 /\
    (st_blocks st - 1) * BLOCKSIZE < size p <= st_blocks st * BLOCKSIZE /\
    (readonly cfg = true -> Z.land (st_mode st) write_bits = 0) /\ Z.land (st_mode st) S_IFDIR = 0.
Proof.
  intros Hwf Hsz Hp. unfold VD_getattr. rewrite (findPartition_name _ _ c _ _ Hwf Hp). cbn [mbind option_bind].
  assert (String.eqb "/" (String c (partition_name n)) = false) as ->.
  { apply String.eqb_neq. unfold partition_name. destruct (n =? 0); done. }
  destruct (is_partition_name _ _ _ _ Hwf Hp) as (_ & _ & _ & Hs & H0). pose proof Hp as ([Hn _] & Hget & _).
  rewrite (proj2 (Z.eqb_neq n (-1))) by lia. cbn [negb andb]. rewrite Hget. cbn [mbind option_bind].
  assert (0 <= size p < 2 ^ 63) as Hsz' by (destruct (decide (n = 0)) as [E|]; [rewrite (H0 E); cbn; lia | specialize (Hs ltac:(lia)); lia]).
  rewrite s64_small by (unfold in_s64; lia). cbv zeta. eexists. split; [done|]. cbn [st_size st_nlink st_blocks st_mode].
  split_and!; try done.
  - unfold BLOCKSIZE. rewrite Z.quot_div_nonneg by lia. pose proof (Z.div_mod (size p + 512 - 1) 512 ltac:(lia)).
    pose proof (Z.mod_pos_bound (size p + 512 - 1) 512 ltac:(lia)). lia.
  - unfold BLOCKSIZE. rewrite Z.quot_div_nonneg by lia. pose proof (Z.div_mod (size p + 512 - 1) 512 ltac:(lia)).
    pose proof (Z.mod_pos_bound (size p + 512 - 1) 512 ltac:(lia)). lia.
  - intros ->. by destruct (allowall cfg), (allowallw cfg).
  - by destruct (allowall cfg), (allowallw cfg), (readonly cfg).
Qed.

Lemma readdir_spec sz s : wf_state sz s ->
  exists names, VD_readdir s "/" = Some (Ok ("."%string :: ".."%string :: names)) /\
    forall x, x ∈ names <-> exists n p, is_partition s n p /\ x = partition_name n.
Proof.
  intros Hwf. pose proof Hwf as [L R Z0 S]. unfold VD_readdir. rewrite String.eqb_refl. cbn [negb].
  unfold HOSTPARTITION_MAX in *.
  destruct (zread (partitionTable s) 0 (lastPartition s + 1)) as [ps|] eqn:E; [|rewrite zread_inside in E by lia; done].
  cbn [mbind option_bind]. eexists. split; [done|]. intros x. rewrite list_elem_of_fmap. split.
  - intros (p & -> & Hp). apply list_elem_of_filter in Hp as [Hno Hp]. apply negb_true_iff, Z.eqb_neq in Hno.
    apply list_elem_of_lookup in Hp as [k Hk]. rewrite <-zget_nat in Hk. pose proof (zget_bounds _ _ _ Hk).
    apply zread_Some in E as (_ & _ & _ & Hl & Hg). rewrite Hg in Hk by lia.
    exists (Z.of_nat k), p. assert (is_partition s (Z.of_nat k) p) as Hip by (split; [lia | done]).
    split; [done|]. by destruct (is_partition_name _ _ _ _ Hwf Hip) as (_ & ? & _).
  - intros (n & p & Hip & ->). destruct (is_partition_name _ _ _ _ Hwf Hip) as (_ & Hname & _).
    exists p. split; [done|]. destruct Hip as (Hn & Hp & Hno). apply list_elem_of_filter. split; [by apply negb_true_iff, Z.eqb_neq|].
    apply zread_Some in E as (_ & _ & _ & Hl & Hg). apply list_elem_of_lookup. exists (Z.to_nat n).
    rewrite <-zget_nat, Z2Nat.id, Hg by lia. by rewrite Z.add_0_l.
Qed.

(** ** A disk held in memory *)

#[export] Instance ram_vd : VDOps (list Z) := {
  VDRead m pos n :=
    match zread m pos n with Some bs => (m, 0, bs) | None => (m, -1, replicate (Z.to_nat n) 0) end;
  VDWrite m pos bs := match zwrite m pos bs with Some m' => (m', 0) | None => (m, -1) end;
  VDGetSize m := zlen m;
  VDFlush m := m;
  vd_data m := m }.

#[export] Instance ram_vd_laws : VDLaws (list Z).
Proof.
  split; cbn; [| | done..].
  - intros d pos n d' rc bs Hn. destruct (zread d pos n) as [xs|] eqn:E; intros [= <- <- <-].
    + pose proof (zread_Some _ _ _ _ E) as (? & ? & ? & ? & Hg). split_and!; [done | done | |].
      * intros Hw. by apply (wf_zread _ _ _ _ Hw E).
      * intros _. split_and!; [done | done |]. intros j Hj. rewrite Hg by lia. done.
    + split_and!; [done | rewrite zlen_replicate; lia | | done]. intros _. apply Forall_replicate. split; lia.
  - intros d pos bs d' rc. destruct (zwrite d pos bs) as [m|] eqn:E; intros [= <- <-]; cbn.
    + split; [|done]. intros Hw Hb. exact (wf_zwrite _ _ _ _ Hw Hb E).
    + split; [done | apply frame_refl].
Qed.

#[export] Instance ram_vd_reliable : VDReliable (list Z).
Proof. split. intros d pos n H1 H2 H3. cbn in *. by rewrite zread_inside by lia. Qed.

(** ** Properties *)

(** C26: parsing never leaves the table (the array and the entry behind it) and
    never leaves the block, whatever the image holds and whichever reads fail;
    unless it ends the process it leaves a well-formed table. *)
Theorem init_table_correct {D} `{VDLaws D} (d : D) tbl last :
  zlen tbl = HOSTPARTITION_MAX + 2 -> 0 <= last <= HOSTPARTITION_MAX -> wf_bytes (vd_data d) ->
  exists d' r, initialisePartitionTable d tbl last = Some (d', r) /\ vd_data d' = vd_data d /\
    match r with Returns (tbl', last') => wf_table (zlen (vd_data d)) tbl' last' | Exits _ => True end.
Proof. apply init_table_spec. Qed.

(** on a disk whose MBR is signed and lists no extended partition, the
    table is the whole disk and one entry per MBR entry in use, with the
    offsets and sizes of the MBR in bytes. *)
Theorem init_mbr_correct {D} `{VDLaws D} `{!VDReliable D} (d : D) tbl last (e : Z -> MBRentry) :
  zlen tbl = HOSTPARTITION_MAX + 2 -> 0 <= last <= HOSTPARTITION_MAX -> wf_bytes (vd_data d) ->
  le16_to_cpup (vd_data d) 510 = Some 0xaa55 ->
  (forall i, 1 <= i <= 4 -> entry_at (vd_data d) (MBR_START + (i - 1) * 16) = Some (e i)) ->
  (forall i, 1 <= i <= 4 -> PARTTYPE_IS_EXTENDED (type (e i)) = false) ->
  exists d' tbl' last', initialisePartitionTable d tbl last = Some (d', Returns (tbl', last')) /\
    tbl'.[0] = Some (entire (zlen (vd_data d))) /\
    (forall i, 1 <= i <= 4 -> tbl'.[i] = Some (
       if type (e i) =? 0 then Part "" 0 0 UNALLOCATED (e i)
       else Part (partition_name i) (eoffset (e i) * 512) (esize (e i) * 512) i (e i))) /\
    (forall i, 5 <= i <= HOSTPARTITION_MAX -> tbl'.[i] = Some (set_no zero_partition UNALLOCATED)).
Proof.
  intros Hl Hr Hw Hsig He Hne. unfold initialisePartitionTable. rewrite VDGetSize_law.
  destruct (fresh_table tbl last (zlen (vd_data d)) Hl Hr) as (t0 & t1 & -> & E1 & [L1 R1 Z1 S1] & Hfree).
  cbn [mbind option_bind]. rewrite E1. cbn [mbind option_bind].
  destruct (VDRead d 0 BLOCKSIZE) as [[d1 rc] mbrb] eqn:E.
  apply VDRead_law in E as E'; [|unfold BLOCKSIZE; lia]. destruct E' as (Hd & Hlen & Hwm & Hok). specialize (Hwm Hw).
  assert (512 <= zlen (vd_data d)) as Hsz by (apply ld_bounds in Hsig; lia).
  assert (RT_SUCCESS (snd (fst (VDRead d 0 BLOCKSIZE))) = true) as Hrc by (apply VDRead_ok; unfold BLOCKSIZE; lia).
  rewrite E in Hrc. destruct (Hok Hrc) as (_ & _ & Hh). unfold BLOCKSIZE in Hlen.
  assert (zread (vd_data d) 0 512 = Some mbrb) as Hz by (rewrite <-Hlen; apply holds_zread; [done | lia | lia]).
  unfold le16_to_cpup in *. rewrite (ld_sub _ _ _ _ _ _ Hz) by lia. rewrite Z.add_0_l, Hsig. cbn [mbind option_bind].
  change (0xaa55 =? 0) with false. change (0xaa55 =? 0xaa55) with true. cbn [negb].
  assert (forall i, 1 <= i <= 4 -> mbr_entry mbrb i = Some (e i)) as Hent.
  { intros i Hi. unfold mbr_entry. rewrite (entry_at_sub _ _ _ _ _ Hz) by (unfold MBR_START; lia). rewrite Z.add_0_l. by apply He. }
  unfold HOSTPARTITION_MAX in *.
  destruct (mbr_loop_spec 4 1 mbrb t1 last UNALLOCATED) as (r & Em & Hm); [done | lia | lia | lia | unfold UNALLOCATED; lia |].
  rewrite Em. cbn [mbind option_bind]. destruct r as [[[t2 last2] ext]|m].
  2: { destruct Hm as (j & e' & Hj & Hj' & Hx). rewrite Hent in Hj' by lia. injection Hj' as <-. rewrite Hne in Hx by lia. done. }
  destruct Hm as (Hl2 & Hg & Hlast & Huse & _ & Hext).
  rewrite Hext by (intros j e' Hj; rewrite Hent by lia; intros [= <-]; apply Hne; lia).
  unfold read_ebrs. rewrite Z.eqb_refl. cbn [negb mbind option_bind].
  destruct (name_loop_spec (Z.to_nat last2) 1 t2) as (t3 & -> & Hl3 & Hg3); [lia | lia |]. cbn [mbind option_bind].
  eexists _, _, _. split; [done|]. rewrite !Hg3, !Hg. cbn [Z.leb Z.compare andb]. split_and!; [done | |].
  - intros i Hi. rewrite Hg3, Hg, (proj2 (Z.leb_le 1 i)), (proj2 (Z.ltb_lt i (1 + Z.of_nat 4))) by lia. cbn [andb].
    rewrite Hfree by lia. rewrite Hent by lia. cbn [mbind option_bind].
    pose proof (Huse i (e i) ltac:(lia) (Hent i Hi)) as Hi2. pose proof (Hne i Hi) as Hx. unfold in_use in Hi2. unfold mbr_slot.
    rewrite Hx, orb_false_r in *. destruct (entry_range _ _ _ Hw (He i Hi)) as [Ho Hs]. unfold BLOCKSIZE.
    rewrite s64_small by (unfold in_s64; lia). unfold u64. rewrite wrap_u_small by lia.
    destruct (Z.eqb_spec (type (e i)) 0); [by destruct (_ <? _)|]. specialize (Hi2 eq_refl).
    rewrite (proj2 (Z.ltb_lt i _)) by lia. cbn. unfold UNALLOCATED. rewrite (proj2 (Z.eqb_neq i (-1))) by lia.
    unfold partition_name. by rewrite (proj2 (Z.eqb_neq i 0)) by lia.
  - intros i Hi. rewrite Hg3, Hg, (proj2 (Z.leb_le 1 i)), (proj2 (Z.ltb_ge i (1 + Z.of_nat 4))) by lia. cbn [andb].
    rewrite Hfree by lia. by destruct (_ <? _).
Qed.

(** a path names at most one partition, and the search finds it. *)
Theorem findPartition_correct sz s c x : wf_state sz s ->
  exists n, findPartition s (String c x) = Some n /\
    (n = -1 \/ exists p, is_partition s n p) /\
    forall m p, is_partition s m p -> name p = x <-> m = n.
Proof.
  intros Hwf. destruct (findPartition_spec sz s c x Hwf) as (n & Hf & Hn). exists n. split; [done|].
  destruct Hn as [[-> Hn]|[-> (p & Hp)]]; (split; [by eauto|]); intros m q Hq;
    destruct (is_partition_name _ _ _ _ Hwf Hq) as (_ & -> & _).
  - split; [intros Hx; by destruct (Hn m q Hq) | intros ->; destruct Hq; lia].
  - split; [apply partition_name_inj | by intros ->].
Qed.

(** a read of a partition returns the bytes of the disk at the partition's
    offset, cut at the partition's end, and nothing beyond. *)
Theorem VD_read_correct {D} `{VDLaws D} `{!VDReliable D} (d : D) s c x n p out len off :
  wf_state (zlen (vd_data d)) s -> findPartition s (String c x) = Some n -> is_partition s n p ->
  locked_out s n = false -> in_disk (zlen (vd_data d)) p ->
  0 <= off -> 0 <= len <= zlen out -> len < 2 ^ 31 -> off + len < 2 ^ 63 ->
  exists d' out', VD_read d s (String c x) out len off = Some (d', out', Ok (Z.max 0 (Z.min len (size p - off)))) /\
    vd_data d' = vd_data d /\
    forall j, 0 <= j -> out'.[j] = if (j <? len) && (off + j <? size p) then (vd_data d).[offset p + off + j] else out.[j].
Proof.
  intros Hwf Hf Hp Hlock Hin Ho Hl Hl2 Hol.
  destruct (VD_read_spec d s c x n p out len off Hwf Hf Hp Hlock Hin Ho Hl Hl2 Hol) as (d' & out' & r & E & Hd & Hr).
  destruct r as [m|e]; [|destruct Hr as (_ & Hr & _); by destruct Hr]. destruct Hr as (-> & bs & Hbs & Hout).
  exists d', out'. split_and!; [done | done |]. intros j Hj. apply zwrite_Some in Hout as (_ & _ & _ & Hg). rewrite Hg.
  rewrite (proj2 (Z.leb_le 0 j)) by done. rewrite Z.sub_0_r, Z.add_0_l. cbn [andb].
  destruct Hbs as [[Hm ->]|Hz].
  - rewrite (@zlen_nil Z). destruct (Z.ltb_spec j 0), (Z.ltb_spec j len), (Z.ltb_spec (off + j) (size p)); cbn; done || lia.
  - apply zread_Some in Hz as (_ & _ & _ & Hl' & Hg'). rewrite Hl'.
    destruct (Z.ltb_spec j (Z.max 0 (Z.min len (size p - off)))), (Z.ltb_spec j len), (Z.ltb_spec (off + j) (size p));
      cbn [andb]; try lia; try done. apply Hg'. lia.
Qed.

(** a write to a partition changes no byte of the disk outside it, and when
    it reports a count, stores exactly that many of the given bytes. *)
Theorem VD_write_confined {D} `{VDLaws D} (d : D) s c x n p inp len off :
  wf_state (zlen (vd_data d)) s -> findPartition s (String c x) = Some n -> is_partition s n p ->
  locked_out s n = false -> in_disk (zlen (vd_data d)) p ->
  0 <= off -> 0 <= len <= zlen inp -> len < 2 ^ 31 -> off + len < 2 ^ 63 ->
  exists d' r, VD_write d s (String c x) inp len off = Some (d', r) /\
    frame (vd_data d) (vd_data d') (offset p) (offset p + size p) /\
    match r with
    | Ok m => m = Z.max 0 (Z.min len (size p - off)) /\
        forall j, 0 <= j < m -> (vd_data d').[offset p + off + j] = inp.[j]
    | Err e => e = EIO
    end.
Proof.
  intros Hwf Hf Hp Hlock Hin Ho Hl Hl2 Hol.
  destruct (VD_write_spec d s c x n p inp len off Hwf Hf Hp Hlock Hin Ho Hl Hl2 Hol) as (d' & r & E & Hr).
  exists d', r. split; [done|]. destruct r as [m|e]; [|by destruct Hr]. destruct Hr as (Hm & bs & Hbs & Hw).
  pose proof (zread_Some _ _ _ _ Hbs) as (_ & _ & _ & Hlb & Hgb).
  destruct Hw as [[Hm0 ->]|Hw]; [split; [apply frame_refl | split; [done | lia]]|]. split.
  - destruct Hin as (_ & Hs & _). apply zwrite_Some in Hw as (_ & _ & Hl' & Hg). split; [done|]. intros j Hj. rewrite Hg, Hlb.
    destruct (Z.leb_spec (offset p + off) j), (Z.ltb_spec j (offset p + off + m)); cbn; done || lia.
  - split; [done|]. intros j Hj. by rewrite (zwrite_get _ _ _ _ _ Hw), Hgb by lia.
Qed.

(** C27: from the mount on, whatever callbacks run one after another, the whole
    disk and a partition are never open together, the count of open instances
    is right, and no open file is refused its I/O; when nothing is open, nothing
    is locked out. *)
Theorem fuse_exclusion {D} `{VDLaws D} cfg (d0 d : D) tbl0 tbl last c :
  wf_bytes (vd_data d0) -> zlen tbl0 = HOSTPARTITION_MAX + 2 ->
  initialisePartitionTable d0 tbl0 0 = Some (d, Returns (tbl, last)) ->
  rtc (fuse_step cfg) (Conf d (VD tbl last false false 0) []) c ->
  (0 ∈ handles c -> forall n, n ∈ handles c -> n = 0) /\
  opened (shared c) = zlen (handles c) /\
  (forall n, n ∈ handles c -> locked_out (shared c) n = false /\ exists p, is_partition (shared c) n p) /\
  (handles c = [] -> forall n, locked_out (shared c) n = false).
Proof.
  intros Hw Hl0 Hi Hr. assert (fuse_inv c) as [IS IB IO IM IE IP IX IH].
  { assert (fuse_inv (Conf d (VD tbl last false false 0) [])) as H1 by (by eapply fuse_inv_mount).
    clear Hi. revert H1. induction Hr; eauto using fuse_step_inv. }
  split_and!; [| done | |].
  - intros Hz n Hn. destruct (decide (n = 0)); [done|]. rewrite (proj2 IE Hz), (proj2 IP) in IX by eauto. done.
  - intros n Hn. split; [|by apply IH]. unfold locked_out. destruct (Z.eqb_spec n 0) as [->|].
    + rewrite (proj2 IE Hn) in IX. done.
    + rewrite (proj2 IP), andb_comm in IX by eauto. done.
  - intros Hz n. unfold locked_out. rewrite Hz in IE, IP. destruct (n =? 0).
    + destruct (partitionOpened (shared c)); [|done]. destruct IP as [(? & ?%elem_of_nil & _) _]; done.
    + destruct (entireDiskOpened (shared c)); [|done]. destruct IE as [?%elem_of_nil _]; done.
Qed.

(** VD_open reads the flags and sets them without the mutex.  Two opens
    whose checks both run before either assignment leave the whole disk and a
    partition open together, and from then on every read of either fails. *)
Theorem open_race {D} `{VDOps D} cfg (d : D) sz s c1 c2 n p out1 out2 len1 len2 off1 off2 :
  wf_state sz s -> entireDiskOpened s = false -> partitionOpened s = false ->
  is_partition s n p -> 0 < n ->
  exists e q, open_guard cfg s (String c1 ENTIRE_DISK_STR) 0 = Some (Ok e) /\
    open_guard cfg s (String c2 (partition_name n)) 0 = Some (Ok q) /\
    let s' := open_commit (open_commit s e) q in
    VD_read d s' (String c1 ENTIRE_DISK_STR) out1 len1 off1 = Some (d, out1, Err EIO) /\
    VD_read d s' (String c2 (partition_name n)) out2 len2 off2 = Some (d, out2, Err EIO).
Proof.
  intros Hwf He Hp Hip Hn.
  assert (is_partition s 0 (entire sz)) as Hip0 by (split; [destruct Hip; lia | split; [by apply table_entire in Hwf | done]]).
  pose proof (findPartition_name sz s c1 0 _ Hwf Hip0) as F0. pose proof (findPartition_name sz s c2 n _ Hwf Hip) as F1.
  change (partition_name 0) with ENTIRE_DISK_STR in F0.
  exists 0, n. unfold open_guard. rewrite F0, F1. cbn [mbind option_bind]. rewrite He, Hp.
  rewrite (proj2 (Z.eqb_neq n (-1))) by lia. rewrite !andb_false_r. cbn [andb orb Z.eqb].
  split_and!; try done; unfold VD_read; cbn [open_commit].
  - replace (findPartition _ (String c1 ENTIRE_DISK_STR)) with (Some 0) by (symmetry; exact F0).
    cbn. by rewrite (proj2 (Z.eqb_neq n 0)) by lia.
  - replace (findPartition _ (String c2 (partition_name n))) with (Some n) by (symmetry; exact F1).
    cbn. rewrite (proj2 (Z.eqb_neq n 0)), (proj2 (Z.ltb_ge n 0)) by lia. done.
Qed.

(** the directory lists exactly the files that can be looked up, and their
    attributes give the size of the partition, the blocks that cover it, and no
    write permission on a read-only mount. *)
Theorem listing_correct cfg sz s c : wf_state sz s -> 0 <= sz < 2 ^ 63 ->
  exists names, VD_readdir s "/" = Some (Ok ("."%string :: ".."%string :: names)) /\
    forall x, (x ∈ names <-> exists n, findPartition s (String c x) = Some n /\ 0 <= n) /\
      (x ∈ names -> exists n p st, is_partition s n p /\ name p = x /\ VD_getattr cfg s (String c x) = Some (Ok st) /\
         st_size st = size p /\ (st_blocks st - 1) * BLOCKSIZE < size p <= st_blocks st * BLOCKSIZE /\
         (readonly cfg = true -> Z.land (st_mode st) write_bits = 0)).
Proof.
  intros Hwf Hsz. destruct (readdir_spec sz s Hwf) as (names & -> & Hn). exists names. split; [done|]. intros x. split.
  - rewrite Hn. destruct (findPartition_spec sz s c x Hwf) as (m & Hf & Hm). rewrite Hf. split.
    + intros (n & p & Hp & ->). exists m. split; [done|]. destruct Hm as [[_ Hm]|[_ (q & Hq & _)]]; [by destruct (Hm n p Hp) | lia].
    + intros (n & [= <-] & Hn0). destruct Hm as [[-> _]|[-> (p & Hp)]]; [lia | eauto].
  - intros (n & p & Hp & ->)%Hn. destruct (getattr_spec cfg sz s c n p Hwf Hsz Hp) as (st & E & H1 & _ & H3 & H4 & _).
    exists n, p, st. destruct (is_partition_name _ _ _ _ Hwf Hp) as (_ & ? & _). done.
Qed.

(** The mount opens an image only as one of the three types the library call
    is given a name for, and an explicit "raw" is refused. *)
Lemma validated_type o mps cs ca magic ty image mp :
  validate_opts o mps cs ca magic = Returns (ty, image, mp) -> ty = "VDI"%string \/ ty = "VMDK"%string \/ ty = "VHD"%string.
Proof.
  unfold validate_opts. destruct mps as [|m []]; try done.
  destruct (imagefilename o) as [i|]; [|done]. do 3 (guard_case; [done|]).
  destruct (negb _) eqn:Gt; [done|]. apply negb_false_iff in Gt. revert Gt. unfold IS_TYPE.
  destruct (String.eqb_spec "auto" (diskType o)) as [Ha|Ha].
  - intros _. unfold detectDiskType. repeat (destruct (bool_decide _); [intros [= <- _ _]; tauto|]). done.
  - destruct (String.eqb_spec "VDI" (diskType o)) as [<-|]; [by intros _ [= <- _ _]; left|].
    destruct (String.eqb_spec "VMDK" (diskType o)) as [<-|]; [by intros _ [= <- _ _]; right; left|].
    destruct (String.eqb_spec "VHD" (diskType o)) as [<-|]; [by intros _ [= <- _ _]; right; right | done].
Qed.

Lemma raw_type_refused o mp cs ca magic image : diskType o = "raw"%string -> imagefilename o = Some image ->
  exists m, validate_opts o [mp] cs ca magic = Exits m.
Proof.
  intros Ht Hi. unfold validate_opts. rewrite Hi. do 3 (guard_case; [by eauto|]). unfold IS_TYPE. rewrite Ht. cbn. eauto.
Qed.

(** Without the memory behind it, the table is overrun on every
    initialisation: the loop runs one entry past the array. *)
Lemma reset_overruns_table tbl : zlen tbl = HOSTPARTITION_MAX + 1 -> reset_table tbl = None.
Proof.
  unfold reset_table, HOSTPARTITION_MAX. intros Hl.
  destruct (zwrite tbl 0 _) as [t|] eqn:E; [|done]. cbn [mbind option_bind]. apply zwrite_Some in E as (_ & _ & Hl' & _).
  assert (forall k i t, 0 <= i -> zlen t = 101 -> 101 < i + Z.of_nat k -> i <= 101 -> reset_loop k i t = None) as H.
  { clear. intros k; induction k as [|k IH]; intros i t Hi Ht Hk Hb; [lia|]. cbn [reset_loop].
    destruct (decide (i = 101)) as [->|]; [by rewrite zget_outside by lia|].
    destruct (zget_inside t i) as [p ->]; [lia|]. cbn [mbind option_bind].
    destruct (zset t i _) as [t'|] eqn:E; [|done]. cbn [mbind option_bind]. apply zset_Some in E as (_ & Hl & _).
    apply IH; lia. }
  apply H; lia.
Qed.

(** ** Sample images *)

Definition raw_entry (ty lba blocks : Z) : list Z := [0; 0; 0; 0; ty; 0; 0; 0] ++ le_encode 4 lba ++ le_encode 4 blocks.

(** A boot record with two entries. *)
Definition boot_record (e1 e2 : list Z) : list Z :=
  replicate 446 0 ++ e1 ++ e2 ++ replicate 32 0 ++ [0x55; 0xaa].

(** Two primary partitions on a disk of four sectors. *)
Definition sample_disk : list Z := boot_record (raw_entry 0x83 1 1) (raw_entry 7 2 2) ++ replicate 1536 7.

(** An extended partition at sector 1 whose EBR, laid out as usual at the start
    of that sector, defines one logical partition. *)
Definition ebr_disk : list Z :=
  boot_record (raw_entry 5 1 3) (raw_entry 0 0 0) ++ boot_record (raw_entry 0x83 1 2) (raw_entry 0 0 0) ++ replicate 1024 0.

Definition blank_table : list Partition := replicate 102 zero_partition.

Definition sample_state : vd_state :=
  match initialisePartitionTable sample_disk blank_table 0 with
  | Some (_, Returns (tbl, last)) => VD tbl last false false 0
  | _ => VD [] 0 false false 0
  end.

Definition sample_entry (i : Z) : MBRentry := default zero_entry (entry_at sample_disk (MBR_START + (i - 1) * 16)).

Lemma sample_disk_bytes : wf_bytes sample_disk.
Proof. wf_concrete. Qed.

Lemma sample_state_wf : wf_state 2048 sample_state.
Proof.
  destruct (init_table_spec sample_disk blank_table 0) as (d & r & E & _ & Hr);
    [done | unfold HOSTPARTITION_MAX; lia | exact sample_disk_bytes |].
  assert (match initialisePartitionTable sample_disk blank_table 0 with Some (_, Returns _) => true | _ => false end = true) as Hret
    by (vm_compute; done).
  unfold wf_state, sample_state. rewrite E in *. destruct r as [[tbl last]|m]; [exact Hr | done].
Qed.

Lemma sample_partition_2 : is_partition sample_state 2 (Part "Partition2" 1024 1024 2 (sample_entry 2)).
Proof. split_and!; [done | done | vm_compute; reflexivity | done]. Qed.

(** the EBR is read 446 bytes into its sector although the structure it is
    read into starts with the 446 bytes of boot code, so the usual layout of a
    logical partition is refused. *)
Theorem standard_ebr_rejected :
  le16_to_cpup ebr_disk (512 + 510) = Some 0xaa55 /\
  option_map type (entry_at ebr_disk (512 + EBR_START)) = Some 0x83 /\
  initialisePartitionTable ebr_disk blank_table 0 = Some (ebr_disk, Exits "Invalid EBR signature found on image").
Proof. by vm_compute. Qed.

Lemma init_table_correct_witness :
  exists d' r, initialisePartitionTable sample_disk blank_table 0 = Some (d', r) /\ vd_data d' = vd_data sample_disk /\
    match r with Returns (tbl', last') => wf_table (zlen (vd_data sample_disk)) tbl' last' | Exits _ => True end.
Proof. apply (init_table_correct sample_disk blank_table 0); [done | unfold HOSTPARTITION_MAX; lia | exact sample_disk_bytes]. Defined.

Lemma four_cases (P : Z -> Prop) : P 1 -> P 2 -> P 3 -> P 4 -> forall i, 1 <= i <= 4 -> P i.
Proof. intros H1 H2 H3 H4 i Hi. assert (i = 1 \/ i = 2 \/ i = 3 \/ i = 4) as [->|[->|[->| ->]]] by lia; done. Qed.

Lemma init_mbr_correct_witness :
  exists d' tbl' last', initialisePartitionTable sample_disk blank_table 0 = Some (d', Returns (tbl', last')) /\
    tbl'.[0] = Some (entire (zlen (vd_data sample_disk))) /\
    (forall i, 1 <= i <= 4 -> tbl'.[i] = Some (
       if type (sample_entry i) =? 0 then Part "" 0 0 UNALLOCATED (sample_entry i)
       else Part (partition_name i) (eoffset (sample_entry i) * 512) (esize (sample_entry i) * 512) i (sample_entry i))) /\
    (forall i, 5 <= i <= HOSTPARTITION_MAX -> tbl'.[i] = Some (set_no zero_partition UNALLOCATED)).
Proof.
  apply (init_mbr_correct sample_disk blank_table 0 sample_entry);
    [done | unfold HOSTPARTITION_MAX; lia | exact sample_disk_bytes | vm_compute; reflexivity | |];
    apply four_cases; vm_compute; reflexivity.
Defined.

Lemma findPartition_correct_witness : exists n, findPartition sample_state "/Partition2" = Some n /\
  (n = -1 \/ exists p, is_partition sample_state n p) /\
  forall m p, is_partition sample_state m p -> name p = "Partition2"%string <-> m = n.
Proof. apply (findPartition_correct 2048 sample_state "/"%char "Partition2"). exact sample_state_wf. Defined.

Lemma VD_read_correct_witness : exists d' out',
  VD_read sample_disk sample_state "/Partition2" (replicate 100 0) 100 1000
    = Some (d', out', Ok (Z.max 0 (Z.min 100 (1024 - 1000)))) /\
  vd_data d' = vd_data sample_disk /\
  forall j, 0 <= j -> out'.[j] = if (j <? 100) && (1000 + j <? 1024) then (vd_data sample_disk).[1024 + 1000 + j]
    else (replicate 100 0).[j].
Proof.
  apply (VD_read_correct sample_disk sample_state "/"%char "Partition2" 2
    (Part "Partition2" 1024 1024 2 (sample_entry 2)) (replicate 100 0) 100 1000);
    [exact sample_state_wf | vm_compute; reflexivity | exact sample_partition_2 | reflexivity | vm_compute; intuition discriminate ..].
Defined.

Lemma VD_write_confined_witness : exists d' r,
  VD_write sample_disk sample_state "/Partition2" (replicate 100 9) 100 1000 = Some (d', r) /\
  frame (vd_data sample_disk) (vd_data d') 1024 (1024 + 1024) /\
  match r with
  | Ok m => m = Z.max 0 (Z.min 100 (1024 - 1000)) /\
      forall j, 0 <= j < m -> (vd_data d').[1024 + 1000 + j] = (replicate 100 9).[j]
  | Err e => e = EIO
  end.
Proof.
  apply (VD_write_confined sample_disk sample_state "/"%char "Partition2" 2
    (Part "Partition2" 1024 1024 2 (sample_entry 2)) (replicate 100 9) 100 1000);
    [exact sample_state_wf | vm_compute; reflexivity | exact sample_partition_2 | reflexivity | vm_compute; intuition discriminate ..].
Defined.

Definition sample_config : vd_config := Config true true false (Stat 0 1 0 0 0 0).

Lemma fuse_exclusion_witness : exists c : conf (list Z), handles c = [2] /\ 
  (0 ∈ handles c -> forall n, n ∈ handles c -> n = 0) /\ opened (shared c) = zlen (handles c) /\
  (forall n, n ∈ handles c -> locked_out (shared c) n = false /\ exists p, is_partition (shared c) n p) /\
  (handles c = [] -> forall n, locked_out (shared c) n = false).
Proof.
  exists (Conf sample_disk (open_commit sample_state 2) [2]). split; [done|].
  apply (fuse_exclusion sample_config sample_disk sample_disk blank_table (partitionTable sample_state) 2);
    [exact sample_disk_bytes | done | vm_compute; reflexivity |].
  apply rtc_once. apply (step_open _ _ _ [] "/"%char "Partition2" 0 2); [vm_compute; reflexivity..].
Defined.

Lemma open_race_witness : exists e q, open_guard sample_config sample_state "/EntireDisk" 0 = Some (Ok e) /\
  open_guard sample_config sample_state "/Partition2" 0 = Some (Ok q) /\
  let s' := open_commit (open_commit sample_state e) q in
  VD_read sample_disk s' "/EntireDisk" [0] 1 0 = Some (sample_disk, [0], Err EIO) /\
  VD_read sample_disk s' "/Partition2" [0] 1 0 = Some (sample_disk, [0], Err EIO).
Proof.
  apply (open_race sample_config sample_disk 2048 sample_state "/"%char "/"%char 2
    (Part "Partition2" 1024 1024 2 (sample_entry 2)) [0] [0] 1 1 0 0);
    [exact sample_state_wf | reflexivity | reflexivity | exact sample_partition_2 | lia].
Defined.

Lemma listing_correct_witness :
  exists names, VD_readdir sample_state "/" = Some (Ok ("."%string :: ".."%string :: names)) /\
    forall x, (x ∈ names <-> exists n, findPartition sample_state (String "/"%char x) = Some n /\ 0 <= n) /\
      (x ∈ names -> exists n p st, is_partition sample_state n p /\ name p = x /\
         VD_getattr sample_config sample_state (String "/"%char x) = Some (Ok st) /\
         st_size st = size p /\ (st_blocks st - 1) * BLOCKSIZE < size p <= st_blocks st * BLOCKSIZE /\
         (readonly sample_config = true -> Z.land (st_mode st) write_bits = 0)).
Proof. apply (listing_correct sample_config 2048 sample_state "/"%char sample_state_wf). lia. Defined.
